(* ===== verification/_CoqProject ===== *)
-Q . S2P
Prelude.v
Text.v
Order.v
Protocol.v
Frame.v
Startup.v
BackendWire.v
Secrets.v
Auth.v
Cycle.v
Lsn.v
RoutingTypes.v
Route.v
Policy.v
Sharding.v
PolicyRuntime.v
ShardExtract.v
AuthQuery.v
Sql.v
SqlClassify.v
Fingerprint.v
Session.v
ReadRouting.v
ShardRouting.v
Prepare.v
Resilience.v
Cancel.v
Tasks.v
Backpressure.v
Pool.v
Pools.v
Coordinator.v
RequestPlan.v
Guardrails.v
Checkout.v
Effects.v
Login.v
Forwarding.v
Recovery.v
ClientSession.v
Admission.v
Custody.v
Gatekeeping.v
Replay.v
Release.v
Scenarios.v
Drain.v
Timestamp.v
Health.v
Lifecycle.v
F64.v
Mirror.v
Pressure.v
Buffers.v
QueryStats.v
SharedSession.v
SharedFacts.v
Config.v
Assembly.v
Reload.v
Adaptive.v
Observability.v
Labels.v
Performance.v
Benchmark.v
Control.v
Address.v
SnapshotTypes.v
Metrics.v
Snapshot.v
AdminTables.v
AdminSession.v
Telemetry.v
Preflight.v
