(* ===== verification/Prelude.v ===== *)
(** * pg-kinetic: a verified model of a PostgreSQL connection proxy

    pg-kinetic sits between PostgreSQL clients and servers. It admits a
    client (TLS, authentication, route), reads its wire messages, decides for
    each cycle of messages whether the primary, a replica or a shard serves
    it, lends the session a server connection from a pool, rewrites
    prepared-statement names so that a statement survives a change of
    connection, forwards the answer, cleans the connection and gives it back,
    and replays session settings where a new connection needs them. The
    crates are [pg-kinetic-wire] (messages), [pg-kinetic-core] (decisions and
    state, free of I/O) and [pg-kinetic-proxy] (the running proxy), under
    [src/crates].

    ** How code becomes definitions

    A Rust function is a function of the same name where the name is free. A
    [u8] is a [Z] in [0, 256); other integers are [Z]s with wrapping,
    saturating or checked operations written out at their width. A string is
    the list of its Unicode scalar values and its bytes are [encode_utf8] of
    it, so slicing at a byte position that is not a character boundary is
    visible. Fallible code returns [result], with [Panic] for an
    out-of-range index or a failed [expect]; code whose only failure is a
    panic or exhausted fuel returns [option]. [HashMap] is [gmap]. Methods
    take the state before and return the state after. Three kinds of effects:

    - tasks that share atomics, locks and semaphores are step relations in
      which every atomic operation or critical section is one step ([Tasks]);
      steps are sequentially consistent, so the reorderings that weaker
      atomic orderings allow are not seen;
    - the asynchronous code of a session is a program, a tree of commands to
      servers, the client, the pools and the clock, run against an arbitrary
      environment that sees the whole history ([Effects]); [timeout] drops a
      program at any of its awaits, with the leases it owns; a theorem about
      every environment is about every behaviour of the network;
    - cryptographic primitives are the interface [Crypto] with the laws
      [CryptoLaws] ([Secrets]), instantiated for the witnesses.

    Decisions do not read the metrics, traces and snapshots they leave
    behind, so the models of the decisions leave them out; [Metrics],
    [Snapshot] and [Telemetry] model them on their own.

    Loops that are not structural take fuel, one more than the length of
    their input, since every iteration consumes input; exhaustion is [None]
    (or part of an error type), and the [_total] lemmas and the termination
    theorems prove that it does not happen. A loop that waits for a peer takes
    as fuel the number of reads the environment will complete ([Patience]),
    after which it waits for ever, the outcome [Hang] of a program. Number
    printing uses the number of digits of the type's maximum (8 hexadecimal
    digits a word, 20 decimal digits).

    ** Files

    - [Prelude]: outcomes, machine integers, big-endian fields, lists,
      tactics, the hint database [pgk], reachability. [Order]: the order of
      strings and its encoding. [Text]: UTF-8 and string methods.
    - [Protocol], [Frame], [Startup], [BackendWire]: [pg-kinetic-wire] and
      the packets and message builders of the proxy.
    - [Cycle]: [proxy/engine/io_runtime.rs], cutting the client's stream and
      forwarding the server's.
    - [Lsn], [RoutingTypes], [Route]: [core/cluster/lsn.rs], the enums of
      [core/traffic/routing.rs], the keys of [core/traffic/route.rs].
    - [Sql], [SqlClassify], [Fingerprint]: [core/protocol/sql.rs],
      [core/protocol/sql_classify.rs], [core/fingerprint.rs].
    - [Session]: [core/protocol/virtual_session.rs] (Module [Virtual]) and
      [core/protocol/session.rs] (Module [Events], and what both share); the
      Modules [VirtualFacts] and [EventFacts] hold their invariants.
    - [ReadRouting], [Policy], [PolicyRuntime]: [proxy/routing.rs],
      [core/traffic/policy.rs] and [policy_rule.rs], [proxy/routing/policy.rs].
    - [Sharding], [ShardExtract], [ShardRouting]: [core/traffic/sharding.rs],
      [core/traffic/shard_extract.rs], [proxy/routing/sharding.rs].
    - [Prepare]: [core/protocol/prepare.rs] and [prepare_frame_for_backend].
    - [Secrets], [Auth], [AuthQuery]: [core/security/secrets.rs],
      [proxy/auth.rs], [proxy/pool/backend_query.rs].
    - [Resilience], [Cancel]: [proxy/resilience.rs], [proxy/cancel.rs].
    - [Tasks]: the interface [TaskSystem] of concurrent components and the
      facts about totals over tasks that its clients share; its instances
      [Backpressure] ([BackpressureGate] of [core/traffic/backpressure.rs])
      and [Pool] ([BackendStore] and [checkout_with_mode] of
      [proxy/pool.rs]). [Pools], [Coordinator]: pool references, selectors
      and registries of [pool.rs], the gates of all routes.
    - [RequestPlan], [Guardrails], [Checkout]: [proxy/request_plan.rs],
      [guardrails.rs], the targets and startup packets of
      [proxy/checkout.rs].
    - [Effects]: the session's variables, commands, programs, [run] and the
      program logic [wp]. On it: [Login] ([proxy/backend_startup.rs]),
      [Forwarding] ([proxy/forwarding.rs]), [Recovery] ([proxy/recovery.rs],
      [core/cluster/cleanup.rs], [recovery.rs]), [ClientSession]
      ([proxy/client_session.rs], [client_io.rs], [connection.rs]) and
      [Admission] (the startup of a client, [RoutePoolSelector] of
      [proxy.rs], [handle_client]).
    - [SharedSession]: the session loop of the io_uring engine
      ([proxy/client_session.rs], [engine/io_uring.rs]) on the same effects;
      [SharedFacts]: its theorems.
    - [Custody], [Gatekeeping], [Replay], [Release]: the theorems about whole
      sessions. [Scenarios]: their witnesses and the runs that exhibit
      defects.
    - [Config], [Assembly], [Reload]: [proxy/config.rs], the pools that
      [proxy.rs] builds from it, [proxy/ops/reload.rs]. [Preflight]:
      [proxy/ops/preflight.rs] and the choice of an engine.
    - [Drain] (Modules [Drain] and [Pause]), [Lifecycle]: [proxy/ops/drain.rs]
      and [pause.rs]; [ops/lifecycle.rs], [core/cluster/runtime.rs] and the
      accept loop [run_shard] of [proxy.rs].
    - [Timestamp], [Health]: the endpoint probes of [proxy/observe/health.rs]
      and [core/cluster/ha.rs].
    - [F64]: binary64 arithmetic as the code uses it. On it: [Mirror]
      ([core/traffic/mirror.rs], [proxy/ops/mirror.rs]), [Pressure]
      ([proxy/net/limits.rs], [pressure.rs]), [QueryStats]
      ([proxy/query_stats.rs]), [Adaptive] ([core/cluster/adaptive.rs],
      [proxy/ops/adaptive.rs]). [Buffers]: [proxy/net/buffers.rs].
    - [Control]: [core/cluster/control.rs] and [proxy/ops/control.rs].
    - [Observability], [Labels]: [core/observability.rs] and the labels of
      the enums; [Performance], [Benchmark]: [core/observability/] and
      [core/lab/benchmark.rs].
    - [Metrics]: [proxy/observe/metrics.rs] and the series that other modules
      record themselves. [Address], [SnapshotTypes], [Snapshot]:
      [proxy/observe/snapshot.rs]. [Telemetry]: [proxy/observe/telemetry.rs]
      and [proxy/audit.rs].
    - [AdminTables], [AdminSession]: [core/admin.rs] and
      [proxy/ops/admin.rs], the views and the session of an administrator.

    ** What is proved

    - Whole sessions, for every behaviour of network, pools and other tasks:
      a session uses only the connection it was lent and owes nothing at its
      end, its cancel key never points at a connection it gave back; nobody
      is admitted past a required authentication or outside a required TLS
      connection, and bytes sent before a handshake are never a startup
      packet; a query is sent twice only if it is one Query message of a
      session without pins, every statement of its text is classified as a
      read or controls a transaction, and no whole frame of an answer was
      read; what a connection has behind it when it is released. Custody and
      the replay are proved of both session loops.
    - Wire formats: frames, Parse and Bind messages, startup packets, error
      responses, the synthesized startup answer and admin tables round-trip
      or have exactly the stated frames; decoding and rewriting never panic
      and renaming a statement changes nothing else.
    - Cycles: the client's stream is cut at message boundaries for every
      buffer, and the bytes the client receives do not depend on how the
      network cuts the server's answer; the answers to injected Parse
      messages, and only those, are swallowed.
    - SQL: the classifiers return on every text; exactly which texts a replica
      may run, which the examples beside the theorem show to be more than the
      documentation says; splitting inverts joining; canonical SET statements are read exactly;
      fingerprints are bounded; plans do not depend on their cache.
    - Sessions' books: they are consistent in every reachable state, a
      transaction that wrote stays on the primary, a transaction keeps its
      shard; a server that accepted the client's own SET statements is brought
      to the same settings by the replayed ones, on the assumptions about
      servers that the theorem states.
    - Routing: exactly when a replica is chosen and which; exactly which
      shard; policies cannot make it unsafe; the checkout's target is sound;
      guardrails refuse exactly what they should.
    - Prepared statements: over any history of frames, servers, errors and
      route-map changes in which the client closes no name of the proxy's own,
      a Bind of a named statement names one which the chosen server was told
      with the client's own text; unnamed statements are outside the theorem.
    - Authentication: a client that is let in has proved its password or is
      trusted, SCRAM completes between both sides of the code, the service
      password leaves only in the forms the protocol has.
    - Concurrency: the breaker's contract; once [unbind] has returned, no
      cancel packet for the connection is written any more, though one that
      was written may still be on its way; the gate's bounds; the pool's size, exclusive leases
      and exact accounting; what reaping evicts; fair selection and shares;
      no client is served after a drain has completed; a resume releases
      every waiter; the lifecycle moves along its transitions only and
      publishes what it is; mirroring stays within its permits and mirrors
      only what its gates allow; a reused buffer holds no byte of its
      previous session; the view of the cluster says of a peer what a fresh
      heartbeat said, and unknown for a stale one or a marked one; the
      store of route maps refines its specification when calls do not
      overlap, and evaluated runs show what overlapping calls can do.
    - Operations: the pressure controller moves its limit between floor and
      configured value, and reaches each; statistics stay within their
      bounds; timestamps read back exactly; the pools that a configuration
      gives and when the start refuses it; a reload changes only the settings
      that the code lets it change and keeps the credentials coherent; the
      adaptive controller records what each tick concluded and applies only
      what its guardrails allow.
    - Observation: every sample is a series of the catalog or one of nine
      others; the snapshot store gives back what was reported; the admin
      views are tables of the announced columns and types, but for a list of
      cells; an administrator's session does nothing without an admitted
      connection.
    - Defects found on the way are theorems or evaluated runs: logins that
      never end, authentication skipped and databases mixed by connection
      reuse, answers left on released connections, transactions that go on
      elsewhere, a lost wake-up in [unbind], slots lost by checkouts that
      time out while connecting, queue units lost by dropped waits, a
      wrapping idle count, panics off character boundaries, and others.

    ** What is not modelled

    Sockets, TLS, the threads and rings of the io_uring engine, the listeners
    and signals of the process, the parsing of the command line and of TOML,
    the exporters of metrics and traces, log lines and JSON are I/O or library
    calls. WebAssembly policies run third-party code. The laboratory
    ([pg-kinetic-lab]) is test tooling. *)

From stdpp Require Export base tactics list numbers option strings gmap.
From Stdlib Require Export ZArith Lia Ascii.

#[global] Open Scope Z_scope.

(** ** Bytes and text

    A [u8] is a [Z] in [0, 256); a Rust [&str]/[String] is the list of its
    Unicode scalar values. *)
Abbreviation bytes := (list Z).
Abbreviation str := (list Z).

(** ** Outcomes of Rust code

    A fallible Rust function returns [Ok] or [Err]; a function that can hit
    an out-of-range slice or another panicking primitive can also [Panic]. *)
Inductive result (E A : Type) : Type :=
| Ok (a : A)
| Err (e : E)
| Panic.
Arguments Ok {E A} a.
Arguments Err {E A} e.
Arguments Panic {E A}.

#[global] Instance result_ret {E} : MRet (result E) := fun A a => Ok a.
#[global] Instance result_bind {E} : MBind (result E) := fun A B f m =>
  match m with
  | Ok a => f a
  | Err e => Err e
  | Panic => Panic
  end.
#[global] Instance result_fmap {E} : FMap (result E) := fun A B f m =>
  match m with
  | Ok a => Ok (f a)
  | Err e => Err e
  | Panic => Panic
  end.

#[global] Instance result_eq_dec {E A} `{EqDecision E, EqDecision A} :
  EqDecision (result E A).
Proof. solve_decision. Defined.

(** [Option::ok_or]. *)
Definition ok_or {E A} (o : option A) (e : E) : result E A :=
  match o with
  | Some a => Ok a
  | None => Err e
  end.

(** [Result::ok]. A panic does not turn into a value: it is kept apart by
    [no_panic] below. *)
Definition result_ok {E A} (r : result E A) : option A :=
  match r with
  | Ok a => Some a
  | Err _ | Panic => None
  end.

Definition no_panic {E A} (r : result E A) : Prop := r <> Panic.

Lemma bind_Ok_inv {E A B} (m : result E A) (f : A -> result E B) b :
  m ≫= f = Ok b -> exists a, m = Ok a /\ f a = Ok b.
Proof. destruct m; cbn; intros H; simplify_eq; eauto. Qed.

Lemma no_panic_bind {E A B} (m : result E A) (f : A -> result E B) :
  no_panic m -> (forall a, m = Ok a -> no_panic (f a)) -> no_panic (m ≫= f).
Proof. unfold no_panic. destruct m; cbn; intros H1 H2; auto; discriminate. Qed.

Lemma no_panic_ok_or {E A} (o : option A) (e : E) : no_panic (ok_or o e).
Proof. destruct o; discriminate. Qed.

(** ** Machine integers

    A [w]-bit value is kept as a [Z]; [wrap_u] and [wrap_i] are the [as]
    casts to the unsigned and signed type of width [w]. *)
Definition wrap_u (w z : Z) : Z := z mod 2 ^ w.

Definition wrap_i (w z : Z) : Z :=
  let m := z mod 2 ^ w in
  if m <? 2 ^ (w - 1) then m else m - 2 ^ w.

Definition u_range (w z : Z) : Prop := 0 <= z < 2 ^ w.
Definition i_range (w z : Z) : Prop := - 2 ^ (w - 1) <= z < 2 ^ (w - 1).

(** [usize] and [u64] are 64 bits wide on every supported target. *)
Definition U64_MAX : Z := 2 ^ 64 - 1.
Definition USIZE_MAX : Z := 2 ^ 64 - 1.

(** [saturating_add], [saturating_mul], [saturating_sub] on [usize]/[u64]. *)
Definition sat_add (a b : Z) : Z := Z.min U64_MAX (a + b).
Definition sat_mul (a b : Z) : Z := Z.min U64_MAX (a * b).
Definition sat_sub (a b : Z) : Z := Z.max 0 (a - b).

Lemma wrap_i_id w z : 0 < w -> i_range w z -> wrap_i w z = z.
Proof.
  intros Hw [Hlo Hhi]. unfold wrap_i.
  assert (Hp : 2 ^ w = 2 * 2 ^ (w - 1)).
  { rewrite <- Z.pow_succ_r by lia. f_equal. lia. }
  assert (0 < 2 ^ (w - 1)) by (apply Z.pow_pos_nonneg; lia).
  destruct (Z.ltb_spec (z mod 2 ^ w) (2 ^ (w - 1))) as [H1|H1];
    destruct (Z.le_gt_cases 0 z).
  - apply Z.mod_small. lia.
  - exfalso. rewrite <- (Z.mod_add _ 1), Z.mod_small in H1; lia.
  - exfalso. rewrite Z.mod_small in H1; lia.
  - rewrite <- (Z.mod_add _ 1), Z.mod_small by lia. lia.
Qed.

Lemma wrap_i_range w z : 0 < w -> i_range w (wrap_i w z).
Proof.
  intros Hw. unfold wrap_i, i_range.
  assert (Hp : 2 ^ w = 2 * 2 ^ (w - 1)).
  { rewrite <- Z.pow_succ_r by lia. f_equal. lia. }
  assert (0 < 2 ^ (w - 1)) by (apply Z.pow_pos_nonneg; lia).
  pose proof (Z.mod_pos_bound z (2 ^ w) ltac:(lia)).
  destruct (Z.ltb_spec (z mod 2 ^ w) (2 ^ (w - 1))); lia.
Qed.

Lemma wrap_i_u w z : 0 < w -> wrap_i w z mod 2 ^ w = z mod 2 ^ w.
Proof.
  intros Hw. unfold wrap_i.
  destruct (Z.ltb_spec (z mod 2 ^ w) (2 ^ (w - 1))).
  - apply Z.mod_mod. lia.
  - rewrite <- (Z.mod_add _ 1) by lia. rewrite Z.mul_1_l, Z.sub_add.
    apply Z.mod_mod. lia.
Qed.

(** ** Big-endian encodings ([BufMut::put_i16], [put_i32]; [from_be_bytes]) *)
Definition byte_ok (b : Z) : Prop := 0 <= b < 256.

Definition put_i16 (v : Z) : bytes :=
  let u := v mod 2 ^ 16 in [u / 2 ^ 8; u mod 2 ^ 8].

Definition put_i32 (v : Z) : bytes :=
  let u := v mod 2 ^ 32 in
  [u / 2 ^ 24; (u / 2 ^ 16) mod 2 ^ 8; (u / 2 ^ 8) mod 2 ^ 8; u mod 2 ^ 8].

Definition i16_from_be_bytes (b0 b1 : Z) : Z := wrap_i 16 (b0 * 2 ^ 8 + b1).

Definition i32_from_be_bytes (b0 b1 b2 b3 : Z) : Z :=
  wrap_i 32 (b0 * 2 ^ 24 + b1 * 2 ^ 16 + b2 * 2 ^ 8 + b3).

Lemma put_i16_bytes v : Forall byte_ok (put_i16 v).
Proof.
  unfold put_i16, byte_ok.
  pose proof (Z.mod_pos_bound v (2 ^ 16) ltac:(lia)).
  repeat constructor; try (apply Z.mod_pos_bound; lia).
  - apply Z.div_pos; lia.
  - apply Z.div_lt_upper_bound; lia.
Qed.

Lemma put_i32_bytes v : Forall byte_ok (put_i32 v).
Proof.
  unfold put_i32, byte_ok.
  pose proof (Z.mod_pos_bound v (2 ^ 32) ltac:(lia)).
  repeat constructor; try (apply Z.mod_pos_bound; lia).
  - apply Z.div_pos; lia.
  - apply Z.div_lt_upper_bound; lia.
Qed.

Lemma i16_roundtrip v :
  i_range 16 v ->
  match put_i16 v with
  | [a; b] => i16_from_be_bytes a b = v
  | _ => False
  end.
Proof.
  intros H. unfold put_i16, i16_from_be_bytes.
  set (u := v mod 2 ^ 16).
  replace (u / 2 ^ 8 * 2 ^ 8 + u mod 2 ^ 8) with u
    by (pose proof (Z.div_mod u (2 ^ 8) ltac:(lia)); lia).
  transitivity (wrap_i 16 v); [|apply wrap_i_id; [lia|done]].
  unfold wrap_i, u. rewrite Z.mod_mod by lia. done.
Qed.

Lemma i32_roundtrip v :
  i_range 32 v ->
  match put_i32 v with
  | [a; b; c; d] => i32_from_be_bytes a b c d = v
  | _ => False
  end.
Proof.
  intros H. unfold put_i32, i32_from_be_bytes.
  set (u := v mod 2 ^ 32).
  replace (u / 2 ^ 24 * 2 ^ 24 + (u / 2 ^ 16) mod 2 ^ 8 * 2 ^ 16
           + (u / 2 ^ 8) mod 2 ^ 8 * 2 ^ 8 + u mod 2 ^ 8) with u.
  - transitivity (wrap_i 32 v); [|apply wrap_i_id; [lia|done]].
    unfold wrap_i, u. rewrite Z.mod_mod by lia. done.
  - pose proof (Z.div_mod u (2 ^ 8) ltac:(lia)).
    pose proof (Z.div_mod (u / 2 ^ 8) (2 ^ 8) ltac:(lia)) as H1.
    pose proof (Z.div_mod (u / 2 ^ 16) (2 ^ 8) ltac:(lia)) as H2.
    rewrite Z.div_div in H1, H2 by lia.
    change (2 ^ 8 * 2 ^ 8) with (2 ^ 16) in H1.
    change (2 ^ 16 * 2 ^ 8) with (2 ^ 24) in H2.
    change (2 ^ 8) with 256 in *. change (2 ^ 16) with 65536 in *.
    change (2 ^ 24) with 16777216 in *. lia.
Qed.

(** The four (two) bytes of a value in range, with the equation that reads
    them back; what the frame proofs rewrite with. *)
Lemma put_i32_spec v :
  i_range 32 v ->
  exists a b c d, put_i32 v = [a; b; c; d] /\ i32_from_be_bytes a b c d = v.
Proof. intros H. pose proof (i32_roundtrip v H). unfold put_i32 in *. eauto 7. Qed.

Lemma put_i16_spec v :
  i_range 16 v -> exists a b, put_i16 v = [a; b] /\ i16_from_be_bytes a b = v.
Proof. intros H. pose proof (i16_roundtrip v H). unfold put_i16 in *. eauto. Qed.

(** ** Lengths

    [len] is [slice::len] as a [Z]. *)
Definition len {A} (l : list A) : Z := Z.of_nat (length l).

Lemma len_nonneg {A} (l : list A) : 0 <= len l.
Proof. unfold len. lia. Qed.

Lemma len_app {A} (l k : list A) : len (l ++ k) = len l + len k.
Proof. unfold len. rewrite length_app. lia. Qed.

Lemma len_cons {A} (x : A) (l : list A) : len (x :: l) = 1 + len l.
Proof. unfold len. simpl length. lia. Qed.

Lemma len_nil {A} : len (@nil A) = 0.
Proof. reflexivity. Qed.

Lemma to_nat_len {A} (l : list A) : Z.to_nat (len l) = length l.
Proof. unfold len. lia. Qed.

Lemma len_put_i32 v : len (put_i32 v) = 4.
Proof. reflexivity. Qed.

Create Rewrite HintDb len.
#[export] Hint Rewrite @len_app @len_cons @len_nil len_put_i32 : len.

(** Goals over [len] of concatenations. *)
Ltac len_lia :=
  autorewrite with len in *;
  repeat match goal with
         | |- context [len ?l] =>
             lazymatch goal with
             | _ : 0 <= len l |- _ => fail
             | _ => pose proof (len_nonneg l)
             end
         end; lia.

(** [Iterator::position]: the index of the first element satisfying [p]. *)
Fixpoint position {A} (p : A -> bool) (l : list A) : option nat :=
  match l with
  | [] => None
  | x :: r => if p x then Some O else S <$> position p r
  end.

Lemma position_Some {A} (p : A -> bool) l n :
  position p l = Some n ->
  exists x, l !! n = Some x /\ p x = true /\
       Forall (fun y => p y = false) (take n l) /\ (n < length l)%nat.
Proof.
  revert n. induction l as [|a l IH]; intros n; [done|].
  cbn. destruct (p a) eqn:Ha.
  - intros [= <-]. exists a. repeat split; auto with lia.
  - destruct (position p l) eqn:Hp; [|done]. intros [= <-].
    destruct (IH _ eq_refl) as (x & Hx & Hpx & Hf & Hlt).
    exists x. cbn. repeat split; auto with lia.
Qed.

Lemma position_None {A} (p : A -> bool) l :
  position p l = None <-> Forall (fun y => p y = false) l.
Proof.
  induction l as [|a l IH]; cbn; [split; auto; constructor|].
  rewrite Forall_cons. destruct (p a) eqn:Ha; [naive_solver|].
  rewrite <- IH. destruct (position p l); naive_solver.
Qed.

Lemma position_app_found {A} (p : A -> bool) l x r :
  Forall (fun y => p y = false) l -> p x = true ->
  position p (l ++ x :: r) = Some (length l).
Proof.
  induction 1 as [|a l Ha Hl IH]; cbn; intros Hx; [by rewrite Hx|].
  rewrite Ha, IH by done. done.
Qed.

Lemma drop_S_app {A} (l : list A) x r : drop (S (length l)) (l ++ x :: r) = r.
Proof. induction l; [done|]. done. Qed.

Lemma elem_of_drop_in {A} (n : nat) (l : list A) x : x ∈ drop n l -> x ∈ l.
Proof. rewrite <- (take_drop n l) at 2. rewrite elem_of_app. auto. Qed.

(** ** Proof automation of the development *)

(** Split every [if] and [match] on a stuck scrutinee, everywhere. *)
Ltac split_matches :=
  repeat match goal with
         | |- context [if ?b then _ else _] => destruct b eqn:?
         | |- context [match ?x with _ => _ end] => destruct x eqn:?
         | H : context [if ?b then _ else _] |- _ => destruct b eqn:?
         | H : context [match ?x with _ => _ end] |- _ => destruct x eqn:?
         end.

(** Turn the boolean tests in the context into propositions. *)
Ltac bool_to_prop :=
  repeat match goal with
         | H : (_ && _)%bool = true |- _ => apply andb_true_iff in H as [? ?]
         | H : (_ || _)%bool = false |- _ => apply orb_false_iff in H as [? ?]
         | H : negb _ = true |- _ => apply negb_true_iff in H
         | H : negb _ = false |- _ => apply negb_false_iff in H
         | H : (_ <? _) = true |- _ => apply Z.ltb_lt in H
         | H : (_ <? _) = false |- _ => apply Z.ltb_ge in H
         | H : (_ <=? _) = true |- _ => apply Z.leb_le in H
         | H : (_ <=? _) = false |- _ => apply Z.leb_gt in H
         | H : (_ =? _) = true |- _ => apply Z.eqb_eq in H
         | H : (_ =? _) = false |- _ => apply Z.eqb_neq in H
         end.

(** Reduce [if] on comparisons that the context decides. *)
Ltac decide_ifs :=
  repeat match goal with
         | |- context [?a <? ?b] =>
             first [ replace (a <? b) with true by (symmetry; apply Z.ltb_lt; lia)
                   | replace (a <? b) with false by (symmetry; apply Z.ltb_ge; lia) ]
         | |- context [?a <=? ?b] =>
             first [ replace (a <=? b) with true by (symmetry; apply Z.leb_le; lia)
                   | replace (a <=? b) with false by (symmetry; apply Z.leb_gt; lia) ]
         | |- context [?a =? ?b] =>
             first [ replace (a =? b) with true by (symmetry; apply Z.eqb_eq; lia)
                   | replace (a =? b) with false by (symmetry; apply Z.eqb_neq; lia) ]
         end.

Create HintDb pgk discriminated.
#[export] Hint Resolve no_panic_ok_or put_i16_bytes put_i32_bytes len_nonneg : pgk.

(** ** Sequences of steps *)
Section Steps.
Context {S : Type} (step : S -> S -> Prop).

(** [Reachable init s]: [s] is reached from a state of [init]. *)
Inductive Reachable (init : S -> Prop) : S -> Prop :=
| reach_init s : init s -> Reachable init s
| reach_step s t : Reachable init s -> step s t -> Reachable init t.

(** Rule induction for an inductive invariant. *)
Lemma reachable_invariant (init inv : S -> Prop) :
  (forall s, init s -> inv s) ->
  (forall s t, inv s -> step s t -> inv t) ->
  forall s, Reachable init s -> inv s.
Proof. intros Hi Hs s Hr. induction Hr; eauto. Qed.
End Steps.
