(* ===== verification/Text.v ===== *)
(** * Text: the parts of Rust's [str] that the proxy uses

    A [&str] is the list of its Unicode scalar values; [encode_utf8] is its
    byte representation and [from_utf8] is [std::str::from_utf8], which
    accepts exactly the well-formed sequences of the Unicode standard
    (table 3-7). Byte offsets into a [&str] are modelled by [split_at_byte],
    which fails where Rust's slice would not lie on a character boundary. *)

From S2P Require Import Prelude.

Definition scalar (c : Z) : Prop := 0 <= c < 55296 \/ 57344 <= c < 1114112.

(** [char::len_utf8]. *)
Definition len_utf8 (c : Z) : Z :=
  if c <? 128 then 1 else if c <? 2048 then 2 else if c <? 65536 then 3 else 4.

Definition encode_char (c : Z) : bytes :=
  if c <? 128 then [c]
  else if c <? 2048 then [192 + c / 64; 128 + c mod 64]
  else if c <? 65536 then
    [224 + c / 4096; 128 + (c / 64) mod 64; 128 + c mod 64]
  else
    [240 + c / 262144; 128 + (c / 4096) mod 64; 128 + (c / 64) mod 64; 128 + c mod 64].

(** [str::as_bytes]. *)
Definition encode_utf8 (s : str) : bytes := s ≫= encode_char.

(** [str::len], in bytes. *)
Definition str_len (s : str) : Z := len (encode_utf8 s).

Definition in_range (lo hi b : Z) : bool := (lo <=? b) && (b <=? hi).
Definition is_cont (b : Z) : bool := in_range 128 191 b.

(** The second byte a three-byte lead accepts. *)
Definition second_of_3 (b0 b1 : Z) : bool :=
  if b0 =? 224 then in_range 160 191 b1
  else if b0 =? 237 then in_range 128 159 b1
  else in_range 225 239 b0 && is_cont b1.

(** The second byte a four-byte lead accepts. *)
Definition second_of_4 (b0 b1 : Z) : bool :=
  if b0 =? 240 then in_range 144 191 b1
  else if b0 =? 244 then in_range 128 143 b1
  else in_range 241 243 b0 && is_cont b1.

(** [std::str::from_utf8]. *)
Fixpoint from_utf8 (bs : bytes) : option str :=
  match bs with
  | [] => Some []
  | b0 :: r0 =>
      if in_range 0 127 b0 then (b0 ::.) <$> from_utf8 r0
      else
        match r0 with
        | [] => None
        | b1 :: r1 =>
            if in_range 194 223 b0 && is_cont b1 then
              ((b0 - 192) * 64 + (b1 - 128) ::.) <$> from_utf8 r1
            else
              match r1 with
              | [] => None
              | b2 :: r2 =>
                  if second_of_3 b0 b1 && is_cont b2 then
                    ((b0 - 224) * 4096 + (b1 - 128) * 64 + (b2 - 128) ::.) <$> from_utf8 r2
                  else
                    match r2 with
                    | [] => None
                    | b3 :: r3 =>
                        if second_of_4 b0 b1 && is_cont b2 && is_cont b3 then
                          ((b0 - 240) * 262144 + (b1 - 128) * 4096 + (b2 - 128) * 64
                           + (b3 - 128) ::.) <$> from_utf8 r3
                        else None
                    end
              end
        end
  end.

Definition valid_str (s : str) : Prop := Forall scalar s.

(** ** UTF-8 round trips *)

Lemma in_range_true lo hi b : in_range lo hi b = true <-> lo <= b <= hi.
Proof. unfold in_range. rewrite andb_true_iff, !Z.leb_le. done. Qed.

Lemma in_range_false lo hi b : in_range lo hi b = false <-> b < lo \/ hi < b.
Proof. unfold in_range. rewrite andb_false_iff, !Z.leb_gt. done. Qed.

(** Replace the digits base 64 of [c] by variables bounded as digits are. *)
Ltac digits c :=
  pose proof (Z.div_mod c 64 ltac:(lia));
  pose proof (Z.mod_pos_bound c 64 ltac:(lia));
  pose proof (Z.div_mod (c / 64) 64 ltac:(lia));
  pose proof (Z.mod_pos_bound (c / 64) 64 ltac:(lia));
  pose proof (Z.div_mod (c / 64 / 64) 64 ltac:(lia));
  pose proof (Z.mod_pos_bound (c / 64 / 64) 64 ltac:(lia));
  replace (c / 4096) with (c / 64 / 64) in * by (rewrite Z.div_div by lia; done);
  replace (c / 262144) with (c / 64 / 64 / 64) in *
    by (rewrite !Z.div_div by lia; done).

Ltac utf8_cases :=
  repeat match goal with
         | |- context [in_range ?l ?h ?b] =>
             first [ replace (in_range l h b) with true
                       by (symmetry; apply in_range_true; lia)
                   | replace (in_range l h b) with false
                       by (symmetry; apply in_range_false; lia) ]
         | |- context [?a =? ?b] =>
             first [ replace (a =? b) with true by (symmetry; apply Z.eqb_eq; lia)
                   | replace (a =? b) with false by (symmetry; apply Z.eqb_neq; lia)
                   | destruct (Z.eqb_spec a b) ]
         end; cbn [andb].

Lemma from_utf8_encode_char c r :
  scalar c -> from_utf8 (encode_char c ++ r) = (c ::.) <$> from_utf8 r.
Proof.
  intros Hc. unfold encode_char.
  destruct (Z.ltb_spec c 128); [|destruct (Z.ltb_spec c 2048);
    [|destruct (Z.ltb_spec c 65536)]];
    unfold scalar in Hc; digits c;
    generalize dependent (c mod 64); intros d0 **;
    generalize dependent ((c / 64) mod 64); intros d1 **;
    generalize dependent ((c / 64 / 64) mod 64); intros d2 **;
    generalize dependent (c / 64 / 64 / 64); intros d3 **;
    generalize dependent (c / 64 / 64); intros q2 **;
    generalize dependent (c / 64); intros q1 **;
    cbn [app from_utf8]; unfold second_of_3, second_of_4, is_cont; utf8_cases;
    try (f_equal; f_equal; lia).
Qed.

Lemma from_utf8_encode_app s r :
  valid_str s -> from_utf8 (encode_utf8 s ++ r) = (s ++.) <$> from_utf8 r.
Proof.
  induction 1 as [|c s Hc Hs IH]; cbn.
  - by destruct (from_utf8 r).
  - unfold encode_utf8 in *. rewrite <- app_assoc, from_utf8_encode_char, IH by done.
    by destruct (from_utf8 r).
Qed.

Lemma from_utf8_encode s : valid_str s -> from_utf8 (encode_utf8 s) = Some s.
Proof.
  intros Hs. rewrite <- (app_nil_r (encode_utf8 s)), from_utf8_encode_app by done.
  cbn. by rewrite app_nil_r.
Qed.

Ltac utf8_inv :=
  repeat match goal with
         | H : _ && _ = true |- _ => apply andb_true_iff in H as [? ?]
         | H : in_range _ _ _ = true |- _ => apply in_range_true in H
         | H : in_range _ _ _ = false |- _ => apply in_range_false in H
         | H : _ <$> _ = Some _ |- _ => apply fmap_Some in H as (? & ? & ?)
         | H : (_ =? _) = true |- _ => apply Z.eqb_eq in H
         | H : (_ =? _) = false |- _ => apply Z.eqb_neq in H
         end.

Lemma div_64 a b : 0 <= b < 64 -> (a * 64 + b) / 64 = a.
Proof. intros. rewrite Z.div_add_l, Z.div_small by lia. lia. Qed.

Lemma mod_64 a b : 0 <= b < 64 -> (a * 64 + b) mod 64 = b.
Proof. intros. rewrite Z.add_comm, Z.mod_add, Z.mod_small by lia. done. Qed.

(** The digits of a two-, three- or four-byte sequence. *)
Lemma encode_char_2 a b :
  2 <= a <= 31 -> 0 <= b < 64 -> encode_char (a * 64 + b) = [192 + a; 128 + b].
Proof.
  intros. unfold encode_char. decide_ifs.
  rewrite div_64, mod_64 by lia. done.
Qed.

Lemma encode_char_3 a b c :
  0 <= a <= 15 -> 0 <= b < 64 -> 0 <= c < 64 -> (a = 0 -> 32 <= b) ->
  encode_char (a * 4096 + b * 64 + c) = [224 + a; 128 + b; 128 + c].
Proof.
  intros. unfold encode_char. decide_ifs.
  replace (a * 4096 + b * 64 + c) with ((a * 64 + b) * 64 + c) by lia.
  change 4096 with (64 * 64). rewrite <- Z.div_div by lia.
  rewrite !div_64, !mod_64 by lia. done.
Qed.

Lemma encode_char_4 a b c d :
  0 <= a <= 4 -> 0 <= b < 64 -> 0 <= c < 64 -> 0 <= d < 64 -> (a = 0 -> 16 <= b) ->
  encode_char (a * 262144 + b * 4096 + c * 64 + d)
  = [240 + a; 128 + b; 128 + c; 128 + d].
Proof.
  intros. unfold encode_char. decide_ifs.
  replace (a * 262144 + b * 4096 + c * 64 + d)
    with (((a * 64 + b) * 64 + c) * 64 + d) by lia.
  change 262144 with (64 * 64 * 64). change 4096 with (64 * 64).
  rewrite <- !Z.div_div by lia.
  rewrite !div_64, !mod_64 by lia. done.
Qed.

(** One decoded character: its encoding is the consumed prefix. *)
Lemma from_utf8_step b0 r0 s :
  from_utf8 (b0 :: r0) = Some s ->
  exists c t rest, s = c :: t /\ scalar c /\ b0 :: r0 = encode_char c ++ rest /\
              from_utf8 rest = Some t.
Proof.
  cbn. unfold scalar. destruct (in_range 0 127 b0) eqn:H0.
  { intros H. utf8_inv. subst. exists b0, x, r0. unfold encode_char. decide_ifs.
    repeat split; auto; lia. }
  destruct r0 as [|b1 r1]; [done|].
  destruct (in_range 194 223 b0 && is_cont b1) eqn:H1.
  { unfold is_cont in *. intros H. utf8_inv. subst.
    exists ((b0 - 192) * 64 + (b1 - 128)), x, r1.
    rewrite encode_char_2 by lia. repeat split; auto; [lia|].
    cbn. f_equal; [lia|]. f_equal; lia. }
  destruct r1 as [|b2 r2]; [done|].
  destruct (second_of_3 b0 b1 && is_cont b2) eqn:H2.
  { clear H1. unfold second_of_3, is_cont in *. intros H. utf8_inv. subst.
    exists ((b0 - 224) * 4096 + (b1 - 128) * 64 + (b2 - 128)), x, r2.
    destruct (b0 =? 224) eqn:?; destruct (b0 =? 237) eqn:?; utf8_inv;
      (rewrite encode_char_3 by lia; repeat split; auto; [lia|];
       cbn; f_equal; [lia|]; f_equal; [lia|]; f_equal; lia). }
  destruct r2 as [|b3 r3]; [done|].
  destruct (second_of_4 b0 b1 && is_cont b2 && is_cont b3) eqn:H3; [|done].
  clear H1 H2. unfold second_of_4, is_cont in *. intros H. utf8_inv. subst.
  exists ((b0 - 240) * 262144 + (b1 - 128) * 4096 + (b2 - 128) * 64 + (b3 - 128)), x, r3.
  destruct (b0 =? 240) eqn:?; destruct (b0 =? 244) eqn:?; utf8_inv;
    (rewrite encode_char_4 by lia; repeat split; auto; [lia|];
     cbn; f_equal; [lia|]; f_equal; [lia|]; f_equal; [lia|]; f_equal; lia).
Qed.

(** [from_utf8] decodes: re-encoding gives back the bytes. *)
Lemma from_utf8_Some bs s :
  from_utf8 bs = Some s -> encode_utf8 s = bs /\ valid_str s.
Proof.
  remember (length bs) as n eqn:Hn. revert bs s Hn.
  induction (lt_wf n) as [n _ IH]. intros [|b0 r0] s Hn H.
  { cbn in H. simplify_eq. split; [done|constructor]. }
  apply from_utf8_step in H as (c & t & rest & -> & Hc & Heq & Hrest).
  assert (length rest < n)%nat as Hlt.
  { subst n. rewrite Heq, length_app. unfold encode_char.
    repeat case_match; cbn; lia. }
  destruct (IH _ Hlt rest t eq_refl Hrest) as [<- Ht].
  rewrite Heq. split; [done|by constructor].
Qed.

Lemma encode_utf8_app s t : encode_utf8 (s ++ t) = encode_utf8 s ++ encode_utf8 t.
Proof. apply bind_app. Qed.

Lemma length_encode_char c : len (encode_char c) = len_utf8 c.
Proof. unfold encode_char, len_utf8. repeat case_match; done. Qed.

Lemma str_len_app s t : str_len (s ++ t) = str_len s + str_len t.
Proof. unfold str_len. rewrite encode_utf8_app. apply len_app. Qed.

Lemma str_len_cons c s : str_len (c :: s) = len_utf8 c + str_len s.
Proof.
  unfold str_len. rewrite <- length_encode_char. apply len_app.
Qed.

Lemma len_utf8_pos c : 1 <= len_utf8 c <= 4.
Proof. unfold len_utf8. repeat case_match; lia. Qed.

(** A string without the NUL character encodes without a zero byte, so it
    survives as a C string. *)
Definition no_nul (s : str) : Prop := Forall (fun c => c <> 0) s.

Lemma encode_char_no_zero c :
  scalar c -> c <> 0 -> Forall (fun b => (b =? 0) = false) (encode_char c).
Proof.
  intros Hs Hc. unfold scalar in Hs. unfold encode_char.
  pose proof (Z.mod_pos_bound c 64 ltac:(lia)).
  pose proof (Z.mod_pos_bound (c / 64) 64 ltac:(lia)).
  pose proof (Z.mod_pos_bound (c / 4096) 64 ltac:(lia)).
  assert (0 <= c / 64) by (apply Z.div_pos; lia).
  assert (0 <= c / 4096) by (apply Z.div_pos; lia).
  assert (0 <= c / 262144) by (apply Z.div_pos; lia).
  repeat case_match; repeat constructor; apply Z.eqb_neq; lia.
Qed.

Lemma encode_utf8_no_zero s :
  valid_str s -> no_nul s -> Forall (fun b => (b =? 0) = false) (encode_utf8 s).
Proof.
  intros Hs. induction Hs as [|c s Hc Hs IH]; intros Hn; [constructor|].
  inversion Hn; subst. apply Forall_app. split; [by apply encode_char_no_zero|auto].
Qed.

Lemma encode_utf8_no_zero_inv s :
  Forall (fun b => (b =? 0) = false) (encode_utf8 s) -> no_nul s.
Proof.
  induction s as [|c s IH]; [constructor|].
  intros H. apply Forall_app in H as [Hc Hs]. constructor; [|by apply IH].
  intros ->. by inversion Hc.
Qed.

Lemma encode_char_bytes c : scalar c -> Forall byte_ok (encode_char c).
Proof.
  intros Hs. unfold scalar in Hs. unfold encode_char, byte_ok.
  pose proof (Z.mod_pos_bound c 64 ltac:(lia)).
  pose proof (Z.mod_pos_bound (c / 64) 64 ltac:(lia)).
  pose proof (Z.mod_pos_bound (c / 4096) 64 ltac:(lia)).
  assert (0 <= c / 64) by (apply Z.div_pos; lia).
  assert (0 <= c / 4096) by (apply Z.div_pos; lia).
  assert (0 <= c / 262144) by (apply Z.div_pos; lia).
  destruct (Z.ltb_spec c 128); [|destruct (Z.ltb_spec c 2048);
    [|destruct (Z.ltb_spec c 65536)]]; repeat constructor; try lia.
  - enough (c / 64 < 32) by lia. apply Z.div_lt_upper_bound; lia.
  - enough (c / 4096 < 16) by lia. apply Z.div_lt_upper_bound; lia.
  - enough (c / 262144 < 16) by lia. apply Z.div_lt_upper_bound; lia.
Qed.

Lemma encode_utf8_bytes s : valid_str s -> Forall byte_ok (encode_utf8 s).
Proof.
  induction 1; [constructor|]. apply Forall_app. split; auto using encode_char_bytes.
Qed.

(** ** String literals of the source (all ASCII) *)
Fixpoint lit (s : string) : str :=
  match s with
  | EmptyString => []
  | String a r => Z.of_nat (nat_of_ascii a) :: lit r
  end.
Arguments lit s%_string_scope.

Lemma lit_scalar s : valid_str (lit s).
Proof.
  induction s as [|a s IH]; [constructor|]. constructor; [|done].
  left. pose proof (nat_ascii_bounded a). lia.
Qed.

(** Side conditions on literals and on concrete lists, by evaluation. *)
Ltac by_eval := apply (bool_decide_unpack _); vm_compute; exact I.

Ltac solve_lit :=
  lazymatch goal with
  | |- valid_str (lit _) => apply lit_scalar
  | |- no_nul _ => unfold no_nul; by_eval
  end.

(** ** Character classes *)

(** [char::is_whitespace]: the Unicode [White_Space] property. *)
Definition is_whitespace (c : Z) : bool :=
  in_range 9 13 c || (c =? 32) || (c =? 133) || (c =? 160) || (c =? 5760)
  || in_range 8192 8202 c || (c =? 8232) || (c =? 8233) || (c =? 8239)
  || (c =? 8287) || (c =? 12288).

Definition is_ascii_digit (c : Z) : bool := in_range 48 57 c.
Definition is_ascii_alphanumeric (c : Z) : bool :=
  in_range 48 57 c || in_range 65 90 c || in_range 97 122 c.

Definition lower_char (c : Z) : Z := if in_range 65 90 c then c + 32 else c.

(** [str::to_ascii_lowercase], [str::eq_ignore_ascii_case]. *)
Definition to_ascii_lowercase (s : str) : str := lower_char <$> s.
Definition str_eqb (s t : str) : bool := bool_decide (s = t).
Definition eq_ignore_ascii_case (s t : str) : bool :=
  str_eqb (to_ascii_lowercase s) (to_ascii_lowercase t).

(** ** Trimming, splitting, searching *)
Fixpoint trim_start_matches (p : Z -> bool) (s : str) : str :=
  match s with
  | c :: r => if p c then trim_start_matches p r else s
  | [] => []
  end.
Definition trim_end_matches (p : Z -> bool) (s : str) : str :=
  reverse (trim_start_matches p (reverse s)).

Definition trim_start : str -> str := trim_start_matches is_whitespace.
Definition trim_end : str -> str := trim_end_matches is_whitespace.
Definition trim (s : str) : str := trim_end (trim_start s).

Fixpoint split_ws_go (s acc : str) : list str :=
  match s with
  | [] => match acc with [] => [] | _ => [reverse acc] end
  | c :: r =>
      if is_whitespace c then
        match acc with [] => split_ws_go r [] | _ => reverse acc :: split_ws_go r [] end
      else split_ws_go r (c :: acc)
  end.

(** [str::split_whitespace]: the maximal runs of non-whitespace. *)
Definition split_whitespace (s : str) : list str := split_ws_go s [].

(** [[_]::join]. *)
Fixpoint join (sep : str) (l : list str) : str :=
  match l with
  | [] => []
  | [x] => x
  | x :: r => x ++ sep ++ join sep r
  end.

(** [str::strip_prefix] and [str::starts_with]. *)
Fixpoint strip_prefix (pat s : str) : option str :=
  match pat, s with
  | [], _ => Some s
  | p :: ps, c :: r => if p =? c then strip_prefix ps r else None
  | _ :: _, [] => None
  end.
Definition starts_with (pat s : str) : bool := bool_decide (is_Some (strip_prefix pat s)).
Definition ends_with (pat s : str) : bool := starts_with (reverse pat) (reverse s).

(** [str::find] of a string, as a character index. *)
Fixpoint find_str (pat s : str) : option nat :=
  if starts_with pat s then Some O
  else match s with
       | [] => None
       | _ :: r => S <$> find_str pat r
       end.
Definition contains (pat s : str) : bool := bool_decide (is_Some (find_str pat s)).
Definition find_char (p : Z -> bool) (s : str) : option nat := position p s.

(** [str::split_once] of a character. *)
Definition split_once (c : Z) (s : str) : option (str * str) :=
  match find_char (Z.eqb c) s with
  | Some n => Some (take n s, drop (S n) s)
  | None => None
  end.

(** [str::split] at a character. *)
Fixpoint split_char (c : Z) (s : str) : list str :=
  match s with
  | [] => [[]]
  | x :: r =>
      if x =? c then [] :: split_char c r
      else match split_char c r with p :: ps => (x :: p) :: ps | [] => [[x]] end
  end.

(** The pieces of a text between the matches of a pattern, read from the
    left; every match shortens the text, so its length bounds the fuel.
    [str::match_indices] and [str::replace] see the same matches. *)
Fixpoint split_str_go (fuel : nat) (pat s : str) : list str :=
  match fuel with
  | O => [s]
  | S fuel =>
      match find_str pat s with
      | Some n => take n s :: split_str_go fuel pat (drop (n + length pat) s)
      | None => [s]
      end
  end.
Definition split_str (pat s : str) : list str := split_str_go (S (length s)) pat s.
Definition match_count (pat s : str) : nat := length (split_str pat s) - 1.
Definition replace_str (pat to s : str) : str := join to (split_str pat s).

(** [str::replace] of a character. *)
Definition replace_char (c : Z) (to s : str) : str :=
  s ≫= fun x => if x =? c then to else [x].

(** [str::trim_matches] of a character. *)
Definition trim_matches (c : Z) (s : str) : str :=
  trim_end_matches (Z.eqb c) (trim_start_matches (Z.eqb c) s).

(** [str::lines]: a line ends at a line feed, with the carriage return
    before it; what follows the last one is a line when it is not empty. *)
Definition strip_cr (acc : str) : str :=
  match acc with 13 :: r => reverse r | _ => reverse acc end.
Fixpoint lines_go (s acc : str) : list str :=
  match s with
  | [] => match acc with [] => [] | _ :: _ => [reverse acc] end
  | c :: r => if c =? 10 then strip_cr acc :: lines_go r [] else lines_go r (c :: acc)
  end.
Definition lines (s : str) : list str := lines_go s [].

(** The byte slices [s[..n]] and [s[n..]]: [None] when [n] is past the end
    or inside a character. *)
Fixpoint split_at_byte (n : Z) (s : str) : option (str * str) :=
  if n =? 0 then Some ([], s)
  else match s with
       | [] => None
       | c :: r =>
           if n <? len_utf8 c then None
           else '(a, b) ← split_at_byte (n - len_utf8 c) r; Some (c :: a, b)
       end.

Lemma split_at_byte_Some n s a b :
  split_at_byte n s = Some (a, b) -> s = a ++ b /\ str_len a = n.
Proof.
  revert n a b. induction s as [|c r IH]; intros n a b; cbn [split_at_byte].
  - destruct (Z.eqb_spec n 0); [|done]. intros [= <- <-]. done.
  - destruct (Z.eqb_spec n 0); [intros [= <- <-]; done|].
    destruct (Z.ltb_spec n (len_utf8 c)); [done|].
    destruct (split_at_byte (n - len_utf8 c) r) as [[a' b']|] eqn:Hs; [|done].
    intros [= <- <-]. apply IH in Hs as [-> Hl].
    rewrite str_len_cons. split; [done|lia].
Qed.

Lemma split_at_byte_app a b : split_at_byte (str_len a) (a ++ b) = Some (a, b).
Proof.
  induction a as [|c a IH]; [by destruct b|].
  cbn [app split_at_byte]. rewrite str_len_cons.
  pose proof (len_utf8_pos c). pose proof (len_nonneg (encode_utf8 a)).
  unfold str_len in *. decide_ifs.
  replace (len_utf8 c + len (encode_utf8 a) - len_utf8 c) with (len (encode_utf8 a)) by lia.
  rewrite IH. done.
Qed.

(** ** Words *)

Section WordFacts.
Definition no_ws (s : str) : Prop := Forall (fun c => is_whitespace c = false) s.

Lemma trim_start_matches_spec p s :
  exists pre, s = pre ++ trim_start_matches p s /\ Forall (fun c => p c = true) pre /\
    forall c r, trim_start_matches p s = c :: r -> p c = false.
Proof.
  induction s as [|c s (pre & Hs & Hp & Hh)]; cbn [trim_start_matches].
  - by exists [].
  - destruct (p c) eqn:Hc.
    + exists (c :: pre). cbn. split_and!; [by f_equal|by constructor|done].
    + exists []. split_and!; [done|done|]. intros c' r [= <- <-]. done.
Qed.

Lemma trim_start_matches_id p s :
  (forall c r, s = c :: r -> p c = false) -> trim_start_matches p s = s.
Proof. destruct s as [|c s]; [done|]. intros H. cbn. by rewrite (H c s). Qed.

Lemma trim_start_suffix s : exists pre, s = pre ++ trim_start s.
Proof.
  destruct (trim_start_matches_spec is_whitespace s) as (pre & Hs & _). eauto.
Qed.

Lemma trim_start_length s : (length (trim_start s) <= length s)%nat.
Proof.
  destruct (trim_start_suffix s) as [pre Hs]. rewrite Hs at 2. rewrite length_app. lia.
Qed.

Lemma trim_end_matches_id p s :
  (forall c r, s = r ++ [c] -> p c = false) -> trim_end_matches p s = s.
Proof.
  intros H. unfold trim_end_matches. rewrite trim_start_matches_id, reverse_involutive; [done|].
  intros c r Hr. apply (H c (reverse r)). rewrite <- (reverse_involutive s), Hr.
  apply reverse_cons.
Qed.

Lemma trim_end_matches_prefix p s : exists suf, s = trim_end_matches p s ++ suf.
Proof.
  destruct (trim_start_matches_spec p (reverse s)) as (pre & Hs & _).
  exists (reverse pre). unfold trim_end_matches. rewrite <- reverse_app, <- Hs.
  by rewrite reverse_involutive.
Qed.

(** The characters of a trimmed text are characters of the text, and the
    first of them is not white space. *)
Lemma trim_sub s c : c ∈ trim s -> c ∈ s.
Proof.
  unfold trim, trim_start. intros H.
  destruct (trim_start_matches_spec is_whitespace s) as (pre & Hs & _).
  destruct (trim_end_matches_prefix is_whitespace (trim_start_matches is_whitespace s))
    as (suf & He). rewrite Hs, elem_of_app, He. right.
  apply elem_of_app. by left.
Qed.

Lemma trim_head s c r : trim s = c :: r -> is_whitespace c = false.
Proof.
  unfold trim, trim_start. intros H.
  destruct (trim_start_matches_spec is_whitespace s) as (pre & Hs & _ & Hh).
  destruct (trim_end_matches_prefix is_whitespace (trim_start_matches is_whitespace s))
    as (suf & He). unfold trim_end in H. rewrite H in He. by eapply Hh.
Qed.

Lemma split_ws_go_word w acc r :
  no_ws w -> split_ws_go (w ++ r) acc = split_ws_go r (reverse w ++ acc).
Proof.
  intros Hw. revert acc. induction Hw as [|c w Hc Hw IH]; intros acc; [done|].
  cbn [app split_ws_go]. rewrite Hc, IH. by rewrite reverse_cons, <- app_assoc.
Qed.

(** The first word of a text and what follows it. *)
Lemma split_whitespace_word w c r :
  no_ws w -> w <> [] -> is_whitespace c = true ->
  split_whitespace (w ++ c :: r) = w :: split_whitespace r.
Proof.
  intros Hw Hne Hc. unfold split_whitespace. rewrite split_ws_go_word by done.
  cbn [split_ws_go]. rewrite Hc, app_nil_r.
  destruct (reverse w) eqn:E; [apply (f_equal reverse) in E; rewrite reverse_involutive in E; done|].
  by rewrite <- E, reverse_involutive.
Qed.

Lemma split_whitespace_last w : no_ws w -> w <> [] -> split_whitespace w = [w].
Proof.
  intros Hw Hne. unfold split_whitespace. rewrite <- (app_nil_r w) at 1.
  rewrite split_ws_go_word by done. cbn [split_ws_go]. rewrite app_nil_r.
  destruct (reverse w) eqn:E; [apply (f_equal reverse) in E; rewrite reverse_involutive in E; done|].
  by rewrite <- E, reverse_involutive.
Qed.

Lemma split_whitespace_skip c r :
  is_whitespace c = true -> split_whitespace (c :: r) = split_whitespace r.
Proof. intros Hc. unfold split_whitespace. cbn. by rewrite Hc. Qed.

(** A text is a word and the rest, which is empty or starts with white
    space. *)
Lemma first_word s :
  exists w r, s = w ++ r /\ no_ws w /\ (forall c t, r = c :: t -> is_whitespace c = true).
Proof.
  induction s as [|c s (w & r & -> & Hw & Hr)];
    [exists [], []; split_and!; [done|constructor|done]|].
  destruct (is_whitespace c) eqn:Hc.
  - exists [], (c :: w ++ r). split_and!; [done|constructor|]. by intros ? ? [= <- <-].
  - exists (c :: w), r. split_and!; [done|by constructor|done].
Qed.

(** Skipping white space before the next word. *)
Lemma split_whitespace_next s w ws :
  split_whitespace s = w :: ws ->
  exists pre r, s = pre ++ w ++ r /\ Forall (fun c => is_whitespace c = true) pre /\
    no_ws w /\ w <> [] /\ split_whitespace r = ws /\
    (forall c t, r = c :: t -> is_whitespace c = true).
Proof.
  induction s as [|c s IH]; [done|]. destruct (is_whitespace c) eqn:Hc.
  - rewrite split_whitespace_skip by done. intros H.
    destruct (IH H) as (pre & r & -> & Hpre & Hrest).
    exists (c :: pre), r. split_and!; [done|by constructor|apply Hrest..].
  - destruct (first_word (c :: s)) as (w' & r & Heq & Hw' & Hr).
    assert (w' <> []) as Hne.
    { intros ->. cbn in Heq. specialize (Hr _ _ (eq_sym Heq)). by rewrite Hc in Hr. }
    rewrite Heq. intros H. exists [], r. destruct r as [|d t].
    + rewrite app_nil_r in H. rewrite split_whitespace_last in H by done.
      injection H as <- <-. split_and!; [done|constructor|done..].
    + rewrite split_whitespace_word in H by (done || by eapply Hr).
      injection H as <- <-. split_and!; try done.
      rewrite split_whitespace_skip; [done|by eapply Hr].
Qed.

Lemma to_ascii_lowercase_app s t :
  to_ascii_lowercase (s ++ t) = to_ascii_lowercase s ++ to_ascii_lowercase t.
Proof. apply fmap_app. Qed.

Lemma lower_char_range c : lower_char c < 128 <-> c < 128.
Proof. unfold lower_char, in_range. destruct (_ && _) eqn:E; bool_to_prop; lia. Qed.

Lemma lower_char_ws c : is_whitespace (lower_char c) = is_whitespace c.
Proof.
  unfold lower_char, in_range. destruct (_ && _) eqn:E; [|done]. bool_to_prop.
  unfold is_whitespace, in_range.
  assert (Hc : 65 <= c <= 90) by lia.
  repeat match goal with
         | |- context [?a <=? ?b] =>
             first [rewrite (proj2 (Z.leb_le a b)) by lia | rewrite (proj2 (Z.leb_gt a b)) by lia]
         | |- context [?a =? ?b] => rewrite (proj2 (Z.eqb_neq a b)) by lia
         end. done.
Qed.

Lemma strip_prefix_Some pat s r : strip_prefix pat s = Some r <-> s = pat ++ r.
Proof.
  revert s. induction pat as [|p pat IH]; intros s; cbn [strip_prefix app].
  - split; [by intros [= ->]|by intros ->].
  - destruct s as [|c s]; [done|]. destruct (Z.eqb_spec p c) as [->|Hne].
    + rewrite IH. split; [by intros ->|by intros [= ->]].
    + split; [done|]. by intros [= <- _].
Qed.

Lemma starts_with_true pat s : starts_with pat s = true <-> exists r, s = pat ++ r.
Proof.
  unfold starts_with. rewrite bool_decide_eq_true. unfold is_Some.
  setoid_rewrite strip_prefix_Some. done.
Qed.

(** A text whose ends are not white space is left alone by [trim]. *)
Definition trimmed (s : str) : Prop :=
  (forall c, head s = Some c -> is_whitespace c = false) /\
  (forall c, last s = Some c -> is_whitespace c = false).

Lemma trim_end_trimmed s :
  (forall c, last s = Some c -> is_whitespace c = false) -> trim_end s = s.
Proof.
  intros H. apply trim_end_matches_id. intros c r ->. apply H. apply last_snoc.
Qed.

Lemma trim_trimmed s : trimmed s -> trim s = s.
Proof.
  intros [Hh Hl]. unfold trim, trim_start. rewrite trim_start_matches_id; [by apply trim_end_trimmed|].
  intros c r ->. by apply Hh.
Qed.

Lemma trim_cons_ws c s : is_whitespace c = true -> trim (c :: s) = trim s.
Proof. intros H. unfold trim, trim_start. cbn. by rewrite H. Qed.

Lemma trim_snoc_ws s c :
  s <> [] -> trimmed s -> is_whitespace c = true -> trim (s ++ [c]) = s.
Proof.
  intros Hne [Hh Hl] Hc. unfold trim, trim_start, trim_end.
  rewrite trim_start_matches_id.
  - unfold trim_end_matches. rewrite reverse_app. cbn. rewrite Hc.
    change (trim_end s = s). by apply trim_end_trimmed.
  - intros d r Heq. destruct s as [|x s]; [done|]. injection Heq as -> _. by apply Hh.
Qed.

Lemma no_ws_trimmed s : no_ws s -> trimmed s.
Proof.
  intros H. unfold no_ws in H. rewrite Forall_forall in H. split; intros c Hc; apply H.
  - destruct s; [done|]. injection Hc as ->. left.
  - by apply last_Some_elem_of.
Qed.
End WordFacts.

(** ** Decimal numbers *)

(** The [{}] format of a [u64]: twenty digits are enough. *)
Fixpoint dec_digits (fuel : nat) (n : Z) : str :=
  match fuel with
  | O => []
  | S fuel => (if n <? 10 then [] else dec_digits fuel (n / 10)) ++ [48 + n mod 10]
  end.
Definition fmt_u64 (n : Z) : str := dec_digits 20 n.
(** The [{}] format of a signed integer. *)
Definition fmt_i32 (n : Z) : str := if n <? 0 then 45 :: fmt_u64 (- n) else fmt_u64 n.

(** The number a list of decimal digits denotes. *)
Definition dec_value (s : str) : Z := fold_left (fun v c => v * 10 + (c - 48)) s 0.

(** [str::parse] of an unsigned integer below [bound]. *)
Definition parse_unsigned (bound : Z) (s : str) : option Z :=
  let digits := match s with 43 :: r => r | _ => s end in
  match digits with
  | [] => None
  | _ :: _ =>
      if forallb is_ascii_digit digits && (dec_value digits <? bound)
      then Some (dec_value digits) else None
  end.
Definition parse_u32 : str -> option Z := parse_unsigned (2 ^ 32).
Definition parse_u64 : str -> option Z := parse_unsigned (2 ^ 64).

Lemma dec_digits_spec fuel n :
  0 <= n < 10 ^ Z.of_nat fuel -> (0 < fuel)%nat ->
  dec_value (dec_digits fuel n) = n /\ Forall (fun c => 48 <= c <= 57) (dec_digits fuel n).
Proof.
  revert n. induction fuel as [|fuel IH]; intros n Hn Hf; [lia|]. cbn [dec_digits].
  pose proof (Z.mod_pos_bound n 10 ltac:(lia)) as Hm. pose proof (Z.div_mod n 10 ltac:(lia)).
  unfold dec_value. rewrite fold_left_app. cbn [fold_left].
  destruct (Z.ltb_spec n 10) as [Hlt|Hge].
  - cbn [fold_left app]. rewrite Z.mod_small by lia. split; [lia|]. constructor; [lia|done].
  - rewrite Nat2Z.inj_succ, Z.pow_succ_r in Hn by lia.
    assert (0 <= n / 10 < 10 ^ Z.of_nat fuel).
    { split; [apply Z.div_pos; lia|]. apply Z.div_lt_upper_bound; lia. }
    destruct fuel as [|fuel]; [cbn in Hn; lia|].
    destruct (IH (n / 10)) as [Hv Hd]; [done|lia|]. unfold dec_value in Hv. rewrite Hv.
    split; [lia|]. apply Forall_app. split; [done|]. constructor; [lia|done].
Qed.

Lemma u64_fits n : 0 <= n < 2 ^ 64 -> 0 <= n < 10 ^ Z.of_nat 20.
Proof. change (10 ^ Z.of_nat 20) with 100000000000000000000. lia. Qed.

Lemma fmt_u64_inj a b :
  0 <= a < 2 ^ 64 -> 0 <= b < 2 ^ 64 -> fmt_u64 a = fmt_u64 b -> a = b.
Proof.
  intros Ha Hb H. destruct (dec_digits_spec 20 a) as [<- _]; [by apply u64_fits|lia|].
  destruct (dec_digits_spec 20 b) as [<- _]; [by apply u64_fits|lia|].
  unfold fmt_u64 in H. by rewrite H.
Qed.

Lemma digit_spec c : is_ascii_digit c = true <-> 48 <= c <= 57.
Proof. apply in_range_true. Qed.

Lemma dec_digits_nonempty fuel n : (0 < fuel)%nat -> dec_digits fuel n <> [].
Proof. destruct fuel; [lia|]. cbn. intros _ H. by destruct (app_cons_not_nil _ _ _ (eq_sym H)). Qed.

(** What is printed is digits only, and reads back as the same number. *)
Lemma fmt_u64_digits n : 0 <= n < 2 ^ 64 -> Forall (fun c => 48 <= c <= 57) (fmt_u64 n).
Proof. intros H. apply dec_digits_spec; [by apply u64_fits|lia]. Qed.

Lemma parse_unsigned_fmt bound n :
  0 <= n < bound -> bound <= 2 ^ 64 -> parse_unsigned bound (fmt_u64 n) = Some n.
Proof.
  intros Hn Hb. pose proof (fmt_u64_digits n ltac:(lia)) as Hd.
  destruct (dec_digits_spec 20 n) as [Hv _]; [apply u64_fits; lia|lia|]. fold (fmt_u64 n) in Hv.
  pose proof (dec_digits_nonempty 20 n ltac:(lia)) as Hne. fold (fmt_u64 n) in Hne.
  assert (Hall : forallb is_ascii_digit (fmt_u64 n) = true).
  { apply forallb_forall. intros c Hc. apply digit_spec. rewrite Forall_forall in Hd.
    by apply Hd, list_elem_of_In. }
  unfold parse_unsigned. destruct (fmt_u64 n) as [|c r] eqn:Hf; [done|].
  apply Forall_cons in Hd as [Hc _].
  assert (Hm : (match c :: r with 43 :: r => r | _ => c :: r end) = c :: r).
  { destruct c as [|p|p]; [done| |done]. destruct (decide (p = 43)%positive) as [->|Hne']; [lia|].
    repeat (destruct p as [p|p|]; try done). }
  rewrite Hm, Hall, Hv. by rewrite (proj2 (Z.ltb_lt n bound)) by lia.
Qed.

(** ** Splitting at a character *)

Definition free_of (c : Z) (s : str) : Prop := Forall (fun x => x <> c) s.

(** Of a literal, by evaluation. *)
Ltac free_lit := unfold free_of; refine (bool_decide_unpack _ _); vm_compute; exact I.

Lemma position_free c s : free_of c s -> position (Z.eqb c) s = None.
Proof.
  intros H. apply position_None. eapply Forall_impl; [exact H|]. cbn. intros x Hx.
  by apply Z.eqb_neq.
Qed.

Lemma split_once_app c a r : free_of c a -> split_once c (a ++ c :: r) = Some (a, r).
Proof.
  intros H. unfold split_once, find_char. rewrite position_app_found.
  - rewrite take_app_length, drop_S_app. done.
  - eapply Forall_impl; [exact H|]. cbn. intros x Hx. by apply Z.eqb_neq.
  - apply Z.eqb_refl.
Qed.

Lemma split_once_None c s : free_of c s -> split_once c s = None.
Proof. intros H. unfold split_once, find_char. by rewrite position_free. Qed.

Lemma split_once_Some c s a b : split_once c s = Some (a, b) -> s = a ++ c :: b /\ free_of c a.
Proof.
  unfold split_once, find_char. destruct (position _ s) as [n|] eqn:Hp; [|done]. intros [= <- <-].
  apply position_Some in Hp as (x & Hx & Hc & Hf & _). apply Z.eqb_eq in Hc as <-. split.
  - by rewrite take_drop_middle.
  - eapply Forall_impl; [exact Hf|]. cbn. intros y Hy. apply Z.eqb_neq in Hy. congruence.
Qed.

Lemma split_char_nonempty c s : split_char c s <> [].
Proof.
  destruct s as [|x r]; [done|]. cbn. destruct (x =? c); [done|]. by destruct (split_char c r).
Qed.

Lemma split_char_free c s : free_of c s -> split_char c s = [s].
Proof.
  induction 1 as [|x s Hx Hs IH]; [done|]. cbn. rewrite (proj2 (Z.eqb_neq x c)) by done.
  by rewrite IH.
Qed.

Lemma split_char_app c a r : free_of c a -> split_char c (a ++ c :: r) = a :: split_char c r.
Proof.
  induction 1 as [|x s Hx Hs IH]; cbn [app split_char]; [by rewrite Z.eqb_refl|].
  rewrite (proj2 (Z.eqb_neq x c)) by done. by rewrite IH.
Qed.
