(* ===== verification/Order.v ===== *)
(** * Order: comparison of strings and bytes, and stable sorting

    [str] and [[u8]] are compared lexicographically; for a string the order of
    its UTF-8 bytes is the order of its scalar values. [slice::sort_by] is a
    stable sort: [sort_by] is one, and its result is determined by being a
    sorted, stable rearrangement. [Vec::dedup] drops consecutive repeats. *)

From Stdlib Require Export Sorted.
From S2P Require Import Prelude Text.

(** [Ord::cmp] on strings and byte slices. *)
Fixpoint lex_compare (a b : list Z) : comparison :=
  match a, b with
  | [], [] => Eq
  | [], _ :: _ => Lt
  | _ :: _, [] => Gt
  | x :: a, y :: b =>
      match x ?= y with
      | Eq => lex_compare a b
      | c => c
      end
  end.

Section Lexicographic.
Lemma lex_compare_refl a : lex_compare a a = Eq.
Proof. induction a as [|x a IH]; cbn; [done|]. by rewrite Z.compare_refl. Qed.

Lemma lex_compare_eq a b : lex_compare a b = Eq -> a = b.
Proof.
  revert b. induction a as [|x a IH]; intros [|y b]; cbn; try done.
  destruct (Z.compare_spec x y); try done. intros H'. by rewrite (IH b H'); subst.
Qed.

Lemma lex_compare_antisym a b : lex_compare b a = CompOpp (lex_compare a b).
Proof.
  revert b. induction a as [|x a IH]; intros [|y b]; cbn; try done.
  rewrite (Z.compare_antisym x y). destruct (x ?= y); cbn; [apply IH|done|done].
Qed.

Lemma lex_compare_lt_trans a b c :
  lex_compare a b = Lt -> lex_compare b c = Lt -> lex_compare a c = Lt.
Proof.
  revert b c. induction a as [|x a IH]; intros [|y b] [|z c]; cbn; try done.
  destruct (Z.compare_spec x y) as [->|Hxy|]; [|intros _|done].
  - destruct (y ?= z); [by apply IH|done|done].
  - destruct (Z.compare_spec y z) as [->|Hyz|]; [| |done].
    + intros _. by rewrite (proj2 (Z.compare_lt_iff x z)).
    + intros _. by rewrite (proj2 (Z.compare_lt_iff x z)) by lia.
Qed.
End Lexicographic.

(** [Ord::cmp] of [str]: the order of the UTF-8 bytes. *)
Definition str_cmp (a b : str) : comparison := lex_compare (encode_utf8 a) (encode_utf8 b).

(** Not after. *)
Definition lex_le (a b : list Z) : bool :=
  match lex_compare a b with Gt => false | Eq | Lt => true end.
Definition str_le (a b : str) : bool := lex_le (encode_utf8 a) (encode_utf8 b).

Section NotAfter.
Lemma lex_le_total a b : lex_le a b = false -> lex_le b a = true.
Proof. unfold lex_le. rewrite (lex_compare_antisym a b). by destruct (lex_compare a b). Qed.

Lemma lex_le_trans a b c : lex_le a b = true -> lex_le b c = true -> lex_le a c = true.
Proof.
  unfold lex_le. intros H1 H2.
  destruct (lex_compare a b) eqn:E1; [apply lex_compare_eq in E1 as ->; done| |done].
  destruct (lex_compare b c) eqn:E2; [apply lex_compare_eq in E2 as <-; by rewrite E1| |done].
  by rewrite (lex_compare_lt_trans a b c).
Qed.

Lemma lex_le_antisym a b : lex_le a b = true -> lex_le b a = true -> a = b.
Proof.
  unfold lex_le. rewrite (lex_compare_antisym a b).
  destruct (lex_compare a b) eqn:E; [|done|done]. by apply lex_compare_eq in E.
Qed.

Lemma encode_utf8_inj a b : valid_str a -> valid_str b -> encode_utf8 a = encode_utf8 b -> a = b.
Proof.
  intros Ha Hb H. apply from_utf8_encode in Ha, Hb. rewrite H in Ha. by simplify_eq.
Qed.
End NotAfter.

(** ** Stable sorting *)

Section Sorting.
Context {A : Type} (le : A -> A -> bool).

Fixpoint insert_by (x : A) (l : list A) : list A :=
  match l with
  | [] => [x]
  | y :: l' => if le x y then x :: l else y :: insert_by x l'
  end.

Fixpoint sort_by (l : list A) : list A :=
  match l with
  | [] => []
  | x :: l => insert_by x (sort_by l)
  end.

Lemma insert_by_perm x l : insert_by x l ≡ₚ x :: l.
Proof.
  induction l as [|y l IH]; cbn; [done|]. destruct (le x y); [done|]. rewrite IH. constructor.
Qed.

Lemma sort_by_perm l : sort_by l ≡ₚ l.
Proof. induction l as [|x l IH]; cbn; [done|]. by rewrite insert_by_perm, IH. Qed.

Lemma sort_by_length l : length (sort_by l) = length l.
Proof. by rewrite sort_by_perm. Qed.

Context (le_total : forall x y, le x y = false -> le y x = true)
        (le_trans : forall x y z, le x y = true -> le y z = true -> le x z = true).

(** Every element comes before the ones it must not follow. *)
Definition ordered (l : list A) : Prop :=
  StronglySorted (fun x y => le x y = true) l.

Lemma insert_by_ordered x l : ordered l -> ordered (insert_by x l).
Proof.
  induction 1 as [|y l Hl IH Hy]; cbn; [repeat constructor|].
  destruct (le x y) eqn:Hxy.
  - constructor; [by constructor|]. constructor; [done|].
    eapply Forall_impl; [exact Hy|]. cbn. eauto.
  - constructor; [done|]. rewrite insert_by_perm. constructor; auto.
Qed.

Lemma sort_by_ordered l : ordered (sort_by l).
Proof. induction l as [|x l IH]; cbn; [constructor|by apply insert_by_ordered]. Qed.

(** Sorting what is ordered changes nothing. *)
Lemma sort_by_id l : ordered l -> sort_by l = l.
Proof.
  induction 1 as [|x l Hl IH Hx]; cbn; [done|]. rewrite IH.
  destruct l as [|y l]; [done|]. cbn. by inversion Hx as [|? ? E]; rewrite E.
Qed.

(** Stability: elements neither of which precedes the other keep their order. *)
Definition stable_order (R : A -> A -> Prop) (x y : A) : Prop :=
  le x y = true /\ (le y x = true -> R x y).

Lemma insert_by_stable R x l :
  Forall (R x) l -> StronglySorted (stable_order R) l ->
  StronglySorted (stable_order R) (insert_by x l).
Proof.
  intros HR. induction 1 as [|y l Hl IH Hy]; cbn; [repeat constructor|].
  apply Forall_cons in HR as [HRy HRl]. destruct (le x y) eqn:Hxy.
  - constructor; [by constructor|]. constructor; [by split|].
    apply Forall_forall. intros z Hz. split; [|by rewrite Forall_forall in HRl; eauto].
    rewrite Forall_forall in Hy. destruct (Hy z Hz). eauto.
  - constructor; [auto|]. rewrite insert_by_perm. constructor; [|done].
    split; [auto|]. congruence.
Qed.

Lemma sort_by_stable R l :
  StronglySorted R l -> StronglySorted (stable_order R) (sort_by l).
Proof.
  induction 1 as [|x l Hl IH Hx]; cbn; [constructor|]. apply insert_by_stable; [|done].
  by rewrite sort_by_perm.
Qed.
End Sorting.

Arguments stable_order {A} le R x y.
Arguments ordered {A} le l.

(** [Vec::dedup]. *)
Fixpoint dedup {A} `{EqDecision A} (l : list A) : list A :=
  match l with
  | [] => []
  | x :: l' =>
      match l' with
      | y :: _ => if decide (x = y) then dedup l' else x :: dedup l'
      | [] => [x]
      end
  end.

Section Dedup.
Context {A : Type} `{EqDecision A}.

Lemma dedup_elem (l : list A) x : x ∈ dedup l <-> x ∈ l.
Proof.
  induction l as [|y l IH]; [done|]. cbn [dedup]. destruct l as [|z l]; [done|].
  case_decide as Heq; rewrite ?elem_of_cons, ?IH, ?elem_of_cons; subst; clear IH; naive_solver.
Qed.

Lemma dedup_head (x : A) l : head (dedup (x :: l)) = Some x.
Proof.
  revert x. induction l as [|y l IH]; intros x; [done|]. cbn [dedup].
  case_decide as E; [|done]. subst y. exact (IH x).
Qed.

(** Repeats of a sorted list are consecutive, so [dedup] leaves none. *)
Lemma dedup_strict (le : A -> A -> bool) l :
  (forall x y, x ∈ l -> y ∈ l -> le x y = true -> le y x = true -> x = y) ->
  ordered le l -> StronglySorted (fun x y => le x y = true /\ x <> y) (dedup l).
Proof.
  intros Hanti. induction 1 as [|x l Hl IH Hx]; [constructor|].
  assert (Hanti' : forall y z, y ∈ l -> z ∈ l -> le y z = true -> le z y = true -> y = z).
  { intros y z Hy Hz. apply Hanti; by right. }
  specialize (IH Hanti'). cbn [dedup]. destruct l as [|y l]; [repeat constructor|].
  case_decide as E; [done|]. constructor; [done|].
  apply Forall_forall. intros z Hz. rewrite dedup_elem in Hz.
  rewrite Forall_forall in Hx. split; [by apply Hx|]. intros ->.
  apply E, Hanti; [left|by right; left|apply Hx; left|].
  apply elem_of_cons in Hz as [->|Hz]; [by apply Hx; left|].
  apply StronglySorted_inv in Hl as [_ Hy]. by rewrite Forall_forall in Hy; apply Hy.
Qed.
End Dedup.
