(* ===== verification/Protocol.v ===== *)
(** * Protocol: tags, status bytes, error codes of the wire protocol

    Models [pg-kinetic-wire]: [error.rs], [protocol.rs], [sqlstate.rs] and
    the shared frame encoder used by [backend.rs], [auth.rs], [admin.rs]. *)

From S2P Require Import Prelude Text.

(** [error.rs]: [WireError]. *)
Inductive WireError :=
| InvalidStartupLength (len : Z)
| IncompleteStartupPacket
| UnterminatedStartupParameters
| MissingStartupParameterValue (key : str)
| InvalidUtf8
| InvalidFrameLength (len : Z)
| IncompleteFrame
| InvalidBackendFrameLength (len : Z).

#[global] Instance WireError_eq_dec : EqDecision WireError.
Proof. solve_decision. Defined.

(** [protocol.rs]: [ProtocolVersion::to_i32]. *)
Inductive ProtocolVersion := V3.
Definition protocol_version_to_i32 (v : ProtocolVersion) : Z :=
  match v with V3 => 196608 end.

(** [protocol.rs]: [FrontendTag] and its byte. *)
Inductive FrontendTag :=
| Query | Parse | Bind | Describe | Execute | Close | Flush | Sync | Terminate.

#[global] Instance FrontendTag_eq_dec : EqDecision FrontendTag.
Proof. solve_decision. Defined.

Definition frontend_byte (tag : FrontendTag) : Z :=
  match tag with
  | Query => 81 | Parse => 80 | Bind => 66 | Describe => 68 | Execute => 69
  | Close => 67 | Flush => 72 | Sync => 83 | Terminate => 88
  end.

(** [protocol.rs]: [BackendTag] and its byte. *)
Inductive BackendTag :=
| Authentication | BackendKeyData | BindComplete | CloseComplete | CommandComplete
| CopyBothResponse | CopyInResponse | DataRow | EmptyQueryResponse | ErrorResponse
| NoData | ParameterDescription | ParameterStatus | ParseComplete | PortalSuspended
| ReadyForQuery | RowDescription.

#[global] Instance BackendTag_eq_dec : EqDecision BackendTag.
Proof. solve_decision. Defined.

Definition backend_byte (tag : BackendTag) : Z :=
  match tag with
  | Authentication => 82 | BackendKeyData => 75 | BindComplete => 50
  | CloseComplete => 51 | CommandComplete => 67 | CopyBothResponse => 87
  | CopyInResponse => 71 | DataRow => 68 | EmptyQueryResponse => 73
  | ErrorResponse => 69 | NoData => 110 | ParameterDescription => 116
  | ParameterStatus => 83 | ParseComplete => 49 | PortalSuspended => 115
  | ReadyForQuery => 90 | RowDescription => 84
  end.

(** [protocol.rs]: [ReadyStatusByte]; [backend.rs]: [ReadyStatus]. *)
Inductive ReadyStatus := RS_Idle | RS_InTransaction | RS_FailedTransaction.

#[global] Instance ReadyStatus_eq_dec : EqDecision ReadyStatus.
Proof. solve_decision. Defined.

Definition ready_status_byte (s : ReadyStatus) : Z :=
  match s with
  | RS_Idle => 73 | RS_InTransaction => 84 | RS_FailedTransaction => 69
  end.

Definition SSL_REQUEST_CODE : Z := 80877103.
Definition CANCEL_REQUEST_CODE : Z := 80877102.
Definition GSSENC_REQUEST_CODE : Z := 80877104.

(** [sqlstate.rs]: [SqlState]. *)
Inductive SqlState :=
| TooManyConnections | InsufficientPrivilege | QueryCanceled | OperatorIntervention
| CannotConnectNow | InvalidSqlStatementName | FeatureNotSupported | UndefinedTable
| UndefinedColumn | UniqueViolation.

#[global] Instance SqlState_eq_dec : EqDecision SqlState.
Proof. solve_decision. Defined.

Definition sqlstate_as_str (s : SqlState) : str :=
  match s with
  | TooManyConnections => lit "53300"
  | InsufficientPrivilege => lit "42501"
  | QueryCanceled => lit "57014"
  | OperatorIntervention => lit "57000"
  | CannotConnectNow => lit "57P03"
  | InvalidSqlStatementName => lit "26000"
  | FeatureNotSupported => lit "0A000"
  | UndefinedTable => lit "42P01"
  | UndefinedColumn => lit "42703"
  | UniqueViolation => lit "23505"
  end.

(** [SqlState::parse]. *)
Definition sqlstate_parse (code : str) : option SqlState :=
  if str_eqb code (lit "53300") then Some TooManyConnections
  else if str_eqb code (lit "42501") then Some InsufficientPrivilege
  else if str_eqb code (lit "57014") then Some QueryCanceled
  else if str_eqb code (lit "57000") then Some OperatorIntervention
  else if str_eqb code (lit "57P03") then Some CannotConnectNow
  else if str_eqb code (lit "26000") then Some InvalidSqlStatementName
  else if str_eqb code (lit "0A000") then Some FeatureNotSupported
  else if str_eqb code (lit "42P01") then Some UndefinedTable
  else if str_eqb code (lit "42703") then Some UndefinedColumn
  else if str_eqb code (lit "23505") then Some UniqueViolation
  else None.

Lemma sqlstate_parse_as_str s : sqlstate_parse (sqlstate_as_str s) = Some s.
Proof. by destruct s; vm_compute. Qed.

Lemma str_eqb_true s t : str_eqb s t = true <-> s = t.
Proof. unfold str_eqb. apply bool_decide_eq_true. Qed.

Lemma sqlstate_as_str_parse code s :
  sqlstate_parse code = Some s -> code = sqlstate_as_str s.
Proof.
  unfold sqlstate_parse. intros H.
  repeat match type of H with
         | (if ?b then _ else _) = _ =>
             let E := fresh "E" in
             destruct b eqn:E; [apply str_eqb_true in E; simplify_eq; done|]
         end.
  done.
Qed.

(** The frontend and backend tag bytes identify the tag. *)
Lemma frontend_byte_inj a b : frontend_byte a = frontend_byte b -> a = b.
Proof. destruct a, b; intros H; solve [reflexivity | discriminate H]. Qed.

Lemma backend_byte_inj a b : backend_byte a = backend_byte b -> a = b.
Proof. destruct a, b; intros H; solve [reflexivity | discriminate H]. Qed.

Lemma frontend_byte_ok t : byte_ok (frontend_byte t).
Proof. destruct t; unfold byte_ok; cbn; lia. Qed.

Lemma backend_byte_ok t : byte_ok (backend_byte t).
Proof. destruct t; unfold byte_ok; cbn; lia. Qed.

#[export] Hint Resolve frontend_byte_ok backend_byte_ok : pgk.

(** [write_cstr]: the bytes of [value] and a terminating zero. *)
Definition write_cstr (value : str) : bytes := encode_utf8 value ++ [0].

(** The frame layout every builder of [backend.rs], [auth.rs] and [admin.rs]
    writes: tag, [(payload.len() + 4) as i32], payload. *)
Definition encode_backend_message_raw (tag : Z) (payload : bytes) : bytes :=
  tag :: put_i32 (wrap_i 32 (len payload + 4)) ++ payload.

Definition encode_backend_message (tag : BackendTag) (payload : bytes) : bytes :=
  encode_backend_message_raw (backend_byte tag) payload.
