(* ===== verification/Frame.v ===== *)
(** * Frame: frontend frames, message payloads and statement-name rewriting

    Models [pg-kinetic-wire]: [frame.rs], [message.rs], [rewrite.rs]. The
    buffer of [parse_frontend_frame] is threaded explicitly: the function
    returns the frame and the bytes left in the buffer. *)

From S2P Require Import Prelude Text Protocol.

(** [frame.rs]: [FrontendFrame]. *)
Record FrontendFrame := { tag : Z; payload : bytes }.

#[global] Instance FrontendFrame_eq_dec : EqDecision FrontendFrame.
Proof. solve_decision. Defined.

Definition FRAME_HEADER_LEN : Z := 5.
Definition FRAME_LENGTH_PREFIX_LEN : Z := 4.

(** [parse_frontend_frame]: [None] asks for more input and leaves the buffer
    as it is; an invalid length is an error. *)
Definition parse_frontend_frame (buffer : bytes)
  : result WireError (option FrontendFrame * bytes) :=
  match buffer with
  | t :: b1 :: b2 :: b3 :: b4 :: rest =>
      let length := i32_from_be_bytes b1 b2 b3 b4 in
      if length <? FRAME_LENGTH_PREFIX_LEN then Err (InvalidFrameLength length)
      else
        let payload_len := length - FRAME_LENGTH_PREFIX_LEN in
        let total_len := FRAME_HEADER_LEN + payload_len in
        if len buffer <? total_len then Ok (None, buffer)
        else
          Ok (Some {| tag := t; payload := take (Z.to_nat payload_len) rest |},
              drop (Z.to_nat payload_len) rest)
  | _ => Ok (None, buffer)
  end.

(** [message.rs]: [read_cstr]. *)
Definition read_cstr (bs : bytes) (start : Z) : result WireError (str * Z) :=
  if len bs <? start then Err IncompleteFrame
  else
    let remaining := drop (Z.to_nat start) bs in
    terminator ← ok_or (position (Z.eqb 0) remaining) IncompleteFrame;
    value ← ok_or (from_utf8 (take terminator remaining)) InvalidUtf8;
    Ok (value, start + Z.of_nat terminator + 1).

(** [slice::get(a..b)] for [0 <= a <= b]. *)
Definition get_range (bs : bytes) (a b : Z) : option bytes :=
  if b <=? len bs then Some (take (Z.to_nat (b - a)) (drop (Z.to_nat a) bs)) else None.

(** [rewrite.rs]: [read_cstr], the same reader written with explicit
    bounds and panicking slices. *)
Definition rewrite_read_cstr (bs : bytes) (start : Z) : result WireError (str * Z) :=
  if start >? len bs then Err IncompleteFrame
  else
    relative_end ← ok_or (position (Z.eqb 0) (drop (Z.to_nat start) bs)) IncompleteFrame;
    let end_ := start + Z.of_nat relative_end in
    match get_range bs start end_ with
    | None => Panic
    | Some raw =>
        value ← ok_or (from_utf8 raw) InvalidUtf8;
        Ok (value, end_ + 1)
    end.

(** [message.rs]: the decoded messages. *)
Record ParseMessage := {
  statement_name : str;
  query : str;
  parameter_type_oids : list Z;
}.

Inductive DescribeTarget :=
| DescribeStatement (name : str)
| DescribePortal (name : str).

Inductive CloseTarget :=
| CloseStatement (name : str)
| ClosePortal (name : str).

Definition STATEMENT_KIND : Z := 83.
Definition PORTAL_KIND : Z := 80.

Definition parse_simple_query (frame : FrontendFrame) : result WireError (option str) :=
  if negb (tag frame =? frontend_byte Query) then Ok None
  else (fun p => Some (fst p)) <$> read_cstr (payload frame) 0.

(** [chunks_exact(4)] followed by [i32::from_be_bytes]. *)
Fixpoint read_oids (bs : bytes) : list Z :=
  match bs with
  | a :: b :: c :: d :: r => i32_from_be_bytes a b c d :: read_oids r
  | _ => []
  end.

Definition parse_parse_message (frame : FrontendFrame)
  : result WireError (option ParseMessage) :=
  if negb (tag frame =? frontend_byte Parse) then Ok None
  else
    let p := payload frame in
    '(name, offset) ← read_cstr p 0;
    '(q, offset) ← read_cstr p offset;
    count_bytes ← ok_or (get_range p offset (offset + 2)) IncompleteFrame;
    match count_bytes with
    | [c0; c1] =>
        let parameter_count := i16_from_be_bytes c0 c1 in
        if parameter_count <? 0 then Err IncompleteFrame
        else
          let offset := offset + 2 in
          let parameter_bytes := parameter_count * 4 in
          if USIZE_MAX <? parameter_bytes then Err IncompleteFrame
          else
            oid_bytes ← ok_or (get_range p offset (offset + parameter_bytes)) IncompleteFrame;
            Ok (Some {| statement_name := name; query := q;
                        parameter_type_oids := read_oids oid_bytes |})
    | _ => Panic
    end.

Definition parse_bind_statement_name (frame : FrontendFrame)
  : result WireError (option str) :=
  if negb (tag frame =? frontend_byte Bind) then Ok None
  else
    '(_, statement_offset) ← read_cstr (payload frame) 0;
    '(name, _) ← read_cstr (payload frame) statement_offset;
    Ok (Some name).

Definition parse_describe_target (frame : FrontendFrame)
  : result WireError (option DescribeTarget) :=
  if negb (tag frame =? frontend_byte Describe) then Ok None
  else
    kind ← ok_or (head (payload frame)) IncompleteFrame;
    '(name, _) ← read_cstr (payload frame) 1;
    if kind =? STATEMENT_KIND then Ok (Some (DescribeStatement name))
    else if kind =? PORTAL_KIND then Ok (Some (DescribePortal name))
    else Ok None.

Definition parse_close_target (frame : FrontendFrame)
  : result WireError (option CloseTarget) :=
  if negb (tag frame =? frontend_byte Close) then Ok None
  else
    kind ← ok_or (head (payload frame)) IncompleteFrame;
    '(name, _) ← read_cstr (payload frame) 1;
    if kind =? STATEMENT_KIND then Ok (Some (CloseStatement name))
    else if kind =? PORTAL_KIND then Ok (Some (ClosePortal name))
    else Ok None.

(** The panicking slices [bs[n..]] and [bs[..n]]. *)
Definition slice_from {E} (bs : bytes) (n : Z) : result E bytes :=
  if n <=? len bs then Ok (drop (Z.to_nat n) bs) else Panic.
Definition slice_to {E} (bs : bytes) (n : Z) : result E bytes :=
  if n <=? len bs then Ok (take (Z.to_nat n) bs) else Panic.

(** [rewrite.rs]: the statement-name rewriters. *)
Definition rewrite_parse_statement_name (frame : FrontendFrame) (backend_name : str)
  : result WireError FrontendFrame :=
  if negb (tag frame =? frontend_byte Parse) then Ok frame
  else
    '(_, after_name) ← rewrite_read_cstr (payload frame) 0;
    tail ← slice_from (payload frame) after_name;
    Ok {| tag := tag frame; payload := write_cstr backend_name ++ tail |}.

Definition rewrite_bind_statement_name (frame : FrontendFrame) (backend_name : str)
  : result WireError FrontendFrame :=
  if negb (tag frame =? frontend_byte Bind) then Ok frame
  else
    '(_, after_portal) ← rewrite_read_cstr (payload frame) 0;
    '(_, after_statement) ← rewrite_read_cstr (payload frame) after_portal;
    front ← slice_to (payload frame) after_portal;
    tail ← slice_from (payload frame) after_statement;
    Ok {| tag := tag frame; payload := front ++ write_cstr backend_name ++ tail |}.

Definition rewrite_statement_target (frame : FrontendFrame) (expected_tag : Z)
  (backend_name : str) : result WireError FrontendFrame :=
  if negb (tag frame =? expected_tag) then Ok frame
  else if negb (bool_decide (head (payload frame) = Some STATEMENT_KIND)) then Ok frame
  else Ok {| tag := tag frame; payload := STATEMENT_KIND :: write_cstr backend_name |}.

Definition rewrite_describe_statement_name (frame : FrontendFrame) (backend_name : str) :=
  rewrite_statement_target frame (frontend_byte Describe) backend_name.

Definition rewrite_close_statement_name (frame : FrontendFrame) (backend_name : str) :=
  rewrite_statement_target frame (frontend_byte Close) backend_name.

Definition encode_frontend_frame (frame : FrontendFrame) : bytes :=
  tag frame :: put_i32 (wrap_i 32 (len (payload frame) + 4)) ++ payload frame.

Definition build_parse_frame (backend_name q : str) (oids : list Z) : FrontendFrame :=
  {| tag := frontend_byte Parse;
     payload := write_cstr backend_name ++ write_cstr q
                ++ put_i16 (wrap_i 16 (len oids)) ++ mjoin (put_i32 <$> oids) |}.

(** ** Frames: round trip, progress, error behaviour *)

Section FrameFacts.
(** The largest payload a frame can carry: its length field is an [i32]. *)
Definition fits_frame (p : bytes) : Prop := len p + 4 < 2 ^ 31.

Lemma parse_frontend_frame_wf buffer :
  match parse_frontend_frame buffer with
  | Ok (Some f, rest) =>
      exists b1 b2 b3 b4, buffer = tag f :: b1 :: b2 :: b3 :: b4 :: payload f ++ rest /\
        i32_from_be_bytes b1 b2 b3 b4 = len (payload f) + 4
  | Ok (None, rest) => rest = buffer
  | Err (InvalidFrameLength n) => n < 4
  | Err _ => False
  | Panic => False
  end.
Proof.
  unfold parse_frontend_frame, FRAME_LENGTH_PREFIX_LEN, FRAME_HEADER_LEN.
  destruct buffer as [|t [|b1 [|b2 [|b3 [|b4 rest]]]]]; try done.
  destruct (Z.ltb_spec (i32_from_be_bytes b1 b2 b3 b4) 4); [done|].
  destruct (Z.ltb_spec (len (t :: b1 :: b2 :: b3 :: b4 :: rest))
              (5 + (i32_from_be_bytes b1 b2 b3 b4 - 4))) as [|Hlen]; [done|].
  exists b1, b2, b3, b4. cbn [tag payload]. split; [by rewrite take_drop|].
  unfold len in *. cbn [length] in Hlen. rewrite length_take. lia.
Qed.

(** Encoding a frame whose payload fits and parsing the bytes gives the
    frame back and leaves whatever followed in the buffer. *)
Lemma parse_encode_frame f rest :
  fits_frame (payload f) ->
  parse_frontend_frame (encode_frontend_frame f ++ rest) = Ok (Some f, rest).
Proof.
  destruct f as [t p]. cbn [payload]. intros Hfit. unfold fits_frame in Hfit.
  pose proof (len_nonneg p).
  unfold encode_frontend_frame. cbn [tag payload].
  rewrite wrap_i_id by (unfold i_range; lia).
  destruct (put_i32_spec (len p + 4)) as (a & b & c & d & -> & Hrt);
    [unfold i_range; lia|].
  cbn [app]. unfold parse_frontend_frame, FRAME_LENGTH_PREFIX_LEN, FRAME_HEADER_LEN.
  rewrite Hrt. decide_ifs.
  replace (len (t :: a :: b :: c :: d :: p ++ rest) <? 5 + (len p + 4 - 4))
    with false by (symmetry; apply Z.ltb_ge; len_lia).
  replace (Z.to_nat (len p + 4 - 4)) with (length p) by (unfold len; lia).
  by rewrite take_app_length, drop_app_length.
Qed.

(** A strict prefix of an encoded frame is never taken for a frame, and is
    never an error: the parser waits for the rest. *)
Lemma parse_frame_prefix f n :
  fits_frame (payload f) ->
  (n < length (encode_frontend_frame f))%nat ->
  parse_frontend_frame (take n (encode_frontend_frame f))
  = Ok (None, take n (encode_frontend_frame f)).
Proof.
  destruct f as [t p]. cbn [payload]. intros Hfit Hn. unfold fits_frame in Hfit.
  pose proof (len_nonneg p).
  unfold encode_frontend_frame in *. cbn [tag payload] in *.
  rewrite wrap_i_id in * by (unfold i_range; lia).
  destruct (put_i32_spec (len p + 4)) as (a & b & c & d & Hput & Hrt);
    [unfold i_range; lia|].
  rewrite Hput in *. cbn [app] in *. do 5 (destruct n as [|n]; [done|]). cbn [take].
  unfold parse_frontend_frame, FRAME_LENGTH_PREFIX_LEN, FRAME_HEADER_LEN.
  rewrite Hrt. cbn [length] in Hn. decide_ifs.
  match goal with |- context [?x <? ?y] => replace (x <? y) with true end; [done|].
  symmetry. apply Z.ltb_lt. unfold len in *. cbn [length]. rewrite length_take. lia.
Qed.
End FrameFacts.

(** ** C strings *)

Section CStrFacts.
(** The two readers of [message.rs] and [rewrite.rs] are the same function. *)
Lemma rewrite_read_cstr_eq bs start :
  0 <= start -> rewrite_read_cstr bs start = read_cstr bs start.
Proof.
  intros Hs. unfold rewrite_read_cstr, read_cstr. rewrite Z.gtb_ltb.
  destruct (Z.ltb_spec (len bs) start) as [|Hle]; [done|].
  destruct (position (Z.eqb 0) (drop (Z.to_nat start) bs)) as [n|] eqn:Hp; [|done].
  apply position_Some in Hp as (x & _ & _ & _ & Hlt). rewrite length_drop in Hlt.
  cbn. unfold get_range. unfold len in *.
  replace (start + Z.of_nat n <=? Z.of_nat (length bs)) with true
    by (symmetry; apply Z.leb_le; lia).
  by replace (Z.to_nat (start + Z.of_nat n - start)) with n by lia.
Qed.

(** Reading back a C string written at offset [len pre]. *)
Lemma read_cstr_write pre s rest :
  valid_str s -> no_nul s ->
  read_cstr (pre ++ write_cstr s ++ rest) (len pre)
  = Ok (s, len pre + len (write_cstr s)).
Proof.
  intros Hv Hn. unfold read_cstr, write_cstr.
  replace (len (pre ++ (encode_utf8 s ++ [0]) ++ rest) <? len pre) with false
    by (symmetry; apply Z.ltb_ge; len_lia).
  rewrite to_nat_len, drop_app_length, <- app_assoc. cbn [app].
  rewrite position_app_found.
  - cbn. rewrite take_app_length, from_utf8_encode by done. cbn. do 2 f_equal.
    unfold len. rewrite length_app. cbn. lia.
  - eapply Forall_impl; [by apply encode_utf8_no_zero|].
    intros b Hb. by rewrite Z.eqb_sym.
  - done.
Qed.

(** A successful read splits the bytes at the string: prefix, string,
    zero byte, rest. *)
Lemma read_cstr_Ok bs start s off :
  0 <= start -> read_cstr bs start = Ok (s, off) ->
  exists pre rest, bs = pre ++ write_cstr s ++ rest /\ start = len pre /\
    off = len pre + len (write_cstr s) /\ valid_str s /\ no_nul s.
Proof.
  intros Hs. unfold read_cstr.
  destruct (Z.ltb_spec (len bs) start) as [|Hle]; [done|].
  destruct (position (Z.eqb 0) (drop (Z.to_nat start) bs)) as [n|] eqn:Hp; [|done].
  apply position_Some in Hp as (x & Hx & Hx0 & Hz & Hlt). apply Z.eqb_eq in Hx0 as <-.
  cbn. destruct (from_utf8 (take n (drop (Z.to_nat start) bs))) as [v|] eqn:Hu; [|done].
  cbn. intros [= <- <-]. apply from_utf8_Some in Hu as [Henc Hv].
  assert (no_nul v) as Hnn.
  { apply encode_utf8_no_zero_inv. rewrite Henc. eapply Forall_impl; [done|].
    intros b Hb. by rewrite Z.eqb_sym. }
  exists (take (Z.to_nat start) bs), (drop (S n) (drop (Z.to_nat start) bs)).
  unfold write_cstr. rewrite Henc, <- app_assoc. cbn [app].
  split; [by rewrite (take_drop_middle _ _ _ Hx), take_drop|].
  rewrite length_drop in Hlt.
  unfold len in *. rewrite !length_app, !length_take, length_drop. cbn.
  repeat split; [lia|lia|done|done].
Qed.

(** The end offset of a read is inside the buffer, so the slices taken at
    it cannot panic. *)
Lemma read_cstr_bound bs start s off :
  0 <= start -> read_cstr bs start = Ok (s, off) -> start < off <= len bs.
Proof.
  intros Hs H. apply read_cstr_Ok in H as (pre & rest & -> & -> & -> & _); [|done].
  unfold write_cstr. len_lia.
Qed.

Lemma read_cstr_no_panic bs start : no_panic (read_cstr bs start).
Proof.
  unfold read_cstr. case_match; [done|].
  repeat (apply no_panic_bind; [apply no_panic_ok_or|intros ? _]). done.
Qed.
End CStrFacts.

#[export] Hint Resolve read_cstr_no_panic : pgk.

(** ** Parse messages *)

Section ParseMessageFacts.
(** The parameter section of a Parse payload: what is left after the two
    names. *)
Definition read_parameters (rest : bytes) : result WireError (list Z) :=
  match rest with
  | c0 :: c1 :: r =>
      let n := i16_from_be_bytes c0 c1 in
      if n <? 0 then Err IncompleteFrame
      else if len r <? n * 4 then Err IncompleteFrame
      else Ok (read_oids (take (Z.to_nat (n * 4)) r))
  | _ => Err IncompleteFrame
  end.

Lemma i16_from_be_bytes_range a b : i_range 16 (i16_from_be_bytes a b).
Proof. apply wrap_i_range. lia. Qed.

Lemma get_range_app pre rest n :
  0 <= n ->
  get_range (pre ++ rest) (len pre) (len pre + n)
  = if n <=? len rest then Some (take (Z.to_nat n) rest) else None.
Proof.
  intros Hn. unfold get_range. rewrite len_app.
  replace (len pre + n <=? len pre + len rest) with (n <=? len rest)
    by (destruct (Z.leb_spec n (len rest)), (Z.leb_spec (len pre + n) (len pre + len rest));
        lia).
  rewrite to_nat_len, drop_app_length.
  by replace (Z.to_nat (len pre + n - len pre)) with (Z.to_nat n) by lia.
Qed.

(** [parse_parse_message] on a payload that starts with two C strings. *)
Lemma parse_parse_message_split name q rest :
  valid_str name -> no_nul name -> valid_str q -> no_nul q ->
  parse_parse_message {| tag := frontend_byte Parse;
                         payload := write_cstr name ++ write_cstr q ++ rest |}
  = (fun oids => Some {| statement_name := name; query := q;
                         parameter_type_oids := oids |}) <$> read_parameters rest.
Proof.
  intros Hv1 Hn1 Hv2 Hn2. unfold parse_parse_message. cbn [tag payload].
  rewrite Z.eqb_refl. cbn [negb].
  pose proof (read_cstr_write [] name (write_cstr q ++ rest) Hv1 Hn1) as H1.
  cbn [app] in H1. rewrite len_nil, Z.add_0_l in H1. rewrite H1. cbn [mbind result_bind].
  rewrite (read_cstr_write (write_cstr name) q rest) by done. cbn [mbind result_bind].
  set (pre := write_cstr name ++ write_cstr q).
  assert (Hpay : write_cstr name ++ write_cstr q ++ rest = pre ++ rest)
    by (unfold pre; by rewrite app_assoc).
  assert (Hoff : len (write_cstr name) + len (write_cstr q) = len pre)
    by (unfold pre; by rewrite len_app).
  rewrite Hpay, Hoff. clearbody pre. clear.
  unfold read_parameters. rewrite get_range_app by lia.
  destruct rest as [|c0 [|c1 r]]; [done|done|].
  replace (2 <=? len (c0 :: c1 :: r)) with true by (symmetry; apply Z.leb_le; len_lia).
  change (take (Z.to_nat 2) (c0 :: c1 :: r)) with [c0; c1].
  cbn [ok_or mbind result_bind]. pose proof (i16_from_be_bytes_range c0 c1) as Hr.
  destruct (Z.ltb_spec (i16_from_be_bytes c0 c1) 0); [done|].
  set (n := i16_from_be_bytes c0 c1) in *. clearbody n. unfold i_range in Hr.
  replace (USIZE_MAX <? n * 4) with false
    by (symmetry; apply Z.ltb_ge; unfold USIZE_MAX; lia).
  replace (pre ++ c0 :: c1 :: r) with ((pre ++ [c0; c1]) ++ r) by by rewrite <- app_assoc.
  replace (len pre + 2) with (len (pre ++ [c0; c1])) by len_lia.
  rewrite get_range_app by lia. rewrite Z.leb_antisym.
  by destruct (len r <? n * 4).
Qed.

(** A decoded Parse message is two C strings and a parameter section. *)
Lemma parse_parse_message_inv f m :
  parse_parse_message f = Ok (Some m) ->
  exists rest, f = {| tag := frontend_byte Parse;
    payload := write_cstr (statement_name m) ++ write_cstr (query m) ++ rest |} /\
    valid_str (statement_name m) /\ no_nul (statement_name m) /\
    valid_str (query m) /\ no_nul (query m) /\
    read_parameters rest = Ok (parameter_type_oids m).
Proof.
  destruct f as [t p]. intros H. pose proof H as H0.
  unfold parse_parse_message in H. cbn [tag payload] in H.
  destruct (Z.eqb_spec t (frontend_byte Parse)) as [->|]; [|done]. cbn [negb] in H.
  apply bind_Ok_inv in H as ([name o1] & H1 & H).
  apply bind_Ok_inv in H as ([q o2] & H2 & H).
  apply read_cstr_Ok in H1 as (pre & rest1 & -> & Hp & -> & Hv1 & Hn1); [|lia].
  destruct pre as [|? ?]; [|unfold len in Hp; cbn in Hp; lia]. cbn [app] in *.
  rewrite len_nil, Z.add_0_l in *.
  apply read_cstr_Ok in H2 as (pre2 & rest2 & Heq & Hp2 & -> & Hv2 & Hn2);
    [|apply len_nonneg].
  apply (f_equal Z.to_nat) in Hp2. rewrite !to_nat_len in Hp2.
  apply app_inj_1 in Heq as [<- ->]; [|done]. clear H.
  rewrite parse_parse_message_split in H0 by done.
  destruct (read_parameters rest2) as [oids| |] eqn:Hr; [|done|done].
  cbn in H0. injection H0 as <-. exists rest2. done.
Qed.
End ParseMessageFacts.

(** ** Rewriting *)

Section RewriteFacts.
Lemma rewrite_parse_split name q rest n :
  valid_str name -> no_nul name ->
  rewrite_parse_statement_name
    {| tag := frontend_byte Parse; payload := write_cstr name ++ write_cstr q ++ rest |} n
  = Ok {| tag := frontend_byte Parse; payload := write_cstr n ++ write_cstr q ++ rest |}.
Proof.
  intros Hv Hn. unfold rewrite_parse_statement_name. cbn [tag payload].
  rewrite Z.eqb_refl. cbn [negb]. rewrite rewrite_read_cstr_eq by lia.
  pose proof (read_cstr_write [] name (write_cstr q ++ rest) Hv Hn) as H1.
  cbn [app] in H1. rewrite len_nil, Z.add_0_l in H1. rewrite H1. cbn [mbind result_bind].
  unfold slice_from. rewrite (proj2 (Z.leb_le _ _)) by len_lia.
  cbn [mbind result_bind]. by rewrite to_nat_len, drop_app_length.
Qed.

Lemma rewrite_bind_split portal s rest n :
  valid_str portal -> no_nul portal -> valid_str s -> no_nul s ->
  rewrite_bind_statement_name
    {| tag := frontend_byte Bind; payload := write_cstr portal ++ write_cstr s ++ rest |} n
  = Ok {| tag := frontend_byte Bind;
          payload := write_cstr portal ++ write_cstr n ++ rest |}.
Proof.
  intros Hv1 Hn1 Hv2 Hn2. unfold rewrite_bind_statement_name. cbn [tag payload].
  rewrite Z.eqb_refl. cbn [negb]. rewrite rewrite_read_cstr_eq by lia.
  pose proof (read_cstr_write [] portal (write_cstr s ++ rest) Hv1 Hn1) as H1.
  cbn [app] in H1. rewrite len_nil, Z.add_0_l in H1. rewrite H1. cbn [mbind result_bind].
  rewrite rewrite_read_cstr_eq by apply len_nonneg.
  rewrite (read_cstr_write (write_cstr portal) s rest) by done. cbn [mbind result_bind].
  unfold slice_to, slice_from. rewrite (proj2 (Z.leb_le _ _)) by len_lia.
  cbn [mbind result_bind].
  rewrite <- len_app, app_assoc. rewrite (proj2 (Z.leb_le _ _)) by len_lia.
  cbn [mbind result_bind].
  rewrite !to_nat_len, drop_app_length, <- app_assoc, take_app_length. done.
Qed.

Lemma parse_bind_split portal s rest :
  valid_str portal -> no_nul portal -> valid_str s -> no_nul s ->
  parse_bind_statement_name
    {| tag := frontend_byte Bind; payload := write_cstr portal ++ write_cstr s ++ rest |}
  = Ok (Some s).
Proof.
  intros Hv1 Hn1 Hv2 Hn2. unfold parse_bind_statement_name. cbn [tag payload].
  rewrite Z.eqb_refl. cbn [negb].
  pose proof (read_cstr_write [] portal (write_cstr s ++ rest) Hv1 Hn1) as H1.
  cbn [app] in H1. rewrite len_nil, Z.add_0_l in H1. rewrite H1. cbn [mbind result_bind].
  by rewrite (read_cstr_write (write_cstr portal) s rest).
Qed.

Lemma parse_bind_inv f s :
  parse_bind_statement_name f = Ok (Some s) ->
  exists portal rest, f = {| tag := frontend_byte Bind;
    payload := write_cstr portal ++ write_cstr s ++ rest |} /\
    valid_str portal /\ no_nul portal /\ valid_str s /\ no_nul s.
Proof.
  destruct f as [t p]. unfold parse_bind_statement_name. cbn [tag payload].
  destruct (Z.eqb_spec t (frontend_byte Bind)) as [->|]; [|done]. cbn [negb]. intros H.
  apply bind_Ok_inv in H as ([portal o1] & H1 & H).
  apply bind_Ok_inv in H as ([s' o2] & H2 & [= <-]).
  apply read_cstr_Ok in H1 as (pre & rest1 & -> & Hp & -> & Hv1 & Hn1); [|lia].
  destruct pre as [|? ?]; [|unfold len in Hp; cbn in Hp; lia]. cbn [app] in *.
  rewrite len_nil, Z.add_0_l in *.
  apply read_cstr_Ok in H2 as (pre2 & rest2 & Heq & Hp2 & -> & Hv2 & Hn2);
    [|apply len_nonneg].
  apply (f_equal Z.to_nat) in Hp2. rewrite !to_nat_len in Hp2.
  apply app_inj_1 in Heq as [<- ->]; [|done]. eauto 10.
Qed.

Lemma parse_target_split kind n rest :
  valid_str n -> no_nul n ->
  read_cstr (kind :: write_cstr n ++ rest) 1 = Ok (n, 1 + len (write_cstr n)).
Proof. intros Hv Hn. exact (read_cstr_write [kind] n rest Hv Hn). Qed.

Lemma read_oids_put oids :
  Forall (i_range 32) oids -> read_oids (mjoin (put_i32 <$> oids)) = oids.
Proof.
  induction 1 as [|o oids Ho _ IH]; [done|].
  destruct (put_i32_spec o Ho) as (a & b & c & d & Hp & Hrt).
  change (mjoin (put_i32 <$> o :: oids)) with (put_i32 o ++ mjoin (put_i32 <$> oids)).
  rewrite Hp. cbn [app read_oids].
  by rewrite Hrt, IH.
Qed.

Lemma len_oid_bytes oids : len (mjoin (put_i32 <$> oids)) = len oids * 4.
Proof.
  induction oids as [|o oids IH]; [done|].
  change (mjoin (put_i32 <$> o :: oids)) with (put_i32 o ++ mjoin (put_i32 <$> oids)).
  autorewrite with len. rewrite IH. lia.
Qed.

Lemma read_parameters_build oids :
  Forall (i_range 32) oids -> len oids < 2 ^ 15 ->
  read_parameters (put_i16 (wrap_i 16 (len oids)) ++ mjoin (put_i32 <$> oids)) = Ok oids.
Proof.
  intros Ho Hl. pose proof (len_nonneg oids).
  rewrite wrap_i_id by (unfold i_range; lia).
  destruct (put_i16_spec (len oids)) as (a & b & -> & Hrt); [unfold i_range; lia|].
  cbn [app read_parameters]. rewrite Hrt. decide_ifs.
  rewrite len_oid_bytes, Z.ltb_irrefl.
  rewrite take_ge by (pose proof (len_oid_bytes oids); unfold len in *; lia).
  by rewrite read_oids_put.
Qed.

(** None of the payload slices taken by the rewriters is out of range. *)
Lemma slice_from_no_panic {E} bs n : n <= len bs -> no_panic (slice_from (E := E) bs n).
Proof. intros H. unfold slice_from. rewrite (proj2 (Z.leb_le _ _)) by done. done. Qed.

Lemma slice_to_no_panic {E} bs n : n <= len bs -> no_panic (slice_to (E := E) bs n).
Proof. intros H. unfold slice_to. rewrite (proj2 (Z.leb_le _ _)) by done. done. Qed.

Lemma rewrite_parse_no_panic f n : no_panic (rewrite_parse_statement_name f n).
Proof.
  unfold rewrite_parse_statement_name. case_match; [done|].
  rewrite rewrite_read_cstr_eq by lia.
  apply no_panic_bind; [auto with pgk|]. intros [s off] Hr.
  apply read_cstr_bound in Hr; [|lia].
  apply no_panic_bind; [apply slice_from_no_panic; lia|done].
Qed.

Lemma rewrite_bind_no_panic f n : no_panic (rewrite_bind_statement_name f n).
Proof.
  unfold rewrite_bind_statement_name. case_match; [done|].
  rewrite rewrite_read_cstr_eq by lia.
  apply no_panic_bind; [auto with pgk|]. intros [s off] Hr.
  apply read_cstr_bound in Hr; [|lia].
  rewrite rewrite_read_cstr_eq by lia.
  apply no_panic_bind; [auto with pgk|]. intros [s2 off2] Hr2.
  apply read_cstr_bound in Hr2; [|lia].
  apply no_panic_bind; [apply slice_to_no_panic; lia|]. intros ? _.
  apply no_panic_bind; [apply slice_from_no_panic; lia|done].
Qed.


Lemma parse_parse_no_panic f : no_panic (parse_parse_message f).
Proof.
  unfold parse_parse_message. case_match; [done|].
  apply no_panic_bind; [auto with pgk|]. intros [s off] Hr.
  apply read_cstr_bound in Hr; [|lia].
  apply no_panic_bind; [auto with pgk|]. intros [s2 off2] Hr2.
  apply read_cstr_bound in Hr2; [|lia].
  unfold get_range at 1.
  apply no_panic_bind; [auto with pgk|]. intros count Hc.
  assert (length count = 2%nat) as Hlen.
  { unfold get_range in Hc.
    destruct (Z.leb_spec (off2 + 2) (len (payload f))); [|done].
    injection Hc as <-. rewrite length_take, length_drop. unfold len in *. lia. }
  destruct count as [|c0 [|c1 [|? ?]]]; try done.
  do 2 (case_match; [done|]).
  apply no_panic_bind; [auto with pgk|done].
Qed.
End RewriteFacts.

(** ** Properties *)

(** The frontend frame codec: for a frame whose payload fits the [i32]
    length field, decoding the encoded bytes followed by any further input
    returns exactly that frame and leaves exactly the further input, and
    every strict prefix of the encoding makes the decoder wait with the
    buffer untouched (it is neither taken for a frame nor rejected). *)
Theorem frontend_frame_codec (f : FrontendFrame) :
  fits_frame (payload f) ->
  (forall rest, parse_frontend_frame (encode_frontend_frame f ++ rest) = Ok (Some f, rest)) /\
  (forall n, (n < length (encode_frontend_frame f))%nat ->
     parse_frontend_frame (take n (encode_frontend_frame f))
     = Ok (None, take n (encode_frontend_frame f))).
Proof. eauto using parse_encode_frame, parse_frame_prefix. Qed.

Lemma frontend_frame_codec_witness :
  let f := {| tag := frontend_byte Query; payload := write_cstr (lit "select 1") |} in
  parse_frontend_frame (encode_frontend_frame f ++ [88]) = Ok (Some f, [88]) /\
  parse_frontend_frame (take 7 (encode_frontend_frame f))
  = Ok (None, take 7 (encode_frontend_frame f)).
Proof.
  split; apply frontend_frame_codec; by_eval.
Defined.

(** Renaming the statement of a Parse message changes the name and
    nothing else: for every frame that decodes to a Parse message [m], the
    rewriter succeeds (it neither errors nor panics) and its output decodes
    to [m] with the backend's name, the same query text and the same
    parameter types. *)
Theorem rewrite_parse_renames (f : FrontendFrame) (m : ParseMessage) (n : str) :
  parse_parse_message f = Ok (Some m) -> valid_str n -> no_nul n ->
  exists f', rewrite_parse_statement_name f n = Ok f' /\
    parse_parse_message f' = Ok (Some {| statement_name := n; query := query m;
                                         parameter_type_oids := parameter_type_oids m |}).
Proof.
  intros H Hv Hn. apply parse_parse_message_inv in H as (rest & -> & ? & ? & ? & ? & Hr).
  rewrite rewrite_parse_split by done. eexists. split; [done|].
  by rewrite parse_parse_message_split, Hr.
Qed.

Lemma rewrite_parse_renames_witness :
  let f := build_parse_frame (lit "s1") (lit "select $1") [23] in
  exists f', rewrite_parse_statement_name f (lit "pgk_7_1") = Ok f' /\
    parse_parse_message f' = Ok (Some {| statement_name := lit "pgk_7_1";
      query := lit "select $1"; parameter_type_oids := [23] |}).
Proof.
  apply (rewrite_parse_renames _
           {| statement_name := lit "s1"; query := lit "select $1";
              parameter_type_oids := [23] |}).
  - vm_compute. reflexivity.
  - solve_lit.
  - solve_lit.
Defined.

(** Renaming the statement of a Bind message keeps the portal name and
    every byte after the statement name (formats, parameter values), and the
    result names the backend's statement. *)
Theorem rewrite_bind_renames (f : FrontendFrame) (s n : str) :
  parse_bind_statement_name f = Ok (Some s) -> valid_str n -> no_nul n ->
  exists portal rest,
    payload f = write_cstr portal ++ write_cstr s ++ rest /\
    rewrite_bind_statement_name f n
    = Ok {| tag := tag f; payload := write_cstr portal ++ write_cstr n ++ rest |} /\
    parse_bind_statement_name
      {| tag := tag f; payload := write_cstr portal ++ write_cstr n ++ rest |} = Ok (Some n).
Proof.
  intros H Hv Hn. apply parse_bind_inv in H as (portal & rest & -> & ? & ? & ? & ?).
  exists portal, rest. cbn [tag payload].
  split; [done|]. by rewrite rewrite_bind_split, parse_bind_split.
Qed.

Lemma rewrite_bind_renames_witness :
  let f := {| tag := frontend_byte Bind;
              payload := write_cstr (lit "p") ++ write_cstr (lit "s1") ++ [0; 0; 0; 0] |} in
  exists portal rest,
    payload f = write_cstr portal ++ write_cstr (lit "s1") ++ rest /\
    rewrite_bind_statement_name f (lit "pgk_7_1")
    = Ok {| tag := tag f; payload := write_cstr portal ++ write_cstr (lit "pgk_7_1") ++ rest |} /\
    parse_bind_statement_name
      {| tag := tag f; payload := write_cstr portal ++ write_cstr (lit "pgk_7_1") ++ rest |}
    = Ok (Some (lit "pgk_7_1")).
Proof.
  apply rewrite_bind_renames.
  - vm_compute. reflexivity.
  - solve_lit.
  - solve_lit.
Defined.

(** A Parse frame built for a backend decodes to the name, query and
    parameter types it was built from, as long as the number of parameters
    fits the protocol's [i16]. *)
Theorem build_parse_roundtrip (name q : str) (oids : list Z) :
  valid_str name -> no_nul name -> valid_str q -> no_nul q ->
  Forall (i_range 32) oids -> len oids < 2 ^ 15 ->
  parse_parse_message (build_parse_frame name q oids)
  = Ok (Some {| statement_name := name; query := q; parameter_type_oids := oids |}).
Proof.
  intros. unfold build_parse_frame.
  rewrite parse_parse_message_split by done. by rewrite read_parameters_build.
Qed.

Lemma build_parse_roundtrip_witness :
  parse_parse_message (build_parse_frame (lit "s") (lit "select 1") [23; -1])
  = Ok (Some {| statement_name := lit "s"; query := lit "select 1";
                parameter_type_oids := [23; -1] |}).
Proof.
  apply build_parse_roundtrip; [solve_lit|solve_lit|solve_lit|solve_lit| |reflexivity].
  unfold i_range. repeat (constructor; [lia|]). constructor.
Defined.

(** No input makes the message decoders or the rewriters index out of
    range: for every frame, well-formed or not, Parse and Bind decoding and
    rewriting end in [Ok] or [Err], never in a panic. *)
Theorem message_code_never_panics (f : FrontendFrame) (n : str) :
  no_panic (parse_parse_message f) /\
  no_panic (rewrite_parse_statement_name f n) /\
  no_panic (rewrite_bind_statement_name f n) /\
  no_panic (rewrite_describe_statement_name f n) /\
  no_panic (rewrite_close_statement_name f n).
Proof.
  split_and!; [apply parse_parse_no_panic|apply rewrite_parse_no_panic
              |apply rewrite_bind_no_panic| |];
    unfold rewrite_describe_statement_name, rewrite_close_statement_name,
      rewrite_statement_target; do 2 (case_match; [done|]); done.
Qed.
