(* ===== verification/Startup.v ===== *)
(** * Startup: startup packets, TLS requests, cancel requests

    Models [pg-kinetic-wire]: [startup.rs], [tls.rs]; [cancel.rs]
    ([encode_cancel_request]), [observe/health.rs] ([startup_packet]) and
    [pool/backend_query.rs] ([auth_query_startup_packet]), the packets the
    proxy itself writes. *)

From S2P Require Import Prelude Text Protocol Frame.

(** [startup.rs]: [StartupPacket]. *)
Inductive StartupPacket :=
| Startup (protocol_major protocol_minor : Z) (parameters : list (str * str))
| SslRequest
| GssEncRequest
| CancelRequest (process_id secret_key : Z).

Definition MIN_STARTUP_LEN : Z := 8.

(** [parse_parameters], the loop: [rest] is [bytes[start..]], so
    [start < bytes.len()] is [rest <> []] and [find_null] is [position]. The
    fuel bounds the iterations; each one consumes at least two bytes. *)
Fixpoint parse_parameters_loop (fuel : nat) (rest : bytes) (parameters : list (str * str))
  : option (result WireError (list (str * str))) :=
  match fuel with
  | O => None
  | S fuel =>
      match rest with
      | [] => Some (Ok parameters)
      | b :: _ =>
          if b =? 0 then Some (Ok parameters)
          else
            match position (Z.eqb 0) rest with
            | None => Some (Err UnterminatedStartupParameters)
            | Some key_end =>
                match from_utf8 (take key_end rest) with
                | None => Some (Err InvalidUtf8)
                | Some key =>
                    let after_key := drop (S key_end) rest in
                    match after_key with
                    | [] => Some (Err (MissingStartupParameterValue key))
                    | _ :: _ =>
                        match position (Z.eqb 0) after_key with
                        | None => Some (Err UnterminatedStartupParameters)
                        | Some value_end =>
                            match from_utf8 (take value_end after_key) with
                            | None => Some (Err InvalidUtf8)
                            | Some value =>
                                parse_parameters_loop fuel (drop (S value_end) after_key)
                                  (parameters ++ [(key, value)])
                            end
                        end
                    end
                end
            end
      end
  end.

Definition parse_parameters (bs : bytes) : result WireError (list (str * str)) :=
  if bool_decide (last bs = Some 0) then
    match parse_parameters_loop (S (length bs)) bs [] with
    | Some r => r
    | None => Panic
    end
  else Err UnterminatedStartupParameters.

(** [parse_startup_packet]. [protocol >> 16] is an arithmetic shift; the
    casts to [i16] wrap. *)
Definition parse_startup_packet (packet : bytes) : result WireError StartupPacket :=
  match packet with
  | l0 :: l1 :: l2 :: l3 :: cursor =>
      let length := i32_from_be_bytes l0 l1 l2 l3 in
      if length <? MIN_STARTUP_LEN then Err (InvalidStartupLength length)
      else if negb (len packet =? length) then Err IncompleteStartupPacket
      else
        match cursor with
        | c0 :: c1 :: c2 :: c3 :: body =>
            let code := i32_from_be_bytes c0 c1 c2 c3 in
            if code =? SSL_REQUEST_CODE then Ok SslRequest
            else if code =? GSSENC_REQUEST_CODE then Ok GssEncRequest
            else if code =? CANCEL_REQUEST_CODE then
              match body with
              | [p0; p1; p2; p3; s0; s1; s2; s3] =>
                  Ok (CancelRequest (i32_from_be_bytes p0 p1 p2 p3)
                                    (i32_from_be_bytes s0 s1 s2 s3))
              | _ => Err (InvalidStartupLength length)
              end
            else
              let protocol_major := wrap_i 16 (Z.land (Z.shiftr code 16) 65535) in
              let protocol_minor := wrap_i 16 (Z.land code 65535) in
              parameters ← parse_parameters body;
              Ok (Startup protocol_major protocol_minor parameters)
        | _ => Panic
        end
  | _ => Err IncompleteStartupPacket
  end.

(** [tls.rs]. *)
Definition SSL_REQUEST_LEN : Z := 8.

Inductive SslResponse := Accept | Deny.
Definition ssl_response_byte (r : SslResponse) : Z :=
  match r with Accept => 83 | Deny => 78 end.

Definition is_ssl_request (packet : bytes) : bool :=
  if negb (len packet =? SSL_REQUEST_LEN) then false
  else
    match packet with
    | [l0; l1; l2; l3; c0; c1; c2; c3] =>
        (i32_from_be_bytes l0 l1 l2 l3 =? SSL_REQUEST_LEN)
        && (i32_from_be_bytes c0 c1 c2 c3 =? SSL_REQUEST_CODE)
    | _ => false
    end.

Definition ssl_request_packet : bytes := put_i32 SSL_REQUEST_LEN ++ put_i32 SSL_REQUEST_CODE.

(** [cancel.rs]: [encode_cancel_request]. *)
Definition encode_cancel_request (process_id secret_key : Z) : bytes :=
  put_i32 16 ++ put_i32 CANCEL_REQUEST_CODE ++ put_i32 process_id ++ put_i32 secret_key.

(** Length prefix and body of a startup packet, as [startup_packet] and
    [auth_query_startup_packet] write them. *)
Definition startup_frame (body : bytes) : bytes :=
  put_i32 (wrap_i 32 (len body + 4)) ++ body.

(** [observe/health.rs]: [startup_packet]. *)
Definition startup_packet (user database : str) : bytes :=
  startup_frame
    (put_i32 (protocol_version_to_i32 V3)
     ++ encode_utf8 (lit "user") ++ [0] ++ encode_utf8 user ++ [0]
     ++ encode_utf8 (lit "database") ++ [0] ++ encode_utf8 database ++ [0]
     ++ encode_utf8 (lit "application_name") ++ [0]
     ++ encode_utf8 (lit "pg-kinetic-health") ++ [0] ++ [0]).

(** ** The parameter list *)

(** The wire form of a parameter list: what a client sends. *)
Definition encode_parameters (ps : list (str * str)) : bytes :=
  (ps ≫= fun '(k, v) => write_cstr k ++ write_cstr v) ++ [0].

(** A parameter the protocol can carry: no NUL inside, non-empty key. *)
Definition parameter_ok (p : str * str) : Prop :=
  valid_str (fst p) /\ no_nul (fst p) /\ fst p <> [] /\
  valid_str (snd p) /\ no_nul (snd p).

Lemma write_cstr_split (s : str) (rest : bytes) :
  valid_str s -> no_nul s ->
  position (Z.eqb 0) (write_cstr s ++ rest) = Some (length (encode_utf8 s)) /\
  take (length (encode_utf8 s)) (write_cstr s ++ rest) = encode_utf8 s /\
  drop (S (length (encode_utf8 s))) (write_cstr s ++ rest) = rest.
Proof.
  intros Hv Hn. unfold write_cstr. rewrite <- app_assoc. cbn [app]. split_and!.
  - apply position_app_found; [|done].
    eapply Forall_impl; [by apply encode_utf8_no_zero|]. intros b Hb. by rewrite Z.eqb_sym.
  - by rewrite take_app_length.
  - rewrite drop_app_ge by lia.
    by replace (S (length (encode_utf8 s)) - length (encode_utf8 s))%nat with 1%nat by lia.
Qed.

Lemma write_cstr_cons s :
  s <> [] -> valid_str s -> no_nul s ->
  exists b r, write_cstr s = b :: r /\ (b =? 0) = false.
Proof.
  intros Hne Hv Hn. pose proof (encode_utf8_no_zero s Hv Hn) as Hz.
  destruct s as [|c s]; [done|]. unfold write_cstr in *.
  destruct (encode_utf8 (c :: s)) as [|b r] eqn:He.
  - exfalso. apply (f_equal len) in He. fold (str_len (c :: s)) in He.
    rewrite str_len_cons in He. pose proof (len_utf8_pos c).
    pose proof (len_nonneg (encode_utf8 s)). unfold str_len, len in *. cbn in He. lia.
  - inversion Hz; subst. cbn. eauto.
Qed.

Lemma parse_parameters_loop_encode ps fuel acc :
  Forall parameter_ok ps -> (length ps < fuel)%nat ->
  parse_parameters_loop fuel (encode_parameters ps) acc = Some (Ok (acc ++ ps)).
Proof.
  intros Hps. revert fuel acc.
  induction Hps as [|[k v] ps (Hkv & Hkn & Hk & Hvv & Hvn) Hps IH]; intros fuel acc Hf;
    cbn [fst snd] in *; (destruct fuel as [|fuel]; [cbn in Hf; lia|]).
  { cbn. by rewrite app_nil_r. }
  assert (Henc : encode_parameters ((k, v) :: ps)
                 = write_cstr k ++ write_cstr v ++ encode_parameters ps).
  { unfold encode_parameters. cbn. by rewrite <- !app_assoc. }
  rewrite Henc. cbn [parse_parameters_loop].
  destruct (write_cstr_cons k) as (b & r & Hb & Hb0); [done..|].
  destruct (write_cstr_split k (write_cstr v ++ encode_parameters ps)) as (P1 & P2 & P3);
    [done..|].
  destruct (write_cstr_split v (encode_parameters ps)) as (Q1 & Q2 & Q3); [done..|].
  rewrite P1, P2, P3, from_utf8_encode by done.
  rewrite Hb at 1. cbn [app]. rewrite Hb0.
  destruct (write_cstr v ++ encode_parameters ps) as [|b' r'] eqn:Hv'.
  { exfalso. apply (f_equal length) in Hv'. unfold write_cstr in Hv'.
    rewrite !length_app in Hv'. cbn in Hv'. lia. }
  rewrite Q1, Q2, Q3, from_utf8_encode by done.
  rewrite IH by (cbn in Hf; lia). by rewrite <- app_assoc.
Qed.

Lemma length_encode_parameters ps : (length ps <= length (encode_parameters ps))%nat.
Proof.
  unfold encode_parameters. rewrite length_app.
  induction ps as [|[k v] ps IH]; [cbn; lia|].
  rewrite bind_cons, length_app. unfold write_cstr at 1. rewrite !length_app.
  cbn [length] in *. lia.
Qed.

Lemma parse_parameters_encode ps :
  Forall parameter_ok ps -> parse_parameters (encode_parameters ps) = Ok ps.
Proof.
  intros Hps. unfold parse_parameters.
  rewrite bool_decide_true by (unfold encode_parameters; by rewrite last_snoc).
  rewrite parse_parameters_loop_encode; [done|done|].
  pose proof (length_encode_parameters ps). lia.
Qed.

(** The loop always finishes within the fuel [parse_parameters] gives it. *)
Lemma parse_parameters_loop_total fuel rest acc :
  (length rest < fuel)%nat -> parse_parameters_loop fuel rest acc <> None.
Proof.
  revert rest acc. induction fuel as [|fuel IH]; intros rest acc Hf; [lia|].
  cbn [parse_parameters_loop]. destruct rest as [|b r]; [done|].
  destruct (b =? 0); [done|].
  destruct (position (Z.eqb 0) (b :: r)) as [ke|]; [|done].
  destruct (from_utf8 (take ke (b :: r))); [|done].
  destruct (drop (S ke) (b :: r)) as [|b' r'] eqn:Hd; [done|].
  destruct (position (Z.eqb 0) (b' :: r')) as [ve|]; [|done].
  destruct (from_utf8 (take ve (b' :: r'))); [|done].
  apply IH. apply (f_equal length) in Hd. rewrite length_drop in Hd.
  cbn [length] in *. rewrite length_drop. cbn [length]. lia.
Qed.

Lemma parse_parameters_loop_no_panic fuel rest acc :
  parse_parameters_loop fuel rest acc <> Some Panic.
Proof.
  revert rest acc. induction fuel as [|fuel IH]; intros rest acc; [done|].
  cbn [parse_parameters_loop]. repeat (case_match; try done).
Qed.

Lemma parse_parameters_no_panic bs : no_panic (parse_parameters bs).
Proof.
  unfold parse_parameters. case_bool_decide; [|done].
  destruct (parse_parameters_loop (S (length bs)) bs []) as [r|] eqn:Hl.
  - intros ->. by apply parse_parameters_loop_no_panic in Hl.
  - exfalso. eapply parse_parameters_loop_total; [|done]. lia.
Qed.

Lemma parse_startup_no_panic packet : no_panic (parse_startup_packet packet).
Proof.
  unfold parse_startup_packet, MIN_STARTUP_LEN.
  destruct packet as [|l0 [|l1 [|l2 [|l3 cursor]]]]; try done.
  destruct (Z.ltb_spec (i32_from_be_bytes l0 l1 l2 l3) 8) as [|Hl]; [done|].
  destruct (Z.eqb_spec (len (l0 :: l1 :: l2 :: l3 :: cursor)) (i32_from_be_bytes l0 l1 l2 l3))
    as [He|]; [|done]. cbn [negb].
  destruct cursor as [|c0 [|c1 [|c2 [|c3 body]]]];
    try (exfalso; rewrite <- He in Hl; revert Hl; unfold len; cbn; lia).
  do 2 (case_match; [done|]). case_match.
  - do 9 (destruct body as [|? body]; try done).
  - apply no_panic_bind; [apply parse_parameters_no_panic|done].
Qed.

(** ** Properties *)

(** Startup parameters round-trip: a version-3 startup packet carrying
    any list of parameters (non-empty keys, no embedded NUL, total length
    within the [i32] length field) parses to protocol 3.0 and exactly those
    parameters, in order and with duplicates kept. *)
Theorem startup_roundtrip (ps : list (str * str)) :
  Forall parameter_ok ps ->
  len (encode_parameters ps) + 8 < 2 ^ 31 ->
  parse_startup_packet
    (startup_frame (put_i32 (protocol_version_to_i32 V3) ++ encode_parameters ps))
  = Ok (Startup 3 0 ps).
Proof.
  intros Hps Hlen. pose proof (len_nonneg (encode_parameters ps)).
  unfold startup_frame. set (body := encode_parameters ps) in *.
  rewrite wrap_i_id by (unfold i_range; len_lia).
  destruct (put_i32_spec (len (put_i32 (protocol_version_to_i32 V3) ++ body) + 4))
    as (a & b & c & d & -> & Hrt); [unfold i_range; len_lia|].
  cbn [app]. unfold parse_startup_packet, MIN_STARTUP_LEN. rewrite Hrt.
  rewrite (proj2 (Z.ltb_ge _ _)) by len_lia.
  rewrite (proj2 (Z.eqb_eq _ _)) by len_lia. cbn [negb].
  change (put_i32 (protocol_version_to_i32 V3)) with [0; 3; 0; 0]. cbn [app].
  change (i32_from_be_bytes 0 3 0 0) with 196608.
  unfold body. cbn [Z.eqb Pos.eqb SSL_REQUEST_CODE GSSENC_REQUEST_CODE CANCEL_REQUEST_CODE].
  by rewrite parse_parameters_encode.
Qed.

Lemma startup_roundtrip_witness :
  parse_startup_packet
    (startup_frame (put_i32 (protocol_version_to_i32 V3)
       ++ encode_parameters [(lit "user", lit "app"); (lit "database", lit "")]))
  = Ok (Startup 3 0 [(lit "user", lit "app"); (lit "database", lit "")]).
Proof.
  apply startup_roundtrip; [|reflexivity].
  repeat constructor; cbn [fst snd]; try solve [discriminate]; try solve_lit.
Defined.

(** Every byte string given to [parse_startup_packet] gets an answer: no
    slice is out of range, and the parameter loop finishes within the fuel
    [length + 1] (each iteration consumes the key and its terminator). *)
Theorem startup_parse_total (packet : bytes) :
  no_panic (parse_startup_packet packet) /\
  forall bs acc, parse_parameters_loop (S (length bs)) bs acc <> None.
Proof.
  split; [apply parse_startup_no_panic|].
  intros. apply parse_parameters_loop_total. lia.
Qed.

(** The packets the proxy writes to a server are the packets its own
    parser recognises: the TLS request is an [SslRequest] and passes
    [is_ssl_request]; a forwarded cancel request parses to the process id and
    secret key it was built from, for every pair of [i32] values. *)
Theorem proxy_packets_parse (pid key : Z) :
  i_range 32 pid -> i_range 32 key ->
  parse_startup_packet (encode_cancel_request pid key) = Ok (CancelRequest pid key) /\
  is_ssl_request (encode_cancel_request pid key) = false /\
  parse_startup_packet ssl_request_packet = Ok SslRequest /\
  is_ssl_request ssl_request_packet = true.
Proof.
  intros Hp Hk. split_and!; [| |vm_compute; done|vm_compute; done].
  - unfold encode_cancel_request.
    destruct (put_i32_spec pid Hp) as (a & b & c & d & -> & H1).
    destruct (put_i32_spec key Hk) as (a' & b' & c' & d' & -> & H2).
    change (put_i32 16) with [0; 0; 0; 16].
    change (put_i32 CANCEL_REQUEST_CODE) with [4; 210; 22; 46].
    cbn [app]. unfold parse_startup_packet.
    change (i32_from_be_bytes 0 0 0 16) with 16.
    change (i32_from_be_bytes 4 210 22 46) with CANCEL_REQUEST_CODE.
    unfold len. cbn. by rewrite H1, H2.
  - reflexivity.
Qed.

Lemma proxy_packets_parse_witness :
  parse_startup_packet (encode_cancel_request 7 (-9)) = Ok (CancelRequest 7 (-9)) /\
  is_ssl_request (encode_cancel_request 7 (-9)) = false /\
  parse_startup_packet ssl_request_packet = Ok SslRequest /\
  is_ssl_request ssl_request_packet = true.
Proof. apply proxy_packets_parse; unfold i_range; lia. Defined.
