(* ===== verification/BackendWire.v ===== *)
(** * BackendWire: backend frames and the messages the proxy builds

    Models [pg-kinetic-wire]: [backend.rs], [auth.rs], [admin.rs], and the
    frame helpers of [proxy/backend_startup.rs]. *)

From S2P Require Import Prelude Text Protocol Frame.

(** [backend.rs]: [BackendFrame]. *)
Record BackendFrame := { btag : Z; bpayload : bytes }.

#[global] Instance BackendFrame_eq_dec : EqDecision BackendFrame.
Proof. solve_decision. Defined.

Definition SQLSTATE_FIELD_KIND : Z := 67.
Definition SEVERITY_FIELD_KIND : Z := 83.
Definition MESSAGE_FIELD_KIND : Z := 77.

(** [parse_backend_frame]: frame and remaining buffer. *)
Definition parse_backend_frame (buffer : bytes)
  : result WireError (option BackendFrame * bytes) :=
  match buffer with
  | t :: b1 :: b2 :: b3 :: b4 :: rest =>
      let length := i32_from_be_bytes b1 b2 b3 b4 in
      if length <? 4 then Err (InvalidBackendFrameLength length)
      else
        let total_len := 1 + length in
        if len buffer <? total_len then Ok (None, buffer)
        else
          Ok (Some {| btag := t; bpayload := take (Z.to_nat (length - 4)) rest |},
              drop (Z.to_nat (length - 4)) rest)
  | _ => Ok (None, buffer)
  end.

(** [proxy/backend_startup.rs]: [encode_backend_frame]. *)
Definition encode_backend_frame (f : BackendFrame) : bytes :=
  encode_backend_message_raw (btag f) (bpayload f).

(** [BackendFrame::ready_status]. *)
Definition ready_status (f : BackendFrame) : option ReadyStatus :=
  if negb (btag f =? backend_byte ReadyForQuery) || negb (len (bpayload f) =? 1) then None
  else
    match bpayload f with
    | b :: _ =>
        if b =? ready_status_byte RS_Idle then Some RS_Idle
        else if b =? ready_status_byte RS_InTransaction then Some RS_InTransaction
        else if b =? ready_status_byte RS_FailedTransaction then Some RS_FailedTransaction
        else None
    | [] => None
    end.

(** [BackendFrame::sqlstate], the loop over the error fields: [rest] is
    [payload[offset..]]; every iteration consumes at least two bytes. *)
Fixpoint sqlstate_loop (fuel : nat) (rest : bytes) : option SqlState :=
  match fuel with
  | O => None
  | S fuel =>
      match rest with
      | [] => None
      | field_type :: remaining =>
          if field_type =? 0 then None
          else
            match position (Z.eqb 0) remaining with
            | None => None
            | Some terminator =>
                match from_utf8 (take terminator remaining) with
                | None => None
                | Some value =>
                    if field_type =? SQLSTATE_FIELD_KIND then sqlstate_parse value
                    else sqlstate_loop fuel (drop (S terminator) remaining)
                end
            end
      end
  end.

Definition sqlstate (f : BackendFrame) : option SqlState :=
  if negb (btag f =? backend_byte ErrorResponse) then None
  else sqlstate_loop (S (length (bpayload f))) (bpayload f).

(** [build_error_response]. *)
Definition error_payload (sqlstate message : str) : bytes :=
  SEVERITY_FIELD_KIND :: write_cstr (lit "ERROR")
  ++ SQLSTATE_FIELD_KIND :: write_cstr sqlstate
  ++ MESSAGE_FIELD_KIND :: write_cstr message ++ [0].

Definition build_error_response (sqlstate message : str) : bytes :=
  encode_backend_message ErrorResponse (error_payload sqlstate message).

(** [encode_parameter_status], [encode_backend_key_data]. *)
Definition encode_parameter_status (name value : str) : bytes :=
  encode_backend_message ParameterStatus (write_cstr name ++ write_cstr value).

Definition encode_backend_key_data (process_id secret_key : Z) : bytes :=
  backend_byte BackendKeyData :: put_i32 12 ++ put_i32 process_id ++ put_i32 secret_key.

(** [slice::split(|b| *b == 0)]. *)
Fixpoint split_zero (bs acc : bytes) : list bytes :=
  match bs with
  | [] => [reverse acc]
  | b :: r => if b =? 0 then reverse acc :: split_zero r [] else split_zero r (b :: acc)
  end.

(** [parse_parameter_status]. *)
Definition parse_parameter_status (p : bytes) : option (str * str) :=
  match split_zero p [] with
  | [name; value; trailing] =>
      if bool_decide (name = []) || negb (bool_decide (trailing = [])) then None
      else
        n ← from_utf8 name;
        v ← from_utf8 value;
        Some (n, v)
  | _ => None
  end.

(** [auth.rs]: [AuthRequest] and its message. *)
Inductive AuthRequest :=
| AuthOk
| CleartextPassword
| Md5Password (salt : bytes)
| Sasl (mechanisms : list str)
| SaslContinue (data : bytes)
| SaslFinal (data : bytes).

Definition auth_payload (request : AuthRequest) : bytes :=
  match request with
  | AuthOk => put_i32 0
  | CleartextPassword => put_i32 3
  | Md5Password salt => put_i32 5 ++ salt
  | Sasl mechanisms => put_i32 10 ++ (mechanisms ≫= write_cstr) ++ [0]
  | SaslContinue data => put_i32 11 ++ data
  | SaslFinal data => put_i32 12 ++ data
  end.

Definition build_auth_message (request : AuthRequest) : bytes :=
  encode_backend_message Authentication (auth_payload request).

Definition authentication_sasl_scram_sha_256 : bytes :=
  build_auth_message (Sasl [lit "SCRAM-SHA-256"]).

(** [proxy/backend_startup.rs]: [auth_request_code] and
    [auth_request_expects_client_response]; [Err tt] is the [anyhow] error. *)
Definition auth_request_code (p : bytes) : result unit Z :=
  match p with
  | a :: b :: c :: d :: _ => Ok (i32_from_be_bytes a b c d)
  | _ => Err tt
  end.

Definition auth_request_expects_client_response (p : bytes) : result unit bool :=
  code ← auth_request_code p;
  Ok (existsb (Z.eqb code) [3; 5; 6; 7; 8; 9; 10; 11]).

(** [proxy/backend_startup.rs]: [ready_for_query], [synthetic_startup_ready]. *)
Definition ready_for_query (status : ReadyStatus) : bytes :=
  backend_byte ReadyForQuery :: put_i32 5 ++ [ready_status_byte status].

Definition synthetic_startup_ready (include_authentication_ok : bool)
  (parameter_status : list (str * str)) (client_key : Z * Z) : bytes :=
  (if include_authentication_ok
   then backend_byte Authentication :: put_i32 8 ++ put_i32 0 else [])
  ++ (parameter_status ≫= fun '(name, value) => encode_parameter_status name value)
  ++ encode_backend_key_data (fst client_key) (snd client_key)
  ++ ready_for_query RS_Idle.

(** [admin.rs]: result sets of the admin console. *)
Inductive AdminWireType := WText | WInt8 | WFloat8 | WBool | WTimestamp.

Definition oid (t : AdminWireType) : Z :=
  match t with
  | WText => 25 | WInt8 => 20 | WFloat8 => 701 | WBool => 16 | WTimestamp => 1114
  end.

Definition type_size (t : AdminWireType) : Z :=
  match t with
  | WText => -1 | WInt8 => 8 | WFloat8 => 8 | WBool => 1 | WTimestamp => 8
  end.

Record AdminWireColumn := { column_name : str; wire_type : AdminWireType }.

Definition column_description (c : AdminWireColumn) : bytes :=
  write_cstr (column_name c) ++ put_i32 0 ++ put_i16 0 ++ put_i32 (oid (wire_type c))
  ++ put_i16 (type_size (wire_type c)) ++ put_i32 (-1) ++ put_i16 0.

Definition build_row_description (columns : list AdminWireColumn) : bytes :=
  encode_backend_message_raw 84
    (put_i16 (wrap_i 16 (len columns)) ++ (columns ≫= column_description)).

(** [build_data_row]: the width assertion makes a ragged table panic. *)
Definition data_row_payload (columns : list AdminWireColumn) (row : list str) : bytes :=
  put_i16 (wrap_i 16 (len columns))
  ++ (row ≫= fun value => put_i32 (wrap_i 32 (str_len value)) ++ encode_utf8 value).

Fixpoint build_data_row (columns : list AdminWireColumn) (rows : list (list str))
  : result WireError bytes :=
  match rows with
  | [] => Ok []
  | row :: rest =>
      if len row =? len columns then
        tail ← build_data_row columns rest;
        Ok (encode_backend_message DataRow (data_row_payload columns row) ++ tail)
      else Panic
  end.

Definition build_command_complete (command_tag : str) : bytes :=
  encode_backend_message CommandComplete (write_cstr command_tag).

Definition build_ready_for_query : bytes :=
  encode_backend_message ReadyForQuery [ready_status_byte RS_Idle].

Definition build_admin_table_response (columns : list AdminWireColumn)
  (rows : list (list str)) : result WireError bytes :=
  data ← build_data_row columns rows;
  Ok (build_row_description columns ++ data
      ++ build_command_complete (lit "SHOW") ++ build_ready_for_query).

Definition build_command_response (command_tag : str) : bytes :=
  build_command_complete command_tag ++ build_ready_for_query.

(** The read loop [while let Some(frame) = parse_backend_frame(buf)? { .. }]:
    the frames in order and the bytes left. *)
Fixpoint parse_backend_frames (fuel : nat) (buffer : bytes)
  : option (result WireError (list BackendFrame * bytes)) :=
  match fuel with
  | O => None
  | S fuel =>
      match parse_backend_frame buffer with
      | Ok (None, rest) => Some (Ok ([], rest))
      | Ok (Some f, rest) =>
          match parse_backend_frames fuel rest with
          | Some (Ok (fs, r)) => Some (Ok (f :: fs, r))
          | other => other
          end
      | Err e => Some (Err e)
      | Panic => Some Panic
      end
  end.

(** ** Backend frame codec *)

Section BackendFrameFacts.
(** The two decoders read the same layout. *)
Lemma parse_backend_frame_spec t p rest :
  fits_frame p ->
  parse_backend_frame (encode_backend_message_raw t p ++ rest)
  = Ok (Some {| btag := t; bpayload := p |}, rest).
Proof.
  intros Hfit. unfold fits_frame in Hfit. pose proof (len_nonneg p).
  unfold encode_backend_message_raw. rewrite wrap_i_id by (unfold i_range; lia).
  destruct (put_i32_spec (len p + 4)) as (a & b & c & d & -> & Hrt);
    [unfold i_range; lia|].
  cbn [app]. unfold parse_backend_frame. rewrite Hrt.
  rewrite (proj2 (Z.ltb_ge _ _)) by lia.
  rewrite (proj2 (Z.ltb_ge _ _)) by len_lia.
  replace (Z.to_nat (len p + 4 - 4)) with (length p) by (unfold len; lia).
  by rewrite take_app_length, drop_app_length.
Qed.

(** What a parsed frame consumes. *)
Lemma parse_backend_frame_inv buffer f rest :
  parse_backend_frame buffer = Ok (Some f, rest) ->
  exists b1 b2 b3 b4, buffer = btag f :: b1 :: b2 :: b3 :: b4 :: bpayload f ++ rest /\
    i32_from_be_bytes b1 b2 b3 b4 = len (bpayload f) + 4.
Proof.
  unfold parse_backend_frame.
  destruct buffer as [|t [|b1 [|b2 [|b3 [|b4 r]]]]]; try done.
  destruct (Z.ltb_spec (i32_from_be_bytes b1 b2 b3 b4) 4); [done|].
  destruct (Z.ltb_spec (len (t :: b1 :: b2 :: b3 :: b4 :: r))
              (1 + i32_from_be_bytes b1 b2 b3 b4)) as [|Hl]; [done|].
  intros [= <- <-]. cbn [btag bpayload]. exists b1, b2, b3, b4.
  rewrite take_drop. split; [done|].
  unfold len in *. cbn [length] in Hl. rewrite length_take. lia.
Qed.

Lemma parse_backend_frame_decreases buffer f rest :
  parse_backend_frame buffer = Ok (Some f, rest) -> (length rest + 5 <= length buffer)%nat.
Proof.
  intros H. apply parse_backend_frame_inv in H as (b1 & b2 & b3 & b4 & -> & _).
  cbn [length]. rewrite length_app. lia.
Qed.

Lemma parse_backend_frame_None buffer rest :
  parse_backend_frame buffer = Ok (None, rest) -> rest = buffer.
Proof. unfold parse_backend_frame. intros. repeat case_match; congruence. Qed.

Lemma parse_backend_frame_no_panic buffer : no_panic (parse_backend_frame buffer).
Proof. unfold parse_backend_frame, no_panic. repeat case_match; done. Qed.

(** Enough fuel for the read loop: one more than the buffer's length. *)
Lemma parse_backend_frames_total fuel buffer :
  (length buffer < fuel)%nat -> is_Some (parse_backend_frames fuel buffer).
Proof.
  revert buffer. induction fuel as [|fuel IH]; intros buffer Hf; [lia|].
  cbn [parse_backend_frames].
  destruct (parse_backend_frame buffer) as [[[f|] rest]|e|] eqn:H; eauto.
  apply parse_backend_frame_decreases in H.
  destruct (IH rest) as [r ->]; [lia|]. destruct r as [[? ?]|?|]; eauto.
Qed.

(** More fuel changes nothing. *)
Lemma parse_backend_frames_mono fuel fuel' buffer r :
  (fuel <= fuel')%nat -> parse_backend_frames fuel buffer = Some r ->
  parse_backend_frames fuel' buffer = Some r.
Proof.
  revert fuel' buffer r. induction fuel as [|fuel IH]; intros fuel' buffer r Hle H; [done|].
  destruct fuel' as [|fuel']; [lia|]. cbn [parse_backend_frames] in *.
  destruct (parse_backend_frame buffer) as [[[f|] rest]|e|]; try done.
  destruct (parse_backend_frames fuel rest) as [r'|] eqn:Hr; [|done].
  rewrite (IH fuel' _ r') by (done || lia). done.
Qed.
End BackendFrameFacts.

(** ** Streams of encoded frames *)

Section StreamFacts.
Definition encode_frames (fs : list BackendFrame) : bytes := fs ≫= encode_backend_frame.

Definition frame_fits (f : BackendFrame) : Prop := fits_frame (bpayload f).

Lemma encode_frames_app fs gs : encode_frames (fs ++ gs) = encode_frames fs ++ encode_frames gs.
Proof. apply bind_app. Qed.

Lemma encode_frames_cons f fs :
  encode_frames (f :: fs) = encode_backend_frame f ++ encode_frames fs.
Proof. done. Qed.

Lemma parse_backend_frames_encode fs rest fuel :
  Forall frame_fits fs ->
  (length fs < fuel)%nat ->
  parse_backend_frame rest = Ok (None, rest) ->
  parse_backend_frames fuel (encode_frames fs ++ rest) = Some (Ok (fs, rest)).
Proof.
  intros Hfs Hf Hrest. revert fuel Hf.
  induction Hfs as [|[t p] fs Hfit Hfs IH]; intros fuel Hf;
    (destruct fuel as [|fuel]; [cbn in Hf; lia|]); cbn [parse_backend_frames].
  - cbn. by rewrite Hrest.
  - rewrite encode_frames_cons, <- app_assoc. unfold encode_backend_frame at 1. cbn [btag bpayload].
    rewrite parse_backend_frame_spec by done. rewrite IH by (cbn in Hf; lia). done.
Qed.

Lemma parse_frames_of fs bs :
  Forall frame_fits fs -> bs = encode_frames fs ->
  parse_backend_frames (S (length fs)) bs = Some (Ok (fs, [])).
Proof.
  intros Hfs ->. rewrite <- (app_nil_r (encode_frames fs)).
  apply parse_backend_frames_encode; [done|lia|done].
Qed.
End StreamFacts.

(** ** Fields and C strings inside payloads *)

Section PayloadFacts.
Lemma split_zero_write s rest acc :
  valid_str s -> no_nul s ->
  split_zero (write_cstr s ++ rest) acc
  = (reverse acc ++ encode_utf8 s) :: split_zero rest [].
Proof.
  intros Hv Hn. pose proof (encode_utf8_no_zero s Hv Hn) as Hz.
  unfold write_cstr. rewrite <- app_assoc. cbn [app]. clear Hv Hn.
  revert acc. induction Hz as [|b bs Hb Hz IH]; intros acc; cbn.
  - by rewrite app_nil_r.
  - rewrite Hb, IH, reverse_cons, <- app_assoc. done.
Qed.

Lemma parse_parameter_status_write name value :
  valid_str name -> no_nul name -> name <> [] -> valid_str value -> no_nul value ->
  parse_parameter_status (write_cstr name ++ write_cstr value) = Some (name, value).
Proof.
  intros. unfold parse_parameter_status.
  rewrite split_zero_write by done. rewrite <- (app_nil_r (write_cstr value)).
  rewrite split_zero_write by done.
  change (reverse (@nil Z)) with (@nil Z). cbn [app split_zero].
  change (reverse (@nil Z)) with (@nil Z). rewrite bool_decide_false.
  - cbn. by rewrite !from_utf8_encode.
  - intros He. apply (f_equal from_utf8) in He.
    rewrite from_utf8_encode in He by done. cbn in He. congruence.
Qed.

(** One field of an error payload is skipped by the [sqlstate] loop. *)
Lemma sqlstate_loop_field fuel k value rest :
  k <> 0 -> valid_str value -> no_nul value ->
  sqlstate_loop (S fuel) (k :: write_cstr value ++ rest)
  = if k =? SQLSTATE_FIELD_KIND then sqlstate_parse value else sqlstate_loop fuel rest.
Proof.
  intros Hk Hv Hn. cbn [sqlstate_loop]. rewrite (proj2 (Z.eqb_neq _ _)) by done.
  unfold write_cstr. rewrite <- app_assoc. cbn [app]. rewrite position_app_found.
  - rewrite take_app_length, from_utf8_encode by done.
    rewrite drop_app_ge by lia.
    by replace (S (length (encode_utf8 value)) - length (encode_utf8 value))%nat
      with 1%nat by lia.
  - eapply Forall_impl; [by apply encode_utf8_no_zero|].
    intros b Hb. by rewrite Z.eqb_sym.
  - done.
Qed.

Lemma sqlstate_error_payload s message :
  sqlstate {| btag := backend_byte ErrorResponse;
              bpayload := error_payload (sqlstate_as_str s) message |} = Some s.
Proof.
  unfold sqlstate. cbn [btag bpayload]. rewrite Z.eqb_refl. cbn [negb].
  assert (valid_str (sqlstate_as_str s) /\ no_nul (sqlstate_as_str s)) as [Hv Hn].
  { destruct s; split; try apply lit_scalar; solve_lit. }
  unfold error_payload. cbn [length]. rewrite length_app.
  rewrite sqlstate_loop_field; [|done|solve_lit|solve_lit].
  change (SEVERITY_FIELD_KIND =? SQLSTATE_FIELD_KIND) with false. cbn [length write_cstr].
  unfold write_cstr at 1. rewrite length_app, Nat.add_comm. cbn [length Nat.add app].
  rewrite sqlstate_loop_field by done. apply sqlstate_parse_as_str.
Qed.
End PayloadFacts.

(** ** Properties *)

(** An error the proxy reports to a client is a well-formed
    [ErrorResponse] frame whose SQLSTATE reads back as the one it was built
    with, whatever the message text; the reader finds it past the severity
    field and does not take it for a [ReadyForQuery]. *)
Theorem error_response_roundtrip (s : SqlState) (message : str) (rest : bytes) :
  fits_frame (error_payload (sqlstate_as_str s) message) ->
  exists f, parse_backend_frame (build_error_response (sqlstate_as_str s) message ++ rest)
       = Ok (Some f, rest) /\
    btag f = backend_byte ErrorResponse /\ sqlstate f = Some s /\ ready_status f = None.
Proof.
  intros Hfit. unfold build_error_response, encode_backend_message.
  rewrite parse_backend_frame_spec by done. eexists. split; [done|].
  split; [done|]. split; [apply sqlstate_error_payload|done].
Qed.

Lemma error_response_roundtrip_witness :
  exists f, parse_backend_frame
         (build_error_response (sqlstate_as_str TooManyConnections) (lit "queue full") ++ [90])
       = Ok (Some f, [90]) /\
    btag f = backend_byte ErrorResponse /\ sqlstate f = Some TooManyConnections /\
    ready_status f = None.
Proof. apply error_response_roundtrip. by_eval. Defined.

(** The startup answer synthesized from a pooled backend is, on the
    wire, exactly: AuthenticationOk if asked for, one ParameterStatus per
    remembered setting in order, the client's own key data, and
    ReadyForQuery in the idle state; and each ParameterStatus reads back as
    the setting it came from. *)
Theorem synthetic_startup_frames (auth : bool) (ps : list (str * str)) (pid key : Z) :
  Forall (fun p => valid_str (fst p) /\ no_nul (fst p) /\ fst p <> [] /\
                   valid_str (snd p) /\ no_nul (snd p) /\
                   fits_frame (write_cstr (fst p) ++ write_cstr (snd p))) ps ->
  exists fs_auth fs_status,
    parse_backend_frames (S (length ps + 3)) (synthetic_startup_ready auth ps (pid, key))
    = Some (Ok (fs_auth ++ fs_status
                ++ [ {| btag := backend_byte BackendKeyData;
                        bpayload := put_i32 pid ++ put_i32 key |};
                     {| btag := backend_byte ReadyForQuery;
                        bpayload := [ready_status_byte RS_Idle] |} ], [])) /\
    fs_auth = (if auth then [ {| btag := backend_byte Authentication;
                                 bpayload := put_i32 0 |} ] else []) /\
    map btag fs_status = map (fun _ => backend_byte ParameterStatus) ps /\
    map (fun f => parse_parameter_status (bpayload f)) fs_status = map Some ps.
Proof.
  intros Hps.
  exists (if auth then [ {| btag := backend_byte Authentication; bpayload := put_i32 0 |} ] else []).
  exists (map (fun p => {| btag := backend_byte ParameterStatus;
                           bpayload := write_cstr (fst p) ++ write_cstr (snd p) |}) ps).
  split_and!; [|done| |].
  - eapply parse_backend_frames_mono; [|apply parse_frames_of].
    + rewrite !length_app, length_map. destruct auth; cbn; lia.
    + apply Forall_app. split; [destruct auth; repeat constructor; unfold frame_fits; by_eval|].
      apply Forall_app. split.
      * apply Forall_map. eapply Forall_impl; [done|]. intros p Hp. apply Hp.
      * repeat constructor.
    + unfold synthetic_startup_ready. rewrite !encode_frames_app. f_equal; [by destruct auth|].
      f_equal. clear. induction ps as [|[n v] ps IH]; [done|].
      rewrite bind_cons, IH. done.
  - rewrite map_map. done.
  - rewrite map_map. apply map_ext_in. intros [n v] Hin. cbn [bpayload fst snd].
    rewrite Forall_forall in Hps. specialize (Hps (n, v)).
    rewrite list_elem_of_In in Hps. destruct Hps as (? & ? & ? & ? & ? & _); [done|].
    by apply parse_parameter_status_write.
Qed.

Lemma synthetic_startup_frames_witness :
  let ps := [(lit "server_version", lit "16.4")] in
  exists fs_auth fs_status,
    parse_backend_frames 5 (synthetic_startup_ready true ps (7, 9))
    = Some (Ok (fs_auth ++ fs_status
                ++ [ {| btag := backend_byte BackendKeyData;
                        bpayload := put_i32 7 ++ put_i32 9 |};
                     {| btag := backend_byte ReadyForQuery;
                        bpayload := [ready_status_byte RS_Idle] |} ], [])) /\
    fs_auth = [ {| btag := backend_byte Authentication; bpayload := put_i32 0 |} ] /\
    map btag fs_status = map (fun _ => backend_byte ParameterStatus) ps /\
    map (fun f => parse_parameter_status (bpayload f)) fs_status = map Some ps.
Proof.
  apply (synthetic_startup_frames true [(lit "server_version", lit "16.4")] 7 9).
  repeat constructor; cbn [fst snd]; try solve_lit; try solve [discriminate]; by_eval.
Defined.

(** The admin console's answer to a SHOW command: with rows as wide as
    the column list, the response is one RowDescription, one DataRow per row
    in order, CommandComplete and ReadyForQuery idle, with nothing between
    or after them; a row of another width stops the response (the width
    assertion), and no partial response is produced. *)
Theorem admin_table_frames (columns : list AdminWireColumn) (rows : list (list str)) :
  (Forall (fun row => len row = len columns) rows ->
   Forall (fun row => fits_frame (data_row_payload columns row)) rows ->
   fits_frame (put_i16 (wrap_i 16 (len columns)) ++ (columns ≫= column_description)) ->
   exists bs fs, build_admin_table_response columns rows = Ok bs /\
     parse_backend_frames (S (length rows + 3)) bs = Some (Ok (fs, [])) /\
     map btag fs = backend_byte RowDescription :: map (fun _ => backend_byte DataRow) rows
                   ++ [backend_byte CommandComplete; backend_byte ReadyForQuery] /\
     (ready_status <$> last fs) = Some (Some RS_Idle)) /\
  (Exists (fun row => len row <> len columns) rows ->
   build_admin_table_response columns rows = Panic).
Proof.
  split.
  - intros Hw Hf Hc.
    set (fs := {| btag := 84; bpayload := put_i16 (wrap_i 16 (len columns))
                                          ++ (columns ≫= column_description) |}
               :: map (fun row => {| btag := backend_byte DataRow;
                                     bpayload := data_row_payload columns row |}) rows
               ++ [ {| btag := backend_byte CommandComplete;
                       bpayload := write_cstr (lit "SHOW") |};
                    {| btag := backend_byte ReadyForQuery;
                       bpayload := [ready_status_byte RS_Idle] |} ]).
    assert (build_data_row columns rows
            = Ok (encode_frames (map (fun row => {| btag := backend_byte DataRow;
                bpayload := data_row_payload columns row |}) rows))) as Hd.
    { clear Hf Hc fs. induction Hw as [|row rows Hr Hw IH]; [done|].
      cbn [build_data_row]. rewrite Hr, Z.eqb_refl, IH. done. }
    exists (encode_frames fs), fs. split_and!.
    + unfold build_admin_table_response. rewrite Hd. unfold fs. cbn [mbind result_bind].
      by rewrite encode_frames_cons, encode_frames_app.
    + eapply parse_backend_frames_mono; [|apply parse_frames_of; [|done]].
      * unfold fs. cbn [length]. rewrite length_app, length_map. cbn. lia.
      * constructor; [done|]. apply Forall_app. split; [by apply Forall_map|].
        repeat constructor; unfold frame_fits; by_eval.
    + unfold fs. cbn [map]. rewrite map_app, map_map. done.
    + unfold fs. rewrite app_comm_cons, last_app. done.
  - intros He. unfold build_admin_table_response.
    enough (build_data_row columns rows = Panic) as -> by done.
    induction He as [row rows Hr|row rows He IH]; cbn [build_data_row].
    + by rewrite (proj2 (Z.eqb_neq _ _)).
    + case_match; [by rewrite IH|done].
Qed.

Lemma admin_table_frames_witness :
  let columns := [ {| column_name := lit "database"; wire_type := WText |} ] in
  (exists bs fs, build_admin_table_response columns [[lit "app"]] = Ok bs /\
     parse_backend_frames 5 bs = Some (Ok (fs, [])) /\
     map btag fs = [84; 68; 67; 90] /\ (ready_status <$> last fs) = Some (Some RS_Idle)) /\
  build_admin_table_response columns [[lit "app"]; []] = Panic.
Proof.
  split.
  - apply (proj1 (admin_table_frames [ {| column_name := lit "database"; wire_type := WText |} ]
                    [[lit "app"]])).
    + repeat constructor.
    + repeat constructor.
    + by_eval.
  - apply (proj2 (admin_table_frames [ {| column_name := lit "database"; wire_type := WText |} ]
                    [[lit "app"]; []])).
    apply Exists_cons. right. apply Exists_cons. left. discriminate.
Defined.
