(* ===== verification/Secrets.v ===== *)
(** * Secrets: stored password verifiers and the user store

    Models [pg-kinetic-core/src/security/secrets.rs]: SCRAM verifiers in
    PostgreSQL's text form, MD5 secrets, the key derivation and the user
    store. The cryptographic primitives and base64 are third-party crates:
    they are the operations of the class [Crypto], with the documented facts
    the code relies on in [CryptoLaws]. *)

From S2P Require Import Prelude Text Protocol.

(** ** The third-party primitives *)

Class Crypto := {
  b64_encode : bytes -> str;           (* [STANDARD.encode] *)
  b64_decode : str -> option bytes;    (* [STANDARD.decode] *)
  b64_encode_no_pad : bytes -> str;    (* [STANDARD_NO_PAD.encode] *)
  sha256 : bytes -> bytes;             (* [Sha256::digest] *)
  hmac_sha256 : bytes -> bytes -> bytes;          (* key, data *)
  pbkdf2_hmac : bytes -> bytes -> Z -> bytes;     (* password, salt, rounds; 32 bytes *)
  md5 : bytes -> bytes;                (* [Md5::digest] *)
}.

(** The characters of base64. *)
Definition b64_char (c : Z) : Prop :=
  is_ascii_alphanumeric c = true \/ c = 43 \/ c = 47 \/ c = 61.

(** ** Key derivation *)

Definition SCRAM_SHA_256_KEY_LEN : Z := 32.

Section Derivation.
Context `{Crypto}.

(** [xor_in_place]. *)
Definition xor_in_place (left right : bytes) : bytes := zip_with Z.lxor left right.

(** [pbkdf2_hmac_sha256]: the loop over [1..iterations], with its two
    variables. *)
Definition pbkdf2_round (password : bytes) (s : bytes * bytes) : bytes * bytes :=
  let u := hmac_sha256 password (fst s) in (u, xor_in_place (snd s) u).

Definition pbkdf2_hmac_sha256 (password salt : bytes) (iterations : Z) : bytes :=
  let u := hmac_sha256 password (salt ++ put_i32 1) in
  snd (Nat.iter (Z.to_nat (iterations - 1)) (pbkdf2_round password) (u, u)).

Definition derive_scram_stored_key (password salt : bytes) (iterations : Z) : bytes :=
  let salted_password := pbkdf2_hmac_sha256 password salt iterations in
  let client_key := hmac_sha256 salted_password (encode_utf8 (lit "Client Key")) in
  sha256 client_key.

(** The first block of PBKDF2 as RFC 8018 writes it: the exclusive or of
    [U_1 = PRF(P, S || INT(1))], [U_{j+1} = PRF(P, U_j)]. *)
Fixpoint rfc_u (password salt : bytes) (j : nat) : bytes :=
  match j with
  | O => hmac_sha256 password (salt ++ [0; 0; 0; 1])
  | S j => hmac_sha256 password (rfc_u password salt j)
  end.
Definition rfc_pbkdf2 (password salt : bytes) (count : nat) : bytes :=
  fold_left (zip_with Z.lxor) (rfc_u password salt <$> seq 1 (count - 1)) (rfc_u password salt 0).
End Derivation.

(** What the code relies on. *)
Class CryptoLaws `{Crypto} : Prop := {
  b64_roundtrip bs : Forall byte_ok bs -> b64_decode (b64_encode bs) = Some bs;
  b64_alphabet bs : Forall b64_char (b64_encode bs);
  b64_no_pad_alphabet bs : Forall b64_char (b64_encode_no_pad bs);
  sha256_len bs : len (sha256 bs) = 32;
  sha256_bytes bs : Forall byte_ok (sha256 bs);
  hmac_len k bs : len (hmac_sha256 k bs) = 32;
  hmac_bytes k bs : Forall byte_ok (hmac_sha256 k bs);
  md5_len bs : len (md5 bs) = 16;
  md5_bytes bs : Forall byte_ok (md5 bs);
  pbkdf2_rfc p s n : 0 < n -> pbkdf2_hmac p s n = rfc_pbkdf2 p s (Z.to_nat n);
}.

(** ** Verifiers *)

Record ScramVerifier := {
  iterations : Z;
  salt : bytes;
  stored_key : bytes;
  server_key : bytes;
}.
#[global] Instance ScramVerifier_eq_dec : EqDecision ScramVerifier.
Proof. solve_decision. Defined.

Record Md5Secret := { stored_hex : str }.
#[global] Instance Md5Secret_eq_dec : EqDecision Md5Secret.
Proof. solve_decision. Defined.

Inductive UserSecret :=
| Trust
| ScramSha256 (verifier : ScramVerifier)
| Md5 (secret : Md5Secret).
#[global] Instance UserSecret_eq_dec : EqDecision UserSecret.
Proof. solve_decision. Defined.

Inductive SecretError :=
| InvalidPrefix (expected : str)
| MissingField
| InvalidIterations
| InvalidBase64 (field : str)
| InvalidKeyLength (field : str) (expected actual : Z)
| NonceGeneration
| InvalidMd5Secret.
#[global] Instance SecretError_eq_dec : EqDecision SecretError.
Proof. solve_decision. Defined.

Definition SCRAM_SHA_256_PREFIX : str := lit "SCRAM-SHA-256".
Definition DEFAULT_NONCE_LEN : Z := 18.

Definition is_lower_hex (b : Z) : bool := is_ascii_digit b || in_range 97 102 b.

(** [Md5Secret::parse]; the hex text is checked byte by byte. *)
Definition md5_secret_parse (secret : str) : result SecretError Md5Secret :=
  hex ← ok_or (strip_prefix (lit "md5") secret) InvalidMd5Secret;
  if negb (str_len hex =? 32) || negb (forallb is_lower_hex (encode_utf8 hex))
  then Err InvalidMd5Secret
  else Ok {| stored_hex := hex |}.

Definition validate_scram_key_length (field : str) (value : bytes) : result SecretError unit :=
  if len value =? SCRAM_SHA_256_KEY_LEN then Ok tt
  else Err (InvalidKeyLength field SCRAM_SHA_256_KEY_LEN (len value)).

Section Verifiers.
Context `{Crypto}.

(** [ScramVerifier::parse]. *)
Definition scram_verifier_parse (verifier : str) : result SecretError ScramVerifier :=
  '(prefix, rest) ← ok_or (split_once 36 verifier) MissingField;
  if negb (str_eqb prefix SCRAM_SHA_256_PREFIX) then Err (InvalidPrefix SCRAM_SHA_256_PREFIX)
  else
    '(iteration_and_salt, keys) ← ok_or (split_once 36 rest) MissingField;
    '(iterations, salt) ← ok_or (split_once 58 iteration_and_salt) MissingField;
    '(stored_key, server_key) ← ok_or (split_once 58 keys) MissingField;
    iterations ←
      ok_or (value ← parse_u32 iterations; if 0 <? value then Some value else None)
        InvalidIterations;
    salt ← ok_or (b64_decode salt) (InvalidBase64 (lit "salt"));
    stored_key ← ok_or (b64_decode stored_key) (InvalidBase64 (lit "stored_key"));
    server_key ← ok_or (b64_decode server_key) (InvalidBase64 (lit "server_key"));
    _ ← validate_scram_key_length (lit "stored_key") stored_key;
    _ ← validate_scram_key_length (lit "server_key") server_key;
    Ok {| iterations := iterations; salt := salt; stored_key := stored_key;
          server_key := server_key |}.

Definition to_postgres_verifier (v : ScramVerifier) : str :=
  SCRAM_SHA_256_PREFIX ++ 36 :: fmt_u64 (iterations v) ++ 58 :: b64_encode (salt v)
  ++ 36 :: b64_encode (stored_key v) ++ 58 :: b64_encode (server_key v).

Definition verify_password (v : ScramVerifier) (password : bytes) : bool :=
  bool_decide (derive_scram_stored_key password (salt v) (iterations v) = stored_key v).

(** [generate_nonce]; [random] is what [fill] put in the buffer, [None] its
    failure. *)
Definition generate_nonce (random : option bytes) : result SecretError str :=
  bytes ← ok_or random NonceGeneration;
  Ok (b64_encode_no_pad bytes).
End Verifiers.

(** ** The user store *)

Record UserStore := {
  case_sensitive : bool;
  secrets : gmap str UserSecret;
}.

Definition store_case_sensitive : UserStore := {| case_sensitive := true; secrets := ∅ |}.
Definition store_case_insensitive : UserStore := {| case_sensitive := false; secrets := ∅ |}.
Definition with_case_sensitive (b : bool) : UserStore :=
  if b then store_case_sensitive else store_case_insensitive.
Definition store_new : UserStore := store_case_sensitive.

Definition normalize (s : UserStore) (username : str) : str :=
  if case_sensitive s then username else to_ascii_lowercase username.

(** [UserStore::insert]: the store and the secret it replaces. *)
Definition store_insert (s : UserStore) (username : str) (secret : UserSecret)
    : UserStore * option UserSecret :=
  let username := normalize s username in
  ({| case_sensitive := case_sensitive s; secrets := <[username := secret]> (secrets s) |},
   secrets s !! username).

(** [UserStore::get]. *)
Definition store_get (s : UserStore) (username : str) : option UserSecret :=
  if case_sensitive s then secrets s !! username
  else let normalized := to_ascii_lowercase username in secrets s !! normalized.

(** ** Facts *)

Section DerivationFacts.
Context `{Crypto}.

(** After [n] rounds the loop holds [U_{n+1}] and the sum up to it. *)
Lemma pbkdf2_rounds password salt n :
  Nat.iter n (pbkdf2_round password) (rfc_u password salt 0, rfc_u password salt 0)
  = (rfc_u password salt n, rfc_pbkdf2 password salt (S n)).
Proof.
  induction n as [|n IH]; [done|].
  rewrite Nat.iter_succ, IH. unfold pbkdf2_round, rfc_pbkdf2. cbn [fst snd].
  replace (S (S n) - 1)%nat with (S n) by lia. replace (S n - 1)%nat with n by lia.
  rewrite (seq_S n), fmap_app, fold_left_app. done.
Qed.

Lemma pbkdf2_loop_rfc password salt n :
  0 < n -> pbkdf2_hmac_sha256 password salt n = rfc_pbkdf2 password salt (Z.to_nat n).
Proof.
  intros Hn. unfold pbkdf2_hmac_sha256. change (put_i32 1) with [0; 0; 0; 1].
  fold (rfc_u password salt 0). rewrite pbkdf2_rounds. cbn [snd]. f_equal. lia.
Qed.
End DerivationFacts.

Section VerifierFacts.
Context `{CryptoLaws}.

Lemma b64_free c bs : is_ascii_alphanumeric c = false -> c <> 43 -> c <> 47 -> c <> 61 ->
  free_of c (b64_encode bs).
Proof.
  intros Ha H1 H2 H3. eapply Forall_impl; [apply b64_alphabet|]. unfold b64_char. cbn.
  intros x [Hx| Hx] ->; [congruence|]. lia.
Qed.

Lemma fmt_u64_free c n : 0 <= n < 2 ^ 64 -> ~ 48 <= c <= 57 -> free_of c (fmt_u64 n).
Proof.
  intros Hn Hc. eapply Forall_impl; [by apply fmt_u64_digits|]. cbn. intros x Hx ->. lia.
Qed.

(** A verifier the parser can have produced. *)
Definition verifier_ok (v : ScramVerifier) : Prop :=
  0 < iterations v < 2 ^ 32 /\ Forall byte_ok (salt v) /\
  Forall byte_ok (stored_key v) /\ len (stored_key v) = 32 /\
  Forall byte_ok (server_key v) /\ len (server_key v) = 32.

Lemma scram_verifier_print_parse v :
  verifier_ok v -> scram_verifier_parse (to_postgres_verifier v) = Ok v.
Proof.
  intros (Hi & Hs & Hk & Hkl & Hv & Hvl). unfold scram_verifier_parse, to_postgres_verifier.
  rewrite split_once_app by free_lit. cbn [ok_or mbind result_bind].
  rewrite (proj2 (str_eqb_true _ _)) by done. cbn [negb].
  rewrite (app_comm_cons (b64_encode (salt v))), (app_assoc (fmt_u64 _)), split_once_app; cycle 1.
  { apply Forall_app. split; [apply fmt_u64_free; lia|]. constructor; [lia|]. by apply b64_free. }
  cbn [ok_or mbind result_bind]. rewrite (split_once_app 58 (fmt_u64 _)) by (apply fmt_u64_free; lia).
  cbn [ok_or mbind result_bind]. rewrite split_once_app by by apply b64_free.
  cbn [ok_or mbind result_bind]. unfold parse_u32. rewrite parse_unsigned_fmt by lia.
  cbn [mbind option_bind ok_or result_bind]. rewrite (proj2 (Z.ltb_lt _ _)) by lia.
  cbn [ok_or mbind result_bind]. rewrite !b64_roundtrip by done. cbn [ok_or mbind result_bind].
  unfold validate_scram_key_length. rewrite Hkl, Hvl. by destruct v.
Qed.
End VerifierFacts.
