(* ===== verification/Auth.v ===== *)
(** * Auth: authenticating clients, and the proxy to its servers

    Models [pg-kinetic-proxy/src/auth.rs] and the configuration it reads:
    the client side of a login to PostgreSQL ([BackendAuthSession]: cleartext,
    MD5 and SCRAM-SHA-256), the server side offered to clients (trust, MD5,
    SCRAM), the users file and the service credentials. The client socket is
    [ClientStream]: the chunks it will deliver, what was written to it and
    how many more writes it accepts. Random bytes, the environment, the users
    file and the auth query are arguments. Logging is left out. *)

From S2P Require Import Prelude Text Protocol Frame BackendWire Secrets.

(** ** Errors

    An [anyhow] error: a message, a wrapped error of the program, an error of
    a library ([EForeign]) or of a socket, and the contexts added on the way. *)
Inductive AuthError :=
| MissingPasswordEnvironmentVariableName
| MissingBackendUser
| PassThroughCredentials
| Environment
| EmptyPassword.

Inductive error :=
| EMsg (m : str)
| EWire (e : WireError)
| ESecret (e : SecretError)
| EAuth (e : AuthError)
| EForeign
| EIo
| EContext (m : str) (cause : error).

#[global] Instance AuthError_eq_dec : EqDecision AuthError.
Proof. solve_decision. Defined.
#[global] Instance error_eq_dec : EqDecision error.
Proof. solve_decision. Defined.

Definition fail {A} (m : string) : result error A := Err (EMsg (lit m)).
Definition ensure (b : bool) (m : string) : result error unit := if b then Ok tt else fail m.
Definition map_err {E E' A} (f : E -> E') (r : result E A) : result E' A :=
  match r with Ok a => Ok a | Err e => Err (f e) | Panic => Panic end.
Definition context {A} (m : string) (r : result error A) : result error A :=
  map_err (EContext (lit m)) r.
(** [Option::context], and the context of a library's error. *)
Definition some_or {A} (o : option A) (m : string) : result error A := ok_or o (EMsg (lit m)).
Definition foreign_or {A} (o : option A) (m : string) : result error A :=
  ok_or o (EContext (lit m) EForeign).

(** ** Configuration *)

Inductive AuthMode := PassThrough | AuthTrust | AuthScramSha256 | AuthMd5.
Inductive AuthFailureMessageMode := Generic | Detailed.
#[global] Instance AuthMode_eq_dec : EqDecision AuthMode.
Proof. solve_decision. Defined.

Record AuthConfig := {
  auth_mode : AuthMode;
  auth_users_file : option str;
  backend_user : option str;
  backend_password_env_var_name : option str;
  auth_query_enabled : bool;
  auth_query : str;
  auth_query_cache_ttl_ms : Z;
  auth_failure_message_mode : AuthFailureMessageMode;
}.

(** [AuthConfig::validate]. *)
Definition auth_config_validate (c : AuthConfig) : result str unit :=
  match backend_user c, backend_password_env_var_name c with
  | Some _, None => Err (lit "auth.backend_user requires auth.backend_password_env_var_name")
  | None, Some _ => Err (lit "auth.backend_password_env_var_name requires auth.backend_user")
  | u, p =>
      if bool_decide (is_Some u) && bool_decide (is_Some p) && bool_decide (auth_mode c = PassThrough)
      then Err (lit "backend service credentials are incompatible with auth_mode=pass_through")
      else if auth_query_enabled c then
        if bool_decide (u = None) || bool_decide (p = None)
        then Err (lit "auth_query_enabled requires backend service credentials")
        else if bool_decide (trim (auth_query c) = []) then Err (lit "auth_query must not be empty")
        else if negb (match_count (lit "$1") (auth_query c) =? 1)%nat
        then Err (lit "auth_query must contain exactly one $1 placeholder")
        else Ok tt
      else Ok tt
  end.

(** ** Service credentials *)

Record EnvironmentCredentialProvider := {
  provider_username : str;
  password_env_var_name : str;
}.

Record BackendCredentials := {
  username : str;
  password : str;
  provider : option EnvironmentCredentialProvider;
}.

(** [std::env::var_os]: unset, not Unicode, or a text. *)
Definition Env : Type := str -> option (option str).

(** [EnvironmentCredentialProvider::credentials]. *)
Definition provider_credentials (env : Env) (p : EnvironmentCredentialProvider)
    : result AuthError BackendCredentials :=
  raw ← ok_or (env (password_env_var_name p)) Environment;
  password ← ok_or raw Environment;
  if bool_decide (password = []) then Err EmptyPassword
  else Ok {| username := provider_username p; password := password; provider := None |}.

Definition with_provider (c : BackendCredentials) (p : EnvironmentCredentialProvider)
    : BackendCredentials :=
  {| username := username c; password := password c; provider := Some p |}.

Definition resolve (env : Env) (c : BackendCredentials) : result AuthError BackendCredentials :=
  match provider c with
  | None => Ok c
  | Some p => provider_credentials env p
  end.

Definition load_backend_credential_provider (auth : AuthConfig)
    : result error (option EnvironmentCredentialProvider) :=
  match backend_user auth, backend_password_env_var_name auth with
  | None, None => Ok None
  | Some _, None => Err (EAuth MissingPasswordEnvironmentVariableName)
  | None, Some _ => Err (EAuth MissingBackendUser)
  | Some user, Some name =>
      if bool_decide (auth_mode auth = PassThrough) then Err (EAuth PassThroughCredentials)
      else Ok (Some {| provider_username := user; password_env_var_name := name |})
  end.

Definition load_backend_credentials (env : Env) (auth : AuthConfig)
    : result error (option BackendCredentials) :=
  p ← load_backend_credential_provider auth;
  match p with
  | None => Ok None
  | Some p =>
      c ← map_err EAuth (provider_credentials env p);
      Ok (Some (with_provider c p))
  end.

(** ** Small codecs *)

Definition AUTH_FAILURE_SQLSTATE : str := lit "28P01".
Definition SCRAM_MECHANISM : str := lit "SCRAM-SHA-256".
Definition PASSWORD_MESSAGE_TAG : Z := 112.

Definition password_message (payload : bytes) : bytes :=
  PASSWORD_MESSAGE_TAG :: put_i32 (len payload + 4) ++ payload.

(** [read_i32]: four bytes at an offset. *)
Definition read_i32 (bs : bytes) (start : Z) : result error Z :=
  match drop (Z.to_nat start) bs with
  | a :: b :: c :: d :: _ => Ok (i32_from_be_bytes a b c d)
  | _ => fail "read i32 from SCRAM payload"
  end.

Definition hex_digit (n : Z) : Z := if n <? 10 then 48 + n else 87 + n.
Definition hex_lower (bs : bytes) : str :=
  bs ≫= fun b => [hex_digit (Z.shiftr b 4); hex_digit (Z.land b 15)].

(** [xor_bytes]: the first 32 bytes of both, a panic on a shorter slice;
    [xor_arrays] is the same on arrays of 32 bytes. *)
Definition xor_arrays (left right : bytes) : bytes := zip_with Z.lxor left right.
Definition xor_bytes (left right : bytes) : result error bytes :=
  if len left <? 32 then Panic else Ok (zip_with Z.lxor left right).

Definition scram_escape (value : str) : str :=
  replace_char 44 (lit "=2C") (replace_char 61 (lit "=3D") value).

Fixpoint scram_unescape (value : str) : result error str :=
  match value with
  | [] => Ok []
  | ch :: r =>
      if negb (ch =? 61) then rest ← scram_unescape r; Ok (ch :: rest)
      else
        match r with
        | first :: second :: r =>
            if (first =? 50) && (second =? 67) then rest ← scram_unescape r; Ok (44 :: rest)
            else if (first =? 51) && (second =? 68) then rest ← scram_unescape r; Ok (61 :: rest)
            else fail "SCRAM escape sequence is invalid"
        | _ => fail "SCRAM escape sequence is incomplete"
        end
  end.

Fixpoint find_map {A B} (f : A -> option B) (l : list A) : option B :=
  match l with
  | [] => None
  | x :: r => match f x with Some y => Some y | None => find_map f r end
  end.

Definition scram_attribute (message : str) (key : Z) : result error str :=
  ok_or (find_map (strip_prefix [key; 61]) (split_char 44 message))
    (EMsg (lit "SCRAM message is missing " ++ key :: lit " attribute")).

(** [request.get(4..)] as text. *)
Definition request_text (request : bytes) (missing malformed : string) : result error str :=
  rest ← some_or (if 4 <=? len request then Some (drop 4 request) else None) missing;
  foreign_or (from_utf8 rest) malformed.

(** ** The client side: [BackendAuthSession] *)

Record BackendAuthSession := {
  credentials : BackendCredentials;
  client_nonce : str;
  client_first_bare : option str;
  expected_server_signature : option bytes;
}.

Definition with_nonce (credentials : BackendCredentials) (client_nonce : str) : BackendAuthSession :=
  {| credentials := credentials; client_nonce := client_nonce; client_first_bare := None;
     expected_server_signature := None |}.

Definition set_client_first_bare (s : BackendAuthSession) (v : option str) : BackendAuthSession :=
  {| credentials := credentials s; client_nonce := client_nonce s; client_first_bare := v;
     expected_server_signature := expected_server_signature s |}.

Definition set_expected_signature (s : BackendAuthSession) (v : option bytes) : BackendAuthSession :=
  {| credentials := credentials s; client_nonce := client_nonce s;
     client_first_bare := client_first_bare s; expected_server_signature := v |}.

(** A step of the session: its answer and the session after it. *)
Definition Step (A : Type) : Type := result error A * BackendAuthSession.

Section Client.
Context `{Crypto}.

Definition session_new (env : Env) (random : option bytes) (credentials : BackendCredentials)
    : result error BackendAuthSession :=
  credentials ← map_err EAuth (resolve env credentials);
  nonce ← map_err ESecret (generate_nonce random);
  Ok (with_nonce credentials nonce).

Definition md5_response (s : BackendAuthSession) (request : bytes) : result error bytes :=
  _ ← ensure (len request =? 8) "MD5 authentication request has invalid length";
  let salt := drop 4 request in
  let first := hex_lower (md5 (encode_utf8 (password (credentials s) ++ username (credentials s)))) in
  let second := hex_lower (md5 (encode_utf8 first ++ salt)) in
  Ok (password_message (encode_utf8 (lit "md5" ++ second) ++ [0])).

Definition scram_initial_response (s : BackendAuthSession) (request : bytes) : Step bytes :=
  let answer :=
    mechanisms ← request_text request "SCRAM authentication request is missing mechanisms"
                   "parse SCRAM authentication mechanisms";
    ensure (existsb (str_eqb SCRAM_MECHANISM) (split_char 0 mechanisms))
      "backend does not support SCRAM-SHA-256" in
  match answer with
  | Err e => (Err e, s)
  | Panic => (Panic, s)
  | Ok _ =>
      let bare := lit "n=" ++ scram_escape (username (credentials s)) ++ lit ",r=" ++ client_nonce s in
      let client_first := lit "n,," ++ bare in
      let payload := encode_utf8 SCRAM_MECHANISM ++ [0] ++ put_i32 (str_len client_first)
                     ++ encode_utf8 client_first in
      (Ok (password_message payload), set_client_first_bare s (Some bare))
  end.

(** The keys both sides derive. *)
Definition CLIENT_KEY : bytes := encode_utf8 (lit "Client Key").
Definition SERVER_KEY : bytes := encode_utf8 (lit "Server Key").

(** The checked fields of the server's first message. *)
Definition read_server_first (s : BackendAuthSession) (request : bytes)
    : result error (str * str * bytes * Z * str) :=
  server_first ← request_text request "SCRAM server-first message is missing"
                   "parse SCRAM server-first message";
  server_nonce ← scram_attribute server_first 114;
  _ ← ensure (starts_with (client_nonce s) server_nonce)
        "SCRAM server nonce does not extend the client nonce";
  salt_text ← scram_attribute server_first 115;
  salt ← foreign_or (b64_decode salt_text) "decode SCRAM salt";
  count ← scram_attribute server_first 105;
  iterations ← foreign_or (parse_u32 count) "parse SCRAM iteration count";
  _ ← ensure (0 <? iterations) "SCRAM iteration count must be positive";
  bare ← some_or (client_first_bare s) "received SCRAM server-first before client-first";
  Ok (server_first, server_nonce, salt, iterations, bare).

Definition scram_final_response (s : BackendAuthSession) (request : bytes) : Step bytes :=
  match read_server_first s request with
  | Err e => (Err e, s)
  | Panic => (Panic, s)
  | Ok (server_first, server_nonce, salt, iterations, bare) =>
      let final_without_proof := lit "c=biws,r=" ++ server_nonce in
      let auth_message :=
        encode_utf8 (bare ++ lit "," ++ server_first ++ lit "," ++ final_without_proof) in
      let salted_password :=
        pbkdf2_hmac (encode_utf8 (password (credentials s))) salt iterations in
      let client_key := hmac_sha256 salted_password CLIENT_KEY in
      let stored_key := sha256 client_key in
      let client_signature := hmac_sha256 stored_key auth_message in
      let client_proof := xor_arrays client_key client_signature in
      let server_key := hmac_sha256 salted_password SERVER_KEY in
      let client_final := final_without_proof ++ lit ",p=" ++ b64_encode client_proof in
      (Ok (password_message (encode_utf8 client_final)),
       set_expected_signature s (Some (hmac_sha256 server_key auth_message)))
  end.

(** [verify_scram_server_final]: the expected signature is taken before it is
    compared. *)
Definition verify_scram_server_final (s : BackendAuthSession) (request : bytes) : Step unit :=
  let text := request_text request "SCRAM server-final message is missing"
                "parse SCRAM server-final message" in
  match text with
  | Err e => (Err e, s)
  | Panic => (Panic, s)
  | Ok server_final =>
      if starts_with (lit "e=") server_final
      then (Err (EMsg (lit "backend rejected SCRAM authentication: " ++ server_final)), s)
      else
        match expected_server_signature s with
        | None => (fail "received SCRAM server-final before client-final", s)
        | Some expected =>
            (v ← scram_attribute server_final 118;
             actual ← foreign_or (b64_decode v) "decode SCRAM server signature";
             ensure (bool_decide (actual = expected)) "backend SCRAM server signature mismatch",
             set_expected_signature s None)
        end
  end.

Definition map_step {A B} (f : A -> B) (st : Step A) : Step B := (f <$> fst st, snd st).

(** [BackendAuthSession::respond]. *)
Definition respond (s : BackendAuthSession) (request : bytes) (backend_is_tls : bool)
    : Step (option bytes) :=
  match context "read backend authentication code" (read_i32 request 0) with
  | Err e => (Err e, s)
  | Panic => (Panic, s)
  | Ok code =>
      if code =? 0 then (Ok None, s)
      else if code =? 3 then
        (_ ← ensure backend_is_tls "backend requested a cleartext password without TLS";
         Ok (Some (password_message (encode_utf8 (password (credentials s)) ++ [0]))), s)
      else if code =? 5 then (Some <$> md5_response s request, s)
      else if code =? 10 then map_step Some (scram_initial_response s request)
      else if code =? 11 then map_step Some (scram_final_response s request)
      else if code =? 12 then map_step (fun _ => None) (verify_scram_server_final s request)
      else (Err (EMsg (lit "unsupported backend authentication request code " ++ fmt_i32 code)), s)
  end.
End Client.

(** ** The server side *)

(** The client's socket: the chunks its reads will return ([None] is a failed
    read, the end of the list a closed socket), what was written, and how
    many writes will still succeed. *)
Record ClientStream := {
  reads : list (option bytes);
  writes : list bytes;
  writes_left : nat;
}.

(** Code that uses the socket. *)
Definition Session (A : Type) : Type := ClientStream -> result error A * ClientStream.
#[global] Instance session_ret : MRet Session := fun A a c => (Ok a, c).
#[global] Instance session_bind : MBind Session := fun A B f m c =>
  match m c with
  | (Ok a, c) => f a c
  | (Err e, c) => (Err e, c)
  | (Panic, c) => (Panic, c)
  end.
Definition lift {A} (r : result error A) : Session A := fun c => (r, c).
Definition with_context {A} (m : string) (s : Session A) : Session A :=
  fun c => let '(r, c) := s c in (context m r, c).

(** [write_all_to]. *)
Definition write_all (bs : bytes) : Session unit := fun c =>
  match writes_left c with
  | O => (Err EIo, c)
  | S n => (Ok tt, {| reads := reads c; writes := writes c ++ [bs]; writes_left := n |})
  end.

Definition reject_authentication (mode : AuthFailureMessageMode) (username : str) (reason : string)
    : Session unit :=
  let message := match mode with
                 | Generic => lit "password authentication failed"
                 | Detailed =>
                     lit "password authentication failed for user " ++ username ++ lit ": " ++ lit reason
                 end in
  with_context "write auth failure response"
    (write_all (build_error_response AUTH_FAILURE_SQLSTATE message)).

(** [read_authentication_frame]: its loop, with the buffer so far. *)
Fixpoint read_frame_loop (max_client_buffer_bytes : Z) (rs : list (option bytes)) (buffer : bytes)
    : result error FrontendFrame * list (option bytes) :=
  match parse_frontend_frame buffer with
  | Err e => (Err (EWire e), rs)
  | Panic => (Panic, rs)
  | Ok (Some frame, _) => (Ok frame, rs)
  | Ok (None, buffer) =>
      if max_client_buffer_bytes <=? len buffer
      then (fail "client authentication message exceeded buffer limit", rs)
      else
        match rs with
        | [] => (fail "client disconnected during authentication", [])
        | None :: rs => (Err (EContext (lit "read client authentication frame") EIo), rs)
        | Some chunk :: rs =>
            let buffer := buffer ++ chunk in
            if negb (0 <? len chunk) then (fail "client disconnected during authentication", rs)
            else if negb (len buffer <=? max_client_buffer_bytes)
            then (fail "client authentication message exceeded buffer limit", rs)
            else read_frame_loop max_client_buffer_bytes rs buffer
        end
  end.

Definition read_authentication_frame (max_client_buffer_bytes : Z) : Session FrontendFrame := fun c =>
  let '(r, rs) := read_frame_loop max_client_buffer_bytes (reads c) [] in
  (r, {| reads := rs; writes := writes c; writes_left := writes_left c |}).

Definition parse_password_frame (frame : FrontendFrame) : result error bytes :=
  if tag frame =? PASSWORD_MESSAGE_TAG then Ok (payload frame)
  else Err (EMsg (lit "unexpected frontend authentication message tag 0x" ++ hex_lower [tag frame])).

Definition parse_md5_password_response (payload : bytes) : option bytes :=
  let payload := match last payload with Some 0 => removelast payload | _ => payload end in
  response ← strip_prefix (lit "md5") payload;
  if (len response =? 32) && forallb is_lower_hex response then Some response else None.

(** [auth.rs]: its own [read_cstr], which slices first. *)
Definition scram_read_cstr (bs : bytes) (start : Z) : result error (str * Z) :=
  rest ← slice_from bs start;
  terminator ← some_or (position (Z.eqb 0) rest) "read SCRAM cstring terminator";
  value ← foreign_or (from_utf8 (take terminator rest)) "parse SCRAM cstring";
  Ok (value, start + Z.of_nat terminator + 1).

Definition parse_scram_initial_response (payload : bytes) : result error (str * str) :=
  '(mechanism, offset) ← scram_read_cstr payload 0;
  length ← context "read SCRAM initial response length" (read_i32 payload offset);
  _ ← ensure (0 <=? length) "SCRAM initial response length is invalid";
  let start := offset + 4 in
  _ ← ensure (start + length <=? len payload) "SCRAM initial response is incomplete";
  response ← foreign_or (from_utf8 (take (Z.to_nat length) (drop (Z.to_nat start) payload)))
               "parse SCRAM initial response";
  Ok (mechanism, response).

(** The loops of [parse_scram_client_first] and [parse_scram_client_final];
    a later item of a key replaces an earlier one. *)
Fixpoint client_first_items (items : list str) (username nonce : option str)
    : result error (option str * option str) :=
  match items with
  | [] => Ok (username, nonce)
  | item :: items =>
      '(key, value) ← some_or (split_once 61 item) "SCRAM client first item is malformed";
      if str_eqb key (lit "n") then
        u ← scram_unescape value;
        client_first_items items (Some u) nonce
      else if str_eqb key (lit "r") then client_first_items items username (Some value)
      else client_first_items items username nonce
  end.

Definition parse_scram_client_first (message : str) : result error (str * str * str) :=
  bare ← some_or (strip_prefix (lit "n,,") message) "SCRAM client first message is malformed";
  '(username, nonce) ← client_first_items (split_char 44 bare) None None;
  username ← some_or username "SCRAM client first message is missing username";
  nonce ← some_or nonce "SCRAM client first message is missing nonce";
  Ok (bare, username, nonce).

Fixpoint client_final_items (items : list str) (channel_binding nonce proof : option str)
    : result error (option str * option str * option str) :=
  match items with
  | [] => Ok (channel_binding, nonce, proof)
  | item :: items =>
      '(key, value) ← some_or (split_once 61 item) "SCRAM client final item is malformed";
      if str_eqb key (lit "c") then client_final_items items (Some value) nonce proof
      else if str_eqb key (lit "r") then client_final_items items channel_binding (Some value) proof
      else if str_eqb key (lit "p") then client_final_items items channel_binding nonce (Some value)
      else client_final_items items channel_binding nonce proof
  end.

Definition parse_scram_client_final (message : str) : result error (str * str * str) :=
  '(channel_binding, nonce, proof) ← client_final_items (split_char 44 message) None None None;
  channel_binding ← some_or channel_binding "SCRAM client final message is missing channel binding";
  nonce ← some_or nonce "SCRAM client final message is missing nonce";
  proof ← some_or proof "SCRAM client final message is missing proof";
  Ok (channel_binding, nonce, proof).

Inductive ClientAuthOutcome := OutcomePassThrough | Authenticated | Rejected.

(** [AuthQueryService::lookup], as this file uses it. *)
Definition AuthQuery : Type := str -> result error (option UserSecret).

Section Server.
Context `{Crypto}.

Definition expected_md5_client_hash (secret : Md5Secret) (salt : bytes) : str :=
  hex_lower (md5 (encode_utf8 (stored_hex secret) ++ salt)).

Definition verify_scram_proof (verifier : ScramVerifier) (auth_message : bytes)
    (client_proof_b64 : str) : result error unit :=
  client_proof ← foreign_or (b64_decode client_proof_b64) "decode SCRAM client proof";
  _ ← ensure (len client_proof =? len (stored_key verifier)) "SCRAM client proof has invalid length";
  let client_signature := hmac_sha256 (stored_key verifier) auth_message in
  client_key ← xor_bytes client_proof client_signature;
  let derived_stored_key := sha256 client_key in
  ensure (bool_decide (derived_stored_key = stored_key verifier)) "SCRAM proof verification failed".

Definition scram_server_signature (verifier : ScramVerifier) (auth_message : bytes) : bytes :=
  hmac_sha256 (server_key verifier) auth_message.

Definition resolve_user_secret (username : str) (auth : AuthConfig) (users : UserStore)
    (query : option AuthQuery) : result error (option UserSecret) :=
  match store_get users username with
  | Some secret => Ok (Some secret)
  | None =>
      if negb (auth_query_enabled auth) then Ok None
      else
        match query with
        | None => fail "auth query service unavailable"
        | Some lookup => lookup username
        end
  end.

Definition reject (auth : AuthConfig) (username : str) (reason : string) : Session ClientAuthOutcome :=
  _ ← reject_authentication (auth_failure_message_mode auth) username reason;
  mret Rejected.

Definition authenticate_trust (username : str) (auth : AuthConfig) (users : UserStore)
    : Session ClientAuthOutcome :=
  match store_get users username with
  | Some Trust =>
      _ ← with_context "write trust authentication ok" (write_all (build_auth_message AuthOk));
      mret Authenticated
  | Some (ScramSha256 _ | Md5 _) => reject auth username "password required"
  | None => reject auth username "unknown user"
  end.

(** The server's first message. *)
Definition server_first_message (client_nonce server_nonce : str) (verifier : ScramVerifier) : str :=
  lit "r=" ++ client_nonce ++ server_nonce ++ lit ",s=" ++ b64_encode (salt verifier)
  ++ lit ",i=" ++ fmt_u64 (iterations verifier).

(** [authenticate_scram] from the request for SCRAM on. *)
Definition scram_dialogue (username : str) (auth : AuthConfig) (verifier : ScramVerifier)
    (nonce_random : option bytes) (max_client_buffer_bytes : Z) : Session ClientAuthOutcome :=
  _ ← with_context "write SCRAM authentication request" (write_all authentication_sasl_scram_sha_256);
  initial ← with_context "read SCRAM initial response"
              (read_authentication_frame max_client_buffer_bytes);
  initial ← lift (parse_password_frame initial);
  '(mechanism, client_first) ← lift (parse_scram_initial_response initial);
  _ ← lift (if str_eqb mechanism SCRAM_MECHANISM then Ok tt
            else Err (EMsg (lit "unsupported SCRAM mechanism " ++ mechanism)));
  '(client_first_bare, client_first_username, client_nonce) ←
    lift (parse_scram_client_first client_first);
  _ ← lift (ensure (str_eqb client_first_username username)
              "SCRAM client username does not match startup user");
  server_nonce ← lift (context "generate SCRAM server nonce"
                         (map_err ESecret (generate_nonce nonce_random)));
  let server_first := server_first_message client_nonce server_nonce verifier in
  _ ← with_context "write SCRAM server-first message"
        (write_all (build_auth_message (SaslContinue (encode_utf8 server_first))));
  final_response ← with_context "read SCRAM final response"
                     (read_authentication_frame max_client_buffer_bytes);
  final_response ← lift (parse_password_frame final_response);
  client_final ← lift (foreign_or (from_utf8 final_response) "parse SCRAM final response");
  '(channel_binding, combined_nonce, proof) ← lift (parse_scram_client_final client_final);
  _ ← lift (ensure (str_eqb channel_binding (lit "biws")) "unsupported SCRAM channel binding");
  _ ← lift (ensure (str_eqb combined_nonce (client_nonce ++ server_nonce)) "SCRAM nonce mismatch");
  let auth_message :=
    encode_utf8 (client_first_bare ++ lit "," ++ server_first ++ lit ",c=" ++ channel_binding
                 ++ lit ",r=" ++ combined_nonce) in
  match verify_scram_proof verifier auth_message proof with
  | Panic => lift Panic
  | Err _ => reject auth username "invalid password"
  | Ok _ =>
      let server_final := lit "v=" ++ b64_encode (scram_server_signature verifier auth_message) in
      _ ← with_context "write SCRAM server-final message"
            (write_all (build_auth_message (SaslFinal (encode_utf8 server_final))));
      _ ← with_context "write SCRAM authentication ok" (write_all (build_auth_message AuthOk));
      mret Authenticated
  end.

Definition authenticate_scram (username : str) (auth : AuthConfig) (users : UserStore)
    (query : option AuthQuery) (nonce_random : option bytes) (max_client_buffer_bytes : Z)
    : Session ClientAuthOutcome :=
  match resolve_user_secret username auth users query with
  | Panic => lift Panic
  | Err _ => reject auth username "auth query failed"
  | Ok (Some (ScramSha256 verifier)) =>
      scram_dialogue username auth verifier nonce_random max_client_buffer_bytes
  | Ok _ => reject auth username "unknown user"
  end.

(** [authenticate_md5] from the request for a password on. *)
Definition md5_dialogue (username : str) (auth : AuthConfig) (secret : Md5Secret)
    (salt_random : option bytes) (max_client_buffer_bytes : Z) : Session ClientAuthOutcome :=
  salt ← lift (foreign_or salt_random "generate MD5 authentication salt");
  _ ← with_context "write MD5 authentication request"
        (write_all (build_auth_message (Md5Password salt)));
  response ← with_context "read MD5 password response"
               (read_authentication_frame max_client_buffer_bytes);
  response ← lift (parse_password_frame response);
  match parse_md5_password_response response with
  | None => reject auth username "malformed md5 response"
  | Some response =>
      if bool_decide (encode_utf8 (expected_md5_client_hash secret salt) = response) then
        _ ← with_context "write MD5 authentication ok" (write_all (build_auth_message AuthOk));
        mret Authenticated
      else reject auth username "invalid password"
  end.

Definition authenticate_md5 (username : str) (auth : AuthConfig) (users : UserStore)
    (query : option AuthQuery) (salt_random : option bytes) (max_client_buffer_bytes : Z)
    : Session ClientAuthOutcome :=
  match resolve_user_secret username auth users query with
  | Panic => lift Panic
  | Err _ => reject auth username "auth query failed"
  | Ok (Some (Md5 secret)) =>
      md5_dialogue username auth secret salt_random max_client_buffer_bytes
  | Ok _ => reject auth username "unknown user"
  end.

(** [authenticate_client]; [random] is what the random generator answers. *)
Definition authenticate_client (username : str) (auth : AuthConfig) (users : UserStore)
    (query : option AuthQuery) (random : option bytes) (max_client_buffer_bytes : Z)
    : Session ClientAuthOutcome :=
  match auth_mode auth with
  | PassThrough => mret OutcomePassThrough
  | AuthTrust => authenticate_trust username auth users
  | AuthScramSha256 => authenticate_scram username auth users query random max_client_buffer_bytes
  | AuthMd5 => authenticate_md5 username auth users query random max_client_buffer_bytes
  end.

(** ** The users file *)

Definition parse_user_line (line : str) : result error (str * UserSecret) :=
  '(user, secret) ← some_or (split_once 61 line) "parse auth users file";
  let user := trim_matches 34 (trim user) in
  let secret := trim_matches 34 (trim secret) in
  secret ←
    (if eq_ignore_ascii_case secret (lit "trust") then Ok Trust
     else if starts_with (lit "md5") secret
     then context "parse MD5 verifier" (Md5 <$> map_err ESecret (md5_secret_parse secret))
     else context "parse SCRAM verifier" (ScramSha256 <$> map_err ESecret (scram_verifier_parse secret)));
  Ok (user, secret).

Fixpoint load_users (raw_lines : list str) (store : UserStore) : result error UserStore :=
  match raw_lines with
  | [] => Ok store
  | raw_line :: raw_lines =>
      let line := trim raw_line in
      if bool_decide (line = []) || starts_with (lit "#") line then load_users raw_lines store
      else
        '(user, secret) ← parse_user_line line;
        load_users raw_lines (fst (store_insert store user secret))
  end.

(** [load_user_store]: [file] is [None] without a path, else what reading it
    gives; the path and line number in the messages are left out. *)
Definition load_user_store (file : option (option str)) : result error UserStore :=
  match file with
  | None => Ok store_new
  | Some contents =>
      contents ← foreign_or contents "read auth users file";
      load_users (lines contents) store_new
  end.
End Server.

(** ** Facts about the codecs *)

Section CodecFacts.
Lemma scram_escape_cons c s :
  scram_escape (c :: s)
  = (if c =? 61 then lit "=3D" else if c =? 44 then lit "=2C" else [c]) ++ scram_escape s.
Proof.
  unfold scram_escape, replace_char. cbn [mbind list_bind].
  destruct (Z.eqb_spec c 61) as [->|H1]; [done|]. cbn. by destruct (c =? 44).
Qed.

Lemma scram_escape_free s : free_of 44 (scram_escape s).
Proof.
  induction s as [|c s IH]; [constructor|]. rewrite scram_escape_cons. apply Forall_app. split; [|done].
  destruct (Z.eqb_spec c 61); [free_lit|]. destruct (Z.eqb_spec c 44); [free_lit|].
  by repeat constructor.
Qed.

Lemma scram_unescape_escape s : scram_unescape (scram_escape s) = Ok s.
Proof.
  induction s as [|c s IH]; [done|]. rewrite scram_escape_cons.
  destruct (Z.eqb_spec c 61) as [->|H1]; [cbn; by rewrite IH|].
  destruct (Z.eqb_spec c 44) as [->|H2]; [cbn; by rewrite IH|].
  cbn [app scram_unescape]. rewrite (proj2 (Z.eqb_neq c 61)) by done. cbn [negb]. by rewrite IH.
Qed.

Lemma xor_involutive (a b : bytes) : (length a <= length b)%nat ->
  zip_with Z.lxor (zip_with Z.lxor a b) b = a.
Proof.
  revert b. induction a as [|x a IH]; intros [|y b] Hl; cbn in *; try done; try lia.
  rewrite IH by lia. f_equal. rewrite Z.lxor_assoc, Z.lxor_nilpotent. apply Z.lxor_0_r.
Qed.

Lemma lxor_byte a b : byte_ok a -> byte_ok b -> byte_ok (Z.lxor a b).
Proof.
  unfold byte_ok. intros Ha Hb.
  assert (Hn : 0 <= Z.lxor a b) by (apply Z.lxor_nonneg; lia).
  split; [done|]. destruct (Z.eq_dec (Z.lxor a b) 0) as [->|Hz]; [lia|].
  change 256 with (2 ^ 8). apply Z.log2_lt_pow2; [lia|].
  pose proof (Z.log2_lxor a b ltac:(lia) ltac:(lia)).
  assert (forall x, 0 <= x < 256 -> Z.log2 x < 8) as Hl.
  { intros x Hx. destruct (Z.eq_dec x 0) as [->|]; [done|]. apply Z.log2_lt_pow2; lia. }
  pose proof (Hl a Ha). pose proof (Hl b Hb). lia.
Qed.

Lemma xor_bytes_ok (a b : bytes) : Forall byte_ok a -> Forall byte_ok b ->
  Forall byte_ok (zip_with Z.lxor a b).
Proof.
  intros Ha. revert b. induction Ha as [|x a Hx Ha IH]; intros b Hb; [by cbn|].
  destruct Hb as [|y b Hy Hb]; [by cbn|]. cbn. constructor; [by apply lxor_byte|auto].
Qed.

Lemma length_xor (a b : bytes) : len a = len b -> len (zip_with Z.lxor a b) = len a.
Proof. unfold len. intros H. rewrite length_zip_with. lia. Qed.
End CodecFacts.

(** ** Reading a message from chunks *)

Section ReadFacts.
Lemma read_frame_chunks max f chunks more pre :
  fits_frame (payload f) -> len (encode_frontend_frame f) <= max ->
  pre ++ mjoin chunks = encode_frontend_frame f -> Forall (fun c => c <> []) chunks ->
  read_frame_loop max ((Some <$> chunks) ++ more) pre = (Ok f, more).
Proof.
  intros Hfit Hmax. revert pre. induction chunks as [|ch chunks IH]; intros pre Hpre Hne.
  - cbn in Hpre. rewrite app_nil_r in Hpre. subst pre.
    pose proof (parse_encode_frame f [] Hfit) as Hp. rewrite app_nil_r in Hp.
    cbn [fmap list_fmap app]. destruct more; cbn [read_frame_loop]; by rewrite Hp.
  - apply Forall_cons in Hne as [Hch Hne].
    assert (Hlen : len pre < len (encode_frontend_frame f)).
    { rewrite <- Hpre. cbn [mjoin list_join]. destruct ch; [done|]. len_lia. }
    cbn [fmap list_fmap app read_frame_loop].
    replace pre with (take (length pre) (encode_frontend_frame f)) at 1
      by (rewrite <- Hpre; by rewrite take_app_length).
    rewrite parse_frame_prefix by (unfold len in *; first [done|lia]).
    replace (take (length pre) (encode_frontend_frame f)) with pre
      by (rewrite <- Hpre; by rewrite take_app_length).
    rewrite (proj2 (Z.leb_gt _ _)) by lia. cbn [negb].
    rewrite (proj2 (Z.ltb_lt _ _)); [|destruct ch; [done|unfold len; cbn; lia]]. cbn [negb].
    assert (Hle : len (pre ++ ch) <= max).
    { rewrite <- Hpre in Hmax. cbn [mjoin list_join] in Hmax.
      rewrite !len_app in Hmax. rewrite len_app.
      match type of Hmax with _ + (_ + ?x) <= _ => assert (0 <= x) by apply len_nonneg end. lia. }
    rewrite (proj2 (Z.leb_le _ _)) by done. cbn [negb]. apply IH; [|done].
    rewrite <- Hpre. cbn. by rewrite app_assoc.
Qed.

Lemma password_message_frame p :
  fits_frame p ->
  password_message p = encode_frontend_frame {| tag := PASSWORD_MESSAGE_TAG; payload := p |}.
Proof.
  unfold fits_frame, password_message, encode_frontend_frame. intros H. pose proof (len_nonneg p).
  cbn [tag payload]. by rewrite wrap_i_id by (unfold i_range; lia).
Qed.
End ReadFacts.

(** ** The two sides of SCRAM together *)

(** Run a [result] computation whose next step is known. *)
Ltac run_result := cbn [foreign_or some_or ok_or mbind result_bind map_err context negb].

Section Interop.
Context `{CryptoLaws}.

(** The verifier of a password (RFC 5802). *)
Definition verifier_for (password : str) (salt : bytes) (n : Z) : ScramVerifier :=
  let salted := rfc_pbkdf2 (encode_utf8 password) salt (Z.to_nat n) in
  {| iterations := n; salt := salt; stored_key := sha256 (hmac_sha256 salted CLIENT_KEY);
     server_key := hmac_sha256 salted SERVER_KEY |}.

Definition bare_of (u cn : str) : str := lit "n=" ++ scram_escape u ++ lit ",r=" ++ cn.

(** The messages of the client, and what the signatures cover. *)
Definition initial_message (u cn : str) : bytes :=
  let client_first := lit "n,," ++ bare_of u cn in
  encode_utf8 SCRAM_MECHANISM ++ [0] ++ put_i32 (str_len client_first) ++ encode_utf8 client_first.
Definition covered (u cn sn : str) (v : ScramVerifier) : bytes :=
  encode_utf8 (bare_of u cn ++ lit "," ++ server_first_message cn sn v ++ lit ",c=biws,r=" ++ cn ++ sn).
Definition final_message (password u cn sn : str) (salt : bytes) (n : Z) : bytes :=
  let v := verifier_for password salt n in
  let key := hmac_sha256 (rfc_pbkdf2 (encode_utf8 password) salt (Z.to_nat n)) CLIENT_KEY in
  encode_utf8 (lit "c=biws,r=" ++ (cn ++ sn) ++ lit ",p="
    ++ b64_encode (xor_arrays key (hmac_sha256 (stored_key v) (covered u cn sn v)))).

Lemma b64_valid bs : valid_str (b64_encode bs).
Proof.
  eapply Forall_impl; [apply b64_alphabet|]. unfold b64_char, scalar, is_ascii_alphanumeric. cbn.
  intros c [Hc|Hc]; [|lia]. repeat (apply orb_true_iff in Hc as [Hc|Hc]);
    apply in_range_true in Hc; lia.
Qed.

Lemma b64_no_pad_valid bs : valid_str (b64_encode_no_pad bs) /\ free_of 44 (b64_encode_no_pad bs).
Proof.
  split; (eapply Forall_impl; [apply b64_no_pad_alphabet|]);
    unfold b64_char, scalar, is_ascii_alphanumeric; cbn; intros c [Hc|Hc]; try lia;
    repeat (apply orb_true_iff in Hc as [Hc|Hc]); apply in_range_true in Hc; lia.
Qed.

Lemma fmt_u64_valid n : 0 <= n < 2 ^ 64 -> valid_str (fmt_u64 n).
Proof.
  intros Hn. eapply Forall_impl; [by apply fmt_u64_digits|]. unfold scalar. cbn. intros. lia.
Qed.

Lemma replace_char_valid c to s : valid_str to -> valid_str s -> valid_str (replace_char c to s).
Proof.
  intros Ht. unfold replace_char. induction 1 as [|x s Hx Hs IH]; [constructor|].
  cbn [mbind list_bind]. apply Forall_app. split; [|done]. destruct (x =? c); [done|]. constructor; [done|constructor].
Qed.

Lemma bare_valid u cn : valid_str u -> valid_str cn -> valid_str (bare_of u cn).
Proof.
  intros Hu Hc. unfold bare_of, scram_escape, valid_str. rewrite !Forall_app.
  split_and!; try apply lit_scalar; try done.
  do 2 (apply replace_char_valid; [apply lit_scalar|]). done.
Qed.

Lemma server_first_valid cn sn v :
  valid_str cn -> valid_str sn -> 0 <= iterations v < 2 ^ 64 -> valid_str (server_first_message cn sn v).
Proof.
  intros Hc Hs Hi. unfold server_first_message, valid_str. rewrite !Forall_app.
  split_and!; try apply lit_scalar; try done; [apply b64_valid|by apply fmt_u64_valid].
Qed.

(** The client opens. *)
Lemma client_opens s tls :
  respond s (auth_payload (Sasl [SCRAM_MECHANISM])) tls
  = (Ok (Some (password_message (initial_message (username (credentials s)) (client_nonce s)))),
     set_client_first_bare s (Some (bare_of (username (credentials s)) (client_nonce s)))).
Proof. reflexivity. Qed.

Lemma scram_read_cstr_write s rest : valid_str s -> no_nul s ->
  scram_read_cstr (encode_utf8 s ++ 0 :: rest) 0 = Ok (s, str_len s + 1).
Proof.
  intros Hv Hn. unfold scram_read_cstr, slice_from. rewrite (proj2 (Z.leb_le 0 _)) by apply len_nonneg.
  cbn [Z.to_nat mbind result_bind]. rewrite drop_0. rewrite position_app_found; [| |done]; cycle 1.
  { eapply Forall_impl; [by apply encode_utf8_no_zero|]. intros b Hb. by rewrite Z.eqb_sym. }
  run_result. rewrite take_app_length, from_utf8_encode by done.
  run_result. done.
Qed.

Lemma drop_cstr s rest : drop (Z.to_nat (str_len s + 1)) (encode_utf8 s ++ 0 :: rest) = rest.
Proof.
  replace (Z.to_nat (str_len s + 1)) with (S (length (encode_utf8 s)))
    by (unfold str_len, len; lia).
  apply drop_S_app.
Qed.

(** The server reads the opening. *)
Lemma server_reads_opening u cn :
  valid_str u -> valid_str cn -> fits_frame (initial_message u cn) ->
  parse_scram_initial_response (initial_message u cn) = Ok (SCRAM_MECHANISM, lit "n,," ++ bare_of u cn).
Proof.
  intros Hu Hc Hfit. unfold parse_scram_initial_response, initial_message.
  set (cf := lit "n,," ++ bare_of u cn).
  assert (Hv : valid_str cf) by (apply Forall_app; split; [apply lit_scalar|by apply bare_valid]).
  pose proof (len_nonneg (encode_utf8 cf)) as Hnn. fold (str_len cf) in Hnn.
  assert (Hr : i_range 32 (str_len cf)).
  { unfold fits_frame, initial_message in Hfit. fold cf in Hfit.
    autorewrite with len in Hfit. fold (str_len cf) in Hfit.
    pose proof (len_nonneg (encode_utf8 SCRAM_MECHANISM)). unfold i_range. lia. }
  destruct (put_i32_spec (str_len cf) Hr) as (a & b & c & d & Hput & Hback). rewrite Hput.
  cbn [app]. rewrite (scram_read_cstr_write SCRAM_MECHANISM) by first [apply lit_scalar|free_lit].
  run_result. unfold read_i32, context. rewrite drop_cstr. cbn [app map_err mbind result_bind].
  rewrite Hback. unfold ensure. rewrite (proj2 (Z.leb_le 0 _)) by lia. run_result.
  rewrite (proj2 (Z.leb_le _ _)) by (unfold str_len in *; len_lia). run_result.
  replace (Z.to_nat (str_len SCRAM_MECHANISM + 1 + 4)) with (Z.to_nat (str_len SCRAM_MECHANISM + 1) + 4)%nat
    by (unfold str_len; pose proof (len_nonneg (encode_utf8 SCRAM_MECHANISM)); lia).
  rewrite <- drop_drop, drop_cstr. cbn [app drop].
  replace (Z.to_nat (str_len cf)) with (length (encode_utf8 cf)) by (unfold str_len; by rewrite to_nat_len).
  rewrite drop_0, firstn_all, from_utf8_encode by done. done.
Qed.

Lemma server_reads_first u cn :
  free_of 44 cn ->
  parse_scram_client_first (lit "n,," ++ bare_of u cn) = Ok (bare_of u cn, u, cn).
Proof.
  intros Hc. unfold parse_scram_client_first.
  rewrite (proj2 (strip_prefix_Some (lit "n,,") _ _)) by reflexivity.
  run_result.
  assert (Hsp : split_char 44 (bare_of u cn) = [lit "n=" ++ scram_escape u; lit "r=" ++ cn]).
  { unfold bare_of. rewrite (app_assoc (lit "n=")).
    change (lit ",r=" ++ cn) with (44 :: lit "r=" ++ cn). rewrite split_char_app, split_char_free.
    - done.
    - apply Forall_app; split; [free_lit|done].
    - apply Forall_app; split; [free_lit|apply scram_escape_free]. }
  rewrite Hsp.
  cbn [client_first_items]. change (lit "n=" ++ scram_escape u) with ([110] ++ 61 :: scram_escape u).
  rewrite split_once_app by free_lit. run_result.
  rewrite (proj2 (str_eqb_true [110] (lit "n"))) by reflexivity. rewrite scram_unescape_escape.
  run_result. change (lit "r=" ++ cn) with ([114] ++ 61 :: cn).
  rewrite split_once_app by free_lit. reflexivity.
Qed.

Lemma client_reads_first s cn sn v bare :
  client_first_bare s = Some bare -> client_nonce s = cn ->
  valid_str cn -> valid_str sn -> free_of 44 cn -> free_of 44 sn -> verifier_ok v ->
  read_server_first s (auth_payload (SaslContinue (encode_utf8 (server_first_message cn sn v))))
  = Ok (server_first_message cn sn v, cn ++ sn, salt v, iterations v, bare).
Proof.
  intros Hb Hn Hc Hs Hcf Hsf Hv. pose proof Hv as (Hi & Hsalt & _).
  unfold read_server_first, request_text. cbn [auth_payload].
  assert (Hl : 4 <= len (put_i32 11 ++ encode_utf8 (server_first_message cn sn v))) by len_lia.
  rewrite (proj2 (Z.leb_le _ _) Hl). run_result.
  replace (drop 4 (put_i32 11 ++ encode_utf8 (server_first_message cn sn v)))
    with (encode_utf8 (server_first_message cn sn v)) by reflexivity.
  rewrite from_utf8_encode by (apply server_first_valid; [done|done|lia]).
  run_result. unfold scram_attribute.
  assert (Hsp : split_char 44 (server_first_message cn sn v)
    = [lit "r=" ++ cn ++ sn; lit "s=" ++ b64_encode (salt v); lit "i=" ++ fmt_u64 (iterations v)]).
  { unfold server_first_message.
    change (lit ",s=" ++ b64_encode (salt v) ++ lit ",i=" ++ fmt_u64 (iterations v))
      with (44 :: lit "s=" ++ b64_encode (salt v) ++ lit ",i=" ++ fmt_u64 (iterations v)).
    rewrite (app_assoc cn), (app_assoc (lit "r=")), split_char_app; cycle 1.
    { unfold free_of. rewrite !Forall_app. split_and!; [free_lit|done|done]. }
    f_equal. change (lit ",i=" ++ fmt_u64 (iterations v)) with (44 :: lit "i=" ++ fmt_u64 (iterations v)).
    rewrite (app_assoc (lit "s=")), split_char_app; cycle 1.
    { unfold free_of. rewrite !Forall_app. split; [free_lit|by apply b64_free]. }
    f_equal. apply split_char_free. unfold free_of. rewrite Forall_app.
    split; [free_lit|apply fmt_u64_free; lia]. }
  set (sf := server_first_message cn sn v) in *.
  assert (Ha : find_map (strip_prefix [114; 61]) (split_char 44 sf) = Some (cn ++ sn) /\
               find_map (strip_prefix [115; 61]) (split_char 44 sf) = Some (b64_encode (salt v)) /\
               find_map (strip_prefix [105; 61]) (split_char 44 sf) = Some (fmt_u64 (iterations v)))
    by (rewrite Hsp; done).
  destruct Ha as (-> & -> & ->). run_result. rewrite Hn. unfold ensure.
  rewrite (proj2 (starts_with_true cn _)) by eauto. run_result.
  rewrite b64_roundtrip by done. run_result.
  unfold parse_u32. rewrite parse_unsigned_fmt by lia. run_result.
  rewrite (proj2 (Z.ltb_lt _ _)) by lia. run_result. by rewrite Hb.
Qed.

(** The proof the client sends convinces the server. *)
Lemma proof_accepted key am :
  len key = 32 -> Forall byte_ok key ->
  forall v, stored_key v = sha256 key ->
  verify_scram_proof v am (b64_encode (xor_arrays key (hmac_sha256 (stored_key v) am))) = Ok tt.
Proof.
  intros Hl Hk v Hs. unfold verify_scram_proof, xor_arrays.
  pose proof (hmac_len (stored_key v) am) as Hm.
  assert (Hx : len (zip_with Z.lxor key (hmac_sha256 (stored_key v) am)) = 32)
    by (rewrite length_xor; congruence).
  rewrite b64_roundtrip by (apply xor_bytes_ok; [done|apply hmac_bytes]).
  run_result. unfold ensure, xor_bytes.
  rewrite Hx, Hs, sha256_len. cbn [Z.eqb Pos.eqb Z.ltb Z.compare Pos.compare Pos.compare_cont mbind result_bind].
  rewrite <- Hs, xor_involutive by (unfold len in *; lia). rewrite Hs. by rewrite bool_decide_true.
Qed.

Lemma parse_final_message cn sn p :
  free_of 44 cn -> free_of 44 sn -> free_of 44 p ->
  parse_scram_client_final (lit "c=biws,r=" ++ (cn ++ sn) ++ lit ",p=" ++ p)
  = Ok (lit "biws", cn ++ sn, p).
Proof.
  intros Hc Hs Hp. unfold parse_scram_client_final.
  assert (Hsp : split_char 44 (lit "c=biws,r=" ++ (cn ++ sn) ++ lit ",p=" ++ p)
    = [lit "c=biws"; lit "r=" ++ cn ++ sn; lit "p=" ++ p]).
  { change (lit "c=biws,r=" ++ (cn ++ sn) ++ lit ",p=" ++ p)
      with (lit "c=biws" ++ 44 :: (lit "r=" ++ (cn ++ sn) ++ 44 :: lit "p=" ++ p)).
    rewrite split_char_app by free_lit. f_equal.
    rewrite (app_assoc (lit "r=")), split_char_app, split_char_free; [done| |];
      unfold free_of; rewrite !Forall_app; split_and!; try free_lit; done. }
  rewrite Hsp. done.
Qed.

Lemma verifier_for_ok password salt n :
  0 < n < 2 ^ 32 -> Forall byte_ok salt -> verifier_ok (verifier_for password salt n).
Proof.
  intros Hn Hs. unfold verifier_ok, verifier_for. cbn.
  split_and!; try done; try lia; auto using sha256_bytes, sha256_len, hmac_bytes, hmac_len.
Qed.

Lemma final_message_valid password u cn sn salt n :
  valid_str cn -> valid_str sn ->
  from_utf8 (final_message password u cn sn salt n)
  = Some (lit "c=biws,r=" ++ (cn ++ sn) ++ lit ",p="
          ++ b64_encode (xor_arrays
               (hmac_sha256 (rfc_pbkdf2 (encode_utf8 password) salt (Z.to_nat n)) CLIENT_KEY)
               (hmac_sha256 (stored_key (verifier_for password salt n))
                  (covered u cn sn (verifier_for password salt n))))).
Proof.
  intros Hc Hs. apply from_utf8_encode. unfold valid_str. rewrite !Forall_app.
  split_and!; try apply lit_scalar; try done. apply b64_valid.
Qed.

(** The client answers the server's first message. *)
Lemma client_answers s sn salt n tls :
  let u := username (credentials s) in let p := password (credentials s) in
  let cn := client_nonce s in let v := verifier_for p salt n in
  client_first_bare s = Some (bare_of u cn) ->
  valid_str cn -> valid_str sn -> free_of 44 cn -> free_of 44 sn ->
  0 < n < 2 ^ 32 -> Forall byte_ok salt ->
  respond s (auth_payload (SaslContinue (encode_utf8 (server_first_message cn sn v)))) tls
  = (Ok (Some (password_message (final_message p u cn sn salt n))),
     set_expected_signature s (Some (scram_server_signature v (covered u cn sn v)))).
Proof.
  intros u p cn v Hb Hc Hs Hcf Hsf Hn Hsalt. unfold respond.
  change (read_i32 _ 0) with (@Ok error Z 11). run_result. cbn [Z.eqb Pos.eqb].
  unfold scram_final_response.
  rewrite (client_reads_first s cn sn v _ Hb eq_refl Hc Hs Hcf Hsf (verifier_for_ok p salt n Hn Hsalt)).
  unfold map_step. cbn [fst snd fmap result_fmap]. change (Secrets.iterations v) with n.
  change (Secrets.salt v) with salt. rewrite pbkdf2_rfc by lia.
  assert (Ham : encode_utf8 (bare_of u cn ++ lit "," ++ server_first_message cn sn v ++ lit ","
                  ++ lit "c=biws,r=" ++ cn ++ sn) = covered u cn sn v) by reflexivity.
  fold u p cn in Ham |- *. rewrite Ham. unfold final_message. fold v. rewrite <- (app_assoc (lit "c=biws,r=")).
  reflexivity.
Qed.

Lemma client_accepts_server s am v tls :
  expected_server_signature s = Some (scram_server_signature v am) ->
  respond s (auth_payload (SaslFinal (encode_utf8 (lit "v=" ++ b64_encode (scram_server_signature v am))))) tls
  = (Ok None, set_expected_signature s None).
Proof.
  intros He. unfold respond. change (read_i32 _ 0) with (@Ok error Z 12). run_result. cbn [Z.eqb Pos.eqb].
  unfold verify_scram_server_final, request_text. cbn [auth_payload].
  rewrite (proj2 (Z.leb_le _ _)) by len_lia. run_result.
  set (text := lit "v=" ++ _). change (drop 4 _) with (encode_utf8 text).
  rewrite from_utf8_encode by (apply Forall_app; split; [apply lit_scalar|apply b64_valid]). run_result.
  replace (starts_with (lit "e=") text) with false by reflexivity. rewrite He.
  assert (Hsp : split_char 44 text = [text]).
  { apply split_char_free, Forall_app. split; [free_lit|by apply b64_free]. }
  unfold scram_attribute. rewrite Hsp. cbn [find_map].
  rewrite (proj2 (strip_prefix_Some [118; 61] text (b64_encode (scram_server_signature v am)))) by reflexivity.
  run_result. rewrite b64_roundtrip by apply hmac_bytes. run_result. by rewrite bool_decide_true.
Qed.
End Interop.

(** ** Running the server side *)

Section SessionFacts.
Lemma session_step {A B} (m : Session A) (f : A -> Session B) c a c' :
  m c = (Ok a, c') -> (m ≫= f) c = f a c'.
Proof. intros Hm. unfold mbind, session_bind. by rewrite Hm. Qed.

Lemma lift_step {A B} (r : result error A) (f : A -> Session B) c a :
  r = Ok a -> (lift r ≫= f) c = f a c.
Proof. intros ->. done. Qed.

Lemma write_step {B} msg bs (f : unit -> Session B) rs w n :
  (with_context msg (write_all bs) ≫= f) {| reads := rs; writes := w; writes_left := S n |}
  = f tt {| reads := rs; writes := w ++ [bs]; writes_left := n |}.
Proof. done. Qed.

Lemma read_step {B} msg max p (f : FrontendFrame -> Session B) chunks more w n :
  len (password_message p) <= max -> max < 2 ^ 31 ->
  mjoin chunks = password_message p -> Forall (fun c => c <> []) chunks ->
  (with_context msg (read_authentication_frame max) ≫= f)
    {| reads := (Some <$> chunks) ++ more; writes := w; writes_left := n |}
  = f {| tag := PASSWORD_MESSAGE_TAG; payload := p |}
      {| reads := more; writes := w; writes_left := n |}.
Proof.
  intros Hl Hm Hj Hne.
  assert (Hfit : fits_frame p).
  { unfold fits_frame. unfold password_message in Hl. autorewrite with len in Hl. lia. }
  rewrite password_message_frame in Hl, Hj by done.
  erewrite session_step; [done|]. unfold with_context, read_authentication_frame. cbn [reads].
  by rewrite (read_frame_chunks max {| tag := PASSWORD_MESSAGE_TAG; payload := p |} chunks more [] Hfit Hl Hj Hne).
Qed.
End SessionFacts.

(** C17. The proxy's two sides of SCRAM understand each other: given any
    user name, password, salt, iteration count and nonces, the client side
    answers each message of the server side, the server side lets it in
    however the network cuts the two messages into chunks, having written
    exactly the four messages of the protocol, and the client side accepts
    the server's signature. The client derives its key with the library's
    PBKDF2, the server stores what RFC 5802 prescribes. *)
Theorem scram_login_completes `{CryptoLaws} p u cn pr salt n random users auth query max tls :
  valid_str u -> valid_str cn -> free_of 44 cn -> 0 < n < 2 ^ 32 -> Forall byte_ok salt ->
  let v := verifier_for p salt n in
  let sn := b64_encode_no_pad random in
  let first := encode_utf8 (server_first_message cn sn v) in
  let final := encode_utf8 (lit "v=" ++ b64_encode (scram_server_signature v (covered u cn sn v))) in
  let m1 := password_message (initial_message u cn) in
  let m2 := password_message (final_message p u cn sn salt n) in
  let s0 := with_nonce {| username := u; password := p; provider := pr |} cn in
  resolve_user_secret u auth users query = Ok (Some (ScramSha256 v)) ->
  len m1 <= max -> len m2 <= max -> max < 2 ^ 31 ->
  (exists s1 s2 s3,
    respond s0 (auth_payload (Sasl [SCRAM_MECHANISM])) tls = (Ok (Some m1), s1) /\
    respond s1 (auth_payload (SaslContinue first)) tls = (Ok (Some m2), s2) /\
    respond s2 (auth_payload (SaslFinal final)) tls = (Ok None, s3)) /\
  forall ch1 ch2 more w k,
    mjoin ch1 = m1 -> mjoin ch2 = m2 -> Forall (fun c => c <> []) ch1 -> Forall (fun c => c <> []) ch2 ->
    authenticate_scram u auth users query (Some random) max
      {| reads := (Some <$> ch1) ++ (Some <$> ch2) ++ more; writes := w; writes_left := S (S (S (S k))) |}
    = (Ok Authenticated,
       {| reads := more; writes_left := k;
          writes := w ++ (build_auth_message <$>
                            [Sasl [SCRAM_MECHANISM]; SaslContinue first; SaslFinal final; AuthOk]) |}).
Proof.
  intros Hu Hc Hcf Hn Hsalt v sn first final m1 m2 s0 Hres H1 H2 Hmax.
  destruct (b64_no_pad_valid random) as [Hsv Hsf]. fold sn in Hsv, Hsf. split.
  - do 3 eexists. split_and!.
    + apply client_opens.
    + by apply (client_answers (set_client_first_bare s0 (Some (bare_of u cn)))).
    + by apply client_accepts_server.
  - intros ch1 ch2 more w k Hj1 Hj2 Hn1 Hn2. unfold authenticate_scram. rewrite Hres.
    unfold scram_dialogue. rewrite write_step, (read_step _ _ (initial_message u cn)) by done.
    rewrite (lift_step _ _ _ (initial_message u cn)) by done.
    assert (Hfit : fits_frame (initial_message u cn)).
    { unfold fits_frame. unfold m1, password_message in H1. autorewrite with len in H1. lia. }
    rewrite (lift_step _ _ _ _ (server_reads_opening u cn Hu Hc Hfit)).
    rewrite (lift_step _ _ _ tt) by by rewrite (proj2 (str_eqb_true _ _)).
    rewrite (lift_step _ _ _ _ (server_reads_first u cn Hcf)).
    rewrite (lift_step _ _ _ tt) by by rewrite (proj2 (str_eqb_true _ _)).
    rewrite (lift_step _ _ _ sn) by done.
    rewrite write_step, (read_step _ _ (final_message p u cn sn salt n)) by done.
    rewrite (lift_step _ _ _ (final_message p u cn sn salt n)) by done.
    erewrite lift_step by (rewrite final_message_valid by done; reflexivity).
    erewrite lift_step by (apply parse_final_message; [done|done|by apply b64_free]). cbv beta iota.
    rewrite (lift_step _ _ _ tt) by done.
    rewrite (lift_step _ _ _ tt) by by rewrite (proj2 (str_eqb_true _ _)).
    change (encode_utf8 (bare_of u cn ++ _)) with (covered u cn sn v).
    rewrite (proof_accepted _ (covered u cn sn v) (hmac_len _ _) (hmac_bytes _ _) v eq_refl).
    rewrite !write_step. cbn [fmap list_fmap]. rewrite <- !app_assoc. done.
Qed.

(** ** Soundness of the server side *)

Section Soundness.
Context `{Crypto}.

(** Only the first message with code 0 lets the client in. *)
Definition OK_MESSAGE : bytes := build_auth_message AuthOk.

(** Nothing written since [w0] lets the client in. *)
Definition quiet (w0 w1 : list bytes) : Prop := exists w, w1 = w0 ++ w /\ OK_MESSAGE ∉ w.

(** The frame of a password message, read from the chunks [rs]. *)
Definition received (max : Z) (rs : list (option bytes)) (p : bytes) (rs' : list (option bytes)) : Prop :=
  read_frame_loop max rs [] = (Ok {| tag := PASSWORD_MESSAGE_TAG; payload := p |}, rs').

(** What the client showed in each mode. *)
Definition md5_evidence (secret : Md5Secret) (random : option bytes) (max : Z)
    (rs : list (option bytes)) : Prop :=
  exists salt p rs', random = Some salt /\ received max rs p rs' /\
    parse_md5_password_response p = Some (encode_utf8 (expected_md5_client_hash secret salt)).

Definition scram_evidence (u : str) (v : ScramVerifier) (random : option bytes) (max : Z)
    (rs : list (option bytes)) : Prop :=
  exists nonce p1 rs1 p2 rs2 client_first bare cn client_final proof proof_bytes,
    random = Some nonce /\ received max rs p1 rs1 /\ received max rs1 p2 rs2 /\
    parse_scram_initial_response p1 = Ok (SCRAM_MECHANISM, client_first) /\
    parse_scram_client_first client_first = Ok (bare, u, cn) /\
    from_utf8 p2 = Some client_final /\
    let sn := b64_encode_no_pad nonce in
    parse_scram_client_final client_final = Ok (lit "biws", cn ++ sn, proof) /\
    b64_decode proof = Some proof_bytes /\ len proof_bytes = len (stored_key v) /\
    sha256 (zip_with Z.lxor proof_bytes
      (hmac_sha256 (stored_key v)
         (encode_utf8 (bare ++ lit "," ++ server_first_message cn sn v ++ lit ",c=biws,r=" ++ cn ++ sn))))
    = stored_key v.

Definition evidence (u : str) (auth : AuthConfig) (users : UserStore) (query : option AuthQuery)
    (random : option bytes) (max : Z) (rs : list (option bytes)) : Prop :=
  match auth_mode auth with
  | PassThrough => False
  | AuthTrust => store_get users u = Some Trust
  | AuthMd5 => exists secret, resolve_user_secret u auth users query = Ok (Some (Md5 secret)) /\
                 md5_evidence secret random max rs
  | AuthScramSha256 => exists v, resolve_user_secret u auth users query = Ok (Some (ScramSha256 v)) /\
                 scram_evidence u v random max rs
  end.

(** The outcome of a login from [c0] on evidence [E]. *)
Definition sound (E : Prop) (c0 : ClientStream) (r : result error ClientAuthOutcome) (c : ClientStream)
    : Prop :=
  exists w, writes c = writes c0 ++ w /\ (OK_MESSAGE ∈ w <-> r = Ok Authenticated) /\
    (r = Ok Authenticated -> E).

Definition wp {A} (m : Session A) (c : ClientStream) (Q : result error A -> ClientStream -> Prop) : Prop :=
  Q (fst (m c)) (snd (m c)).

Lemma auth_wp_bind {A B} (m : Session A) (f : A -> Session B) c Q :
  wp m c (fun r c1 => match r with
                      | Ok a => wp (f a) c1 Q
                      | Err e => Q (Err e) c1
                      | Panic => Q Panic c1
                      end) -> wp (m ≫= f) c Q.
Proof. unfold wp, mbind, session_bind. by destruct (m c) as [[a|e|] c1]. Qed.

Lemma wp_lift {A B} (r : result error A) (f : A -> Session B) c Q :
  (forall a, r = Ok a -> wp (f a) c Q) -> (forall e, Q (Err e) c) -> Q Panic c ->
  wp (lift r ≫= f) c Q.
Proof. intros H1 H2 H3. apply auth_wp_bind. destruct r; cbn; auto. Qed.

Lemma wp_write {B} msg bs (f : unit -> Session B) c Q :
  (forall n, wp (f tt) {| reads := reads c; writes := writes c ++ [bs]; writes_left := n |} Q) ->
  (forall e, Q (Err e) c) -> wp (with_context msg (write_all bs) ≫= f) c Q.
Proof.
  intros H1 H2. apply auth_wp_bind. unfold wp, with_context, write_all. destruct (writes_left c).
  - apply H2.
  - apply H1.
Qed.

Lemma wp_read {B} msg max (f : FrontendFrame -> Session B) c Q :
  (forall fr rs, read_frame_loop max (reads c) [] = (Ok fr, rs) ->
     wp (f fr) {| reads := rs; writes := writes c; writes_left := writes_left c |} Q) ->
  (forall rs r, r = Panic \/ (exists e, r = Err e) ->
     Q r {| reads := rs; writes := writes c; writes_left := writes_left c |}) ->
  wp (with_context msg (read_authentication_frame max) ≫= f) c Q.
Proof.
  intros H1 H2. apply auth_wp_bind. unfold wp, with_context, read_authentication_frame.
  destruct (read_frame_loop max (reads c) []) as [[fr|e|] rs] eqn:Hr.
  - by apply H1.
  - apply H2. cbn. eauto.
  - apply H2. by left.
Qed.

Lemma quiet_refl w : quiet w w.
Proof. exists []. rewrite app_nil_r. split; [done|]. apply not_elem_of_nil. Qed.

Lemma quiet_write w0 w bs : quiet w0 w -> bs <> OK_MESSAGE -> quiet w0 (w ++ [bs]).
Proof.
  intros (x & -> & Hx) Hb. exists (x ++ [bs]). rewrite app_assoc. split; [done|].
  rewrite elem_of_app, list_elem_of_singleton. naive_solver.
Qed.

Lemma sound_quiet E c0 c r : quiet (writes c0) (writes c) -> r <> Ok Authenticated -> sound E c0 r c.
Proof. intros (w & Hw & Hx) Hr. exists w. naive_solver. Qed.

Lemma sound_ok (E : Prop) c0 w rs n : quiet (writes c0) w -> E ->
  sound E c0 (Ok Authenticated) {| reads := rs; writes := w ++ [OK_MESSAGE]; writes_left := n |}.
Proof.
  intros (x & -> & Hx) HE. exists (x ++ [OK_MESSAGE]). cbn [writes]. rewrite app_assoc.
  split_and!; [done| |done]. split; [done|]. intros _. set_solver.
Qed.

(** The other messages of the server are different ones. *)
Lemma error_not_ok s m : build_error_response s m <> OK_MESSAGE.
Proof. done. Qed.
Lemma md5_not_ok salt : build_auth_message (Md5Password salt) <> OK_MESSAGE.
Proof. intros Hx. apply (f_equal (drop 5)) in Hx. discriminate. Qed.
Lemma sasl_not_ok : authentication_sasl_scram_sha_256 <> OK_MESSAGE.
Proof. done. Qed.
Lemma continue_not_ok d : build_auth_message (SaslContinue d) <> OK_MESSAGE.
Proof. intros Hx. apply (f_equal (drop 5)) in Hx. discriminate. Qed.
Lemma final_not_ok d : build_auth_message (SaslFinal d) <> OK_MESSAGE.
Proof. intros Hx. apply (f_equal (drop 5)) in Hx. discriminate. Qed.

(** Discharge a branch that ends the login without letting the client in. *)
Ltac ends := intros; apply sound_quiet; [cbn [writes]; by eauto using quiet_write, error_not_ok|naive_solver].

Lemma wp_reject E c0 c auth u reason :
  quiet (writes c0) (writes c) -> wp (reject auth u reason) c (sound E c0).
Proof.
  intros Hq. unfold reject, reject_authentication. apply wp_write; [|ends].
  intros n. unfold wp. cbn. ends.
Qed.

(** A frame accepted as a password message. *)
Lemma password_frame_received max rs fr rs' p :
  read_frame_loop max rs [] = (Ok fr, rs') -> parse_password_frame fr = Ok p -> received max rs p rs'.
Proof.
  intros Hfr Hp. unfold received. rewrite Hfr. unfold parse_password_frame in Hp.
  destruct (Z.eqb_spec (tag fr) PASSWORD_MESSAGE_TAG) as [Ht|]; [|done]. destruct fr; cbn in *. congruence.
Qed.

Lemma md5_sound u auth secret random max c E :
  (md5_evidence secret random max (reads c) -> E) ->
  wp (md5_dialogue u auth secret random max) c (sound E c).
Proof.
  intros HE. pose proof (quiet_refl (writes c)) as Hq. unfold md5_dialogue.
  apply wp_lift; [|ends|ends]. intros salt Hsalt. apply wp_write; [|ends]. intros n.
  pose proof (quiet_write _ _ _ Hq (md5_not_ok salt)) as Hq1.
  apply wp_read; [|ends]. cbn [reads writes writes_left]. intros fr rs Hfr.
  apply wp_lift; [|ends|ends]. intros p Hp.
  destruct (parse_md5_password_response p) as [response|] eqn:Hr; [|by apply wp_reject].
  case_bool_decide as Heq; [|by apply wp_reject]. apply wp_write; [|ends]. intros n'. unfold wp. cbn [fst snd mret session_ret writes reads].
  apply (sound_ok E c _ _ _ Hq1), HE. exists salt, p, rs.
  split_and!; [by destruct random; simplify_eq/=|by eapply password_frame_received|congruence].
Qed.

Lemma ensure_Ok b m x : ensure b m = Ok x -> b = true.
Proof. by destruct b. Qed.

(** What [verify_scram_proof] accepts. *)
Lemma verify_scram_proof_Ok v am p x :
  verify_scram_proof v am p = Ok x ->
  exists bs, b64_decode p = Some bs /\ len bs = len (stored_key v) /\
    sha256 (zip_with Z.lxor bs (hmac_sha256 (stored_key v) am)) = stored_key v.
Proof.
  unfold verify_scram_proof. intros Hv.
  apply bind_Ok_inv in Hv as (bs & Hb & Hv). apply bind_Ok_inv in Hv as (? & Hl & Hv).
  apply bind_Ok_inv in Hv as (k & Hk & Hv). apply ensure_Ok, Z.eqb_eq in Hl.
  apply ensure_Ok, bool_decide_eq_true in Hv. unfold xor_bytes in Hk.
  destruct (len bs <? 32); [done|]. injection Hk as <-. exists bs.
  destruct (b64_decode p); by simplify_eq/=.
Qed.

Lemma scram_sound u auth v random max c E :
  (scram_evidence u v random max (reads c) -> E) ->
  wp (scram_dialogue u auth v random max) c (sound E c).
Proof.
  intros HE. pose proof (quiet_refl (writes c)) as Hq. unfold scram_dialogue.
  apply wp_write; [|ends]. intros n. pose proof (quiet_write _ _ _ Hq sasl_not_ok) as Hq1.
  apply wp_read; [|ends]. cbn [reads writes writes_left]. intros fr1 rs1 Hfr1.
  apply wp_lift; [|ends|ends]. intros p1 Hp1.
  apply wp_lift; [|ends|ends]. intros [mech client_first] Hinit.
  apply wp_lift; [|ends|ends]. intros [] Hmech.
  destruct (str_eqb mech SCRAM_MECHANISM) eqn:Hm; [|done]. apply str_eqb_true in Hm as ->.
  apply wp_lift; [|ends|ends]. intros [[bare cu] cn] Hfirst.
  apply wp_lift; [|ends|ends]. intros [] Huser. apply ensure_Ok, str_eqb_true in Huser as ->.
  apply wp_lift; [|ends|ends]. intros sn Hsn.
  destruct random as [nonce|]; [|done]. injection Hsn as <-.
  set (sn := b64_encode_no_pad nonce). apply wp_write; [|ends]. intros n2. cbn [reads writes].
  pose proof (quiet_write _ _ _ Hq1 (continue_not_ok (encode_utf8 (server_first_message cn sn v)))) as Hq2.
  apply wp_read; [|ends]. cbn [reads writes writes_left]. intros fr2 rs2 Hfr2.
  apply wp_lift; [|ends|ends]. intros p2 Hp2.
  apply wp_lift; [|ends|ends]. intros client_final Hfinal.
  apply wp_lift; [|ends|ends]. intros [[cb combined] proof] Hitems.
  apply wp_lift; [|ends|ends]. intros [] Hcb. apply ensure_Ok, str_eqb_true in Hcb as ->.
  apply wp_lift; [|ends|ends]. intros [] Hnonce. apply ensure_Ok, str_eqb_true in Hnonce as ->.
  destruct (verify_scram_proof v _ proof) as [x|e|] eqn:Hver; [|by apply wp_reject|unfold wp; ends].
  apply wp_write; [|ends]. intros n3. cbn [reads writes].
  match goal with |- context [SaslFinal ?d] => pose proof (quiet_write _ _ _ Hq2 (final_not_ok d)) as Hq3 end.
  apply wp_write; [|ends]. intros n4. unfold wp. cbn [fst snd mret session_ret writes reads].
  apply (sound_ok E c _ _ _ Hq3), HE.
  apply verify_scram_proof_Ok in Hver as (bs & Hbs & Hl & Hsha).
  exists nonce, p1, rs1, p2, rs2, client_first, bare, cn, client_final, proof, bs.
  split_and!; try done; try (by eapply password_frame_received).
  unfold foreign_or in Hfinal. by destruct (from_utf8 p2); simplify_eq/=.
Qed.

(** C12. A client is let in only on evidence: [AuthenticationOk] is written
    exactly when the outcome is [Authenticated], and then the user is a trust
    user, or the password message carried the MD5 hash over this login's
    salt, or the client's proof, for a message that ends in this login's
    server nonce, opens to a preimage of the stored key of the named user. *)
Theorem authentication_sound u auth users query random max c :
  let '(r, c') := authenticate_client u auth users query random max c in
  exists w, writes c' = writes c ++ w /\
    (build_auth_message AuthOk ∈ w <-> r = Ok Authenticated) /\
    (r = Ok Authenticated -> evidence u auth users query random max (reads c)).
Proof.
  pose proof (quiet_refl (writes c)) as Hq.
  enough (Hs : wp (authenticate_client u auth users query random max) c
                 (sound (evidence u auth users query random max (reads c)) c)).
  { unfold wp in Hs. by destruct (authenticate_client u auth users query random max c). }
  unfold authenticate_client, evidence. destruct (auth_mode auth).
  - unfold wp. cbn. ends.
  - unfold authenticate_trust. destruct (store_get users u) as [[| |]|]; try by apply wp_reject.
    apply wp_write; [|ends]. intros n. unfold wp. by apply sound_ok.
  - unfold authenticate_scram. destruct (resolve_user_secret u auth users query) as [[[|v|]|]|e|];
      try (by apply wp_reject); [|unfold wp; ends]. apply scram_sound. eauto.
  - unfold authenticate_md5. destruct (resolve_user_secret u auth users query) as [[[|v|s]|]|e|];
      try (by apply wp_reject); [|unfold wp; ends]. apply md5_sound. eauto.
Qed.
End Soundness.

(** ** A small instance

    Hexadecimal in place of base64 and check sums in place of the digests:
    enough to run the code and to show that the laws can hold. *)

Section Toy.
Definition hex_value (c : Z) : Z := if c <? 58 then c - 48 else c - 87.
Fixpoint toy_decode (s : str) : option bytes :=
  match s with
  | [] => Some []
  | a :: b :: r =>
      if is_lower_hex a && is_lower_hex b
      then (cons (16 * hex_value a + hex_value b)) <$> toy_decode r else None
  | _ => None
  end.
Definition toy_encode (bs : bytes) : str := hex_lower ((fun b => b mod 256) <$> bs).
Definition toy_digest (n : nat) (bs : bytes) : bytes :=
  replicate n (fold_left (fun v b => 31 * v + b) bs 7 mod 256).

Definition toy_base : Crypto := {|
  b64_encode := toy_encode; b64_decode := toy_decode; b64_encode_no_pad := toy_encode;
  sha256 := toy_digest 32; hmac_sha256 := fun k d => toy_digest 32 (k ++ d);
  pbkdf2_hmac := fun _ _ _ => []; md5 := toy_digest 16 |}.

Definition toy : Crypto := {|
  b64_encode := toy_encode; b64_decode := toy_decode; b64_encode_no_pad := toy_encode;
  sha256 := toy_digest 32; hmac_sha256 := fun k d => toy_digest 32 (k ++ d);
  pbkdf2_hmac := fun p s n => rfc_pbkdf2 (H := toy_base) p s (Z.to_nat n); md5 := toy_digest 16 |}.

Lemma byte_nibbles b : byte_ok b ->
  0 <= Z.shiftr b 4 < 16 /\ 0 <= Z.land b 15 < 16 /\ 16 * Z.shiftr b 4 + Z.land b 15 = b.
Proof.
  intros Hb. unfold byte_ok in Hb. rewrite Z.shiftr_div_pow2 by lia.
  change 15 with (Z.ones 4). rewrite Z.land_ones by lia. change (2 ^ 4) with 16.
  pose proof (Z.div_mod b 16 ltac:(lia)). pose proof (Z.mod_pos_bound b 16 ltac:(lia)). lia.
Qed.

Lemma hex_digit_spec n : 0 <= n < 16 ->
  is_lower_hex (hex_digit n) = true /\ hex_value (hex_digit n) = n /\ b64_char (hex_digit n).
Proof.
  intros Hn. unfold hex_digit, hex_value, is_lower_hex, is_ascii_digit, b64_char, is_ascii_alphanumeric.
  destruct (Z.ltb_spec n 10); rewrite ?orb_true_iff, !in_range_true;
    [rewrite (proj2 (Z.ltb_lt _ 58)) by lia|rewrite (proj2 (Z.ltb_ge _ 58)) by lia]; lia.
Qed.

Lemma toy_alphabet bs : Forall b64_char (toy_encode bs).
Proof.
  unfold toy_encode, hex_lower. induction bs as [|b bs IH]; [constructor|]. cbn [fmap list_fmap mbind list_bind].
  destruct (byte_nibbles (b mod 256)) as (H1 & H2 & _); [apply Z.mod_pos_bound; lia|].
  apply Forall_app. split; [|done]. constructor; [by apply hex_digit_spec|].
  constructor; [by apply hex_digit_spec|constructor].
Qed.

Lemma toy_roundtrip bs : Forall byte_ok bs -> toy_decode (toy_encode bs) = Some bs.
Proof.
  induction 1 as [|b bs Hb Hbs IH]; [done|]. unfold toy_encode in *. cbn [fmap list_fmap].
  rewrite Z.mod_small by done. unfold hex_lower in *. cbn [mbind list_bind app toy_decode].
  destruct (byte_nibbles b Hb) as (H1 & H2 & H3).
  destruct (hex_digit_spec _ H1) as (-> & -> & _), (hex_digit_spec _ H2) as (-> & -> & _).
  cbn [andb]. rewrite IH. cbn. by rewrite H3.
Qed.

Lemma toy_digest_spec n bs : len (toy_digest n bs) = Z.of_nat n /\ Forall byte_ok (toy_digest n bs).
Proof.
  unfold toy_digest, len. rewrite length_replicate. split; [done|]. apply Forall_replicate, Z.mod_pos_bound. lia.
Qed.

#[global] Instance toy_laws : CryptoLaws (H := toy).
Proof.
  refine (@Build_CryptoLaws toy toy_roundtrip toy_alphabet toy_alphabet
    (fun bs => proj1 (toy_digest_spec 32 bs)) (fun bs => proj2 (toy_digest_spec 32 bs))
    (fun k bs => proj1 (toy_digest_spec 32 (k ++ bs))) (fun k bs => proj2 (toy_digest_spec 32 (k ++ bs)))
    (fun bs => proj1 (toy_digest_spec 16 bs)) (fun bs => proj2 (toy_digest_spec 16 bs)) _).
  reflexivity.
Qed.
End Toy.

Definition toy_auth (mode : AuthMode) : AuthConfig := {|
  auth_mode := mode; auth_users_file := None; backend_user := None; backend_password_env_var_name := None;
  auth_query_enabled := false; auth_query := []; auth_query_cache_ttl_ms := 0;
  auth_failure_message_mode := Generic |}.
Definition toy_users : UserStore :=
  fst (store_insert store_new (lit "a,b") (ScramSha256 (verifier_for (H := toy) (lit "pw") [1; 2; 3] 3))).

Lemma scram_login_completes_witness : exists c',
  authenticate_scram (H := toy) (lit "a,b") (toy_auth AuthScramSha256) toy_users None (Some [7; 8]) 1000
    {| reads := [Some (password_message (initial_message (lit "a,b") (lit "nonce")));
                 Some (password_message (final_message (H := toy) (lit "pw") (lit "a,b") (lit "nonce")
                                           (b64_encode_no_pad (Crypto := toy) [7; 8]) [1; 2; 3] 3))];
       writes := []; writes_left := 4 |}
  = (Ok Authenticated, c').
Proof.
  eexists. refine (proj2 (scram_login_completes (H := toy) (lit "pw") (lit "a,b") (lit "nonce") None [1; 2; 3] 3
    [7; 8] toy_users (toy_auth AuthScramSha256) None 1000 false _ _ _ _ _ _ _ _ _)
    [password_message (initial_message (lit "a,b") (lit "nonce"))]
    [password_message (final_message (H := toy) (lit "pw") (lit "a,b") (lit "nonce")
                         (b64_encode_no_pad (Crypto := toy) [7; 8]) [1; 2; 3] 3)] [] [] 0%nat _ _ _ _).
  all: try apply lit_scalar; try free_lit; try lia; try reflexivity.
  all: try (apply bool_decide_unpack; vm_compute; exact I).
  all: try (repeat constructor; unfold byte_ok; lia).
  all: try (vm_compute; discriminate).
  all: repeat constructor; discriminate.
Defined.

(** ** The password of the service account *)

Section Confinement.
Context `{Crypto}.

(** Two sessions that differ in the password only. *)
Definition same_but_password (s s' : BackendAuthSession) : Prop :=
  username (credentials s) = username (credentials s') /\ client_nonce s = client_nonce s' /\
  client_first_bare s = client_first_bare s' /\
  expected_server_signature s = expected_server_signature s'.

(** The two digests through which the password may be seen. *)
Definition same_digests (s s' : BackendAuthSession) : Prop :=
  md5 (encode_utf8 (password (credentials s) ++ username (credentials s)))
  = md5 (encode_utf8 (password (credentials s') ++ username (credentials s'))) /\
  forall salt n, pbkdf2_hmac (encode_utf8 (password (credentials s))) salt n
            = pbkdf2_hmac (encode_utf8 (password (credentials s'))) salt n.

(** Steps that agree. *)
Definition same_step {A} (x y : Step A) : Prop :=
  fst x = fst y /\ same_but_password (snd x) (snd y).

Lemma same_step_map {A B} (f : A -> B) x y : same_step x y -> same_step (map_step f x) (map_step f y).
Proof. intros [Hf Hs]. split; [|done]. cbn. by rewrite Hf. Qed.

Lemma same_initial s s' request :
  same_but_password s s' ->
  same_step (scram_initial_response s request) (scram_initial_response s' request).
Proof.
  intros Hs. pose proof Hs as (Hu & Hn & Hb & He). unfold scram_initial_response. rewrite Hu, Hn.
  destruct (request_text request _ _ ≫= _); split; done.
Qed.

Lemma same_final s s' request :
  same_but_password s s' -> same_digests s s' ->
  same_step (scram_final_response s request) (scram_final_response s' request).
Proof.
  intros Hs [_ Hp]. pose proof Hs as (Hu & Hn & Hb & He). unfold scram_final_response.
  assert (Hr : read_server_first s request = read_server_first s' request).
  { unfold read_server_first. by rewrite Hn, Hb. }
  rewrite Hr. destruct (read_server_first s' request) as [[[[[sf sn] salt] n] bare]| |]; [|done|done].
  rewrite Hp. split; [done|]. split_and!; done.
Qed.

Lemma same_verify s s' request :
  same_but_password s s' ->
  same_step (verify_scram_server_final s request) (verify_scram_server_final s' request).
Proof.
  intros Hs. pose proof Hs as (Hu & Hn & Hb & He). unfold verify_scram_server_final. rewrite He.
  destruct (request_text request _ _) as [text| |]; [|done|done].
  destruct (starts_with _ text); [done|]. destruct (expected_server_signature s'); [|done].
  split; [done|]. split_and!; done.
Qed.

(** An answer changes no credentials. *)
Lemma respond_credentials s request tls : credentials (snd (respond s request tls)) = credentials s.
Proof.
  unfold respond, scram_initial_response, scram_final_response, verify_scram_server_final, map_step.
  by repeat (case_match; cbn).
Qed.

(** C38. Without TLS the backend, and whoever listens, sees the service
    password only through its MD5 hash with the user name and the PBKDF2 keys:
    sessions whose passwords agree there give the same answer to a request
    and agree again afterwards, so they give the same answers for ever; a
    request for the cleartext password is refused; and TLS changes no other
    answer. *)
Theorem backend_password_confined s s' request :
  same_but_password s s' -> same_digests s s' ->
  same_step (respond s request false) (respond s' request false) /\
  same_digests (snd (respond s request false)) (snd (respond s' request false)) /\
  (read_i32 request 0 = Ok 3 -> exists e, respond s request false = (Err e, s)) /\
  (read_i32 request 0 <> Ok 3 -> respond s request true = respond s request false).
Proof.
  intros Hs Hd. split_and!.
  - unfold respond. destruct (context _ (read_i32 request 0)) as [code| |]; [|done|done].
    do 2 (case_match; [done|]).
    case_match; [|do 2 (case_match; [apply same_step_map; auto using same_initial, same_final|]);
                  case_match; [apply same_step_map; auto using same_verify|done]].
    split; [|done]. unfold md5_response. destruct Hd as [Hm _]. rewrite Hm. done.
  - unfold same_digests. by rewrite !respond_credentials.
  - intros Hr. unfold respond. rewrite Hr. cbn. eauto.
  - intros Hr. unfold respond. destruct (read_i32 request 0) as [code| |]; [|done|done].
    cbn [context map_err]. destruct (Z.eqb_spec code 3) as [->|]; [done|]. done.
Qed.

(** A server that answers the client's proof with AuthenticationOk alone is
    accepted, its signature still unchecked. *)
Lemma ok_without_signature s tls :
  respond s (auth_payload AuthOk) tls = (Ok None, s).
Proof. reflexivity. Qed.

(** The user name of the client's first message must repeat the one of the
    startup packet: a client that leaves it empty, as PostgreSQL's protocol
    documentation allows and its own library does, cannot log in. *)
Lemma empty_scram_name u cn :
  free_of 44 cn -> u <> [] ->
  parse_scram_client_first (lit "n,,n=,r=" ++ cn) = Ok (bare_of [] cn, [], cn) /\
  ensure (str_eqb [] u) "SCRAM client username does not match startup user"
  = fail "SCRAM client username does not match startup user".
Proof.
  intros Hc Hu. split; [by apply (server_reads_first [] cn)|]. unfold ensure.
  destruct (str_eqb [] u) eqn:He; [|done]. apply str_eqb_true in He. done.
Qed.
End Confinement.

(** Two passwords the small instance cannot tell apart. *)
Lemma toy_collision salt n :
  pbkdf2_hmac (Crypto := toy) [1; 32] salt n = pbkdf2_hmac (Crypto := toy) [2; 1] salt n.
Proof.
  cbn. unfold rfc_pbkdf2.
  assert (He : forall j, rfc_u (H := toy_base) [1; 32] salt j = rfc_u (H := toy_base) [2; 1] salt j).
  { induction j as [|j IH]; [done|]. cbn [rfc_u]. by rewrite IH. }
  rewrite He. f_equal. apply list_fmap_ext. intros. apply He.
Qed.

Lemma backend_password_confined_witness :
  let s := with_nonce {| username := lit "u"; password := [1; 32]; provider := None |} (lit "n") in
  let s' := with_nonce {| username := lit "u"; password := [2; 1]; provider := None |} (lit "n") in
  fst (respond (H := toy) s (auth_payload (Md5Password [1; 2; 3; 4])) false)
  = fst (respond (H := toy) s' (auth_payload (Md5Password [1; 2; 3; 4])) false).
Proof.
  intros s s'. apply (backend_password_confined (H := toy) s s'); [done|].
  split; [reflexivity|]. intros salt n. apply toy_collision.
Defined.
