(* ===== verification/Cycle.v ===== *)
(** * Cycle: message cycles between client and backend

    Models [engine/io_runtime.rs]: how the proxy cuts the client's byte
    stream into cycles ([take_frontend_cycle_bytes], [FrontendCycleShape]),
    and how it forwards the backend's answer ([BackendResponseDrain]). An
    [anyhow] error is the [WireError] it wraps; [expect] and [unreachable!]
    are [Panic]. *)

From S2P Require Import Prelude Text Protocol Frame Startup BackendWire.

(** ** Frontend cycles *)

Record FrontendCycleShape := {
  expected_ready_count : nat;
  expected_completion_count : nat;
  needs_sync : bool;
}.

Definition is_extended_cycle_boundary (t : Z) : bool :=
  (t =? frontend_byte Sync) || (t =? frontend_byte Flush).

Definition expects_backend_completion (t : Z) : bool :=
  (t =? frontend_byte Parse) || (t =? frontend_byte Bind) || (t =? frontend_byte Describe)
  || (t =? frontend_byte Execute) || (t =? frontend_byte Close).

Definition is_backend_cycle_completion (t : Z) : bool :=
  (t =? backend_byte ParseComplete) || (t =? backend_byte BindComplete)
  || (t =? backend_byte CloseComplete) || (t =? backend_byte RowDescription)
  || (t =? backend_byte NoData) || (t =? backend_byte CommandComplete)
  || (t =? backend_byte EmptyQueryResponse) || (t =? backend_byte PortalSuspended).

Definition count_if {A} (p : A -> bool) (l : list A) : nat := length (List.filter p l).

(** [FrontendCycleShape::from_frames]. *)
Definition from_frames (frames : list FrontendFrame) : FrontendCycleShape :=
  let query_count := count_if (fun f => tag f =? frontend_byte Query) frames in
  let needs_sync := existsb (fun f => negb (tag f =? frontend_byte Query)) frames in
  let ends_with_sync :=
    match last frames with Some f => tag f =? frontend_byte Sync | None => false end in
  let expected_ready_count := (query_count + if ends_with_sync then 1 else 0)%nat in
  let expected_completion_count :=
    if (expected_ready_count =? 0)%nat
    then count_if (fun f => expects_backend_completion (tag f)) frames
    else 0%nat in
  {| expected_ready_count := expected_ready_count;
     expected_completion_count := expected_completion_count;
     needs_sync := needs_sync |}.

Definition expects_no_response (s : FrontendCycleShape) : bool :=
  (expected_ready_count s =? 0)%nat && (expected_completion_count s =? 0)%nat.

(** [while let Some(frame) = parse_frontend_frame(&mut buffer)? { push }]. *)
Fixpoint parse_frontend_frames (fuel : nat) (buffer : bytes)
  : option (result WireError (list FrontendFrame)) :=
  match fuel with
  | O => None
  | S fuel =>
      match parse_frontend_frame buffer with
      | Ok (None, _) => Some (Ok [])
      | Ok (Some f, rest) =>
          match parse_frontend_frames fuel rest with
          | Some (Ok fs) => Some (Ok (f :: fs))
          | other => other
          end
      | Err e => Some (Err e)
      | Panic => Some Panic
      end
  end.

(** [parse_frontend_cycle_frames]. *)
Definition parse_frontend_cycle_frames (bs : bytes) : result WireError (list FrontendFrame) :=
  default Panic (parse_frontend_frames (S (length bs)) bs).

(** [FrontendCycleShape::from_wire_bytes]. *)
Definition from_wire_bytes (bs : bytes) : result WireError (option FrontendCycleShape) :=
  frames ← parse_frontend_cycle_frames bs;
  match frames with
  | [] => Ok None
  | _ => Ok (Some (from_frames frames))
  end.

(** [complete_frontend_frame_len]: an invalid length is handed to the parser
    for its error; the [unreachable!] after it is a [Panic]. *)
Definition complete_frontend_frame_len (bs : bytes) : result WireError (option nat) :=
  match bs with
  | _ :: b1 :: b2 :: b3 :: b4 :: _ =>
      let length := i32_from_be_bytes b1 b2 b3 b4 in
      if length <? 4 then
        _ ← parse_frontend_frame bs;
        Panic
      else
        let total_len := 1 + length in
        Ok (if total_len <=? len bs then Some (Z.to_nat total_len) else None)
  | _ => Ok None
  end.

Inductive FrontendCycleRead :=
| CycleComplete (bs : bytes) (shape : FrontendCycleShape)
| CycleTerminate (bs : bytes)
| BufferLimitExceeded
| NeedMoreBytes.

(** The walk over consecutive simple queries; [cycle_len] bytes are already
    part of the cycle. *)
Fixpoint query_walk (fuel : nat) (buffer : bytes) (cycle_len : nat)
  : option (result WireError nat) :=
  match fuel with
  | O => None
  | S fuel =>
      match complete_frontend_frame_len (drop cycle_len buffer) with
      | Ok (Some next_len) =>
          if bool_decide (head (drop cycle_len buffer) = Some (frontend_byte Query))
          then query_walk fuel buffer (cycle_len + next_len)
          else Some (Ok cycle_len)
      | Ok None => Some (Ok cycle_len)
      | Err e => Some (Err e)
      | Panic => Some Panic
      end
  end.

(** The walk to the next Sync or Flush; [Ok None] asks for more bytes. *)
Fixpoint extended_walk (fuel : nat) (buffer : bytes) (cycle_len : nat) (last_tag : Z)
  : option (result WireError (option nat)) :=
  match fuel with
  | O => None
  | S fuel =>
      if is_extended_cycle_boundary last_tag then Some (Ok (Some cycle_len))
      else
        match complete_frontend_frame_len (drop cycle_len buffer) with
        | Ok (Some next_len) =>
            match drop cycle_len buffer with
            | t :: _ => extended_walk fuel buffer (cycle_len + next_len) t
            | [] => Some Panic
            end
        | Ok None => Some (Ok None)
        | Err e => Some (Err e)
        | Panic => Some Panic
        end
  end.

(** The common tail: split the cycle off and compute its shape. *)
Definition finish_cycle (buffer : bytes) (cycle_len : nat)
  : result WireError (FrontendCycleRead * bytes) :=
  let bs := take cycle_len buffer in
  shape ← from_wire_bytes bs;
  match shape with
  | Some shape => Ok (CycleComplete bs shape, drop cycle_len buffer)
  | None => Panic
  end.

(** [take_frontend_cycle_bytes]: the outcome and the buffer after it. *)
Definition take_frontend_cycle_bytes (buffer : bytes) (max_client_buffer_bytes : Z)
  : result WireError (FrontendCycleRead * bytes) :=
  if max_client_buffer_bytes <? len buffer then Ok (BufferLimitExceeded, buffer)
  else
    first ← complete_frontend_frame_len buffer;
    match first, buffer with
    | Some first_len, first_tag :: _ =>
        if first_tag =? frontend_byte Terminate then
          Ok (CycleTerminate (take first_len buffer), drop first_len buffer)
        else if first_tag =? frontend_byte Query then
          cycle_len ← default Panic (query_walk (S (length buffer)) buffer first_len);
          finish_cycle buffer cycle_len
        else
          walked ← default Panic (extended_walk (S (length buffer)) buffer first_len first_tag);
          match walked with
          | None => Ok (NeedMoreBytes, buffer)
          | Some cycle_len => finish_cycle buffer cycle_len
          end
    | _, _ => Ok (NeedMoreBytes, buffer)
    end.

(** ** Startup packets off the wire *)

Inductive StartupEncryptionRequest := EncSsl | EncGss.

Inductive StartupPacketRead :=
| StartupRead (packet : bytes)
| StartupCancel (bs : bytes) (process_id secret_key : Z)
| EncryptionRequest (r : StartupEncryptionRequest)
| StartupBufferLimitExceeded
| StartupNeedMoreBytes.

(** [take_startup_packet_bytes]. *)
Definition take_startup_packet_bytes (buffer : bytes) (max_client_buffer_bytes : Z)
  : result WireError (StartupPacketRead * bytes) :=
  if max_client_buffer_bytes <? len buffer then Ok (StartupBufferLimitExceeded, buffer)
  else
    match buffer with
    | l0 :: l1 :: l2 :: l3 :: _ =>
        let length := i32_from_be_bytes l0 l1 l2 l3 in
        if length <? 8 then
          _ ← parse_startup_packet buffer;
          Panic
        else if len buffer <? length then Ok (StartupNeedMoreBytes, buffer)
        else
          let packet := take (Z.to_nat length) buffer in
          let rest := drop (Z.to_nat length) buffer in
          parsed ← parse_startup_packet packet;
          Ok (match parsed with
              | Startup _ _ _ => StartupRead packet
              | CancelRequest process_id secret_key => StartupCancel packet process_id secret_key
              | SslRequest => EncryptionRequest EncSsl
              | GssEncRequest => EncryptionRequest EncGss
              end, rest)
    | _ => Ok (StartupNeedMoreBytes, buffer)
    end.

(** ** Backend responses *)

Record BackendResponseDrain := {
  injected_parse_completes : nat;
  ready_count : nat;
  d_expected_ready_count : nat;
  completion_count : nat;
  d_expected_completion_count : nat;
  saw_error : bool;
  response_started : bool;
}.

(** [BackendResponseDrain::for_cycle]. *)
Definition for_cycle (shape : FrontendCycleShape) (injected : nat) : BackendResponseDrain :=
  {| injected_parse_completes := injected; ready_count := 0;
     d_expected_ready_count := expected_ready_count shape; completion_count := 0;
     d_expected_completion_count := expected_completion_count shape;
     saw_error := false; response_started := false |}.

Definition expects_ready (d : BackendResponseDrain) : bool :=
  (0 <? d_expected_ready_count d)%nat.

Definition flush_cycle_complete (d : BackendResponseDrain) : bool :=
  saw_error d || (d_expected_completion_count d <=? completion_count d)%nat.

Inductive ResponseDrainEvent :=
| DrainFrames (ready : option ReadyStatus) (started : bool)
| DrainBufferLimitExceeded
| DrainNeedMoreBytes.

(** A forwarded frame: its rebuilt five-byte header and its payload. *)
Abbreviation forwarded := (bytes * bytes)%type.

(** The body of the loop of [drain_with] for one frame: [None] when the
    frame answers a Parse the proxy injected and is swallowed. *)
Definition drain_frame (d : BackendResponseDrain) (f : BackendFrame)
  : BackendResponseDrain * option forwarded :=
  if (0 <? injected_parse_completes d)%nat && (btag f =? backend_byte ParseComplete) then
    ({| injected_parse_completes := pred (injected_parse_completes d);
        ready_count := ready_count d; d_expected_ready_count := d_expected_ready_count d;
        completion_count := completion_count d;
        d_expected_completion_count := d_expected_completion_count d;
        saw_error := saw_error d; response_started := response_started d |}, None)
  else
    ({| injected_parse_completes := injected_parse_completes d;
        ready_count :=
          match ready_status f with Some _ => S (ready_count d) | None => ready_count d end;
        d_expected_ready_count := d_expected_ready_count d;
        completion_count :=
          if is_backend_cycle_completion (btag f)
          then S (completion_count d) else completion_count d;
        d_expected_completion_count := d_expected_completion_count d;
        saw_error := saw_error d || (btag f =? backend_byte ErrorResponse);
        response_started := true |},
     Some (btag f :: put_i32 (wrap_i 32 (len (bpayload f) + 4)), bpayload f)).

(** The loop of [drain_with] with [on_frame] always succeeding: drain,
    remaining buffer, forwarded frames, last ready status seen. *)
Fixpoint drain_loop (fuel : nat) (d : BackendResponseDrain) (buffer : bytes)
  (fwd : list forwarded) (ready : option ReadyStatus)
  : option (result WireError
              (BackendResponseDrain * bytes * list forwarded * option ReadyStatus)) :=
  match fuel with
  | O => None
  | S fuel =>
      match parse_backend_frame buffer with
      | Ok (None, rest) => Some (Ok (d, rest, fwd, ready))
      | Ok (Some f, rest) =>
          match drain_frame d f with
          | (d', None) => drain_loop fuel d' rest fwd ready
          | (d', Some out) =>
              drain_loop fuel d' rest (fwd ++ [out])
                (match ready_status f with Some s => Some s | None => ready end)
          end
      | Err e => Some (Err e)
      | Panic => Some Panic
      end
  end.

(** [drain_with_limit] / [drain]. *)
Definition drain_with_limit (d : BackendResponseDrain) (buffer : bytes)
  (max_backend_buffer_bytes : Z)
  : result WireError (ResponseDrainEvent * BackendResponseDrain * bytes * list forwarded) :=
  if max_backend_buffer_bytes <? len buffer
  then Ok (DrainBufferLimitExceeded, d, buffer, [])
  else
    '(d', rest, fwd, ready) ← default Panic (drain_loop (S (length buffer)) d buffer [] None);
    let event :=
      if bool_decide (is_Some ready) && (d_expected_ready_count d' <=? ready_count d')%nat
      then DrainFrames ready (response_started d')
      else if bool_decide (fwd = []) then DrainNeedMoreBytes
      else DrainFrames None (response_started d') in
    Ok (event, d', rest, fwd).

(** The bytes written to the client for the forwarded frames
    ([drain_backend_response_bytes]). *)
Definition forwarded_bytes (fwd : list forwarded) : bytes := fwd ≫= fun '(h, p) => h ++ p.

Inductive BackendBytesDrainEvent :=
| DrainedBytes (bs : bytes) (ready : option ReadyStatus)
| DrainedLimitExceeded
| DrainedNeedMoreBytes.

(** [drain_backend_response_bytes]. *)
Definition drain_backend_response_bytes (buffer : bytes) (d : BackendResponseDrain)
  (max_backend_buffer_bytes : Z)
  : result WireError (BackendBytesDrainEvent * BackendResponseDrain * bytes) :=
  '(event, d', rest, fwd) ← drain_with_limit d buffer max_backend_buffer_bytes;
  Ok (match event with
      | DrainFrames ready _ => DrainedBytes (forwarded_bytes fwd) ready
      | DrainBufferLimitExceeded => DrainedLimitExceeded
      | DrainNeedMoreBytes => DrainedNeedMoreBytes
      end, d', rest).

(** How the forwarding loop can end. [Blocked] is not a result of the code:
    it says the loop is waiting for a read that the given chunks do not hold. *)
Inductive ForwardEnd :=
| ForwardReady (status : ReadyStatus)
| ForwardFlushed
| ForwardClosed
| ForwardLimit
| ForwardWire (e : WireError)
| ForwardPanic
| Blocked.

(** The loop of [forward_backend_until_cycle_complete], driven by the reads
    of the backend socket ([chunks]; an empty read is a closed connection),
    with the bytes written to the client. *)
Fixpoint forward_loop (chunks : list bytes) (buffer : bytes) (d : BackendResponseDrain)
  (max : Z) (written : bytes) : ForwardEnd * bytes :=
  match chunks with
  | [] => (Blocked, written)
  | [] :: _ => (ForwardClosed, written)
  | c :: chunks =>
      match drain_backend_response_bytes (buffer ++ c) d max with
      | Err e => (ForwardWire e, written)
      | Panic => (ForwardPanic, written)
      | Ok (DrainedBytes bs (Some status), _, _) => (ForwardReady status, written ++ bs)
      | Ok (DrainedBytes bs None, d', rest) =>
          if negb (expects_ready d') && flush_cycle_complete d'
          then (ForwardFlushed, written ++ bs)
          else forward_loop chunks rest d' max (written ++ bs)
      | Ok (DrainedLimitExceeded, _, _) => (ForwardLimit, written)
      | Ok (DrainedNeedMoreBytes, d', rest) => forward_loop chunks rest d' max written
      end
  end.

(** [forward_backend_until_cycle_complete]. *)
Definition forward_backend_until_cycle_complete (chunks : list bytes)
  (d : BackendResponseDrain) (max : Z) : ForwardEnd * bytes :=
  if negb (expects_ready d) && flush_cycle_complete d then (ForwardFlushed, [])
  else forward_loop chunks [] d max [].

(** ** The drain as a function of the frames *)

Section DrainFacts.
(** [drain_frame] folded over frames. *)
Fixpoint drain_frames (d : BackendResponseDrain) (fs : list BackendFrame)
  : BackendResponseDrain * list forwarded :=
  match fs with
  | [] => (d, [])
  | f :: fs =>
      let '(d1, out) := drain_frame d f in
      let '(d2, outs) := drain_frames d1 fs in
      (d2, match out with Some o => o :: outs | None => outs end)
  end.

(** The last ready status among [fs]. *)
Fixpoint last_ready (rdy : option ReadyStatus) (fs : list BackendFrame)
  : option ReadyStatus :=
  match fs with
  | [] => rdy
  | f :: fs => last_ready (match ready_status f with Some s => Some s | None => rdy end) fs
  end.

(** What the client is owed: the frames without the first [k] answers to
    injected Parse messages. *)
Fixpoint swallow (k : nat) (fs : list BackendFrame) : list BackendFrame :=
  match k, fs with
  | S k', f :: fs' =>
      if btag f =? backend_byte ParseComplete then swallow k' fs' else f :: swallow k fs'
  | _, _ => fs
  end.

Lemma swallow_0 fs : swallow 0 fs = fs.
Proof. by destruct fs. Qed.

Lemma ready_status_tag f s : ready_status f = Some s -> btag f = backend_byte ReadyForQuery.
Proof.
  unfold ready_status. destruct (Z.eqb_spec (btag f) (backend_byte ReadyForQuery)); done.
Qed.

Lemma drain_loop_frames fuel buffer fs rest d fwd rdy :
  parse_backend_frames fuel buffer = Some (Ok (fs, rest)) ->
  drain_loop fuel d buffer fwd rdy
  = Some (Ok (fst (drain_frames d fs), rest, fwd ++ snd (drain_frames d fs),
              last_ready rdy fs)).
Proof.
  revert buffer fs d fwd rdy.
  induction fuel as [|fuel IH]; intros buffer fs d fwd rdy H; [done|].
  cbn [parse_backend_frames drain_loop] in *.
  destruct (parse_backend_frame buffer) as [[[f|] r]|e|]; [|simplify_eq..].
  - destruct (parse_backend_frames fuel r) as [[[fs' r']| |]|] eqn:Hr; simplify_eq.
    cbn [drain_frames last_ready]. destruct (drain_frame d f) as [d1 [o|]] eqn:Hd.
    + rewrite (IH _ _ _ _ _ Hr). destruct (drain_frames d1 fs') as [d2 outs].
      cbn. by rewrite <- app_assoc.
    + assert (ready_status f = None) as ->.
      { unfold drain_frame in Hd. destruct (_ && _) eqn:Hc; [|done].
        destruct (ready_status f) eqn:Hs; [|done]. apply ready_status_tag in Hs.
        apply andb_true_iff in Hc as [_ Hc]. apply Z.eqb_eq in Hc. rewrite Hc in Hs. discriminate. }
      rewrite (IH _ _ _ _ _ Hr). by destruct (drain_frames d1 fs').
  - cbn. by rewrite app_nil_r.
Qed.

(** The forwarded bytes are the encoding of the frames the client is owed. *)
Lemma drain_frames_forwarded d fs :
  forwarded_bytes (snd (drain_frames d fs))
  = encode_frames (swallow (injected_parse_completes d) fs).
Proof.
  revert d. induction fs as [|f fs IH]; intros d;
    [by destruct (injected_parse_completes d)|].
  cbn [drain_frames]. destruct (drain_frame d f) as [d1 out] eqn:Hd.
  specialize (IH d1). destruct (drain_frames d1 fs) as [d2 outs].
  unfold drain_frame in Hd. cbn [snd] in *.
  destruct (injected_parse_completes d) as [|k] eqn:Hk; cbn [Nat.ltb Nat.leb andb] in Hd.
  - injection Hd as <- <-. cbn [injected_parse_completes] in IH.
    rewrite swallow_0 in *. unfold forwarded_bytes in *. cbn.
    rewrite IH. done.
  - cbn [swallow]. destruct (btag f =? backend_byte ParseComplete).
    + injection Hd as <- <-. cbn in *. done.
    + injection Hd as <- <-. cbn [injected_parse_completes] in IH.
      unfold forwarded_bytes in *. cbn. rewrite IH. done.
Qed.

Definition is_ready (f : BackendFrame) : bool := bool_decide (is_Some (ready_status f)).

Lemma drain_frames_ready_count d fs :
  ready_count (fst (drain_frames d fs)) = (ready_count d + count_if is_ready fs)%nat.
Proof.
  revert d. induction fs as [|f fs IH]; intros d; [cbn; lia|].
  cbn [drain_frames]. destruct (drain_frame d f) as [d1 out] eqn:Hd.
  specialize (IH d1). destruct (drain_frames d1 fs) as [d2 outs]. cbn [fst] in *.
  rewrite IH. unfold drain_frame, count_if, is_ready in *. cbn [List.filter].
  destruct ((0 <? injected_parse_completes d)%nat && _) eqn:Hc; injection Hd as <- <-.
  - apply andb_true_iff in Hc as [_ Hc]. apply Z.eqb_eq in Hc.
    rewrite bool_decide_false; [cbn; done|]. intros [s Hs].
    apply ready_status_tag in Hs. rewrite Hc in Hs. discriminate.
  - cbn. destruct (ready_status f) as [s|].
    + rewrite bool_decide_true by eauto. cbn. lia.
    + rewrite bool_decide_false by (intros [? ?]; done). lia.
Qed.

Lemma drain_frames_expected d fs :
  d_expected_ready_count (fst (drain_frames d fs)) = d_expected_ready_count d.
Proof.
  revert d. induction fs as [|f fs IH]; intros d; [done|].
  cbn [drain_frames]. destruct (drain_frame d f) as [d1 out] eqn:Hd.
  specialize (IH d1). destruct (drain_frames d1 fs). cbn [fst] in *. rewrite IH.
  unfold drain_frame in Hd. destruct (_ && _); injection Hd as <- <-; done.
Qed.

Lemma drain_frames_injected d fs gs :
  swallow (injected_parse_completes d) (fs ++ gs)
  = swallow (injected_parse_completes d) fs
    ++ swallow (injected_parse_completes (fst (drain_frames d fs))) gs.
Proof.
  revert d. induction fs as [|f fs IH]; intros d;
    [cbn [drain_frames fst app]; by destruct (injected_parse_completes d)|].
  cbn [drain_frames app]. destruct (drain_frame d f) as [d1 out] eqn:Hd.
  specialize (IH d1). destruct (drain_frames d1 fs) as [d2 outs]. cbn [fst] in *.
  unfold drain_frame in Hd.
  destruct (injected_parse_completes d) as [|k] eqn:Hk; cbn [Nat.ltb Nat.leb andb] in Hd.
  - injection Hd as <- <-. cbn [injected_parse_completes] in IH.
    rewrite !swallow_0 in *. cbn. by rewrite <- IH.
  - cbn [swallow]. destruct (btag f =? backend_byte ParseComplete);
      injection Hd as <- <-; cbn [injected_parse_completes pred] in IH; [done|].
    cbn. by rewrite <- IH.
Qed.
End DrainFacts.

(** ** Segmentation of the backend stream *)

Section SegmentationFacts.
(** A strict prefix of an encoded backend frame is not a frame. *)
Lemma backend_prefix_waits f p q :
  frame_fits f -> p ++ q = encode_backend_frame f -> q <> [] ->
  parse_backend_frame p = Ok (None, p).
Proof.
  destruct f as [t pl]. unfold frame_fits, fits_frame. cbn [bpayload].
  intros Hfit Heq Hq. pose proof (len_nonneg pl).
  unfold encode_backend_frame, encode_backend_message_raw in Heq. cbn [btag bpayload] in Heq.
  rewrite wrap_i_id in Heq by (unfold i_range; lia).
  destruct (put_i32_spec (len pl + 4)) as (a & b & c & d & Hput & Hrt);
    [unfold i_range; lia|]. rewrite Hput in Heq. cbn [app] in Heq.
  do 5 (destruct p as [|? p]; [done|]). cbn [app] in Heq. simplify_eq.
  unfold parse_backend_frame. rewrite Hrt. rewrite (proj2 (Z.ltb_ge _ _)) by lia.
  assert (length p < length (p ++ q))%nat.
  { rewrite length_app. destruct q; [done|]. cbn. lia. }
  rewrite (proj2 (Z.ltb_lt _ _)); [done|]. unfold len in *. cbn [length]. lia.
Qed.

(** Cut an encoded stream anywhere: the part before the cut is a number of
    whole frames and an incomplete one. *)
Lemma cut_stream rem p q :
  Forall frame_fits rem -> p ++ q = encode_frames rem ->
  exists rem1 rem2 r, rem = rem1 ++ rem2 /\ p = encode_frames rem1 ++ r /\
    r ++ q = encode_frames rem2 /\ parse_backend_frame r = Ok (None, r) /\
    (q = [] -> rem2 = []).
Proof.
  intros Hfit. revert p q. induction Hfit as [|f rem Hf Hfit IH]; intros p q Heq.
  { apply app_nil in Heq as [-> ->]. by exists [], [], []. }
  rewrite encode_frames_cons in Heq.
  destruct (decide (length (encode_backend_frame f) <= length p)%nat) as [Hle|Hlt].
  - assert (p = encode_backend_frame f ++ drop (length (encode_backend_frame f)) p) as Hp.
    { rewrite <- (take_drop (length (encode_backend_frame f)) p) at 1. f_equal.
      apply (f_equal (take (length (encode_backend_frame f)))) in Heq.
      by rewrite take_app_le, take_app_length in Heq. }
    rewrite Hp, <- app_assoc in Heq. apply app_inv_head in Heq.
    destruct (IH _ _ Heq) as (rem1 & rem2 & r & -> & Hd & Hr & Hw & Hn).
    exists (f :: rem1), rem2, r. rewrite Hp, Hd, encode_frames_cons, <- app_assoc. done.
  - exists [], (f :: rem), p. split_and!; [done|done|done| |].
    + eapply (backend_prefix_waits f p (drop (length p) (encode_backend_frame f))); [done| |].
      * apply (f_equal (take (length p))) in Heq.
        rewrite take_app_length, take_app_le in Heq by lia.
        by rewrite Heq at 1; rewrite take_drop.
      * intros Hd. apply (f_equal length) in Hd. rewrite length_drop in Hd.
        change (length []) with 0%nat in Hd. lia.
    + intros ->. rewrite app_nil_r in Heq. subst p.
      rewrite length_app in Hlt. lia.
Qed.

(** Draining a buffer that holds whole frames and an incomplete one. *)
Lemma drain_stream d fs r max :
  Forall frame_fits fs -> parse_backend_frame r = Ok (None, r) ->
  len (encode_frames fs ++ r) <= max ->
  drain_with_limit d (encode_frames fs ++ r) max
  = Ok (if bool_decide (is_Some (last_ready None fs))
           && (d_expected_ready_count d <=? ready_count d + count_if is_ready fs)%nat
        then DrainFrames (last_ready None fs) (response_started (fst (drain_frames d fs)))
        else if bool_decide (snd (drain_frames d fs) = []) then DrainNeedMoreBytes
        else DrainFrames None (response_started (fst (drain_frames d fs))),
        fst (drain_frames d fs), r, snd (drain_frames d fs)).
Proof.
  intros Hfs Hr Hmax. unfold drain_with_limit. rewrite (proj2 (Z.ltb_ge _ _)) by done.
  assert (Hp : parse_backend_frames (S (length (encode_frames fs ++ r)))
                 (encode_frames fs ++ r) = Some (Ok (fs, r))).
  { apply parse_backend_frames_encode; [done| |done]. rewrite length_app.
    enough (length fs <= length (encode_frames fs))%nat by lia.
    clear. induction fs as [|f fs IH]; [done|]. rewrite encode_frames_cons, length_app.
    cbn [length] in *. unfold encode_backend_frame at 1, encode_backend_message_raw.
    cbn [length]. lia. }
  rewrite (drain_loop_frames _ _ _ _ d [] None Hp). unfold id. cbn [default mbind result_bind app].
  by rewrite drain_frames_expected, drain_frames_ready_count.
Qed.

Lemma count_if_app {A} (p : A -> bool) l k :
  count_if p (l ++ k) = (count_if p l + count_if p k)%nat.
Proof. unfold count_if. by rewrite List.filter_app, length_app. Qed.

Lemma last_ready_snoc rdy fs f s :
  ready_status f = Some s -> last_ready rdy (fs ++ [f]) = Some s.
Proof.
  intros Hs. revert rdy. induction fs as [|g fs IH]; intros rdy; cbn; [by rewrite Hs|].
  apply IH.
Qed.

(** The forwarding loop on any cutting of a complete response into
    non-empty reads: [f] is the last frame, a ReadyForQuery, and the ready
    frames still to come are exactly the ones still expected. *)
(** A buffer that holds all the frames holds one to take. *)
Lemma encoded_frames_parse rem f :
  Forall frame_fits (rem ++ [f]) ->
  parse_backend_frame (encode_frames (rem ++ [f])) <> Ok (None, encode_frames (rem ++ [f])).
Proof.
  intros Hfit Hb.
  assert (exists g gs, rem ++ [f] = g :: gs) as (g & gs & Hg) by (destruct rem; cbn; eauto).
  rewrite Hg, encode_frames_cons in Hb.
  rewrite Hg in Hfit. inversion Hfit; subst. destruct g as [t p].
  unfold encode_backend_frame in Hb. cbn [btag bpayload] in Hb.
  rewrite parse_backend_frame_spec in Hb by done. done.
Qed.

Lemma forward_loop_segments chunks rem f s buffer d max written :
  Forall frame_fits (rem ++ [f]) -> ready_status f = Some s ->
  Forall (fun c => c <> []) chunks ->
  buffer ++ mjoin chunks = encode_frames (rem ++ [f]) ->
  parse_backend_frame buffer = Ok (None, buffer) ->
  (ready_count d + S (count_if is_ready rem) = d_expected_ready_count d)%nat ->
  len (encode_frames (rem ++ [f])) <= max ->
  forward_loop chunks buffer d max written
  = (ForwardReady s,
     written ++ encode_frames (swallow (injected_parse_completes d) (rem ++ [f]))).
Proof.
  intros Hfit Hs Hne. revert rem buffer d written Hfit.
  induction Hne as [|c chunks Hc Hne IH];
    intros rem buffer d written Hfit Heq Hb Hcnt Hmax.
  { exfalso. cbn in Heq. rewrite app_nil_r in Heq. subst buffer.
    by apply (encoded_frames_parse rem f). }
  change (mjoin (c :: chunks)) with (c ++ mjoin chunks) in Heq.
  rewrite app_assoc in Heq.
  destruct (cut_stream _ _ _ Hfit Heq) as (rem1 & rem2 & r & Hrem & Hbuf & Hr & Hw & Hlast).
  cbn [forward_loop]. destruct c as [|c0 c]; [done|].
  unfold drain_backend_response_bytes. rewrite Hbuf.
  assert (Hfit1 : Forall frame_fits rem1) by (rewrite Hrem in Hfit; by apply Forall_app in Hfit as [? _]).
  assert (Hmax1 : len (encode_frames rem1 ++ r) <= max).
  { rewrite <- Hbuf. apply (f_equal len) in Heq. rewrite len_app in Heq.
    pose proof (len_nonneg (mjoin chunks)). lia. }
  rewrite drain_stream by done.
  destruct rem2 as [|g gs _] using rev_ind.
  - (* the whole response has been read *)
    rewrite app_nil_r in Hrem. subst rem1.
    rewrite (last_ready_snoc None rem f s Hs), bool_decide_true by eauto.
    rewrite count_if_app. replace (count_if is_ready [f]) with 1%nat
      by (unfold count_if, is_ready; cbn; rewrite Hs; done).
    rewrite (proj2 (Nat.leb_le _ _)) by lia.
    cbn. by rewrite drain_frames_forwarded.
  - (* frames are missing: the cycle cannot be complete *)
    rewrite app_assoc in Hrem. apply app_inj_tail in Hrem as [-> ->].
    rewrite !count_if_app in Hcnt.
    rewrite (proj2 (Nat.leb_gt _ _)), andb_false_r by lia.
    assert (Hstep : forall w, forward_loop chunks r (fst (drain_frames d rem1)) max w
      = (ForwardReady s, w ++ encode_frames
           (swallow (injected_parse_completes (fst (drain_frames d rem1))) (gs ++ [g])))).
    { intros w. apply IH; try done.
      - rewrite <- app_assoc in Hfit. by apply Forall_app in Hfit as [_ Hfit].
      - rewrite drain_frames_ready_count, drain_frames_expected. lia.
      - rewrite <- app_assoc, encode_frames_app, len_app in Hmax.
        pose proof (len_nonneg (encode_frames rem1)). lia. }
    rewrite <- app_assoc, drain_frames_injected, encode_frames_app.
    case_bool_decide as Hnil.
    + cbn. rewrite Hstep. pose proof (drain_frames_forwarded d rem1) as Hfw.
      rewrite Hnil in Hfw. cbn in Hfw. by rewrite <- Hfw.
    + cbn [mbind result_bind].
      assert (expects_ready (fst (drain_frames d rem1)) = true) as ->.
      { unfold expects_ready. rewrite drain_frames_expected. apply Nat.ltb_lt. lia. }
      cbn [negb andb]. rewrite Hstep, drain_frames_forwarded, <- app_assoc. done.
Qed.
End SegmentationFacts.

(** ** Cutting the client's stream *)

Section CycleFacts.
Definition encode_frontend (fs : list FrontendFrame) : bytes := fs ≫= encode_frontend_frame.

Lemma encode_frontend_cons f fs :
  encode_frontend (f :: fs) = encode_frontend_frame f ++ encode_frontend fs.
Proof. done. Qed.

Definition frontend_fits (f : FrontendFrame) : Prop := fits_frame (payload f).

(** The length pre-check and the decoder agree on every buffer. *)
Lemma complete_len_spec bs :
  match complete_frontend_frame_len bs with
  | Ok (Some n) => exists f, parse_frontend_frame bs = Ok (Some f, drop n bs) /\
                    (5 <= n <= length bs)%nat /\ head bs = Some (tag f)
  | Ok None => parse_frontend_frame bs = Ok (None, bs)
  | Err e => parse_frontend_frame bs = Err e
  | Panic => False
  end.
Proof.
  unfold complete_frontend_frame_len, parse_frontend_frame.
  unfold FRAME_LENGTH_PREFIX_LEN, FRAME_HEADER_LEN.
  do 5 (destruct bs as [|? bs]; [done|]).
  destruct (Z.ltb_spec (i32_from_be_bytes z0 z1 z2 z3) 4); cbn [mbind result_bind]; [done|].
  set (n := i32_from_be_bytes z0 z1 z2 z3) in *.
  destruct (Z.leb_spec (1 + n) (len (z :: z0 :: z1 :: z2 :: z3 :: bs))) as [Hle|Hgt].
  - rewrite (proj2 (Z.ltb_ge _ _)) by lia. eexists. split.
    + do 2 f_equal. replace (Z.to_nat (1 + n)) with (5 + Z.to_nat (n - 4))%nat by lia. done.
    + unfold len in Hle. split; [lia|done].
  - rewrite (proj2 (Z.ltb_lt _ _)) by lia. done.
Qed.

Lemma complete_len_no_panic bs : complete_frontend_frame_len bs <> Panic.
Proof. pose proof (complete_len_spec bs) as H. by intros E; rewrite E in H. Qed.

Lemma complete_len_encode f rest :
  frontend_fits f ->
  complete_frontend_frame_len (encode_frontend_frame f ++ rest)
  = Ok (Some (length (encode_frontend_frame f))).
Proof.
  intros Hf. pose proof (complete_len_spec (encode_frontend_frame f ++ rest)) as H.
  rewrite (parse_encode_frame f rest Hf) in H.
  destruct (complete_frontend_frame_len _) as [[n|]|e|]; [|done..].
  destruct H as (g & Hg & Hn & _).
  assert (Hd : rest = drop n (encode_frontend_frame f ++ rest)) by congruence.
  apply (f_equal length) in Hd. rewrite length_drop, length_app in Hd.
  rewrite length_app in Hn. do 2 f_equal. lia.
Qed.

Lemma query_walk_total fuel buffer n :
  (length buffer < n + fuel)%nat -> (n <= length buffer)%nat ->
  match query_walk fuel buffer n with
  | None | Some Panic => False
  | Some (Ok m) => (n <= m <= length buffer)%nat
  | Some (Err _) => True
  end.
Proof.
  revert n. induction fuel as [|fuel IH]; intros n Hf Hn; [lia|].
  cbn [query_walk]. pose proof (complete_len_spec (drop n buffer)) as H.
  destruct (complete_frontend_frame_len _) as [[k|]|e|]; [|done..].
  destruct H as (g & _ & Hk & _). rewrite length_drop in Hk.
  case_bool_decide; [|done].
  specialize (IH (n + k)%nat). destruct (query_walk fuel buffer _) as [[m|?|]|]; try done;
    first [lia | apply IH; lia | (enough (n + k <= m <= length buffer)%nat by lia; apply IH; lia)].
Qed.

Lemma extended_walk_total fuel buffer n t :
  (length buffer < n + fuel)%nat -> (n <= length buffer)%nat ->
  match extended_walk fuel buffer n t with
  | None | Some Panic => False
  | Some (Ok (Some m)) => (n <= m <= length buffer)%nat
  | Some _ => True
  end.
Proof.
  revert n t. induction fuel as [|fuel IH]; intros n t Hf Hn; [lia|].
  cbn [extended_walk]. destruct (is_extended_cycle_boundary t); [done|].
  pose proof (complete_len_spec (drop n buffer)) as H.
  destruct (complete_frontend_frame_len _) as [[k|]|e|]; [|done..].
  destruct H as (g & _ & Hk & Hh). rewrite length_drop in Hk.
  destruct (drop n buffer) as [|t' l]; [done|].
  specialize (IH (n + k)%nat t'). destruct (extended_walk fuel buffer _ _) as [[[m|]|?|]|];
    try done; first [apply IH; lia | (enough (n + k <= m <= length buffer)%nat by lia; apply IH; lia)].
Qed.

Lemma parse_frontend_frames_total fuel buffer :
  (length buffer < fuel)%nat ->
  match parse_frontend_frames fuel buffer with
  | None | Some Panic => False
  | _ => True
  end.
Proof.
  revert buffer. induction fuel as [|fuel IH]; intros buffer Hf; [lia|].
  cbn [parse_frontend_frames]. pose proof (complete_len_spec buffer) as H.
  destruct (complete_frontend_frame_len buffer) as [[n|]|e|]; [| by rewrite H.. |done].
  destruct H as (f & -> & Hn & _). specialize (IH (drop n buffer)).
  rewrite length_drop in IH.
  destruct (parse_frontend_frames fuel _) as [[?|?|]|]; try done; apply IH; lia.
Qed.

Lemma complete_len_take bs n k :
  complete_frontend_frame_len bs = Ok (Some n) -> (n <= k)%nat ->
  complete_frontend_frame_len (take k bs) = Ok (Some n).
Proof.
  intros H Hk. pose proof (complete_len_spec bs) as Hs. rewrite H in Hs.
  destruct Hs as (_ & _ & Hn & _). unfold complete_frontend_frame_len in *.
  do 5 (destruct bs as [|? bs]; [done|]). do 5 (destruct k as [|k]; [lia|]).
  cbn [take]. destruct (Z.ltb_spec (i32_from_be_bytes z0 z1 z2 z3) 4) as [|Hl].
  { destruct (parse_frontend_frame _) as [?| |]; cbn in H; done. }
  case_match eqn:Hle; [|done]. injection H as <-. apply Z.leb_le in Hle.
  rewrite (proj2 (Z.leb_le _ _)); [done|].
  unfold len in *. cbn [length] in *. rewrite length_take. lia.
Qed.

(** Splitting off a cycle that starts with a whole frame. *)
Lemma finish_cycle_total buffer n k :
  complete_frontend_frame_len buffer = Ok (Some n) -> (n <= k)%nat ->
  match finish_cycle buffer k with
  | Ok (CycleComplete bs shape, rest) =>
      bs = take k buffer /\ rest = drop k buffer /\ from_wire_bytes bs = Ok (Some shape)
  | Ok _ | Panic => False
  | Err _ => True
  end.
Proof.
  intros H Hk. unfold finish_cycle.
  pose proof (parse_frontend_frames_total (S (length (take k buffer))) (take k buffer)
                ltac:(lia)) as Hp.
  pose proof (complete_len_spec (take k buffer)) as Hs.
  rewrite (complete_len_take _ _ _ H Hk) in Hs. destruct Hs as (f & Hf & _).
  unfold from_wire_bytes, parse_frontend_cycle_frames in *.
  cbn [parse_frontend_frames] in *. rewrite Hf in *.
  destruct (parse_frontend_frames _ (drop n _)) as [[fs|e|]|] eqn:E; try done.
  cbn. rewrite Hf, E. done.
Qed.

Lemma parse_frontend_frames_encode fs fuel :
  Forall frontend_fits fs -> (length fs < fuel)%nat ->
  parse_frontend_frames fuel (encode_frontend fs) = Some (Ok fs).
Proof.
  intros Hfs. revert fuel. induction Hfs as [|f fs Hf Hfs IH]; intros [|fuel] Hl;
    cbn [length] in Hl; try lia; [done|].
  cbn [parse_frontend_frames]. rewrite encode_frontend_cons, parse_encode_frame by done.
  rewrite IH by lia. done.
Qed.

Lemma length_encode_frontend fs : (length fs <= length (encode_frontend fs))%nat.
Proof.
  induction fs as [|f fs IH]; [done|]. rewrite encode_frontend_cons, length_app.
  unfold encode_frontend_frame. cbn [length]. lia.
Qed.

(** Splitting off an encoded, non-empty list of frames. *)
Lemma finish_cycle_encode fs rest :
  Forall frontend_fits fs -> fs <> [] ->
  finish_cycle (encode_frontend fs ++ rest) (length (encode_frontend fs))
  = Ok (CycleComplete (encode_frontend fs) (from_frames fs), rest).
Proof.
  intros Hfs Hne. unfold finish_cycle, from_wire_bytes, parse_frontend_cycle_frames.
  rewrite take_app_length, drop_app_length, parse_frontend_frames_encode;
    [|done|pose proof (length_encode_frontend fs); lia].
  by destruct fs.
Qed.

Lemma drop_encoded (a b : bytes) : drop (length a) (a ++ b) = b.
Proof. apply drop_app_length. Qed.

Lemma head_encode f rest : head (encode_frontend_frame f ++ rest) = Some (tag f).
Proof. done. Qed.

(** The walk over Query frames passes exactly the run of Query frames. *)
Lemma query_walk_run qs pre rest fuel :
  Forall frontend_fits qs -> Forall (fun f => tag f = frontend_byte Query) qs ->
  (length qs < fuel)%nat ->
  match complete_frontend_frame_len rest with
  | Ok (Some _) => head rest <> Some (frontend_byte Query)
  | Ok None => True
  | _ => False
  end ->
  query_walk fuel (pre ++ encode_frontend qs ++ rest) (length pre)
  = Some (Ok (length (pre ++ encode_frontend qs))).
Proof.
  intros Hfit Hq. revert pre fuel. induction Hfit as [|f qs Hf Hfit IH]; intros pre fuel Hl Hrest;
    (destruct fuel as [|fuel]; [lia|]); cbn [query_walk]; rewrite drop_encoded.
  - rewrite app_nil_r. cbn [app]. change (encode_frontend [] ++ rest) with rest.
    destruct (complete_frontend_frame_len rest) as [[k|]|e|]; try done.
    by rewrite bool_decide_false.
  - inversion Hq; subst. rewrite encode_frontend_cons, <- app_assoc.
    rewrite complete_len_encode, head_encode by done.
    rewrite bool_decide_true by congruence.
    rewrite app_assoc, <- length_app, IH by (done || (cbn [length] in Hl; lia)).
    by rewrite <- app_assoc.
Qed.

Lemma extended_walk_step fuel buffer n t f tl :
  drop n buffer = encode_frontend_frame f ++ tl -> frontend_fits f ->
  is_extended_cycle_boundary t = false ->
  extended_walk (S fuel) buffer n t
  = extended_walk fuel buffer (n + length (encode_frontend_frame f)) (tag f).
Proof.
  intros Hd Hf Ht. cbn [extended_walk]. rewrite Ht, Hd, complete_len_encode by done. done.
Qed.

(** The walk over extended messages stops after the first boundary. *)
Lemma extended_walk_run xs b pre rest fuel t :
  Forall frontend_fits (xs ++ [b]) ->
  Forall (fun f => is_extended_cycle_boundary (tag f) = false) xs ->
  is_extended_cycle_boundary (tag b) = true ->
  (S (length xs) < fuel)%nat -> is_extended_cycle_boundary t = false ->
  extended_walk fuel (pre ++ encode_frontend (xs ++ [b]) ++ rest) (length pre) t
  = Some (Ok (Some (length (pre ++ encode_frontend (xs ++ [b]))))).
Proof.
  intros Hfit Hx Hb. revert pre fuel t Hfit.
  induction Hx as [|f xs Hf Hx IH]; intros pre fuel t Hfit Hl Ht;
    (destruct fuel as [|fuel]; [lia|]); cbn [app length] in *; inversion Hfit; subst;
    rewrite encode_frontend_cons, <- app_assoc;
    (erewrite extended_walk_step; [|apply drop_encoded|done|done]).
  - destruct fuel as [|fuel]; [lia|]. cbn [extended_walk]. rewrite Hb.
    do 3 f_equal. rewrite app_nil_r, length_app. done.
  - rewrite (app_assoc pre), <- length_app.
    rewrite (IH (pre ++ encode_frontend_frame f) fuel (tag f)) by (done || lia).
    by rewrite <- app_assoc.
Qed.

(** The first frame starts an extended batch. *)
Definition opens_extended (xs : list FrontendFrame) : Prop :=
  match xs with
  | x :: _ => tag x <> frontend_byte Terminate /\ tag x <> frontend_byte Query
  | [] => False
  end.

(** Exactly the last frame is a Sync or Flush. *)
Definition closed_batch (xs : list FrontendFrame) : Prop :=
  exists ys b, xs = ys ++ [b] /\ is_extended_cycle_boundary (tag b) = true /\
    Forall (fun f => is_extended_cycle_boundary (tag f) = false) ys.

(** The run of queries ends here: no whole frame, or not a Query. *)
Definition ends_query_run (rest : bytes) : Prop :=
  match complete_frontend_frame_len rest with
  | Ok (Some _) => head rest <> Some (frontend_byte Query)
  | Ok None => True
  | _ => False
  end.

(** The entry of [take_frontend_cycle_bytes] on a first whole frame. *)
Lemma take_cycle_entry x tl max :
  frontend_fits x -> len (encode_frontend_frame x ++ tl) <= max ->
  tag x <> frontend_byte Terminate ->
  take_frontend_cycle_bytes (encode_frontend_frame x ++ tl) max
  = let buffer := encode_frontend_frame x ++ tl in
    let first_len := length (encode_frontend_frame x) in
    if tag x =? frontend_byte Query then
      cycle_len ← default Panic (query_walk (S (length buffer)) buffer first_len);
      finish_cycle buffer cycle_len
    else
      walked ← default Panic (extended_walk (S (length buffer)) buffer first_len (tag x));
      match walked with
      | None => Ok (NeedMoreBytes, buffer)
      | Some cycle_len => finish_cycle buffer cycle_len
      end.
Proof.
  intros Hf Hmax Ht. cbv zeta. unfold take_frontend_cycle_bytes.
  rewrite (proj2 (Z.ltb_ge _ _)), complete_len_encode by done.
  cbn [mbind result_bind encode_frontend_frame app].
  by rewrite (proj2 (Z.eqb_neq _ _)).
Qed.

Lemma take_queries xs rest max :
  Forall frontend_fits xs -> len (encode_frontend xs ++ rest) <= max ->
  xs <> [] -> Forall (fun f => tag f = frontend_byte Query) xs -> ends_query_run rest ->
  take_frontend_cycle_bytes (encode_frontend xs ++ rest) max
  = Ok (CycleComplete (encode_frontend xs) (from_frames xs), rest).
Proof.
  intros Hfit Hmax Hne Hq Hr. pose proof (finish_cycle_encode xs rest Hfit Hne) as Hfin.
  pose proof (length_encode_frontend xs) as Hlen.
  destruct xs as [|x xs]; [done|]. inversion Hfit; inversion Hq; subst.
  rewrite encode_frontend_cons, <- app_assoc in *.
  assert (Ht : tag x <> frontend_byte Terminate)
    by (intros E; rewrite E in *; discriminate).
  rewrite take_cycle_entry by done. cbv zeta.
  rewrite (proj2 (Z.eqb_eq _ _)) by done.
  rewrite query_walk_run; [by rewrite <- Hfin|done|done| |done].
  rewrite !length_app in *. cbn [length] in Hlen. lia.
Qed.

Lemma take_extended xs rest max :
  Forall frontend_fits xs -> len (encode_frontend xs ++ rest) <= max ->
  opens_extended xs -> closed_batch xs ->
  take_frontend_cycle_bytes (encode_frontend xs ++ rest) max
  = Ok (CycleComplete (encode_frontend xs) (from_frames xs), rest).
Proof.
  intros Hfit Hmax Ho (ys & b & -> & Hb & Hys).
  pose proof (finish_cycle_encode (ys ++ [b]) rest Hfit ltac:(by destruct ys)) as Hfin.
  pose proof (length_encode_frontend (ys ++ [b])) as Hlen.
  destruct ys as [|x ys]; cbn [app opens_extended] in *; destruct Ho as [Ht Hq];
    inversion Hfit; subst; rewrite encode_frontend_cons, <- app_assoc in *;
    rewrite take_cycle_entry by done; cbv zeta; rewrite (proj2 (Z.eqb_neq _ _)) by done.
  - cbn [extended_walk]. rewrite Hb. cbn [default mbind result_bind].
    rewrite <- Hfin. unfold id. by rewrite app_nil_r.
  - inversion Hys; subst. rewrite extended_walk_run; [by rewrite <- Hfin|done..| |done].
    rewrite !length_app in *. cbn [length] in *. rewrite length_app in Hlen. lia.
Qed.

Lemma extended_walk_waits xs pre fuel t :
  Forall frontend_fits xs ->
  Forall (fun f => is_extended_cycle_boundary (tag f) = false) xs ->
  (length xs < fuel)%nat -> is_extended_cycle_boundary t = false ->
  extended_walk fuel (pre ++ encode_frontend xs) (length pre) t = Some (Ok None).
Proof.
  intros Hfit Hx. revert pre fuel t.
  induction Hfit as [|f xs Hf Hfit IH]; intros pre fuel t Hl Ht;
    (destruct fuel as [|fuel]; [lia|]); cbn [length] in *.
  - cbn [extended_walk]. rewrite Ht, drop_encoded. done.
  - inversion Hx; subst. rewrite encode_frontend_cons.
    erewrite extended_walk_step; [|apply drop_encoded|done|done].
    rewrite app_assoc, <- length_app. apply IH; (done || lia).
Qed.

Lemma take_extended_waits xs rest max :
  Forall frontend_fits xs -> len (encode_frontend xs ++ rest) <= max -> opens_extended xs ->
  Forall (fun f => is_extended_cycle_boundary (tag f) = false) xs ->
  take_frontend_cycle_bytes (encode_frontend xs) max = Ok (NeedMoreBytes, encode_frontend xs).
Proof.
  intros Hfit Hmax Ho Hx. pose proof (length_encode_frontend xs) as Hlen.
  destruct xs as [|x xs]; [done|]. destruct Ho as [Ht Hq]. inversion Hfit; inversion Hx; subst.
  rewrite encode_frontend_cons, !length_app in *. rewrite take_cycle_entry; [|done| |done].
  - cbv zeta. rewrite (proj2 (Z.eqb_neq _ _)) by done.
    rewrite extended_walk_waits; [done|done|done| |done].
    rewrite length_app. cbn [length] in Hlen. lia.
  - rewrite len_app in Hmax. pose proof (len_nonneg rest). lia.
Qed.
End CycleFacts.

(** ** The theorems of the message cycles *)

(** C18. However the network cuts the backend's answer into reads, the client
    receives the same bytes: for an answer that ends in the ReadyForQuery the
    cycle waits for, every cutting into non-empty reads makes the forwarding
    loop end in [ForwardReady] with that frame's status, having written
    exactly the answer's frames less the first [k] ParseComplete frames,
    which answer the Parse messages the proxy injected. *)
Theorem forward_segmentation (shape : FrontendCycleShape) (k : nat) (chunks : list bytes)
  (fs : list BackendFrame) (f : BackendFrame) (s : ReadyStatus) (max : Z) :
  Forall frame_fits (fs ++ [f]) -> ready_status f = Some s ->
  expected_ready_count shape = S (count_if is_ready fs) ->
  Forall (fun c => c <> []) chunks -> mjoin chunks = encode_frames (fs ++ [f]) ->
  len (encode_frames (fs ++ [f])) <= max ->
  forward_backend_until_cycle_complete chunks (for_cycle shape k) max
  = (ForwardReady s, encode_frames (swallow k (fs ++ [f]))).
Proof.
  intros Hfit Hs Hexp Hne Hjoin Hmax. unfold forward_backend_until_cycle_complete, expects_ready.
  cbn [for_cycle d_expected_ready_count]. rewrite Hexp. cbn [Nat.ltb Nat.leb negb andb].
  by rewrite (forward_loop_segments chunks fs f s [] _ max []).
Qed.

Lemma forward_segmentation_witness :
  let fs := [ {| btag := backend_byte ParseComplete; bpayload := [] |};
              {| btag := backend_byte BindComplete; bpayload := [] |} ] in
  let f := {| btag := backend_byte ReadyForQuery; bpayload := [73] |} in
  let bs := encode_frames (fs ++ [f]) in
  forward_backend_until_cycle_complete [take 3 bs; drop 3 (take 11 bs); drop 11 bs]
    (for_cycle {| expected_ready_count := 1; expected_completion_count := 0;
                  needs_sync := true |} 1) 4096
  = (ForwardReady RS_Idle, encode_frames (swallow 1 (fs ++ [f]))).
Proof.
  cbv zeta. apply forward_segmentation;
    [repeat constructor; unfold frame_fits; by_eval|by_eval|by_eval
    |repeat constructor; done|by_eval|by_eval].
Defined.

(** C19. The client's stream is cut at exactly the message boundaries: a
    batch of extended-protocol messages closed by Sync or Flush, and a run of
    simple queries, are taken off the buffer whole, with the shape of their
    frames, and the bytes after them stay; an extended batch without its
    closing message is left in the buffer. *)
Theorem take_cycle_frames (xs : list FrontendFrame) (rest : bytes) (max : Z) :
  Forall frontend_fits xs -> len (encode_frontend xs ++ rest) <= max ->
  (opens_extended xs -> Forall (fun f => is_extended_cycle_boundary (tag f) = false) xs ->
   take_frontend_cycle_bytes (encode_frontend xs) max = Ok (NeedMoreBytes, encode_frontend xs)) /\
  (opens_extended xs -> closed_batch xs ->
   take_frontend_cycle_bytes (encode_frontend xs ++ rest) max
   = Ok (CycleComplete (encode_frontend xs) (from_frames xs), rest)) /\
  (xs <> [] -> Forall (fun f => tag f = frontend_byte Query) xs -> ends_query_run rest ->
   take_frontend_cycle_bytes (encode_frontend xs ++ rest) max
   = Ok (CycleComplete (encode_frontend xs) (from_frames xs), rest)).
Proof.
  intros Hfit Hmax. split_and!; eauto using take_extended, take_extended_waits, take_queries.
Qed.

Lemma take_cycle_frames_witness :
  let parse := build_parse_frame (lit "s1") (lit "select 1") [] in
  let sync := {| tag := frontend_byte Sync; payload := [] |} in
  let q := {| tag := frontend_byte Query; payload := write_cstr (lit "select 1") |} in
  take_frontend_cycle_bytes (encode_frontend [parse]) 4096
  = Ok (NeedMoreBytes, encode_frontend [parse]) /\
  take_frontend_cycle_bytes (encode_frontend [parse; sync] ++ [81; 0]) 4096
  = Ok (CycleComplete (encode_frontend [parse; sync]) (from_frames [parse; sync]), [81; 0]) /\
  take_frontend_cycle_bytes (encode_frontend [q; q] ++ encode_frontend [sync]) 4096
  = Ok (CycleComplete (encode_frontend [q; q]) (from_frames [q; q]), encode_frontend [sync]).
Proof.
  intros parse sync q. split_and!.
  - refine (proj1 (take_cycle_frames [parse] [] 4096 _ _) _ _);
      [repeat constructor; by_eval|by_eval|done|repeat constructor].
  - refine (proj1 (proj2 (take_cycle_frames [parse; sync] _ 4096 _ _)) _ _);
      [repeat constructor; by_eval|by_eval|done|].
    exists [parse], sync. split_and!; [done|done|repeat constructor].
  - refine (proj2 (proj2 (take_cycle_frames [q; q] _ 4096 _ _)) _ _ _);
      [repeat constructor; by_eval|by_eval|done|repeat constructor|done].
Defined.

(** Cutting the client's stream is total and loses nothing: on every
    buffer, whatever bytes it holds, [take_frontend_cycle_bytes] returns or
    reports a wire error (its [expect], [unreachable!] and slice indexings
    never fail and its walks terminate), a cycle or Terminate message it
    returns is a non-empty prefix of the buffer with the rest left in place,
    and in every other case the buffer is untouched; a buffer within the
    limit is never reported as exceeding it. *)
Theorem take_cycle_total (buffer : bytes) (max : Z) :
  match take_frontend_cycle_bytes buffer max with
  | Ok (CycleComplete bs shape, rest) =>
      bs <> [] /\ bs ++ rest = buffer /\ from_wire_bytes bs = Ok (Some shape)
  | Ok (CycleTerminate bs, rest) =>
      bs <> [] /\ bs ++ rest = buffer /\ head bs = Some (frontend_byte Terminate)
  | Ok (NeedMoreBytes, rest) => rest = buffer
  | Ok (BufferLimitExceeded, rest) => rest = buffer /\ max < len buffer
  | Err _ => True
  | Panic => False
  end.
Proof.
  unfold take_frontend_cycle_bytes. destruct (Z.ltb_spec max (len buffer)); [done|].
  pose proof (complete_len_spec buffer) as Hs.
  destruct (complete_frontend_frame_len buffer) as [[n|]|e|] eqn:Hn; cbn [mbind result_bind];
    [|done..].
  destruct Hs as (f & _ & Hlen & Hh). destruct buffer as [|t bs]; [done|].
  destruct (Z.eqb_spec t (frontend_byte Terminate)) as [->|Ht].
  { destruct n as [|n]; [lia|]. split_and!; [done|apply take_drop|done]. }
  assert (Hfin : forall k, (n <= k)%nat ->
    match finish_cycle (t :: bs) k with
    | Ok (CycleComplete b s, r) => b <> [] /\ b ++ r = t :: bs /\ from_wire_bytes b = Ok (Some s)
    | Err _ => True
    | _ => False
    end).
  { intros k Hk. pose proof (finish_cycle_total _ _ _ Hn Hk) as H0.
    destruct (finish_cycle (t :: bs) k) as [[[] r]|?|]; try done.
    destruct H0 as (-> & -> & ?). destruct k as [|k]; [lia|].
    split_and!; [done|apply take_drop|done]. }
  destruct (t =? frontend_byte Query).
  - pose proof (query_walk_total (S (length (t :: bs))) (t :: bs) n ltac:(lia) ltac:(lia)) as Hw.
    destruct (query_walk _ _ _) as [[k|?|]|]; unfold id; cbn [default mbind result_bind]; try done.
    specialize (Hfin k ltac:(lia)). by destruct (finish_cycle _ _) as [[[] ?]|?|].
  - pose proof (extended_walk_total (S (length (t :: bs))) (t :: bs) n t ltac:(lia) ltac:(lia)) as Hw.
    destruct (extended_walk _ _ _ _) as [[[k|]|?|]|]; unfold id; cbn [default mbind result_bind]; try done.
    specialize (Hfin k ltac:(lia)). by destruct (finish_cycle _ _) as [[[] ?]|?|].
Qed.
