(* ===== verification/Lsn.v ===== *)
(** * Lsn: write-ahead-log positions and replica freshness

    Models [pg-kinetic-core/src/cluster/lsn.rs]: [PgLsn] with its text form,
    and the freshness requirement a session puts on a replica. A [PgLsn] is
    its [u64]. *)

From S2P Require Import Prelude Text.

Abbreviation PgLsn := Z.

(** [PgLsn::from_parts]. *)
Definition from_parts (segment offset : Z) : PgLsn := Z.lor (Z.shiftl segment 32) offset.
Definition lsn_segment (l : PgLsn) : Z := wrap_u 32 (Z.shiftr l 32).
Definition lsn_offset (l : PgLsn) : Z := wrap_u 32 l.

Inductive LsnParseError :=
| MissingSeparator | EmptyPart | InvalidSegment | InvalidOffset | SegmentOverflow | OffsetOverflow.

(** [u32::checked_mul], [u32::checked_add]. *)
Definition checked_u32 (z : Z) : option Z := if z <? 2 ^ 32 then Some z else None.

(** One hex digit, as the [match byte] of [parse_hex_u32]. *)
Definition hex_digit (byte : Z) : option Z :=
  if in_range 48 57 byte then Some (byte - 48)
  else if in_range 97 102 byte then Some (byte - 97 + 10)
  else if in_range 65 70 byte then Some (byte - 65 + 10)
  else None.

(** The loop of [parse_hex_u32] over the enumerated bytes. *)
Fixpoint parse_hex_loop (digits : nat) (bs : bytes) (value : Z)
  (invalid_error overflow_error : LsnParseError) : result LsnParseError Z :=
  match bs with
  | [] => Ok value
  | byte :: bs =>
      if (digits =? 8)%nat then Err overflow_error
      else
        digit ← ok_or (hex_digit byte) invalid_error;
        value ← ok_or (current ← checked_u32 (value * 16); checked_u32 (current + digit))
                      overflow_error;
        parse_hex_loop (S digits) bs value invalid_error overflow_error
  end.

Definition parse_hex_u32 (input : str) (invalid_error overflow_error : LsnParseError)
  : result LsnParseError Z :=
  parse_hex_loop 0 (encode_utf8 input) 0 invalid_error overflow_error.

(** [PgLsn::from_str]. *)
Definition lsn_from_str (input : str) : result LsnParseError PgLsn :=
  '(segment, offset) ← ok_or (split_once 47 input) MissingSeparator;
  if bool_decide (segment = []) || bool_decide (offset = []) then Err EmptyPart
  else
    segment ← parse_hex_u32 segment InvalidSegment SegmentOverflow;
    offset ← parse_hex_u32 offset InvalidOffset OffsetOverflow;
    Ok (from_parts segment offset).

(** The [{:X}] format of a [u32]: eight digits are enough. *)
Definition hex_char (d : Z) : Z := if d <? 10 then 48 + d else 55 + d.
Fixpoint hex_upper (fuel : nat) (n : Z) : str :=
  match fuel with
  | O => []
  | S fuel => (if n <? 16 then [] else hex_upper fuel (n / 16)) ++ [hex_char (n mod 16)]
  end.

(** [Display for PgLsn]. *)
Definition lsn_display (l : PgLsn) : str :=
  hex_upper 8 (lsn_segment l) ++ [47] ++ hex_upper 8 (lsn_offset l).

(** ** Freshness *)

Inductive ReplicaReplayState :=
| ReplayLsn (l : PgLsn) | ReplayStale | ReplayUnknown | ReplayUnavailable.

Inductive FreshnessStatus := FSatisfied | FWaiting | FStale | FUnknown | FUnavailable.

#[global] Instance FreshnessStatus_eq_dec : EqDecision FreshnessStatus.
Proof. solve_decision. Defined.

(** [FreshnessRequirement] is the optional session write position. *)
Abbreviation FreshnessRequirement := (option PgLsn).

Definition is_satisfied_by (r : FreshnessRequirement) (replica_replay_lsn : PgLsn) : bool :=
  match r with
  | Some required => required <=? replica_replay_lsn
  | None => true
  end.

Definition freshness_status (r : FreshnessRequirement) (s : ReplicaReplayState)
  : FreshnessStatus :=
  match s with
  | ReplayLsn l => if is_satisfied_by r l then FSatisfied else FWaiting
  | ReplayStale => FStale
  | ReplayUnknown => FUnknown
  | ReplayUnavailable => FUnavailable
  end.

(** ** Facts *)

Section HexFacts.
Definition is_hex (c : Z) : Prop := is_Some (hex_digit c).

(** The number a list of hex digits denotes. *)
Definition hex_value (s : str) : Z :=
  fold_left (fun v c => v * 16 + default 0 (hex_digit c)) s 0.

Lemma hex_digit_range c d : hex_digit c = Some d -> 0 <= d < 16 /\ 0 <= c < 128.
Proof.
  unfold hex_digit, in_range. intros H. split_matches; bool_to_prop; simplify_eq; lia.
Qed.

Lemma encode_utf8_hex s : Forall is_hex s -> encode_utf8 s = s.
Proof.
  induction 1 as [|c s [d Hd] Hs IH]; [done|]. apply hex_digit_range in Hd as [_ Hc].
  unfold encode_utf8 in *. cbn. rewrite IH. unfold encode_char.
  by rewrite (proj2 (Z.ltb_lt _ _)) by lia.
Qed.

Lemma hex_fold_bound s v n :
  Forall is_hex s -> 0 <= v < 16 ^ Z.of_nat n ->
  0 <= fold_left (fun v c => v * 16 + default 0 (hex_digit c)) s v
    < 16 ^ Z.of_nat (n + length s).
Proof.
  intros Hs. revert v n. induction Hs as [|c s [d Hd] Hs IH]; intros v n Hv; cbn [fold_left].
  - by rewrite Nat.add_0_r.
  - replace (n + length (c :: s))%nat with (S n + length s)%nat by (cbn; lia).
    apply IH. rewrite Hd. cbn [default].
    apply hex_digit_range in Hd as [? _]. unfold id. rewrite Nat2Z.inj_succ, Z.pow_succ_r by lia. lia.
Qed.

Lemma parse_hex_loop_spec s k v i o :
  Forall is_hex s -> (k <= 8)%nat -> 0 <= v < 16 ^ Z.of_nat k ->
  parse_hex_loop k s v i o
  = if (8 <? k + length s)%nat then Err o
    else Ok (fold_left (fun v c => v * 16 + default 0 (hex_digit c)) s v).
Proof.
  intros Hs. revert k v. induction Hs as [|c s [d Hd] Hs IH]; intros k v Hk Hv; cbn [parse_hex_loop].
  - rewrite (proj2 (Nat.ltb_ge _ _)); [done|cbn; lia].
  - destruct (Nat.eqb_spec k 8) as [->|Hne].
    { by rewrite (proj2 (Nat.ltb_lt _ _)) by (cbn; lia). }
    cbn [fold_left]. rewrite Hd. cbn [ok_or mbind result_bind default].
    apply hex_digit_range in Hd as [Hd _].
    assert (16 ^ Z.of_nat (S k) <= 2 ^ 32).
    { change (2 ^ 32) with (16 ^ 8). apply Z.pow_le_mono_r; lia. }
    assert (0 <= v * 16 + d < 16 ^ Z.of_nat (S k)).
    { rewrite Nat2Z.inj_succ, Z.pow_succ_r by lia. lia. }
    unfold checked_u32. rewrite (proj2 (Z.ltb_lt (v * 16) _)) by lia. cbn.
    rewrite (proj2 (Z.ltb_lt _ _)) by lia. cbn. rewrite IH by (done || lia).
    by replace (S k + length s)%nat with (k + S (length s))%nat by lia.
Qed.

Lemma parse_hex_u32_spec s i o :
  Forall is_hex s ->
  parse_hex_u32 s i o = if (8 <? length s)%nat then Err o else Ok (hex_value s).
Proof.
  intros Hs. unfold parse_hex_u32. rewrite encode_utf8_hex by done.
  apply parse_hex_loop_spec; [done|lia|cbn; lia].
Qed.

Lemma hex_value_bound s : Forall is_hex s -> (length s <= 8)%nat -> 0 <= hex_value s < 2 ^ 32.
Proof.
  intros Hs Hl. pose proof (hex_fold_bound s 0 0 Hs ltac:(cbn; lia)) as Hb. cbn [plus] in Hb.
  assert (16 ^ Z.of_nat (length s) <= 16 ^ 8) by (apply Z.pow_le_mono_r; lia).
  unfold hex_value. change (2 ^ 32) with (16 ^ 8). lia.
Qed.

Lemma hex_no_slash s : Forall is_hex s -> Forall (fun c => (47 =? c) = false) s.
Proof.
  intros Hs. eapply Forall_impl; [done|]. intros c [d Hd]. apply Z.eqb_neq. intros <-.
  discriminate.
Qed.

Lemma hex_char_digit d : 0 <= d < 16 -> hex_digit (hex_char d) = Some d.
Proof.
  intros Hd. unfold hex_char, hex_digit, in_range.
  destruct (Z.ltb_spec d 10); split_matches; bool_to_prop; try lia; f_equal; lia.
Qed.

Lemma hex_upper_spec fuel n :
  0 <= n < 16 ^ Z.of_nat fuel -> (0 < fuel)%nat ->
  Forall is_hex (hex_upper fuel n) /\ hex_value (hex_upper fuel n) = n /\
  (1 <= length (hex_upper fuel n) <= fuel)%nat.
Proof.
  revert n. induction fuel as [|fuel IH]; intros n Hn Hf; [lia|].
  cbn [hex_upper]. pose proof (Z.mod_pos_bound n 16 ltac:(lia)) as Hm.
  assert (Hlast : is_hex (hex_char (n mod 16))) by (exists (n mod 16); by apply hex_char_digit).
  rewrite length_app. cbn [length]. unfold hex_value. rewrite fold_left_app. cbn [fold_left].
  rewrite hex_char_digit by done.
  change (default 0 (Some (n mod 16))) with (n mod 16).
  destruct (Z.ltb_spec n 16) as [Hlt|Hge].
  - split_and!; [repeat constructor; done| |cbn; lia|cbn; lia]. apply Z.mod_small. lia.
  - rewrite Nat2Z.inj_succ, Z.pow_succ_r in Hn by lia.
    assert (0 <= n / 16 < 16 ^ Z.of_nat fuel).
    { split; [apply Z.div_pos; lia|]. apply Z.div_lt_upper_bound; lia. }
    destruct fuel as [|fuel]; [cbn in Hn; lia|].
    destruct (IH (n / 16)) as (Hx & Hv & Hl); [done|lia|].
    unfold hex_value in Hv. rewrite Hv. pose proof (Z.div_mod n 16).
    split_and!; [|lia|lia|lia]. apply Forall_app. split; [done|]. by constructor.
Qed.
End HexFacts.

Lemma from_parts_spec s o : 0 <= o < 2 ^ 32 -> from_parts s o = s * 2 ^ 32 + o.
Proof.
  intros Ho. unfold from_parts. rewrite Z.shiftl_mul_pow2 by lia.
  rewrite <- Z.add_nocarry_lor; [done|].
  rewrite <- Z.shiftl_mul_pow2 by lia. apply Z.bits_inj'. intros i Hi.
  rewrite Z.land_spec, Z.bits_0. destruct (Z.ltb_spec i 32).
  - rewrite Z.shiftl_spec_low by lia. done.
  - rewrite (Z.bits_above_log2 o i), andb_false_r; [done|lia|].
    destruct (Z.eq_dec o 0) as [->|]; [cbn; lia|]. apply Z.log2_lt_pow2; [lia|].
    apply (Z.lt_le_trans _ (2 ^ 32)); [lia|]. apply Z.pow_le_mono_r; lia.
Qed.

Lemma lsn_from_str_value_aux (a b : str) :
  Forall is_hex a -> Forall is_hex b -> a <> [] -> b <> [] ->
  lsn_from_str (a ++ 47 :: b)
  = if (8 <? length a)%nat then Err SegmentOverflow
    else if (8 <? length b)%nat then Err OffsetOverflow
    else Ok (hex_value a * 2 ^ 32 + hex_value b).
Proof.
  intros Ha Hb Hna Hnb. unfold lsn_from_str, split_once, find_char.
  rewrite position_app_found by (by apply hex_no_slash || done).
  cbn [ok_or mbind result_bind]. rewrite take_app_length, drop_S_app.
  rewrite !bool_decide_false by done. cbn [orb]. rewrite !parse_hex_u32_spec by done.
  destruct (8 <? length a)%nat; [done|]. cbn [mbind result_bind].
  destruct (Nat.ltb_spec 8 (length b)); [done|]. cbn [mbind result_bind].
  by rewrite from_parts_spec by (apply hex_value_bound; done).
Qed.

(** Positions are read exactly: two non-empty strings of hexadecimal
    digits, in either case, around a slash denote the position whose high
    and low words they are, and more than eight digits on a side is reported
    as overflow of that side, the left side first. *)
Theorem lsn_from_str_value (a b : str) :
  Forall is_hex a -> Forall is_hex b -> a <> [] -> b <> [] ->
  lsn_from_str (a ++ 47 :: b)
  = if (8 <? length a)%nat then Err SegmentOverflow
    else if (8 <? length b)%nat then Err OffsetOverflow
    else Ok (hex_value a * 2 ^ 32 + hex_value b).
Proof. apply lsn_from_str_value_aux. Qed.

Lemma lsn_from_str_value_witness :
  lsn_from_str (lit "1a" ++ 47 :: lit "B") = Ok (26 * 2 ^ 32 + 11) /\
  lsn_from_str (lit "1" ++ 47 :: lit "000000000") = Err OffsetOverflow.
Proof.
  split; (rewrite lsn_from_str_value;
    [reflexivity|unfold is_hex; by_eval|unfold is_hex; by_eval|done|done]).
Defined.

(** Printing and reading positions are inverse: every 64-bit position
    is read back from its text. *)
Theorem lsn_roundtrip (l : PgLsn) :
  0 <= l < 2 ^ 64 -> lsn_from_str (lsn_display l) = Ok l.
Proof.
  intros Hl. pose proof (Z.div_mod l (2 ^ 32) ltac:(lia)) as Hdm.
  pose proof (Z.mod_pos_bound l (2 ^ 32) ltac:(lia)) as Hm.
  assert (Hd : 0 <= l / 2 ^ 32 < 2 ^ 32).
  { split; [apply Z.div_pos; lia|]. apply Z.div_lt_upper_bound; lia. }
  unfold lsn_display, lsn_segment, lsn_offset, wrap_u.
  rewrite Z.shiftr_div_pow2, (Z.mod_small (l / 2 ^ 32)) by lia.
  destruct (hex_upper_spec 8 (l / 2 ^ 32)) as (Ha & Hva & Hla); [done|lia|].
  destruct (hex_upper_spec 8 (l mod 2 ^ 32)) as (Hb & Hvb & Hlb); [done|lia|].
  cbn [app]. rewrite lsn_from_str_value_aux; [|done|done|(intros E; rewrite E in *; cbn in *; lia)..].
  rewrite Hva, Hvb, !(proj2 (Nat.ltb_ge _ _)) by lia. f_equal. lia.
Qed.

Lemma lsn_roundtrip_witness : lsn_from_str (lsn_display (2 ^ 64 - 1)) = Ok (2 ^ 64 - 1).
Proof. apply lsn_roundtrip. lia. Defined.
