(* ===== verification/RoutingTypes.v ===== *)
(** * RoutingTypes: the vocabulary of routing

    The enums of [pg-kinetic-core/src/traffic/routing.rs] and the transaction
    access mode of [protocol/session.rs], shared by the SQL classifiers, the
    session models and the routing decision. *)

From S2P Require Import Prelude Text.

(** [ShardId] of [traffic/sharding.rs] is its text. *)
Abbreviation ShardId := str.

Inductive BackendRole := Primary | Replica | UnknownRole.

Inductive ReadRoutingMode := ModeOff | PreferReplica | RequireReplica | PrimaryOnly.

Inductive QueryClass :=
| Write | ReadOnlyClass | ReadCandidate | TransactionControl | SessionMutation
| CopyClass | UnknownClass.

(** [QueryClass::routes_to_replica]. *)
Definition routes_to_replica (c : QueryClass) : bool :=
  match c with
  | ReadOnlyClass | ReadCandidate => true
  | _ => false
  end.

(** [QueryClass::target_role]. *)
Definition class_target_role (c : QueryClass) : BackendRole :=
  if routes_to_replica c then Replica else Primary.

Inductive RoutingHint := HintPrimary | HintReplica | HintStaleOk | HintStrictFresh | HintNone.

Inductive FallbackPolicy := FallbackToPrimary | FallbackRejects | FallbackWaits.

Inductive FreshnessPolicy :=
| FreshNone | SessionWriteLsn | MaxReplicaLag | SessionWriteLsnAndMaxLag.

Inductive RoutingReason :=
| ROff | RPrimaryOnlyMode | RPreferReplicaMode | RRequireReplicaMode | RWriteQuery
| RReadOnlyQuery | RReadCandidateQuery | RTransactionControl | RSessionMutation | RCopy
| RUnknownQuery | RFreshnessRequired | RReplicaStale | RReplicaUnavailable
| RFallbackPrimary | RFallbackReject | RFallbackWait.

Record RoutingDecision := {
  target_role : BackendRole;
  query_class : QueryClass;
  hint : RoutingHint;
  reason : RoutingReason;
  fallback_policy : FallbackPolicy;
  freshness_requirement : FreshnessPolicy;
}.

Inductive TransactionAccessMode := ReadOnly | ReadWrite.

#[global] Instance BackendRole_eq_dec : EqDecision BackendRole.
Proof. solve_decision. Defined.
#[global] Instance ReadRoutingMode_eq_dec : EqDecision ReadRoutingMode.
Proof. solve_decision. Defined.
#[global] Instance QueryClass_eq_dec : EqDecision QueryClass.
Proof. solve_decision. Defined.
#[global] Instance RoutingHint_eq_dec : EqDecision RoutingHint.
Proof. solve_decision. Defined.
#[global] Instance FallbackPolicy_eq_dec : EqDecision FallbackPolicy.
Proof. solve_decision. Defined.
#[global] Instance FreshnessPolicy_eq_dec : EqDecision FreshnessPolicy.
Proof. solve_decision. Defined.
#[global] Instance RoutingReason_eq_dec : EqDecision RoutingReason.
Proof. solve_decision. Defined.
#[global] Instance RoutingDecision_eq_dec : EqDecision RoutingDecision.
Proof. solve_decision. Defined.
#[global] Instance TransactionAccessMode_eq_dec : EqDecision TransactionAccessMode.
Proof. solve_decision. Defined.

(** ** Labels ([as_str]) *)

Definition role_str (r : BackendRole) : str :=
  match r with
  | Primary => lit "primary"
  | Replica => lit "replica"
  | UnknownRole => lit "unknown"
  end.

Definition mode_str (m : ReadRoutingMode) : str :=
  match m with
  | ModeOff => lit "off"
  | PreferReplica => lit "prefer_replica"
  | RequireReplica => lit "require_replica"
  | PrimaryOnly => lit "primary_only"
  end.

Definition class_str (c : QueryClass) : str :=
  match c with
  | Write => lit "write"
  | ReadOnlyClass => lit "read_only"
  | ReadCandidate => lit "read_candidate"
  | TransactionControl => lit "transaction_control"
  | SessionMutation => lit "session_mutation"
  | CopyClass => lit "copy"
  | UnknownClass => lit "unknown"
  end.

Definition hint_str (h : RoutingHint) : str :=
  match h with
  | HintPrimary => lit "primary"
  | HintReplica => lit "replica"
  | HintStaleOk => lit "stale_ok"
  | HintStrictFresh => lit "strict_fresh"
  | HintNone => lit "none"
  end.

Definition fallback_str (f : FallbackPolicy) : str :=
  match f with
  | FallbackToPrimary => lit "primary"
  | FallbackRejects => lit "reject"
  | FallbackWaits => lit "wait"
  end.

Definition freshness_str (f : FreshnessPolicy) : str :=
  match f with
  | FreshNone => lit "none"
  | SessionWriteLsn => lit "session_write_lsn"
  | MaxReplicaLag => lit "max_replica_lag"
  | SessionWriteLsnAndMaxLag => lit "session_write_lsn_and_max_lag"
  end.

Definition reason_str (r : RoutingReason) : str :=
  match r with
  | ROff => lit "off"
  | RPrimaryOnlyMode => lit "primary_only_mode"
  | RPreferReplicaMode => lit "prefer_replica_mode"
  | RRequireReplicaMode => lit "require_replica_mode"
  | RWriteQuery => lit "write_query"
  | RReadOnlyQuery => lit "read_only_query"
  | RReadCandidateQuery => lit "read_candidate_query"
  | RTransactionControl => lit "transaction_control"
  | RSessionMutation => lit "session_mutation"
  | RCopy => lit "copy"
  | RUnknownQuery => lit "unknown_query"
  | RFreshnessRequired => lit "freshness_required"
  | RReplicaStale => lit "replica_stale"
  | RReplicaUnavailable => lit "replica_unavailable"
  | RFallbackPrimary => lit "fallback_primary"
  | RFallbackReject => lit "fallback_reject"
  | RFallbackWait => lit "fallback_wait"
  end.
