(* ===== verification/Route.v ===== *)
(** * Route: the identity of a route

    Models [pg-kinetic-core/src/traffic/route.rs]. A [RouteKey] carries a
    metric label computed from its other fields; its equality and its hash
    ignore the label, so route keys are compared with an equivalence coarser
    than Leibniz equality. A [SocketAddr] is only compared. *)

From S2P Require Import Prelude Text.

Module RouteClass.
(** [traffic::route::QueryClass], not the class of [traffic::routing]. *)
Inductive QueryClass := Default | Read | Write | Maintenance.

#[global] Instance QueryClass_eq_dec : EqDecision QueryClass.
Proof. solve_decision. Defined.

(** [Display for QueryClass]. *)
Definition label (c : QueryClass) : str :=
  match c with
  | Default => lit "default"
  | Read => lit "read"
  | Write => lit "write"
  | Maintenance => lit "maintenance"
  end.
End RouteClass.

(** [std::net::SocketAddr]. *)
Inductive SocketAddr :=
| V4 (ip port : Z)
| V6 (ip port flowinfo scope_id : Z).

#[global] Instance SocketAddr_eq_dec : EqDecision SocketAddr.
Proof. solve_decision. Defined.

Record RouteKey := {
  rk_database : str;
  rk_user : str;
  rk_application_name : option str;
  rk_client_addr : option SocketAddr;
  rk_query_class : RouteClass.QueryClass;
  rk_metric_label : str;
}.

Record PoolKey := {
  pk_database : str;
  pk_user : str;
  pk_application_name : option str;
}.

#[global] Instance RouteKey_eq_dec : EqDecision RouteKey.
Proof. solve_decision. Defined.
#[global] Instance PoolKey_eq_dec : EqDecision PoolKey.
Proof. solve_decision. Defined.

(** [impl PartialEq for RouteKey]. *)
Definition route_key_eqb (a b : RouteKey) : bool :=
  bool_decide (rk_database a = rk_database b)
  && bool_decide (rk_user a = rk_user b)
  && bool_decide (rk_application_name a = rk_application_name b)
  && bool_decide (rk_client_addr a = rk_client_addr b)
  && bool_decide (rk_query_class a = rk_query_class b).

Definition build_metric_label (database user : str) (application_name : option str)
    (query_class : RouteClass.QueryClass) : str :=
  database ++ lit "/" ++ user ++ lit "/" ++ default (lit "<none>") application_name
  ++ lit "/" ++ RouteClass.label query_class.

(** [RouteKey::new]. *)
Definition route_key_new (database user : str) (application_name : option str)
    (client_addr : option SocketAddr) (query_class : RouteClass.QueryClass) : RouteKey := {|
  rk_database := database;
  rk_user := user;
  rk_application_name := application_name;
  rk_client_addr := client_addr;
  rk_query_class := query_class;
  rk_metric_label := build_metric_label database user application_name query_class;
|}.

Definition pool_key (k : RouteKey) : PoolKey := {|
  pk_database := rk_database k;
  pk_user := rk_user k;
  pk_application_name := rk_application_name k;
|}.

Definition selection_key (k : RouteKey) : PoolKey := {|
  pk_database := rk_database k;
  pk_user := rk_user k;
  pk_application_name := None;
|}.

Definition with_application_name (k : RouteKey) (application_name : option str) : RouteKey :=
  if bool_decide (rk_application_name k = application_name) then k
  else {|
    rk_database := rk_database k;
    rk_user := rk_user k;
    rk_application_name := application_name;
    rk_client_addr := rk_client_addr k;
    rk_query_class := rk_query_class k;
    rk_metric_label :=
      build_metric_label (rk_database k) (rk_user k) application_name (rk_query_class k);
  |}.

Definition with_query_class (k : RouteKey) (query_class : RouteClass.QueryClass) : RouteKey :=
  if bool_decide (rk_query_class k = query_class) then k
  else {|
    rk_database := rk_database k;
    rk_user := rk_user k;
    rk_application_name := rk_application_name k;
    rk_client_addr := rk_client_addr k;
    rk_query_class := query_class;
    rk_metric_label :=
      build_metric_label (rk_database k) (rk_user k) (rk_application_name k) query_class;
  |}.

(** [PoolKey::metric_label]. *)
Definition pool_metric_label (k : PoolKey) : str :=
  build_metric_label (pk_database k) (pk_user k) (pk_application_name k) RouteClass.Default.

(** ** Equality of route keys *)

#[global] Instance route_key_equiv : Equiv RouteKey := fun a b => route_key_eqb a b = true.

Lemma route_key_equiv_fields (a b : RouteKey) :
  a ≡ b <->
  rk_database a = rk_database b /\ rk_user a = rk_user b /\
  rk_application_name a = rk_application_name b /\ rk_client_addr a = rk_client_addr b /\
  rk_query_class a = rk_query_class b.
Proof.
  unfold equiv, route_key_equiv, route_key_eqb.
  rewrite !andb_true_iff, !bool_decide_eq_true. tauto.
Qed.

#[global] Instance route_key_equivalence : Equivalence (≡@{RouteKey}).
Proof.
  split; [intros ?|intros ??|intros ???]; rewrite !route_key_equiv_fields; intuition congruence.
Qed.

(** The keys the pools and the replica selector are indexed by do not depend
    on the representative. *)
#[global] Instance pool_key_proper : Proper ((≡) ==> (=)) pool_key.
Proof. intros a b (Hd & Hu & Ha & _)%route_key_equiv_fields. unfold pool_key. by rewrite Hd, Hu, Ha. Qed.
#[global] Instance selection_key_proper : Proper ((≡) ==> (=)) selection_key.
Proof. intros a b (Hd & Hu & _)%route_key_equiv_fields. unfold selection_key. by rewrite Hd, Hu. Qed.
#[global] Instance with_query_class_proper : Proper ((≡) ==> (=) ==> (≡)) with_query_class.
Proof.
  intros a b H%route_key_equiv_fields ? c ->. apply route_key_equiv_fields.
  unfold with_query_class. repeat case_bool_decide; naive_solver.
Qed.

(** The label of a key that the constructors made is the label of its fields. *)
Definition route_key_ok (k : RouteKey) : Prop :=
  rk_metric_label k =
    build_metric_label (rk_database k) (rk_user k) (rk_application_name k) (rk_query_class k).

Lemma route_key_new_ok d u a c q : route_key_ok (route_key_new d u a c q).
Proof. done. Qed.

Lemma with_application_name_ok k a : route_key_ok k -> route_key_ok (with_application_name k a).
Proof. unfold with_application_name. by case_bool_decide. Qed.

Lemma with_query_class_ok k c : route_key_ok k -> route_key_ok (with_query_class k c).
Proof. unfold with_query_class. by case_bool_decide. Qed.

(** On such keys the equality that ignores the label is equality. *)
Lemma route_key_ok_leibniz (a b : RouteKey) :
  route_key_ok a -> route_key_ok b -> a ≡ b -> a = b.
Proof.
  unfold route_key_ok. rewrite route_key_equiv_fields.
  destruct a, b; cbn. intros -> -> (-> & -> & -> & -> & ->). done.
Qed.

#[export] Hint Resolve route_key_new_ok with_application_name_ok with_query_class_ok : pgk.
