(* ===== verification/Policy.v ===== *)
(** * Policy: policy actions, contexts and rule sets

    Models [pg-kinetic-core/src/traffic/policy.rs], the vocabulary of policies
    (ids, modes, actions, the context with its secret fields, plugin inputs
    and outputs), and [policy_rule.rs], the declarative rule sets. The texts
    of errors are left out; their codes and arguments are kept. *)

From S2P Require Import Prelude Text RoutingTypes.

(** ** Vocabulary *)

Definition POLICY_DENY_SQLSTATE : str := lit "P0001".

Inductive PolicyValidationErrorCode := EmptyPolicyId | InvalidPolicyVersion | EmptyTargetId.

(** [validate_non_empty], and the ids and versions made with it. *)
Definition validate_non_empty (value : str) (code : PolicyValidationErrorCode)
    : result PolicyValidationErrorCode str :=
  match value with [] => Err code | _ :: _ => Ok value end.

Abbreviation PolicyId := str.
Abbreviation PolicyVersion := Z.

Definition policy_id_new (value : str) : result PolicyValidationErrorCode PolicyId :=
  validate_non_empty value EmptyPolicyId.
Definition route_target_id_new (value : str) : result PolicyValidationErrorCode str :=
  validate_non_empty value EmptyTargetId.
Definition shard_target_id_new (value : str) : result PolicyValidationErrorCode str :=
  validate_non_empty value EmptyTargetId.
Definition policy_version_new (value : Z) : result PolicyValidationErrorCode PolicyVersion :=
  if value =? 0 then Err InvalidPolicyVersion else Ok value.

Inductive PolicyMode := PolicyDisabled | PolicyEnforce | PolicyDryRun.
Inductive PolicyFailureMode := FailClosed | FailOpen | DisablePolicy.
Inductive PolicyHookPoint := BeforeRouting | AfterRouting | BeforeCheckout.
Inductive PolicyDecisionReason := PolicyDenied | ValidationFailedReason | TargetIdInvalid | ContextRedacted.
Inductive PolicyEffect :=
| EffectNoChange | EffectDeny | EffectRequirePrimary | EffectRequireReplica
| EffectRouteOverride | EffectShardOverride.
Inductive PolicyOutcome := OutcomeApplied | OutcomeDryRun | OutcomeRejected | OutcomeSkipped | OutcomeRedacted.

Inductive PolicyAction :=
| ActAllow
| ActDeny (reason : PolicyDecisionReason) (sqlstate : str)
| ActRequirePrimary
| ActRequireReplica
| ActRouteOverride (target_id : str)
| ActShardOverride (target_id : str).

#[global] Instance PolicyMode_eq_dec : EqDecision PolicyMode.
Proof. solve_decision. Defined.
#[global] Instance PolicyHookPoint_eq_dec : EqDecision PolicyHookPoint.
Proof. solve_decision. Defined.
#[global] Instance PolicyDecisionReason_eq_dec : EqDecision PolicyDecisionReason.
Proof. solve_decision. Defined.
#[global] Instance PolicyOutcome_eq_dec : EqDecision PolicyOutcome.
Proof. solve_decision. Defined.
#[global] Instance PolicyAction_eq_dec : EqDecision PolicyAction.
Proof. solve_decision. Defined.

(** [PolicyAction::deny]. *)
Definition policy_deny : PolicyAction := ActDeny PolicyDenied POLICY_DENY_SQLSTATE.

(** [PolicyFailureMode::default_for_policy_mode] and [fallback_action]. *)
Definition default_for_policy_mode (m : PolicyMode) : PolicyFailureMode :=
  match m with
  | PolicyEnforce => FailClosed
  | PolicyDisabled | PolicyDryRun => DisablePolicy
  end.

Definition fallback_action (m : PolicyFailureMode) : option PolicyAction :=
  match m with
  | FailClosed => Some policy_deny
  | FailOpen => Some ActAllow
  | DisablePolicy => None
  end.

Definition hook_point_str (h : PolicyHookPoint) : str :=
  match h with
  | BeforeRouting => lit "before_routing"
  | AfterRouting => lit "after_routing"
  | BeforeCheckout => lit "before_checkout"
  end.

Definition decision_reason_str (r : PolicyDecisionReason) : str :=
  match r with
  | PolicyDenied => lit "policy_denied"
  | ValidationFailedReason => lit "validation_failed"
  | TargetIdInvalid => lit "target_id_invalid"
  | ContextRedacted => lit "context_redacted"
  end.

Definition outcome_str (o : PolicyOutcome) : str :=
  match o with
  | OutcomeApplied => lit "applied"
  | OutcomeDryRun => lit "dry_run"
  | OutcomeRejected => lit "rejected"
  | OutcomeSkipped => lit "skipped"
  | OutcomeRedacted => lit "redacted"
  end.

Definition audit_reason (a : PolicyAction) (o : PolicyOutcome) : str :=
  match o with
  | OutcomeDryRun =>
      match a with
      | ActAllow => lit "would_allow"
      | ActDeny _ _ => lit "would_deny"
      | ActRequirePrimary => lit "would_require_primary"
      | ActRequireReplica => lit "would_require_replica"
      | ActRouteOverride _ | ActShardOverride _ => lit "would_override"
      end
  | _ =>
      match a with
      | ActAllow => lit "allow"
      | ActDeny reason _ => decision_reason_str reason
      | ActRequirePrimary => lit "require_primary"
      | ActRequireReplica => lit "require_replica"
      | ActRouteOverride _ => lit "route_override"
      | ActShardOverride _ => lit "shard_override"
      end
  end.

(** [PolicyAction::effect]. *)
Definition action_effect (a : PolicyAction) : PolicyEffect :=
  match a with
  | ActAllow => EffectNoChange
  | ActDeny _ _ => EffectDeny
  | ActRequirePrimary => EffectRequirePrimary
  | ActRequireReplica => EffectRequireReplica
  | ActRouteOverride _ => EffectRouteOverride
  | ActShardOverride _ => EffectShardOverride
  end.

Definition overrides_routing (a : PolicyAction) : bool :=
  match a with
  | ActRequirePrimary | ActRequireReplica | ActRouteOverride _ | ActShardOverride _ => true
  | ActAllow | ActDeny _ _ => false
  end.

Record PolicyDecision := {
  pd_policy_id : PolicyId;
  pd_policy_version : PolicyVersion;
  pd_action : PolicyAction;
  pd_outcome : PolicyOutcome;
  pd_hook_point : PolicyHookPoint;
  pd_latency : Z;
}.

(** ** The context *)

Definition REDACTED_VALUE : str := lit "<redacted>".

Inductive PolicyContextField :=
| PublicField (name value : str)
| SecretField (name value : str).

#[global] Instance PolicyContextField_eq_dec : EqDecision PolicyContextField.
Proof. solve_decision. Defined.

Definition field_name (f : PolicyContextField) : str :=
  match f with PublicField name _ | SecretField name _ => name end.

Definition rendered_value (f : PolicyContextField) : str :=
  match f with PublicField _ value => value | SecretField _ _ => REDACTED_VALUE end.

(** Lengths are in bytes. *)
Definition field_rendered_len_bytes (f : PolicyContextField) : Z :=
  str_len (field_name f) + 1 + str_len (rendered_value f).

(** [Display for PolicyContextField]. *)
Definition render_field (f : PolicyContextField) : str := field_name f ++ lit "=" ++ rendered_value f.

(** [PolicyContext]: its fields. *)
Abbreviation PolicyContext := (list PolicyContextField).

(** [Display for PolicyContext]. *)
Fixpoint render_context (fs : PolicyContext) : str :=
  match fs with
  | [] => []
  | [f] => render_field f
  | f :: fs => render_field f ++ lit ", " ++ render_context fs
  end.

Definition sum_lengths (fs : list PolicyContextField) : Z :=
  fold_right (fun f n => field_rendered_len_bytes f + n) 0 fs.

(** [PolicyContext::rendered_len_bytes]. *)
Definition context_rendered_len_bytes (fs : PolicyContext) : Z :=
  match fs with
  | first :: rest => field_rendered_len_bytes first + sum_lengths rest + len rest * 2
  | [] => 0
  end.

(** [context_field_value]. *)
Definition context_field_value (fs : PolicyContext) (name : str) : option str :=
  rendered_value <$> find (fun f => bool_decide (field_name f = name)) fs.

Inductive PolicyAuditKind := AuditDecision | AuditValidation | AuditRedaction | AuditError.

Record PolicyAuditEvent := {
  ev_kind : PolicyAuditKind;
  ev_decision : PolicyDecision;
  ev_reason : option str;
  ev_route : option str;
  ev_shard : option str;
  ev_target_role : option str;
  ev_context : PolicyContext;
}.

(** [PolicyAuditEvent::new]; the id, version, hook point, action and outcome
    it copies are those of its decision. *)
Definition audit_event_new (kind : PolicyAuditKind) (d : PolicyDecision) (c : PolicyContext)
    : PolicyAuditEvent := {|
  ev_kind := kind;
  ev_decision := d;
  ev_reason := Some (audit_reason (pd_action d) (pd_outcome d));
  ev_route := context_field_value c (lit "route");
  ev_shard := context_field_value c (lit "shard");
  ev_target_role := context_field_value c (lit "backend_role");
  ev_context := c;
|}.

(** ** Plugins *)

Inductive PolicyPluginErrorCode :=
| UnknownAbiVersion | InputTooLarge | OutputTooLarge | EvaluationTimeout
| FilesystemAccessDenied | NetworkAccessDenied | SecretAccessDenied | UnsupportedAction
| OutputValidationFailed.

(** [PolicyPluginError::outcome]. *)
Definition plugin_error_outcome (e : PolicyPluginErrorCode) : PolicyOutcome :=
  match e with
  | UnknownAbiVersion | UnsupportedAction | OutputValidationFailed => OutcomeRejected
  | InputTooLarge | OutputTooLarge | EvaluationTimeout | FilesystemAccessDenied
  | NetworkAccessDenied | SecretAccessDenied => OutcomeSkipped
  end.

Inductive PolicyPluginAbiVersion := AbiV1.

(** [TryFrom<u16>] and [as_u16]. *)
Definition abi_version_try_from (v : Z) : result PolicyPluginErrorCode PolicyPluginAbiVersion :=
  if v =? 1 then Ok AbiV1 else Err UnknownAbiVersion.
Definition abi_version_as_u16 (v : PolicyPluginAbiVersion) : Z := match v with AbiV1 => 1 end.

Record PolicyPluginAccessRequest := {
  access_filesystem : bool;
  access_network : bool;
  access_secret : bool;
}.

Record PolicyPluginInput := {
  in_abi_version : PolicyPluginAbiVersion;
  in_policy_id : PolicyId;
  in_policy_version : PolicyVersion;
  in_hook_point : PolicyHookPoint;
  in_context : PolicyContext;
  in_requested_access : PolicyPluginAccessRequest;
}.

Definition plugin_input_new (abi : Z) (id : PolicyId) (version : PolicyVersion) (h : PolicyHookPoint)
    (c : PolicyContext) (access : PolicyPluginAccessRequest)
    : result PolicyPluginErrorCode PolicyPluginInput :=
  v ← abi_version_try_from abi;
  Ok {| in_abi_version := v; in_policy_id := id; in_policy_version := version;
        in_hook_point := h; in_context := c; in_requested_access := access |}.

(** [PolicyPluginInput::rendered_len_bytes]. *)
Definition input_rendered_len_bytes (i : PolicyPluginInput) : Z :=
  str_len (fmt_u64 (abi_version_as_u16 (in_abi_version i))) + str_len (in_policy_id i)
  + str_len (fmt_u64 (in_policy_version i)) + str_len (hook_point_str (in_hook_point i))
  + context_rendered_len_bytes (in_context i) + 3.

Inductive PolicyPluginAction :=
| PluginAllow
| PluginDeny (reason : str)
| PluginRequirePrimary
| PluginRequireReplica
| PluginRouteOverride (target_id : str)
| PluginShardOverride (target_id : str)
| PluginUnsupported (name : str).

Definition plugin_action_str (a : PolicyPluginAction) : str :=
  match a with
  | PluginAllow => lit "allow"
  | PluginDeny _ => lit "deny"
  | PluginRequirePrimary => lit "require_primary"
  | PluginRequireReplica => lit "require_replica"
  | PluginRouteOverride _ => lit "route_override"
  | PluginShardOverride _ => lit "shard_override"
  | PluginUnsupported name => name
  end.

Definition plugin_action_rendered_len_bytes (a : PolicyPluginAction) : Z :=
  match a with
  | PluginAllow | PluginRequirePrimary | PluginRequireReplica => str_len (plugin_action_str a)
  | PluginDeny reason => str_len (plugin_action_str a) + str_len reason
  | PluginRouteOverride id | PluginShardOverride id => str_len (plugin_action_str a) + str_len id
  | PluginUnsupported name => str_len name
  end.

Record PolicyPluginOutput := {
  out_abi_version : PolicyPluginAbiVersion;
  out_policy_id : PolicyId;
  out_policy_version : PolicyVersion;
  out_hook_point : PolicyHookPoint;
  out_action : PolicyPluginAction;
  out_outcome : PolicyOutcome;
}.

Definition plugin_output_new (abi : Z) (id : PolicyId) (version : PolicyVersion)
    (h : PolicyHookPoint) (a : PolicyPluginAction) (o : PolicyOutcome)
    : result PolicyPluginErrorCode PolicyPluginOutput :=
  v ← abi_version_try_from abi;
  Ok {| out_abi_version := v; out_policy_id := id; out_policy_version := version;
        out_hook_point := h; out_action := a; out_outcome := o |}.

Definition output_rendered_len_bytes (o : PolicyPluginOutput) : Z :=
  str_len (fmt_u64 (abi_version_as_u16 (out_abi_version o))) + str_len (out_policy_id o)
  + str_len (fmt_u64 (out_policy_version o)) + str_len (hook_point_str (out_hook_point o))
  + plugin_action_rendered_len_bytes (out_action o) + str_len (outcome_str (out_outcome o)).

(** ** Rule sets *)

Record PolicyRuleContext := {
  rc_database : str;
  rc_user : str;
  rc_application_name : option str;
  rc_route : option str;
  rc_shard : option str;
  rc_backend_role : BackendRole;
  rc_query_class : QueryClass;
  rc_hook_point : PolicyHookPoint;
  rc_read_only_transaction : bool;
  rc_has_shard_key : bool;
  rc_policy_tags : list str;
}.

Record PolicyRuleMatch := {
  m_databases : list str;
  m_users : list str;
  m_application_names : list str;
  m_routes : list str;
  m_shards : list str;
  m_backend_roles : list BackendRole;
  m_query_classes : list QueryClass;
  m_hook_points : list PolicyHookPoint;
  m_read_only_transaction : option bool;
  m_has_shard_key : option bool;
  m_policy_tags : list str;
  m_raw_sql_text : list str;
}.

Definition is_nil {A} (l : list A) : bool := match l with [] => true | _ :: _ => false end.
Definition is_none {A} (o : option A) : bool := match o with None => true | Some _ => false end.

(** [PolicyRuleMatch::is_empty]. *)
Definition match_is_empty (m : PolicyRuleMatch) : bool :=
  is_nil (m_databases m) && is_nil (m_users m) && is_nil (m_application_names m)
  && is_nil (m_routes m) && is_nil (m_shards m) && is_nil (m_backend_roles m)
  && is_nil (m_query_classes m) && is_nil (m_hook_points m) && is_none (m_read_only_transaction m)
  && is_none (m_has_shard_key m) && is_nil (m_policy_tags m) && is_nil (m_raw_sql_text m).

Definition matches_one_of {A} `{EqDecision A} (values : list A) (actual : A) : bool :=
  is_nil values || bool_decide (actual ∈ values).

Definition matches_text_field (values : list str) (actual : str) : bool :=
  is_nil values || existsb (fun value => bool_decide (value = actual)) values.

Definition matches_optional_text_field (values : list str) (actual : option str) : bool :=
  match actual with
  | Some actual => matches_text_field values actual
  | None => is_nil values
  end.

Definition matches_optional_bool (expected : option bool) (actual : bool) : bool :=
  match expected with Some expected => Bool.eqb expected actual | None => true end.

Definition matches_policy_tags (expected actual : list str) : bool :=
  match expected with
  | [] => true
  | _ :: _ => existsb (fun a => existsb (fun e => bool_decide (e = a)) expected) actual
  end.

(** [PolicyRuleMatch::matches]. *)
Definition match_matches (m : PolicyRuleMatch) (c : PolicyRuleContext) : bool :=
  matches_text_field (m_databases m) (rc_database c)
  && matches_text_field (m_users m) (rc_user c)
  && matches_optional_text_field (m_application_names m) (rc_application_name c)
  && matches_optional_text_field (m_routes m) (rc_route c)
  && matches_optional_text_field (m_shards m) (rc_shard c)
  && matches_one_of (m_backend_roles m) (rc_backend_role c)
  && matches_one_of (m_query_classes m) (rc_query_class c)
  && matches_one_of (m_hook_points m) (rc_hook_point c)
  && matches_optional_bool (m_read_only_transaction m) (rc_read_only_transaction c)
  && matches_optional_bool (m_has_shard_key m) (rc_has_shard_key c)
  && matches_policy_tags (m_policy_tags m) (rc_policy_tags c).

Inductive PolicyRuleAction :=
| RuleAllow (audit terminal : bool)
| RuleDeny (reason : PolicyDecisionReason) (audit terminal : bool)
| RuleRequirePrimary (audit terminal : bool)
| RuleRequireReplica (audit terminal : bool)
| RuleRouteOverride (target_id : str) (audit terminal : bool)
| RuleShardOverride (target_id : str) (audit terminal : bool).

Definition with_audit (a : PolicyRuleAction) (audit : bool) : PolicyRuleAction :=
  match a with
  | RuleAllow _ t => RuleAllow audit t
  | RuleDeny r _ t => RuleDeny r audit t
  | RuleRequirePrimary _ t => RuleRequirePrimary audit t
  | RuleRequireReplica _ t => RuleRequireReplica audit t
  | RuleRouteOverride id _ t => RuleRouteOverride id audit t
  | RuleShardOverride id _ t => RuleShardOverride id audit t
  end.

Definition with_terminal (a : PolicyRuleAction) (terminal : bool) : PolicyRuleAction :=
  match a with
  | RuleAllow au _ => RuleAllow au terminal
  | RuleDeny r au _ => RuleDeny r au terminal
  | RuleRequirePrimary au _ => RuleRequirePrimary au terminal
  | RuleRequireReplica au _ => RuleRequireReplica au terminal
  | RuleRouteOverride id au _ => RuleRouteOverride id au terminal
  | RuleShardOverride id au _ => RuleShardOverride id au terminal
  end.

Definition is_terminal (a : PolicyRuleAction) : bool :=
  match a with
  | RuleAllow _ t | RuleDeny _ _ t | RuleRequirePrimary _ t | RuleRequireReplica _ t
  | RuleRouteOverride _ _ t | RuleShardOverride _ _ t => t
  end.

Definition records_audit (a : PolicyRuleAction) : bool :=
  match a with
  | RuleAllow au _ | RuleDeny _ au _ | RuleRequirePrimary au _ | RuleRequireReplica au _
  | RuleRouteOverride _ au _ | RuleShardOverride _ au _ => au
  end.

(** [PolicyRuleAction::effect]. *)
Definition rule_effect (a : PolicyRuleAction) : PolicyEffect :=
  match a with
  | RuleAllow _ _ => EffectNoChange
  | RuleDeny _ _ _ => EffectDeny
  | RuleRequirePrimary _ _ => EffectRequirePrimary
  | RuleRequireReplica _ _ => EffectRequireReplica
  | RuleRouteOverride _ _ _ => EffectRouteOverride
  | RuleShardOverride _ _ _ => EffectShardOverride
  end.

Record PolicyRule := {
  rule_id : str;
  rule_matches : PolicyRuleMatch;
  rule_action : PolicyRuleAction;
}.

(** [PolicyRuleSet]: its rules. *)
Abbreviation PolicyRuleSet := (list PolicyRule).

Record PolicyRuleEvalResult := {
  matched_rule_indices : list nat;
  matched_rule_ids : list str;
  audit_rule_ids : list str;
  applied_rule_index : option nat;
  applied_rule_id : option str;
  applied_action : option PolicyRuleAction;
  terminal_rule_index : option nat;
  terminal_rule_id : option str;
}.

(** [PolicyRuleEvalResult::default]. *)
Definition eval_default : PolicyRuleEvalResult := {|
  matched_rule_indices := []; matched_rule_ids := []; audit_rule_ids := [];
  applied_rule_index := None; applied_rule_id := None; applied_action := None;
  terminal_rule_index := None; terminal_rule_id := None;
|}.

(** What the loop of [evaluate] records of a rule that matches. *)
Definition record_match (r : PolicyRuleEvalResult) (i : nat) (rule : PolicyRule)
    : PolicyRuleEvalResult := {|
  matched_rule_indices := matched_rule_indices r ++ [i];
  matched_rule_ids := matched_rule_ids r ++ [rule_id rule];
  audit_rule_ids :=
    if records_audit (rule_action rule) then audit_rule_ids r ++ [rule_id rule] else audit_rule_ids r;
  applied_rule_index := Some i;
  applied_rule_id := Some (rule_id rule);
  applied_action := Some (rule_action rule);
  terminal_rule_index := if is_terminal (rule_action rule) then Some i else terminal_rule_index r;
  terminal_rule_id :=
    if is_terminal (rule_action rule) then Some (rule_id rule) else terminal_rule_id r;
|}.

Fixpoint evaluate_loop (i : nat) (rules : list PolicyRule) (c : PolicyRuleContext)
    (r : PolicyRuleEvalResult) : PolicyRuleEvalResult :=
  match rules with
  | [] => r
  | rule :: rules =>
      if negb (match_matches (rule_matches rule) c) then evaluate_loop (S i) rules c r
      else
        let r := record_match r i rule in
        if is_terminal (rule_action rule) then r else evaluate_loop (S i) rules c r
  end.

(** [PolicyRuleSet::evaluate]. *)
Definition evaluate (rules : PolicyRuleSet) (c : PolicyRuleContext) : PolicyRuleEvalResult :=
  evaluate_loop 0 rules c eval_default.

Inductive PolicyRuleValidationError :=
| EmptyRuleSet
| EmptyRuleId
| DuplicateRuleId (rule_id : str)
| EmptyMatch (rule_id : str)
| EmptyMatchValue (rule_id : str) (field : str)
| RawSqlTextUnsupported.

#[global] Instance PolicyRuleValidationError_eq_dec : EqDecision PolicyRuleValidationError.
Proof. solve_decision. Defined.

Definition validate_text_values (id field : str) (values : list str)
    : result PolicyRuleValidationError unit :=
  if existsb (fun value => is_nil (trim value)) values then Err (EmptyMatchValue id field) else Ok tt.

Definition validate_rule (rule : PolicyRule) : result PolicyRuleValidationError unit :=
  let m := rule_matches rule in
  let id := rule_id rule in
  if match_is_empty m then Err (EmptyMatch id)
  else
    _ ← validate_text_values id (lit "database") (m_databases m);
    _ ← validate_text_values id (lit "user") (m_users m);
    _ ← validate_text_values id (lit "application_name") (m_application_names m);
    _ ← validate_text_values id (lit "route") (m_routes m);
    _ ← validate_text_values id (lit "shard") (m_shards m);
    _ ← validate_text_values id (lit "policy_tag") (m_policy_tags m);
    if negb (is_nil (m_raw_sql_text m)) then Err RawSqlTextUnsupported else Ok tt.

Fixpoint validate_rules (seen_rule_ids : list str) (rules : list PolicyRule)
    : result PolicyRuleValidationError unit :=
  match rules with
  | [] => Ok tt
  | rule :: rules =>
      if is_nil (rule_id rule) then Err EmptyRuleId
      else if existsb (fun seen => bool_decide (seen = rule_id rule)) seen_rule_ids
      then Err (DuplicateRuleId (rule_id rule))
      else
        _ ← validate_rule rule;
        validate_rules (seen_rule_ids ++ [rule_id rule]) rules
  end.

(** [PolicyRuleValidator::validate]. *)
Definition validate_rule_set (rules : PolicyRuleSet) : result PolicyRuleValidationError unit :=
  match rules with [] => Err EmptyRuleSet | _ :: _ => validate_rules [] rules end.

(** ** Facts: evaluation *)

(** What the rule set means: the rules that match, with their indices, up to
    the first terminal one. *)
Definition matching (c : PolicyRuleContext) (rules : list (nat * PolicyRule)) : list (nat * PolicyRule) :=
  filter (fun p => match_matches (rule_matches p.2) c = true) rules.

Fixpoint up_to_terminal (l : list (nat * PolicyRule)) : list (nat * PolicyRule) :=
  match l with
  | [] => []
  | p :: l => p :: if is_terminal (rule_action p.2) then [] else up_to_terminal l
  end.

Definition reference_matches (rules : PolicyRuleSet) (c : PolicyRuleContext) : list (nat * PolicyRule) :=
  up_to_terminal (matching c (imap pair rules)).

Definition reference_result (l : list (nat * PolicyRule)) : PolicyRuleEvalResult := {|
  matched_rule_indices := l.*1;
  matched_rule_ids := (fun p => rule_id p.2) <$> l;
  audit_rule_ids := (fun p => rule_id p.2) <$> filter (fun p => records_audit (rule_action p.2) = true) l;
  applied_rule_index := fst <$> last l;
  applied_rule_id := (fun p => rule_id p.2) <$> last l;
  applied_action := (fun p => rule_action p.2) <$> last l;
  terminal_rule_index :=
    fst <$> (last l ≫= fun p => if is_terminal (rule_action p.2) then Some p else None);
  terminal_rule_id :=
    (fun p => rule_id p.2)
    <$> (last l ≫= fun p => if is_terminal (rule_action p.2) then Some p else None);
|}.

Section Evaluate.
Context (c : PolicyRuleContext).

(** The loop extends the matches it has, none of them terminal. *)
Lemma evaluate_loop_spec i rules done :
  Forall (fun p => is_terminal (rule_action p.2) = false) done ->
  evaluate_loop i rules c (reference_result done)
  = reference_result (done ++ up_to_terminal (matching c (imap (fun j => pair (i + j)%nat) rules))).
Proof.
  revert i done. induction rules as [|rule rules IH]; intros i done Hdone.
  { by rewrite app_nil_r. }
  rewrite imap_cons. cbn [evaluate_loop].
  assert (Hshift : imap ((fun j => pair (i + j)%nat) ∘ S) rules
                   = imap (fun j => pair (S i + j)%nat) rules).
  { apply imap_ext. intros j x _. cbn. f_equal. lia. }
  rewrite Hshift, Nat.add_0_r. unfold matching. cbn [filter list_filter].
  destruct (match_matches (rule_matches rule) c) eqn:Hm; cbn [negb]; case_decide as Hd;
    cbn [snd] in Hd; try congruence.
  - cbn [up_to_terminal snd].
    assert (Hrec : record_match (reference_result done) i rule
                   = reference_result (done ++ [(i, rule)])).
    { unfold record_match, reference_result. cbn [matched_rule_indices matched_rule_ids
        audit_rule_ids terminal_rule_index terminal_rule_id].
      rewrite !fmap_app, filter_app, fmap_app, last_snoc. cbn [filter list_filter snd fst fmap
        list_fmap option_fmap option_map mbind option_bind].
      assert (Hnone : (last done ≫= fun p => if is_terminal (rule_action p.2) then Some p else None) = None).
      { destruct (last done) as [p|] eqn:Hl; [|done]. cbn. apply last_Some_elem_of in Hl.
        rewrite Forall_forall in Hdone. by rewrite (Hdone p Hl). }
      rewrite Hnone. destruct (records_audit (rule_action rule)) eqn:Ha,
        (is_terminal (rule_action rule)); case_decide; try congruence; cbn; rewrite ?app_nil_r; done. }
    rewrite Hrec. destruct (is_terminal (rule_action rule)) eqn:Ht; [done|].
    rewrite IH by (apply Forall_app; split; [done|by constructor]). by rewrite <- app_assoc.
  - by rewrite IH.
Qed.
End Evaluate.

(** C32. Evaluating a rule set is taking, in order, the rules that match up to
    and including the first terminal one: those are the rules reported, the
    audited ones among them are listed for the audit, the last of them is
    the one applied, and it is reported as terminal exactly if it is. *)
Theorem rule_set_evaluation (rules : PolicyRuleSet) (c : PolicyRuleContext) :
  evaluate rules c = reference_result (reference_matches rules c).
Proof.
  unfold evaluate, reference_matches.
  exact (evaluate_loop_spec c 0 rules [] (List.Forall_nil _)).
Qed.
