(* ===== verification/Sharding.v ===== *)
(** * Sharding: shard keys, strategies and route maps

    Models [pg-kinetic-core/src/traffic/sharding.rs]: the keys and their order,
    the hash, range and list strategies with the constructors that validate
    them, the route maps, their offline validation and the life cycle of a
    shard. Indexing an empty [Vec] and the remainder by zero are panics; the
    theorems show that no value the constructors accept reaches them. *)

From S2P Require Import Prelude Text Order Lsn RoutingTypes Route.

(** ** Keys *)

Inductive ShardKeyType := TextKey | IntegerKey | BytesKey.

Inductive ShardKey :=
| KText (value : str)
| KInteger (value : Z)
| KBytes (value : bytes).

#[global] Instance ShardKeyType_eq_dec : EqDecision ShardKeyType.
Proof. solve_decision. Defined.
#[global] Instance ShardKey_eq_dec : EqDecision ShardKey.
Proof. solve_decision. Defined.

(** Keys are the elements of hash sets and hash maps. *)
#[global] Instance ShardKey_countable : Countable ShardKey.
Proof.
  refine (inj_countable'
    (fun k => match k with KText t => inl t | KInteger z => inr (inl z) | KBytes b => inr (inr b) end)
    (fun s => match s with inl t => KText t | inr (inl z) => KInteger z | inr (inr b) => KBytes b end)
    _).
  by intros [].
Defined.

(** [ShardKeyType::as_str]. *)
Definition key_type_str (t : ShardKeyType) : str :=
  match t with
  | TextKey => lit "text"
  | IntegerKey => lit "integer"
  | BytesKey => lit "bytes"
  end.

(** [ShardKey::key_type]. *)
Definition key_type (k : ShardKey) : ShardKeyType :=
  match k with
  | KText _ => TextKey
  | KInteger _ => IntegerKey
  | KBytes _ => BytesKey
  end.

Inductive ShardStrategy := StrategyHash | StrategyRange | StrategyList.

Inductive ShardValidationError :=
| EmptyShardId
| EmptyShardRouteMap
| MultiShardRejectedErr
| EmptyShardList
| EmptyShardSet
| InvalidBucketCount
| KeyTypeMismatch (expected actual : ShardKeyType)
| InvalidRangeBounds
| OverlappingShardRules
| DuplicateShardId (shard_id : ShardId).

#[global] Instance ShardValidationError_eq_dec : EqDecision ShardValidationError.
Proof. solve_decision. Defined.

(** [ShardId::new]. *)
Definition shard_id_new (value : str) : result ShardValidationError ShardId :=
  match value with [] => Err EmptyShardId | _ :: _ => Ok value end.

Definition compare_shard_keys (lhs rhs : ShardKey) : option comparison :=
  match lhs, rhs with
  | KText lhs, KText rhs => Some (str_cmp lhs rhs)
  | KInteger lhs, KInteger rhs => Some (lhs ?= rhs)
  | KBytes lhs, KBytes rhs => Some (lex_compare lhs rhs)
  | _, _ => None
  end.

(** ** Rules *)

Record HashShardRule := { hash_key_type : ShardKeyType; bucket_count : Z }.

(** [HashShardRule::new]. *)
Definition hash_rule_new (t : ShardKeyType) (count : Z) : result ShardValidationError HashShardRule :=
  if count =? 0 then Err InvalidBucketCount
  else Ok {| hash_key_type := t; bucket_count := count |}.

Record RangeShardRule := {
  lower_bound : ShardKey;
  lower_inclusive : bool;
  upper_bound : ShardKey;
  upper_inclusive : bool;
}.

(** [RangeShardRule::with_bounds]. *)
Definition with_bounds (lower : ShardKey) (lower_incl : bool) (upper : ShardKey) (upper_incl : bool)
    : result ShardValidationError RangeShardRule :=
  if negb (bool_decide (key_type lower = key_type upper)) then
    Err (KeyTypeMismatch (key_type lower) (key_type upper))
  else if bool_decide (compare_shard_keys lower upper = Some Gt) then Err InvalidRangeBounds
  else if bool_decide (compare_shard_keys lower upper = Some Eq) && negb (lower_incl && upper_incl)
  then Err InvalidRangeBounds
  else Ok {| lower_bound := lower; lower_inclusive := lower_incl;
             upper_bound := upper; upper_inclusive := upper_incl |}.

(** [RangeShardRule::new]. *)
Definition range_rule_new (lower upper : ShardKey) : result ShardValidationError RangeShardRule :=
  with_bounds lower true upper true.

(** [RangeShardRule::key_type]. *)
Definition range_key_type (r : RangeShardRule) : ShardKeyType := key_type (lower_bound r).

Record ListShardRule := { list_values : list ShardKey }.

(** [ListShardRule::new]. *)
Definition list_rule_new (values : list ShardKey) : result ShardValidationError ListShardRule :=
  match values with
  | [] => Err EmptyShardList
  | first :: _ =>
      let first_key_type := key_type first in
      match list_find (fun v => key_type v <> first_key_type) values with
      | Some (_, v) => Err (KeyTypeMismatch first_key_type (key_type v))
      | None => Ok {| list_values := values |}
      end
  end.

(** [ListShardRule::key_type]: indexing an empty list panics. *)
Definition list_key_type {E} (r : ListShardRule) : result E ShardKeyType :=
  match list_values r with
  | [] => Panic
  | v :: _ => Ok (key_type v)
  end.

(** ** The hash *)

Definition SHARD_HASH_SEED : Z := 0xcbf29ce484222325.
Definition SHARD_HASH_NAMESPACE : bytes := lit "pg-kinetic-shard-hash-v1".
Definition SHARD_HASH_PRIME : Z := 0x100000001b3.

(** The exclusive or and the wrapping product of [u64]s. *)
Fixpoint fnv1a_update (hash : Z) (bs : bytes) : Z :=
  match bs with
  | [] => hash
  | byte :: bs => fnv1a_update (wrap_u 64 (Z.lxor hash byte * SHARD_HASH_PRIME)) bs
  end.

(** [i64::to_le_bytes]. *)
Definition i64_to_le_bytes (v : Z) : bytes :=
  let u := wrap_u 64 v in
  (fun i => Z.shiftr u (8 * Z.of_nat i) mod 256) <$> seq 0 8.

Definition deterministic_shard_hash (key : ShardKey) : Z :=
  let hash := SHARD_HASH_SEED in
  let hash := fnv1a_update hash SHARD_HASH_NAMESPACE in
  let hash := fnv1a_update hash [0] in
  let hash := fnv1a_update hash (encode_utf8 (key_type_str (key_type key))) in
  let hash := fnv1a_update hash [0] in
  match key with
  | KText value => fnv1a_update hash (encode_utf8 value)
  | KInteger value => fnv1a_update hash (i64_to_le_bytes value)
  | KBytes value => fnv1a_update hash value
  end.

(** ** Matching a key *)

Inductive ShardMatch :=
| HashBucket (bucket : Z)
| RangeRule (rule_index : nat)
| ListRule (rule_index : nat)
| NoShardMatch.

#[global] Instance ShardMatch_eq_dec : EqDecision ShardMatch.
Proof. solve_decision. Defined.

Definition boundary_satisfies_lower (boundary : ShardKey) (inclusive : bool) (key : ShardKey) : bool :=
  match compare_shard_keys key boundary with
  | Some Gt => true
  | Some Eq => inclusive
  | _ => false
  end.

Definition boundary_satisfies_upper (boundary : ShardKey) (inclusive : bool) (key : ShardKey) : bool :=
  match compare_shard_keys key boundary with
  | Some Lt => true
  | Some Eq => inclusive
  | _ => false
  end.

Definition range_rule_matches (rule : RangeShardRule) (key : ShardKey) : bool :=
  if negb (bool_decide (key_type key = range_key_type rule)) then false
  else boundary_satisfies_lower (lower_bound rule) (lower_inclusive rule) key
       && boundary_satisfies_upper (upper_bound rule) (upper_inclusive rule) key.

Definition range_lookup (rules : list RangeShardRule) (key : ShardKey) : option nat :=
  position (fun rule => range_rule_matches rule key) rules.

(** The closure of [list_lookup]. *)
Definition list_rule_matches {E} (rule : ListShardRule) (key : ShardKey) : result E bool :=
  t ← list_key_type rule;
  Ok (bool_decide (t = key_type key) && bool_decide (key ∈ list_values rule)).

(** [list_lookup]. *)
Fixpoint list_rule_lookup {E} (rules : list ListShardRule) (key : ShardKey) : result E (option nat) :=
  match rules with
  | [] => Ok None
  | rule :: rules =>
      matches ← list_rule_matches rule key;
      if matches : bool then Ok (Some O)
      else r ← list_rule_lookup rules key; Ok (option_map S r)
  end.

(** ** Validating the rules *)

Definition range_is_before (lhs rhs : RangeShardRule) : bool :=
  match compare_shard_keys (upper_bound lhs) (lower_bound rhs) with
  | Some Lt => true
  | Some Eq => negb (upper_inclusive lhs && lower_inclusive rhs)
  | _ => false
  end.

Definition range_rules_overlap (lhs rhs : RangeShardRule) : bool :=
  negb (range_is_before lhs rhs) && negb (range_is_before rhs lhs).

(** The nested loop over pairs. *)
Fixpoint any_overlap (rules : list RangeShardRule) : bool :=
  match rules with
  | [] => false
  | lhs :: rules => existsb (range_rules_overlap lhs) rules || any_overlap rules
  end.

Fixpoint check_range_types (expected : ShardKeyType) (rules : list RangeShardRule)
    : result ShardValidationError unit :=
  match rules with
  | [] => Ok tt
  | rule :: rules =>
      if bool_decide (range_key_type rule = expected) then check_range_types expected rules
      else Err (KeyTypeMismatch expected (range_key_type rule))
  end.

Definition validate_range_rules (rules : list RangeShardRule) : result ShardValidationError unit :=
  match rules with
  | [] => Err EmptyShardSet
  | first :: rest =>
      _ ← check_range_types (range_key_type first) rest;
      if any_overlap rules then Err OverlappingShardRules else Ok tt
  end.

Fixpoint check_list_types (expected : ShardKeyType) (rules : list ListShardRule)
    : result ShardValidationError unit :=
  match rules with
  | [] => Ok tt
  | rule :: rules =>
      t ← list_key_type rule;
      if bool_decide (t = expected) then check_list_types expected rules
      else Err (KeyTypeMismatch expected t)
  end.

(** The inner loop over the values of one rule. *)
Fixpoint check_rule_values (rule_index : nat) (values : list ShardKey) (rule_values : gset ShardKey)
    (seen_values : gmap ShardKey nat) : result ShardValidationError (gmap ShardKey nat) :=
  match values with
  | [] => Ok seen_values
  | value :: values =>
      if bool_decide (value ∈ rule_values) then
        check_rule_values rule_index values rule_values seen_values
      else
        let rule_values := {[value]} ∪ rule_values in
        let previous := seen_values !! value in
        let seen_values := <[value := rule_index]> seen_values in
        match previous with
        | Some previous_rule_index =>
            if bool_decide (previous_rule_index = rule_index) then
              check_rule_values rule_index values rule_values seen_values
            else Err OverlappingShardRules
        | None => check_rule_values rule_index values rule_values seen_values
        end
  end.

(** The outer loop. *)
Fixpoint check_list_values (rule_index : nat) (rules : list ListShardRule)
    (seen_values : gmap ShardKey nat) : result ShardValidationError unit :=
  match rules with
  | [] => Ok tt
  | rule :: rules =>
      seen_values ← check_rule_values rule_index (list_values rule) ∅ seen_values;
      check_list_values (S rule_index) rules seen_values
  end.

Definition validate_list_rules (rules : list ListShardRule) : result ShardValidationError unit :=
  match rules with
  | [] => Err EmptyShardSet
  | first :: rest =>
      expected ← list_key_type first;
      _ ← check_list_types expected rest;
      check_list_values 0 rules ∅
  end.

(** ** Evaluating a strategy *)

Inductive ShardStrategyEvaluator :=
| EvalHash (rule : HashShardRule)
| EvalRange (rules : list RangeShardRule)
| EvalList (rules : list ListShardRule).

(** [ShardStrategyEvaluator::range]. *)
Definition evaluator_range (rules : list RangeShardRule)
    : result ShardValidationError ShardStrategyEvaluator :=
  _ ← validate_range_rules rules; Ok (EvalRange rules).

(** [ShardStrategyEvaluator::list]. *)
Definition evaluator_list (rules : list ListShardRule)
    : result ShardValidationError ShardStrategyEvaluator :=
  _ ← validate_list_rules rules; Ok (EvalList rules).

(** [evaluate_shard_key]. The bucket is a remainder: zero buckets panic. *)
Definition evaluate_shard_key {E} (strategy : ShardStrategyEvaluator) (key : ShardKey)
    : result E ShardMatch :=
  match strategy with
  | EvalHash rule =>
      if negb (bool_decide (hash_key_type rule = key_type key)) then Ok NoShardMatch
      else if bucket_count rule =? 0 then Panic
      else Ok (HashBucket (deterministic_shard_hash key mod bucket_count rule))
  | EvalRange rules =>
      Ok (match range_lookup rules key with Some i => RangeRule i | None => NoShardMatch end)
  | EvalList rules =>
      r ← list_rule_lookup rules key;
      Ok (match r with Some i => ListRule i | None => NoShardMatch end)
  end.

(** ** Scopes, targets and routes *)

Record TenantScope := { tenant_id : str }.
Record TableScope := { scope_schema : str; scope_table : str }.
Inductive ShardScope := Global | Tenant (scope : TenantScope) | Table (scope : TableScope).

Record ShardTarget := {
  target_route_key : RouteKey;
  shard_backend_role : BackendRole;
  target_shard_id : ShardId;
}.

Inductive ShardRouteReason :=
| AdminOverride | HashMatch | RangeMatch | ListMatch | MultiShardRejected | ValidationFailed | NoMatch.

Inductive MultiShardPolicy := Reject | FirstMatch | FanOut.

(** [ShardRouteReason::as_str], [MultiShardPolicy::as_str]. *)
Definition shard_reason_str (r : ShardRouteReason) : str :=
  match r with
  | AdminOverride => lit "admin_override"
  | HashMatch => lit "hash_match"
  | RangeMatch => lit "range_match"
  | ListMatch => lit "list_match"
  | MultiShardRejected => lit "multi_shard_rejected"
  | ValidationFailed => lit "validation_failed"
  | NoMatch => lit "no_match"
  end.

Definition multi_shard_policy_str (p : MultiShardPolicy) : str :=
  match p with
  | Reject => lit "reject"
  | FirstMatch => lit "first_match"
  | FanOut => lit "fan_out"
  end.

Record ShardRoute := { route_target : ShardTarget; route_reason : ShardRouteReason }.

Record ShardRouteMap := {
  map_scope : ShardScope;
  map_strategy : ShardStrategy;
  map_policy : MultiShardPolicy;
  map_routes : list ShardRoute;
}.

Record ShardRouteDecision := {
  decision_route : option ShardRoute;
  decision_reason : ShardRouteReason;
  decision_policy : MultiShardPolicy;
}.

#[global] Instance ShardStrategy_eq_dec : EqDecision ShardStrategy.
Proof. solve_decision. Defined.
#[global] Instance TenantScope_eq_dec : EqDecision TenantScope.
Proof. solve_decision. Defined.
#[global] Instance TableScope_eq_dec : EqDecision TableScope.
Proof. solve_decision. Defined.
#[global] Instance ShardScope_eq_dec : EqDecision ShardScope.
Proof. solve_decision. Defined.
#[global] Instance ShardTarget_eq_dec : EqDecision ShardTarget.
Proof. solve_decision. Defined.
#[global] Instance ShardRouteReason_eq_dec : EqDecision ShardRouteReason.
Proof. solve_decision. Defined.
#[global] Instance MultiShardPolicy_eq_dec : EqDecision MultiShardPolicy.
Proof. solve_decision. Defined.
#[global] Instance ShardRoute_eq_dec : EqDecision ShardRoute.
Proof. solve_decision. Defined.
#[global] Instance ShardRouteMap_eq_dec : EqDecision ShardRouteMap.
Proof. solve_decision. Defined.

Definition route_shard_id (r : ShardRoute) : ShardId := target_shard_id (route_target r).

(** The loop of [ShardRouteMap::new] that looks for a repeated shard. *)
Fixpoint check_duplicate_shards (seen_shards : list ShardId) (routes : list ShardRoute)
    : result ShardValidationError unit :=
  match routes with
  | [] => Ok tt
  | route :: routes =>
      let shard_id := route_shard_id route in
      if existsb (fun seen => bool_decide (seen = shard_id)) seen_shards
      then Err (DuplicateShardId shard_id)
      else check_duplicate_shards (seen_shards ++ [shard_id]) routes
  end.

(** [ShardRouteMap::new]. *)
Definition route_map_new (scope : ShardScope) (strategy : ShardStrategy) (policy : MultiShardPolicy)
    (routes : list ShardRoute) : result ShardValidationError ShardRouteMap :=
  if bool_decide (routes = []) then Err EmptyShardRouteMap
  else if bool_decide (policy = Reject) && (1 <? len routes) then Err MultiShardRejectedErr
  else
    _ ← check_duplicate_shards [] routes;
    Ok {| map_scope := scope; map_strategy := strategy; map_policy := policy;
          map_routes := routes |}.

(** ** The life of a shard *)

Inductive ShardLifecycleState := Active | Draining | Readonly | Disabled.

Record ShardDrainPolicy := {
  serve_reads_while_draining : bool;
  reject_new_writes_while_draining : bool;
}.

(** [ShardDrainPolicy::read_only], the default. *)
Definition drain_read_only : ShardDrainPolicy :=
  {| serve_reads_while_draining := true; reject_new_writes_while_draining := true |}.

Definition allows_reads (s : ShardLifecycleState) (drain_policy : option ShardDrainPolicy) : bool :=
  match s with
  | Active | Readonly => true
  | Draining => match drain_policy with Some p => serve_reads_while_draining p | None => false end
  | Disabled => false
  end.

Definition allows_writes (s : ShardLifecycleState) (drain_policy : option ShardDrainPolicy) : bool :=
  match s with
  | Active => true
  | Readonly | Disabled => false
  | Draining =>
      match drain_policy with Some p => negb (reject_new_writes_while_draining p) | None => false end
  end.

Inductive ShardMigrationState := Idle | Assessing | Ready | Blocked.

Record ShardMigrationSafetyReport := {
  active_client_ids : list Z;
  prepared_statements : list str;
  open_transaction_ids : list Z;
  last_required_lsn : option PgLsn;
}.

(** [ShardMigrationSafetyReport::new]: each list sorted, without repeats. *)
Definition safety_report_new (clients : list Z) (prepared : list str) (transactions : list Z)
    (lsn : option PgLsn) : ShardMigrationSafetyReport := {|
  active_client_ids := dedup (sort_by Z.leb clients);
  prepared_statements := dedup (sort_by str_le prepared);
  open_transaction_ids := dedup (sort_by Z.leb transactions);
  last_required_lsn := lsn;
|}.

Definition sort_shard_ids (shard_ids : list ShardId) : list ShardId :=
  dedup (sort_by str_le shard_ids).

Record ShardRebalancePlan := {
  source_shard_ids : list ShardId;
  target_shard_ids : list ShardId;
  drain_policy : ShardDrainPolicy;
  migration_override_explicit : bool;
  migration_state : ShardMigrationState;
  safety_report : option ShardMigrationSafetyReport;
}.

(** [ShardRebalancePlan::new]. *)
Definition rebalance_plan_new (sources targets : list ShardId) : ShardRebalancePlan := {|
  source_shard_ids := sort_shard_ids sources;
  target_shard_ids := sort_shard_ids targets;
  drain_policy := drain_read_only;
  migration_override_explicit := false;
  migration_state := Idle;
  safety_report := None;
|}.

Definition with_drain_policy (p : ShardRebalancePlan) (d : ShardDrainPolicy) : ShardRebalancePlan :=
  {| source_shard_ids := source_shard_ids p; target_shard_ids := target_shard_ids p;
     drain_policy := d; migration_override_explicit := migration_override_explicit p;
     migration_state := migration_state p; safety_report := safety_report p |}.

Definition with_migration_override_explicit (p : ShardRebalancePlan) (explicit : bool)
    : ShardRebalancePlan :=
  {| source_shard_ids := source_shard_ids p; target_shard_ids := target_shard_ids p;
     drain_policy := drain_policy p; migration_override_explicit := explicit;
     migration_state := migration_state p; safety_report := safety_report p |}.

Definition with_migration_state (p : ShardRebalancePlan) (s : ShardMigrationState)
    : ShardRebalancePlan :=
  {| source_shard_ids := source_shard_ids p; target_shard_ids := target_shard_ids p;
     drain_policy := drain_policy p; migration_override_explicit := migration_override_explicit p;
     migration_state := s; safety_report := safety_report p |}.

Definition with_safety_report (p : ShardRebalancePlan) (r : ShardMigrationSafetyReport)
    : ShardRebalancePlan :=
  {| source_shard_ids := source_shard_ids p; target_shard_ids := target_shard_ids p;
     drain_policy := drain_policy p; migration_override_explicit := migration_override_explicit p;
     migration_state := migration_state p; safety_report := Some r |}.

(** ** Validating a route map *)

Inductive RouteMapValidationErrorCode :=
| UnknownShardTarget | MissingShardRule | MissingShardKeyColumn | InvalidHashWeight
| InvalidRangeBoundaries | DuplicateListValue | ConflictingDefaultRoutes.

Record RouteMapValidationError := {
  code : RouteMapValidationErrorCode;
  message : str;
}.

(** [RouteMapValidationReport]: its errors, oldest first. *)
Abbreviation RouteMapValidationReport := (list RouteMapValidationError).

Definition report_push (report : RouteMapValidationReport) (c : RouteMapValidationErrorCode)
    (m : str) : RouteMapValidationReport :=
  report ++ [{| code := c; message := m |}].

Definition report_is_valid (report : RouteMapValidationReport) : bool :=
  bool_decide (report = []).

Record RouteDefinition := {
  route_name : str;
  priority : option Z;
  is_default : bool;
}.

Record ShardedTableDefinition := {
  table_name : str;
  table_enabled : bool;
  shard_key_column : option str;
}.

Inductive ShardRuleDefinition :=
| DefHash (route : str) (weight : Z)
| DefRange (route : str) (lower : ShardKey) (lower_incl : bool) (upper : ShardKey) (upper_incl : bool)
| DefList (route : str) (values : list ShardKey).

Record RouteMapValidationInput := {
  routes : list RouteDefinition;
  sharded_tables : list ShardedTableDefinition;
  shard_rules : list ShardRuleDefinition;
}.

#[global] Instance RouteMapValidationErrorCode_eq_dec : EqDecision RouteMapValidationErrorCode.
Proof. solve_decision. Defined.
#[global] Instance RouteMapValidationError_eq_dec : EqDecision RouteMapValidationError.
Proof. solve_decision. Defined.

(** The step common to the three kinds of rule: the target must be a route. *)
Definition check_target (known : gset str) (kind : str) (rule_index : nat) (route : str)
    (report : RouteMapValidationReport) : RouteMapValidationReport :=
  if bool_decide (route ∈ known) then report
  else report_push report UnknownShardTarget
    (kind ++ lit " shard rule " ++ fmt_u64 (Z.of_nat rule_index)
     ++ lit " targets unknown route '" ++ route ++ lit "'").

(** The loop over the values of a list rule. *)
Fixpoint check_list_duplicates (rule_index : nat) (values : list ShardKey)
    (seen_rule_values seen_list_values : gset ShardKey) (report : RouteMapValidationReport)
    : gset ShardKey * RouteMapValidationReport :=
  match values with
  | [] => (seen_list_values, report)
  | value :: values =>
      let rule_duplicate := bool_decide (value ∈ seen_rule_values) in
      let map_duplicate := bool_decide (value ∈ seen_list_values) in
      let report :=
        if rule_duplicate || map_duplicate then
          report_push report DuplicateListValue
            (lit "list shard rule " ++ fmt_u64 (Z.of_nat rule_index)
             ++ lit " contains a duplicate value")
        else report in
      check_list_duplicates rule_index values ({[value]} ∪ seen_rule_values)
        ({[value]} ∪ seen_list_values) report
  end.

(** The loop over the rules. *)
Fixpoint check_rules (known : gset str) (rule_index : nat) (rules : list ShardRuleDefinition)
    (seen_list_values : gset ShardKey) (report : RouteMapValidationReport)
    : RouteMapValidationReport :=
  match rules with
  | [] => report
  | DefHash route weight :: rules =>
      let report := check_target known (lit "hash") rule_index route report in
      let report :=
        if weight =? 0 then
          report_push report InvalidHashWeight
            (lit "hash shard rule " ++ fmt_u64 (Z.of_nat rule_index)
             ++ lit " must use a positive weight")
        else report in
      check_rules known (S rule_index) rules seen_list_values report
  | DefRange route lower lower_incl upper upper_incl :: rules =>
      let report := check_target known (lit "range") rule_index route report in
      let report :=
        match with_bounds lower lower_incl upper upper_incl with
        | Ok _ => report
        | _ =>
            report_push report InvalidRangeBoundaries
              (lit "range shard rule " ++ fmt_u64 (Z.of_nat rule_index)
               ++ lit " has unordered boundaries")
        end in
      check_rules known (S rule_index) rules seen_list_values report
  | DefList route values :: rules =>
      let report := check_target known (lit "list") rule_index route report in
      let '(seen_list_values, report) :=
        check_list_duplicates rule_index values ∅ seen_list_values report in
      check_rules known (S rule_index) rules seen_list_values report
  end.

(** The loop over the tables. *)
Fixpoint check_tables (tables : list ShardedTableDefinition) (report : RouteMapValidationReport)
    : RouteMapValidationReport :=
  match tables with
  | [] => report
  | t :: tables =>
      let report :=
        if table_enabled t && bool_decide (shard_key_column t = None) then
          report_push report MissingShardKeyColumn
            (lit "enabled sharded table '" ++ table_name t
             ++ lit "' must define a shard key column")
        else report in
      check_tables tables report
  end.

Definition default_routes (rs : list RouteDefinition) : list RouteDefinition :=
  filter (fun r => is_default r = true) rs.

Definition validate_route_map (route_map : RouteMapValidationInput) : RouteMapValidationReport :=
  let report : RouteMapValidationReport := [] in
  let known_routes : gset str := list_to_set (route_name <$> routes route_map) in
  let default_route_count := len (default_routes (routes route_map)) in
  let report :=
    if 1 <? default_route_count then
      report_push report ConflictingDefaultRoutes
        (lit "route map defines " ++ fmt_u64 default_route_count
         ++ lit " default routes; only one default route is allowed")
    else report in
  let report := check_tables (sharded_tables route_map) report in
  let report :=
    match shard_rules route_map with
    | [] => report_push report MissingShardRule (lit "route map must define at least one shard rule")
    | _ :: _ => report
    end in
  check_rules known_routes 0 (shard_rules route_map) ∅ report.

(** The order of the keys [(priority or u32::MAX, is_default, name)]. *)
Definition U32_MAX : Z := 2 ^ 32 - 1.

Definition route_priority_key (r : RouteDefinition) : Z * bool * str :=
  (default U32_MAX (priority r), is_default r, route_name r).

Definition compare_priority (a b : Z * bool * str) : comparison :=
  let '(pa, da, na) := a in
  let '(pb, db, nb) := b in
  match pa ?= pb with
  | Eq => match Z.b2z da ?= Z.b2z db with Eq => str_cmp na nb | c => c end
  | c => c
  end.

Definition priority_le (a b : Z * bool * str) : bool :=
  match compare_priority a b with Gt => false | Eq | Lt => true end.

(** Indices are in range; the default stands for an index that is not. *)
Definition route_key_at (rs : list RouteDefinition) (i : nat) : Z * bool * str :=
  match rs !! i with
  | Some r => route_priority_key r
  | None => (U32_MAX, true, [])
  end.

Definition ordered_route_indices (rs : list RouteDefinition) : list nat :=
  sort_by (fun i j => priority_le (route_key_at rs i) (route_key_at rs j)) (seq 0 (length rs)).

(** ** Facts: the order of keys *)

Section KeyOrder.
Lemma compare_shard_keys_antisym a b :
  compare_shard_keys b a = option_map CompOpp (compare_shard_keys a b).
Proof.
  destruct a, b; cbn; try done; unfold str_cmp; f_equal; auto using lex_compare_antisym.
  apply Z.compare_antisym.
Qed.

Lemma compare_shard_keys_eq a b c :
  compare_shard_keys a b = Some Eq -> compare_shard_keys a c = compare_shard_keys b c.
Proof.
  destruct a, b; cbn; try done; intros [= H].
  - apply lex_compare_eq in H. unfold str_cmp. by destruct c; cbn; unfold str_cmp; rewrite ?H.
  - by apply Z.compare_eq in H as ->.
  - by apply lex_compare_eq in H as ->.
Qed.

Lemma compare_shard_keys_trans a b c :
  compare_shard_keys a b = Some Lt -> compare_shard_keys b c = Some Lt ->
  compare_shard_keys a c = Some Lt.
Proof.
  destruct a, b, c; cbn; try done; intros [= H1] [= H2]; f_equal.
  - by eapply lex_compare_lt_trans.
  - rewrite Z.compare_lt_iff in *. lia.
  - by eapply lex_compare_lt_trans.
Qed.

(** A range that lies before another shares no key with it. *)
Lemma range_is_before_disjoint l r key :
  range_is_before l r = true -> range_rule_matches l key = true ->
  range_rule_matches r key = false.
Proof.
  unfold range_is_before, range_rule_matches, boundary_satisfies_lower, boundary_satisfies_upper.
  intros Hb Hl. apply not_true_iff_false. intros Hr.
  destruct (negb _) in Hl; [done|]. destruct (negb _) in Hr; [done|].
  apply andb_true_iff in Hl as [_ Hl]. apply andb_true_iff in Hr as [Hr _].
  pose proof (compare_shard_keys_eq key (upper_bound l) (lower_bound r)) as Heq.
  pose proof (compare_shard_keys_eq (upper_bound l) (lower_bound r) key) as Heq'.
  pose proof (compare_shard_keys_trans key (upper_bound l) (lower_bound r)) as Htr.
  rewrite (compare_shard_keys_antisym key (upper_bound l)) in Heq'.
  rewrite (compare_shard_keys_antisym key (lower_bound r)) in Heq'.
  destruct (compare_shard_keys key (upper_bound l)) as [[]|]; try done;
    destruct (compare_shard_keys key (lower_bound r)) as [[]|]; try done;
    destruct (compare_shard_keys (upper_bound l) (lower_bound r)) as [[]|]; try done;
    cbn in *; try naive_solver.
  by rewrite Hl, Hr in Hb.
Qed.

Lemma range_rules_disjoint l r key :
  range_rules_overlap l r = false ->
  range_rule_matches l key = true -> range_rule_matches r key = true -> False.
Proof.
  unfold range_rules_overlap. rewrite andb_false_iff, !negb_false_iff.
  intros [H|H] Hl Hr; [pose proof (range_is_before_disjoint l r key H Hl)
                      |pose proof (range_is_before_disjoint r l key H Hr)]; congruence.
Qed.

Lemma range_rules_overlap_sym l r : range_rules_overlap l r = range_rules_overlap r l.
Proof. unfold range_rules_overlap. apply andb_comm. Qed.
End KeyOrder.

(** ** Facts: what validation establishes *)

Definition pairwise {A} (R : A -> A -> Prop) (l : list A) : Prop :=
  forall i j x y, (i < j)%nat -> l !! i = Some x -> l !! j = Some y -> R x y.

Section Validation.
Lemma pairwise_cons {A} (R : A -> A -> Prop) x l :
  pairwise R (x :: l) <-> Forall (R x) l /\ pairwise R l.
Proof.
  split.
  - intros H. split.
    + apply Forall_lookup. intros i y Hy. by apply (H O (S i)); [lia|..].
    + intros i j y z Hij Hy Hz. by apply (H (S i) (S j)); [lia|..].
  - intros [Hx Hl] [|i] [|j] y z Hij Hy Hz; [lia| |lia|].
    + cbn in *. simplify_eq. by eapply Forall_lookup_1.
    + eapply (Hl i j); [lia|done..].
Qed.

Lemma any_overlap_spec rules :
  any_overlap rules = false <-> pairwise (fun l r => range_rules_overlap l r = false) rules.
Proof.
  induction rules as [|l rules IH]; cbn [any_overlap].
  - split; [|done]. intros _ i j x y _ H. by rewrite lookup_nil in H.
  - rewrite orb_false_iff, pairwise_cons, IH. apply and_iff_compat_r.
    clear. induction rules as [|r rules IH]; cbn [existsb]; [split; [constructor|done]|].
    rewrite orb_false_iff, Forall_cons. tauto.
Qed.

Lemma check_range_types_spec t rules :
  match check_range_types t rules with
  | Ok _ => Forall (fun r => range_key_type r = t) rules
  | Err e => exists r, r ∈ rules /\ range_key_type r <> t /\ e = KeyTypeMismatch t (range_key_type r)
  | Panic => False
  end.
Proof.
  induction rules as [|r rules IH]; cbn [check_range_types]; [constructor|].
  case_bool_decide as Ht; [|exists r; split; [by left|done]].
  destruct (check_range_types t rules); [by constructor| |done].
  destruct IH as (r' & ? & ?). exists r'. split; [by right|done].
Qed.

(** [validate_range_rules] on every branch. *)
Lemma validate_range_rules_spec rules :
  match validate_range_rules rules with
  | Ok _ =>
      rules <> [] /\ (forall r r', r ∈ rules -> r' ∈ rules -> range_key_type r = range_key_type r')
      /\ pairwise (fun l r => range_rules_overlap l r = false) rules
  | Err EmptyShardSet => rules = []
  | Err (KeyTypeMismatch expected actual) =>
      expected <> actual /\ (range_key_type <$> rules) !! 0%nat = Some expected
      /\ actual ∈ range_key_type <$> rules
  | Err OverlappingShardRules =>
      ~ pairwise (fun l r => range_rules_overlap l r = false) rules
  | _ => False
  end.
Proof.
  unfold validate_range_rules. destruct rules as [|first rest]; [done|].
  pose proof (check_range_types_spec (range_key_type first) rest) as Ht.
  destruct (check_range_types (range_key_type first) rest) as [[]|e|]; cbn [mbind result_bind].
  - pose proof (any_overlap_spec (first :: rest)) as Ho.
    destruct (any_overlap (first :: rest)); [by intros H%Ho|].
    split_and!; [done| |by apply Ho]. rewrite Forall_forall in Ht.
    intros r r' [->|Hr]%elem_of_cons [->|Hr']%elem_of_cons;
      [done|by rewrite (Ht r')|by rewrite (Ht r)|by rewrite (Ht r), (Ht r')].
  - destruct Ht as (r & Hr & Hne & ->). split_and!; [done|done|].
    right. by apply list_elem_of_fmap_2.
  - done.
Qed.

(** A rule that [ListShardRule::new] accepts. *)
Definition list_rule_ok (r : ListShardRule) : Prop :=
  exists t, Forall (fun v => key_type v = t) (list_values r) /\ list_values r <> [].

Lemma list_rule_new_spec values :
  match list_rule_new values with
  | Ok r => r = {| list_values := values |} /\ list_rule_ok r
  | Err EmptyShardList => values = []
  | Err (KeyTypeMismatch expected actual) =>
      expected <> actual /\ (key_type <$> values) !! 0%nat = Some expected
      /\ actual ∈ key_type <$> values
  | _ => False
  end.
Proof.
  destruct values as [|v values]; cbn [list_rule_new]; [done|].
  destruct (list_find _ _) as [[i w]|] eqn:Hf.
  - apply list_find_Some in Hf as (Hw & Hne & _). split_and!; [done|done|].
    by apply list_elem_of_fmap_2; eapply list_elem_of_lookup_2.
  - split; [done|]. exists (key_type v). split; [|done]. apply list_find_None in Hf.
    eapply Forall_impl; [exact Hf|]. cbn. intros w Hw. by destruct (decide (key_type w = key_type v)).
Qed.

Lemma list_key_type_ok {E} r :
  list_rule_ok r ->
  exists t, list_key_type (E := E) r = Ok t /\ Forall (fun v => key_type v = t) (list_values r).
Proof.
  intros (t & Hf & Hne). unfold list_key_type. destruct (list_values r) as [|v vs]; [done|].
  exists t. split; [|done]. by inversion Hf; subst.
Qed.

(** Going through a rule's values fails exactly on a value another rule has. *)
Definition rule_values_post (i : nat) (values : list ShardKey) (seen : gmap ShardKey nat)
    (r : result ShardValidationError (gmap ShardKey nat)) : Prop :=
  match r with
  | Ok seen' =>
      (forall v, v ∈ values -> seen !! v = None \/ seen !! v = Some i) /\
      (forall v, seen' !! v = if decide (v ∈ values) then Some i else seen !! v)
  | Err e =>
      e = OverlappingShardRules /\ exists v j, v ∈ values /\ seen !! v = Some j /\ j <> i
  | Panic => False
  end.

Lemma rule_values_post_cons i x values seen r :
  seen !! x = None \/ seen !! x = Some i ->
  rule_values_post i values (<[x:=i]> seen) r -> rule_values_post i (x :: values) seen r.
Proof.
  intros Hsx. destruct r as [seen'|e|]; cbn [rule_values_post]; [| |done].
  - intros [H1 H2]. split.
    + intros v [->|Hv]%elem_of_cons; [done|]. destruct (decide (v = x)) as [->|Hne]; [done|].
      specialize (H1 v Hv). by rewrite lookup_insert_ne in H1.
    + intros v. rewrite H2. destruct (decide (v = x)) as [->|Hne].
      { rewrite lookup_insert_eq. destruct (decide (x ∈ values)), (decide (x ∈ x :: values));
          set_solver. }
      rewrite lookup_insert_ne by done.
      destruct (decide (v ∈ values)), (decide (v ∈ x :: values)); set_solver.
  - intros (-> & v & j & Hv & Hj & Hne). split; [done|]. exists v, j.
    split; [by right|]. split; [|done].
    destruct (decide (v = x)) as [->|]; [rewrite lookup_insert_eq in Hj; congruence|].
    by rewrite lookup_insert_ne in Hj.
Qed.

Lemma check_rule_values_spec i values rv seen :
  (forall v, v ∈ rv -> seen !! v = Some i) ->
  rule_values_post i values seen (check_rule_values i values rv seen).
Proof.
  revert rv seen. induction values as [|x values IH]; intros rv seen Hrv; cbn [check_rule_values].
  { split; [by intros v Hv%not_elem_of_nil|]. intros v. by destruct (decide _) as [?%not_elem_of_nil|]. }
  case_bool_decide as Hx.
  { apply rule_values_post_cons; [by right; apply Hrv|]. rewrite insert_id; auto. }
  assert (Hgo : rule_values_post i values (<[x:=i]> seen)
                  (check_rule_values i values ({[x]} ∪ rv) (<[x:=i]> seen))).
  { apply IH. intros v. rewrite elem_of_union, elem_of_singleton.
    destruct (decide (v = x)) as [->|Hne]; [by rewrite lookup_insert_eq|].
    rewrite lookup_insert_ne by done. intros [?|?]; [done|auto]. }
  destruct (seen !! x) as [j|] eqn:Hsx; [|by apply rule_values_post_cons; [left|]].
  case_bool_decide as Hji; [subst; by apply rule_values_post_cons; [right|]|].
  split; [done|]. exists x, j. split; [left|done].
Qed.

(** No value belongs to two rules. *)
Definition rules_disjoint (l r : ListShardRule) : Prop :=
  forall v, v ∈ list_values l -> v ∉ list_values r.

(** After the rules before [i], [seen] knows their values. *)
Lemma check_list_values_spec i rules seen :
  (forall v j, seen !! v = Some j -> (j < i)%nat) ->
  match check_list_values i rules seen with
  | Ok _ => pairwise rules_disjoint rules /\
            Forall (fun r => forall v, v ∈ list_values r -> seen !! v = None) rules
  | Err e => e = OverlappingShardRules /\
             ~ (pairwise rules_disjoint rules /\
                Forall (fun r => forall v, v ∈ list_values r -> seen !! v = None) rules)
  | Panic => False
  end.
Proof.
  revert i seen. induction rules as [|r rules IH]; intros i seen Hlt; cbn [check_list_values].
  { split; [|constructor]. intros a b x y _ H. by rewrite lookup_nil in H. }
  pose proof (check_rule_values_spec i (list_values r) ∅ seen ltac:(set_solver)) as Hr.
  destruct (check_rule_values i (list_values r) ∅ seen) as [seen'|e|]; cbn [mbind result_bind];
    [| |done]; cbn [rule_values_post] in Hr.
  - destruct Hr as [Hnew Hseen].
    assert (Hfresh : forall v, v ∈ list_values r -> seen !! v = None).
    { intros v Hv. destruct (Hnew v Hv) as [?|Hi]; [done|]. apply Hlt in Hi. lia. }
    assert (Hrest : Forall (fun q => forall v, v ∈ list_values q -> seen' !! v = None) rules <->
        Forall (rules_disjoint r) rules /\
        Forall (fun q => forall v, v ∈ list_values q -> seen !! v = None) rules).
    { rewrite <- Forall_and, !Forall_forall. unfold rules_disjoint. split; intros H q Hq.
      - split; intros v; [intros Hv Hvq|intros Hvq]; specialize (H q Hq v Hvq);
          rewrite Hseen in H; destruct (decide (v ∈ list_values r)); done.
      - intros v Hv. rewrite Hseen. destruct (H q Hq) as [H1 H2].
        destruct (decide _) as [Hvr|]; [by destruct (H1 v Hvr)|auto]. }
    assert (Hlt' : forall v j, seen' !! v = Some j -> (j < S i)%nat).
    { intros v j. rewrite Hseen. destruct (decide _); [intros; simplify_eq; lia|].
      intros ?%Hlt. lia. }
    specialize (IH (S i) seen' Hlt').
    destruct (check_list_values (S i) rules seen'); [|split; [by destruct IH|]|done];
      rewrite pairwise_cons, Forall_cons; rewrite Hrest in IH; clear - IH Hfresh; tauto.
  - destruct Hr as (-> & v & j & Hv & Hj & Hne). split; [done|].
    rewrite Forall_cons. intros (_ & H & _). specialize (H v Hv). congruence.
Qed.

Lemma check_list_types_spec t rules :
  Forall list_rule_ok rules ->
  match check_list_types t rules with
  | Ok _ => Forall (fun r => Forall (fun v => key_type v = t) (list_values r)) rules
  | Err e => exists r v, r ∈ rules /\ v ∈ list_values r /\ key_type v <> t
                         /\ e = KeyTypeMismatch t (key_type v)
  | Panic => False
  end.
Proof.
  induction 1 as [|r rules Hr Hrules IH]; cbn [check_list_types]; [constructor|].
  destruct (list_key_type_ok (E := ShardValidationError) r Hr) as (t' & -> & Hf).
  cbn [mbind result_bind]. case_bool_decide as Ht.
  - subst. destruct (check_list_types t rules); [by constructor| |done].
    destruct IH as (r' & v & ? & ?). exists r', v. split; [by right|done].
  - destruct Hr as (? & _ & Hne). destruct (list_values r) as [|v vs] eqn:Hvs; [done|].
    exists r, v. rewrite Hvs. inversion Hf; subst. split_and!; [left|left|done|done].
Qed.
End Validation.

(** ** What the constructors promise *)

(** An evaluator the constructors made: a hash rule with a bucket, or rules
    that passed their validation, built from rules that passed theirs. *)
Inductive evaluator_built : ShardStrategyEvaluator -> Prop :=
| built_hash t count rule :
    0 <= count -> hash_rule_new t count = Ok rule -> evaluator_built (EvalHash rule)
| built_range rules ev : evaluator_range rules = Ok ev -> evaluator_built ev
| built_list values rules ev :
    Forall2 (fun vs r => list_rule_new vs = Ok r) values rules ->
    evaluator_list rules = Ok ev -> evaluator_built ev.

(** What a match means: the bucket is one of the rule's; the rule with the
    index is the one rule that holds the key; nothing holds an unmatched key. *)
Definition match_meaning (ev : ShardStrategyEvaluator) (key : ShardKey) (m : ShardMatch) : Prop :=
  match ev, m with
  | EvalHash rule, HashBucket b => hash_key_type rule = key_type key /\ 0 <= b < bucket_count rule
  | EvalHash rule, NoShardMatch => hash_key_type rule <> key_type key
  | EvalRange rules, RangeRule i =>
      forall j r, rules !! j = Some r -> (range_rule_matches r key = true <-> j = i)
  | EvalRange rules, NoShardMatch => Forall (fun r => range_rule_matches r key = false) rules
  | EvalList rules, ListRule i => forall j r, rules !! j = Some r -> (key ∈ list_values r <-> j = i)
  | EvalList rules, NoShardMatch => Forall (fun r => key ∉ list_values r) rules
  | _, _ => False
  end.

Section Evaluation.
Lemma list_rules_built values rules :
  Forall2 (fun vs r => list_rule_new vs = Ok r) values rules -> Forall list_rule_ok rules.
Proof.
  induction 1 as [|vs r values rules Hr _ IH]; constructor; [|done].
  pose proof (list_rule_new_spec vs) as H. rewrite Hr in H. by destruct H.
Qed.

Lemma list_rule_matches_ok {E} r key :
  list_rule_ok r -> list_rule_matches (E := E) r key = Ok (bool_decide (key ∈ list_values r)).
Proof.
  intros Hr. unfold list_rule_matches.
  destruct (list_key_type_ok (E := E) r Hr) as (t & -> & Hf). cbn [mbind result_bind]. f_equal.
  case_bool_decide as Ht; [done|]. symmetry. apply bool_decide_eq_false. intros Hk.
  rewrite Forall_forall in Hf. by apply Hf in Hk.
Qed.

Lemma list_rule_lookup_ok {E} rules key :
  Forall list_rule_ok rules ->
  list_rule_lookup (E := E) rules key
  = Ok (position (fun r => bool_decide (key ∈ list_values r)) rules).
Proof.
  induction 1 as [|r rules Hr _ IH]; cbn [list_rule_lookup position]; [done|].
  rewrite list_rule_matches_ok by done. cbn [mbind result_bind].
  case_bool_decide; [done|]. by rewrite IH.
Qed.

(** The first hit is the only one, in a list where at most one can be. *)
Lemma position_unique {A} (p : A -> bool) l i :
  pairwise (fun x y => p x = true -> p y = true -> False) l -> position p l = Some i ->
  forall j x, l !! j = Some x -> (p x = true <-> j = i).
Proof.
  intros Hp (y & Hy & Hpy & _)%position_Some j x Hx. split; [|intros ->; by simplify_eq].
  intros Hpx. destruct (decide (j = i)) as [|Hne]; [done|]. exfalso.
  destruct (decide (j < i)%nat); [eapply (Hp j i)|eapply (Hp i j)]; try done; lia.
Qed.

Lemma pairwise_impl {A} (R R' : A -> A -> Prop) l :
  (forall x y, R x y -> R' x y) -> pairwise R l -> pairwise R' l.
Proof. intros H Hl i j x y ???. eapply H, Hl; done. Qed.

Lemma deterministic_shard_hash_range key : u_range 64 (deterministic_shard_hash key).
Proof.
  assert (Hup : forall bs h, u_range 64 h -> u_range 64 (fnv1a_update h bs)).
  { induction bs as [|b bs IH]; intros h Hh; cbn [fnv1a_update]; [done|].
    apply IH. unfold u_range, wrap_u. apply Z.mod_pos_bound. lia. }
  unfold deterministic_shard_hash. destruct key; repeat apply Hup;
    unfold u_range, SHARD_HASH_SEED; lia.
Qed.

Lemma evaluate_range_meaning {E} rules ev key :
  evaluator_range rules = Ok ev ->
  exists m, evaluate_shard_key (E := E) ev key = Ok m /\ match_meaning ev key m.
Proof.
  intros H. apply bind_Ok_inv in H as ([] & Hv & [= <-]). cbn [evaluate_shard_key].
  eexists. split; [done|]. pose proof (validate_range_rules_spec rules) as Hs.
  rewrite Hv in Hs. destruct Hs as (_ & _ & Hp).
  unfold range_lookup. destruct (position _ rules) as [i|] eqn:Hpos; cbn [match_meaning].
  - eapply (position_unique (fun r => range_rule_matches r key)); [|done].
    eapply pairwise_impl; [|exact Hp]. cbn. eauto using range_rules_disjoint.
  - by apply position_None in Hpos.
Qed.

Lemma evaluate_list_meaning {E} rules ev key :
  Forall list_rule_ok rules -> evaluator_list rules = Ok ev ->
  exists m, evaluate_shard_key (E := E) ev key = Ok m /\ match_meaning ev key m.
Proof.
  intros Hok H. apply bind_Ok_inv in H as ([] & Hv & [= <-]).
  unfold validate_list_rules in Hv. destruct rules as [|first rest] eqn:Hrs; [done|].
  rewrite <- Hrs in *. apply bind_Ok_inv in Hv as (t & _ & Hv).
  apply bind_Ok_inv in Hv as ([] & _ & Hv).
  pose proof (check_list_values_spec 0 rules ∅ ltac:(set_solver)) as Hs. rewrite Hv in Hs.
  destruct Hs as [Hp _]. cbn [evaluate_shard_key]. rewrite list_rule_lookup_ok by done.
  cbn [mbind result_bind]. eexists. split; [done|].
  destruct (position _ rules) as [i|] eqn:Hpos; cbn [match_meaning].
  - intros j r Hj. rewrite <- (bool_decide_eq_true (key ∈ list_values r)).
    revert j r Hj. eapply (position_unique _ rules i); [|exact Hpos].
    eapply pairwise_impl; [|exact Hp]. cbn. intros x y Hd. rewrite !bool_decide_eq_true.
    apply Hd.
  - apply position_None in Hpos. eapply Forall_impl; [exact Hpos|]. cbn. intros r.
    by rewrite bool_decide_eq_false.
Qed.
End Evaluation.

(** A strategy that the constructors accepted answers every key, without
    a panic, with the right kind of match: a hash rule gives a bucket below
    its bucket count to the keys of its type and to no other; ranges and
    lists give the index of the one rule that holds the key, and no match
    exactly when no rule holds it. *)
Theorem shard_evaluation_exact (ev : ShardStrategyEvaluator) (key : ShardKey) :
  evaluator_built ev ->
  exists m, evaluate_shard_key (E := ShardValidationError) ev key = Ok m /\ match_meaning ev key m.
Proof.
  intros [t count rule Hc Hr|rules ev' Hr|values rules ev' Hv Hr].
  - unfold hash_rule_new in Hr. destruct (count =? 0) eqn:Hz; [done|]. simplify_eq.
    unfold evaluate_shard_key. cbn [hash_key_type bucket_count]. rewrite Hz.
    case_bool_decide as Ht; cbn [negb]; eexists; (split; [done|]); [|done].
    split; [done|]. cbn. bool_to_prop. apply Z.mod_pos_bound. lia.
  - by eapply evaluate_range_meaning.
  - eapply evaluate_list_meaning; [|done]. by eapply list_rules_built.
Qed.

(** Two adjacent integer ranges, and the key on their common boundary. *)
Lemma shard_evaluation_exact_witness :
  let low := {| lower_bound := KInteger 0; lower_inclusive := true;
                upper_bound := KInteger 100; upper_inclusive := false |} in
  let high := {| lower_bound := KInteger 100; lower_inclusive := true;
                 upper_bound := KInteger 200; upper_inclusive := true |} in
  evaluate_shard_key (E := ShardValidationError) (EvalRange [low; high]) (KInteger 100)
  = Ok (RangeRule 1) /\
  exists m, evaluate_shard_key (E := ShardValidationError) (EvalRange [low; high]) (KInteger 100) = Ok m
            /\ match_meaning (EvalRange [low; high]) (KInteger 100) m.
Proof.
  intros low high. split; [reflexivity|]. apply (shard_evaluation_exact (EvalRange [low; high])).
  apply (built_range [low; high]). reflexivity.
Defined.

(** ** Facts: route maps *)

Section RouteMaps.
Lemma check_duplicate_shards_spec seen routes :
  match check_duplicate_shards seen routes with
  | Ok _ => NoDup (route_shard_id <$> routes) /\ Forall (fun r => route_shard_id r ∉ seen) routes
  | Err e => exists pre r post,
      routes = pre ++ r :: post /\ e = DuplicateShardId (route_shard_id r) /\
      route_shard_id r ∈ seen ++ (route_shard_id <$> pre)
  | Panic => False
  end.
Proof.
  revert seen. induction routes as [|r routes IH]; intros seen; cbn [check_duplicate_shards].
  { split; constructor. }
  destruct (existsb _ seen) eqn:He.
  - exists [], r, routes. split_and!; [done|done|]. rewrite fmap_nil, app_nil_r.
    apply existsb_exists in He as (x & Hx & Hb). apply bool_decide_eq_true in Hb as ->.
    by apply list_elem_of_In.
  - assert (Hr : route_shard_id r ∉ seen).
    { intros Hin. apply not_true_iff_false in He. apply He, existsb_exists.
      exists (route_shard_id r). split; [by apply list_elem_of_In|by apply bool_decide_eq_true]. }
    specialize (IH (seen ++ [route_shard_id r])).
    destruct (check_duplicate_shards (seen ++ [route_shard_id r]) routes) as [[]|e|]; [| |done].
    + destruct IH as [Hn Hf]. rewrite Forall_forall in Hf. split.
      * cbn. constructor; [|done]. intros (q & Hq & Hin)%list_elem_of_fmap.
        apply Hf in Hin. apply Hin. rewrite <- Hq. set_solver.
      * constructor; [done|]. apply Forall_forall. intros q Hq. apply Hf in Hq. set_solver.
    + destruct IH as (pre & q & post & -> & -> & Hin). exists (r :: pre), q, post.
      split_and!; [done|done|]. cbn. by rewrite <- app_assoc in Hin.
Qed.
End RouteMaps.

(** [ShardRouteMap::new] accepts exactly the non-empty lists of routes
    to distinct shards, of one route under the [Reject] policy, and reports
    what is wrong with any other: the first repeated shard is the one named. *)
Theorem route_map_new_exact (scope : ShardScope) (strategy : ShardStrategy)
    (policy : MultiShardPolicy) (routes : list ShardRoute) :
  match route_map_new scope strategy policy routes with
  | Ok m =>
      m = {| map_scope := scope; map_strategy := strategy; map_policy := policy;
             map_routes := routes |} /\
      routes <> [] /\ (policy = Reject -> length routes = 1%nat) /\
      NoDup (route_shard_id <$> routes)
  | Err EmptyShardRouteMap => routes = []
  | Err MultiShardRejectedErr => policy = Reject /\ (1 < length routes)%nat
  | Err (DuplicateShardId s) =>
      policy <> Reject /\
      exists pre r post, routes = pre ++ r :: post /\ s = route_shard_id r /\
                         s ∈ route_shard_id <$> pre
  | _ => False
  end.
Proof.
  unfold route_map_new. case_bool_decide as Hne; [done|].
  assert (Hlen : (0 < length routes)%nat) by (destruct routes; [done|cbn; lia]).
  destruct (bool_decide (policy = Reject) && (1 <? len routes)) eqn:Hp.
  { bool_to_prop. unfold len in *. rewrite bool_decide_eq_true in *. split; [done|lia]. }
  pose proof (check_duplicate_shards_spec [] routes) as Hd.
  destruct (check_duplicate_shards [] routes) as [[]|e|]; cbn [mbind result_bind]; [| |done].
  - split_and!; [done|done| |by destruct Hd]. intros ->. unfold len in Hp.
    rewrite bool_decide_true in Hp by done. cbn [andb] in Hp. bool_to_prop. lia.
  - destruct Hd as (pre & r & post & -> & -> & Hin). split; [|by eauto 10]. intros ->.
    rewrite bool_decide_true in Hp by done. cbn [andb] in Hp. bool_to_prop. unfold len in Hp.
    rewrite length_app in Hp. cbn in Hp. destruct pre; [|cbn in Hp; lia].
    cbn in Hin. by apply elem_of_nil in Hin.
Qed.

(** ** Facts: offline validation *)

Definition rule_route (r : ShardRuleDefinition) : str :=
  match r with DefHash route _ | DefRange route _ _ _ _ | DefList route _ => route end.

Definition rule_list_values (r : ShardRuleDefinition) : list ShardKey :=
  match r with DefList _ values => values | _ => [] end.

(** The part of the validation that concerns one rule. *)
Definition rule_well_formed (known : gset str) (r : ShardRuleDefinition) : Prop :=
  rule_route r ∈ known /\
  match r with
  | DefHash _ weight => weight <> 0
  | DefRange _ l li u ui => exists rule, with_bounds l li u ui = Ok rule
  | DefList _ _ => True
  end.

Section OfflineValidation.
Lemma report_push_not_nil report c m : report_push report c m <> [].
Proof. unfold report_push. by destruct report. Qed.

Lemma check_target_nil known kind i route report :
  check_target known kind i route report = [] <-> report = [] /\ route ∈ known.
Proof.
  unfold check_target. case_bool_decide; [tauto|]. split; [|tauto].
  by intros ?%report_push_not_nil.
Qed.

Lemma check_list_duplicates_spec i values rv seen report :
  let '(seen', report') := check_list_duplicates i values rv seen report in
  seen' = list_to_set values ∪ seen /\
  (rv ⊆ seen ->
   (report' = [] <-> report = [] /\ NoDup values /\ forall v, v ∈ values -> v ∉ seen)).
Proof.
  revert rv seen report. induction values as [|x values IH]; intros rv seen report;
    cbn [check_list_duplicates].
  { split; [set_solver|]. intros _. split; [|tauto]. intros Hr. split_and!; [done|constructor|].
    by intros v ?%not_elem_of_nil. }
  match goal with |- context [check_list_duplicates i values _ _ ?r] => set (report1 := r) end.
  specialize (IH ({[x]} ∪ rv) ({[x]} ∪ seen) report1).
  destruct (check_list_duplicates i values _ _ report1) as [seen' report'].
  destruct IH as [-> IH]. split; [set_solver|]. intros Hsub. rewrite (IH ltac:(set_solver)).
  assert (Hr1 : report1 = [] <-> report = [] /\ x ∉ seen).
  { unfold report1. destruct (bool_decide (x ∈ rv) || bool_decide (x ∈ seen)) eqn:Hb.
    - rewrite orb_true_iff, !bool_decide_eq_true in Hb.
      split; [by intros ?%report_push_not_nil|]. intros [_ Hx]. exfalso. set_solver.
    - rewrite orb_false_iff, !bool_decide_eq_false in Hb. tauto. }
  rewrite Hr1, NoDup_cons. set_solver.
Qed.

Lemma check_rules_nil known i rules seen report :
  check_rules known i rules seen report = [] <->
  report = [] /\ Forall (rule_well_formed known) rules /\
  NoDup (rules ≫= rule_list_values) /\ forall v, v ∈ rules ≫= rule_list_values -> v ∉ seen.
Proof.
  revert i seen report. induction rules as [|[route w|route l li u ui|route vs] rules IH];
    intros i seen report; cbn [check_rules].
  - rewrite Forall_nil. cbn. split; [|tauto]. intros Hr. split_and!; [done|done|constructor|].
    by intros v ?%not_elem_of_nil.
  - rewrite IH, Forall_cons. unfold rule_well_formed at 2. cbn [rule_route bind_cons].
    destruct (Z.eqb_spec w 0) as [Hw|Hw].
    + split; [by intros [?%report_push_not_nil _]|]. tauto.
    + rewrite check_target_nil. tauto.
  - rewrite IH, Forall_cons. unfold rule_well_formed at 2. cbn [rule_route].
    destruct (with_bounds l li u ui) as [rule|e|].
    + rewrite check_target_nil. split; [|tauto]. intros ([? ?] & ?). split_and!; eauto; tauto.
    + split; [by intros [?%report_push_not_nil _]|]. by intros (_ & [[_ [? ?]] _] & _).
    + split; [by intros [?%report_push_not_nil _]|]. by intros (_ & [[_ [? ?]] _] & _).
  - pose proof (check_list_duplicates_spec i vs ∅ seen
                  (check_target known (lit "list") i route report)) as Hd.
    destruct (check_list_duplicates i vs ∅ seen _) as [seen' report'].
    destruct Hd as [-> Hd]. rewrite IH, (Hd ltac:(set_solver)), check_target_nil, Forall_cons.
    unfold rule_well_formed at 2. cbn [rule_route]. rewrite bind_cons. cbn [rule_list_values].
    rewrite NoDup_app. set_solver.
Qed.

Lemma check_tables_nil tables report :
  check_tables tables report = [] <->
  report = [] /\ Forall (fun t => table_enabled t = true -> shard_key_column t <> None) tables.
Proof.
  revert report. induction tables as [|t tables IH]; intros report; cbn [check_tables].
  { rewrite Forall_nil. tauto. }
  rewrite IH, Forall_cons.
  destruct (table_enabled t); cbn [andb]; [|naive_solver].
  case_bool_decide as Hc; [|naive_solver].
  split; [by intros [?%report_push_not_nil _]|]. intros (_ & H & _). by destruct (H eq_refl).
Qed.
End OfflineValidation.

(** C39. [validate_route_map] reports nothing exactly for the route maps that
    have at most one default route, a shard key column for every enabled
    table, at least one rule, a known route for every rule, a positive weight
    for every hash rule, ordered bounds for every range rule, and no key
    listed twice, in one list rule or across them. *)
Theorem validate_route_map_exact (m : RouteMapValidationInput) :
  report_is_valid (validate_route_map m) = true <->
  (length (default_routes (routes m)) <= 1)%nat /\
  Forall (fun t => table_enabled t = true -> shard_key_column t <> None) (sharded_tables m) /\
  shard_rules m <> [] /\
  Forall (rule_well_formed (list_to_set (route_name <$> routes m))) (shard_rules m) /\
  NoDup (shard_rules m ≫= rule_list_values).
Proof.
  unfold report_is_valid. rewrite bool_decide_eq_true. unfold validate_route_map.
  rewrite check_rules_nil.
  match goal with |- ?r = [] /\ _ <-> _ => assert (Hr : r = [] <->
    (length (default_routes (routes m)) <= 1)%nat /\
    Forall (fun t => table_enabled t = true -> shard_key_column t <> None) (sharded_tables m) /\
    shard_rules m <> []) end.
  { destruct (shard_rules m).
    { split; [by intros ?%report_push_not_nil|]. by intros (_ & _ & []). }
    rewrite check_tables_nil. unfold len.
    destruct (Z.ltb_spec 1 (Z.of_nat (length (default_routes (routes m))))).
    - split; [by intros [?%report_push_not_nil _]|]. lia.
    - split; [intros [_ Ht]; split_and!; [lia|done|done]|]. tauto. }
  rewrite Hr. split; [tauto|]. intros (H1 & H2 & H3 & H4 & H5). split_and!; auto. set_solver.
Qed.

(** ** Facts: priorities *)

Section Priorities.
(** The tuple order is the lexicographic order of the flattened key. *)
Lemma priority_le_lex a b :
  priority_le a b
  = lex_le (a.1.1 :: Z.b2z a.1.2 :: encode_utf8 a.2) (b.1.1 :: Z.b2z b.1.2 :: encode_utf8 b.2).
Proof.
  destruct a as [[pa da] na], b as [[pb db] nb]. unfold priority_le, compare_priority, lex_le.
  cbn [fst snd lex_compare]. destruct (pa ?= pb); [|done|done].
  destruct (Z.b2z da ?= Z.b2z db); done.
Qed.

Lemma seq_ascending n m : StronglySorted lt (seq n m).
Proof.
  revert n. induction m as [|m IH]; intros n; cbn; [constructor|]. constructor; [done|].
  apply Forall_forall. intros x Hx%elem_of_seq. lia.
Qed.

(** A list of shard ids sorted without repeats keeps its elements. *)
Lemma sort_shard_ids_spec ids :
  Forall valid_str ids ->
  StronglySorted (fun a b => str_le a b = true /\ a <> b) (sort_shard_ids ids) /\
  forall s, s ∈ sort_shard_ids ids <-> s ∈ ids.
Proof.
  intros Hv. split.
  - apply dedup_strict.
    + intros a b. rewrite sort_by_perm. rewrite Forall_forall in Hv. intros Ha Hb H1 H2.
      apply encode_utf8_inj; [auto..|]. by apply lex_le_antisym.
    + apply sort_by_ordered; unfold str_le; eauto using lex_le_total, lex_le_trans.
  - intros s. unfold sort_shard_ids. rewrite dedup_elem. by rewrite sort_by_perm.
Qed.
End Priorities.

(** [ordered_route_indices] lists every index once, by priority (a route
    without one last), non-default routes first, then by name, and routes
    that agree on all of it in the order they were given. *)
Theorem ordered_route_indices_sorted (rs : list RouteDefinition) :
  ordered_route_indices rs ≡ₚ seq 0 (length rs) /\
  StronglySorted (fun i j =>
      compare_priority (route_key_at rs i) (route_key_at rs j) = Lt \/
      (compare_priority (route_key_at rs i) (route_key_at rs j) = Eq /\ (i < j)%nat))
    (ordered_route_indices rs).
Proof.
  unfold ordered_route_indices. split; [apply sort_by_perm|].
  set (le := fun i j => priority_le (route_key_at rs i) (route_key_at rs j)).
  assert (Hs : StronglySorted (stable_order le lt) (sort_by le (seq 0 (length rs)))).
  { apply sort_by_stable; [unfold le..|apply seq_ascending].
    - intros x y. rewrite !priority_le_lex. apply lex_le_total.
    - intros x y z. rewrite !priority_le_lex. apply lex_le_trans. }
  clear -Hs. induction Hs as [|i l Hl IH Hi]; [constructor|]. constructor; [done|].
  eapply Forall_impl; [exact Hi|]. intros j [H1 H2]. revert H1 H2. unfold le.
  rewrite !priority_le_lex. unfold lex_le.
  rewrite (lex_compare_antisym (_ :: _ :: encode_utf8 (route_key_at rs i).2)).
  destruct (route_key_at rs i) as [[pi di] ni], (route_key_at rs j) as [[pj dj] nj].
  unfold compare_priority, str_cmp. cbn [fst snd lex_compare].
  destruct (pi ?= pj), (Z.b2z di ?= Z.b2z dj), (lex_compare (encode_utf8 ni) (encode_utf8 nj));
    cbn; intros H1 H2; try discriminate H1; auto.
Qed.
