(* ===== verification/PolicyRuntime.v ===== *)
(** * PolicyRuntime: policy contexts, plugin limits and the policy store

    Models [pg-kinetic-proxy/src/routing/policy.rs] and the policy part of
    [config.rs]: the context a policy sees, cut to its size limit; the checks
    on plugins; and the store of the current policy with its validated
    reload. Durations are nanoseconds. Left out: the sampling of audit events
    (floating point and the library's hasher), metrics, and the WebAssembly
    evaluator, whose check of a module is the parameter [wasm_check]. *)

From S2P Require Import Prelude Text Lsn RoutingTypes Route Policy Sharding.

(** ** The context *)

Record PolicyEvalInput := {
  pi_database : str;
  pi_user : str;
  pi_application_name : option str;
  pi_route : option str;
  pi_shard : option str;
  pi_backend_role : BackendRole;
  pi_query_class : QueryClass;
  pi_transaction_mode : TransactionAccessMode;
  pi_freshness_state : FreshnessStatus;
  pi_routing_decision : option RoutingDecision;
  pi_shard_route_decision : option ShardRouteDecision;
  pi_password : option str;
  pi_bind_values : list str;
  pi_tls_certificate_body : option str;
  pi_raw_sql_text : option str;
  pi_secrets : list str;
}.

Record PolicyEvalOutput := {
  po_context : PolicyContext;
  po_rendered_context : str;
  po_rendered_context_bytes : Z;
  po_truncated : bool;
}.

Definition transaction_mode_label (m : TransactionAccessMode) : str :=
  match m with
  | ReadOnly => lit "read_only"
  | ReadWrite => lit "read_write"
  end.

Definition freshness_state_label (s : FreshnessStatus) : str :=
  match s with
  | FSatisfied => lit "satisfied"
  | FWaiting => lit "waiting"
  | FStale => lit "stale"
  | FUnknown => lit "unknown"
  | FUnavailable => lit "unavailable"
  end.

Definition public (name : string) (value : str) : PolicyContextField := PublicField (lit name) value.

Definition has_sensitive_inputs (i : PolicyEvalInput) : bool :=
  negb (is_none (pi_password i)) || negb (is_nil (pi_bind_values i))
  || negb (is_none (pi_tls_certificate_body i)) || negb (is_none (pi_raw_sql_text i))
  || negb (is_nil (pi_secrets i)).

(** [PolicyContextBuilder::build_fields]. *)
Definition build_fields (i : PolicyEvalInput) : list PolicyContextField :=
  [ public "database" (pi_database i);
    public "user" (pi_user i);
    public "application_name" (default (lit "<none>") (pi_application_name i));
    public "route" (default (lit "<none>") (pi_route i));
    public "shard" (default (lit "<none>") (pi_shard i));
    public "backend_role" (role_str (pi_backend_role i));
    public "query_class" (class_str (pi_query_class i));
    public "transaction_mode" (transaction_mode_label (pi_transaction_mode i));
    public "freshness_state" (freshness_state_label (pi_freshness_state i)) ]
  ++ match pi_routing_decision i with
     | Some d =>
         [ public "route_target_role" (role_str (target_role d));
           public "routing_hint" (hint_str (hint d));
           public "routing_reason" (reason_str (reason d));
           public "fallback_policy" (fallback_str (fallback_policy d));
           public "freshness_policy" (freshness_str (freshness_requirement d)) ]
     | None => []
     end
  ++ match pi_shard_route_decision i with
     | Some d =>
         [ public "multi_shard_policy" (multi_shard_policy_str (decision_policy d));
           public "shard_route_reason" (shard_reason_str (decision_reason d)) ]
         ++ match decision_route d with
            | Some r =>
                [ public "route_key" (rk_metric_label (target_route_key (route_target r)));
                  public "route_target_role" (role_str (shard_backend_role (route_target r)));
                  public "shard_target" (route_shard_id r) ]
            | None => []
            end
     | None => []
     end
  ++ (if has_sensitive_inputs i then [public "sensitive_inputs" REDACTED_VALUE] else []).

(** [rendered_fields_len_bytes]: the same sum as the context's own. *)
Definition rendered_fields_len_bytes (fs : list PolicyContextField) : Z :=
  match fs with
  | first :: rest => field_rendered_len_bytes first + sum_lengths rest + len rest * 2
  | [] => 0
  end.

Definition rendered_prefix_len_bytes (fs : list PolicyContextField) (end_index : nat) : Z :=
  let prefix := take end_index fs in
  rendered_fields_len_bytes prefix + if is_nil prefix then 0 else 2.

(** The characters that fit in the budget. *)
Fixpoint take_chars (budget : Z) (s : str) : str :=
  match s with
  | [] => []
  | c :: r => if len_utf8 c <=? budget then c :: take_chars (budget - len_utf8 c) r else []
  end.

Definition truncate_to_byte_len (value : str) (max_bytes : Z) : str :=
  if str_len value <=? max_bytes then value else take_chars max_bytes value.

(** The first loop: whole fields are dropped from the end while more than one
    is left. *)
Fixpoint drop_fields (fuel : nat) (fs : list PolicyContextField) (max_bytes : Z) (truncated : bool)
    : list PolicyContextField * bool :=
  match fuel with
  | O => (fs, truncated)
  | S fuel =>
      if (max_bytes <? rendered_fields_len_bytes fs) && (1 <? len fs) then
        drop_fields fuel (removelast fs) max_bytes true
      else (fs, truncated)
  end.

(** The second loop: the last field is cut, or dropped; [None] is no fuel. *)
Fixpoint cut_fields (fuel : nat) (fs : list PolicyContextField) (max_bytes : Z) (truncated : bool)
    : option (list PolicyContextField * bool) :=
  match fuel with
  | O => None
  | S fuel =>
      if max_bytes <? rendered_fields_len_bytes fs then
        let last_index := (length fs - 1)%nat in
        let available := sat_sub max_bytes (rendered_prefix_len_bytes fs last_index) in
        match fs !! last_index with
        | None => None
        | Some f =>
            let name_len := str_len (field_name f) + 1 in
            if available <=? name_len then
              if len fs =? 1 then Some ([], true)
              else cut_fields fuel (removelast fs) max_bytes true
            else
              let max_value_len := available - name_len in
              if max_value_len <? str_len (rendered_value f) then
                cut_fields fuel
                  (<[last_index :=
                     PublicField (field_name f) (truncate_to_byte_len (rendered_value f) max_value_len)]> fs)
                  max_bytes true
              else if 1 <? len fs then cut_fields fuel (removelast fs) max_bytes true
              else Some (fs, truncated)
        end
      else Some (fs, truncated)
  end.

(** [fit_context_fields]. *)
Definition fit_context_fields (fs : list PolicyContextField) (max_bytes : Z)
    : option (list PolicyContextField * bool) :=
  if (max_bytes =? 0) || is_nil fs then Some ([], negb (is_nil fs))
  else
    let '(fs, truncated) := drop_fields (length fs) fs max_bytes false in
    cut_fields (length fs + 2) fs max_bytes truncated.

(** [PolicyContextBuilder::build]. *)
Definition build_context (max_bytes : Z) (i : PolicyEvalInput) : option PolicyEvalOutput :=
  '(fs, truncated) ← fit_context_fields (build_fields i) max_bytes;
  Some {| po_context := fs; po_rendered_context := render_context fs;
          po_rendered_context_bytes := str_len (render_context fs); po_truncated := truncated |}.

(** ** Facts: the size of a context *)

Section ContextFacts.
Lemma str_len_nonneg s : 0 <= str_len s.
Proof. apply len_nonneg. Qed.

Lemma field_len_pos f : 1 <= field_rendered_len_bytes f.
Proof.
  unfold field_rendered_len_bytes. pose proof (str_len_nonneg (field_name f)).
  pose proof (str_len_nonneg (rendered_value f)). lia.
Qed.

Lemma sum_lengths_nonneg fs : 0 <= sum_lengths fs.
Proof.
  induction fs as [|f fs IH]; [done|].
  change (sum_lengths (f :: fs)) with (field_rendered_len_bytes f + sum_lengths fs).
  pose proof (field_len_pos f). lia.
Qed.

(** The sum is the length of the rendered text. *)
Lemma render_context_len fs : str_len (render_context fs) = context_rendered_len_bytes fs.
Proof.
  assert (Hf : forall f, str_len (render_field f) = field_rendered_len_bytes f).
  { intros f. unfold render_field, field_rendered_len_bytes. rewrite !str_len_app.
    change (str_len (lit "=")) with 1. lia. }
  induction fs as [|f [|g fs] IH]; [done| |].
  - cbn [render_context context_rendered_len_bytes]. rewrite Hf. unfold len, sum_lengths.
    cbn [fold_right length]. lia.
  - change (render_context (f :: g :: fs)) with (render_field f ++ lit ", " ++ render_context (g :: fs)).
    rewrite !str_len_app, Hf, IH. change (str_len (lit ", ")) with 2.
    cbn [context_rendered_len_bytes].
    change (sum_lengths (g :: fs)) with (field_rendered_len_bytes g + sum_lengths fs).
    rewrite !len_cons. lia.
Qed.

Lemma take_chars_len budget s : 0 <= budget -> str_len (take_chars budget s) <= budget.
Proof.
  revert budget. induction s as [|c s IH]; intros budget Hb; cbn [take_chars]; [done|].
  destruct (Z.leb_spec (len_utf8 c) budget); [|done].
  rewrite str_len_cons. pose proof (IH (budget - len_utf8 c) ltac:(lia)). lia.
Qed.

Lemma truncate_len v n : 0 <= n -> str_len (truncate_to_byte_len v n) <= n.
Proof.
  intros Hn. unfold truncate_to_byte_len. destruct (Z.leb_spec (str_len v) n); [done|].
  by apply take_chars_len.
Qed.

Lemma removelast_length {A} (l : list A) : l <> [] -> S (length (removelast l)) = length l.
Proof.
  intros Hl. destruct (exists_last Hl) as (l' & x & ->). rewrite removelast_last, length_app. cbn. lia.
Qed.

(** After the first loop the fields fit, or one field is left. *)
Lemma drop_fields_spec fuel fs max truncated :
  (length fs <= fuel)%nat -> fs <> [] ->
  let '(fs', t') := drop_fields fuel fs max truncated in
  fs' `prefix_of` fs /\ fs' <> [] /\
  (rendered_fields_len_bytes fs' <= max \/ length fs' = 1%nat) /\
  (t' = truncated /\ fs' = fs \/ t' = true /\ max < rendered_fields_len_bytes fs).
Proof.
  revert fs truncated. induction fuel as [|fuel IH]; intros fs truncated Hf Hne.
  { by destruct fs; cbn in Hf; [|lia]. }
  cbn [drop_fields]. destruct (Z.ltb_spec max (rendered_fields_len_bytes fs)) as [Hlt|Hle];
    [|split_and!; auto; by left]. destruct (Z.ltb_spec 1 (len fs)) as [H1|H1]; cbn [andb].
  - pose proof (removelast_length fs Hne) as Hl. unfold len in H1.
    specialize (IH (removelast fs) true ltac:(lia)).
    assert (Hne' : removelast fs <> []) by (intros E; rewrite E in Hl; cbn in Hl; lia).
    specialize (IH Hne'). destruct (drop_fields fuel (removelast fs) max true) as [fs' t'].
    destruct IH as (Hp & Hn & Hor & Ht). split_and!; try done.
    + etransitivity; [exact Hp|]. destruct (exists_last Hne) as (l & x & ->).
      rewrite removelast_last. by exists [x].
    + right. split; [|done]. by destruct Ht as [[-> _]|[-> _]].
  - unfold len in H1. destruct fs as [|f [|g fs]]; [done| |cbn in H1; lia].
    split_and!; auto.
Qed.

(** The second loop cuts one field to fit. *)
Lemma cut_fields_spec fuel fs max truncated :
  0 < max -> fs <> [] -> (rendered_fields_len_bytes fs <= max \/ length fs = 1%nat) ->
  exists fs' t', cut_fields (S (S fuel)) fs max truncated = Some (fs', t') /\
    rendered_fields_len_bytes fs' <= max /\
    (t' = truncated /\ fs' = fs \/ t' = true /\ max < rendered_fields_len_bytes fs).
Proof.
  intros Hmax Hne Hor. cbn [cut_fields].
  destruct (Z.ltb_spec max (rendered_fields_len_bytes fs)) as [Hlt|Hle];
    [|eexists fs, truncated; split_and!; auto].
  destruct Hor as [?|H1]; [lia|]. destruct fs as [|f [|g fs]]; [done| |cbn in H1; lia].
  cbn [length Nat.sub lookup list_lookup]. change (len [f] =? 1) with true.
  change (1 <? len [f]) with false. cbn match.
  assert (Hpre : rendered_prefix_len_bytes [f] 0 = 0) by done. rewrite Hpre.
  assert (Hlen : rendered_fields_len_bytes [f] = str_len (field_name f) + 1 + str_len (rendered_value f)).
  { unfold rendered_fields_len_bytes, field_rendered_len_bytes, len, sum_lengths.
    cbn [fold_right length]. lia. }
  rewrite Hlen in Hlt. unfold sat_sub. rewrite Z.sub_0_r, Z.max_r by lia.
  destruct (Z.leb_spec max (str_len (field_name f) + 1)) as [Hs|Hs].
  { eexists [], true. split_and!; [done|cbn; lia|]. right. split; [done|lia]. }
  set (n := max - (str_len (field_name f) + 1)).
  rewrite (proj2 (Z.ltb_lt n (str_len (rendered_value f)))) by (unfold n; lia).
  set (f' := PublicField (field_name f) (truncate_to_byte_len (rendered_value f) n)).
  cbn [insert list_insert cut_fields].
  assert (Hfit : rendered_fields_len_bytes [f'] <= max).
  { unfold rendered_fields_len_bytes, field_rendered_len_bytes, f'.
    cbn [field_name rendered_value]. unfold len, sum_lengths. cbn [fold_right length].
    pose proof (truncate_len (rendered_value f) n ltac:(unfold n; lia)). unfold n in *. lia. }
  rewrite (proj2 (Z.ltb_ge _ _) Hfit). eexists [f'], true. split_and!; [done|done|].
  right. split; [done|lia].
Qed.

Lemma fit_context_fields_spec fs max :
  0 <= max ->
  exists fs' t, fit_context_fields fs max = Some (fs', t) /\
    rendered_fields_len_bytes fs' <= max /\
    (t = false /\ fs' = fs \/ t = true /\ max < rendered_fields_len_bytes fs).
Proof.
  intros Hmax. unfold fit_context_fields. destruct (Z.eqb_spec max 0) as [->|Hm]; cbn [orb].
  { destruct fs as [|f fs]; eexists [], _; (split_and!; [done|done|]); [by left|right].
    split; [done|]. unfold rendered_fields_len_bytes. pose proof (field_len_pos f). pose proof (sum_lengths_nonneg fs).
    pose proof (len_nonneg fs). lia. }
  destruct (decide (fs = [])) as [->|Hne]; [by eexists [], _; split_and!; [|cbn; lia|left]|].
  replace (is_nil fs) with false by (by destruct fs).
  pose proof (drop_fields_spec (length fs) fs max false ltac:(lia) Hne) as Hd.
  destruct (drop_fields (length fs) fs max false) as [fs1 t1].
  destruct Hd as (Hp & Hn1 & Hor & Ht1).
  replace (length fs1 + 2)%nat with (S (S (length fs1))) by lia.
  destruct (cut_fields_spec (length fs1) fs1 max t1) as (fs2 & t2 & -> & Hle & Ht2);
    [lia|done|done|]. eexists fs2, t2. split_and!; [done|done|].
  destruct Ht1 as [[-> ->]|[-> ?]], Ht2 as [[-> ->]|[-> ?]]; auto.
Qed.
End ContextFacts.

(** The inputs that must not reach a policy, erased. *)
Definition erase_sensitive (i : PolicyEvalInput) : PolicyEvalInput := {|
  pi_database := pi_database i;
  pi_user := pi_user i;
  pi_application_name := pi_application_name i;
  pi_route := pi_route i;
  pi_shard := pi_shard i;
  pi_backend_role := pi_backend_role i;
  pi_query_class := pi_query_class i;
  pi_transaction_mode := pi_transaction_mode i;
  pi_freshness_state := pi_freshness_state i;
  pi_routing_decision := pi_routing_decision i;
  pi_shard_route_decision := pi_shard_route_decision i;
  pi_password := None;
  pi_bind_values := [];
  pi_tls_certificate_body := None;
  pi_raw_sql_text := None;
  pi_secrets := if has_sensitive_inputs i then [[]] else [];
|}.

(** The context a policy sees always exists and fits its limit: its text
    is no longer than the configured number of bytes, the size it reports is
    the size of the text, and it is cut only when the whole would not fit.
    It says nothing of a password, bound values, a certificate, the SQL text
    or a secret beyond whether there was one. *)
Theorem policy_context_bounded (max_bytes : Z) (i : PolicyEvalInput) :
  0 <= max_bytes ->
  exists o, build_context max_bytes i = Some o /\
    po_rendered_context_bytes o = str_len (po_rendered_context o) /\
    po_rendered_context_bytes o = context_rendered_len_bytes (po_context o) /\
    po_rendered_context_bytes o <= max_bytes /\
    (po_truncated o = true <-> max_bytes < rendered_fields_len_bytes (build_fields i)) /\
    (po_truncated o = false -> po_context o = build_fields i) /\
    build_context max_bytes (erase_sensitive i) = Some o.
Proof.
  intros Hmax.
  assert (Herase : build_fields (erase_sensitive i) = build_fields i).
  { unfold build_fields. f_equal. f_equal. f_equal.
    replace (has_sensitive_inputs (erase_sensitive i)) with (has_sensitive_inputs i); [done|].
    unfold erase_sensitive, has_sensitive_inputs at 2. cbn. by destruct (has_sensitive_inputs i). }
  unfold build_context. rewrite Herase.
  destruct (fit_context_fields_spec (build_fields i) max_bytes Hmax) as (fs & t & -> & Hle & Ht).
  cbn [mbind option_bind]. eexists. split; [done|].
  cbn [po_context po_rendered_context po_rendered_context_bytes po_truncated].
  pose proof (render_context_len fs) as Hr.
  assert (Hfits : str_len (render_context fs) <= max_bytes).
  { rewrite Hr. by destruct fs. }
  destruct Ht as [[-> ->]|[-> Hlt]]; split_and!; try done.
  split; [done|]. intros Hlt. lia.
Qed.

Definition example_policy_input : PolicyEvalInput := {|
  pi_database := lit "db"; pi_user := lit "u"; pi_application_name := None; pi_route := None;
  pi_shard := None; pi_backend_role := Primary; pi_query_class := Write;
  pi_transaction_mode := ReadWrite; pi_freshness_state := FUnknown; pi_routing_decision := None;
  pi_shard_route_decision := None; pi_password := Some (lit "hunter2"); pi_bind_values := [];
  pi_tls_certificate_body := None; pi_raw_sql_text := None; pi_secrets := [] |}.

Lemma policy_context_bounded_witness :
  (exists o, build_context 20 example_policy_input = Some o /\
     po_rendered_context o = lit "database=db, user=u" /\ po_truncated o = true) /\
  exists o, build_context 20 example_policy_input = Some o /\ po_rendered_context_bytes o <= 20.
Proof.
  split; [eexists; split; [vm_compute; reflexivity|by split]|].
  destruct (policy_context_bounded 20 example_policy_input) as (o & Ho & _ & _ & Hle & _); [lia|].
  by exists o.
Defined.

(** ** Configuration and runtime *)

Inductive InlinePolicyActionConfig :=
| InlineAllow
| InlineDeny (reason : str)
| InlineRequirePrimary
| InlineRequireReplica
| InlineRouteOverride (target_id : str)
| InlineShardOverride (target_id : str)
| InlineWasm (module_path : str).

Record InlinePolicyConfig := {
  inline_policy_id : PolicyId;
  inline_hook_point : PolicyHookPoint;
  inline_action : InlinePolicyActionConfig;
}.

Record PolicyConfig := {
  cfg_policy_mode : PolicyMode;
  cfg_policy_files : list str;
  cfg_inline_rules : list InlinePolicyConfig;
  cfg_policy_audit_enabled : bool;
  cfg_policy_wasm_enabled : bool;
  cfg_policy_eval_timeout_ms : Z;
  cfg_policy_max_context_bytes : Z;
}.

Record PolicyRuntime := {
  policy_eval_timeout : Z;
  policy_max_context_bytes : Z;
  policy_mode : PolicyMode;
  policy_failure_mode_set : option PolicyFailureMode;
  policy_audit_enabled : bool;
  policy_wasm_enabled : bool;
}.

(** [PolicyRuntime::from_config]. *)
Definition runtime_from_config (c : PolicyConfig) : PolicyRuntime := {|
  policy_eval_timeout := cfg_policy_eval_timeout_ms c * 1000000;
  policy_max_context_bytes := cfg_policy_max_context_bytes c;
  policy_mode := cfg_policy_mode c;
  policy_failure_mode_set := None;
  policy_audit_enabled := cfg_policy_audit_enabled c;
  policy_wasm_enabled := cfg_policy_wasm_enabled c;
|}.

(** [PolicyRuntime::policy_failure_mode]. *)
Definition policy_failure_mode (r : PolicyRuntime) : PolicyFailureMode :=
  match policy_failure_mode_set r with
  | Some mode => mode
  | None => default_for_policy_mode (policy_mode r)
  end.

Definition policy_failure_action_for_error (r : PolicyRuntime) (e : PolicyPluginErrorCode)
    : option PolicyAction :=
  fallback_action (policy_failure_mode r).

(** ** Plugin limits *)

Record PolicyPluginHostLimits := {
  max_input_bytes : Z;
  max_output_bytes : Z;
  max_evaluation_duration : Z;
}.

Definition plugin_host_limits (r : PolicyRuntime) : PolicyPluginHostLimits := {|
  max_input_bytes := policy_max_context_bytes r;
  max_output_bytes := policy_max_context_bytes r;
  max_evaluation_duration := policy_eval_timeout r;
|}.

Definition validate_input (l : PolicyPluginHostLimits) (i : PolicyPluginInput)
    : result PolicyPluginErrorCode unit :=
  if max_input_bytes l <? input_rendered_len_bytes i then Err InputTooLarge
  else if access_filesystem (in_requested_access i) then Err FilesystemAccessDenied
  else if access_network (in_requested_access i) then Err NetworkAccessDenied
  else if access_secret (in_requested_access i) then Err SecretAccessDenied
  else Ok tt.

Definition validate_output (l : PolicyPluginHostLimits) (o : PolicyPluginOutput)
    : result PolicyPluginErrorCode unit :=
  if max_output_bytes l <? output_rendered_len_bytes o then Err OutputTooLarge else Ok tt.

Definition validate_evaluation_duration (l : PolicyPluginHostLimits) (elapsed : Z)
    : result PolicyPluginErrorCode unit :=
  if max_evaluation_duration l <? elapsed then Err EvaluationTimeout else Ok tt.

Definition policy_plugin_action_to_inline_action (a : PolicyPluginAction)
    : result PolicyPluginErrorCode InlinePolicyActionConfig :=
  match a with
  | PluginAllow => Ok InlineAllow
  | PluginDeny reason => Ok (InlineDeny reason)
  | PluginRequirePrimary => Ok InlineRequirePrimary
  | PluginRequireReplica => Ok InlineRequireReplica
  | PluginRouteOverride id => Ok (InlineRouteOverride id)
  | PluginShardOverride id => Ok (InlineShardOverride id)
  | PluginUnsupported _ => Err UnsupportedAction
  end.

(** ** Validating and storing policies *)

Section Store.
(** The check of a WebAssembly module: its error, if it has one. Without the
    crate feature every module is an error. *)
Context (wasm_check : str -> option str).

Fixpoint validate_internal_rules (wasm_enabled : bool) (rules : list InlinePolicyConfig)
    : result str unit :=
  match rules with
  | [] => Ok tt
  | rule :: rules =>
      match inline_action rule with
      | InlineDeny reason =>
          if is_nil (trim reason) then Err (lit "deny action requires a reason")
          else validate_internal_rules wasm_enabled rules
      | InlineWasm path =>
          if negb wasm_enabled then Err (lit "wasm policies require policy_wasm_enabled to be true")
          else
            match wasm_check path with
            | Some error => Err error
            | None => validate_internal_rules wasm_enabled rules
            end
      | _ => validate_internal_rules wasm_enabled rules
      end
  end.

(** [PolicyConfig::validate_internal]. *)
Definition validate_internal (c : PolicyConfig) : result str unit :=
  validate_internal_rules (cfg_policy_wasm_enabled c) (cfg_inline_rules c).

Fixpoint validate_targets (existing_routes : list str) (sharding : bool) (existing_shards : list str)
    (rules : list InlinePolicyConfig) : result str unit :=
  match rules with
  | [] => Ok tt
  | rule :: rules =>
      match inline_action rule with
      | InlineRouteOverride id =>
          if negb (bool_decide (id ∈ existing_routes)) then
            Err (lit "route override target '" ++ id ++ lit "' does not reference an existing route")
          else validate_targets existing_routes sharding existing_shards rules
      | InlineShardOverride id =>
          if sharding && negb (bool_decide (id ∈ existing_shards)) then
            Err (lit "shard override target '" ++ id ++ lit "' does not reference an existing shard")
          else validate_targets existing_routes sharding existing_shards rules
      | _ => validate_targets existing_routes sharding existing_shards rules
      end
  end.

(** [PolicyConfig::validate_with_context]. *)
Definition validate_with_context (c : PolicyConfig) (existing_routes : list str) (sharding : bool)
    (existing_shards : list str) : result str unit :=
  _ ← validate_internal c;
  validate_targets existing_routes sharding existing_shards (cfg_inline_rules c).

(** [validate_output_like_declarative_policy_output]. *)
Definition validate_output_like_declarative (l : PolicyPluginHostLimits) (o : PolicyPluginOutput)
    (active_routes : list str) (sharding : bool) (active_shards : list str)
    : result PolicyPluginErrorCode unit :=
  _ ← validate_output l o;
  action ← policy_plugin_action_to_inline_action (out_action o);
  let policy := {|
    cfg_policy_mode := PolicyDisabled; cfg_policy_files := [];
    cfg_inline_rules := [{| inline_policy_id := out_policy_id o;
                            inline_hook_point := out_hook_point o; inline_action := action |}];
    cfg_policy_audit_enabled := true; cfg_policy_wasm_enabled := false;
    cfg_policy_eval_timeout_ms := 5; cfg_policy_max_context_bytes := 8192 |} in
  match validate_with_context policy active_routes sharding active_shards with
  | Ok _ => Ok tt
  | Err _ => Err OutputValidationFailed
  | Panic => Panic
  end.

Inductive PolicyReloadErrorCode :=
| InvalidPolicyConfiguration | RouteReferenceMissing | ShardReferenceMissing.

Record PolicyReloadResult := {
  pr_success : bool;
  pr_policy_generation_id : Z;
  pr_error_code : option PolicyReloadErrorCode;
  pr_error : option str;
}.

Record PolicySnapshot := {
  ps_generation : Z;
  ps_config : PolicyConfig;
  ps_runtime : PolicyRuntime;
}.

(** [PolicySnapshot::new], [PolicyStore::new]. *)
Definition snapshot_new (generation : Z) (c : PolicyConfig) : PolicySnapshot :=
  {| ps_generation := generation; ps_config := c; ps_runtime := runtime_from_config c |}.

Definition policy_store_new (c : PolicyConfig) : PolicySnapshot := snapshot_new 0 c.

Definition policy_reload_error_code (error : str) : PolicyReloadErrorCode :=
  if contains (lit "route override target") error then RouteReferenceMissing
  else if contains (lit "shard override target") error then ShardReferenceMissing
  else InvalidPolicyConfiguration.

(** [PolicyStore::reload], under the store's write lock. *)
Definition policy_reload (s : PolicySnapshot) (next : PolicyConfig) (active_routes : list str)
    (sharding : bool) (active_shards : list str) : PolicySnapshot * PolicyReloadResult :=
  match validate_with_context next active_routes sharding active_shards with
  | Err error =>
      (s, {| pr_success := false; pr_policy_generation_id := ps_generation s;
             pr_error_code := Some (policy_reload_error_code error); pr_error := Some error |})
  | _ =>
      let generation := wrap_u 64 (ps_generation s + 1) in
      (snapshot_new generation next,
       {| pr_success := true; pr_policy_generation_id := generation;
          pr_error_code := None; pr_error := None |})
  end.

Definition is_wasm_rule (r : InlinePolicyConfig) : bool :=
  match inline_action r with InlineWasm _ => true | _ => false end.

(** [policy_source_label]. *)
Definition policy_source_label (c : PolicyConfig) : str :=
  let has_inline_rules := negb (is_nil (cfg_inline_rules c)) in
  let has_policy_files := negb (is_nil (cfg_policy_files c)) in
  let has_wasm_rules := existsb is_wasm_rule (cfg_inline_rules c) in
  match has_policy_files, has_wasm_rules, has_inline_rules with
  | false, false, false => lit "disabled"
  | true, false, false => lit "file"
  | false, true, false => lit "wasm"
  | false, false, true => lit "inline"
  | _, _, _ => lit "mixed"
  end.

(** ** The offline preview *)

Definition synthetic_routes (rules : list InlinePolicyConfig) (i : PolicyEvalInput) : list str :=
  option_list (pi_route i)
  ++ omap (fun r => match inline_action r with InlineRouteOverride id => Some id | _ => None end) rules.

Definition synthetic_shards (rules : list InlinePolicyConfig) (i : PolicyEvalInput) : list str :=
  option_list (pi_shard i)
  ++ omap (fun r => match inline_action r with InlineShardOverride id => Some id | _ => None end) rules.

Definition select_preview_rule (rules : list InlinePolicyConfig) (h : PolicyHookPoint)
    : option InlinePolicyConfig :=
  find (fun r => bool_decide (inline_hook_point r = h)) rules.

Inductive PolicyPreviewError :=
| PreviewReload (code : PolicyReloadErrorCode) (error : str)
| PreviewWasm (module_path : str).

Definition preview_action_from_rule (r : InlinePolicyConfig)
    : result PolicyPreviewError (PolicyAction * option str * PolicyId) :=
  let id := inline_policy_id r in
  match inline_action r with
  | InlineAllow => Ok (ActAllow, None, id)
  | InlineDeny reason => Ok (policy_deny, Some reason, id)
  | InlineRequirePrimary => Ok (ActRequirePrimary, None, id)
  | InlineRequireReplica => Ok (ActRequireReplica, None, id)
  | InlineRouteOverride target => Ok (ActRouteOverride target, None, id)
  | InlineShardOverride target => Ok (ActShardOverride target, None, id)
  | InlineWasm path => Err (PreviewWasm path)
  end.

Record PolicyPreviewEvaluation := {
  pv_policy_mode : PolicyMode;
  pv_action : PolicyAction;
  pv_deny_reason : option str;
  pv_audit_event : PolicyAuditEvent;
}.

(** [build_audit_event_from_input]. *)
Definition build_audit_event_from_input (r : PolicyRuntime) (kind : PolicyAuditKind)
    (d : PolicyDecision) (i : PolicyEvalInput) : option PolicyAuditEvent :=
  o ← build_context (policy_max_context_bytes r) i;
  Some (audit_event_new kind d (po_context o)).

Definition preview_policy (policy : PolicyConfig) (sharding : bool) (i : PolicyEvalInput)
    : result PolicyPreviewError (option PolicyPreviewEvaluation) :=
  let store := policy_store_new policy in
  let '(store, r) :=
    policy_reload store policy (synthetic_routes (cfg_inline_rules policy) i) sharding
      (synthetic_shards (cfg_inline_rules policy) i) in
  if negb (pr_success r) then
    Err (PreviewReload (default InvalidPolicyConfiguration (pr_error_code r))
           (default (lit "policy validation failed") (pr_error r)))
  else
    '(action, deny_reason, policy_id) ←
      match select_preview_rule (cfg_inline_rules policy) BeforeRouting with
      | Some rule => preview_action_from_rule rule
      | None => Ok (ActAllow, None, lit "policy-preview")
      end;
    let decision := {|
      pd_policy_id := policy_id; pd_policy_version := 1; pd_action := action;
      pd_outcome := OutcomeDryRun; pd_hook_point := BeforeRouting; pd_latency := 0 |} in
    Ok (event ← build_audit_event_from_input (ps_runtime store) AuditDecision decision i;
        Some {| pv_policy_mode := policy_mode (ps_runtime store); pv_action := action;
                pv_deny_reason := deny_reason; pv_audit_event := event |}).

(** ** Facts: the store *)

(** A configuration is sound when every rule is: a denial has a reason, a
    module is allowed and checked, an override names something that exists. *)
Definition rule_sound (wasm_enabled : bool) (existing_routes : list str) (sharding : bool)
    (existing_shards : list str) (r : InlinePolicyConfig) : Prop :=
  match inline_action r with
  | InlineDeny reason => trim reason <> []
  | InlineWasm path => wasm_enabled = true /\ wasm_check path = None
  | InlineRouteOverride id => id ∈ existing_routes
  | InlineShardOverride id => sharding = true -> id ∈ existing_shards
  | _ => True
  end.

Lemma validate_targets_spec routes sharding shards rules :
  validate_targets routes sharding shards rules = Ok tt <->
  Forall (fun r => match inline_action r with
                   | InlineRouteOverride id => id ∈ routes
                   | InlineShardOverride id => sharding = true -> id ∈ shards
                   | _ => True
                   end) rules.
Proof.
  induction rules as [|r rules IH]; cbn [validate_targets]; [split; [constructor|done]|].
  rewrite Forall_cons, <- IH. destruct (inline_action r); try tauto.
  - case_bool_decide; cbn [negb]; [tauto|]. split; [done|tauto].
  - destruct sharding; cbn [andb]; [|split; [by split|tauto]].
    case_bool_decide; cbn [negb]; [tauto|]. split; [done|]. intros [H' _]. by destruct H; apply H'.
Qed.

Lemma validate_internal_spec wasm_enabled rules :
  validate_internal_rules wasm_enabled rules = Ok tt <->
  Forall (fun r => match inline_action r with
                   | InlineDeny reason => trim reason <> []
                   | InlineWasm path => wasm_enabled = true /\ wasm_check path = None
                   | _ => True
                   end) rules.
Proof.
  induction rules as [|r rules IH]; cbn [validate_internal_rules]; [split; [constructor|done]|].
  rewrite Forall_cons, <- IH. destruct (inline_action r); try tauto.
  - destruct (trim reason) as [|c t]; cbn [is_nil]; [split; [done|by intros [[] _]]|].
    split; [by split|tauto].
  - destruct wasm_enabled; cbn [negb]; [|split; [done|by intros [[? _] _]]].
    destruct (wasm_check module_path); [split; [done|by intros [[_ ?] _]]|].
    split; [by split|tauto].
Qed.

Lemma validate_targets_no_panic routes sharding shards rules :
  validate_targets routes sharding shards rules <> Panic.
Proof.
  induction rules as [|r rules IH]; cbn [validate_targets]; [done|]. by destruct (inline_action r); split_matches.
Qed.

Lemma validate_internal_no_panic wasm_enabled rules :
  validate_internal_rules wasm_enabled rules <> Panic.
Proof.
  induction rules as [|r rules IH]; cbn [validate_internal_rules]; [done|].
  by destruct (inline_action r); split_matches.
Qed.

Lemma validate_with_context_spec c routes sharding shards :
  (validate_with_context c routes sharding shards = Ok tt <->
   Forall (rule_sound (cfg_policy_wasm_enabled c) routes sharding shards) (cfg_inline_rules c)) /\
  validate_with_context c routes sharding shards <> Panic.
Proof.
  unfold validate_with_context, validate_internal.
  pose proof (validate_internal_spec (cfg_policy_wasm_enabled c) (cfg_inline_rules c)) as Hi.
  pose proof (validate_targets_spec routes sharding shards (cfg_inline_rules c)) as Ht.
  assert (Hand : Forall (rule_sound (cfg_policy_wasm_enabled c) routes sharding shards) (cfg_inline_rules c) <->
    validate_internal_rules (cfg_policy_wasm_enabled c) (cfg_inline_rules c) = Ok tt /\
    validate_targets routes sharding shards (cfg_inline_rules c) = Ok tt).
  { rewrite Hi, Ht, <- Forall_and. apply Forall_iff. intros r. unfold rule_sound.
    destruct (inline_action r); tauto. }
  rewrite Hand. pose proof (validate_internal_no_panic (cfg_policy_wasm_enabled c) (cfg_inline_rules c)).
  pose proof (validate_targets_no_panic routes sharding shards (cfg_inline_rules c)).
  destruct (validate_internal_rules _ _) as [[]|e|]; cbn [mbind result_bind]; [tauto| |done].
  split; [|done]. split; [done|]. by intros [? _].
Qed.

(** The wasm label of [policy_source_label] is never given: a module is an
    inline rule. *)
Lemma policy_source_never_wasm c : policy_source_label c <> lit "wasm".
Proof.
  unfold policy_source_label. destruct (cfg_inline_rules c) as [|r rules]; cbn [is_nil negb existsb].
  - by destruct (is_nil (cfg_policy_files c)).
  - by destruct (is_nil (cfg_policy_files c)), (is_wasm_rule r || existsb is_wasm_rule rules).
Qed.

(** Reloading the policies installs the new configuration, under the next
    generation and with its runtime, exactly when every rule of it is sound
    for the active routes and shards; otherwise the store keeps what it had
    and the report carries the generation in force and an error. *)
Theorem policy_reload_exact (s : PolicySnapshot) (next : PolicyConfig) (routes : list str)
    (sharding : bool) (shards : list str) :
  let '(s', r) := policy_reload s next routes sharding shards in
  (Forall (rule_sound (cfg_policy_wasm_enabled next) routes sharding shards) (cfg_inline_rules next) ->
   s' = snapshot_new (wrap_u 64 (ps_generation s + 1)) next /\
   r = {| pr_success := true; pr_policy_generation_id := wrap_u 64 (ps_generation s + 1);
          pr_error_code := None; pr_error := None |}) /\
  (~ Forall (rule_sound (cfg_policy_wasm_enabled next) routes sharding shards) (cfg_inline_rules next) ->
   s' = s /\ pr_success r = false /\ pr_policy_generation_id r = ps_generation s /\
   exists e, pr_error r = Some e /\ pr_error_code r = Some (policy_reload_error_code e)).
Proof.
  unfold policy_reload. destruct (validate_with_context_spec next routes sharding shards) as [Hs Hp].
  destruct (validate_with_context next routes sharding shards) as [[]|e|]; [| |done].
  - split; [done|]. intros H. destruct H. by apply Hs.
  - split; [intros H; apply Hs in H; discriminate|]. intros _. split_and!; eauto.
Qed.
End Store.
