(* ===== verification/ShardExtract.v ===== *)
(** * ShardExtract: shard keys and hints in SQL text

    Models [pg-kinetic-core/src/traffic/shard_extract.rs]: the tokenizer, the
    four statement parsers that look for an equality on the shard key column,
    and the hint comments. The loops over characters and tokens run on fuel;
    [word_tokens_total] and [shard_hint_total] prove it is never exhausted. *)

From S2P Require Import Prelude Text Sharding.

Inductive ShardExtraction :=
| ExtractUnknown
| ExtractKey (schema : option str) (table column : str) (key : ShardKey).

Inductive ShardHint :=
| HintAbsent
| HintShard (id : str)
| HintTenant (id : str)
| HintRoute (id : str)
| HintUnknown.

#[global] Instance ShardExtraction_eq_dec : EqDecision ShardExtraction.
Proof. solve_decision. Defined.
#[global] Instance ShardHint_eq_dec : EqDecision ShardHint.
Proof. solve_decision. Defined.

(** ** Tokens *)

Inductive Token :=
| Ident (value : str)
| Number (value : str)
| StringLit (value : str)
| Param | Comma | Dot | LParen | RParen | Equals | Semicolon | ColonColon | Star.

#[global] Instance Token_eq_dec : EqDecision Token.
Proof. solve_decision. Defined.

Definition as_ident (t : Token) : option str :=
  match t with Ident value => Some value | _ => None end.

Definition is_ascii_alphabetic (c : Z) : bool := in_range 65 90 c || in_range 97 122 c.
Definition is_ident_start (c : Z) : bool := is_ascii_alphabetic c || (c =? 95).
Definition is_ident_part (c : Z) : bool := is_ascii_alphanumeric c || (c =? 95) || (c =? 36).

(** The characters while [p] holds, and the rest. *)
Fixpoint take_while (p : Z -> bool) (cs : str) : str * str :=
  match cs with
  | [] => ([], [])
  | c :: r => if p c then let '(a, b) := take_while p r in (c :: a, b) else ([], cs)
  end.

(** The loop that reads a quoted string or identifier: a doubled quote stands
    for one; [None] when the text ends first. *)
Fixpoint read_quoted (quote : Z) (cs : str) : option (str * str) :=
  match cs with
  | [] => None
  | c :: r =>
      if c =? quote then
        match r with
        | d :: r' =>
            if d =? quote then (fun p => (quote :: p.1, p.2)) <$> read_quoted quote r'
            else Some ([], r)
        | [] => Some ([], r)
        end
      else (fun p => (c :: p.1, p.2)) <$> read_quoted quote r
  end.

(** The rest of the line comment: after the newline, or the end. *)
Fixpoint skip_line (cs : str) : str :=
  match cs with
  | [] => []
  | c :: r => if c =? 10 then r else skip_line r
  end.

(** The rest after the end of the block comment. *)
Fixpoint skip_block (previous : Z) (cs : str) : option str :=
  match cs with
  | [] => None
  | c :: r => if (previous =? 42) && (c =? 47) then Some r else skip_block c r
  end.

(** What one turn of the loop of [tokenize] does: the token it pushes, if it
    pushes one, and the characters that remain; [None] gives up. *)
Definition next_token (c : Z) (r : str) : option (option Token * str) :=
  let peek (p : Z -> bool) := match r with d :: _ => p d | [] => false end in
  if is_whitespace c then Some (None, r)
  else if (c =? 45) && peek (Z.eqb 45) then Some (None, skip_line (tail r))
  else if (c =? 47) && peek (Z.eqb 42) then (fun rest => (None, rest)) <$> skip_block 0 (tail r)
  else if c =? 39 then (fun p => (Some (StringLit p.1), p.2)) <$> read_quoted 39 r
  else if c =? 34 then (fun p => (Some (Ident p.1), p.2)) <$> read_quoted 34 r
  else if c =? 40 then Some (Some LParen, r)
  else if c =? 41 then Some (Some RParen, r)
  else if c =? 44 then Some (Some Comma, r)
  else if c =? 46 then Some (Some Dot, r)
  else if c =? 61 then Some (Some Equals, r)
  else if c =? 59 then Some (Some Semicolon, r)
  else if c =? 42 then Some (Some Star, r)
  else if (c =? 58) && peek (Z.eqb 58) then Some (Some ColonColon, tail r)
  else if c =? 63 then Some (Some Param, r)
  else if c =? 36 then
    let '(digits, rest) := take_while is_ascii_digit r in
    match digits with [] => None | _ :: _ => Some (Some Param, rest) end
  else if (c =? 45) && peek is_ascii_digit then
    let '(digits, rest) := take_while is_ascii_digit r in Some (Some (Number (45 :: digits)), rest)
  else if is_ascii_digit c then
    let '(digits, rest) := take_while is_ascii_digit r in Some (Some (Number (c :: digits)), rest)
  else if is_ident_start c then
    let '(part, rest) := take_while is_ident_part r in Some (Some (Ident (c :: part)), rest)
  else None.

(** The loop; the outer [None] is exhausted fuel. *)
Fixpoint tokenize_loop (fuel : nat) (cs : str) (tokens : list Token) : option (option (list Token)) :=
  match fuel with
  | O => None
  | S fuel =>
      match cs with
      | [] => Some (Some tokens)
      | c :: r =>
          match next_token c r with
          | None => Some None
          | Some (Some t, rest) => tokenize_loop fuel rest (tokens ++ [t])
          | Some (None, rest) => tokenize_loop fuel rest tokens
          end
      end
  end.

Definition tokenize (sql : str) : option (list Token) :=
  default None (tokenize_loop (S (length sql)) sql []).

(** ** Tables and columns *)

Definition identifier_matches (lhs rhs : str) : bool := eq_ignore_ascii_case lhs rhs.

(** [str::parse::<i64>]. *)
Definition parse_i64 (s : str) : option Z :=
  let '(negative, digits) :=
    match s with
    | 45 :: r => (true, r)
    | 43 :: r => (false, r)
    | _ => (false, s)
    end in
  match digits with
  | [] => None
  | _ :: _ =>
      if forallb is_ascii_digit digits then
        let v := (if negative : bool then -1 else 1) * dec_value digits in
        if (- 2 ^ 63 <=? v) && (v <? 2 ^ 63) then Some v else None
      else None
  end.

Definition parse_literal (tokens : list Token) (index : nat) : option (ShardKey * nat) :=
  match tokens !! index with
  | Some (Number value) => (fun parsed => (KInteger parsed, S index)) <$> parse_i64 value
  | Some (StringLit value) => Some (KText value, S index)
  | _ => None
  end.

Definition is_keyword (keyword : string) (t : Token) : bool :=
  match t with Ident value => eq_ignore_ascii_case value (lit keyword) | _ => false end.

Definition is_literal_terminator (token : option Token) : bool :=
  match token with
  | None | Some Comma | Some RParen | Some Semicolon => true
  | Some t =>
      is_keyword "and" t || is_keyword "or" t || is_keyword "where" t || is_keyword "set" t
      || is_keyword "from" t || is_keyword "returning" t
  end.

Definition parse_column_equality (tokens : list Token) (start : nat) (shard_key_column : str)
    : option (ShardKey * nat) :=
  first ← tokens !! start ≫= as_ident;
  index ←
    match tokens !! S start with
    | Some Dot =>
        second ← tokens !! S (S start) ≫= as_ident;
        if identifier_matches second shard_key_column then Some (S (S (S start))) else None
    | _ => if identifier_matches first shard_key_column then Some (S start) else None
    end;
  match tokens !! index with
  | Some Equals =>
      '(value, next_index) ← parse_literal tokens (S index);
      if is_literal_terminator (tokens !! next_index) then Some (value, next_index) else None
  | _ => None
  end.

(** The loop of [collect_key_values]; the outer [None] is exhausted fuel. *)
Fixpoint collect_loop (fuel : nat) (tokens : list Token) (shard_key_column : str) (index : nat)
    (values : list ShardKey) : option (option (list ShardKey)) :=
  match fuel with
  | O => None
  | S fuel =>
      match tokens !! index with
      | None => Some (Some values)
      | Some t =>
          if is_keyword "or" t then Some None
          else
            match parse_column_equality tokens index shard_key_column with
            | Some (value, next_index) =>
                collect_loop fuel tokens shard_key_column next_index (values ++ [value])
            | None => collect_loop fuel tokens shard_key_column (S index) values
            end
      end
  end.

Definition collect_key_values (tokens : list Token) (shard_key_column : option str)
    : option (list ShardKey) :=
  column ← shard_key_column;
  default None (collect_loop (S (length tokens)) tokens column 0 []).

Record ParsedTableReference := {
  ref_schema : option str;
  ref_table : str;
  next_index : nat;
}.

Record ResolvedTable := {
  resolved_schema : option str;
  resolved_table : str;
  resolved_column : option str;
}.

Definition split_table_name (value : str) : option (option str * str) :=
  match split_char 46 value with
  | [first] => match first with [] => None | _ :: _ => Some (None, first) end
  | [first; table] =>
      match first, table with
      | _ :: _, _ :: _ => Some (Some first, table)
      | _, _ => None
      end
  | _ => None
  end.

Definition table_matches_definition (table : ParsedTableReference) (definition : ShardedTableDefinition)
    : bool :=
  match split_table_name (table_name definition) with
  | None => false
  | Some (schema, name) =>
      match ref_schema table, schema with
      | Some actual, Some expected =>
          if identifier_matches actual expected then identifier_matches (ref_table table) name
          else false
      | None, None => identifier_matches (ref_table table) name
      | None, Some _ | Some _, None => false
      end
  end.

Definition resolve_table (table : ParsedTableReference) (route_map : RouteMapValidationInput)
    : option ResolvedTable :=
  match filter (fun d => table_matches_definition table d = true) (sharded_tables route_map) with
  | [definition] =>
      '(schema, name) ← split_table_name (table_name definition);
      Some {| resolved_schema := schema; resolved_table := name;
              resolved_column := shard_key_column definition |}
  | _ => None
  end.

(** The values without repeats, in the order of their first occurrence. *)
Definition push_unique (unique : list ShardKey) (value : ShardKey) : list ShardKey :=
  if bool_decide (value ∈ unique) then unique else unique ++ [value].

Definition build_extraction (table : ResolvedTable) (values : list ShardKey)
    : option ShardExtraction :=
  match fold_left push_unique values [] with
  | [key] =>
      column ← resolved_column table;
      Some (ExtractKey (resolved_schema table) (resolved_table table) column key)
  | _ => None
  end.

Definition parse_table_reference (tokens : list Token) (start : nat) : option ParsedTableReference :=
  first ← tokens !! start ≫= as_ident;
  match tokens !! S start with
  | Some Dot =>
      second ← tokens !! S (S start) ≫= as_ident;
      Some {| ref_schema := Some first; ref_table := second; next_index := S (S (S start)) |}
  | _ => Some {| ref_schema := None; ref_table := first; next_index := S start |}
  end.

(** The loop of [parse_identifier_list] over [name (, name)* )]. *)
Fixpoint identifier_loop (fuel : nat) (tokens : list Token) (index : nat) (values : list str)
    : option (list str * nat) :=
  match fuel with
  | O => None
  | S fuel =>
      value ← tokens !! index ≫= as_ident;
      let values := values ++ [value] in
      match tokens !! S index with
      | Some Comma => identifier_loop fuel tokens (S (S index)) values
      | Some RParen => Some (values, S (S index))
      | _ => None
      end
  end.

Definition parse_identifier_list (tokens : list Token) (start : nat) : option (list str * nat) :=
  match tokens !! start with
  | Some LParen => identifier_loop (S (length tokens)) tokens (S start) []
  | _ => None
  end.

(** [find_keyword]: the first occurrence outside parentheses. *)
Fixpoint find_keyword_from (tokens : list Token) (keyword : string) (depth : Z) (index : nat)
    : option nat :=
  match tokens with
  | [] => None
  | LParen :: r => find_keyword_from r keyword (depth + 1) (S index)
  | RParen :: r => find_keyword_from r keyword (depth - 1) (S index)
  | t :: r =>
      if (depth =? 0) && is_keyword keyword t then Some index
      else find_keyword_from r keyword depth (S index)
  end.

Definition find_keyword (tokens : list Token) (keyword : string) (start : nat) : option nat :=
  find_keyword_from (drop start tokens) keyword 0 start.

(** ** Statements *)

Definition extract_where_key (clause : list Token) (table : ResolvedTable) : option ShardExtraction :=
  values ← collect_key_values clause (resolved_column table);
  build_extraction table values.

Definition extract_combined_key (set_clause where_clause : list Token) (table : ResolvedTable)
    : option ShardExtraction :=
  values ← collect_key_values set_clause (resolved_column table);
  more ← collect_key_values where_clause (resolved_column table);
  build_extraction table (values ++ more).

(** The inner loop of [extract_insert_values]: one row, up to its parenthesis. *)
Fixpoint row_loop (fuel : nat) (clause : list Token) (index : nat) (row : list ShardKey)
    : option (list ShardKey * nat) :=
  match fuel with
  | O => None
  | S fuel =>
      '(value, index) ← parse_literal clause index;
      let row := row ++ [value] in
      match clause !! index with
      | Some Comma => row_loop fuel clause (S index) row
      | Some RParen => Some (row, S index)
      | _ => None
      end
  end.

(** The outer loop. *)
Fixpoint rows_loop (fuel : nat) (clause : list Token) (column_index index : nat)
    (values : list ShardKey) : option (list ShardKey) :=
  match fuel with
  | O => None
  | S fuel =>
      match clause !! index with
      | Some LParen =>
          '(row, index) ← row_loop (S (length clause)) clause (S index) [];
          row_value ← row !! column_index;
          let values := values ++ [row_value] in
          match clause !! index with
          | Some Comma => rows_loop fuel clause column_index (S index) values
          | Some Semicolon | None => Some values
          | Some t =>
              if is_keyword "returning" t then Some values
              else rows_loop fuel clause column_index index values
          end
      | _ => Some values
      end
  end.

Definition extract_insert_values (clause : list Token) (table : ResolvedTable) (columns : list str)
    : option ShardExtraction :=
  column ← resolved_column table;
  column_index ← position (fun c => identifier_matches c column) columns;
  values ← rows_loop (S (length clause)) clause column_index 0 [];
  build_extraction table values.

(** [matches!(tokens.get(index).and_then(Token::as_keyword), Some("..."))]:
    unlike [find_keyword], the comparison is exact. *)
Definition keyword_at (tokens : list Token) (index : nat) (keyword : string) : bool :=
  bool_decide (tokens !! index ≫= as_ident = Some (lit keyword)).

Definition parse_select (tokens : list Token) (route_map : RouteMapValidationInput)
    : option ShardExtraction :=
  from_index ← find_keyword tokens "from" 0;
  table ← parse_table_reference tokens (S from_index);
  resolved ← resolve_table table route_map;
  where_index ← find_keyword tokens "where" (S from_index);
  extract_where_key (drop (S where_index) tokens) resolved.

Definition parse_insert (tokens : list Token) (route_map : RouteMapValidationInput)
    : option ShardExtraction :=
  let index := if keyword_at tokens 1 "into" then 2%nat else 1%nat in
  table ← parse_table_reference tokens index;
  resolved ← resolve_table table route_map;
  let index := next_index table in
  '(columns, index) ←
    match tokens !! index with
    | Some LParen =>
        '(columns, index) ← parse_identifier_list tokens index; Some (Some columns, index)
    | _ => Some (None, index)
    end;
  if negb (keyword_at tokens index "values") then None
  else
    columns ← columns;
    extract_insert_values (drop (S index) tokens) resolved columns.

Definition parse_update (tokens : list Token) (route_map : RouteMapValidationInput)
    : option ShardExtraction :=
  let index := if keyword_at tokens 1 "only" then 2%nat else 1%nat in
  table ← parse_table_reference tokens index;
  resolved ← resolve_table table route_map;
  set_index ← find_keyword tokens "set" (next_index table);
  where_index ← find_keyword tokens "where" (S set_index);
  extract_combined_key (take (where_index - S set_index) (drop (S set_index) tokens))
    (drop (S where_index) tokens) resolved.

Definition parse_delete (tokens : list Token) (route_map : RouteMapValidationInput)
    : option ShardExtraction :=
  let index := if keyword_at tokens 1 "from" then 2%nat else 1%nat in
  table ← parse_table_reference tokens index;
  resolved ← resolve_table table route_map;
  where_index ← find_keyword tokens "where" (next_index table);
  extract_where_key (drop (S where_index) tokens) resolved.

(** The keyword is compared exactly. *)
Definition parse_statement (tokens : list Token) (route_map : RouteMapValidationInput)
    : option ShardExtraction :=
  keyword ← tokens !! 0%nat ≫= as_ident;
  if bool_decide (keyword = lit "select") then parse_select tokens route_map
  else if bool_decide (keyword = lit "insert") then parse_insert tokens route_map
  else if bool_decide (keyword = lit "update") then parse_update tokens route_map
  else if bool_decide (keyword = lit "delete") then parse_delete tokens route_map
  else None.

Definition extract_shard_key (sql : str) (route_map : RouteMapValidationInput) : ShardExtraction :=
  match tokenize sql with
  | None => ExtractUnknown
  | Some tokens => default ExtractUnknown (parse_statement tokens route_map)
  end.

(** ** Hints *)

Definition is_hint_value (value : str) : bool :=
  negb (bool_decide (value = []))
  && forallb (fun c => is_ascii_alphanumeric c || (c =? 95) || (c =? 45) || (c =? 46)) value.

Definition parse_hint_comment (comment : str) : option ShardHint :=
  body ← strip_prefix (lit "pg-kinetic:") (trim comment);
  let directive := trim body in
  '(kind, value) ← split_once 61 directive;
  let kind := trim kind in
  let value := trim value in
  if negb (is_hint_value value) then Some HintUnknown
  else if bool_decide (kind = lit "shard") then Some (HintShard value)
  else if bool_decide (kind = lit "tenant") then Some (HintTenant value)
  else if bool_decide (kind = lit "route") then Some (HintRoute value)
  else Some HintUnknown.

(** The loop over the comments before the statement. The last arm of the
    source trims what is already trimmed and leaves; [None] is no fuel. *)
Fixpoint hint_loop (fuel : nat) (rest : str) (saw_comment : bool) : option ShardHint :=
  match fuel with
  | O => None
  | S fuel =>
      let finish (saw : bool) := Some (if saw then HintUnknown else HintAbsent) in
      match strip_prefix (lit "/*") rest with
      | Some after_comment =>
          match find_str (lit "*/") after_comment with
          | None => Some HintUnknown
          | Some e =>
              match parse_hint_comment (trim (take e after_comment)) with
              | Some hint => Some hint
              | None => hint_loop fuel (trim_start (drop (e + 2) after_comment)) true
              end
          end
      | None =>
          match strip_prefix (lit "--") rest with
          | Some after_comment =>
              let e := default (length after_comment) (position (Z.eqb 10) after_comment) in
              match parse_hint_comment (trim (take e after_comment)) with
              | Some hint => Some hint
              | None =>
                  if (e =? length after_comment)%nat then finish true
                  else hint_loop fuel (trim_start (drop (e + 1) after_comment)) true
              end
          | None =>
              let trimmed := trim_start rest in
              if bool_decide (trimmed = rest) then finish saw_comment
              else hint_loop fuel trimmed saw_comment
          end
      end
  end.

Definition extract_shard_hint (sql : str) : ShardHint :=
  default HintUnknown (hint_loop (S (length sql)) (trim_start sql) false).

(** ** Facts: the loops end *)

Section Fuel.
Lemma take_while_spec p cs :
  cs = (take_while p cs).1 ++ (take_while p cs).2 /\ Forall (fun c => p c = true) (take_while p cs).1.
Proof.
  induction cs as [|c cs [IH1 IH2]]; cbn [take_while]; [by split; [|constructor]|].
  destruct (p c) eqn:Hc; [|by split; [|constructor]].
  destruct (take_while p cs) as [a b]. cbn in *. split; [by f_equal|by constructor].
Qed.

Lemma take_while_shorter p cs : (length (take_while p cs).2 <= length cs)%nat.
Proof.
  destruct (take_while_spec p cs) as [H _]. apply (f_equal length) in H.
  rewrite length_app in H. lia.
Qed.

Lemma take_while_app p a c r :
  Forall (fun x => p x = true) a -> p c = false -> take_while p (a ++ c :: r) = (a, c :: r).
Proof.
  induction 1 as [|x a Hx _ IH]; intros Hc; cbn [app take_while]; [by rewrite Hc|].
  by rewrite Hx, IH.
Qed.

Lemma read_quoted_shorter q cs p : read_quoted q cs = Some p -> (length p.2 <= length cs)%nat.
Proof.
  remember (length cs) as n eqn:Hn. revert cs Hn p.
  induction n as [n IH] using lt_wf_ind. intros cs -> p.
  destruct cs as [|c cs]; cbn [read_quoted]; [done|]. destruct (c =? q).
  - destruct cs as [|d cs]; [intros [= <-]; cbn; lia|]. destruct (d =? q).
    + intros (p' & Hp & ->)%fmap_Some. apply (IH (length cs)) in Hp; cbn in *; lia.
    + intros [= <-]; cbn; lia.
  - intros (p' & Hp & ->)%fmap_Some. apply (IH (length cs)) in Hp; cbn in *; lia.
Qed.

Lemma skip_line_shorter cs : (length (skip_line cs) <= length cs)%nat.
Proof. induction cs as [|c cs IH]; cbn; [lia|]. destruct (c =? 10); lia. Qed.

Lemma skip_block_shorter p cs r : skip_block p cs = Some r -> (length r <= length cs)%nat.
Proof.
  revert p. induction cs as [|c cs IH]; intros p; cbn; [done|].
  destruct ((p =? 42) && (c =? 47)); [intros [= <-]; lia|]. intros H%IH. lia.
Qed.

Lemma tail_shorter (cs : str) : (length (tail cs) <= length cs)%nat.
Proof. destruct cs; cbn; lia. Qed.

(** Every turn of the tokenizer consumes its character. *)
Lemma next_token_shorter c r t rest :
  next_token c r = Some (t, rest) -> (length rest <= length r)%nat.
Proof.
  unfold next_token. pose proof (tail_shorter r). pose proof (skip_line_shorter (tail r)).
  pose proof (take_while_shorter is_ascii_digit r). pose proof (take_while_shorter is_ident_part r).
  destruct (take_while is_ascii_digit r) as [ds dr]. destruct (take_while is_ident_part r) as [ps pr].
  cbn in *. intros Hn.
  repeat match type of Hn with
         | (if ?b then _ else _) = _ => destruct b
         | Some _ = Some _ => injection Hn as <- <-; cbn in *; lia
         | match ds with _ => _ end = _ => destruct ds; [done|]
         | _ <$> skip_block _ _ = _ =>
             apply fmap_Some in Hn as (? & Hs & Hq); apply skip_block_shorter in Hs;
             simplify_eq; lia
         | _ <$> read_quoted _ _ = _ =>
             apply fmap_Some in Hn as (? & Hs & Hq); apply read_quoted_shorter in Hs;
             simplify_eq; lia
         end; done.
Qed.

(** The tokenizer's fuel is enough: one turn per character and one to stop. *)
Lemma word_tokens_total fuel cs tokens :
  (length cs < fuel)%nat -> is_Some (tokenize_loop fuel cs tokens).
Proof.
  revert cs tokens. induction fuel as [|fuel IH]; intros cs tokens Hf; [lia|].
  cbn [tokenize_loop]. destruct cs as [|c r]; [done|].
  destruct (next_token c r) as [[[t|] rest]|] eqn:Hn; [| |done];
    apply next_token_shorter in Hn; apply IH; cbn in Hf; lia.
Qed.

Lemma parse_literal_next tokens i v n : parse_literal tokens i = Some (v, n) -> n = S i.
Proof.
  unfold parse_literal. destruct (tokens !! i) as [[]|]; try done; [|congruence].
  intros (? & ? & ?)%fmap_Some. congruence.
Qed.

Lemma parse_column_equality_next tokens i col v n :
  parse_column_equality tokens i col = Some (v, n) -> (i < n)%nat.
Proof.
  unfold parse_column_equality. intros (first & _ & H)%bind_Some.
  apply bind_Some in H as (j & Hj & H). destruct (tokens !! j) as [[]|]; try done.
  apply bind_Some in H as ([v' n'] & Hp & H). apply parse_literal_next in Hp as ->.
  destruct (is_literal_terminator _); [|done]. simplify_eq.
  destruct (tokens !! S i) as [[]|]; try (destruct (identifier_matches _ _); simplify_eq; lia).
  apply bind_Some in Hj as (? & _ & Hj). destruct (identifier_matches _ _); simplify_eq; lia.
Qed.

Lemma collect_total fuel tokens col i values :
  (length tokens - i < fuel)%nat -> is_Some (collect_loop fuel tokens col i values).
Proof.
  revert i values. induction fuel as [|fuel IH]; intros i values Hf; [lia|].
  cbn [collect_loop]. destruct (tokens !! i) as [t|] eqn:Ht; [|done].
  apply lookup_lt_Some in Ht. destruct (is_keyword "or" t); [done|].
  destruct (parse_column_equality tokens i col) as [[v n]|] eqn:Hp; apply IH; [|lia].
  apply parse_column_equality_next in Hp. lia.
Qed.

(** More fuel than needed changes nothing. *)
Lemma collect_more fuel fuel' tokens col i values r :
  collect_loop fuel tokens col i values = Some r -> (fuel <= fuel')%nat ->
  collect_loop fuel' tokens col i values = Some r.
Proof.
  revert fuel' i values. induction fuel as [|fuel IH]; intros [|fuel'] i values; try done; [lia|].
  cbn [collect_loop]. intros H Hle. destruct (tokens !! i) as [t|]; [|done].
  destruct (is_keyword "or" t); [done|].
  destruct (parse_column_equality tokens i col) as [[v n]|]; (eapply IH; [done|lia]).
Qed.

Lemma identifier_loop_fuel f f' tokens i vs :
  (length tokens - i < f)%nat -> (length tokens - i < f')%nat ->
  identifier_loop f tokens i vs = identifier_loop f' tokens i vs.
Proof.
  revert f' i vs. induction f as [|f IH]; intros [|f'] i vs H1 H2; try lia. cbn [identifier_loop].
  destruct (tokens !! i) as [t|] eqn:Ht; [|done]. apply lookup_lt_Some in Ht.
  cbn [mbind option_bind]. destruct (as_ident t); [|done]. cbn [mbind option_bind].
  destruct (tokens !! S i) as [[]|]; try done. apply IH; lia.
Qed.

Lemma row_loop_fuel f f' clause i row :
  (length clause - i < f)%nat -> (length clause - i < f')%nat ->
  row_loop f clause i row = row_loop f' clause i row.
Proof.
  revert f' i row. induction f as [|f IH]; intros [|f'] i row H1 H2; try lia. cbn [row_loop].
  destruct (parse_literal clause i) as [[v n]|] eqn:Hp; [|done]. cbn [mbind option_bind].
  pose proof (parse_literal_next _ _ _ _ Hp) as ->.
  destruct (clause !! S i) as [t|] eqn:Ht; [|done]. apply lookup_lt_Some in Ht.
  destruct t; try done. apply IH; lia.
Qed.

Lemma row_loop_next f clause i row r n : row_loop f clause i row = Some (r, n) -> (i < n)%nat.
Proof.
  revert i row. induction f as [|f IH]; intros i row; [done|]. cbn [row_loop].
  destruct (parse_literal clause i) as [[v m]|] eqn:Hp; [|done]. cbn [mbind option_bind].
  apply parse_literal_next in Hp as ->.
  destruct (clause !! S i) as [[]|]; try done; [intros H%IH; lia|]. intros; simplify_eq. lia.
Qed.

Lemma rows_loop_fuel f f' clause ci i values :
  (length clause - i < f)%nat -> (length clause - i < f')%nat ->
  rows_loop f clause ci i values = rows_loop f' clause ci i values.
Proof.
  revert f' i values. induction f as [|f IH]; intros [|f'] i values H1 H2; try lia.
  cbn [rows_loop]. destruct (clause !! i) as [t|] eqn:Ht; [|done]. apply lookup_lt_Some in Ht.
  destruct t; try done. destruct (row_loop _ clause (S i) []) as [[row n]|] eqn:Hr; [|done].
  apply row_loop_next in Hr. cbn [mbind option_bind]. destruct (row !! ci); [|done].
  cbn [mbind option_bind]. destruct (clause !! n) as [[]|]; try done; try (apply IH; lia).
  destruct (is_keyword "returning" _); [done|]. apply IH; lia.
Qed.

Lemma trim_start_idem s : trim_start (trim_start s) = trim_start s.
Proof.
  unfold trim_start. induction s as [|c s IH]; [done|]. cbn [trim_start_matches].
  destruct (is_whitespace c) eqn:Hc; [done|]. cbn [trim_start_matches]. by rewrite Hc.
Qed.

(** Every comment is shorter than what it is read from. *)
Lemma shard_hint_total fuel rest saw :
  (length rest < fuel)%nat -> trim_start rest = rest -> is_Some (hint_loop fuel rest saw).
Proof.
  revert rest saw. induction fuel as [|fuel IH]; intros rest saw Hf Htrim; [lia|].
  cbn [hint_loop]. destruct (strip_prefix (lit "/*") rest) as [after|] eqn:Hb.
  - apply strip_prefix_Some in Hb as ->. destruct (find_str _ after) as [e|]; [|done].
    destruct (parse_hint_comment _); [done|]. apply IH; [|apply trim_start_idem].
    pose proof (trim_start_length (drop (e + 2) after)). rewrite length_drop in *. cbn in Hf. lia.
  - destruct (strip_prefix (lit "--") rest) as [after|] eqn:Hl.
    + apply strip_prefix_Some in Hl as ->. destruct (parse_hint_comment _); [done|].
      destruct (_ =? _)%nat; [done|]. apply IH; [|apply trim_start_idem].
      set (e := default _ _). pose proof (trim_start_length (drop (e + 1) after)).
      rewrite length_drop in *. cbn in Hf. lia.
    + by rewrite bool_decide_true.
Qed.
End Fuel.

(** ** Printing tokens *)

(** A quote inside quotes is doubled. *)
Definition quote_text (q : Z) (s : str) : str :=
  q :: (s ≫= fun c => if c =? q then [q; q] else [c]) ++ [q].

(** An identifier is printed bare when it can be, else in double quotes. *)
Definition plain_ident (s : str) : bool :=
  match s with
  | [] => false
  | c :: r => is_ident_start c && forallb is_ident_part r
  end.

Definition print_token (t : Token) : str :=
  match t with
  | Ident v => if plain_ident v then v else quote_text 34 v
  | Number v => v
  | StringLit v => quote_text 39 v
  | Param => lit "?"
  | Comma => lit ","
  | Dot => lit "."
  | LParen => lit "("
  | RParen => lit ")"
  | Equals => lit "="
  | Semicolon => lit ";"
  | ColonColon => lit "::"
  | Star => lit "*"
  end.

(** Tokens separated by spaces. *)
Definition print_tokens (ts : list Token) : str := ts ≫= fun t => print_token t ++ [32].

(** What a number token holds. *)
Definition number_text (v : str) : bool :=
  match v with
  | 45 :: ((_ :: _) as digits) => forallb is_ascii_digit digits
  | _ :: _ => forallb is_ascii_digit v
  | [] => false
  end.

Definition token_ok (t : Token) : Prop :=
  match t with Number v => number_text v = true | _ => True end.

Section Printing.
Lemma read_quoted_printed q s c r :
  c <> q -> read_quoted q ((s ≫= fun c => if c =? q then [q; q] else [c]) ++ q :: c :: r)
  = Some (s, c :: r).
Proof.
  intros Hc. induction s as [|x s IH].
  - cbn. rewrite Z.eqb_refl. by rewrite (proj2 (Z.eqb_neq c q)).
  - rewrite bind_cons, <- app_assoc. destruct (Z.eqb_spec x q) as [->|Hx]; cbn [app read_quoted].
    + by rewrite Z.eqb_refl, IH.
    + by rewrite (proj2 (Z.eqb_neq x q)), IH.
Qed.

Lemma forallb_Forall {A} (p : A -> bool) l : forallb p l = true <-> Forall (fun x => p x = true) l.
Proof. rewrite forallb_forall, Forall_forall. setoid_rewrite list_elem_of_In. done. Qed.

Lemma ident_start_spec c : is_ident_start c = true -> 65 <= c <= 90 \/ c = 95 \/ 97 <= c <= 122.
Proof.
  unfold is_ident_start, is_ascii_alphabetic. rewrite !orb_true_iff, !in_range_true, Z.eqb_eq. lia.
Qed.

(** The class tests of [next_token] on a character of known range. *)
Ltac char_tests :=
  repeat match goal with
         | |- context [in_range ?lo ?hi ?c] =>
             first [ rewrite (proj2 (in_range_true lo hi c)) by lia
                   | rewrite (proj2 (in_range_false lo hi c)) by lia ]
         | |- context [?a =? ?b] =>
             first [ rewrite (proj2 (Z.eqb_neq a b)) by lia
                   | rewrite (proj2 (Z.eqb_eq a b)) by lia ]
         end.

Lemma next_token_ident c r x rest :
  is_ident_start c = true -> Forall (fun d => is_ident_part d = true) r -> is_ident_part x = false ->
  next_token c (r ++ x :: rest) = Some (Some (Ident (c :: r)), x :: rest).
Proof.
  intros Hc Hr Hx. pose proof (ident_start_spec c Hc).
  unfold next_token. rewrite Hc, (take_while_app is_ident_part) by done.
  replace (is_ascii_digit c) with false by (symmetry; apply in_range_false; lia).
  unfold is_whitespace. by char_tests.
Qed.

Lemma next_token_number c r x rest :
  is_ascii_digit c = true -> Forall (fun d => is_ascii_digit d = true) r -> is_ascii_digit x = false ->
  next_token c (r ++ x :: rest) = Some (Some (Number (c :: r)), x :: rest).
Proof.
  intros Hc Hr Hx. unfold next_token. rewrite (take_while_app is_ascii_digit), Hc by done.
  apply digit_spec in Hc. unfold is_whitespace. by char_tests.
Qed.

Lemma next_token_negative d r x rest :
  is_ascii_digit d = true -> Forall (fun d => is_ascii_digit d = true) r -> is_ascii_digit x = false ->
  next_token 45 (d :: r ++ x :: rest) = Some (Some (Number (45 :: d :: r)), x :: rest).
Proof.
  intros Hd Hr Hx. unfold next_token.
  change (d :: r ++ x :: rest) with ((d :: r) ++ x :: rest).
  rewrite take_while_app by (done || by constructor). cbn [app]. rewrite Hd.
  apply digit_spec in Hd. rewrite (proj2 (Z.eqb_neq 45 d)) by lia. done.
Qed.

(** One printed token is read back, up to the space. *)
Lemma next_token_printed t r :
  token_ok t ->
  exists c p, print_token t = c :: p /\ next_token c (p ++ 32 :: r) = Some (Some t, 32 :: r).
Proof.
  intros Hok. destruct t as [v|v|v| | | | | | | | |]; try (by eexists _, _; split).
  - cbn [print_token]. destruct (plain_ident v) eqn:Hp.
    + destruct v as [|c v]; [done|]. apply andb_true_iff in Hp as [Hc Hv].
      apply forallb_Forall in Hv. exists c, v. split; [done|]. by apply next_token_ident.
    + eexists 34, _. split; [done|]. rewrite <- app_assoc. cbn [app]. unfold next_token.
      cbn -[read_quoted]. by rewrite read_quoted_printed.
  - cbn [token_ok print_token] in *. destruct v as [|c v]; [done|]. exists c, v. split; [done|].
    unfold number_text in Hok. destruct (Z.eq_dec c 45) as [->|Hne].
    + destruct v as [|d v]; [done|]. cbn [forallb] in Hok. apply andb_true_iff in Hok as [Hd Hv].
      apply forallb_Forall in Hv. by apply next_token_negative.
    + assert (Hall : forallb is_ascii_digit (c :: v) = true).
      { destruct c as [|p|p]; try exact Hok. revert Hok Hne.
        do 6 (destruct p as [p|p|]; try (intros H _; exact H)). done. }
      apply andb_true_iff in Hall as [Hd Hv]. apply forallb_Forall in Hv.
      by apply next_token_number.
  - eexists 39, _. split; [done|]. rewrite <- app_assoc. cbn [app]. unfold next_token.
    cbn -[read_quoted]. by rewrite read_quoted_printed.
Qed.

Lemma tokenize_loop_printed fuel ts acc :
  Forall token_ok ts -> (length (print_tokens ts) < fuel)%nat ->
  tokenize_loop fuel (print_tokens ts) acc = Some (Some (acc ++ ts)).
Proof.
  intros Hok. revert fuel acc. induction Hok as [|t ts Ht _ IH]; intros fuel acc Hf.
  - destruct fuel; [lia|]. cbn. by rewrite app_nil_r.
  - unfold print_tokens in *. rewrite bind_cons in *.
    destruct (next_token_printed t (ts ≫= fun t => print_token t ++ [32]) Ht) as (c & p & Hp & Hn).
    rewrite Hp in *. rewrite <- !app_assoc in *. cbn [app] in *. rewrite length_cons in Hf.
    rewrite length_app, length_cons in Hf. destruct fuel as [|[|fuel]]; [lia|lia|].
    cbn [tokenize_loop]. rewrite Hn. change (next_token 32 ?r) with (Some (@None Token, r)).
    cbn match. rewrite IH by lia. by rewrite <- app_assoc.
Qed.
End Printing.

(** Every sequence of tokens is what its text is read as. *)
Lemma tokenize_printed (ts : list Token) : Forall token_ok ts -> tokenize (print_tokens ts) = Some ts.
Proof. intros Hok. unfold tokenize. by rewrite tokenize_loop_printed by (done || lia). Qed.

(** ** Statements as data *)

(** A conjunct [qualifier.column = value]. *)
Record Conjunct := {
  c_qualifier : option str;
  c_column : str;
  c_value : Token;
}.

Definition value_token (t : Token) : bool :=
  match t with Ident _ | Number _ | StringLit _ | Param => true | _ => false end.

Definition conjunct_tokens (c : Conjunct) : list Token :=
  match c_qualifier c with Some q => [Ident q; Dot] | None => [] end
  ++ [Ident (c_column c); Equals; c_value c].

(** [c1 and c2 and ...]. *)
Fixpoint where_tokens (cs : list Conjunct) : list Token :=
  match cs with
  | [] => []
  | c :: cs =>
      conjunct_tokens c
      ++ match cs with [] => [] | _ :: _ => Ident (lit "and") :: where_tokens cs end
  end.

(** The literal a conjunct compares the shard column with. *)
Definition literal_key (t : Token) : option ShardKey := fst <$> parse_literal [t] 0.

Definition conjunct_key (column : str) (c : Conjunct) : option ShardKey :=
  if identifier_matches (c_column c) column then literal_key (c_value c) else None.

Definition no_or (t : Token) : bool := negb (is_keyword "or" t).

Definition conjunct_ok (c : Conjunct) : Prop :=
  value_token (c_value c) = true /\ Forall (fun t => no_or t = true) (conjunct_tokens c).

Section Where.
Context (column : str).

(** What the loop returns from an index, however long it takes. *)
Definition collects (tokens : list Token) (i : nat) (values : list ShardKey)
    (r : option (list ShardKey)) : Prop :=
  exists fuel, collect_loop fuel tokens column i values = Some r.

Lemma collects_result tokens r :
  collects tokens 0 [] r -> collect_key_values tokens (Some column) = r.
Proof.
  intros [fuel Hf]. unfold collect_key_values. cbn [mbind option_bind].
  destruct (collect_total (S (length tokens)) tokens column 0 []) as [r' Hr]; [lia|].
  rewrite Hr. cbn. eapply (collect_more _ (fuel + S (length tokens))) in Hf; [|lia].
  eapply (collect_more _ (fuel + S (length tokens))) in Hr; [|lia]. congruence.
Qed.

Lemma collects_end tokens i values : tokens !! i = None -> collects tokens i values (Some values).
Proof. intros H. exists 1%nat. cbn. by rewrite H. Qed.

Lemma collects_found tokens i t values v n r :
  tokens !! i = Some t -> no_or t = true ->
  parse_column_equality tokens i column = Some (v, n) ->
  collects tokens n (values ++ [v]) r -> collects tokens i values r.
Proof.
  intros Ht Ho Hp [fuel Hf]. exists (S fuel). cbn. rewrite Ht, Hp.
  unfold no_or in Ho. apply negb_true_iff in Ho as ->. done.
Qed.

Lemma collects_skip tokens i t values r :
  tokens !! i = Some t -> no_or t = true -> parse_column_equality tokens i column = None ->
  collects tokens (S i) values r -> collects tokens i values r.
Proof.
  intros Ht Ho Hp [fuel Hf]. exists (S fuel). cbn. rewrite Ht, Hp.
  unfold no_or in Ho. apply negb_true_iff in Ho as ->. done.
Qed.

(** An equality is read from the tokens at and after its index. *)
Lemma parse_column_equality_drop tokens i :
  parse_column_equality tokens i column
  = (fun p => (p.1, (i + p.2)%nat)) <$> parse_column_equality (drop i tokens) 0 column.
Proof.
  assert (Hl : forall k, drop i tokens !! k = tokens !! (i + k)%nat) by (intros; apply lookup_drop).
  unfold parse_column_equality, parse_literal. rewrite !Hl.
  replace (i + 0)%nat with i by lia. replace (i + 1)%nat with (S i) by lia.
  replace (i + 2)%nat with (S (S i)) by lia.
  destruct (tokens !! i ≫= as_ident) as [first|]; [|done]. cbn [mbind option_bind].
  assert (Hgo : forall j, match tokens !! (i + j)%nat with
    | Some Equals =>
      '(value, n) ← match tokens !! S (i + j) with
         | Some (Number value) => (fun p => (KInteger p, S (S (i + j)))) <$> parse_i64 value
         | Some (StringLit value) => Some (KText value, S (S (i + j)))
         | _ => None end;
      if is_literal_terminator (tokens !! n) then Some (value, n) else None
    | _ => None end =
    (fun p => (p.1, (i + p.2)%nat)) <$> match drop i tokens !! j with
    | Some Equals =>
      '(value, n) ← match drop i tokens !! S j with
         | Some (Number value) => (fun p => (KInteger p, S (S j))) <$> parse_i64 value
         | Some (StringLit value) => Some (KText value, S (S j))
         | _ => None end;
      if is_literal_terminator (drop i tokens !! n) then Some (value, n) else None
    | _ => None end).
  { intros j. rewrite !Hl. replace (i + S j)%nat with (S (i + j)) by lia.
    destruct (tokens !! (i + j)%nat) as [[]|]; try done.
    destruct (tokens !! S (i + j)) as [[]|]; try done;
      [destruct (parse_i64 value); [|done]|]; cbn; rewrite Hl;
      replace (i + S (S j))%nat with (S (S (i + j))) by lia;
      destruct (is_literal_terminator _); cbn; try done; do 3 f_equal; lia. }
  destruct (tokens !! S i) as [t|]; [destruct t|]; cbn [mbind option_bind];
    try (destruct (identifier_matches first column); [|done]; specialize (Hgo 1%nat);
         replace (i + 1)%nat with (S i) in Hgo by lia; exact Hgo).
  destruct (tokens !! S (S i) ≫= as_ident); [|done]. cbn [mbind option_bind].
  destruct (identifier_matches _ column); [|done]. specialize (Hgo 3%nat).
  replace (i + 3)%nat with (S (S (S i))) in Hgo by lia. exact Hgo.
Qed.

Lemma if_true {A} (b : bool) (x y : A) : b = true -> (if b then x else y) = x.
Proof. by intros ->. Qed.

(** What can follow a conjunct. *)
Definition conjunct_end (suf : list Token) : Prop :=
  match suf with
  | [] | Semicolon :: _ => True
  | Ident w :: _ => w = lit "and"
  | _ => False
  end.

Lemma conjunct_end_terminates suf :
  conjunct_end suf -> is_literal_terminator (suf !! 0%nat) = true.
Proof. by destruct suf as [|[] suf]; cbn; try done; intros ->. Qed.

Lemma equality_plain c v suf :
  conjunct_end suf ->
  parse_column_equality (Ident c :: Equals :: v :: suf) 0 column
  = if identifier_matches c column then (fun k => (k, 3%nat)) <$> literal_key v else None.
Proof.
  intros Hs%conjunct_end_terminates. unfold parse_column_equality, literal_key, parse_literal.
  cbn. destruct (identifier_matches c column); [|done].
  cbn. destruct v as [| | | | | | | | | | |]; try done; cbn;
    [destruct (parse_i64 value); [|done]|]; cbn; by apply if_true.
Qed.

Lemma equality_qualified q c v suf :
  conjunct_end suf ->
  parse_column_equality (Ident q :: Dot :: Ident c :: Equals :: v :: suf) 0 column
  = if identifier_matches c column then (fun k => (k, 5%nat)) <$> literal_key v else None.
Proof.
  intros Hs%conjunct_end_terminates. unfold parse_column_equality, literal_key, parse_literal.
  cbn. destruct (identifier_matches c column); [|done].
  cbn. destruct v as [| | | | | | | | | | |]; try done; cbn;
    [destruct (parse_i64 value); [|done]|]; cbn; by apply if_true.
Qed.

(** Neither a value nor a connective starts an equality. *)
Lemma equality_value v suf :
  conjunct_end suf -> parse_column_equality (v :: suf) 0 column = None.
Proof.
  intros Hs. unfold parse_column_equality. destruct v; try done. cbn.
  destruct suf as [|[] suf]; try done; cbn; by destruct (identifier_matches value column).
Qed.

Lemma equality_and w suf :
  parse_column_equality (Ident (lit "and") :: Ident w :: suf) 0 column = None.
Proof. unfold parse_column_equality. cbn. by destruct (identifier_matches _ column). Qed.

Lemma skip_here tokens i t suf values r :
  drop i tokens = t :: suf -> no_or t = true ->
  parse_column_equality (t :: suf) 0 column = None ->
  collects tokens (S i) values r -> collects tokens i values r.
Proof.
  intros Hd Ho Hp. apply (collects_skip _ _ t); [|done|].
  - rewrite <- (Nat.add_0_r i), <- lookup_drop, Hd. done.
  - by rewrite parse_column_equality_drop, Hd, Hp.
Qed.

Lemma found_here tokens i t suf values k n r :
  drop i tokens = t :: suf -> no_or t = true ->
  parse_column_equality (t :: suf) 0 column = Some (k, n) ->
  collects tokens (i + n) (values ++ [k]) r -> collects tokens i values r.
Proof.
  intros Hd Ho Hp. apply (collects_found _ _ t); [|done|].
  - rewrite <- (Nat.add_0_r i), <- lookup_drop, Hd. done.
  - by rewrite parse_column_equality_drop, Hd, Hp.
Qed.

Lemma drop_next {A} (l : list A) i x r : drop i l = x :: r -> drop (S i) l = r.
Proof. intros H. rewrite <- Nat.add_1_r, <- drop_drop, H. done. Qed.

(** The unqualified tail of a conjunct. *)
Lemma collects_plain tokens i c v suf values r :
  drop i tokens = Ident c :: Equals :: v :: suf -> conjunct_end suf ->
  no_or (Ident c) = true -> no_or v = true ->
  collects tokens (i + 3)
    (values ++ option_list (if identifier_matches c column then literal_key v else None)) r ->
  collects tokens i values r.
Proof.
  intros Hd Hs Hc Hv. pose proof (equality_plain c v suf Hs) as Hp.
  destruct (if identifier_matches c column then literal_key v else None) as [k|] eqn:Hk.
  - apply (found_here _ _ _ _ _ k 3 _ Hd Hc).
    destruct (identifier_matches c column); [|done]. by rewrite Hp, Hk.
  - cbn [option_list]. rewrite app_nil_r. intros Hr. apply (skip_here _ _ _ _ _ _ Hd Hc).
    { destruct (identifier_matches c column); [|done]. by rewrite Hp, Hk. }
    pose proof (drop_next _ _ _ _ Hd) as Hd1. apply (skip_here _ _ _ _ _ _ Hd1); [done..|].
    pose proof (drop_next _ _ _ _ Hd1) as Hd2. apply (skip_here _ _ _ _ _ _ Hd2); [done| |].
    { by apply equality_value. }
    by replace (i + 3)%nat with (S (S (S i))) in Hr by lia.
Qed.

Lemma collects_conjunct tokens i c suf values r :
  drop i tokens = conjunct_tokens c ++ suf -> conjunct_end suf -> conjunct_ok c ->
  collects tokens (i + length (conjunct_tokens c))
    (values ++ option_list (conjunct_key column c)) r ->
  collects tokens i values r.
Proof.
  intros Hd Hs [_ Ho]. unfold conjunct_key. destruct c as [[q|] c v]; unfold conjunct_tokens in *;
    cbn [c_qualifier c_column c_value app length] in *; rewrite !Forall_cons in Ho.
  - destruct Ho as (Hq & Hdot & Hc & Heq & Hv & _).
    pose proof (equality_qualified q c v suf Hs) as Hp.
    destruct (if identifier_matches c column then literal_key v else None) as [k|] eqn:Hk.
    + intros Hr. apply (found_here _ _ _ _ _ k 5 _ Hd Hq); [|done].
      destruct (identifier_matches c column); [|done]. by rewrite Hp, Hk.
    + intros Hr. apply (skip_here _ _ _ _ _ _ Hd Hq).
      { destruct (identifier_matches c column); [|done]. by rewrite Hp, Hk. }
      pose proof (drop_next _ _ _ _ Hd) as Hd1. apply (skip_here _ _ _ _ _ _ Hd1); [done..|].
      pose proof (drop_next _ _ _ _ Hd1) as Hd2. eapply collects_plain; [done..|].
      rewrite Hk. by replace (S (S i) + 3)%nat with (i + 5)%nat by lia.
  - destruct Ho as (Hc & Heq & Hv & _). by eapply collects_plain.
Qed.

(** The clause gives the literals its conjuncts compare the column with. *)
Lemma collects_where tokens i cs tail values :
  drop i tokens = where_tokens cs ++ tail -> tail = [] \/ tail = [Semicolon] ->
  Forall conjunct_ok cs ->
  collects tokens i values (Some (values ++ omap (conjunct_key column) cs)).
Proof.
  intros Hd Ht Hok. revert i values Hd.
  assert (Hend : forall i values, drop i tokens = tail -> collects tokens i values (Some values)).
  { intros i values Hd. destruct Ht as [->| ->].
    - apply collects_end. apply lookup_ge_None. apply (f_equal length) in Hd.
      rewrite length_drop in Hd. cbn in Hd. lia.
    - eapply (skip_here _ _ Semicolon); [done..|]. apply collects_end, lookup_ge_None.
      apply (f_equal length) in Hd. rewrite length_drop in Hd. cbn in Hd. lia. }
  induction Hok as [|c cs Hc Hcs IH]; intros i values Hd.
  { rewrite app_nil_r. by apply Hend. }
  cbn [where_tokens] in Hd. rewrite <- app_assoc in Hd.
  assert (Hskip : drop (i + length (conjunct_tokens c)) tokens
    = match cs with [] => [] | _ :: _ => Ident (lit "and") :: where_tokens cs end ++ tail).
  { rewrite <- drop_drop, Hd. apply drop_app_length. }
  eapply collects_conjunct; [exact Hd| |done|].
  - destruct cs; cbn; [|done]. by destruct Ht as [->| ->].
  - replace (omap (conjunct_key column) (c :: cs))
      with (option_list (conjunct_key column c) ++ omap (conjunct_key column) cs)
      by (cbn; by destruct (conjunct_key column c)).
    rewrite app_assoc. destruct cs as [|c' cs]; [rewrite app_nil_r; by apply Hend|].
    eapply (skip_here _ _ _ _ _ _ Hskip); [done| |].
    + destruct c' as [[q|] col v]; apply equality_and.
    + apply IH. by apply drop_next in Hskip.
Qed.
End Where.

(** A statement up to its table: [select items from] or [delete from]. *)
Inductive StatementHead := HeadSelect (items : list Token) | HeadDelete.

Definition head_tokens (h : StatementHead) : list Token :=
  match h with
  | HeadSelect items => Ident (lit "select") :: items ++ [Ident (lit "from")]
  | HeadDelete => [Ident (lit "delete"); Ident (lit "from")]
  end.

Definition table_tokens (schema : option str) (table : str) : list Token :=
  match schema with Some s => [Ident s; Dot; Ident table] | None => [Ident table] end.

Definition statement_tokens (h : StatementHead) (schema : option str) (table : str)
    (cs : list Conjunct) (tail : list Token) : list Token :=
  head_tokens h ++ table_tokens schema table ++ Ident (lit "where") :: where_tokens cs ++ tail.

(** Tokens [find_keyword] passes over. *)
Definition passes (keyword : string) (t : Token) : bool :=
  match t with LParen | RParen => false | _ => negb (is_keyword keyword t) end.

Definition statement_ok (h : StatementHead) (schema : option str) (table : str)
    (cs : list Conjunct) (tail : list Token) : Prop :=
  match h with
  | HeadSelect items => Forall (fun t => passes "from" t = true) items
  | HeadDelete => True
  end /\
  Forall (fun t => passes "where" t = true) (table_tokens schema table) /\
  Forall conjunct_ok cs /\ (tail = [] \/ tail = [Semicolon]) /\
  Forall token_ok (statement_tokens h schema table cs tail).

Section Statements.
Lemma find_keyword_passes tokens start pre keyword w post :
  drop start tokens = pre ++ Ident w :: post -> Forall (fun t => passes keyword t = true) pre ->
  eq_ignore_ascii_case w (lit keyword) = true ->
  find_keyword tokens keyword start = Some (start + length pre)%nat.
Proof.
  intros Hd Hp Hw. unfold find_keyword. rewrite Hd. clear Hd. revert start.
  induction Hp as [|t pre Ht _ IH]; intros start; cbn [app find_keyword_from length].
  - cbn [is_keyword]. rewrite Hw. cbn. by rewrite Nat.add_0_r.
  - assert (Hk : is_keyword keyword t = false).
    { destruct t; cbn in *; try done. by apply negb_true_iff in Ht. }
    rewrite Hk, andb_false_r, IH. rewrite Nat.add_succ_r. by destruct t.
Qed.

Lemma parse_table_reference_tokens tokens i schema table w post :
  drop i tokens = table_tokens schema table ++ Ident w :: post ->
  parse_table_reference tokens i
  = Some {| ref_schema := schema; ref_table := table;
            next_index := i + length (table_tokens schema table) |}.
Proof.
  intros Hd. unfold parse_table_reference.
  assert (Hl : forall k, tokens !! (i + k)%nat = drop i tokens !! k)
    by (intros; by rewrite lookup_drop).
  replace (tokens !! i) with (tokens !! (i + 0)%nat) by (f_equal; lia).
  replace (tokens !! S i) with (tokens !! (i + 1)%nat) by (f_equal; lia).
  replace (tokens !! S (S i)) with (tokens !! (i + 2)%nat) by (f_equal; lia).
  rewrite !Hl, Hd. destruct schema; cbn; do 2 f_equal; lia.
Qed.

Lemma resolve_table_index schema table i j rm :
  resolve_table {| ref_schema := schema; ref_table := table; next_index := i |} rm
  = resolve_table {| ref_schema := schema; ref_table := table; next_index := j |} rm.
Proof. reflexivity. Qed.

Lemma push_unique_spec values acc :
  NoDup acc ->
  NoDup (fold_left push_unique values acc) /\
  forall v, v ∈ fold_left push_unique values acc <-> v ∈ acc \/ v ∈ values.
Proof.
  revert acc. induction values as [|x values IH]; intros acc Ha; cbn [fold_left]; [set_solver|].
  destruct (IH (push_unique acc x)) as [H1 H2].
  { unfold push_unique. case_bool_decide; [done|]. apply NoDup_app.
    split_and!; [done|set_solver|apply NoDup_singleton]. }
  split; [done|]. intros v. rewrite H2. unfold push_unique. case_bool_decide; set_solver.
Qed.

(** One key comes out when it is the only value. *)
Lemma build_extraction_exact table values schema name column k :
  build_extraction table values = Some (ExtractKey schema name column k) <->
  table = {| resolved_schema := schema; resolved_table := name; resolved_column := Some column |} /\
  k ∈ values /\ Forall (fun v => v = k) values.
Proof.
  unfold build_extraction. destruct (push_unique_spec values [] (NoDup_nil_2)) as [Hn He].
  rewrite Forall_forall.
  destruct (fold_left push_unique values []) as [|x [|y l]].
  - split; [done|]. intros (_ & Hk & _). specialize (He k). set_solver.
  - destruct table as [s n [c|]]; cbn; (split; [intros; simplify_eq|]).
    + split; [done|]. split; [specialize (He k); set_solver|].
      intros v Hv. specialize (He v). set_solver.
    + intros (? & Hk & Ha). simplify_eq. do 2 f_equal. apply Ha. specialize (He x). set_solver.
    + by intros (? & _).
  - split; [done|]. intros (_ & _ & Ha). exfalso.
    assert (x = k) by (apply Ha; specialize (He x); set_solver).
    assert (y = k) by (apply Ha; specialize (He y); set_solver).
    subst. apply NoDup_cons in Hn as [Hn _]. set_solver.
Qed.

Lemma drop_statement (pre suf : list Token) (i : nat) :
  i = length pre -> drop i (pre ++ suf) = suf.
Proof. intros ->. apply drop_app_length. Qed.

(** The clause the statement parsers hand to the extraction. *)
Lemma parse_statement_where h schema table cs tail rm :
  statement_ok h schema table cs tail ->
  parse_statement (statement_tokens h schema table cs tail) rm =
  resolved ← resolve_table {| ref_schema := schema; ref_table := table; next_index := 0 |} rm;
  extract_where_key (where_tokens cs ++ tail) resolved.
Proof.
  intros (Hh & Htab & _ & _ & _).
  set (ts := statement_tokens h schema table cs tail).
  assert (Htd : drop (length (head_tokens h)) ts
    = table_tokens schema table ++ Ident (lit "where") :: where_tokens cs ++ tail)
    by (by apply drop_statement).
  pose proof (parse_table_reference_tokens _ _ _ _ _ _ Htd) as Href.
  assert (Hw : drop (S (length (head_tokens h) + length (table_tokens schema table))) ts
    = where_tokens cs ++ tail).
  { unfold ts, statement_tokens. rewrite app_assoc, cons_middle, app_assoc.
    apply drop_statement. rewrite !length_app. cbn. lia. }
  pose proof (find_keyword_passes _ _ _ "where" _ _ Htd Htab eq_refl) as Hwhere.
  destruct h as [items|].
  - change (parse_statement ts rm) with (parse_select ts rm). unfold parse_select.
    rewrite (find_keyword_passes ts 0 (Ident (lit "select") :: items) "from" (lit "from")
      (table_tokens schema table ++ Ident (lit "where") :: where_tokens cs ++ tail)).
    + cbn [head_tokens length] in Href, Hwhere, Hw. rewrite length_app in Href, Hwhere, Hw.
      cbn [length] in Href, Hwhere, Hw. cbn [mbind option_bind length].
      replace (S (length items + 1)) with (S (0 + S (length items))) in Href, Hwhere, Hw by lia.
      rewrite Href. cbn [mbind option_bind]. rewrite (resolve_table_index _ _ _ 0).
      destruct (resolve_table _ rm); [|done]. cbn [mbind option_bind]. rewrite Hwhere.
      cbn [mbind option_bind]. by rewrite Hw.
    + unfold ts, statement_tokens. cbn [head_tokens drop app]. by rewrite <- app_assoc.
    + by constructor.
    + done.
  - change (parse_statement ts rm) with (parse_delete ts rm). unfold parse_delete.
    change (keyword_at ts 1 "from") with true. cbn [head_tokens length] in Href, Htd, Hw.
    cbn match. rewrite Href. cbn [mbind option_bind]. rewrite (resolve_table_index _ _ _ 0).
    destruct (resolve_table _ rm); [|done]. cbn [mbind option_bind next_index].
    rewrite (find_keyword_passes ts _ [] "where" (lit "where") (where_tokens cs ++ tail)).
    + cbn [mbind option_bind length]. rewrite Nat.add_0_r. by rewrite Hw.
    + rewrite <- drop_drop, Htd. by rewrite drop_app_length.
    + constructor.
    + done.
Qed.
End Statements.

(** A [select] or [delete] whose condition is a conjunction of equalities,
    written as text in any spelling the printer produces, gives a shard key
    exactly when its table is one of the route map's and the literals its
    conjuncts compare the shard column with are one value, which is the key
    given; no conjunct, two different values, or an unknown or ambiguous
    table give none. *)
Theorem extraction_exact (h : StatementHead) (schema : option str) (table : str)
    (cs : list Conjunct) (tail : list Token) (rm : RouteMapValidationInput)
    (s : option str) (t column : str) (k : ShardKey) :
  statement_ok h schema table cs tail ->
  extract_shard_key (print_tokens (statement_tokens h schema table cs tail)) rm
  = ExtractKey s t column k <->
  resolve_table {| ref_schema := schema; ref_table := table; next_index := 0 |} rm
  = Some {| resolved_schema := s; resolved_table := t; resolved_column := Some column |} /\
  Exists (fun c => conjunct_key column c = Some k) cs /\
  Forall (fun c => conjunct_key column c = None \/ conjunct_key column c = Some k) cs.
Proof.
  intros Hok. unfold extract_shard_key. rewrite tokenize_printed by apply Hok.
  rewrite parse_statement_where by done. destruct Hok as (_ & _ & Hcs & Htail & _).
  destruct (resolve_table _ rm) as [[s' t' [c|]]|]; cbn [mbind option_bind];
    [| |split; [done|by intros [? _]]].
  - unfold extract_where_key. cbn [resolved_column].
    rewrite (collects_result c _ (Some (omap (conjunct_key c) cs))).
    2: { apply (collects_where c _ 0 cs tail []); auto. }
    cbn [mbind option_bind]. transitivity
      (build_extraction {| resolved_schema := s'; resolved_table := t'; resolved_column := Some c |}
         (omap (conjunct_key c) cs) = Some (ExtractKey s t column k)).
    { destruct (build_extraction _ _); cbn; split; congruence. }
    rewrite build_extraction_exact, Forall_forall, Exists_exists.
    setoid_rewrite list_elem_of_omap. split.
    + intros (? & (x & Hx & Hk) & Ha). simplify_eq. split; [done|]. split; [eauto|].
      apply Forall_forall. intros y Hy. destruct (conjunct_key column y) as [v|] eqn:Hv; [|by left].
      right. f_equal. eauto.
    + intros (? & (x & Hx & Hk) & Ha). simplify_eq. rewrite Forall_forall in Ha.
      split; [done|]. split; [eauto|]. intros v (y & Hy & Hv). specialize (Ha y Hy).
      rewrite Hv in Ha. destruct Ha; congruence.
  - unfold extract_where_key, collect_key_values. cbn. split; [done|]. by intros [? _].
Qed.

Lemma extraction_exact_witness :
  let rm := {| routes := []; shard_rules := [];
               sharded_tables := [{| table_name := lit "accounts"; table_enabled := true;
                                     shard_key_column := Some (lit "tenant_id") |}] |} in
  let cs := [{| c_qualifier := None; c_column := lit "id"; c_value := Number (lit "7") |};
             {| c_qualifier := Some (lit "a"); c_column := lit "Tenant_Id";
                c_value := StringLit (lit "it's") |}] in
  extract_shard_key
    (print_tokens (statement_tokens (HeadSelect [Star]) None (lit "accounts") cs [Semicolon])) rm
  = ExtractKey None (lit "accounts") (lit "tenant_id") (KText (lit "it's")).
Proof.
  apply (extraction_exact (HeadSelect [Star])).
  - split; [by repeat constructor|]. split; [by repeat constructor|].
    split; [by repeat constructor|]. split; [by right|by repeat constructor].
  - split; [vm_compute; reflexivity|]. split; [right; left; vm_compute; reflexivity|].
    constructor; [left; vm_compute; reflexivity|].
    constructor; [right; vm_compute; reflexivity|constructor].
Defined.

(** ** What the extraction does not see *)

Definition accounts_map : RouteMapValidationInput :=
  {| routes := []; shard_rules := [];
     sharded_tables := [{| table_name := lit "accounts"; table_enabled := true;
                           shard_key_column := Some (lit "tenant_id") |}] |}.

(** A negated equality gives the value it excludes. *)
Example negated_equality_extracts :
  extract_shard_key (lit "select * from accounts where not tenant_id = 42") accounts_map
  = ExtractKey None (lit "accounts") (lit "tenant_id") (KInteger 42).
Proof. vm_compute. reflexivity. Qed.

(** The value an update assigns counts as the key of the rows it changes. *)
Example assigned_value_extracts :
  extract_shard_key (lit "update accounts set tenant_id = 5 where id = 7") accounts_map
  = ExtractKey None (lit "accounts") (lit "tenant_id") (KInteger 5).
Proof. vm_compute. reflexivity. Qed.

(** The first keyword must be lower case, the others need not be. *)
Example upper_case_statement_unknown :
  extract_shard_key (lit "SELECT * from accounts where tenant_id = 42") accounts_map = ExtractUnknown /\
  extract_shard_key (lit "select * FROM accounts WHERE tenant_id = 42") accounts_map
  = ExtractKey None (lit "accounts") (lit "tenant_id") (KInteger 42).
Proof. split; vm_compute; reflexivity. Qed.

(** ** Hints *)

Inductive HintKind := KindShard | KindTenant | KindRoute.

Definition hint_kind_text (k : HintKind) : str :=
  match k with
  | KindShard => lit "shard"
  | KindTenant => lit "tenant"
  | KindRoute => lit "route"
  end.

Definition hint_of (k : HintKind) (v : str) : ShardHint :=
  match k with
  | KindShard => HintShard v
  | KindTenant => HintTenant v
  | KindRoute => HintRoute v
  end.

(** [/* pg-kinetic: kind=value */]. *)
Definition print_hint (k : HintKind) (v : str) : str :=
  lit "/* pg-kinetic: " ++ hint_kind_text k ++ lit "=" ++ v ++ lit " */".

Section Hints.
Lemma hint_value_chars v c :
  is_hint_value v = true -> c ∈ v -> is_whitespace c = false /\ c <> 42 /\ c <> 61.
Proof.
  unfold is_hint_value. rewrite andb_true_iff, forallb_Forall, Forall_forall. intros [_ H] Hc.
  specialize (H c Hc). unfold is_ascii_alphanumeric in H.
  rewrite !orb_true_iff, !in_range_true, !Z.eqb_eq in H.
  split; [|lia]. unfold is_whitespace, in_range. apply not_true_iff_false.
  rewrite !orb_true_iff, !andb_true_iff, !Z.leb_le, !Z.eqb_eq. lia.
Qed.

Lemma hint_value_trimmed v : is_hint_value v = true -> trimmed v.
Proof.
  intros H. apply no_ws_trimmed, Forall_forall. intros c Hc. by apply (hint_value_chars v).
Qed.

Lemma hint_value_nonempty v : is_hint_value v = true -> v <> [].
Proof. by intros H ->. Qed.

Lemma last_app_some {A} (a b : list A) : b <> [] -> last (a ++ b) = last b.
Proof.
  intros Hb. rewrite last_app. destruct (last b) eqn:Hl; [done|].
  by apply last_None in Hl.
Qed.

Lemma trimmed_prefixed (a v : str) c r :
  a = c :: r -> is_whitespace c = false -> is_hint_value v = true -> trimmed (a ++ v).
Proof.
  intros -> Hc Hv. split; [by intros d [= <-]|].
  rewrite last_app_some by (by apply hint_value_nonempty). by apply hint_value_trimmed.
Qed.

Lemma find_str_first pat p a r :
  head pat = Some p -> Forall (fun c => c <> p) a -> find_str pat (a ++ pat ++ r) = Some (length a).
Proof.
  intros Hp. destruct pat as [|q pat]; [done|]. injection Hp as ->.
  induction 1 as [|c a Hc _ IH].
  - cbn. rewrite (proj2 (starts_with_true _ _)); [done|]. by exists r.
  - cbn [app find_str]. destruct (starts_with (p :: pat) _) eqn:Hs.
    + apply starts_with_true in Hs as [x Hx]. by injection Hx as -> _.
    + cbn [app] in IH. by rewrite IH.
Qed.

Lemma parse_hint_comment_printed k v :
  is_hint_value v = true ->
  parse_hint_comment (lit "pg-kinetic: " ++ hint_kind_text k ++ lit "=" ++ v) = Some (hint_of k v).
Proof.
  intros Hv. unfold parse_hint_comment.
  assert (Hbody : trim (32 :: hint_kind_text k ++ lit "=" ++ v) = hint_kind_text k ++ lit "=" ++ v).
  { rewrite trim_cons_ws by done. apply trim_trimmed. rewrite app_assoc.
    by destruct k; eapply trimmed_prefixed. }
  rewrite trim_trimmed.
  2: { rewrite !app_assoc. by destruct k; eapply trimmed_prefixed. }
  change (lit "pg-kinetic: " ++ hint_kind_text k ++ lit "=" ++ v)
    with (lit "pg-kinetic:" ++ 32 :: hint_kind_text k ++ lit "=" ++ v).
  rewrite (proj2 (strip_prefix_Some _ _ (32 :: hint_kind_text k ++ lit "=" ++ v)) eq_refl).
  cbn [mbind option_bind]. rewrite Hbody.
  assert (Hsplit : split_once 61 (hint_kind_text k ++ lit "=" ++ v) = Some (hint_kind_text k, v)).
  { by destruct k; unfold split_once, find_char; cbn; rewrite ?drop_0. }
  rewrite Hsplit. cbn [mbind option_bind].
  rewrite (trim_trimmed v) by (by apply hint_value_trimmed). rewrite Hv.
  by destruct k.
Qed.
End Hints.

(** A hint comment before a statement, behind any white space, is read
    back: its kind and its value, whatever the value's letters, digits,
    underscores, hyphens and dots, and whatever follows the comment. *)
Theorem hint_roundtrip (k : HintKind) (v ws rest : str) :
  is_hint_value v = true -> Forall (fun c => is_whitespace c = true) ws ->
  extract_shard_hint (ws ++ print_hint k v ++ rest) = hint_of k v.
Proof.
  intros Hv Hws. unfold extract_shard_hint.
  assert (Htrim : trim_start (ws ++ print_hint k v ++ rest) = print_hint k v ++ rest).
  { induction Hws as [|c ws Hc _ IH]; [done|]. unfold trim_start. cbn [app trim_start_matches].
    by rewrite Hc. }
  rewrite Htrim. cbn [hint_loop]. unfold print_hint.
  rewrite <- !app_assoc. set (body := lit "pg-kinetic: " ++ hint_kind_text k ++ lit "=" ++ v).
  assert (Heq : lit "/* pg-kinetic: " ++ hint_kind_text k ++ lit "=" ++ v ++ lit " */" ++ rest
                = lit "/*" ++ (32 :: body ++ [32]) ++ lit "*/" ++ rest).
  { unfold body. change (lit "/* pg-kinetic: ") with (lit "/*" ++ 32 :: lit "pg-kinetic: ").
    rewrite <- !app_assoc. cbn [app]. rewrite <- !app_assoc. done. }
  rewrite Heq, (proj2 (strip_prefix_Some _ _ _) eq_refl).
  assert (Hstar : Forall (fun c => c <> 42) (32 :: body ++ [32])).
  { constructor; [done|]. apply Forall_app. split; [|by repeat constructor].
    unfold body. rewrite !Forall_app. split_and!; [by repeat constructor|..].
    - destruct k; by repeat constructor.
    - by repeat constructor.
    - apply Forall_forall. intros c Hc. by apply (hint_value_chars v). }
  rewrite (find_str_first (lit "*/") 42) by done. rewrite take_app_length.
  rewrite trim_cons_ws by done. rewrite trim_snoc_ws; [|done| |done].
  - unfold body. by rewrite parse_hint_comment_printed.
  - unfold body. rewrite !app_assoc. by destruct k; eapply trimmed_prefixed.
Qed.

Lemma hint_roundtrip_witness :
  extract_shard_hint (lit " " ++ print_hint KindTenant (lit "acme-7") ++ lit " select 1")
  = HintTenant (lit "acme-7").
Proof. apply hint_roundtrip; [reflexivity|by repeat constructor]. Defined.
