(* ===== verification/AuthQuery.v ===== *)
(** * AuthQuery: looking users up on the server

    Models [pg-kinetic-proxy/src/pool/backend_query.rs]: the auth query with
    the user name as a quoted literal, the connection that runs it (its login
    through [Auth.respond]), the reading of the answer, and the cache of
    secrets. The connection is an [Auth.ClientStream]; the clock is an
    argument. Loops over the frames of a buffer carry fuel; running out of it
    would show as [Panic], which the theorems exclude. *)

From S2P Require Import Prelude Text Protocol Frame Startup BackendWire Secrets Auth ShardExtract.

Definition AUTH_QUERY_APPLICATION_NAME : str := lit "pg-kinetic-auth-query".
Definition ROW_DESCRIPTION_TAG : Z := 84.

(** ** The query *)

(** [quote_literal]. *)
Fixpoint quote_chars (value : str) : str :=
  match value with
  | [] => []
  | ch :: r => if ch =? 39 then 39 :: ch :: quote_chars r else ch :: quote_chars r
  end.
Definition quote_literal (value : str) : str := 39 :: quote_chars value ++ [39].

Definition render_auth_query (template username : str) : result error str :=
  _ ← ensure (match_count (lit "$1") template =? 1)%nat
        "auth_query must contain exactly one $1 placeholder";
  Ok (replace_str (lit "$1") (quote_literal username) template).

Definition encode_query_message (sql : str) : bytes :=
  frontend_byte Query :: put_i32 (wrap_i 32 (str_len sql + 5)) ++ encode_utf8 sql ++ [0].

Definition auth_query_startup_packet (username : str) : bytes :=
  startup_frame
    (put_i32 (protocol_version_to_i32 V3)
     ++ encode_utf8 (lit "user") ++ [0] ++ encode_utf8 username ++ [0]
     ++ encode_utf8 (lit "application_name") ++ [0]
     ++ encode_utf8 AUTH_QUERY_APPLICATION_NAME ++ [0] ++ [0]).

(** ** The answer *)

Record SimpleQueryRow := { columns : list (option str) }.

(** [read_i16], [read_i32]: the value and the bytes after it; the code keeps
    the offset, the model the rest of the payload. *)
Definition row_read_i16 (rest : bytes) : result error (Z * bytes) :=
  match rest with
  | a :: b :: r => Ok (i16_from_be_bytes a b, r)
  | _ => fail "missing i16"
  end.
Definition row_read_i32 (rest : bytes) : result error (Z * bytes) :=
  match rest with
  | a :: b :: c :: d :: r => Ok (i32_from_be_bytes a b c d, r)
  | _ => fail "missing i32"
  end.

(** The loop of [parse_data_row]. *)
Fixpoint parse_columns (count : nat) (rest : bytes) (columns : list (option str))
    : result error (list (option str) * bytes) :=
  match count with
  | O => Ok (columns, rest)
  | S count =>
      '(n, rest) ← context "read data row column length" (row_read_i32 rest);
      if n =? -1 then parse_columns count rest (columns ++ [None])
      else
        _ ← ensure (0 <=? n) "invalid data row column length";
        _ ← ensure (n <=? len rest) "truncated data row column";
        value ← foreign_or (from_utf8 (take (Z.to_nat n) rest)) "auth query returned non-utf8 column";
        parse_columns count (drop (Z.to_nat n) rest) (columns ++ [Some value])
  end.

Definition parse_data_row (payload : bytes) : result error SimpleQueryRow :=
  '(count, rest) ← context "read data row column count" (row_read_i16 payload);
  _ ← ensure (0 <=? count) "negative data row column count";
  '(columns, rest) ← parse_columns (Z.to_nat count) rest [];
  _ ← ensure (len rest =? 0) "data row has trailing bytes";
  Ok {| columns := columns |}.

Definition with_reads (c : ClientStream) (rs : list (option bytes)) : ClientStream :=
  {| reads := rs; writes := writes c; writes_left := writes_left c |}.

(** [run_simple_query]: what the frames of the buffer do; [inl] has the rows
    of a finished answer, [inr] the rows so far and the bytes left. *)
Definition row_frame (rows : list SimpleQueryRow) (f : BackendFrame)
    : result error (list SimpleQueryRow + list SimpleQueryRow) :=
  if btag f =? backend_byte DataRow then row ← parse_data_row (bpayload f); Ok (inr (rows ++ [row]))
  else if btag f =? backend_byte ErrorResponse then fail "auth query backend returned an error"
  else if btag f =? backend_byte ReadyForQuery then
    _ ← ensure (bool_decide (bpayload f = [ready_status_byte RS_Idle]))
          "auth query backend did not return idle status";
    Ok (inl rows)
  else if (btag f =? ROW_DESCRIPTION_TAG) || (btag f =? backend_byte CommandComplete)
          || (btag f =? backend_byte ParameterStatus) || (btag f =? backend_byte BackendKeyData)
  then Ok (inr rows)
  else fail "unexpected auth query backend frame".

Fixpoint query_frames (fuel : nat) (buffer : bytes) (rows : list SimpleQueryRow)
    : result error (list SimpleQueryRow + list SimpleQueryRow * bytes) :=
  match fuel with
  | O => Panic
  | S fuel =>
      match parse_backend_frame buffer with
      | Err e => Err (EWire e)
      | Panic => Panic
      | Ok (None, buffer) => Ok (inr (rows, buffer))
      | Ok (Some f, buffer) =>
          next ← row_frame rows f;
          match next with
          | inl rows => Ok (inl rows)
          | inr rows => query_frames fuel buffer rows
          end
      end
  end.

Fixpoint query_loop (max : Z) (rs : list (option bytes)) (buffer : bytes) (rows : list SimpleQueryRow)
    : result error (list SimpleQueryRow) * list (option bytes) :=
  if negb (len buffer <? max) then (fail "auth query response exceeded buffer limit", rs)
  else
    match rs with
    | [] => (fail "backend closed during auth query", [])
    | None :: rs => (Err (EContext (lit "read auth query response") EIo), rs)
    | Some chunk :: rs =>
        if negb (0 <? len chunk) then (fail "backend closed during auth query", rs)
        else
          let buffer := buffer ++ chunk in
          if negb (len buffer <=? max) then (fail "auth query response exceeded buffer limit", rs)
          else
            match query_frames (S (length buffer)) buffer rows with
            | Err e => (Err e, rs)
            | Panic => (Panic, rs)
            | Ok (inl rows) => (Ok rows, rs)
            | Ok (inr (rows, buffer)) => query_loop max rs buffer rows
            end
    end.

Definition read_answer (max : Z) : Session (list SimpleQueryRow) := fun c =>
  let '(r, rs) := query_loop max (reads c) [] [] in (r, with_reads c rs).

Definition run_simple_query (sql : str) (max_backend_buffer_bytes : Z) : Session (list SimpleQueryRow) :=
  _ ← with_context "send auth query" (write_all (encode_query_message sql));
  read_answer max_backend_buffer_bytes.

Section Lookup.
Context `{Crypto}.

Definition parse_user_secret (secret : str) : result error UserSecret :=
  if starts_with (lit "md5") secret then Md5 <$> map_err ESecret (md5_secret_parse secret)
  else ScramSha256 <$> map_err ESecret (scram_verifier_parse secret).

Definition parse_auth_query_row (row : SimpleQueryRow) (expected_username : str)
    : result error UserSecret :=
  match columns row with
  | [name; secret] =>
      name ← some_or name "auth query returned null username";
      _ ← ensure (str_eqb name expected_username) "auth query returned unexpected username";
      secret ← some_or secret "auth query returned null secret";
      parse_user_secret secret
  | _ => fail "auth query returned unexpected row shape"
  end.

Definition parse_auth_query_result (rows : list SimpleQueryRow) (expected_username : str)
    : result error (option UserSecret) :=
  match rows with
  | [] => Ok None
  | [row] => Some <$> parse_auth_query_row row expected_username
  | _ => fail "auth query returned duplicate rows"
  end.

(** ** The cache *)

Record AuthQueryCacheEntry := { secret : UserSecret; inserted_at : Z }.
Definition AuthQueryCache : Type := gmap str AuthQueryCacheEntry.

(** Times are milliseconds; [elapsed] is zero for an entry from the future. *)
Definition cache_get (cache : AuthQueryCache) (username : str) (ttl now : Z) : option UserSecret :=
  if ttl =? 0 then None
  else
    entry ← cache !! username;
    if Z.max 0 (now - inserted_at entry) <? ttl then Some (secret entry) else None.

Definition cache_put (cache : AuthQueryCache) (username : str) (s : UserSecret) (now : Z)
    : AuthQueryCache := <[username := {| secret := s; inserted_at := now |}]> cache.

(** ** The connection *)

(** [connect_authenticated]: the frames of the buffer; [inl] when the
    backend is ready. *)
Fixpoint startup_frames (fuel : nat) (buffer : bytes) (auth : BackendAuthSession) (tls : bool)
    : Session (unit + bytes * BackendAuthSession) := fun c =>
  match fuel with
  | O => (Panic, c)
  | S fuel =>
      match parse_backend_frame buffer with
      | Err e => (Err (EWire e), c)
      | Panic => (Panic, c)
      | Ok (None, buffer) => (Ok (inr (buffer, auth)), c)
      | Ok (Some f, buffer) =>
          let '(answer, auth') :=
            if btag f =? backend_byte Authentication then respond auth (bpayload f) tls
            else (Ok None, auth) in
          (answer ← lift answer;
           _ ← match answer with
               | Some response =>
                   with_context "respond to auth query backend authentication" (write_all response)
               | None => mret tt
               end;
           match ready_status f with
           | Some status =>
               _ ← lift (ensure (bool_decide (status = RS_Idle))
                           "auth query backend startup did not become idle");
               mret (inl tt)
           | None => startup_frames fuel buffer auth' tls
           end) c
      end
  end.

Fixpoint startup_loop (rs : list (option bytes)) (buffer : bytes) (auth : BackendAuthSession) (tls : bool)
    : Session unit := fun c =>
  match rs with
  | [] => (fail "backend closed during auth query startup", with_reads c [])
  | None :: rs =>
      (Err (EContext (lit "read auth query backend startup response") EIo), with_reads c rs)
  | Some chunk :: rs =>
      if negb (0 <? len chunk) then (fail "backend closed during auth query startup", with_reads c rs)
      else
        let buffer := buffer ++ chunk in
        match startup_frames (S (length buffer)) buffer auth tls (with_reads c rs) with
        | (Err e, c) => (Err e, c)
        | (Panic, c) => (Panic, c)
        | (Ok (inl _), c) => (Ok tt, c)
        | (Ok (inr (buffer, auth)), c) => startup_loop rs buffer auth tls c
        end
  end.

Definition read_startup (auth : BackendAuthSession) (tls : bool) : Session unit := fun c =>
  startup_loop (reads c) [] auth tls c.

Definition connect_authenticated (credentials : BackendCredentials) (env : Env) (random : option bytes)
    (tls : bool) : Session unit :=
  _ ← with_context "send auth query backend startup"
        (write_all (auth_query_startup_packet (username credentials)));
  auth ← lift (session_new env random credentials);
  read_startup auth tls.

(** [AuthQueryService::lookup]: [connect] is what opening the connection
    gives, the stream and whether it is encrypted; [now_put] the time of the
    insertion. *)
Definition lookup (auth : AuthConfig) (cache : AuthQueryCache) (credentials : option BackendCredentials)
    (env : Env) (random : option bytes) (connect : result error (ClientStream * bool))
    (user : str) (max_backend_buffer_bytes now now_put : Z)
    : result error (option UserSecret) * AuthQueryCache :=
  match cache_get cache user (auth_query_cache_ttl_ms auth) now with
  | Some secret => (Ok (Some secret), cache)
  | None =>
      let answer :=
        credentials ← some_or credentials "auth query service credentials are not configured";
        sql ← render_auth_query (auth_query auth) user;
        '(c, tls) ← connect;
        match connect_authenticated credentials env random tls c with
        | (Ok _, c) =>
            rows ← fst (run_simple_query sql max_backend_buffer_bytes c);
            parse_auth_query_result rows user
        | (Err e, _) => Err e
        | (Panic, _) => Panic
        end in
      (answer, match answer with
               | Ok (Some secret) => cache_put cache user secret now_put
               | _ => cache
               end)
  end.
End Lookup.

(** ** The user name stays a literal *)

Section Literal.
Lemma read_quoted_chars u post :
  head post <> Some 39 -> read_quoted 39 (quote_chars u ++ 39 :: post) = Some (u, post).
Proof.
  intros Hp. induction u as [|c u IH]; cbn [quote_chars app].
  - cbn [read_quoted]. rewrite Z.eqb_refl. destruct post as [|d post]; [done|].
    rewrite (proj2 (Z.eqb_neq d 39)); [done|]. intros ->. done.
  - destruct (Z.eqb_spec c 39) as [->|Hc]; cbn [app read_quoted].
    + by rewrite Z.eqb_refl, IH.
    + by rewrite (proj2 (Z.eqb_neq c 39)), IH.
Qed.

(** One placeholder splits the template in two. *)
Lemma find_str_split pat s n :
  find_str pat s = Some n -> s = take n s ++ pat ++ drop (n + length pat) s.
Proof.
  revert n. induction s as [|c s IH]; intros n; cbn [find_str].
  - destruct (starts_with pat []) eqn:Hs; [|by destruct pat]. intros [= <-].
    apply starts_with_true in Hs as [r Hr]. destruct pat; [|done]. by destruct r.
  - destruct (starts_with pat (c :: s)) eqn:Hs.
    + intros [= <-]. apply starts_with_true in Hs as [r ->]. cbn. by rewrite drop_app_length.
    + destruct (find_str pat s) as [m|] eqn:Hm; [|done]. intros [= <-].
      cbn. f_equal. by apply IH.
Qed.

Lemma split_str_single fuel pat s : length (split_str_go fuel pat s) = 1%nat -> split_str_go fuel pat s = [s].
Proof.
  destruct fuel as [|fuel]; [done|]. cbn [split_str_go]. destruct (find_str pat s); [|done].
  cbn. destruct fuel; [done|]. cbn. by destruct (find_str _ _).
Qed.

Lemma split_str_pair pat s :
  match_count pat s = 1%nat ->
  exists pre post, split_str pat s = [pre; post] /\ s = pre ++ pat ++ post.
Proof.
  unfold match_count, split_str. cbn [split_str_go]. destruct (find_str pat s) as [n|] eqn:Hn; [|done].
  intros Hc. apply find_str_split in Hn. cbn [length] in Hc.
  rewrite split_str_single in Hc |- * by (cbn in Hc; lia). eauto.
Qed.
End Literal.

(** The auth query cannot be broken out of: a template with one
    placeholder is its text before and after it for every user name, with a
    literal between that an SQL reader ends exactly there and reads back as
    the user name; any other template is refused. *)
Theorem auth_query_literal template :
  if (match_count (lit "$1") template =? 1)%nat then
    exists pre post, template = pre ++ lit "$1" ++ post /\
      forall u, render_auth_query template u = Ok (pre ++ quote_literal u ++ post) /\
        exists body, quote_literal u ++ post = 39 :: body /\
          (head post <> Some 39 -> read_quoted 39 body = Some (u, post))
  else forall u, exists e, render_auth_query template u = Err e.
Proof.
  unfold render_auth_query. destruct (Nat.eqb_spec (match_count (lit "$1") template) 1) as [Hc|Hc].
  - apply split_str_pair in Hc as (pre & post & Hs & Ht). exists pre, post. split; [done|]. intros u.
    unfold replace_str. rewrite Hs. cbn [ensure mbind result_bind join].
    split; [by rewrite <- ?app_assoc|]. unfold quote_literal. cbn [app].
    eexists. split; [done|]. intros Hp. rewrite <- app_assoc. by apply read_quoted_chars.
  - intros u. cbn. eauto.
Qed.

(** ** Rows *)

Section Rows.
(** A DataRow as PostgreSQL sends it. *)
Definition encode_column (v : option str) : bytes :=
  match v with
  | None => put_i32 (-1)
  | Some s => put_i32 (str_len s) ++ encode_utf8 s
  end.
Definition encode_row (cols : list (option str)) : bytes := put_i16 (len cols) ++ (cols ≫= encode_column).

Definition column_ok (v : option str) : Prop :=
  match v with None => True | Some s => valid_str s /\ str_len s < 2 ^ 31 end.

Lemma row_read_i32_put v rest : i_range 32 v -> row_read_i32 (put_i32 v ++ rest) = Ok (v, rest).
Proof. intros H. destruct (put_i32_spec v H) as (a & b & c & d & -> & Hv). cbn. by rewrite Hv. Qed.

Lemma parse_columns_encode cols done_ rest :
  Forall column_ok cols ->
  parse_columns (length cols) ((cols ≫= encode_column) ++ rest) done_ = Ok (done_ ++ cols, rest).
Proof.
  intros Hc. revert done_. induction Hc as [|v cols Hv Hc IH]; intros done_; cbn [length parse_columns].
  - by rewrite app_nil_r.
  - rewrite bind_cons, <- app_assoc. destruct v as [s|]; cbn [encode_column].
    + destruct Hv as [Hv Hl]. pose proof (len_nonneg (encode_utf8 s)) as Hn. fold (str_len s) in Hn.
      rewrite <- app_assoc, row_read_i32_put by (unfold i_range; lia). run_result.
      rewrite (proj2 (Z.eqb_neq (str_len s) (-1))) by lia. unfold ensure.
      rewrite (proj2 (Z.leb_le 0 _)) by lia. run_result.
      rewrite (proj2 (Z.leb_le _ _)) by (unfold str_len in *; len_lia). run_result.
      unfold str_len at 1 2. rewrite to_nat_len, take_app_length, drop_app_length.
      rewrite from_utf8_encode by done. run_result. rewrite IH, <- app_assoc. done.
    + rewrite row_read_i32_put by (unfold i_range; lia). run_result. cbn [Z.eqb].
      rewrite IH, <- app_assoc. done.
Qed.

Lemma parse_data_row_encode cols :
  Forall column_ok cols -> len cols < 2 ^ 15 ->
  parse_data_row (encode_row cols) = Ok {| columns := cols |}.
Proof.
  intros Hc Hl. unfold parse_data_row, encode_row. pose proof (len_nonneg cols).
  destruct (put_i16_spec (len cols)) as (a & b & -> & Hv); [unfold i_range; lia|].
  cbn [app row_read_i16 context map_err mbind result_bind]. rewrite Hv. unfold ensure.
  rewrite (proj2 (Z.leb_le 0 _)) by lia. run_result. rewrite to_nat_len.
  rewrite <- (app_nil_r (cols ≫= encode_column)), parse_columns_encode by done. done.
Qed.
End Rows.

(** ** The answer, however it arrives *)

Section Chunks.
(** What the frames of an answer mean, one after the other. *)
Fixpoint answer (fs : list BackendFrame) (rows : list SimpleQueryRow) : result error (list SimpleQueryRow) :=
  match fs with
  | [] => fail "backend closed during auth query"
  | f :: fs =>
      next ← row_frame rows f;
      match next with
      | inl rows => Ok rows
      | inr rows => answer fs rows
      end
  end.

Lemma backend_frame_prefix f p q :
  frame_fits f -> p ++ q = encode_backend_frame f -> q <> [] -> parse_backend_frame p = Ok (None, p).
Proof.
  intros Hfit Hpq Hq. unfold frame_fits, fits_frame in Hfit. pose proof (len_nonneg (bpayload f)).
  unfold encode_backend_frame, encode_backend_message_raw in Hpq.
  rewrite wrap_i_id in Hpq by (unfold i_range; lia).
  destruct (put_i32_spec (len (bpayload f) + 4)) as (a & b & c & d & Hput & Hrt);
    [unfold i_range; lia|]. rewrite Hput in Hpq. unfold parse_backend_frame.
  destruct p as [|t [|b1 [|b2 [|b3 [|b4 p]]]]]; try done. cbn [app] in Hpq.
  injection Hpq as -> -> -> -> -> Hp. rewrite Hrt.
  rewrite (proj2 (Z.ltb_ge _ _)) by lia. rewrite (proj2 (Z.ltb_lt _ _)); [done|].
  rewrite <- Hp. destruct q; [done|]. len_lia.
Qed.

Lemma app_split_le {A} (a b c d : list A) :
  a ++ b = c ++ d -> (length c <= length a)%nat -> exists k, a = c ++ k /\ k ++ b = d.
Proof.
  intros He Hl. exists (drop (length c) a). split.
  - rewrite <- (take_drop (length c) a) at 1. f_equal.
    apply (f_equal (take (length c))) in He. by rewrite take_app_le, take_app_length in He by done.
  - apply (f_equal (drop (length c))) in He. by rewrite drop_app_le, drop_app_length in He by done.
Qed.

(** Draining a buffer that holds a part of the answer. *)
Lemma query_frames_prefix fs p q rows fuel :
  Forall frame_fits fs -> p ++ q = encode_frames fs -> (length p < fuel)%nat ->
  match query_frames fuel p rows with
  | Ok (inl r) => answer fs rows = Ok r
  | Ok (inr (rows', p')) =>
      exists hs, p' ++ q = encode_frames hs /\ Forall frame_fits hs /\ len p' <= len p /\
        answer fs rows = answer hs rows' /\ (q = [] -> hs = [])
  | Err e => answer fs rows = Err e
  | Panic => answer fs rows = Panic
  end.
Proof.
  intros Hfs. revert p rows fuel. induction Hfs as [|f fs Hf Hfs IH]; intros p rows fuel Hpq Hfuel;
    (destruct fuel as [|fuel]; [lia|]); cbn [query_frames].
  - apply app_nil in Hpq as [-> ->]. cbn. exists []. by split_and!.
  - rewrite encode_frames_cons in Hpq.
    destruct (decide (length (encode_backend_frame f) <= length p)%nat) as [Hle|Hlt].
    + destruct (app_split_le _ _ _ _ Hpq Hle) as (k & -> & Hk).
      unfold encode_backend_frame at 1.
      rewrite (parse_backend_frame_spec (btag f) (bpayload f) k Hf). destruct f as [t pl]. cbn [btag bpayload].
      cbn [answer]. destruct (row_frame rows _) as [[r|rows']| |]; [done| |done|done].
      cbn [mbind result_bind]. pose proof (IH k rows' fuel Hk) as IH'.
      rewrite length_app in Hfuel. cbn in Hfuel. specialize (IH' ltac:(lia)).
      destruct (query_frames fuel k rows') as [[r|[r p']]| |]; try done.
      destruct IH' as (hs & H1 & H2 & H3 & H4 & H5). exists hs. split_and!; try done.
      rewrite len_app. pose proof (len_nonneg (encode_backend_frame {| btag := t; bpayload := pl |})). lia.
    + destruct (app_split_le _ _ _ _ (eq_sym Hpq) ltac:(lia)) as (k & Hk & Hq).
      assert (Hne : k <> []) by (intros ->; rewrite app_nil_r in Hk; rewrite Hk in Hlt; lia).
      rewrite (backend_frame_prefix f p k Hf (eq_sym Hk) Hne). exists (f :: fs).
      split_and!; [by rewrite encode_frames_cons|by constructor|lia|done|].
      intros ->. by apply app_nil in Hq as [-> _].
Qed.

Lemma query_loop_chunks max chunks fs buffer rows :
  Forall frame_fits fs -> buffer ++ mjoin chunks = encode_frames fs ->
  (chunks = [] -> fs = []) -> len (encode_frames fs) < max -> Forall (fun c => c <> []) chunks ->
  fst (query_loop max (Some <$> chunks) buffer rows) = answer fs rows.
Proof.
  intros Hfs Hb Hn Hmax Hne. revert fs buffer rows Hfs Hb Hn Hmax.
  induction Hne as [|ch chunks Hch Hne IH]; intros fs buffer rows Hfs Hb Hn Hmax.
  - rewrite Hn in * by done. cbn in Hb. rewrite app_nil_r in Hb. subst buffer. cbn in Hmax.
    cbn. by rewrite (proj2 (Z.ltb_lt _ _)).
  - cbn [fmap list_fmap query_loop]. change (mjoin (ch :: chunks)) with (ch ++ mjoin chunks) in Hb.
    assert (Hlen : len (buffer ++ ch) <= len (encode_frames fs)).
    { rewrite <- Hb, app_assoc, (len_app (buffer ++ ch)). pose proof (len_nonneg (mjoin chunks)). lia. }
    rewrite len_app in Hlen. pose proof (len_nonneg ch).
    rewrite (proj2 (Z.ltb_lt (len buffer) max)) by lia. cbn [negb].
    rewrite (proj2 (Z.ltb_lt 0 (len ch))); [|destruct ch; [done|unfold len; cbn; lia]]. cbn [negb].
    rewrite (proj2 (Z.leb_le _ max)) by (rewrite len_app; lia). cbn [negb].
    pose proof (query_frames_prefix fs (buffer ++ ch) (mjoin chunks) rows (S (length (buffer ++ ch))) Hfs) as Hq.
    rewrite <- app_assoc in Hq. specialize (Hq Hb ltac:(lia)).
    destruct (query_frames _ (buffer ++ ch) rows) as [[r|[rows' p']]| |]; try done.
    destruct Hq as (hs & H1 & H2 & H3 & -> & H5). apply IH; try done.
    + intros ->. by apply H5.
    + rewrite <- H1, len_app. rewrite <- Hb, app_assoc, (len_app (buffer ++ ch)) in Hmax. lia.
Qed.

(** The frames of a table: its description, its rows, the end. *)
Definition table_frames (description tag : bytes) (table : list (list (option str))) : list BackendFrame :=
  {| btag := ROW_DESCRIPTION_TAG; bpayload := description |}
  :: ((fun cols => {| btag := backend_byte DataRow; bpayload := encode_row cols |}) <$> table)
  ++ [{| btag := backend_byte CommandComplete; bpayload := tag |};
      {| btag := backend_byte ReadyForQuery; bpayload := [ready_status_byte RS_Idle] |}].

Lemma answer_rows table tail rows :
  Forall (fun cols => Forall column_ok cols /\ len cols < 2 ^ 15) table ->
  answer (((fun cols => {| btag := backend_byte DataRow; bpayload := encode_row cols |}) <$> table) ++ tail) rows
  = answer tail (rows ++ (Build_SimpleQueryRow <$> table)).
Proof.
  intros Ht. revert rows. induction Ht as [|cols table [Hc Hl] Ht IH]; intros rows;
    cbn [fmap list_fmap app answer]; [by rewrite app_nil_r|].
  unfold row_frame. cbn [btag bpayload]. rewrite Z.eqb_refl, parse_data_row_encode by done.
  cbn [mbind result_bind]. rewrite IH, <- app_assoc. done.
Qed.
End Chunks.

(** The auth query reads the server's table whatever the network does
    with it: for every table of nulls and texts, however its bytes are cut
    into reads, the query returns exactly its rows, in order. *)
Theorem auth_query_reads_table sql max table description tag chunks w k :
  let fs := table_frames description tag table in
  Forall (fun cols => Forall column_ok cols /\ len cols < 2 ^ 15) table ->
  Forall frame_fits fs -> len (encode_frames fs) < max ->
  mjoin chunks = encode_frames fs -> Forall (fun c => c <> []) chunks ->
  fst (run_simple_query sql max {| reads := Some <$> chunks; writes := w; writes_left := S k |})
  = Ok (Build_SimpleQueryRow <$> table).
Proof.
  intros fs Ht Hf Hmax Hj Hne. unfold run_simple_query. rewrite write_step. unfold read_answer. cbn [reads].
  pose proof (query_loop_chunks max chunks fs [] [] Hf Hj) as Hq.
  destruct (query_loop max (Some <$> chunks) [] []) as [r rs]. cbn [fst] in *. rewrite Hq; [|by intros ->|done|done].
  exact (answer_rows table
    [{| btag := backend_byte CommandComplete; bpayload := tag |};
     {| btag := backend_byte ReadyForQuery; bpayload := [ready_status_byte RS_Idle] |}] [] Ht).
Qed.

(** ** No panics *)

Section NoPanic.
Lemma no_panic_ensure b m : no_panic (ensure b m).
Proof. by destruct b. Qed.
Lemma no_panic_some_or {A} (o : option A) m : no_panic (some_or o m).
Proof. by destruct o. Qed.
Lemma no_panic_foreign_or {A} (o : option A) m : no_panic (foreign_or o m).
Proof. by destruct o. Qed.
Lemma no_panic_map_err {E E' A} (f : E -> E') (r : result E A) : no_panic r -> no_panic (map_err f r).
Proof. by destruct r. Qed.
Lemma no_panic_context {A} m (r : result error A) : no_panic r -> no_panic (context m r).
Proof. apply no_panic_map_err. Qed.
Lemma no_panic_fmap {E A B} (f : A -> B) (r : result E A) : no_panic r -> no_panic (f <$> r).
Proof. by destruct r. Qed.
Lemma no_panic_Ok {E A} (a : A) : no_panic (@Ok E A a).
Proof. done. Qed.
Lemma no_panic_Err {E A} (e : E) : no_panic (@Err E A e).
Proof. done. Qed.
Lemma no_panic_fail {A} m : no_panic (@fail A m).
Proof. done. Qed.
End NoPanic.

Create HintDb np.
#[export] Hint Resolve no_panic_ensure no_panic_some_or no_panic_foreign_or no_panic_map_err
  no_panic_context no_panic_fmap no_panic_Ok no_panic_Err no_panic_fail no_panic_ok_or : np.

(** Chain through a [result] computation. *)
Ltac np :=
  repeat first
    [ solve [auto with np]
    | apply no_panic_bind; [|intros ? ?]
    | match goal with |- no_panic (let '(_, _) := ?x in _) => destruct x end
    | match goal with |- no_panic (if ?b then _ else _) => destruct b end
    | match goal with |- no_panic (match ?x with _ => _ end) => destruct x end ].

(** Code on the socket that never panics. *)
Definition np_session {A} (m : Session A) : Prop := forall c, no_panic (fst (m c)).

Section NoPanicAuth.
Lemma np_bind {A B} (m : Session A) (f : A -> Session B) :
  np_session m -> (forall a, np_session (f a)) -> np_session (m ≫= f).
Proof.
  intros Hm Hf c. unfold mbind, session_bind. specialize (Hm c).
  destruct (m c) as [[a|e|] c']; [apply Hf|done|done].
Qed.
Lemma np_ret {A} (a : A) : np_session (mret a).
Proof. done. Qed.
Lemma np_lift {A} (r : result error A) : no_panic r -> np_session (lift r).
Proof. by intros H c. Qed.
Lemma np_with_context {A} msg (m : Session A) : np_session m -> np_session (with_context msg m).
Proof.
  intros Hm c. specialize (Hm c). unfold with_context. destruct (m c). by apply no_panic_context.
Qed.
Lemma np_write bs : np_session (write_all bs).
Proof. intros c. unfold write_all. by destruct (writes_left c). Qed.
Lemma np_read_loop max rs buffer : no_panic (fst (read_frame_loop max rs buffer)).
Proof.
  revert buffer. induction rs as [|[ch|] rs IH]; intros buffer; cbn [read_frame_loop];
    pose proof (parse_frontend_frame_wf buffer) as Hw;
    destruct (parse_frontend_frame buffer) as [[[fr|] b]| |]; try done; repeat case_match; try done; apply IH.
Qed.
Lemma np_read max : np_session (read_authentication_frame max).
Proof.
  intros c. unfold read_authentication_frame. pose proof (np_read_loop max (reads c) []) as Hl.
  by destruct (read_frame_loop max (reads c) []).
Qed.
Lemma no_panic_read_i32 bs n : no_panic (read_i32 bs n).
Proof. unfold read_i32. repeat case_match; done. Qed.
Lemma no_panic_request_text r m m' : no_panic (request_text r m m').
Proof. unfold request_text. np. Qed.
Lemma no_panic_attribute m k : no_panic (scram_attribute m k).
Proof. unfold scram_attribute. np. Qed.
Lemma no_panic_unescape s : no_panic (scram_unescape s).
Proof.
  induction s as [s IH] using (induction_ltof1 _ length). unfold ltof in IH.
  destruct s as [|c s]; [done|]. cbn [scram_unescape]. destruct (negb _).
  - apply no_panic_bind; [apply IH; cbn; lia|np].
  - destruct s as [|a [|b s]]; [done|done|].
    repeat case_match; try done; (apply no_panic_bind; [apply IH; cbn; lia|np]).
Qed.
Lemma no_panic_first_items items u n : no_panic (client_first_items items u n).
Proof.
  revert u n. induction items as [|i items IH]; intros u n; cbn [client_first_items]; [np|].
  apply no_panic_bind; [np|]. intros [k v] _. repeat case_match; auto.
  apply no_panic_bind; [apply no_panic_unescape|auto].
Qed.
Lemma no_panic_final_items items a b c : no_panic (client_final_items items a b c).
Proof.
  revert a b c. induction items as [|i items IH]; intros a b c; cbn [client_final_items]; [np|].
  apply no_panic_bind; [np|]. intros [k v] _. repeat case_match; auto.
Qed.
End NoPanicAuth.
#[export] Hint Resolve np_ret np_lift np_with_context np_write np_read no_panic_read_i32
  no_panic_request_text no_panic_attribute no_panic_unescape no_panic_first_items
  no_panic_final_items : np.

(** The same for code on the socket. *)
Ltac nps :=
  repeat first
    [ solve [auto 6 with np]
    | apply np_bind; [|intros ?]
    | match goal with |- np_session (let '(_, _) := ?x in _) => destruct x end
    | match goal with |- np_session (match ?x with _ => _ end) => destruct x eqn:? end
    | match goal with |- np_session (if ?b then _ else _) => destruct b end
    | apply np_lift; np ].

Section NoPanicLogin.
Context `{Crypto}.

Lemma no_panic_respond s request tls : no_panic (fst (respond s request tls)).
Proof.
  unfold respond.
  pose proof (no_panic_context "read backend authentication code" _ (no_panic_read_i32 request 0)) as Hr.
  destruct (context _ _) as [code| |]; [|done|done]. repeat case_match; cbn [fst map_step]; try done.
  - np.
  - unfold md5_response. np.
  - apply no_panic_fmap. unfold scram_initial_response.
    match goal with |- context [match ?x with _ => _ end] => assert (Hx : no_panic x) by np; destruct x end; done.
  - apply no_panic_fmap. unfold scram_final_response.
    assert (Hx : no_panic (read_server_first s request)) by (unfold read_server_first; np).
    destruct (read_server_first s request) as [[[[[? ?] ?] ?] ?]| |]; done.
  - apply no_panic_fmap. unfold verify_scram_server_final.
    match goal with |- context [request_text ?a ?b ?c] =>
      pose proof (no_panic_request_text a b c) as Hx; destruct (request_text a b c) end; [|done|done].
    repeat case_match; try done. cbn [fst]. np.
Qed.

(** Keys of 32 bytes, as the parser checks them. *)
Definition secret_ok (s : UserSecret) : Prop :=
  match s with
  | ScramSha256 v => len (stored_key v) = 32 /\ len (server_key v) = 32
  | _ => True
  end.

Lemma key_length_Ok field bs x : validate_scram_key_length field bs = Ok x -> len bs = 32.
Proof. unfold validate_scram_key_length. destruct (Z.eqb_spec (len bs) SCRAM_SHA_256_KEY_LEN); done. Qed.

Lemma scram_verifier_parse_keys text v :
  scram_verifier_parse text = Ok v -> len (stored_key v) = 32 /\ len (server_key v) = 32.
Proof.
  unfold scram_verifier_parse. intros Hp.
  repeat (first [apply bind_Ok_inv in Hp as ([? ?] & _ & Hp)
                |match type of Hp with (if ?b then _ else _) = _ => destruct b; [done|] end]).
  do 4 apply bind_Ok_inv in Hp as (? & _ & Hp).
  apply bind_Ok_inv in Hp as (? & H1 & Hp). apply bind_Ok_inv in Hp as (? & H2 & Hp).
  apply key_length_Ok in H1, H2. injection Hp as <-. done.
Qed.

Lemma no_panic_verifier text : no_panic (scram_verifier_parse text).
Proof. unfold scram_verifier_parse, validate_scram_key_length. np. Qed.

Lemma no_panic_md5_secret text : no_panic (md5_secret_parse text).
Proof. unfold md5_secret_parse. np. Qed.

Lemma no_panic_nonce random : no_panic (generate_nonce random).
Proof. by destruct random. Qed.
Lemma no_panic_password_frame f : no_panic (parse_password_frame f).
Proof. unfold parse_password_frame. np. Qed.
Lemma no_panic_initial_response p : no_panic (parse_scram_initial_response p).
Proof.
  unfold parse_scram_initial_response, scram_read_cstr.
  apply no_panic_bind; [|intros [? ?] _; np]. apply no_panic_bind; [|intros ? _; np].
  apply slice_from_no_panic, len_nonneg.
Qed.
Lemma no_panic_client_first m : no_panic (parse_scram_client_first m).
Proof. unfold parse_scram_client_first. np. Qed.
Lemma no_panic_client_final m : no_panic (parse_scram_client_final m).
Proof. unfold parse_scram_client_final. np. Qed.
Lemma no_panic_proof v am p : len (stored_key v) = 32 -> no_panic (verify_scram_proof v am p).
Proof.
  intros Hk. unfold verify_scram_proof. apply no_panic_bind; [np|]. intros bs _.
  apply no_panic_bind; [np|]. intros [] Hl. apply ensure_Ok, Z.eqb_eq in Hl.
  unfold xor_bytes. rewrite Hl, Hk. cbn. np.
Qed.
Lemma np_reject auth u reason : np_session (reject auth u reason).
Proof. unfold reject, reject_authentication. apply np_bind; auto with np. Qed.

#[local] Hint Resolve no_panic_nonce no_panic_password_frame no_panic_initial_response
  no_panic_client_first no_panic_client_final np_reject : np.

Lemma np_scram_dialogue u auth v random max :
  len (stored_key v) = 32 -> np_session (scram_dialogue u auth v random max).
Proof.
  intros Hk. unfold scram_dialogue. nps.
  exfalso. by eapply (no_panic_proof v).
Qed.

Lemma np_md5_dialogue u auth s random max : np_session (md5_dialogue u auth s random max).
Proof. unfold md5_dialogue. nps. Qed.

(** A login panics neither here nor through the secrets it is given. *)
Lemma np_authenticate u auth users query random max :
  (forall v, resolve_user_secret u auth users query = Ok (Some (ScramSha256 v)) -> len (stored_key v) = 32) ->
  no_panic (resolve_user_secret u auth users query) ->
  np_session (authenticate_client u auth users query random max).
Proof.
  intros Hv Hn. unfold authenticate_client, authenticate_trust, authenticate_scram, authenticate_md5.
  destruct (auth_mode auth); [nps|nps| |];
    destruct (resolve_user_secret u auth users query) as [[[|v|s]|]|e|]; try (by nps); try done.
  apply np_scram_dialogue. by apply Hv.
Qed.
End NoPanicLogin.

(** ** Where secrets come from *)

Section SecretSources.
Context `{Crypto}.

Definition users_ok (users : UserStore) : Prop := map_Forall (fun _ s => secret_ok s) (secrets users).

Lemma parse_user_line_ok line u s : parse_user_line line = Ok (u, s) -> secret_ok s.
Proof.
  unfold parse_user_line. intros Hp. apply bind_Ok_inv in Hp as ([a b] & _ & Hp).
  apply bind_Ok_inv in Hp as (s' & Hs & Hp). injection Hp as _ ->.
  destruct (eq_ignore_ascii_case _ _); [by injection Hs as <-|]. destruct (starts_with _ _).
  - destruct (md5_secret_parse _); simplify_eq/=. done.
  - destruct (scram_verifier_parse _) as [v| |] eqn:Hv; simplify_eq/=.
    by eapply scram_verifier_parse_keys.
Qed.

Lemma load_users_ok ls store store' :
  users_ok store -> load_users ls store = Ok store' -> users_ok store'.
Proof.
  revert store. induction ls as [|l ls IH]; intros store Ho; cbn [load_users]; [by intros [= <-]|].
  destruct (_ || _); [by apply IH|]. intros Hl. apply bind_Ok_inv in Hl as ([u s] & Hu & Hl).
  eapply IH, Hl. cbn. apply map_Forall_insert_2; [|done]. by eapply parse_user_line_ok.
Qed.

(** A loaded user store holds only well-formed secrets. *)
Lemma load_user_store_ok file store : load_user_store file = Ok store -> users_ok store.
Proof.
  assert (He : users_ok store_new) by apply map_Forall_empty.
  destruct file as [contents|]; cbn; [|by intros [= <-]]. intros Hl.
  apply bind_Ok_inv in Hl as (? & _ & Hl). by eapply load_users_ok.
Qed.

Lemma store_get_ok users u s : users_ok users -> store_get users u = Some s -> secret_ok s.
Proof. intros Ho. unfold store_get. destruct (case_sensitive users); intros Hs; by eapply Ho. Qed.

(** What the cache holds: secrets the server gave, never trust. *)
Definition queried (s : UserSecret) : Prop := secret_ok s /\ s <> Trust.
Definition cache_ok (cache : AuthQueryCache) : Prop := map_Forall (fun _ e => queried (secret e)) cache.

Lemma parse_user_secret_ok text s : parse_user_secret text = Ok s -> queried s.
Proof.
  unfold parse_user_secret, queried. destruct (starts_with _ _).
  - destruct (md5_secret_parse text); intros Hs; simplify_eq/=. done.
  - destruct (scram_verifier_parse text) as [v| |] eqn:Hv; intros Hs; simplify_eq/=.
    split; [|done]. by eapply scram_verifier_parse_keys.
Qed.

Lemma parse_result_ok rows u s :
  parse_auth_query_result rows u = Ok (Some s) ->
  queried s /\ exists text, rows = [{| columns := [Some u; Some text] |}] /\ parse_user_secret text = Ok s.
Proof.
  destruct rows as [|row [|]]; [done| |done]. cbn [parse_auth_query_result].
  destruct (parse_auth_query_row row u) as [s'| |] eqn:Hr; intros Hs; simplify_eq/=.
  unfold parse_auth_query_row in Hr. destruct row as [[|name [|text [|]]]]; try done. cbn [columns] in Hr.
  destruct name as [name|]; [|done]. cbn in Hr. apply bind_Ok_inv in Hr as (? & Hn & Hr).
  apply ensure_Ok, str_eqb_true in Hn as ->. destruct text as [text|]; [|done]. cbn in Hr.
  split; [by eapply parse_user_secret_ok|eauto].
Qed.

Lemma no_panic_parse_result rows u : no_panic (parse_auth_query_result rows u).
Proof.
  destruct rows as [|row [|]]; [done| |done]. cbn. apply no_panic_fmap. unfold parse_auth_query_row, parse_user_secret.
  destruct (columns row) as [|? [|? [|]]]; try done. np;
    apply no_panic_map_err; auto using no_panic_md5_secret, no_panic_verifier.
Qed.

Lemma no_panic_data_row p : no_panic (parse_data_row p).
Proof.
  unfold parse_data_row. apply no_panic_bind; [apply no_panic_context; by destruct p as [|? [|? ?]]|].
  intros [count rest] _. apply no_panic_bind; [np|]. intros [] _. apply no_panic_bind; [|intros [? ?] _; np].
  generalize (@nil (option str)). revert rest. induction (Z.to_nat count) as [|n IH]; intros rest done_; cbn [parse_columns]; [np|].
  apply no_panic_bind; [apply no_panic_context; by destruct rest as [|? [|? [|? [|? ?]]]]|].
  intros [k r] _. destruct (k =? -1); [apply IH|]. np; apply IH.
Qed.

#[local] Hint Resolve no_panic_data_row : np.

Lemma no_panic_row_frame rows f : no_panic (row_frame rows f).
Proof. unfold row_frame. np. Qed.

Lemma no_panic_query_frames fuel buffer rows :
  (length buffer < fuel)%nat -> no_panic (query_frames fuel buffer rows).
Proof.
  revert buffer rows. induction fuel as [|fuel IH]; intros buffer rows Hf; [lia|]. cbn [query_frames].
  pose proof (parse_backend_frame_no_panic buffer) as Hp.
  destruct (parse_backend_frame buffer) as [[[f|] rest]| |] eqn:Hb; try done.
  apply parse_backend_frame_decreases in Hb. apply no_panic_bind; [apply no_panic_row_frame|].
  intros [r|r] _; [done|]. apply IH. lia.
Qed.

Lemma no_panic_query_loop max rs buffer rows : no_panic (fst (query_loop max rs buffer rows)).
Proof.
  revert buffer rows. induction rs as [|[ch|] rs IH]; intros buffer rows; cbn [query_loop];
    destruct (negb (len buffer <? max)); try done.
  destruct (negb _); [done|]. destruct (negb _); [done|].
  pose proof (no_panic_query_frames (S (length (buffer ++ ch))) (buffer ++ ch) rows ltac:(lia)) as Hq.
  destruct (query_frames _ _ _) as [[r|[r b]]| |]; [done|apply IH|done|done].
Qed.

Lemma np_run_simple_query sql max : np_session (run_simple_query sql max).
Proof.
  unfold run_simple_query. apply np_bind; [auto with np|]. intros _ c. unfold read_answer.
  pose proof (no_panic_query_loop max (reads c) [] []) as Hq. by destruct (query_loop _ _ _ _).
Qed.

Lemma np_startup_frames fuel buffer auth tls :
  (length buffer < fuel)%nat -> np_session (startup_frames fuel buffer auth tls).
Proof.
  revert buffer auth. induction fuel as [|fuel IH]; intros buffer auth Hf c; [lia|]. cbn [startup_frames].
  pose proof (parse_backend_frame_no_panic buffer) as Hp.
  destruct (parse_backend_frame buffer) as [[[f|] rest]| |] eqn:Hb; try done.
  apply parse_backend_frame_decreases in Hb.
  destruct (if btag f =? _ then _ else _) as [ans auth'] eqn:Hr.
  assert (Ha : no_panic ans).
  { destruct (btag f =? backend_byte Authentication); [|by injection Hr as <- _].
    pose proof (no_panic_respond auth (bpayload f) tls) as Hn. by rewrite Hr in Hn. }
  apply np_bind; [by apply np_lift|]. intros [resp|]; (apply np_bind; [auto with np|]); intros _;
    (destruct (ready_status f); [nps|apply IH; lia]).
Qed.

Lemma np_startup_loop rs buffer auth tls : np_session (startup_loop rs buffer auth tls).
Proof.
  revert buffer auth. induction rs as [|[ch|] rs IH]; intros buffer auth c; cbn [startup_loop]; try done.
  destruct (negb _); [done|].
  pose proof (np_startup_frames (S (length (buffer ++ ch))) (buffer ++ ch) auth tls ltac:(lia) (with_reads c rs)) as Hs.
  destruct (startup_frames _ _ _ _ _) as [[[?|[b a]]| |] c']; [done|apply IH|done|done].
Qed.

Lemma np_connect credentials env random tls : np_session (connect_authenticated credentials env random tls).
Proof.
  unfold connect_authenticated. apply np_bind; [auto with np|]. intros _.
  apply np_bind; [|intros a c; apply np_startup_loop]. apply np_lift. unfold session_new, resolve.
  apply no_panic_bind; [|intros ? _; apply no_panic_bind; [|np]].
  - apply no_panic_map_err. destruct (provider credentials); [unfold provider_credentials; np|done].
  - apply no_panic_map_err, no_panic_nonce.
Qed.
End SecretSources.

Section LookupFacts.
Context `{Crypto}.
Context (auth : AuthConfig) (credentials : option BackendCredentials) (env : Env)
  (random : option bytes) (connect : result error (ClientStream * bool)) (max now now_put : Z).
Hypothesis connect_ok : no_panic connect.

(** The server answered the query for [user] with the secret [s]. *)
Definition answered (user : str) (s : UserSecret) : Prop :=
  exists cred sql c tls c' text,
    credentials = Some cred /\ render_auth_query (auth_query auth) user = Ok sql /\
    connect = Ok (c, tls) /\ connect_authenticated cred env random tls c = (Ok tt, c') /\
    fst (run_simple_query sql max c') = Ok [{| columns := [Some user; Some text] |}] /\
    parse_user_secret text = Ok s.

(** A fresh entry for [user]. *)
Definition fresh (cache : AuthQueryCache) (user : str) (s : UserSecret) : Prop :=
  exists e, cache !! user = Some e /\ secret e = s /\
    auth_query_cache_ttl_ms auth <> 0 /\ Z.max 0 (now - inserted_at e) < auth_query_cache_ttl_ms auth.

Lemma cache_get_fresh cache user s :
  cache_get cache user (auth_query_cache_ttl_ms auth) now = Some s -> fresh cache user s.
Proof.
  unfold cache_get, fresh. destruct (Z.eqb_spec (auth_query_cache_ttl_ms auth) 0); [done|].
  destruct (cache !! user) as [e|]; [|done]. cbn. case_match; [|done]. bool_to_prop. intros [= <-]. eauto.
Qed.

(** The part of [lookup] that asks the server. *)
Definition ask (user : str) : result error (option UserSecret) :=
  credentials ← some_or credentials "auth query service credentials are not configured";
  sql ← render_auth_query (auth_query auth) user;
  '(c, tls) ← connect;
  match connect_authenticated credentials env random tls c with
  | (Ok _, c) =>
      rows ← fst (run_simple_query sql max c);
      parse_auth_query_result rows user
  | (Err e, _) => Err e
  | (Panic, _) => Panic
  end.

Lemma no_panic_ask user : no_panic (ask user).
Proof.
  unfold ask, render_auth_query. apply no_panic_bind; [np|]. intros cred _.
  apply no_panic_bind; [np|]. intros sql _. apply no_panic_bind; [done|]. intros [c tls] _.
  pose proof (np_connect cred env random tls c) as Hc.
  destruct (connect_authenticated cred env random tls c) as [[[]| |] c']; [|done|done].
  apply no_panic_bind; [apply np_run_simple_query|]. intros rows _. apply no_panic_parse_result.
Qed.

Lemma ask_answered user s : ask user = Ok (Some s) -> queried s /\ answered user s.
Proof.
  unfold ask. intros Ha. apply bind_Ok_inv in Ha as (cred & Hc & Ha).
  apply bind_Ok_inv in Ha as (sql & Hs & Ha). apply bind_Ok_inv in Ha as ([c tls] & Hcon & Ha).
  destruct (connect_authenticated cred env random tls c) as [[[]| |] c'] eqn:Hca; [|done|done].
  apply bind_Ok_inv in Ha as (rows & Hr & Ha). apply parse_result_ok in Ha as (Hq & text & -> & Ht).
  split; [done|]. exists cred, sql, c, tls, c', text. destruct credentials; simplify_eq/=. done.
Qed.

Lemma lookup_unfold cache user :
  lookup auth cache credentials env random connect user max now now_put
  = match cache_get cache user (auth_query_cache_ttl_ms auth) now with
    | Some s => (Ok (Some s), cache)
    | None => (ask user, match ask user with
                         | Ok (Some s) => cache_put cache user s now_put
                         | _ => cache
                         end)
    end.
Proof. reflexivity. Qed.

(** C37. What the auth query vouches for: the answer for a user is a fresh
    entry of the cache, or the one row the server returned for exactly that
    user name; it is an MD5 secret or a verifier with keys of 32 bytes, never
    trust; only such an answer enters the cache, under that user alone; and
    the whole lookup, login included, never panics. *)
Theorem auth_query_lookup_sound cache user :
  cache_ok cache ->
  let '(r, cache') := lookup auth cache credentials env random connect user max now now_put in
  no_panic r /\ cache_ok cache' /\ (forall k, k <> user -> cache' !! k = cache !! k) /\
  match r with
  | Ok (Some s) => queried s /\
      (fresh cache user s /\ cache' = cache \/
       answered user s /\ cache' !! user = Some {| secret := s; inserted_at := now_put |})
  | _ => cache' = cache
  end.
Proof.
  intros Hc. rewrite lookup_unfold.
  destruct (cache_get cache user _ now) as [s|] eqn:Hg.
  - apply cache_get_fresh in Hg. split_and!; try done; [|by left].
    destruct Hg as (e & He & <- & _). by apply (Hc user e).
  - pose proof (no_panic_ask user) as Hn.
    destruct (ask user) as [[s|]|e|] eqn:Ha; [|by split_and!|by split_and!|done].
    apply ask_answered in Ha as [Hq Ha]. split_and!; try done.
    + by apply map_Forall_insert_2.
    + intros k Hk. by apply lookup_insert_ne.
    + right. split; [done|]. apply lookup_insert_eq.
Qed.

(** No login crashes the proxy: with a loaded users file and an auth
    query behind it, authenticating a client returns an outcome or an error
    whatever the client and the server send. *)
Theorem login_never_panics file users cache u max_client c client_random :
  load_user_store file = Ok users -> cache_ok cache ->
  no_panic (fst (authenticate_client u auth users
    (Some (fun user => fst (lookup auth cache credentials env random connect user max now now_put)))
    client_random max_client c)).
Proof.
  intros Hl Hc. apply load_user_store_ok in Hl. apply np_authenticate.
  - intros v. unfold resolve_user_secret. destruct (store_get users u) as [s|] eqn:Hs.
    + intros [= ->]. by apply (store_get_ok _ _ _ Hl Hs).
    + destruct (negb _); [done|]. intros Hr. rewrite lookup_unfold in Hr.
      destruct (cache_get cache u _ now) as [s|] eqn:Hg.
      * injection Hr as ->. apply cache_get_fresh in Hg as (e & He & Hs' & _).
        pose proof (Hc u e He) as [Ho _]. rewrite Hs' in Ho. apply Ho.
      * cbn [fst] in Hr. apply ask_answered in Hr as [[Ho _] _]. apply Ho.
  - unfold resolve_user_secret. destruct (store_get users u); [done|]. destruct (negb _); [done|].
    rewrite lookup_unfold. destruct (cache_get _ _ _ _); [done|]. apply no_panic_ask.
Qed.
End LookupFacts.

Definition toy_table : list (list (option str)) := [[Some (lit "ann"); Some (lit "md5x")]; [Some (lit "b"); None]].

Lemma auth_query_reads_table_witness :
  fst (run_simple_query (lit "SELECT") 1000
         {| reads := [Some (take 9 (encode_frames (table_frames [] [] toy_table)));
                      Some (drop 9 (encode_frames (table_frames [] [] toy_table)))];
            writes := []; writes_left := 1 |})
  = Ok (Build_SimpleQueryRow <$> toy_table).
Proof.
  apply (auth_query_reads_table (lit "SELECT") 1000 toy_table [] []
    [take 9 (encode_frames (table_frames [] [] toy_table));
     drop 9 (encode_frames (table_frames [] [] toy_table))] [] 0).
  - repeat constructor; try apply lit_scalar; done.
  - repeat constructor.
  - reflexivity.
  - reflexivity.
  - repeat constructor; done.
Defined.

Definition toy_cache : AuthQueryCache :=
  {[ lit "ann" := {| secret := Md5 {| stored_hex := lit "00" |}; inserted_at := 5 |} ]}.
Definition toy_query_auth : AuthConfig := {|
  auth_mode := AuthMd5; auth_users_file := None; backend_user := None; backend_password_env_var_name := None;
  auth_query_enabled := true; auth_query := lit "SELECT $1"; auth_query_cache_ttl_ms := 100;
  auth_failure_message_mode := Generic |}.

Lemma toy_cache_ok : cache_ok toy_cache.
Proof. apply map_Forall_singleton. done. Qed.

Lemma auth_query_lookup_sound_witness :
  lookup (H := toy) toy_query_auth toy_cache None (fun _ => None) None (Err EIo) (lit "ann") 100 7 8
  = (Ok (Some (Md5 {| stored_hex := lit "00" |})), toy_cache) /\
  queried (Md5 {| stored_hex := lit "00" |}).
Proof.
  assert (Hl : lookup (H := toy) toy_query_auth toy_cache None (fun _ => None) None (Err EIo) (lit "ann") 100 7 8
    = (Ok (Some (Md5 {| stored_hex := lit "00" |})), toy_cache)) by (vm_compute; reflexivity).
  split; [exact Hl|].
  pose proof (auth_query_lookup_sound (H := toy) toy_query_auth None (fun _ => None) None (Err EIo) 100 7 8
    ltac:(done) toy_cache (lit "ann") toy_cache_ok) as Hs.
  rewrite Hl in Hs. exact (proj1 (proj2 (proj2 (proj2 Hs)))).
Defined.

Lemma login_never_panics_witness :
  no_panic (fst (authenticate_client (H := toy) (lit "ann") toy_query_auth store_new
    (Some (fun user => fst (lookup (H := toy) toy_query_auth toy_cache None (fun _ => None) None (Err EIo)
                              user 100 7 8)))
    (Some [1; 2; 3; 4]) 1000 {| reads := []; writes := []; writes_left := 3 |})).
Proof.
  apply (login_never_panics (H := toy) toy_query_auth None (fun _ => None) None (Err EIo) 100 7 8
    ltac:(done) None); [reflexivity|apply toy_cache_ok].
Defined.
