(* ===== verification/Sql.v ===== *)
(** * Sql: commands that change session state

    Models [pg-kinetic-core/src/protocol/sql.rs]: [classify] recognises the
    statements the virtual session tracks. A byte slice off a character
    boundary is [None]: [classify] panics there. *)

From S2P Require Import Prelude Text RoutingTypes.

Inductive SetScope := ScopeSession | ScopeLocal.

Inductive SqlCommand :=
| CmdBegin (access_mode : TransactionAccessMode)
| CmdCommit
| CmdRollback
| CmdSetTransaction (access_mode : TransactionAccessMode)
| CmdSet (scope : SetScope) (key value : str)
| CmdReset (key : str)
| CmdDiscardAll
| CmdDiscardTemp
| CmdDiscardPlans
| CmdCreateTemp
| CmdAdvisoryLock
| CmdAdvisoryUnlock
| CmdCopy
| CmdListen
| CmdUnlisten
| CmdQuery.

#[global] Instance SetScope_eq_dec : EqDecision SetScope.
Proof. solve_decision. Defined.
#[global] Instance SqlCommand_eq_dec : EqDecision SqlCommand.
Proof. solve_decision. Defined.

(** [normalize]: single spaces, ASCII lower case. *)
Definition normalize (sql : str) : str :=
  to_ascii_lowercase (join [32] (split_whitespace sql)).

(** [matches!(s, "a" | "b" | ...)]. *)
Definition is_one_of (s : str) (alternatives : list string) : bool :=
  existsb (fun a => str_eqb s (lit a)) alternatives.

Definition parse_begin_transaction (normalized : str) : option TransactionAccessMode :=
  if is_one_of normalized ["begin"; "start transaction"]%string then Some ReadWrite
  else if is_one_of normalized ["begin read only"; "start transaction read only"]%string
  then Some ReadOnly
  else if is_one_of normalized ["begin read write"; "start transaction read write"]%string
  then Some ReadWrite
  else None.

Definition parse_set_transaction (normalized : str) : option TransactionAccessMode :=
  if is_one_of normalized ["set transaction read only"%string] then Some ReadOnly
  else if is_one_of normalized ["set transaction read write"%string] then Some ReadWrite
  else None.

(** [parse_set]: the slice [sql[prefix_len..]] is taken on the text as
    written. *)
Definition parse_set (sql : str) (scope : SetScope) : option SqlCommand :=
  let prefix_len := match scope with ScopeSession => 4 | ScopeLocal => 10 end in
  '(_, tail) ← split_at_byte prefix_len sql;
  let rest := trim tail in
  Some (match split_once 61 rest with
        | None =>
            let parts := split_whitespace rest in
            CmdSet scope (to_ascii_lowercase (default [] (head parts)))
              (join [32] (tl parts))
        | Some (key, value) =>
            CmdSet scope (to_ascii_lowercase (trim key)) (trim value)
        end).

(** [str::trim_start_matches] of a string pattern: every leading copy of
    [pat] is removed ([fuel] bounds their number). *)
Fixpoint trim_start_str (fuel : nat) (pat s : str) : str :=
  match fuel with
  | O => s
  | S fuel => match strip_prefix pat s with
              | Some r => trim_start_str fuel pat r
              | None => s
              end
  end.

(** What [classify] looks at before [normalize]. *)
Definition trim_statement (sql : str) : str := trim (trim_end_matches (Z.eqb 59) (trim sql)).

(** The part of [classify] that depends on the normalized text only; [None]
    is a [SET] that [parse_set] decodes. *)
Definition classify_normalized (normalized : str) : SetScope + SqlCommand :=
  match parse_begin_transaction normalized with
  | Some access_mode => inr (CmdBegin access_mode)
  | None =>
  match parse_set_transaction normalized with
  | Some access_mode => inr (CmdSetTransaction access_mode)
  | None =>
      if is_one_of normalized ["commit"; "end"]%string then inr CmdCommit
      else if is_one_of normalized ["rollback"%string] then inr CmdRollback
      else if is_one_of normalized ["discard all"%string] then inr CmdDiscardAll
      else if is_one_of normalized ["discard temp"; "discard temporary"]%string
      then inr CmdDiscardTemp
      else if is_one_of normalized ["discard plans"%string] then inr CmdDiscardPlans
      else if starts_with (lit "set local ") normalized then inl ScopeLocal
      else if starts_with (lit "set ") normalized then inl ScopeSession
      else if starts_with (lit "reset ") normalized then
        inr (CmdReset (trim (trim_start_str (length normalized) (lit "reset ") normalized)))
      else if starts_with (lit "create temp ") normalized
              || starts_with (lit "create temporary ") normalized then inr CmdCreateTemp
      else if contains (lit "pg_advisory_lock(") normalized then inr CmdAdvisoryLock
      else if contains (lit "pg_advisory_unlock") normalized then inr CmdAdvisoryUnlock
      else if starts_with (lit "copy ") normalized then inr CmdCopy
      else if starts_with (lit "listen ") normalized then inr CmdListen
      else if starts_with (lit "unlisten ") normalized then inr CmdUnlisten
      else inr CmdQuery
  end
  end.

(** [classify]. *)
Definition classify (sql : str) : option SqlCommand :=
  let trimmed := trim_statement sql in
  match classify_normalized (normalize trimmed) with
  | inl scope => parse_set trimmed scope
  | inr command => Some command
  end.

(** ** Facts *)

Section SqlFacts.
Definition ascii_ws (s : str) : Prop := forall c, c ∈ s -> is_whitespace c = true -> 0 <= c < 128.

Lemma trim_statement_sub sql c : c ∈ trim_statement sql -> c ∈ sql.
Proof.
  unfold trim_statement. intros H%trim_sub.
  destruct (trim_end_matches_prefix (Z.eqb 59) (trim sql)) as (suf & He).
  apply trim_sub. rewrite He. apply elem_of_app. by left.
Qed.

Lemma length_lower w : length (to_ascii_lowercase w) = length w.
Proof. apply length_fmap. Qed.

(** A word that lower-cases to an ASCII word is ASCII. *)
Lemma lower_ascii w (v : str) :
  to_ascii_lowercase w = v -> Forall (fun c => 0 <= c < 128) v -> Forall (fun c => c < 128) w.
Proof.
  intros <-. unfold to_ascii_lowercase. rewrite Forall_fmap. intros H.
  eapply Forall_impl; [done|]. intros c Hc. cbn in Hc. apply lower_char_range. lia.
Qed.

Lemma len_utf8_ascii c : c < 128 -> len_utf8 c = 1.
Proof. intros H. unfold len_utf8. by rewrite (proj2 (Z.ltb_lt _ _)). Qed.

Lemma str_len_ascii s : Forall (fun c => c < 128) s -> str_len s = len s.
Proof.
  induction 1 as [|c s Hc Hs IH]; [done|].
  rewrite str_len_cons, IH, len_utf8_ascii by done. unfold len. cbn. lia.
Qed.

(** A slice of at most as many bytes as there are leading ASCII characters. *)
Lemma split_at_byte_ascii a b n :
  Forall (fun c => c < 128) a -> 0 <= n <= len a -> is_Some (split_at_byte n (a ++ b)).
Proof.
  intros Ha Hn. rewrite <- (take_drop (Z.to_nat n) a), <- app_assoc.
  replace n with (str_len (take (Z.to_nat n) a)) at 1; [rewrite split_at_byte_app; eauto|].
  rewrite str_len_ascii by (by apply Forall_take). unfold len in *. rewrite length_take. lia.
Qed.

(** The words of a normalized text. *)
Lemma normalize_words sql w ws :
  split_whitespace sql = w :: ws ->
  normalize sql = to_ascii_lowercase w
                  ++ match ws with
                     | [] => []
                     | _ => 32 :: to_ascii_lowercase (join [32] ws)
                     end.
Proof.
  intros H. unfold normalize. rewrite H. cbn [join].
  destruct ws as [|w' ws]; [by rewrite app_nil_r|]. by rewrite !to_ascii_lowercase_app.
Qed.

Lemma lower_no_ws w : no_ws w -> no_ws (to_ascii_lowercase w).
Proof.
  unfold no_ws, to_ascii_lowercase. rewrite Forall_fmap. intros H.
  eapply Forall_impl; [done|]. intros c Hc. cbn. by rewrite lower_char_ws.
Qed.

(** If a word followed by a space starts a text, it is its first word. *)
Lemma word_prefix_inj (w v r r' : str) :
  no_ws w -> no_ws v -> (forall c t, r = c :: t -> is_whitespace c = true) ->
  w ++ r = v ++ 32 :: r' -> w = v /\ r = 32 :: r'.
Proof.
  intros Hw Hv Hr. revert v Hv. induction Hw as [|c w Hc Hw IH]; intros v Hv Heq.
  - destruct Hv as [|d v Hd Hv]; [done|]. cbn in Heq.
    specialize (Hr _ _ Heq). by rewrite Hd in Hr.
  - destruct Hv as [|d v Hd Hv]; cbn in Heq; injection Heq as -> Heq; [done|].
    destruct (IH v Hv Heq) as [-> ->]. done.
Qed.

(** Reading a keyword off the front of a normalized text. *)
Lemma normalize_keyword sql kw r :
  no_ws kw -> normalize sql = kw ++ 32 :: r ->
  exists pre w rest, sql = pre ++ w ++ rest /\
    Forall (fun c => is_whitespace c = true) pre /\ to_ascii_lowercase w = kw /\
    (exists c t, rest = c :: t /\ is_whitespace c = true) /\
    normalize rest = r.
Proof.
  intros Hkw H. destruct (split_whitespace sql) as [|w ws] eqn:Hws.
  { unfold normalize in H. rewrite Hws in H. by destruct kw. }
  rewrite (normalize_words _ _ _ Hws) in H.
  apply split_whitespace_next in Hws as (pre & rest & -> & Hpre & Hw & _ & <- & Hr).
  apply word_prefix_inj in H as [Hlow Hrest]; [| by apply lower_no_ws | done |].
  - exists pre, w, rest. split_and!; [done|done|done| |].
    + destruct rest as [|c t]; [done|]. exists c, t. split; [done|]. by eapply Hr.
    + destruct (split_whitespace rest) as [|w' ws'] eqn:E; [done|].
      injection Hrest as <-. unfold normalize. by rewrite E.
  - intros c t Heq. destruct (split_whitespace rest); [done|]. by injection Heq as <- _.
Qed.

Lemma trimmed_no_pre s pre w rest :
  trim_statement s = pre ++ w ++ rest -> Forall (fun c => is_whitespace c = true) pre ->
  pre = [].
Proof.
  intros H Hp. destruct Hp as [|c pre Hc _]; [done|]. cbn in H.
  apply trim_head in H. by rewrite Hc in H.
Qed.

(** The bytes [parse_set] skips are ASCII when the white space is. *)
Lemma set_prefix_ascii sql :
  ascii_ws sql -> starts_with (lit "set ") (normalize (trim_statement sql)) = true ->
  exists a b, trim_statement sql = a ++ b /\ Forall (fun c => c < 128) a /\ 4 <= len a /\
    (starts_with (lit "set local ") (normalize (trim_statement sql)) = true -> 10 <= len a).
Proof.
  intros Hws [r Hset]%starts_with_true.
  change (lit "set ") with ([115; 101; 116] ++ [32]) in Hset. rewrite <- app_assoc in Hset.
  destruct (normalize_keyword _ [115; 101; 116] r ltac:(repeat constructor) Hset)
    as (pre & w & rest & Heq & Hpre & Hw & (c & t & -> & Hc) & Hn).
  pose proof (trimmed_no_pre _ _ _ _ Heq Hpre) as ->. cbn [app] in Heq.
  assert (Hin : forall d, d ∈ w ++ c :: t -> is_whitespace d = true -> 0 <= d < 128).
  { intros d Hd. apply Hws, trim_statement_sub. by rewrite Heq. }
  assert (Hwl : length w = 3%nat) by (apply (f_equal length) in Hw; by rewrite length_lower in Hw).
  assert (Hwa : Forall (fun c => c < 128) w)
    by (eapply lower_ascii; [done|repeat constructor; lia]).
  assert (Hca : c < 128) by (apply Hin; [apply elem_of_app; right; left|done]).
  destruct (starts_with (lit "set local ") (normalize (trim_statement sql))) eqn:Hl.
  - apply starts_with_true in Hl as [r' Hl]. rewrite Hset in Hl. cbn in Hl.
    injection Hl as ->. change (108 :: 111 :: 99 :: 97 :: 108 :: 32 :: r')
      with ([108; 111; 99; 97; 108] ++ 32 :: r') in Hn.
    destruct (normalize_keyword _ [108; 111; 99; 97; 108] r' ltac:(repeat constructor) Hn)
      as (pre & v & rest & Heq' & Hpre' & Hv & (d & u & -> & Hd) & _).
    assert (Hvl : length v = 5%nat)
      by (apply (f_equal length) in Hv; by rewrite length_lower in Hv).
    exists (w ++ pre ++ v ++ [d]), u. rewrite Heq, Heq'. split_and!.
    + by rewrite <- !app_assoc.
    + rewrite Heq' in Hin. rewrite !Forall_app. split_and!; [done| | |].
      * apply Forall_forall. intros x Hx. apply Hin; [rewrite !elem_of_app; tauto|].
        by rewrite Forall_forall in Hpre'; apply Hpre'.
      * eapply lower_ascii; [done|repeat constructor; lia].
      * constructor; [|done]. apply Hin; [|done]. rewrite !elem_of_app, !elem_of_cons. tauto.
    + unfold len. rewrite !length_app. cbn. lia.
    + intros _. destruct pre as [|p pre].
      { cbn in Heq'. destruct v as [|x v]; [done|]. injection Heq' as <- _.
        cbn in Hv. injection Hv as Hx _. rewrite <- lower_char_ws, Hx in Hc. done. }
      unfold len. rewrite !length_app. cbn. lia.
  - exists (w ++ [c]), t. split_and!; [by rewrite Heq, <- app_assoc| | |done].
    + apply Forall_app. split; [done|by constructor].
    + unfold len. rewrite length_app. cbn. lia.
Qed.

Lemma is_one_of_false s l c :
  c ∈ s -> Forall (fun a => ~ (c ∈ lit a)) l -> is_one_of s l = false.
Proof.
  intros Hc Hl. unfold is_one_of. induction Hl as [|a l Ha Hl IH]; [done|].
  cbn. rewrite IH, orb_false_r. unfold str_eqb. apply bool_decide_eq_false. by intros ->.
Qed.

(** What [classify] requires of the value of a [SET] to keep it as written. *)
Definition plain_value (value : str) : Prop :=
  value <> [] /\ trimmed value /\ last value <> Some 59.

Definition plain_key (key : str) : Prop :=
  key <> [] /\ no_ws key /\ ~ (61 ∈ key) /\ to_ascii_lowercase key <> lit "local".

Definition set_statement (key value : str) : str :=
  lit "SET " ++ key ++ lit " = " ++ value.

Lemma trim_statement_set key value :
  plain_value value -> trim_statement (set_statement key value) = set_statement key value.
Proof.
  intros (Hne & [Hh Hl] & Hsemi).
  assert (Hlast : last (set_statement key value) = last value).
  { unfold set_statement. rewrite !app_assoc, last_app. destruct value; [done|].
    by destruct (last (z :: value)) eqn:E; [|apply last_None in E]. }
  assert (Ht : trimmed (set_statement key value)).
  { split; [by intros c [= <-]|]. intros c Hc. apply Hl. by rewrite <- Hlast. }
  unfold trim_statement. rewrite (trim_trimmed _ Ht), trim_end_matches_id; [by apply trim_trimmed|].
  intros c r Heq. apply Z.eqb_neq. intros <-. apply Hsemi. rewrite <- Hlast, Heq.
  apply last_snoc.
Qed.

Lemma normalize_set key value :
  plain_key key -> normalize (set_statement key value)
  = lit "set " ++ to_ascii_lowercase key ++ 32 :: 61 ::
    match split_whitespace value with
    | [] => []
    | ws => 32 :: to_ascii_lowercase (join [32] ws)
    end.
Proof.
  intros (Hne & Hk & Heq & Hloc). unfold normalize.
  assert (split_whitespace (set_statement key value)
          = lit "SET" :: key :: [61] :: split_whitespace value) as ->.
  { change (set_statement key value) with (lit "SET" ++ 32 :: (key ++ 32 :: ([61] ++ 32 :: value))).
    rewrite !split_whitespace_word; try done; repeat constructor. }
  cbn [join]. rewrite !to_ascii_lowercase_app.
  change (to_ascii_lowercase (lit "SET") ++ to_ascii_lowercase [32] ++ ?x) with (lit "set " ++ x).
  do 2 f_equal. destruct (split_whitespace value); [done|].
  by rewrite !to_ascii_lowercase_app.
Qed.

Lemma classify_set_aux key value :
  plain_key key -> plain_value value ->
  classify (set_statement key value)
  = Some (CmdSet ScopeSession (to_ascii_lowercase key) value).
Proof.
  intros Hkey Hval. unfold classify. rewrite trim_statement_set by done.
  rewrite normalize_set by done. destruct Hkey as (Hne & Hk & Heq & Hloc).
  set (tl := match split_whitespace value with
             | [] => [] | ws => 32 :: to_ascii_lowercase (join [32] ws) end).
  set (n := lit "set " ++ to_ascii_lowercase key ++ 32 :: 61 :: tl).
  assert (H61 : 61 ∈ n) by (unfold n; rewrite !elem_of_app, !elem_of_cons; tauto).
  assert (Hloc' : starts_with (lit "set local ") n = false).
  { apply not_true_is_false. intros [r Hr]%starts_with_true. apply Hloc.
    unfold n in Hr. change (lit "set local " ++ r) with (lit "set " ++ lit "local" ++ 32 :: r) in Hr.
    apply app_inv_head in Hr.
    apply word_prefix_inj in Hr as [-> _]; [done|by apply lower_no_ws|repeat constructor|].
    by intros ? ? [= <- _]. }
  assert (Hset : starts_with (lit "set ") n = true) by (apply starts_with_true; by exists
    (to_ascii_lowercase key ++ 32 :: 61 :: tl)).
  assert (Hcn : classify_normalized n = inl ScopeSession).
  { unfold classify_normalized, parse_begin_transaction, parse_set_transaction.
    rewrite !(is_one_of_false n _ 61) by (done || (repeat constructor; by_eval)).
    by rewrite Hloc', Hset. }
  rewrite Hcn. clear -Hne Hk Heq Hval. destruct Hval as (Hvne & Hvt & _).
  unfold parse_set, set_statement. change 4 with (str_len (lit "SET ")).
  rewrite split_at_byte_app. cbn [mbind option_bind].
  rewrite trim_trimmed.
  - change (key ++ lit " = " ++ value) with (key ++ [32] ++ 61 :: 32 :: value).
    rewrite app_assoc. unfold split_once, find_char. rewrite position_app_found.
    + rewrite take_app_length, drop_S_app, trim_cons_ws, (trim_trimmed value) by done.
      rewrite trim_snoc_ws by (done || by apply no_ws_trimmed). done.
    + apply Forall_app. split; [|by repeat constructor].
      apply Forall_forall. intros c Hc. apply Z.eqb_neq. by intros <-.
    + done.
  - destruct (no_ws_trimmed _ Hk) as [Hkh _]. destruct Hvt as [_ Hvl]. split; intros c Hc.
    + apply Hkh. destruct key; [done|]. done.
    + apply Hvl. rewrite !app_assoc, last_app in Hc.
      destruct (last value) eqn:E; [done|]. by apply last_None in E.
Qed.
End SqlFacts.

(** ** The theorems of command recognition *)

(** Recognising a command never panics on a statement whose white space
    is ASCII, whatever its other characters: the byte slice [parse_set] takes
    falls on a character boundary, even when the keywords are separated by
    several blanks. *)
Theorem classify_total (sql : str) : ascii_ws sql -> is_Some (classify sql).
Proof.
  intros Hws. unfold classify. set (t := trim_statement sql).
  assert (Hset : forall scope, is_Some (split_at_byte
    (match scope with ScopeSession => 4 | ScopeLocal => 10 end) t) -> is_Some (parse_set t scope)).
  { intros scope [[a b] Hab]. unfold parse_set. rewrite Hab. cbn. eauto. }
  unfold classify_normalized. repeat case_match; simplify_eq; eauto; apply Hset; cbn match.
  - select (starts_with (lit "set local ") _ = true) (fun H => rename H into Hloc).
    destruct (set_prefix_ascii sql Hws) as (a & b & Heq & Ha & _ & Hl).
    { apply starts_with_true in Hloc as [r Hr]. apply starts_with_true.
      exists (lit "local " ++ r). exact Hr. }
    unfold t. rewrite Heq. apply split_at_byte_ascii; [done|]. specialize (Hl Hloc). lia.
  - select (starts_with (lit "set ") _ = true) (fun H => rename H into Hs).
    destruct (set_prefix_ascii sql Hws Hs) as (a & b & Heq & Ha & Hl & _).
    unfold t. rewrite Heq. apply split_at_byte_ascii; [done|]. lia.
Qed.

Lemma classify_total_witness : is_Some (classify (lit "SET   LOCAL x = 'caf" ++ [233] ++ lit "'")).
Proof.
  apply classify_total.
  refine (proj1 (Forall_forall (fun c => is_whitespace c = true -> 0 <= c < 128) _) _). by_eval.
Defined.

(** A [SET] in the canonical form is read exactly: for every key without
    white space or [=] other than [LOCAL], and every value without blanks at
    its ends or a final semicolon, the recognised command sets the
    lower-cased key to the value as written. *)
Theorem classify_set (key value : str) :
  plain_key key -> plain_value value ->
  classify (set_statement key value)
  = Some (CmdSet ScopeSession (to_ascii_lowercase key) value).
Proof. apply classify_set_aux. Qed.

Lemma classify_set_witness :
  classify (set_statement (lit "TimeZone") (lit "'UTC'"))
  = Some (CmdSet ScopeSession (lit "timezone") (lit "'UTC'")).
Proof.
  apply (classify_set (lit "TimeZone") (lit "'UTC'")).
  - split_and!; [done|unfold no_ws; by_eval|by_eval|by_eval].
  - split_and!; [done| |by_eval]. split; by intros c [= <-].
Defined.

(** [SET] followed by a no-break space, which [split_whitespace] treats as a
    blank, makes [parse_set] slice inside that character: a panic. *)
Example classify_panics_on_nbsp : classify (lit "SET" ++ [160] ++ lit "x = 1") = None.
Proof. vm_compute. reflexivity. Qed.

(** The prefix [SET LOCAL] is cut by its length in bytes, so extra blanks
    before [LOCAL] leave part of the keyword in the key. *)
Example classify_set_local_blanks :
  classify (lit "SET   LOCAL x = 1") = Some (CmdSet ScopeLocal (lit "l x") (lit "1")).
Proof. vm_compute. reflexivity. Qed.

(** The [TO] of [SET key TO value] stays in the value. *)
Example classify_set_to :
  classify (lit "SET timezone TO 'UTC'")
  = Some (CmdSet ScopeSession (lit "timezone") (lit "TO 'UTC'")).
Proof. vm_compute. reflexivity. Qed.
