(* ===== verification/SqlClassify.v ===== *)
(** * SqlClassify: which statements may run on a replica

    Models [pg-kinetic-core/src/protocol/sql_classify.rs]: comment stripping,
    the statement splitter, the keyword tests, [classify_sql], the routing
    hint and the tokenizer. Loops whose recursion is not structural take fuel
    and return [None] when it runs out; where the code slices a string,
    [None] also stands for the panic of a bad slice. The theorems at the end
    show that neither happens. *)

From S2P Require Import Prelude Text RoutingTypes Sql.

(** ** Leading comments *)

(** The loop of [strip_leading_comments_and_whitespace]. *)
Fixpoint strip_loop (fuel : nat) (rest : str) : option str :=
  match fuel with
  | O => None
  | S fuel =>
      let trimmed := trim_start rest in
      if negb (str_eqb trimmed rest) then strip_loop fuel trimmed
      else
        match strip_prefix (lit "--") rest with
        | Some after_comment =>
            match find_char (Z.eqb 10) after_comment with
            | Some end_ => strip_loop fuel (drop (end_ + 1) after_comment)
            | None => Some []
            end
        | None =>
            match strip_prefix (lit "/*") rest with
            | Some after_comment =>
                match find_str (lit "*/") after_comment with
                | Some end_ => strip_loop fuel (drop (end_ + 2) after_comment)
                | None => Some []
                end
            | None => Some rest
            end
        end
  end.

(** [strip_leading_comments_and_whitespace]; every turn shortens the text
    (see [strip_loop_spec]), so [length sql + 1] turns are enough. *)
Definition strip_leading_comments_and_whitespace (sql : str) : str :=
  default [] (strip_loop (S (length sql)) sql).

Definition strip_token_separators : str -> str := strip_leading_comments_and_whitespace.

Definition starts_with_token_separator (sql : str) : bool :=
  match sql with c :: _ => is_whitespace c | [] => false end
  || starts_with (lit "--") sql || starts_with (lit "/*") sql.

(** [min] over the [Some] values. *)
Definition min_opt (a b : option nat) : option nat :=
  match a, b with
  | Some x, Some y => Some (Nat.min x y)
  | Some x, None => Some x
  | None, o => o
  end.

Definition find_token_separator (sql : str) : option nat :=
  min_opt (find_char is_whitespace sql)
    (min_opt (find_str (lit "--") sql) (find_str (lit "/*") sql)).

(** ** Keyword tests *)

(** [starts_with_words_ignore_ascii_case]; [rest.get(..word.len())] is
    [split_at_byte]. *)
Fixpoint starts_with_words (sql : str) (words : list str) : bool :=
  match words with
  | [] => true
  | word :: words =>
      match split_at_byte (str_len word) (strip_token_separators sql) with
      | None => false
      | Some (candidate, after_word) =>
          if negb (eq_ignore_ascii_case candidate word) then false
          else
            match words with
            | [] => bool_decide (after_word = []) || starts_with_token_separator after_word
            | _ =>
                if negb (starts_with_token_separator after_word) then false
                else starts_with_words after_word words
            end
      end
  end.

Definition keyword_is (sql : str) (keyword : string) : bool :=
  starts_with_words sql [lit keyword].

Definition keyword_is_exact (sql : str) (keyword : string) : bool :=
  match split_at_byte (str_len (lit keyword)) (strip_token_separators sql) with
  | None => false
  | Some (candidate, rest) =>
      eq_ignore_ascii_case candidate (lit keyword)
      && bool_decide (strip_token_separators rest = [])
  end.

Definition keyword_is_followed_by_more (sql : str) (keyword : string) : bool :=
  match split_at_byte (str_len (lit keyword)) (strip_token_separators sql) with
  | None => false
  | Some (candidate, rest) =>
      if negb (eq_ignore_ascii_case candidate (lit keyword)) then false
      else starts_with_token_separator rest
           && negb (bool_decide (strip_token_separators rest = []))
  end.

(** The loop of [contains_words_ignore_ascii_case]; the state is the text
    from [index] on. *)
Fixpoint contains_words_loop (fuel : nat) (remainder : str) (words : list str) : option bool :=
  match fuel with
  | O => None
  | S fuel =>
      match remainder with
      | [] => Some false
      | _ =>
          let trimmed := strip_token_separators remainder in
          if bool_decide (trimmed = []) then Some false
          else if starts_with_words trimmed words then Some true
          else
            let token_end := default (length trimmed) (find_token_separator trimmed) in
            contains_words_loop fuel (drop token_end trimmed) words
      end
  end.

Definition contains_words (sql : str) (words : list str) : option bool :=
  match words with
  | [] => Some true
  | _ => contains_words_loop (S (length sql)) sql words
  end.

(** ** Statement classes *)

Definition contains_data_modifying_cte_normalized (normalized : str) : bool :=
  if negb (starts_with (lit "with ") normalized) && negb (str_eqb normalized (lit "with"))
  then false
  else contains (lit " as (insert") normalized || contains (lit " as (update") normalized
       || contains (lit " as (delete") normalized || contains (lit " as (merge") normalized.

Definition contains_data_modifying_cte (sql : str) : bool :=
  contains_data_modifying_cte_normalized
    (normalize (strip_leading_comments_and_whitespace sql)).

Definition contains_select_side_effects (normalized : str) : bool :=
  existsb (fun pat => contains (lit pat) normalized)
    [" into "; " for update"; " for no key update"; " for share"; " for key share";
     " lock in share mode"; "pg_advisory_lock("; "pg_try_advisory_lock("; "set_config("]%string.

Definition is_transaction_control (sql : str) : bool :=
  starts_with_words sql [lit "begin"]
  || keyword_is_exact sql "commit"
  || keyword_is_exact sql "rollback"
  || keyword_is_exact sql "abort"
  || keyword_is_exact sql "end"
  || starts_with_words sql [lit "start"; lit "transaction"]
  || starts_with_words sql [lit "set"; lit "transaction"]
  || keyword_is_followed_by_more sql "savepoint"
  || starts_with_words sql [lit "release"; lit "savepoint"]
  || starts_with_words sql [lit "rollback"; lit "to"].

Definition is_session_mutation (sql : str) : bool :=
  existsb (keyword_is_followed_by_more sql)
    ["set"; "reset"; "discard"; "listen"; "unlisten"; "notify"; "lock"; "declare"]%string.

Definition write_keywords : list string :=
  ["insert"; "update"; "delete"; "merge"; "truncate"; "create"; "alter"; "drop"; "call"; "do";
   "vacuum"; "analyze"; "reindex"; "grant"; "revoke"]%string.

Definition is_write_statement (sql : str) : bool := existsb (keyword_is sql) write_keywords.

Definition classify_copy (sql : str) : option QueryClass :=
  from_stdin ← contains_words sql [lit "from"; lit "stdin"];
  if from_stdin : bool then Some Write
  else
    to_stdout ← contains_words sql [lit "to"; lit "stdout"];
    Some (if to_stdout : bool then ReadCandidate else Write).

(** ** Scanning quotes and comments *)

Inductive ScanState := Normal | SingleQuote | DoubleQuote | LineComment | BlockComment.

#[global] Instance ScanState_eq_dec : EqDecision ScanState.
Proof. solve_decision. Defined.

(** The state changes that [for_each_top_level_statement] and
    [find_matching_paren] share: the state after [ch], and whether the
    character after it is consumed with it. *)
Definition scan_step (state : ScanState) (ch : Z) (next : option Z) : ScanState * bool :=
  match state with
  | Normal =>
      if ch =? 39 then (SingleQuote, false)
      else if ch =? 34 then (DoubleQuote, false)
      else if (ch =? 45) && bool_decide (next = Some 45) then (LineComment, true)
      else if (ch =? 47) && bool_decide (next = Some 42) then (BlockComment, true)
      else (Normal, false)
  | SingleQuote =>
      if ch =? 39 then
        if bool_decide (next = Some 39) then (SingleQuote, true) else (Normal, false)
      else (SingleQuote, false)
  | DoubleQuote =>
      if ch =? 34 then
        if bool_decide (next = Some 34) then (DoubleQuote, true) else (Normal, false)
      else (DoubleQuote, false)
  | LineComment => if ch =? 10 then (Normal, false) else (LineComment, false)
  | BlockComment =>
      if (ch =? 42) && bool_decide (next = Some 47) then (Normal, true)
      else (BlockComment, false)
  end.

(** [visit] of a non-empty trimmed statement. *)
Definition push_statement (text : str) (k : list str) : list str :=
  let statement := trim text in
  if bool_decide (statement = []) then k else statement :: k.

(** [for_each_top_level_statement]: the visited statements in order. [cur] is
    the text since [start], reversed. *)
Fixpoint scan_statements (state : ScanState) (cur : str) (s : str) : list str :=
  match s with
  | [] => push_statement (reverse cur) []
  | ch :: rest =>
      if bool_decide (state = Normal) && (ch =? 59)
      then push_statement (reverse cur) (scan_statements Normal [] rest)
      else
        let '(state', two) := scan_step state ch (head rest) in
        match two, rest with
        | true, ch' :: rest' => scan_statements state' (ch' :: ch :: cur) rest'
        | _, _ => scan_statements state' (ch :: cur) rest
        end
  end.

Definition split_top_level_statements (sql : str) : list str := scan_statements Normal [] sql.

Definition has_multiple_statements (sql : str) : bool :=
  (1 <? length (split_top_level_statements sql))%nat.

(** [find_matching_paren], as a character index; [index] characters have been
    read. *)
Fixpoint find_paren (state : ScanState) (depth index : nat) (s : str) : option nat :=
  match s with
  | [] => None
  | ch :: rest =>
      if bool_decide (state = Normal) && (ch =? 40)
      then find_paren Normal (S depth) (S index) rest
      else if bool_decide (state = Normal) && (ch =? 41)
      then if (pred depth =? 0)%nat then Some index
           else find_paren Normal (pred depth) (S index) rest
      else
        let '(state', two) := scan_step state ch (head rest) in
        match two, rest with
        | true, _ :: rest' => find_paren state' depth (S (S index)) rest'
        | _, _ => find_paren state' depth (S index) rest
        end
  end.

Definition find_matching_paren (sql : str) : option nat := find_paren Normal 0 0 sql.

(** ** Classification *)

(** The part of [classify_explain] before its recursive call: the statement
    that is explained, or the class it returns early. *)
Definition explain_target (sql : str) : option (QueryClass + str) :=
  if negb (keyword_is sql "explain") then Some (inl UnknownClass)
  else
    '(_, after) ← split_at_byte (str_len (lit "explain")) sql;
    let rest := strip_token_separators after in
    if starts_with (lit "(") rest then
      match find_matching_paren rest with
      | None => Some (inl UnknownClass)
      | Some end_ =>
          if (end_ <? 1)%nat then None
          else
            let options := normalize (drop 1 (take end_ rest)) in
            if contains (lit "analyze") options then Some (inl UnknownClass)
            else Some (inr (strip_token_separators (drop (end_ + 1) rest)))
      end
    else if starts_with (lit "analyze") (normalize rest) then Some (inl UnknownClass)
    else Some (inr rest).

(** [classify_single_statement], with [classify_explain] inlined at its only
    call. *)
Fixpoint classify_single (fuel : nat) (sql : str) : option QueryClass :=
  match fuel with
  | O => None
  | S fuel =>
      let sql := strip_leading_comments_and_whitespace sql in
      if bool_decide (sql = []) then Some UnknownClass
      else if keyword_is sql "explain" then
        early ← explain_target sql;
        match early with
        | inl c => Some c
        | inr rest =>
            target ← classify_single fuel rest;
            Some (if routes_to_replica target then ReadCandidate else UnknownClass)
        end
      else if keyword_is sql "with" then
        Some (if contains_data_modifying_cte_normalized (normalize sql)
              then Write else UnknownClass)
      else if is_transaction_control sql then Some TransactionControl
      else if is_session_mutation sql then Some SessionMutation
      else if keyword_is sql "copy" then classify_copy sql
      else if keyword_is sql "select" then
        let normalized := normalize sql in
        Some (if contains_data_modifying_cte_normalized normalized
                 || contains_select_side_effects normalized
              then Write else ReadCandidate)
      else if keyword_is sql "values" || keyword_is sql "table" then Some ReadCandidate
      else if keyword_is sql "show" then Some ReadCandidate
      else if is_write_statement sql then Some Write
      else Some UnknownClass
  end.

Definition classify_single_statement (sql : str) : option QueryClass :=
  classify_single (S (length sql)) sql.

(** The loop of [classify_multi_statement]. *)
Fixpoint classify_multi (statements : list str) (saw_read_candidate : bool)
  : option QueryClass :=
  match statements with
  | [] => Some (if saw_read_candidate then ReadCandidate else TransactionControl)
  | statement :: rest =>
      class ← classify_single_statement statement;
      match class with
      | ReadCandidate | ReadOnlyClass => classify_multi rest true
      | TransactionControl => classify_multi rest saw_read_candidate
      | other => Some other
      end
  end.

Definition classify_multi_statement (statements : list str) : option QueryClass :=
  classify_multi statements false.

(** [classify_sql]. *)
Definition classify_sql (sql : str) : option QueryClass :=
  let sql := strip_leading_comments_and_whitespace sql in
  if bool_decide (sql = []) then Some UnknownClass
  else
    let statements := split_top_level_statements sql in
    if (1 <? length statements)%nat then classify_multi_statement statements
    else classify_single_statement sql.

(** ** Routing hints *)

(** The hint a comment body spells. *)
Definition comment_hint (comment : str) : RoutingHint :=
  if str_eqb comment (lit "pg-kinetic: primary") then HintPrimary
  else if str_eqb comment (lit "pg-kinetic: replica") then HintReplica
  else if str_eqb comment (lit "pg-kinetic: stale-ok") then HintStaleOk
  else if str_eqb comment (lit "pg-kinetic: strict-fresh") then HintStrictFresh
  else HintNone.

(** The loop of [extract_routing_hint]. *)
Fixpoint hint_loop (fuel : nat) (rest : str) : option RoutingHint :=
  match fuel with
  | O => None
  | S fuel =>
      match strip_prefix (lit "/*") rest with
      | Some after_comment =>
          match find_str (lit "*/") after_comment with
          | None => Some HintNone
          | Some end_ =>
              let hint := comment_hint (trim (take end_ after_comment)) in
              if bool_decide (hint = HintNone)
              then hint_loop fuel (trim_start (drop (end_ + 2) after_comment))
              else Some hint
          end
      | None =>
          match strip_prefix (lit "--") rest with
          | Some after_comment =>
              match find_char (Z.eqb 10) after_comment with
              | Some end_ => hint_loop fuel (trim_start (drop (end_ + 1) after_comment))
              | None => Some HintNone
              end
          | None =>
              let trimmed := trim_start rest in
              if str_eqb trimmed rest then Some HintNone else hint_loop fuel trimmed
          end
      end
  end.

Definition extract_routing_hint (sql : str) : option RoutingHint :=
  hint_loop (S (length sql)) (trim_start sql).

Record SqlAnalysis := { an_query_class : QueryClass; an_routing_hint : RoutingHint }.

(** [analyze_sql]. *)
Definition analyze_sql (sql : str) : option SqlAnalysis :=
  class ← classify_sql sql;
  hint ← extract_routing_hint sql;
  Some {| an_query_class := class; an_routing_hint := hint |}.

(** ** The tokenizer *)

Inductive SqlToken := TComment | TLiteral | TWord (w : str) | TSymbol (s : str).

#[global] Instance SqlToken_eq_dec : EqDecision SqlToken.
Proof. solve_decision. Defined.

Definition is_word_char (c : Z) : bool := is_ascii_alphanumeric c || (c =? 95) || (c =? 36).

(** The text after a block comment's body. *)
Fixpoint skip_block (s : str) : option str :=
  match s with
  | [] => None
  | c :: r =>
      if (c =? 42) && bool_decide (head r = Some 47) then Some (drop 1 r) else skip_block r
  end.

(** The text after a quoted literal's body. *)
Fixpoint skip_quoted (quote : Z) (s : str) : str :=
  match s with
  | [] => []
  | c :: r =>
      if c =? quote then
        match r with
        | c' :: r' => if c' =? quote then skip_quoted quote r' else r
        | [] => []
        end
      else skip_quoted quote r
  end.

(** The number of characters of the dollar-quoted literal [raw] starts with. *)
Definition dollar_literal (raw : str) : option nat :=
  tag_end ← find_char (Z.eqb 36) (drop 1 raw);
  let delimiter_end := (tag_end + 2)%nat in
  let delimiter := take delimiter_end raw in
  body_end ← find_str delimiter (drop delimiter_end raw);
  Some (delimiter_end + body_end + length delimiter)%nat.

(** [tokenize_sql]. *)
Fixpoint tokenize (fuel : nat) (s : str) : option (list SqlToken) :=
  match fuel with
  | O => None
  | S fuel =>
      match s with
      | [] => Some []
      | ch :: rest =>
          if is_whitespace ch then tokenize fuel rest
          else if (ch =? 45) && bool_decide (head rest = Some 45) then
            let body := drop 1 rest in
            let after := match find_char (Z.eqb 10) body with
                         | Some n => drop (S n) body
                         | None => []
                         end in
            cons TComment <$> tokenize fuel after
          else if (ch =? 47) && bool_decide (head rest = Some 42) then
            match skip_block (drop 1 rest) with
            | None => Some []
            | Some after => cons TComment <$> tokenize fuel after
            end
          else if (ch =? 39) || (ch =? 34) then
            cons TLiteral <$> tokenize fuel (skip_quoted ch rest)
          else
            match (if ch =? 36 then dollar_literal s else None) with
            | Some token_end => cons TLiteral <$> tokenize fuel (drop token_end s)
            | None =>
                if is_ascii_digit ch then
                  cons TLiteral <$> tokenize fuel
                    (trim_start_matches
                       (fun c => is_ascii_alphanumeric c || (c =? 46) || (c =? 95)) rest)
                else if is_word_char ch then
                  let word_len := default (length s) (find_char (fun c => negb (is_word_char c)) s) in
                  let word := take word_len s in
                  let token :=
                    if (ch =? 36) && forallb is_ascii_digit (drop 1 word)
                    then TLiteral else TWord word in
                  cons token <$> tokenize fuel (drop word_len s)
                else cons (TSymbol [ch]) <$> tokenize fuel rest
            end
      end
  end.

Definition tokenize_sql (sql : str) : list SqlToken := default [] (tokenize (S (length sql)) sql).

(** The state of the fold in [contains_top_level_word] is the paren depth. *)
Fixpoint contains_top_level (depth : nat) (tokens : list SqlToken) (target : str) : bool :=
  match tokens with
  | [] => false
  | TSymbol s :: rest =>
      if str_eqb s (lit "(") then contains_top_level (S depth) rest target
      else if str_eqb s (lit ")") then contains_top_level (pred depth) rest target
      else contains_top_level depth rest target
  | TWord w :: rest =>
      ((depth =? 0)%nat && eq_ignore_ascii_case w target) || contains_top_level depth rest target
  | _ :: rest => contains_top_level depth rest target
  end.

Definition contains_top_level_word (tokens : list SqlToken) (target : string) : bool :=
  contains_top_level 0 tokens (lit target).

Fixpoint first_word_token (tokens : list SqlToken) : option str :=
  match tokens with
  | TWord w :: _ => Some w
  | _ :: rest => first_word_token rest
  | [] => None
  end.

(** [is_ddl]. *)
Definition is_ddl (sql : str) : bool :=
  match first_word_token (tokenize_sql sql) with
  | Some w => is_one_of (to_ascii_lowercase w)
                ["create"; "alter"; "drop"; "truncate"; "grant"; "revoke"; "comment"]%string
  | None => false
  end.

(** [is_unqualified_dml]. *)
Definition is_unqualified_dml (sql : str) : bool :=
  let tokens := tokenize_sql sql in
  match first_word_token tokens with
  | None => false
  | Some word =>
      let command := to_ascii_lowercase word in
      if str_eqb command (lit "delete") then
        contains_top_level_word tokens "from" && negb (contains_top_level_word tokens "where")
      else if str_eqb command (lit "update") then
        contains_top_level_word tokens "set" && negb (contains_top_level_word tokens "where")
      else false
  end.

(** ** Facts: comment stripping *)

Section StripFacts.
(** What stripping establishes: no blank, no comment at the front. *)
Definition stripped (s : str) : Prop := starts_with_token_separator s = false.

Lemma trim_start_shorter s : trim_start s <> s -> (length (trim_start s) < length s)%nat.
Proof.
  intros Hne. destruct (trim_start_suffix s) as [[|c pre] Hs]; [by destruct Hne|].
  rewrite Hs at 2. cbn. rewrite length_app. lia.
Qed.

(** The loop returns with fuel to spare, with a stripped suffix. *)
Lemma strip_loop_spec fuel s :
  (length s < fuel)%nat ->
  exists r pre, strip_loop fuel s = Some r /\ (s = pre ++ r \/ r = []) /\ stripped r.
Proof.
  revert s. induction fuel as [|fuel IH]; intros s Hf; [lia|]. cbn [strip_loop].
  assert (Hsuf : forall pre s', s = pre ++ s' -> pre <> [] ->
    exists r pre, strip_loop fuel s' = Some r /\ (s = pre ++ r \/ r = []) /\ stripped r).
  { intros pre s' -> Hne. rewrite length_app in Hf.
    destruct (IH s') as (r & p & Hr & Hs & Hst); [destruct pre; cbn in *; [done|lia]|].
    exists r, (pre ++ p). split_and!; [done| |done].
    destruct Hs as [->| ->]; [left; by rewrite <- app_assoc|by right]. }
  unfold str_eqb. case_bool_decide as Ht; cbn [negb].
  - destruct (strip_prefix (lit "--") s) as [a|] eqn:Hd.
    { apply strip_prefix_Some in Hd. destruct (find_char (Z.eqb 10) a) as [n|].
      - apply (Hsuf (lit "--" ++ take (n + 1) a)); [by rewrite <- app_assoc, take_drop|done].
      - exists [], []. split_and!; [done|by right|done]. }
    destruct (strip_prefix (lit "/*") s) as [a|] eqn:Hc.
    { apply strip_prefix_Some in Hc. destruct (find_str (lit "*/") a) as [n|].
      - apply (Hsuf (lit "/*" ++ take (n + 2) a)); [by rewrite <- app_assoc, take_drop|done].
      - exists [], []. split_and!; [done|by right|done]. }
    exists s, []. split_and!; [done|by left|]. unfold stripped, starts_with_token_separator.
    unfold starts_with. rewrite Hd, Hc. destruct s as [|c s]; [done|].
    unfold trim_start in Ht. cbn in Ht.
    destruct (is_whitespace c) eqn:Hw; [|done].
    destruct (trim_start_suffix s) as [pre Hs]. unfold trim_start in Hs.
    rewrite Ht in Hs. apply (f_equal length) in Hs. rewrite length_app in Hs. cbn in Hs. lia.
  - destruct (trim_start_suffix s) as [pre Hs]. apply (Hsuf pre); [done|].
    intros ->. cbn in Hs. done.
Qed.

Lemma strip_spec s :
  stripped (strip_leading_comments_and_whitespace s) /\
  exists pre, s = pre ++ strip_leading_comments_and_whitespace s \/
              strip_leading_comments_and_whitespace s = [].
Proof.
  unfold strip_leading_comments_and_whitespace.
  destruct (strip_loop_spec (S (length s)) s) as (r & pre & -> & Hs & Hst); [lia|].
  split; [done|]. exists pre. done.
Qed.

Lemma strip_length s : (length (strip_leading_comments_and_whitespace s) <= length s)%nat.
Proof.
  destruct (strip_spec s) as [_ [pre [Hs|Hs]]]; [|rewrite Hs; cbn; lia].
  rewrite Hs at 2. rewrite length_app. lia.
Qed.

Lemma stripped_id s : stripped s -> strip_leading_comments_and_whitespace s = s.
Proof.
  unfold stripped, starts_with_token_separator, starts_with.
  rewrite !orb_false_iff, !bool_decide_eq_false. intros [[Hw Hd] Hc].
  unfold strip_leading_comments_and_whitespace. cbn [strip_loop].
  assert (trim_start s = s) as ->.
  { apply trim_start_matches_id. by intros c r ->. }
  unfold str_eqb. rewrite bool_decide_true by done. cbn [negb].
  destruct (strip_prefix (lit "--") s); [destruct Hd; eauto|].
  destruct (strip_prefix (lit "/*") s); [destruct Hc; eauto|]. done.
Qed.

Lemma strip_idemp s :
  strip_leading_comments_and_whitespace (strip_leading_comments_and_whitespace s)
  = strip_leading_comments_and_whitespace s.
Proof. apply stripped_id, strip_spec. Qed.

(** A text that strips to nothing is empty or starts with a separator. *)
Lemma strip_nil s :
  strip_leading_comments_and_whitespace s = [] -> s = [] \/ starts_with_token_separator s = true.
Proof.
  intros H. destruct (starts_with_token_separator s) eqn:E; [by right|].
  left. by rewrite stripped_id in H.
Qed.
End StripFacts.

(** ** Facts: keywords *)

Section KeywordFacts.
Definition lower_letter (c : Z) : bool := in_range 97 122 c.
Definition letter (c : Z) : bool := in_range 65 90 c || in_range 97 122 c.

(** The first word of the text, comments skipped, is [kw]. *)
Definition leads_with (s kw : str) : Prop :=
  exists c a, split_at_byte (str_len kw) (strip_token_separators s) = Some (c, a) /\
    eq_ignore_ascii_case c kw = true /\ (a = [] \/ starts_with_token_separator a = true).

Lemma letter_not_separator c s : letter c = true -> starts_with_token_separator (c :: s) = false.
Proof.
  intros H. unfold letter, in_range in H. unfold starts_with_token_separator, starts_with.
  assert (Hc : 65 <= c <= 90 \/ 97 <= c <= 122) by (bool_to_prop; lia).
  assert (Hw : is_whitespace c = false).
  { unfold is_whitespace, in_range. rewrite !orb_false_iff, !andb_false_iff, !Z.leb_gt, !Z.eqb_neq.
    lia. }
  rewrite Hw. change (lit "--") with [45; 45]. change (lit "/*") with [47; 42].
  cbn [strip_prefix]. rewrite !(proj2 (Z.eqb_neq _ _)) by lia. done.
Qed.

Lemma lower_letter_inv c : lower_letter (lower_char c) = true -> letter c = true.
Proof.
  unfold lower_letter, letter, lower_char, in_range. intros H.
  destruct ((65 <=? c) && (c <=? 90)) eqn:E; [done|]. done.
Qed.

Lemma word_split_unique (c c' a a' : str) :
  Forall (fun x => letter x = true) c -> Forall (fun x => letter x = true) c' ->
  (a = [] \/ starts_with_token_separator a = true) ->
  (a' = [] \/ starts_with_token_separator a' = true) ->
  c ++ a = c' ++ a' -> c = c'.
Proof.
  intros Hc. revert c'. induction Hc as [|x c Hx Hc IH]; intros c' Hc' Ha Ha' Heq.
  - destruct Hc' as [|y c' Hy Hc']; [done|]. cbn in Heq. subst a.
    destruct Ha as [Ha|Ha]; [done|]. by rewrite letter_not_separator in Ha.
  - destruct Hc' as [|y c' Hy Hc']; cbn in Heq.
    + subst a'. destruct Ha' as [Ha'|Ha']; [done|]. by rewrite letter_not_separator in Ha'.
    + injection Heq as -> Heq. f_equal. by apply IH.
Qed.

Definition is_keyword (kw : str) : Prop := Forall (fun c => lower_letter c = true) kw.

Lemma lower_keyword kw : is_keyword kw -> to_ascii_lowercase kw = kw.
Proof.
  induction 1 as [|c kw Hc Hk IH]; [done|]. unfold to_ascii_lowercase in *. cbn. rewrite IH.
  f_equal. unfold lower_letter, lower_char, in_range in *.
  destruct ((65 <=? c) && (c <=? 90)) eqn:E; [|done]. bool_to_prop. lia.
Qed.

Lemma keyword_candidate c kw :
  is_keyword kw -> eq_ignore_ascii_case c kw = true ->
  to_ascii_lowercase c = kw /\ Forall (fun x => letter x = true) c.
Proof.
  intros Hk H. unfold eq_ignore_ascii_case, str_eqb in H. apply bool_decide_eq_true in H.
  rewrite (lower_keyword _ Hk) in H. split; [done|]. rewrite <- H in Hk.
  unfold is_keyword, to_ascii_lowercase in Hk. rewrite Forall_fmap in Hk.
  eapply Forall_impl; [done|]. intros x. apply lower_letter_inv.
Qed.

(** A statement has one first keyword. *)
Lemma leads_with_unique s kw kw' :
  is_keyword kw -> is_keyword kw' -> leads_with s kw -> leads_with s kw' -> kw = kw'.
Proof.
  intros Hk Hk' (c & a & Hs & He & Ha) (c' & a' & Hs' & He' & Ha').
  apply split_at_byte_Some in Hs as [Hs _]. apply split_at_byte_Some in Hs' as [Hs' _].
  apply keyword_candidate in He as [<- Hc]; [|done].
  apply keyword_candidate in He' as [<- Hc']; [|done].
  f_equal. eapply word_split_unique; [done|done|exact Ha|exact Ha'|congruence].
Qed.

Lemma starts_with_words_leads s w ws : starts_with_words s (w :: ws) = true -> leads_with s w.
Proof.
  cbn [starts_with_words]. unfold leads_with. intros H.
  destruct (split_at_byte _ _) as [[c a]|]; [|done]. exists c, a.
  destruct (eq_ignore_ascii_case c w); [|done]. cbn [negb] in H. split_and!; [done|done|].
  destruct ws.
  - apply orb_true_iff in H as [H|H]; [left; by apply bool_decide_eq_true in H|by right].
  - destruct (starts_with_token_separator a); [by right|done].
Qed.

Lemma keyword_is_leads s kw : keyword_is s kw = true <-> leads_with s (lit kw).
Proof.
  split; [apply starts_with_words_leads|]. intros (c & a & Hs & He & Ha).
  unfold keyword_is. cbn [starts_with_words]. rewrite Hs, He. cbn [negb].
  destruct Ha as [->|Ha]; [done|]. by rewrite Ha, orb_true_r.
Qed.

Lemma exact_leads s kw : keyword_is_exact s kw = true -> leads_with s (lit kw).
Proof.
  unfold keyword_is_exact, leads_with. destruct (split_at_byte _ _) as [[c a]|]; [|done].
  intros [He Ha]%andb_true_iff. apply bool_decide_eq_true in Ha. exists c, a.
  split_and!; [done|done|]. by apply strip_nil.
Qed.

Lemma followed_leads s kw : keyword_is_followed_by_more s kw = true -> leads_with s (lit kw).
Proof.
  unfold keyword_is_followed_by_more, leads_with.
  destruct (split_at_byte _ _) as [[c a]|]; [|done]. intros H. exists c, a.
  destruct (eq_ignore_ascii_case c (lit kw)); [|done]. cbn [negb] in H.
  apply andb_true_iff in H as [H _]. eauto.
Qed.

Lemma leads_with_strip s kw :
  leads_with (strip_leading_comments_and_whitespace s) kw <-> leads_with s kw.
Proof. unfold leads_with, strip_token_separators. by rewrite strip_idemp. Qed.
End KeywordFacts.

(** ** Facts: the loops return *)

Section TotalFacts.
Lemma find_str_0 pat s : find_str pat s = Some 0%nat -> starts_with pat s = true.
Proof. destruct s; cbn; destruct (starts_with pat _); try done; by destruct (find_str pat s). Qed.

Lemma find_token_separator_pos s n :
  stripped s -> find_token_separator s = Some n -> (1 <= n)%nat.
Proof.
  unfold stripped, starts_with_token_separator. rewrite !orb_false_iff. intros [[Hw Hd] Hc] H.
  destruct n as [|n]; [exfalso|lia]. unfold find_token_separator in H.
  assert (H0 : find_char is_whitespace s = Some 0%nat \/ find_str (lit "--") s = Some 0%nat \/
               find_str (lit "/*") s = Some 0%nat).
  { destruct (find_char is_whitespace s) as [[|a]|], (find_str (lit "--") s) as [[|b]|],
      (find_str (lit "/*") s) as [[|c]|]; cbn in H; auto; discriminate. }
  destruct H0 as [H0|[H0|H0]].
  - destruct s as [|c s]; [done|]. unfold find_char in H0. cbn in H0. rewrite Hw in H0.
    by destruct (position is_whitespace s).
  - apply find_str_0 in H0. congruence.
  - apply find_str_0 in H0. congruence.
Qed.

Lemma contains_words_loop_total fuel s words :
  (length s < fuel)%nat -> is_Some (contains_words_loop fuel s words).
Proof.
  revert s. induction fuel as [|fuel IH]; intros s Hf; [lia|]. cbn [contains_words_loop].
  destruct s as [|c s]; [eauto|]. unfold strip_token_separators.
  set (t := strip_leading_comments_and_whitespace (c :: s)).
  case_bool_decide as Hne; [eauto|]. destruct (starts_with_words t words); [eauto|].
  apply IH. rewrite length_drop.
  assert (length t <= length (c :: s))%nat by apply strip_length.
  assert (0 < length t)%nat by (destruct t; [done|cbn; lia]).
  destruct (find_token_separator t) as [n|] eqn:Hn.
  - apply find_token_separator_pos in Hn; [|apply strip_spec].
    change (default (length t) (Some n)) with n. lia.
  - change (default (length t) None) with (length t). lia.
Qed.

Lemma classify_copy_total s : is_Some (classify_copy s).
Proof.
  unfold classify_copy, contains_words.
  destruct (contains_words_loop_total (S (length s)) s [lit "from"; lit "stdin"]) as [b ->]; [lia|].
  cbn [mbind option_bind]. destruct b; [eauto|].
  destruct (contains_words_loop_total (S (length s)) s [lit "to"; lit "stdout"]) as [b ->]; [lia|].
  cbn. eauto.
Qed.

Lemma find_paren_ge state depth index s n :
  find_paren state depth index s = Some n -> (index <= n)%nat.
Proof.
  revert state depth index n.
  induction s as [s IH] using (induction_ltof1 _ (@length Z)); unfold ltof in IH.
  intros state depth index n. destruct s as [|ch rest]; [done|]. cbn [find_paren].
  assert (Hr : forall st d, find_paren st d (S index) rest = Some n -> (index <= n)%nat).
  { intros st d H. apply IH in H; [lia|cbn; lia]. }
  destruct (_ && (ch =? 40)); [eauto|].
  destruct (_ && (ch =? 41)).
  { destruct (_ =? 0)%nat; [intros [= ->]; lia|eauto]. }
  destruct (scan_step state ch (head rest)) as [st two].
  destruct two, rest as [|ch' rest']; eauto.
  intros H. apply IH in H; [lia|cbn; lia].
Qed.

(** The explained statement exists and is shorter. *)
Lemma explain_target_total s :
  stripped s -> keyword_is s "explain" = true ->
  match explain_target s with
  | None => False
  | Some (inl c) => c = UnknownClass
  | Some (inr rest) => (length rest < length s)%nat
  end.
Proof.
  intros Hst Hk. pose proof Hk as (c & a & Hs & He & _)%keyword_is_leads.
  unfold strip_token_separators in Hs. rewrite stripped_id in Hs by done.
  unfold explain_target. rewrite Hk, Hs. cbn [negb mbind option_bind].
  apply split_at_byte_Some in Hs as [-> Hl].
  assert (0 < length c)%nat by (destruct c; [done|cbn; lia]).
  unfold strip_token_separators. set (r := strip_leading_comments_and_whitespace a).
  assert (length r <= length a)%nat by apply strip_length. rewrite length_app.
  destruct (starts_with (lit "(") r) eqn:Hp.
  - destruct (find_matching_paren r) as [n|] eqn:Hn; [|done].
    assert (1 <= n)%nat.
    { apply starts_with_true in Hp as [t Ht]. change (lit "(") with [40] in Ht.
      unfold find_matching_paren in Hn. rewrite Ht in Hn. cbn in Hn.
      by apply find_paren_ge in Hn. }
    rewrite (proj2 (Nat.ltb_ge _ _)) by lia. destruct (contains _ _); [done|].
    pose proof (strip_length (drop (n + 1) r)) as Hd. rewrite length_drop in Hd. lia.
  - destruct (starts_with (lit "analyze") _); [done|lia].
Qed.

Lemma classify_single_total fuel s :
  (length s < fuel)%nat -> is_Some (classify_single fuel s).
Proof.
  revert s. induction fuel as [|fuel IH]; intros s Hf; [lia|]. cbn [classify_single].
  pose proof (strip_length s) as Hl. pose proof (proj1 (strip_spec s)) as Hst.
  set (t := strip_leading_comments_and_whitespace s) in *.
  case_bool_decide; [eauto|]. destruct (keyword_is t "explain") eqn:Hk.
  - pose proof (explain_target_total t Hst Hk) as He.
    destruct (explain_target t) as [[c|rest]|]; [cbn; eauto| |done].
    cbn. destruct (IH rest) as [x ->]; [lia|]. cbn. eauto.
  - repeat case_match; eauto using classify_copy_total.
Qed.

Lemma classify_single_statement_total s : is_Some (classify_single_statement s).
Proof. apply classify_single_total. lia. Qed.

Lemma classify_multi_total ss saw : is_Some (classify_multi ss saw).
Proof.
  revert saw. induction ss as [|s ss IH]; intros saw; cbn [classify_multi]; [eauto|].
  destruct (classify_single_statement_total s) as [c ->]. cbn. destruct c; eauto.
Qed.

Lemma classify_sql_total s : is_Some (classify_sql s).
Proof.
  unfold classify_sql. case_match; [eauto|].
  case_match; [apply classify_multi_total|apply classify_single_statement_total].
Qed.

Lemma hint_loop_total fuel s : (length s < fuel)%nat -> is_Some (hint_loop fuel s).
Proof.
  revert s. induction fuel as [|fuel IH]; intros s Hf; [lia|]. cbn [hint_loop].
  assert (Hsuf : forall a n, (length a + 2 <= length s)%nat ->
    is_Some (hint_loop fuel (trim_start (drop n a)))).
  { intros a n Ha. apply IH. pose proof (trim_start_length (drop n a)) as Hl.
    rewrite length_drop in Hl. lia. }
  destruct (strip_prefix (lit "/*") s) as [a|] eqn:Hc.
  { apply strip_prefix_Some in Hc. apply (f_equal length) in Hc. rewrite length_app in Hc.
    change (length (lit "/*")) with 2%nat in Hc.
    destruct (find_str (lit "*/") a); [|eauto]. case_match; [apply Hsuf; lia|eauto]. }
  destruct (strip_prefix (lit "--") s) as [a|] eqn:Hd.
  { apply strip_prefix_Some in Hd. apply (f_equal length) in Hd. rewrite length_app in Hd.
    change (length (lit "--")) with 2%nat in Hd.
    destruct (find_char (Z.eqb 10) a); [apply Hsuf; lia|eauto]. }
  unfold str_eqb. case_bool_decide as Ht; [eauto|].
  apply IH. apply trim_start_shorter in Ht. lia.
Qed.

Lemma extract_routing_hint_total s : is_Some (extract_routing_hint s).
Proof. apply hint_loop_total. pose proof (trim_start_length s). lia. Qed.
End TotalFacts.

(** ** Facts: what classification separates *)

Section SafetyFacts.
(** Every other keyword the classifier tests. *)
Definition other_keywords : list string :=
  ["explain"; "with"; "begin"; "commit"; "rollback"; "abort"; "end"; "start"; "set";
   "savepoint"; "release"; "reset"; "discard"; "listen"; "unlisten"; "notify"; "lock";
   "declare"; "copy"; "select"; "values"; "table"; "show"]%string.

Lemma keywords_are_keywords :
  Forall (fun k => is_keyword (lit k)) (write_keywords ++ other_keywords).
Proof. unfold is_keyword. by_eval. Qed.

Lemma keywords_disjoint :
  Forall (fun k => Forall (fun k' => lit k <> lit k') other_keywords) write_keywords.
Proof. by_eval. Qed.

Lemma write_excludes t kw kw' :
  kw ∈ write_keywords -> kw' ∈ other_keywords ->
  leads_with t (lit kw) -> ~ leads_with t (lit kw').
Proof.
  intros Hw Ho Hl Hl'. pose proof keywords_are_keywords as Hk. rewrite Forall_forall in Hk.
  pose proof keywords_disjoint as Hd. rewrite Forall_forall in Hd.
  specialize (Hd kw Hw). rewrite Forall_forall in Hd. apply (Hd kw' Ho).
  eapply leads_with_unique; [apply Hk..|done|done]; apply elem_of_app; auto.
Qed.

Ltac other := apply (bool_decide_unpack _); vm_compute; exact I.

(** A statement that starts with a data-changing keyword is a write. *)
Lemma write_keyword_class s kw :
  kw ∈ write_keywords -> keyword_is s kw = true -> classify_single_statement s = Some Write.
Proof.
  intros Hkw Hk. unfold classify_single_statement. cbn [classify_single].
  set (t := strip_leading_comments_and_whitespace s).
  assert (Hlead : leads_with t (lit kw)) by (by apply leads_with_strip, keyword_is_leads).
  assert (Hno : forall kw', kw' ∈ other_keywords -> ~ leads_with t (lit kw'))
    by (intros kw' Ho; by apply (write_excludes t kw)).
  assert (Hkey : forall kw', kw' ∈ other_keywords -> keyword_is t kw' = false).
  { intros kw' Ho. apply not_true_is_false. rewrite keyword_is_leads. by apply Hno. }
  assert (Hwords : forall kw' ws, kw' ∈ other_keywords ->
            starts_with_words t (lit kw' :: ws) = false).
  { intros kw' ws Ho. apply not_true_is_false. intros H%starts_with_words_leads. by apply (Hno kw'). }
  assert (Hexact : forall kw', kw' ∈ other_keywords -> keyword_is_exact t kw' = false).
  { intros kw' Ho. apply not_true_is_false. intros H%exact_leads. by apply (Hno kw'). }
  assert (Hmore : forall kw', kw' ∈ other_keywords -> keyword_is_followed_by_more t kw' = false).
  { intros kw' Ho. apply not_true_is_false. intros H%followed_leads. by apply (Hno kw'). }
  assert (Hnil : t <> []).
  { intros Ht. destruct Hlead as (c & a & Hs & _ & _). rewrite Ht in Hs.
    apply split_at_byte_Some in Hs as [Hs Hl]. apply eq_sym, app_nil in Hs as [-> ->].
    enough (Forall (fun k => str_len (lit k) <> 0) write_keywords) as Hz.
    { rewrite Forall_forall in Hz. by apply (Hz kw Hkw). } by_eval. }
  rewrite bool_decide_false by done.
  rewrite !Hkey by other. unfold is_transaction_control, is_session_mutation.
  rewrite !Hwords, !Hexact, !Hmore by other. cbn [existsb orb].
  rewrite !Hmore by other. cbn [orb].
  assert (is_write_statement t = true) as ->; [|done].
  apply existsb_exists. exists kw. split; [by apply list_elem_of_In|].
  by apply keyword_is_leads.
Qed.

(** The texts [classify_sql] classifies one by one. *)
Definition classified_texts (sql : str) : list str :=
  let sql := strip_leading_comments_and_whitespace sql in
  if has_multiple_statements sql then split_top_level_statements sql else [sql].
End SafetyFacts.

(** ** Facts: what may run on a replica *)

Section ReplicaReads.
(** The statements that may run on a replica, by their first keyword. *)
Inductive replica_read : str -> Prop :=
| read_select s :
    leads_with s (lit "select") ->
    contains_select_side_effects (normalize (strip_leading_comments_and_whitespace s)) = false ->
    replica_read s
| read_values s : leads_with s (lit "values") -> replica_read s
| read_table s : leads_with s (lit "table") -> replica_read s
| read_show s : leads_with s (lit "show") -> replica_read s
| read_copy s :
    leads_with s (lit "copy") ->
    contains_words (strip_leading_comments_and_whitespace s) [lit "to"; lit "stdout"] = Some true ->
    contains_words (strip_leading_comments_and_whitespace s) [lit "from"; lit "stdin"] = Some false ->
    replica_read s
| read_explain s rest :
    leads_with s (lit "explain") ->
    explain_target (strip_leading_comments_and_whitespace s) = Some (inr rest) ->
    replica_read rest -> replica_read s.

Definition read_keywords : list string := ["select"; "values"; "table"; "show"; "copy"; "explain"]%string.

Lemma replica_read_leads s : replica_read s -> exists kw, kw ∈ read_keywords /\ leads_with s (lit kw).
Proof.
  destruct 1; eexists; (split; [|eassumption]); apply (bool_decide_unpack _); vm_compute; exact I.
Qed.

(** A text has one first keyword, among those the classifier tests. *)
Lemma leads_excludes s kw kw' :
  leads_with s (lit kw) -> kw ∈ other_keywords -> kw' ∈ other_keywords -> lit kw <> lit kw' ->
  ~ leads_with s (lit kw').
Proof.
  intros Hl Hk Hk' Hne Hl'. apply Hne. pose proof keywords_are_keywords as Ha. rewrite Forall_forall in Ha.
  eapply leads_with_unique; [apply Ha, elem_of_app; eauto..|done|done].
Qed.

Lemma no_read_keyword s kw :
  leads_with s (lit kw) -> kw ∈ other_keywords -> Forall (fun k => lit kw <> lit k) read_keywords ->
  ~ replica_read s.
Proof.
  intros Hl Hk Hne (kw' & Hk' & Hl')%replica_read_leads. rewrite Forall_forall in Hne.
  eapply leads_excludes; [exact Hl|done| |by apply Hne|exact Hl'].
  assert (Forall (fun k => k ∈ other_keywords) read_keywords) as Hsub by by_eval.
  rewrite Forall_forall in Hsub. by apply Hsub.
Qed.

Lemma split_ws_go_head c r cur : is_whitespace c = false ->
  exists w ws, split_ws_go (c :: r) cur = w :: ws /\ head w = head (reverse (c :: cur)).
Proof.
  revert c cur. induction r as [|d r IH]; intros c cur Hc; cbn [split_ws_go]; rewrite Hc; [by eexists _, _|].
  destruct (is_whitespace d) eqn:Hd; [by eexists _, _|].
  destruct (IH d (c :: cur) Hd) as (w & ws & Hgo & Hw). cbn [split_ws_go] in Hgo. rewrite Hd in Hgo.
  exists w, ws. split; [done|]. rewrite Hw, !reverse_cons. by destruct (reverse cur).
Qed.

Lemma normalize_head c r : is_whitespace c = false -> head (normalize (c :: r)) = Some (lower_char c).
Proof.
  intros Hc. destruct (split_ws_go_head c r [] Hc) as (w & ws & Hgo & Hw).
  rewrite (normalize_words _ w ws) by done. destruct w as [|d w]; [done|]. by injection Hw as ->.
Qed.

(** The CTE test is about WITH only. *)
Lemma select_has_no_cte t :
  stripped t -> leads_with t (lit "select") -> contains_data_modifying_cte_normalized (normalize t) = false.
Proof.
  intros Hst (c & a & Hs & He & _). unfold strip_token_separators in Hs. rewrite stripped_id in Hs by done.
  apply split_at_byte_Some in Hs as [-> _].
  apply keyword_candidate in He as [Hlow Hl]; [|by unfold is_keyword; by_eval].
  destruct c as [|x c]; [done|]. injection Hlow as Hx _. apply Forall_cons in Hl as [Hl _].
  assert (is_whitespace x = false) as Hw.
  { pose proof (letter_not_separator x (c ++ a) Hl) as Hn. unfold starts_with_token_separator in Hn.
    by apply orb_false_iff in Hn as [[? _]%orb_false_iff _]. }
  pose proof (normalize_head x (c ++ a) Hw) as Hh. cbn [app]. unfold contains_data_modifying_cte_normalized.
  destruct (normalize (x :: c ++ a)) as [|y n]; [done|]. injection Hh as ->.
  rewrite Hx. unfold starts_with, str_eqb. change (lit "with ") with [119; 105; 116; 104; 32].
  cbn [strip_prefix]. done.
Qed.

Lemma transaction_leads s :
  is_transaction_control s = true ->
  exists kw, kw ∈ ["begin"; "commit"; "rollback"; "abort"; "end"; "start"; "set"; "savepoint"; "release"]%string /\
    leads_with s (lit kw).
Proof.
  unfold is_transaction_control. rewrite !orb_true_iff. intros H.
  repeat destruct H as [H|H];
    first [apply starts_with_words_leads in H|apply exact_leads in H|apply followed_leads in H];
    eexists; (split; [|exact H]); apply (bool_decide_unpack _); vm_compute; exact I.
Qed.

Lemma mutation_leads s :
  is_session_mutation s = true ->
  exists kw, kw ∈ ["set"; "reset"; "discard"; "listen"; "unlisten"; "notify"; "lock"; "declare"]%string /\
    leads_with s (lit kw).
Proof.
  unfold is_session_mutation. intros (kw & Hin%list_elem_of_In & H%followed_leads)%existsb_exists. eauto.
Qed.

Lemma no_read_keywords s kws kw :
  kw ∈ kws -> leads_with s (lit kw) ->
  Forall (fun k => k ∈ other_keywords /\ Forall (fun k' => lit k <> lit k') read_keywords) kws ->
  ~ replica_read s.
Proof.
  intros Hin Hl Ha. rewrite Forall_forall in Ha. destruct (Ha _ Hin). by eapply no_read_keyword.
Qed.

Lemma transaction_no_read s : is_transaction_control s = true -> ~ replica_read s.
Proof. intros (kw & Hin & Hl)%transaction_leads. eapply no_read_keywords; [done|done|by_eval]. Qed.

Lemma mutation_no_read s : is_session_mutation s = true -> ~ replica_read s.
Proof. intros (kw & Hin & Hl)%mutation_leads. eapply no_read_keywords; [done|done|by_eval]. Qed.

Lemma replica_read_ext a b :
  strip_leading_comments_and_whitespace a = strip_leading_comments_and_whitespace b ->
  replica_read a -> replica_read b.
Proof.
  intros Heq H. destruct H as [s Hl H|s Hl|s Hl|s Hl|s Hl H H'|s rest Hl Ht H];
    [eapply read_select|eapply read_values|eapply read_table|eapply read_show|eapply read_copy|eapply read_explain];
    unfold leads_with, strip_token_separators in *; rewrite <- ?Heq; eassumption.
Qed.

Ltac one_keyword :=
  exfalso;
  match goal with
  | H : leads_with ?t ?a, H' : leads_with ?t ?b |- _ =>
      assert (a = b) as Habs by (eapply leads_with_unique; [..|exact H|exact H']; unfold is_keyword; by_eval);
      vm_compute in Habs; discriminate Habs
  end.

Lemma copy_read t :
  stripped t -> leads_with t (lit "copy") ->
  (replica_read t <-> contains_words t [lit "to"; lit "stdout"] = Some true /\
                      contains_words t [lit "from"; lit "stdin"] = Some false).
Proof.
  intros Hst Hl. split; [inversion 1; subst; try one_keyword; by rewrite stripped_id in *|].
  intros []. by apply read_copy; rewrite ?stripped_id.
Qed.

Lemma select_read t :
  stripped t -> leads_with t (lit "select") ->
  (replica_read t <-> contains_select_side_effects (normalize t) = false).
Proof.
  intros Hst Hl. split; [inversion 1; subst; try one_keyword; by rewrite stripped_id in *|].
  intros. by apply read_select; rewrite ?stripped_id.
Qed.

Lemma explain_read t :
  stripped t -> leads_with t (lit "explain") ->
  (replica_read t <-> exists rest, explain_target t = Some (inr rest) /\ replica_read rest).
Proof.
  intros Hst Hl. split; [inversion 1; subst; try one_keyword; rewrite stripped_id in *; eauto|].
  intros (rest & ? & ?). by eapply read_explain; rewrite ?stripped_id.
Qed.

Lemma classify_explain_read fuel t c :
  (forall s c, classify_single fuel s = Some c -> (routes_to_replica c = true <-> replica_read s)) ->
  stripped t -> keyword_is t "explain" = true ->
  (early ← explain_target t;
   match early with
   | inl c => Some c
   | inr rest =>
       target ← classify_single fuel rest;
       Some (if routes_to_replica target then ReadCandidate else UnknownClass)
   end) = Some c -> (routes_to_replica c = true <-> replica_read t).
Proof.
  intros IH Hst Hk. rewrite explain_read by (done || by apply keyword_is_leads).
  pose proof (explain_target_total t Hst Hk) as Hx.
  destruct (explain_target t) as [[c'|rest]|] eqn:Ht; [| |done]; cbn.
  - intros [= <-]. subst c'. split; [done|]. by intros (? & ? & _).
  - destruct (classify_single fuel rest) as [c'|] eqn:Hc; [|done]. cbn. intros [= <-].
    transitivity (replica_read rest); [rewrite <- (IH _ _ Hc); by destruct (routes_to_replica c')|].
    split; [by eauto|]. intros (? & ? & ?). by simplify_eq.
Qed.

Lemma classify_copy_read t c :
  stripped t -> leads_with t (lit "copy") -> classify_copy t = Some c ->
  (routes_to_replica c = true <-> replica_read t).
Proof.
  intros Hst Hl. rewrite copy_read by done. unfold classify_copy.
  destruct (contains_words t [lit "from"; lit "stdin"]) as [from|]; [|done]. cbn [mbind option_bind].
  destruct from; [intros [= <-]; split; [done|by intros [_ ?]]|].
  destruct (contains_words t [lit "to"; lit "stdout"]) as [to|]; [|done]. cbn [mbind option_bind]. intros [= <-].
  destruct to; split; try done. by intros [? _].
Qed.

(** A single statement is routed to a replica exactly when it is one of them. *)
Lemma classify_single_read fuel s c :
  classify_single fuel s = Some c -> (routes_to_replica c = true <-> replica_read s).
Proof.
  revert s c. induction fuel as [|fuel IH]; intros s c; [done|]. cbn [classify_single].
  pose proof (proj1 (strip_spec s)) as Hst.
  assert (replica_read s <-> replica_read (strip_leading_comments_and_whitespace s)) as ->
    by (split; apply replica_read_ext; rewrite strip_idemp; reflexivity).
  set (t := strip_leading_comments_and_whitespace s) in *. clearbody t. clear s.
  case_bool_decide as Hnil.
  { intros [= <-]. split; [done|]. subst t. intros (kw & Hin & c & a & Hs & He & _)%replica_read_leads.
    cbn in Hs. repeat (apply elem_of_cons in Hin as [->|Hin]; [done|]). by apply elem_of_nil in Hin. }
  destruct (keyword_is t "explain") eqn:He; [by apply classify_explain_read|].
  destruct (keyword_is t "with") eqn:Hw; [apply keyword_is_leads in Hw|].
  { intros [= <-]. split; [by destruct (contains_data_modifying_cte_normalized _)|].
    intros Hr. exfalso. revert Hr. eapply (no_read_keywords _ ["with"%string]); [|exact Hw|by_eval]. by constructor. }
  destruct (is_transaction_control t) eqn:Htc; [intros [= <-]; split; [done|by intros ?%transaction_no_read]|].
  destruct (is_session_mutation t) eqn:Hsm; [intros [= <-]; split; [done|by intros ?%mutation_no_read]|].
  destruct (keyword_is t "copy") eqn:Hco; [by apply classify_copy_read, keyword_is_leads|].
  destruct (keyword_is t "select") eqn:Hse; [apply keyword_is_leads in Hse|].
  { rewrite select_has_no_cte, select_read by done. cbn [orb]. intros [= <-].
    by destruct (contains_select_side_effects (normalize t)). }
  destruct (keyword_is t "values") eqn:Hva; [apply keyword_is_leads in Hva; intros [= <-]; split; [|done]; by constructor 2|].
  destruct (keyword_is t "table") eqn:Hta; [apply keyword_is_leads in Hta; intros [= <-]; split; [|done]; by constructor 3|].
  destruct (keyword_is t "show") eqn:Hsh; [apply keyword_is_leads in Hsh; intros [= <-]; split; [|done]; by constructor 4|].
  cbn [orb]. intros H. assert (routes_to_replica c = false) as -> by (destruct (is_write_statement t); by injection H as <-).
  split; [done|]. intros (kw & Hin & Hl)%replica_read_leads. exfalso. apply keyword_is_leads in Hl.
  repeat (apply elem_of_cons in Hin as [->|Hin]; [congruence|]). by apply elem_of_nil in Hin.
Qed.

Lemma transaction_strip s :
  is_transaction_control (strip_leading_comments_and_whitespace s) = is_transaction_control s.
Proof.
  unfold is_transaction_control, keyword_is_exact, keyword_is_followed_by_more. cbn [starts_with_words].
  unfold strip_token_separators. by rewrite !strip_idemp.
Qed.

Lemma transaction_keyword t kw :
  is_transaction_control t = true -> kw ∈ ["explain"; "with"]%string -> keyword_is t kw = false.
Proof.
  intros (kw' & Hin & Hl)%transaction_leads Hkw. apply not_true_is_false. intros Hk%keyword_is_leads.
  assert (Forall (fun k => Forall (fun k' => k ∈ other_keywords /\ k' ∈ other_keywords /\ lit k <> lit k')
    ["explain"; "with"]%string)
    ["begin"; "commit"; "rollback"; "abort"; "end"; "start"; "set"; "savepoint"; "release"]%string) as Ha by by_eval.
  rewrite Forall_forall in Ha. specialize (Ha _ Hin). rewrite Forall_forall in Ha.
  destruct (Ha _ Hkw) as (? & ? & ?). by apply (leads_excludes t kw' kw).
Qed.

Lemma classify_single_transaction fuel s c :
  classify_single fuel s = Some c -> (c = TransactionControl <-> is_transaction_control s = true).
Proof.
  destruct fuel as [|fuel]; [done|]. cbn [classify_single]. rewrite <- (transaction_strip s).
  pose proof (proj1 (strip_spec s)) as Hst.
  set (t := strip_leading_comments_and_whitespace s) in *. clearbody t. clear s.
  destruct (is_transaction_control t) eqn:Htc.
  - case_bool_decide; [by subst t|]. rewrite !transaction_keyword by (done || by_eval). by intros [= <-].
  - intros H. split; [|done]. intros ->. exfalso. revert H. case_bool_decide; [done|].
    destruct (keyword_is t "explain") eqn:Hk.
    { pose proof (explain_target_total t Hst Hk) as Hx. destruct (explain_target t) as [[c|rest]|]; cbn; [by subst c| |done].
      destruct (classify_single fuel rest) as [c|]; [|done]. cbn. by destruct (routes_to_replica c). }
    unfold classify_copy. repeat case_match; try done; intros H'.
    apply bind_Some in H' as (? & _ & H'). case_match; [done|]. apply bind_Some in H' as (? & _ & H'). by case_match.
Qed.

Lemma classify_multi_exact ss saw :
  exists c, classify_multi ss saw = Some c /\
    (routes_to_replica c = true <->
     Forall (fun st => replica_read st \/ is_transaction_control st = true) ss /\
     (saw = true \/ Exists replica_read ss)).
Proof.
  revert saw. induction ss as [|s ss IH]; intros saw; cbn [classify_multi].
  { exists (if saw then ReadCandidate else TransactionControl). split; [done|].
    rewrite Exists_nil. destruct saw; naive_solver. }
  setoid_rewrite Forall_cons. setoid_rewrite Exists_cons.
  destruct (classify_single_statement_total s) as [c Hc]. rewrite Hc. cbn [mbind option_bind].
  pose proof (classify_single_read _ _ _ Hc) as Hread. pose proof (classify_single_transaction _ _ _ Hc) as Htc.
  assert (~ (replica_read s /\ is_transaction_control s = true)) as Hno
    by (intros [Hr Ht]; by apply transaction_no_read in Ht).
  destruct (IH true) as (c1 & H1 & IH1), (IH saw) as (c2 & H2 & IH2).
  destruct c; cbn in Hread; [|exists c1|exists c1|exists c2|..];
    first [split; [done|]|eexists; split; [reflexivity|]]; cbn [routes_to_replica]; naive_solver.
Qed.
(** The texts a replica may run: reads, with transaction control among them. *)
Definition reads_only (sql : str) : Prop :=
  Forall (fun st => replica_read st \/ is_transaction_control st = true) (classified_texts sql) /\
  Exists replica_read (classified_texts sql).

Lemma classify_sql_exact sql :
  exists c, classify_sql sql = Some c /\ (routes_to_replica c = true <-> reads_only sql).
Proof.
  unfold reads_only, classify_sql, classified_texts, has_multiple_statements.
  set (t := strip_leading_comments_and_whitespace sql). case_bool_decide as Hnil.
  { exists UnknownClass. split; [done|]. rewrite Hnil. cbn. split; [done|]. intros [_ He].
    apply Exists_cons in He as [Hr|He%Exists_nil]; [|done].
    by apply (classify_single_read 1 [] UnknownClass eq_refl) in Hr. }
  destruct (1 <? length (split_top_level_statements t))%nat.
  - destruct (classify_multi_exact (split_top_level_statements t) false) as (c & Hc & Hiff).
    exists c. split; [done|]. rewrite Hiff. naive_solver.
  - destruct (classify_single_statement_total t) as [c Hc]. exists c. split; [done|].
    rewrite (classify_single_read _ _ _ Hc), Forall_singleton, Exists_cons, Exists_nil. naive_solver.
Qed.

Lemma analysis_reads_only sql a :
  analyze_sql sql = Some a -> routes_to_replica (an_query_class a) = true -> reads_only sql.
Proof.
  unfold analyze_sql. destruct (classify_sql_exact sql) as (c & -> & Hiff).
  cbn [mbind option_bind]. destruct (extract_routing_hint sql); [|done]. cbn [mbind option_bind].
  intros [= <-]. by rewrite <- Hiff.
Qed.
End ReplicaReads.

(** ** Facts: the statement splitter *)

Section SplitFacts.
(** The scanner's state after a text with no top-level semicolon. *)
Fixpoint scan_end (state : ScanState) (s : str) : option ScanState :=
  match s with
  | [] => Some state
  | ch :: rest =>
      if bool_decide (state = Normal) && (ch =? 59) then None
      else
        let '(state', two) := scan_step state ch (head rest) in
        match two, rest with
        | true, _ :: rest' => scan_end state' rest'
        | _, _ => scan_end state' rest
        end
  end.

(** A whole statement: quotes and comments closed, no top-level semicolon. *)
Definition closed_statement (s : str) : Prop :=
  scan_end Normal s = Some Normal /\ trimmed s /\ s <> [].

Lemma scan_step_semicolon st ch : scan_step st ch (Some 59) = scan_step st ch None.
Proof. destruct st; cbn; repeat (destruct (ch =? _); cbn; try done). Qed.

Lemma scan_step_two st ch next st' : scan_step st ch next = (st', true) -> is_Some next.
Proof.
  destruct next; [eauto|]. destruct st; cbn; repeat (destruct (ch =? _); cbn; try done).
Qed.

Lemma scan_statements_closed s state cur k b :
  scan_end state s = Some k ->
  (b = [] -> scan_statements state cur (s ++ b) = push_statement (reverse cur ++ s) []) /\
  (forall r, b = 59 :: r -> k = Normal ->
     scan_statements state cur (s ++ b)
     = push_statement (reverse cur ++ s) (scan_statements Normal [] r)).
Proof.
  revert state cur. induction s as [s IH] using (induction_ltof1 _ (@length Z)).
  unfold ltof in IH. intros state cur H. destruct s as [|ch rest]; cbn [scan_end] in H.
  { injection H as <-. split; [intros ->; cbn; by rewrite app_nil_r|].
    intros r -> ->. cbn. by rewrite app_nil_r. }
  destruct (bool_decide (state = Normal) && (ch =? 59)) eqn:Hsemi; [done|].
  destruct (scan_step state ch (head rest)) as [st two] eqn:Hstep.
  assert (Hstep' : b = [] \/ (exists r, b = 59 :: r) ->
            scan_step state ch (head (rest ++ b)) = (st, two)).
  { intros Hb. destruct rest as [|c' rest]; [|done]. cbn in *.
    destruct Hb as [->|[r ->]]; [done|]. by rewrite scan_step_semicolon. }
  assert (Hrev : forall x (l : str), reverse (x :: cur) ++ l = reverse cur ++ x :: l)
    by (intros x l; by rewrite reverse_cons, <- app_assoc).
  destruct two.
  - destruct rest as [|c' rest]; [by apply scan_step_two in Hstep as [? ?]|].
    destruct (IH rest ltac:(cbn; lia) st (c' :: ch :: cur) H) as [H1 H2].
    assert (Hrev' : reverse (c' :: ch :: cur) ++ rest = reverse cur ++ ch :: c' :: rest)
      by (rewrite reverse_cons, <- app_assoc, Hrev; done).
    cbn [app] in Hstep'. split.
    + intros ->. cbn [app scan_statements]. rewrite Hsemi, Hstep' by auto. cbn [app].
      rewrite H1 by done. by rewrite Hrev'.
    + intros r -> ->. cbn [app scan_statements]. rewrite Hsemi, Hstep' by eauto. cbn [app].
      rewrite (H2 r) by done. by rewrite Hrev'.
  - destruct (IH rest ltac:(cbn; lia) st (ch :: cur) H) as [H1 H2]. split.
    + intros ->. cbn [app scan_statements]. rewrite Hsemi, Hstep' by auto.
      rewrite H1 by done. by rewrite Hrev.
    + intros r -> ->. cbn [app scan_statements]. rewrite Hsemi, Hstep' by eauto.
      rewrite (H2 r) by done. by rewrite Hrev.
Qed.

Lemma push_closed s k : closed_statement s -> push_statement s k = s :: k.
Proof.
  intros (_ & Ht & Hne). unfold push_statement. rewrite trim_trimmed by done.
  by rewrite bool_decide_false.
Qed.
End SplitFacts.

(** ** Facts: the tokenizer *)

Section TokenFacts.
Lemma skip_block_length s r : skip_block s = Some r -> (length r < length s)%nat.
Proof.
  induction s as [|c s IH]; [done|]. cbn [skip_block length]. destruct (_ && _); intros Hr.
  - injection Hr as <-. rewrite length_drop. lia.
  - apply IH in Hr. lia.
Qed.

Lemma skip_quoted_length q s : (length (skip_quoted q s) <= length s)%nat.
Proof.
  induction s as [s IH] using (induction_ltof1 _ (@length Z)). unfold ltof in IH.
  destruct s as [|c s]; [done|]. cbn [skip_quoted length].
  destruct (c =? q); [|specialize (IH s ltac:(cbn; lia)); lia].
  destruct s as [|c' s]; [cbn; lia|]. destruct (c' =? q); [|lia].
  specialize (IH s ltac:(cbn; lia)). cbn. lia.
Qed.

Lemma trim_start_matches_length p s : (length (trim_start_matches p s) <= length s)%nat.
Proof.
  destruct (trim_start_matches_spec p s) as (pre & Hs & _). rewrite Hs at 2.
  rewrite length_app. lia.
Qed.

Lemma dollar_literal_pos s n : dollar_literal s = Some n -> (1 <= n)%nat.
Proof.
  unfold dollar_literal. destruct (find_char _ _) as [a|]; [|done]. cbn [mbind option_bind].
  destruct (find_str _ _) as [b|]; [|done]. cbn [mbind option_bind]. intros [= <-]. lia.
Qed.

Lemma word_len_pos ch s :
  is_word_char ch = true ->
  (1 <= default (length (ch :: s)) (find_char (fun c => negb (is_word_char c)) (ch :: s)))%nat.
Proof.
  intros H. unfold find_char. cbn [position]. rewrite H. cbn [negb].
  destruct (position _ s); cbn; unfold id; lia.
Qed.

Lemma tokenize_total fuel s : (length s < fuel)%nat -> is_Some (tokenize fuel s).
Proof.
  revert s. induction fuel as [|fuel IH]; intros s Hf; [lia|]. cbn [tokenize].
  destruct s as [|ch rest]; [eauto|]. cbn [length] in Hf.
  assert (Hgo : forall t r, (length r <= length rest)%nat ->
    is_Some (cons t <$> tokenize fuel r : option (list SqlToken))).
  { intros t r Hr. destruct (IH r) as [ts ->]; [lia|]. cbn. eauto. }
  destruct (is_whitespace ch); [apply IH; lia|].
  destruct (_ && _).
  { apply Hgo. destruct (find_char _ _); [rewrite !length_drop|cbn]; lia. }
  destruct (_ && _).
  { destruct (skip_block _) as [r|] eqn:Hs; [|eauto]. apply skip_block_length in Hs.
    rewrite length_drop in Hs. apply Hgo. lia. }
  destruct (_ || _); [apply Hgo, skip_quoted_length|].
  destruct (if ch =? 36 then dollar_literal (ch :: rest) else None) as [n|] eqn:Hd.
  { destruct (ch =? 36); [|done]. apply dollar_literal_pos in Hd. apply Hgo.
    rewrite length_drop. cbn [length]. lia. }
  destruct (is_ascii_digit ch); [apply Hgo, trim_start_matches_length|].
  destruct (is_word_char ch) eqn:Hw; [|apply Hgo; lia].
  apply Hgo. rewrite length_drop. pose proof (word_len_pos ch rest Hw).
  cbn [length] in *. lia.
Qed.

Lemma analyze_total s : is_Some (analyze_sql s).
Proof.
  unfold analyze_sql. destruct (classify_sql_total s) as [c ->]. cbn [mbind option_bind].
  destruct (extract_routing_hint_total s) as [h ->]. cbn. eauto.
Qed.
End TokenFacts.

(** ** The theorems of SQL classification *)

(** C40. Analysing a statement always succeeds: on every text the comment
    stripper, the splitter, the keyword tests, the recursion of [EXPLAIN],
    the hint reader and the tokenizer terminate within the model's fuel, and
    no string slice falls off a character boundary. *)
Theorem analyze_sql_total (sql : str) :
  is_Some (analyze_sql sql) /\ is_Some (strip_loop (S (length sql)) sql) /\
  is_Some (tokenize (S (length sql)) sql).
Proof.
  split_and!.
  - apply analyze_total.
  - destruct (strip_loop_spec (S (length sql)) sql) as (r & _ & -> & _); [lia|eauto].
  - apply tokenize_total. lia.
Qed.


(** Three texts that may run on a replica although docs/read-routing.md keeps
    COPY, mixed statements with transaction control, and advisory locks on
    the primary; the first one deletes rows. *)
Example copy_of_a_delete_is_a_read :
  classify_sql (lit "COPY (DELETE FROM t RETURNING *) TO STDOUT") = Some ReadCandidate.
Proof. vm_compute. reflexivity. Qed.

Example mixed_text_is_a_read : classify_sql (lit "BEGIN; SELECT 1; COMMIT") = Some ReadCandidate.
Proof. vm_compute. reflexivity. Qed.

Example transaction_lock_is_a_read :
  classify_sql (lit "SELECT pg_advisory_xact_lock(1)") = Some ReadCandidate.
Proof. vm_compute. reflexivity. Qed.

(** Splitting undoes joining: statements whose quotes and comments are
    closed and which hold no semicolon outside them, joined with semicolons,
    are split back into exactly those statements, in order, whatever
    semicolons their literals and comments hold. *)
Theorem split_join_statements (ss : list str) :
  Forall closed_statement ss -> split_top_level_statements (join [59] ss) = ss.
Proof.
  unfold split_top_level_statements. induction 1 as [|s ss Hs Hss IH]; [done|].
  pose proof Hs as (He & _). destruct ss as [|s' ss].
  - cbn [join]. rewrite <- (app_nil_r s) at 1.
    rewrite (proj1 (scan_statements_closed s Normal [] Normal [] He) eq_refl).
    by apply push_closed.
  - change (join [59] (s :: s' :: ss)) with (s ++ 59 :: join [59] (s' :: ss)).
    rewrite (proj2 (scan_statements_closed s Normal [] Normal (59 :: join [59] (s' :: ss)) He)
               (join [59] (s' :: ss)) eq_refl eq_refl).
    change (reverse [] ++ s) with s. rewrite push_closed by done.
    by rewrite IH.
Qed.

Lemma split_join_statements_witness :
  let ss := [lit "select ';'"; lit "/* ; */ update t set a = 'it''s'"] in
  split_top_level_statements (join [59] ss) = ss.
Proof.
  apply split_join_statements.
  repeat constructor; try by_eval; intros c [= <-]; reflexivity.
Defined.
