(* ===== verification/Fingerprint.v ===== *)
(** * Fingerprint: the shape of a query

    Models [pg-kinetic-core/src/fingerprint.rs]: literals become [?], IN lists
    collapse, comments vanish, and the text is cut at 256 bytes.
    [String::truncate] panics off a character boundary: [None]. *)

From S2P Require Import Prelude Text RoutingTypes Sql SqlClassify.

Definition MAX_FINGERPRINT_BYTES : Z := 256.

(** [append_token]. *)
Definition append_token (output token : str) : str :=
  let needs_space :=
    negb (bool_decide (output = [])) && negb (ends_with (lit "(") output)
    && negb (match token with c :: _ => (c =? 41) || (c =? 44) || (c =? 59) | [] => false end) in
  (if needs_space then output ++ [32] else output) ++ token.

Record FpState := { fp_output : str; in_list : bool; list_values : nat }.

(** One turn of the loop of [fingerprint_sql], before the length check. *)
Definition fp_token (st : FpState) (token : SqlToken) : FpState :=
  match token with
  | TComment => st
  | TLiteral =>
      {| fp_output :=
           if negb (in_list st) then append_token (fp_output st) (lit "?")
           else if (list_values st =? 0)%nat then append_token (fp_output st) (lit "?")
           else fp_output st;
         in_list := in_list st; list_values := S (list_values st) |}
  | TWord word =>
      {| fp_output := append_token (fp_output st) (to_ascii_lowercase word);
         in_list := in_list st; list_values := list_values st |}
  | TSymbol symbol =>
      if str_eqb symbol (lit "(") && ends_with (lit " in") (fp_output st) then
        {| fp_output := append_token (fp_output st) (lit "("); in_list := true; list_values := 0 |}
      else if in_list st && str_eqb symbol (lit ")") then
        {| fp_output := append_token (fp_output st) (lit ")"); in_list := false;
           list_values := list_values st |}
      else if in_list st && str_eqb symbol (lit ",") then
        {| fp_output := fp_output st; in_list := in_list st; list_values := S (list_values st) |}
      else
        {| fp_output := append_token (fp_output st) symbol; in_list := in_list st;
           list_values := list_values st |}
  end.

Fixpoint fp_loop (st : FpState) (tokens : list SqlToken) : option str :=
  match tokens with
  | [] => Some (fp_output st)
  | token :: rest =>
      let st' := fp_token st token in
      if MAX_FINGERPRINT_BYTES <=? str_len (fp_output st')
      then fst <$> split_at_byte MAX_FINGERPRINT_BYTES (fp_output st')
      else fp_loop st' rest
  end.

Definition fp_start : FpState := {| fp_output := []; in_list := false; list_values := 0 |}.

(** [fingerprint_sql]. *)
Definition fingerprint_sql (sql : str) : option str := fp_loop fp_start (tokenize_sql sql).

(** ** Facts *)

Section FingerprintFacts.
Lemma fp_loop_bound st tokens s :
  str_len (fp_output st) <= MAX_FINGERPRINT_BYTES -> fp_loop st tokens = Some s ->
  str_len s <= MAX_FINGERPRINT_BYTES.
Proof.
  revert st. induction tokens as [|t tokens IH]; intros st Hst H; cbn [fp_loop] in H.
  - by injection H as <-.
  - destruct (Z.leb_spec MAX_FINGERPRINT_BYTES (str_len (fp_output (fp_token st t)))).
    + destruct (split_at_byte _ _) as [[a b]|] eqn:Hs; [|done]. cbn in H. injection H as <-.
      apply split_at_byte_Some in Hs as [_ ->]. done.
    + eapply IH; [|done]. lia.
Qed.

Definition ascii (s : str) : Prop := Forall (fun c => c < 128) s.

Lemma ascii_lower s : ascii s -> ascii (to_ascii_lowercase s).
Proof.
  unfold ascii, to_ascii_lowercase. rewrite Forall_fmap. intros H.
  eapply Forall_impl; [done|]. intros c. cbn. apply lower_char_range.
Qed.

Lemma ascii_append o t : ascii o -> ascii t -> ascii (append_token o t).
Proof.
  intros Ho Ht. unfold append_token, ascii. apply Forall_app. split; [|done].
  case_match; [|done]. apply Forall_app. split; [done|]. constructor; [lia|done].
Qed.

Definition ascii_token (t : SqlToken) : Prop :=
  match t with TWord w => ascii w | TSymbol s => ascii s | _ => True end.

Lemma ascii_fp_token st t : ascii (fp_output st) -> ascii_token t -> ascii (fp_output (fp_token st t)).
Proof.
  intros Hs Ht. destruct t; cbn [fp_token]; repeat case_match; cbn [fp_output]; try done;
    apply ascii_append; try done; try (by apply ascii_lower); unfold ascii; by_eval.
Qed.

Lemma fp_loop_ascii st tokens :
  ascii (fp_output st) -> Forall ascii_token tokens -> is_Some (fp_loop st tokens).
Proof.
  intros Hs Ht. revert st Hs. induction Ht as [|t tokens Ht Hts IH]; intros st Hs;
    cbn [fp_loop]; [eauto|].
  pose proof (ascii_fp_token st t Hs Ht) as Ha.
  destruct (Z.leb_spec MAX_FINGERPRINT_BYTES (str_len (fp_output (fp_token st t)))) as [Hle|]; [|eauto].
  rewrite str_len_ascii in Hle by done.
  destruct (split_at_byte_ascii _ [] MAX_FINGERPRINT_BYTES Ha) as [[a b] Hab];
    [split; [done|exact Hle]|].
  rewrite app_nil_r in Hab. rewrite Hab. cbn. eauto.
Qed.

Lemma ascii_sub s t : (forall c, c ∈ t -> c ∈ s) -> ascii s -> ascii t.
Proof. unfold ascii. rewrite !Forall_forall. eauto. Qed.

Lemma elem_of_trim_start_matches p s c : c ∈ trim_start_matches p s -> c ∈ s.
Proof.
  intros H. destruct (trim_start_matches_spec p s) as (pre & Hs & _).
  rewrite Hs. apply elem_of_app. by right.
Qed.

Lemma skip_block_sub s r c : skip_block s = Some r -> c ∈ r -> c ∈ s.
Proof.
  induction s as [|d s IH]; [done|]. cbn [skip_block]. destruct (_ && _); intros Hr Hc; right; [|eauto].
  injection Hr as <-. by apply elem_of_drop_in in Hc.
Qed.

Lemma skip_quoted_sub q s c : c ∈ skip_quoted q s -> c ∈ s.
Proof.
  induction s as [s IH] using (induction_ltof1 _ (@length Z)). unfold ltof in IH.
  destruct s as [|d s]; [done|]. cbn [skip_quoted].
  destruct (d =? q); [|intros H; right; by apply IH; [cbn; lia|]].
  destruct s as [|d' s]; [intros H; by apply elem_of_nil in H|]. destruct (d' =? q); [|by right].
  intros H. right. right. apply IH; [cbn; lia|done].
Qed.

(** The tokens of an ASCII text are ASCII. *)
Lemma tokenize_ascii fuel s ts :
  ascii s -> tokenize fuel s = Some ts -> Forall ascii_token ts.
Proof.
  revert s ts. induction fuel as [|fuel IH]; intros s ts Hs H; [done|]. cbn [tokenize] in H.
  destruct s as [|ch rest]; [by injection H as <-|].
  assert (Hgo : forall t r ts', (forall c, c ∈ r -> c ∈ ch :: rest) -> ascii_token t ->
    (cons t <$> tokenize fuel r : option (list SqlToken)) = Some ts' -> Forall ascii_token ts').
  { intros t r ts' Hr Ht E. destruct (tokenize fuel r) as [ts0|] eqn:E0; [|done].
    cbn in E. injection E as <-. constructor; [done|]. eapply IH; [|done]. by eapply ascii_sub. }
  destruct (is_whitespace ch); [eapply IH; [|done]; by inversion Hs|].
  destruct (_ && _).
  { eapply (Hgo TComment); [|done|exact H]. intros c Hc. right.
    destruct (find_char _ _); [|by apply elem_of_nil in Hc]. by do 2 apply elem_of_drop_in in Hc. }
  destruct (_ && _).
  { destruct (skip_block _) as [r|] eqn:Hb; [|by injection H as <-].
    eapply (Hgo TComment); [|done|exact H]. intros c Hc. right.
    eapply skip_block_sub in Hc; [|done]. by apply elem_of_drop_in in Hc. }
  destruct (_ || _).
  { eapply (Hgo TLiteral); [|done|exact H]. intros c Hc. right. by eapply skip_quoted_sub. }
  destruct (if ch =? 36 then _ else _) as [n|].
  { eapply (Hgo TLiteral); [|done|exact H]. intros c Hc. by eapply elem_of_drop_in. }
  destruct (is_ascii_digit ch).
  { eapply (Hgo TLiteral); [|done|exact H]. intros c Hc. right. by eapply elem_of_trim_start_matches. }
  destruct (is_word_char ch).
  { eapply Hgo; [| |exact H]; [intros c Hc; by eapply elem_of_drop_in|].
    destruct (_ && _); [done|]. cbn. by apply Forall_take. }
  eapply Hgo; [| |exact H]; [by right|]. cbn. inversion Hs; subst. by constructor.
Qed.

(** States the rest of the loop cannot tell apart. *)
Definition fp_equiv (a b : FpState) : Prop :=
  fp_output a = fp_output b /\ in_list a = in_list b /\
  (in_list a = true -> (list_values a =? 0)%nat = (list_values b =? 0)%nat).

#[local] Instance fp_equiv_equivalence : Equivalence fp_equiv.
Proof.
  split; unfold fp_equiv.
  - by intros a.
  - intros a b (Ho & Hi & Hl). split_and!; [done|done|]. intros H. symmetry. apply Hl. congruence.
  - intros a b c (Ho & Hi & Hl) (Ho' & Hi' & Hl').
    split_and!; [congruence|congruence|]. intros H. rewrite Hl, Hl' by congruence. done.
Qed.

#[local] Instance fp_token_proper t : Proper (fp_equiv ==> fp_equiv) (fun st => fp_token st t).
Proof.
  intros [o i l] [o' i' l'] (Ho & Hi & Hl). cbn in *. subst o' i'.
  destruct t; cbn [fp_token fp_output in_list list_values]; try by split_and!.
  - destruct i; cbn [negb]; [rewrite Hl by done|]; by split_and!.
  - destruct (_ && _); [done|]. destruct i; cbn [andb]; [|done].
    repeat case_match; by split_and!.
Qed.

#[local] Instance fp_loop_proper tokens : Proper (fp_equiv ==> eq) (fun st => fp_loop st tokens).
Proof.
  induction tokens as [|t tokens IH]; intros a b Hab; cbn [fp_loop]; [by destruct Hab as [-> _]|].
  pose proof (fp_token_proper t a b Hab) as Ht. cbn in Ht.
  destruct Ht as (Ho & Ht). rewrite Ho. case_match; [done|]. apply IH. by split.
Qed.

(** Further elements of an IN list. *)
Definition more_values (n : nat) : list SqlToken :=
  mjoin (repeat [TSymbol (lit ","); TLiteral] n).

Lemma fp_more_values n post st :
  in_list st = true -> (1 <= list_values st)%nat ->
  str_len (fp_output st) < MAX_FINGERPRINT_BYTES ->
  fp_loop st (more_values n ++ post) = fp_loop st post.
Proof.
  intros Hi Hl Hlen. induction n as [|n IH]; [done|].
  change (more_values (S n)) with ([TSymbol (lit ","); TLiteral] ++ more_values n).
  rewrite <- app_assoc, <- IH. cbn [app fp_loop fp_token]. rewrite Hi.
  change (str_eqb (lit ",") (lit "(")) with false. change (str_eqb (lit ",") (lit ")")) with false.
  change (str_eqb (lit ",") (lit ",")) with true. cbn [andb negb fp_output in_list list_values].
  change (S (list_values st) =? 0)%nat with false. cbn match.
  rewrite (proj2 (Z.leb_gt _ _)) by done. apply fp_loop_proper.
  split_and!; [done|done|]. intros _. cbn. by destruct (list_values st); [lia|].
Qed.
End FingerprintFacts.

(** ** The theorems of fingerprints *)

(** Fingerprints are bounded and never fail on ASCII text: every
    fingerprint is at most 256 bytes long, and an ASCII statement always has
    one. *)
Theorem fingerprint_bounded (sql : str) :
  (forall s, fingerprint_sql sql = Some s -> str_len s <= MAX_FINGERPRINT_BYTES) /\
  (ascii sql -> is_Some (fingerprint_sql sql)).
Proof.
  unfold fingerprint_sql. split.
  - intros s. by apply fp_loop_bound.
  - intros Ha. apply fp_loop_ascii; [constructor|]. unfold tokenize_sql.
    destruct (tokenize (S (length sql)) sql) as [ts|] eqn:E; [|constructor].
    by eapply tokenize_ascii.
Qed.

Lemma fingerprint_bounded_witness : is_Some (fingerprint_sql (lit "SELECT 1 -- x")).
Proof. apply fingerprint_bounded. unfold ascii. by_eval. Defined.

(** The number of elements of an IN list does not show: from every state
    of the scan in which the text ends in [ in], an opening parenthesis, a
    literal and any number of further literals give the same fingerprint as
    the parenthesis and one literal, whatever follows. *)
Theorem fingerprint_in_list (st : FpState) (n : nat) (post : list SqlToken) :
  ends_with (lit " in") (fp_output st) = true ->
  fp_loop st ([TSymbol (lit "("); TLiteral] ++ more_values n ++ post)
  = fp_loop st ([TSymbol (lit "("); TLiteral] ++ post).
Proof.
  intros He. cbn [app fp_loop fp_token]. rewrite He.
  change (str_eqb (lit "(") (lit "(")) with true.
  cbn [andb fp_output in_list list_values negb Nat.eqb].
  destruct (Z.leb_spec MAX_FINGERPRINT_BYTES (str_len (append_token (fp_output st) (lit "("))));
    [done|].
  destruct (Z.leb_spec MAX_FINGERPRINT_BYTES
    (str_len (append_token (append_token (fp_output st) (lit "(")) (lit "?")))); [done|].
  by apply fp_more_values.
Qed.

Lemma fingerprint_in_list_witness :
  let st := fp_token (fp_token fp_start (TWord (lit "id"))) (TWord (lit "IN")) in
  fp_loop st ([TSymbol (lit "("); TLiteral] ++ more_values 2 ++ [TSymbol (lit ")")])
  = Some (lit "id in (?)").
Proof. cbv zeta. rewrite fingerprint_in_list; vm_compute; reflexivity. Defined.

(** A multi-byte symbol across byte 256 makes [String::truncate] panic. *)
Example fingerprint_panics :
  fingerprint_sql (repeat 97 254 ++ [233]) = None.
Proof. vm_compute. reflexivity. Qed.
