(* ===== verification/Session.v ===== *)
(** * Session: what the proxy knows of a client session

    Models [pg-kinetic-core/src/protocol/virtual_session.rs] (Module
    [Virtual]: transaction state, settings to replay, reasons to pin a
    backend, shard affinity) and [protocol/session.rs] (the transaction
    routing state both share, and Module [Events], the event-driven
    [SessionState]). A method is a function of the state before it; a
    [ShardId] is its text. *)

From stdpp Require Import sorting.
From S2P Require Import Prelude Text Lsn RoutingTypes Sql SqlClassify.


(** ** Transaction routing state *)

Record ReadRoutingTransactionState := {
  access_mode : TransactionAccessMode;
  rr_target_role : BackendRole;
  route_reason : RoutingReason;
  primary_forced : bool;
}.

(** [refresh]. *)
Definition refresh (s : ReadRoutingTransactionState) : ReadRoutingTransactionState :=
  if primary_forced s then
    {| access_mode := access_mode s; rr_target_role := Primary; route_reason := RWriteQuery;
       primary_forced := primary_forced s |}
  else
    match access_mode s with
    | ReadOnly =>
        {| access_mode := access_mode s; rr_target_role := Replica;
           route_reason := RReadOnlyQuery; primary_forced := primary_forced s |}
    | ReadWrite =>
        {| access_mode := access_mode s; rr_target_role := Primary;
           route_reason := RTransactionControl; primary_forced := primary_forced s |}
    end.

(** [ReadRoutingTransactionState::new], [set_access_mode], [force_primary]. *)
Definition rr_new (mode : TransactionAccessMode) : ReadRoutingTransactionState :=
  refresh {| access_mode := mode; rr_target_role := Primary;
             route_reason := RTransactionControl; primary_forced := false |}.

Definition set_access_mode (s : ReadRoutingTransactionState) (mode : TransactionAccessMode)
  : ReadRoutingTransactionState :=
  refresh {| access_mode := mode; rr_target_role := rr_target_role s;
             route_reason := route_reason s; primary_forced := primary_forced s |}.

Definition force_primary (s : ReadRoutingTransactionState) : ReadRoutingTransactionState :=
  refresh {| access_mode := access_mode s; rr_target_role := rr_target_role s;
             route_reason := route_reason s; primary_forced := true |}.

(** ** Shard affinity *)

Record TransactionShardState := {
  current_shard_id : ShardId;
  current_shard_route_reason : RoutingReason;
  cross_shard_violation : bool;
}.

Definition shard_new (id : ShardId) (r : RoutingReason) : TransactionShardState :=
  {| current_shard_id := id; current_shard_route_reason := r; cross_shard_violation := false |}.

Definition mark_cross_shard_violation (s : TransactionShardState) : TransactionShardState :=
  {| current_shard_id := current_shard_id s;
     current_shard_route_reason := current_shard_route_reason s;
     cross_shard_violation := true |}.

Definition set_current_shard_route_reason (s : TransactionShardState) (r : RoutingReason)
  : TransactionShardState :=
  {| current_shard_id := current_shard_id s; current_shard_route_reason := r;
     cross_shard_violation := cross_shard_violation s |}.

Inductive TransactionShardDecision := Accepted | Rejected | FollowMultiShardPolicy.

Inductive TransactionState := TxIdle | TxInTransaction | TxFailed.

#[global] Instance TransactionState_eq_dec : EqDecision TransactionState.
Proof. solve_decision. Defined.
#[global] Instance TransactionShardDecision_eq_dec : EqDecision TransactionShardDecision.
Proof. solve_decision. Defined.

(** The body of [apply_transaction_shard_affinity], the same in both session
    types: the new shard state and the decision. *)
Definition shard_affinity (transaction : TransactionState) (shard : option TransactionShardState)
  (id : option ShardId) (r : RoutingReason)
  : option TransactionShardState * TransactionShardDecision :=
  if negb (bool_decide (transaction = TxInTransaction)) then (shard, Accepted)
  else
    match id with
    | None => (shard, FollowMultiShardPolicy)
    | Some id =>
        match shard with
        | None => (Some (shard_new id r), Accepted)
        | Some t =>
            if str_eqb (current_shard_id t) id then
              (Some (if bool_decide (current_shard_route_reason t = RUnknownQuery)
                        && negb (bool_decide (r = RUnknownQuery))
                     then set_current_shard_route_reason t r else t), Accepted)
            else (Some (mark_cross_shard_violation t), Rejected)
        end
    end.

(** ** The virtual session *)

Module Virtual.

Inductive PinReason :=
| OpenTransaction | FailedTransaction | SessionStatePin | TempTable | AdvisoryLockPin
| CopyPin | ListenNotify | UnknownProtocolState.

#[global] Instance PinReason_eq_dec : EqDecision PinReason.
Proof. solve_decision. Defined.

Inductive ReadAfterWriteState := RawDisabled | RawRequired (l : PgLsn) | RawUnknown.

Record VirtualSession := {
  transaction : TransactionState;
  read_routing_transaction : option ReadRoutingTransactionState;
  transaction_shard : option TransactionShardState;
  read_after_write : ReadAfterWriteState;
  settings : gmap str str;
  has_unsafe_session_state : bool;
  has_temp_table : bool;
  has_advisory_lock : bool;
  in_copy : bool;
  has_listen : bool;
  unknown_protocol_state : bool;
}.

(** [VirtualSession::default]. *)
Definition fresh : VirtualSession :=
  {| transaction := TxIdle; read_routing_transaction := None; transaction_shard := None;
     read_after_write := RawDisabled; settings := ∅; has_unsafe_session_state := false;
     has_temp_table := false; has_advisory_lock := false; in_copy := false;
     has_listen := false; unknown_protocol_state := false |}.

(** Field assignments. *)
Definition with_tx (s : VirtualSession) (tx : TransactionState)
  (rr : option ReadRoutingTransactionState) (sh : option TransactionShardState) : VirtualSession :=
  {| transaction := tx; read_routing_transaction := rr; transaction_shard := sh;
     read_after_write := read_after_write s; settings := settings s;
     has_unsafe_session_state := has_unsafe_session_state s; has_temp_table := has_temp_table s;
     has_advisory_lock := has_advisory_lock s; in_copy := in_copy s; has_listen := has_listen s;
     unknown_protocol_state := unknown_protocol_state s |}.

Definition with_flags (s : VirtualSession) (st : gmap str str)
  (unsafe temp advisory copy listen unknown : bool) : VirtualSession :=
  {| transaction := transaction s; read_routing_transaction := read_routing_transaction s;
     transaction_shard := transaction_shard s; read_after_write := read_after_write s;
     settings := st; has_unsafe_session_state := unsafe; has_temp_table := temp;
     has_advisory_lock := advisory; in_copy := copy; has_listen := listen;
     unknown_protocol_state := unknown |}.

Definition with_raw (s : VirtualSession) (r : ReadAfterWriteState) : VirtualSession :=
  {| transaction := transaction s; read_routing_transaction := read_routing_transaction s;
     transaction_shard := transaction_shard s; read_after_write := r; settings := settings s;
     has_unsafe_session_state := has_unsafe_session_state s; has_temp_table := has_temp_table s;
     has_advisory_lock := has_advisory_lock s; in_copy := in_copy s; has_listen := has_listen s;
     unknown_protocol_state := unknown_protocol_state s |}.

Definition is_replayable_setting (key : str) : bool :=
  is_one_of key ["application_name"; "timezone"; "datestyle"; "search_path";
                 "extra_float_digits"]%string.

Definition begin_transaction (s : VirtualSession) (mode : TransactionAccessMode) : VirtualSession :=
  with_tx s TxInTransaction (Some (rr_new mode)) (transaction_shard s).

Definition end_transaction (s : VirtualSession) : VirtualSession := with_tx s TxIdle None None.

(** [get_or_insert_with] followed by the setter. *)
Definition set_transaction_access_mode (s : VirtualSession) (mode : TransactionAccessMode)
  : VirtualSession :=
  if negb (bool_decide (transaction s = TxInTransaction)) then s
  else
    let rr := default (rr_new mode) (read_routing_transaction s) in
    with_tx s (transaction s) (Some (set_access_mode rr mode)) (transaction_shard s).

Definition mark_transaction_write (s : VirtualSession) : VirtualSession :=
  if negb (bool_decide (transaction s = TxInTransaction)) then s
  else
    let rr := default (rr_new ReadWrite) (read_routing_transaction s) in
    with_tx s (transaction s) (Some (force_primary rr)) (transaction_shard s).

Definition set_flags (s : VirtualSession) (st : gmap str str)
  (unsafe : bool) : VirtualSession :=
  with_flags s st unsafe (has_temp_table s) (has_advisory_lock s) (in_copy s) (has_listen s)
    (unknown_protocol_state s).

Definition apply_set (s : VirtualSession) (scope : SetScope) (key value : str) : VirtualSession :=
  if bool_decide (scope = ScopeLocal) then s
  else if is_replayable_setting key then
    set_flags s (<[key := value]> (settings s)) (has_unsafe_session_state s)
  else set_flags s (settings s) true.

Definition clear_all (s : VirtualSession) : VirtualSession :=
  with_raw (with_flags (with_tx s TxIdle None None) ∅ false false false false false false)
    RawDisabled.

(** [apply_sql]. *)
Definition apply_sql (s : VirtualSession) (command : SqlCommand) : VirtualSession :=
  match command with
  | CmdBegin mode => begin_transaction s mode
  | CmdCommit | CmdRollback => end_transaction s
  | CmdSetTransaction mode => set_transaction_access_mode s mode
  | CmdSet scope key value => apply_set s scope key value
  | CmdReset key =>
      set_flags s (delete key (settings s))
        (if is_replayable_setting key then has_unsafe_session_state s else true)
  | CmdDiscardAll => clear_all s
  | CmdDiscardTemp =>
      with_flags s (settings s) (has_unsafe_session_state s) false (has_advisory_lock s)
        (in_copy s) (has_listen s) (unknown_protocol_state s)
  | CmdDiscardPlans => s
  | CmdCreateTemp =>
      with_flags s (settings s) (has_unsafe_session_state s) true (has_advisory_lock s)
        (in_copy s) (has_listen s) (unknown_protocol_state s)
  | CmdAdvisoryLock =>
      with_flags s (settings s) (has_unsafe_session_state s) (has_temp_table s) true
        (in_copy s) (has_listen s) (unknown_protocol_state s)
  | CmdAdvisoryUnlock =>
      with_flags s (settings s) (has_unsafe_session_state s) (has_temp_table s) false
        (in_copy s) (has_listen s) (unknown_protocol_state s)
  | CmdCopy =>
      with_flags s (settings s) (has_unsafe_session_state s) (has_temp_table s)
        (has_advisory_lock s) true (has_listen s) (unknown_protocol_state s)
  | CmdListen =>
      with_flags s (settings s) (has_unsafe_session_state s) (has_temp_table s)
        (has_advisory_lock s) (in_copy s) true (unknown_protocol_state s)
  | CmdUnlisten =>
      with_flags s (settings s) (has_unsafe_session_state s) (has_temp_table s)
        (has_advisory_lock s) (in_copy s) false (unknown_protocol_state s)
  | CmdQuery => s
  end.

(** [apply_transaction_command]. *)
Definition apply_transaction_command (s : VirtualSession) (command : SqlCommand) (is_write : bool)
  : VirtualSession :=
  let s :=
    match command with
    | CmdBegin mode => begin_transaction s mode
    | CmdCommit | CmdRollback => end_transaction s
    | CmdSetTransaction mode => set_transaction_access_mode s mode
    | _ => s
    end in
  if is_write then mark_transaction_write s else s.

(** The closure of [apply_transaction_sql_with_routing] on one statement;
    [None] when [classify] panics. *)
Definition apply_transaction_statement (track_routing_state : bool)
  (acc : VirtualSession * bool) (statement : str) : option (VirtualSession * bool) :=
  let '(s, committed) := acc in
  command ← classify statement;
  class ← classify_sql statement;
  let committed :=
    committed || (bool_decide (command = CmdCommit)
                  && match read_routing_transaction s with
                     | Some rr => primary_forced rr
                     | None => false
                     end) in
  Some (apply_transaction_command s command
          (track_routing_state && bool_decide (class = Write)), committed).

Fixpoint apply_statements (track_routing_state : bool) (acc : VirtualSession * bool)
  (statements : list str) : option (VirtualSession * bool) :=
  match statements with
  | [] => Some acc
  | st :: rest =>
      acc ← apply_transaction_statement track_routing_state acc st;
      apply_statements track_routing_state acc rest
  end.

(** [apply_transaction_sql_with_routing]: the session and whether a
    transaction that wrote was committed. *)
Definition apply_transaction_sql_with_routing (s : VirtualSession) (sql : str)
  (track_routing_state : bool) : option (VirtualSession * bool) :=
  apply_statements track_routing_state (s, false) (split_top_level_statements sql).

(** [apply_transaction_shard_affinity]. *)
Definition apply_transaction_shard_affinity (s : VirtualSession) (id : option ShardId)
  (r : RoutingReason) : VirtualSession * TransactionShardDecision :=
  let '(sh, decision) := shard_affinity (transaction s) (transaction_shard s) id r in
  (with_tx s (transaction s) (read_routing_transaction s) sh, decision).

Definition set_transaction_shard_affinity (s : VirtualSession) (id : ShardId) (r : RoutingReason)
  : VirtualSession :=
  with_tx s (transaction s) (read_routing_transaction s) (Some (shard_new id r)).

Definition mark_transaction_cross_shard_violation (s : VirtualSession) : VirtualSession :=
  with_tx s (transaction s) (read_routing_transaction s)
    (mark_cross_shard_violation <$> transaction_shard s).

Definition clear_transaction_shard_affinity (s : VirtualSession) : VirtualSession :=
  with_tx s (transaction s) (read_routing_transaction s) None.

Definition mark_ready_after_copy (s : VirtualSession) : VirtualSession :=
  with_flags s (settings s) (has_unsafe_session_state s) (has_temp_table s)
    (has_advisory_lock s) false (has_listen s) (unknown_protocol_state s).

Definition mark_failed_transaction (s : VirtualSession) : VirtualSession :=
  let s := mark_transaction_write s in
  with_tx s TxFailed (read_routing_transaction s) (transaction_shard s).

Definition mark_unknown_protocol_state (s : VirtualSession) : VirtualSession :=
  with_flags s (settings s) (has_unsafe_session_state s) (has_temp_table s)
    (has_advisory_lock s) (in_copy s) (has_listen s) true.

Definition set_read_after_write_required (s : VirtualSession) (l : PgLsn) : VirtualSession :=
  with_raw s (RawRequired l).
Definition set_read_after_write_unknown (s : VirtualSession) : VirtualSession :=
  with_raw s RawUnknown.
Definition clear_read_after_write (s : VirtualSession) : VirtualSession := with_raw s RawDisabled.

(** [pin_reason]. *)
Definition pin_reason (s : VirtualSession) : option PinReason :=
  if unknown_protocol_state s then Some UnknownProtocolState
  else if in_copy s then Some CopyPin
  else if bool_decide (transaction s = TxFailed) then Some FailedTransaction
  else if bool_decide (transaction s = TxInTransaction) then Some OpenTransaction
  else if has_temp_table s then Some TempTable
  else if has_advisory_lock s then Some AdvisoryLockPin
  else if has_listen s then Some ListenNotify
  else if has_unsafe_session_state s then Some SessionStatePin
  else None.

Definition current_transaction_target_role (s : VirtualSession) : option BackendRole :=
  rr_target_role <$> read_routing_transaction s.

(** The order of [BTreeMap<String, _>]: byte order of UTF-8, which is the
    order of the scalar values. *)
Fixpoint str_leb (a b : str) : bool :=
  match a, b with
  | [], _ => true
  | _ :: _, [] => false
  | x :: a, y :: b => (x <? y) || ((x =? y) && str_leb a b)
  end.

Definition entry_le (a b : str * str) : Prop := str_leb (fst a) (fst b) = true.

#[global] Instance entry_le_dec a b : Decision (entry_le a b).
Proof. unfold entry_le. apply _. Defined.

(** [replay_sql]. *)
Definition replay_sql (s : VirtualSession) : list str :=
  (fun '(key, value) => set_statement key value)
    <$> merge_sort entry_le (map_to_list (settings s)).

Definition has_replayable_settings (s : VirtualSession) : bool :=
  negb (bool_decide (settings s = ∅)).
End Virtual.

(** ** The event-driven session state *)

Module Events.

Inductive ClientEvent := SimpleQuery (sql : str) | ExtendedQuery | SyncEvent | ErrorEvent.

Inductive PinReason :=
| OpenTransaction | FailedTransaction | SessionStatePin | CopyPin | ListenNotify
| ExtendedQueryCycle | UnknownProtocolState.

#[global] Instance PinReason_eq_dec : EqDecision PinReason.
Proof. solve_decision. Defined.

Record SessionState := {
  transaction : TransactionState;
  read_routing_transaction : option ReadRoutingTransactionState;
  transaction_shard : option TransactionShardState;
  pin_reason : option PinReason;
  in_extended_cycle : bool;
}.

Definition fresh : SessionState :=
  {| transaction := TxIdle; read_routing_transaction := None; transaction_shard := None;
     pin_reason := None; in_extended_cycle := false |}.

Definition with_pin (s : SessionState) (p : option PinReason) : SessionState :=
  {| transaction := transaction s; read_routing_transaction := read_routing_transaction s;
     transaction_shard := transaction_shard s; pin_reason := p;
     in_extended_cycle := in_extended_cycle s |}.

Definition with_rr (s : SessionState) (rr : ReadRoutingTransactionState) : SessionState :=
  {| transaction := transaction s; read_routing_transaction := Some rr;
     transaction_shard := transaction_shard s; pin_reason := pin_reason s;
     in_extended_cycle := in_extended_cycle s |}.

Definition begin_transaction (s : SessionState) (mode : TransactionAccessMode) : SessionState :=
  {| transaction := TxInTransaction; read_routing_transaction := Some (rr_new mode);
     transaction_shard := transaction_shard s; pin_reason := Some OpenTransaction;
     in_extended_cycle := in_extended_cycle s |}.

Definition end_transaction (s : SessionState) : SessionState :=
  {| transaction := TxIdle; read_routing_transaction := None; transaction_shard := None;
     pin_reason := match pin_reason s with
                   | Some OpenTransaction | Some FailedTransaction => None
                   | p => p
                   end;
     in_extended_cycle := in_extended_cycle s |}.

Definition set_transaction_access_mode (s : SessionState) (mode : TransactionAccessMode)
  : SessionState :=
  if negb (bool_decide (transaction s = TxInTransaction)) then s
  else with_rr s (set_access_mode (default (rr_new mode) (read_routing_transaction s)) mode).

Definition mark_transaction_write (s : SessionState) : SessionState :=
  if negb (bool_decide (transaction s = TxInTransaction)) then s
  else with_rr s (force_primary (default (rr_new ReadWrite) (read_routing_transaction s))).

(** [normalize_sql]. *)
Definition normalize_sql (sql : str) : str := normalize (trim_end_matches (Z.eqb 59) (trim sql)).

(** [apply_simple_query]. *)
Definition apply_simple_query (s : SessionState) (sql : str) : option SessionState :=
  let n := normalize_sql sql in
  let s :=
    if is_one_of n ["begin"; "start transaction"]%string then begin_transaction s ReadWrite
    else if is_one_of n ["begin read only"; "start transaction read only"]%string
    then begin_transaction s ReadOnly
    else if is_one_of n ["begin read write"; "start transaction read write"]%string
    then begin_transaction s ReadWrite
    else if is_one_of n ["commit"; "rollback"]%string then end_transaction s
    else if starts_with (lit "set transaction read only") n
    then set_transaction_access_mode s ReadOnly
    else if starts_with (lit "set transaction read write") n
    then set_transaction_access_mode s ReadWrite
    else if starts_with (lit "set ") n then with_pin s (Some SessionStatePin)
    else if starts_with (lit "copy ") n then with_pin s (Some CopyPin)
    else if starts_with (lit "listen ") n || starts_with (lit "unlisten ") n
    then with_pin s (Some ListenNotify)
    else s in
  class ← classify_sql sql;
  Some (if bool_decide (class = Write) then mark_transaction_write s else s).

(** [SessionState::apply]. *)
Definition apply (s : SessionState) (event : ClientEvent) : option SessionState :=
  match event with
  | SimpleQuery sql => apply_simple_query s sql
  | ExtendedQuery =>
      Some {| transaction := transaction s;
              read_routing_transaction := read_routing_transaction s;
              transaction_shard := transaction_shard s;
              pin_reason := match pin_reason s with
                            | None => Some ExtendedQueryCycle
                            | p => p
                            end;
              in_extended_cycle := true |}
  | SyncEvent =>
      Some {| transaction := transaction s;
              read_routing_transaction := read_routing_transaction s;
              transaction_shard := transaction_shard s;
              pin_reason := if bool_decide (pin_reason s = Some ExtendedQueryCycle)
                            then None else pin_reason s;
              in_extended_cycle := false |}
  | ErrorEvent =>
      if bool_decide (transaction s = TxInTransaction) then
        let s := mark_transaction_write s in
        Some {| transaction := TxFailed;
                read_routing_transaction := read_routing_transaction s;
                transaction_shard := transaction_shard s;
                pin_reason := Some FailedTransaction;
                in_extended_cycle := in_extended_cycle s |}
      else Some (with_pin s (Some UnknownProtocolState))
  end.

(** [apply_transaction_shard_affinity]. *)
Definition apply_transaction_shard_affinity (s : SessionState) (id : option ShardId)
  (r : RoutingReason) : SessionState * TransactionShardDecision :=
  let '(sh, decision) := shard_affinity (transaction s) (transaction_shard s) id r in
  ({| transaction := transaction s; read_routing_transaction := read_routing_transaction s;
      transaction_shard := sh; pin_reason := pin_reason s;
      in_extended_cycle := in_extended_cycle s |}, decision).
End Events.

(** ** Facts *)

Section RoutingStateFacts.
(** The routing state agrees with its access mode and write flag. *)
Definition refreshed (rr : ReadRoutingTransactionState) : Prop := refresh rr = rr.

Lemma refresh_refreshed rr : refreshed (refresh rr).
Proof. destruct rr as [[] t r []]; done. Qed.

Lemma rr_new_refreshed mode : refreshed (rr_new mode).
Proof. apply refresh_refreshed. Qed.
Lemma set_access_mode_refreshed rr mode : refreshed (set_access_mode rr mode).
Proof. apply refresh_refreshed. Qed.
Lemma force_primary_refreshed rr : refreshed (force_primary rr).
Proof. apply refresh_refreshed. Qed.

Lemma refreshed_forced rr : refreshed rr -> primary_forced rr = true -> rr_target_role rr = Primary.
Proof. destruct rr as [[] t r []]; unfold refreshed; cbn; intros [=] ?; done. Qed.
End RoutingStateFacts.

#[export] Hint Resolve rr_new_refreshed set_access_mode_refreshed force_primary_refreshed : pgk.

Module VirtualFacts.
Import Virtual.

(** Every method that changes a virtual session, as one operation. *)
Inductive op :=
| OpSql (command : SqlCommand)
| OpTransactionCommand (command : SqlCommand) (is_write : bool)
| OpShardAffinity (id : option ShardId) (r : RoutingReason)
| OpSetShard (id : ShardId) (r : RoutingReason)
| OpMarkViolation
| OpClearShard
| OpReadyAfterCopy
| OpFailed
| OpUnknown
| OpWrite
| OpRaw (r : ReadAfterWriteState).

Definition run (s : VirtualSession) (o : op) : VirtualSession :=
  match o with
  | OpSql command => apply_sql s command
  | OpTransactionCommand command is_write => apply_transaction_command s command is_write
  | OpShardAffinity id r => fst (apply_transaction_shard_affinity s id r)
  | OpSetShard id r => set_transaction_shard_affinity s id r
  | OpMarkViolation => mark_transaction_cross_shard_violation s
  | OpClearShard => clear_transaction_shard_affinity s
  | OpReadyAfterCopy => mark_ready_after_copy s
  | OpFailed => mark_failed_transaction s
  | OpUnknown => mark_unknown_protocol_state s
  | OpWrite => mark_transaction_write s
  | OpRaw r => with_raw s r
  end.

Definition wf (s : VirtualSession) : Prop :=
  match transaction s, read_routing_transaction s with
  | TxIdle, None => True
  | TxIdle, Some _ => False
  | TxInTransaction, None => False
  | TxFailed, None => True
  | _, Some rr => refreshed rr
  end /\
  map_Forall (fun k _ => is_replayable_setting k = true) (settings s).

Lemma wf_tx s tx rr sh :
  wf s ->
  match tx, rr with
  | TxIdle, None => True
  | TxIdle, Some _ => False
  | TxInTransaction, None => False
  | TxFailed, None => True
  | _, Some rr => refreshed rr
  end -> wf (with_tx s tx rr sh).
Proof. intros [_ Hs] H. by split. Qed.

Lemma wf_flags s st a b c d e f :
  wf s -> map_Forall (fun k _ => is_replayable_setting k = true) st ->
  wf (with_flags s st a b c d e f).
Proof. intros [Ht _] H. by split. Qed.

Lemma wf_begin s mode : wf s -> wf (begin_transaction s mode).
Proof. intros H. apply wf_tx; auto with pgk. Qed.

Lemma wf_end s : wf s -> wf (end_transaction s).
Proof. intros H. by apply wf_tx. Qed.

Lemma wf_access_mode s mode : wf s -> wf (set_transaction_access_mode s mode).
Proof.
  intros H. unfold set_transaction_access_mode. case_bool_decide as E; cbn [negb]; [|done].
  rewrite E. apply wf_tx; auto with pgk.
Qed.

Lemma wf_write s : wf s -> wf (mark_transaction_write s).
Proof.
  intros H. unfold mark_transaction_write. case_bool_decide as E; cbn [negb]; [|done].
  rewrite E. apply wf_tx; auto with pgk.
Qed.

Lemma wf_shard s sh :
  wf s -> wf (with_tx s (transaction s) (read_routing_transaction s) sh).
Proof. intros H. apply wf_tx; [done|]. by destruct H. Qed.

Lemma wf_apply_sql s command : wf s -> wf (apply_sql s command).
Proof.
  intros H. pose proof (proj2 H) as Hs. destruct command; cbn [apply_sql];
    auto using wf_begin, wf_end, wf_access_mode, wf_flags.
  - unfold apply_set. repeat case_match; [done| |].
    + apply wf_flags; [done|]. by apply map_Forall_insert_2.
    + by apply wf_flags.
  - apply wf_flags; [done|]. by apply map_Forall_delete.
  - split; [done|]. apply map_Forall_empty.
Qed.

Lemma wf_run s o : wf s -> wf (run s o).
Proof.
  intros H. destruct o; cbn [run]; auto using wf_apply_sql, wf_write, wf_shard.
  - unfold apply_transaction_command.
    assert (wf (match command with
                | CmdBegin mode => begin_transaction s mode
                | CmdCommit | CmdRollback => end_transaction s
                | CmdSetTransaction mode => set_transaction_access_mode s mode
                | _ => s
                end)) by (destruct command; auto using wf_begin, wf_end, wf_access_mode).
    destruct is_write; auto using wf_write.
  - unfold apply_transaction_shard_affinity.
    destruct (shard_affinity _ _ _ _) as [sh d]. by apply wf_shard.
  - pose proof (wf_write s H) as Hw. unfold mark_failed_transaction. apply wf_tx; [done|].
    destruct Hw as [Ht _]. by repeat case_match.
Qed.

(** ** Writes keep a transaction on the primary *)

Definition forced (s : VirtualSession) : Prop :=
  exists rr, read_routing_transaction s = Some rr /\ refreshed rr /\ primary_forced rr = true.

(** The commands that start or end a transaction, or discard the session. *)
Definition transaction_boundary (command : SqlCommand) : bool :=
  match command with
  | CmdBegin _ | CmdCommit | CmdRollback | CmdDiscardAll => true
  | _ => false
  end.

Definition keeps_transaction (o : op) : bool :=
  match o with
  | OpSql command | OpTransactionCommand command _ => negb (transaction_boundary command)
  | _ => true
  end.

Lemma set_access_mode_forced rr mode :
  primary_forced rr = true -> primary_forced (set_access_mode rr mode) = true.
Proof. destruct rr as [[] t r []], mode; done. Qed.

Lemma force_primary_forced rr : primary_forced (force_primary rr) = true.
Proof. destruct rr as [[] t r []]; done. Qed.

Lemma forced_access_mode s mode : forced s -> forced (set_transaction_access_mode s mode).
Proof.
  intros (rr & Hrr & Hr & Hf). unfold set_transaction_access_mode.
  case_bool_decide; cbn [negb]; [|by exists rr]. rewrite Hrr.
  eexists. split; [done|]. split; [apply set_access_mode_refreshed|by apply set_access_mode_forced].
Qed.

Lemma forced_write s : forced s -> forced (mark_transaction_write s).
Proof.
  intros (rr & Hrr & Hr & Hf). unfold mark_transaction_write.
  case_bool_decide; cbn [negb]; [|by exists rr].
  eexists. split; [done|]. split; [apply force_primary_refreshed|apply force_primary_forced].
Qed.

Lemma forced_run s o : forced s -> keeps_transaction o = true -> forced (run s o).
Proof.
  intros H Hk. destruct o; cbn [run keeps_transaction] in *; auto using forced_write.
  - destruct command; cbn in *; auto using forced_access_mode; try discriminate.
    unfold apply_set. by repeat case_match.
  - assert (forced (match command with
                    | CmdBegin mode => begin_transaction s mode
                    | CmdCommit | CmdRollback => end_transaction s
                    | CmdSetTransaction mode => set_transaction_access_mode s mode
                    | _ => s
                    end)) by (destruct command; cbn in *; auto using forced_access_mode; discriminate).
    unfold apply_transaction_command. destruct is_write; auto using forced_write.
  - unfold apply_transaction_shard_affinity. by destruct (shard_affinity _ _ _ _).
  - by apply (forced_write s) in H.
Qed.

Lemma forced_target s : forced s -> current_transaction_target_role s = Some Primary.
Proof.
  intros (rr & Hrr & Hr & Hf). unfold current_transaction_target_role. rewrite Hrr. cbn.
  by rewrite refreshed_forced.
Qed.

(** ** Replaying the settings *)

Lemma replayable_plain k :
  is_replayable_setting k = true -> plain_key k /\ to_ascii_lowercase k = k.
Proof.
  unfold is_replayable_setting, is_one_of. rewrite existsb_exists. intros (a & Ha & Heq).
  unfold str_eqb in Heq. apply bool_decide_eq_true in Heq as ->.
  assert (Hall : Forall (fun a => (lit a <> [] /\ no_ws (lit a) /\ ~ (61 ∈ lit a) /\
    to_ascii_lowercase (lit a) <> lit "local") /\ to_ascii_lowercase (lit a) = lit a)
    ["application_name"; "timezone"; "datestyle"; "search_path"; "extra_float_digits"]%string)
    by (unfold no_ws; by_eval).
  rewrite Forall_forall in Hall. apply Hall. by apply list_elem_of_In.
Qed.

(** The proxy sends the statements one by one; each is classified and
    applied as any other. *)
Fixpoint replay (s : VirtualSession) (statements : list str) : option VirtualSession :=
  match statements with
  | [] => Some s
  | sql :: rest => command ← classify sql; replay (apply_sql s command) rest
  end.

Lemma replay_entries s l :
  Forall (fun p => is_replayable_setting (fst p) = true /\ plain_value (snd p)) l ->
  replay s ((fun '(key, value) => set_statement key value) <$> l)
  = Some (set_flags s (fold_left (fun m p => <[fst p := snd p]> m) l (settings s))
            (has_unsafe_session_state s)).
Proof.
  intros Hl. revert s. induction Hl as [|[k v] l [Hk Hv] Hl IH]; intros s; [by destruct s|].
  destruct (replayable_plain k Hk) as [Hp Hlow]. cbn [fmap list_fmap replay fst snd] in *.
  rewrite classify_set_aux, Hlow by done. cbn [mbind option_bind apply_sql].
  unfold apply_set. rewrite bool_decide_false, Hk by done. rewrite IH. done.
Qed.

Lemma fold_insert (l : list (str * str)) (m : gmap str str) :
  NoDup l.*1 ->
  fold_left (fun m p => <[fst p := snd p]> m) l m = list_to_map l ∪ m.
Proof.
  revert m. induction l as [|[k v] l IH]; intros m Hnd; [by rewrite left_id_L by apply _|].
  cbn in Hnd. apply NoDup_cons in Hnd as [Hk Hnd]. cbn [fold_left fst snd].
  rewrite IH by done. cbn. rewrite <- insert_union_l, insert_union_r; [done|].
  by apply not_elem_of_list_to_map_1.
Qed.

Lemma fold_settings (m : gmap str str) :
  fold_left (fun m p => <[fst p := snd p]> m) (merge_sort entry_le (map_to_list m)) ∅ = m.
Proof.
  assert (Hp : merge_sort entry_le (map_to_list m) ≡ₚ map_to_list m) by apply merge_sort_Permutation.
  assert (Hnd : NoDup (merge_sort entry_le (map_to_list m)).*1)
    by (rewrite Hp; apply NoDup_fst_map_to_list).
  rewrite fold_insert, right_id_L by (done || apply _).
  rewrite (list_to_map_proper _ (map_to_list m)) by done. apply list_to_map_to_list.
Qed.
End VirtualFacts.

(** ** Facts: shard affinity and events *)

Section AffinityFacts.
(** A sequence of affinity requests inside one transaction. *)
Fixpoint requests (shard : option TransactionShardState)
  (rs : list (option ShardId * RoutingReason)) : option TransactionShardState :=
  match rs with
  | [] => shard
  | (id, r) :: rs => requests (fst (shard_affinity TxInTransaction shard id r)) rs
  end.

Lemma shard_affinity_keeps t id r :
  exists t', fst (shard_affinity TxInTransaction (Some t) id r) = Some t' /\
    current_shard_id t' = current_shard_id t /\
    (cross_shard_violation t = true -> cross_shard_violation t' = true).
Proof.
  unfold shard_affinity. rewrite bool_decide_true by done. cbn [negb].
  destruct id as [id|]; [|by exists t].
  destruct (str_eqb (current_shard_id t) id); cbn [fst].
  - eexists. split; [done|]. by destruct (_ && _).
  - eexists. by split.
Qed.

Lemma requests_keep t rs :
  exists t', requests (Some t) rs = Some t' /\ current_shard_id t' = current_shard_id t /\
    (cross_shard_violation t = true -> cross_shard_violation t' = true).
Proof.
  revert t. induction rs as [|[id r] rs IH]; intros t; [by exists t|]. cbn [requests].
  destruct (shard_affinity_keeps t id r) as (t1 & -> & Hid & Hv).
  destruct (IH t1) as (t2 & -> & Hid2 & Hv2). exists t2. rewrite Hid2, Hid. auto.
Qed.
End AffinityFacts.

Module EventFacts.
Import Events.

(** A session in a transaction is pinned for longer than an extended cycle. *)
Definition pinned_in_transaction (s : SessionState) : Prop :=
  transaction s <> TxIdle -> pin_reason s <> None /\ pin_reason s <> Some ExtendedQueryCycle.

Definition event_wf (s : SessionState) : Prop :=
  pinned_in_transaction s /\
  (transaction s = TxIdle -> read_routing_transaction s = None).

Lemma event_wf_write s : event_wf s -> event_wf (mark_transaction_write s).
Proof.
  intros [Hp Hi]. unfold mark_transaction_write. case_bool_decide as E; cbn [negb]; [|done].
  split; [exact Hp|]. cbn. congruence.
Qed.

Lemma event_wf_query s sql s' : event_wf s -> apply_simple_query s sql = Some s' -> event_wf s'.
Proof.
  intros H Hs. pose proof H as [Hp Hi]. unfold apply_simple_query in Hs.
  destruct (classify_sql sql) as [c|]; [|done]. cbn [mbind option_bind] in Hs.
  injection Hs as <-.
  match goal with |- event_wf (if _ then mark_transaction_write ?x else _) =>
    assert (Hx : event_wf x) end.
  { unfold set_transaction_access_mode. repeat case_match; try exact H;
      (split; [unfold pinned_in_transaction in *; cbn in *|cbn in *]); try done; try (by auto).
    all: bool_to_prop; repeat (select (bool_decide _ = true) (fun H => apply bool_decide_eq_true in H));
      congruence. }
  case_bool_decide; [by apply event_wf_write|done].
Qed.

Lemma event_wf_apply s e s' : event_wf s -> apply s e = Some s' -> event_wf s'.
Proof.
  intros H Hs. destruct e; cbn [apply] in Hs; [by eapply event_wf_query| | |];
    destruct H as [Hp Hi].
  - injection Hs as <-. split; [|exact Hi]. intros Ht. cbn in Ht. destruct (Hp Ht) as [H1 H2]. cbn.
    by destruct (pin_reason s).
  - injection Hs as <-. split; [|exact Hi]. intros Ht. cbn in Ht. destruct (Hp Ht) as [H1 H2]. cbn.
    by rewrite bool_decide_false.
  - case_bool_decide as E; injection Hs as <-.
    + split; [by split|done].
    + split; [|exact Hi]. by split.
Qed.

Lemma apply_total s e : is_Some (apply s e).
Proof.
  destruct e; cbn [apply]; [|eauto|eauto|case_match; eauto].
  unfold apply_simple_query. destruct (classify_sql_total sql) as [c ->]. cbn. eauto.
Qed.

Fixpoint apply_all (s : SessionState) (es : list ClientEvent) : option SessionState :=
  match es with
  | [] => Some s
  | e :: es => s' ← apply s e; apply_all s' es
  end.
End EventFacts.

(** ** The theorems of sessions *)

(** C22. The session's transaction bookkeeping is consistent in every
    reachable state: from a fresh session and by any sequence of the
    session's operations, an idle session has no transaction routing state,
    an open transaction has one, that state always agrees with its access
    mode and write flag, an open or failed transaction pins its backend, and
    only replayable settings are kept for replay. *)
Theorem virtual_session_invariant (s : Virtual.VirtualSession) :
  Reachable (fun s t => exists o, t = VirtualFacts.run s o) (eq Virtual.fresh) s ->
  (Virtual.transaction s = TxIdle -> Virtual.read_routing_transaction s = None) /\
  (Virtual.transaction s = TxInTransaction -> is_Some (Virtual.read_routing_transaction s)) /\
  (forall rr, Virtual.read_routing_transaction s = Some rr -> refresh rr = rr) /\
  (Virtual.transaction s <> TxIdle -> is_Some (Virtual.pin_reason s)) /\
  map_Forall (fun k _ => Virtual.is_replayable_setting k = true) (Virtual.settings s).
Proof.
  intros Hr. assert (H : VirtualFacts.wf s).
  { revert s Hr. apply reachable_invariant.
    - intros s <-. split; [done|apply map_Forall_empty].
    - intros s t H [o ->]. by apply VirtualFacts.wf_run. }
  destruct H as [Ht Hs]. split_and!; [..|done].
  - intros E. rewrite E in Ht. by case_match.
  - intros E. rewrite E in Ht. case_match; [eauto|done].
  - intros rr E. rewrite E in Ht. by case_match.
  - intros E. unfold Virtual.pin_reason. destruct (Virtual.transaction s); [done| |];
      repeat (case_match; [eauto|]); done.
Qed.

Lemma virtual_session_invariant_witness :
  let s := VirtualFacts.run Virtual.fresh (VirtualFacts.OpSql (CmdBegin ReadOnly)) in
  is_Some (Virtual.pin_reason s).
Proof.
  cbv zeta. eapply (virtual_session_invariant _); [|done].
  eapply reach_step; [by apply reach_init|]. eauto.
Defined.

(** A transaction that has written stays on the primary: once a write
    is marked in an open transaction, its target stays [Primary] through
    every further operation, [SET TRANSACTION READ ONLY] and failures
    included, until a command begins or ends a transaction or discards the
    session. *)
Theorem write_sticks_to_primary (s : Virtual.VirtualSession) (os : list VirtualFacts.op) :
  Virtual.transaction s = TxInTransaction ->
  Forall (fun o => VirtualFacts.keeps_transaction o = true) os ->
  Virtual.current_transaction_target_role
    (fold_left VirtualFacts.run os (Virtual.mark_transaction_write s)) = Some Primary.
Proof.
  intros Ht Hos. apply VirtualFacts.forced_target.
  assert (Hf : VirtualFacts.forced (Virtual.mark_transaction_write s)).
  { unfold Virtual.mark_transaction_write. rewrite bool_decide_true by done. cbn [negb].
    eexists. split; [done|].
    split; [apply force_primary_refreshed|apply VirtualFacts.force_primary_forced]. }
  revert Hf. generalize (Virtual.mark_transaction_write s).
  induction Hos as [|o os Ho Hos IH]; intros s0 Hf; [done|].
  cbn [fold_left]. apply IH. by apply VirtualFacts.forced_run.
Qed.

Lemma write_sticks_to_primary_witness :
  let s := Virtual.begin_transaction Virtual.fresh ReadOnly in
  Virtual.current_transaction_target_role
    (fold_left VirtualFacts.run
       [VirtualFacts.OpSql (CmdSetTransaction ReadOnly); VirtualFacts.OpFailed]
       (Virtual.mark_transaction_write s)) = Some Primary.
Proof. cbv zeta. apply write_sticks_to_primary; [done|repeat constructor]. Defined.

(** Replaying an unpinned session's settings statements into a fresh session
    gives the proxy's own record of it back, shard affinity and
    read-after-write position aside. *)
Lemma replay_rebuilds_bookkeeping (s : Virtual.VirtualSession) :
  VirtualFacts.wf s -> Virtual.pin_reason s = None ->
  map_Forall (fun _ v => plain_value v) (Virtual.settings s) ->
  VirtualFacts.replay Virtual.fresh (Virtual.replay_sql s)
  = Some (Virtual.clear_read_after_write (Virtual.clear_transaction_shard_affinity s)).
Proof.
  intros [Ht Hs] Hpin Hv. unfold Virtual.replay_sql. rewrite VirtualFacts.replay_entries.
  - change (Virtual.settings Virtual.fresh) with (∅ : gmap str str).
    rewrite VirtualFacts.fold_settings. f_equal.
    unfold Virtual.pin_reason in Hpin. destruct s as [tx rr sh raw st u te ad co li un].
    cbn in *. destruct un, co, tx; try done. destruct te, ad, li, u, rr; done.
  - rewrite merge_sort_Permutation. apply Forall_forall. intros [k v] Hkv.
    apply elem_of_map_to_list in Hkv. split; [by eapply (Hs k v)|by eapply (Hv k v)].
Qed.

(** ** Replay on a server

    What the statements do is up to the server: [exec] executes a statement,
    [setting] is the value of a setting, [start] a connection after its login
    or a reset, [value_of] the value a text denotes for a setting, if the
    server accepts it. *)

Section ServerSettings.
Context {server value : Type} (exec : server -> str -> server) (setting : server -> str -> value)
  (start : server) (value_of : str -> str -> option value).
Abbreviation replayable k := (Virtual.is_replayable_setting k = true).

(** What PostgreSQL documents of [SET], [RESET] and [DISCARD ALL] outside of
    a transaction, for the settings the proxy replays. *)
Record server_settings : Prop := {
  server_set : forall σ key text x k, plain_key key -> replayable k ->
    value_of (to_ascii_lowercase key) text = Some x ->
    setting (exec σ (set_statement key text)) k = if decide (to_ascii_lowercase key = k) then x else setting σ k;
  server_reset : forall σ key k, replayable key -> replayable k ->
    setting (exec σ (lit "RESET " ++ key)) k = if decide (key = k) then setting start k else setting σ k;
  server_discard : forall σ k, replayable k -> setting (exec σ (lit "DISCARD ALL")) k = setting start k;
}.

Inductive ClientStatement :=
| ClientSet (key text : str) | ClientReset (key : str) | ClientDiscard | ClientOther (sql : str).

Definition statement_sql (c : ClientStatement) : str :=
  match c with
  | ClientSet key text => set_statement key text
  | ClientReset key => lit "RESET " ++ key
  | ClientDiscard => lit "DISCARD ALL"
  | ClientOther sql => sql
  end.

(** The client sets replayable settings with [SET key = value] and values
    the server accepts; its other statements change none of them, and are
    none that the proxy takes for such a statement. *)
Definition tracked (c : ClientStatement) : Prop :=
  match c with
  | ClientSet key text =>
      plain_key key /\ plain_value text /\ replayable (to_ascii_lowercase key) /\
      is_Some (value_of (to_ascii_lowercase key) text)
  | ClientReset key => replayable key
  | ClientDiscard => True
  | ClientOther sql =>
      (forall σ k, replayable k -> setting (exec σ sql) k = setting σ k) /\
      match classify sql with
      | Some (CmdSet _ key _ | CmdReset key) => Virtual.is_replayable_setting key = false
      | Some CmdDiscardAll | None => False
      | Some _ => True
      end
  end.

(** The proxy's record and the client's connection after the statements. *)
Fixpoint client_run (s : Virtual.VirtualSession) (σ : server) (cs : list ClientStatement)
    : option (Virtual.VirtualSession * server) :=
  match cs with
  | [] => Some (s, σ)
  | c :: cs =>
      command ← classify (statement_sql c);
      client_run (Virtual.apply_sql s command) (exec σ (statement_sql c)) cs
  end.

(** The record says what the connection's settings are. *)
Definition recorded (s : Virtual.VirtualSession) (σ : server) : Prop :=
  map_Forall (fun k text => replayable k /\ is_Some (value_of k text)) (Virtual.settings s) /\
  forall k, replayable k ->
    Some (setting σ k) = match Virtual.settings s !! k with
                         | Some text => value_of k text
                         | None => Some (setting start k)
                         end.

Hypothesis Hserver : server_settings.

Lemma classify_reset key : replayable key -> classify (lit "RESET " ++ key) = Some (CmdReset key).
Proof.
  unfold Virtual.is_replayable_setting, is_one_of. rewrite existsb_exists. intros (a & Ha & Heq).
  apply bool_decide_eq_true in Heq as ->.
  assert (Forall (fun a => classify (lit "RESET " ++ lit a) = Some (CmdReset (lit a)))
    ["application_name"; "timezone"; "datestyle"; "search_path"; "extra_float_digits"]%string) as Hall by by_eval.
  rewrite Forall_forall in Hall. by apply Hall, list_elem_of_In.
Qed.

Lemma recorded_unchanged s σ sql s' :
  recorded s σ -> (forall k, replayable k -> setting (exec σ sql) k = setting σ k) ->
  Virtual.settings s' = Virtual.settings s -> recorded s' (exec σ sql).
Proof. intros [Hm Hr] Hq Hs. split; rewrite Hs; [done|]. intros k Hk. rewrite Hq by done. by apply Hr. Qed.

Lemma other_settings s command :
  match command with
  | CmdSet _ key _ | CmdReset key => Virtual.is_replayable_setting key = false
  | CmdDiscardAll => False
  | _ => True
  end ->
  map_Forall (fun k _ => replayable k) (Virtual.settings s) ->
  Virtual.settings (Virtual.apply_sql s command) = Virtual.settings s.
Proof.
  intros Hk Hs. destruct command; try done; cbn [Virtual.apply_sql].
  - by unfold Virtual.set_transaction_access_mode; case_match.
  - unfold Virtual.apply_set. case_match; [done|]. by rewrite Hk.
  - apply delete_id. destruct (Virtual.settings s !! key) eqn:E; [|done]. apply Hs in E. congruence.
Qed.

Lemma recorded_step s σ c :
  recorded s σ -> tracked c ->
  exists command, classify (statement_sql c) = Some command /\
    recorded (Virtual.apply_sql s command) (exec σ (statement_sql c)).
Proof.
  intros [Hm Hr] Hc. destruct c as [key text|key| |sql]; cbn [tracked statement_sql] in *.
  - destruct Hc as (Hp & Ht & Hk & [x Hx]). eexists. split; [by apply classify_set_aux|].
    cbn [Virtual.apply_sql]. unfold Virtual.apply_set. rewrite bool_decide_false, Hk by done.
    split; [by apply map_Forall_insert_2; eauto|]. intros k Hk'.
    change (Virtual.settings _) with (<[to_ascii_lowercase key := text]> (Virtual.settings s)).
    rewrite (server_set Hserver σ key text x k Hp Hk' Hx). destruct (decide (to_ascii_lowercase key = k)) as [<-|Hne].
    + by rewrite lookup_insert_eq.
    + rewrite lookup_insert_ne by done. by apply Hr.
  - eexists. split; [by apply classify_reset|]. cbn [Virtual.apply_sql].
    split; [by apply map_Forall_delete|]. intros k Hk'.
    change (Virtual.settings _) with (delete key (Virtual.settings s)). rewrite (server_reset Hserver) by done.
    destruct (decide (key = k)) as [<-|Hne]; [by rewrite lookup_delete_eq|].
    rewrite lookup_delete_ne by done. by apply Hr.
  - eexists. split; [by vm_compute|]. cbn [Virtual.apply_sql]. split; [apply map_Forall_empty|].
    intros k Hk. change (Virtual.settings _) with (∅ : gmap str str). by rewrite lookup_empty, (server_discard Hserver).
  - destruct Hc as [Hq Hc]. destruct (classify sql) as [command|]; [|done]. eexists. split; [done|].
    eapply recorded_unchanged; [by split|auto|]. apply other_settings; [done|].
    eapply map_Forall_impl; [exact Hm|]. by intros ? ? [].
Qed.

Lemma replay_entries_server σ l k :
  Forall (fun '(key, text) => replayable key /\ is_Some (value_of key text)) l -> NoDup l.*1 -> replayable k ->
  Some (setting (fold_left exec ((fun '(key, text) => set_statement key text) <$> l) σ) k)
  = match (list_to_map l : gmap str str) !! k with
    | Some text => value_of k text
    | None => Some (setting σ k)
    end.
Proof.
  intros Hl. revert σ. induction Hl as [|[key text] l [Hk [x Hx]] Hl IH]; intros σ Hnd Hr; [done|].
  apply NoDup_cons in Hnd as [Hin Hnd]. cbn [fmap list_fmap fold_left list_to_map foldr]. rewrite IH by done.
  destruct (VirtualFacts.replayable_plain key Hk) as [Hp Hlow].
  assert (value_of (to_ascii_lowercase key) text = Some x) as Hx' by (by rewrite Hlow).
  pose proof (server_set Hserver σ key text x k Hp Hr Hx') as Hs. rewrite Hlow in Hs.
  destruct (decide (key = k)) as [<-|Hne].
  - rewrite lookup_insert_eq. cbn [fst snd]. rewrite Hx, (not_elem_of_list_to_map_1 (M := gmap str)) by done. by rewrite Hs.
  - rewrite lookup_insert_ne by done. by rewrite Hs.
Qed.

Lemma client_run_recorded s σ cs :
  recorded s σ -> Forall tracked cs -> exists s' σ', client_run s σ cs = Some (s', σ') /\ recorded s' σ'.
Proof.
  intros H0 Hcs. revert s σ H0. induction Hcs as [|c cs Hc Hcs IH]; intros s σ H0; [by exists s, σ|].
  destruct (recorded_step s σ c H0 Hc) as (command & Hcl & H1). cbn [client_run]. rewrite Hcl.
  cbn [mbind option_bind]. by apply IH.
Qed.

Lemma recorded_replay s σ k :
  recorded s σ -> replayable k -> setting (fold_left exec (Virtual.replay_sql s) start) k = setting σ k.
Proof.
  intros [Hm Hr] Hk.
  assert (Hperm : merge_sort Virtual.entry_le (map_to_list (Virtual.settings s)) ≡ₚ map_to_list (Virtual.settings s))
    by apply merge_sort_Permutation.
  assert (Hnd : NoDup (merge_sort Virtual.entry_le (map_to_list (Virtual.settings s))).*1)
    by (rewrite Hperm; apply NoDup_fst_map_to_list).
  apply (inj Some). rewrite (Hr k Hk). unfold Virtual.replay_sql. rewrite replay_entries_server; [| |done|done].
  - rewrite (list_to_map_proper (M := gmap str) _ (map_to_list (Virtual.settings s))) by done.
    by rewrite list_to_map_to_list.
  - rewrite Hperm. by apply map_Forall_to_list in Hm.
Qed.

End ServerSettings.

(** A server that keeps its settings in a map, and a client that sets,
    changes and resets some. *)
Section ServerDemo.
Definition demo_exec (σ : gmap str str) (sql : str) : gmap str str :=
  match strip_prefix (lit "SET ") sql with
  | Some rest =>
      match split_once 61 rest with
      | Some (key, text) => <[to_ascii_lowercase (trim key) := drop 1 text]> σ
      | None => σ
      end
  | None =>
      match strip_prefix (lit "RESET ") sql with
      | Some key => delete key σ
      | None => if str_eqb sql (lit "DISCARD ALL") then ∅ else σ
      end
  end.
Definition demo_setting (σ : gmap str str) (k : str) : option str := σ !! k.
Definition demo_value (_ text : str) : option (option str) := Some (Some text).
Definition demo_client : list ClientStatement :=
  [ClientSet (lit "TimeZone") (lit "'UTC'"); ClientOther (lit "select 1"); ClientSet (lit "search_path") (lit "a, b");
   ClientSet (lit "timezone") (lit "'CET'"); ClientReset (lit "search_path")].

Lemma demo_exec_set σ key text :
  plain_key key -> demo_exec σ (set_statement key text) = <[to_ascii_lowercase key := text]> σ.
Proof.
  intros (Hne & Hk & Heq & _). unfold demo_exec, set_statement.
  change (lit "SET ") with [83; 69; 84; 32]. cbn [app strip_prefix Z.eqb Pos.eqb].
  change (key ++ lit " = " ++ text) with (key ++ [32] ++ 61 :: 32 :: text).
  rewrite app_assoc. unfold split_once, find_char. rewrite position_app_found.
  - rewrite take_app_length, drop_S_app. cbn [drop].
    by rewrite trim_snoc_ws by (done || by apply no_ws_trimmed).
  - apply Forall_app. split; [|by repeat constructor].
    apply Forall_forall. intros c Hc. apply Z.eqb_neq. by intros <-.
  - done.
Qed.

Lemma demo_server : server_settings demo_exec demo_setting ∅ demo_value.
Proof.
  unfold demo_setting. split.
  - intros σ key text x k Hp _ [= <-]. rewrite demo_exec_set by done.
    destruct (decide _) as [<-|]; [by rewrite lookup_insert_eq|by rewrite lookup_insert_ne].
  - intros σ key k _ _. change (demo_exec σ (lit "RESET " ++ key)) with (delete key σ).
    destruct (decide _) as [<-|]; [by rewrite lookup_delete_eq|by rewrite lookup_delete_ne].
  - done.
Qed.

Lemma demo_client_tracked : Forall (tracked demo_exec demo_setting demo_value) demo_client.
Proof.
  assert (forall key text, plain_key key -> trimmed text -> last text <> Some 59 -> text <> [] ->
    Virtual.is_replayable_setting (to_ascii_lowercase key) = true ->
    tracked demo_exec demo_setting demo_value (ClientSet key text)) as Hset.
  { intros key text Hk Ht Hl Hne Hr. split_and!; [done|by split_and!|done|by eexists]. }
  assert (forall key, key ∈ [lit "TimeZone"; lit "search_path"; lit "timezone"] -> plain_key key) as Hkey.
  { intros key Hin. assert (Forall (fun key => key <> [] /\ Forall (fun c => is_whitespace c = false) key /\
      ~ (61 ∈ key) /\ to_ascii_lowercase key <> lit "local") [lit "TimeZone"; lit "search_path"; lit "timezone"])
      as Hall by by_eval.
    rewrite Forall_forall in Hall. by apply Hall. }
  unfold demo_client. apply Forall_cons. split.
  { apply Hset; [apply Hkey; by left|split; by intros c [= <-]|done|done|reflexivity]. }
  apply Forall_cons. split; [split; [intros σ k _; reflexivity|by vm_compute]|].
  apply Forall_cons. split.
  { apply Hset; [apply Hkey; right; by left|split; by intros c [= <-]|done|done|reflexivity]. }
  apply Forall_cons. split.
  { apply Hset; [apply Hkey; right; right; by left|split; by intros c [= <-]|done|done|reflexivity]. }
  apply Forall_cons. by split.
Qed.

End ServerDemo.

(** A transaction never changes shard: after its first request, any
    sequence of requests leaves the transaction on that shard, a request
    naming the shard is accepted, one naming another is rejected, and a
    rejection leaves a violation mark that no later request clears. *)
Theorem transaction_keeps_shard (t : TransactionShardState)
  (rs rs' : list (option ShardId * RoutingReason)) (id : ShardId) (r : RoutingReason) :
  exists t1 t2, requests (Some t) rs = Some t1 /\ current_shard_id t1 = current_shard_id t /\
    snd (shard_affinity TxInTransaction (Some t1) (Some id) r)
    = (if str_eqb (current_shard_id t) id then Accepted else Rejected) /\
    requests (fst (shard_affinity TxInTransaction (Some t1) (Some id) r)) rs' = Some t2 /\
    current_shard_id t2 = current_shard_id t /\
    (str_eqb (current_shard_id t) id = false -> cross_shard_violation t2 = true).
Proof.
  destruct (requests_keep t rs) as (t1 & H1 & Hid & _). exists t1.
  destruct (shard_affinity_keeps t1 (Some id) r) as (t' & Ht' & Hid' & _).
  rewrite Ht'. destruct (requests_keep t' rs') as (t2 & H2 & Hid2 & Hv2). exists t2.
  rewrite H1, H2, Hid2, Hid', Hid. split_and!; try done.
  - unfold shard_affinity. cbn. rewrite Hid. by destruct (str_eqb _ _).
  - intros Hne. apply Hv2. unfold shard_affinity in Ht'. cbn in Ht'.
    rewrite Hid, Hne in Ht'. by injection Ht' as <-.
Qed.

(** An event-driven session inside a transaction is always pinned: for
    every sequence of client events from a fresh session, the session state
    is defined, and while a transaction is open or failed the pin is neither
    absent nor the one that the next Sync lifts. *)
Theorem events_keep_transaction_pinned (es : list Events.ClientEvent) :
  exists s, EventFacts.apply_all Events.fresh es = Some s /\
    (Events.transaction s <> TxIdle ->
     is_Some (Events.pin_reason s) /\
     Events.pin_reason s <> Some Events.ExtendedQueryCycle) /\
    (Events.transaction s = TxIdle -> Events.read_routing_transaction s = None).
Proof.
  assert (Hgo : forall s0, EventFacts.event_wf s0 -> exists s,
    EventFacts.apply_all s0 es = Some s /\ EventFacts.event_wf s).
  { induction es as [|e es IH]; intros s0 H0; [by exists s0|]. cbn.
    destruct (EventFacts.apply_total s0 e) as [s1 H1]. rewrite H1. cbn. apply IH.
    by eapply EventFacts.event_wf_apply. }
  destruct (Hgo Events.fresh) as (s & Hs & Hp & Hi); [by split|].
  exists s. split; [done|]. split; [|done]. intros Ht. destruct (Hp Ht) as [H1 H2].
  split; [by apply not_eq_None_Some|done].
Qed.
