(* ===== verification/ReadRouting.v ===== *)
(** * ReadRouting: primary, replica, wait or reject

    Models [pg-kinetic-proxy/src/routing.rs]: [choose_routing_target] with
    the replica selection and its freshness tests, and the policy action
    applied on top. The query class and hint come from [analyze_sql] unless
    the context carries them; [None] would be a failure of that analysis,
    which never happens ([analyze_total]). *)

From S2P Require Import Prelude Text Lsn RoutingTypes Policy Sql SqlClassify Session.

(** The proxy's own [RoutingReason]. *)
Inductive TargetReason :=
| TOff | TPrimaryOnlyMode | TRequireReplicaMode | TInTransaction | TFailedTransaction
| TWriteQuery | TUnknownQuery | TTransactionControl | TSessionMutation | TCopyQuery
| TReadCandidateQuery | TReadOnlyQuery | TPrimaryHint | TReplicaHint | TStaleOkHint
| TStrictFreshHint | TFreshnessRequired | TReplicaStale | TReplicaUnavailable
| TFallbackPrimary | TFallbackReject | TFallbackWait | TPolicyDenied
| TPolicyRequirePrimary | TPolicyRequireReplica | TPolicyRouteOverride
| TPolicyShardOverride.

Record ReadRoutingPlanner := {
  read_routing_mode : ReadRoutingMode;
  pl_fallback_policy : FallbackPolicy;
  pl_freshness_policy : FreshnessPolicy;
  max_replica_lag_ms : Z;
}.

Record ReplicaCandidate := {
  replica_id : Z;
  healthy : bool;
  split_brain : bool;
  replay_lsn : option PgLsn;
  lag_ms : option Z;
}.

#[global] Instance ReplicaCandidate_eq_dec : EqDecision ReplicaCandidate.
Proof. solve_decision. Defined.

Record RoutingContext := {
  ctx_sql : str;
  transaction_state : TransactionState;
  read_after_write_state : Virtual.ReadAfterWriteState;
  health : list ReplicaCandidate;
  analysis : option SqlAnalysis;
}.

(** [RoutingContext::query_class] and [routing_hint]. *)
Definition ctx_analysis (c : RoutingContext) : option SqlAnalysis :=
  match analysis c with
  | Some a => Some a
  | None => analyze_sql (ctx_sql c)
  end.

Inductive RoutingTarget :=
| ToPrimary (reason : TargetReason)
| ToReplica (candidate : ReplicaCandidate) (reason : TargetReason)
| ToWait (reason : TargetReason)
| ToReject (reason : TargetReason).

(** [RoutingTarget::target_role]. *)
Definition target_backend_role (t : RoutingTarget) : option BackendRole :=
  match t with
  | ToPrimary _ => Some Primary
  | ToReplica _ _ => Some Replica
  | ToWait _ | ToReject _ => None
  end.

Definition primary_for_query_class (c : QueryClass) : RoutingTarget :=
  ToPrimary (match c with
             | Write => TWriteQuery
             | ReadOnlyClass => TReadOnlyQuery
             | ReadCandidate => TReadCandidateQuery
             | TransactionControl => TTransactionControl
             | SessionMutation => TSessionMutation
             | CopyClass => TCopyQuery
             | UnknownClass => TUnknownQuery
             end).

Definition success_reason (h : RoutingHint) : TargetReason :=
  match h with
  | HintPrimary => TPrimaryHint
  | HintReplica => TReplicaHint
  | HintStaleOk => TStaleOkHint
  | HintStrictFresh => TStrictFreshHint
  | HintNone => TReadCandidateQuery
  end.

Definition fallback_target (p : FallbackPolicy) : RoutingTarget :=
  match p with
  | FallbackToPrimary => ToPrimary TFallbackPrimary
  | FallbackRejects => ToReject TFallbackReject
  | FallbackWaits => ToWait TFallbackWait
  end.

Definition effective_freshness_policy (configured : FreshnessPolicy) (h : RoutingHint)
  : FreshnessPolicy :=
  match h with
  | HintStrictFresh => SessionWriteLsnAndMaxLag
  | HintStaleOk =>
      match configured with
      | SessionWriteLsnAndMaxLag => MaxReplicaLag
      | other => other
      end
  | HintPrimary | HintReplica | HintNone => configured
  end.

Definition requires_session_write_lsn (p : FreshnessPolicy) : bool :=
  match p with SessionWriteLsn | SessionWriteLsnAndMaxLag => true | _ => false end.

Definition requires_replica_lag (p : FreshnessPolicy) : bool :=
  match p with MaxReplicaLag | SessionWriteLsnAndMaxLag => true | _ => false end.

Definition replica_satisfies_freshness (c : ReplicaCandidate) (p : FreshnessPolicy)
  (raw : Virtual.ReadAfterWriteState) (max_lag : Z) : bool :=
  (if requires_session_write_lsn p then
     match raw with
     | Virtual.RawDisabled => true
     | Virtual.RawUnknown => false
     | Virtual.RawRequired required =>
         match replay_lsn c with
         | None => false
         | Some l => negb (l <? required)
         end
     end
   else true)
  && (if requires_replica_lag p then
        match lag_ms c with
        | None => false
        | Some lag => negb (max_lag <? lag)
        end
      else true).

(** The key of [min_by_key], in lexicographic order. *)
Definition candidate_key (c : ReplicaCandidate) : Z * Z :=
  (default U64_MAX (lag_ms c), replica_id c).

Definition key_ltb (a b : Z * Z) : bool :=
  (fst a <? fst b) || ((fst a =? fst b) && (snd a <? snd b)).

(** [Iterator::min_by_key]: the first of the least elements. *)
Fixpoint min_by_key (l : list ReplicaCandidate) : option ReplicaCandidate :=
  match l with
  | [] => None
  | c :: rest =>
      match min_by_key rest with
      | None => Some c
      | Some m => Some (if key_ltb (candidate_key m) (candidate_key c) then m else c)
      end
  end.

Definition eligible (raw : Virtual.ReadAfterWriteState) (max_lag : Z) (p : FreshnessPolicy)
  (c : ReplicaCandidate) : bool :=
  healthy c && negb (split_brain c) && replica_satisfies_freshness c p raw max_lag.

Definition select_safe_replica (replicas : list ReplicaCandidate)
  (raw : Virtual.ReadAfterWriteState) (max_lag : Z) (p : FreshnessPolicy)
  : option ReplicaCandidate :=
  min_by_key (List.filter (eligible raw max_lag p) replicas).

Definition raw_disabled (r : Virtual.ReadAfterWriteState) : bool :=
  match r with Virtual.RawDisabled => true | _ => false end.

(** The end of [choose_routing_target], when no replica is safe. *)
Definition no_safe_replica (planner : ReadRoutingPlanner) (c : RoutingContext)
  (p : FreshnessPolicy) : RoutingTarget :=
  if bool_decide (read_routing_mode planner = RequireReplica) then ToReject TRequireReplicaMode
  else if negb (existsb healthy (health c)) then fallback_target (pl_fallback_policy planner)
  else if requires_session_write_lsn p && negb (raw_disabled (read_after_write_state c)) then
    let reason :=
      match read_after_write_state c with
      | Virtual.RawUnknown => TFreshnessRequired
      | Virtual.RawRequired _ => TReplicaStale
      | Virtual.RawDisabled => TFallbackPrimary
      end in
    match pl_fallback_policy planner with
    | FallbackToPrimary => ToPrimary TFallbackPrimary
    | FallbackRejects => ToReject reason
    | FallbackWaits => ToWait TFallbackWait
    end
  else fallback_target (pl_fallback_policy planner).

(** [choose_routing_target] for a known analysis. *)
Definition choose (planner : ReadRoutingPlanner) (c : RoutingContext) (a : SqlAnalysis)
  : RoutingTarget :=
  match read_routing_mode planner with
  | ModeOff => ToPrimary TOff
  | PrimaryOnly => ToPrimary TPrimaryOnlyMode
  | RequireReplica | PreferReplica =>
      match transaction_state c with
      | TxInTransaction => ToPrimary TInTransaction
      | TxFailed => ToPrimary TFailedTransaction
      | TxIdle =>
          if negb (routes_to_replica (an_query_class a))
          then primary_for_query_class (an_query_class a)
          else if bool_decide (an_routing_hint a = HintPrimary) then ToPrimary TPrimaryHint
          else
            let p := effective_freshness_policy (pl_freshness_policy planner) (an_routing_hint a) in
            if bool_decide (an_routing_hint a = HintStrictFresh)
               && raw_disabled (read_after_write_state c)
            then fallback_target (pl_fallback_policy planner)
            else
              match select_safe_replica (health c) (read_after_write_state c)
                      (max_replica_lag_ms planner) p with
              | Some candidate => ToReplica candidate (success_reason (an_routing_hint a))
              | None => no_safe_replica planner c p
              end
      end
  end.

Definition choose_routing_target (planner : ReadRoutingPlanner) (c : RoutingContext)
  : option RoutingTarget :=
  a ← ctx_analysis c; Some (choose planner c a).

(** ** Policy actions *)

Definition map_routing_target_reason (t : RoutingTarget) (reason : TargetReason) : RoutingTarget :=
  match t with
  | ToPrimary _ => ToPrimary reason
  | ToReplica c _ => ToReplica c reason
  | ToWait _ => ToWait reason
  | ToReject _ => ToReject reason
  end.

Definition policy_denied_target : RoutingTarget := ToReject TPolicyDenied.

(** [ensure_policy_action_target_is_safe]. *)
Definition ensure_policy_action_target_is_safe (planner : ReadRoutingPlanner)
  (c : RoutingContext) (target : RoutingTarget) : option RoutingTarget :=
  match target with
  | ToReplica candidate reason =>
      if healthy candidate && negb (split_brain candidate)
         && replica_satisfies_freshness candidate (pl_freshness_policy planner)
              (read_after_write_state c) (max_replica_lag_ms planner)
      then Some (ToReplica candidate reason)
      else choose_routing_target planner c
  | other => Some other
  end.

(** [apply_policy_action_to_routing_target]. *)
Definition apply_policy_action_to_routing_target (planner : ReadRoutingPlanner)
  (c : RoutingContext) (current_target : option RoutingTarget) (action : option PolicyAction)
  : option RoutingTarget :=
  current ← match current_target with
            | Some t => Some t
            | None => choose_routing_target planner c
            end;
  target ← match action with
           | None | Some ActAllow => Some current
           | Some (ActDeny _ _) => Some policy_denied_target
           | Some ActRequirePrimary => Some (ToPrimary TPolicyRequirePrimary)
           | Some ActRequireReplica =>
               let replica_planner :=
                 {| read_routing_mode := RequireReplica;
                    pl_fallback_policy := pl_fallback_policy planner;
                    pl_freshness_policy := pl_freshness_policy planner;
                    max_replica_lag_ms := max_replica_lag_ms planner |} in
               t ← choose_routing_target replica_planner c;
               Some (match t with
                     | ToReplica candidate _ => ToReplica candidate TPolicyRequireReplica
                     | ToWait _ | ToReject _ => ToReject TPolicyRequireReplica
                     | ToPrimary _ => ToPrimary TPolicyRequireReplica
                     end)
           | Some (ActRouteOverride _) => Some (map_routing_target_reason current TPolicyRouteOverride)
           | Some (ActShardOverride _) => Some (map_routing_target_reason current TPolicyShardOverride)
           end;
  ensure_policy_action_target_is_safe planner c target.

(** ** Facts *)

Section ReadRoutingFacts.
Lemma key_ltb_trans a b c : key_ltb a b = false -> key_ltb b c = false -> key_ltb a c = false.
Proof.
  unfold key_ltb. destruct a as [x1 x2], b as [y1 y2], c as [z1 z2]. cbn.
  rewrite !orb_false_iff, !andb_false_iff, !Z.ltb_ge, !Z.eqb_neq. lia.
Qed.

Lemma key_ltb_asym a b : key_ltb a b = true -> key_ltb b a = false.
Proof.
  unfold key_ltb. destruct a as [x1 x2], b as [y1 y2]. cbn.
  rewrite orb_true_iff, andb_true_iff, orb_false_iff, andb_false_iff,
    !Z.ltb_lt, !Z.ltb_ge, Z.eqb_eq, Z.eqb_neq. lia.
Qed.

Lemma key_ltb_irrefl a : key_ltb a a = false.
Proof. destruct (key_ltb a a) eqn:E; [|done]. by rewrite (key_ltb_asym _ _ E) in E. Qed.

Lemma min_by_key_spec l c :
  min_by_key l = Some c ->
  c ∈ l /\ forall d, d ∈ l -> key_ltb (candidate_key d) (candidate_key c) = false.
Proof.
  revert c. induction l as [|x l IH]; intros c H; [done|]. cbn [min_by_key] in H.
  destruct (min_by_key l) as [m|] eqn:Hm.
  - destruct (IH m eq_refl) as [Hin Hmin]. injection H as <-.
    destruct (key_ltb (candidate_key m) (candidate_key x)) eqn:Hlt.
    + split; [by right|]. intros d [->|Hd]%elem_of_cons; [by apply key_ltb_asym|by apply Hmin].
    + split; [by left|]. intros d [->|Hd]%elem_of_cons; [apply key_ltb_irrefl|].
      eapply key_ltb_trans; [by apply Hmin|done].
  - injection H as <-. assert (l = []) as ->.
    { destruct l as [|y l]; [done|]. cbn in Hm. by destruct (min_by_key l). }
    split; [by left|]. intros d Hd%list_elem_of_singleton. subst. apply key_ltb_irrefl.
Qed.

Lemma min_by_key_None l : min_by_key l = None <-> l = [].
Proof. destruct l; [done|]. cbn. by destruct (min_by_key l). Qed.

Lemma elem_of_filter_eligible raw max p l c :
  c ∈ List.filter (eligible raw max p) l <-> c ∈ l /\ eligible raw max p c = true.
Proof. rewrite !list_elem_of_In. apply filter_In. Qed.

Lemma select_safe_replica_spec l raw max p c :
  select_safe_replica l raw max p = Some c ->
  c ∈ l /\ eligible raw max p c = true /\
  forall d, d ∈ l -> eligible raw max p d = true ->
    key_ltb (candidate_key d) (candidate_key c) = false.
Proof.
  intros H. apply min_by_key_spec in H as [Hin Hmin].
  apply elem_of_filter_eligible in Hin as [Hin He]. split_and!; [done|done|].
  intros d Hd Hed. apply Hmin. by apply elem_of_filter_eligible.
Qed.

Lemma select_safe_replica_None l raw max p :
  select_safe_replica l raw max p = None <-> Forall (fun c => eligible raw max p c = false) l.
Proof.
  unfold select_safe_replica. rewrite min_by_key_None. rewrite Forall_forall. split.
  - intros H c Hc. apply not_true_is_false. intros He.
    assert (Hin : c ∈ List.filter (eligible raw max p) l) by (by apply elem_of_filter_eligible).
    rewrite H in Hin. by apply elem_of_nil in Hin.
  - intros H. destruct (List.filter (eligible raw max p) l) as [|c r] eqn:E; [done|].
    assert (Hc : c ∈ List.filter (eligible raw max p) l) by (rewrite E; left).
    apply elem_of_filter_eligible in Hc as [Hin He]. by rewrite H in He.
Qed.

(** When a replica may serve the request at all. *)
Definition replica_allowed (planner : ReadRoutingPlanner) (c : RoutingContext) (a : SqlAnalysis)
  : Prop :=
  (read_routing_mode planner = PreferReplica \/ read_routing_mode planner = RequireReplica) /\
  transaction_state c = TxIdle /\ routes_to_replica (an_query_class a) = true /\
  an_routing_hint a <> HintPrimary /\
  ~ (an_routing_hint a = HintStrictFresh /\ read_after_write_state c = Virtual.RawDisabled).

Lemma no_safe_replica_not_replica planner c p d r : no_safe_replica planner c p <> ToReplica d r.
Proof.
  unfold no_safe_replica, fallback_target.
  repeat case_match; congruence.
Qed.

Lemma fallback_not_replica p d r : fallback_target p <> ToReplica d r.
Proof. by destruct p. Qed.

Lemma choose_allowed planner c a :
  replica_allowed planner c a ->
  choose planner c a
  = let p := effective_freshness_policy (pl_freshness_policy planner) (an_routing_hint a) in
    match select_safe_replica (health c) (read_after_write_state c)
            (max_replica_lag_ms planner) p with
    | Some candidate => ToReplica candidate (success_reason (an_routing_hint a))
    | None => no_safe_replica planner c p
    end.
Proof.
  intros (Hm & Ht & Hc & Hh & Hs). unfold choose. rewrite Ht, Hc. cbn [negb].
  rewrite bool_decide_false by done.
  assert (bool_decide (an_routing_hint a = HintStrictFresh)
          && raw_disabled (read_after_write_state c) = false) as ->.
  { case_bool_decide; [|done]. destruct (read_after_write_state c) eqn:E; [|done..].
    by destruct Hs. }
  by destruct Hm as [-> | ->].
Qed.

Lemma choose_replica_allowed planner c a d r :
  choose planner c a = ToReplica d r -> replica_allowed planner c a.
Proof.
  unfold choose, replica_allowed. intros H.
  destruct (read_routing_mode planner) eqn:Hm; try discriminate;
    destruct (transaction_state c) eqn:Ht; try discriminate;
    destruct (routes_to_replica (an_query_class a)) eqn:Hc; cbn [negb] in H; try discriminate;
    destruct (an_routing_hint a) eqn:Hh; try discriminate;
    destruct (read_after_write_state c) eqn:Hr; cbn in H; try done;
    try (by apply fallback_not_replica in H);
    split_and!; try done; auto; try (by intros [? ?]).
Qed.

Lemma ctx_analysis_total c : exists a, ctx_analysis c = Some a.
Proof.
  unfold ctx_analysis. destruct (analysis c) as [a|]; [eauto|].
  destruct (analyze_total (ctx_sql c)) as [a Ha]. eauto.
Qed.

(** If the target is a replica, it is a sound one for a read. *)
Definition safe_read (c : RoutingContext) (a : SqlAnalysis) (t : RoutingTarget) : Prop :=
  forall d r, t = ToReplica d r ->
    d ∈ health c /\ healthy d = true /\ split_brain d = false /\
    transaction_state c = TxIdle /\ routes_to_replica (an_query_class a) = true.

Lemma choose_safe_read planner c a : safe_read c a (choose planner c a).
Proof.
  intros d r H. pose proof (choose_replica_allowed _ _ _ _ _ H) as Hal.
  rewrite choose_allowed in H by done. cbv zeta in H.
  destruct (select_safe_replica _ _ _ _) as [e|] eqn:Hs;
    [|by apply no_safe_replica_not_replica in H].
  injection H as -> _. apply select_safe_replica_spec in Hs as (Hin & He & _).
  unfold eligible in He. rewrite !andb_true_iff, negb_true_iff in He.
  destruct Hal as (_ & Ht & Hc & _). by destruct He as [[? ?] _].
Qed.

Lemma map_safe_read c a t r : safe_read c a t -> safe_read c a (map_routing_target_reason t r).
Proof. intros H d r' E. destruct t; try done. injection E as -> _. by eapply H. Qed.

Lemma ensure_safe_read planner c a t :
  ctx_analysis c = Some a -> safe_read c a t ->
  exists t', ensure_policy_action_target_is_safe planner c t = Some t' /\ safe_read c a t' /\
    (target_backend_role t <> Some Replica -> t' = t).
Proof.
  intros Ha Ht. unfold ensure_policy_action_target_is_safe, choose_routing_target.
  rewrite Ha. cbn [mbind option_bind]. destruct t as [|d r| |]; try by eexists.
  destruct (_ && _); eexists; (split; [done|]); split; try done.
  apply choose_safe_read.
Qed.
End ReadRoutingFacts.

(** ** The theorems of read routing *)

(** C13. A replica is chosen exactly when that is safe and allowed: the
    decision always exists, and it is a replica [d] iff read routing is on,
    the session is outside a transaction, the statement is a read, no hint
    asks for the primary (or for strict freshness without a known write
    position), and [d] is the first of the least lagging candidates among
    those that are healthy, not split-brain and fresh enough for the policy
    in force. *)
Theorem replica_choice_exact (planner : ReadRoutingPlanner) (c : RoutingContext)
  (d : ReplicaCandidate) :
  exists a, ctx_analysis c = Some a /\
    let p := effective_freshness_policy (pl_freshness_policy planner) (an_routing_hint a) in
    ((exists r, choose_routing_target planner c = Some (ToReplica d r)) <->
     replica_allowed planner c a /\
     select_safe_replica (health c) (read_after_write_state c)
       (max_replica_lag_ms planner) p = Some d) /\
    ((exists r, choose_routing_target planner c = Some (ToReplica d r)) ->
     d ∈ health c /\ healthy d = true /\ split_brain d = false /\
     (requires_session_write_lsn p = true ->
      match read_after_write_state c with
      | Virtual.RawDisabled => True
      | Virtual.RawUnknown => False
      | Virtual.RawRequired l => exists l', replay_lsn d = Some l' /\ l <= l'
      end) /\
     (requires_replica_lag p = true ->
      exists lag, lag_ms d = Some lag /\ lag <= max_replica_lag_ms planner) /\
     forall e, e ∈ health c ->
       eligible (read_after_write_state c) (max_replica_lag_ms planner) p e = true ->
       key_ltb (candidate_key e) (candidate_key d) = false).
Proof.
  destruct (ctx_analysis_total c) as [a Ha]. exists a. split; [done|]. cbv zeta.
  unfold choose_routing_target. rewrite Ha. cbn [mbind option_bind].
  assert (Hiff : (exists r, Some (choose planner c a) = Some (ToReplica d r)) <->
     replica_allowed planner c a /\
     select_safe_replica (health c) (read_after_write_state c) (max_replica_lag_ms planner)
       (effective_freshness_policy (pl_freshness_policy planner) (an_routing_hint a)) = Some d).
  { split.
    - intros [r [= H]]. pose proof (choose_replica_allowed _ _ _ _ _ H) as Hal. split; [done|].
      rewrite choose_allowed in H by done. cbv zeta in H.
      destruct (select_safe_replica _ _ _ _) as [e|]; [by injection H as -> _|].
      by apply no_safe_replica_not_replica in H.
    - intros [Hal Hs]. rewrite choose_allowed by done. cbv zeta. rewrite Hs. eauto. }
  split; [exact Hiff|]. intros H. apply Hiff in H as [_ Hs].
  apply select_safe_replica_spec in Hs as (Hin & He & Hmin).
  unfold eligible, replica_satisfies_freshness in He.
  rewrite !andb_true_iff, negb_true_iff in He. destruct He as [[Hh Hb] [Hl Hg]].
  split_and!; [done|done|done| | |done].
  - intros Hp. rewrite Hp in Hl. destruct (read_after_write_state c); [done| |done].
    destruct (replay_lsn d) as [l'|]; [|done]. exists l'. bool_to_prop. done.
  - intros Hp. rewrite Hp in Hg. destruct (lag_ms d) as [lag|]; [|done]. exists lag.
    bool_to_prop. done.
Qed.

(** Requiring a replica is honoured: in [RequireReplica] mode, a read
    outside a transaction with no hint against it is sent to a safe replica
    when there is one and rejected when there is none; it is never sent to
    the primary and never waits. *)
Theorem require_replica_honoured (planner : ReadRoutingPlanner) (c : RoutingContext)
  (a : SqlAnalysis) :
  ctx_analysis c = Some a -> read_routing_mode planner = RequireReplica ->
  replica_allowed planner c a ->
  let p := effective_freshness_policy (pl_freshness_policy planner) (an_routing_hint a) in
  let safe := eligible (read_after_write_state c) (max_replica_lag_ms planner) p in
  (existsb safe (health c) = true /\
   exists d r, choose_routing_target planner c = Some (ToReplica d r) /\ safe d = true) \/
  (existsb safe (health c) = false /\
   choose_routing_target planner c = Some (ToReject TRequireReplicaMode)).
Proof.
  intros Ha Hm Hal p safe. unfold choose_routing_target. rewrite Ha. cbn [mbind option_bind].
  rewrite choose_allowed by done. cbv zeta. fold p.
  destruct (select_safe_replica _ _ _ _) as [d|] eqn:Hs.
  - left. apply select_safe_replica_spec in Hs as (Hin & He & _). split; [|eauto].
    apply existsb_exists. exists d. by rewrite <- list_elem_of_In.
  - right. split.
    + apply select_safe_replica_None in Hs. rewrite Forall_forall in Hs.
      apply not_true_is_false. intros (d & Hd & He)%existsb_exists.
      apply list_elem_of_In in Hd. unfold safe in He. by rewrite Hs in He.
    + unfold no_safe_replica. by rewrite bool_decide_true.
Qed.

Definition example_context (replicas : list ReplicaCandidate) : RoutingContext :=
  {| ctx_sql := lit "select 1"; transaction_state := TxIdle;
     read_after_write_state := Virtual.RawRequired 100; health := replicas; analysis := None |}.

Definition example_planner : ReadRoutingPlanner :=
  {| read_routing_mode := RequireReplica; pl_fallback_policy := FallbackToPrimary;
     pl_freshness_policy := SessionWriteLsn; max_replica_lag_ms := 50 |}.

Lemma require_replica_honoured_witness :
  choose_routing_target example_planner
    (example_context [{| replica_id := 1; healthy := true; split_brain := false;
                         replay_lsn := Some 99; lag_ms := Some 5 |}])
  = Some (ToReject TRequireReplicaMode).
Proof.
  destruct (require_replica_honoured example_planner
    (example_context [{| replica_id := 1; healthy := true; split_brain := false;
                         replay_lsn := Some 99; lag_ms := Some 5 |}])
    {| an_query_class := ReadCandidate; an_routing_hint := HintNone |}) as [[H _]|[_ H]];
    [vm_compute; reflexivity|reflexivity| |discriminate H|exact H].
  split_and!; [by right|done|done|done|by intros [? ?]].
Defined.

(** C31. Policies cannot send work to an unsafe replica: whatever the action,
    starting from the proxy's own decision the result exists; a denial
    rejects; requiring the primary yields the primary; and if the result is
    a replica, that replica is a healthy, not split-brain candidate, the
    session is outside a transaction and the statement is a read. *)
Theorem policy_targets_safe (planner : ReadRoutingPlanner) (c : RoutingContext)
  (action : option PolicyAction) :
  exists t a, apply_policy_action_to_routing_target planner c None action = Some t /\
    ctx_analysis c = Some a /\ safe_read c a t /\
    (forall r s, action = Some (ActDeny r s) -> t = ToReject TPolicyDenied) /\
    (action = Some ActRequirePrimary -> t = ToPrimary TPolicyRequirePrimary).
Proof.
  destruct (ctx_analysis_total c) as [a Ha].
  unfold apply_policy_action_to_routing_target, choose_routing_target. rewrite Ha.
  cbn [mbind option_bind].
  pose proof (choose_safe_read planner c a) as Hc.
  destruct action as [[|why code| | |id|id]|]; cbn [mbind option_bind];
    match goal with
    | |- context [ensure_policy_action_target_is_safe _ _ ?t] =>
        destruct (ensure_safe_read planner c a t Ha) as (t' & -> & Hs & Hsame);
          [try done; try (by apply map_safe_read)
          |exists t', a; split_and!; try done; try (intros; by apply Hsame)]
    end.
  set (rp := {| read_routing_mode := RequireReplica |}). clearbody rp.
  pose proof (choose_safe_read rp c a) as Hr. intros d r E.
  destruct (choose rp c a); try discriminate. injection E as -> _. by eapply Hr.
Qed.
