(* ===== verification/ShardRouting.v ===== *)
(** * ShardRouting: choosing a shard and reloading route maps

    Models [pg-kinetic-proxy/src/routing/sharding.rs]: [plan_sharded_route]
    with the hint and the key it looks for, the target it leads to, the
    offline preview, and [ShardRouteMapStore], the reloadable set of route
    maps with the shards of open transactions. [None] stands for a failure of
    the statement analysis, which never happens ([ctx_analysis_total]).
    Snapshots and metrics are left out; the preview's reasons are the enum
    values, not their labels. *)

From S2P Require Import Prelude Text Order Lsn RoutingTypes Policy Sql SqlClassify Session ReadRouting.
From S2P Require Import Route Sharding ShardExtract.

(** ** Planning *)

Record ShardRoutingContext := {
  sc_sql : str;
  sc_transaction_state : TransactionState;
  sc_read_after_write_state : Virtual.ReadAfterWriteState;
  sc_health : list ReplicaCandidate;
  sc_validation_input : option RouteMapValidationInput;
}.

Record ShardRoutingPlanner := {
  read_routing : ReadRoutingPlanner;
  sharding_enabled : bool;
  planner_route_maps : list ShardRouteMap;
}.

(** [RoutingContext::new] on the fields of the context. *)
Definition routing_context (c : ShardRoutingContext) : RoutingContext := {|
  ctx_sql := sc_sql c;
  transaction_state := sc_transaction_state c;
  read_after_write_state := sc_read_after_write_state c;
  health := sc_health c;
  analysis := None;
|}.

Definition context_extraction (c : ShardRoutingContext) : ShardExtraction :=
  match sc_validation_input c with
  | Some input => extract_shard_key (sc_sql c) input
  | None => ExtractUnknown
  end.

Definition explicit_shard_id (hint : ShardHint) : option str :=
  match hint with
  | HintShard value | HintTenant value | HintRoute value => Some value
  | HintAbsent | HintUnknown => None
  end.

Definition route_map_matches_context (m : ShardRouteMap) (c : ShardRoutingContext) : bool :=
  match map_scope m with
  | Global => true
  | Tenant scope =>
      match extract_shard_hint (sc_sql c) with
      | HintTenant value | HintShard value | HintRoute value => bool_decide (tenant_id scope = value)
      | HintAbsent | HintUnknown => false
      end
  | Table scope =>
      match context_extraction c with
      | ExtractKey schema table _ _ =>
          match schema with
          | Some actual => bool_decide (actual = scope_schema scope)
          | None => false
          end && bool_decide (table = scope_table scope)
      | ExtractUnknown => false
      end
  end.

Definition route_map_matches_explicit_hint (m : ShardRouteMap) (hint : ShardHint) : bool :=
  match explicit_shard_id hint with
  | Some shard_id => existsb (fun r => bool_decide (route_shard_id r = shard_id)) (map_routes m)
  | None => true
  end.

Definition select_route_for_shard_id (rs : list ShardRoute) (shard_id : str) : option ShardRoute :=
  find (fun r => bool_decide (route_shard_id r = shard_id)) rs.

Definition single_route (rs : list ShardRoute) : option ShardRoute :=
  match rs with [r] => Some r | _ => None end.

Definition select_route_for_shard_key (rs : list ShardRoute) (strategy : ShardStrategy)
    (key : ShardKey) : option ShardRoute :=
  match rs with
  | [] => None
  | _ :: _ =>
      match strategy with
      | StrategyHash => rs !! Z.to_nat (deterministic_shard_hash key mod len rs)
      | StrategyList =>
          match key with
          | KText text =>
              match find (fun r => bool_decide (route_shard_id r = text)) rs with
              | Some r => Some r
              | None => single_route rs
              end
          | _ => single_route rs
          end
      | StrategyRange => single_route rs
      end
  end.

(** [choose_shard_route]: the shard's route with the role the statement gets,
    else the shard's first. *)
Definition choose_shard_route (m : ShardRouteMap) (route : ShardRoute) (why : ShardRouteReason)
    (planner : ShardRoutingPlanner) (c : ShardRoutingContext) : option ShardRouteDecision :=
  target ← choose_routing_target (read_routing planner) (routing_context c);
  let target_role := target_backend_role target in
  let same r := bool_decide (route_shard_id r = route_shard_id route) in
  let selected :=
    match find (fun r => same r
                  && bool_decide (Some (shard_backend_role (route_target r)) = target_role)) (map_routes m) with
    | Some r => Some r
    | None => find same (map_routes m)
    end in
  Some {| decision_route := selected; decision_reason := why; decision_policy := map_policy m |}.

(** The loop over the route maps that match the context: the first that also
    matches the hint, else the first. *)
Definition select_route_map (c : ShardRoutingContext) (hint : ShardHint) (maps : list ShardRouteMap)
    : option ShardRouteMap :=
  let matching := filter (fun m => route_map_matches_context m c = true) maps in
  match find (fun m => route_map_matches_explicit_hint m hint) matching with
  | Some m => Some m
  | None => head matching
  end.

Definition strategy_reason (s : ShardStrategy) : ShardRouteReason :=
  match s with
  | StrategyHash => HashMatch
  | StrategyRange => RangeMatch
  | StrategyList => ListMatch
  end.

Definition no_route (why : ShardRouteReason) (policy : MultiShardPolicy) : ShardRouteDecision :=
  {| decision_route := None; decision_reason := why; decision_policy := policy |}.

Definition plan_sharded_route (planner : ShardRoutingPlanner) (c : ShardRoutingContext)
    : option ShardRouteDecision :=
  if negb (sharding_enabled planner) then Some (no_route NoMatch Reject)
  else
    let explicit_hint := extract_shard_hint (sc_sql c) in
    match select_route_map c explicit_hint (planner_route_maps planner) with
    | None => Some (no_route NoMatch Reject)
    | Some m =>
        if bool_decide (explicit_hint = HintUnknown) && contains (lit "pg-kinetic:") (sc_sql c) then
          Some (no_route ValidationFailed (map_policy m))
        else
          match explicit_shard_id explicit_hint with
          | Some shard_id =>
              match select_route_for_shard_id (map_routes m) shard_id with
              | Some route => choose_shard_route m route AdminOverride planner c
              | None => Some (no_route ValidationFailed (map_policy m))
              end
          | None =>
              match context_extraction c with
              | ExtractKey _ _ _ key =>
                  match select_route_for_shard_key (map_routes m) (map_strategy m) key with
                  | Some route =>
                      choose_shard_route m route (strategy_reason (map_strategy m)) planner c
                  | None => Some (no_route NoMatch (map_policy m))
                  end
              | ExtractUnknown => Some (no_route NoMatch (map_policy m))
              end
          end
    end.

Definition apply_multi_shard_policy (p : FallbackPolicy) : RoutingTarget :=
  match p with
  | FallbackToPrimary => ToPrimary TFallbackPrimary
  | FallbackRejects => ToReject TFallbackReject
  | FallbackWaits => ToWait TFallbackWait
  end.

(** [bridge_shard_route_decision] of [routing.rs]. *)
Definition bridge_shard_route_decision (d : ShardRouteDecision) (sql : str)
    (planner : ReadRoutingPlanner) : option RoutingDecision :=
  a ← analyze_sql sql;
  let role :=
    match decision_route d with
    | Some r => shard_backend_role (route_target r)
    | None => UnknownRole
    end in
  let why :=
    match decision_reason d with
    | AdminOverride | HashMatch | RangeMatch | ListMatch =>
        match role with
        | Primary => RReadOnlyQuery
        | Replica => RReadCandidateQuery
        | UnknownRole => RUnknownQuery
        end
    | MultiShardRejected | ValidationFailed => RFallbackReject
    | NoMatch =>
        match pl_fallback_policy planner with
        | FallbackToPrimary => RFallbackPrimary
        | FallbackRejects => RFallbackReject
        | FallbackWaits => RFallbackWait
        end
    end in
  Some {| target_role := role; query_class := an_query_class a; hint := an_routing_hint a;
          reason := why; fallback_policy := pl_fallback_policy planner;
          freshness_requirement := pl_freshness_policy planner |}.

Definition choose_sharded_routing_target (planner : ShardRoutingPlanner) (c : ShardRoutingContext)
    : option RoutingTarget :=
  if negb (sharding_enabled planner) then
    choose_routing_target (read_routing planner) (routing_context c)
  else
    decision ← plan_sharded_route planner c;
    _ ← bridge_shard_route_decision decision (sc_sql c) (read_routing planner);
    match decision_route decision with
    | Some _ => choose_routing_target (read_routing planner) (routing_context c)
    | None =>
        match decision_reason decision with
        | ValidationFailed | MultiShardRejected => Some (ToReject TFallbackReject)
        | NoMatch | AdminOverride | HashMatch | RangeMatch | ListMatch =>
            Some (apply_multi_shard_policy (pl_fallback_policy (read_routing planner)))
        end
    end.

(** [apply_policy_action_to_sharded_routing_target]. *)
Definition apply_policy_action_to_sharded_routing_target (planner : ShardRoutingPlanner)
    (c : ShardRoutingContext) (current_target : RoutingTarget) (action : option PolicyAction)
    : option RoutingTarget :=
  target ←
    match action with
    | None | Some ActAllow => Some current_target
    | Some (ActDeny _ _) => Some (ToReject TPolicyDenied)
    | Some ActRequirePrimary => Some (ToPrimary TPolicyRequirePrimary)
    | Some ActRequireReplica =>
        let replica_planner :=
          {| read_routing_mode := RequireReplica;
             pl_fallback_policy := pl_fallback_policy (read_routing planner);
             pl_freshness_policy := pl_freshness_policy (read_routing planner);
             max_replica_lag_ms := max_replica_lag_ms (read_routing planner) |} in
        t ← choose_routing_target replica_planner (routing_context c);
        Some (match t with
              | ToReplica candidate _ => ToReplica candidate TPolicyRequireReplica
              | ToPrimary _ => ToPrimary TPolicyRequireReplica
              | ToWait _ | ToReject _ => ToReject TPolicyRequireReplica
              end)
    | Some (ActRouteOverride _) =>
        Some (map_routing_target_reason current_target TPolicyRouteOverride)
    | Some (ActShardOverride _) =>
        Some (map_routing_target_reason current_target TPolicyShardOverride)
    end;
  ensure_policy_action_target_is_safe (read_routing planner) (routing_context c) target.

(** ** The offline preview *)

Record RoutePreviewRequest := {
  req_database : str;
  req_user : str;
  req_application_name : option str;
  req_sql : str;
}.

Inductive ShardScopeConfig :=
| DatabaseUser (database user : str)
| ApplicationName (application_name : str)
| SchemaTable (schema table : str)
| TenantKey (tenant_key : str).

Inductive ShardTargetConfig := PrimaryTarget (shard_id : str) | ReplicasTarget (shard_id : str).

(** [ShardStrategyConfig] and [MultiShardPolicyConfig] have the constructors
    of the types they are turned into. *)
Record RouteMapConfig := {
  cfg_scope : ShardScopeConfig;
  cfg_strategy : ShardStrategy;
  cfg_targets : list ShardTargetConfig;
  cfg_priority : option Z;
}.

Record ShardingConfig := {
  cfg_sharding_enabled : bool;
  cfg_multi_shard_policy : MultiShardPolicy;
  cfg_route_maps : list RouteMapConfig;
}.

(** [RoutePreviewError]: its code, with the error it prints. *)
Inductive RoutePreviewError :=
| InvalidShardId (e : ShardValidationError)
| MultiShardRejectedPreview
| InvalidRouteMap (e : ShardValidationError).

Record RoutePreviewSummary := {
  sum_route : str;
  sum_shard_id : option str;
  sum_backend_role : option BackendRole;
  sum_reason : ShardRouteReason + TargetReason;
  sum_shard_reason : ShardRouteReason;
}.

Definition matches_explicit_tenant_hint (hint : ShardHint) (tenant_key : str) : bool :=
  match hint with
  | HintShard value | HintTenant value | HintRoute value => eq_ignore_ascii_case value tenant_key
  | HintAbsent | HintUnknown => false
  end.

Definition schema_matches_scope (actual : option str) (expected : str) : bool :=
  match actual with Some schema => eq_ignore_ascii_case schema expected | None => false end.

Definition route_map_matches_preview_context (m : RouteMapConfig) (request : RoutePreviewRequest)
    (explicit_hint : ShardHint) (extraction : ShardExtraction) : bool :=
  match cfg_scope m with
  | DatabaseUser database user =>
      eq_ignore_ascii_case (req_database request) database
      && eq_ignore_ascii_case (req_user request) user
  | ApplicationName application_name =>
      match req_application_name request with
      | Some value => eq_ignore_ascii_case value application_name
      | None => false
      end
  | TenantKey tenant_key => matches_explicit_tenant_hint explicit_hint tenant_key
  | SchemaTable schema expected_table =>
      match extraction with
      | ExtractKey actual_schema actual_table _ _ =>
          eq_ignore_ascii_case actual_table expected_table
          && schema_matches_scope actual_schema schema
      | ExtractUnknown => false
      end
  end.

(** [Iterator::min_by_key] on [(priority, index)]: the earlier of equals; the
    indices grow along the list, so only a smaller priority replaces it. *)
Fixpoint min_priority (best : RouteMapConfig) (l : list RouteMapConfig) : RouteMapConfig :=
  match l with
  | [] => best
  | m :: l =>
      min_priority
        (if default U32_MAX (cfg_priority m) <? default U32_MAX (cfg_priority best) then m else best) l
  end.

Definition select_preview_route_map (maps : list RouteMapConfig) (request : RoutePreviewRequest)
    (input : option RouteMapValidationInput) : option RouteMapConfig :=
  let explicit_hint := extract_shard_hint (req_sql request) in
  let extraction :=
    match input with Some i => extract_shard_key (req_sql request) i | None => ExtractUnknown end in
  match filter (fun m => route_map_matches_preview_context m request explicit_hint extraction = true)
          maps with
  | [] => None
  | m :: l => Some (min_priority m l)
  end.

(** The route of one configured target. *)
Definition preview_target (route_key : RouteKey) (t : ShardTargetConfig)
    : result RoutePreviewError ShardRoute :=
  let '(role, id) :=
    match t with PrimaryTarget id => (Primary, id) | ReplicasTarget id => (Replica, id) end in
  match shard_id_new id with
  | Ok shard_id =>
      Ok {| route_target := {| target_route_key := route_key; shard_backend_role := role;
                               target_shard_id := shard_id |};
            route_reason := AdminOverride |}
  | Err e => Err (InvalidShardId e)
  | Panic => Panic
  end.

Fixpoint preview_targets (route_key : RouteKey) (ts : list ShardTargetConfig)
    : result RoutePreviewError (list ShardRoute) :=
  match ts with
  | [] => Ok []
  | t :: ts => r ← preview_target route_key t; rs ← preview_targets route_key ts; Ok (r :: rs)
  end.

Definition build_preview_route_map (m : RouteMapConfig) (route_key : RouteKey)
    (policy : MultiShardPolicy) : result RoutePreviewError ShardRouteMap :=
  let scope :=
    match cfg_scope m with
    | DatabaseUser _ _ | ApplicationName _ => Global
    | SchemaTable schema table => Table {| scope_schema := schema; scope_table := table |}
    | TenantKey tenant_key => Tenant {| tenant_id := tenant_key |}
    end in
  rs ← preview_targets route_key (cfg_targets m);
  match route_map_new scope (cfg_strategy m) policy rs with
  | Ok map => Ok map
  | Err MultiShardRejectedErr => Err MultiShardRejectedPreview
  | Err e => Err (InvalidRouteMap e)
  | Panic => Panic
  end.

Definition preview_route_map_validation_input (maps : list RouteMapConfig)
    : option RouteMapValidationInput :=
  let tables := omap (fun m =>
    match cfg_scope m with
    | SchemaTable schema table =>
        Some {| table_name := schema ++ lit "." ++ table; table_enabled := true;
                shard_key_column := Some (lit "tenant_id") |}
    | _ => None
    end) maps in
  match tables with
  | [] => None
  | _ :: _ =>
      Some {| routes := [{| route_name := lit "primary"; priority := None; is_default := true |}];
              sharded_tables := tables; shard_rules := [] |}
  end.

(** A healthy replica for every replica route. *)
Definition preview_route_health_snapshot (maps : list ShardRouteMap) : list ReplicaCandidate :=
  imap (fun offset _ =>
      {| replica_id := Z.of_nat offset + 1; healthy := true; split_brain := false;
         replay_lsn := None; lag_ms := Some 0 |})
    (filter (fun r => shard_backend_role (route_target r) = Replica) (maps ≫= map_routes)).

(** [RoutingTarget::reason]. *)
Definition target_reason_of (t : RoutingTarget) : TargetReason :=
  match t with ToPrimary r | ToReplica _ r | ToWait r | ToReject r => r end.

Definition preview_route (config : ShardingConfig) (request : RoutePreviewRequest)
    : result RoutePreviewError (option RoutePreviewSummary) :=
  let route_key := route_key_new (req_database request) (req_user request)
                     (req_application_name request) None RouteClass.Default in
  let input := preview_route_map_validation_input (cfg_route_maps config) in
  maps ← match select_preview_route_map (cfg_route_maps config) request input with
         | Some m =>
             map ← build_preview_route_map m route_key (cfg_multi_shard_policy config); Ok [map]
         | None => Ok []
         end;
  let planner := {|
    read_routing := {| read_routing_mode := PreferReplica; pl_fallback_policy := FallbackToPrimary;
                       pl_freshness_policy := FreshNone; max_replica_lag_ms := 1000 |};
    sharding_enabled := cfg_sharding_enabled config;
    planner_route_maps := maps;
  |} in
  let c := {|
    sc_sql := req_sql request;
    sc_transaction_state := TxIdle;
    sc_read_after_write_state := Virtual.RawDisabled;
    sc_health := preview_route_health_snapshot maps;
    sc_validation_input := input;
  |} in
  Ok (decision ← plan_sharded_route planner c;
      target ← choose_sharded_routing_target planner c;
      let '(id, role, why) :=
        match decision_route decision with
        | Some r => (Some (route_shard_id r), Some (shard_backend_role (route_target r)),
                     inl (decision_reason decision))
        | None => (None, target_backend_role target, inr (target_reason_of target))
        end in
      Some {| sum_route := rk_metric_label route_key; sum_shard_id := id; sum_backend_role := role;
              sum_reason := why; sum_shard_reason := decision_reason decision |}).

(** ** The store of route maps *)

Inductive RouteMapReloadErrorCode :=
| EmptyRouteMapSet | ConflictingRouteScopes | ActiveTransactionsRequireMigrationOverride.

Record RouteMapReloadResult := {
  reload_success : bool;
  route_map_generation_id : Z;
  error_code : option RouteMapReloadErrorCode;
  reload_draining : list ShardId;
}.

(** [ShardRouteMapStoreInner]. *)
Record ShardRouteMapStore := {
  store_maps : list ShardRouteMap;
  generation_id : Z;
  affinities : gmap Z ShardId;
  draining : gset ShardId;
}.

(** [ShardRouteMapStore::new]. *)
Definition store_new (maps : list ShardRouteMap) : ShardRouteMapStore :=
  {| store_maps := maps; generation_id := 0; affinities := ∅; draining := ∅ |}.

Definition route_map_shard_ids (maps : list ShardRouteMap) : gset ShardId :=
  list_to_set (maps ≫= fun m => route_shard_id <$> map_routes m).

Definition current_shard_ids (s : ShardRouteMapStore) : gset ShardId :=
  route_map_shard_ids (store_maps s).

(** The values of the affinities. *)
Definition affinity_shards (a : gmap Z ShardId) : gset ShardId := list_to_set (map_to_list a).*2.

Definition active_transaction_shard_ids (s : ShardRouteMapStore) : gset ShardId :=
  affinity_shards (affinities s).

Definition refresh_draining_shards (s : ShardRouteMapStore) : ShardRouteMapStore := {|
  store_maps := store_maps s;
  generation_id := generation_id s;
  affinities := affinities s;
  draining := filter (fun id => id ∉ current_shard_ids s) (active_transaction_shard_ids s);
|}.

Definition with_affinities (s : ShardRouteMapStore) (a : gmap Z ShardId) : ShardRouteMapStore :=
  {| store_maps := store_maps s; generation_id := generation_id s; affinities := a;
     draining := draining s |}.

Definition set_transaction_shard_affinity (s : ShardRouteMapStore) (session : Z) (id : ShardId)
    : ShardRouteMapStore :=
  refresh_draining_shards (with_affinities s (<[session := id]> (affinities s))).

Definition clear_transaction_shard_affinity (s : ShardRouteMapStore) (session : Z)
    : ShardRouteMapStore * option ShardId :=
  (refresh_draining_shards (with_affinities s (delete session (affinities s))),
   affinities s !! session).

(** [draining_shard_ids]: the set in the order of its names. *)
Definition draining_shard_ids (s : ShardRouteMapStore) : list ShardId :=
  sort_by str_le (elements (draining s)).

Fixpoint check_scopes (seen : list ShardScope) (maps : list ShardRouteMap)
    : result RouteMapReloadErrorCode unit :=
  match maps with
  | [] => Ok tt
  | m :: maps =>
      if bool_decide (map_scope m ∈ seen) then Err ConflictingRouteScopes
      else check_scopes (map_scope m :: seen) maps
  end.

Definition validate_reload_route_maps (maps : list ShardRouteMap)
    : result RouteMapReloadErrorCode unit :=
  match maps with [] => Err EmptyRouteMapSet | _ :: _ => check_scopes [] maps end.

Definition reload_refused (s : ShardRouteMapStore) (code : RouteMapReloadErrorCode)
    : RouteMapReloadResult :=
  {| reload_success := false; route_map_generation_id := generation_id s;
     error_code := Some code; reload_draining := draining_shard_ids s |}.

(** [reload]: the snapshot store and the error's text aside. *)
Definition reload (s : ShardRouteMapStore) (maps : list ShardRouteMap)
    (rebalance_plan : option ShardRebalancePlan) : ShardRouteMapStore * RouteMapReloadResult :=
  match validate_reload_route_maps maps with
  | Ok _ =>
      let override :=
        match rebalance_plan with Some p => migration_override_explicit p | None => false end in
      let removed := current_shard_ids s ∖ route_map_shard_ids maps in
      if negb override && bool_decide (removed ∩ active_transaction_shard_ids s <> ∅) then
        (s, reload_refused s ActiveTransactionsRequireMigrationOverride)
      else
        let next_generation := wrap_u 64 (generation_id s + 1) in
        let s' := refresh_draining_shards
                    {| store_maps := maps; generation_id := next_generation;
                       affinities := affinities s; draining := draining s |} in
        (s', {| reload_success := true; route_map_generation_id := next_generation;
                error_code := None; reload_draining := draining_shard_ids s' |})
  | Err code => (s, reload_refused s code)
  | Panic => (s, reload_refused s EmptyRouteMapSet)
  end.

(** ** Facts: planning *)

Section PlanningFacts.
Lemma find_Some_spec {A} (p : A -> bool) l x : find p l = Some x -> x ∈ l /\ p x = true.
Proof. intros [Hx Hp]%find_some. by apply list_elem_of_In in Hx. Qed.

Lemma find_None_spec {A} (p : A -> bool) l x : find p l = None -> x ∈ l -> p x = false.
Proof. intros H Hx. eapply find_none; [done|]. by apply list_elem_of_In. Qed.

Lemma select_route_map_spec c h maps m :
  select_route_map c h maps = Some m -> m ∈ maps /\ route_map_matches_context m c = true.
Proof.
  unfold select_route_map. destruct (find _ _) as [m'|] eqn:Hf.
  - intros [= ->]. apply find_Some_spec in Hf as [Hf _]. apply list_elem_of_filter in Hf. tauto.
  - intros H. apply head_Some_elem_of, list_elem_of_filter in H. tauto.
Qed.

Lemma single_route_elem rs r : single_route rs = Some r -> r ∈ rs.
Proof. destruct rs as [|x [|y rs]]; cbn; try done. intros [= ->]. left. Qed.

Lemma select_route_for_shard_key_elem rs strategy k r :
  select_route_for_shard_key rs strategy k = Some r -> r ∈ rs.
Proof.
  destruct rs as [|x rs]; [done|]. unfold select_route_for_shard_key.
  destruct strategy; [apply list_elem_of_lookup_2|apply single_route_elem|].
  destruct k; [|apply single_route_elem..].
  destruct (find _ (x :: rs)) as [y|] eqn:Hf; [|apply single_route_elem].
  intros [= ->]. by apply find_Some_spec in Hf as [? _].
Qed.

(** The chosen route is one of the map's for the shard that was selected. *)
Lemma choose_shard_route_spec m route why planner c :
  route ∈ map_routes m ->
  exists d r, choose_shard_route m route why planner c = Some d /\
    decision_route d = Some r /\ r ∈ map_routes m /\ route_shard_id r = route_shard_id route /\
    decision_reason d = why /\ decision_policy d = map_policy m.
Proof.
  intros Hr. unfold choose_shard_route, choose_routing_target.
  destruct (ctx_analysis_total (routing_context c)) as [a ->]. cbn [mbind option_bind].
  destruct (find _ (map_routes m)) as [r|] eqn:Hf.
  - apply find_Some_spec in Hf as [Hm Hs]. apply andb_true_iff in Hs as [Hs _].
    apply bool_decide_eq_true in Hs. by eexists _, r.
  - destruct (find (fun r => bool_decide (route_shard_id r = route_shard_id route)) (map_routes m))
      as [r|] eqn:Hf2.
    + apply find_Some_spec in Hf2 as [Hm Hs]. apply bool_decide_eq_true in Hs. by eexists _, r.
    + eapply find_None_spec in Hf2; [|exact Hr]. by apply bool_decide_eq_false in Hf2.
Qed.

(** The map selected for a hint lacks its shard only if every one does. *)
Lemma select_route_map_misses c hint id maps m m' :
  explicit_shard_id hint = Some id -> select_route_map c hint maps = Some m ->
  select_route_for_shard_id (map_routes m) id = None ->
  m' ∈ maps -> route_map_matches_context m' c = true -> id ∉ route_shard_id <$> map_routes m'.
Proof.
  intros Hid Hm Hsel Hm' Hc' (r & Hr & Hrm)%list_elem_of_fmap. unfold select_route_map in Hm.
  assert (Hhit : route_map_matches_explicit_hint m' hint = true).
  { unfold route_map_matches_explicit_hint. rewrite Hid. apply existsb_exists.
    exists r. split; [by apply list_elem_of_In|by apply bool_decide_eq_true]. }
  destruct (find _ _) as [m0|] eqn:Hf in Hm.
  - injection Hm as ->. apply find_Some_spec in Hf as [_ Hf].
    unfold route_map_matches_explicit_hint in Hf. rewrite Hid in Hf.
    apply existsb_exists in Hf as (q & Hq & Hqid). apply list_elem_of_In in Hq.
    unfold select_route_for_shard_id in Hsel.
    eapply find_None_spec in Hsel; [|exact Hq]. congruence.
  - eapply find_None_spec in Hf; [|apply list_elem_of_filter; split; [exact Hc'|exact Hm']].
    congruence.
Qed.

Lemma plan_sharded_route_total planner c : is_Some (plan_sharded_route planner c).
Proof.
  assert (Hc : forall m r why, is_Some (choose_shard_route m r why planner c)).
  { intros. unfold choose_shard_route, choose_routing_target.
    destruct (ctx_analysis_total (routing_context c)) as [a ->]. done. }
  unfold plan_sharded_route. split_matches; done.
Qed.

Lemma bridge_total d sql planner : is_Some (bridge_shard_route_decision d sql planner).
Proof. unfold bridge_shard_route_decision. by destruct (analyze_total sql) as [a ->]. Qed.

Lemma choose_sharded_safe planner c a :
  ctx_analysis (routing_context c) = Some a ->
  exists t, choose_sharded_routing_target planner c = Some t /\ safe_read (routing_context c) a t /\
    forall d, sharding_enabled planner = true -> plan_sharded_route planner c = Some d ->
      decision_route d = None -> decision_reason d = ValidationFailed -> t = ToReject TFallbackReject.
Proof.
  intros Ha. unfold choose_sharded_routing_target, choose_routing_target. rewrite Ha.
  cbn [mbind option_bind]. pose proof (choose_safe_read (read_routing planner) (routing_context c) a).
  destruct (sharding_enabled planner); cbn [negb]; [|by eexists].
  destruct (plan_sharded_route_total planner c) as [d ->]. cbn [mbind option_bind].
  destruct (bridge_total d (sc_sql c) (read_routing planner)) as [b ->]. cbn [mbind option_bind].
  destruct (decision_route d) eqn:Hr.
  { eexists. split_and!; [done|done|]. intros d' _ [= <-]. by rewrite Hr. }
  destruct (decision_reason d) eqn:Hw; eexists; (split_and!; [done| |]);
    try (by destruct (pl_fallback_policy (read_routing planner))); try done;
    intros d' _ [= <-] _; by rewrite Hw.
Qed.
End PlanningFacts.

(** What the plan must be, from the hint, the extraction and the maps. *)
Definition plan_meaning (planner : ShardRoutingPlanner) (c : ShardRoutingContext)
    (d : ShardRouteDecision) : Prop :=
  match decision_route d with
  | Some r =>
      exists m, m ∈ planner_route_maps planner /\ route_map_matches_context m c = true /\
        r ∈ map_routes m /\ decision_policy d = map_policy m /\
        match explicit_shard_id (extract_shard_hint (sc_sql c)) with
        | Some id => route_shard_id r = id /\ decision_reason d = AdminOverride
        | None =>
            decision_reason d = strategy_reason (map_strategy m) /\
            exists schema table column key r0,
              context_extraction c = ExtractKey schema table column key /\
              select_route_for_shard_key (map_routes m) (map_strategy m) key = Some r0 /\
              route_shard_id r = route_shard_id r0
        end
  | None =>
      match explicit_shard_id (extract_shard_hint (sc_sql c)) with
      | Some id =>
          forall m, m ∈ planner_route_maps planner -> route_map_matches_context m c = true ->
            id ∉ route_shard_id <$> map_routes m
      | None => decision_reason d = NoMatch \/ decision_reason d = ValidationFailed
      end
  end.

(** C15. With sharding on, every statement gets a decision. A route comes from
    a route map whose scope matches the statement: with a shard hint it is a
    route of that very shard, without one it is the shard that the map's
    strategy gives to the key extracted from the statement. A hint for a
    shard that some matching map has always leads to that shard; a hint
    nobody knows never falls back to another shard. *)
Theorem sharded_plan_exact (planner : ShardRoutingPlanner) (c : ShardRoutingContext) :
  sharding_enabled planner = true ->
  exists d, plan_sharded_route planner c = Some d /\ plan_meaning planner c d.
Proof.
  intros He. unfold plan_sharded_route. rewrite He. cbn [negb].
  remember (extract_shard_hint (sc_sql c)) as hint eqn:Hh.
  destruct (select_route_map c hint (planner_route_maps planner)) as [m|] eqn:Hm.
  - pose proof (select_route_map_spec _ _ _ _ Hm) as [Hin Hctx].
    destruct (bool_decide (hint = HintUnknown) && _) eqn:Hbad.
    { eexists. split; [done|]. apply andb_true_iff in Hbad as [Hu%bool_decide_eq_true _].
      unfold plan_meaning. rewrite <- Hh. cbn. rewrite Hu. by right. }
    destruct (explicit_shard_id hint) as [id|] eqn:Hid.
    + destruct (select_route_for_shard_id (map_routes m) id) as [route|] eqn:Hsel.
      * apply find_Some_spec in Hsel as [Hr Hs%bool_decide_eq_true].
        destruct (choose_shard_route_spec m route AdminOverride planner c Hr)
          as (d & r & -> & Hd & Hrm & Hrid & Hwhy & Hpol).
        exists d. split; [done|]. unfold plan_meaning. rewrite <- Hh. rewrite Hd, Hid.
        exists m. split_and!; try done. congruence.
      * eexists. split; [done|]. unfold plan_meaning. rewrite <- Hh. cbn. rewrite Hid.
        intros m'. by eapply (select_route_map_misses c hint id _ m m').
    + destruct (context_extraction c) as [|schema table column key] eqn:Hx.
      { eexists. split; [done|]. unfold plan_meaning. rewrite <- Hh. cbn. rewrite Hid. by left. }
      destruct (select_route_for_shard_key (map_routes m) (map_strategy m) key) as [route|] eqn:Hsel.
      * pose proof (select_route_for_shard_key_elem _ _ _ _ Hsel) as Hr.
        destruct (choose_shard_route_spec m route (strategy_reason (map_strategy m)) planner c Hr)
          as (d & r & -> & Hd & Hrm & Hrid & Hwhy & Hpol).
        exists d. split; [done|]. unfold plan_meaning. rewrite <- Hh. rewrite Hd, Hid.
        exists m. split_and!; try done. exists schema, table, column, key, route. done.
      * eexists. split; [done|]. unfold plan_meaning. rewrite <- Hh. cbn. rewrite Hid. by left.
  - eexists. split; [done|]. unfold plan_meaning. rewrite <- Hh. cbn.
    destruct (explicit_shard_id hint); [|by left]. intros m Hin Hc _.
    unfold select_route_map in Hm. destruct (find _ _); [done|].
    apply head_None in Hm. assert (Hf : m ∈ filter (fun m => route_map_matches_context m c = true)
      (planner_route_maps planner)) by (by apply list_elem_of_filter).
    rewrite Hm in Hf. by apply not_elem_of_nil in Hf.
Qed.

(** A statement with a hint for the second shard of a global route map. *)
Definition example_key : RouteKey := route_key_new (lit "db") (lit "app") None None RouteClass.Default.

Definition example_route (role : BackendRole) (id : str) : ShardRoute :=
  {| route_target := {| target_route_key := example_key; shard_backend_role := role;
                        target_shard_id := id |};
     route_reason := AdminOverride |}.

Definition example_route_map : ShardRouteMap :=
  {| map_scope := Global; map_strategy := StrategyHash; map_policy := FirstMatch;
     map_routes := [example_route Primary (lit "shard-a"); example_route Replica (lit "shard-b")] |}.

Definition example_shard_planner : ShardRoutingPlanner :=
  {| read_routing := {| read_routing_mode := PreferReplica; pl_fallback_policy := FallbackToPrimary;
                        pl_freshness_policy := FreshNone; max_replica_lag_ms := 1000 |};
     sharding_enabled := true; planner_route_maps := [example_route_map] |}.

Definition example_shard_context (sql : string) : ShardRoutingContext :=
  {| sc_sql := lit sql; sc_transaction_state := TxIdle;
     sc_read_after_write_state := Virtual.RawDisabled; sc_health := [];
     sc_validation_input := None |}.

Lemma sharded_plan_exact_witness :
  (exists d, plan_sharded_route example_shard_planner
               (example_shard_context "/* pg-kinetic: shard=shard-b */ select 1") = Some d /\
     plan_meaning example_shard_planner
       (example_shard_context "/* pg-kinetic: shard=shard-b */ select 1") d) /\
  plan_sharded_route example_shard_planner
    (example_shard_context "/* pg-kinetic: shard=shard-b */ select 1")
  = Some {| decision_route := Some (example_route Replica (lit "shard-b"));
            decision_reason := AdminOverride; decision_policy := FirstMatch |}.
Proof. split; [apply sharded_plan_exact; reflexivity|vm_compute; reflexivity]. Defined.

(** The target of a sharded statement keeps the safety of read routing:
    it always exists, and if it is a replica, that replica is a healthy, not
    split-brain candidate, the session is outside a transaction and the
    statement is a read; the same holds after any policy action. A statement
    whose hint is malformed or names an unknown shard is rejected, whatever
    the fallback policy. *)
Theorem sharded_targets_safe (planner : ShardRoutingPlanner) (c : ShardRoutingContext)
    (action : option PolicyAction) :
  exists t t' a,
    choose_sharded_routing_target planner c = Some t /\
    apply_policy_action_to_sharded_routing_target planner c t action = Some t' /\
    ctx_analysis (routing_context c) = Some a /\
    safe_read (routing_context c) a t /\ safe_read (routing_context c) a t' /\
    (forall r s, action = Some (ActDeny r s) -> t' = ToReject TPolicyDenied) /\
    (sharding_enabled planner = true ->
     (exists d, plan_sharded_route planner c = Some d /\ decision_route d = None /\
                decision_reason d = ValidationFailed) -> t = ToReject TFallbackReject).
Proof.
  destruct (ctx_analysis_total (routing_context c)) as [a Ha].
  destruct (choose_sharded_safe planner c a Ha) as (t & Ht & Hsafe & Hrej).
  assert (Hgo : forall u, safe_read (routing_context c) a u -> exists t',
    ensure_policy_action_target_is_safe (read_routing planner) (routing_context c) u = Some t' /\
    safe_read (routing_context c) a t' /\ (target_backend_role u <> Some Replica -> t' = u))
    by (intros u; by apply ensure_safe_read).
  assert (Hact : exists t', apply_policy_action_to_sharded_routing_target planner c t action = Some t' /\
    safe_read (routing_context c) a t' /\ (forall r s, action = Some (ActDeny r s) -> t' = ToReject TPolicyDenied)).
  { unfold apply_policy_action_to_sharded_routing_target, choose_routing_target. rewrite Ha.
    destruct action as [[|why code| | |id|id]|]; cbn [mbind option_bind];
      match goal with
      | |- context [ensure_policy_action_target_is_safe _ _ ?u] =>
          destruct (Hgo u) as (t' & -> & Hs & Hsame);
            [try done; try (by apply map_safe_read)
            |exists t'; split_and!; try done; try (intros; by apply Hsame)]
      end.
    set (rp := {| read_routing_mode := RequireReplica |}). clearbody rp.
    pose proof (choose_safe_read rp (routing_context c) a) as Hr. intros d r E.
    destruct (choose rp (routing_context c) a); try discriminate. injection E as -> _. by eapply Hr. }
  destruct Hact as (t' & Ht' & Hs' & Hd'). exists t, t', a. split_and!; try done.
  intros He (d & Hd & Hnone & Hwhy). by apply (Hrej d).
Qed.

(** ** What the store promises *)

(** The abstract store: the shards the route maps serve, the shard of every
    open transaction and the generation; the shards being drained are those
    in use that are no longer served. *)
Record StoreSpec := {
  spec_shards : gset ShardId;
  spec_active : gmap Z ShardId;
  spec_generation : Z;
}.

Definition in_use (σ : StoreSpec) (id : ShardId) : Prop :=
  exists session, spec_active σ !! session = Some id.

(** The drained shards in the order of their names, each once. *)
Definition lists_draining (σ : StoreSpec) (l : list ShardId) : Prop :=
  ordered str_le l /\ NoDup l /\ forall id, id ∈ l <-> in_use σ id /\ id ∉ spec_shards σ.

Definition plan_overrides (p : option ShardRebalancePlan) : Prop :=
  exists plan, p = Some plan /\ migration_override_explicit plan = true.

(** What makes a set of route maps acceptable: some map, one per scope, and
    every shard in use kept unless the plan says otherwise. *)
Definition scopes_ok (maps : list ShardRouteMap) : Prop :=
  maps <> [] /\ NoDup (map_scope <$> maps).

Definition keeps_shards_in_use (σ : StoreSpec) (maps : list ShardRouteMap) : Prop :=
  forall id, in_use σ id -> id ∈ spec_shards σ -> id ∈ route_map_shard_ids maps.

Inductive StoreOp :=
| OpSet (session : Z) (id : ShardId)
| OpClear (session : Z)
| OpReload (maps : list ShardRouteMap) (plan : option ShardRebalancePlan).

Inductive StoreOut :=
| OutSet
| OutCleared (id : option ShardId)
| OutReload (r : RouteMapReloadResult).

Definition refusal (σ : StoreSpec) (maps : list ShardRouteMap) (plan : option ShardRebalancePlan)
    (code : RouteMapReloadErrorCode) : Prop :=
  match code with
  | EmptyRouteMapSet => maps = []
  | ConflictingRouteScopes => maps <> [] /\ ~ NoDup (map_scope <$> maps)
  | ActiveTransactionsRequireMigrationOverride =>
      scopes_ok maps /\ ~ plan_overrides plan /\ ~ keeps_shards_in_use σ maps
  end.

Inductive spec_step : StoreSpec -> StoreOp -> StoreSpec -> StoreOut -> Prop :=
| spec_set σ session id :
    spec_step σ (OpSet session id)
      {| spec_shards := spec_shards σ; spec_active := <[session := id]> (spec_active σ);
         spec_generation := spec_generation σ |} OutSet
| spec_clear σ session :
    spec_step σ (OpClear session)
      {| spec_shards := spec_shards σ; spec_active := delete session (spec_active σ);
         spec_generation := spec_generation σ |} (OutCleared (spec_active σ !! session))
| spec_reload_done σ maps plan σ' l :
    scopes_ok maps -> plan_overrides plan \/ keeps_shards_in_use σ maps ->
    σ' = {| spec_shards := route_map_shard_ids maps; spec_active := spec_active σ;
            spec_generation := wrap_u 64 (spec_generation σ + 1) |} ->
    lists_draining σ' l ->
    spec_step σ (OpReload maps plan) σ'
      (OutReload {| reload_success := true; route_map_generation_id := spec_generation σ';
                    error_code := None; reload_draining := l |})
| spec_reload_refused σ maps plan code l :
    refusal σ maps plan code -> lists_draining σ l ->
    spec_step σ (OpReload maps plan) σ
      (OutReload {| reload_success := false; route_map_generation_id := spec_generation σ;
                    error_code := Some code; reload_draining := l |}).

Inductive spec_run : StoreSpec -> list (StoreOp * StoreOut) -> StoreSpec -> Prop :=
| spec_run_nil σ : spec_run σ [] σ
| spec_run_cons σ op σ' out rest σ'' :
    spec_step σ op σ' out -> spec_run σ' rest σ'' -> spec_run σ ((op, out) :: rest) σ''.

(** The calls on the implementation, by their lock sections: what a call has
    still to do. The generation is stored while the maps are locked for
    writing, so both change in one section. *)
Inductive CallState :=
| CallSet (session : Z) (id : ShardId)
| CallClear (session : Z)
| CallReload (maps : list ShardRouteMap) (plan : option ShardRebalancePlan)
| CallCheck (maps : list ShardRouteMap) (plan : option ShardRebalancePlan) (generation : Z)
| CallCompare (maps : list ShardRouteMap) (plan : option ShardRebalancePlan) (generation : Z) (active : gset ShardId)
| CallInstall (maps : list ShardRouteMap)
| CallRefuse (generation : Z) (code : RouteMapReloadErrorCode)
| CallRefresh (next : StoreOut + Z)
| CallSawActive (next : StoreOut + Z) (active : gset ShardId)
| CallSawBoth (next : StoreOut + Z) (active current : gset ShardId)
| CallReport (generation : Z)
| CallReturned (out : StoreOut).

Definition with_draining (s : ShardRouteMapStore) (d : gset ShardId) : ShardRouteMapStore :=
  {| store_maps := store_maps s; generation_id := generation_id s; affinities := affinities s; draining := d |}.

(** One lock section; a refresh is followed by the result of the call, or by
    the report of a reload. *)
Definition section_step (s : ShardRouteMapStore) (c : CallState) : option (ShardRouteMapStore * CallState) :=
  match c with
  | CallSet session id =>
      Some (with_affinities s (<[session := id]> (affinities s)), CallRefresh (inl OutSet))
  | CallClear session =>
      Some (with_affinities s (delete session (affinities s)),
            CallRefresh (inl (OutCleared (affinities s !! session))))
  | CallReload maps plan =>
      Some (s, match validate_reload_route_maps maps with
               | Ok _ => CallCheck maps plan (generation_id s)
               | Err code => CallRefuse (generation_id s) code
               | Panic => CallRefuse (generation_id s) EmptyRouteMapSet
               end)
  | CallCheck maps plan g => Some (s, CallCompare maps plan g (active_transaction_shard_ids s))
  | CallCompare maps plan g active =>
      let override := match plan with Some p => migration_override_explicit p | None => false end in
      let removed := current_shard_ids s ∖ route_map_shard_ids maps in
      Some (s, if negb override && bool_decide (removed ∩ active <> ∅)
               then CallRefuse g ActiveTransactionsRequireMigrationOverride else CallInstall maps)
  | CallInstall maps =>
      let g := wrap_u 64 (generation_id s + 1) in
      Some ({| store_maps := maps; generation_id := g; affinities := affinities s; draining := draining s |},
            CallRefresh (inr g))
  | CallRefuse g code =>
      Some (s, CallReturned (OutReload {| reload_success := false; route_map_generation_id := g;
                                          error_code := Some code; reload_draining := draining_shard_ids s |}))
  | CallRefresh next => Some (s, CallSawActive next (active_transaction_shard_ids s))
  | CallSawActive next active => Some (s, CallSawBoth next active (current_shard_ids s))
  | CallSawBoth next active current =>
      Some (with_draining s (filter (fun id => id ∉ current) active),
            match next with inl out => CallReturned out | inr g => CallReport g end)
  | CallReport g =>
      Some (s, CallReturned (OutReload {| reload_success := true; route_map_generation_id := g;
                                          error_code := None; reload_draining := draining_shard_ids s |}))
  | CallReturned _ => None
  end.

(** A call that no other call overlaps; it has at most eight sections. *)
Fixpoint run_alone (fuel : nat) (s : ShardRouteMapStore) (c : CallState) : option (ShardRouteMapStore * StoreOut) :=
  match c, fuel with
  | CallReturned out, _ => Some (s, out)
  | _, O => None
  | c, S fuel => '(s, c) ← section_step s c; run_alone fuel s c
  end.

Definition call_of (op : StoreOp) : CallState :=
  match op with
  | OpSet session id => CallSet session id
  | OpClear session => CallClear session
  | OpReload maps plan => CallReload maps plan
  end.

Definition run_op (s : ShardRouteMapStore) (op : StoreOp) : option (ShardRouteMapStore * StoreOut) :=
  run_alone 8 s (call_of op).

(** Calls one after the other. *)
Fixpoint run_ops (s : ShardRouteMapStore) (ops : list StoreOp)
    : option (ShardRouteMapStore * list (StoreOp * StoreOut)) :=
  match ops with
  | [] => Some (s, [])
  | op :: ops =>
      '(s, out) ← run_op s op;
      '(s, rest) ← run_ops s ops;
      Some (s, (op, out) :: rest)
  end.

(** The abstraction, and the invariant that relates the stored set of drained
    shards to it. *)
Definition store_spec (s : ShardRouteMapStore) : StoreSpec :=
  {| spec_shards := current_shard_ids s; spec_active := affinities s;
     spec_generation := generation_id s |}.

Definition store_inv (s : ShardRouteMapStore) : Prop :=
  forall id, id ∈ draining s <-> in_use (store_spec s) id /\ id ∉ current_shard_ids s.

Section StoreFacts.
Lemma elem_of_affinity_shards a id :
  id ∈ affinity_shards a <-> exists session, a !! session = Some id.
Proof.
  unfold affinity_shards. rewrite elem_of_list_to_set, list_elem_of_fmap. split.
  - intros ([session x] & -> & H%elem_of_map_to_list). eauto.
  - intros [session H]. exists (session, id). split; [done|]. by apply elem_of_map_to_list.
Qed.

Lemma refresh_inv s : store_inv (refresh_draining_shards s).
Proof.
  intros id. cbn. rewrite elem_of_filter. unfold active_transaction_shard_ids.
  rewrite elem_of_affinity_shards. unfold in_use. cbn. tauto.
Qed.

Lemma draining_listed s : store_inv s -> lists_draining (store_spec s) (draining_shard_ids s).
Proof.
  intros Hi. unfold draining_shard_ids. split_and!.
  - apply sort_by_ordered; unfold str_le; eauto using lex_le_total, lex_le_trans.
  - rewrite sort_by_perm. apply NoDup_elements.
  - intros id. rewrite sort_by_perm, elem_of_elements. apply Hi.
Qed.

Lemma check_scopes_spec seen maps :
  match check_scopes seen maps with
  | Ok _ => NoDup (map_scope <$> maps) /\ Forall (fun m => map_scope m ∉ seen) maps
  | Err e => e = ConflictingRouteScopes /\
             ~ (NoDup (map_scope <$> maps) /\ Forall (fun m => map_scope m ∉ seen) maps)
  | Panic => False
  end.
Proof.
  revert seen. induction maps as [|m maps IH]; intros seen; cbn [check_scopes].
  { split; constructor. }
  case_bool_decide as Hm.
  { split; [done|]. rewrite Forall_cons. by intros (_ & H & _). }
  specialize (IH (map_scope m :: seen)).
  assert (Hiff : (NoDup (map_scope <$> m :: maps) /\ Forall (fun q => map_scope q ∉ seen) (m :: maps)) <->
    (NoDup (map_scope <$> maps) /\ Forall (fun q => map_scope q ∉ map_scope m :: seen) maps)).
  { rewrite fmap_cons, NoDup_cons, Forall_cons, !Forall_forall, list_elem_of_fmap. split.
    - intros [[H1 H2] [H3 H4]]. split; [done|]. intros q Hq [Hs|Hs]%elem_of_cons; [|by apply (H4 q)].
      apply H1. by exists q.
    - intros [H1 H2]. split_and!; try done.
      + intros (q & Hs & Hq). apply (H2 q Hq). rewrite Hs. left.
      + intros q Hq Hs. apply (H2 q Hq). by right. }
  destruct (check_scopes (map_scope m :: seen) maps); [by apply Hiff| |done].
  destruct IH as [-> IH]. split; [done|]. by intros H%Hiff.
Qed.

Lemma validate_reload_spec maps :
  match validate_reload_route_maps maps with
  | Ok _ => scopes_ok maps
  | Err EmptyRouteMapSet => maps = []
  | Err ConflictingRouteScopes => maps <> [] /\ ~ NoDup (map_scope <$> maps)
  | _ => False
  end.
Proof.
  unfold validate_reload_route_maps. destruct maps as [|m ms] eqn:Hm; [done|]. rewrite <- Hm.
  pose proof (check_scopes_spec [] maps) as Hc.
  assert (Hall : Forall (fun m => map_scope m ∉ []) maps)
    by (apply Forall_forall; intros q _; apply not_elem_of_nil).
  destruct (check_scopes [] maps) as [[]|e|]; [|destruct Hc as [-> Hc]|done].
  - split; [by subst|tauto].
  - split; [by subst|tauto].
Qed.

(** The test for a removed shard in use. *)
Lemma removed_in_use s maps :
  (current_shard_ids s ∖ route_map_shard_ids maps) ∩ active_transaction_shard_ids s <> ∅ <->
  ~ keeps_shards_in_use (store_spec s) maps.
Proof.
  split.
  - intros Hne Hk. apply Hne, set_eq. intros id.
    rewrite elem_of_intersection, elem_of_difference. unfold active_transaction_shard_ids.
    rewrite elem_of_affinity_shards. split; [|set_solver]. intros [[H1 H2] H3].
    destruct H2. by apply Hk.
  - intros Hk He. apply Hk. intros id Hu Hid. destruct (decide (id ∈ route_map_shard_ids maps)); [done|].
    assert (Hin : id ∈ (current_shard_ids s ∖ route_map_shard_ids maps)
                       ∩ active_transaction_shard_ids s).
    { apply elem_of_intersection. split; [by apply elem_of_difference|].
      by apply elem_of_affinity_shards. }
    rewrite He in Hin. set_solver.
Qed.

Lemma reload_refines s maps plan s' r :
  store_inv s -> reload s maps plan = (s', r) ->
  store_inv s' /\ spec_step (store_spec s) (OpReload maps plan) (store_spec s') (OutReload r).
Proof.
  intros Hi. unfold reload. pose proof (validate_reload_spec maps) as Hv.
  assert (Hrefuse : forall code, refusal (store_spec s) maps plan code ->
    spec_step (store_spec s) (OpReload maps plan) (store_spec s) (OutReload (reload_refused s code))).
  { intros code Hc. by apply spec_reload_refused; [|apply draining_listed]. }
  destruct (validate_reload_route_maps maps) as [[]|code|]; [| |done].
  2: { intros [= <- <-]. split; [done|]. apply Hrefuse. by destruct code. }
  destruct (negb _ && _) eqn:Hb.
  - intros [= <- <-]. split; [done|]. apply Hrefuse.
    apply andb_true_iff in Hb as [Ho Hr]. apply bool_decide_eq_true, removed_in_use in Hr.
    split_and!; [done| |done]. intros (p & -> & Hp). by rewrite Hp in Ho.
  - intros [= <- <-]. split; [apply refresh_inv|].
    eapply spec_reload_done; [done| |reflexivity|apply draining_listed, refresh_inv].
    apply andb_false_iff in Hb as [Ho|Hr].
    + left. destruct plan as [p|]; [|done]. exists p. split; [done|]. by apply negb_false_iff in Ho.
    + right. apply bool_decide_eq_false in Hr. rewrite removed_in_use in Hr.
      intros id Hu Hid. destruct (decide (id ∈ route_map_shard_ids maps)); [done|].
      exfalso. apply Hr. intros Hk. by apply Hk in Hid.
Qed.

Lemma run_alone_S fuel s c :
  (forall out, c <> CallReturned out) ->
  run_alone (S fuel) s c = ('(s, c) ← section_step s c; run_alone fuel s c).
Proof. intros H. destruct c; try reflexivity. by destruct (H out). Qed.

(** Alone, the sections of a call add up to the call. *)
Lemma run_op_atomic s op :
  run_op s op = Some (match op with
    | OpSet session id => (set_transaction_shard_affinity s session id, OutSet)
    | OpClear session =>
        let '(s, removed) := clear_transaction_shard_affinity s session in (s, OutCleared removed)
    | OpReload maps plan => let '(s, r) := reload s maps plan in (s, OutReload r)
    end).
Proof.
  destruct op as [session id|session|maps plan]; [reflexivity|reflexivity|].
  unfold run_op, call_of, reload. rewrite run_alone_S by done. cbn [section_step mbind option_bind].
  destruct (validate_reload_route_maps maps) as [[]|code|]; [|reflexivity|reflexivity].
  rewrite run_alone_S by done. cbn [section_step mbind option_bind].
  rewrite run_alone_S by done. cbn [section_step mbind option_bind].
  destruct (negb _ && _); reflexivity.
Qed.

Lemma run_op_refines s op :
  store_inv s ->
  exists s' out, run_op s op = Some (s', out) /\ store_inv s' /\ spec_step (store_spec s) op (store_spec s') out.
Proof.
  intros Hi. rewrite run_op_atomic. destruct op as [session id|session|maps plan].
  - eexists _, _. split_and!; [done|apply refresh_inv|constructor].
  - eexists _, _. split_and!; [done|apply refresh_inv|constructor].
  - destruct (reload s maps plan) as [s1 r] eqn:Hr. eexists _, _. split; [done|]. by apply reload_refines.
Qed.
End StoreFacts.

(** C16. Calls on the store of route maps that do not overlap behave as the
    abstract store, in any order: every call, run through its lock sections
    before the next one begins, returns; transactions keep the shard they
    were given until they are cleared; a reload is refused, changing nothing,
    exactly when there is no map, two maps share a scope, or a shard in use
    would disappear without an explicit override, and otherwise installs the
    new shards under the next generation; and between calls the drained
    shards, reported in name order, are those in use that are no longer
    served. Nothing is claimed of calls whose sections interleave: see
    [refresh_can_lose_shard] and [reload_can_drop_shard_in_use]. *)
Theorem route_map_store_refines (maps : list ShardRouteMap) (ops : list StoreOp) :
  exists s trace, run_ops (store_new maps) ops = Some (s, trace) /\
    spec_run (store_spec (store_new maps)) trace (store_spec s) /\ trace.*1 = ops /\
    lists_draining (store_spec s) (draining_shard_ids s).
Proof.
  assert (Hi : store_inv (store_new maps)).
  { intros id. cbn. unfold in_use. cbn. setoid_rewrite lookup_empty. set_solver. }
  revert Hi. generalize (store_new maps) as s0. induction ops as [|op ops IH]; intros s0 Hi.
  - exists s0, []. split_and!; [done|constructor|done|by apply draining_listed].
  - destruct (run_op_refines s0 op Hi) as (s1 & out & Ho & Hi1 & Hstep).
    destruct (IH s1 Hi1) as (s & trace & Hr & Hrun & Hops & Hd).
    exists s, ((op, out) :: trace). split_and!; [|by econstructor|cbn; by f_equal|done].
    cbn [run_ops]. rewrite Ho. cbn [mbind option_bind]. by rewrite Hr.
Qed.

(** ** Calls that overlap

    The calls take several locks one after the other:
    [refresh_draining_shards] reads the affinities, then the maps, and only
    then writes the drained set; a reload compares the shards in use before
    it locks the maps for writing. *)
Fixpoint interleave (s : ShardRouteMapStore) (calls : list CallState) (schedule : list nat)
    : option (ShardRouteMapStore * list CallState) :=
  match schedule with
  | [] => Some (s, calls)
  | i :: schedule =>
      c ← calls !! i;
      '(s, c) ← section_step s c;
      interleave s (<[i := c]> calls) schedule
  end.

(** A call that ends a transaction and one that opens a transaction on a
    shard that is no longer served: both return, the shard is in use, and it
    is missing from the drained set. *)
Example refresh_can_lose_shard :
  match interleave (store_new []) [CallClear 1; CallSet 2 (lit "shard-a")] [0; 0; 0; 1; 1; 1; 1; 0]%nat with
  | Some (s, calls) =>
      calls = [CallReturned (OutCleared None); CallReturned OutSet] /\
      affinities s !! 2 = Some (lit "shard-a") /\ current_shard_ids s = ∅ /\ draining s = ∅
  | None => False
  end.
Proof. vm_compute. repeat split; reflexivity. Qed.

(** A reload that compared the shards in use before a transaction was given
    one of those it removes: it succeeds without an override, and the
    transaction's shard is served by no map. *)
Example reload_can_drop_shard_in_use :
  let maps := [{| map_scope := Global; map_strategy := StrategyHash; map_policy := FirstMatch;
                  map_routes := [example_route Replica (lit "shard-b")] |}] in
  match interleave (store_new [example_route_map]) [CallReload maps None; CallSet 1 (lit "shard-a")]
          [0; 0; 1; 0; 0; 0; 0; 0; 0; 1; 1; 1]%nat with
  | Some (s, [CallReturned (OutReload r); CallReturned OutSet]) =>
      reload_success r = true /\ affinities s !! 1 = Some (lit "shard-a") /\
      current_shard_ids s = {[lit "shard-b"]}
  | _ => False
  end.
Proof. vm_compute. repeat split; reflexivity. Qed.
