(* ===== verification/Prepare.v ===== *)
(** * Prepare: prepared statements across pooled backends

    Models [pg-kinetic-core/src/protocol/prepare.rs], the catalogue of a
    session's prepared statements and of the backends that hold them, and
    [prepare_frame_for_backend] of [proxy/forwarding.rs], which rewrites a
    client's frame for one backend.
    The [HashMap]s are [gmap]s; metrics and snapshots are left out. *)

From S2P Require Import Prelude Text Protocol Frame Lsn RoutingTypes Sql SqlClassify Session Cycle.

(** ** The catalogue *)

Inductive InvalidationScope := ScopeNone | ScopeBackend | ScopeAllBackends.

Inductive PreparedShardSummary := CurrentShard | Deferred | ShardOf (id : ShardId).

(** [PreparedShardSummary::shard_id]. *)
Definition summary_shard_id (s : PreparedShardSummary) : option ShardId :=
  match s with ShardOf id => Some id | CurrentShard | Deferred => None end.

Record PreparedStatement := {
  client_name : str;
  backend_name : str;
  st_query : str;
  st_analysis : SqlAnalysis;
  st_command : SqlCommand;
  st_parameter_type_oids : list Z;
  st_route_map_generation_id : Z;
  shard_summary : PreparedShardSummary;
  cache_key : Z;
}.

Record PreparedCatalog := {
  session_id : Z;
  next_statement_id : Z;
  route_map_generation_id : Z;
  statements : gmap str PreparedStatement;
  materialized : gmap Z (gmap Z (option ShardId));
  invalidation_counts : gmap Z Z;
}.

(** [PreparedCatalog::new]. *)
Definition catalog_new (session_id : Z) : PreparedCatalog :=
  {| session_id := session_id; next_statement_id := 1; route_map_generation_id := 0;
     statements := ∅; materialized := ∅; invalidation_counts := ∅ |}.

Definition set_route_map_generation_id (c : PreparedCatalog) (g : Z) : PreparedCatalog :=
  if route_map_generation_id c =? g then c
  else
    {| session_id := session_id c; next_statement_id := next_statement_id c;
       route_map_generation_id := g; statements := statements c;
       materialized := ∅; invalidation_counts := ∅ |}.

(** [remove_materialized_statement] on the map: the key leaves every backend,
    and a backend left without statements leaves the map. *)
Definition remove_materialized (key : Z) (m : gmap Z (gmap Z (option ShardId)))
  : gmap Z (gmap Z (option ShardId)) :=
  if key =? 0 then m
  else omap (fun s => let s' := delete key s in
                      if bool_decide (s' = ∅) then None else Some s') m.

(** [format!("pgk_{}_{}", self.session_id, cache_key)]. *)
Definition pgk_name (session_id key : Z) : str :=
  lit "pgk_" ++ fmt_u64 session_id ++ [95] ++ fmt_u64 key.

(** [upsert]; [None] when [classify] panics on the query. *)
Definition upsert (c : PreparedCatalog) (name query : str) (oids : list Z)
  : option (PreparedCatalog * PreparedStatement) :=
  analysis ← analyze_sql query;
  command ← classify query;
  let '(mat, counts) :=
    match statements c !! name with
    | Some previous =>
        (remove_materialized (cache_key previous) (materialized c),
         delete (cache_key previous) (invalidation_counts c))
    | None => (materialized c, invalidation_counts c)
    end in
  let '(bname, key, next) :=
    if bool_decide (name = []) then ([], 0, next_statement_id c)
    else (pgk_name (session_id c) (next_statement_id c), next_statement_id c,
          wrap_u 64 (next_statement_id c + 1)) in
  let statement :=
    {| client_name := name; backend_name := bname; st_query := query; st_analysis := analysis;
       st_command := command; st_parameter_type_oids := oids;
       st_route_map_generation_id := route_map_generation_id c;
       shard_summary := if bool_decide (name = []) then CurrentShard else Deferred;
       cache_key := key |} in
  Some ({| session_id := session_id c; next_statement_id := next;
           route_map_generation_id := route_map_generation_id c;
           statements := <[name := statement]> (statements c);
           materialized := mat; invalidation_counts := counts |}, statement).

Definition is_current_route_map (c : PreparedCatalog) (st : PreparedStatement) : bool :=
  st_route_map_generation_id st =? route_map_generation_id c.

Definition catalog_get (c : PreparedCatalog) (name : str) : option PreparedStatement :=
  statements c !! name.

Definition get_for_current_route_map (c : PreparedCatalog) (name : str)
  : option PreparedStatement :=
  st ← catalog_get c name;
  if is_current_route_map c st then Some st else None.

(** [remove]: the removed statement, if any. *)
Definition catalog_remove (c : PreparedCatalog) (name : str)
  : PreparedCatalog * option PreparedStatement :=
  match statements c !! name with
  | None => (c, None)
  | Some removed =>
      ({| session_id := session_id c; next_statement_id := next_statement_id c;
          route_map_generation_id := route_map_generation_id c;
          statements := delete name (statements c);
          materialized := remove_materialized (cache_key removed) (materialized c);
          invalidation_counts := delete (cache_key removed) (invalidation_counts c) |},
       Some removed)
  end.

Definition has_named_statements (c : PreparedCatalog) : bool :=
  existsb (fun p => negb (bool_decide (fst p = []))) (map_to_list (statements c)).

(** [is_materialized]. *)
Definition is_materialized (c : PreparedCatalog) (backend_id : Z) (st : PreparedStatement)
  : bool :=
  if negb (is_current_route_map c st) then false
  else if cache_key st =? 0 then true
  else
    match materialized c !! backend_id ≫= (fun s => s !! cache_key st) with
    | Some shard => bool_decide (shard = summary_shard_id (shard_summary st))
    | None => false
    end.

(** [mark_materialized]. *)
Definition mark_materialized (c : PreparedCatalog) (backend_id : Z) (st : PreparedStatement)
  : PreparedCatalog :=
  if (cache_key st =? 0) || negb (is_current_route_map c st) then c
  else
    {| session_id := session_id c; next_statement_id := next_statement_id c;
       route_map_generation_id := route_map_generation_id c; statements := statements c;
       materialized :=
         <[backend_id := <[cache_key st := summary_shard_id (shard_summary st)]>
                           (default ∅ (materialized c !! backend_id))]> (materialized c);
       invalidation_counts := invalidation_counts c |}.

Definition increment_count (counts : gmap Z Z) (key : Z) : gmap Z Z :=
  if key =? 0 then counts else <[key := default 0 (counts !! key) + 1]> counts.

Definition with_invalidated (c : PreparedCatalog) (mat : gmap Z (gmap Z (option ShardId)))
  (keys : list Z) : PreparedCatalog :=
  {| session_id := session_id c; next_statement_id := next_statement_id c;
     route_map_generation_id := route_map_generation_id c; statements := statements c;
     materialized := mat;
     invalidation_counts := fold_left increment_count keys (invalidation_counts c) |}.

(** [invalidate_for_sqlstate]. *)
Definition invalidate_for_sqlstate (c : PreparedCatalog) (s : SqlState) (backend_id : Z)
  : PreparedCatalog * InvalidationScope :=
  match s with
  | InvalidSqlStatementName =>
      (match materialized c !! backend_id with
       | Some stmts =>
           with_invalidated c (delete backend_id (materialized c)) (map_to_list stmts).*1
       | None => c
       end, ScopeBackend)
  | FeatureNotSupported | UndefinedTable | UndefinedColumn =>
      (with_invalidated c ∅ (map_to_list (materialized c) ≫= fun p => (map_to_list (snd p)).*1),
       ScopeAllBackends)
  | _ => (c, ScopeNone)
  end.

(** ** Rewriting a frame for a backend *)

Record PreparedForwardPlan := { prelude : list FrontendFrame; plan_frame : FrontendFrame }.

(** Lift a [None] (a panic) into the outcome. *)
Definition or_panic {E A} (o : option A) : result E A :=
  match o with Some a => Ok a | None => Panic end.

(** The Bind and Describe branches: inject a Parse when the backend does not
    hold the statement. *)
Definition materialize_prelude (c : PreparedCatalog) (backend_id : Z) (st : PreparedStatement)
  : PreparedCatalog * list FrontendFrame :=
  if is_materialized c backend_id st then (c, [])
  else (mark_materialized c backend_id st,
        [build_parse_frame (backend_name st) (st_query st) (st_parameter_type_oids st)]).

(** The part of [prepare_frame_for_backend] after the Bind branch. *)
Definition prepare_describe_close (backend_id : Z) (c : PreparedCatalog) (frame : FrontendFrame)
  : result WireError (PreparedCatalog * PreparedForwardPlan) :=
  describe ← parse_describe_target frame;
  match (match describe with
         | Some (DescribeStatement name) => get_for_current_route_map c name
         | _ => None
         end) with
  | Some st =>
      let '(c, prelude) := materialize_prelude c backend_id st in
      f ← rewrite_describe_statement_name frame (backend_name st);
      Ok (c, {| prelude := prelude; plan_frame := f |})
  | None =>
      close ← parse_close_target frame;
      match close with
      | Some (CloseStatement name) =>
          match catalog_remove c name with
          | (c, Some st) =>
              f ← rewrite_close_statement_name frame (backend_name st);
              Ok (c, {| prelude := []; plan_frame := f |})
          | (c, None) => Ok (c, {| prelude := []; plan_frame := frame |})
          end
      | _ => Ok (c, {| prelude := []; plan_frame := frame |})
      end
  end.

(** [prepare_frame_for_backend]. *)
Definition prepare_frame_for_backend (backend_id : Z) (c : PreparedCatalog)
  (frame : FrontendFrame) : result WireError (PreparedCatalog * PreparedForwardPlan) :=
  parse ← parse_parse_message frame;
  match parse with
  | Some parse =>
      '(c, st) ← or_panic (upsert c (statement_name parse) (query parse)
                             (parameter_type_oids parse));
      let c := mark_materialized c backend_id st in
      f ← rewrite_parse_statement_name frame (backend_name st);
      Ok (c, {| prelude := []; plan_frame := f |})
  | None =>
      bind ← parse_bind_statement_name frame;
      match bind ≫= get_for_current_route_map c with
      | Some st =>
          let '(c, prelude) := materialize_prelude c backend_id st in
          f ← rewrite_bind_statement_name frame (backend_name st);
          Ok (c, {| prelude := prelude; plan_frame := f |})
      | None => prepare_describe_close backend_id c frame
      end
  end.

(** ** Facts: names *)

Section NameFacts.
Lemma pgk_name_inj sid a b :
  0 <= a < 2 ^ 64 -> 0 <= b < 2 ^ 64 -> pgk_name sid a = pgk_name sid b -> a = b.
Proof.
  intros Ha Hb H. unfold pgk_name in H. apply app_inv_head, app_inv_head, app_inv_head in H.
  by apply fmt_u64_inj.
Qed.

Lemma pgk_name_str sid key :
  0 <= sid < 2 ^ 64 -> 0 <= key < 2 ^ 64 ->
  valid_str (pgk_name sid key) /\ no_nul (pgk_name sid key).
Proof.
  intros Hs Hk.
  destruct (dec_digits_spec 20 sid) as [_ Hd1]; [by apply u64_fits|lia|].
  destruct (dec_digits_spec 20 key) as [_ Hd2]; [by apply u64_fits|lia|].
  assert (Hdig : forall l, Forall (fun c => 48 <= c <= 57) l -> valid_str l /\ no_nul l).
  { intros l Hl. split; eapply Forall_impl; try exact Hl; cbn; intros c Hc; [|lia].
    unfold scalar. lia. }
  destruct (Hdig _ Hd1) as [Hv1 Hn1], (Hdig _ Hd2) as [Hv2 Hn2].
  assert (Hu : valid_str [95] /\ no_nul [95])
    by (split; constructor; (done || (unfold scalar; lia))).
  destruct Hu as [Hvu Hnu].
  split; unfold pgk_name, valid_str, no_nul; rewrite !Forall_app; split_and!; try done;
    [apply lit_scalar|by_eval].
Qed.

Lemma pgk_name_prefix sid key : starts_with (lit "pgk_") (pgk_name sid key) = true.
Proof. apply starts_with_true. eexists. reflexivity. Qed.
End NameFacts.

(** ** What the backends were told

    The specification side: the client's own table of statements, and what
    each backend has been told by the Parse and Close frames sent to it. *)

Abbreviation statement_text := (str * list Z)%type.

(** The client's view: a Parse defines a statement, a Close drops it. *)
Definition client_table (t : gmap str statement_text) (f : FrontendFrame)
  : gmap str statement_text :=
  match parse_parse_message f with
  | Ok (Some m) => <[statement_name m := (query m, parameter_type_oids m)]> t
  | _ =>
      match parse_close_target f with
      | Ok (Some (CloseStatement n)) => delete n t
      | _ => t
      end
  end.

(** The same, per backend, for the frames the proxy sends. *)
Definition backend_told (backend_id : Z) (h : gmap (Z * str) statement_text) (f : FrontendFrame)
  : gmap (Z * str) statement_text :=
  match parse_parse_message f with
  | Ok (Some m) => <[(backend_id, statement_name m) := (query m, parameter_type_oids m)]> h
  | _ =>
      match parse_close_target f with
      | Ok (Some (CloseStatement n)) => delete (backend_id, n) h
      | _ => h
      end
  end.

Record World := {
  w_catalog : PreparedCatalog;
  w_table : gmap str statement_text;
  w_told : gmap (Z * str) statement_text;
  w_frames : Z;
}.

(** The client does not name the proxy's own backend statements. *)
Definition own_names (f : FrontendFrame) : Prop :=
  forall n, parse_close_target f = Ok (Some (CloseStatement n)) ->
    starts_with (lit "pgk_") n = false.

(** A frame is prepared for and sent to a backend; a backend reports an
    error; the route map changes. [w_frames] counts the frames. *)
Inductive world_step : World -> World -> Prop :=
| step_frame w b f c plan :
    own_names f ->
    prepare_frame_for_backend b (w_catalog w) f = Ok (c, plan) ->
    world_step w
      {| w_catalog := c; w_table := client_table (w_table w) f;
         w_told := fold_left (backend_told b) (prelude plan ++ [plan_frame plan]) (w_told w);
         w_frames := w_frames w + 1 |}
| step_error w b s :
    world_step w
      {| w_catalog := fst (invalidate_for_sqlstate (w_catalog w) s b);
         w_table := w_table w; w_told := w_told w; w_frames := w_frames w |}
| step_route_map w g :
    world_step w
      {| w_catalog := set_route_map_generation_id (w_catalog w) g;
         w_table := w_table w; w_told := w_told w; w_frames := w_frames w |}.

Definition world_new (sid : Z) : World :=
  {| w_catalog := catalog_new sid; w_table := ∅; w_told := ∅; w_frames := 0 |}.

(** ** The invariant *)

Section CatalogFacts.
Definition text_of (st : PreparedStatement) : statement_text :=
  (st_query st, st_parameter_type_oids st).

(** A statement text that can be encoded in a Parse message. *)
Definition encodable (t : statement_text) : Prop :=
  valid_str (fst t) /\ no_nul (fst t) /\ Forall (i_range 32) (snd t) /\ len (snd t) < 2 ^ 15.

(** The identity of a statement in the catalogue. *)
Definition named_ok (c : PreparedCatalog) (name : str) (st : PreparedStatement) : Prop :=
  if bool_decide (name = []) then cache_key st = 0 /\ backend_name st = []
  else 1 <= cache_key st < next_statement_id c /\
       backend_name st = pgk_name (session_id c) (cache_key st).

Record catalog_ok (c : PreparedCatalog) (told : gmap (Z * str) statement_text) : Prop := {
  ok_range : 0 <= session_id c < 2 ^ 64 /\ 1 <= next_statement_id c < 2 ^ 64;
  ok_named : map_Forall (fun name st => named_ok c name st /\ encodable (text_of st))
               (statements c);
  ok_keys : forall n1 n2 s1 s2, statements c !! n1 = Some s1 -> statements c !! n2 = Some s2 ->
              cache_key s1 = cache_key s2 -> n1 = n2;
  ok_told : forall b ms key sh, materialized c !! b = Some ms -> ms !! key = Some sh ->
              exists name st, statements c !! name = Some st /\ cache_key st = key /\ key <> 0 /\
                told !! (b, backend_name st) = Some (text_of st);
}.

Lemma named_key0 c told name st :
  catalog_ok c told -> statements c !! name = Some st -> cache_key st = 0 -> name = [].
Proof.
  intros Hok Hst H0. destruct (ok_named _ _ Hok name st Hst) as [Hn _]. unfold named_ok in Hn.
  case_bool_decide; [done|]. lia.
Qed.

Lemma named_nonzero c told name st :
  catalog_ok c told -> statements c !! name = Some st -> cache_key st <> 0 ->
  1 <= cache_key st < next_statement_id c /\
  backend_name st = pgk_name (session_id c) (cache_key st).
Proof.
  intros Hok Hst H0. destruct (ok_named _ _ Hok name st Hst) as [Hn _]. unfold named_ok in Hn.
  case_bool_decide; [by destruct Hn|done].
Qed.

(** Backend names identify statements. *)
Lemma backend_name_inj c told n1 n2 s1 s2 :
  catalog_ok c told -> statements c !! n1 = Some s1 -> statements c !! n2 = Some s2 ->
  cache_key s1 <> 0 -> backend_name s1 = backend_name s2 -> cache_key s1 = cache_key s2.
Proof.
  intros Hok H1 H2 Hk Hb. destruct (ok_range _ _ Hok) as [_ Hr].
  destruct (named_nonzero _ _ _ _ Hok H1 Hk) as [Hk1 Hb1].
  destruct (ok_named _ _ Hok n2 s2 H2) as [Hn _]. unfold named_ok in Hn.
  case_bool_decide.
  - destruct Hn as [_ Hn]. rewrite Hb1, Hn in Hb. done.
  - destruct Hn as [Hk2 Hb2]. rewrite Hb1, Hb2 in Hb.
    apply pgk_name_inj in Hb; [done|lia|lia].
Qed.

Lemma backend_name_str c told name st :
  catalog_ok c told -> statements c !! name = Some st ->
  valid_str (backend_name st) /\ no_nul (backend_name st).
Proof.
  intros Hok Hst. destruct (ok_range _ _ Hok) as [Hs Hr].
  destruct (ok_named _ _ Hok name st Hst) as [Hn _]. unfold named_ok in Hn.
  case_bool_decide; destruct Hn as [Hk ->]; [split; constructor|].
  apply pgk_name_str; lia.
Qed.

Lemma remove_materialized_lookup key m b ms :
  key <> 0 -> remove_materialized key m !! b = Some ms ->
  exists ms0, m !! b = Some ms0 /\ ms = delete key ms0.
Proof.
  intros Hk. unfold remove_materialized. rewrite (proj2 (Z.eqb_neq _ _)) by done.
  rewrite lookup_omap. destruct (m !! b) as [ms0|]; [|done]. cbn.
  case_bool_decide; [done|]. intros [= <-]. eauto.
Qed.

(** Forgetting a statement keeps the told property of the others. *)
Lemma remove_materialized_told c told key :
  catalog_ok c told ->
  forall b ms k sh, remove_materialized key (materialized c) !! b = Some ms ->
    ms !! k = Some sh ->
    k <> key /\ exists name st, statements c !! name = Some st /\ cache_key st = k /\ k <> 0 /\
      told !! (b, backend_name st) = Some (text_of st).
Proof.
  intros Hok b ms k sh Hm Hk. destruct (decide (key = 0)) as [->|Hne].
  - unfold remove_materialized in Hm. cbn in Hm.
    destruct (ok_told _ _ Hok _ _ _ _ Hm Hk) as (n & st & H). split; [|eauto].
    destruct H as (_ & _ & H & _). done.
  - apply remove_materialized_lookup in Hm as (ms0 & Hm & ->); [|done].
    apply lookup_delete_Some in Hk as [Hkk Hk]. split; [done|].
    by apply (ok_told _ _ Hok _ _ _ _ Hm Hk).
Qed.

Lemma parse_message_encodable f m :
  parse_parse_message f = Ok (Some m) ->
  valid_str (query m) /\ no_nul (query m) /\ Forall (i_range 32) (parameter_type_oids m) /\
  len (parameter_type_oids m) < 2 ^ 15.
Proof.
  intros H. apply parse_parse_message_inv in H as (rest & _ & _ & _ & Hv & Hn & Hr).
  split; [done|]. split; [done|]. unfold read_parameters in Hr.
  destruct rest as [|c0 [|c1 r]]; [done..|].
  pose proof (i16_from_be_bytes_range c0 c1) as Hrng. unfold i_range in Hrng.
  destruct (Z.ltb_spec (i16_from_be_bytes c0 c1) 0); [done|].
  destruct (Z.ltb_spec (len r) (i16_from_be_bytes c0 c1 * 4)); [done|].
  injection Hr as <-. set (n := i16_from_be_bytes c0 c1) in *.
  assert (Hoids : forall bs, Forall (i_range 32) (read_oids bs) /\
            4 * len (read_oids bs) <= len bs).
  { intros bs. induction bs as [bs IH] using (induction_ltof1 _ (@length Z)). unfold ltof in IH.
    destruct bs as [|a [|b [|d [|e bs]]]]; cbn [read_oids]; try (split; [constructor|unfold len; cbn; lia]).
    destruct (IH bs ltac:(cbn; lia)) as [IH1 IH2]. split.
    - constructor; [apply wrap_i_range; lia|done].
    - unfold len in *. cbn [length]. lia. }
  destruct (Hoids (take (Z.to_nat (n * 4)) r)) as [Ho Hl]. split; [done|].
  unfold len in Hl at 2. rewrite length_take in Hl. lia.
Qed.
End CatalogFacts.

(** ** Every operation keeps the invariant *)

Section CatalogSteps.
Lemma told_insert c told b name st :
  catalog_ok c told -> statements c !! name = Some st ->
  catalog_ok c (<[(b, backend_name st) := text_of st]> told).
Proof.
  intros Hok Hst. destruct Hok as [Hr Hn Hk Ht]. pose proof (Build_catalog_ok _ _ Hr Hn Hk Ht) as Hok.
  constructor; try done. intros b' ms key sh Hm Hkey.
  destruct (Ht _ _ _ _ Hm Hkey) as (n' & st' & Hst' & Hck & Hnz & Htold).
  exists n', st'. split_and!; try done.
  destruct (decide ((b', backend_name st') = (b, backend_name st))) as [Heq|Hne].
  - injection Heq as -> Hbn. rewrite Hbn, lookup_insert_eq.
    assert (cache_key st' = cache_key st) as Hke.
    { eapply backend_name_inj; [done|exact Hst'|exact Hst|lia|done]. }
    assert (n' = name) as -> by (by eapply Hk).
    by simplify_eq.
  - by rewrite lookup_insert_ne by done.
Qed.

Lemma mark_ok c told b name st :
  catalog_ok c told -> statements c !! name = Some st ->
  catalog_ok (mark_materialized c b st) (<[(b, backend_name st) := text_of st]> told).
Proof.
  intros Hok Hst. pose proof (told_insert c told b name st Hok Hst) as Hok'.
  unfold mark_materialized. destruct (Z.eqb_spec (cache_key st) 0) as [|Hnz]; [done|].
  destruct (is_current_route_map c st); [|done]. cbn [orb negb].
  destruct Hok' as [Hr Hn Hk Ht]. constructor; try done.
  intros b' ms key sh Hm Hkey. cbn in Hm. cbn [statements].
  apply lookup_insert_Some in Hm as [[<- <-]|[Hne Hm]]; [|by eapply Ht].
  apply lookup_insert_Some in Hkey as [[<- <-]|[Hne Hkey]].
  - exists name, st. by rewrite lookup_insert_eq.
  - destruct (materialized c !! b) as [ms0|] eqn:Hms0; [|done]. by eapply Ht.
Qed.

Lemma mark_statements c b st : statements (mark_materialized c b st) = statements c.
Proof. unfold mark_materialized. by case_match. Qed.

Lemma mark_next c b st : next_statement_id (mark_materialized c b st) = next_statement_id c.
Proof. unfold mark_materialized. by case_match. Qed.

Lemma upsert_statements c name q oids c' st :
  upsert c name q oids = Some (c', st) ->
  statements c' = <[name := st]> (statements c) /\ text_of st = (q, oids).
Proof.
  unfold upsert. destruct (analyze_sql q); [|done]. cbn [mbind option_bind].
  destruct (classify q); [|done]. cbn [mbind option_bind].
  destruct (statements c !! name); case_bool_decide; intros [= <- <-]; done.
Qed.

Lemma upsert_next c name q oids c' st :
  upsert c name q oids = Some (c', st) -> 0 <= next_statement_id c -> next_statement_id c + 1 < 2 ^ 64 ->
  next_statement_id c <= next_statement_id c' <= next_statement_id c + 1.
Proof.
  unfold upsert. destruct (analyze_sql q); [|done]. cbn [mbind option_bind].
  destruct (classify q); [|done]. cbn [mbind option_bind].
  destruct (statements c !! name); case_bool_decide; intros [= <- <-]; cbn; intros H0 H1;
    unfold wrap_u; rewrite ?Z.mod_small by lia; lia.
Qed.

Lemma upsert_ok c told name q oids c' st :
  catalog_ok c told -> encodable (q, oids) -> next_statement_id c + 1 < 2 ^ 64 ->
  upsert c name q oids = Some (c', st) -> catalog_ok c' told.
Proof.
  intros Hok Henc Hnext H. pose proof (upsert_statements _ _ _ _ _ _ H) as [Hsts Htxt].
  pose proof Hok as [[Hs Hr] Hn Hk Ht].
  assert (Hfacts : session_id c' = session_id c /\ next_statement_id c <= next_statement_id c' < 2 ^ 64 /\
    named_ok c' name st /\ (name <> [] -> cache_key st = next_statement_id c) /\
    materialized c' = match statements c !! name with
                      | Some p => remove_materialized (cache_key p) (materialized c)
                      | None => materialized c
                      end).
  { clear -H Hr Hnext. unfold upsert in H. destruct (analyze_sql q); [|done].
    cbn [mbind option_bind] in H. destruct (classify q); [|done]. cbn [mbind option_bind] in H.
    destruct (statements c !! name); case_bool_decide as Hname; injection H as <- <-;
      unfold named_ok; cbn; rewrite ?(bool_decide_true (name = [])) by done;
      rewrite ?(bool_decide_false (name = [])) by done; unfold wrap_u;
      rewrite ?Z.mod_small by lia; split_and!; (done || lia). }
  destruct Hfacts as (Hsid & Hnx & Hnamed & Hkey & Hmat).
  assert (Hold : forall n p, statements c !! n = Some p -> cache_key p < next_statement_id c).
  { intros n p Hp. destruct (Hn n p Hp) as [Hp' _]. unfold named_ok in Hp'.
    case_bool_decide; lia. }
  constructor.
  - rewrite Hsid. lia.
  - rewrite Hsts. apply map_Forall_insert_2; [by rewrite Htxt|].
    intros n p Hp. destruct (Hn n p Hp) as [Hp' He]. split; [|done].
    unfold named_ok in *. rewrite Hsid. case_bool_decide; [done|]. split; [lia|apply Hp'].
  - intros n1 n2 s1 s2. rewrite Hsts. rewrite !lookup_insert_Some.
    assert (Hfresh : forall n p, name <> n -> statements c !! n = Some p -> cache_key st <> cache_key p).
    { intros n p Hne Hp Heq. destruct (decide (name = [])) as [->|Hnn].
      - unfold named_ok in Hnamed. rewrite bool_decide_true in Hnamed by done.
        destruct Hnamed as [Hz _]. rewrite Hz in Heq. symmetry in Heq.
        by apply (named_key0 _ _ _ _ Hok Hp) in Heq as ->.
      - pose proof (Hold n p Hp). rewrite Hkey in Heq by done. lia. }
    intros [[<- <-]|[Hne1 H1]] [[<- <-]|[Hne2 H2]] Heq; try done.
    + by destruct (Hfresh _ _ Hne2 H2).
    + by destruct (Hfresh _ _ Hne1 H1).
    + by eapply Hk.
  - intros b ms key sh Hm Hks. rewrite Hmat in Hm. rewrite Hsts.
    destruct (statements c !! name) as [p|] eqn:Hp.
    + destruct (remove_materialized_told c told (cache_key p) Hok b ms key sh Hm Hks)
        as (Hnk & n' & st' & Hst' & Hck & Hrest).
      exists n', st'. rewrite lookup_insert_ne; [done|]. intros <-. simplify_eq.
    + destruct (Ht _ _ _ _ Hm Hks) as (n' & st' & Hst' & Hrest).
      exists n', st'. rewrite lookup_insert_ne; [done|]. intros <-. congruence.
Qed.

Lemma remove_ok c told name c' st b :
  catalog_ok c told -> catalog_remove c name = (c', Some st) ->
  catalog_ok c' (delete (b, backend_name st) told) /\
  statements c' = delete name (statements c) /\ statements c !! name = Some st /\
  next_statement_id c' = next_statement_id c.
Proof.
  intros Hok H. pose proof Hok as [Hr Hn Hk Ht]. unfold catalog_remove in H.
  destruct (statements c !! name) as [p|] eqn:Hp; [|done]. injection H as <- <-.
  split_and!; try done. constructor; cbn [session_id next_statement_id statements materialized].
  - done.
  - by apply map_Forall_delete.
  - intros n1 n2 s1 s2 [_ H1]%lookup_delete_Some [_ H2]%lookup_delete_Some. by apply (Hk _ _ s1 s2).
  - intros b' ms key sh Hm Hks.
    destruct (remove_materialized_told c told (cache_key p) Hok b' ms key sh Hm Hks)
      as (Hnk & n' & st' & Hst' & Hck & Hnz & Htold).
    exists n', st'. split_and!; try done.
    + apply lookup_delete_Some. split; [|done]. intros <-. simplify_eq.
    + rewrite lookup_delete_ne; [done|]. intros [= <- Hbn]. apply Hnk.
      rewrite <- Hck. eapply backend_name_inj; [done|exact Hst'|exact Hp|lia|done].
Qed.

Lemma delete_foreign_ok c told b n :
  catalog_ok c told -> starts_with (lit "pgk_") n = false -> catalog_ok c (delete (b, n) told).
Proof.
  intros Hok Hf. pose proof Hok as [Hr Hn Hk Ht]. constructor; try done.
  intros b' ms key sh Hm Hks. destruct (Ht _ _ _ _ Hm Hks) as (n' & st' & Hst' & Hck & Hnz & Htold).
  exists n', st'. split_and!; try done. rewrite lookup_delete_ne; [done|].
  intros [= _ Hbn]. destruct (named_nonzero _ _ _ _ Hok Hst' ltac:(lia)) as [_ Hb].
  rewrite Hbn, Hb, pgk_name_prefix in Hf. done.
Qed.

Lemma shrink_ok c c' told :
  catalog_ok c told -> session_id c' = session_id c ->
  next_statement_id c' = next_statement_id c -> statements c' = statements c ->
  (forall b ms, materialized c' !! b = Some ms -> materialized c !! b = Some ms) ->
  catalog_ok c' told.
Proof.
  intros [Hr Hn Hk Ht] Hs Hx Hst Hm. constructor.
  - by rewrite Hs, Hx.
  - rewrite Hst. intros n p Hp. specialize (Hn n p Hp). unfold named_ok in *. by rewrite Hs, Hx.
  - rewrite Hst. apply Hk.
  - rewrite Hst. intros b ms key sh Hb. apply Ht. by apply Hm.
Qed.

Lemma invalidate_ok c told s b :
  catalog_ok c told -> catalog_ok (fst (invalidate_for_sqlstate c s b)) told /\
  statements (fst (invalidate_for_sqlstate c s b)) = statements c /\
  next_statement_id (fst (invalidate_for_sqlstate c s b)) = next_statement_id c.
Proof.
  intros Hok. unfold invalidate_for_sqlstate.
  destruct s; try (by split_and!); try (split_and!; [eapply shrink_ok; [exact Hok|done..]|done|done]).
  cbn [fst]. destruct (materialized c !! b) as [ms|]; [|by split_and!].
  split_and!; [|done|done]. eapply shrink_ok; [exact Hok|done..|].
  intros b' ms' Hm. cbn in Hm. by apply lookup_delete_Some in Hm as [_ ?].
Qed.

Lemma generation_ok c told g :
  catalog_ok c told -> catalog_ok (set_route_map_generation_id c g) told /\
  statements (set_route_map_generation_id c g) = statements c /\
  next_statement_id (set_route_map_generation_id c g) = next_statement_id c.
Proof.
  intros Hok. unfold set_route_map_generation_id. case_match; [by split_and!|].
  split_and!; [eapply shrink_ok; [exact Hok|done..]|done|done].
Qed.
End CatalogSteps.

(** ** Frames *)

Section FrameSteps.
Lemma frame_other f :
  tag f <> frontend_byte Parse -> tag f <> frontend_byte Close ->
  (forall b h, backend_told b h f = h) /\ (forall t, client_table t f = t).
Proof.
  intros Hp Hc. unfold backend_told, client_table, parse_parse_message, parse_close_target.
  by rewrite !(proj2 (Z.eqb_neq _ _)) by done.
Qed.

Lemma told_parse b h f m :
  parse_parse_message f = Ok (Some m) ->
  backend_told b h f = <[(b, statement_name m) := (query m, parameter_type_oids m)]> h.
Proof. intros H. unfold backend_told. by rewrite H. Qed.

Lemma told_close b h n :
  valid_str n -> no_nul n ->
  backend_told b h {| tag := frontend_byte Close; payload := STATEMENT_KIND :: write_cstr n |}
  = delete (b, n) h.
Proof.
  intros Hv Hn. unfold backend_told.
  change (parse_parse_message {| tag := frontend_byte Close;
    payload := STATEMENT_KIND :: write_cstr n |}) with (Ok (E := WireError) (@None ParseMessage)).
  cbn match. unfold parse_close_target. cbn [tag payload]. rewrite Z.eqb_refl. cbn [negb].
  cbn [head ok_or mbind result_bind].
  rewrite <- (app_nil_r (write_cstr n)), parse_target_split by done. done.
Qed.

Lemma parse_frame_tag f m : parse_parse_message f = Ok (Some m) -> tag f = frontend_byte Parse.
Proof. intros H. by apply parse_parse_message_inv in H as (r & -> & _). Qed.

(** A frame that is not a Parse message but whose tag says so is an error. *)
Lemma not_parse_tag f : parse_parse_message f = Ok None -> tag f <> frontend_byte Parse.
Proof.
  intros H Ht. unfold parse_parse_message in H. rewrite Ht, Z.eqb_refl in H. cbn [negb] in H.
  repeat (apply bind_Ok_inv in H as ([? ?] & _ & H)).
  apply bind_Ok_inv in H as (cb & _ & H). destruct cb as [|c0 [|c1 [|? ?]]]; try done.
  repeat case_match; try done. by apply bind_Ok_inv in H as (? & _ & ?).
Qed.

Lemma get_current_lookup c name st :
  get_for_current_route_map c name = Some st -> statements c !! name = Some st.
Proof.
  unfold get_for_current_route_map, catalog_get. destruct (statements c !! name); [|done].
  cbn. by case_match; intros [= ->].
Qed.

(** What materialising a statement sends and records. *)
Lemma materialize_ok c told b name st c' pre :
  catalog_ok c told -> statements c !! name = Some st ->
  materialize_prelude c b st = (c', pre) ->
  statements c' = statements c /\ next_statement_id c' = next_statement_id c /\
  catalog_ok c' (fold_left (backend_told b) pre told) /\
  (pre = [] \/ exists f, pre = [f] /\ parse_parse_message f
     = Ok (Some {| statement_name := backend_name st; query := st_query st;
                   parameter_type_oids := st_parameter_type_oids st |})).
Proof.
  intros Hok Hst H. unfold materialize_prelude in H.
  destruct (is_materialized c b st); injection H as <- <-; [by split_and!; [..|by left]|].
  destruct (backend_name_str _ _ _ _ Hok Hst) as [Hv Hn].
  destruct (ok_named _ _ Hok name st Hst) as [_ (Hqv & Hqn & Ho & Hl)].
  assert (Hparse : parse_parse_message
    (build_parse_frame (backend_name st) (st_query st) (st_parameter_type_oids st))
    = Ok (Some {| statement_name := backend_name st; query := st_query st;
                  parameter_type_oids := st_parameter_type_oids st |})).
  { unfold build_parse_frame. rewrite parse_parse_message_split by done.
    by rewrite read_parameters_build. }
  split_and!; [apply mark_statements|apply mark_next| |right; eauto].
  cbn [fold_left]. rewrite (told_parse _ _ _ _ Hparse). by eapply mark_ok.
Qed.

Definition plan_frames (p : PreparedForwardPlan) : list FrontendFrame :=
  prelude p ++ [plan_frame p].

(** What a step of the proxy on one frame preserves. *)
Definition frame_step_ok (b : Z) (c : PreparedCatalog) (told : gmap (Z * str) statement_text)
  (t : gmap str statement_text) (f : FrontendFrame) (c' : PreparedCatalog)
  (plan : PreparedForwardPlan) : Prop :=
  catalog_ok c' (fold_left (backend_told b) (plan_frames plan) told) /\
  text_of <$> statements c' = client_table t f /\
  next_statement_id c' <= next_statement_id c + 1.

(** A step that materialises a statement and rewrites a frame of another
    kind than Parse and Close. *)
Lemma materialize_step b c told t f name st c' pre f' :
  catalog_ok c told -> text_of <$> statements c = t -> statements c !! name = Some st ->
  tag f <> frontend_byte Parse -> tag f <> frontend_byte Close -> tag f' = tag f ->
  materialize_prelude c b st = (c', pre) ->
  frame_step_ok b c told t f c' {| prelude := pre; plan_frame := f' |}.
Proof.
  intros Hok Ht Hst Hp Hc Htag H.
  destruct (materialize_ok _ _ _ _ _ _ _ Hok Hst H) as (Hsts & Hnx & Hok' & _).
  unfold frame_step_ok, plan_frames. cbn [prelude plan_frame]. rewrite fold_left_app. cbn [fold_left].
  rewrite (proj1 (frame_other f' ltac:(congruence) ltac:(congruence))).
  rewrite (proj2 (frame_other f Hp Hc)), Hsts, Hnx. split_and!; [done|done|lia].
Qed.

Lemma describe_tag f n :
  parse_describe_target f = Ok (Some (DescribeStatement n)) ->
  tag f = frontend_byte Describe /\ head (payload f) = Some STATEMENT_KIND.
Proof.
  unfold parse_describe_target. destruct (Z.eqb_spec (tag f) (frontend_byte Describe)); [|done].
  cbn [negb]. intros H. destruct (head (payload f)) as [k|]; [|done]. cbn [ok_or mbind result_bind] in H.
  apply bind_Ok_inv in H as ([? ?] & _ & H).
  destruct (Z.eqb_spec k STATEMENT_KIND) as [->|]; [done|]. by case_match.
Qed.

Lemma close_tag f n :
  parse_close_target f = Ok (Some (CloseStatement n)) ->
  tag f = frontend_byte Close /\ head (payload f) = Some STATEMENT_KIND.
Proof.
  unfold parse_close_target. destruct (Z.eqb_spec (tag f) (frontend_byte Close)); [|done].
  cbn [negb]. intros H. destruct (head (payload f)) as [k|]; [|done]. cbn [ok_or mbind result_bind] in H.
  apply bind_Ok_inv in H as ([? ?] & _ & H).
  destruct (Z.eqb_spec k STATEMENT_KIND) as [->|]; [done|]. by case_match.
Qed.

Lemma not_close_told f b h :
  tag f <> frontend_byte Parse ->
  (forall n, parse_close_target f <> Ok (Some (CloseStatement n))) ->
  backend_told b h f = h /\ forall t, client_table t f = t.
Proof.
  intros Hp Hc. unfold backend_told, client_table, parse_parse_message.
  rewrite (proj2 (Z.eqb_neq _ _)) by done. cbn [negb].
  destruct (parse_close_target f) as [[[n|n]|]| |] eqn:E; try done. by destruct (Hc n).
Qed.

Lemma close_table f n t :
  tag f <> frontend_byte Parse -> parse_close_target f = Ok (Some (CloseStatement n)) ->
  client_table t f = delete n t.
Proof.
  intros Hp Hc. unfold client_table, parse_parse_message.
  rewrite (proj2 (Z.eqb_neq _ _)) by done. cbn [negb]. by rewrite Hc.
Qed.

Lemma describe_close_step b c told t f c' plan :
  catalog_ok c told -> text_of <$> statements c = t -> own_names f ->
  tag f <> frontend_byte Parse ->
  prepare_describe_close b c f = Ok (c', plan) -> frame_step_ok b c told t f c' plan.
Proof.
  intros Hok Ht Hown Hp H. unfold prepare_describe_close in H.
  apply bind_Ok_inv in H as (d & Hd & H).
  destruct (match d with Some (DescribeStatement name) => get_for_current_route_map c name
            | _ => None end) as [st|] eqn:Hst.
  - destruct d as [[name|name]|]; try done. apply get_current_lookup in Hst.
    destruct (describe_tag _ _ Hd) as [Htag Hhead].
    destruct (materialize_prelude c b st) as [c1 pre] eqn:Hm.
    unfold rewrite_describe_statement_name, rewrite_statement_target in H.
    rewrite Htag, Z.eqb_refl, Hhead, bool_decide_true in H by done. cbn in H. injection H as <- <-.
    eapply materialize_step; try done; by rewrite Htag.
  - clear Hst. apply bind_Ok_inv in H as (cl & Hcl & H).
    destruct cl as [[name|name]|].
    + destruct (close_tag _ _ Hcl) as [Htag Hhead].
      destruct (catalog_remove c name) as [c1 [st|]] eqn:Hrm.
      * unfold rewrite_close_statement_name, rewrite_statement_target in H.
        rewrite Htag, Z.eqb_refl, Hhead, bool_decide_true in H by done. cbn in H. injection H as <- <-.
        destruct (remove_ok c told name c1 st b Hok Hrm) as (Hok1 & Hsts & Hst & Hnx).
        destruct (backend_name_str _ _ _ _ Hok Hst) as [Hv Hn].
        unfold frame_step_ok, plan_frames. cbn [prelude plan_frame app fold_left].
        rewrite told_close by done.
        rewrite (close_table _ _ _ Hp Hcl), Hsts, fmap_delete, Ht. split_and!; [done|done|lia].
      * injection H as <- <-. unfold catalog_remove in Hrm.
        destruct (statements c !! name) eqn:Hnone; [done|]. injection Hrm as <-.
        unfold frame_step_ok, plan_frames. cbn [prelude plan_frame app fold_left].
        rewrite (close_table _ _ _ Hp Hcl).
        assert (backend_told b told f = delete (b, name) told) as ->.
        { unfold backend_told, parse_parse_message. rewrite (proj2 (Z.eqb_neq _ _)) by done.
          cbn [negb]. by rewrite Hcl. }
        split_and!; [apply delete_foreign_ok; [done|by apply Hown]| |lia].
        rewrite <- Ht, delete_id; [done|]. by rewrite lookup_fmap, Hnone.
    + injection H as <- <-. destruct (not_close_told f b told Hp) as [H1 H2]; [by rewrite Hcl|].
      unfold frame_step_ok, plan_frames. cbn. rewrite H1, H2. split_and!; [done|done|lia].
    + injection H as <- <-. destruct (not_close_told f b told Hp) as [H1 H2]; [by rewrite Hcl|].
      unfold frame_step_ok, plan_frames. cbn. rewrite H1, H2. split_and!; [done|done|lia].
Qed.

Lemma prepare_frame_step b c told t f c' plan :
  catalog_ok c told -> text_of <$> statements c = t -> own_names f ->
  next_statement_id c + 1 < 2 ^ 64 ->
  prepare_frame_for_backend b c f = Ok (c', plan) -> frame_step_ok b c told t f c' plan.
Proof.
  intros Hok Ht Hown Hnext H. unfold prepare_frame_for_backend in H.
  apply bind_Ok_inv in H as (m & Hm & H). destruct m as [m|].
  - apply bind_Ok_inv in H as ([c1 st] & Hup & H). unfold or_panic in Hup.
    destruct (upsert c _ _ _) as [[c1' st']|] eqn:Hu; [|done]. injection Hup as -> ->.
    pose proof (parse_message_encodable _ _ Hm) as (He1 & He2 & He3 & He4).
    assert (Hok1 : catalog_ok c1 told) by (by eapply upsert_ok; [done|..|done]).
    destruct (upsert_statements _ _ _ _ _ _ Hu) as [Hsts Htxt].
    assert (Hst : statements c1 !! statement_name m = Some st) by (rewrite Hsts; apply lookup_insert_eq).
    destruct (backend_name_str _ _ _ _ Hok1 Hst) as [Hv Hn].
    pose proof Hm as (rest & -> & Hv1 & Hn1 & Hv2 & Hn2 & Hr)%parse_parse_message_inv.
    rewrite rewrite_parse_split in H by done. injection H as <- <-.
    unfold frame_step_ok, plan_frames. cbn [prelude plan_frame app fold_left].
    erewrite told_parse; [|rewrite parse_parse_message_split by done; by rewrite Hr].
    cbn [statement_name query parameter_type_oids].
    rewrite <- Htxt. split_and!.
    + by eapply mark_ok.
    + rewrite mark_statements, Hsts, fmap_insert, Ht, Htxt. unfold client_table. by rewrite Hm.
    + rewrite mark_next. destruct (ok_range _ _ Hok) as [_ Hr0].
      pose proof (upsert_next _ _ _ _ _ _ Hu). lia.
  - apply not_parse_tag in Hm. apply bind_Ok_inv in H as (n & Hb & H).
    destruct (n ≫= get_for_current_route_map c) as [st|] eqn:Hst.
    + destruct n as [n|]; [|done]. cbn in Hst. apply get_current_lookup in Hst.
      pose proof Hb as (portal & rest & -> & ? & ? & ? & ?)%parse_bind_inv.
      destruct (materialize_prelude c b st) as [c1 pre] eqn:Hmat.
      rewrite rewrite_bind_split in H by done. injection H as <- <-.
      by eapply materialize_step.
    + by apply describe_close_step.
Qed.
End FrameSteps.

(** ** The theorems of prepared statements *)

Section WorldFacts.
Definition world_ok (sid : Z) (w : World) : Prop :=
  w_frames w < 2 ^ 64 - 2 ->
  catalog_ok (w_catalog w) (w_told w) /\ text_of <$> statements (w_catalog w) = w_table w /\
  next_statement_id (w_catalog w) <= w_frames w + 1.

Lemma world_reachable_ok sid w :
  0 <= sid < 2 ^ 64 -> Reachable world_step (eq (world_new sid)) w -> world_ok sid w.
Proof.
  intros Hsid. revert w. apply reachable_invariant.
  - intros s <- _. cbn. split_and!; [|apply fmap_empty|lia].
    constructor; cbn; [lia|apply map_Forall_empty|done|done].
  - intros s t IH Hstep Hb. destruct Hstep as [w b f c plan Hown Hprep|w b e|w g]; cbn in *.
    + destruct IH as (Hok & Ht & Hn); [lia|].
      assert (Hnext : next_statement_id (w_catalog w) + 1 < 2 ^ 64) by lia.
      destruct (prepare_frame_step _ _ _ _ _ _ _ Hok Ht Hown Hnext Hprep) as (H1 & H2 & H3).
      split_and!; [exact H1|exact H2|lia].
    + destruct (IH Hb) as (Hok & Ht & Hn).
      destruct (invalidate_ok (w_catalog w) (w_told w) e b Hok) as (H1 & -> & ->). done.
    + destruct (IH Hb) as (Hok & Ht & Hn).
      destruct (generation_ok (w_catalog w) (w_told w) g Hok) as (H1 & -> & ->). done.
Qed.

(** A statement recorded as materialised is one the backend was told. *)
Lemma materialized_told c told b name st :
  catalog_ok c told -> statements c !! name = Some st -> cache_key st <> 0 ->
  is_materialized c b st = true -> told !! (b, backend_name st) = Some (text_of st).
Proof.
  intros Hok Hst Hk H. unfold is_materialized in H.
  destruct (is_current_route_map c st); [|done]. cbn [negb] in H.
  rewrite (proj2 (Z.eqb_neq _ _)) in H by done.
  destruct (materialized c !! b) as [ms|] eqn:Hm; [|done]. cbn in H.
  destruct (ms !! cache_key st) as [sh|] eqn:Hs; [|done].
  destruct (ok_told _ _ Hok _ _ _ _ Hm Hs) as (n' & st' & Hst' & Hck & _ & Htold).
  assert (n' = name) as -> by (by eapply (ok_keys _ _ Hok)). by simplify_eq.
Qed.
End WorldFacts.

(** C2. Named prepared statements follow the client across backends. After any
    history of frames sent to any backends, errors and route-map changes, of
    fewer than 2^64 - 2 frames and with no frame that closes a statement under
    one of the proxy's own names (those that begin with pgk_), when the client
    binds a statement that has a name and that it prepared under the current
    route map, the proxy sends that backend a Bind naming a statement which
    the backend has been told, by a Parse sent in an earlier frame or injected
    just before, to be exactly the query and parameter types the client last
    prepared under its own name, and has not been told to close by a Close
    message (the texts of queries, DEALLOCATE say, are not looked at). The
    claim does not extend to the unnamed statement, nor to clients that close the
    proxy's names: see [unnamed_materialized_everywhere] and
    [closed_backend_name_is_still_bound]. *)
Theorem named_statements_follow_client (sid b : Z) (w : World) (f : FrontendFrame)
  (name : str) (st : PreparedStatement) :
  0 <= sid < 2 ^ 64 -> Reachable world_step (eq (world_new sid)) w -> w_frames w < 2 ^ 64 - 2 ->
  parse_bind_statement_name f = Ok (Some name) -> name <> [] ->
  get_for_current_route_map (w_catalog w) name = Some st ->
  exists c' plan, prepare_frame_for_backend b (w_catalog w) f = Ok (c', plan) /\
    parse_bind_statement_name (plan_frame plan) = Ok (Some (backend_name st)) /\
    w_table w !! name = Some (text_of st) /\
    fold_left (backend_told b) (prelude plan) (w_told w) !! (b, backend_name st)
    = w_table w !! name.
Proof.
  intros Hsid Hr Hb Hbind Hne Hget.
  destruct (world_reachable_ok sid w Hsid Hr Hb) as (Hok & Ht & _).
  pose proof (get_current_lookup _ _ _ Hget) as Hst.
  destruct (backend_name_str _ _ _ _ Hok Hst) as [Hv Hn].
  assert (Hk : cache_key st <> 0) by (intros Hk; by apply (named_key0 _ _ _ _ Hok Hst) in Hk).
  assert (Htab : w_table w !! name = Some (text_of st)) by (by rewrite <- Ht, lookup_fmap, Hst).
  pose proof Hbind as (portal & rest & Hf & Hv1 & Hn1 & Hv2 & Hn2)%parse_bind_inv.
  destruct (materialize_prelude (w_catalog w) b st) as [c' pre] eqn:Hm.
  exists c', {| prelude := pre; plan_frame := {| tag := frontend_byte Bind;
    payload := write_cstr portal ++ write_cstr (backend_name st) ++ rest |} |}.
  cbn [prelude plan_frame]. split_and!; [|by apply parse_bind_split|done|].
  - unfold prepare_frame_for_backend. rewrite Hbind, Hf.
    change (parse_parse_message {| tag := frontend_byte Bind; payload := _ |})
      with (Ok (E := WireError) (@None ParseMessage)).
    cbn [mbind result_bind option_bind]. rewrite Hget, Hm.
    by rewrite rewrite_bind_split.
  - rewrite Htab. destruct (materialize_ok _ _ b _ _ _ _ Hok Hst Hm) as (_ & _ & _ & Hpre).
    destruct Hpre as [->|(g & -> & Hg)].
    + cbn [fold_left]. eapply materialized_told; [done|done|done|].
      unfold materialize_prelude in Hm. by destruct (is_materialized _ _ _).
    + cbn [fold_left]. rewrite (told_parse _ _ _ _ Hg). by rewrite lookup_insert_eq.
Qed.

Section Examples.
Definition example_parse : FrontendFrame := build_parse_frame (lit "s1") (lit "select $1") [23].
Definition example_bind : FrontendFrame :=
  {| tag := frontend_byte Bind;
     payload := write_cstr [] ++ write_cstr (lit "s1") ++ [0; 0; 0; 0] |}.

(** The world after the client prepared [s1] on backend 1. *)
Definition example_world : World :=
  {| w_catalog :=
       match prepare_frame_for_backend 1 (catalog_new 7) example_parse with
       | Ok (c, _) => c
       | _ => catalog_new 7
       end;
     w_table := client_table ∅ example_parse;
     w_told := backend_told 1 ∅ (build_parse_frame (pgk_name 7 1) (lit "select $1") [23]);
     w_frames := 1 |}.

Definition example_statement : option PreparedStatement :=
  get_for_current_route_map (w_catalog example_world) (lit "s1").
End Examples.

Lemma named_statements_follow_client_witness :
  exists st c' plan, example_statement = Some st /\
    prepare_frame_for_backend 2 (w_catalog example_world) example_bind = Ok (c', plan) /\
    fold_left (backend_told 2) (prelude plan) (w_told example_world) !! (2, backend_name st)
    = Some (lit "select $1", [23]).
Proof.
  destruct example_statement as [st|] eqn:Hst; [|vm_compute in Hst; discriminate].
  destruct (named_statements_follow_client 7 2 example_world example_bind (lit "s1") st)
    as (c' & plan & Hp & _ & _ & Ht).
  - lia.
  - eapply reach_step; [by apply reach_init|].
    destruct (prepare_frame_for_backend 1 (catalog_new 7) example_parse) as [[c plan]| |] eqn:E;
      [|vm_compute in E; discriminate..].
    pose proof (step_frame (world_new 7) 1 example_parse c plan) as Hs.
    unfold example_world. rewrite E.
    assert (Hplan : prelude plan ++ [plan_frame plan]
      = [build_parse_frame (pgk_name 7 1) (lit "select $1") [23]]).
    { vm_compute in E. injection E as _ <-. vm_compute. reflexivity. }
    rewrite Hplan in Hs. apply Hs; [|done].
    intros n Hn. discriminate Hn.
  - cbn. lia.
  - vm_compute. reflexivity.
  - done.
  - exact Hst.
  - exists st, c', plan. split_and!; [done|done|]. rewrite Ht. vm_compute. reflexivity.
Defined.

(** After an error that invalidates every backend, a Bind makes the proxy
    send a Parse for a name the backend already holds and was never told to
    close. *)
Example reparse_of_held_statement :
  let c := fst (invalidate_for_sqlstate (w_catalog example_world) UndefinedTable 1) in
  match prepare_frame_for_backend 1 c example_bind with
  | Ok (_, plan) =>
      prelude plan = [build_parse_frame (pgk_name 7 1) (lit "select $1") [23]] /\
      is_Some (w_told example_world !! (1, pgk_name 7 1))
  | _ => False
  end.
Proof. vm_compute. split; [reflexivity|eexists; reflexivity]. Qed.

(** A client that closes the proxy's name of a statement: the Close goes to
    the backend as it is, the catalog still counts the statement as
    materialised there, and the next Bind names a statement the backend no
    longer has. *)
Example closed_backend_name_is_still_bound :
  let close := {| tag := frontend_byte Close; payload := [83] ++ write_cstr (pgk_name 7 1) |} in
  match prepare_frame_for_backend 1 (w_catalog example_world) close with
  | Ok (c, plan) =>
      plan_frame plan = close /\ backend_told 1 (w_told example_world) close !! (1, pgk_name 7 1) = None /\
      match prepare_frame_for_backend 1 c example_bind with
      | Ok (_, plan) =>
          prelude plan = [] /\ parse_bind_statement_name (plan_frame plan) = Ok (Some (pgk_name 7 1))
      | _ => False
      end
  | _ => False
  end.
Proof. vm_compute. repeat split; reflexivity. Qed.

(** An unnamed statement counts as materialised on every backend, the ones
    that never saw its Parse included. *)
Example unnamed_materialized_everywhere :
  match upsert (catalog_new 7) [] (lit "select 1") [] with
  | Some (c, st) => is_materialized c 99 st = true /\ materialized c = ∅
  | None => False
  end.
Proof. vm_compute. split; reflexivity. Qed.
