(* ===== verification/Resilience.v ===== *)
(** * Resilience: the backend circuit breaker

    Models [pg-kinetic-proxy/src/resilience.rs]. The breaker's data is behind
    a mutex, so every method is one atomic step on [BreakerData]; an
    [Instant] is a number of nanoseconds, and [Instant::duration_since]
    saturates at zero. *)

From S2P Require Import Prelude RoutingTypes.

Inductive BreakerState := BClosed | BOpen | BHalfOpen.

#[global] Instance BreakerState_eq_dec : EqDecision BreakerState.
Proof. solve_decision. Defined.

Record BreakerConfig := { failure_threshold : Z; cooldown : Z }.

Record BreakerData := {
  config : BreakerConfig;
  state : BreakerState;
  failures : Z;
  opened_at : option Z;
  probe_in_flight : bool;
}.

(** [BackendBreaker::new]. *)
Definition breaker_new (cfg : BreakerConfig) : BreakerData :=
  {| config := cfg; state := BClosed; failures := 0; opened_at := None;
     probe_in_flight := false |}.

Definition duration_since (now earlier : Z) : Z := Z.max 0 (now - earlier).

(** The cooldown check that opens [allow_request] and [state]. *)
Definition cool_down (d : BreakerData) (now : Z) : BreakerData :=
  if bool_decide (state d = BOpen)
     && match opened_at d with
        | Some t => cooldown (config d) <=? duration_since now t
        | None => false
        end
  then {| config := config d; state := BHalfOpen; failures := failures d;
          opened_at := opened_at d; probe_in_flight := false |}
  else d.

(** [allow_request]. *)
Definition allow_request (d : BreakerData) (now : Z) : BreakerData * bool :=
  let d := cool_down d now in
  match state d with
  | BClosed => (d, true)
  | BOpen => (d, false)
  | BHalfOpen =>
      if negb (probe_in_flight d) then
        ({| config := config d; state := state d; failures := failures d;
            opened_at := opened_at d; probe_in_flight := true |}, true)
      else (d, false)
  end.

(** [record_success]. *)
Definition record_success (d : BreakerData) : BreakerData :=
  {| config := config d; state := BClosed; failures := 0; opened_at := None;
     probe_in_flight := false |}.

(** [record_failure]. *)
Definition record_failure (d : BreakerData) (now : Z) : BreakerData :=
  match state d with
  | BHalfOpen =>
      {| config := config d; state := BOpen; failures := failure_threshold (config d);
         opened_at := Some now; probe_in_flight := false |}
  | BClosed =>
      let f := sat_add (failures d) 1 in
      if failure_threshold (config d) <=? f then
        {| config := config d; state := BOpen; failures := f; opened_at := Some now;
           probe_in_flight := false |}
      else
        {| config := config d; state := BClosed; failures := f; opened_at := opened_at d;
           probe_in_flight := false |}
  | BOpen =>
      {| config := config d; state := BOpen; failures := failures d;
         opened_at := opened_at d; probe_in_flight := false |}
  end.

(** [BackendBreaker::state]. *)
Definition observe_state (d : BreakerData) (now : Z) : BreakerData * BreakerState :=
  let d := cool_down d now in (d, state d).

(** [configure]. *)
Definition configure (d : BreakerData) (cfg : BreakerConfig) : BreakerData :=
  {| config := cfg; state := state d; failures := failures d; opened_at := opened_at d;
     probe_in_flight := probe_in_flight d |}.

(** ** Hedging *)

Record HedgeEligibility := {
  enabled : bool;
  hedge_query_class : QueryClass;
  freshness_proven : bool;
  transaction_active : bool;
  pinned : bool;
  routing_certain : bool;
  safely_replayable : bool;
}.

(** [is_eligible]. *)
Definition is_eligible (h : HedgeEligibility) : bool :=
  enabled h
  && match hedge_query_class h with ReadOnlyClass | ReadCandidate => true | _ => false end
  && freshness_proven h && negb (transaction_active h) && negb (pinned h)
  && routing_certain h && safely_replayable h.

(** ** The breaker as a transition system *)

Inductive breaker_event := EAllow (now : Z) | ESuccess | EFailure (now : Z) | EState (now : Z).

Definition breaker_step (d : BreakerData) (e : breaker_event) : BreakerData :=
  match e with
  | EAllow now => fst (allow_request d now)
  | ESuccess => record_success d
  | EFailure now => record_failure d now
  | EState now => fst (observe_state d now)
  end.

Section BreakerFacts.
Context (cfg : BreakerConfig).
Hypothesis threshold_positive : 1 <= failure_threshold cfg <= U64_MAX.

(** The data of a breaker that was never reconfigured. *)
Definition breaker_ok (d : BreakerData) : Prop :=
  config d = cfg /\ 0 <= failures d <= U64_MAX /\
  match state d with
  | BClosed => opened_at d = None /\ failures d < failure_threshold cfg /\
               probe_in_flight d = false
  | BOpen => is_Some (opened_at d) /\ failure_threshold cfg <= failures d /\
             probe_in_flight d = false
  | BHalfOpen => is_Some (opened_at d) /\ failure_threshold cfg <= failures d
  end.

Lemma breaker_ok_new : breaker_ok (breaker_new cfg).
Proof. unfold breaker_ok. cbn. split_and!; (done || lia). Qed.

Lemma cool_down_ok d now : breaker_ok d -> breaker_ok (cool_down d now).
Proof.
  intros (Hc & Hf & Hs). unfold cool_down. destruct (state d) eqn:E; cbn [andb].
  - rewrite bool_decide_false by done. cbn [andb]. unfold breaker_ok. by rewrite E.
  - rewrite bool_decide_true by done. cbn [andb].
    destruct (match opened_at d with Some t => _ | None => _ end);
      [|unfold breaker_ok; by rewrite E].
    unfold breaker_ok. cbn. destruct Hs as (? & ? & ?). done.
  - rewrite bool_decide_false by done. cbn [andb]. unfold breaker_ok. by rewrite E.
Qed.

Lemma breaker_step_ok d e : breaker_ok d -> breaker_ok (breaker_step d e).
Proof.
  intros Hok. destruct e as [now| |now|now]; cbn [breaker_step].
  - pose proof (cool_down_ok d now Hok) as Hd. unfold allow_request.
    destruct (state (cool_down d now)) eqn:E; [done..|].
    destruct (negb _); [|done]. destruct Hd as (Hc & Hf & Hs). rewrite E in Hs.
    unfold breaker_ok. by cbn [fst config failures state opened_at].
  - destruct Hok as (Hc & _). unfold breaker_ok. cbn. split_and!; (done || lia).
  - destruct Hok as (Hc & Hf & Hs). unfold record_failure, sat_add.
    destruct (state d); rewrite Hc.
    + destruct Hs as (Ho & Hlt & Hp).
      destruct (Z.leb_spec (failure_threshold cfg) (Z.min U64_MAX (failures d + 1)));
        unfold breaker_ok; cbn; (split_and!; try done; try lia; eauto).
    + destruct Hs as (Ho & Hlt & Hp). unfold breaker_ok. cbn. split_and!; (done || lia).
    + unfold breaker_ok. cbn. split_and!; (done || lia || eauto).
  - by apply cool_down_ok.
Qed.

Lemma breaker_reachable_ok es : breaker_ok (fold_left breaker_step es (breaker_new cfg)).
Proof.
  assert (Hgo : forall d, breaker_ok d -> breaker_ok (fold_left breaker_step es d)).
  { induction es as [|e es IH]; intros d Hd; [done|]. cbn. apply IH. by apply breaker_step_ok. }
  apply Hgo, breaker_ok_new.
Qed.

(** Neither asking nor looking ends a probe. *)
Definition asks (e : breaker_event) : bool :=
  match e with EAllow _ | EState _ => true | ESuccess | EFailure _ => false end.

Definition probing (d : BreakerData) : Prop := state d = BHalfOpen /\ probe_in_flight d = true.

Lemma probing_cool_down d now : probing d -> cool_down d now = d.
Proof. intros [Hs _]. unfold cool_down. by rewrite Hs, bool_decide_false. Qed.

Lemma probing_asks d es :
  probing d -> Forall (fun e => asks e = true) es -> fold_left breaker_step es d = d.
Proof.
  intros Hp. induction 1 as [|e es He Hes IH]; [done|]. cbn [fold_left].
  assert (breaker_step d e = d) as ->; [|done]. destruct Hp as [Hs Hf].
  destruct e; try done; cbn [breaker_step]; unfold allow_request, observe_state;
    rewrite probing_cool_down by done; [|done]. by rewrite Hs, Hf.
Qed.

(** Consecutive failures from a fresh breaker. *)
Lemma failures_count (nows : list Z) :
  let d := fold_left record_failure nows (breaker_new cfg) in
  (Z.of_nat (length nows) < failure_threshold cfg ->
   state d = BClosed /\ failures d = Z.of_nat (length nows)) /\
  (failure_threshold cfg <= Z.of_nat (length nows) -> state d = BOpen).
Proof.
  cbv zeta. induction nows as [|now nows IH] using rev_ind; [cbn; split; [done|lia]|].
  rewrite fold_left_app, length_app. cbn [fold_left length].
  set (d := fold_left record_failure nows (breaker_new cfg)) in *.
  assert (Hc : config d = cfg).
  { unfold d. clear. induction nows as [|n nows IH] using rev_ind; [done|].
    rewrite fold_left_app. cbn. unfold record_failure. repeat case_match; done. }
  destruct IH as [IH1 IH2].
  destruct (Z.lt_ge_cases (Z.of_nat (length nows)) (failure_threshold cfg)) as [Hlt|Hge].
  - destruct (IH1 Hlt) as [Hs Hf]. unfold record_failure, sat_add. rewrite Hs, Hc, Hf.
    destruct (Z.leb_spec (failure_threshold cfg) (Z.min U64_MAX (Z.of_nat (length nows) + 1)));
      cbn; split; (lia || done || (split; [done|lia])).
  - unfold record_failure. rewrite (IH2 Hge). split; [lia|done].
Qed.
End BreakerFacts.

(** ** The theorem of the breaker *)

(** C24. The breaker keeps its contract in every reachable state: closed it
    admits; open it admits exactly from the end of the cooldown on, and the
    admitted request is the probe of the half-open state; while that probe
    is unanswered no request is admitted, however often and whenever it is
    asked; the probe's success closes the breaker and its failure opens it
    for a new cooldown; and a fresh breaker opens at exactly the configured
    number of consecutive failures. *)
Theorem breaker_contract (cfg : BreakerConfig) (es : list breaker_event) (now : Z) :
  1 <= failure_threshold cfg <= U64_MAX ->
  let d := fold_left breaker_step es (breaker_new cfg) in
  (state d = BClosed -> snd (allow_request d now) = true) /\
  (state d = BOpen -> exists t, opened_at d = Some t /\
     snd (allow_request d now) = (cooldown cfg <=? duration_since now t) /\
     (snd (allow_request d now) = true -> probing (fst (allow_request d now)))) /\
  (probing d -> forall es' now', Forall (fun e => asks e = true) es' ->
     snd (allow_request (fold_left breaker_step es' d) now') = false) /\
  (state d = BHalfOpen -> state (record_success d) = BClosed /\
     state (record_failure d now) = BOpen /\ opened_at (record_failure d now) = Some now) /\
  (forall nows, state (fold_left record_failure nows (breaker_new cfg)) = BOpen <->
     failure_threshold cfg <= Z.of_nat (length nows)).
Proof.
  intros Hcfg d. pose proof (breaker_reachable_ok cfg Hcfg es) as (Hc & Hf & Hs). fold d in Hc, Hf, Hs.
  split_and!.
  - intros E. unfold allow_request, cool_down. rewrite E, bool_decide_false by done. cbn. by rewrite E.
  - intros E. rewrite E in Hs. destruct Hs as ([t Ht] & _ & _). exists t. split; [done|].
    unfold allow_request, cool_down. rewrite E, bool_decide_true, Ht, Hc by done. cbn [andb].
    destruct (cooldown cfg <=? duration_since now t); cbn; [done|]. by rewrite E.
  - intros Hp es' now' Hes. rewrite probing_asks by done.
    unfold allow_request. rewrite probing_cool_down by done. destruct Hp as [-> ->]. done.
  - intros E. unfold record_failure. by rewrite E.
  - intros nows. destruct (failures_count cfg Hcfg nows) as [H1 H2]. split; [|done].
    intros E. destruct (Z.lt_ge_cases (Z.of_nat (length nows)) (failure_threshold cfg)); [|lia].
    destruct H1 as [H1 _]; [done|]. congruence.
Qed.

Lemma breaker_contract_witness :
  let cfg := {| failure_threshold := 2; cooldown := 10 |} in
  let d := fold_left breaker_step [EFailure 0; EFailure 1] (breaker_new cfg) in
  snd (allow_request d 5) = false.
Proof.
  intros cfg d.
  destruct (breaker_contract cfg [EFailure 0; EFailure 1] 5 ltac:(cbn; unfold U64_MAX; lia))
    as (_ & Hopen & _).
  destruct (Hopen eq_refl) as (t & Ht & Hal & _). fold d in Ht, Hal. rewrite Hal.
  injection Ht as <-. reflexivity.
Defined.
