(* ===== verification/Cancel.v ===== *)
(** * Cancel: forwarding cancel requests to the right backend

    Models [pg-kinetic-proxy/src/cancel.rs]: the registry from client keys to
    bindings, and the races between a session that binds and unbinds its
    backend and the cancel requests that arrive for it. A binding's fields
    are shared; every lock, load, store and compare-and-swap is one step.
    [Notify::notify_waiters] wakes the waiters registered at that moment and
    no later one, as documented. A packet that has been written is on its
    way until the server handles it, at a moment the proxy does not see. *)

From S2P Require Import Prelude.

Record CancelTarget := { backend_addr : Z; process_id : Z; secret_key : Z }.

#[global] Instance CancelTarget_eq_dec : EqDecision CancelTarget.
Proof. solve_decision. Defined.

(** [CancelBinding]: its target and forwarding flag. *)
Record CancelBinding := { target : option CancelTarget; forwarding : bool }.

Definition binding_new : CancelBinding := {| target := None; forwarding := false |}.

(** ** The registry *)

Abbreviation ClientKey := (Z * Z)%type.
Abbreviation CancelRegistry := (gmap ClientKey CancelBinding).

(** One turn of [issue_client_key] for the eight digest bytes drawn. *)
Definition issue_client_key (r : CancelRegistry) (process_word secret_word : Z)
  : option (CancelRegistry * ClientKey) :=
  let pid := Z.land process_word 2147483647 in
  if pid =? 0 then None
  else
    let key := (pid, secret_word) in
    match r !! key with
    | None => Some (<[key := binding_new]> r, key)
    | Some _ => None
    end.

Definition set_target (b : CancelBinding) (t : option CancelTarget) : CancelBinding :=
  {| target := t; forwarding := forwarding b |}.
Definition set_forwarding (b : CancelBinding) (f : bool) : CancelBinding :=
  {| target := target b; forwarding := f |}.

(** [bind]. *)
Definition registry_bind (r : CancelRegistry) (key : ClientKey) (t : CancelTarget)
  : CancelRegistry := alter (fun b => set_target b (Some t)) key r.

(** The first part of [unbind]: the target is cleared. *)
Definition registry_clear (r : CancelRegistry) (key : ClientKey) : CancelRegistry :=
  alter (fun b => set_target b None) key r.

(** [lookup]. *)
Definition registry_lookup (r : CancelRegistry) (key : ClientKey) : option CancelTarget :=
  r !! key ≫= target.

(** [acquire_forwarding], uninterrupted: the registry and the lease. *)
Definition acquire_forwarding (r : CancelRegistry) (key : ClientKey)
  : CancelRegistry * option CancelTarget :=
  match r !! key with
  | None => (r, None)
  | Some b =>
      if forwarding b then (r, None)
      else
        match target b with
        | Some t => (<[key := set_forwarding b true]> r, Some t)
        | None => (r, None)
        end
  end.

(** [Drop for CancelForwardingLease]. *)
Definition release_lease (r : CancelRegistry) (key : ClientKey) : CancelRegistry :=
  alter (fun b => set_forwarding b false) key r.

(** [remove_session]. *)
Definition remove_session (r : CancelRegistry) (key : ClientKey) : CancelRegistry :=
  delete key r.

(** ** One binding under concurrency *)

(** The session that owns the binding. [Clearing] has set the target to
    [None] and is at the head of the [while]; [BeforeSleep] has loaded
    [forwarding = true] and has not yet created its [notified()] future;
    [Asleep] has. *)
Inductive SessionPhase :=
| Unbound | Bound (t : CancelTarget) | Clearing | BeforeSleep | Asleep.

(** A cancel request: it has won the compare-and-swap, holds a lease, has
    written its packet and still holds the lease, or has stored [false] and is
    about to call [notify_waiters]. *)
Inductive Forwarder := FIdle | FWon | FLease (t : CancelTarget) | FWritten (t : CancelTarget) | FNotify.

(** [in_flight] are the packets written that no server has handled yet;
    [bound_since] remembers, for the statements below, the targets bound since
    the last unbind returned. *)
Record State := {
  binding : CancelBinding;
  phase : SessionPhase;
  forwarders : list Forwarder;
  in_flight : list CancelTarget;
  bound_since : list CancelTarget;
}.

(** [notify_waiters()]: the session registered now goes back to its loop head. *)
Definition notify (p : SessionPhase) : SessionPhase :=
  match p with Asleep => Clearing | p => p end.

(** The session's part and a request's part of the state. *)
Definition session_moves (s : State) (b : CancelBinding) (p : SessionPhase) : State :=
  {| binding := b; phase := p; forwarders := forwarders s; in_flight := in_flight s; bound_since := bound_since s |}.
Definition request_moves (s : State) (b : CancelBinding) (i : nat) (f : Forwarder) : State :=
  {| binding := b; phase := phase s; forwarders := <[i := f]> (forwarders s); in_flight := in_flight s;
     bound_since := bound_since s |}.

Inductive step : State -> State -> Prop :=
| s_bind s t :
    (phase s = Unbound \/ exists t0, phase s = Bound t0) ->
    step s {| binding := set_target (binding s) (Some t); phase := Bound t; forwarders := forwarders s;
              in_flight := in_flight s; bound_since := t :: bound_since s |}
| s_clear s :
    (phase s = Unbound \/ exists t0, phase s = Bound t0) ->
    step s (session_moves s (set_target (binding s) None) Clearing)
| s_return s :
    phase s = Clearing -> forwarding (binding s) = false ->
    step s {| binding := binding s; phase := Unbound; forwarders := forwarders s;
              in_flight := in_flight s; bound_since := [] |}
| s_loaded s :
    phase s = Clearing -> forwarding (binding s) = true -> step s (session_moves s (binding s) BeforeSleep)
| s_sleep s : phase s = BeforeSleep -> step s (session_moves s (binding s) Asleep)
| f_arrive s :
    step s {| binding := binding s; phase := phase s; forwarders := forwarders s ++ [FIdle];
              in_flight := in_flight s; bound_since := bound_since s |}
| f_cas s i :
    forwarders s !! i = Some FIdle -> forwarding (binding s) = false ->
    step s (request_moves s (set_forwarding (binding s) true) i FWon)
| f_read s i t :
    forwarders s !! i = Some FWon -> target (binding s) = Some t ->
    step s (request_moves s (binding s) i (FLease t))
| f_none s i :
    forwarders s !! i = Some FWon -> target (binding s) = None ->
    step s (request_moves s (set_forwarding (binding s) false) i FNotify)
| f_write s i t :
    forwarders s !! i = Some (FLease t) ->
    step s {| binding := binding s; phase := phase s; forwarders := <[i := FWritten t]> (forwarders s);
              in_flight := in_flight s ++ [t]; bound_since := bound_since s |}
| f_drop s i t :
    forwarders s !! i = Some (FLease t) \/ forwarders s !! i = Some (FWritten t) ->
    step s (request_moves s (set_forwarding (binding s) false) i FNotify)
| f_notify s i :
    forwarders s !! i = Some FNotify ->
    step s {| binding := binding s; phase := notify (phase s); forwarders := <[i := FIdle]> (forwarders s);
              in_flight := in_flight s; bound_since := bound_since s |}
| v_handle s t before after :
    in_flight s = before ++ t :: after ->
    step s {| binding := binding s; phase := phase s; forwarders := forwarders s;
              in_flight := before ++ after; bound_since := bound_since s |}.

Definition init : State :=
  {| binding := binding_new; phase := Unbound; forwarders := []; in_flight := []; bound_since := [] |}.

(** ** Facts *)

Section CancelFacts.
Definition active (f : Forwarder) : bool :=
  match f with FIdle | FNotify => false | FWon | FLease _ | FWritten _ => true end.

(** The target a request holds a lease on. *)
Definition leased (f : Forwarder) : option CancelTarget :=
  match f with FLease t | FWritten t => Some t | _ => None end.

(** At most one request is active, and exactly when the flag is up; the
    target is the bound one; leases are on targets bound since the last
    unbind. *)
Record ok (s : State) : Prop := {
  ok_flag : forwarding (binding s) = existsb active (forwarders s);
  ok_one : forall i j f g, forwarders s !! i = Some f -> forwarders s !! j = Some g ->
             active f = true -> active g = true -> i = j;
  ok_target : target (binding s) = match phase s with Bound t => Some t | _ => None end;
  ok_bound : forall t, phase s = Bound t -> t ∈ bound_since s;
  ok_leased : forall i f t, forwarders s !! i = Some f -> leased f = Some t -> t ∈ bound_since s;
  ok_unbound : phase s = Unbound -> bound_since s = [];
}.

Lemma leased_active f t : leased f = Some t -> active f = true.
Proof. by destruct f. Qed.

Lemma existsb_active_lookup (l : list Forwarder) i f :
  l !! i = Some f -> active f = true -> existsb active l = true.
Proof.
  intros Hi Hf. apply existsb_exists. exists f. split; [|done].
  apply list_elem_of_In. by eapply list_elem_of_lookup_2.
Qed.

Lemma not_existsb_active (l : list Forwarder) i f :
  existsb active l = false -> l !! i = Some f -> active f = false.
Proof.
  intros H Hi. destruct (active f) eqn:E; [|done].
  by rewrite (existsb_active_lookup _ _ _ Hi E) in H.
Qed.

(** The only active request, taken down, leaves none. *)
Lemma last_active (l : list Forwarder) i f :
  (forall i j f g, l !! i = Some f -> l !! j = Some g ->
     active f = true -> active g = true -> i = j) ->
  l !! i = Some f -> active f = true -> existsb active (<[i := FNotify]> l) = false.
Proof.
  intros Hone Hi Hf. apply not_true_is_false. intros (g & Hg & Ha)%existsb_exists.
  apply list_elem_of_In, list_elem_of_lookup_1 in Hg as [j Hj].
  destruct (decide (i = j)) as [<-|Hne].
  - rewrite list_lookup_insert_eq in Hj by (by eapply lookup_lt_Some). by injection Hj as <-.
  - rewrite list_lookup_insert_ne in Hj by done. by apply Hne, (Hone i j f g).
Qed.

Lemma insert_lookup_inv (l : list Forwarder) i j f g :
  <[i := g]> l !! j = Some f -> (i = j /\ f = g) \/ l !! j = Some f.
Proof. intros [[-> [-> _]]|[_ H]]%list_lookup_insert_Some; auto. Qed.

(** A request that goes on while it stays the active one. *)
Lemma ok_goes_on s i f g fl :
  ok s -> forwarders s !! i = Some f -> active f = true -> active g = true ->
  (forall t, leased g = Some t -> t ∈ bound_since s) ->
  ok {| binding := binding s; phase := phase s; forwarders := <[i := g]> (forwarders s);
        in_flight := fl; bound_since := bound_since s |}.
Proof.
  intros [Hf Ho Ht Hb Hl Hu] Hi Ha Hg Hs.
  assert (forall j f', <[i := g]> (forwarders s) !! j = Some f' -> active f' = true ->
    exists f0, forwarders s !! j = Some f0 /\ active f0 = true) as Hold
    by (intros j f' [[<- _]|Hj]%insert_lookup_inv Ha'; eauto).
  constructor; cbn; [| |done|done| |done].
  - rewrite Hf, (existsb_active_lookup _ _ _ Hi Ha). symmetry.
    apply (existsb_active_lookup _ i g); [|done]. apply list_lookup_insert_eq. by eapply lookup_lt_Some.
  - intros a b f1 f2 H1 H2 Ha1 Ha2. destruct (Hold _ _ H1 Ha1) as (? & ? & ?), (Hold _ _ H2 Ha2) as (? & ? & ?).
    by eapply Ho.
  - intros j f' t [[_ ->]|Hj]%insert_lookup_inv Ht'; eauto.
Qed.

(** The active request lowers the flag. *)
Lemma ok_take_down s i f :
  ok s -> forwarders s !! i = Some f -> active f = true ->
  ok (request_moves s (set_forwarding (binding s) false) i FNotify).
Proof.
  intros [Hf Ho Ht Hb Hl Hu] Hi Ha. pose proof (last_active _ _ _ Ho Hi Ha) as Hnone.
  constructor; cbn; [by rewrite Hnone| |done|done| |done].
  - intros a b f0 g0 Hfa Hgb Haf. by rewrite (not_existsb_active _ _ _ Hnone Hfa) in Haf.
  - intros j f' t Hj Hf'%leased_active. by rewrite (not_existsb_active _ _ _ Hnone Hj) in Hf'.
Qed.

Lemma ok_cas s i :
  ok s -> forwarders s !! i = Some FIdle -> forwarding (binding s) = false ->
  ok (request_moves s (set_forwarding (binding s) true) i FWon).
Proof.
  intros [Hf Ho Ht Hb Hl Hu] Hi Hfw. rewrite Hf in Hfw.
  assert (Hact : forall j f, <[i := FWon]> (forwarders s) !! j = Some f -> active f = true -> j = i).
  { intros j f [[-> _]|Hj]%insert_lookup_inv Ha; [done|]. by rewrite (not_existsb_active _ _ _ Hfw Hj) in Ha. }
  constructor; cbn; [| |done|done| |done].
  - symmetry. apply (existsb_active_lookup _ i FWon); [|reflexivity].
    apply list_lookup_insert_eq. by eapply lookup_lt_Some.
  - intros a b f g Ha Hb' Haf Hag. by rewrite (Hact _ _ Ha Haf), (Hact _ _ Hb' Hag).
  - intros j f t [[_ ->]|Hj]%insert_lookup_inv Hlf; [done|eauto].
Qed.

(** A request that only ends its call to [notify_waiters]. *)
Lemma insert_idle_active (l : list Forwarder) i :
  l !! i = Some FNotify -> existsb active (<[i := FIdle]> l) = existsb active l.
Proof.
  revert i. induction l as [|g l IH]; intros [|i] Hi; cbn in *; try done.
  - by injection Hi as ->.
  - by rewrite IH.
Qed.

Lemma ok_notify s i :
  ok s -> forwarders s !! i = Some FNotify ->
  ok {| binding := binding s; phase := notify (phase s); forwarders := <[i := FIdle]> (forwarders s);
        in_flight := in_flight s; bound_since := bound_since s |}.
Proof.
  intros [Hf Ho Ht Hb Hl Hu] Hi. constructor; cbn; [by rewrite insert_idle_active| | | | |].
  - intros a b f g [[_ ->]|Ha]%insert_lookup_inv [[_ ->]|Hb']%insert_lookup_inv Haf Hag; try done. by eapply Ho.
  - rewrite Ht. by destruct (phase s).
  - intros t Hp. apply Hb. by destruct (phase s).
  - intros j f t [[_ ->]|Hj]%insert_lookup_inv Hlf; [done|eauto].
  - intros Hp. apply Hu. by destruct (phase s).
Qed.

Lemma ok_arrive s :
  ok s ->
  ok {| binding := binding s; phase := phase s; forwarders := forwarders s ++ [FIdle];
        in_flight := in_flight s; bound_since := bound_since s |}.
Proof.
  intros [Hf Ho Ht Hb Hl Hu].
  assert (forall j f, (forwarders s ++ [FIdle]) !! j = Some f -> active f = true -> forwarders s !! j = Some f) as Hold.
  { intros j f [Hj|[_ [_ <-]%list_lookup_singleton_Some]]%lookup_app_Some Ha; done. }
  constructor; cbn; [| |done|done| |done].
  - rewrite existsb_app. cbn. by rewrite orb_false_r.
  - intros i j f g Hi Hj Ha Hb'. eapply Ho; [by apply Hold|by apply Hold|done|done].
  - intros j f t Hj Hlf. eapply Hl; [|done]. apply Hold; [done|by eapply leased_active].
Qed.

Lemma ok_step s t : ok s -> step s t -> ok t.
Proof.
  intros Hok Hs. pose proof Hok as [Hf Ho Ht Hb Hl Hu].
  destruct Hs as [s u Hp|s Hp|s Hp Hfw|s Hp Hfw|s Hp|s|s i Hi Hfw|s i u Hi Htgt|s i Hi Htgt|s i u Hi|s i u Hi|s i Hi|s u l1 l2 Hv].
  - constructor; cbn; [done|done|done|intros t [= ->]; left| |done]. intros i f t Hi Hlf. right. eauto.
  - by constructor; cbn.
  - rewrite Hf in Hfw. constructor; cbn; [by rewrite Hf|done|by rewrite Ht, Hp|done| |done].
    intros i f t Hi Hlf%leased_active. by rewrite (not_existsb_active _ _ _ Hfw Hi) in Hlf.
  - by constructor; cbn; [..|rewrite Ht, Hp| | |].
  - by constructor; cbn; [..|rewrite Ht, Hp| | |].
  - by apply ok_arrive.
  - by apply ok_cas.
  - eapply ok_goes_on; [done|exact Hi|done|done|]. intros t [= ->]. apply Hb.
    rewrite Ht in Htgt. destruct (phase s); try done. by injection Htgt as ->.
  - by eapply ok_take_down.
  - eapply ok_goes_on; [done|exact Hi|done|done|]. intros t [= ->]. by eapply Hl.
  - destruct Hi as [Hi|Hi]; by eapply ok_take_down.
  - by apply ok_notify.
  - by constructor.
Qed.

Lemma ok_reachable s : Reachable step (eq init) s -> ok s.
Proof.
  apply reachable_invariant; [|apply ok_step]. intros s0 <-. by constructor.
Qed.

(** The registry's [acquire_forwarding], run without interruption, is the
    path a cancel request takes through the steps. *)
Lemma acquire_takes_steps (s : State) (r : CancelRegistry) (key : ClientKey) (i : nat) :
  r !! key = Some (binding s) -> forwarders s !! i = Some FIdle ->
  match acquire_forwarding r key with
  | (r', Some t) =>
      exists s1 s2, step s s1 /\ step s1 s2 /\ forwarders s2 !! i = Some (FLease t) /\
        r' !! key = Some (binding s2) /\ phase s2 = phase s
  | (r', None) => r' = r /\ (forwarding (binding s) = true \/ target (binding s) = None)
  end.
Proof.
  intros Hr Hi. unfold acquire_forwarding. rewrite Hr.
  destruct (forwarding (binding s)) eqn:Hf; [by auto|].
  destruct (target (binding s)) as [t|] eqn:Ht; [|by auto].
  assert (Hlt : (i < length (forwarders s))%nat) by (by eapply lookup_lt_Some).
  eexists _, _. split_and!;
    [by apply f_cas|eapply (f_read _ i t); cbn; [by apply list_lookup_insert_eq|done]| | |].
  - cbn. apply list_lookup_insert_eq. by rewrite length_insert.
  - cbn. by rewrite lookup_insert_eq.
  - done.
Qed.
End CancelFacts.

(** ** The theorems of cancellation *)

(** C21. The proxy writes a cancel packet only under a lease, and an unbind
    waits for leases. In every interleaving of a session's binds and unbinds
    with any number of cancel requests: a packet is written only by the
    holder of a lease on its target; a lease is on a target bound since the
    last unbind returned, so that between the return of an unbind and the
    next bind there is no lease and no packet is written; at most one request
    holds a lease; a lease taken now is on the target bound now; an unbind
    does not return while there is a lease; and a request that runs
    [acquire_forwarding] without interruption gets the bound target unless
    another request is active. The claim ends with the writing of the packet:
    the proxy does not wait for the server to act on it, which may happen
    after the unbind (see [cancel_can_land_after_unbind]). *)
Theorem cancel_leases_respect_unbind (s : State) :
  Reachable step (eq init) s ->
  (forall s', step s s' -> (length (in_flight s) < length (in_flight s'))%nat ->
     exists i t, forwarders s !! i = Some (FLease t) /\ in_flight s' = in_flight s ++ [t]) /\
  (forall i f t, forwarders s !! i = Some f -> leased f = Some t -> t ∈ bound_since s) /\
  (phase s = Unbound -> bound_since s = [] /\ forall f, f ∈ forwarders s -> leased f = None) /\
  (forall i j f g, forwarders s !! i = Some f -> forwarders s !! j = Some g ->
     is_Some (leased f) -> is_Some (leased g) -> i = j) /\
  (forall i t, forwarders s !! i = Some FWon -> target (binding s) = Some t ->
     phase s = Bound t) /\
  (forall i f s', forwarders s !! i = Some f -> is_Some (leased f) -> phase s = Clearing ->
     step s s' -> phase s' <> Unbound) /\
  (forall (r : CancelRegistry) key i t, r !! key = Some (binding s) ->
     forwarders s !! i = Some FIdle -> phase s = Bound t ->
     existsb active (forwarders s) = false ->
     exists r' s1 s2, acquire_forwarding r key = (r', Some t) /\ step s s1 /\ step s1 s2 /\
       forwarders s2 !! i = Some (FLease t) /\ r' !! key = Some (binding s2)).
Proof.
  intros Hr. destruct (ok_reachable s Hr) as [Hf Ho Ht Hb Hl Hu]. split_and!; [|done| | | | |].
  - intros s' Hs. destruct Hs as [| | | | | | | | |s i t Hi| | |s t l1 l2 Hv]; cbn; try lia; [eauto|].
    rewrite Hv, !length_app. cbn. lia.
  - intros Hp. split; [by apply Hu|]. intros f [i Hi]%list_elem_of_lookup_1.
    destruct (leased f) as [t|] eqn:E; [|done]. pose proof (Hl _ _ _ Hi E) as Hin. rewrite (Hu Hp) in Hin.
    by apply elem_of_nil in Hin.
  - intros i j f g Hi Hj [t Hft] [u Hgu]. eapply Ho; eauto using leased_active.
  - intros i t _ Hb'. rewrite Ht in Hb'. destruct (phase s); try done. by injection Hb' as ->.
  - intros i f s' Hi [t Hft] Hp Hs. rewrite (existsb_active_lookup _ _ _ Hi (leased_active _ _ Hft)) in Hf.
    destruct Hs; cbn; try done; try congruence; destruct (phase s); done.
  - intros r key i t Hk Hi Hp Ha. pose proof (acquire_takes_steps s r key i Hk Hi) as Hacq.
    rewrite Hp in Ht. destruct (acquire_forwarding r key) as [r' [u|]] eqn:He.
    + unfold acquire_forwarding in He. rewrite Hk, Hf, Ha, Ht in He. injection He as <- <-.
      destruct Hacq as (s1 & s2 & ? & ? & ? & ? & _). eauto 10.
    + destruct Hacq as [_ [?|?]]; congruence.
Qed.

Section Interleavings.
Definition example_target : CancelTarget :=
  {| backend_addr := 1; process_id := 42; secret_key := 7 |}.

(** The session bound a backend, one cancel request holds its lease, and
    the session has started to unbind. *)
Definition clearing_with_lease : State :=
  {| binding := {| target := None; forwarding := true |}; phase := Clearing;
     forwarders := [FLease example_target]; in_flight := []; bound_since := [example_target] |}.

Lemma clearing_with_lease_reachable : Reachable step (eq init) clearing_with_lease.
Proof.
  eapply reach_step;
    [eapply reach_step;
      [eapply reach_step;
        [eapply reach_step;
          [eapply reach_step; [by apply reach_init|apply (s_bind init example_target); by left]
          |apply f_arrive]
        |eapply (f_cas _ 0); reflexivity]
      |eapply (f_read _ 0); reflexivity]
    |].
  apply (s_clear {| binding := {| target := Some example_target; forwarding := true |};
    phase := Bound example_target; forwarders := [FLease example_target]; in_flight := []; bound_since := [example_target] |}).
  right. by eexists.
Qed.

(** The lease ends, and its wake-up is sent, between the session's load of the flag and its wait. *)
Definition asleep_for_nothing : State :=
  {| binding := {| target := None; forwarding := false |}; phase := Asleep;
     forwarders := [FIdle]; in_flight := []; bound_since := [example_target] |}.
End Interleavings.

(** A cancel request has won the flag of a bound session. *)
Definition bound_and_won : State :=
  {| binding := {| target := Some example_target; forwarding := true |};
     phase := Bound example_target; forwarders := [FWon]; in_flight := []; bound_since := [example_target] |}.

Lemma bound_and_won_reachable : Reachable step (eq init) bound_and_won.
Proof.
  eapply reach_step;
    [eapply reach_step;
      [eapply reach_step; [by apply reach_init|apply (s_bind init example_target); by left]
      |apply f_arrive]
    |].
  apply (f_cas {| binding := {| target := Some example_target; forwarding := false |};
    phase := Bound example_target; forwarders := [FIdle]; in_flight := []; bound_since := [example_target] |} 0); reflexivity.
Qed.

Lemma cancel_leases_respect_unbind_witness :
  phase bound_and_won = Bound example_target /\ phase clearing_with_lease = Clearing.
Proof.
  split; [|reflexivity].
  destruct (cancel_leases_respect_unbind _ bound_and_won_reachable) as (_ & _ & _ & _ & H & _).
  apply (H 0%nat); reflexivity.
Defined.

(** An unbind can miss its wake-up: a state is reachable in which the
    session waits for the end of a lease that has already ended. No lease is
    alive and the flag is down, yet no step of the session or of a request
    already made ends the wait; only a further compare-and-swap by a cancel
    request for the same key can. *)
Theorem unbind_can_miss_its_wakeup :
  Reachable step (eq init) asleep_for_nothing /\
  (forall t, FLease t ∉ forwarders asleep_for_nothing) /\
  forall s', step asleep_for_nothing s' -> phase s' = Asleep.
Proof.
  split_and!.
  - eapply reach_step;
      [eapply reach_step;
        [eapply reach_step;
          [eapply reach_step; [apply clearing_with_lease_reachable|by apply s_loaded]
          |by eapply (f_drop _ 0 example_target); left]
        |by eapply (f_notify _ 0)]
      |by apply s_sleep].
  - intros t Hin. by apply list_elem_of_singleton in Hin.
  - intros s' Hs. remember asleep_for_nothing as s eqn:Es.
    destruct Hs as [s u Hp|s Hp|s Hp|s Hp|s Hp|s|s i Hi|s i u Hi|s i Hi|s i u Hi|s i u Hi|s i Hi|s u l1 l2 Hv];
      subst s; try done; try (by destruct Hp as [?|[? ?]]);
      try (by destruct l1); destruct i as [|[|i]]; try done; by destruct Hi.
Qed.

(** The packet is written, the lease ends and the unbind returns: the packet
    is still on its way, and the server acts on it after the session gave the
    connection back. *)
Lemma cancel_can_land_after_unbind :
  exists s s', Reachable step (eq init) s /\ phase s = Unbound /\ in_flight s = [example_target] /\
    step s s' /\ in_flight s' = [].
Proof.
  exists {| binding := binding_new; phase := Unbound; forwarders := [FNotify];
            in_flight := [example_target]; bound_since := [] |}.
  eexists. split_and!; [| | |apply (v_handle _ example_target [] []); reflexivity|reflexivity].
  - eapply reach_step;
      [eapply reach_step;
        [eapply reach_step; [apply clearing_with_lease_reachable|eapply (f_write _ 0); reflexivity]
        |eapply (f_drop _ 0 example_target); right; reflexivity]
      |].
    by apply (s_return {| binding := binding_new; phase := Clearing; forwarders := [FNotify];
      in_flight := [example_target]; bound_since := [example_target] |}).
  - reflexivity.
  - reflexivity.
Qed.
