(* ===== verification/Tasks.v ===== *)
(** * Tasks: interleavings of asynchronous tasks over shared state

    The proxy's concurrent components are tasks that touch shared atomics,
    locks and semaphores between their await points. [TaskSystem] is the
    interface such a component gives: the atomic actions of a task as the
    list of its possible outcomes, what dropping its future does where that
    can happen, the phases a new task starts in, and what other code does to
    the shared state. The facts here are proved once against the interface
    and used by the gate and the pool. *)

From S2P Require Import Prelude.

Class TaskSystem (G P E : Type) := {
  task_step : G -> P -> list (G * P);
  task_drop : G -> P -> option (G * P);
  task_start : P -> bool;
  env_step : E -> G -> G;
}.

Record System (G P : Type) := Sys { shared : G; tasks : list P }.
Arguments Sys {G P} shared tasks.
Arguments shared {G P} s.
Arguments tasks {G P} s.

(** What can happen next. *)
Inductive event (E : Type) := Moves | Drops | Arrives | Environment (e : E).
Arguments Moves {E}.
Arguments Drops {E}.
Arguments Arrives {E}.
Arguments Environment {E} e.

Section Interleaving.
Context {G P E : Type} `{TaskSystem G P E}.

Inductive sys_step : event E -> System G P -> System G P -> Prop :=
| sys_moves g ts i p g' p' :
    ts !! i = Some p -> (g', p') ∈ task_step g p ->
    sys_step Moves (Sys g ts) (Sys g' (<[i := p']> ts))
| sys_drops g ts i p g' p' :
    ts !! i = Some p -> task_drop g p = Some (g', p') ->
    sys_step Drops (Sys g ts) (Sys g' (<[i := p']> ts))
| sys_arrives g ts p :
    task_start p = true -> sys_step Arrives (Sys g ts) (Sys g (ts ++ [p]))
| sys_environment g ts e :
    sys_step (Environment e) (Sys g ts) (Sys (env_step e g) ts).

(** The states reached from [g] by the events of [allowed]. *)
Definition Runs (allowed : event E -> Prop) (g : G) : System G P -> Prop :=
  Reachable (fun s t => exists ev, allowed ev /\ sys_step ev s t) (eq (Sys g [])).

(** The value of a weight over the tasks. *)
Fixpoint total (w : P -> Z) (ts : list P) : Z :=
  match ts with
  | [] => 0
  | p :: ts => w p + total w ts
  end.

Lemma total_insert w ts i p p' :
  ts !! i = Some p -> total w (<[i := p']> ts) = total w ts - w p + w p'.
Proof.
  revert i. induction ts as [|q ts IH]; intros [|i] Hi; try done; cbn in *.
  - injection Hi as ->. lia.
  - rewrite IH by done. lia.
Qed.

Lemma total_snoc w ts p : total w (ts ++ [p]) = total w ts + w p.
Proof. induction ts as [|q ts IH]; cbn; lia. Qed.

Lemma total_app w ts us : total w (ts ++ us) = total w ts + total w us.
Proof. induction ts as [|q ts IH]; cbn; lia. Qed.

Lemma total_le v w ts : (forall p, v p <= w p) -> total v ts <= total w ts.
Proof. intros Hle. induction ts as [|p ts IH]; cbn; [lia|]. specialize (Hle p). lia. Qed.

Lemma total_nonneg w ts : (forall p, 0 <= w p) -> 0 <= total w ts.
Proof. intros Hw. induction ts as [|p ts IH]; cbn; [lia|]. specialize (Hw p). lia. Qed.

Lemma total_lookup w ts i p : (forall p, 0 <= w p) -> ts !! i = Some p -> w p <= total w ts.
Proof.
  intros Hw. revert i. induction ts as [|q ts IH]; intros [|i] Hi; try done; cbn in *.
  - injection Hi as ->. pose proof (total_nonneg w ts Hw). lia.
  - pose proof (Hw q). pose proof (IH i Hi). lia.
Qed.

Lemma total_lookup2 w ts i j p q :
  (forall p, 0 <= w p) -> i <> j -> ts !! i = Some p -> ts !! j = Some q ->
  w p + w q <= total w ts.
Proof.
  intros Hw. revert i j. induction ts as [|a ts IH]; intros [|i] [|j] Hne Hi Hj; try done; cbn in *.
  - injection Hi as ->. pose proof (total_lookup w ts j q Hw Hj). lia.
  - injection Hj as ->. pose proof (total_lookup w ts i p Hw Hi). lia.
  - assert (i <> j) as Hij by congruence.
    pose proof (IH i j Hij Hi Hj). pose proof (Hw a). lia.
Qed.

Lemma total_minus v w ts : total (fun p => v p - w p) ts = total v ts - total w ts.
Proof. induction ts as [|p ts IH]; cbn; lia. Qed.

(** A task whose weight [v] exceeds [w], where [w] uses up the total of [v]. *)
Lemma total_tight v w ts i p :
  (forall p, w p <= v p) -> total v ts <= total w ts -> ts !! i = Some p -> v p = w p.
Proof.
  intros Hle Ht Hi. pose proof (total_minus v w ts) as Hm.
  pose proof (total_lookup (fun p => v p - w p) ts i p) as Hl.
  specialize (Hl ltac:(intros q; specialize (Hle q); lia) Hi). cbn in Hl.
  specialize (Hle p). lia.
Qed.

Lemma total_zero w ts : Forall (fun p => w p = 0) ts -> total w ts = 0.
Proof. induction 1; cbn; lia. Qed.

(** A run follows an invariant that every allowed event keeps. *)
Lemma runs_invariant (allowed : event E -> Prop) (inv : G -> list P -> Prop) g :
  inv g [] ->
  (forall g ts i p g' p', inv g ts -> ts !! i = Some p -> (g', p') ∈ task_step g p ->
     inv g' (<[i := p']> ts)) ->
  (forall g ts i p g' p', allowed Drops -> inv g ts -> ts !! i = Some p ->
     task_drop g p = Some (g', p') -> inv g' (<[i := p']> ts)) ->
  (forall g ts p, inv g ts -> task_start p = true -> inv g (ts ++ [p])) ->
  (forall g ts e, allowed (Environment e) -> inv g ts -> inv (env_step e g) ts) ->
  forall s, Runs allowed g s -> inv (shared s) (tasks s).
Proof.
  intros Hi Hm Hd Ha He. apply reachable_invariant; [by intros s <-|].
  intros s t Hs (ev & Hall & Hst). destruct Hst; cbn in *; eauto.
Qed.

Lemma runs_weaken (a b : event E -> Prop) g s :
  (forall ev, a ev -> b ev) -> Runs a g s -> Runs b g s.
Proof.
  intros Hab Hr. induction Hr as [s Hs|s t Hr IH (ev & Hall & Hst)].
  - by constructor.
  - eapply reach_step; [exact IH|]. exists ev. auto.
Qed.

(** ** Schedules: runs given as a list of choices *)

Inductive choice :=
| Go (i k : nat)           (* task [i] takes its [k]-th outcome *)
| DropTask (i : nat)
| Start (p : P)
| Outside (e : E).

Definition choice_event (c : choice) : event E :=
  match c with
  | Go _ _ => Moves
  | DropTask _ => Drops
  | Start _ => Arrives
  | Outside e => Environment e
  end.

Definition perform (s : System G P) (c : choice) : option (System G P) :=
  match c with
  | Go i k =>
      p ← tasks s !! i;
      '(g', p') ← task_step (shared s) p !! k;
      Some (Sys g' (<[i := p']> (tasks s)))
  | DropTask i =>
      p ← tasks s !! i;
      '(g', p') ← task_drop (shared s) p;
      Some (Sys g' (<[i := p']> (tasks s)))
  | Start p => if task_start p then Some (Sys (shared s) (tasks s ++ [p])) else None
  | Outside e => Some (Sys (env_step e (shared s)) (tasks s))
  end.

Fixpoint perform_all (s : System G P) (cs : list choice) : option (System G P) :=
  match cs with
  | [] => Some s
  | c :: cs => s' ← perform s c; perform_all s' cs
  end.

Lemma perform_step s c t : perform s c = Some t -> sys_step (choice_event c) s t.
Proof.
  destruct s as [g ts]. destruct c as [i k|i|p|e]; cbn.
  - destruct (ts !! i) as [p|] eqn:Hi; [|done]. cbn.
    destruct (task_step g p !! k) as [[g' p']|] eqn:Hk; [|done]. cbn. intros [= <-].
    eapply sys_moves; [done|]. by eapply list_elem_of_lookup_2.
  - destruct (ts !! i) as [p|] eqn:Hi; [|done]. cbn.
    destruct (task_drop g p) as [[g' p']|] eqn:Hk; [|done]. cbn. intros [= <-].
    by eapply sys_drops.
  - destruct (task_start p) eqn:Hp; [|done]. intros [= <-]. by constructor.
  - intros [= <-]. constructor.
Qed.

Lemma runs_perform_all (allowed : event E -> Prop) g s cs t :
  Runs allowed g s -> Forall (fun c => allowed (choice_event c)) cs ->
  perform_all s cs = Some t -> Runs allowed g t.
Proof.
  intros Hr Hall. revert s Hr. induction Hall as [|c cs Hc _ IH]; intros s Hr; cbn.
  - by intros [= <-].
  - destruct (perform s c) as [s'|] eqn:Hs; [|done]. cbn. apply IH.
    eapply reach_step; [exact Hr|]. exists (choice_event c). split; [done|].
    by apply perform_step.
Qed.

(** Schedules of the newest task. *)
Lemma insert_last ts (p q : P) : <[length ts := q]> (ts ++ [p]) = ts ++ [q].
Proof. by rewrite insert_app_r_alt, Nat.sub_diag. Qed.

Lemma lookup_last ts (p : P) : (ts ++ [p]) !! length ts = Some p.
Proof. by rewrite lookup_app_r, Nat.sub_diag. Qed.

Lemma perform_go_last g ts p k g' p' cs :
  task_step g p !! k = Some (g', p') ->
  perform_all (Sys g (ts ++ [p])) (Go (length ts) k :: cs)
  = perform_all (Sys g' (ts ++ [p'])) cs.
Proof.
  intros Hk. cbn [perform_all perform tasks shared]. rewrite lookup_last. cbn [mbind option_bind].
  rewrite Hk. cbn [mbind option_bind]. by rewrite insert_last.
Qed.

Lemma perform_drop_last g ts p g' p' cs :
  task_drop g p = Some (g', p') ->
  perform_all (Sys g (ts ++ [p])) (DropTask (length ts) :: cs)
  = perform_all (Sys g' (ts ++ [p'])) cs.
Proof.
  intros Hk. cbn [perform_all perform tasks shared]. rewrite lookup_last. cbn [mbind option_bind].
  rewrite Hk. cbn [mbind option_bind]. by rewrite insert_last.
Qed.

(** From the initial state. *)
Lemma schedule (allowed : event E -> Prop) g cs t :
  Forall (fun c => allowed (choice_event c)) cs -> perform_all (Sys g []) cs = Some t ->
  Runs allowed g t.
Proof. apply runs_perform_all. by constructor. Qed.
End Interleaving.

Arguments choice : clear implicits.
Arguments Go {P E} i k.
Arguments DropTask {P E} i.
Arguments Start {P E} p.
Arguments Outside {P E} e.

(** Split the outcomes of an action, given as a list of pairs. *)
Ltac outcomes :=
  repeat match goal with
         | H : _ ∈ [] |- _ => by apply elem_of_nil in H
         | H : _ ∈ _ :: _ |- _ => apply elem_of_cons in H as [H|H]
         | H : _ ∈ _ ++ _ |- _ => apply elem_of_app in H as [H|H]
         | H : _ ∈ (if ?b then _ else _) |- _ => destruct b eqn:?
         | H : _ ∈ (match ?x with _ => _ end) |- _ => destruct x eqn:?
         | H : (_, _) = (_, _) |- _ => injection H as ? ?; subst
         end.
