(* ===== verification/Backpressure.v ===== *)
(** * Backpressure: admission to a bounded resource

    Models [BackpressureGate] and [BackpressurePermit] of
    [pg-kinetic-core/src/traffic/backpressure.rs] under concurrency: any
    number of tasks run [checkout_until] and drop the permits they obtain,
    every atomic operation and semaphore call being one step, and the shared
    limit is lowered and raised at any time. The semaphore is never closed by
    the code, so [Closed] does not occur. A sleeping task wakes on a
    notification, on its 50 ms poll or at its deadline, in any order. *)

From S2P Require Import Prelude Tasks.

(** The shared fields of a [BackpressureGate]; [available] is the number of
    free permits of the semaphore [capacity]. *)
Record Gate := {
  available : Z;
  max_in_flight : Z;
  dynamic_limit : Z;
  max_waiters : Z;
  waiters : Z;
  in_flight : Z;
}.

Inductive BackpressureError := QueueFull | Timeout | Closed.

(** [BackpressureGate::new]. *)
Definition gate_new (max_in_flight max_waiters : Z) : Gate :=
  let max_in_flight := Z.max max_in_flight 1 in
  {| available := max_in_flight; max_in_flight := max_in_flight;
     dynamic_limit := max_in_flight; max_waiters := max_waiters;
     waiters := 0; in_flight := 0 |}.

(** [limit]. *)
Definition limit (g : Gate) : Z := Z.min (Z.max (dynamic_limit g) 1) (max_in_flight g).

Definition with_counts (g : Gate) (a w f : Z) : Gate :=
  {| available := a; max_in_flight := max_in_flight g; dynamic_limit := dynamic_limit g;
     max_waiters := max_waiters g; waiters := w; in_flight := f |}.
Definition with_limit (g : Gate) (l : Z) : Gate :=
  {| available := available g; max_in_flight := max_in_flight g; dynamic_limit := l;
     max_waiters := max_waiters g; waiters := waiters g; in_flight := in_flight g |}.

(** [set_limit]; a shared limit ([with_dynamic_limit]) is also stored to by
    other code, without the normalization. *)
Definition set_limit (g : Gate) (l : Z) : Gate :=
  with_limit g (Z.min (Z.max l 1) (max_in_flight g)).

(** [with_dynamic_limit]: the shared limit is normalized when the gate is made. *)
Definition with_dynamic_limit (max_in_flight max_waiters l : Z) : Gate :=
  set_limit (gate_new max_in_flight max_waiters) l.

(** Semaphore and counter operations. *)
Definition take_permit (g : Gate) : Gate := with_counts g (available g - 1) (waiters g) (in_flight g).
Definition give_permit (g : Gate) : Gate := with_counts g (available g + 1) (waiters g) (in_flight g).
Definition add_waiters (g : Gate) (d : Z) : Gate :=
  with_counts g (available g) (waiters g + d) (in_flight g).
Definition add_in_flight (g : Gate) (d : Z) : Gate :=
  with_counts g (available g) (waiters g) (in_flight g + d).

(** Where a task is. [Head] and [Loaded] are the test at the head of the
    loop, [SemFull] to [SemEnd] the wait for a semaphore permit, [Counted]
    to [LostPermit] the test against the limit, [Wait] to [WaitEnd] the body
    of [wait_for_capacity_change], [Held] owns a [BackpressurePermit] and
    [Freeing] is in its [Drop], between the counter and the permit. *)
Inductive Phase :=
| Head
| Loaded (observed : Z)
| TryAcquire
| SemFull
| SemQueued (previous : Z)
| SemAsleep
| SemEnd (got : bool)
| HasPermit
| Counted (previous : Z)
| Lost
| LostPermit
| Wait
| WaitQueued (previous : Z)
| WaitAsleep
| WaitEnd (again : bool)
| Held
| Freeing
| Freed
| Failed (e : BackpressureError)
| Dropped.

(** One atomic action of [checkout_until], [wait_for_capacity_change] or of
    the drop of a permit. *)
Definition gate_step (g : Gate) (p : Phase) : list (Gate * Phase) :=
  match p with
  | Head => [(g, Loaded (in_flight g))]
  | Loaded n => [(g, if limit g <=? n then Wait else TryAcquire)]
  | TryAcquire =>
      if 0 <? available g then [(take_permit g, HasPermit)] else [(g, SemFull)]
  | SemFull => [(add_waiters g 1, SemQueued (waiters g))]
  | SemQueued previous =>
      if max_waiters g <=? previous then [(add_waiters g (-1), Failed QueueFull)]
      else [(g, SemAsleep)]
  | SemAsleep =>
      (if 0 <? available g then [(take_permit g, SemEnd true)] else []) ++ [(g, SemEnd false)]
  | SemEnd got => [(add_waiters g (-1), if got then HasPermit else Failed Timeout)]
  | HasPermit => [(add_in_flight g 1, Counted (in_flight g))]
  | Counted previous => [(g, if previous <? limit g then Held else Lost)]
  | Lost => [(add_in_flight g (-1), LostPermit)]
  | LostPermit => [(give_permit g, Wait)]
  | Wait => [(add_waiters g 1, WaitQueued (waiters g))]
  | WaitQueued previous =>
      if max_waiters g <=? previous then [(add_waiters g (-1), Failed QueueFull)]
      else [(g, WaitAsleep)]
  | WaitAsleep => [(g, WaitEnd true); (g, WaitEnd false)]
  | WaitEnd again => [(add_waiters g (-1), if again then Head else Failed Timeout)]
  | Held => [(add_in_flight g (-1), Freeing)]
  | Freeing => [(give_permit g, Freed)]
  | Freed | Failed _ | Dropped => []
  end.

(** Dropping the future of a checkout, possible where it awaits: nothing of
    [checkout_until] runs any more. *)
Definition gate_drop (g : Gate) (p : Phase) : option (Gate * Phase) :=
  match p with
  | SemAsleep | WaitAsleep => Some (g, Dropped)
  | _ => None
  end.

#[global] Instance gate_tasks : TaskSystem Gate Phase Z := {
  task_step := gate_step;
  task_drop := gate_drop;
  task_start p := match p with Head => true | _ => false end;
  env_step l g := with_limit g l;
}.

(** ** Facts *)

Section GateFacts.
(** What each phase owns: a semaphore permit, a unit of [in_flight], a unit
    of [waiters]. A dropped waiter keeps the unit it never gives back. *)
Definition permits (p : Phase) : Z :=
  match p with
  | SemEnd true | HasPermit | Counted _ | Lost | LostPermit | Held | Freeing => 1
  | _ => 0
  end.
Definition counted (p : Phase) : Z :=
  match p with Counted _ | Lost | Held => 1 | _ => 0 end.
Definition waiting (p : Phase) : Z :=
  match p with
  | SemQueued _ | SemAsleep | SemEnd _ | WaitQueued _ | WaitAsleep | WaitEnd _ | Dropped => 1
  | _ => 0
  end.

(** Tasks that hold a permit or are about to be given one, for limit [l];
    tasks that wait, are about to or were dropped doing so, for at most
    [w] waiters. *)
Definition admitted (l : Z) (p : Phase) : Z :=
  match p with
  | Held => 1
  | Counted previous => if previous <? l then 1 else 0
  | _ => 0
  end.
Definition queued (w : Z) (p : Phase) : Z :=
  match p with
  | SemQueued previous | WaitQueued previous => if w <=? previous then 0 else 1
  | SemAsleep | SemEnd _ | WaitAsleep | WaitEnd _ | Dropped => 1
  | _ => 0
  end.
Definition dropped (p : Phase) : Z := match p with Dropped => 1 | _ => 0 end.
Definition held (p : Phase) : Z := match p with Held => 1 | _ => 0 end.
Definition finished (p : Phase) : bool :=
  match p with Freed | Failed _ => true | _ => false end.

(** Compare two weights phase by phase. *)
Ltac weigh := let p := fresh "p" in intros p; destruct p; cbn; split_matches; lia.

Lemma held_le_counted p : held p <= counted p.
Proof. revert p. weigh. Qed.
Lemma counted_le_permits p : counted p <= permits p.
Proof. revert p. weigh. Qed.
Lemma waiting_nonneg p : 0 <= waiting p.
Proof. revert p. weigh. Qed.
Lemma queued_le_waiting w p : queued w p <= waiting p.
Proof. revert p. weigh. Qed.
Lemma admitted_le_counted l p : admitted l p <= counted p.
Proof. revert p. weigh. Qed.
Lemma dropped_le_queued w p : dropped p <= queued w p.
Proof. revert p. weigh. Qed.
Lemma held_le_admitted l p : held p <= admitted l p.
Proof. revert p. weigh. Qed.

(** The books of the gate. *)
Record accounted (m w : Z) (g : Gate) (ts : list Phase) : Prop := {
  acc_max : max_in_flight g = m;
  acc_waiters_max : max_waiters g = w;
  acc_permits : available g + total permits ts = m;
  acc_available : 0 <= available g;
  acc_in_flight : in_flight g = total counted ts;
  acc_waiting : waiters g = total waiting ts;
  acc_queued : total (queued w) ts <= Z.max 0 w;
}.

Lemma accounted_move m w g ts i p g' p' :
  accounted m w g ts -> ts !! i = Some p -> (g', p') ∈ gate_step g p ->
  accounted m w g' (<[i := p']> ts).
Proof.
  intros [Hm Hw Hp Ha Hf Hq Hu] Hi Hs.
  pose proof (total_le (queued w) waiting ts (queued_le_waiting w)) as Hle.
  destruct p; cbn in Hs; outcomes; subst;
    constructor; cbn; rewrite ?(total_insert _ _ _ _ _ Hi); cbn;
    try split_matches; bool_to_prop; cbn; lia.
Qed.

Lemma accounted_drop m w g ts i p g' p' :
  accounted m w g ts -> ts !! i = Some p -> gate_drop g p = Some (g', p') ->
  accounted m w g' (<[i := p']> ts).
Proof.
  intros [Hm Hw Hp Ha Hf Hq Hu] Hi Hs. destruct p; simplify_eq/=;
    constructor; cbn; rewrite ?(total_insert _ _ _ _ _ Hi); cbn; lia.
Qed.

Lemma accounted_arrive m w g ts p :
  accounted m w g ts -> task_start p = true -> accounted m w g (ts ++ [p]).
Proof.
  intros [Hm Hw Hp Ha Hf Hq Hu] Hs. destruct p; try done.
  constructor; cbn; rewrite ?total_snoc; cbn; lia.
Qed.

Lemma accounted_env m w g ts (l : Z) : accounted m w g ts -> accounted m w (env_step l g) ts.
Proof. by intros [Hm Hw Hp Ha Hf Hq Hu]. Qed.

Lemma runs_accounted m w l s :
  Runs (fun _ => True) (with_dynamic_limit m w l) s ->
  accounted (Z.max m 1) w (shared s) (tasks s).
Proof.
  apply runs_invariant.
  - constructor; cbn; lia.
  - intros. by eapply accounted_move.
  - intros. by eapply accounted_drop.
  - intros. by eapply accounted_arrive.
  - intros. by eapply accounted_env.
Qed.

Lemma initial_limit m w l :
  limit (with_dynamic_limit m w l) = Z.min (Z.max l 1) (Z.max m 1).
Proof.
  unfold limit, with_dynamic_limit, set_limit, with_limit, gate_new.
  cbn [dynamic_limit max_in_flight]. lia.
Qed.

Lemma dropped_grows ev (s t : System Gate Phase) :
  sys_step ev s t -> total dropped (tasks s) <= total dropped (tasks t).
Proof.
  intros Hs. destruct Hs as [g ts i p g' p' Hi Hs|g ts i p g' p' Hi Hs|g ts p Hs|]; cbn [tasks].
  - rewrite (total_insert _ _ _ _ _ Hi). destruct p; cbn in Hs; outcomes; cbn; split_matches; cbn; lia.
  - rewrite (total_insert _ _ _ _ _ Hi). destruct p; cbn in Hs; simplify_eq; cbn; lia.
  - rewrite total_snoc. destruct p; done || (cbn; lia).
  - lia.
Qed.

(** With a limit that stays put, permits are given within it. *)
Definition within (m w l : Z) (g : Gate) (ts : list Phase) : Prop :=
  accounted m w g ts /\ limit g = l /\ 1 <= l /\ total (admitted l) ts <= l.

Lemma limit_step g p g' p' : (g', p') ∈ gate_step g p -> limit g' = limit g.
Proof. destruct p; cbn; intros; outcomes; done. Qed.

Lemma within_move m w l g ts i p g' p' :
  within m w l g ts -> ts !! i = Some p -> (g', p') ∈ gate_step g p ->
  within m w l g' (<[i := p']> ts).
Proof.
  intros (Hacc & Hl & H1 & Had) Hi Hs. unfold within.
  rewrite (limit_step _ _ _ _ Hs). split_and!; [by eapply accounted_move|done|done|].
  pose proof (total_le (admitted l) counted ts (admitted_le_counted l)) as Hle.
  destruct Hacc as [_ _ _ _ Hf _ _].
  destruct p; cbn in Hs; outcomes; subst; rewrite (total_insert _ _ _ _ _ Hi); cbn;
    split_matches; bool_to_prop; simplify_eq; cbn; lia.
Qed.

Lemma runs_within m w l s :
  Runs (fun ev => forall e, ev <> Environment e) (with_dynamic_limit m w l) s ->
  within (Z.max m 1) w (limit (with_dynamic_limit m w l)) (shared s) (tasks s).
Proof.
  assert (H0 : within (Z.max m 1) w (limit (with_dynamic_limit m w l)) (with_dynamic_limit m w l) []).
  { assert (1 <= limit (with_dynamic_limit m w l))
      by (rewrite initial_limit; lia).
    split_and!; [constructor; cbn; lia|done|done|cbn [total]; lia]. }
  revert H0. generalize (limit (with_dynamic_limit m w l)). intros lim H0.
  apply runs_invariant; [exact H0| | | |].
  - intros. by eapply within_move.
  - intros g ts i p g' p' _ (Hacc & Hl & H1 & Had) Hi Hs.
    split_and!; [by eapply accounted_drop| |done|]; destruct p; simplify_eq/=; try done;
      rewrite (total_insert _ _ _ _ _ Hi); cbn; lia.
  - intros g ts p (Hacc & Hl & H1 & Had) Hs.
    split_and!; [by eapply accounted_arrive|done|done|]. destruct p; try done.
    rewrite total_snoc. cbn. lia.
  - intros g ts e Hall. by destruct (Hall e).
Qed.

(** A checkout running alone. *)
Fixpoint run_alone (fuel : nat) (g : Gate) (p : Phase) : Gate * Phase :=
  match fuel, gate_step g p with
  | S fuel, (g, p) :: _ => run_alone fuel g p
  | _, _ => (g, p)
  end.

Definition settled (p : Phase) : bool :=
  match p with Held | Freed | Failed _ | Dropped => true | _ => false end.

Lemma settled_permits ts :
  Forall (fun p => settled p = true) ts -> total permits ts = total counted ts.
Proof. induction 1 as [|p ts Hp _ IH]; cbn; [done|]. rewrite IH. by destruct p. Qed.

Lemma uncontended_checkout g :
  in_flight g < limit g -> 0 < available g ->
  run_alone 5 g Head = (add_in_flight (take_permit g) 1, Held).
Proof.
  intros Hf Ha. cbn [run_alone gate_step]. rewrite (proj2 (Z.leb_gt _ _) Hf).
  cbn [run_alone gate_step]. rewrite (proj2 (Z.ltb_lt _ _) Ha).
  cbn [run_alone gate_step].
  change (limit (add_in_flight (take_permit g) 1)) with (limit g).
  change (in_flight (take_permit g)) with (in_flight g).
  by rewrite (proj2 (Z.ltb_lt _ _) Hf).
Qed.
End GateFacts.

(** ** The theorems of the gate *)

(** C20. The gate keeps its bounds under every interleaving: whatever the
    tasks, dropped futures and changes of the shared limit, [in_flight]
    counts the tasks that hold a permit or are being tested for one and never
    passes the capacity, at most [max_waiters] tasks wait, no counter goes
    below zero, and once every checkout has ended, none of them by dropping
    its future in the middle, all capacity is back; while
    the limit is not changed at most that many permits are held; and when no
    other checkout is under way and the limit is not reached, a checkout is
    granted at once, without waiting. *)
Theorem gate_bounds (m w l : Z) (s : System Gate Phase) :
  Runs (fun _ => True) (with_dynamic_limit m w l) s ->
  let g := shared s in
  let ts := tasks s in
  in_flight g = total counted ts /\ total held ts <= in_flight g <= Z.max m 1 /\
  0 <= available g /\ 0 <= waiters g /\ total (queued w) ts <= Z.max 0 w /\
  (Forall (fun p => finished p = true) ts ->
   available g = Z.max m 1 /\ in_flight g = 0 /\ waiters g = 0) /\
  (Runs (fun ev => forall e, ev <> Environment e) (with_dynamic_limit m w l) s ->
   total held ts <= Z.min (Z.max l 1) (Z.max m 1)) /\
  (Forall (fun p => settled p = true) ts -> in_flight g < limit g ->
   snd (run_alone 5 g Head) = Held).
Proof.
  intros Hr g ts. pose proof (runs_accounted _ _ _ _ Hr) as [Hm Hw Hp Ha Hf Hq Hu].
  fold g in Hm, Hw, Hp, Ha, Hf, Hq. fold ts in Hp, Hf, Hq, Hu.
  pose proof (total_le held counted ts held_le_counted).
  pose proof (total_le counted permits ts counted_le_permits).
  pose proof (total_nonneg waiting ts waiting_nonneg).
  split_and!; try lia.
  - intros Hfin.
    assert (Hz : forall wt, (forall p, finished p = true -> wt p = 0) -> total wt ts = 0).
    { intros wt Hwt. apply total_zero. eapply Forall_impl; [exact Hfin|exact Hwt]. }
    rewrite (Hz permits), (Hz counted), (Hz waiting) in * by (by intros []). lia.
  - intros Hr'. destruct (runs_within _ _ _ _ Hr') as (_ & _ & _ & Had).
    fold ts in Had.
    pose proof (total_le held _ ts (held_le_admitted (limit (with_dynamic_limit m w l)))).
    rewrite initial_limit in *. lia.
  - intros Hset Hlt. rewrite uncontended_checkout; [done|done|].
    rewrite settled_permits in Hp by done. unfold limit in Hlt. lia.
Qed.

Section GateExamples.
(** One task, running alone from its start to a permit. *)
Definition obtain (i : nat) : list (choice Phase Z) := Start Head :: replicate 5 (Go i 0).

(** One task, from its start to its wait for capacity. *)
Definition wait (i : nat) : list (choice Phase Z) := Start Head :: replicate 4 (Go i 0).

(** A gate limited to one permit of two: one permit held, one task waiting. *)
Definition one_waiting : System Gate Phase :=
  Sys {| available := 1; max_in_flight := 2; dynamic_limit := 1; max_waiters := 1;
         waiters := 1; in_flight := 1 |} [Held; WaitAsleep].

Lemma one_waiting_runs (allowed : event Z -> Prop) :
  allowed Moves -> allowed Arrives -> Runs allowed (with_dynamic_limit 2 1 1) one_waiting.
Proof.
  intros Hm Ha. apply (schedule _ _ (obtain 0 ++ wait 1)); [|done].
  repeat constructor; done.
Qed.

(** The waits given up by [k] tasks while one permit is held. *)
Definition given_up (w : Z) (k : nat) : System Gate Phase :=
  Sys {| available := 0; max_in_flight := 1; dynamic_limit := 1; max_waiters := w;
         waiters := Z.of_nat k; in_flight := 1 |} (Held :: replicate k Dropped).

Lemma given_up_step w k :
  Z.of_nat k < w ->
  perform_all (given_up w k) (wait (S k) ++ [DropTask (S k)]) = Some (given_up w (S k)).
Proof.
  intros Hk. unfold wait, given_up.
  set (ts := Held :: replicate k Dropped).
  replace (S k) with (length ts) by (cbn; by rewrite length_replicate).
  change (perform_all ?s ((Start Head :: ?cs) ++ ?ds)) with
    (perform_all (Sys (shared s) (ts ++ [Head])) (cs ++ ds)).
  cbn [replicate app shared].
  do 3 (erewrite perform_go_last by reflexivity). cbn [Z.max].
  erewrite perform_go_last
    by (cbn; rewrite (proj2 (Z.leb_gt _ _) Hk); reflexivity).
  erewrite perform_drop_last by reflexivity. cbn.
  rewrite length_replicate, <- replicate_S_end. unfold add_waiters, with_counts. cbn.
  do 3 f_equal. lia.
Qed.
End GateExamples.

Lemma gate_bounds_witness :
  total held (tasks one_waiting) <= 1 /\ waiters (shared one_waiting) = 1.
Proof.
  destruct (gate_bounds 2 1 1 one_waiting (one_waiting_runs _ I I)) as (_ & _ & _ & _ & _ & _ & Hl & _).
  split; [|reflexivity]. apply Hl, one_waiting_runs; by intros e.
Defined.

(** Waits that are given up close the queue for good: a future of
    [checkout] dropped while it waits never takes back its unit of
    [waiters]. A gate is reachable where every permit is back, no task is
    left and the queue still counts [max_waiters] waiters; the units lost
    never come back; and once [max_waiters] of them are lost, in every state
    from then on no task waits, so a checkout that has to wait is refused
    with [QueueFull]. *)
Theorem dropped_waits_close_queue (m l : Z) (k : nat) :
  let w := Z.of_nat k in
  (exists s, Runs (fun ev => forall e, ev <> Environment e) (gate_new 1 w) s /\
     tasks s = Freed :: replicate k Dropped /\ in_flight (shared s) = 0 /\
     available (shared s) = 1 /\ waiters (shared s) = max_waiters (shared s)) /\
  (forall ev (s t : System Gate Phase),
     sys_step ev s t -> total dropped (tasks s) <= total dropped (tasks t)) /\
  (forall s, Runs (fun _ => True) (with_dynamic_limit m w l) s ->
     w <= total dropped (tasks s) ->
     forall i p, tasks s !! i = Some p -> p <> Dropped -> queued w p = 0).
Proof.
  intros w. split_and!.
  - assert (Hk : forall n, (n <= k)%nat ->
      Runs (fun ev => forall e, ev <> Environment e) (gate_new 1 w) (given_up w n)).
    { induction n as [|n IH]; intros Hn.
      - apply (schedule _ _ (obtain 0)); [by repeat constructor|done].
      - eapply runs_perform_all; [apply IH; lia| |apply given_up_step; lia].
        repeat constructor; done. }
    eexists. split; [eapply (runs_perform_all _ _ _ [Go 0 0; Go 0 0]); [by apply (Hk k)|by repeat constructor|reflexivity]|].
    done.
  - apply dropped_grows.
  - intros s Hr Hd i p Hi Hp. destruct (runs_accounted _ _ _ _ Hr) as [_ _ _ _ _ _ Hq].
    rewrite (total_tight (queued w) dropped (tasks s) i p (dropped_le_queued w)); [by destruct p|lia|done].
Qed.
