(* ===== verification/Pool.v ===== *)
(** * Pool: the store of backend connections

    Models [BackendStore] and the connection part of [checkout_with_mode] of
    [pg-kinetic-proxy/src/pool.rs] under concurrency: any number of
    checkouts, returns, discards, reaps and retirements interleave, each
    atomic operation and each critical section being one step. Checkouts have
    passed the gates of [Backpressure]; here any number of them may be under
    way. Connecting succeeds or fails as the server pleases. A [try_lock] of
    the idle queue may fail at any time. *)

From S2P Require Import Prelude Tasks.

Record PoolLifecycleConfig := {
  max_size : Z;
  min_idle : Z;
  idle_timeout : Z;
  max_lifetime : Z;
}.

Record BackendLifecycle := { created_at : Z; last_released_at : Z }.

Inductive CheckoutMode := AllowConnect | PreferConnect | ReuseOnly.

#[global] Instance CheckoutMode_eq_dec : EqDecision CheckoutMode.
Proof. solve_decision. Defined.

(** [BackendStore], with the clock it reads and the next backend id
    ([NEXT_BACKEND_ID] of [pool/backend.rs]); backends are their ids.
    [global_slots] is the number of free permits of the shared semaphore. *)
Record Store := {
  idle : list Z;
  lifecycle : gmap Z BackendLifecycle;
  global_permits : gset Z;
  active_backends : Z;
  idle_backends : Z;
  global_slots : option Z;
  global_available : bool;
  config : PoolLifecycleConfig;
  next_id : Z;
  clock : Z;
}.

(** [BackendStore::new]; the pool passes [lifecycle.max_size]. *)
Definition store_new (cfg : PoolLifecycleConfig) (slots : option Z) (notify : bool) : Store :=
  {| idle := []; lifecycle := ∅; global_permits := ∅; active_backends := 0;
     idle_backends := 0; global_slots := slots; global_available := notify;
     config := cfg; next_id := 1; clock := 0 |}.

Definition max_backends (s : Store) : Z := max_size (config s).

Definition with_idle (s : Store) (l : list Z) (n : Z) : Store :=
  {| idle := l; lifecycle := lifecycle s; global_permits := global_permits s;
     active_backends := active_backends s; idle_backends := n; global_slots := global_slots s;
     global_available := global_available s; config := config s; next_id := next_id s;
     clock := clock s |}.
Definition add_active (s : Store) (d : Z) : Store :=
  {| idle := idle s; lifecycle := lifecycle s; global_permits := global_permits s;
     active_backends := active_backends s + d; idle_backends := idle_backends s;
     global_slots := global_slots s; global_available := global_available s;
     config := config s; next_id := next_id s; clock := clock s |}.
Definition with_lifecycle (s : Store) (m : gmap Z BackendLifecycle) : Store :=
  {| idle := idle s; lifecycle := m; global_permits := global_permits s;
     active_backends := active_backends s; idle_backends := idle_backends s;
     global_slots := global_slots s; global_available := global_available s;
     config := config s; next_id := next_id s; clock := clock s |}.
Definition with_global (s : Store) (held : gset Z) (free : option Z) : Store :=
  {| idle := idle s; lifecycle := lifecycle s; global_permits := held;
     active_backends := active_backends s; idle_backends := idle_backends s;
     global_slots := free; global_available := global_available s;
     config := config s; next_id := next_id s; clock := clock s |}.
Definition with_clock (s : Store) (now : Z) : Store :=
  {| idle := idle s; lifecycle := lifecycle s; global_permits := global_permits s;
     active_backends := active_backends s; idle_backends := idle_backends s;
     global_slots := global_slots s; global_available := global_available s;
     config := config s; next_id := next_id s; clock := now |}.
Definition fresh_id (s : Store) : Store :=
  {| idle := idle s; lifecycle := lifecycle s; global_permits := global_permits s;
     active_backends := active_backends s; idle_backends := idle_backends s;
     global_slots := global_slots s; global_available := global_available s;
     config := config s; next_id := next_id s + 1; clock := clock s |}.

(** [fetch_add] and [fetch_sub] on a [usize]. *)
Definition wrapping (z : Z) : Z := wrap_u 64 z.

(** Dropping a permit of the shared semaphore. *)
Definition give_global (s : Store) : Store :=
  with_global s (global_permits s) ((fun a => a + 1) <$> global_slots s).

(** [global_permits.remove(&id)]. *)
Definition remove_permit (s : Store) (b : Z) : Store :=
  if decide (b ∈ global_permits s)
  then give_global (with_global s (global_permits s ∖ {[b]}) (global_slots s))
  else s.

(** Why [reap_idle] evicts a backend, if it does. *)
Definition expired (cfg : PoolLifecycleConfig) (now : Z) (l : BackendLifecycle) : bool :=
  (negb (idle_timeout cfg =? 0) && (idle_timeout cfg <=? Z.max 0 (now - last_released_at l)))
  || (negb (max_lifetime cfg =? 0) && (max_lifetime cfg <=? Z.max 0 (now - created_at l))).

(** The loop of [reap_idle]: the retained and the evicted backends. *)
Fixpoint reap_loop (cfg : PoolLifecycleConfig) (now : Z) (m : gmap Z BackendLifecycle)
  (retained evicted queue : list Z) : list Z * list Z :=
  match queue with
  | [] => (retained, evicted)
  | b :: queue =>
      if match m !! b with Some l => expired cfg now l | None => false end
      then if min_idle cfg <=? len retained + len queue
           then reap_loop cfg now m retained (evicted ++ [b]) queue
           else reap_loop cfg now m (retained ++ [b]) evicted queue
      else reap_loop cfg now m (retained ++ [b]) evicted queue
  end.

(** ** Tasks *)

(** Which of the three calls of [reserve_backend_slot] a checkout is in. *)
Inductive Stage := StPrefer | StFirst | StLoop.

(** [reap_idle] or [retire_idle_backends]. *)
Inductive Eviction := EvReap | EvRetire.

Inductive Phase :=
(* a checkout that looks for an idle backend *)
| Enter (m : CheckoutMode)
| TryIdle (m : CheckoutMode)
| IdleCount (m : CheckoutMode)
| TryAgain (m : CheckoutMode)
| LoopTry (m : CheckoutMode)
| LoopWaitTry (m : CheckoutMode)
| LoopAsleep (m : CheckoutMode)
(* a checkout that makes a connection *)
| Reserve (st : Stage) (m : CheckoutMode)
| Cas (st : Stage) (m : CheckoutMode) (observed : Z)
| Slot (st : Stage) (m : CheckoutMode)
| SlotBack (st : Stage) (m : CheckoutMode)
| Connecting (st : Stage) (m : CheckoutMode) (global_permit : bool)
| ConnectFailed (st : Stage) (m : CheckoutMode) (global_permit : bool)
| ConnectRelease (st : Stage) (m : CheckoutMode)
| Connected (st : Stage) (b : Z) (global_permit : bool)
| Registered (st : Stage) (b : Z) (global_permit : bool)
(* a lease, with [requires_startup]; its return and its discard *)
| Leased (b : Z) (startup : bool)
| Returning (b : Z)
| ReturnPush (b : Z)
| ReturnCount
| Discarding (b : Z)
| DiscardLifecycle (b : Z)
| DiscardSlot
(* maintenance *)
| Maintain (k : Eviction)
| Evict (k : Eviction) (bs : list Z)
| EvictPermit (k : Eviction) (b : Z) (bs : list Z)
| EvictSlot (k : Eviction) (bs : list Z)
(* ended *)
| Over
| ConnectError
| Abandoned (slot : bool).

(** Where a checkout goes on when it got no slot. *)
Definition no_slot (st : Stage) (m : CheckoutMode) : Phase :=
  match st with
  | StPrefer => TryIdle m
  | StFirst => LoopTry m
  | StLoop => LoopWaitTry m
  end.

(** [try_checkout_idle_backend]: the first idle backend, or a failed lock or
    an empty queue, where the task goes on as [failed]. *)
Definition try_checkout_idle_backend (s : Store) (failed : Phase) : list (Store * Phase) :=
  (s, failed)
  :: match idle s with
     | [] => []
     | b :: l => [(with_idle s l (wrapping (idle_backends s - 1)), Leased b false)]
     end.

(** [checkout_with_mode] after the gates, where it looks for an idle backend. *)
Definition checkout_step (s : Store) (p : Phase) : list (Store * Phase) :=
  match p with
  | Enter m => [(s, if decide (m = PreferConnect) then Reserve StPrefer m else TryIdle m)]
  | TryIdle m => try_checkout_idle_backend s (IdleCount m)
  | IdleCount m =>
      [(s, if 0 <? idle_backends s then TryAgain m
           else if decide (m = AllowConnect) then Reserve StFirst m else LoopTry m)]
  | TryAgain m =>
      try_checkout_idle_backend s
        (if decide (m = AllowConnect) then Reserve StFirst m else LoopTry m)
  | LoopTry m =>
      try_checkout_idle_backend s
        (if decide (m = AllowConnect) then Reserve StLoop m else LoopWaitTry m)
  | LoopWaitTry m => try_checkout_idle_backend s (LoopAsleep m)
  | LoopAsleep m =>
      (s, LoopWaitTry m) :: (if global_available s then [(s, LoopTry m)] else [])
  | _ => []
  end.

(** [reserve_backend_slot]; the weak compare-and-exchange may fail on an
    unchanged counter. *)
Definition reserve_step (s : Store) (p : Phase) : list (Store * Phase) :=
  match p with
  | Reserve st m => [(s, Cas st m (active_backends s))]
  | Cas st m n =>
      if max_backends s <=? n then [(s, no_slot st m)]
      else (s, Cas st m (active_backends s))
           :: (if active_backends s =? n then [(add_active s 1, Slot st m)] else [])
  | Slot st m =>
      match global_slots s with
      | None => [(s, Connecting st m false)]
      | Some free =>
          if 0 <? free
          then [(with_global s (global_permits s) (Some (free - 1)), Connecting st m true)]
          else [(s, SlotBack st m)]
      end
  | SlotBack st m => [(add_active s (-1), no_slot st m)]
  | _ => []
  end.

(** What [checkout_with_mode] says of a connection it has just made: the
    last of its three calls builds the lease it builds for an idle one. *)
Definition startup_of (st : Stage) : bool := match st with StPrefer | StFirst => true | StLoop => false end.

(** [connect_reserved_backend], with [register_backend] on success and
    [release_reserved_backend_slot] on failure. *)
Definition connect_step (s : Store) (p : Phase) : list (Store * Phase) :=
  match p with
  | Connecting st m gp =>
      [(fresh_id s, Connected st (next_id s) gp); (s, ConnectFailed st m gp)]
  | ConnectFailed st m gp =>
      [(if gp then give_global s else s, ConnectRelease st m)]
  | ConnectRelease st m =>
      [(add_active s (-1), match st with StPrefer => TryIdle m | _ => ConnectError end)]
  | Connected st b gp =>
      [(with_lifecycle s (<[b := {| created_at := clock s; last_released_at := clock s |}]>
                            (lifecycle s)), Registered st b gp)]
  | Registered st b gp =>
      [(if gp then with_global s ({[b]} ∪ global_permits s) (global_slots s) else s,
        Leased b (startup_of st))]
  | _ => []
  end.

(** The end of a lease: [return_backend] or [discard_backend]. *)
Definition lease_step (s : Store) (p : Phase) : list (Store * Phase) :=
  match p with
  | Leased b _ => [(s, Returning b); (s, Discarding b)]
  | Returning b =>
      [(with_lifecycle s
          (alter (fun l => {| created_at := created_at l; last_released_at := clock s |}) b
             (lifecycle s)), ReturnPush b)]
  | ReturnPush b => [(with_idle s (idle s ++ [b]) (idle_backends s), ReturnCount)]
  | ReturnCount => [(with_idle s (idle s) (wrapping (idle_backends s + 1)), Over)]
  | Discarding b => [(remove_permit s b, DiscardLifecycle b)]
  | DiscardLifecycle b => [(with_lifecycle s (delete b (lifecycle s)), DiscardSlot)]
  | DiscardSlot => [(add_active s (-1), Over)]
  | _ => []
  end.

(** [reap_idle] and [retire_idle_backends]: the queue is emptied of what goes
    in one critical section, the rest is done backend by backend. *)
Definition evict_step (s : Store) (p : Phase) : list (Store * Phase) :=
  match p with
  | Maintain EvReap =>
      let '(retained, evicted) := reap_loop (config s) (clock s) (lifecycle s) [] [] (idle s) in
      [(with_idle s retained (idle_backends s), Evict EvReap evicted)]
  | Maintain EvRetire => [(with_idle s [] (idle_backends s), Evict EvRetire (idle s))]
  | Evict k (b :: bs) => [(with_lifecycle s (delete b (lifecycle s)), EvictPermit k b bs)]
  | EvictPermit k b bs => [(remove_permit s b, EvictSlot k bs)]
  | EvictSlot k bs => [(add_active s (-1), Evict k bs)]
  | Evict EvReap [] => [(with_idle s (idle s) (len (idle s)), Over)]
  | Evict EvRetire [] => [(with_idle s (idle s) 0, Over)]
  | _ => []
  end.

(** One atomic action of a task. *)
Definition pool_step (s : Store) (p : Phase) : list (Store * Phase) :=
  match p with
  | Enter _ | TryIdle _ | IdleCount _ | TryAgain _ | LoopTry _ | LoopWaitTry _ | LoopAsleep _ =>
      checkout_step s p
  | Reserve _ _ | Cas _ _ _ | Slot _ _ | SlotBack _ _ => reserve_step s p
  | Connecting _ _ _ | ConnectFailed _ _ _ | ConnectRelease _ _ | Connected _ _ _
  | Registered _ _ _ => connect_step s p
  | Leased _ _ | Returning _ | ReturnPush _ | ReturnCount | Discarding _ | DiscardLifecycle _
  | DiscardSlot => lease_step s p
  | Maintain _ | Evict _ _ | EvictPermit _ _ _ | EvictSlot _ _ => evict_step s p
  | Over | ConnectError | Abandoned _ => []
  end.

(** [R::timeout] drops the future of a checkout where it awaits: while it
    connects, which gives its shared permit back, or while it waits for an
    idle backend. *)
Definition pool_drop (s : Store) (p : Phase) : option (Store * Phase) :=
  match p with
  | Connecting _ _ gp => Some (if gp then give_global s else s, Abandoned true)
  | LoopAsleep _ => Some (s, Abandoned false)
  | _ => None
  end.

(** Time passes, and other pools take and give back shared slots. *)
Inductive Outer := Tick (now : Z) | SharedSlots (free : Z).

#[global] Instance pool_tasks : TaskSystem Store Phase Outer := {
  task_step := pool_step;
  task_drop := pool_drop;
  task_start p := match p with Enter _ | Maintain _ => true | _ => false end;
  env_step e s :=
    match e with
    | Tick now => with_clock s now
    | SharedSlots free => with_global s (global_permits s) ((fun _ => Z.max 0 free) <$> global_slots s)
    end;
}.

(** ** Facts *)

Section PoolFacts.
(** How often [b] occurs in a list of backends. *)
Definition occurs (b : Z) (l : list Z) : Z := total (fun c => if c =? b then 1 else 0) l.

Lemma occurs_nonneg b l : 0 <= occurs b l.
Proof. apply total_nonneg. intros c. destruct (c =? b); lia. Qed.

Lemma occurs_elem b l : b ∈ l -> 1 <= occurs b l.
Proof.
  intros [i Hi]%list_elem_of_lookup_1.
  pose proof (total_lookup (fun c => if c =? b then 1 else 0) l i b) as H.
  cbn in H. rewrite Z.eqb_refl in H. apply H; [|done]. intros c. destruct (c =? b); lia.
Qed.

(** The backends a phase owns, and the slots of [active_backends] it answers
    for. An abandoned connection attempt keeps the slot it never gives back. *)
Definition ids (p : Phase) : list Z :=
  match p with
  | Connected _ b _ | Registered _ b _ | Leased b _ | Returning b | ReturnPush b
  | Discarding b | DiscardLifecycle b => [b]
  | Evict _ bs | EvictSlot _ bs => bs
  | EvictPermit _ b bs => b :: bs
  | _ => []
  end.
Definition slots (p : Phase) : Z :=
  match p with
  | Slot _ _ | SlotBack _ _ | Connecting _ _ _ | ConnectFailed _ _ _ | ConnectRelease _ _
  | Connected _ _ _ | Registered _ _ _ | Leased _ _ | Returning _ | ReturnPush _
  | Discarding _ | DiscardLifecycle _ | DiscardSlot | Abandoned true => 1
  | Evict _ bs => len bs
  | EvictPermit _ _ bs | EvictSlot _ bs => 1 + len bs
  | _ => 0
  end.
Definition owned (b : Z) (p : Phase) : Z := occurs b (ids p).

Lemma slots_nonneg p : 0 <= slots p.
Proof.
  destruct p; cbn; try lia; try (destruct slot; lia); pose proof (len_nonneg bs); lia.
Qed.

Lemma owned_nonneg b p : 0 <= owned b p.
Proof. apply occurs_nonneg. Qed.

Record pool_ok (m : Z) (s : Store) (ts : list Phase) : Prop := {
  pok_max : max_backends s = m;
  pok_active : active_backends s = len (idle s) + total slots ts;
  pok_bound : active_backends s <= m;
  pok_owner : forall b, occurs b (idle s) + total (owned b) ts <= 1;
  pok_fresh : forall b, next_id s <= b -> occurs b (idle s) + total (owned b) ts = 0;
}.

Lemma len_total (l : list Z) : len l = total (fun _ => 1) l.
Proof. induction l as [|b l IH]; [done|]. rewrite len_cons, IH. done. Qed.

(** Reaping splits the queue. *)
Lemma reap_loop_total (w : Z -> Z) cfg now m queue : forall retained evicted,
  total w (fst (reap_loop cfg now m retained evicted queue))
  + total w (snd (reap_loop cfg now m retained evicted queue))
  = total w retained + total w evicted + total w queue.
Proof.
  induction queue as [|b queue IH]; intros retained evicted; cbn; [lia|].
  destruct (match m !! b with Some l => expired cfg now l | None => false end);
    [destruct (min_idle cfg <=? _)|]; rewrite IH, ?total_snoc; lia.
Qed.

(** What one action does to the books: slots move between the counter, the
    queue and the task; backends move between the queue and the task, or
    leave, or are new. *)
Record balanced (s : Store) (p : Phase) (s' : Store) (p' : Phase) : Prop := {
  bal_config : config s' = config s;
  bal_slots : active_backends s' - len (idle s') - slots p'
              = active_backends s - len (idle s) - slots p;
  bal_bound : active_backends s' <= active_backends s \/ active_backends s' <= max_backends s;
  bal_owned : forall b, occurs b (idle s') + owned b p' <= occurs b (idle s) + owned b p \/
              (b = next_id s /\ occurs b (idle s') + owned b p'
                              = occurs b (idle s) + owned b p + 1 /\ next_id s' = b + 1);
  bal_next : next_id s <= next_id s';
}.

(** Actions that leave queue and counter alone, and may let a backend go. *)
Lemma balanced_let_go s p s' p' :
  config s' = config s -> idle s' = idle s -> active_backends s' = active_backends s ->
  next_id s' = next_id s -> slots p' = slots p ->
  (forall b, occurs b (ids p') <= occurs b (ids p)) -> balanced s p s' p'.
Proof.
  intros Hc Hi Ha Hn Hs Hd. constructor; [done|rewrite Hi, Ha, Hs; done|lia| |lia].
  intros b. left. unfold owned. specialize (Hd b). rewrite Hi. lia.
Qed.

Lemma balanced_quiet s p s' p' :
  config s' = config s -> idle s' = idle s -> active_backends s' = active_backends s ->
  next_id s' = next_id s -> slots p' = slots p -> ids p' = ids p -> balanced s p s' p'.
Proof. intros ? ? ? ? ? Hd. apply balanced_let_go; try done. intros b. by rewrite Hd. Qed.

Lemma remove_permit_fields s b :
  config (remove_permit s b) = config s /\ idle (remove_permit s b) = idle s /\
  active_backends (remove_permit s b) = active_backends s /\
  next_id (remove_permit s b) = next_id s.
Proof. unfold remove_permit. case_decide; done. Qed.

Lemma try_idle_balanced s p q s' p' :
  (s', p') ∈ try_checkout_idle_backend s q ->
  slots p = 0 -> slots q = 0 -> ids p = [] -> ids q = [] -> balanced s p s' p'.
Proof.
  unfold try_checkout_idle_backend. intros Hs Hp Hq Hip Hiq.
  apply elem_of_cons in Hs as [Hs|Hs].
  - injection Hs as -> ->. apply balanced_quiet; congruence.
  - destruct (idle s) as [|b l] eqn:Hi; outcomes.
    constructor; cbn; [done|rewrite Hi, len_cons, Hp; lia|lia| |lia].
    intros c. left. unfold occurs, owned. rewrite Hi, Hip. cbn. lia.
Qed.

Lemma no_slot_free st m : slots (no_slot st m) = 0 /\ ids (no_slot st m) = [].
Proof. by destruct st. Qed.

(** A slot taken or given back. *)
Lemma balanced_active s p p' d :
  slots p' = slots p + d -> ids p' = ids p ->
  d <= 0 \/ active_backends s + d <= max_backends s ->
  balanced s p (add_active s d) p'.
Proof.
  intros Hs Hd Hb. unfold max_backends in *.
  constructor; unfold max_backends; cbn; [done|lia|lia| |lia].
  intros b. left. unfold owned. rewrite Hd. apply Z.le_refl.
Qed.

(** Backends moved between the queue and the task. *)
Lemma balanced_idle s p l n p' :
  len l + slots p' = len (idle s) + slots p ->
  (forall b, occurs b l + owned b p' = occurs b (idle s) + owned b p) ->
  balanced s p (with_idle s l n) p'.
Proof.
  intros Hl Ho. constructor; cbn; [done|lia|lia| |lia]. intros b. left.
  specialize (Ho b). unfold owned, occurs in *. lia.
Qed.

Lemma pool_step_balanced s p s' p' : (s', p') ∈ pool_step s p -> balanced s p s' p'.
Proof.
  intros Hs. destruct p; cbn in Hs; try (by apply elem_of_nil in Hs);
    try (eapply try_idle_balanced; [exact Hs|done| |done|]; by repeat case_decide);
    try (apply list_elem_of_singleton in Hs; injection Hs as -> ->);
    try (apply balanced_quiet; repeat case_decide; try destruct (0 <? _); done).
  - apply elem_of_cons in Hs as [Hs|Hs]; [|destruct (global_available s)]; outcomes;
      by apply balanced_quiet.
  - destruct (no_slot_free st m) as [Hn Hd].
    destruct (max_backends s <=? observed) eqn:Hmax; bool_to_prop; outcomes;
      try (by apply balanced_quiet).
    bool_to_prop. apply balanced_active; [done|done|lia].
  - destruct (global_slots s) as [free|]; [destruct (0 <? free)|]; outcomes; by apply balanced_quiet.
  - destruct (no_slot_free st m) as [Hn Hd]. apply balanced_active; cbn; [lia|done|lia].
  - outcomes; [|by apply balanced_quiet].
    constructor; cbn; [done|lia|lia| |lia]. intros b.
    destruct (decide (b = next_id s)) as [->|Hne]; [right|left; unfold owned, occurs; cbn].
    + unfold owned, occurs. cbn. rewrite Z.eqb_refl. lia.
    + rewrite (proj2 (Z.eqb_neq (next_id s) b)) by done. lia.
  - destruct global_permit; by apply balanced_quiet.
  - apply balanced_active; destruct st; cbn; lia || done.
  - destruct global_permit; by apply balanced_quiet.
  - outcomes; by apply balanced_quiet.
  - apply balanced_idle; [rewrite len_app, len_cons, len_nil; cbn [slots]; lia|].
    intros c. unfold occurs, owned. rewrite total_snoc. cbn. lia.
  - destruct (remove_permit_fields s b) as (? & ? & ? & ?). by apply balanced_quiet.
  - apply balanced_let_go; try done. intros c. apply occurs_nonneg.
  - by apply balanced_active; cbn; [lia|done|lia].
  - destruct k; outcomes.
    + pose proof (fun w => reap_loop_total w (config s) (clock s) (lifecycle s) (idle s) [] []) as Ht.
      rewrite Heqp in Ht. cbn in Ht. apply balanced_idle.
      * cbn [slots]. rewrite !len_total. specialize (Ht (fun _ => 1)). lia.
      * intros b. unfold owned, occurs. cbn [ids total].
        specialize (Ht (fun c => if c =? b then 1 else 0)). lia.
    + apply balanced_idle; [rewrite len_nil; cbn [slots]; lia|].
      intros b. unfold owned, occurs. cbn. lia.
  - destruct bs as [|b bs].
    + destruct k; outcomes; by apply balanced_idle.
    + outcomes; apply balanced_quiet; try done; cbn [slots]; by rewrite len_cons.
  - destruct (remove_permit_fields s b) as (? & ? & ? & ?). apply balanced_let_go; try done.
    intros c. unfold occurs. cbn. destruct (b =? c); lia.
  - apply balanced_active; cbn; [lia|done|lia].
Qed.

Lemma pool_drop_balanced s p s' p' : pool_drop s p = Some (s', p') -> balanced s p s' p'.
Proof.
  destruct p; cbn; intros Hs; simplify_eq; try done;
    try (destruct global_permit); by apply balanced_quiet.
Qed.

(** Balanced actions keep the books. *)
Lemma pool_ok_balanced m s ts i p s' p' :
  pool_ok m s ts -> ts !! i = Some p -> balanced s p s' p' -> pool_ok m s' (<[i := p']> ts).
Proof.
  intros [Hmax Hact Hbnd Hown Hfr] Hi [Hc Hs Hb Ho Hn]. unfold max_backends in *.
  constructor; unfold max_backends.
  - by rewrite Hc.
  - rewrite (total_insert _ _ _ _ _ Hi). lia.
  - lia.
  - intros b. rewrite (total_insert _ _ _ _ _ Hi). specialize (Hown b).
    destruct (Ho b) as [Hle|(-> & He & _)]; [lia|]. specialize (Hfr (next_id s) ltac:(lia)). lia.
  - intros b Hge. rewrite (total_insert _ _ _ _ _ Hi). specialize (Hfr b ltac:(lia)).
    pose proof (occurs_nonneg b (idle s')). pose proof (owned_nonneg b p').
    pose proof (total_nonneg (owned b) (<[i := p']> ts) (owned_nonneg b)) as Hnn.
    rewrite (total_insert _ _ _ _ _ Hi) in Hnn.
    destruct (Ho b) as [Hle|(-> & He & Hn')]; lia.
Qed.

Lemma runs_pool_ok cfg free notify s :
  0 <= max_size cfg -> Runs (fun _ => True) (store_new cfg free notify) s ->
  pool_ok (max_size cfg) (shared s) (tasks s).
Proof.
  intros Hm. apply runs_invariant.
  - constructor; cbn; [done|done|done| |]; intros; unfold occurs; cbn; lia.
  - intros. eapply pool_ok_balanced; eauto using pool_step_balanced.
  - intros. eapply pool_ok_balanced; eauto using pool_drop_balanced.
  - intros st ts p [Hmax Hact Hbnd Hown Hfr] Hp.
    assert (slots p = 0 /\ ids p = []) as [Hs Hd] by (by destruct p).
    constructor; try done.
    + rewrite total_snoc. lia.
    + intros b. rewrite total_snoc. unfold owned at 2. rewrite Hd. specialize (Hown b). cbn. lia.
    + intros b Hb. rewrite total_snoc. unfold owned at 2. rewrite Hd. specialize (Hfr b Hb). cbn. lia.
  - intros st ts e _ [Hmax Hact Hbnd Hown Hfr]. by destruct e.
Qed.

Lemma occurs_NoDup l : (forall b, occurs b l <= 1) -> NoDup l.
Proof.
  induction l as [|b l IH]; intros Hl; constructor.
  - intros Hin%occurs_elem. specialize (Hl b). unfold occurs in *. cbn in Hl.
    rewrite Z.eqb_refl in Hl. lia.
  - apply IH. intros c. specialize (Hl c). unfold occurs in *. cbn in Hl.
    destruct (b =? c); lia.
Qed.

Definition ended (p : Phase) : bool :=
  match p with Over | ConnectError | Abandoned false => true | _ => false end.

(** A slot nobody answers for. *)
Definition abandoned (p : Phase) : Z := match p with Abandoned true => 1 | _ => 0 end.

Lemma abandoned_le_slots p : abandoned p <= slots p.
Proof. pose proof (slots_nonneg p). by destruct p. Qed.

Lemma abandoned_nonneg p : 0 <= abandoned p.
Proof. destruct p; try done. by destruct slot. Qed.

Lemma abandoned_grows ev (s t : System Store Phase) :
  sys_step ev s t -> total abandoned (tasks s) <= total abandoned (tasks t).
Proof.
  intros Hs. destruct Hs as [g ts i p g' p' Hi Hs|g ts i p g' p' Hi Hs|g ts p Hs|]; cbn [tasks].
  - assert (abandoned p = 0) by (destruct p; try done; cbn in Hs; by apply elem_of_nil in Hs).
    rewrite (total_insert _ _ _ _ _ Hi). pose proof (abandoned_nonneg p'). lia.
  - assert (abandoned p = 0) by (by destruct p).
    rewrite (total_insert _ _ _ _ _ Hi). pose proof (abandoned_nonneg p'). lia.
  - rewrite total_snoc. pose proof (abandoned_nonneg p). lia.
  - lia.
Qed.

(** Reaping, step by step: [r] and [e] are the answer for a queue [queue]
    met with [retained] kept so far. *)
Lemma reap_loop_spec cfg now m queue : forall retained evicted,
  let r := fst (reap_loop cfg now m retained evicted queue) in
  let e := snd (reap_loop cfg now m retained evicted queue) in
  (r ++ e) ≡ₚ (retained ++ evicted ++ queue) /\
  len r <= len retained + len queue /\
  Z.min (min_idle cfg) (len retained + len queue) <= len r /\
  (forall b, b ∈ e -> b ∈ evicted \/
     exists l, m !! b = Some l /\ expired cfg now l = true) /\
  (forall b l, b ∈ r -> m !! b = Some l -> expired cfg now l = true ->
     b ∈ retained \/ len r <= min_idle cfg).
Proof.
  induction queue as [|b queue IH]; intros retained evicted; cbn [reap_loop fst snd].
  - rewrite len_nil, app_nil_r. split_and!; try done; try lia; eauto.
  - rewrite len_cons. pose proof (len_nonneg queue).
    destruct (match m !! b with Some l => expired cfg now l | None => false end) eqn:Hx;
      [destruct (min_idle cfg <=? len retained + len queue) eqn:Hmin; bool_to_prop|].
    + destruct (IH retained (evicted ++ [b])) as (Hp & Hle & Hge & He & Hr).
      split_and!; [by rewrite Hp, <- app_assoc|lia|lia| |done].
      intros c Hc. destruct (He c Hc) as [Hin|?]; [|by right].
      apply elem_of_app in Hin as [?|Hin]; [by left|].
      apply list_elem_of_singleton in Hin as ->. right. destruct (m !! b) eqn:Hm; [|done]. eauto.
    + destruct (IH (retained ++ [b]) evicted) as (Hp & Hle & Hge & He & Hr).
      rewrite len_app, len_cons, len_nil in *.
      split_and!; [|lia|lia|done|].
      * rewrite Hp, <- !app_assoc. f_equiv. cbn. by rewrite (Permutation_middle evicted queue b).
      * intros c l Hc Hm Hl. right. lia.
    + destruct (IH (retained ++ [b]) evicted) as (Hp & Hle & Hge & He & Hr).
      rewrite len_app, len_cons, len_nil in *.
      split_and!; [|lia|lia|done|].
      * rewrite Hp, <- !app_assoc. f_equiv. cbn. by rewrite (Permutation_middle evicted queue b).
      * intros c l Hc Hm Hl. destruct (Hr c l Hc Hm Hl) as [Hin|?]; [|by right].
        apply elem_of_app in Hin as [?|Hin]; [by left|].
        apply list_elem_of_singleton in Hin as ->. rewrite Hm in Hx. congruence.
Qed.
End PoolFacts.

(** ** The theorems of the pool *)

(** C3. The pool never passes its size and never shares a backend: in every
    interleaving of checkouts, returns, discards, reaps, retirements and
    dropped checkouts, [active_backends] counts the idle backends and the
    slots of the tasks under way, stays between zero and [max_size], no
    backend is leased twice or leased while idle, the idle queue has no
    duplicates, and once every task has ended without abandoning a
    connection attempt the counter is the number of idle backends. *)
Theorem pool_bounds (cfg : PoolLifecycleConfig) (free : option Z) (notify : bool)
  (s : System Store Phase) :
  0 <= max_size cfg -> Runs (fun _ => True) (store_new cfg free notify) s ->
  let st := shared s in
  let ts := tasks s in
  active_backends st = len (idle st) + total slots ts /\
  0 <= active_backends st <= max_size cfg /\ NoDup (idle st) /\
  (forall i b u, ts !! i = Some (Leased b u) -> (b ∉ idle st) /\ b < next_id st) /\
  (forall i j b u v, ts !! i = Some (Leased b u) -> ts !! j = Some (Leased b v) -> i = j) /\
  (Forall (fun p => ended p = true) ts -> active_backends st = len (idle st)).
Proof.
  intros Hm Hr st ts. destruct (runs_pool_ok _ _ _ _ Hm Hr) as [Hmax Hact Hbnd Hown Hfr].
  fold st in Hmax, Hact, Hbnd, Hown, Hfr. fold ts in Hact, Hown, Hfr.
  assert (Hself : forall b u, owned b (Leased b u) = 1).
  { intros b u. unfold owned, occurs. cbn. rewrite Z.eqb_refl. done. }
  pose proof (fun b => total_nonneg (owned b) ts (owned_nonneg b)) as Hnn.
  split_and!; [done| |done| | | |].
  - pose proof (total_nonneg slots ts slots_nonneg). pose proof (len_nonneg (idle st)). lia.
  - apply occurs_NoDup. intros b. specialize (Hown b). specialize (Hnn b). lia.
  - intros i b u Hi. pose proof (total_lookup (owned b) ts i _ (owned_nonneg b) Hi) as Hl.
    rewrite Hself in Hl. specialize (Hown b). pose proof (occurs_nonneg b (idle st)). split.
    + intros Hin%occurs_elem. lia.
    + destruct (Z.lt_ge_cases b (next_id st)) as [|Hge]; [done|]. specialize (Hfr b Hge). lia.
  - intros i j b u v Hi Hj. destruct (decide (i = j)) as [|Hne]; [done|].
    pose proof (total_lookup2 (owned b) ts i j _ _ (owned_nonneg b) Hne Hi Hj) as Hl.
    rewrite !Hself in Hl. specialize (Hown b). pose proof (occurs_nonneg b (idle st)). lia.
  - intros Hend. rewrite (total_zero slots ts) in Hact; [lia|].
    eapply Forall_impl; [exact Hend|]. intros [] Hp; try done. by destruct slot.
Qed.

(** Reaping evicts exactly what it may: the queue is split into the
    backends kept and the backends evicted; every evicted one has been idle
    or alive too long; at least [min_idle] are kept when there were that
    many; and an expired backend is kept only when no more than [min_idle]
    are kept in all. *)
Theorem reap_respects_min_idle (cfg : PoolLifecycleConfig) (now : Z)
  (m : gmap Z BackendLifecycle) (queue : list Z) :
  let '(retained, evicted) := reap_loop cfg now m [] [] queue in
  (retained ++ evicted) ≡ₚ queue /\
  (forall b, b ∈ evicted -> exists l, m !! b = Some l /\ expired cfg now l = true) /\
  Z.min (min_idle cfg) (len queue) <= len retained /\
  (forall b l, b ∈ retained -> m !! b = Some l -> expired cfg now l = true ->
     len retained <= min_idle cfg).
Proof.
  pose proof (reap_loop_spec cfg now m queue [] []) as H.
  destruct (reap_loop cfg now m [] [] queue) as [r e]. destruct H as (Hp & _ & Hge & He & Hr).
  cbn [fst snd] in *. rewrite len_nil, Z.add_0_l in Hge. split_and!; [done| |done|].
  - intros b Hb. destruct (He b Hb) as [?%elem_of_nil|?]; done.
  - intros b l Hb Hm Hl. destruct (Hr b l Hb Hm Hl) as [?%elem_of_nil|?]; done.
Qed.

Section PoolExamples.
Definition small_config (n : Z) : PoolLifecycleConfig :=
  {| max_size := n; min_idle := 0; idle_timeout := 0; max_lifetime := 0 |}.

(** Task [i] checks a connection out by making it. *)
Definition connect_steps (i : nat) : list (choice Phase Outer) :=
  [Start (Enter AllowConnect); Go i 0; Go i 0; Go i 0; Go i 0; Go i 1; Go i 0].
Definition lease_steps (i : nat) : list (choice Phase Outer) :=
  connect_steps i ++ [Go i 0; Go i 0; Go i 0].

(** One backend leased, one idle. *)
Definition leased_and_idle : option (System Store Phase) :=
  perform_all (Sys (store_new (small_config 2) None false) [])
    (lease_steps 0 ++ lease_steps 1 ++ [Go 1 0; Go 1 0; Go 1 0; Go 1 0]).

(** [k] checkouts have been timed out while they connected. *)
Definition timed_out (cfg : PoolLifecycleConfig) (k : nat) : System Store Phase :=
  Sys (add_active (store_new cfg None false) (Z.of_nat k)) (replicate k (Abandoned true)).

Lemma cas_succeeds s st m :
  active_backends s < max_backends s ->
  task_step s (Cas st m (active_backends s)) !! 1%nat = Some (add_active s 1, Slot st m).
Proof.
  intros Hlt. cbn [task_step pool_tasks pool_step reserve_step].
  rewrite (proj2 (Z.leb_gt _ _) Hlt), Z.eqb_refl. done.
Qed.

Lemma timed_out_step cfg k :
  Z.of_nat k < max_size cfg ->
  perform_all (timed_out cfg k) (connect_steps k ++ [DropTask k]) = Some (timed_out cfg (S k)).
Proof.
  intros Hk. unfold timed_out. rewrite replicate_S_end.
  set (ts := replicate k (Abandoned true)).
  assert (Hlen : k = length ts) by (by unfold ts; rewrite length_replicate).
  replace (connect_steps k ++ [DropTask k])
    with (connect_steps (length ts) ++ [DropTask (length ts)]) by (by rewrite <- Hlen).
  unfold connect_steps.
  change (perform_all ?s ((Start ?p :: ?cs) ++ ?ds)) with
    (perform_all (Sys (shared s) (tasks s ++ [p])) (cs ++ ds)).
  cbn [app shared tasks].
  do 4 (erewrite perform_go_last by reflexivity).
  rewrite (perform_go_last _ _ _ _ _ _ _ (cas_succeeds (add_active (store_new cfg None false) (Z.of_nat k)) StFirst AllowConnect Hk)).
  erewrite perform_go_last by reflexivity.
  erewrite perform_drop_last by reflexivity.
  cbn. do 2 f_equal. unfold add_active. cbn. f_equal. lia.
Qed.

(** A retirement that started on an empty queue stores its zero after a
    backend has been returned; the next checkout takes the counter below
    zero, that is, around to [usize::MAX]. *)
Example idle_count_wraps :
  (fun s => (idle (shared s), idle_backends (shared s)))
  <$> perform_all (Sys (store_new (small_config 2) None false) [])
        (lease_steps 0 ++ [Start (Maintain EvRetire); Go 1 0]
         ++ replicate 4 (Go 0 0)
         ++ [Go 1 0; Start (Enter ReuseOnly); Go 2 0; Go 2 1])
  = Some ([], USIZE_MAX).
Proof. vm_compute. done. Qed.

(** A checkout that finds the pool full and connects a moment later, when
    another lease was discarded, gets its new connection as one that needs
    no startup: nobody will log in on it. *)
Example late_connect_skips_startup :
  (fun s => tasks s)
  <$> perform_all (Sys (store_new (small_config 1) None false) [])
        (lease_steps 0 ++ [Start (Enter AllowConnect)] ++ replicate 6 (Go 1 0)
         ++ [Go 0 1; Go 0 0; Go 0 0; Go 0 0]
         ++ [Go 1 0; Go 1 1; Go 1 0; Go 1 0; Go 1 0; Go 1 0])
  = Some [Over; Leased 2 false].
Proof. vm_compute. done. Qed.

(** A checkout that prefers a new connection gets an idle one when the pool
    is full, one that needs no startup. *)
Example full_pool_reuses_for_prefer_connect :
  (fun s => tasks s)
  <$> perform_all (Sys (store_new (small_config 1) None false) [])
        (lease_steps 0 ++ replicate 4 (Go 0 0)
         ++ [Start (Enter PreferConnect); Go 1 0; Go 1 0; Go 1 0; Go 1 1])
  = Some [Over; Leased 1 false].
Proof. vm_compute. done. Qed.
End PoolExamples.

Lemma pool_bounds_witness :
  match leased_and_idle with
  | Some s => tasks s = [Leased 1 true; Over] /\ idle (shared s) = [2] /\
      active_backends (shared s) = 2 /\ 1 ∉ idle (shared s)
  | None => False
  end.
Proof.
  destruct leased_and_idle as [s|] eqn:Hs; [|by vm_compute in Hs].
  destruct (pool_bounds (small_config 2) None false s) as (_ & _ & _ & Hleased & _).
  - cbn. lia.
  - eapply (schedule (fun _ => True)); [|exact Hs]. by apply Forall_true.
  - vm_compute in Hs. injection Hs as <-. split_and!; try reflexivity. by apply (Hleased 0%nat 1 true).
Defined.

(** Checkouts that time out while they connect use the pool up: the slot
    such a checkout reserved is never given back. For every pool size a state
    is reachable where no task and no backend is left and the counter is at
    [max_size]; the slots lost never come back; and once [max_size] of them
    are lost, in every state from then on no backend is idle and none is
    leased. *)
Theorem abandoned_connects_exhaust_pool (n : nat) (free : option Z) (notify : bool) :
  let cfg := small_config (Z.of_nat n) in
  (exists s, Runs (fun ev => forall e, ev <> Environment e) (store_new cfg None false) s /\
     tasks s = replicate n (Abandoned true) /\ idle (shared s) = [] /\
     active_backends (shared s) = max_size cfg) /\
  (forall ev (s t : System Store Phase),
     sys_step ev s t -> total abandoned (tasks s) <= total abandoned (tasks t)) /\
  (forall s, Runs (fun _ => True) (store_new cfg free notify) s ->
     max_size cfg <= total abandoned (tasks s) ->
     idle (shared s) = [] /\ forall i b u, tasks s !! i <> Some (Leased b u)).
Proof.
  intros cfg. split_and!.
  - exists (timed_out cfg n). split_and!; [|done|done|done].
    assert (Hk : forall k, (k <= n)%nat ->
      Runs (fun ev => forall e, ev <> Environment e) (store_new cfg None false) (timed_out cfg k)).
    { induction k as [|k IH]; intros Hk; [by constructor|].
      eapply runs_perform_all; [apply IH; lia| |apply timed_out_step; cbn; lia].
      by repeat constructor. }
    by apply Hk.
  - apply abandoned_grows.
  - intros s Hr Hab. destruct (runs_pool_ok cfg _ _ _ ltac:(cbn; lia) Hr) as [_ Hact Hbnd _ _].
    pose proof (total_le abandoned slots (tasks s) abandoned_le_slots).
    pose proof (len_nonneg (idle (shared s))). split.
    + destruct (idle (shared s)) as [|b l]; [done|]. rewrite len_cons in *.
      pose proof (len_nonneg l). lia.
    + intros i b u Hi.
      by pose proof (total_tight slots abandoned (tasks s) i _ abandoned_le_slots ltac:(lia) Hi).
Qed.
