(* ===== verification/Pools.v ===== *)
(** * Pools: choosing the pool a statement is served from

    Models the part of [pg-kinetic-proxy/src/pool.rs] above a single pool:
    references to pools with their health, the replica selector, the pools of
    a route, the registries of routes and shards, and what a lease reports
    back. Health flags, breakers, waiting hints and cursors are shared
    through [Arc]s: they live in a [World] and a reference holds handles into
    it. Getting a backend out of one pool (its gates and its store, modelled
    in Backpressure.v and Pool.v, while other tasks run) is the parameter
    [acquire]. Metrics and the snapshots for the admin console are left out. *)

From stdpp Require Import functions.
From S2P Require Import Prelude Text Order RoutingTypes Route Resilience ReadRouting Backpressure Pool.

(** ** Shared state *)

Record World := {
  health : Z -> bool;
  breakers : Z -> BreakerData;
  hints : Z -> Z;
  cursors : Z -> Z;
}.

Definition set_health (w : World) (p : Z) (b : bool) : World :=
  {| health := <[p := b]> (health w); breakers := breakers w; hints := hints w; cursors := cursors w |}.
Definition set_breaker (w : World) (p : Z) (b : BreakerData) : World :=
  {| health := health w; breakers := <[p := b]> (breakers w); hints := hints w; cursors := cursors w |}.
Definition set_hint (w : World) (h v : Z) : World :=
  {| health := health w; breakers := breakers w; hints := <[h := v]> (hints w); cursors := cursors w |}.
Definition set_cursor (w : World) (h v : Z) : World :=
  {| health := health w; breakers := breakers w; hints := hints w; cursors := <[h := v]> (cursors w) |}.

(** ** References *)

(** [BackendPoolRef]: [ref_hint] and [ref_pool] are handles. *)
Record BackendPoolRef := {
  ref_id : Z;
  ref_role : BackendRole;
  ref_weight : Z;
  ref_hint : Z;
  ref_pool : Z;
}.
#[global] Instance BackendPoolRef_eq_dec : EqDecision BackendPoolRef.
Proof. solve_decision. Defined.

Definition ref_new (id : Z) (role : BackendRole) (weight hint pool : Z) : BackendPoolRef :=
  {| ref_id := id; ref_role := role; ref_weight := Z.max weight 1; ref_hint := hint; ref_pool := pool |}.
Definition primary_ref (hint pool : Z) : BackendPoolRef := ref_new 0 Primary 1 hint pool.
Definition replica_ref (id weight hint pool : Z) : BackendPoolRef := ref_new id Replica weight hint pool.

(** [is_healthy]: looking at the breaker can move it to half-open. *)
Definition is_healthy (w : World) (now : Z) (r : BackendPoolRef) : World * bool :=
  let '(b, st) := observe_state (breakers w (ref_pool r)) now in
  (set_breaker w (ref_pool r) b, health w (ref_pool r) || bool_decide (st = BHalfOpen)).

Definition set_healthy (w : World) (r : BackendPoolRef) (b : bool) : World := set_health w (ref_pool r) b.
Definition waiting_hint (w : World) (r : BackendPoolRef) : Z := hints w (ref_hint r).
Definition set_waiting_hint (w : World) (r : BackendPoolRef) (v : Z) : World := set_hint w (ref_hint r) v.

(** ** Choosing a replica *)

Inductive ReplicaSelectionStrategy := LeastWaiting | WeightedRoundRobin.

Record ReplicaSelector := { strategy : ReplicaSelectionStrategy; cursor : Z }.

(** [filter(|replica| replica.is_healthy())]. *)
Fixpoint healthy_replicas (w : World) (now : Z) (rs : list BackendPoolRef) : World * list BackendPoolRef :=
  match rs with
  | [] => (w, [])
  | r :: rs =>
      let '(w, ok) := is_healthy w now r in
      let '(w, rest) := healthy_replicas w now rs in
      (w, if ok then r :: rest else rest)
  end.

(** [(waiting_hint, id)] in lexicographic order. *)
Definition waits_less (w : World) (a b : BackendPoolRef) : bool :=
  (waiting_hint w a <? waiting_hint w b)
  || ((waiting_hint w a =? waiting_hint w b) && (ref_id a <? ref_id b)).

(** [min_by_key]: the first of the least. *)
Fixpoint least_waiting (w : World) (rs : list BackendPoolRef) : option BackendPoolRef :=
  match rs with
  | [] => None
  | r :: rs =>
      match least_waiting w rs with
      | None => Some r
      | Some m => if waits_less w m r then Some m else Some r
      end
  end.

(** [usize] sums wrap. *)
Definition total_weight (rs : list BackendPoolRef) : Z :=
  fold_left (fun t r => wrap_u 64 (t + ref_weight r)) rs 0.

(** The loop that finds the replica a cursor falls on. *)
Fixpoint pick (cursor offset : Z) (rs : list BackendPoolRef) : option BackendPoolRef :=
  match rs with
  | [] => None
  | r :: rs =>
      let offset := wrap_u 64 (offset + ref_weight r) in
      if cursor <? offset then Some r else pick cursor offset rs
  end.

(** [ReplicaSelector::select]. *)
Definition select (w : World) (now : Z) (s : ReplicaSelector) (replicas : list BackendPoolRef)
    : World * option BackendPoolRef :=
  let '(w, healthy) := healthy_replicas w now replicas in
  match healthy with
  | [] => (w, None)
  | _ :: _ =>
      match strategy s with
      | LeastWaiting => (w, least_waiting w healthy)
      | WeightedRoundRobin =>
          let total := total_weight healthy in
          if total =? 0 then (w, None)
          else
            let before := cursors w (cursor s) in
            (set_cursor w (cursor s) (wrap_u 64 (before + 1)), pick (before mod total) 0 healthy)
      end
  end.

(** ** Checkouts *)

Inductive PoolError :=
| CircuitOpen
| BackpressureFailure (e : BackpressureError)
| ConnectFailure.

(** A lease and the pool it came from. *)
Record Lease := { lease_pool : Z; lease_route : RouteKey }.

Definition closed {A} : result PoolError A := Err (BackpressureFailure Closed).

(** [RoutePools] *)
Record RoutePools := {
  rp_primary : BackendPoolRef;
  rp_replicas : list BackendPoolRef;
  rp_selector : ReplicaSelector;
}.

(** [RoutePools::new] asserts the roles. *)
Definition route_pools_new (primary : BackendPoolRef) (replicas : list BackendPoolRef)
    (selector : ReplicaSelector) : result unit RoutePools :=
  if bool_decide (ref_role primary = Primary)
     && forallb (fun r => bool_decide (ref_role r = Replica)) replicas
  then Ok {| rp_primary := primary; rp_replicas := replicas; rp_selector := selector |}
  else Panic.

Definition replica_by_id (p : RoutePools) (id : Z) : option BackendPoolRef :=
  List.find (fun r => ref_id r =? id) (rp_replicas p).

Definition pool_for_target (p : RoutePools) (t : RoutingTarget) : option BackendPoolRef :=
  match t with
  | ToPrimary _ => Some (rp_primary p)
  | ToReplica candidate _ => replica_by_id p (replica_id candidate)
  | ToWait _ | ToReject _ => None
  end.

(** [RoutePoolRegistry]: a map from pool keys. *)
Definition RoutePoolRegistry : Type := list (PoolKey * RoutePools).

Fixpoint assoc {K V} (eqb : K -> K -> bool) (k : K) (l : list (K * V)) : option V :=
  match l with
  | [] => None
  | (k', v) :: l => if eqb k k' then Some v else assoc eqb k l
  end.
Definition assoc_insert {K V} (eqb : K -> K -> bool) (k : K) (v : V) (l : list (K * V)) : list (K * V) :=
  (k, v) :: List.filter (fun p => negb (eqb k (fst p))) l.

Definition pool_key_eqb (a b : PoolKey) : bool := bool_decide (a = b).
Definition registry_insert (reg : RoutePoolRegistry) (route : RouteKey) (pools : RoutePools)
    : RoutePoolRegistry := assoc_insert pool_key_eqb (selection_key route) pools reg.
Definition registry_route_pools (reg : RoutePoolRegistry) (route : RouteKey) : option RoutePools :=
  assoc pool_key_eqb (selection_key route) reg.

(** Shards: [ShardPoolKey], [ShardPools], [ShardPoolCheckoutTarget],
    [ShardedPoolRegistry]. *)
Record ShardPoolKey := { spk_route : RouteKey; spk_shard_id : ShardId }.
Record ShardPools := { sp_shard_id : ShardId; sp_pools : RoutePools }.
Record ShardPoolCheckoutTarget := {
  ct_key : ShardPoolKey;
  ct_role : BackendRole;
  ct_fallback_reason : option RoutingReason;
}.

Definition shard_pool_key_eqb (a b : ShardPoolKey) : bool :=
  route_key_eqb (spk_route a) (spk_route b) && str_eqb (spk_shard_id a) (spk_shard_id b).

Definition shard_target_new (route : RouteKey) (shard : ShardId) (role : BackendRole)
    (reason : option RoutingReason) : ShardPoolCheckoutTarget :=
  {| ct_key := {| spk_route := route; spk_shard_id := shard |}; ct_role := role;
     ct_fallback_reason := reason |}.

Definition shard_pools_new (shard : ShardId) (primary : BackendPoolRef) (replicas : list BackendPoolRef)
    (selector : ReplicaSelector) : result unit ShardPools :=
  pools ← route_pools_new primary replicas selector;
  Ok {| sp_shard_id := shard; sp_pools := pools |}.

Definition ShardedPoolRegistry : Type := list (ShardPoolKey * ShardPools).

(** [ShardedPoolRegistry::insert] asserts that the shards agree. *)
Definition sharded_insert (reg : ShardedPoolRegistry) (key : ShardPoolKey) (pools : ShardPools)
    : result unit ShardedPoolRegistry :=
  if str_eqb (spk_shard_id key) (sp_shard_id pools)
  then Ok (assoc_insert shard_pool_key_eqb key pools reg) else Panic.
Definition shard_pools (reg : ShardedPoolRegistry) (key : ShardPoolKey) : option ShardPools :=
  assoc shard_pool_key_eqb key reg.

Section Checkouts.
(** The gates and the store of a pool, and whatever other tasks do to the
    shared state until they answer. *)
Variable acquire : World -> Z -> RouteKey -> CheckoutMode -> World * result PoolError unit.

(** [checkout_with_mode]: the breaker is asked first. *)
Definition checkout_with_mode (w : World) (now : Z) (pool : Z) (route : RouteKey) (mode : CheckoutMode)
    : World * result PoolError Lease :=
  let '(b, allowed) := allow_request (breakers w pool) now in
  let w := set_breaker w pool b in
  if negb allowed then (w, Err CircuitOpen)
  else
    let '(w, r) := acquire w pool route mode in
    (w, (fun _ => {| lease_pool := pool; lease_route := route |}) <$> r).

(** [BackendPoolRef::checkout]: the three entry points of the pool pass
    their mode on. *)
Definition ref_checkout (w : World) (now : Z) (r : BackendPoolRef) (route : RouteKey) (mode : CheckoutMode)
    : World * result PoolError Lease := checkout_with_mode w now (ref_pool r) route mode.

Definition checkout_primary (w : World) (now : Z) (p : RoutePools) (route : RouteKey) (mode : CheckoutMode)
    : World * result PoolError Lease := ref_checkout w now (rp_primary p) route mode.

Definition checkout_any_replica (w : World) (now : Z) (p : RoutePools) (route : RouteKey)
    (mode : CheckoutMode) : World * result PoolError Lease :=
  let '(w, chosen) := select w now (rp_selector p) (rp_replicas p) in
  match chosen with
  | None => (w, closed)
  | Some replica => ref_checkout w now replica route mode
  end.

Definition checkout_replica_by_id (w : World) (now : Z) (p : RoutePools) (route : RouteKey) (id : Z)
    (mode : CheckoutMode) : World * result PoolError Lease :=
  match replica_by_id p id with
  | None => (w, closed)
  | Some replica =>
      let '(w, ok) := is_healthy w now replica in
      if negb ok then (w, closed) else ref_checkout w now replica route mode
  end.

Definition checkout_replica_or_primary (w : World) (now : Z) (p : RoutePools) (route : RouteKey)
    (mode : CheckoutMode) : World * result PoolError Lease :=
  let '(w, chosen) := select w now (rp_selector p) (rp_replicas p) in
  match chosen with
  | None => ref_checkout w now (rp_primary p) route mode
  | Some replica =>
      match ref_checkout w now replica route mode with
      | (w, Ok lease) => (w, Ok lease)
      | (w, Panic) => (w, Panic)
      | (w, Err replica_error) =>
          match ref_checkout w now (rp_primary p) route mode with
          | (w, Ok lease) => (w, Ok lease)
          | (w, Panic) => (w, Panic)
          | (w, Err _) => (w, Err replica_error)
          end
      end
  end.

Definition checkout_target (w : World) (now : Z) (p : RoutePools) (route : RouteKey) (t : RoutingTarget)
    (mode : CheckoutMode) : World * result PoolError Lease :=
  match t with
  | ToPrimary _ => checkout_primary w now p route mode
  | ToReplica candidate _ => checkout_replica_by_id w now p route (replica_id candidate) mode
  | ToWait _ | ToReject _ => (w, closed)
  end.

(** The registry looks the route's pools up first; its five checkouts. *)
Definition on_route {A} (w : World) (reg : RoutePoolRegistry) (route : RouteKey)
    (f : RoutePools -> World * result PoolError A) : World * result PoolError A :=
  match registry_route_pools reg route with
  | None => (w, closed)
  | Some pools => f pools
  end.
Definition registry_checkout_primary (w : World) (now : Z) (reg : RoutePoolRegistry) (route : RouteKey)
    (mode : CheckoutMode) := on_route w reg route (fun p => checkout_primary w now p route mode).
Definition registry_checkout_any_replica (w : World) (now : Z) (reg : RoutePoolRegistry)
    (route : RouteKey) (mode : CheckoutMode) :=
  on_route w reg route (fun p => checkout_any_replica w now p route mode).
Definition registry_checkout_replica_by_id (w : World) (now : Z) (reg : RoutePoolRegistry)
    (route : RouteKey) (id : Z) (mode : CheckoutMode) :=
  on_route w reg route (fun p => checkout_replica_by_id w now p route id mode).
Definition registry_checkout_replica_or_primary (w : World) (now : Z) (reg : RoutePoolRegistry)
    (route : RouteKey) (mode : CheckoutMode) :=
  on_route w reg route (fun p => checkout_replica_or_primary w now p route mode).
Definition registry_checkout_target (w : World) (now : Z) (reg : RoutePoolRegistry) (route : RouteKey)
    (t : RoutingTarget) (mode : CheckoutMode) :=
  on_route w reg route (fun p => checkout_target w now p route t mode).

(** [ShardPools::checkout_target]. *)
Definition shard_checkout_target (w : World) (now : Z) (p : ShardPools) (t : ShardPoolCheckoutTarget)
    (mode : CheckoutMode) : World * result PoolError Lease :=
  if negb (str_eqb (spk_shard_id (ct_key t)) (sp_shard_id p)) then (w, closed)
  else
    match ct_role t with
    | Primary => checkout_primary w now (sp_pools p) (spk_route (ct_key t)) mode
    | Replica => checkout_any_replica w now (sp_pools p) (spk_route (ct_key t)) mode
    | UnknownRole => (w, closed)
    end.

Definition sharded_checkout_target (w : World) (now : Z) (reg : ShardedPoolRegistry)
    (t : ShardPoolCheckoutTarget) (mode : CheckoutMode) : World * result PoolError Lease :=
  match shard_pools reg (ct_key t) with
  | None => (w, closed)
  | Some pools => shard_checkout_target w now pools t mode
  end.
Definition sharded_checkout_primary (w : World) (now : Z) (reg : ShardedPoolRegistry) (route : RouteKey)
    (shard : ShardId) (mode : CheckoutMode) : World * result PoolError Lease :=
  match shard_pools reg {| spk_route := route; spk_shard_id := shard |} with
  | None => (w, closed)
  | Some pools => checkout_primary w now (sp_pools pools) route mode
  end.
Definition sharded_checkout_any_replica (w : World) (now : Z) (reg : ShardedPoolRegistry) (route : RouteKey)
    (shard : ShardId) (mode : CheckoutMode) : World * result PoolError Lease :=
  match shard_pools reg {| spk_route := route; spk_shard_id := shard |} with
  | None => (w, closed)
  | Some pools => checkout_any_replica w now (sp_pools pools) route mode
  end.
End Checkouts.

(** ** What a lease reports *)

(** [BackendLeaseState::mark_failed], [mark_succeeded]. *)
Definition mark_failed (w : World) (pool now : Z) : World :=
  set_breaker (set_health w pool false) pool (record_failure (breakers w pool) now).
Definition mark_succeeded (w : World) (pool : Z) : World :=
  set_breaker (set_health w pool true) pool (record_success (breakers w pool)).

(** ** The gates of the routes of one pool *)

(** [route_gates]: the handle of the gate of each route. A gate is created
    on the first use of its route; [route_dynamic_limit] is shared by all. *)
Record RouteGates := {
  gate_handles : list (PoolKey * Z);
  gates : list Gate;
  route_max_in_flight : Z;
  route_max_waiters : Z;
  route_dynamic_limit : option Z;
}.

Definition route_backpressure_gate (g : RouteGates) : Gate :=
  match route_dynamic_limit g with
  | None => gate_new (route_max_in_flight g) (route_max_waiters g)
  | Some l => with_dynamic_limit (route_max_in_flight g) (route_max_waiters g) l
  end.

(** [BackendPoolCore::route_gate]. *)
Definition route_gate (g : RouteGates) (route : RouteKey) : RouteGates * Z :=
  match assoc pool_key_eqb (pool_key route) (gate_handles g) with
  | Some h => (g, h)
  | None =>
      let h := len (gates g) in
      ({| gate_handles := assoc_insert pool_key_eqb (pool_key route) h (gate_handles g);
          gates := gates g ++ [route_backpressure_gate g];
          route_max_in_flight := route_max_in_flight g; route_max_waiters := route_max_waiters g;
          route_dynamic_limit := route_dynamic_limit g |}, h)
  end.

(** ** Health *)

Section Health.
(** What [is_healthy] answers. *)
Definition ok_now (w : World) (now : Z) (r : BackendPoolRef) : bool :=
  health w (ref_pool r) || bool_decide (state (cool_down (breakers w (ref_pool r)) now) = BHalfOpen).

(** The same health, now. *)
Definition same_health (now : Z) (w w' : World) : Prop :=
  forall p, health w' p = health w p /\
    cool_down (breakers w' p) now = cool_down (breakers w p) now.

Lemma cool_down_idem d now : cool_down (cool_down d now) now = cool_down d now.
Proof.
  unfold cool_down at 2 3. destruct (bool_decide (state d = BOpen)) eqn:Hs; cbn [andb].
  - destruct (opened_at d) as [t|] eqn:Ho; [|unfold cool_down; by rewrite Hs, Ho].
    destruct (_ <=? _) eqn:Hc; [done|]. unfold cool_down. by rewrite Hs, Ho, Hc.
  - unfold cool_down. by rewrite Hs.
Qed.

Lemma same_health_refl now w : same_health now w w.
Proof. done. Qed.

Lemma same_health_trans now w1 w2 w3 :
  same_health now w1 w2 -> same_health now w2 w3 -> same_health now w1 w3.
Proof. intros H1 H2 p. destruct (H1 p), (H2 p). split; congruence. Qed.

Lemma same_health_ok now w w' r : same_health now w w' -> ok_now w' now r = ok_now w now r.
Proof. intros H. unfold ok_now. destruct (H (ref_pool r)) as [-> ->]. done. Qed.

Lemma is_healthy_spec w now r :
  snd (is_healthy w now r) = ok_now w now r /\ same_health now w (fst (is_healthy w now r)) /\
  hints (fst (is_healthy w now r)) = hints w /\ cursors (fst (is_healthy w now r)) = cursors w.
Proof.
  unfold is_healthy, observe_state, ok_now. cbn. split_and!; try done. intros p. cbn. split; [done|].
  destruct (decide (p = ref_pool r)) as [->|Hne].
  - rewrite fn_lookup_insert. apply cool_down_idem.
  - by rewrite fn_lookup_insert_ne.
Qed.

Lemma healthy_replicas_spec w now rs :
  let '(w', healthy) := healthy_replicas w now rs in
  healthy = List.filter (ok_now w now) rs /\ same_health now w w' /\
  hints w' = hints w /\ cursors w' = cursors w.
Proof.
  revert w. induction rs as [|r rs IH]; intros w; cbn [healthy_replicas]; [done|].
  destruct (is_healthy_spec w now r) as (Ho & Hs & Hh & Hc).
  destruct (is_healthy w now r) as [w1 ok]. cbn [fst snd] in *. subst ok.
  specialize (IH w1). destruct (healthy_replicas w1 now rs) as [w2 rest].
  destruct IH as (-> & Hs2 & Hh2 & Hc2). cbn [List.filter].
  assert (Hf : List.filter (ok_now w1 now) rs = List.filter (ok_now w now) rs).
  { apply List.filter_ext. intros a. by apply same_health_ok. }
  rewrite Hf. split_and!; [by destruct (ok_now w now r)|by eapply same_health_trans|congruence|congruence].
Qed.
End Health.

(** ** Fairness of the round robin *)

Section Fairness.
Definition weights (rs : list BackendPoolRef) : Z := foldr (fun r t => ref_weight r + t) 0 rs.

(** Every replica, as often as its weight says. *)
Definition expand (rs : list BackendPoolRef) : list BackendPoolRef :=
  rs ≫= fun r => replicate (Z.to_nat (ref_weight r)) r.

Definition weighted (rs : list BackendPoolRef) : Prop := Forall (fun r => 1 <= ref_weight r) rs.

Lemma weights_nonneg rs : weighted rs -> 0 <= weights rs.
Proof.
  induction 1 as [|r rs Hr Hrs IH]; [done|]. change (weights (r :: rs)) with (ref_weight r + weights rs). lia.
Qed.

Lemma length_expand rs : weighted rs -> Z.of_nat (length (expand rs)) = weights rs.
Proof.
  induction 1 as [|r rs Hr Hrs IH]; [done|]. unfold expand in *. rewrite bind_cons, length_app, length_replicate.
  cbn [weights foldr]. fold (weights rs). lia.
Qed.

Lemma total_weight_sum rs t :
  weighted rs -> 0 <= t -> t + weights rs < 2 ^ 64 ->
  fold_left (fun t r => wrap_u 64 (t + ref_weight r)) rs t = t + weights rs.
Proof.
  intros Hw. revert t. induction Hw as [|r rs Hr Hrs IH]; intros t Ht Hs; cbn [fold_left weights foldr] in *; [lia|].
  fold (weights rs) in *. pose proof (weights_nonneg rs Hrs).
  assert (He : wrap_u 64 (t + ref_weight r) = t + ref_weight r) by (apply Z.mod_small; lia).
  rewrite He, IH by lia. lia.
Qed.

Lemma pick_expand rs c o :
  weighted rs -> 0 <= o <= c -> o + weights rs < 2 ^ 64 ->
  pick c o rs = expand rs !! Z.to_nat (c - o).
Proof.
  intros Hw. revert o. induction Hw as [|r rs Hr Hrs IH]; intros o Ho Hs; [done|].
  cbn [pick weights foldr] in *. fold (weights rs) in *. pose proof (weights_nonneg rs Hrs).
  unfold wrap_u. rewrite Z.mod_small by lia. unfold expand. rewrite bind_cons.
  destruct (Z.ltb_spec c (o + ref_weight r)).
  - rewrite lookup_app_l by (rewrite length_replicate; lia). rewrite lookup_replicate_2 by lia. done.
  - rewrite lookup_app_r by (rewrite length_replicate; lia). rewrite length_replicate.
    fold (expand rs). rewrite IH by lia. f_equal. lia.
Qed.

(** The answers of [n] selections in a row. *)
Fixpoint selections (n : nat) (w : World) (now : Z) (s : ReplicaSelector) (rs : list BackendPoolRef)
    : list (option BackendPoolRef) :=
  match n with
  | O => []
  | S n => let '(w, r) := select w now s rs in r :: selections n w now s rs
  end.

Lemma select_round_robin w now s rs :
  strategy s = WeightedRoundRobin ->
  let H := List.filter (ok_now w now) rs in
  weighted rs -> H <> [] -> weights H < 2 ^ 64 ->
  exists w', select w now s rs = (w', pick (cursors w (cursor s) mod weights H) 0 H) /\
    same_health now w w' /\ cursors w' (cursor s) = wrap_u 64 (cursors w (cursor s) + 1).
Proof.
  intros Hst H Hw Hne Hsum. pose proof (healthy_replicas_spec w now rs) as Hh. unfold select.
  destruct (healthy_replicas w now rs) as [w1 healthy]. destruct Hh as (-> & Hs & _ & Hc). fold H.
  assert (Hwh : weighted H).
  { unfold weighted, H in *. rewrite Forall_forall in *. intros x Hx. apply Hw.
    rewrite list_elem_of_In in *. by apply List.filter_In in Hx as [? _]. }
  assert (Ht : total_weight H = weights H) by (unfold total_weight; rewrite total_weight_sum; [lia|done|lia|lia]).
  destruct H as [|h hs] eqn:HH; [done|]. rewrite Hst, Ht.
  apply Forall_cons in Hwh as Hwh'. destruct Hwh' as [Hh1 Hh2]. pose proof (weights_nonneg hs Hh2).
  cbn [weights foldr] in *. fold (weights hs) in *.
  rewrite (proj2 (Z.eqb_neq _ 0)) by lia. cbv zeta. rewrite Hc. eexists. split; [done|]. split.
  - intros p. apply Hs.
  - cbn. by rewrite fn_lookup_insert.
Qed.

Lemma selections_picks n w now s rs :
  strategy s = WeightedRoundRobin -> weighted rs ->
  let H := List.filter (ok_now w now) rs in
  H <> [] -> weights H < 2 ^ 64 -> 0 <= cursors w (cursor s) -> cursors w (cursor s) + Z.of_nat n <= 2 ^ 64 ->
  selections n w now s rs
  = (fun i => pick ((cursors w (cursor s) + Z.of_nat i) mod weights H) 0 H) <$> seq 0 n.
Proof.
  intros Hst Hw. revert w. induction n as [|n IH]; intros w H Hne Hsum Hc0 Hc; [done|].
  destruct (select_round_robin w now s rs Hst Hw Hne Hsum) as (w' & Hsel & Hsame & Hcur).
  cbn [selections]. rewrite Hsel. cbn [seq fmap list_fmap]. rewrite Z.add_0_r. f_equal.
  assert (HH : List.filter (ok_now w' now) rs = H).
  { apply List.filter_ext. intros a. by apply same_health_ok. }
  destruct n as [|n]; [done|].
  unfold wrap_u in Hcur. rewrite Z.mod_small in Hcur by lia.
  rewrite IH; rewrite ?HH, ?Hcur; try done; try lia. rewrite <- fmap_S_seq, <- list_fmap_compose.
  apply list_fmap_ext. intros i x _. cbn. f_equal. f_equal. lia.
Qed.

(** Picking at every residue in turn goes once round. *)
Lemma picks_rotate H c :
  weighted H -> H <> [] -> weights H < 2 ^ 64 -> 0 <= c ->
  (fun i => pick ((c + Z.of_nat i) mod weights H) 0 H) <$> seq 0 (Z.to_nat (weights H))
  = Some <$> rotate (Z.to_nat c) (expand H).
Proof.
  intros Hw Hne Hsum Hc. pose proof (length_expand H Hw) as Hl.
  assert (Hpos : 0 < weights H).
  { destruct H as [|h hs]; [done|]. apply Forall_cons in Hw as [Hh Hhs].
    pose proof (weights_nonneg hs Hhs). change (weights (h :: hs)) with (ref_weight h + weights hs). lia. }
  apply list_eq. intros i. rewrite !list_lookup_fmap.
  destruct (decide (i < Z.to_nat (weights H))%nat) as [Hi|Hi].
  - rewrite lookup_seq_lt by done. cbn. rewrite lookup_rotate_r by lia.
    pose proof (Z.mod_pos_bound (c + Z.of_nat i) (weights H) Hpos).
    rewrite (pick_expand H _ 0 Hw) by lia. unfold rotate_nat_add. rewrite Z.sub_0_r, Hl, Z2Nat.id by lia.
    destruct (expand H !! _) eqn:He; [done|]. apply lookup_ge_None in He. lia.
  - rewrite !(proj2 (lookup_ge_None _ _)); [done| |].
    + rewrite length_rotate. lia.
    + rewrite length_seq. lia.
Qed.

Lemma rotate_Permutation {A} n (l : list A) : rotate n l ≡ₚ l.
Proof. unfold rotate. rewrite Permutation_app_comm. by rewrite take_drop. Qed.
End Fairness.

(** The weighted round robin is fair: while health does not change, any
    run of as many selections as the weights of the healthy replicas add up
    to picks every one of them exactly as often as its weight says, and no
    other (until the shared counter wraps). *)
Theorem round_robin_fair w now s rs :
  strategy s = WeightedRoundRobin -> weighted rs ->
  let H := List.filter (ok_now w now) rs in
  H <> [] -> weights H < 2 ^ 64 ->
  0 <= cursors w (cursor s) -> cursors w (cursor s) + weights H <= 2 ^ 64 ->
  selections (Z.to_nat (weights H)) w now s rs
  ≡ₚ (H ≫= fun r => replicate (Z.to_nat (ref_weight r)) (Some r)).
Proof.
  intros Hst Hw H Hne Hsum Hc0 Hc.
  assert (Hwh : weighted H).
  { unfold weighted, H in *. rewrite Forall_forall in *. intros x Hx. apply Hw.
    rewrite list_elem_of_In in *. by apply List.filter_In in Hx as [? _]. }
  pose proof (weights_nonneg H Hwh). rewrite selections_picks by (try done; lia). fold H.
  rewrite picks_rotate by done. rewrite rotate_Permutation.
  clear -H. unfold expand. induction H as [|r rs' IH]; [done|].
  rewrite !bind_cons, fmap_app, fmap_replicate. by f_equiv.
Qed.

(** ** Where a lease comes from *)

Section Origin.
Lemma assoc_Some {K V} (eqb : K -> K -> bool) k (l : list (K * V)) v :
  assoc eqb k l = Some v -> exists k', (k', v) ∈ l /\ eqb k k' = true.
Proof.
  induction l as [|[k' v'] l IH]; cbn; [done|]. destruct (eqb k k') eqn:He.
  - intros [= ->]. exists k'. split; [by left|done].
  - intros Ha. destruct (IH Ha) as (k'' & Hi & He'). exists k''. split; [by right|done].
Qed.

Lemma assoc_insert_Forall {K V} (eqb : K -> K -> bool) (P : K * V -> Prop) k v l :
  P (k, v) -> Forall P l -> Forall P (assoc_insert eqb k v l).
Proof.
  intros Hk Hl. constructor; [done|]. rewrite Forall_forall in *. intros p Hp. apply Hl.
  rewrite list_elem_of_In in *. by apply List.filter_In in Hp as [? _].
Qed.

(** A map whose key equality is symmetric and transitive. *)
Lemma assoc_insert_spec {K V} (eqb : K -> K -> bool) k v (l : list (K * V)) k' :
  (forall a b, eqb a b = eqb b a) -> (forall a b c, eqb a b = true -> eqb b c = eqb a c) ->
  assoc eqb k' (assoc_insert eqb k v l) = if eqb k' k then Some v else assoc eqb k' l.
Proof.
  intros Hsym Htrans. unfold assoc_insert. cbn. destruct (eqb k' k) eqn:Hk; [done|].
  induction l as [|[k2 v2] l IH]; cbn; [done|]. destruct (eqb k k2) eqn:Hk2; cbn.
  - rewrite IH. destruct (eqb k' k2) eqn:Hk3; [|done].
    rewrite <- (Htrans k' k2 k Hk3), Hsym in Hk. congruence.
  - by rewrite IH.
Qed.

Lemma shard_pool_key_eqb_true a b :
  shard_pool_key_eqb a b = true <-> spk_route a ≡ spk_route b /\ spk_shard_id a = spk_shard_id b.
Proof.
  unfold shard_pool_key_eqb. rewrite andb_true_iff. unfold str_eqb. rewrite bool_decide_eq_true. done.
Qed.

(** The last registration under an equal key is the one found. *)
Lemma shard_pools_insert reg key pools reg' key' :
  sharded_insert reg key pools = Ok reg' ->
  shard_pools reg' key' = if shard_pool_key_eqb key' key then Some pools else shard_pools reg key'.
Proof.
  unfold sharded_insert. destruct (str_eqb _ _); [|done]. intros [= <-]. apply assoc_insert_spec.
  - intros a b. apply Bool.eq_iff_eq_true. rewrite !shard_pool_key_eqb_true.
    rewrite !route_key_equiv_fields. naive_solver.
  - intros a b c Hab. apply shard_pool_key_eqb_true in Hab as [Hab He].
    apply Bool.eq_iff_eq_true. rewrite !shard_pool_key_eqb_true. rewrite !route_key_equiv_fields in *.
    naive_solver congruence.
Qed.

Context (acquire : World -> Z -> RouteKey -> CheckoutMode -> World * result PoolError unit).

Lemma checkout_lease w now pool route mode w' l :
  checkout_with_mode acquire w now pool route mode = (w', Ok l) -> l = {| lease_pool := pool; lease_route := route |}.
Proof.
  unfold checkout_with_mode. destruct (allow_request _ _) as [b ok]. destruct (negb ok); [done|].
  destruct (acquire _ _ _ _) as [w2 [[]| |]]; cbn; congruence.
Qed.

Lemma pick_In c o rs r : pick c o rs = Some r -> r ∈ rs.
Proof.
  revert o. induction rs as [|x rs IH]; intros o; cbn; [done|]. destruct (_ <? _); [|right; by eapply IH].
  intros [= ->]. by left.
Qed.

Lemma least_waiting_In w rs r : least_waiting w rs = Some r -> r ∈ rs.
Proof.
  revert r. induction rs as [|x rs IH]; intros r; cbn; [done|].
  destruct (least_waiting w rs) as [m|]; [destruct (waits_less w m x)|]; intros [= <-]; try by left.
  right. by apply IH.
Qed.

(** A selected replica is one of those given and healthy. *)
Lemma select_healthy w now s rs w' r :
  select w now s rs = (w', Some r) -> r ∈ rs /\ ok_now w now r = true.
Proof.
  unfold select. pose proof (healthy_replicas_spec w now rs) as Hh.
  destruct (healthy_replicas w now rs) as [w1 healthy]. destruct Hh as (-> & _).
  assert (Hin : r ∈ List.filter (ok_now w now) rs -> r ∈ rs /\ ok_now w now r = true).
  { rewrite !list_elem_of_In. apply List.filter_In. }
  destruct (List.filter _ rs) as [|h hs] eqn:Hf; [done|]. destruct (strategy s).
  - intros Hp. apply (f_equal snd) in Hp. cbn [snd] in Hp. by apply Hin, (least_waiting_In w1).
  - destruct (_ =? 0); [done|]. intros Hp. apply (f_equal snd) in Hp. cbn [snd] in Hp. by apply Hin, (pick_In _ _ _ _ Hp).
Qed.

(** The pools of a route whose roles are as [RoutePools::new] checks. *)
Definition roles_ok (p : RoutePools) : Prop :=
  ref_role (rp_primary p) = Primary /\ Forall (fun r => ref_role r = Replica) (rp_replicas p).

Lemma route_pools_new_Ok a b c p : route_pools_new a b c = Ok p -> roles_ok p.
Proof.
  unfold route_pools_new. destruct (_ && _) eqn:Hb; [|done]. intros [= <-].
  apply andb_true_iff in Hb as [H1 H2]. apply bool_decide_eq_true in H1. split; [done|].
  cbn. rewrite Forall_forall. rewrite forallb_forall in H2. intros x Hx.
  rewrite list_elem_of_In in Hx. by apply H2, bool_decide_eq_true in Hx.
Qed.

(** Registries of shards: built from nothing by insertions of pools made by
    [ShardPools::new]. *)
Inductive registered : ShardedPoolRegistry -> Prop :=
| registered_new : registered []
| registered_insert reg key shard primary replicas selector pools reg' :
    registered reg -> shard_pools_new shard primary replicas selector = Ok pools ->
    sharded_insert reg key pools = Ok reg' -> registered reg'.

Definition entry_ok (e : ShardPoolKey * ShardPools) : Prop :=
  spk_shard_id (fst e) = sp_shard_id (snd e) /\ roles_ok (sp_pools (snd e)).

Lemma registered_ok reg : registered reg -> Forall entry_ok reg.
Proof.
  induction 1 as [|reg key shard primary replicas selector pools reg' Hr IH Hp Hi]; [constructor|].
  unfold sharded_insert in Hi. destruct (str_eqb _ _) eqn:Hs; [|done]. injection Hi as <-.
  apply assoc_insert_Forall; [|done]. unfold str_eqb in Hs. apply bool_decide_eq_true in Hs.
  split; [done|]. unfold shard_pools_new in Hp. apply bind_Ok_inv in Hp as (p & Hp & Heq).
  injection Heq as <-. by eapply route_pools_new_Ok.
Qed.
End Origin.

(** A lease for a shard comes from that shard: whatever was registered,
    the backend lent for a target is from the pools last registered under
    its route and shard, from the primary's pool for a primary and from a
    replica that was healthy for a replica; a target without a role, an
    unknown route or an unknown shard is refused and touches nothing. *)
Theorem sharded_checkout_exact acquire w now reg t mode w' r :
  registered reg ->
  sharded_checkout_target acquire w now reg t mode = (w', r) ->
  match shard_pools reg (ct_key t) with
  | None => r = closed /\ w' = w
  | Some p =>
      sp_shard_id p = spk_shard_id (ct_key t) /\
      (ct_role t = UnknownRole -> r = closed /\ w' = w) /\
      forall l, r = Ok l ->
        lease_route l = spk_route (ct_key t) /\
        exists ref, lease_pool l = ref_pool ref /\ ref_role ref = ct_role t /\
          match ct_role t with
          | Primary => ref = rp_primary (sp_pools p)
          | _ => ref ∈ rp_replicas (sp_pools p) /\ ok_now w now ref = true
          end
  end.
Proof.
  intros Hr Hc. apply registered_ok in Hr. unfold sharded_checkout_target in Hc.
  destruct (shard_pools reg (ct_key t)) as [p|] eqn:Hp; [|by injection Hc as <- <-].
  apply assoc_Some in Hp as (k & Hin & Hk). rewrite Forall_forall in Hr.
  destruct (Hr _ Hin) as [Hs [Hprim Hreps]]. cbn in Hs. apply shard_pool_key_eqb_true in Hk as [_ Hk].
  unfold shard_checkout_target in Hc. rewrite Hk, Hs in Hc. unfold str_eqb in Hc.
  rewrite bool_decide_true in Hc by done. cbn [negb] in Hc. split; [congruence|].
  destruct (ct_role t) eqn:Hrole.
  - split; [done|]. intros l ->. apply checkout_lease in Hc as ->. cbn. split; [done|].
    by exists (rp_primary (sp_pools p)).
  - split; [done|]. intros l ->. unfold checkout_any_replica in Hc.
    destruct (select w now _ _) as [w1 [ref|]] eqn:Hsel; [|by injection Hc].
    apply select_healthy in Hsel as [Hi Ho]. apply checkout_lease in Hc as ->. cbn. split; [done|].
    exists ref. rewrite Forall_forall in Hreps. auto.
  - injection Hc as <- <-. split; [done|]. intros l Hl. done.
Qed.

Section PoolsWitness.
Definition toy_breaker : BreakerData := breaker_new {| failure_threshold := 3; cooldown := 10 |}.
Definition toy_world : World :=
  {| health := fun p => negb (p =? 2); breakers := fun _ => toy_breaker; hints := fun _ => 0;
     cursors := fun _ => 5 |}.
Definition toy_replicas : list BackendPoolRef :=
  [replica_ref 1 2 0 1; replica_ref 2 9 0 2; replica_ref 3 1 0 3].
Definition toy_selector : ReplicaSelector := {| strategy := WeightedRoundRobin; cursor := 0 |}.

Lemma round_robin_fair_witness :
  selections 3 toy_world 0 toy_selector toy_replicas
  ≡ₚ [Some (replica_ref 1 2 0 1); Some (replica_ref 1 2 0 1); Some (replica_ref 3 1 0 3)].
Proof.
  apply (round_robin_fair toy_world 0 toy_selector toy_replicas); try done.
  repeat constructor; done.
Defined.

Definition toy_route : RouteKey := route_key_new (lit "db") (lit "u") None None RouteClass.Default.
Definition toy_shards : ShardPools :=
  {| sp_shard_id := lit "s1";
     sp_pools := {| rp_primary := primary_ref 0 0; rp_replicas := toy_replicas; rp_selector := toy_selector |} |}.
Definition toy_registry : ShardedPoolRegistry :=
  [({| spk_route := toy_route; spk_shard_id := lit "s1" |}, toy_shards)].

Lemma sharded_checkout_exact_witness :
  exists w' l, sharded_checkout_target (fun w _ _ _ => (w, Ok tt)) toy_world 0 toy_registry
    (shard_target_new toy_route (lit "s1") Replica None) AllowConnect = (w', Ok l) /\
  exists ref, lease_pool l = ref_pool ref /\ ref_role ref = Replica /\ ref ∈ toy_replicas /\
    ok_now toy_world 0 ref = true.
Proof.
  destruct (sharded_checkout_target (fun w _ _ _ => (w, Ok tt)) toy_world 0 toy_registry
    (shard_target_new toy_route (lit "s1") Replica None) AllowConnect) as [w' [l|e|]] eqn:Hc;
    [|vm_compute in Hc; discriminate Hc|vm_compute in Hc; discriminate Hc].
  exists w', l. split; [done|].
  assert (Hreg : registered toy_registry).
  { eapply (registered_insert [] {| spk_route := toy_route; spk_shard_id := lit "s1" |} (lit "s1") (primary_ref 0 0) toy_replicas toy_selector toy_shards);
      [apply registered_new|reflexivity|reflexivity]. }
  destruct (sharded_checkout_exact _ _ _ _ _ _ _ _ Hreg Hc) as (_ & _ & Hl).
  destruct (Hl l eq_refl) as [_ (ref & H1 & H2 & H3)]. exists ref. done.
Defined.
End PoolsWitness.
