(* ===== verification/Coordinator.v ===== *)
(** * Coordinator: sharing one limit between routes

    Models [BackpressureCoordinator] of
    [pg-kinetic-core/src/traffic/backpressure.rs]: the fairness settings of
    routes, the gate each route gets on its first use, and what a permit of
    both gates gives back. The gates themselves, and the waiting of a
    checkout on first the one and then the other, are those of
    Backpressure.v. *)

From S2P Require Import Prelude Text Route Backpressure Pools.

Inductive RoutePriority := Critical | Normal | Sheddable.
#[global] Instance RoutePriority_eq_dec : EqDecision RoutePriority.
Proof. solve_decision. Defined.

Record RouteFairnessConfig := {
  weight : Z;
  fair_max_in_flight : option Z;
  priority : RoutePriority;
}.

Definition fairness_default : RouteFairnessConfig :=
  {| weight := 1; fair_max_in_flight := None; priority := Normal |}.

(** [RouteFairnessConfig::validate]. *)
Definition fairness_validate (c : RouteFairnessConfig) : result str unit :=
  if weight c =? 0 then Err (lit "route fairness weight must be greater than zero")
  else if bool_decide (fair_max_in_flight c = Some 0)
  then Err (lit "route fairness max_in_flight must be greater than zero")
  else Ok tt.

(** [BackpressureCoordinator]: [routes] maps a route to its gate in [gates]. *)
Record BackpressureCoordinator := {
  global : Gate;
  routes : list (RouteKey * Z);
  route_gate_list : list Gate;
  policies : list (RouteKey * RouteFairnessConfig);
  max_route_in_flight : Z;
  max_route_waiters : Z;
}.

Definition coordinator_with_capacity (max_in_flight max_route_in_flight max_route_waiters : Z)
    : BackpressureCoordinator :=
  {| global := gate_new max_in_flight max_route_waiters; routes := []; route_gate_list := [];
     policies := []; max_route_in_flight := max_route_in_flight; max_route_waiters := max_route_waiters |}.

Definition coordinator_new (max_route_in_flight max_route_waiters : Z) : BackpressureCoordinator :=
  coordinator_with_capacity (Z.shiftr USIZE_MAX 3) max_route_in_flight max_route_waiters.

Definition configure_route (c : BackpressureCoordinator) (route : RouteKey) (config : RouteFairnessConfig)
    : result str BackpressureCoordinator :=
  _ ← fairness_validate config;
  Ok {| global := global c; routes := routes c; route_gate_list := route_gate_list c;
        policies := assoc_insert route_key_eqb route config (policies c);
        max_route_in_flight := max_route_in_flight c; max_route_waiters := max_route_waiters c |}.

Definition policy_of (c : BackpressureCoordinator) (route : RouteKey) : RouteFairnessConfig :=
  default fairness_default (assoc route_key_eqb route (policies c)).

(** [sum::<usize>] wraps. *)
Definition configured_weight (c : BackpressureCoordinator) : Z :=
  Z.max (fold_left (fun t p => wrap_u 64 (t + weight (snd p))) (policies c) 0) 1.

Definition weighted_limit (c : BackpressureCoordinator) (p : RouteFairnessConfig) : Z :=
  Z.max (sat_mul (max_route_in_flight c) (weight p) / configured_weight c) 1.

(** [route_gate]: the handle of the gate, made on the first use. *)
Definition coordinator_route_gate (c : BackpressureCoordinator) (route : RouteKey)
    : BackpressureCoordinator * Z :=
  match assoc route_key_eqb route (routes c) with
  | Some h => (c, h)
  | None =>
      let p := policy_of c route in
      let h := len (route_gate_list c) in
      let g := gate_new (default (weighted_limit c p) (fair_max_in_flight p)) (max_route_waiters c) in
      ({| global := global c; routes := assoc_insert route_key_eqb route h (routes c);
          route_gate_list := route_gate_list c ++ [g]; policies := policies c;
          max_route_in_flight := max_route_in_flight c; max_route_waiters := max_route_waiters c |}, h)
  end.

(** [checkout] after its route permit: a route that may be shed does not
    wait for the global gate. *)
Definition sheds (c : BackpressureCoordinator) (route : RouteKey) : bool :=
  bool_decide (priority (policy_of c route) = Sheddable)
  && (limit (global c) <=? in_flight (global c)).

(** ** The shares *)

Section Shares.
Definition weights_of (ps : list (RouteKey * RouteFairnessConfig)) : Z :=
  foldr (fun p t => weight (snd p) + t) 0 ps.

Definition policies_ok (ps : list (RouteKey * RouteFairnessConfig)) : Prop :=
  Forall (fun p => 1 <= weight (snd p)) ps.

Lemma weights_of_cons p ps : weights_of (p :: ps) = weight (snd p) + weights_of ps.
Proof. done. Qed.

Lemma weights_of_nonneg ps : policies_ok ps -> 0 <= weights_of ps.
Proof. induction 1 as [|p ps Hp Hps IH]; [done|]. rewrite weights_of_cons. lia. Qed.

Lemma configured_weight_sum c :
  policies_ok (policies c) -> policies c <> [] -> weights_of (policies c) < 2 ^ 64 ->
  configured_weight c = weights_of (policies c) /\ 0 < weights_of (policies c).
Proof.
  intros Hok Hne Hs. unfold configured_weight.
  assert (Hf : forall t, 0 <= t -> t + weights_of (policies c) < 2 ^ 64 ->
    fold_left (fun t p => wrap_u 64 (t + weight (snd p))) (policies c) t = t + weights_of (policies c)).
  { clear Hne Hs. induction Hok as [|p ps Hp Hps IH]; intros t Ht Hs; [cbn; lia|].
    rewrite weights_of_cons in *. pose proof (weights_of_nonneg ps Hps). cbn [fold_left].
    assert (He : wrap_u 64 (t + weight (snd p)) = t + weight (snd p)) by (apply Z.mod_small; lia).
    rewrite He, IH by lia. lia. }
  rewrite Hf by lia. destruct (policies c) as [|p ps]; [done|]. apply Forall_cons in Hok as [Hp Hps].
  rewrite weights_of_cons. pose proof (weights_of_nonneg ps Hps). lia.
Qed.

(** Shares of floors add up to no more than the whole. *)
Lemma shares_sum M W ps :
  0 <= M -> 0 < W -> policies_ok ps ->
  foldr (fun p t => M * weight (snd p) / W + t) 0 ps <= M * weights_of ps / W.
Proof.
  intros HM HW. induction 1 as [|p ps Hp Hps IH]; cbn [foldr]; [by rewrite Z.mul_0_r|].
  rewrite weights_of_cons, Z.mul_add_distr_l.
  enough (M * weight (snd p) / W + M * weights_of ps / W <= (M * weight (snd p) + M * weights_of ps) / W) by lia.
  apply Z.div_le_lower_bound; [lia|].
  pose proof (Z.mul_div_le (M * weight (snd p)) W HW). pose proof (Z.mul_div_le (M * weights_of ps) W HW). lia.
Qed.
End Shares.

(** The routes share the limit: when every configured route has a weight
    and none a limit of its own, each gets at least one permit, and what they
    get beyond that one adds up to no more than the limit they share. *)
Theorem route_shares_bounded c :
  policies_ok (policies c) -> policies c <> [] -> weights_of (policies c) < 2 ^ 64 ->
  0 <= max_route_in_flight c -> max_route_in_flight c * weights_of (policies c) < 2 ^ 64 ->
  Forall (fun p => 1 <= weighted_limit c (snd p)) (policies c) /\
  foldr (fun p t => weighted_limit c (snd p) - 1 + t) 0 (policies c) <= max_route_in_flight c.
Proof.
  intros Hok Hne HW HM Hprod. destruct (configured_weight_sum c Hok Hne HW) as [Hcw Hpos].
  split; [apply Forall_true; intros p; unfold weighted_limit; lia|].
  set (M := max_route_in_flight c) in *. set (W := weights_of (policies c)) in *.
  transitivity (M * W / W); [|by rewrite Z.div_mul by lia].
  transitivity (foldr (fun p t => M * weight (snd p) / W + t) 0 (policies c));
    [|by apply shares_sum].
  assert (Hsub : forall p, p ∈ policies c -> 1 <= weight (snd p) <= W).
  { subst W. clear -Hok. induction Hok as [|q ps Hq Hps IH]; intros p Hp; [by apply not_elem_of_nil in Hp|].
    rewrite weights_of_cons. pose proof (weights_of_nonneg ps Hps).
    apply elem_of_cons in Hp as [->|Hp]; [lia|]. apply IH in Hp. lia. }
  clearbody W. clear Hok Hne. induction (policies c) as [|p ps IH]; cbn [foldr]; [lia|].
  assert (weighted_limit c (snd p) - 1 <= M * weight (snd p) / W).
  { unfold weighted_limit, sat_mul. fold M. rewrite Hcw.
    destruct (Hsub p) as [H1 H2]; [by left|]. unfold U64_MAX.
    assert (M * weight (snd p) <= M * W) by (apply Z.mul_le_mono_nonneg_l; lia).
    rewrite Z.min_r by lia. pose proof (Z.div_pos (M * weight (snd p)) W ltac:(nia) ltac:(lia)). lia. }
  enough (foldr (fun p t => weighted_limit c (snd p) - 1 + t) 0 ps
          <= foldr (fun p t => M * weight (snd p) / W + t) 0 ps) by lia.
  apply IH. intros q Hq. apply Hsub. by right.
Qed.

Section Examples.
Definition toy_coordinator : BackpressureCoordinator :=
  {| global := gate_new 100 5; routes := []; route_gate_list := [];
     policies := [(toy_route, {| weight := 2; fair_max_in_flight := None; priority := Normal |});
                  (with_application_name toy_route (Some (lit "b")), fairness_default)];
     max_route_in_flight := 10; max_route_waiters := 5 |}.

Lemma route_shares_bounded_witness :
  weighted_limit toy_coordinator {| weight := 2; fair_max_in_flight := None; priority := Normal |} = 6 /\
  foldr (fun p t => weighted_limit toy_coordinator (snd p) - 1 + t) 0 (policies toy_coordinator) <= 10.
Proof.
  split; [reflexivity|]. apply (route_shares_bounded toy_coordinator); try done.
  repeat constructor; cbn; lia.
Defined.
End Examples.

(** A gate keeps the limit of its first use: settings made later for the
    route do not reach it. *)
Lemma gate_keeps_first_limit c route c1 h config c2 :
  coordinator_route_gate c route = (c1, h) -> configure_route c1 route config = Ok c2 ->
  coordinator_route_gate c2 route = (c2, h) /\ route_gate_list c2 = route_gate_list c1.
Proof.
  intros Hg Hc. unfold configure_route in Hc. apply bind_Ok_inv in Hc as ([] & _ & Hc). injection Hc as <-.
  assert (Ha : assoc route_key_eqb route (routes c1) = Some h).
  { unfold coordinator_route_gate in Hg. destruct (assoc _ route (routes c)) eqn:Hr.
    - by injection Hg as <- <-.
    - injection Hg as <- <-. cbn.
      assert (He : route_key_eqb route route = true) by (change (route ≡ route); reflexivity).
      by rewrite He. }
  unfold coordinator_route_gate. cbn [routes]. by rewrite Ha.
Qed.
