(* ===== verification/RequestPlan.v ===== *)
(** * Request plans

    Models [pg-kinetic-proxy/src/proxy/request_plan.rs]: what the proxy
    learns about a cycle of client frames before it lends a server: the
    text, the command and the routing analysis of every statement, through a
    bounded cache of analysed texts. [classify] and [analyze_sql] are
    functions of Sql.v and SqlClassify.v whose [None] is a panic. *)

From S2P Require Import Prelude Text Order Protocol Frame RoutingTypes Sql SqlClassify Session Prepare.

(** ** Plans and their cache *)

Record RequestPlan := {
  rp_sql : str;
  rp_command : SqlCommand;
  rp_analysis : option SqlAnalysis;
  updates_transaction_state : bool;
  updates_session_state : bool;
}.

Record CachedSqlPlan := { cp_command : SqlCommand; cp_analysis : option SqlAnalysis }.

(** [plans] is keyed by the bytes of the text. *)
Record SqlPlanCache := {
  capacity : nat;
  plans : gmap bytes CachedSqlPlan;
  insertion_order : list bytes;
}.

Definition cache_new (capacity : nat) : SqlPlanCache :=
  {| capacity := capacity; plans := ∅; insertion_order := [] |}.

(** The loop of [evict_to_capacity]. *)
Fixpoint evict (capacity : nat) (plans : gmap bytes CachedSqlPlan) (order : list bytes)
    : gmap bytes CachedSqlPlan * list bytes :=
  if (size plans <=? capacity)%nat then (plans, order)
  else match order with
       | [] => (plans, [])
       | key :: order => evict capacity (delete key plans) order
       end.

Definition evict_to_capacity (c : SqlPlanCache) : SqlPlanCache :=
  let '(ps, order) := evict (capacity c) (plans c) (insertion_order c) in
  {| capacity := capacity c; plans := ps; insertion_order := order |}.

(** What [get_or_insert] does when the cache does not have the answer. *)
Definition insert_plan (c : SqlPlanCache) (sql : str) (needs_analysis : bool)
    : result WireError (SqlPlanCache * CachedSqlPlan) :=
  let key := encode_utf8 sql in
  command ← match plans c !! key with
            | Some plan => Ok (cp_command plan)
            | None => or_panic (classify sql)
            end;
  analysis ← (if needs_analysis then Some <$> or_panic (analyze_sql sql) else Ok None);
  let plan := {| cp_command := command; cp_analysis := analysis |} in
  if (capacity c =? 0)%nat then Ok (c, plan)
  else
    let order := match plans c !! key with
                 | Some _ => insertion_order c
                 | None => insertion_order c ++ [key]
                 end in
    Ok (evict_to_capacity {| capacity := capacity c; plans := <[key := plan]> (plans c);
                             insertion_order := order |}, plan).

Definition get_or_insert (c : SqlPlanCache) (sql : str) (needs_analysis : bool)
    : result WireError (SqlPlanCache * CachedSqlPlan) :=
  match plans c !! encode_utf8 sql with
  | Some plan =>
      if negb needs_analysis || bool_decide (is_Some (cp_analysis plan)) then Ok (c, plan)
      else insert_plan c sql needs_analysis
  | None => insert_plan c sql needs_analysis
  end.

(** [RequestPlan::new], [from_prepared] and [analysis]. *)
Definition plan_new (sql : str) (tx session needs_analysis : bool) (c : SqlPlanCache)
    : result WireError (SqlPlanCache * RequestPlan) :=
  '(c, cached) ← get_or_insert c sql needs_analysis;
  Ok (c, {| rp_sql := sql; rp_command := cp_command cached; rp_analysis := cp_analysis cached;
            updates_transaction_state := tx; updates_session_state := session |}).

Definition from_prepared (st : PreparedStatement) : RequestPlan :=
  {| rp_sql := st_query st; rp_command := st_command st; rp_analysis := Some (st_analysis st);
     updates_transaction_state := false; updates_session_state := false |}.

Definition plan_analysis (p : RequestPlan) : option SqlAnalysis :=
  match rp_analysis p with Some a => Some a | None => analyze_sql (rp_sql p) end.

(** ** The plans of a cycle *)

(** What a Bind or a Describe of a statement refers to. *)
Definition referenced_statement (prepared : PreparedCatalog) (frame : FrontendFrame)
    : option PreparedStatement :=
  match mjoin (result_ok (parse_bind_statement_name frame)) ≫= get_for_current_route_map prepared with
  | Some st => Some st
  | None =>
      match mjoin (result_ok (parse_describe_target frame)) with
      | Some (DescribeStatement name) => get_for_current_route_map prepared name
      | _ => None
      end
  end.

(** The body of the loop of [request_plans_for_frames]. *)
Definition plan_frame (prepared : PreparedCatalog) (analyze : bool) (c : SqlPlanCache)
    (frame : FrontendFrame) : result WireError (SqlPlanCache * list RequestPlan) :=
  simple ← parse_simple_query frame;
  match simple with
  | Some q => '(c, p) ← plan_new q true true analyze c; Ok (c, [p])
  | None =>
      parse ← parse_parse_message frame;
      match parse with
      | Some m => '(c, p) ← plan_new (query m) true false analyze c; Ok (c, [p])
      | None =>
          Ok (c, match referenced_statement prepared frame with
                 | Some st => [from_prepared st]
                 | None => []
                 end)
      end
  end.

Fixpoint request_plans_for_frames (prepared : PreparedCatalog) (frames : list FrontendFrame)
    (analyze : bool) (c : SqlPlanCache) : result WireError (SqlPlanCache * list RequestPlan) :=
  match frames with
  | [] => Ok (c, [])
  | frame :: frames =>
      '(c, ps) ← plan_frame prepared analyze c frame;
      '(c, rest) ← request_plans_for_frames prepared frames analyze c;
      Ok (c, ps ++ rest)
  end.

(** [safe_request_to_replay]; [None] when the analysis of the text panics. *)
Definition safe_request_to_replay (frames : list FrontendFrame) (plans : list RequestPlan)
    (s : Virtual.VirtualSession) (replay_session_state : bool) : option bool :=
  if negb (bool_decide (frames = []))
     && forallb (fun f => tag f =? frontend_byte Query) frames
  then match plans with
       | [p] =>
           a ← plan_analysis p;
           Some (routes_to_replica (an_query_class a)
                 && bool_decide (Virtual.pin_reason s = None)
                 && (replay_session_state || negb (Virtual.has_replayable_settings s)))
       | _ => Some false
       end
  else Some false.

(** [mirror_sql_command_for_request_plan]. *)
Definition mirror_sql_command_for_request_plan (p : option RequestPlan) : SqlCommand :=
  match p with Some p => rp_command p | None => CmdQuery end.

(** ** The cache is transparent *)

Section CacheFacts.
(** What an entry says about its text. *)
Definition entry_ok (key : bytes) (p : CachedSqlPlan) : Prop :=
  exists sql, valid_str sql /\ key = encode_utf8 sql /\ classify sql = Some (cp_command p) /\
    (cp_analysis p = None \/ cp_analysis p = analyze_sql sql).

Record cache_ok (c : SqlPlanCache) : Prop := {
  cache_entries : map_Forall entry_ok (plans c);
  cache_order : forall k, k ∈ insertion_order c <-> is_Some (plans c !! k);
  cache_nodup : NoDup (insertion_order c);
  cache_bound : (size (plans c) <= capacity c)%nat;
}.

Lemma cache_new_ok n : cache_ok (cache_new n).
Proof.
  split; cbn.
  - apply map_Forall_empty.
  - intros k. rewrite lookup_empty. split; [set_solver|intros [? ?]; done].
  - constructor.
  - rewrite map_size_empty. lia.
Qed.

Lemma evict_ok cap ps order ps' order' :
  (forall k, k ∈ order <-> is_Some (ps !! k)) -> NoDup order -> map_Forall entry_ok ps ->
  evict cap ps order = (ps', order') ->
  (forall k, k ∈ order' <-> is_Some (ps' !! k)) /\ NoDup order' /\ map_Forall entry_ok ps' /\
  (size ps' <= cap)%nat.
Proof.
  revert ps. induction order as [|k order IH]; intros ps Hdom Hnd Hok He; cbn in He.
  all: destruct (Nat.leb_spec (size ps) cap) as [Hs|Hs]; [by simplify_eq|].
  - simplify_eq. exfalso. enough (size ps' = 0)%nat by lia.
    apply map_size_empty_iff, map_empty. intros k. destruct (ps' !! k) eqn:E; [|done].
    assert (Hin : k ∈ @nil bytes) by (apply Hdom; eauto). by apply not_elem_of_nil in Hin.
  - apply NoDup_cons in Hnd as [Hk Hnd]. apply (IH (delete k ps)); [| |by apply map_Forall_delete|done].
    2: done.
    intros j. rewrite lookup_delete_is_Some, <- Hdom, elem_of_cons.
    split; [intros Hj; split; [congruence|by right]|intros [Hj [->|?]]; done].
Qed.

(** An entry found under a text is about that text. *)
Lemma cache_lookup c sql p :
  cache_ok c -> valid_str sql -> plans c !! encode_utf8 sql = Some p ->
  classify sql = Some (cp_command p) /\ (cp_analysis p = None \/ cp_analysis p = analyze_sql sql).
Proof.
  intros Hc Hs Hp. destruct (cache_entries c Hc _ _ Hp) as (t & Ht & He & Hr).
  apply encode_utf8_inj in He; naive_solver.
Qed.

(** What a plan for a text should be. *)
Definition plan_for (sql : str) (p : CachedSqlPlan) : Prop :=
  classify sql = Some (cp_command p) /\ (cp_analysis p = None \/ cp_analysis p = analyze_sql sql).

Lemma insert_plan_ok c sql needs c' p :
  cache_ok c -> valid_str sql -> insert_plan c sql needs = Ok (c', p) ->
  cache_ok c' /\ capacity c' = capacity c /\ plan_for sql p.
Proof.
  intros Hc Hs H. unfold insert_plan in H. apply bind_Ok_inv in H as (command & Hcmd & H).
  apply bind_Ok_inv in H as (a & Ha & H).
  assert (Hcl : classify sql = Some command).
  { destruct (plans c !! encode_utf8 sql) as [q|] eqn:E; simplify_eq.
    - by eapply cache_lookup.
    - destruct (classify sql); by simplify_eq/=. }
  assert (Hpl : plan_for sql {| cp_command := command; cp_analysis := a |}).
  { split; cbn; [done|]. destruct needs; cbn in Ha; [|simplify_eq; by left].
    right. destruct (analyze_sql sql); [by injection Ha|done]. }
  destruct (Nat.eqb_spec (capacity c) 0) as [|Hcap]; [by simplify_eq|].
  unfold evict_to_capacity in H. cbn in H.
  destruct (evict _ _ _) as [ps order] eqn:E. simplify_eq. cbn.
  destruct Hpl as [Hp1 Hp2].
  apply evict_ok in E as (H1 & H2 & H3 & H4).
  - by repeat split; cbn; try apply H1.
  - intros k. rewrite lookup_insert_is_Some.
    destruct (plans c !! encode_utf8 sql) eqn:Ek; [|rewrite elem_of_app, list_elem_of_singleton];
      rewrite (cache_order c Hc).
    + split; [|intros [<-|[_ ?]]; eauto]. intros ?.
      destruct (decide (encode_utf8 sql = k)); [by left|by right].
    + split; [intros [?| ->]; [|by left]|intros [<-|[_ ?]]; [by right|by left]].
      destruct (decide (encode_utf8 sql = k)); [by left|by right].
  - destruct (plans c !! encode_utf8 sql) eqn:Ek; [apply Hc|].
    apply NoDup_app; split_and!; [apply Hc| |by apply NoDup_singleton].
    intros k Hk ->%list_elem_of_singleton. apply (cache_order c Hc) in Hk as [? ?]. congruence.
  - apply map_Forall_insert_2; [|apply Hc]. by exists sql.
Qed.

Lemma get_or_insert_ok c sql needs c' p :
  cache_ok c -> valid_str sql -> get_or_insert c sql needs = Ok (c', p) ->
  cache_ok c' /\ capacity c' = capacity c /\ plan_for sql p.
Proof.
  intros Hc Hs H. unfold get_or_insert in H. destruct (plans c !! encode_utf8 sql) as [q|] eqn:E.
  - case_match; [|by eapply insert_plan_ok]. simplify_eq. split_and!; [done..|].
    by eapply cache_lookup.
  - by eapply insert_plan_ok.
Qed.

(** It fails exactly when the text has no plan. *)
Lemma get_or_insert_total c sql needs :
  cache_ok c -> valid_str sql ->
  match classify sql, analyze_sql sql with
  | Some _, Some _ => exists c' p, get_or_insert c sql needs = Ok (c', p)
  | None, _ => get_or_insert c sql needs = Panic
  | Some _, None => True
  end.
Proof.
  intros Hc Hs. unfold get_or_insert, insert_plan.
  destruct (plans c !! encode_utf8 sql) as [q|] eqn:E.
  - destruct (cache_lookup c sql q Hc Hs E) as [Hcl _]. rewrite Hcl.
    destruct (analyze_sql sql) as [a|]; [|done]. cbn.
    case_match; [eauto|]. destruct needs; cbn; case_match; eauto.
  - cbn. destruct (classify sql) as [cmd|]; [|done]. cbn.
    destruct (analyze_sql sql) as [a|]; [|done]. destruct needs; cbn; case_match; eauto.
Qed.
End CacheFacts.

Section Transparency.
(** What the rest of the proxy can see of a plan. *)
Definition view (p : RequestPlan) : str * SqlCommand * option SqlAnalysis * bool * bool :=
  (rp_sql p, rp_command p, plan_analysis p, updates_transaction_state p, updates_session_state p).

Definition views (r : result WireError (SqlPlanCache * list RequestPlan)) :=
  (fun cps : SqlPlanCache * list RequestPlan => map view (snd cps)) <$> r.

Lemma plan_new_view c sql tx session needs :
  cache_ok c -> valid_str sql ->
  (fun cp => view (snd cp)) <$> plan_new sql tx session needs c =
  match classify sql with
  | Some command => Ok (sql, command, analyze_sql sql, tx, session)
  | None => Panic
  end.
Proof.
  intros Hc Hs. unfold plan_new. pose proof (get_or_insert_total c sql needs Hc Hs) as Ht.
  destruct (classify sql) as [command|] eqn:Ec; [|by rewrite Ht].
  destruct (analyze_total sql) as [a Ha]. rewrite Ha in Ht. destruct Ht as (c' & p & Hp).
  rewrite Hp. cbn. apply get_or_insert_ok in Hp as (_ & _ & Hcl & Han); [|done..].
  unfold view, plan_analysis. cbn. rewrite Ec in Hcl. injection Hcl as <-.
  by destruct Han as [->| ->]; [|rewrite Ha].
Qed.

Lemma plan_new_ok c sql tx session needs c' p :
  cache_ok c -> valid_str sql -> plan_new sql tx session needs c = Ok (c', p) ->
  cache_ok c' /\ capacity c' = capacity c.
Proof.
  intros Hc Hs H. apply bind_Ok_inv in H as ([c1 q] & Hq & H). simplify_eq.
  apply get_or_insert_ok in Hq as (? & ? & _); done.
Qed.

Lemma parse_simple_query_valid f q : parse_simple_query f = Ok (Some q) -> valid_str q.
Proof.
  unfold parse_simple_query. case_match; [done|].
  destruct (read_cstr (payload f) 0) as [[s off]|?|] eqn:E; cbn; intros; simplify_eq.
  apply read_cstr_Ok in E as (? & ? & _ & _ & _ & Hv & _); [done|lia].
Qed.

Lemma plan_frame_ok prepared analyze c f c' ps :
  cache_ok c -> plan_frame prepared analyze c f = Ok (c', ps) ->
  cache_ok c' /\ capacity c' = capacity c.
Proof.
  intros Hc H. unfold plan_frame in H. apply bind_Ok_inv in H as ([q|] & Hq & H).
  { apply bind_Ok_inv in H as ([c1 p] & Hp & H). simplify_eq.
    eapply plan_new_ok; eauto using parse_simple_query_valid. }
  apply bind_Ok_inv in H as ([m|] & Hm & H); [|by simplify_eq].
  apply bind_Ok_inv in H as ([c1 p] & Hp & H). simplify_eq.
  apply parse_parse_message_inv in Hm as (? & _ & _ & _ & Hv & _). by eapply plan_new_ok.
Qed.

(** Two caches give the same views of a frame. *)
Lemma plan_frame_view prepared analyze c d f :
  cache_ok c -> cache_ok d ->
  views (plan_frame prepared analyze c f) =
  views (plan_frame prepared analyze d f).
Proof.
  intros Hc Hd. unfold plan_frame.
  assert (Hnew : forall q tx session, valid_str q ->
    views ('(c, p) ← plan_new q tx session analyze c; Ok (c, [p])) =
    views ('(c, p) ← plan_new q tx session analyze d; Ok (c, [p]))).
  { intros q tx session Hq. pose proof (plan_new_view c q tx session analyze Hc Hq) as H1.
    rewrite <- (plan_new_view d q tx session analyze Hd Hq) in H1.
    destruct (plan_new q tx session analyze c) as [[? p1]|?|],
             (plan_new q tx session analyze d) as [[? p2]|?|]; cbn [snd fmap result_fmap] in H1; try done.
    - unfold views. cbn -[view]. do 2 f_equal. congruence.
    - congruence. }
  destruct (parse_simple_query f) as [[q|]|e|] eqn:Eq; cbn [mbind result_bind]; [|..].
  - apply Hnew. by eapply parse_simple_query_valid.
  - destruct (parse_parse_message f) as [[m|]|e|] eqn:Em; cbn [mbind result_bind]; [|done..].
    apply Hnew. by apply parse_parse_message_inv in Em as (? & _ & _ & _ & Hv & _).
  - done.
  - done.
Qed.
(** The only plan of a cycle of simple queries that a replica may run is that
    of one message, whose text is made of reads. *)
Lemma single_read_plan prepared frames analyze c c' p a :
  cache_ok c -> request_plans_for_frames prepared frames analyze c = Ok (c', [p]) ->
  Forall (fun f => tag f = frontend_byte Query) frames ->
  plan_analysis p = Some a -> routes_to_replica (an_query_class a) = true ->
  exists f q, frames = [f] /\ parse_simple_query f = Ok (Some q) /\ reads_only q.
Proof.
  intros Hc H Hq Ha Hr.
  assert (forall f c c1 ps, cache_ok c -> tag f = frontend_byte Query -> plan_frame prepared analyze c f = Ok (c1, ps) ->
    exists q p, parse_simple_query f = Ok (Some q) /\ ps = [p] /\ plan_analysis p = analyze_sql q) as Hone.
  { clear. intros f c c1 ps Hc Hf H. unfold plan_frame in H. apply bind_Ok_inv in H as ([q|] & Hq & H).
    2:{ unfold parse_simple_query in Hq. rewrite Hf, Z.eqb_refl in Hq. by destruct (read_cstr _ _). }
    apply bind_Ok_inv in H as ([c2 p] & Hp & H). injection H as <- <-. exists q, p. split_and!; [done..|].
    pose proof (plan_new_view c q true true analyze Hc ltac:(by eapply parse_simple_query_valid)) as Hv.
    rewrite Hp in Hv. cbn -[view] in Hv. destruct (classify q); [|done]. by injection Hv. }
  destruct Hq as [|f frames Hf Hq]; [done|]. cbn in H. apply bind_Ok_inv in H as ([c1 ps] & H1 & H).
  apply bind_Ok_inv in H as ([c2 rest] & H2 & H). injection H as <- Hps.
  pose proof (plan_frame_ok _ _ _ _ _ _ Hc H1) as [Hc1 _]. apply Hone in H1 as (q & p0 & Hs & -> & Hp); [|done..].
  injection Hps as <- ->. exists f, q. split_and!; [|done|eapply analysis_reads_only; [by rewrite <- Hp|done]].
  destruct Hq as [|g frames Hg Hq]; [done|]. exfalso. cbn in H2. apply bind_Ok_inv in H2 as ([c3 ps] & H3 & H2).
  apply bind_Ok_inv in H2 as ([c4 rest] & _ & H2). apply Hone in H3 as (? & ? & _ & -> & _); [|done..]. by injection H2.
Qed.
End Transparency.

(** The plan cache is invisible: over any history the cache is bounded
    by its capacity and holds at most one entry per text, and the plans of a
    cycle (statement texts, commands, analyses, failures) are those computed
    with caching turned off. *)
Theorem plans_ignore_cache prepared frames analyze c :
  cache_ok c ->
  views (request_plans_for_frames prepared frames analyze c) =
  views (request_plans_for_frames prepared frames analyze (cache_new 0)) /\
  forall c' ps, request_plans_for_frames prepared frames analyze c = Ok (c', ps) ->
    cache_ok c' /\ capacity c' = capacity c.
Proof.
  assert (Hgen : forall d, cache_ok c -> cache_ok d ->
    views (request_plans_for_frames prepared frames analyze c) =
    views (request_plans_for_frames prepared frames analyze d)).
  { revert c. induction frames as [|f frames IH]; intros c d Hc Hd; cbn; [done|].
    pose proof (plan_frame_view prepared analyze c d f Hc Hd) as Hv.
    destruct (plan_frame prepared analyze c f) as [[c1 ps]|?|] eqn:E1,
             (plan_frame prepared analyze d f) as [[d1 qs]|?|] eqn:E2; cbn in *; simplify_eq; try done.
    apply plan_frame_ok in E1 as [Hc1 _]; [|done]. apply plan_frame_ok in E2 as [Hd1 _]; [|done].
    specialize (IH c1 d1 Hc1 Hd1).
    destruct (request_plans_for_frames prepared frames analyze c1) as [[? ?]|?|],
             (request_plans_for_frames prepared frames analyze d1) as [[? ?]|?|];
      cbn in *; simplify_eq; try done. rewrite !map_app. congruence. }
  intros Hc. split; [apply Hgen; [done|apply cache_new_ok]|]. clear Hgen.
  revert c Hc. induction frames as [|f frames IH]; intros c Hc c' ps H; cbn in H; [by simplify_eq|].
  apply bind_Ok_inv in H as ([c1 ps1] & H1 & H). apply bind_Ok_inv in H as ([c2 ps2] & H2 & H).
  simplify_eq. apply plan_frame_ok in H1 as [Hc1 Hcap]; [|done].
  destruct (IH c1 Hc1 _ _ H2) as [? ?]. split; congruence.
Qed.

Section PlanExamples.
Definition query_of (sql : string) : FrontendFrame :=
  {| tag := frontend_byte Query; payload := write_cstr (lit sql) |}.

Lemma plans_ignore_cache_witness :
  let frames := [query_of "begin"; query_of "select 1"; query_of "begin"] in
  cache_ok (cache_new 1) /\
  views (request_plans_for_frames (catalog_new 7) frames true (cache_new 1)) =
  views (request_plans_for_frames (catalog_new 7) frames true (cache_new 0)) /\
  (length <$> result_ok (views (request_plans_for_frames (catalog_new 7) frames true (cache_new 1))))
  = Some 3%nat.
Proof.
  cbv zeta. split_and!; [apply cache_new_ok| |by vm_compute].
  apply (plans_ignore_cache (catalog_new 7) [query_of "begin"; query_of "select 1"; query_of "begin"]
           true (cache_new 1)). apply cache_new_ok.
Defined.
End PlanExamples.
