(* ===== verification/Guardrails.v ===== *)
(** * Guardrails: statements a deployment refuses

    Models [pg-kinetic-proxy/src/guardrails.rs] and [guardrail_denial] of
    [proxy/client_session.rs]: a registry with a bounded allowlist of
    fingerprints that is reloaded when its file changes, and bounded counts
    of the fingerprints seen. The file system is an argument: what each
    query of the file answers. The order in which a [HashMap] lists its keys
    is unspecified: [first_key] is a parameter. *)

From S2P Require Import Prelude Text RoutingTypes SqlClassify Fingerprint.

Definition MAX_ALLOWLIST_ENTRIES : Z := 256.
Definition MAX_ENTRY_BYTES : Z := 256.
Definition MAX_OBSERVATIONS : nat := 256.
Definition MAX_ALLOWLIST_BYTES : Z := 128 * 1024.

Inductive GuardrailMode := GuardOff | GuardObserve | GuardEnforce.
#[global] Instance GuardrailMode_eq_dec : EqDecision GuardrailMode.
Proof. solve_decision. Defined.

Record GuardrailsConfig := {
  guard_mode : GuardrailMode;
  block_unqualified_dml : bool;
  block_ddl : bool;
  allowlist_file : option str;
}.

Inductive GuardrailRule := UnqualifiedDml | Ddl | UnknownFingerprint.
Inductive GuardrailDecision := GuardAllow | GuardDeny (rule : GuardrailRule).

Record GuardrailRegistry := {
  guard_config : GuardrailsConfig;
  allowlist : gset str;
  observations : gmap str Z;
  loaded_mtime : option Z;
}.

Inductive GuardrailError :=
| AllowlistIo
| AllowlistTooLarge
| AllowlistTooManyEntries
| AllowlistInvalidFingerprint.

(** ** Loading the allowlist *)

(** The answers of the file system: [metadata], [read_to_string] and the
    second [metadata] of [load_allowlist], and the [metadata] of
    [refresh_allowlist_if_changed]; [None] is an I/O error. *)
Record FileView := {
  view_len : option Z;
  view_content : option str;
  view_mtime : option Z;
  view_current_mtime : option Z;
}.

(** [char::is_control]. *)
Definition is_control (c : Z) : bool := (c <=? 31) || ((127 <=? c) && (c <=? 159)).

(** The loop of [load_allowlist]. *)
Fixpoint allowlist_entries (ls : list str) (entries : gset str) : result GuardrailError (gset str) :=
  match ls with
  | [] => Ok entries
  | line :: ls =>
      let line := trim line in
      if bool_decide (line = []) || starts_with [35] line then allowlist_entries ls entries
      else if MAX_ALLOWLIST_ENTRIES <=? Z.of_nat (size entries) then Err AllowlistTooManyEntries
      else if (MAX_ENTRY_BYTES <? str_len line) || existsb is_control line
      then Err AllowlistInvalidFingerprint
      else allowlist_entries ls ({[line]} ∪ entries)
  end.

Definition load_allowlist (v : FileView) : result GuardrailError (gset str * Z) :=
  size ← ok_or (view_len v) AllowlistIo;
  if MAX_ALLOWLIST_BYTES <? size then Err AllowlistTooLarge
  else
    content ← ok_or (view_content v) AllowlistIo;
    mtime ← ok_or (view_mtime v) AllowlistIo;
    entries ← allowlist_entries (lines content) ∅;
    Ok (entries, mtime).

Definition reload_allowlist (r : GuardrailRegistry) (v : FileView) : result GuardrailError GuardrailRegistry :=
  match allowlist_file (guard_config r) with
  | None => Ok r
  | Some _ =>
      '(entries, mtime) ← load_allowlist v;
      Ok {| guard_config := guard_config r; allowlist := entries; observations := observations r;
            loaded_mtime := Some mtime |}
  end.

(** [GuardrailRegistry::from_config]. *)
Definition registry_new (c : GuardrailsConfig) (v : FileView) : result GuardrailError GuardrailRegistry :=
  reload_allowlist {| guard_config := c; allowlist := ∅; observations := ∅; loaded_mtime := None |} v.

Definition refresh_allowlist_if_changed (r : GuardrailRegistry) (v : FileView) : GuardrailRegistry :=
  match allowlist_file (guard_config r), view_current_mtime v with
  | Some _, Some mtime =>
      if bool_decide (loaded_mtime r = Some mtime) then r
      else match reload_allowlist r v with Ok r => r | _ => r end
  | _, _ => r
  end.

(** ** Evaluation *)

(** The key a [HashMap] lists first. *)
Class KeyOrder := {
  first_key : gmap str Z -> option str;
  first_key_elem : forall m k, first_key m = Some k -> is_Some (m !! k);
  first_key_none : forall m, first_key m = None -> m = ∅;
}.

Section Evaluate.
Context `{KeyOrder}.

(** Counting a fingerprint; one entry makes room when the map is full. *)
Definition observe_fingerprint (m : gmap str Z) (fingerprint : str) : gmap str Z :=
  let m := if (MAX_OBSERVATIONS <=? size m)%nat && bool_decide (m !! fingerprint = None)
           then match first_key m with Some oldest => delete oldest m | None => m end
           else m in
  <[fingerprint := wrap_u 64 (default 0 (m !! fingerprint) + 1)]> m.

(** [evaluate]; [None] when the fingerprint panics. *)
Definition evaluate (r : GuardrailRegistry) (v : FileView) (a : SqlAnalysis) (sql : str)
    : option (GuardrailRegistry * GuardrailDecision) :=
  let c := guard_config r in
  let enforce := bool_decide (guard_mode c = GuardEnforce) in
  if bool_decide (guard_mode c = GuardOff) then Some (r, GuardAllow)
  else
    let r := refresh_allowlist_if_changed r v in
    fingerprint ← fingerprint_sql sql;
    let r := if bool_decide (fingerprint = []) then r
             else {| guard_config := guard_config r; allowlist := allowlist r;
                     observations := observe_fingerprint (observations r) fingerprint;
                     loaded_mtime := loaded_mtime r |} in
    Some (r,
      if block_unqualified_dml c && bool_decide (an_query_class a = Write) && is_unqualified_dml sql && enforce
      then GuardDeny UnqualifiedDml
      else if block_ddl c && is_ddl sql && enforce then GuardDeny Ddl
      else if enforce && (bool_decide (fingerprint = []) || bool_decide (fingerprint ∉ allowlist r))
      then GuardDeny UnknownFingerprint
      else GuardAllow).

(** [guardrail_denial]: a proxy may have no registry. *)
Definition guardrail_denial (r : option GuardrailRegistry) (v : FileView) (a : SqlAnalysis) (sql : str)
    : option (option GuardrailRegistry * option GuardrailRule) :=
  match r with
  | None => Some (None, None)
  | Some r =>
      '(r, d) ← evaluate r v a sql;
      Some (Some r, match d with GuardAllow => None | GuardDeny rule => Some rule end)
  end.

(** ** Facts *)

Definition entry_valid (line : str) : Prop :=
  line <> [] /\ str_len line <= MAX_ENTRY_BYTES /\ existsb is_control line = false.

Definition allowlist_ok (s : gset str) : Prop :=
  Z.of_nat (size s) <= MAX_ALLOWLIST_ENTRIES /\ set_Forall entry_valid s.

Lemma allowlist_entries_ok ls s s' :
  allowlist_ok s -> allowlist_entries ls s = Ok s' -> allowlist_ok s'.
Proof.
  revert s. induction ls as [|line ls IH]; intros s Hs E; cbn in E; [by simplify_eq|].
  destruct (bool_decide (trim line = []) || _) eqn:E1; [by eapply IH|].
  destruct (Z.leb_spec MAX_ALLOWLIST_ENTRIES (Z.of_nat (size s))) as [|Hroom]; [done|].
  destruct ((MAX_ENTRY_BYTES <? _) || _) eqn:E2; [done|].
  apply orb_false_iff in E2 as [Hl Hc], E1 as [Hne%bool_decide_eq_false _].
  eapply IH; [|exact E]. destruct Hs as [Hn Hv]. split.
  - pose proof (size_union_alt {[trim line]} s) as ->. rewrite size_singleton.
    pose proof (subseteq_size (s ∖ {[trim line]}) s ltac:(set_solver)). lia.
  - apply set_Forall_union; [|done]. apply set_Forall_singleton. split_and!; [done|lia|done].
Qed.

Lemma reload_allowlist_ok r v r' :
  allowlist_ok (allowlist r) -> reload_allowlist r v = Ok r' ->
  allowlist_ok (allowlist r') /\ guard_config r' = guard_config r /\ observations r' = observations r.
Proof.
  unfold reload_allowlist. intros Hr E. destruct (allowlist_file _); [|by simplify_eq].
  apply bind_Ok_inv in E as ([s m] & El & E). simplify_eq. cbn. split_and!; [|done..].
  unfold load_allowlist in El. apply bind_Ok_inv in El as (? & _ & El). case_match; [done|].
  apply bind_Ok_inv in El as (? & _ & El). apply bind_Ok_inv in El as (? & _ & El).
  apply bind_Ok_inv in El as (s' & El & E). simplify_eq.
  eapply allowlist_entries_ok; [|done]. split; [rewrite size_empty; unfold MAX_ALLOWLIST_ENTRIES; lia|].
  by apply set_Forall_empty.
Qed.

Lemma refresh_ok r v :
  allowlist_ok (allowlist r) ->
  let r' := refresh_allowlist_if_changed r v in
  allowlist_ok (allowlist r') /\ guard_config r' = guard_config r /\ observations r' = observations r /\
  (forall e, load_allowlist v = Err e -> r' = r).
Proof.
  intros Hr. cbv zeta. unfold refresh_allowlist_if_changed.
  destruct (allowlist_file _) eqn:Ef, (view_current_mtime v); try done.
  case_match; [done|]. destruct (reload_allowlist r v) as [r'|?|] eqn:E; try done.
  split_and!; try by eapply reload_allowlist_ok.
  intros e He. unfold reload_allowlist in E. by rewrite Ef, He in E.
Qed.

Lemma observe_fingerprint_bound m f :
  (size m <= MAX_OBSERVATIONS)%nat -> (size (observe_fingerprint m f) <= MAX_OBSERVATIONS)%nat.
Proof.
  intros Hm. unfold observe_fingerprint. rewrite map_size_insert.
  destruct (Nat.leb_spec MAX_OBSERVATIONS (size m)) as [Hfull|]; cbn [andb].
  - destruct (m !! f) eqn:E; case_bool_decide; try done; [by rewrite E|].
    destruct (first_key m) as [k|] eqn:Ek.
    + destruct (first_key_elem m k Ek) as [x Hx]. rewrite map_size_delete, Hx.
      rewrite lookup_delete_ne by congruence. rewrite E. unfold MAX_OBSERVATIONS in *. lia.
    + apply first_key_none in Ek as ->. rewrite map_size_empty in Hfull. unfold MAX_OBSERVATIONS in *. lia.
  - cbv iota. destruct (m !! f); unfold id; lia.
Qed.
End Evaluate.

(** What guardrails let through: unless they are enforced nothing is
    refused; when they are, a statement passes exactly when its fingerprint
    is on the current allowlist and no enabled rule against unqualified
    writes or DDL applies. The allowlist and the observations stay within
    their bounds, and a file that does not load leaves the allowlist as it
    was. *)
Theorem guardrail_exact `{KeyOrder} r v a sql r' d :
  allowlist_ok (allowlist r) -> (size (observations r) <= MAX_OBSERVATIONS)%nat ->
  evaluate r v a sql = Some (r', d) ->
  let c := guard_config r in
  (guard_mode c <> GuardEnforce -> d = GuardAllow) /\
  (guard_mode c = GuardEnforce ->
    (d = GuardAllow <->
     exists fp, fingerprint_sql sql = Some fp /\ fp <> [] /\ fp ∈ allowlist r' /\
       ~ (block_unqualified_dml c = true /\ an_query_class a = Write /\ is_unqualified_dml sql = true) /\
       ~ (block_ddl c = true /\ is_ddl sql = true))) /\
  allowlist_ok (allowlist r') /\ (size (observations r') <= MAX_OBSERVATIONS)%nat /\
  guard_config r' = c /\ (forall e, load_allowlist v = Err e -> allowlist r' = allowlist r).
Proof.
  intros Hl Ho He. cbv zeta. unfold evaluate in He.
  case_bool_decide as Hoff; [simplify_eq; rewrite Hoff; by split_and!|].
  destruct (refresh_ok r v Hl) as (Hl' & Hc' & Ho' & Hk).
  destruct (fingerprint_sql sql) as [fp|]; [|done].
  apply (inj Some) in He. apply pair_eq in He as [<- <-].
  assert (Hobs : forall b : bool, (size (observations
    (if b then refresh_allowlist_if_changed r v else
       {| guard_config := guard_config (refresh_allowlist_if_changed r v);
          allowlist := allowlist (refresh_allowlist_if_changed r v);
          observations := observe_fingerprint (observations (refresh_allowlist_if_changed r v)) fp;
          loaded_mtime := loaded_mtime (refresh_allowlist_if_changed r v) |}))
     <= MAX_OBSERVATIONS)%nat).
  { intros []; [by rewrite Ho'|]. apply observe_fingerprint_bound. by rewrite Ho'. }
  split_and!; [| |by case_bool_decide|apply Hobs|by case_bool_decide|].
  - intros Hm. rewrite (bool_decide_eq_false_2 _ Hm), !andb_false_r. done.
  - intros Hm. rewrite (bool_decide_eq_true_2 _ Hm), !andb_true_r.
    destruct (decide (fp = [])) as [->|Hne]; [rewrite orb_true_l; cbn; split; [|naive_solver]; by repeat case_match|].
    rewrite (bool_decide_eq_false_2 _ Hne). cbn.
    destruct (block_unqualified_dml _), (is_unqualified_dml sql), (block_ddl _), (is_ddl sql);
      do 2 case_bool_decide; cbn; (split; [|naive_solver]); intros; try done; eexists; naive_solver.
  - intros e Hee. case_bool_decide; cbn; by rewrite (Hk e Hee).
Qed.

Section GuardrailExample.
#[local] Instance toy_order : KeyOrder.
Proof.
  refine {| first_key := fun m => fst <$> head (map_to_list m) |}.
  - intros m k E. destruct (map_to_list m) as [|[j x] l] eqn:Em; simplify_eq/=. exists x.
    apply elem_of_map_to_list. rewrite Em. by left.
  - intros m E. destruct (map_to_list m) as [|[j x] l] eqn:Em; simplify_eq/=.
    by apply map_to_list_empty_iff.
Defined.

Definition toy_registry : GuardrailRegistry :=
  {| guard_config := {| guard_mode := GuardEnforce; block_unqualified_dml := true; block_ddl := true;
                        allowlist_file := None |};
     allowlist := {[lit "select ?"]}; observations := ∅; loaded_mtime := None |}.
Definition toy_file : FileView :=
  {| view_len := None; view_content := None; view_mtime := None; view_current_mtime := None |}.

Lemma guardrail_exact_witness :
  (exists r', evaluate toy_registry toy_file {| an_query_class := ReadCandidate; an_routing_hint := HintNone |}
                (lit "SELECT 1") = Some (r', GuardAllow)) /\
  exists fp, fingerprint_sql (lit "SELECT 1") = Some fp /\ fp <> [].
Proof.
  assert (He : exists r', evaluate toy_registry toy_file
     {| an_query_class := ReadCandidate; an_routing_hint := HintNone |} (lit "SELECT 1") = Some (r', GuardAllow))
    by (eexists; vm_compute; reflexivity).
  split; [exact He|]. destruct He as [r' He].
  assert (Hl : allowlist_ok (allowlist toy_registry)).
  { split; [by vm_compute|]. cbn [allowlist toy_registry]. apply set_Forall_singleton. repeat split; by vm_compute. }
  destruct (guardrail_exact _ _ _ _ _ _ Hl ltac:(vm_compute; lia) He) as (_ & Hd & _).
  destruct (proj1 (Hd eq_refl) eq_refl) as (fp & ? & ? & _). eauto.
Defined.
End GuardrailExample.
