(* ===== verification/Checkout.v ===== *)
(** * Checkout: which server a cycle is sent to

    Models [pg-kinetic-proxy/src/proxy/checkout.rs] without its I/O and
    [wait_for_checkout_target] of [proxy.rs]: the route of a client, the
    startup packet servers are shown, the choice of a target for a cycle and
    the errors a client is told. The pools' shared state is the [World] of
    Pools.v; the health snapshots are those the monitor last published.
    [bootstrap_backend] and the warm-up task are I/O. *)

From S2P Require Import Prelude Text Protocol Frame Startup Secrets Auth Lsn RoutingTypes Route Policy.
From S2P Require Import Sql SqlClassify Session ReadRouting Prepare Resilience Backpressure Pool Pools RequestPlan.

Definition CANNOT_CONNECT_NOW_SQLSTATE : str := lit "57P03".
Definition CONNECTION_FAILURE_SQLSTATE : str := lit "08006".
Definition POLICY_DENY_SQLSTATE : str := lit "P0001".
Definition REPLICA_UNAVAILABLE_MESSAGE : str := lit "no healthy replica available".

(** ** The client's route *)

Definition startup_parameter (parameters : list (str * str)) (key : str) : option str :=
  snd <$> List.find (fun p => eq_ignore_ascii_case (fst p) key) parameters.

Definition startup_route_key (packet : bytes) : result error (str * str * option str) :=
  startup ← context "parse startup packet" (map_err EWire (parse_startup_packet packet));
  match startup with
  | Startup _ _ parameters =>
      database ← some_or (startup_parameter parameters (lit "database")) "startup packet missing database";
      user ← some_or (startup_parameter parameters (lit "user")) "startup packet missing user";
      Ok (database, user, startup_parameter parameters (lit "application_name"))
  | _ => fail "unexpected startup packet kind"
  end.

Definition route_key (database user : str) (application_name : option str) (client_addr : SocketAddr)
    : RouteKey :=
  route_key_new database user application_name (Some client_addr) RouteClass.Default.

(** The parameters as [rewrite_backend_startup_user] writes them. *)
Definition with_backend_user (user : str) (p : str * str) : str * str :=
  (fst p, if eq_ignore_ascii_case (fst p) (lit "user") then user else snd p).

Definition rewrite_backend_startup_user (packet : bytes) (backend_user : option str)
    : result error bytes :=
  match backend_user with
  | None => Ok packet
  | Some backend_user =>
      startup ← context "parse backend startup packet" (map_err EWire (parse_startup_packet packet));
      match startup with
      | Startup protocol_major protocol_minor parameters =>
          let version := Z.lor (wrap_i 32 (Z.shiftl protocol_major 16)) (Z.land protocol_minor 65535) in
          let body := put_i32 version
            ++ (parameters ≫= fun p => encode_utf8 (fst p) ++ [0]
                                    ++ encode_utf8 (snd (with_backend_user backend_user p)) ++ [0]) in
          _ ← ensure (existsb (fun p => eq_ignore_ascii_case (fst p) (lit "user")) parameters)
                "startup packet missing user";
          let body := body ++ [0] in
          Ok (put_i32 (wrap_i 32 (len body + 4)) ++ body)
      | _ => fail "unexpected startup packet kind"
      end
  end.

(** ** Choosing the target *)

(** What the health monitor published for an endpoint. *)
Record ReplicaHealthSnapshot := {
  endpoint_id : Z;
  hs_replay_lsn : option PgLsn;
  lag_duration_ms : option Z;
  split_brain_warning : bool;
}.

(** One candidate of [build_route_health_snapshot]. *)
Definition replica_candidate (w : World) (now : Z) (snapshots : list ReplicaHealthSnapshot)
    (replica : BackendPoolRef) : World * ReplicaCandidate :=
  let replica_health := List.find (fun s => endpoint_id s =? ref_id replica) snapshots in
  let '(w, ok) := is_healthy w now replica in
  (w, {| replica_id := ref_id replica; healthy := ok;
         split_brain := match replica_health with Some s => split_brain_warning s | None => false end;
         replay_lsn := replica_health ≫= hs_replay_lsn;
         lag_ms := Z.min U64_MAX <$> (replica_health ≫= lag_duration_ms) |}).

Fixpoint build_route_health_snapshot (w : World) (now : Z) (snapshots : list ReplicaHealthSnapshot)
    (replicas : list BackendPoolRef) : World * list ReplicaCandidate :=
  match replicas with
  | [] => (w, [])
  | replica :: replicas =>
      let '(w, candidate) := replica_candidate w now snapshots replica in
      let '(w, candidates) := build_route_health_snapshot w now snapshots replicas in
      (w, candidate :: candidates)
  end.

Definition checkout_fallback_target (mode : ReadRoutingMode) (policy : FallbackPolicy) : RoutingTarget :=
  match mode with
  | RequireReplica => ToReject TRequireReplicaMode
  | _ =>
      match policy with
      | FallbackToPrimary => ToPrimary TFallbackPrimary
      | FallbackRejects => ToReject TFallbackReject
      | FallbackWaits => ToWait TFallbackWait
      end
  end.

Definition routing_reason_from_core (r : RoutingReason) : TargetReason :=
  match r with
  | ROff => TOff
  | RPrimaryOnlyMode => TPrimaryOnlyMode
  | RPreferReplicaMode => TReadCandidateQuery
  | RRequireReplicaMode => TRequireReplicaMode
  | RWriteQuery => TWriteQuery
  | RReadOnlyQuery => TReadOnlyQuery
  | RReadCandidateQuery => TReadCandidateQuery
  | RTransactionControl => TTransactionControl
  | RSessionMutation => TSessionMutation
  | RCopy => TCopyQuery
  | RUnknownQuery => TUnknownQuery
  | RFreshnessRequired => TFreshnessRequired
  | RReplicaStale => TReplicaStale
  | RReplicaUnavailable => TReplicaUnavailable
  | RFallbackPrimary => TFallbackPrimary
  | RFallbackReject => TFallbackReject
  | RFallbackWait => TFallbackWait
  end.

Definition apply_policy_before_routing_target (planner : ReadRoutingPlanner) (c : RoutingContext)
    (action : option PolicyAction) : option RoutingTarget :=
  apply_policy_action_to_routing_target planner c None action.
Definition apply_policy_after_routing_target (planner : ReadRoutingPlanner) (c : RoutingContext)
    (current : RoutingTarget) (action : option PolicyAction) : option RoutingTarget :=
  apply_policy_action_to_routing_target planner c (Some current) action.
Definition apply_policy_before_checkout_target (planner : ReadRoutingPlanner) (c : RoutingContext)
    (current : RoutingTarget) (action : option PolicyAction) : option RoutingTarget :=
  apply_policy_after_routing_target planner c current action.

Definition apply_policy_action_to_routing_target_with_mode (planner : ReadRoutingPlanner)
    (c : RoutingContext) (current : option RoutingTarget) (action : option PolicyAction)
    (mode : PolicyMode) : option RoutingTarget :=
  current ← match current with Some t => Some t | None => choose_routing_target planner c end;
  match mode with
  | PolicyEnforce => apply_policy_action_to_routing_target planner c (Some current) action
  | PolicyDisabled | PolicyDryRun => Some current
  end.

(** [ReadRoutingSelection]: the snapshot store is what it answers. *)
Record ReadRoutingSelection := {
  sel_planner : ReadRoutingPlanner;
  sel_pools : RoutePools;
  sel_snapshots : list ReplicaHealthSnapshot;
  sel_mode : ReadRoutingMode;
  sel_fallback : FallbackPolicy;
  sel_session : Virtual.VirtualSession;
  sel_plan : option RequestPlan;
}.

Definition transaction_cross_shard_violation (s : Virtual.VirtualSession) : bool :=
  match Virtual.transaction_shard s with Some sh => cross_shard_violation sh | None => false end.
Definition current_transaction_route_reason (s : Virtual.VirtualSession) : option RoutingReason :=
  route_reason <$> Virtual.read_routing_transaction s.

(** The target inside a transaction. *)
Definition transaction_target (w : World) (now : Z) (sel : ReadRoutingSelection) (role : BackendRole)
    : World * RoutingTarget :=
  let reason := match current_transaction_route_reason (sel_session sel) with
                | Some r => routing_reason_from_core r
                | None => TTransactionControl
                end in
  match role with
  | Primary => (w, ToPrimary reason)
  | Replica =>
      let '(w, chosen) := select w now (rp_selector (sel_pools sel)) (rp_replicas (sel_pools sel)) in
      match chosen with
      | Some replica =>
          let '(w, ok) := is_healthy w now replica in
          (w, ToReplica {| replica_id := ref_id replica; healthy := ok; split_brain := false;
                           replay_lsn := None; lag_ms := None |} reason)
      | None => (w, checkout_fallback_target (sel_mode sel) (sel_fallback sel))
      end
  | UnknownRole => (w, ToPrimary TUnknownQuery)
  end.

(** The rest of [select_checkout_target], given the routing context. *)
Definition target_in_context (w : World) (now : Z) (sel : ReadRoutingSelection) (c : RoutingContext)
    : World * option RoutingTarget :=
  let planner := sel_planner sel in
  let checked t := apply_policy_before_checkout_target planner c t None in
  match apply_policy_before_routing_target planner c None with
  | None => (w, None)
  | Some (ToReject TPolicyDenied) => (w, Some (ToReject TPolicyDenied))
  | Some _ =>
      match sel_mode sel with
      | ModeOff => (w, checked (ToPrimary TOff))
      | PrimaryOnly => (w, checked (ToPrimary TPrimaryOnlyMode))
      | PreferReplica | RequireReplica =>
          if transaction_cross_shard_violation (sel_session sel)
          then (w, checked (ToReject TFallbackReject))
          else
            match Virtual.current_transaction_target_role (sel_session sel) with
            | Some role =>
                let '(w, target) := transaction_target w now sel role in
                (w, t ← apply_policy_after_routing_target planner c target None; checked t)
            | None =>
                (w, t ← choose_routing_target planner c;
                    t ← apply_policy_after_routing_target planner c t None; checked t)
            end
      end
  end.

(** The text and the analysis of the cycle's first statement. *)
Definition selection_text (sel : ReadRoutingSelection) : str * option SqlAnalysis :=
  match sel_plan sel with
  | Some p => (rp_sql p, plan_analysis p)
  | None => ([], analyze_sql [])
  end.

(** The context the planner is asked in. *)
Definition selection_context (sel : ReadRoutingSelection) (candidates : list ReplicaCandidate)
    (a : SqlAnalysis) : RoutingContext :=
  {| ctx_sql := fst (selection_text sel); transaction_state := TxIdle;
     read_after_write_state := Virtual.read_after_write (sel_session sel);
     ReadRouting.health := candidates; ReadRouting.analysis := Some a |}.

(** [select_checkout_target]; [None] when the analysis of the text panics. *)
Definition select_checkout_target (w : World) (now : Z) (sel : ReadRoutingSelection)
    : World * option RoutingTarget :=
  match snd (selection_text sel) with
  | None => (w, None)
  | Some a =>
      let '(w, candidates) :=
        build_route_health_snapshot w now (sel_snapshots sel) (rp_replicas (sel_pools sel)) in
      target_in_context w now sel (selection_context sel candidates a)
  end.

(** ** Waiting for a replica *)

(** [wait_for_checkout_target]: [polls] are the shared state, the clock and
    the published health at each wake-up, up to the last one before the time
    is up. *)
Fixpoint wait_loop (polls : list (World * Z * list ReplicaHealthSnapshot))
    (sel : list ReplicaHealthSnapshot -> ReadRoutingSelection) (target : RoutingTarget)
    : option RoutingTarget :=
  match target, polls with
  | ToWait TFallbackWait, (w, now, snapshots) :: polls =>
      target ← snd (select_checkout_target w now (sel snapshots)); wait_loop polls sel target
  | _, _ => Some target
  end.

Definition wait_for_checkout_target (polls : list (World * Z * list ReplicaHealthSnapshot))
    (sel : list ReplicaHealthSnapshot -> ReadRoutingSelection) (w : World) (now : Z)
    (snapshots : list ReplicaHealthSnapshot) : option RoutingTarget :=
  target ← snd (select_checkout_target w now (sel snapshots));
  target ← wait_loop polls sel target;
  Some (match target with
        | ToWait TFallbackWait => checkout_fallback_target (sel_mode (sel snapshots)) FallbackToPrimary
        | t => t
        end).

(** ** What a client is told *)

Inductive CheckoutFailure :=
| Overload (message : str)
| PostgresFailure (sqlstate message : str)
| CloseClient
| Fatal (e : error).

Definition checkout_postgres_error_for_target (t : RoutingTarget) : option (str * str) :=
  match t with
  | ToReject TPolicyDenied => Some (POLICY_DENY_SQLSTATE, lit "policy denied")
  | ToReject _ => Some (CANNOT_CONNECT_NOW_SQLSTATE, REPLICA_UNAVAILABLE_MESSAGE)
  | ToWait _ | ToPrimary _ | ToReplica _ _ => None
  end.

(** A target that needs no pool is refused before one is asked. *)
Definition refused_target (t : RoutingTarget) : option CheckoutFailure :=
  match t with
  | ToWait _ => Some (Overload (lit "backend checkout is waiting for a replica"))
  | ToReject _ =>
      let '(sqlstate, message) :=
        default (CANNOT_CONNECT_NOW_SQLSTATE, REPLICA_UNAVAILABLE_MESSAGE)
          (checkout_postgres_error_for_target t) in
      Some (PostgresFailure sqlstate message)
  | ToPrimary _ | ToReplica _ _ => None
  end.

Definition failure_of_pool_error (e : PoolError) (connect_error : error) (ctx : str) : CheckoutFailure :=
  match e with
  | BackpressureFailure QueueFull => Overload (lit "backend checkout queue is full")
  | BackpressureFailure Timeout => Overload (lit "backend checkout timed out")
  | BackpressureFailure Closed => CloseClient
  | CircuitOpen => PostgresFailure CANNOT_CONNECT_NOW_SQLSTATE (lit "backend temporarily unavailable")
  | ConnectFailure => Fatal (EContext ctx connect_error)
  end.

(** ** Facts: the candidates and the policies *)

Section CheckoutFacts.
Lemma build_snapshot_spec now snapshots rs w :
  same_health now w (fst (build_route_health_snapshot w now snapshots rs)) /\
  forall d, d ∈ snd (build_route_health_snapshot w now snapshots rs) ->
    exists ref, ref ∈ rs /\ replica_id d = ref_id ref /\ healthy d = ok_now w now ref /\
      split_brain d = match List.find (fun s => endpoint_id s =? ref_id ref) snapshots with
                      | Some s => split_brain_warning s
                      | None => false
                      end.
Proof.
  revert w. induction rs as [|r rs IH]; intros w; cbn [build_route_health_snapshot].
  { split; [apply same_health_refl|]. intros d Hd. by apply elem_of_nil in Hd. }
  unfold replica_candidate. destruct (is_healthy_spec w now r) as (Ho & Hs & _).
  destruct (is_healthy w now r) as [w1 ok]. cbn [fst snd] in *. subst ok.
  destruct (IH w1) as [Hs2 Hd2].
  destruct (build_route_health_snapshot w1 now snapshots rs) as [w2 ds]. cbn [fst snd] in *.
  split; [by eapply same_health_trans|].
  intros d [->|Hd]%elem_of_cons; [exists r; split_and!; [by left|done..]|].
  destruct (Hd2 d Hd) as (ref & Hin & Hid & Hh & Hsb). exists ref.
  split_and!; [by right|done| |done]. rewrite Hh. by apply same_health_ok.
Qed.

(** With no action the policies change nothing: a decision of the planner
    stays, and so does any target that is not a replica. *)
Lemma policy_none_choose planner c a :
  ctx_analysis c = Some a ->
  apply_policy_action_to_routing_target planner c (Some (choose planner c a)) None
  = Some (choose planner c a).
Proof.
  intros Ha. unfold apply_policy_action_to_routing_target. cbn [mbind option_bind].
  unfold ensure_policy_action_target_is_safe, choose_routing_target. rewrite Ha.
  cbn [mbind option_bind]. destruct (choose planner c a); try done. by case_match.
Qed.

Lemma policy_none_other planner c t :
  target_backend_role t <> Some Replica ->
  apply_policy_action_to_routing_target planner c (Some t) None = Some t.
Proof. intros Ht. by destruct t. Qed.

Lemma choose_not_denied planner c a : choose planner c a <> ToReject TPolicyDenied.
Proof.
  unfold choose, primary_for_query_class, no_safe_replica, fallback_target.
  repeat case_match; congruence.
Qed.

(** What the second check of a replica target makes of it. *)
Lemma policy_none_replica planner c a d r t :
  ctx_analysis c = Some a ->
  apply_policy_action_to_routing_target planner c (Some (ToReplica d r)) None = Some t ->
  (t = ToReplica d r /\
   healthy d && negb (split_brain d)
   && replica_satisfies_freshness d (pl_freshness_policy planner) (read_after_write_state c)
        (max_replica_lag_ms planner) = true) \/
  t = choose planner c a.
Proof.
  intros Ha H. unfold apply_policy_action_to_routing_target in H. cbn [mbind option_bind] in H.
  unfold ensure_policy_action_target_is_safe, choose_routing_target in H. rewrite Ha in H.
  destruct (_ && _) eqn:E in H; cbn in H; injection H as <-; [by left|by right].
Qed.
End CheckoutFacts.

Section Target.
Lemma plan_analysis_total p : is_Some (plan_analysis p).
Proof. unfold plan_analysis. destruct (rp_analysis p); [eauto|apply analyze_total]. Qed.

Lemma selection_text_total sel : is_Some (snd (selection_text sel)).
Proof. unfold selection_text. destruct (sel_plan sel); [apply plan_analysis_total|apply analyze_total]. Qed.

Definition splits_reads (sel : ReadRoutingSelection) : bool :=
  match sel_mode sel with PreferReplica | RequireReplica => true | ModeOff | PrimaryOnly => false end.

(** The code without its policy hooks. *)
Definition plain_target (w : World) (now : Z) (sel : ReadRoutingSelection) (c : RoutingContext)
    (a : SqlAnalysis) : World * RoutingTarget :=
  match sel_mode sel with
  | ModeOff => (w, ToPrimary TOff)
  | PrimaryOnly => (w, ToPrimary TPrimaryOnlyMode)
  | PreferReplica | RequireReplica =>
      if transaction_cross_shard_violation (sel_session sel) then (w, ToReject TFallbackReject)
      else match Virtual.current_transaction_target_role (sel_session sel) with
           | Some role => transaction_target w now sel role
           | None => (w, choose (sel_planner sel) c a)
           end
  end.

(** Two passes of the hooks over a target. *)
Lemma policy_twice planner c a t :
  ctx_analysis c = Some a ->
  exists t', apply_policy_action_to_routing_target planner c (Some t) None = Some t' /\
    apply_policy_action_to_routing_target planner c (Some t') None = Some t' /\
    (t' = t \/ target_backend_role t = Some Replica /\ t' = choose planner c a) /\
    (forall d r, t' = ToReplica d r -> t' = t ->
      t' = choose planner c a \/
      replica_satisfies_freshness d (pl_freshness_policy planner) (read_after_write_state c)
        (max_replica_lag_ms planner) = true).
Proof.
  intros Ha. destruct t as [r|d r|r|r]; try by (eexists; split_and!; [done|done|by left|done]).
  assert (He : exists t', apply_policy_action_to_routing_target planner c (Some (ToReplica d r)) None = Some t').
  { unfold apply_policy_action_to_routing_target. cbn [mbind option_bind].
    unfold ensure_policy_action_target_is_safe, choose_routing_target. rewrite Ha. case_match; eauto. }
  destruct He as [t' He]. exists t'. pose proof (policy_none_replica planner c a d r t' Ha He) as [[-> Hs]| ->].
  - split_and!; [done|done|by left|]. intros d' r' [= <- <-] _. right. by apply andb_prop in Hs as [_ ?].
  - split_and!; [done|by apply policy_none_choose|by right|]. intros. by left.
Qed.

(** The hooks matter only for a replica given to a transaction: it stays
    when it is fresh enough for the configured policy, otherwise the planner
    decides as it would outside a transaction. *)
Lemma target_in_context_spec w now sel c a :
  ctx_analysis c = Some a ->
  exists t, target_in_context w now sel c = (fst (plain_target w now sel c a), Some t) /\
    (t = snd (plain_target w now sel c a) \/
     splits_reads sel = true /\ transaction_cross_shard_violation (sel_session sel) = false /\
     target_backend_role (snd (plain_target w now sel c a)) = Some Replica /\
     t = choose (sel_planner sel) c a) /\
    (forall d r, t = ToReplica d r -> t = choose (sel_planner sel) c a \/
      replica_satisfies_freshness d (pl_freshness_policy (sel_planner sel)) (read_after_write_state c)
        (max_replica_lag_ms (sel_planner sel)) = true).
Proof.
  intros Ha. unfold target_in_context, plain_target, splits_reads, apply_policy_before_routing_target,
    apply_policy_before_checkout_target, apply_policy_after_routing_target.
  assert (Hpol := policy_none_choose (sel_planner sel) c a Ha).
  assert (Hfirst : apply_policy_action_to_routing_target (sel_planner sel) c None None
                   = Some (choose (sel_planner sel) c a)).
  { rewrite <- Hpol. unfold apply_policy_action_to_routing_target, choose_routing_target. by rewrite Ha. }
  rewrite Hfirst. pose proof (choose_not_denied (sel_planner sel) c a) as Hnd.
  assert (Hmain : forall (w' : World) t0, exists t,
     (w', t ← apply_policy_action_to_routing_target (sel_planner sel) c (Some t0) None;
          apply_policy_action_to_routing_target (sel_planner sel) c (Some t) None) = (w', Some t) /\
     (t = t0 \/ target_backend_role t0 = Some Replica /\ t = choose (sel_planner sel) c a) /\
     (forall d r, t = ToReplica d r -> t = choose (sel_planner sel) c a \/
      replica_satisfies_freshness d (pl_freshness_policy (sel_planner sel)) (read_after_write_state c)
        (max_replica_lag_ms (sel_planner sel)) = true)).
  { intros w' t0. destruct (policy_twice (sel_planner sel) c a t0 Ha) as (t & H1 & H2 & H3 & H4).
    exists t. rewrite H1. cbn [mbind option_bind]. rewrite H2. split_and!; [done|done|].
    intros d r Ht. destruct H3 as [?|[_ ?]]; [by eapply H4|by left]. }
  destruct (choose (sel_planner sel) c a) as [?|? ?|?|[]] eqn:Ech; try done.
  all: destruct (sel_mode sel); try (eexists; split_and!; [done|by left|done]).
  all: destruct (transaction_cross_shard_violation _); try (eexists; split_and!; [done|by left|done]).
  all: destruct (Virtual.current_transaction_target_role _) as [role|].
  all: try (destruct (transaction_target w now sel role) as [w' t0];
    destruct (Hmain w' t0) as (t & -> & H2 & H3); exists t; cbn [fst snd]; split_and!; [done| |done];
    destruct H2 as [?|[? ?]]; [by left|by right]).
  all: unfold choose_routing_target; rewrite Ha; cbn [mbind option_bind]; rewrite Ech in *;
    rewrite Hpol; cbn [mbind option_bind]; rewrite Hpol; eexists; split_and!; [done|by left|]; intros; by left.
Qed.
End Target.

Section TargetTheorem.
(** A replica the planner chooses is a candidate it may choose. *)
Lemma choose_replica_spec planner c a d r :
  choose planner c a = ToReplica d r ->
  d ∈ ReadRouting.health c /\ routes_to_replica (an_query_class a) = true /\
  eligible (read_after_write_state c) (max_replica_lag_ms planner)
    (effective_freshness_policy (pl_freshness_policy planner) (an_routing_hint a)) d = true.
Proof.
  intros H. pose proof (choose_replica_allowed _ _ _ _ _ H) as Hal.
  rewrite choose_allowed in H by done. cbv zeta in H.
  destruct (select_safe_replica _ _ _ _) as [e|] eqn:Hs; [|by apply no_safe_replica_not_replica in H].
  injection H as -> _. apply select_safe_replica_spec in Hs as (Hin & He & _).
  by destruct Hal as (_ & _ & Hc & _).
Qed.

(** The session's last write is on the replica. *)
Definition sees_session_writes (raw : Virtual.ReadAfterWriteState) (d : ReplicaCandidate) : Prop :=
  match raw with
  | Virtual.RawDisabled => True
  | Virtual.RawUnknown => False
  | Virtual.RawRequired l => exists l', replay_lsn d = Some l' /\ l <= l'
  end.

Lemma satisfies_sees d p raw max :
  replica_satisfies_freshness d p raw max = true -> requires_session_write_lsn p = true ->
  sees_session_writes raw d.
Proof.
  unfold replica_satisfies_freshness. intros [H _]%andb_prop Hp. rewrite Hp in H.
  destruct raw; cbn; [done| |done]. destruct (replay_lsn d) as [l'|]; [|done].
  exists l'. rewrite negb_true_iff, Z.ltb_ge in H. done.
Qed.

(** A replica a transaction is given is a healthy one of the route's. *)
Lemma transaction_target_replica w now sel role w' d r :
  transaction_target w now sel role = (w', ToReplica d r) ->
  role = Replica /\
  exists ref, ref ∈ rp_replicas (sel_pools sel) /\ replica_id d = ref_id ref /\ ok_now w now ref = true.
Proof.
  unfold transaction_target. destruct role; [done| |done].
  destruct (select w now _ _) as [w1 [ref|]] eqn:Hs.
  - destruct (is_healthy w1 now ref). intros [= _ <- _]. split; [done|]. exists ref.
    apply select_healthy in Hs as [? ?]. done.
  - unfold checkout_fallback_target. destruct (sel_mode sel), (sel_fallback sel); done.
Qed.
End TargetTheorem.

(** Every cycle gets a target, and the right one: without read
    splitting it is the primary; a transaction that crossed shards is
    rejected; a transaction bound to the primary goes there; and a replica
    is chosen only when reads are split and no such binding exists, among
    the route's replicas that are healthy at that moment, for a session
    whose own writes (when the policy asks for them) are on it, and outside
    a transaction only for a read and without a split-brain warning. *)
Theorem checkout_target_sound w now sel :
  exists a w' t, snd (selection_text sel) = Some a /\ select_checkout_target w now sel = (w', Some t) /\
    let violation := transaction_cross_shard_violation (sel_session sel) in
    let role := Virtual.current_transaction_target_role (sel_session sel) in
    (splits_reads sel = false -> exists r, t = ToPrimary r) /\
    (splits_reads sel = true -> violation = true -> t = ToReject TFallbackReject) /\
    (splits_reads sel = true -> violation = false -> role = Some Primary -> exists r, t = ToPrimary r) /\
    (forall d r, t = ToReplica d r ->
      splits_reads sel = true /\ violation = false /\ role <> Some Primary /\
      (exists ref, ref ∈ rp_replicas (sel_pools sel) /\ replica_id d = ref_id ref /\ ok_now w now ref = true /\
        (role = None -> forall s, List.find (fun s => endpoint_id s =? ref_id ref) (sel_snapshots sel) = Some s ->
           split_brain_warning s = false)) /\
      (an_routing_hint a = HintNone -> requires_session_write_lsn (pl_freshness_policy (sel_planner sel)) = true ->
        sees_session_writes (Virtual.read_after_write (sel_session sel)) d) /\
      (role = None -> routes_to_replica (an_query_class a) = true)).
Proof.
  destruct (selection_text_total sel) as [a Ha]. exists a. unfold select_checkout_target. rewrite Ha.
  destruct (build_snapshot_spec now (sel_snapshots sel) (rp_replicas (sel_pools sel)) w) as [Hsame Hds].
  destruct (build_route_health_snapshot _ _ _ _) as [w1 ds]. cbn [fst snd] in *.
  set (c := selection_context sel ds a). set (planner := sel_planner sel).
  destruct (target_in_context_spec w1 now sel c a eq_refl) as (t & -> & Ht & Hf).
  eexists _, t. split; [done|]. split; [done|]. cbv zeta. fold planner in Ht, Hf.
  (* what is known of a replica the planner chose *)
  assert (Hch : forall d r, choose planner c a = ToReplica d r ->
    (exists ref, ref ∈ rp_replicas (sel_pools sel) /\ replica_id d = ref_id ref /\ ok_now w now ref = true /\
       forall s, List.find (fun s => endpoint_id s =? ref_id ref) (sel_snapshots sel) = Some s ->
         split_brain_warning s = false) /\
    (an_routing_hint a = HintNone -> requires_session_write_lsn (pl_freshness_policy planner) = true ->
      sees_session_writes (Virtual.read_after_write (sel_session sel)) d) /\
    routes_to_replica (an_query_class a) = true).
  { intros d r Hc. apply choose_replica_spec in Hc as (Hin & Hcl & Hel).
    destruct (Hds d Hin) as (ref & Href & Hid & Hh & Hsb). unfold eligible in Hel.
    apply andb_prop in Hel as [[He1 He2%negb_true_iff]%andb_prop He3]. split_and!; [|intros Hn|done].
    - exists ref. split_and!; [done|done|congruence|]. intros s Hs. rewrite Hs in Hsb. congruence.
    - rewrite Hn in He3. by apply satisfies_sees with (1 := He3). }
  assert (Hrole : forall role, target_backend_role (snd (transaction_target w1 now sel role)) = Some Replica ->
            role = Replica).
  { intros role Hr. destruct (transaction_target w1 now sel role) as [w2 [|d r| |]] eqn:Et; try done.
    by apply transaction_target_replica in Et as [? _]. }
  (* what is known of a replica a transaction was given *)
  assert (Htx : forall role d r, snd (transaction_target w1 now sel role) = ToReplica d r ->
    exists ref, ref ∈ rp_replicas (sel_pools sel) /\ replica_id d = ref_id ref /\ ok_now w now ref = true).
  { intros role d r Hr. destruct (transaction_target w1 now sel role) as [w2 t'] eqn:Et. cbn in Hr. subst t'.
    apply transaction_target_replica in Et as (_ & ref & ? & ? & Ho). exists ref.
    rewrite (same_health_ok now w w1) in Ho; done. }
  unfold plain_target, splits_reads in *.
  destruct (sel_mode sel) eqn:Em; cbn [fst snd] in *.
  1, 4: destruct Ht as [->|(? & _)]; [|done]; split_and!; try done; eauto.
  all: destruct (transaction_cross_shard_violation (sel_session sel)) eqn:Ev; cbn [fst snd] in *;
    [destruct Ht as [->|(_ & ? & _)]; [|done]; split_and!; by eauto|].
  all: destruct (Virtual.current_transaction_target_role (sel_session sel)) as [role|] eqn:Er; cbn [fst snd] in *;
    [|destruct Ht as [->|(_ & _ & _ & ->)]; split_and!; try done; intros d r Hc;
      destruct (Hch d r Hc) as ((ref & ? & ? & ? & ?) & ? & ?); split_and!; by eauto 10].
  all: split_and!; try done;
    [intros _ _ [= ->]; destruct Ht as [->|(_ & _ & Hr & _)]; [cbn; eauto|by apply Hrole in Hr]|].
  all: intros d r Htd; assert (Hrr : role = Replica)
    by (destruct Ht as [->|(_ & _ & Hr & _)]; [apply Hrole; by rewrite Htd|by apply Hrole]).
  all: subst role; split_and!; try done.
  all: try by (destruct Ht as [->|(_ & _ & _ & ->)];
    [destruct (Htx _ _ _ Htd) as (ref & ? & ? & ?)|destruct (Hch _ _ Htd) as ((ref & ? & ? & ? & _) & _)];
    exists ref; split_and!).
  all: intros Hh Hp; destruct (Hf d r Htd) as [Hc|Hs]; [|by eapply satisfies_sees];
    rewrite Htd in Hc; symmetry in Hc; by apply (Hch _ _ Hc).
Qed.

(** ** Read-only transactions and split brain *)

Section SplitBrainExample.
Definition reported_primary : ReplicaHealthSnapshot :=
  {| endpoint_id := 1; hs_replay_lsn := None; lag_duration_ms := None; split_brain_warning := true |}.
Definition one_replica : RoutePools :=
  {| rp_primary := primary_ref 0 10; rp_replicas := [replica_ref 1 1 1 11];
     rp_selector := {| strategy := LeastWaiting; cursor := 0 |} |}.
Definition split_selection (s : Virtual.VirtualSession) (p : RequestPlan) : ReadRoutingSelection :=
  {| sel_planner := {| read_routing_mode := PreferReplica; pl_fallback_policy := FallbackToPrimary;
                       pl_freshness_policy := FreshNone; max_replica_lag_ms := 100 |};
     sel_pools := one_replica; sel_snapshots := [reported_primary]; sel_mode := PreferReplica;
     sel_fallback := FallbackToPrimary; sel_session := s; sel_plan := Some p |}.
Definition plan_of (sql : string) : RequestPlan :=
  {| rp_sql := lit sql; rp_command := CmdQuery; rp_analysis := None; updates_transaction_state := true;
     updates_session_state := true |}.

(** A replica under a split-brain warning is refused to a lone read and
    given to a read-only transaction: inside one, the target comes from the
    replica selector, which does not know about warnings. *)
Lemma read_only_transaction_on_split_brain_replica :
  snd (select_checkout_target toy_world 0 (split_selection Virtual.fresh (plan_of "select 1")))
  = Some (ToPrimary TFallbackPrimary) /\
  exists s, Virtual.apply_transaction_sql_with_routing Virtual.fresh (lit "begin read only") true
            = Some (s, false) /\
    exists d r, snd (select_checkout_target toy_world 0 (split_selection s (plan_of "begin read only")))
      = Some (ToReplica d r) /\ replica_id d = 1.
Proof.
  split; [by vm_compute|]. eexists. split; [by vm_compute|]. eexists _, _. split; [by vm_compute|done].
Qed.
End SplitBrainExample.

(** ** The startup packet servers are shown *)

Section StartupUser.
Lemma i16_parts code :
  i_range 32 code ->
  Z.lor (wrap_i 32 (Z.shiftl (wrap_i 16 (Z.land (Z.shiftr code 16) 65535)) 16))
        (Z.land (wrap_i 16 (Z.land code 65535)) 65535) = code.
Proof.
  unfold i_range. intros Hc.
  assert (Hland : forall x, Z.land x 65535 = x mod 65536) by (intros x; apply (Z.land_ones x 16); lia).
  rewrite !Hland, Z.shiftr_div_pow2 by lia. change (2 ^ 16) with 65536.
  pose proof (Z.div_mod code 65536 ltac:(lia)). pose proof (Z.mod_pos_bound code 65536 ltac:(lia)).
  assert (Hmaj : wrap_i 16 ((code / 65536) mod 65536) = code / 65536).
  { unfold wrap_i. change (2 ^ 16) with 65536. change (2 ^ (16 - 1)) with 32768. rewrite Z.mod_mod by lia.
    assert (-32768 <= code / 65536 < 32768) by lia.
    destruct (Z.lt_ge_cases (code / 65536) 0).
    - rewrite <- (Z.mod_add _ 1), Z.mod_small by lia.
      destruct (Z.ltb_spec (code / 65536 + 1 * 65536) 32768); lia.
    - rewrite Z.mod_small by lia. destruct (Z.ltb_spec (code / 65536) 32768); lia. }
  rewrite Hmaj. pose proof (wrap_i_u 16 (code mod 65536) ltac:(lia)) as Hu.
  change (2 ^ 16) with 65536 in Hu. rewrite Hu, Z.mod_mod by lia.
  rewrite Z.shiftl_mul_pow2 by lia. change (2 ^ 16) with 65536.
  rewrite wrap_i_id by (unfold i_range; lia).
  assert (Hdis : Z.land (code / 65536 * 65536) (code mod 65536) = 0).
  { apply Z.bits_inj'. intros n Hn. rewrite Z.land_spec, Z.bits_0.
    change 65536 with (2 ^ 16). rewrite <- Z.shiftl_mul_pow2 by lia.
    destruct (Z.lt_ge_cases n 16); [by rewrite Z.shiftl_spec_low|].
    rewrite Z.mod_pow2_bits_high by lia. apply andb_false_r. }
  rewrite <- Z.lxor_lor by done. rewrite <- Z.add_nocarry_lxor by done. lia.
Qed.

Lemma cut_cstr n bs s :
  position (Z.eqb 0) bs = Some n -> from_utf8 (take n bs) = Some s ->
  valid_str s /\ no_nul s /\ (s = [] -> n = 0%nat).
Proof.
  intros (x & _ & _ & Hz & Hn)%position_Some (He & Hv)%from_utf8_Some.
  split_and!; [done| |].
  - apply encode_utf8_no_zero_inv. rewrite He. eapply Forall_impl; [exact Hz|]. cbn.
    intros y Hy. rewrite Z.eqb_sym. exact Hy.
  - intros ->. cbn in He. destruct n; [done|]. destruct bs; [cbn in Hn; lia|done].
Qed.

Lemma parse_parameters_loop_ok fuel rest acc ps :
  Forall parameter_ok acc -> parse_parameters_loop fuel rest acc = Some (Ok ps) -> Forall parameter_ok ps.
Proof.
  revert rest acc. induction fuel as [|fuel IH]; intros rest acc Hacc H; [done|].
  cbn [parse_parameters_loop] in H. destruct rest as [|b r]; [by simplify_eq|].
  destruct (Z.eqb_spec b 0) as [|Hb]; [by simplify_eq|].
  destruct (position (Z.eqb 0) (b :: r)) as [ke|] eqn:Hk; [|done].
  destruct (from_utf8 (take ke (b :: r))) as [key|] eqn:Hkey; [|done].
  destruct (drop (S ke) (b :: r)) as [|b' r'] eqn:Hd; [done|].
  destruct (position (Z.eqb 0) (b' :: r')) as [ve|] eqn:Hv; [|done].
  destruct (from_utf8 (take ve (b' :: r'))) as [value|] eqn:Hval; [|done].
  apply IH in H; [done|]. apply Forall_app. split; [done|]. constructor; [|done].
  destruct (cut_cstr _ _ _ Hk Hkey) as (? & ? & Hne), (cut_cstr _ _ _ Hv Hval) as (? & ? & _).
  split_and!; try done. cbn. intros ->. apply position_Some in Hk as (x & Hx & Hx0 & _).
  rewrite Hne in Hx by done. injection Hx as <-. apply Z.eqb_eq in Hx0. congruence.
Qed.

Lemma parse_parameters_ok bs ps : parse_parameters bs = Ok ps -> Forall parameter_ok ps.
Proof.
  unfold parse_parameters. case_bool_decide; [|done].
  destruct (parse_parameters_loop _ _ _) as [r|] eqn:E; [|done]. intros ->.
  eapply parse_parameters_loop_ok; [constructor|done].
Qed.

(** The code of a packet that asks for a session. *)
Definition session_code (code : Z) : Prop :=
  i_range 32 code /\ code <> SSL_REQUEST_CODE /\ code <> GSSENC_REQUEST_CODE /\ code <> CANCEL_REQUEST_CODE.
Definition major_of (code : Z) : Z := wrap_i 16 (Z.land (Z.shiftr code 16) 65535).
Definition minor_of (code : Z) : Z := wrap_i 16 (Z.land code 65535).

Lemma parse_startup_frame code ps :
  session_code code -> Forall parameter_ok ps -> len (encode_parameters ps) + 8 < 2 ^ 31 ->
  parse_startup_packet (startup_frame (put_i32 code ++ encode_parameters ps))
  = Ok (Startup (major_of code) (minor_of code) ps).
Proof.
  intros (Hr & H1 & H2 & H3) Hps Hlen. pose proof (len_nonneg (encode_parameters ps)).
  unfold startup_frame. set (body := encode_parameters ps) in *.
  rewrite wrap_i_id by (unfold i_range; len_lia).
  destruct (put_i32_spec (len (put_i32 code ++ body) + 4)) as (a & b & c & d & -> & Hrt); [unfold i_range; len_lia|].
  destruct (put_i32_spec code) as (a' & b' & c' & d' & -> & Hrt'); [done|].
  cbn [app]. unfold parse_startup_packet, MIN_STARTUP_LEN. rewrite Hrt, Hrt'.
  rewrite (proj2 (Z.ltb_ge _ _)) by len_lia.
  rewrite (proj2 (Z.eqb_eq _ _)) by len_lia. cbn [negb].
  rewrite !(proj2 (Z.eqb_neq _ _)) by done. unfold body. by rewrite parse_parameters_encode.
Qed.

Lemma parse_startup_inv packet maj min ps :
  parse_startup_packet packet = Ok (Startup maj min ps) ->
  exists code, session_code code /\ maj = major_of code /\ min = minor_of code /\ Forall parameter_ok ps.
Proof.
  unfold parse_startup_packet. intros H.
  destruct packet as [|l0 [|l1 [|l2 [|l3 cursor]]]]; try done.
  case_match; [done|]. case_match; [done|].
  destruct cursor as [|c0 [|c1 [|c2 [|c3 body]]]]; try done.
  destruct (Z.eqb_spec (i32_from_be_bytes c0 c1 c2 c3) SSL_REQUEST_CODE); [done|].
  destruct (Z.eqb_spec (i32_from_be_bytes c0 c1 c2 c3) GSSENC_REQUEST_CODE); [done|].
  destruct (Z.eqb_spec (i32_from_be_bytes c0 c1 c2 c3) CANCEL_REQUEST_CODE); [by repeat case_match|].
  apply bind_Ok_inv in H as (ps' & Hps & H). simplify_eq. eexists. split; [|by eauto using parse_parameters_ok].
  split_and!; try done. unfold i32_from_be_bytes. apply wrap_i_range. lia.
Qed.

Lemma startup_parameter_with_user user ps key :
  startup_parameter (map (with_backend_user user) ps) key =
  match List.find (fun p => eq_ignore_ascii_case (fst p) key) ps with
  | Some p => Some (snd (with_backend_user user p))
  | None => None
  end.
Proof.
  unfold startup_parameter. induction ps as [|p ps IH]; [done|]. cbn.
  by destruct (eq_ignore_ascii_case (fst p) key).
Qed.

Lemma startup_parameter_None ps key :
  existsb (fun p => eq_ignore_ascii_case (fst p) key) ps = false -> startup_parameter ps key = None.
Proof.
  unfold startup_parameter. induction ps as [|p ps IH]; [done|]. cbn [existsb List.find].
  by destruct (eq_ignore_ascii_case (fst p) key).
Qed.

(** Which values the rewriting changes. *)
Lemma find_key_other user ps key :
  str_eqb (to_ascii_lowercase key) (to_ascii_lowercase (lit "user")) = false ->
  match List.find (fun p => eq_ignore_ascii_case (fst p) key) ps with
  | Some p => Some (snd (with_backend_user user p))
  | None => None
  end = snd <$> List.find (fun p => eq_ignore_ascii_case (fst p) key) ps.
Proof.
  intros Hk. destruct (List.find _ ps) as [p|] eqn:E; [|done]. apply List.find_some in E as [_ E].
  unfold with_backend_user, eq_ignore_ascii_case in *. apply str_eqb_true in E. by rewrite E, Hk.
Qed.

Lemma find_key_user user ps :
  match List.find (fun p => eq_ignore_ascii_case (fst p) (lit "user")) ps with
  | Some p => Some (snd (with_backend_user user p))
  | None => None
  end = (fun _ => user) <$> List.find (fun p => eq_ignore_ascii_case (fst p) (lit "user")) ps.
Proof.
  destruct (List.find _ ps) as [p|] eqn:E; [|done]. apply List.find_some in E as [_ E].
  unfold with_backend_user. by rewrite E.
Qed.
End StartupUser.

(** Servers see the service user and nothing else changed: the startup
    packet rewritten for a server parses to the client's protocol version
    and parameters, in order, with the value of every [user] parameter
    replaced; the route read from it is the client's database and
    application name with the service user. *)
Theorem backend_startup_exact packet user maj min ps :
  parse_startup_packet packet = Ok (Startup maj min ps) -> valid_str user -> no_nul user ->
  len (encode_parameters (map (with_backend_user user) ps)) + 8 < 2 ^ 31 ->
  match rewrite_backend_startup_user packet (Some user) with
  | Ok out =>
      parse_startup_packet out = Ok (Startup maj min (map (with_backend_user user) ps)) /\
      forall d u app, startup_route_key packet = Ok (d, u, app) -> startup_route_key out = Ok (d, user, app)
  | _ => startup_parameter ps (lit "user") = None
  end.
Proof.
  intros Hp Hv Hn Hlen. destruct (parse_startup_inv _ _ _ _ Hp) as (code & Hcode & -> & -> & Hps).
  unfold rewrite_backend_startup_user. rewrite Hp. cbn [map_err context mbind result_bind].
  unfold major_of, minor_of. rewrite i16_parts by apply Hcode.
  destruct (existsb _ ps) eqn:Hex; cbn [ensure fail mbind result_bind].
  2: by apply startup_parameter_None.
  match goal with |- parse_startup_packet ?out = _ /\ _ =>
    assert (Hout : out = startup_frame (put_i32 code ++ encode_parameters (map (with_backend_user user) ps)))
  end.
  { unfold startup_frame, encode_parameters.
    assert (Hbody : (ps ≫= fun p => encode_utf8 (fst p) ++ [0] ++ encode_utf8 (snd (with_backend_user user p)) ++ [0])
              = (map (with_backend_user user) ps ≫= fun '(k, v) => write_cstr k ++ write_cstr v)).
    { clear. induction ps as [|p ps IH]; [done|]. cbn [map]. rewrite !bind_cons, IH. unfold write_cstr.
      destruct p as [k v]. unfold with_backend_user. cbn [fst snd]. by rewrite <- !app_assoc. }
    unfold mbind in *. by rewrite Hbody, <- !app_assoc. }
  rewrite Hout. clear Hout.
  assert (Hparse : parse_startup_packet
      (startup_frame (put_i32 code ++ encode_parameters (map (with_backend_user user) ps)))
      = Ok (Startup (major_of code) (minor_of code) (map (with_backend_user user) ps))).
  { apply parse_startup_frame; [done| |done]. rewrite Forall_map. eapply Forall_impl; [exact Hps|].
    intros [k v] (? & ? & ? & ? & ?). unfold with_backend_user. split_and!; cbn; try done; by case_match. }
  split; [exact Hparse|]. intros d u app. unfold startup_route_key. rewrite Hp, Hparse.
  cbn [map_err context mbind result_bind]. rewrite !startup_parameter_with_user. unfold startup_parameter.
  intros H. apply bind_Ok_inv in H as (d' & Hd & H). apply bind_Ok_inv in H as (u' & Hu & H). simplify_eq.
  rewrite (find_key_other user ps (lit "database")), (find_key_other user ps (lit "application_name")),
    (find_key_user user ps) by done.
  destruct (List.find (fun p => eq_ignore_ascii_case p.1 (lit "database")) ps) as [p1|]; [|done].
  destruct (List.find (fun p => eq_ignore_ascii_case p.1 (lit "user")) ps) as [p2|]; [|done].
  injection Hd as <-. done.
Qed.

Section StartupExample.
Definition app_packet : bytes :=
  startup_frame (put_i32 (protocol_version_to_i32 V3)
    ++ encode_parameters [(lit "User", lit "app"); (lit "database", lit "db")]).

Lemma backend_startup_exact_witness :
  match rewrite_backend_startup_user app_packet (Some (lit "svc")) with
  | Ok out => startup_route_key out = Ok (lit "db", lit "svc", None)
  | _ => False
  end.
Proof.
  pose proof (backend_startup_exact app_packet (lit "svc") 3 0
    [(lit "User", lit "app"); (lit "database", lit "db")] ltac:(vm_compute; reflexivity)
    ltac:(solve_lit) ltac:(solve_lit) ltac:(vm_compute; reflexivity)) as H.
  destruct (rewrite_backend_startup_user app_packet (Some (lit "svc"))) as [out|e|] eqn:E;
    [|by vm_compute in E|by vm_compute in E].
  destruct H as [_ H]. apply (H (lit "db") (lit "app") None). by vm_compute.
Defined.
End StartupExample.
