(* ===== verification/Effects.v ===== *)
(** * Effects: programs that talk to servers, clients and pools

    The asynchronous code of the client session ([proxy/client_session.rs],
    [forwarding.rs], [recovery.rs]) is written as programs: trees of
    commands whose answers come from the environment (sockets, pools, the
    clock, other tasks). [run] executes a program against an environment
    that sees the whole history of commands and answers, so a statement
    about every environment is a statement about every behaviour of the
    network and of the other tasks. The session's mutable variables are the
    state [Sess], which survives when a [timeout] drops a future, as the
    borrows of the source do. [Hang] is an [await] that is never woken. *)

From S2P Require Import Prelude Text Protocol Frame BackendWire Secrets Auth Cycle Lsn RoutingTypes Route Policy.
From S2P Require Import Sql SqlClassify Session ReadRouting Prepare Pool Pools RequestPlan Guardrails Checkout.

(** ** Errors of the session code *)

Inductive BufferBudgetKind := ClientBudget | BackendBudget.
Inductive BackendFailureKind := FailConnect | FailRead | FailWrite | FailAuthentication.
#[global] Instance BackendFailureKind_eq_dec : EqDecision BackendFailureKind.
Proof. solve_decision. Defined.

(** An [anyhow] error, by what the code downcasts it to; contexts, which
    are only logged, are left out. *)
Inductive failure :=
| BackendFailure (kind : BackendFailureKind) (response_started : bool)
| BufferLimitExceeded (kind : BufferBudgetKind)
| Other (e : error).

(** [buffer_limit_kind]. *)
Definition buffer_limit_kind (f : failure) : option BufferBudgetKind :=
  match f with BufferLimitExceeded k => Some k | _ => None end.

(** A failure as the plain error that is reported; a login has no other. *)
Definition failure_error (f : failure) : error := match f with Other e => e | _ => EForeign end.

Definition bail {A} (m : string) : result failure A := Err (Other (EMsg (lit m))).
Definition lift_wire {A} (r : result WireError A) : result failure A :=
  map_err (fun e => Other (EWire e)) r.

(** ** The session's variables *)

(** A leased server connection. *)
Record Backend := { lease_backend_id : Z; requires_startup : bool }.
#[global] Instance Backend_eq_dec : EqDecision Backend.
Proof. solve_decision. Defined.

Record QueryProgress := { qp_response_started : bool; qp_rows : Z; qp_error : bool }.
Definition progress_default : QueryProgress :=
  {| qp_response_started := false; qp_rows := 0; qp_error := false |}.

Record Sess := {
  session : Virtual.VirtualSession;
  prepared : PreparedCatalog;
  plan_cache : SqlPlanCache;
  pinned_backend : option Z;
  held_backend : option Backend;
  route_application_name : option str;
  session_route : RouteKey;
  client_read : bytes;
  backend_read : bytes;
  progress : QueryProgress;
  wait_for_client_activity : bool;
}.

Definition set_session (s : Sess) (v : Virtual.VirtualSession) : Sess :=
  {| session := v; prepared := prepared s; plan_cache := plan_cache s; pinned_backend := pinned_backend s;
     held_backend := held_backend s; route_application_name := route_application_name s;
     session_route := session_route s; client_read := client_read s; backend_read := backend_read s; progress := progress s;
     wait_for_client_activity := wait_for_client_activity s |}.
Definition set_prepared (s : Sess) (v : PreparedCatalog) : Sess :=
  {| session := session s; prepared := v; plan_cache := plan_cache s; pinned_backend := pinned_backend s;
     held_backend := held_backend s; route_application_name := route_application_name s;
     session_route := session_route s; client_read := client_read s; backend_read := backend_read s; progress := progress s;
     wait_for_client_activity := wait_for_client_activity s |}.
Definition set_plan_cache (s : Sess) (v : SqlPlanCache) : Sess :=
  {| session := session s; prepared := prepared s; plan_cache := v; pinned_backend := pinned_backend s;
     held_backend := held_backend s; route_application_name := route_application_name s;
     session_route := session_route s; client_read := client_read s; backend_read := backend_read s; progress := progress s;
     wait_for_client_activity := wait_for_client_activity s |}.
Definition set_pinned (s : Sess) (v : option Z) : Sess :=
  {| session := session s; prepared := prepared s; plan_cache := plan_cache s; pinned_backend := v;
     held_backend := held_backend s; route_application_name := route_application_name s;
     session_route := session_route s; client_read := client_read s; backend_read := backend_read s; progress := progress s;
     wait_for_client_activity := wait_for_client_activity s |}.
Definition set_held (s : Sess) (v : option Backend) : Sess :=
  {| session := session s; prepared := prepared s; plan_cache := plan_cache s; pinned_backend := pinned_backend s;
     held_backend := v; route_application_name := route_application_name s;
     session_route := session_route s; client_read := client_read s; backend_read := backend_read s; progress := progress s;
     wait_for_client_activity := wait_for_client_activity s |}.
Definition set_application_name (s : Sess) (v : option str) : Sess :=
  {| session := session s; prepared := prepared s; plan_cache := plan_cache s; pinned_backend := pinned_backend s;
     held_backend := held_backend s; route_application_name := v;
     session_route := session_route s; client_read := client_read s; backend_read := backend_read s; progress := progress s;
     wait_for_client_activity := wait_for_client_activity s |}.
Definition set_route (s : Sess) (v : RouteKey) : Sess :=
  {| session := session s; prepared := prepared s; plan_cache := plan_cache s; pinned_backend := pinned_backend s;
     held_backend := held_backend s; route_application_name := route_application_name s;
     session_route := v; client_read := client_read s; backend_read := backend_read s; progress := progress s;
     wait_for_client_activity := wait_for_client_activity s |}.
Definition set_client_read (s : Sess) (v : bytes) : Sess :=
  {| session := session s; prepared := prepared s; plan_cache := plan_cache s; pinned_backend := pinned_backend s;
     held_backend := held_backend s; route_application_name := route_application_name s;
     session_route := session_route s; client_read := v; backend_read := backend_read s; progress := progress s;
     wait_for_client_activity := wait_for_client_activity s |}.
Definition set_backend_read (s : Sess) (v : bytes) : Sess :=
  {| session := session s; prepared := prepared s; plan_cache := plan_cache s; pinned_backend := pinned_backend s;
     held_backend := held_backend s; route_application_name := route_application_name s;
     session_route := session_route s; client_read := client_read s; backend_read := v; progress := progress s;
     wait_for_client_activity := wait_for_client_activity s |}.
Definition set_progress (s : Sess) (v : QueryProgress) : Sess :=
  {| session := session s; prepared := prepared s; plan_cache := plan_cache s; pinned_backend := pinned_backend s;
     held_backend := held_backend s; route_application_name := route_application_name s;
     session_route := session_route s; client_read := client_read s; backend_read := backend_read s; progress := v;
     wait_for_client_activity := wait_for_client_activity s |}.
Definition set_wait (s : Sess) (v : bool) : Sess :=
  {| session := session s; prepared := prepared s; plan_cache := plan_cache s; pinned_backend := pinned_backend s;
     held_backend := held_backend s; route_application_name := route_application_name s;
     session_route := session_route s; client_read := client_read s; backend_read := backend_read s; progress := progress s;
     wait_for_client_activity := v |}.

(** ** Commands *)

(** One read of a socket: bytes, the end of the stream, or an error. *)
Inductive ReadEvent := Chunk (bs : bytes) | Eof | ReadError.
(** A wait on the server and the client at once. *)
Inductive DuplexEvent := FromBackend (e : ReadEvent) | FromClient (e : ReadEvent).
(** What wakes an idle session: the client, the server it holds, or the
    idle timeout. *)
Inductive IdleEvent := IdleFromClient (e : ReadEvent) | IdleFromBackend (e : ReadEvent) | IdleElapsed.

Inductive cmd :=
| Checkout (route : RouteKey) (target : RoutingTarget) (mode : CheckoutMode)
| SelectTarget (sel : list ReplicaHealthSnapshot -> ReadRoutingSelection)
| WaitTarget (sel : list ReplicaHealthSnapshot -> ReadRoutingSelection)
| EvaluateGuardrails (a : SqlAnalysis) (sql : str)
| PauseWait
| BindCancel (b : Backend)
| UnbindCancel
| Release (b : Backend)
| Discard (b : Backend)
| DropLease (b : Backend)
| MarkFailed (b : Backend)
| ParameterStatusOf (b : Backend)
| WriteBackend (b : Backend) (bs : bytes)
| FlushBackend (b : Backend)
| ReadBackend (b : Backend)
| ReadDuplex (b : Backend)
| AwaitIdle (held : option Backend) (has_timeout : bool)
| RemoveCancelSession
| WriteClient (bs : bytes)
| ReadClient
| ReadClientInTime
| StartTls (require_client_certificate : bool)
| IssueClientKey
| ForwardCancel (key : Z * Z)
| AuthenticateClient (user : str)
| ScheduleWarmup
| RandomBytes
| MirrorCycle (target : RoutingTarget) (replay frames : list FrontendFrame)
| Elapsed
| QueryDeadlinePassed
| Patience.

(** What the environment answers: whether a socket accepted a write, what
    it delivered, whether a deadline has passed. A read of the client in
    time is [None] when it was not; a TLS handshake answers whether the
    client showed a certificate; authentication is Auth.v's
    [authenticate_client]; [Patience] is how many more reads will complete
    before the peer falls silent. *)
Definition answer (c : cmd) : Type :=
  match c with
  | Checkout _ _ _ => result PoolError Backend
  | SelectTarget _ | WaitTarget _ => option RoutingTarget
  | EvaluateGuardrails _ _ => option (option GuardrailRule)
  | WriteBackend _ _ | FlushBackend _ | WriteClient _ | Elapsed | QueryDeadlinePassed => bool
  | ReadBackend _ => ReadEvent
  | ReadDuplex _ => DuplexEvent
  | AwaitIdle _ _ => IdleEvent
  | ParameterStatusOf _ => list (str * str)
  | ReadClient => ReadEvent
  | ReadClientInTime => option ReadEvent
  | StartTls _ => result error bool
  | IssueClientKey => result error (Z * Z)
  | AuthenticateClient _ => result error ClientAuthOutcome
  | RandomBytes => option bytes
  | Patience => nat
  | _ => unit
  end.

(** ** Programs *)

Inductive prog (A : Type) : Type :=
| Ret (a : A)
| Get (k : Sess -> prog A)
| Put (s : Sess) (k : prog A)
| Act (c : cmd) (k : answer c -> prog A)
| Hang.
Arguments Ret {A} a.
Arguments Get {A} k.
Arguments Put {A} s k.
Arguments Act {A} c k.
Arguments Hang {A}.

Fixpoint bind {A B} (p : prog A) (f : A -> prog B) : prog B :=
  match p with
  | Ret a => f a
  | Get k => Get (fun s => bind (k s) f)
  | Put s k => Put s (bind k f)
  | Act c k => Act c (fun x => bind (k x) f)
  | Hang => Hang
  end.
#[global] Instance prog_ret : MRet prog := @Ret.
#[global] Instance prog_bind : MBind prog := fun A B f p => bind p f.

Definition act (c : cmd) : prog (answer c) := Act c Ret.
Definition get : prog Sess := Get Ret.
Definition put (s : Sess) : prog unit := Put s (Ret tt).
Definition modify (f : Sess -> Sess) : prog unit := Get (fun s => Put (f s) (Ret tt)).

(** A fallible computation, and the operator [?]. *)
Abbreviation fallible A := (prog (result failure A)).
Definition and_then {A B} (p : fallible A) (f : A -> fallible B) : fallible B :=
  r ← p; match r with Ok a => f a | Err e => Ret (Err e) | Panic => Ret Panic end.
Notation "x ←? p ; q" := (and_then p (fun x => q))
  (at level 100, p at next level, q at level 200, right associativity).
Definition lift_result {A} (r : result failure A) : fallible A := Ret r.

(** Leaving a scope that owns a lease by an error drops the lease. *)
Definition owning {A} (b : Backend) (p : fallible A) : fallible A :=
  r ← p;
  match r with
  | Ok a => Ret (Ok a)
  | Err e => _ ← act (DropLease b); Ret (Err e)
  | Panic => _ ← act (DropLease b); Ret Panic
  end.

(** ** Timeouts

    [tokio::time::timeout]: the future is polled until the deadline passes
    at one of its awaits; dropping it drops the leases it owns. *)
Definition owned_after (owned : list Backend) (c : cmd) : answer c -> list Backend :=
  match c with
  | Checkout _ _ _ => fun r => match r with Ok b => b :: owned | _ => owned end
  | Release b | Discard b | DropLease b => fun _ => List.filter (fun b' => negb (bool_decide (b' = b))) owned
  | _ => fun _ => owned
  end.

Fixpoint drop_all {A} (owned : list Backend) (p : prog A) : prog A :=
  match owned with
  | [] => p
  | b :: owned => Act (DropLease b) (fun _ => drop_all owned p)
  end.

Fixpoint timeout {A} (owned : list Backend) (p : prog A) : prog (option A) :=
  match p with
  | Ret a => Ret (Some a)
  | Get k => Get (fun s => timeout owned (k s))
  | Put s k => Put s (timeout owned k)
  | Act c k =>
      Act Elapsed (fun e =>
        if e then drop_all owned (Ret None)
        else Act c (fun x => timeout (owned_after owned c x) (k x)))
  | Hang => drop_all owned (Ret None)
  end.

(** ** Execution *)

Inductive event := Ev (c : cmd) (x : answer c).
Definition Env : Type := forall (history : list event) (c : cmd), answer c.

(** The result ([None] when the program waits for ever), the variables and
    the history afterwards. *)
Fixpoint run {A} (env : Env) (p : prog A) (s : Sess) (h : list event) : option A * Sess * list event :=
  match p with
  | Ret a => (Some a, s, h)
  | Get k => run env (k s) s h
  | Put s k => run env k s h
  | Act c k => let x := env h c in run env (k x) s (h ++ [Ev c x])
  | Hang => (None, s, h)
  end.

(** ** A program logic

    [wp p Q s h]: from variables [s] and history [h], whatever the
    environment answers, [p] ends in [Q], with no result where it waits for
    ever. *)
Fixpoint wp {A} (p : prog A) (Q : option A -> Sess -> list event -> Prop) (s : Sess) (h : list event) : Prop :=
  match p with
  | Ret a => Q (Some a) s h
  | Get k => wp (k s) Q s h
  | Put s k => wp k Q s h
  | Act c k => forall x, wp (k x) Q s (h ++ [Ev c x])
  | Hang => Q None s h
  end.

(** [confined ok I p s]: from variables [s], [p] uses only commands that
    are [ok] and leaves the variables in [I] at every moment. *)
Fixpoint confined {A} (ok : cmd -> Prop) (I : Sess -> Prop) (p : prog A) (s : Sess) : Prop :=
  match p with
  | Ret _ | Hang => True
  | Get k => confined ok I (k s) s
  | Put s k => I s /\ confined ok I k s
  | Act c k => ok c /\ forall x, confined ok I (k x) s
  end.

Section Logic.
Lemma wp_mono {A} (p : prog A) (Q R : option A -> Sess -> list event -> Prop) s h :
  wp p Q s h -> (forall a s h, Q a s h -> R a s h) -> wp p R s h.
Proof. revert s h. induction p; cbn; eauto. Qed.

Lemma wp_any {A} (p : prog A) s h : wp p (fun _ _ _ => True) s h.
Proof. revert s h. induction p; cbn; eauto. Qed.

Lemma wp_both {A} (p : prog A) Q R s h : wp p Q s h -> wp p R s h -> wp p (fun r s h => Q r s h /\ R r s h) s h.
Proof. revert s h. induction p; cbn; eauto. Qed.

Lemma wp_bind {A B} (p : prog A) (f : A -> prog B) Q s h :
  wp p (fun r s h => match r with Some a => wp (f a) Q s h | None => Q None s h end) s h ->
  wp (p ≫= f) Q s h.
Proof. revert s h. unfold mbind, prog_bind. induction p; cbn; eauto. Qed.

Lemma wp_and_then {A B} (p : fallible A) (f : A -> fallible B) Q s h :
  wp p (fun r s h => match r with
                     | Some (Ok a) => wp (f a) Q s h
                     | Some (Err e) => Q (Some (Err e)) s h
                     | Some Panic => Q (Some Panic) s h
                     | None => Q None s h
                     end) s h ->
  wp (and_then p f) Q s h.
Proof. intros H. apply wp_bind. eapply wp_mono; [exact H|]. by intros [[]|] s' h' ?. Qed.

Lemma wp_owning {A} b (p : fallible A) Q s h :
  wp p (fun r s h => match r with
                     | Some (Ok a) => Q (Some (Ok a)) s h
                     | Some r => forall x, Q (Some r) s (h ++ [Ev (DropLease b) x])
                     | None => Q None s h
                     end) s h ->
  wp (owning b p) Q s h.
Proof. intros H. apply wp_bind. eapply wp_mono; [exact H|]. by intros [[]|] s' h' ?. Qed.

Lemma wp_get {A} (f : Sess -> prog A) Q s h : wp (f s) Q s h -> wp (get ≫= f) Q s h.
Proof. done. Qed.
Lemma wp_act {A} c (f : answer c -> prog A) Q s h :
  (forall x, wp (f x) Q s (h ++ [Ev c x])) -> wp (act c ≫= f) Q s h.
Proof. done. Qed.
Lemma wp_put {A} s' (f : unit -> prog A) Q s h : wp (f tt) Q s' h -> wp (put s' ≫= f) Q s h.
Proof. done. Qed.
Lemma wp_modify {A} g (f : unit -> prog A) Q s h : wp (f tt) Q (g s) h -> wp (modify g ≫= f) Q s h.
Proof. done. Qed.

(** What holds of every execution. *)
Lemma wp_sound {A} (p : prog A) Q s h env :
  wp p Q s h -> let '(r, s', h') := run env p s h in Q r s' h'.
Proof. revert s h. induction p as [a|k IH|s0 k IH|c k IH|]; cbn; intros s h Hp; try done; by apply IH. Qed.

Lemma run_bind {A B} env (p : prog A) (f : A -> prog B) s h :
  run env (p ≫= f) s h =
  match run env p s h with
  | (Some a, s', h') => run env (f a) s' h'
  | (None, s', h') => (None, s', h')
  end.
Proof. unfold mbind, prog_bind. revert s h. induction p; cbn; auto. Qed.

Lemma confined_bind {A B} ok I (p : prog A) (f : A -> prog B) s :
  I s -> confined ok I p s -> (forall a s, I s -> confined ok I (f a) s) -> confined ok I (p ≫= f) s.
Proof.
  unfold mbind, prog_bind. revert s. induction p as [a|k IH|s0 k IH|c k IH|]; cbn; intros s Hs Hp Hf; auto.
  - destruct Hp as [? ?]. auto.
  - destruct Hp as [? ?]. auto.
Qed.

Lemma confined_and_then {A B} ok I (p : fallible A) (f : A -> fallible B) s :
  I s -> confined ok I p s -> (forall a s, I s -> confined ok I (f a) s) -> confined ok I (and_then p f) s.
Proof. intros Hs Hp Hf. apply confined_bind; [done..|]. intros [] s' Hs'; cbn; auto. Qed.

Lemma confined_mono {A} (ok ok' : cmd -> Prop) (I I' : Sess -> Prop) (p : prog A) s :
  (forall c, ok c -> ok' c) -> (forall s, I s -> I' s) -> confined ok I p s -> confined ok' I' p s.
Proof.
  intros Hok HI. revert s. induction p as [a|k IH|s0 k IH|c k IH|]; cbn; intros s Hp; auto.
  - destruct Hp. auto.
  - destruct Hp. auto.
Qed.

Lemma confined_get {A} ok I (f : Sess -> prog A) s : confined ok I (f s) s -> confined ok I (get ≫= f) s.
Proof. done. Qed.
Lemma confined_act {A} ok I c (f : answer c -> prog A) s :
  ok c -> (forall x, confined ok I (f x) s) -> confined ok I (act c ≫= f) s.
Proof. done. Qed.
Lemma confined_put {A} ok I s' (f : unit -> prog A) s :
  I s' -> confined ok I (f tt) s' -> confined ok I (put s' ≫= f) s.
Proof. done. Qed.
Lemma confined_modify {A} ok I g (f : unit -> prog A) s :
  I (g s) -> confined ok I (f tt) (g s) -> confined ok I (modify g ≫= f) s.
Proof. done. Qed.

(** A dropped future that owns nothing did a part of what it would have. *)
Lemma confined_timeout {A} (ok : cmd -> Prop) I (p : prog A) s :
  ok Elapsed -> (forall c x, ok c -> owned_after [] c x = []) -> confined ok I p s ->
  confined ok I (timeout [] p) s.
Proof.
  intros He Hown. revert s. induction p as [a|k IH|s0 k IH|c k IH|]; cbn; intros s Hp; auto.
  - destruct Hp. auto.
  - destruct Hp as [Hc Hk]. split; [done|]. intros []; cbn; [done|]. split; [done|].
    intros x. rewrite Hown by done. auto.
Qed.

(** An invariant of the history that these commands keep. *)
Lemma confined_wp {A} (ok : cmd -> Prop) I (J : list event -> Prop) (p : prog A) s h :
  (forall c x h, ok c -> J h -> J (h ++ [Ev c x])) -> I s -> J h -> confined ok I p s ->
  wp p (fun _ s h => I s /\ J h) s h.
Proof.
  intros HJ. revert s h. induction p as [a|k IH|s0 k IH|c k IH|]; cbn; intros s h Hs Hh Hp; auto.
  - destruct Hp. auto.
  - destruct Hp as [Hc Hk]. auto.
Qed.
End Logic.

(** Walks a program down to its commands and assignments. *)
Ltac confine_step :=
  match goal with
  | |- confined _ _ (get ≫= _) _ => apply confined_get
  | |- confined _ _ (act _ ≫= _) _ => apply confined_act; [|intros ?]
  | |- confined _ _ (put _ ≫= _) _ => apply confined_put
  | |- confined _ _ (modify _ ≫= _) _ => apply confined_modify
  | |- confined _ _ (Ret _) _ => exact Logic.I
  | |- confined _ _ Hang _ => exact Logic.I
  | |- confined _ _ (act _) _ => split; [|intros ?; exact Logic.I]
  | |- confined _ _ get _ => exact Logic.I
  | |- confined _ _ (put _) _ => split; [|exact Logic.I]
  | |- confined _ _ (modify _) _ => split; [|exact Logic.I]
  | |- confined _ _ (lift_result _) _ => exact Logic.I
  | |- confined _ _ (let '(_, _) := ?x in _) _ => destruct x
  | |- confined _ _ (match ?x with _ => _ end) _ => destruct x
  | |- confined _ _ (and_then _ _) _ => apply confined_and_then; [| |intros ? ? ?]
  | |- confined _ _ (_ ≫= _) _ => apply confined_bind; [| |intros ? ? ?]
  end.
Ltac confine := repeat (confine_step; cbn beta iota zeta).
