(* ===== verification/Login.v ===== *)
(** * Login: bringing a server connection to its first idle state

    Models [pg-kinetic-proxy/src/proxy/backend_startup.rs] and what of
    [pool/backend.rs] a login records: [bootstrap_backend], where the proxy
    logs in on its own account, and [proxy_startup], where the client's login
    is relayed or, on a connection that is already logged in, answered by the
    proxy itself. The frame helpers are in BackendWire.v, the SASL and MD5
    answers in Auth.v. *)

From S2P Require Import Prelude Text Protocol Frame BackendWire Secrets Auth Cycle Lsn RoutingTypes Route Policy.
From S2P Require Import Sharding ShardExtract Sql SqlClassify Session ReadRouting Prepare Pool Pools RequestPlan.
From S2P Require Import Guardrails Checkout Effects.

(** ** What a connection remembers of its login *)

Record BackendMeta := {
  parameter_status : list (str * str);
  key_data : option (Z * Z);
}.
Definition meta_new : BackendMeta := {| parameter_status := []; key_data := None |}.

(** [push_parameter_status]: a later value replaces the earlier one. *)
Fixpoint set_parameter (name value : str) (ps : list (str * str)) : list (str * str) :=
  match ps with
  | [] => [(name, value)]
  | (n, v) :: ps => if str_eqb n name then (n, value) :: ps else (n, v) :: set_parameter name value ps
  end.
Definition push_parameter_status (m : BackendMeta) (name value : str) : BackendMeta :=
  {| parameter_status := set_parameter name value (parameter_status m); key_data := key_data m |}.
Definition set_key_data (m : BackendMeta) (process_id secret_key : Z) : BackendMeta :=
  {| parameter_status := parameter_status m; key_data := Some (process_id, secret_key) |}.

Definition capture_backend_parameter_status (m : BackendMeta) (f : BackendFrame) : BackendMeta :=
  if negb (btag f =? backend_byte ParameterStatus) then m
  else match parse_parameter_status (bpayload f) with
       | Some (name, value) => push_parameter_status m name value
       | None => m
       end.

Definition capture_backend_key_data (m : BackendMeta) (f : BackendFrame) : BackendMeta * bool :=
  if negb (btag f =? backend_byte BackendKeyData) then (m, false)
  else (match bpayload f with
        | [a; b; c; d; e; g; h; i] => set_key_data m (i32_from_be_bytes a b c d) (i32_from_be_bytes e g h i)
        | _ => m
        end, true).

Definition auth_code (p : bytes) : result failure Z :=
  match auth_request_code p with Ok c => Ok c | _ => bail "authentication request missing code" end.
Definition expects_client_response (p : bytes) : result failure bool :=
  match auth_request_expects_client_response p with
  | Ok b => Ok b
  | _ => bail "authentication request missing code"
  end.

Definition write_backend (b : Backend) (bs : bytes) : fallible unit :=
  written ← act (WriteBackend b bs); Ret (if (written : bool) then Ok tt else Err (Other EIo)).
Definition write_client (bs : bytes) : fallible unit :=
  written ← act (WriteClient bs); Ret (if (written : bool) then Ok tt else Err (Other EIo)).

(** What a login needs: the environment variables, whether the connection
    is encrypted, the service credentials and the startup packet. *)
Record LoginConfig := {
  login_env : Auth.Env;
  login_backend_is_tls : bool;
  login_credentials : option BackendCredentials;
  login_startup_packet : bytes;
}.

Section Login.
Context `{Crypto} (l : LoginConfig).

(** [BackendAuthSession::new] for the service credentials. *)
Definition auth_session : fallible (option BackendAuthSession) :=
  match login_credentials l with
  | None => Ret (Ok None)
  | Some c =>
      random ← act RandomBytes;
      Ret (match session_new (login_env l) random c with
           | Ok a => Ok (Some a) | Err e => Err (Other e) | Panic => Panic
           end)
  end.

(** One authentication request answered by the session. *)
Definition answer_request (b : Backend) (a : BackendAuthSession) (p : bytes) : fallible BackendAuthSession :=
  match respond a p (login_backend_is_tls l) with
  | (Err e, _) => Ret (Err (Other e))
  | (Panic, _) => Ret Panic
  | (Ok None, a) => Ret (Ok a)
  | (Ok (Some response), a) => _ ←? write_backend b response; Ret (Ok a)
  end.

(** ** The proxy logs in: [bootstrap_backend_streams] *)

(** The frames of the buffer; whether the server is ready. *)
Fixpoint bootstrap_frames (fuel : nat) (b : Backend) (buffer : bytes) (a : option BackendAuthSession)
    (m : BackendMeta) : fallible (bool * bytes * option BackendAuthSession * BackendMeta) :=
  match fuel with
  | O => Ret Panic
  | S fuel =>
      parsed ←? lift_result (lift_wire (parse_backend_frame buffer));
      let '(frame, rest) := parsed in
      match frame with
      | None => Ret (Ok (false, rest, a, m))
      | Some f =>
          next ←? (if btag f =? backend_byte Authentication then
                     code ←? lift_result (auth_code (bpayload f));
                     match a with
                     | Some a => a ←? answer_request b a (bpayload f); Ret (Ok (Some a, m))
                     | None =>
                         expects ←? (if code =? 0 then Ret (Ok false)
                                     else lift_result (expects_client_response (bpayload f)));
                         Ret (if (expects : bool)
                              then bail "backend authentication exchange requires client response"
                              else Ok (None, m))
                     end
                   else Ret (Ok (a, fst (capture_backend_key_data (capture_backend_parameter_status m f) f))));
          let '(a, m) := next in
          if bool_decide (ready_status f = Some RS_Idle) then Ret (Ok (true, rest, a, m))
          else bootstrap_frames fuel b rest a m
      end
  end.

(** The read loop: the number of bytes read is not looked at, so the end of
    the stream is a read of none. *)
Fixpoint bootstrap_loop (fuel : nat) (b : Backend) (buffer : bytes) (a : option BackendAuthSession)
    (m : BackendMeta) : fallible BackendMeta :=
  match fuel with
  | O => Hang
  | S fuel =>
      e ← act (ReadBackend b);
      buffer ←? lift_result (match e with
                             | ReadError => Err (Other EIo)
                             | Eof => Ok buffer
                             | Chunk bs => Ok (buffer ++ bs)
                             end);
      next ←? bootstrap_frames (S (length buffer)) b buffer a m;
      let '(done, rest, a, m) := next in
      if (done : bool) then Ret (Ok m) else bootstrap_loop fuel b rest a m
  end.

Definition bootstrap_backend (b : Backend) : fallible BackendMeta :=
  if negb (requires_startup b) then Ret (Ok meta_new)
  else
    _ ←? write_backend b (login_startup_packet l);
    a ←? auth_session;
    reads ← act Patience;
    bootstrap_loop reads b [] a meta_new.

(** ** The client's login: [proxy_startup_streams] *)

Record StartupMode := {
  forward_backend_auth_requests_to_client : bool;
  emit_auth_ok_when_backend_requires_no_startup : bool;
  startup_client_key : option (Z * Z);
  startup_max_client_bytes : Z;
  startup_max_backend_bytes : Z;
}.

(** A password or SASL answer of the client, passed on to the server. *)
Definition relay_auth_response (b : Backend) (mode : StartupMode) : fallible unit :=
  s ← get;
  if startup_max_client_bytes mode <=? len (client_read s) then Ret (Err (BufferLimitExceeded ClientBudget))
  else
    _ ← put (set_client_read s []);
    e ← act ReadClient;
    match e with
    | ReadError => Ret (Err (Other EIo))
    | Eof | Chunk [] => Ret (bail "client disconnected during startup auth")
    | Chunk ((_ :: _) as bs) =>
        _ ← modify (fun s => set_client_read s bs);
        if startup_max_client_bytes mode <? len bs then Ret (Err (BufferLimitExceeded ClientBudget))
        else _ ←? write_backend b bs; _ ← modify (fun s => set_client_read s []); Ret (Ok tt)
    end.

(** One frame of the server; the session, the metadata and whether the
    client has its key. *)
Definition relay_frame (b : Backend) (mode : StartupMode) (f : BackendFrame) (a : option BackendAuthSession)
    (m : BackendMeta) (sent_key : bool) : fallible (option BackendAuthSession * BackendMeta * bool * bool) :=
  if btag f =? backend_byte Authentication then
    code ←? lift_result (auth_code (bpayload f));
    match a with
    | Some a => a ←? answer_request b a (bpayload f); Ret (Ok (Some a, m, sent_key, true))
    | None =>
        if code =? 0 then
          _ ←? (if forward_backend_auth_requests_to_client mode then write_client (encode_backend_frame f)
                else Ret (Ok tt));
          Ret (Ok (None, m, sent_key, true))
        else if forward_backend_auth_requests_to_client mode then
          _ ←? write_client (encode_backend_frame f);
          expects ←? lift_result (expects_client_response (bpayload f));
          _ ←? (if (expects : bool) then relay_auth_response b mode else Ret (Ok tt));
          Ret (Ok (None, m, sent_key, false))
        else Ret (bail "backend authentication exchange is not supported after local auth")
    end
  else
    let '(m, is_key) := capture_backend_key_data (capture_backend_parameter_status m f) f in
    match is_key, startup_client_key mode with
    | true, Some (pid, key) =>
        _ ←? write_client (encode_backend_key_data pid key); Ret (Ok (a, m, true, true))
    | _, _ =>
        sent ←? match bool_decide (is_Some (ready_status f)) && negb sent_key, startup_client_key mode with
                | true, Some (pid, key) => _ ←? write_client (encode_backend_key_data pid key); Ret (Ok true)
                | _, _ => Ret (Ok sent_key)
                end;
        _ ←? write_client (encode_backend_frame f); Ret (Ok (a, m, sent, false))
    end.

(** The frames of the buffer; a [continue] of the source skips the test for
    the end of the login. *)
Fixpoint relay_frames (fuel : nat) (b : Backend) (mode : StartupMode) (a : option BackendAuthSession)
    (m : BackendMeta) (sent_key : bool) : fallible (bool * option BackendAuthSession * BackendMeta * bool) :=
  match fuel with
  | O => Ret Panic
  | S fuel =>
      s ← get;
      parsed ←? lift_result (lift_wire (parse_backend_frame (backend_read s)));
      let '(frame, rest) := parsed in
      _ ← put (set_backend_read s rest);
      match frame with
      | None => Ret (Ok (false, a, m, sent_key))
      | Some f =>
          next ←? relay_frame b mode f a m sent_key;
          let '(a, m, sent_key, skip) := next in
          if negb skip && bool_decide (ready_status f = Some RS_Idle) then Ret (Ok (true, a, m, sent_key))
          else relay_frames fuel b mode a m sent_key
      end
  end.

Fixpoint relay_loop (fuel : nat) (b : Backend) (mode : StartupMode) (a : option BackendAuthSession)
    (m : BackendMeta) (sent_key : bool) : fallible BackendMeta :=
  s ← get;
  if startup_max_backend_bytes mode <=? len (backend_read s) then Ret (Err (BufferLimitExceeded BackendBudget))
  else
    match fuel with
    | O => Hang
    | S fuel =>
        e ← act (ReadBackend b);
        buffer ←? lift_result (match e with
                               | ReadError => Err (Other EIo)
                               | Eof => Ok (backend_read s)
                               | Chunk bs => Ok (backend_read s ++ bs)
                               end);
        _ ← put (set_backend_read s buffer);
        if startup_max_backend_bytes mode <? len buffer then Ret (Err (BufferLimitExceeded BackendBudget))
        else
          next ←? relay_frames (S (length buffer)) b mode a m sent_key;
          let '(done, a, m, sent_key) := next in
          if (done : bool) then Ret (Ok m) else relay_loop fuel b mode a m sent_key
    end.

(** A connection that needs no startup answers with what it recorded at its
    own. *)
Definition proxy_startup (b : Backend) (mode : StartupMode) : fallible BackendMeta :=
  if negb (requires_startup b) then
    remembered ← act (ParameterStatusOf b);
    match startup_client_key mode with
    | None => Ret (bail "client key is required for synthetic startup ready")
    | Some key =>
        _ ←? write_client (synthetic_startup_ready (emit_auth_ok_when_backend_requires_no_startup mode)
                             remembered key);
        Ret (Ok {| parameter_status := remembered; key_data := None |})
    end
  else
    _ ←? write_backend b (login_startup_packet l);
    _ ← modify (fun s => set_backend_read (set_client_read s []) []);
    a ←? auth_session;
    reads ← act Patience;
    relay_loop reads b mode a meta_new false.
End Login.
