(* ===== verification/Forwarding.v ===== *)
(** * Forwarding: one cycle through a server

    Models [pg-kinetic-proxy/src/proxy/forwarding.rs]: the frames the proxy
    writes itself, what a cycle changes in the session before it is sent,
    the bytes sent to the server, what the server's frames change, and the
    loop that forwards the answer, COPY data from the client included.
    [prepare_frame_for_backend] is in Prepare.v; [forward_runtime_cycle],
    the variant of the io_uring engine, is in SharedSession.v. *)

From S2P Require Import Prelude Text Protocol Frame BackendWire Secrets Auth Cycle Lsn RoutingTypes Route Policy.
From S2P Require Import Sharding ShardExtract Sql SqlClassify Session ReadRouting Prepare Pool Pools RequestPlan.
From S2P Require Import Guardrails Checkout Effects.

(** ** Frames the proxy writes *)

Definition simple_query_frame (sql : str) : FrontendFrame :=
  {| tag := frontend_byte Query; payload := encode_utf8 sql ++ [0] |}.
Definition replay_frames (s : Virtual.VirtualSession) : list FrontendFrame :=
  simple_query_frame <$> Virtual.replay_sql s.
Definition sync_frame : FrontendFrame := {| tag := frontend_byte Sync; payload := [] |}.

(** ** The session before the cycle is sent *)

Definition transaction_shard_id_from_sql (sql : str) : option ShardId :=
  match extract_shard_hint sql with
  | HintShard value | HintTenant value | HintRoute value => result_ok (shard_id_new value)
  | HintAbsent | HintUnknown => None
  end.

Definition update_transaction_shard_state_from_sql (s : Virtual.VirtualSession) (sql : str)
    : Virtual.VirtualSession :=
  match Virtual.read_routing_transaction s with
  | None => s
  | Some _ =>
      match transaction_shard_id_from_sql sql with
      | None =>
          match Virtual.transaction_shard s with
          | Some _ => Virtual.mark_transaction_cross_shard_violation s
          | None => s
          end
      | Some shard_id =>
          let reason := default RUnknownQuery (current_transaction_route_reason s) in
          let '(s, decision) := Virtual.apply_transaction_shard_affinity s (Some shard_id) reason in
          match decision with
          | Rejected => Virtual.mark_transaction_cross_shard_violation s
          | Accepted | FollowMultiShardPolicy => s
          end
      end
  end.

(** [update_transaction_state_from_request_plan]; [None] is a panic of the
    SQL classifier. *)
Definition update_transaction_state_from_request_plan (s : Virtual.VirtualSession) (p : RequestPlan)
    (track_routing_state : bool) : option (Virtual.VirtualSession * bool) :=
  '(s, committed) ← Virtual.apply_transaction_sql_with_routing s (rp_sql p) track_routing_state;
  Some (if track_routing_state then update_transaction_shard_state_from_sql s (rp_sql p) else s, committed).

Fixpoint update_transaction_state_from_request_plans (s : Virtual.VirtualSession)
    (plans : list RequestPlan) (track_routing_state : bool) : option (Virtual.VirtualSession * bool) :=
  match plans with
  | [] => Some (s, false)
  | p :: plans =>
      '(s, committed) ← (if updates_transaction_state p
                         then update_transaction_state_from_request_plan s p track_routing_state
                         else Some (s, false));
      '(s, rest) ← update_transaction_state_from_request_plans s plans track_routing_state;
      Some (s, committed || rest)
  end.

(** [update_virtual_session_from_frame]: only a simple query changes the
    session; transaction control was applied before the checkout. *)
Definition update_application_name (command : SqlCommand) (name : option str) : option str :=
  match command with
  | CmdSet ScopeSession key value => if str_eqb key (lit "application_name") then Some value else name
  | CmdReset key => if str_eqb key (lit "application_name") then None else name
  | CmdDiscardAll => None
  | _ => name
  end.
Definition update_session_from_command (command : SqlCommand) (s : Virtual.VirtualSession)
    : Virtual.VirtualSession :=
  match command with
  | CmdBegin _ | CmdCommit | CmdRollback | CmdSetTransaction _ => s
  | command => Virtual.apply_sql s command
  end.
Definition update_virtual_session_from_frame (s : Sess) (command : option SqlCommand) : Sess :=
  match command with
  | None => s
  | Some command =>
      let s := set_application_name s (update_application_name command (route_application_name s)) in
      set_session s (update_session_from_command command (session s))
  end.

(** ** The bytes sent to the server *)

(** [PlannedFrontendCycle]. *)
Record PlannedFrontendCycle := {
  pc_backend_bytes : bytes;
  pc_injected_parse_completes : nat;
}.

(** The loop of [plan_frontend_cycle]. *)
Fixpoint plan_frames (backend_id : Z) (frames : list FrontendFrame) (commands : list SqlCommand)
    (planned : PlannedFrontendCycle) : fallible PlannedFrontendCycle :=
  match frames with
  | [] => Ret (Ok planned)
  | frame :: frames =>
      let is_query := tag frame =? frontend_byte Query in
      match is_query, commands with
      | true, [] => Ret (bail "missing request plan for simple query")
      | _, _ =>
          s ← get;
          match lift_wire (prepare_frame_for_backend backend_id (prepared s) frame) with
          | Err e => Ret (Err e)
          | Panic => Ret Panic
          | Ok (c, plan) =>
              let s := set_prepared s c in
              let command := if is_query then head commands else None in
              _ ← put (update_virtual_session_from_frame s command);
              plan_frames backend_id frames (if is_query then tail commands else commands)
                {| pc_backend_bytes := pc_backend_bytes planned
                     ++ encode_frontend (prelude plan) ++ encode_frontend_frame (Prepare.plan_frame plan);
                   pc_injected_parse_completes :=
                     (pc_injected_parse_completes planned
                      + count_if (fun f => (tag f =? frontend_byte Parse)%Z) (prelude plan))%nat |}
          end
      end
  end.

Definition plan_frontend_cycle (backend_id : Z) (frames : list FrontendFrame) (commands : list SqlCommand)
    : fallible PlannedFrontendCycle :=
  plan_frames backend_id frames commands {| pc_backend_bytes := []; pc_injected_parse_completes := 0 |}.

(** ** What the server's frames change *)

(** The closure of [classify_backend_frames]. *)
Definition on_backend_frame (backend_id : Z) (s : Sess) (f : BackendFrame) : Sess :=
  let is_error := btag f =? backend_byte ErrorResponse in
  let p := progress s in
  let s := set_progress s {| qp_response_started := true;
             qp_rows := if btag f =? backend_byte DataRow then sat_add (qp_rows p) 1 else qp_rows p;
             qp_error := qp_error p || is_error |} in
  let s := match sqlstate f with
           | Some code => set_prepared s (fst (invalidate_for_sqlstate (prepared s) code backend_id))
           | None => s
           end in
  if is_error && bool_decide (Virtual.pin_reason (session s) = Some Virtual.OpenTransaction)
  then set_session s (Virtual.mark_failed_transaction (session s)) else s.

(** [BackendResponseDrain::resume] from the progress of the cycle: the
    counts are kept, [response_started] is the session's. *)
Definition resume (d : BackendResponseDrain) (started : bool) : BackendResponseDrain :=
  {| injected_parse_completes := injected_parse_completes d; ready_count := ready_count d;
     d_expected_ready_count := d_expected_ready_count d; completion_count := completion_count d;
     d_expected_completion_count := d_expected_completion_count d; saw_error := saw_error d;
     response_started := started |}.

(** The loop of [drain_with] with this closure. *)
Fixpoint classify_loop (fuel : nat) (backend_id : Z) (s : Sess) (d : BackendResponseDrain) (buffer : bytes)
    (fwd : list forwarded) (ready : option ReadyStatus)
    : Sess * result WireError (BackendResponseDrain * bytes * list forwarded * option ReadyStatus) :=
  match fuel with
  | O => (s, Panic)
  | S fuel =>
      match parse_backend_frame buffer with
      | Ok (None, rest) => (s, Ok (d, rest, fwd, ready))
      | Ok (Some f, rest) =>
          match drain_frame d f with
          | (d', None) => classify_loop fuel backend_id s d' rest fwd ready
          | (d', Some out) =>
              classify_loop fuel backend_id (on_backend_frame backend_id s f) d' rest (fwd ++ [out])
                (match ready_status f with Some st => Some st | None => ready end)
          end
      | Err e => (s, Err e)
      | Panic => (s, Panic)
      end
  end.

Definition classify_backend_frames (backend_id : Z) (s : Sess) (d : BackendResponseDrain) (buffer : bytes)
    : Sess * result WireError (BackendResponseDrain * bytes * list forwarded * option ReadyStatus) :=
  let '(s, r) := classify_loop (S (length buffer)) backend_id s
                   (resume d (qp_response_started (progress s))) buffer [] None in
  (s, '(d, rest, fwd, ready) ← r;
      Ok (d, rest, fwd,
          if bool_decide (is_Some ready) && (d_expected_ready_count d <=? ready_count d)%nat
          then ready else None)).

(** ** The forwarding loop *)

Inductive ForwardOutcome :=
| FwdReady (status : ReadyStatus)
| FwdClientDisconnectedAfterReady (status : ReadyStatus)
| FwdFlushed
| FwdAbandonedResponse (needs_sync : bool)
| FwdBufferLimitExceeded.

Definition is_copy_from_client_request (t : Z) : bool :=
  (t =? backend_byte CopyInResponse) || (t =? backend_byte CopyBothResponse).

Definition is_copy_header (f : forwarded) : bool :=
  match fst f with t :: _ => is_copy_from_client_request t | [] => false end.

(** What one iteration decides: an outcome, or another read with this
    drain and this COPY state. *)
Abbreviation step_result := (ForwardOutcome + (BackendResponseDrain * bool))%type.

Definition backend_failed {A} (kind : BackendFailureKind) : fallible A :=
  s ← get; Ret (Err (BackendFailure kind (qp_response_started (progress s)))).

(** After bytes arrived from the server. *)
Definition forward_chunk (b : Backend) (max_backend_buffer_bytes : Z) (shape : FrontendCycleShape)
    (d : BackendResponseDrain) (copy : bool) (chunk : bytes) : fallible step_result :=
  s ← get;
  let buffer := backend_read s ++ chunk in
  _ ← put (set_backend_read s buffer);
  if max_backend_buffer_bytes <? len buffer then Ret (Ok (inl FwdBufferLimitExceeded))
  else
    let s := set_backend_read s [] in
    match classify_backend_frames (lease_backend_id b) s d buffer with
    | (s, Err e) => _ ← put s; Ret (Err (Other (EWire e)))
    | (s, Panic) => _ ← put s; Ret Panic
    | (s, Ok (d, rest, fwd, ready)) =>
        _ ← put (set_backend_read s rest);
        let copy := copy || existsb is_copy_header fwd in
        let done := match ready with
                    | Some st => if (expected_ready_count shape <=? ready_count d)%nat then Some st else None
                    | None => None
                    end in
        sent ← (if bool_decide (fwd = []) then Ret true else act (WriteClient (forwarded_bytes fwd)));
        Ret (Ok (if negb sent then
                   inl (match done with
                        | Some st => FwdClientDisconnectedAfterReady st
                        | None => FwdAbandonedResponse (needs_sync shape)
                        end)
                 else match done with
                      | Some st => inl (FwdReady st)
                      | None =>
                          if negb (0 <? expected_ready_count shape)%nat && flush_cycle_complete d
                          then inl FwdFlushed else inr (d, copy)
                      end))
    end.

Definition forward_read (b : Backend) (max : Z) (shape : FrontendCycleShape)
    (d : BackendResponseDrain) (copy : bool) (e : ReadEvent) : fallible step_result :=
  match e with
  | Chunk ((_ :: _) as chunk) => forward_chunk b max shape d copy chunk
  | Chunk [] | Eof | ReadError => backend_failed FailRead
  end.

(** Client bytes of a COPY go to the server verbatim. *)
Definition forward_copy (b : Backend) (shape : FrontendCycleShape) (d : BackendResponseDrain) (copy : bool)
    (e : ReadEvent) : fallible step_result :=
  match e with
  | ReadError => Ret (Err (Other EIo))
  | Chunk [] | Eof => Ret (Ok (inl (FwdAbandonedResponse (needs_sync shape))))
  | Chunk ((_ :: _) as bs) =>
      written ← act (WriteBackend b bs);
      if negb written then backend_failed FailWrite
      else
        flushed ← act (FlushBackend b);
        if negb flushed then backend_failed FailWrite else Ret (Ok (inr (d, copy)))
  end.

Fixpoint forward_loop (fuel : nat) (b : Backend) (max : Z) (shape : FrontendCycleShape)
    (d : BackendResponseDrain) (copy : bool) : fallible ForwardOutcome :=
  s ← get;
  if max <=? len (backend_read s) then Ret (Ok FwdBufferLimitExceeded)
  else
    match fuel with
    | O => Hang
    | S fuel =>
        next ←? (if copy
                 then e ← act (ReadDuplex b);
                      match e with
                      | FromBackend e => forward_read b max shape d copy e
                      | FromClient e => forward_copy b shape d copy e
                      end
                 else e ← act (ReadBackend b); forward_read b max shape d copy e);
        match next with
        | inl outcome => Ret (Ok outcome)
        | inr (d, copy) => forward_loop fuel b max shape d copy
        end
    end.

(** [forward_message_cycle]. *)
Definition forward_message_cycle (b : Backend) (frames : list FrontendFrame) (commands : list SqlCommand)
    (max_backend_buffer_bytes : Z) : fallible ForwardOutcome :=
  planned ←? plan_frontend_cycle (lease_backend_id b) frames commands;
  let shape := from_frames frames in
  written ← act (WriteBackend b (pc_backend_bytes planned));
  if negb written then Ret (Err (BackendFailure FailWrite false))
  else
    flushed ← act (FlushBackend b);
    if negb flushed then Ret (Err (BackendFailure FailWrite false))
    else if expects_no_response shape then Ret (Ok FwdFlushed)
    else
      reads ← act Patience;
      forward_loop reads b max_backend_buffer_bytes shape
        (for_cycle shape (pc_injected_parse_completes planned)) false.
