(* ===== verification/Recovery.v ===== *)
(** * Recovery: what becomes of a server connection after a cycle

    Models [pg-kinetic-core/src/cluster/cleanup.rs] and [recovery.rs],
    [pg-kinetic-core/src/protocol/pin.rs] and
    [pg-kinetic-proxy/src/proxy/recovery.rs]: the queries the proxy runs on
    its own account, the read-after-write probe, bringing an abandoned
    connection back to a known state, the errors a client is told, and what
    happens to a held connection when its client goes. *)

From S2P Require Import Prelude Text Protocol Frame BackendWire Secrets Auth Cycle Lsn RoutingTypes Route Policy.
From S2P Require Import Sharding ShardExtract Sql SqlClassify Session ReadRouting Prepare Pool Pools RequestPlan.
From S2P Require Import Guardrails Checkout Effects Forwarding.

(** ** Decisions *)

Inductive CleanupAction :=
| Reuse | ResetThenReuse | KeepPinned | RollbackThenReuse | RollbackThenKeepPinned | DiscardBackend.
Inductive PoolMode := TransactionMode | SessionMode.
#[global] Instance CleanupAction_eq_dec : EqDecision CleanupAction.
Proof. solve_decision. Defined.
#[global] Instance PoolMode_eq_dec : EqDecision PoolMode.
Proof. solve_decision. Defined.

Definition cleanup_action (s : Virtual.VirtualSession) (backend_status : ReadyStatus) (mode : PoolMode)
    : CleanupAction :=
  if bool_decide (Virtual.pin_reason s = Some Virtual.UnknownProtocolState) then DiscardBackend
  else
    match backend_status with
    | RS_FailedTransaction =>
        match mode with SessionMode => RollbackThenKeepPinned | TransactionMode => RollbackThenReuse end
    | RS_InTransaction => KeepPinned
    | RS_Idle =>
        match mode with
        | SessionMode => KeepPinned
        | TransactionMode =>
            if bool_decide (is_Some (Virtual.pin_reason s)) then KeepPinned
            else if Virtual.has_replayable_settings s then ResetThenReuse
            else Reuse
        end
    end.

Inductive RecoveryMode := RecoverMode | RollbackOnly | DropMode.
Inductive RecoveryTrigger :=
| TriggerFailedTransaction | AbandonedTransaction | AbandonedResponse | TriggerUnknownProtocolState.
Inductive RecoveryAction := NoAction | RollbackAction | DrainAndSync | RollbackAndDrain | DiscardAction.

Definition recovery_action (trigger : RecoveryTrigger) (mode : RecoveryMode) : RecoveryAction :=
  match mode with
  | DropMode => DiscardAction
  | RollbackOnly =>
      match trigger with
      | TriggerFailedTransaction | AbandonedTransaction => RollbackAction
      | AbandonedResponse | TriggerUnknownProtocolState => DiscardAction
      end
  | RecoverMode =>
      match trigger with
      | TriggerFailedTransaction | AbandonedTransaction => RollbackAction
      | AbandonedResponse => DrainAndSync
      | TriggerUnknownProtocolState => DiscardAction
      end
  end.

(** [PinnedBackend]. *)
Definition mark_pinned (s : Sess) (backend_id : Z) : Sess := set_pinned s (Some backend_id).
Definition clear_pinned_backend (s : Sess) : Sess := set_pinned s None.

(** [should_replay_session]. *)
Definition should_replay_session (s : Sess) (backend_id : Z) : bool :=
  Virtual.has_replayable_settings (session s) && negb (bool_decide (pinned_backend s = Some backend_id)).

(** ** Queries of the proxy's own *)

(** The frames of a buffer: the last ready status and what is left. *)
Fixpoint ready_scan (fuel : nat) (buffer : bytes) (ready : option ReadyStatus)
    : result failure (option ReadyStatus * bytes) :=
  match fuel with
  | O => Panic
  | S fuel =>
      '(frame, rest) ← lift_wire (parse_backend_frame buffer);
      match frame with
      | None => Ok (ready, rest)
      | Some f =>
          ready_scan fuel rest (match ready_status f with Some st => Some st | None => ready end)
      end
  end.

(** [await_ready_status]: reads until one read completed a ReadyForQuery;
    what follows it in the buffer is dropped with the buffer. *)
Fixpoint await_loop (fuel : nat) (b : Backend) (max : Z) (buffer : bytes) : fallible ReadyStatus :=
  if max <=? len buffer then Ret (Err (BufferLimitExceeded BackendBudget))
  else
    match fuel with
    | O => Hang
    | S fuel =>
        e ← act (ReadBackend b);
        match e with
        | ReadError => Ret (Err (Other EIo))
        | Eof | Chunk [] => Ret (bail "backend disconnected during response drain")
        | Chunk ((_ :: _) as chunk) =>
            let buffer := buffer ++ chunk in
            if max <? len buffer then Ret (Err (BufferLimitExceeded BackendBudget))
            else
              r ←? lift_result (ready_scan (S (length buffer)) buffer None);
              match r with
              | (Some status, _) => Ret (Ok status)
              | (None, rest) => await_loop fuel b max rest
              end
        end
    end.

Definition await_ready_status (b : Backend) (max : Z) : fallible ReadyStatus :=
  reads ← act Patience; await_loop reads b max [].

Definition execute_backend_batch (b : Backend) (frames : list FrontendFrame) (max : Z) : fallible ReadyStatus :=
  written ← act (WriteBackend b (encode_frontend frames));
  if negb written then Ret (Err (Other EIo)) else await_ready_status b max.

Definition execute_simple_query (b : Backend) (sql : str) (max : Z) : fallible unit :=
  status ←? execute_backend_batch b [simple_query_frame sql] max;
  Ret (if bool_decide (status = RS_Idle) then Ok tt else bail "unexpected backend status").

(** ** The read-after-write probe *)

(** [parse_read_after_write_lsn]. *)
Definition parse_read_after_write_lsn (payload : bytes) : result failure (option PgLsn) :=
  match payload with
  | c0 :: c1 :: rest =>
      if i16_from_be_bytes c0 c1 <=? 0 then Ok None
      else
        match rest with
        | l0 :: l1 :: l2 :: l3 :: rest =>
            let length := i32_from_be_bytes l0 l1 l2 l3 in
            if length <? 0 then Ok None
            else if len rest <? length then Ok None
            else
              match from_utf8 (take (Z.to_nat length) rest) with
              | None => Err (Other EForeign)
              | Some text =>
                  match lsn_from_str text with
                  | Ok l => Ok (Some l)
                  | Err _ => Err (Other EForeign)
                  | Panic => Panic
                  end
              end
        | _ => Ok None
        end
  | _ => Ok None
  end.

(** The frames of a buffer while the probe waits for its row: an answer,
    or the position seen so far and what is left. *)
Fixpoint probe_scan (fuel : nat) (buffer : bytes) (lsn : option PgLsn)
    : result failure (PgLsn + (option PgLsn * bytes)) :=
  match fuel with
  | O => Panic
  | S fuel =>
      '(frame, rest) ← lift_wire (parse_backend_frame buffer);
      match frame with
      | None => Ok (inr (lsn, rest))
      | Some f =>
          if (btag f =? backend_byte DataRow) && bool_decide (lsn = None) then
            lsn ← parse_read_after_write_lsn (bpayload f); probe_scan fuel rest lsn
          else if btag f =? backend_byte ErrorResponse then
            bail "backend returned error during read-after-write probe"
          else if btag f =? backend_byte ReadyForQuery then
            match lsn with
            | Some l => Ok (inl l)
            | None => bail "read-after-write probe returned no LSN"
            end
          else probe_scan fuel rest lsn
      end
  end.

Fixpoint probe_loop (fuel : nat) (b : Backend) (max : Z) (buffer : bytes) (lsn : option PgLsn) : fallible PgLsn :=
  if max <=? len buffer then Ret (Err (BufferLimitExceeded BackendBudget))
  else
    match fuel with
    | O => Hang
    | S fuel =>
        e ← act (ReadBackend b);
        match e with
        | ReadError => Ret (Err (Other EIo))
        | Eof | Chunk [] => Ret (bail "backend disconnected during read-after-write probe")
        | Chunk ((_ :: _) as chunk) =>
            let buffer := buffer ++ chunk in
            if max <? len buffer then Ret (Err (BufferLimitExceeded BackendBudget))
            else
              r ←? lift_result (probe_scan (S (length buffer)) buffer lsn);
              match r with
              | inl l => Ret (Ok l)
              | inr (lsn, rest) => probe_loop fuel b max rest lsn
              end
        end
    end.

Definition probe_read_after_write_requirement (b : Backend) (max : Z) : fallible PgLsn :=
  r ← timeout []
        (written ← act (WriteBackend b (encode_frontend_frame (simple_query_frame (lit "SELECT pg_current_wal_lsn()"))));
         if negb written then Ret (Err (Other EIo))
         else reads ← act Patience; probe_loop reads b max [] None);
  Ret (match r with Some r => r | None => bail "read-after-write probe timed out" end).

(** ** Recovering a connection *)

Definition rollback_session (s : Sess) : fallible unit :=
  match classify (lit "rollback") with
  | Some command => _ ← put (set_session s (Virtual.apply_sql (session s) command)); Ret (Ok tt)
  | None => Ret Panic
  end.

(** [execute_simple_query(.., "ROLLBACK")] and the session after it. *)
Definition rollback (b : Backend) (max : Z) : fallible unit :=
  _ ←? execute_simple_query b (lit "ROLLBACK") max;
  s ← get; rollback_session s.

(** Waiting for the answer of what was sent before, after a Sync when the
    cycle needs one. *)
Definition drain_and_sync (b : Backend) (needs_sync : bool) (max : Z) : fallible unit :=
  status ←? (if needs_sync then execute_backend_batch b [sync_frame] max else await_ready_status b max);
  Ret (if bool_decide (status = RS_Idle) then Ok tt else bail "unexpected recovery status").

Definition recovery_body (b : Backend) (action : RecoveryAction) (needs_sync : bool) (max : Z) : fallible bool :=
  match action with
  | NoAction => Ret (Ok true)
  | RollbackAction => _ ←? rollback b max; Ret (Ok true)
  | DrainAndSync => _ ←? drain_and_sync b needs_sync max; Ret (Ok true)
  | RollbackAndDrain => _ ←? drain_and_sync b needs_sync max; _ ←? rollback b max; Ret (Ok true)
  | DiscardAction => Ret (Ok false)
  end.

Definition recover_backend (b : Backend) (trigger : RecoveryTrigger) (mode : RecoveryMode)
    (needs_sync : bool) (max : Z) : fallible bool :=
  recovered ← timeout [] (recovery_body b (recovery_action trigger mode) needs_sync max);
  Ret (match recovered with
       | Some (Ok reuse) => Ok reuse
       | Some (Err e) => match buffer_limit_kind e with Some _ => Ok false | None => Err e end
       | Some Panic => Panic
       | None => Ok false
       end).

(** ** What a client is told *)

Definition error_response_and_ready_with_state (sqlstate message : str) (status : ReadyStatus) : fallible unit :=
  sent ← act (WriteClient (build_error_response sqlstate message ++ ready_for_query status));
  Ret (if (sent : bool) then Ok tt else Err (Other EIo)).
Definition error_response_and_ready (overload_error_code message : str) : fallible unit :=
  error_response_and_ready_with_state overload_error_code message RS_Idle.
Definition error_response_only (sqlstate message : str) : fallible unit :=
  sent ← act (WriteClient (build_error_response sqlstate message));
  Ret (if (sent : bool) then Ok tt else Err (Other EIo)).

Inductive IdleTimeoutKind := IdleClient | IdleTransaction.
Definition handle_idle_timeout (kind : IdleTimeoutKind) : fallible unit :=
  match kind with
  | IdleClient =>
      error_response_and_ready_with_state (sqlstate_as_str OperatorIntervention) (lit "idle client timed out") RS_Idle
  | IdleTransaction =>
      error_response_only (sqlstate_as_str OperatorIntervention) (lit "idle transaction timed out")
  end.

(** ** A query that ran out of time *)

Definition trigger_for_pin (p : option Virtual.PinReason) : RecoveryTrigger :=
  match p with
  | Some Virtual.OpenTransaction | Some Virtual.FailedTransaction => AbandonedTransaction
  | _ => AbandonedResponse
  end.

(** [handle_query_timeout]: whether the session goes on. *)
Definition handle_query_timeout (b : Backend) (pool_mode : PoolMode) (recovery_mode : RecoveryMode) (max : Z)
    : fallible bool :=
  s ← get;
  let trigger := trigger_for_pin (Virtual.pin_reason (session s)) in
  let started := qp_response_started (progress s) in
  _ ←? owning b (if started then Ret (Ok tt)
                 else error_response_and_ready_with_state (sqlstate_as_str QueryCanceled)
                        (lit "query timed out") RS_Idle);
  recovered ← recover_backend b trigger recovery_mode false max;
  match recovered with
  | Panic => _ ← act (DropLease b); Ret Panic
  | _ =>
      let reused := match recovered with Ok r => r | _ => false end in
      _ ← modify clear_pinned_backend;
      _ ← (if reused then
             match pool_mode with
             | SessionMode => _ ← act (BindCancel b); modify (fun s => set_held s (Some b))
             | TransactionMode => act (Release b)
             end
           else act (Discard b));
      Ret (Ok (negb started))
  end.

(** ** A client that went away *)

(** [finalize_backend_on_disconnect]. *)
Definition finalize_backend_on_disconnect (b : Backend) (reset_query : str) (recovery_mode : RecoveryMode)
    (max : Z) : fallible unit :=
  s ← get;
  match Virtual.pin_reason (session s) with
  | Some Virtual.OpenTransaction | Some Virtual.FailedTransaction =>
      reused ←? owning b (recover_backend b AbandonedTransaction recovery_mode false max);
      _ ← modify clear_pinned_backend;
      _ ← (if (reused : bool) then act (Release b) else act (Discard b));
      Ret (Ok tt)
  | Some _ =>
      _ ← modify clear_pinned_backend; _ ← act (Discard b); Ret (Ok tt)
  | None =>
      _ ←? owning b (if Virtual.has_replayable_settings (session s)
                     then execute_simple_query b reset_query max else Ret (Ok tt));
      _ ← modify clear_pinned_backend; _ ← act (Release b); Ret (Ok tt)
  end.

(** [finalize_held_backend_on_disconnect]. *)
Definition finalize_held_backend_on_disconnect (reset_query : str) (recovery_mode : RecoveryMode) (max : Z)
    : fallible unit :=
  s ← get;
  match held_backend s with
  | None => Ret (Ok tt)
  | Some b =>
      _ ← put (set_held s None);
      _ ← act UnbindCancel;
      finalize_backend_on_disconnect b reset_query recovery_mode max
  end.
