(* ===== verification/ClientSession.v ===== *)
(** * The client session

    Models the session of [pg-kinetic-proxy/src/proxy/client_session.rs]
    after its startup: [handle_client]'s loop, [handle_frame_cycle],
    [handle_forward_result], [finish_ready_backend], and with them
    [checkout_backend] of [checkout.rs], [next_client_cycle] and the cancel
    bindings of [client_io.rs], and the retry decisions of [connection.rs].
    Statistics, audit records, phase timers and snapshots are left out. The
    variant of this loop for the io_uring engine is in SharedSession.v. *)

From S2P Require Import Prelude Text Protocol Frame BackendWire Secrets Auth Cycle Lsn RoutingTypes Route Policy.
From S2P Require Import Sharding ShardExtract Sql SqlClassify Fingerprint Session ReadRouting Prepare Pool Pools RequestPlan.
From S2P Require Import Guardrails Checkout Effects Login Forwarding Recovery.

(** ** Configuration of a session *)

Record SessionConfig := {
  cfg_planner : ReadRoutingPlanner;
  cfg_mode : ReadRoutingMode;
  cfg_fallback : FallbackPolicy;
  cfg_pools : RoutePools;
  read_after_write_protection_enabled : bool;
  overload_error_code : str;
  max_client_buffer_bytes : Z;
  max_backend_buffer_bytes : Z;
  pool_mode : PoolMode;
  recovery_mode : RecoveryMode;
  reset_query : str;
  failover_enabled : bool;
  failover_replay_session_state : bool;
  mirror_enabled : bool;
  cfg_login : LoginConfig;
}.

(** ** Retry decisions *)

Inductive RetryDisposition := NeverRetry | RetryBeforeResponse.
#[global] Instance RetryDisposition_eq_dec : EqDecision RetryDisposition.
Proof. solve_decision. Defined.

Definition retry_disposition (kind : BackendFailureKind) (response_started request_is_safe_to_replay : bool)
    : RetryDisposition :=
  match kind with
  | FailRead => if negb response_started && request_is_safe_to_replay then RetryBeforeResponse else NeverRetry
  | _ => NeverRetry
  end.

Definition failover_ready_status (p : Virtual.PinReason) : ReadyStatus :=
  match p with
  | Virtual.OpenTransaction | Virtual.FailedTransaction => RS_FailedTransaction
  | _ => RS_Idle
  end.

(** ** Lending and giving back *)

Definition release_backend_with_cancel_unbind (b : Backend) : prog unit :=
  _ ← act UnbindCancel; act (Release b).
Definition discard_backend_with_cancel_unbind (b : Backend) : prog unit :=
  _ ← act UnbindCancel; act (Discard b).

(** [checkout_backend]; with [bootstrap] a new connection is logged in. *)
Definition checkout_backend `{Crypto} (login : LoginConfig) (route : RouteKey) (target : RoutingTarget)
    (mode : CheckoutMode) (bootstrap : bool) (ctx : str) : prog (result CheckoutFailure Backend) :=
  match refused_target target with
  | Some f => Ret (Err f)
  | None =>
      r ← act (Checkout route target mode);
      match r with
      | Err e => Ret (Err (failure_of_pool_error e EForeign ctx))
      | Panic => Ret Panic
      | Ok b =>
          if bootstrap && requires_startup b then
            booted ← bootstrap_backend login b;
            match booted with
            | Ok _ => Ret (Ok b)
            | Err e => _ ← act (DropLease b); Ret (Err (Fatal (failure_error e)))
            | Panic => _ ← act (DropLease b); Ret Panic
            end
          else Ret (Ok b)
      end
  end.

Inductive FrameCycleOutcome := Continue | Finish.

Section WithConfig.
Context `{Crypto} (cfg : SessionConfig).

(** ** After the answer *)

(** The freshness a later read must have. *)
Definition probe_after_commit (b : Backend) (status : ReadyStatus) (committed : bool) : fallible unit :=
  if committed && read_after_write_protection_enabled cfg && bool_decide (status = RS_Idle) then
    r ← probe_read_after_write_requirement b (max_backend_buffer_bytes cfg);
    match r with
    | Ok l => _ ← modify (fun s => set_session s (Virtual.set_read_after_write_required (session s) l)); Ret (Ok tt)
    | Err _ => _ ← modify (fun s => set_session s (Virtual.set_read_after_write_unknown (session s))); Ret (Ok tt)
    | Panic => Ret Panic
    end
  else Ret (Ok tt).

Definition finish_action (s : Sess) (status : ReadyStatus) : CleanupAction :=
  if bool_decide (status = RS_Idle) && has_named_statements (prepared s) then KeepPinned
  else cleanup_action (session s) status (pool_mode cfg).

Definition keep_pinned (b : Backend) : prog unit :=
  modify (fun s => set_held (mark_pinned s (lease_backend_id b)) (Some b)).

Definition apply_cleanup (b : Backend) (action : CleanupAction) : fallible unit :=
  let max := max_backend_buffer_bytes cfg in
  match action with
  | Reuse =>
      _ ← modify clear_pinned_backend; _ ← release_backend_with_cancel_unbind b; Ret (Ok tt)
  | ResetThenReuse =>
      _ ←? owning b (execute_simple_query b (reset_query cfg) max);
      _ ← modify clear_pinned_backend; _ ← release_backend_with_cancel_unbind b; Ret (Ok tt)
  | KeepPinned => _ ← keep_pinned b; Ret (Ok tt)
  | RollbackThenReuse =>
      _ ←? owning b (rollback b max);
      _ ← modify clear_pinned_backend; _ ← release_backend_with_cancel_unbind b; Ret (Ok tt)
  | RollbackThenKeepPinned =>
      _ ←? owning b (rollback b max); _ ← keep_pinned b; Ret (Ok tt)
  | DiscardBackend =>
      _ ← modify clear_pinned_backend; _ ← discard_backend_with_cancel_unbind b; Ret (Ok tt)
  end.

Definition finish_ready_backend (b : Backend) (status : ReadyStatus) (committed : bool) : fallible unit :=
  _ ← modify (fun s => set_route s (with_application_name (session_route s) (route_application_name s)));
  _ ←? owning b (probe_after_commit b status committed);
  _ ← modify (fun s => set_session s (Virtual.mark_ready_after_copy (session s)));
  s ← get;
  apply_cleanup b (finish_action s status).

Definition finalize_held : fallible unit :=
  finalize_held_backend_on_disconnect (reset_query cfg) (recovery_mode cfg) (max_backend_buffer_bytes cfg).

(** The answer to a server that failed before it answered. *)
Definition report_backend_failure (started : bool) : fallible unit :=
  if started then Ret (Ok tt)
  else
    s ← get;
    match Virtual.pin_reason (session s) with
    | Some pin =>
        error_response_and_ready_with_state (lit "57P01")
          (lit "backend connection lost; failover unavailable for this session state") (failover_ready_status pin)
    | None =>
        error_response_and_ready_with_state CONNECTION_FAILURE_SQLSTATE
          (lit "backend connection failed before response") RS_Idle
    end.

(** [handle_forward_result]; [None] is a query that ran out of time. *)
Definition handle_forward_result (b : Backend) (r : option (result failure ForwardOutcome)) (committed : bool)
    : fallible FrameCycleOutcome :=
  match r with
  | Some (Ok (FwdReady status)) =>
      _ ←? finish_ready_backend b status committed; Ret (Ok Continue)
  | Some (Ok (FwdClientDisconnectedAfterReady status)) =>
      _ ←? finish_ready_backend b status committed;
      _ ←? finalize_held; Ret (Ok Finish)
  | Some (Ok FwdFlushed) => _ ← modify (fun s => set_held s (Some b)); Ret (Ok Continue)
  | Some (Ok (FwdAbandonedResponse needs_sync)) =>
      reused ←? owning b (recover_backend b AbandonedResponse (recovery_mode cfg) needs_sync
                            (max_backend_buffer_bytes cfg));
      _ ← modify clear_pinned_backend;
      _ ← (if (reused : bool) then release_backend_with_cancel_unbind b
           else discard_backend_with_cancel_unbind b);
      Ret (Ok Finish)
  | Some (Ok FwdBufferLimitExceeded) =>
      _ ← modify clear_pinned_backend; _ ← discard_backend_with_cancel_unbind b; Ret (Ok Finish)
  | Some (Err e) =>
      _ ← modify clear_pinned_backend;
      match e with
      | Effects.BufferLimitExceeded _ => _ ← discard_backend_with_cancel_unbind b; Ret (Ok Finish)
      | BackendFailure _ started =>
          _ ← act (MarkFailed b);
          _ ←? owning b (report_backend_failure started);
          _ ← discard_backend_with_cancel_unbind b; Ret (Ok Finish)
      | Other _ => _ ← discard_backend_with_cancel_unbind b; Ret (Err e)
      end
  | Some Panic => _ ← act (DropLease b); Ret Panic
  | None =>
      _ ← act UnbindCancel;
      go_on ←? handle_query_timeout b (pool_mode cfg) (recovery_mode cfg) (max_backend_buffer_bytes cfg);
      if negb go_on then Ret (Ok Finish)
      else _ ← modify (fun s => set_wait s true); Ret (Ok Continue)
  end.

(** ** Sending the cycle, once or twice *)

Definition forward_attempt (b : Backend) (frames : list FrontendFrame) (commands : list SqlCommand)
    : prog (option (result failure ForwardOutcome)) :=
  _ ← modify (fun s => set_progress s progress_default);
  timeout [] (forward_message_cycle b frames commands (max_backend_buffer_bytes cfg)).

(** Whether the failure of an attempt allows another; [None] is a panic. *)
Definition may_retry (frames : list FrontendFrame) (plans : list RequestPlan) (s : Sess)
    (r : option (result failure ForwardOutcome)) : option bool :=
  match r with
  | Some (Err (BackendFailure kind started)) =>
      plain ← safe_request_to_replay frames plans (session s) false;
      safe ← (if (plain : bool) then Some true
              else if failover_enabled cfg
              then safe_request_to_replay frames plans (session s) (failover_replay_session_state cfg)
              else Some false);
      Some (bool_decide (retry_disposition kind started safe = RetryBeforeResponse))
  | _ => Some false
  end.

(** A connection for the second attempt, within the reconnect budget. *)
Definition replacement_backend (route : RouteKey) (target : RoutingTarget) (replay : list FrontendFrame)
    : fallible Backend :=
  _ ← act PauseWait;
  r ← checkout_backend (cfg_login cfg) route target AllowConnect true (lit "checkout backend for failure retry");
  match r with
  | Err _ => Ret (bail "backend failover checkout failed")
  | Panic => Ret Panic
  | Ok b =>
      owning b
        (if bool_decide (replay = []) then Ret (Ok b)
         else
           status ←? execute_backend_batch b replay (max_backend_buffer_bytes cfg);
           Ret (if bool_decide (status = RS_Idle) then Ok b else bail "unexpected failover replay status"))
  end.

Definition failover_error (message : string) : fallible FrameCycleOutcome :=
  _ ←? error_response_and_ready_with_state (lit "57P01") (lit message) RS_Idle; Ret (Ok Finish).

(** The fingerprints taken for the statistics, which can panic; a cycle that
    was only flushed takes none. *)
Definition statistics_panic (plans : list RequestPlan) (r : option (result failure ForwardOutcome)) : bool :=
  match r with
  | Some (Ok FwdFlushed) => false
  | _ => existsb (fun p => bool_decide (fingerprint_sql (rp_sql p) = None)) plans
  end.

Definition conclude (b : Backend) (plans : list RequestPlan) (r : option (result failure ForwardOutcome))
    (committed : bool) : fallible FrameCycleOutcome :=
  if statistics_panic plans r then _ ← act (DropLease b); Ret Panic else handle_forward_result b r committed.

(** The second attempt after a failed first one. *)
Definition retry_cycle (b : Backend) (route : RouteKey) (target : RoutingTarget)
    (frames : list FrontendFrame) (plans : list RequestPlan) (commands : list SqlCommand) (committed : bool)
    : fallible FrameCycleOutcome :=
  _ ← act (MarkFailed b);
  _ ← discard_backend_with_cancel_unbind b;
  passed ← act QueryDeadlinePassed;
  if (passed : bool) then failover_error "backend connection lost; failover reconnect timed out"
  else
    s ← get;
    let replay := if failover_replay_session_state cfg then replay_frames (session s) else [] in
    r ← timeout [] (replacement_backend route target replay);
    match r with
    | Some (Ok b) =>
        _ ← act (BindCancel b);
        result ← forward_attempt b frames commands;
        conclude b plans result committed
    | Some Panic => Ret Panic
    | _ => failover_error "backend connection lost; failover unavailable"
    end.

Definition forward_with_retry (b : Backend) (route : RouteKey) (target : RoutingTarget)
    (frames : list FrontendFrame) (plans : list RequestPlan) (committed : bool) : fallible FrameCycleOutcome :=
  let commands := rp_command <$> List.filter updates_session_state plans in
  result ← forward_attempt b frames commands;
  s ← get;
  match may_retry frames plans s result with
  | None => _ ← act (DropLease b); Ret Panic
  | Some true => retry_cycle b route target frames plans commands committed
  | Some false => conclude b plans result committed
  end.

(** ** One cycle *)

(** The guardrails over the plans of a cycle: whether one is refused. *)
Fixpoint guardrails_deny (plans : list RequestPlan) : fallible bool :=
  match plans with
  | [] => Ret (Ok false)
  | p :: plans =>
      match plan_analysis p with
      | None => Ret Panic
      | Some a =>
          d ← act (EvaluateGuardrails a (rp_sql p));
          match d with
          | None => Ret Panic
          | Some (Some _) => Ret (Ok true)
          | Some None => guardrails_deny plans
          end
      end
  end.

Definition cycle_selection (s : Sess) (plans : list RequestPlan) (snapshots : list ReplicaHealthSnapshot)
    : ReadRoutingSelection :=
  {| sel_planner := cfg_planner cfg; sel_pools := cfg_pools cfg; sel_snapshots := snapshots;
     sel_mode := cfg_mode cfg; sel_fallback := cfg_fallback cfg; sel_session := session s;
     sel_plan := head plans |}.

(** The target of the cycle: [(base, target)], the second after waiting for
    a replica when no connection is held. *)
Definition cycle_target (s : Sess) (plans : list RequestPlan) : fallible (RoutingTarget * RoutingTarget) :=
  base ←? (if bool_decide (cfg_mode cfg = ModeOff) then Ret (Ok (ToPrimary TOff))
           else t ← act (SelectTarget (cycle_selection s plans));
                Ret (match t with Some t => Ok t | None => Panic end));
  match held_backend s, base with
  | None, ToWait TFallbackWait =>
      t ← act (WaitTarget (cycle_selection s plans));
      Ret (match t with Some t => Ok (base, t) | None => Panic end)
  | _, _ => Ret (Ok (base, base))
  end.

(** The connection of the cycle: the held one, or one lent for it; the
    outcome when there is none. *)
Definition cycle_backend (s : Sess) (route : RouteKey) (target : RoutingTarget)
    : fallible (FrameCycleOutcome + Backend) :=
  match held_backend s with
  | Some b => _ ← put (set_held s None); Ret (Ok (inr b))
  | None =>
      _ ← act PauseWait;
      r ← checkout_backend (cfg_login cfg) route target AllowConnect true (lit "checkout backend for cycle");
      match r with
      | Ok b => Ret (Ok (inr b))
      | Err (Overload message) =>
          _ ←? error_response_and_ready (overload_error_code cfg) message; Ret (Ok (inl Finish))
      | Err (PostgresFailure code message) =>
          _ ←? error_response_and_ready_with_state code message RS_Idle; Ret (Ok (inl Finish))
      | Err CloseClient => Ret (Ok (inl Finish))
      | Err (Fatal e) => Ret (Err (Other e))
      | Panic => Ret Panic
      end
  end.

(** Session settings a new connection needs. *)
Definition replay_session (b : Backend) : fallible (list FrontendFrame) :=
  s ← get;
  if should_replay_session s (lease_backend_id b) then
    let replay := replay_frames (session s) in
    status ←? execute_backend_batch b replay (max_backend_buffer_bytes cfg);
    Ret (if bool_decide (status = RS_Idle) then Ok replay else bail "unexpected replay status")
  else Ret (Ok []).

Definition run_cycle (b : Backend) (route : RouteKey) (base target : RoutingTarget)
    (frames : list FrontendFrame) (plans : list RequestPlan) (committed : bool) : fallible FrameCycleOutcome :=
  _ ← act (BindCancel b);
  replay ←? owning b (replay_session b);
  _ ← (if mirror_enabled cfg then act (MirrorCycle base replay frames) else Ret tt);
  forward_with_retry b route target frames plans committed.

(** [handle_frame_cycle]. *)
Definition handle_frame_cycle (frames : list FrontendFrame) : fallible FrameCycleOutcome :=
  s ← get;
  let full := negb (bool_decide (cfg_mode cfg = ModeOff)) in
  match lift_wire (request_plans_for_frames (prepared s) frames full (plan_cache s)) with
  | Err e => Ret (Err e)
  | Panic => Ret Panic
  | Ok (cache, plans) =>
      _ ← put (set_plan_cache s cache);
      denied ←? guardrails_deny plans;
      if (denied : bool) then
        _ ←? error_response_and_ready (overload_error_code cfg) (lit "query rejected by configured safety policy");
        Ret (Ok Continue)
      else
        s ← get;
        match update_transaction_state_from_request_plans (session s) plans full with
        | None => Ret Panic
        | Some (v, committed) =>
            let s := set_session s v in
            _ ← put s;
            targets ←? cycle_target s plans;
            let '(base, target) := targets in
            acquired ←? cycle_backend s (session_route s) target;
            match acquired with
            | inl outcome => Ret (Ok outcome)
            | inr b => run_cycle b (session_route s) base target frames plans committed
            end
        end
  end.

(** ** The session loop *)

Inductive ClientCycle := Frames (frames : list FrontendFrame) | Terminated | IdleTimedOut | ClientLimitExceeded.

(** [next_client_cycle] without its reads: what the bytes at hand amount
    to; [None] when more are needed. *)
Definition buffered_cycle (s : Sess) : Sess * result failure (option ClientCycle) :=
  match lift_wire (take_frontend_cycle_bytes (client_read s) (max_client_buffer_bytes cfg)) with
  | Err e => (s, Err e)
  | Panic => (s, Panic)
  | Ok (read, rest) =>
      let s := set_client_read s rest in
      (s, match read with
          | CycleComplete bs _ => Some ∘ Frames <$> lift_wire (parse_frontend_cycle_frames bs)
          | CycleTerminate _ => Ok (Some Terminated)
          | Cycle.BufferLimitExceeded => Ok (Some ClientLimitExceeded)
          | NeedMoreBytes =>
              Ok (if max_client_buffer_bytes cfg <=? len rest then Some ClientLimitExceeded else None)
          end)
  end.

Definition idle_timeout_kind (s : Sess) : IdleTimeoutKind :=
  match Virtual.pin_reason (session s) with
  | Some Virtual.OpenTransaction | Some Virtual.FailedTransaction => IdleTransaction
  | _ => IdleClient
  end.

(** What an idle session does with one event: a cycle to handle, or
    nothing more. *)
Definition on_idle_event (e : IdleEvent) : fallible (option ClientCycle) :=
  s ← get;
  match e with
  | IdleFromClient ReadError => Ret (Err (Other EIo))
  | IdleFromClient (Eof | Chunk []) => Ret (Ok (Some Terminated))
  | IdleFromClient (Chunk ((_ :: _) as bs)) =>
      let buffer := client_read s ++ bs in
      _ ← put (set_client_read s buffer);
      Ret (Ok (if max_client_buffer_bytes cfg <? len buffer then Some ClientLimitExceeded else None))
  | IdleElapsed => Ret (Ok (Some IdleTimedOut))
  | IdleFromBackend e =>
      match held_backend s with
      | None => Ret (Ok None)
      | Some b =>
          match e with
          | Chunk ((_ :: _) as bs) =>
              sent ← act (WriteClient bs);
              Ret (if (sent : bool) then Ok None else Err (Other EIo))
          | Chunk [] | Eof | ReadError =>
              _ ← put (set_held s None);
              _ ← discard_backend_with_cancel_unbind b; Ret (Ok None)
          end
      end
  end.

(** One cycle of the client: [true] when the session is over. *)
Definition handle_cycle (cycle : ClientCycle) (kind : IdleTimeoutKind) : fallible bool :=
  _ ← modify (fun s => set_wait s false);
  match cycle with
  | Frames frames =>
      outcome ←? handle_frame_cycle frames;
      Ret (Ok (match outcome with Finish => true | Continue => false end))
  | Terminated => _ ←? finalize_held; Ret (Ok true)
  | ClientLimitExceeded => _ ←? finalize_held; Ret (Ok true)
  | IdleTimedOut =>
      _ ←? finalize_held;
      _ ← modify (fun s => set_client_read s []);
      _ ←? handle_idle_timeout kind;
      match kind with
      | IdleTransaction => Ret (Ok true)
      | IdleClient => _ ← modify (fun s => set_wait s true); Ret (Ok false)
      end
  end.

(** The loop of [handle_client]: each iteration handles a cycle that is
    already buffered or waits for an event. *)
Fixpoint session_loop (fuel : nat) : fallible unit :=
  match fuel with
  | O => Hang
  | S fuel =>
      s ← get;
      let kind := idle_timeout_kind s in
      match buffered_cycle s with
      | (s, Err e) => _ ← put s; Ret (Err e)
      | (s, Panic) => _ ← put s; Ret Panic
      | (s, Ok (Some cycle)) =>
          _ ← put s;
          over ←? handle_cycle cycle kind;
          if (over : bool) then Ret (Ok tt) else session_loop fuel
      | (s, Ok None) =>
          _ ← put s;
          e ← act (AwaitIdle (held_backend s) (negb (wait_for_client_activity s)));
          cycle ←? on_idle_event e;
          match cycle with
          | None => session_loop fuel
          | Some cycle =>
              over ←? handle_cycle cycle kind;
              if (over : bool) then Ret (Ok tt) else session_loop fuel
          end
      end
  end.

(** [handle_client] from its loop on: at the end a connection still held is
    dropped and the cancel key is removed. *)
Definition run_session : fallible unit :=
  events ← act Patience;
  r ← session_loop events;
  s ← get;
  _ ← match held_backend s with
      | Some b => _ ← put (set_held s None); act (DropLease b)
      | None => Ret tt
      end;
  _ ← act RemoveCancelSession;
  Ret r.
End WithConfig.
