(* ===== verification/Admission.v ===== *)
(** * Admission: from an accepted socket to a session

    Models the startup of a client: [read_startup_packet_with_buffer] of
    [proxy/client_io.rs] with its TLS upgrade, [RoutePoolSelector] and
    [RoutePolicy] of [proxy.rs], and [complete_client_startup] and
    [handle_client] of [proxy/client_session.rs]. Loading the TLS
    configuration and the users file are their results, arguments here. *)

From S2P Require Import Prelude Text Protocol Startup Frame BackendWire Secrets Auth Cycle Lsn RoutingTypes Route Policy.
From S2P Require Import Sharding ShardExtract Sql SqlClassify Session ReadRouting Prepare Pool Pools RequestPlan.
From S2P Require Import Guardrails Checkout Effects Login Forwarding Recovery ClientSession.

Definition INVALID_CATALOG_NAME_SQLSTATE : str := lit "3D000".
Definition SQL_PLAN_CACHE_CAPACITY : nat := 4096.

(** ** The route of a client *)

Record RoutePolicy := {
  policy_planner : ReadRoutingPlanner;
  policy_read_after_write : bool;
}.

(** [RoutePolicy::from_route_config], of the route's planner settings. *)
Definition from_route_config (p : ReadRoutingPlanner) : RoutePolicy :=
  {| policy_planner := p;
     policy_read_after_write :=
       match pl_freshness_policy p with SessionWriteLsn | SessionWriteLsnAndMaxLag => true | _ => false end |}.

Record RoutePoolSelector := {
  default_pools : option RoutePools;
  default_policy : option RoutePolicy;
  registry : RoutePoolRegistry;
  policies : list (PoolKey * RoutePolicy);
}.

(** [RoutePoolSelector::default] and [::configured]. *)
Definition selector_default (p : RoutePools) (policy : RoutePolicy) : RoutePoolSelector :=
  {| default_pools := Some p; default_policy := Some policy; registry := []; policies := [] |}.
Definition selector_configured (reg : RoutePoolRegistry) (ps : list (PoolKey * RoutePolicy)) : RoutePoolSelector :=
  {| default_pools := None; default_policy := None; registry := reg; policies := ps |}.

Definition selector_resolve (sel : RoutePoolSelector) (route : RouteKey) : option RoutePools :=
  match registry_route_pools (registry sel) route with Some p => Some p | None => default_pools sel end.
Definition selector_policy (sel : RoutePoolSelector) (route : RouteKey) : option RoutePolicy :=
  match assoc pool_key_eqb (selection_key route) (policies sel) with
  | Some p => Some p
  | None => default_policy sel
  end.

Record StartupBackendPlan := {
  plan_user : str;
  plan_application_name : option str;
  plan_route : RouteKey;
  plan_pools : RoutePools;
  plan_policy : RoutePolicy;
  plan_packet : bytes;
}.

Inductive StartupBackendPlanError := UnknownRoute (database user : str) | InvalidPlan (e : error).

(** The message of [UnknownRoute]; 34 is the quotation mark. *)
Definition unknown_route_message (database user : str) : str :=
  lit "database " ++ [34] ++ database ++ [34] ++ lit " for user " ++ [34] ++ user ++ [34]
  ++ lit " is not configured on this proxy".

Definition startup_backend_plan (sel : RoutePoolSelector) (packet : bytes) (addr : SocketAddr)
    (backend_user : option str) : result StartupBackendPlanError StartupBackendPlan :=
  '(database, user, application_name) ← map_err InvalidPlan (startup_route_key packet);
  let route := route_key database user application_name addr in
  match selector_resolve sel route with
  | None => Err (UnknownRoute database user)
  | Some pools =>
      policy ← map_err InvalidPlan (some_or (selector_policy sel route) "missing policy for selected route");
      rewritten ← map_err InvalidPlan (rewrite_backend_startup_user packet backend_user);
      Ok {| plan_user := user; plan_application_name := application_name; plan_route := route;
            plan_pools := pools; plan_policy := policy; plan_packet := rewritten |}
  end.

(** ** The first packet *)

Inductive ClientTlsMode := TlsDisable | TlsAllow | TlsRequire | TlsVerifyClient.
#[global] Instance ClientTlsMode_eq_dec : EqDecision ClientTlsMode.
Proof. solve_decision. Defined.

Definition client_tls_required (m : ClientTlsMode) : bool :=
  match m with TlsRequire | TlsVerifyClient => true | _ => false end.

Inductive FirstPacket :=
| FirstPacketRead (packet : bytes)
| FirstCancel (process_id secret_key : Z)
| FirstClosed
| FirstTimedOut
| FirstLimitExceeded.

Record AdmissionConfig := {
  adm_tls_mode : ClientTlsMode;
  adm_tls_config : result error bool;    (* [load_client_tls_server_config]; whether there is one *)
  adm_users : result error bool;         (* [load_auth_users]; whether there is a store *)
  adm_auth_mode : AuthMode;
  adm_selector : RoutePoolSelector;
  adm_client_addr : SocketAddr;
  adm_env : Auth.Env;
  adm_backend_is_tls : bool;
  adm_credentials : option BackendCredentials;
}.

Section WithAdmission.
Context `{HC : Crypto} (adm : AdmissionConfig) (cfg : SessionConfig).

(** An SSLRequest: refused, or answered with [S] and a handshake, after
    which the bytes that came in the clear are gone. *)
Definition accept_encryption (has_config : bool) : fallible unit :=
  match adm_tls_mode adm with
  | TlsDisable => write_client (encode_utf8 (lit "N"))
  | mode =>
      _ ←? write_client (encode_utf8 (lit "S"));
      if negb has_config then Ret (bail "client TLS server config is unavailable")
      else
        r ← act (StartTls (bool_decide (mode = TlsVerifyClient)));
        match r with
        | Err e => Ret (Err (Other e))
        | Panic => Ret Panic
        | Ok certified =>
            if bool_decide (mode = TlsVerifyClient) && negb certified
            then Ret (bail "client certificate is required")
            else _ ← modify (fun s => set_client_read s []); Ret (Ok tt)
        end
  end.

(** [read_startup_packet_with_buffer]; [tls] is [client.is_tls()]. *)
Fixpoint read_startup_packet (fuel : nat) (has_config tls : bool) : fallible FirstPacket :=
  match fuel with
  | O => Hang
  | S fuel =>
      s ← get;
      taken ←? lift_result (lift_wire (take_startup_packet_bytes (client_read s) (max_client_buffer_bytes cfg)));
      let '(read, rest) := taken in
      _ ← put (set_client_read s rest);
      match read with
      | StartupRead packet =>
          Ret (if client_tls_required (adm_tls_mode adm) && negb tls then bail "client TLS is required"
               else Ok (FirstPacketRead packet))
      | StartupCancel _ process_id secret_key => Ret (Ok (FirstCancel process_id secret_key))
      | EncryptionRequest EncSsl =>
          _ ←? accept_encryption has_config;
          read_startup_packet fuel has_config (tls || negb (bool_decide (adm_tls_mode adm = TlsDisable)))
      | EncryptionRequest EncGss =>
          _ ←? write_client (encode_utf8 (lit "N")); read_startup_packet fuel has_config tls
      | StartupBufferLimitExceeded => Ret (Ok FirstLimitExceeded)
      | StartupNeedMoreBytes =>
          if max_client_buffer_bytes cfg <=? len rest then Ret (Ok FirstLimitExceeded)
          else
            e ← act ReadClientInTime;
            match e with
            | None => Ret (Ok FirstTimedOut)
            | Some ReadError => Ret (Err (Other EIo))
            | Some (Eof | Chunk []) => Ret (Ok FirstClosed)
            | Some (Chunk ((_ :: _) as bs)) =>
                _ ← modify (fun s => set_client_read s (rest ++ bs));
                if max_client_buffer_bytes cfg <? len (rest ++ bs) then Ret (Ok FirstLimitExceeded)
                else read_startup_packet fuel has_config tls
            end
      end
  end.

(** ** Authentication and the first connection *)

Definition authenticate (user : str) : fallible bool :=
  if bool_decide (adm_auth_mode adm = PassThrough) then Ret (Ok true)
  else
    match adm_users adm with
    | Ok true =>
        outcome ← act (AuthenticateClient user);
        Ret (match outcome with
             | Ok (OutcomePassThrough | Authenticated) => Ok true
             | Ok Auth.Rejected => Ok false
             | Err e => Err (Other e)
             | Panic => Panic
             end)
    | _ => Ret (bail "auth user store unavailable")
    end.

Definition login_config (packet : bytes) : LoginConfig :=
  {| login_env := adm_env adm; login_backend_is_tls := adm_backend_is_tls adm;
     login_credentials := adm_credentials adm; login_startup_packet := packet |}.

Definition startup_mode (key : Z * Z) : StartupMode :=
  let pass_through := bool_decide (adm_auth_mode adm = PassThrough) in
  {| forward_backend_auth_requests_to_client := pass_through;
     emit_auth_ok_when_backend_requires_no_startup := pass_through;
     startup_client_key := Some key;
     startup_max_client_bytes := max_client_buffer_bytes cfg;
     startup_max_backend_bytes := max_backend_buffer_bytes cfg |}.

(** The checkout, the login relayed to the client, and the release. *)
Definition first_connection (key : Z * Z) (plan : StartupBackendPlan) : fallible (option StartupBackendPlan) :=
  let login := login_config (plan_packet plan) in
  let mode := if bool_decide (adm_auth_mode adm = PassThrough) then PreferConnect else AllowConnect in
  _ ← act PauseWait;
  r ← checkout_backend login (plan_route plan) (ToPrimary TOff) mode false (lit "checkout backend for startup");
  match r with
  | Panic => Ret Panic
  | Err (Overload message) =>
      _ ←? error_response_and_ready (overload_error_code cfg) message; Ret (Ok None)
  | Err (PostgresFailure code message) =>
      _ ←? error_response_and_ready_with_state code message RS_Idle; Ret (Ok None)
  | Err CloseClient => Ret (Ok None)
  | Err (Fatal e) => Ret (Err (Other e))
  | Ok b =>
      r ← proxy_startup login b (startup_mode key);
      match r with
      | Ok _ =>
          _ ← act (Release b);
          _ ← (if bool_decide (adm_credentials adm = None) then Ret tt else act ScheduleWarmup);
          Ret (Ok (Some plan))
      | Err e =>
          _ ← act (Discard b);
          Ret (match buffer_limit_kind e with Some _ => Ok None | None => Err e end)
      | Panic => _ ← act (DropLease b); Ret Panic
      end
  end.

(** From the startup packet on. *)
Definition admit_client (key : Z * Z) (packet : bytes) : fallible (option StartupBackendPlan) :=
  match startup_backend_plan (adm_selector adm) packet (adm_client_addr adm) (username <$> adm_credentials adm) with
  | Err (UnknownRoute database user) =>
      _ ←? error_response_and_ready_with_state INVALID_CATALOG_NAME_SQLSTATE
             (unknown_route_message database user) RS_Idle;
      Ret (Ok None)
  | Err (InvalidPlan e) => Ret (Err (Other e))
  | Panic => Ret Panic
  | Ok plan =>
      ok ←? authenticate (plan_user plan);
      if (ok : bool) then first_connection key plan else Ret (Ok None)
  end.

(** [complete_client_startup]: the plan of an admitted client. The guard of
    the cancel key removes it when the client is not admitted. *)
Definition complete_client_startup : fallible (option StartupBackendPlan) :=
  match adm_tls_config adm, adm_users adm with
  | Ok has_config, Ok _ =>
      awaits ← act Patience;
      first ←? read_startup_packet awaits has_config false;
      match first with
      | FirstClosed | FirstLimitExceeded => Ret (Ok None)
      | FirstTimedOut =>
          _ ←? error_response_and_ready_with_state (sqlstate_as_str OperatorIntervention)
                 (lit "startup timed out") RS_Idle;
          Ret (Ok None)
      | FirstCancel process_id secret_key => _ ← act (ForwardCancel (process_id, secret_key)); Ret (Ok None)
      | FirstPacketRead packet =>
          issued ← act IssueClientKey;
          match issued with
          | Err e => Ret (Err (Other e))
          | Panic => Ret Panic
          | Ok key =>
              r ← admit_client key packet;
              _ ← match r with Ok (Some _) => Ret tt | _ => act RemoveCancelSession end;
              Ret r
          end
      end
  | Err e, _ | Ok _, Err e => Ret (Err (Other e))
  | Panic, _ | Ok _, Panic => Ret Panic
  end.

(** ** The whole session *)

(** The configuration and the variables an admitted session starts with. *)
Definition session_config (plan : StartupBackendPlan) : SessionConfig :=
  let planner := policy_planner (plan_policy plan) in
  {| cfg_planner := planner; cfg_mode := read_routing_mode planner; cfg_fallback := pl_fallback_policy planner;
     cfg_pools := plan_pools plan;
     read_after_write_protection_enabled := policy_read_after_write (plan_policy plan);
     overload_error_code := overload_error_code cfg; max_client_buffer_bytes := max_client_buffer_bytes cfg;
     max_backend_buffer_bytes := max_backend_buffer_bytes cfg; pool_mode := pool_mode cfg;
     recovery_mode := recovery_mode cfg; reset_query := reset_query cfg;
     failover_enabled := failover_enabled cfg;
     failover_replay_session_state := failover_replay_session_state cfg; mirror_enabled := mirror_enabled cfg;
     cfg_login := login_config (plan_packet plan) |}.

Definition session_start (session_id : Z) (plan : StartupBackendPlan) (s : Sess) : Sess :=
  {| session := Virtual.fresh; prepared := catalog_new session_id; plan_cache := cache_new SQL_PLAN_CACHE_CAPACITY;
     pinned_backend := None; held_backend := None; route_application_name := plan_application_name plan;
     session_route := plan_route plan; client_read := client_read s; backend_read := backend_read s;
     progress := progress_default; wait_for_client_activity := false |}.

Definition handle_client (session_id : Z) : fallible unit :=
  admitted ←? complete_client_startup;
  match admitted with
  | None => Ret (Ok tt)
  | Some plan =>
      _ ← modify (session_start session_id plan);
      run_session (session_config plan)
  end.
End WithAdmission.
