(* ===== verification/Custody.v ===== *)
(** * Custody: who owns a server connection, and when it can be cancelled

    A session's history of commands is read by an automaton that knows
    which connection is lent to the session and whether the client's cancel
    key points at it. The theorem: no history of [handle_client] breaks the
    rules, whatever the network, the pools and the other tasks do. *)

From S2P Require Import Prelude Text Protocol Frame BackendWire Secrets Auth Cycle Lsn RoutingTypes Route Policy.
From S2P Require Import Sharding ShardExtract Sql SqlClassify Session ReadRouting Prepare Pool Pools RequestPlan.
From S2P Require Import Guardrails Checkout Effects Login Forwarding Recovery ClientSession Admission.

(** ** The rules *)

(** The lent connection and whether the cancel key is bound; [None] once a
    rule is broken. *)
Abbreviation ledger := (option (option Backend * bool)).

Definition require (b : bool) (l : ledger) : ledger := if b then l else None.

Definition rule (g : option Backend * bool) (e : event) : ledger :=
  let '(lent, bound) := g in
  match e with
  | Ev (Checkout _ _ _) r =>
      match r with Ok b => require (bool_decide (lent = None)) (Some (Some b, bound)) | _ => Some g end
  | Ev (Release b) _ | Ev (Discard b) _ =>
      require (bool_decide (lent = Some b) && negb bound) (Some (None, bound))
  | Ev (DropLease b) _ => require (bool_decide (lent = Some b)) (Some (None, bound))
  | Ev (BindCancel b) _ => require (bool_decide (lent = Some b)) (Some (lent, true))
  | Ev UnbindCancel _ | Ev RemoveCancelSession _ => Some (lent, false)
  | Ev (MarkFailed b) _ | Ev (ParameterStatusOf b) _ | Ev (WriteBackend b _) _ | Ev (FlushBackend b) _
  | Ev (ReadBackend b) _ | Ev (ReadDuplex b) _ => require (bool_decide (lent = Some b)) (Some g)
  | Ev (AwaitIdle held _) _ => require (bool_decide (lent = held)) (Some g)
  | _ => Some g
  end.

Definition ledger_step (l : ledger) (e : event) : ledger :=
  match l with Some g => rule g e | None => None end.
Definition ledger_of (h : list event) : ledger := fold_left ledger_step h (Some (None, false)).

Section Rules.
Lemma ledger_snoc h e : ledger_of (h ++ [e]) = ledger_step (ledger_of h) e.
Proof. unfold ledger_of. by rewrite fold_left_app. Qed.

(** Commands that only use the connection [b]. *)
Definition uses (b : Backend) (c : cmd) : Prop :=
  match c with
  | MarkFailed b' | ParameterStatusOf b' | WriteBackend b' _ | FlushBackend b' | ReadBackend b' | ReadDuplex b' => b' = b
  | SelectTarget _ | WaitTarget _ | EvaluateGuardrails _ _ | PauseWait | WriteClient _ | MirrorCycle _ _ _
  | ReadClient | RandomBytes | Elapsed | QueryDeadlinePassed | Patience => True
  | _ => False
  end.

(** Commands that use none. *)
Definition uses_none (c : cmd) : Prop :=
  match c with
  | SelectTarget _ | WaitTarget _ | EvaluateGuardrails _ _ | PauseWait | WriteClient _ | MirrorCycle _ _ _
  | ReadClient | ReadClientInTime | StartTls _ | IssueClientKey | ForwardCancel _ | AuthenticateClient _
  | ScheduleWarmup | RandomBytes | Elapsed | QueryDeadlinePassed | Patience => True
  | _ => False
  end.

Lemma uses_ledger b c x h bound :
  uses b c -> ledger_of h = Some (Some b, bound) -> ledger_of (h ++ [Ev c x]) = Some (Some b, bound).
Proof.
  intros Hc Hh. rewrite ledger_snoc, Hh. destruct c; cbn in *; subst; try done;
    unfold require; by rewrite bool_decide_true.
Qed.

Lemma uses_none_ledger c x h g : uses_none c -> ledger_of h = Some g -> ledger_of (h ++ [Ev c x]) = Some g.
Proof. intros Hc Hh. rewrite ledger_snoc, Hh. destruct g. by destruct c. Qed.

Lemma uses_owned b c x : uses b c -> owned_after [] c x = [].
Proof. by destruct c. Qed.

(** A program that only uses [b] leaves the ledger and the held connection
    alone. *)
Definition user {A} (b : Backend) (p : prog A) : Prop :=
  forall hd s, held_backend s = hd -> confined (uses b) (fun s => held_backend s = hd) p s.

Lemma user_wp {A} b (p : prog A) s h bound :
  user b p -> ledger_of h = Some (Some b, bound) ->
  wp p (fun _ s' h' => held_backend s' = held_backend s /\ ledger_of h' = Some (Some b, bound)) s h.
Proof.
  intros Hp Hh. apply confined_wp with (ok := uses b) (I := fun s' => held_backend s' = held_backend s)
    (J := fun h => ledger_of h = Some (Some b, bound)); auto.
  - intros c x h' Hc Hh'. by apply uses_ledger.
Qed.
End Rules.

(** ** Programs that only use a connection *)

Ltac user_tac := intros hd s0 Hhd; confine; try done; try (cbn; congruence).

Section Users.
Context `{HC : Crypto} (b : Backend).

Lemma user_timeout {A} (p : prog A) : user b p -> user b (timeout [] p).
Proof. intros Hp hd s Hs. apply confined_timeout; [done|by apply uses_owned|by apply Hp]. Qed.

Lemma user_and_then {A B} (p : fallible A) (f : A -> fallible B) :
  user b p -> (forall a, user b (f a)) -> user b (and_then p f).
Proof. intros Hp Hf hd s Hs. apply confined_and_then; [done|by apply Hp|]. intros a s' Hs'. by apply Hf. Qed.

Lemma await_loop_user fuel max buffer : user b (await_loop fuel b max buffer).
Proof. revert buffer. induction fuel as [|fuel IH]; intros buffer; cbn [await_loop]; user_tac. by apply IH. Qed.

Lemma execute_backend_batch_user frames max : user b (execute_backend_batch b frames max).
Proof. unfold execute_backend_batch, await_ready_status. user_tac. by apply await_loop_user. Qed.

Lemma execute_simple_query_user sql max : user b (execute_simple_query b sql max).
Proof. apply user_and_then; [apply execute_backend_batch_user|]. intros a. user_tac. Qed.

Lemma rollback_user max : user b (rollback b max).
Proof.
  apply user_and_then; [apply execute_simple_query_user|]. intros a. unfold rollback_session. user_tac.
Qed.

Lemma drain_and_sync_user needs_sync max : user b (drain_and_sync b needs_sync max).
Proof.
  apply user_and_then; [|intros a; user_tac]. destruct needs_sync; [apply execute_backend_batch_user|].
  unfold await_ready_status. user_tac. by apply await_loop_user.
Qed.

Lemma recover_backend_user trigger mode needs_sync max : user b (recover_backend b trigger mode needs_sync max).
Proof.
  intros hd s Hs. apply confined_bind; [done| |done]. apply user_timeout; [|done].
  unfold recovery_body. clear hd s Hs; destruct (recovery_action _ _);
    repeat (apply user_and_then; [first [apply rollback_user|apply drain_and_sync_user]|intros ?]); user_tac.
Qed.

Lemma probe_loop_user fuel max buffer lsn : user b (probe_loop fuel b max buffer lsn).
Proof.
  revert buffer lsn. induction fuel as [|fuel IH]; intros buffer lsn; cbn [probe_loop]; user_tac. by apply IH.
Qed.

Lemma probe_user max : user b (probe_read_after_write_requirement b max).
Proof.
  intros hd s Hs. apply confined_bind; [done| |done]. apply user_timeout; [|done].
  clear hd s Hs. user_tac. by apply probe_loop_user.
Qed.

Lemma probe_after_commit_user cfg status committed : user b (probe_after_commit cfg b status committed).
Proof. unfold probe_after_commit. user_tac. by apply probe_user. Qed.

Lemma error_response_user code message status : user b (error_response_and_ready_with_state code message status).
Proof. unfold error_response_and_ready_with_state. user_tac. Qed.

Lemma report_backend_failure_user started : user b (report_backend_failure started).
Proof. unfold report_backend_failure. user_tac; by apply error_response_user. Qed.

Lemma replay_session_user cfg : user b (replay_session cfg b).
Proof. unfold replay_session. user_tac. by apply execute_backend_batch_user. Qed.

(** *** Logging in *)

Lemma write_backend_user bs : user b (write_backend b bs).
Proof. unfold write_backend. user_tac. Qed.

Lemma answer_request_user l a p : user b (answer_request l b a p).
Proof. unfold answer_request, write_backend. user_tac. Qed.

Lemma auth_session_user l : user b (auth_session l).
Proof. unfold auth_session. user_tac. Qed.

Lemma bootstrap_frames_user l fuel buffer a m : user b (bootstrap_frames l fuel b buffer a m).
Proof.
  revert buffer a m. induction fuel as [|fuel IH]; intros buffer a m; cbn [bootstrap_frames]; user_tac;
    first [by apply answer_request_user|by apply IH].
Qed.

Lemma bootstrap_loop_user l fuel buffer a m : user b (bootstrap_loop l fuel b buffer a m).
Proof.
  revert buffer a m. induction fuel as [|fuel IH]; intros buffer a m; cbn [bootstrap_loop]; user_tac;
    first [by apply bootstrap_frames_user|by apply IH].
Qed.

Lemma bootstrap_backend_user l : user b (bootstrap_backend l b).
Proof.
  unfold bootstrap_backend. user_tac; first [by apply write_backend_user|by apply auth_session_user|by apply bootstrap_loop_user].
Qed.

(** *** Forwarding *)

Lemma update_virtual_session_held s command :
  held_backend (update_virtual_session_from_frame s command) = held_backend s.
Proof. by destruct command. Qed.

Lemma on_backend_frame_held id s f : held_backend (on_backend_frame id s f) = held_backend s.
Proof. unfold on_backend_frame. destruct (sqlstate f); cbn; by destruct (_ && _). Qed.

Lemma classify_loop_held fuel id s d buffer fwd ready :
  held_backend (fst (classify_loop fuel id s d buffer fwd ready)) = held_backend s.
Proof.
  revert s d buffer fwd ready. induction fuel as [|fuel IH]; intros s d buffer fwd ready; cbn [classify_loop]; [done|].
  destruct (parse_backend_frame buffer) as [[[f|] rest]| |]; try done.
  destruct (drain_frame d f) as [d' [out|]]; rewrite IH; [apply on_backend_frame_held|done].
Qed.

Lemma classify_backend_frames_held id s d buffer :
  held_backend (fst (classify_backend_frames id s d buffer)) = held_backend s.
Proof.
  unfold classify_backend_frames.
  pose proof (classify_loop_held (S (length buffer)) id s (resume d (qp_response_started (progress s))) buffer [] None).
  by destruct (classify_loop _ _ _ _ _ _ _).
Qed.

Lemma plan_frames_user id frames commands planned : user b (plan_frames id frames commands planned).
Proof.
  revert commands planned. induction frames as [|f frames IH]; intros commands planned; cbn [plan_frames]; [done|].
  user_tac; rewrite ?update_virtual_session_held; try done; apply IH; by rewrite update_virtual_session_held.
Qed.

Lemma forward_chunk_user max shape d copy chunk : user b (forward_chunk b max shape d copy chunk).
Proof.
  intros hd s Hs. unfold forward_chunk. apply confined_get, confined_put; [done|]. cbn beta iota zeta.
  case_match; [done|].
  pose proof (classify_backend_frames_held (lease_backend_id b) (set_backend_read s []) d (backend_read s ++ chunk)) as Hc.
  destruct (classify_backend_frames _ _ _ _) as [s' [[[[d' rest] fwd] ready]| |]]; cbn in Hc; confine; try done; cbn; congruence.
Qed.

Lemma forward_read_user max shape d copy e : user b (forward_read b max shape d copy e).
Proof.
  unfold forward_read, backend_failed. destruct e as [[|x bs]| |]; try (user_tac; fail). apply forward_chunk_user.
Qed.

Lemma forward_copy_user shape d copy e : user b (forward_copy b shape d copy e).
Proof. unfold forward_copy, backend_failed. user_tac. Qed.

Lemma forward_loop_user fuel max shape d copy : user b (forward_loop fuel b max shape d copy).
Proof.
  revert d copy. induction fuel as [|fuel IH]; intros d copy; cbn [forward_loop]; user_tac;
    first [by apply forward_read_user|by apply forward_copy_user|by apply IH].
Qed.

Lemma forward_attempt_user cfg frames commands : user b (forward_attempt cfg b frames commands).
Proof.
  unfold forward_attempt. intros hd s Hs. apply confined_modify; [done|]. apply user_timeout; [|done].
  clear dependent s hd. apply user_and_then; [apply plan_frames_user|]. intros planned. cbv zeta. user_tac.
  by apply forward_loop_user.
Qed.
End Users.

(** ** Keeping the ledger and the session in step *)

(** Between cycles: what the session holds is what it was lent, and the
    cancel key is bound to nothing else. *)
Definition at_rest (s : Sess) (h : list event) : Prop :=
  exists bound, ledger_of h = Some (held_backend s, bound) /\ (held_backend s = None -> bound = false).
(** After an error: what the session holds is what it was lent. *)
Definition closing (s : Sess) (h : list event) : Prop :=
  exists bound, ledger_of h = Some (held_backend s, bound).
(** During a cycle: [b] is lent and not held. *)
Definition working (b : Backend) (bound : bool) (s : Sess) (h : list event) : Prop :=
  held_backend s = None /\ ledger_of h = Some (Some b, bound).

Definition kept {A} (r : option (result failure A)) (s : Sess) (h : list event) : Prop :=
  match r with
  | Some (Ok _) => at_rest s h
  | Some _ => closing s h
  | None => ledger_of h <> None
  end.

(** At the end: nothing is lent and the key points nowhere. *)
Definition ended {A} (r : option A) (s : Sess) (h : list event) : Prop :=
  ledger_of h <> None /\ (is_Some r -> ledger_of h = Some (None, false) /\ held_backend s = None).

Section Steps.
Lemma at_rest_closing s h : at_rest s h -> closing s h.
Proof. intros (bound & H & _). by exists bound. Qed.

Lemma working_bind b bound x s h : working b bound s h -> working b true s (h ++ [Ev (BindCancel b) x]).
Proof.
  intros [Hs Hh]. split; [done|]. rewrite ledger_snoc, Hh. cbn. unfold require. by rewrite bool_decide_true.
Qed.

Lemma working_unbind b bound x s h : working b bound s h -> working b false s (h ++ [Ev UnbindCancel x]).
Proof. intros [Hs Hh]. split; [done|]. by rewrite ledger_snoc, Hh. Qed.

Lemma working_use b bound c x s h : uses b c -> working b bound s h -> working b bound s (h ++ [Ev c x]).
Proof. intros Hc [Hs Hh]. split; [done|]. by apply uses_ledger. Qed.

Lemma at_rest_use c x s h : uses_none c -> at_rest s h -> at_rest s (h ++ [Ev c x]).
Proof. intros Hc (bound & Hh & Hb). exists bound. split; [|done]. by apply uses_none_ledger. Qed.

Lemma working_drop b bound x s h : working b bound s h -> closing s (h ++ [Ev (DropLease b) x]).
Proof.
  intros [Hs Hh]. exists bound. rewrite ledger_snoc, Hh, Hs. cbn. unfold require. by rewrite bool_decide_true.
Qed.

Lemma working_hold b bound s h : working b bound s h -> at_rest (set_held s (Some b)) h.
Proof. intros [Hs Hh]. by exists bound. Qed.

(** Giving the connection back once its cancel key is unbound. *)
Lemma working_release b x s h : working b false s h -> at_rest s (h ++ [Ev (Release b) x]).
Proof.
  intros [Hs Hh]. exists false. rewrite ledger_snoc, Hh, Hs. cbn. unfold require. by rewrite bool_decide_true.
Qed.

Lemma working_discard b x s h : working b false s h -> at_rest s (h ++ [Ev (Discard b) x]).
Proof.
  intros [Hs Hh]. exists false. rewrite ledger_snoc, Hh, Hs. cbn. unfold require. by rewrite bool_decide_true.
Qed.

Lemma wp_release {A} b bound (q : fallible A) s h :
  working b bound s h -> (forall h, at_rest s h -> wp q kept s h) ->
  wp (_ ← release_backend_with_cancel_unbind b; q) kept s h.
Proof. intros Hw Hq x y. by eapply Hq, working_release, working_unbind. Qed.

Lemma wp_discard {A} b bound (q : fallible A) s h :
  working b bound s h -> (forall h, at_rest s h -> wp q kept s h) ->
  wp (_ ← discard_backend_with_cancel_unbind b; q) kept s h.
Proof. intros Hw Hq x y. by eapply Hq, working_discard, working_unbind. Qed.

(** A program that uses the connection, and what follows it. *)
Lemma wp_working {A B} b bound (p : prog A) (f : A -> fallible B) s h :
  user b p -> working b bound s h -> (forall a s h, working b bound s h -> wp (f a) kept s h) ->
  wp (p ≫= f) kept s h.
Proof.
  intros Hp [Hs Hh] Hf. apply wp_bind. eapply wp_mono; [by apply user_wp|].
  intros [a|] s' h' [Hs' Hh']; [|by cbn; rewrite Hh']. apply Hf. split; [by rewrite Hs'|done].
Qed.

Lemma wp_working_owning {A B} b bound (p : fallible A) (f : A -> fallible B) s h :
  user b p -> working b bound s h -> (forall a s h, working b bound s h -> wp (f a) kept s h) ->
  wp (x ←? owning b p; f x) kept s h.
Proof.
  intros Hp [Hs Hh] Hf. apply wp_and_then, wp_owning. eapply wp_mono; [by apply user_wp|].
  intros r s' h' [Hs' Hh']. assert (working b bound s' h') as Hw by (split; [by rewrite Hs'|done]).
  destruct r as [[a|e|]|]; cbn; eauto using working_drop. by rewrite Hh'.
Qed.

(** A program that returns with the ledger in step, and what follows. *)
Lemma wp_kept {A B} (p : fallible A) (f : A -> fallible B) s h :
  wp p kept s h -> (forall a s h, at_rest s h -> wp (f a) kept s h) -> wp (and_then p f) kept s h.
Proof.
  intros Hp Hf. apply wp_and_then. eapply wp_mono; [exact Hp|]. intros [[a|e|]|] s' h' H; auto.
Qed.
End Steps.

(** *** Deadlines on a program that borrows

    The leases a dropped future owns are those its history was lent. *)
Section Deadlines.
Lemma answer_inhabited c : Inhabited (answer c).
Proof.
  destruct c; cbn; repeat constructor; try exact Logic.I; try exact false; try exact Eof;
    first [exact (Err tt)|exact (Err EIo)|exact Panic|idtac].
Qed.

Lemma ledger_broken h e : ledger_of h = None -> ledger_of (h ++ [e]) = None.
Proof. intros Hh. by rewrite ledger_snoc, Hh. Qed.

(** A ledger that ends unbroken was never broken. *)
Lemma wp_unbroken {A} (p : prog A) (Q : option A -> Sess -> list event -> Prop) s h :
  (forall r s h, Q r s h -> ledger_of h <> None) -> wp p Q s h -> ledger_of h <> None.
Proof.
  intros HQ. revert s h. induction p as [a|k IH|s0 k IH|c k IH|]; cbn; intros s h Hp; eauto.
  intros Hh. destruct (answer_inhabited c) as [x]. eapply (IH x); [apply Hp|]. by apply ledger_broken.
Qed.

Definition keeps_binding (c : cmd) : Prop :=
  match c with BindCancel _ | UnbindCancel | RemoveCancelSession => False | _ => True end.

Lemma rule_owned c x lent bound lent' bound' :
  keeps_binding c -> rule (lent, bound) (Ev c x) = Some (lent', bound') ->
  bound' = bound /\ owned_after (option_list lent) c x = option_list lent'.
Proof.
  intros Hc Hr. destruct c; cbn in *; unfold require in Hr; try done; repeat case_match; simplify_eq; try done;
    repeat match goal with
    | H : bool_decide _ = true |- _ => apply bool_decide_eq_true_1 in H
    | H : _ && _ = true |- _ => apply andb_prop in H as [? ?]
    end; subst; cbn; rewrite ?bool_decide_true by done; done.
Qed.

Lemma wp_drop_all {A} lent bound (p : prog A) Q s h :
  ledger_of h = Some (lent, bound) ->
  (forall h, ledger_of h = Some (None, bound) -> wp p Q s h) -> wp (drop_all (option_list lent) p) Q s h.
Proof.
  intros Hh Hp. destruct lent as [b|]; cbn; [|by apply Hp]. intros x. apply Hp.
  rewrite ledger_snoc, Hh. cbn. unfold require. by rewrite bool_decide_true.
Qed.

Lemma wp_timeout {A} (p : prog A) Q (R : option A -> Sess -> ledger -> Prop) lent bound s h0 h :
  confined keeps_binding (fun s' => held_backend s' = held_backend s) p s ->
  (forall r s l, R r s l -> l <> None) ->
  wp p (fun r s h => R r s (ledger_of h)) s h0 -> ledger_of h0 = Some (lent, bound) ->
  ledger_of h = Some (lent, bound) ->
  (forall a s' h', R (Some a) s' (ledger_of h') -> Q (Some (Some a)) s' h') ->
  (forall s' h', held_backend s' = held_backend s -> ledger_of h' = Some (None, bound) -> Q (Some None) s' h') ->
  wp (timeout (option_list lent) p) Q s h.
Proof.
  intros Hc HR Hp Hh0 Hh Hok Hlate. remember (held_backend s) as hd eqn:Hd. symmetry in Hd.
  revert s h0 h lent Hd Hc Hp Hh0 Hh.
  induction p as [a|k IH|s0 k IH|c k IH|]; cbn; intros s h0 h lent Hd Hc Hp Hh0 Hh; eauto.
  - apply Hok. by rewrite Hh, <- Hh0.
  - destruct Hc as [? ?]. by eapply IH.
  - intros e. assert (ledger_of (h ++ [Ev Elapsed e]) = Some (lent, bound)) as He by (by apply uses_none_ledger).
    destruct e; [by eapply wp_drop_all; [exact He|]; intros h' Hh'; apply Hlate|].
    destruct Hc as [Hcmd Hk]. intros x. specialize (Hp x).
    assert (ledger_of (h0 ++ [Ev c x]) <> None) as Hn by (eapply wp_unbroken; [|exact Hp]; naive_solver).
    assert (ledger_of (h0 ++ [Ev c x]) = rule (lent, bound) (Ev c x)) as E1 by (by rewrite ledger_snoc, Hh0).
    destruct (rule (lent, bound) (Ev c x)) as [[lent' bound']|] eqn:E; [|by rewrite E1 in Hn].
    destruct (rule_owned _ _ _ _ _ _ Hcmd E) as [-> ->].
    eapply (IH x); eauto. rewrite ledger_snoc, He. exact E.
  - eapply wp_drop_all; [exact Hh|]. intros h' Hh'. by apply Hlate.
Qed.
End Deadlines.

(** ** The cycle, one operation after the other *)

Section Cycle.
Context `{HC : Crypto} (cfg : SessionConfig).

Lemma apply_cleanup_kept b bound action s h : working b bound s h -> wp (apply_cleanup cfg b action) kept s h.
Proof.
  intros Hw. destruct action; cbn [apply_cleanup].
  - by apply (wp_release b bound).
  - apply (wp_working_owning _ bound); [apply execute_simple_query_user|done|]. intros [] s' h' Hw'.
    by apply (wp_release b bound).
  - apply (working_hold b bound (mark_pinned s (lease_backend_id b))), Hw.
  - apply (wp_working_owning _ bound); [apply rollback_user|done|]. intros [] s' h' Hw'.
    by apply (wp_release b bound).
  - apply (wp_working_owning _ bound); [apply rollback_user|done|]. intros [] s' h' Hw'.
    apply (working_hold b bound (mark_pinned s' (lease_backend_id b))), Hw'.
  - by apply (wp_discard b bound).
Qed.

Lemma finish_ready_backend_kept b bound status committed s h :
  working b bound s h -> wp (finish_ready_backend cfg b status committed) kept s h.
Proof.
  intros Hw. apply (wp_working_owning _ bound); [apply probe_after_commit_user|exact Hw|].
  intros [] s' h' Hw'. by apply (apply_cleanup_kept b bound).
Qed.

Lemma finalize_backend_kept b reset mode max s h :
  working b false s h -> wp (finalize_backend_on_disconnect b reset mode max) kept s h.
Proof.
  intros Hw. unfold finalize_backend_on_disconnect. apply wp_get.
  assert (wp (reused ←? owning b (recover_backend b AbandonedTransaction mode false max);
              _ ← modify clear_pinned_backend;
              _ ← (if (reused : bool) then act (Release b) else act (Discard b));
              Ret (Ok tt)) kept s h) as Hr.
  { apply (wp_working_owning _ false); [apply recover_backend_user|done|]. intros [] s' h' Hw' x.
    - by apply working_release.
    - by apply working_discard. }
  destruct (Virtual.pin_reason (session s)) as [[]|]; try exact Hr; try (intros x; by apply working_discard).
  apply (wp_working_owning _ false); [|done|intros [] s' h' Hw' x; by apply working_release].
  destruct (Virtual.has_replayable_settings _); [apply execute_simple_query_user|by intros ???].
Qed.

Lemma finalize_held_kept s h : at_rest s h -> wp (finalize_held cfg) kept s h.
Proof.
  intros Hr. unfold finalize_held, finalize_held_backend_on_disconnect. apply wp_get. destruct (held_backend s) as [b|] eqn:E; [|exact Hr].
  intros x. apply finalize_backend_kept. destruct Hr as (bound & Hh & _). rewrite E in Hh.
  by apply (working_unbind b bound).
Qed.

Lemma handle_query_timeout_kept b mode rmode max s h :
  working b false s h -> wp (handle_query_timeout b mode rmode max) kept s h.
Proof.
  intros Hw. unfold handle_query_timeout. apply wp_get.
  apply (wp_working_owning _ false); [|done|].
  { case_match; [by intros ???|apply error_response_user]. }
  intros [] s1 h1 Hw1. apply (wp_working b false); [apply recover_backend_user|done|].
  intros r s2 h2 Hw2.
  assert (forall reused : bool, wp (_ ← modify clear_pinned_backend;
      _ ← (if reused then match mode with
             | SessionMode => _ ← act (BindCancel b); modify (fun s => set_held s (Some b))
             | TransactionMode => act (Release b)
             end else act (Discard b));
      Ret (Ok (negb (qp_response_started (progress s))))) kept s2 h2) as Hr.
  { intros [] ; [destruct mode|]; intros x.
    - by apply working_release.
    - by apply (working_hold b true), (working_bind b false).
    - by apply working_discard. }
  destruct r as [reused|e|]; [apply Hr|apply (Hr false)|]. intros x. by apply (working_drop b false).
Qed.

Lemma handle_forward_result_kept b bound r committed s h :
  working b bound s h -> wp (handle_forward_result cfg b r committed) kept s h.
Proof.
  intros Hw. destruct r as [[[status|status| |needs_sync|]|e|]|]; cbn [handle_forward_result].
  - apply wp_kept; [by apply (finish_ready_backend_kept b bound)|]. by intros [] s' h' Hr.
  - apply wp_kept; [by apply (finish_ready_backend_kept b bound)|]. intros [] s' h' Hr.
    apply wp_kept; [by apply finalize_held_kept|]. by intros [] s'' h'' Hr'.
  - by apply (working_hold b bound).
  - apply (wp_working_owning _ bound); [apply recover_backend_user|done|]. intros [] s' h' Hw'.
    + by apply (wp_release b bound).
    + by apply (wp_discard b bound).
  - by apply (wp_discard b bound).
  - destruct e as [k started|k|e].
    + intros x. apply (wp_working_owning _ bound); [apply report_backend_failure_user|by apply working_use|].
      intros [] s' h' Hw'. by apply (wp_discard b bound).
    + by apply (wp_discard b bound).
    + apply (wp_discard b bound); [done|]. intros h' Hr. by apply at_rest_closing.
  - intros x. by apply (working_drop b bound).
  - intros x. apply wp_kept; [by apply handle_query_timeout_kept, (working_unbind b bound)|].
    by intros [] s' h' Hr.
Qed.

Lemma conclude_kept b bound plans r committed s h :
  working b bound s h -> wp (conclude cfg b plans r committed) kept s h.
Proof.
  intros Hw. unfold conclude. destruct (statistics_panic plans r); [|by apply (handle_forward_result_kept b bound)].
  intros x. by apply (working_drop b bound).
Qed.

(** *** Borrowing *)

Definition borrowed {E} (r : option (result E Backend)) (s : Sess) (l : ledger) : Prop :=
  match r with
  | Some (Ok b) => held_backend s = None /\ l = Some (Some b, false)
  | Some _ => held_backend s = None /\ l = Some (None, false)
  | None => l <> None
  end.

Lemma ledger_checkout_ok route target mode b h :
  ledger_of h = Some (None, false) -> ledger_of (h ++ [Ev (Checkout route target mode) (Ok b)]) = Some (Some b, false).
Proof. intros Hh. by rewrite ledger_snoc, Hh. Qed.

Lemma ledger_drop b h x bound :
  ledger_of h = Some (Some b, bound) -> ledger_of (h ++ [Ev (DropLease b) x]) = Some (None, bound).
Proof. intros Hh. rewrite ledger_snoc, Hh. cbn. unfold require. by rewrite bool_decide_true. Qed.

Lemma checkout_backend_borrows login route target mode bootstrap ctx s h :
  held_backend s = None -> ledger_of h = Some (None, false) ->
  wp (checkout_backend login route target mode bootstrap ctx) (fun r s h => borrowed r s (ledger_of h)) s h.
Proof.
  intros Hs Hh. unfold checkout_backend. destruct (refused_target target); [done|].
  apply wp_act. intros [b|e|]; cbn -[ledger_of wp]; [|by cbn; rewrite ledger_snoc, Hh..].
  pose proof (ledger_checkout_ok route target mode b h Hh) as Hb.
  destruct (bootstrap && requires_startup b); [|done]. apply wp_bind.
  eapply wp_mono; [by apply (user_wp b), Hb; apply bootstrap_backend_user|].
  intros r s' h' [Hs' Hh']. rewrite Hs in Hs'.
  destruct r as [[m|e|]|]; [done| | |by cbn; rewrite Hh']; intros ?; split; eauto using ledger_drop.
Qed.

Lemma replacement_backend_borrows route target replay s h :
  held_backend s = None -> ledger_of h = Some (None, false) ->
  wp (replacement_backend cfg route target replay) (fun r s h => borrowed r s (ledger_of h)) s h.
Proof.
  intros Hs Hh x. apply (wp_bind (checkout_backend _ _ _ _ _ _)). eapply wp_mono.
  { apply checkout_backend_borrows; [done|]. by apply uses_none_ledger. }
  intros [[b|e|]|] s' h' Hb; try exact Hb. destruct Hb as [Hs' Hh'].
  apply wp_owning. case_bool_decide; [done|]. apply wp_and_then.
  eapply wp_mono; [apply (user_wp b _ _ _ false); [apply execute_backend_batch_user|done]|].
  intros r s'' h'' [Hs'' Hh'']. rewrite Hs' in Hs''.
  destruct r as [[status|e|]|]; [case_bool_decide; [done|]| | |by rewrite Hh''];
    intros ?; split; auto using ledger_drop.
Qed.

(** The connection of a retry, or none, within the reconnect budget. *)
Lemma timed_replacement_borrows route target replay s h :
  held_backend s = None -> ledger_of h = Some (None, false) ->
  wp (timeout [] (replacement_backend cfg route target replay))
     (fun r s h => match r with
                   | Some (Some (Ok b)) => working b false s h
                   | Some _ => at_rest s h
                   | None => ledger_of h <> None
                   end) s h.
Proof.
  intros Hs Hh. apply (wp_timeout _ _ borrowed None false s h h); try done.
  - unfold replacement_backend, checkout_backend, owning. confine; try done; rewrite Hs in *.
    + eapply confined_mono; [| |by eapply (bootstrap_backend_user _ _ None)]; [by intros []|done].
    + eapply confined_mono; [| |by eapply (execute_backend_batch_user _ _ _ None)]; [by intros []|done].
  - intros [[]|]; naive_solver.
  - by apply replacement_backend_borrows.
  - intros [b|e|] s' h'; cbn; [done|intros [E1 E2]..]; exists false; by rewrite E1, E2.
  - intros s' h' E1 E2. exists false. by rewrite E1, E2, Hs.
Qed.

Lemma failover_error_kept message s h : at_rest s h -> wp (failover_error message) kept s h.
Proof.
  intros Hr x. assert (at_rest s (h ++ [Ev (WriteClient (build_error_response (lit "57P01") (lit message) ++ ready_for_query RS_Idle)) x]))
    as Hr' by (by apply at_rest_use). destruct x; [done|]. by apply at_rest_closing.
Qed.

Lemma retry_cycle_kept b bound route target frames plans commands committed s h :
  working b bound s h -> wp (retry_cycle cfg b route target frames plans commands committed) kept s h.
Proof.
  intros Hw x. apply (wp_discard b bound); [by apply working_use|]. intros h1 Hr1. apply wp_act. intros passed.
  apply (at_rest_use QueryDeadlinePassed passed) in Hr1; [|done].
  set (h2 := h1 ++ _) in *. clearbody h2. destruct passed; [by apply failover_error_kept|].
  destruct Hw as [Hs _]. destruct Hr1 as (bound1 & Hh2 & Hb). rewrite Hs in Hh2, Hb. rewrite Hb in Hh2 by done.
  apply wp_get, wp_bind. eapply wp_mono; [by apply timed_replacement_borrows|].
  intros [[[b'|e|]|]|] s3 h3 H3; try (by apply failover_error_kept); [|by apply at_rest_closing|done].
  apply wp_act. intros y. apply (working_bind _ _ y) in H3. apply (wp_working b' true); [apply forward_attempt_user|done|].
  intros r s4 h4 H4. by apply (conclude_kept b' true).
Qed.

Lemma forward_with_retry_kept b bound route target frames plans committed s h :
  working b bound s h -> wp (forward_with_retry cfg b route target frames plans committed) kept s h.
Proof.
  intros Hw. apply (wp_working b bound); [apply forward_attempt_user|done|]. intros r s1 h1 Hw1.
  apply wp_get. destruct (may_retry cfg frames plans s1 r) as [[]|].
  - by apply (retry_cycle_kept b bound).
  - by apply (conclude_kept b bound).
  - intros x. by apply (working_drop b bound).
Qed.

(** *** A cycle *)

Lemma guardrails_deny_kept plans s h :
  at_rest s h -> wp (guardrails_deny plans) (fun r s' h' => s' = s /\ kept r s' h') s h.
Proof.
  revert h. induction plans as [|p plans IH]; intros h Hr; cbn [guardrails_deny]; [done|].
  destruct (plan_analysis p); [|by split; [|apply at_rest_closing]].
  intros x. apply (at_rest_use (EvaluateGuardrails _ _) x) in Hr; [|done].
  destruct x as [[r|]|]; [done|by apply IH|by split; [|apply at_rest_closing]].
Qed.

Lemma error_response_kept {A} code message status (q : fallible A) s h :
  at_rest s h -> (forall h, at_rest s h -> wp q kept s h) ->
  wp (_ ←? error_response_and_ready_with_state code message status; q) kept s h.
Proof.
  intros Hr Hq x. assert (at_rest s (h ++ [Ev _ x])) as Hr' by (by apply at_rest_use).
  destruct x; [by apply Hq|]. by apply at_rest_closing.
Qed.

Lemma cycle_target_kept s plans h :
  at_rest s h -> wp (cycle_target cfg s plans) (fun r s' h' => s' = s /\ kept r s' h') s h.
Proof.
  intros Hr. unfold cycle_target. apply wp_and_then.
  assert (forall base h, at_rest s h ->
    wp (match held_backend s, base with
        | None, ToWait TFallbackWait =>
            t ← act (WaitTarget (cycle_selection cfg s plans));
            Ret (match t with Some t => Ok (base, t) | None => Panic end)
        | _, _ => Ret (Ok (base, base))
        end) (fun (r : option (result failure (RoutingTarget * RoutingTarget))) s' h' => s' = s /\ kept r s' h') s h) as Hw.
  { intros base h' Hr'. destruct (held_backend s); [done|]. destruct base as [| |[]|]; try done.
    intros x. apply (at_rest_use (WaitTarget _) x) in Hr'; [|done].
    destruct x; [done|]. by split; [|apply at_rest_closing]. }
  case_bool_decide; [by apply Hw|]. intros x. apply (at_rest_use (SelectTarget _) x) in Hr; [|done].
  destruct x; [by apply Hw|]. by split; [|apply at_rest_closing].
Qed.

Definition acquired_backend (r : option (result failure (FrameCycleOutcome + Backend))) (s : Sess)
    (h : list event) : Prop :=
  match r with
  | Some (Ok (inr b)) => exists bound, working b bound s h
  | Some (Ok (inl _)) => at_rest s h
  | Some _ => closing s h
  | None => ledger_of h <> None
  end.

Lemma cycle_backend_acquires route target s h :
  at_rest s h -> wp (cycle_backend cfg s route target) acquired_backend s h.
Proof.
  intros (bound & Hh & Hb). unfold cycle_backend. destruct (held_backend s) as [b|] eqn:E; [by exists bound|].
  rewrite Hb in Hh by done. apply wp_act. intros x. apply wp_bind. eapply wp_mono.
  { apply checkout_backend_borrows; [done|by apply uses_none_ledger]. }
  intros [[b|e|]|] s' h' H; [by exists false| | |exact H]; destruct H as [Hs' Hh'];
    [|exists false; by rewrite Hs', Hh'].
  assert (at_rest s' h') as Hr by (exists false; by rewrite Hs', Hh').
  destruct e as [message|code message| |e]; try done; try (by apply at_rest_closing);
    intros y; apply (at_rest_use _ y) in Hr; try done; destruct y; try done; by apply at_rest_closing.
Qed.

Lemma run_cycle_kept b bound route base target frames plans committed s h :
  working b bound s h -> wp (run_cycle cfg b route base target frames plans committed) kept s h.
Proof.
  intros Hw. apply wp_act. intros x. apply (working_bind _ _ x) in Hw.
  apply (wp_working_owning _ true); [apply replay_session_user|done|]. intros replay s1 h1 Hw1.
  apply (wp_working b true); [destruct (mirror_enabled cfg); user_tac|done|].
  intros [] s2 h2 Hw2. by apply (forward_with_retry_kept b true).
Qed.

Lemma handle_frame_cycle_kept frames s h : at_rest s h -> wp (handle_frame_cycle cfg frames) kept s h.
Proof.
  intros Hr. unfold handle_frame_cycle. apply wp_get.
  destruct (lift_wire _) as [[cache plans]|e|]; [|by apply at_rest_closing..].
  apply wp_put, wp_and_then. eapply wp_mono; [by apply guardrails_deny_kept|].
  intros [[denied|e|]|] s1 h1 [-> H1]; try exact H1.
  destruct denied; [unfold error_response_and_ready; apply error_response_kept; [done|intros h' Hr'; exact Hr']|].
  apply wp_get. destruct (update_transaction_state_from_request_plans _ _ _) as [[v committed]|]; [|by apply at_rest_closing].
  apply wp_put, wp_and_then. eapply wp_mono; [by apply cycle_target_kept|].
  intros [[[base target]|e|]|] s2 h2 [-> H2]; try exact H2. apply wp_and_then.
  eapply wp_mono; [by apply cycle_backend_acquires|].
  intros [[[outcome|b]|e|]|] s3 h3 H3; try exact H3. destruct H3 as [bound H3]. by apply (run_cycle_kept b bound).
Qed.

(** *** The loop *)

Lemma on_idle_event_kept e s h : at_rest s h -> wp (on_idle_event cfg e) kept s h.
Proof.
  intros Hr. unfold on_idle_event. apply wp_get.
  destruct e as [[[|x bs]| |]|e|]; try done; try (by apply at_rest_closing).
  destruct (held_backend s) as [b|] eqn:E; [|done]. destruct Hr as (bound & Hh & Hb). rewrite E in Hh.
  assert (working b bound (set_held s None) h) as Hw by done.
  destruct e as [[|x bs]| |]; [by apply wp_put, (wp_discard b bound)| |by apply wp_put, (wp_discard b bound)..].
  intros sent. assert (at_rest s (h ++ [Ev (WriteClient (x :: bs)) sent])) as Hr.
  { apply at_rest_use; [done|]. exists bound. by rewrite E. }
  destruct sent; [done|by apply at_rest_closing].
Qed.

Lemma handle_cycle_kept cycle kind s h : at_rest s h -> wp (handle_cycle cfg cycle kind) kept s h.
Proof.
  intros Hr. unfold handle_cycle. apply wp_modify. destruct cycle as [frames| | |].
  - apply wp_kept; [by apply handle_frame_cycle_kept|]. by intros [] s' h' Hr'.
  - apply wp_kept; [by apply finalize_held_kept|]. by intros [] s' h' Hr'.
  - apply wp_kept; [by apply finalize_held_kept|]. intros [] s' h' Hr'. apply wp_modify.
    destruct kind; cbn [handle_idle_timeout]; [by apply error_response_kept|].
    apply wp_act. intros x. apply (at_rest_use _ x) in Hr'; [|done]. destruct x; [done|]. by apply at_rest_closing.
  - apply wp_kept; [by apply finalize_held_kept|]. by intros [] s' h' Hr'.
Qed.

Lemma session_loop_kept fuel s h : at_rest s h -> wp (session_loop cfg fuel) kept s h.
Proof.
  revert s h. induction fuel as [|fuel IH]; intros s h Hr; cbn [session_loop].
  { destruct Hr as (bound & Hh & _). cbn. by rewrite Hh. }
  assert (forall cycle kind s h, at_rest s h ->
    wp (over ←? handle_cycle cfg cycle kind; if (over : bool) then Ret (Ok tt) else session_loop cfg fuel) kept s h) as Hc.
  { intros cycle kind s' h' Hr'. apply wp_kept; [by apply handle_cycle_kept|]. intros [] s'' h'' Hr''; [done|by apply IH]. }
  apply wp_get.
  assert (held_backend (fst (buffered_cycle cfg s)) = held_backend s) as Hs.
  { unfold buffered_cycle. by destruct (lift_wire _) as [[]| |]. }
  destruct (buffered_cycle cfg s) as [s' r]. cbn in Hs.
  assert (at_rest s' h) as Hr' by (destruct Hr as (bound & Hh & Hb); exists bound; by rewrite Hs).
  destruct r as [[cycle|]|e|]; apply wp_put; [by apply Hc| |by apply at_rest_closing..].
  apply wp_act. intros e. apply wp_kept; [|intros [cycle|] s'' h'' Hr''; [by apply Hc|by apply IH]].
  apply on_idle_event_kept. destruct Hr' as (bound & Hh & Hb). exists bound. split; [|done].
  rewrite ledger_snoc, Hh. cbn. unfold require. by rewrite bool_decide_true.
Qed.

Lemma run_session_kept s h : at_rest s h -> wp (run_session cfg) ended s h.
Proof.
  intros Hr. apply wp_act. intros n. apply wp_bind. eapply wp_mono.
  { apply session_loop_kept. by apply at_rest_use. }
  intros [r|] s' h' Hk; [|by split; [|intros []]]. apply wp_get.
  assert (closing s' h') as [bound Hh] by (destruct r; [by apply at_rest_closing|done..]).
  destruct (held_backend s') as [b|] eqn:E.
  - intros x y. cbn -[ledger_of]. unfold ended. rewrite !ledger_snoc, Hh. cbn. unfold require. by rewrite bool_decide_true.
  - intros y. cbn -[ledger_of]. unfold ended. by rewrite !ledger_snoc, Hh.
Qed.
End Cycle.

(** ** Admission *)

Section Admission.
Context `{HC : Crypto} (adm : AdmissionConfig) (cfg : SessionConfig).

(** Programs that use no connection. *)
Definition bystander {A} (p : prog A) : Prop :=
  forall hd s, held_backend s = hd -> confined uses_none (fun s => held_backend s = hd) p s.

(** Nothing lent, nothing bound. *)
Definition vacant (s : Sess) (h : list event) : Prop := held_backend s = None /\ ledger_of h = Some (None, false).
Definition turned {A} (r : option A) (s : Sess) (h : list event) : Prop :=
  match r with Some _ => vacant s h | None => ledger_of h <> None end.

Lemma bystander_turned {A} (p : prog A) s h : bystander p -> vacant s h -> wp p turned s h.
Proof.
  intros Hp [Hs Hh]. eapply wp_mono.
  { apply (confined_wp uses_none (fun s' => held_backend s' = None) (fun h => ledger_of h = Some (None, false)));
      auto. intros. by apply uses_none_ledger. }
  intros [a|] s' h' [Hs' Hh']; [done|]. cbn. by rewrite Hh'.
Qed.

Lemma turned_bind {A B} (p : prog A) (f : A -> prog B) s h :
  wp p turned s h -> (forall a s h, vacant s h -> wp (f a) turned s h) -> wp (p ≫= f) turned s h.
Proof. intros Hp Hf. apply wp_bind. eapply wp_mono; [exact Hp|]. intros [a|] s' h' Hr; auto. Qed.

Lemma turned_and_then {A B} (p : fallible A) (f : A -> fallible B) s h :
  wp p turned s h -> (forall a s h, vacant s h -> wp (f a) turned s h) -> wp (and_then p f) turned s h.
Proof. intros Hp Hf. apply turned_bind; [done|]. intros [] s' h' Hv; auto. Qed.

Lemma error_response_bystander code message status : bystander (error_response_and_ready_with_state code message status).
Proof. unfold error_response_and_ready_with_state. user_tac. Qed.

Lemma error_response_turned {A} code message status (a : A) s h :
  vacant s h -> wp (_ ←? error_response_and_ready_with_state code message status; Ret (Ok a)) turned s h.
Proof.
  intros Hv. apply turned_and_then; [by apply bystander_turned; [apply error_response_bystander|]|]. by intros.
Qed.

Lemma read_startup_packet_bystander fuel has_config tls : bystander (read_startup_packet adm cfg fuel has_config tls).
Proof.
  revert tls. induction fuel as [|fuel IH]; intros tls; cbn [read_startup_packet]; [done|].
  unfold accept_encryption, write_client. user_tac; by apply IH.
Qed.

Lemma write_client_bystander bs : bystander (write_client bs).
Proof. unfold write_client. user_tac. Qed.

Lemma write_client_user b bs : user b (write_client bs).
Proof. unfold write_client. user_tac. Qed.

Lemma relay_frame_user b l mode f a m sent_key : user b (relay_frame l b mode f a m sent_key).
Proof.
  unfold relay_frame, relay_auth_response. user_tac;
    first [by apply answer_request_user|by apply write_client_user|by apply write_backend_user].
Qed.

Lemma relay_frames_user b l fuel mode a m sent_key : user b (relay_frames l fuel b mode a m sent_key).
Proof.
  revert a m sent_key. induction fuel as [|fuel IH]; intros a m sent_key; cbn [relay_frames]; user_tac;
    first [by apply relay_frame_user|by apply IH].
Qed.

Lemma relay_loop_user b l fuel mode a m sent_key : user b (relay_loop l fuel b mode a m sent_key).
Proof.
  revert a m sent_key. induction fuel as [|fuel IH]; intros a m sent_key; cbn [relay_loop]; user_tac;
    first [by apply relay_frames_user|by apply IH].
Qed.

Lemma proxy_startup_user b l mode : user b (proxy_startup l b mode).
Proof.
  unfold proxy_startup. user_tac;
    first [by apply write_client_user|by apply write_backend_user|by apply auth_session_user|by apply relay_loop_user].
Qed.

Lemma first_connection_turned key plan s h : vacant s h -> wp (first_connection adm cfg key plan) turned s h.
Proof.
  intros [Hs Hh]. unfold first_connection. cbv zeta. apply wp_act. intros x. apply wp_bind. eapply wp_mono.
  { apply checkout_backend_borrows; [done|by apply uses_none_ledger]. }
  intros [[b|e|]|] s' h' Hr; [| |exact Hr|exact Hr]; cycle 1.
  { destruct e as [message|code message| |e]; [| |exact Hr|exact Hr]; unfold error_response_and_ready;
      apply error_response_turned; exact Hr. }
  destruct Hr as [Hs' Hh']. apply wp_bind. eapply wp_mono; [by apply (user_wp b _ _ _ false); [apply proxy_startup_user|]|].
  intros r s2 h2 [Hs2 Hh2]. rewrite Hs' in Hs2. destruct r as [[m|e|]|]; [| | |by cbn; rewrite Hh2].
  - apply wp_act. intros y. apply turned_bind; [|by intros].
    apply bystander_turned; [case_bool_decide; user_tac|]. split; [done|]. rewrite ledger_snoc, Hh2. cbn. unfold require.
    by rewrite bool_decide_true.
  - intros y. split; [done|]. rewrite ledger_snoc, Hh2. cbn. unfold require. by rewrite bool_decide_true.
  - intros y. split; [done|]. by apply ledger_drop.
Qed.

Lemma admit_client_turned key packet s h : vacant s h -> wp (admit_client adm cfg key packet) turned s h.
Proof.
  intros Hv. unfold admit_client. destruct (startup_backend_plan _ _ _ _) as [plan|[database user|e]|]; try done;
    [|by apply error_response_turned].
  apply turned_and_then.
  - apply bystander_turned; [|done]. unfold authenticate. user_tac.
  - intros [] s' h' Hv'; [by apply first_connection_turned|done].
Qed.

Lemma complete_client_startup_turned s h : vacant s h -> wp (complete_client_startup adm cfg) turned s h.
Proof.
  intros Hv. unfold complete_client_startup. destruct (adm_tls_config adm), (adm_users adm); try done.
  apply wp_act. intros n. apply turned_and_then.
  { apply bystander_turned; [apply read_startup_packet_bystander|]. split; [apply Hv|]. by apply uses_none_ledger, Hv. }
  intros first s1 h1 Hv1. destruct first as [packet|pid key| | |]; try done; [| |by apply error_response_turned].
  - apply wp_act. intros issued. assert (vacant s1 (h1 ++ [Ev IssueClientKey issued])) as Hv2.
    { split; [apply Hv1|]. by apply uses_none_ledger, Hv1. }
    destruct issued as [key|e|]; try done. apply turned_bind; [by apply admit_client_turned|]. intros r s3 h3 [Hs3 Hh3].
    destruct r as [[plan|]|e|]; [done|..]; intros x; (split; [done|]); by rewrite ledger_snoc, Hh3.
  - intros x. split; [apply Hv1|]. by apply uses_none_ledger, Hv1.
Qed.
End Admission.


(** C1. Custody of connections. Whatever the network, the pools and other
    tasks do, a client session uses only the connection it was lent, never
    borrows a second one before giving back the first, points its cancel
    key only at the connection it was lent, and never gives a connection
    back to the pool while the key points at it; when it ends, by an error
    or a panic too, it has given back or dropped every connection it
    borrowed and its cancel key points nowhere. *)
Theorem session_custody `{Crypto} adm cfg session_id env s :
  held_backend s = None ->
  let '(r, s', h) := run env (handle_client adm cfg session_id) s [] in
  ledger_of h <> None /\ (is_Some r -> ledger_of h = Some (None, false) /\ held_backend s' = None).
Proof.
  intros Hs. apply (wp_sound _ ended). apply wp_and_then. eapply wp_mono; [by apply complete_client_startup_turned|].
  intros [[[plan|]|e|]|] s1 h1 H1; [| | | |by split; [|intros []]]; destruct H1 as [Hs1 Hh1];
    try (split; [by rewrite Hh1|done]).
  apply wp_modify, run_session_kept. by exists false.
Qed.
