(* ===== verification/Gatekeeping.v ===== *)
(** * Gatekeeping: who becomes a session

    Theorems about [complete_client_startup]: nobody is admitted past a
    required authentication or outside a required TLS connection, and what
    was sent in the clear before a handshake is never taken for a startup
    packet. *)

From S2P Require Import Prelude Text Protocol Startup Frame BackendWire Secrets Auth Cycle Lsn RoutingTypes Route Policy.
From S2P Require Import Sharding ShardExtract Sql SqlClassify Session ReadRouting Prepare Pool Pools RequestPlan.
From S2P Require Import Guardrails Checkout Effects Login Forwarding Recovery ClientSession Admission Custody.

(** ** Bytes that came after the handshake *)

(** What the history says of the client's encryption: whether there was a
    TLS handshake, whether the client showed a certificate in the last one,
    and the bytes of its timed reads since. *)
Record TlsView := { encrypted : bool; certified : bool; received : bytes }.
Definition tls_step (t : TlsView) (e : event) : TlsView :=
  match e with
  | Ev (StartTls _) (Ok c) => {| encrypted := true; certified := c; received := [] |}
  | Ev ReadClientInTime (Some (Chunk bs)) =>
      {| encrypted := encrypted t; certified := certified t; received := received t ++ bs |}
  | _ => t
  end.
Definition tls_view (h : list event) : TlsView :=
  fold_left tls_step h {| encrypted := false; certified := false; received := [] |}.

Section FirstPacket.
Context (adm : AdmissionConfig) (cfg : SessionConfig).

Lemma tls_view_snoc h e : tls_view (h ++ [e]) = tls_step (tls_view h) e.
Proof. unfold tls_view. by rewrite fold_left_app. Qed.

Lemma take_startup_rest buffer max read rest :
  take_startup_packet_bytes buffer max = Ok (read, rest) ->
  rest `suffix_of` buffer /\
  (forall packet, read = StartupRead packet -> buffer = packet ++ rest).
Proof.
  unfold take_startup_packet_bytes. case_match; [naive_solver|]. destruct buffer as [|l0 [|l1 [|l2 [|l3 buf]]]]; try naive_solver.
  set (buffer := l0 :: l1 :: l2 :: l3 :: buf). set (n := i32_from_be_bytes l0 l1 l2 l3).
  destruct (n <? 8); [by destruct (parse_startup_packet buffer)|]. case_match; [naive_solver|].
  destruct (parse_startup_packet (take (Z.to_nat n) buffer)) as [parsed|e|]; try done. cbn.
  intros [= <- <-]. split; [eexists; symmetry; apply take_drop|].
  intros packet. destruct parsed; try done. intros [= <-]. by rewrite take_drop.
Qed.

(** The buffer holds the end of what came since the handshake. *)
Definition fresh_bytes (tls : bool) (s : Sess) (h : list event) : Prop :=
  encrypted (tls_view h) = tls /\
  (tls = true -> adm_tls_mode adm = TlsVerifyClient -> certified (tls_view h) = true) /\
  client_read s `suffix_of` received (tls_view h).

Lemma fresh_snoc tls s h e : tls_step (tls_view h) e = tls_view h -> fresh_bytes tls s h -> fresh_bytes tls s (h ++ [e]).
Proof. intros He Hf. unfold fresh_bytes. by rewrite tls_view_snoc, He. Qed.

(** What the mode asks of the connection. *)
Definition tls_satisfied (t : TlsView) : Prop :=
  (client_tls_required (adm_tls_mode adm) = true -> encrypted t = true) /\
  (adm_tls_mode adm = TlsVerifyClient -> certified t = true).

Definition admits (r : option (result failure FirstPacket)) (s : Sess) (h : list event) : Prop :=
  forall packet, r = Some (Ok (FirstPacketRead packet)) ->
    (packet ++ client_read s) `suffix_of` received (tls_view h) /\ tls_satisfied (tls_view h).

Lemma accept_encryption_fresh has_config tls s h :
  fresh_bytes tls s h ->
  wp (accept_encryption adm has_config)
     (fun r s' h' => r = Some (Ok tt) ->
        fresh_bytes (tls || negb (bool_decide (adm_tls_mode adm = TlsDisable))) s' h') s h.
Proof.
  intros Hf. unfold accept_encryption, write_client.
  destruct (adm_tls_mode adm) eqn:Em;
    [intros []; [intros _; rewrite orb_false_r; by apply fresh_snoc|done]|..].
  all: intros []; [|done]; destruct has_config; [|done]; intros [certified0|e|]; try done.
  all: cbn -[fresh_bytes]; try (destruct certified0; [|done]); intros _; rewrite orb_true_r.
  all: unfold fresh_bytes; rewrite tls_view_snoc, Em; cbn; split_and!; try done; apply suffix_nil.
Qed.

Lemma read_startup_packet_admits fuel has_config tls s h :
  fresh_bytes tls s h -> wp (read_startup_packet adm cfg fuel has_config tls) admits s h.
Proof.
  revert tls s h. induction fuel as [|fuel IH]; intros tls s h Hf; cbn [read_startup_packet]; [done|].
  apply wp_get. destruct (take_startup_packet_bytes _ _) as [[read rest]|e|] eqn:Ht; try done.
  destruct (take_startup_rest _ _ _ _ Ht) as [Hsuf Hpkt]. apply wp_put.
  assert (fresh_bytes tls (set_client_read s rest) h) as Hf'.
  { destruct Hf as (H1 & Hc & H2). split_and!; [done..|]. cbn. by etrans. }
  destruct read as [packet|bs pid key|[]| |]; try done.
  - intros packet'. cbn. destruct (client_tls_required _ && negb tls) eqn:Et; [done|]. intros [= <-].
    destruct Hf as (H1 & Hc & H2). rewrite (Hpkt packet eq_refl) in H2. split; [done|].
    destruct tls; [by split; auto|]. split; [intros Hreq|intros Hm]; [by rewrite Hreq in Et|by rewrite Hm in Et].
  - apply wp_and_then. eapply wp_mono; [by apply accept_encryption_fresh|].
    intros [[[]|e|]|] s' h' Hr; try done. by apply IH, Hr.
  - intros []; [|done]. apply IH. by apply fresh_snoc.
  - case_match; [done|]. apply wp_act. intros [[[|x bs]| |]|]; try done. cbn beta iota.
    assert (fresh_bytes tls (set_client_read (set_client_read s rest) (rest ++ x :: bs))
              (h ++ [Ev ReadClientInTime (Some (Chunk (x :: bs)))])) as Hf''.
    { destruct Hf' as (H1 & Hc & [k H2]). unfold fresh_bytes. rewrite tls_view_snoc. cbn.
      split_and!; [done..|]. exists k. cbn in H2. rewrite H2. by rewrite <- app_assoc. }
    apply wp_modify. case_match; [done|]. by apply IH.
Qed.
End FirstPacket.

(** ** Admission *)

Section Admit.
Context `{HC : Crypto} (adm : AdmissionConfig) (cfg : SessionConfig).

(** Commands that leave the view alone. *)
Definition late_cmd (c : cmd) : Prop := match c with StartTls _ | ReadClientInTime => False | _ => True end.

Lemma late_view c x h : late_cmd c -> tls_view (h ++ [Ev c x]) = tls_view h.
Proof. intros Hc. rewrite tls_view_snoc. by destruct c. Qed.

Lemma wp_late {A} (p : prog A) s h :
  confined late_cmd (fun _ => True) p s ->
  wp p (fun _ _ h' => tls_view h' = tls_view h /\ forall e, e ∈ h -> e ∈ h') s h.
Proof.
  intros Hp. eapply wp_mono.
  - apply (confined_wp late_cmd (fun _ => True) (fun h' => tls_view h' = tls_view h /\ forall e, e ∈ h -> e ∈ h')); auto.
    intros c x h' Hc [Hv He]. split; [by rewrite late_view|]. intros e Hin. apply elem_of_app. eauto.
  - naive_solver.
Qed.

Lemma user_late {A} b (p : prog A) s : user b p -> confined late_cmd (fun _ => True) p s.
Proof. intros Hp. eapply confined_mono; [| |by apply (Hp (held_backend s))]; [by intros []|done]. Qed.

Lemma first_connection_late key plan s : confined late_cmd (fun _ => True) (first_connection adm cfg key plan) s.
Proof.
  unfold first_connection, checkout_backend, error_response_and_ready, error_response_and_ready_with_state. cbn [andb].
  confine; try done; eapply user_late; first [apply proxy_startup_user|apply bootstrap_backend_user].
Qed.

Lemma first_connection_plan key plan s h :
  wp (first_connection adm cfg key plan) (fun r _ _ => forall plan', r = Some (Ok (Some plan')) -> plan' = plan) s h.
Proof.
  unfold first_connection. cbv zeta. apply wp_act. intros x. apply wp_bind.
  eapply wp_mono; [apply wp_any|]. intros [[b|e|]|] s1 h1 _; try done.
  - apply wp_bind. eapply wp_mono; [apply wp_any|]. intros [[m|e|]|] s2 h2 _; try done.
    + apply wp_act. intros y. apply wp_bind. eapply wp_mono; [apply wp_any|]. intros [[]|] s3 h3 _; cbn; [naive_solver|done].
    + intros y. cbn. destruct (buffer_limit_kind e); naive_solver.
  - destruct e as [message|code message| |e]; try done; apply wp_act; intros []; done.
Qed.

(** A history that vouches for a client of this plan. *)
Definition vouched (plan : StartupBackendPlan) (h : list event) : Prop :=
  adm_auth_mode adm = PassThrough \/
  exists outcome, (outcome = Authenticated \/ outcome = OutcomePassThrough) /\
    Ev (AuthenticateClient (plan_user plan)) (Ok outcome) ∈ h.

Definition admitted_by (packet : bytes) (t : TlsView) (r : option (result failure (option StartupBackendPlan)))
    (h : list event) : Prop :=
  forall plan, r = Some (Ok (Some plan)) ->
    tls_view h = t /\ vouched plan h /\
    startup_backend_plan (adm_selector adm) packet (adm_client_addr adm) (username <$> adm_credentials adm) = Ok plan.

Lemma admit_guarded key packet s h :
  wp (admit_client adm cfg key packet) (fun r _ h' => admitted_by packet (tls_view h) r h') s h.
Proof.
  unfold admit_client. destruct (startup_backend_plan _ _ _ _) as [plan|[database user|e]|] eqn:Ep; try done;
    [|by intros []].
  assert (forall s h', vouched plan h' -> tls_view h' = tls_view h ->
    wp (first_connection adm cfg key plan) (fun r _ h' => admitted_by packet (tls_view h) r h') s h') as Hfc.
  { intros s' h' Hv Ht. eapply wp_mono.
    - apply wp_both; [apply (first_connection_plan key plan)|apply (wp_late (first_connection adm cfg key plan))].
      apply first_connection_late.
    - intros r s2 h2 [Hp [Ht2 Hin]] plan' ->. rewrite (Hp plan' eq_refl). split_and!; [congruence| |done].
      destruct Hv as [?|(outcome & ? & ?)]; [by left|]. right. exists outcome. auto. }
  unfold authenticate. apply wp_and_then. case_bool_decide as Hm; [by apply Hfc; [left|]|].
  destruct (adm_users adm) as [[]| |]; try done. apply wp_act. intros x.
  assert (tls_view (h ++ [Ev (AuthenticateClient (plan_user plan)) x]) = tls_view h) as Ht by (by apply late_view).
  destruct x as [[]|e|]; try done; (apply Hfc; [|done]); right; eexists;
    (split; [|apply elem_of_app; right; by apply list_elem_of_singleton]); auto.
Qed.

Lemma complete_client_startup_guarded s h :
  fresh_bytes adm false s h ->
  wp (complete_client_startup adm cfg)
     (fun r _ h' => forall plan, r = Some (Ok (Some plan)) ->
        vouched plan h' /\ tls_satisfied adm (tls_view h') /\
        exists packet rest, (packet ++ rest) `suffix_of` received (tls_view h') /\
          startup_backend_plan (adm_selector adm) packet (adm_client_addr adm)
            (username <$> adm_credentials adm) = Ok plan) s h.
Proof.
  intros Hf. unfold complete_client_startup. destruct (adm_tls_config adm), (adm_users adm); try done.
  apply wp_act. intros n. apply wp_and_then. eapply wp_mono.
  { apply read_startup_packet_admits. by apply fresh_snoc. }
  intros [[first|e|]|] s1 h1 Ha; try done. destruct first as [packet|pid key| | |]; try done; [|by intros []].
  destruct (Ha packet eq_refl) as [Hsuf Htls]. apply wp_act. intros issued.
  assert (tls_view (h1 ++ [Ev IssueClientKey issued]) = tls_view h1) as Hv by (by apply late_view).
  destruct issued as [key|e|]; try done. apply wp_bind. eapply wp_mono; [apply admit_guarded|].
  intros [r|] s2 h2 Hadm; [|done]. destruct r as [[plan|]|e|]; try (intros x; done). intros plan' [= <-].
  destruct (Hadm plan eq_refl) as (Hv2 & Hvouch & Hplan). rewrite Hv2, Hv. split_and!; [done..|].
  by exists packet, (client_read s1).
Qed.
End Admit.

(** C4. Admission. A client becomes a session only if: where the mode
    requires TLS there was a handshake (and a certificate where it requires
    one), its startup packet is among the bytes received since the last
    handshake, never bytes sent in the clear before it, the packet names a
    database and user this proxy serves, and, unless authentication is left
    to the server, that very user was authenticated. *)
Theorem admission_guarded `{Crypto} adm cfg env s :
  client_read s = [] ->
  let '(r, s', h) := run env (complete_client_startup adm cfg) s [] in
  forall plan, r = Some (Ok (Some plan)) ->
    vouched adm plan h /\ tls_satisfied adm (tls_view h) /\
    exists packet rest, (packet ++ rest) `suffix_of` received (tls_view h) /\
      startup_backend_plan (adm_selector adm) packet (adm_client_addr adm) (username <$> adm_credentials adm) = Ok plan.
Proof.
  intros Hs. apply (wp_sound _ (fun r _ h => forall plan, r = Some (Ok (Some plan)) ->
    vouched adm plan h /\ tls_satisfied adm (tls_view h) /\
    exists packet rest, (packet ++ rest) `suffix_of` received (tls_view h) /\
      startup_backend_plan (adm_selector adm) packet (adm_client_addr adm) (username <$> adm_credentials adm) = Ok plan)).
  apply complete_client_startup_guarded. split_and!; [done..|]. rewrite Hs. apply suffix_nil.
Qed.
