(* ===== verification/Replay.v ===== *)
(** * Replay: when a query is sent a second time

    [forward_with_retry] of the client session sends a cycle again after a
    server failed. The theorem says when: once, only one Query message whose
    text the classifier takes for reads, outside a transaction, and only
    while the client has seen no byte of an answer. *)

From S2P Require Import Prelude Text Protocol Frame BackendWire Secrets Auth Cycle Lsn RoutingTypes Route Policy.
From S2P Require Import Sharding ShardExtract Sql SqlClassify Session ReadRouting Prepare Pool Pools RequestPlan.
From S2P Require Import Guardrails Checkout Effects Login Forwarding Recovery ClientSession Custody.

(** ** What the client has seen *)

Definition is_client_write (e : event) : bool := match e with Ev (WriteClient _) _ => true | _ => false end.
Definition spoken (h : list event) : bool := existsb is_client_write h.

Definition is_checkout (c : cmd) : bool := match c with Checkout _ _ _ => true | _ => false end.
Definition checkouts (h : list event) : nat :=
  length (List.filter (fun e => match e with Ev c _ => is_checkout c end) h).

Section Views.
Lemma spoken_snoc h e : spoken (h ++ [e]) = spoken h || is_client_write e.
Proof. unfold spoken. by rewrite existsb_app, orb_comm; cbn; rewrite orb_false_r, orb_comm. Qed.

Lemma checkouts_snoc h c x : checkouts (h ++ [Ev c x]) = (checkouts h + if is_checkout c then 1 else 0)%nat.
Proof. unfold checkouts. rewrite List.filter_app, length_app. cbn. by destruct (is_checkout c). Qed.

Lemma wp_drop_all_any {A} owned (p : prog A) Q s h :
  (forall h, wp p Q s h) -> wp (drop_all owned p) Q s h.
Proof. intros Hp. revert h. induction owned as [|b owned IH]; intros h; cbn; auto. Qed.

(** A deadline shows what the program it cut short would have shown. *)
Lemma wp_timeout_view {A T} (view : list event -> T) (step : T -> event -> T) (p : prog A)
    (R : option A -> Sess -> T -> Prop) owned s h0 h :
  (forall h e, view (h ++ [e]) = step (view h) e) -> (forall t x, step t (Ev Elapsed x) = t) ->
  wp p (fun r s h => R r s (view h)) s h0 -> view h0 = view h ->
  wp (timeout owned p) (fun r s h => match r with Some (Some a) => R (Some a) s (view h) | _ => True end) s h.
Proof.
  intros Hview Hel. revert s h0 h owned.
  induction p as [a|k IH|s0 k IH|c k IH|]; cbn; intros s h0 h owned Hp Hh; eauto.
  - by rewrite <- Hh.
  - intros []; [by apply wp_drop_all_any|]. intros x. eapply (IH x); [apply Hp|]. by rewrite !Hview, Hel, Hh.
  - by apply wp_drop_all_any.
Qed.
End Views.

Section Spoken.
(** Until a frame was forwarded, nothing was. *)
Definition quiet (s : Sess) (h : list event) : Prop := qp_response_started (progress s) = false -> spoken h = false.

Definition reported {A} (r : option (result failure A)) (s : Sess) (h : list event) : Prop :=
  match r with
  | Some (Ok _) => quiet s h
  | Some (Err (BackendFailure _ false)) => spoken h = false
  | _ => True
  end.

Lemma quiet_snoc s h e : is_client_write e = false -> quiet s h -> quiet s (h ++ [e]).
Proof. intros He Hq Hs. rewrite spoken_snoc, He, orb_false_r. auto. Qed.

Lemma on_backend_frame_started id s f : qp_response_started (progress (on_backend_frame id s f)) = true.
Proof. unfold on_backend_frame. destruct (sqlstate f); cbn; by destruct (_ && _). Qed.

Lemma classify_loop_started fuel id s d buffer fwd ready s' d' rest fwd' ready' :
  classify_loop fuel id s d buffer fwd ready = (s', Ok (d', rest, fwd', ready')) ->
  qp_response_started (progress s') = false -> qp_response_started (progress s) = false /\ fwd' = fwd.
Proof.
  revert s d buffer fwd ready. induction fuel as [|fuel IH]; intros s d buffer fwd ready; cbn [classify_loop]; [done|].
  destruct (parse_backend_frame buffer) as [[[f|] rest0]| |]; try done; [|naive_solver].
  destruct (drain_frame d f) as [d0 [out|]]; intros Hl Hs; [|by eapply IH].
  eapply IH in Hl as [Hs' _]; [|done]. by rewrite on_backend_frame_started in Hs'.
Qed.

Lemma classify_backend_frames_started id s d buffer s' d' rest fwd ready :
  classify_backend_frames id s d buffer = (s', Ok (d', rest, fwd, ready)) ->
  qp_response_started (progress s') = false -> qp_response_started (progress s) = false /\ fwd = [].
Proof.
  unfold classify_backend_frames.
  destruct (classify_loop _ _ _ _ _ _ _) as [s0 [[[[d0 rest0] fwd0] ready0]| |]] eqn:E; try done.
  intros [= <- <- <- <- <-] Hs. by eapply classify_loop_started.
Qed.

Lemma forward_chunk_reported b max shape d copy chunk s h :
  quiet s h -> wp (forward_chunk b max shape d copy chunk) reported s h.
Proof.
  intros Hq. unfold forward_chunk. apply wp_get, wp_put. cbn beta iota zeta. case_match; [exact Hq|].
  destruct (classify_backend_frames _ _ _ _) as [s' [[[[d' rest] fwd] ready]|e|]] eqn:E; [|done..].
  pose proof (classify_backend_frames_started _ _ _ _ _ _ _ _ _ E) as Hs. cbn in Hs.
  apply wp_put. case_bool_decide as Hf.
  - intros Hs'. apply Hq. by apply Hs.
  - intros x Hs'. by destruct (Hs Hs').
Qed.

Lemma backend_failed_reported {A} kind s h : quiet s h -> wp (backend_failed (A := A) kind) reported s h.
Proof. intros Hq. unfold backend_failed. apply wp_get. cbn. destruct (qp_response_started _) eqn:E; [done|by apply Hq]. Qed.

Lemma forward_read_reported b max shape d copy e s h : quiet s h -> wp (forward_read b max shape d copy e) reported s h.
Proof.
  intros Hq. destruct e as [[|x bs]| |]; cbn [forward_read]; auto using backend_failed_reported, forward_chunk_reported.
Qed.

Lemma forward_copy_reported b shape d copy e s h : quiet s h -> wp (forward_copy b shape d copy e) reported s h.
Proof.
  intros Hq. destruct e as [[|x bs]| |]; cbn [forward_copy]; try done.
  apply wp_act. intros []; [|by apply backend_failed_reported, quiet_snoc].
  apply wp_act. intros []; [|by apply backend_failed_reported, quiet_snoc, quiet_snoc]. by apply quiet_snoc, quiet_snoc.
Qed.

Lemma reported_and_then {A B} (p : fallible A) (f : A -> fallible B) s h :
  wp p reported s h -> (forall a s h, quiet s h -> wp (f a) reported s h) -> wp (and_then p f) reported s h.
Proof. intros Hp Hf. apply wp_and_then. eapply wp_mono; [exact Hp|]. intros [[a|e|]|] s' h' Hr; auto. Qed.

Lemma forward_loop_reported fuel b max shape d copy s h :
  quiet s h -> wp (forward_loop fuel b max shape d copy) reported s h.
Proof.
  revert d copy s h. induction fuel as [|fuel IH]; intros d copy s h Hq; cbn [forward_loop]; apply wp_get;
    (case_match; [exact Hq|]); [done|].
  apply reported_and_then.
  - destruct copy; apply wp_act; intros e; [destruct e|];
      first [by apply forward_read_reported, quiet_snoc|by apply forward_copy_reported, quiet_snoc].
  - intros [outcome|[d' copy']] s' h' Hq'; [done|by apply IH].
Qed.

Lemma plan_frames_reported id frames commands planned s h :
  spoken h = false -> wp (plan_frames id frames commands planned) (fun r _ h => spoken h = false) s h.
Proof.
  intros Hh. eapply wp_mono with (Q := fun r s h => True /\ spoken h = false); [|naive_solver].
  apply (confined_wp (fun _ => False) (fun _ => True) (fun h => spoken h = false)); try done.
  clear. revert commands planned s. induction frames as [|f frames IH]; intros commands planned s; cbn [plan_frames]; [done|].
  confine; try done; apply IH.
Qed.

Lemma forward_message_cycle_reported b frames commands max s h :
  spoken h = false -> wp (forward_message_cycle b frames commands max) reported s h.
Proof.
  intros Hh. apply wp_and_then. eapply wp_mono; [by apply plan_frames_reported|].
  intros [[planned|e|]|] s' h' H; try done; [|by destruct e as [? []| |]]. cbv zeta.
  apply wp_act. intros []; [|cbn; by rewrite spoken_snoc, H].
  apply wp_act. intros []; [|cbn; by rewrite !spoken_snoc, H].
  assert (quiet s' ((h' ++ [Ev (WriteBackend b (pc_backend_bytes planned)) true]) ++ [Ev (FlushBackend b) true])) as Hq
    by (intros _; by rewrite !spoken_snoc, H).
  destruct (expects_no_response _); [exact Hq|]. apply wp_act. intros reads. by apply forward_loop_reported, quiet_snoc.
Qed.

Lemma forward_attempt_reported cfg b frames commands s h :
  spoken h = false ->
  wp (forward_attempt cfg b frames commands)
     (fun r _ h => forall kind, r = Some (Some (Err (BackendFailure kind false))) -> spoken h = false) s h.
Proof.
  intros Hh. apply wp_modify. eapply wp_mono.
  - apply (wp_timeout_view spoken (fun t e => t || is_client_write e) _
             (fun r s t => match r with Some (Err (BackendFailure _ false)) => t = false | _ => True end) [] _ h h);
      [apply spoken_snoc|by intros [] ?| |done].
    eapply wp_mono; [by apply forward_message_cycle_reported|]. by intros [[a|[? []| |]|]|] s' h' Hr.
  - intros r s' h' Hr kind ->. exact Hr.
Qed.
End Spoken.

(** ** How many connections a program borrows *)

Fixpoint borrows {A} (n : nat) (p : prog A) (s : Sess) : Prop :=
  match p with
  | Ret _ | Hang => True
  | Get k => borrows n (k s) s
  | Put s k => borrows n k s
  | Act c k =>
      if is_checkout c then (0 < n)%nat /\ forall x, borrows (pred n) (k x) s
      else forall x, borrows n (k x) s
  end.

Definition lends_nothing (c : cmd) : Prop := is_checkout c = false.

Section Borrows.
Lemma borrows_mono {A} n m (p : prog A) s : (n <= m)%nat -> borrows n p s -> borrows m p s.
Proof.
  revert n m s. induction p as [a|k IH|s0 k IH|c k IH|]; cbn; intros n m s Hle Hp; eauto.
  destruct (is_checkout c); [|eauto]. destruct Hp as [Hn Hk]. split; [lia|]. intros x. eapply IH; [|apply Hk]. lia.
Qed.

Lemma borrows_bind {A B} n m (p : prog A) (f : A -> prog B) s :
  borrows n p s -> (forall a s, borrows m (f a) s) -> borrows (n + m) (p ≫= f) s.
Proof.
  unfold mbind, prog_bind. revert n s. induction p as [a|k IH|s0 k IH|c k IH|]; cbn; intros n s Hp Hf; auto.
  - eapply borrows_mono, Hf. lia.
  - destruct (is_checkout c); [|auto]. destruct Hp as [Hn Hk]. split; [lia|]. intros x.
    replace (pred (n + m)) with (pred n + m)%nat by lia. auto.
Qed.

Lemma borrows_get {A} n (f : Sess -> prog A) s : borrows n (f s) s -> borrows n (get ≫= f) s.
Proof. done. Qed.
Lemma borrows_act {A} n c (f : answer c -> prog A) s :
  lends_nothing c -> (forall x, borrows n (f x) s) -> borrows n (act c ≫= f) s.
Proof. intros Hc Hf. cbn. by rewrite Hc. Qed.

Lemma borrows_timeout {A} n owned (p : prog A) s : borrows n p s -> borrows n (timeout owned p) s.
Proof.
  revert n s owned. induction p as [a|k IH|s0 k IH|c k IH|]; cbn; intros n s owned Hp; auto.
  - intros []; [by induction owned; cbn|]. cbn. destruct (is_checkout c); naive_solver.
  - by induction owned; cbn.
Qed.

Lemma confined_borrows {A} I (p : prog A) s : confined lends_nothing I p s -> borrows 0 p s.
Proof.
  revert s. induction p as [a|k IH|s0 k IH|c k IH|]; cbn; intros s Hp; auto.
  - destruct Hp. auto.
  - destruct Hp as [Hc Hk]. rewrite Hc. auto.
Qed.

Lemma run_borrows {A} env n (p : prog A) s h :
  borrows n p s -> (checkouts (snd (run env p s h)) <= checkouts h + n)%nat.
Proof.
  revert n s h. induction p as [a|k IH|s0 k IH|c k IH|]; cbn -[checkouts]; intros n s h Hp; try lia; [by apply IH..|].
  destruct (is_checkout c) eqn:E; [destruct Hp as [Hn Hp]|];
    (etrans; [by eapply IH, Hp|]); rewrite checkouts_snoc, E; lia.
Qed.

(** Programs that only use a connection borrow none. *)
Lemma uses_lends_nothing b (c : cmd) : uses b c -> lends_nothing c.
Proof. destruct c; done. Qed.

Lemma user_lends_nothing {A} b (p : prog A) s : user b p -> confined lends_nothing (fun _ => True) p s.
Proof. intros Hp. eapply confined_mono; [| |by apply (Hp (held_backend s))]; [apply uses_lends_nothing|done]. Qed.
End Borrows.

Create HintDb users.
#[export] Hint Resolve execute_simple_query_user execute_backend_batch_user rollback_user recover_backend_user
  error_response_user report_backend_failure_user replay_session_user forward_attempt_user
  probe_after_commit_user : users.

Ltac lend_tac :=
  repeat (first [done | confine_step; cbn beta iota zeta | progress unfold owning
                 | eapply user_lends_nothing; solve [eauto with users]]).

Section Borrowing.
Context `{HC : Crypto} (cfg : SessionConfig).

Lemma finalize_held_borrows s : confined lends_nothing (fun _ => True) (finalize_held cfg) s.
Proof.
  unfold finalize_held, finalize_held_backend_on_disconnect, finalize_backend_on_disconnect. lend_tac.
Qed.

Lemma finish_ready_borrows b status committed s :
  confined lends_nothing (fun _ => True) (finish_ready_backend cfg b status committed) s.
Proof. unfold finish_ready_backend, apply_cleanup, keep_pinned, release_backend_with_cancel_unbind,
  discard_backend_with_cancel_unbind. lend_tac. Qed.

Lemma handle_query_timeout_borrows b mode rmode max s :
  confined lends_nothing (fun _ => True) (handle_query_timeout b mode rmode max) s.
Proof. unfold handle_query_timeout. lend_tac. Qed.

Lemma handle_forward_result_borrows b r committed s :
  borrows 0 (handle_forward_result cfg b r committed) s.
Proof.
  apply (confined_borrows (fun _ => True)).
  unfold handle_forward_result, release_backend_with_cancel_unbind, discard_backend_with_cancel_unbind. 
  lend_tac; eauto using finish_ready_borrows, finalize_held_borrows, handle_query_timeout_borrows.
  Unshelve. all: exact b.
Qed.

Lemma conclude_borrows b plans r committed s : borrows 0 (conclude cfg b plans r committed) s.
Proof. unfold conclude. destruct (statistics_panic plans r); [done|apply handle_forward_result_borrows]. Qed.

Lemma checkout_backend_borrows1 login route target mode bootstrap ctx s :
  borrows 1 (checkout_backend login route target mode bootstrap ctx) s.
Proof.
  unfold checkout_backend. destruct (refused_target target); [done|]. split; [lia|].
  intros [b|e|]; try done. change (pred 1) with (0 + 0)%nat.
  destruct (bootstrap && requires_startup b) eqn:E; cbn -[borrows]; rewrite E; [|done].
  apply (borrows_bind 0 0 (bootstrap_backend login b)).
  - eapply (confined_borrows (fun _ => True)), user_lends_nothing, bootstrap_backend_user.
  - by intros [] s'.
Qed.

Lemma retry_cycle_borrows b route target frames plans commands committed s :
  borrows 1 (retry_cycle cfg b route target frames plans commands committed) s.
Proof.
  apply borrows_act; [done|]. intros _. intros ? ?. apply borrows_act; [done|]. intros []; [by intros []|].
  apply borrows_get. cbv zeta.
  apply (borrows_bind 1 0 (timeout [] _)).
  - apply borrows_timeout, borrows_act; [done|]. intros _. apply (borrows_bind 1 0 (checkout_backend _ _ _ _ _ _)); [apply checkout_backend_borrows1|].
    intros [b'|e|] s'; try done. apply (confined_borrows (fun _ => True)). lend_tac.
  - intros [[b'|e|]|] s'; [apply borrows_act; [done|]; intros _|by intros []|done|by intros []].
    apply (borrows_bind 0 0 (forward_attempt _ _ _ _)).
    + eapply (confined_borrows (fun _ => True)), user_lends_nothing, forward_attempt_user.
    + intros a s''. apply conclude_borrows.
Qed.
End Borrowing.

(** ** The theorem *)

Lemma safe_request_true frames plans v replay :
  safe_request_to_replay frames plans v replay = Some true ->
  Forall (fun f => tag f = frontend_byte Query) frames /\ Virtual.pin_reason v = None /\
  (Virtual.has_replayable_settings v = true -> replay = true) /\
  exists p a, plans = [p] /\ plan_analysis p = Some a /\ routes_to_replica (an_query_class a) = true.
Proof.
  unfold safe_request_to_replay. destruct (_ && _) eqn:Hf; [|done]. destruct plans as [|p []]; try done.
  destruct (plan_analysis p) as [a|] eqn:Ha; [|done]. cbn. intros [= H].
  apply andb_prop in Hf as [_ Hf]. apply andb_prop in H as [H Hs]. apply andb_prop in H as [Hr Hp].
  apply bool_decide_eq_true_1 in Hp. split_and!; [|done| |by exists p, a].
  - apply Forall_forall. intros f Hin. apply Z.eqb_eq. eapply forallb_forall in Hf; [exact Hf|]. by apply list_elem_of_In.
  - intros Hset. by rewrite Hset, orb_false_r in Hs.
Qed.

Lemma may_retry_true cfg frames plans s r :
  may_retry cfg frames plans s r = Some true ->
  r = Some (Err (BackendFailure FailRead false)) /\ Forall (fun f => tag f = frontend_byte Query) frames /\
  Virtual.pin_reason (session s) = None /\
  (Virtual.has_replayable_settings (session s) = true ->
   failover_enabled cfg = true /\ failover_replay_session_state cfg = true) /\
  exists p a, plans = [p] /\ plan_analysis p = Some a /\ routes_to_replica (an_query_class a) = true.
Proof.
  unfold may_retry. destruct r as [[outcome|[kind started|k|e]|]|]; try done.
  destruct (safe_request_to_replay frames plans (session s) false) as [plain|] eqn:Hplain; [|done]. cbn.
  assert (forall safe, Some (bool_decide (retry_disposition kind started safe = RetryBeforeResponse)) = Some true ->
    kind = FailRead /\ started = false /\ safe = true) as Hd.
  { intros safe [= H%bool_decide_eq_true_1]. by destruct kind, started, safe. }
  destruct plain; [|destruct (failover_enabled cfg) eqn:He].
  - intros (-> & -> & _)%Hd. apply safe_request_true in Hplain as (? & ? & Hs & ?). split_and!; try done.
    by intros ?%Hs.
  - destruct (safe_request_to_replay frames plans (session s) (failover_replay_session_state cfg)) as [safe|] eqn:Hsafe; [|done].
    intros (-> & -> & ->)%Hd. apply safe_request_true in Hsafe as (? & ? & Hs & ?). by split_and!; auto.
  - by intros (_ & _ & [=])%Hd.
Qed.

(** C5. When the proxy sends a query a second time. In one cycle at most one
    further connection is borrowed; when one is, the first attempt ended
    because its server could not be read any more, nothing had been written
    to the client, the session had no open transaction or other pin, session
    settings were set only if the configuration replays them, and the cycle
    was a single simple Query message whose text is made of statements that
    are reads by their words ([SqlClassify.replica_read]) or transaction
    control, one of them a read. The text may hold several statements, and a
    part of a frame the server had sent is not counted as an answer: both
    differ from docs/transparent-failover.md (see
    [Scenarios.several_statements_are_replayed] and
    [Scenarios.partial_frame_is_replayed]). The last conjunct takes the plans
    from [request_plans_for_frames] with a cache that holds what it was
    given. *)
Theorem replay_only_before_response `{Crypto} cfg env b route target frames plans committed s :
  let commands := rp_command <$> List.filter updates_session_state plans in
  let '(first, s1, h1) := run env (forward_attempt cfg b frames commands) s [] in
  let '(r, s2, h2) := run env (forward_with_retry cfg b route target frames plans committed) s [] in
  (checkouts h2 <= 1)%nat /\
  ((0 < checkouts h2)%nat ->
   first = Some (Some (Err (BackendFailure FailRead false))) /\ spoken h1 = false /\
   Forall (fun f => tag f = frontend_byte Query) frames /\
   Virtual.pin_reason (session s1) = None /\
   (Virtual.has_replayable_settings (session s1) = true ->
    failover_enabled cfg = true /\ failover_replay_session_state cfg = true) /\
   (exists p a, plans = [p] /\ plan_analysis p = Some a /\ routes_to_replica (an_query_class a) = true) /\
   (forall prepared analyze c c', cache_ok c ->
     request_plans_for_frames prepared frames analyze c = Ok (c', plans) ->
     exists f q, frames = [f] /\ parse_simple_query f = Ok (Some q) /\ reads_only q)).
Proof.
  cbv zeta. unfold forward_with_retry. rewrite run_bind. set (commands := _ <$> _).
  pose proof (wp_sound _ _ _ _ env (forward_attempt_reported cfg b frames commands s [] eq_refl)) as Hsp.
  assert (checkouts (snd (run env (forward_attempt cfg b frames commands) s [])) <= 0)%nat as Hc1.
  { apply (run_borrows env 0). eapply (confined_borrows (fun _ => True)), user_lends_nothing, forward_attempt_user. }
  destruct (run env (forward_attempt _ _ _ _) s []) as [[[first|] s1] h1]; cbn [snd] in Hc1; [|lia].
  change (get ≫= ?f) with (Get f). cbn [run].
  destruct (may_retry cfg frames plans s1 first) as [[]|] eqn:Hm.
  - apply may_retry_true in Hm as (-> & Hm).
    pose proof (run_borrows env 1 _ s1 h1 (retry_cycle_borrows cfg b route target frames plans commands committed s1)) as Hc2.
    destruct (run _ _ s1 h1) as [[r s2] h2]. cbn [snd] in Hc2. split; [lia|]. intros _.
    destruct Hm as (Hq & Hp & Hs & p & a & -> & Ha & Hr). split_and!; eauto. intros. by eapply single_read_plan.
  - pose proof (run_borrows env 0 _ s1 h1 (conclude_borrows cfg b plans first committed s1)) as Hc2.
    destruct (run _ _ s1 h1) as [[r s2] h2]. cbn [snd] in Hc2. lia.
  - cbn [run act mbind prog_bind bind]. rewrite checkouts_snoc. cbn [is_checkout]. lia.
Qed.
