(* ===== verification/Release.v ===== *)
(** * Release: the state a connection is in when it goes back to the pool

    What [finish_ready_backend] of the client session has done to a server
    connection when it releases it after a cycle, and what it has not. *)

From S2P Require Import Prelude Text Protocol Frame BackendWire Secrets Auth Cycle Lsn RoutingTypes Route Policy.
From S2P Require Import Sharding ShardExtract Sql SqlClassify Session ReadRouting Prepare Pool Pools RequestPlan.
From S2P Require Import Guardrails Checkout Effects Forwarding Recovery ClientSession Custody.

(** ** Answers the proxy waited for *)

Definition is_read_of (b : Backend) (e : event) : Prop :=
  match e with Ev (ReadBackend b') _ => b' = b | Ev Patience _ => True | _ => False end.

(** The history since [h]: [sql] was written to [b] and [b] was read until a
    chunk completed a ReadyForQuery of this status. *)
Definition answered (b : Backend) (sql : str) (status : ReadyStatus) (h h' : list event) : Prop :=
  exists reads chunk buffer rest,
    h' = h ++ Ev (WriteBackend b (encode_frontend [simple_query_frame sql])) true
           :: reads ++ [Ev (ReadBackend b) (Chunk chunk)] /\
    Forall (is_read_of b) reads /\
    ready_scan (S (length (buffer ++ chunk))) (buffer ++ chunk) None = Ok (Some status, rest).

Section Answered.
Context (b : Backend).

Lemma await_loop_answered fuel max buffer s h :
  wp (await_loop fuel b max buffer)
     (fun r s' h' => s' = s /\ forall status, r = Some (Ok status) ->
        exists reads chunk buffer rest, h' = h ++ reads ++ [Ev (ReadBackend b) (Chunk chunk)] /\
          Forall (is_read_of b) reads /\
          ready_scan (S (length (buffer ++ chunk))) (buffer ++ chunk) None = Ok (Some status, rest)) s h.
Proof.
  revert buffer h. induction fuel as [|fuel IH]; intros buffer h; cbn [await_loop]; (case_match; [done|]); [done|].
  apply wp_act. intros [[|x chunk]| |]; try done. set (c := x :: chunk). cbv zeta. case_match; [done|].
  destruct (ready_scan _ _ _) as [[[status|] rest]|e|] eqn:E; try done.
  - split; [done|]. intros ? [= <-]. exists [], c, buffer, rest. by rewrite E.
  - eapply wp_mono; [apply IH|]. intros r s' h' [-> Hr]. split; [done|]. intros status Hs.
    destruct (Hr status Hs) as (reads & chunk' & buffer' & rest' & -> & Hf & Hscan).
    exists (Ev (ReadBackend b) (Chunk c) :: reads), chunk', buffer', rest'. rewrite <- !app_assoc. split_and!; try done.
    by constructor.
Qed.

Lemma execute_simple_query_answered sql max s h :
  wp (execute_simple_query b sql max)
     (fun r s' h' => s' = s /\ (r = Some (Ok tt) -> answered b sql RS_Idle h h')) s h.
Proof.
  apply wp_and_then. apply wp_act. intros []; [|done]. apply wp_act. intros reads0. cbn beta iota.
  eapply wp_mono; [apply await_loop_answered|]. intros [[status|e|]|] s' h' [-> Hr]; try done.
  split; [done|]. case_bool_decide as Hs; [|done]. intros _.
  destruct (Hr status eq_refl) as (reads & chunk & buffer & rest & -> & Hf & Hscan).
  exists (Ev Patience reads0 :: reads), chunk, buffer, rest. rewrite <- !app_assoc, <- Hs. split_and!; try done.
  by constructor.
Qed.
End Answered.

(** ** Releases *)

(** How a connection was left when it was released. *)
Definition left_clean (cfg : SessionConfig) (b : Backend) (status : ReadyStatus) (s' : Sess) (h' : list event) : Prop :=
  pool_mode cfg = TransactionMode /\ pinned_backend s' = None /\
  exists h0, h' = h0 ++ [Ev UnbindCancel tt; Ev (Release b) tt] /\
    ((status = RS_Idle /\ Virtual.pin_reason (session s') = None /\ has_named_statements (prepared s') = false /\
      (Virtual.has_replayable_settings (session s') = true -> exists h, answered b (reset_query cfg) RS_Idle h h0)) \/
     (status = RS_FailedTransaction /\ exists h, answered b (lit "ROLLBACK") RS_Idle h h0)).

Section Releases.
Context (cfg : SessionConfig) (b : Backend) (status : ReadyStatus).

Abbreviation unreleased h := (Ev (Release b) tt ∉ h).
Definition released_clean {A} (r : option A) (s' : Sess) (h' : list event) : Prop :=
  unreleased h' \/ left_clean cfg b status s' h'.

Lemma unreleased_use c x h : uses b c -> unreleased h -> unreleased (h ++ [Ev c x]).
Proof.
  intros Hc Hh. rewrite not_elem_of_app. split; [done|]. rewrite list_elem_of_singleton. intros E.
  assert (c = Release b) as -> by congruence. done.
Qed.

Lemma user_unreleased {A} (p : prog A) s h : user b p -> unreleased h -> wp p (fun _ _ h => unreleased h) s h.
Proof.
  intros Hp Hh. eapply wp_mono with (Q := fun _ s' h => held_backend s' = held_backend s /\ unreleased h); [|naive_solver].
  apply (confined_wp (uses b) (fun s' => held_backend s' = held_backend s)); auto.
  intros c x h'. apply unreleased_use.
Qed.

Lemma unreleased_snoc c x h : c <> Release b -> unreleased h -> unreleased (h ++ [Ev c x]).
Proof. intros Hc Hh. rewrite not_elem_of_app, list_elem_of_singleton. split; [done|]. congruence. Qed.

(** A query of the proxy's own, then what follows it once it is answered. *)
Lemma wp_query {A} sql max (q : fallible A) s h :
  unreleased h -> (forall h', answered b sql RS_Idle h h' -> unreleased h' -> wp q released_clean s h') ->
  wp (_ ←? owning b (execute_simple_query b sql max); q) released_clean s h.
Proof.
  intros Hh Hq. apply wp_and_then, wp_owning. eapply wp_mono.
  { apply wp_both; [apply (execute_simple_query_answered b sql max s h)|].
    by apply user_unreleased; [apply execute_simple_query_user|]. }
  intros [[[]|e|]|] s' h' [[-> Ha] Hu]; [by apply Hq; auto| | |by left]; intros x; left; by apply unreleased_snoc.
Qed.

Lemma wp_rollback {A} max (q : fallible A) s h :
  unreleased h -> (forall s' h', answered b (lit "ROLLBACK") RS_Idle h h' -> unreleased h' -> wp q released_clean s' h') ->
  wp (_ ←? owning b (rollback b max); q) released_clean s h.
Proof.
  intros Hh Hq. apply wp_and_then, wp_owning, wp_and_then. eapply wp_mono.
  { apply wp_both; [apply (execute_simple_query_answered b (lit "ROLLBACK") max s h)|].
    by apply user_unreleased; [apply execute_simple_query_user|]. }
  intros [[[]|e|]|] s' h' [[-> Ha] Hu]; [| | |by left]; try (intros x; left; by apply unreleased_snoc).
  apply wp_get. unfold rollback_session. destruct (classify _); [by apply wp_put, Hq; auto|].
  intros x. left. by apply unreleased_snoc.
Qed.

Definition reusable (s : Sess) (h0 : list event) : Prop :=
  (status = RS_Idle /\ Virtual.pin_reason (session s) = None /\ has_named_statements (prepared s) = false /\
   (Virtual.has_replayable_settings (session s) = true -> exists h, answered b (reset_query cfg) RS_Idle h h0)) \/
  (status = RS_FailedTransaction /\ exists h, answered b (lit "ROLLBACK") RS_Idle h h0).

Lemma wp_release_clean s h0 :
  pool_mode cfg = TransactionMode -> reusable s h0 ->
  wp (_ ← modify clear_pinned_backend; _ ← release_backend_with_cancel_unbind b; Ret (Ok tt))
     (released_clean (A := result failure unit)) s h0.
Proof.
  intros Hm Hc [] []. right. rewrite <- app_assoc. split_and!; [done..|]. by exists h0.
Qed.

Lemma finish_action_cases s :
  match finish_action cfg s status with
  | Reuse | ResetThenReuse =>
      pool_mode cfg = TransactionMode /\ status = RS_Idle /\ Virtual.pin_reason (session s) = None /\
      has_named_statements (prepared s) = false /\
      Virtual.has_replayable_settings (session s) = bool_decide (finish_action cfg s status = ResetThenReuse)
  | RollbackThenReuse => pool_mode cfg = TransactionMode /\ status = RS_FailedTransaction
  | KeepPinned | RollbackThenKeepPinned | DiscardBackend => True
  end.
Proof.
  unfold finish_action, cleanup_action. destruct (has_named_statements (prepared s)), (pool_mode cfg) eqn:Hm,
    (Virtual.pin_reason (session s)) as [[]|] eqn:Hp, status, (Virtual.has_replayable_settings (session s)) eqn:Hs; by cbn.
Qed.

Lemma apply_cleanup_released s h :
  unreleased h -> wp (apply_cleanup cfg b (finish_action cfg s status)) released_clean s h.
Proof.
  intros Hh. pose proof (finish_action_cases s) as Hc. destruct (finish_action cfg s status) eqn:E; cbn [apply_cleanup].
  - destruct Hc as (? & ? & ? & ? & Hs). apply wp_release_clean; [done|]. left. split_and!; try done. by rewrite Hs.
  - destruct Hc as (? & ? & ? & ? & Hs). apply wp_query; [done|]. intros h' Ha _. apply wp_release_clean; [done|].
    left. split_and!; try done. by exists h.
  - by left.
  - destruct Hc as [? ?]. apply wp_rollback; [done|]. intros s' h' Ha _. apply wp_release_clean; [done|].
    right. split; [done|]. by exists h.
  - apply wp_rollback; [done|]. intros s' h' Ha Hu. by left.
  - intros x y. left. apply unreleased_snoc; [done|]. by apply unreleased_snoc.
Qed.

Lemma finish_ready_released committed s h :
  unreleased h -> wp (finish_ready_backend cfg b status committed) released_clean s h.
Proof.
  intros Hh. apply wp_modify, wp_and_then, wp_owning. eapply wp_mono.
  { apply user_unreleased; [apply probe_after_commit_user|done]. }
  intros [[[]|e|]|] s' h' Hu; [|intros x; left; by apply unreleased_snoc..|by left].
  apply wp_modify, wp_get. by apply apply_cleanup_released.
Qed.
End Releases.

(** C6. What a released connection has behind it. After a complete answer
    the session releases the connection only in transaction pooling, at the
    very end, its cancel key unbound; and then either the server was idle,
    nothing pins the session, it has no named prepared statement, and if it
    has settings the reset query was written last and answered by an idle
    server; or the server was in a failed transaction, and ROLLBACK was
    written last and answered by an idle server. *)
Theorem release_after_cycle cfg env b status committed s :
  let '(r, s', h) := run env (finish_ready_backend cfg b status committed) s [] in
  Ev (Release b) tt ∈ h -> left_clean cfg b status s' h.
Proof.
  assert (Ev (Release b) tt ∉ []) as Hh by apply not_elem_of_nil.
  pose proof (wp_sound _ _ _ _ env (finish_ready_released cfg b status committed s [] Hh)) as H.
  destruct (run _ _ _ _) as [[r s'] h]. by destruct H.
Qed.
