(* ===== verification/Scenarios.v ===== *)
(** * Scenarios: executions of the client session

    Concrete runs of the session programs against scripted servers and
    clients: witnesses for the theorems about every environment, and runs
    that show where a connection or a session ends up in a state that its
    next user does not expect. *)

From S2P Require Import Prelude Text Protocol Startup Frame BackendWire Secrets Auth Cycle Lsn RoutingTypes Route Policy.
From S2P Require Import Sharding ShardExtract Sql SqlClassify Session ReadRouting Prepare Pool Pools RequestPlan.
From S2P Require Import Guardrails Checkout Effects Login Forwarding Recovery ClientSession Admission Custody.
From S2P Require Import Gatekeeping Replay Release.

(** ** A scripted environment *)

Definition count_cmd (f : cmd -> bool) (h : list event) : nat :=
  length (List.filter (fun e => match e with Ev c _ => f c end) h).
Definition is_read (c : cmd) : bool := match c with ReadBackend _ => true | _ => false end.
Definition is_await (c : cmd) : bool := match c with AwaitIdle _ _ => true | _ => false end.
Definition is_timed_read (c : cmd) : bool := match c with ReadClientInTime => true | _ => false end.

(** What the world will do: the packets the client starts with, whether
    the first checkout finds a connection that is already logged in, the
    chunks servers send, the events of an idle session, when deadlines pass,
    what guardrails refuse. *)
Record Script := {
  sc_packets : list bytes;
  sc_started : bool;
  sc_reads : list ReadEvent;
  sc_idle : list IdleEvent;
  sc_late : list event -> bool;
  sc_deny : str -> bool;
}.

(** The [n]-th checkout lends connection [n]; everything else succeeds. *)
Definition scripted (sc : Script) : Env :=
  fun h c =>
    match c return answer c with
    | Checkout _ _ _ =>
        let n := count_cmd is_checkout h in
        Ok {| lease_backend_id := Z.of_nat n;
              requires_startup := match n with O => negb (sc_started sc) | S _ => false end |}
    | SelectTarget _ | WaitTarget _ => Some (ToPrimary TOff)
    | EvaluateGuardrails _ sql => Some (if sc_deny sc sql then Some Ddl else None)
    | PauseWait | BindCancel _ | UnbindCancel | Release _ | Discard _ | DropLease _ | MarkFailed _ => tt
    | ParameterStatusOf _ => [(lit "server_version", lit "16.0")]
    | WriteBackend _ _ | FlushBackend _ => true
    | ReadBackend _ => nth (count_cmd is_read h) (sc_reads sc) Eof
    | ReadDuplex _ => FromBackend Eof
    | AwaitIdle _ _ => nth (count_cmd is_await h) (sc_idle sc) (IdleFromClient Eof)
    | RemoveCancelSession => tt
    | WriteClient _ => true
    | ReadClient => Eof
    | ReadClientInTime => Some (default Eof (Chunk <$> sc_packets sc !! count_cmd is_timed_read h))
    | StartTls _ => Ok true
    | IssueClientKey => Ok (7, 11)
    | ForwardCancel _ => tt
    | AuthenticateClient _ => Ok Authenticated
    | ScheduleWarmup => tt
    | RandomBytes => None
    | MirrorCycle _ _ _ => tt
    | Elapsed => sc_late sc h
    | QueryDeadlinePassed => false
    | Patience => 30%nat
    end.

(** The events that matter here, by the number of the connection. *)
Inductive note :=
| Lent (n : Z) | Sent (n : Z) (bs : bytes) | Answered (n : Z) (bs : bytes) | Silent (n : Z)
| Told (bs : bytes) | Returned (n : Z) | Dropped (n : Z).
#[global] Instance note_eq_dec : EqDecision note.
Proof. solve_decision. Defined.
Definition note_of (e : event) : list note :=
  match e with
  | Ev (Checkout _ _ _) (Ok b) => [Lent (lease_backend_id b)]
  | Ev (WriteBackend b bs) _ => [Sent (lease_backend_id b) bs]
  | Ev (ReadBackend b) (Chunk bs) => [Answered (lease_backend_id b) bs]
  | Ev (ReadBackend b) _ => [Silent (lease_backend_id b)]
  | Ev (WriteClient bs) _ => [Told bs]
  | Ev (Release b) _ => [Returned (lease_backend_id b)]
  | Ev (Discard b) _ | Ev (DropLease b) _ => [Dropped (lease_backend_id b)]
  | _ => []
  end.
Definition story {A} (r : A * list event) : list note := snd r ≫= note_of.

Definition conn (n : Z) : Backend := {| lease_backend_id := n; requires_startup := false |}.
Definition query (sql : string) : bytes := encode_frontend [simple_query_frame (lit sql)].
Definition says (sql : string) : IdleEvent := IdleFromClient (Chunk (query sql)).
Definition completes (command : string) (status : ReadyStatus) : bytes :=
  build_command_complete (lit command) ++ ready_for_query status.
Definition fails (status : ReadyStatus) : bytes :=
  build_error_response (lit "42601") (lit "syntax error") ++ ready_for_query status.

(** ** A configuration and a session *)

#[local] Existing Instance toy.

Definition demo_login : LoginConfig :=
  {| login_env := fun _ => None; login_backend_is_tls := false; login_credentials := None;
     login_startup_packet := app_packet |}.
Definition demo_planner (mode : ReadRoutingMode) : ReadRoutingPlanner :=
  {| read_routing_mode := mode; pl_fallback_policy := FallbackToPrimary;
     pl_freshness_policy := SessionWriteLsn; max_replica_lag_ms := 100 |}.
Definition demo_config (mode : ReadRoutingMode) (recovery : RecoveryMode) : SessionConfig :=
  {| cfg_planner := demo_planner mode; cfg_mode := mode; cfg_fallback := FallbackToPrimary; cfg_pools := one_replica;
     read_after_write_protection_enabled := true; overload_error_code := lit "53300";
     max_client_buffer_bytes := 65536; max_backend_buffer_bytes := 65536; pool_mode := TransactionMode;
     recovery_mode := recovery; reset_query := lit "DISCARD ALL"; failover_enabled := false;
     failover_replay_session_state := false; mirror_enabled := false; cfg_login := demo_login |}.

Definition demo_session : Sess :=
  {| session := Virtual.fresh; prepared := catalog_new 1; plan_cache := cache_new 0; pinned_backend := None;
     held_backend := None; route_application_name := None;
     session_route := route_key_new (lit "db") (lit "app") None None RouteClass.Default;
     client_read := []; backend_read := []; progress := progress_default; wait_for_client_activity := false |}.

Definition never (_ : list event) : bool := false.
Definition allow (_ : str) : bool := false.
Definition script (reads : list ReadEvent) (idle : list IdleEvent) (late : list event -> bool) : Script :=
  {| sc_packets := [app_packet]; sc_started := true; sc_reads := reads; sc_idle := idle; sc_late := late; sc_deny := allow |}.

(** A session from its loop on, and one from its startup on. *)
Definition demo (mode : ReadRoutingMode) (recovery : RecoveryMode) (sc : Script) :=
  run (scripted sc) (run_session (demo_config mode recovery)) demo_session [].

Definition demo_admission (tls : ClientTlsMode) (auth : AuthMode) : AdmissionConfig :=
  {| adm_tls_mode := tls; adm_tls_config := Ok true; adm_users := Ok true; adm_auth_mode := auth;
     adm_selector := selector_default one_replica (from_route_config (demo_planner ModeOff));
     adm_client_addr := V4 2130706433 40000; adm_env := fun _ => None; adm_backend_is_tls := false;
     adm_credentials := None |}.

Definition admit_demo (tls : ClientTlsMode) (auth : AuthMode) (sc : Script) :=
  run (scripted sc) (handle_client (demo_admission tls auth) (demo_config ModeOff RecoverMode) 1) demo_session [].

(** A deadline that passes right after these bytes were sent, or after the
    [n]-th read of a server. *)
Definition late_after (bs : bytes) (h : list event) : bool :=
  match last h with Some (Ev (WriteBackend _ bs') _) => bool_decide (bs' = bs) | _ => false end.
Definition late_after_read (n : nat) (h : list event) : bool :=
  match last h with Some (Ev (ReadBackend _) _) => Nat.eqb (count_cmd is_read h) n | _ => false end.

(** ** Witnesses *)

Definition tls_script : Script :=
  {| sc_packets := [ssl_request_packet; app_packet]; sc_started := true;
     sc_reads := [Chunk (completes "SELECT 1" RS_Idle)]; sc_idle := [says "select 1"]; sc_late := never; sc_deny := allow |}.

(** A client that must use TLS and log in, and asks one query. *)
Lemma session_custody_witness :
  held_backend demo_session = None /\
  story (admit_demo TlsRequire AuthScramSha256 tls_script) =
    [Told (encode_utf8 (lit "S")); Lent 0;
     Told (synthetic_startup_ready false [(lit "server_version", lit "16.0")] (7, 11)); Returned 0;
     Lent 1; Sent 1 (query "select 1"); Answered 1 (completes "SELECT 1" RS_Idle);
     Told (completes "SELECT 1" RS_Idle); Returned 1] /\
  let '(r, s', h) := admit_demo TlsRequire AuthScramSha256 tls_script in
  ledger_of h <> None /\ (is_Some r -> ledger_of h = Some (None, false) /\ held_backend s' = None).
Proof.
  split; [reflexivity|]. split; [vm_compute; reflexivity|].
  unfold admit_demo. apply session_custody. reflexivity.
Defined.

Lemma admission_guarded_witness :
  client_read demo_session = [] /\
  let adm := demo_admission TlsVerifyClient AuthScramSha256 in
  let '(r, s', h) := run (scripted tls_script) (complete_client_startup adm (demo_config ModeOff RecoverMode)) demo_session [] in
  exists plan, r = Some (Ok (Some plan)) /\ vouched adm plan h /\ tls_satisfied adm (tls_view h).
Proof.
  split; [reflexivity|]. cbv zeta.
  assert (exists plan, fst (fst (run (scripted tls_script)
    (complete_client_startup (demo_admission TlsVerifyClient AuthScramSha256) (demo_config ModeOff RecoverMode)) demo_session []))
    = Some (Ok (Some plan))) as [plan Hplan] by (eexists; vm_compute; reflexivity).
  pose proof (admission_guarded (demo_admission TlsVerifyClient AuthScramSha256) (demo_config ModeOff RecoverMode)
    (scripted tls_script) demo_session eq_refl) as Hg.
  destruct (run _ _ _ _) as [[r s'] h]. cbn in Hplan. exists plan. split; [exact Hplan|].
  destruct (Hg plan Hplan) as (? & ? & _). split; assumption.
Defined.

(** A server dies before it answers a read: the read goes to another. *)
Lemma dead_server_read_is_replayed :
  let r := demo ModeOff RecoverMode (script [Eof; Chunk (completes "SELECT 1" RS_Idle)] [says "select 1"] never) in
  story r = [Lent 0; Sent 0 (query "select 1"); Silent 0; Dropped 0; Lent 1; Sent 1 (query "select 1");
             Answered 1 (completes "SELECT 1" RS_Idle); Told (completes "SELECT 1" RS_Idle); Returned 1].
Proof. vm_compute. reflexivity. Qed.

(** Settings are reset before the connection goes back. *)
Lemma settings_are_reset :
  story (demo ModeOff RecoverMode (script [Chunk (completes "SET" RS_Idle); Chunk (completes "DISCARD ALL" RS_Idle)]
           [says "set search_path = app"] never)) =
    [Lent 0; Sent 0 (query "set search_path = app"); Answered 0 (completes "SET" RS_Idle);
     Told (completes "SET" RS_Idle); Sent 0 (query "DISCARD ALL"); Answered 0 (completes "DISCARD ALL" RS_Idle);
     Returned 0].
Proof. vm_compute. reflexivity. Qed.

(** ** Connections that change hands too early *)

Definition begun : ReadEvent := Chunk (completes "BEGIN" RS_InTransaction).
Definition failed : ReadEvent := Chunk (fails RS_FailedTransaction).
Definition rolled_back : ReadEvent := Chunk (completes "ROLLBACK" RS_Idle).

(** After an error inside a transaction the proxy rolls back and gives the
    connection away; the client, which was told that its transaction has
    failed, sends its next statement, and it is executed on its own. *)
Lemma failed_transaction_goes_on_elsewhere :
  story (demo ModeOff RecoverMode
           (script [begun; failed; rolled_back; Chunk (completes "INSERT 0 1" RS_Idle)]
              [says "begin"; says "bad"; says "insert into t values (1)"] never)) =
    [Lent 0; Sent 0 (query "begin"); Answered 0 (completes "BEGIN" RS_InTransaction);
     Told (completes "BEGIN" RS_InTransaction); Sent 0 (query "bad"); Answered 0 (fails RS_FailedTransaction);
     Told (fails RS_FailedTransaction); Sent 0 (query "ROLLBACK"); Answered 0 (completes "ROLLBACK" RS_Idle);
     Returned 0;
     Lent 1; Sent 1 (query "insert into t values (1)"); Answered 1 (completes "INSERT 0 1" RS_Idle);
     Told (completes "INSERT 0 1" RS_Idle); Returned 1].
Proof. vm_compute. reflexivity. Qed.

(** The same error gives away a connection that a temporary table pins, the
    table still there: the pin is not looked at. *)
Lemma failed_transaction_gives_temp_table_away :
  let r := demo ModeOff RecoverMode
             (script [Chunk (completes "CREATE TABLE" RS_Idle); begun; failed; rolled_back]
                [says "create temp table t (id int)"; says "begin"; says "bad"] never) in
  drop 7 (story r) =
    [Sent 0 (query "bad"); Answered 0 (fails RS_FailedTransaction); Told (fails RS_FailedTransaction);
     Sent 0 (query "ROLLBACK"); Answered 0 (completes "ROLLBACK" RS_Idle); Returned 0] /\
  Virtual.has_temp_table (session (snd (fst r))) = true.
Proof. vm_compute. split; reflexivity. Qed.

(** A freshness probe that is not answered in time: the connection goes back
    to the pool with the probe's answer on its way to the next client. *)
Lemma unanswered_probe_is_given_away :
  let r := demo PreferReplica RecoverMode
             (script [begun; Chunk (completes "INSERT 0 1" RS_InTransaction); Chunk (completes "COMMIT" RS_Idle)]
                [says "begin"; says "insert into t values (1)"; says "commit"]
                (late_after (query "SELECT pg_current_wal_lsn()"))) in
  drop 7 (story r) =
    [Sent 0 (query "commit"); Answered 0 (completes "COMMIT" RS_Idle); Told (completes "COMMIT" RS_Idle);
     Sent 0 (query "SELECT pg_current_wal_lsn()"); Returned 0].
Proof. vm_compute. reflexivity. Qed.

(** Two queries in one cycle that run out of time: the recovery waits for
    the first answer and gives the connection back with the second to come. *)
Lemma second_answer_is_given_away :
  story (demo ModeOff RecoverMode
           (script [Chunk (completes "SELECT 1" RS_Idle)]
              [IdleFromClient (Chunk (query "select 1" ++ query "select 2"))]
              (late_after (query "select 1" ++ query "select 2")))) =
    [Lent 0; Sent 0 (query "select 1" ++ query "select 2");
     Told (build_error_response (lit "57014") (lit "query timed out") ++ ready_for_query RS_Idle);
     Answered 0 (completes "SELECT 1" RS_Idle); Returned 0].
Proof. vm_compute. reflexivity. Qed.

(** ** Sessions that misread *)

(** The beginning of a frame that a query left behind when it ran out of time
    is put before the answer of the next server: that answer is complete,
    and the client is not told. *)
Lemma stale_bytes_precede_the_next_answer :
  let r := demo ModeOff DropMode
             (script [Chunk (take 3 (completes "SELECT 1" RS_Idle)); Chunk (completes "SELECT 2" RS_Idle)]
                [says "select 1"; says "select 2"] (late_after_read 1)) in
  take 8 (story r) =
    [Lent 0; Sent 0 (query "select 1"); Answered 0 (take 3 (completes "SELECT 1" RS_Idle));
     Told (build_error_response (lit "57014") (lit "query timed out") ++ ready_for_query RS_Idle); Dropped 0;
     Lent 1; Sent 1 (query "select 2"); Answered 1 (completes "SELECT 2" RS_Idle)] /\
  Told (completes "SELECT 2" RS_Idle) ∉ story r.
Proof.
  cbv zeta. split; [vm_compute; reflexivity|]. apply (bool_decide_unpack _). vm_compute. exact Logic.I.
Qed.

(** A text of two reads is sent again like a single one, though
    docs/transparent-failover.md says that multi-statement requests are not. *)
Lemma several_statements_are_replayed :
  story (demo ModeOff RecoverMode
           (script [Eof; Chunk (completes "SELECT 1" RS_Idle)] [says "select 1; select 2"] never)) =
    [Lent 0; Sent 0 (query "select 1; select 2"); Silent 0; Dropped 0;
     Lent 1; Sent 1 (query "select 1; select 2"); Answered 1 (completes "SELECT 1" RS_Idle);
     Told (completes "SELECT 1" RS_Idle); Returned 1].
Proof. vm_compute. reflexivity. Qed.

(** A server that is lost in the middle of its first frame counts as one that
    has not answered: the query is sent again, the new answer is read behind
    the three bytes of the old one, and the client is told an error. *)
Lemma partial_frame_is_replayed :
  let r := demo ModeOff RecoverMode
             (script [Chunk (take 3 (completes "SELECT 1" RS_Idle)); Eof; Chunk (completes "SELECT 1" RS_Idle)]
                [says "select 1"] never) in
  take 8 (story r) =
    [Lent 0; Sent 0 (query "select 1"); Answered 0 (take 3 (completes "SELECT 1" RS_Idle)); Silent 0; Dropped 0;
     Lent 1; Sent 1 (query "select 1"); Answered 1 (completes "SELECT 1" RS_Idle)] /\
  Told (completes "SELECT 1" RS_Idle) ∉ story r.
Proof.
  cbv zeta. split; [vm_compute; reflexivity|]. apply (bool_decide_unpack _). vm_compute. exact Logic.I.
Qed.

(** A SET that the server rejects replaces the accepted one in the record: the
    next connection is sent the rejected statement, the answer is not looked
    at, and the setting the client still has is not replayed. *)
Lemma rejected_setting_replaces_accepted :
  let r := demo ModeOff RecoverMode
             (script [Chunk (completes "SET" RS_Idle); Chunk (completes "DISCARD ALL" RS_Idle);
                      Chunk (completes "SET" RS_Idle); Chunk (fails RS_Idle); Chunk (completes "DISCARD ALL" RS_Idle);
                      Chunk (fails RS_Idle); Chunk (completes "SELECT 1" RS_Idle)]
                [says "set timezone = 'UTC'"; says "set timezone = 'nonsense'"; says "select 1"] never) in
  take 5 (drop 16 (story r)) =
    [Lent 2; Sent 2 (query "SET timezone = 'nonsense'"); Answered 2 (fails RS_Idle);
     Sent 2 (query "select 1"); Answered 2 (completes "SELECT 1" RS_Idle)] /\
  Sent 2 (query "SET timezone = 'UTC'") ∉ story r.
Proof.
  cbv zeta. split; [vm_compute; reflexivity|]. apply (bool_decide_unpack _). vm_compute. exact Logic.I.
Qed.

(** A SET that a ROLLBACK has taken back is replayed all the same. *)
Lemma rolled_back_setting_is_replayed :
  let r := demo ModeOff RecoverMode
             (script [begun; Chunk (completes "SET" RS_InTransaction); Chunk (completes "ROLLBACK" RS_Idle);
                      Chunk (completes "DISCARD ALL" RS_Idle); Chunk (completes "SET" RS_Idle);
                      Chunk (completes "SELECT 1" RS_Idle)]
                [says "begin"; says "set timezone = 'UTC'"; says "rollback"; says "select 1"] never) in
  take 3 (drop 13 (story r)) =
    [Lent 1; Sent 1 (query "SET timezone = 'UTC'"); Answered 1 (completes "SET" RS_Idle)].
Proof. vm_compute. reflexivity. Qed.

(** A server that closes while its session is idle inside a transaction: the
    session drops it and keeps its transaction, and the next statement runs
    on another connection, outside of any. *)
Lemma transaction_survives_its_connection :
  let r := demo ModeOff RecoverMode
             (script [begun; Chunk (completes "INSERT 0 1" RS_Idle)]
                [says "begin"; IdleFromBackend Eof; says "insert into t values (1)"] never) in
  take 8 (story r) =
    [Lent 0; Sent 0 (query "begin"); Answered 0 (completes "BEGIN" RS_InTransaction);
     Told (completes "BEGIN" RS_InTransaction); Dropped 0;
     Lent 1; Sent 1 (query "insert into t values (1)"); Answered 1 (completes "INSERT 0 1" RS_Idle)].
Proof. vm_compute. reflexivity. Qed.

(** A statement refused by a guardrail inside a transaction: the code is the
    one for overload, and the client is told that it is in no transaction. *)
Lemma refusal_inside_transaction :
  story (run (scripted {| sc_packets := []; sc_started := true;
                          sc_reads := [begun; Chunk (completes "COMMIT" RS_Idle)];
                          sc_idle := [says "begin"; says "drop table t"; says "commit"]; sc_late := never;
                          sc_deny := fun sql => bool_decide (sql = lit "drop table t") |})
           (run_session (demo_config ModeOff RecoverMode)) demo_session []) =
    [Lent 0; Sent 0 (query "begin"); Answered 0 (completes "BEGIN" RS_InTransaction);
     Told (completes "BEGIN" RS_InTransaction);
     Told (build_error_response (lit "53300") (lit "query rejected by configured safety policy")
           ++ ready_for_query RS_Idle);
     Sent 0 (query "commit"); Answered 0 (completes "COMMIT" RS_Idle); Told (completes "COMMIT" RS_Idle); Returned 0].
Proof. vm_compute. reflexivity. Qed.

(** A write outside a transaction leaves no trace for later reads: no probe
    is sent and the session remembers nothing. *)
Lemma autocommit_write_is_forgotten :
  let r := demo PreferReplica RecoverMode
             (script [Chunk (completes "INSERT 0 1" RS_Idle)] [says "insert into t values (1)"] never) in
  story r = [Lent 0; Sent 0 (query "insert into t values (1)"); Answered 0 (completes "INSERT 0 1" RS_Idle);
             Told (completes "INSERT 0 1" RS_Idle); Returned 0] /\
  Virtual.read_after_write (session (snd (fst r))) = Virtual.RawDisabled.
Proof. vm_compute. split; reflexivity. Qed.

(** ** Logins *)

(** Where authentication is left to the server, a client that is lent a
    connection which is already logged in is told that it is authenticated:
    nothing is asked of it, and no server hears of it. *)
Lemma pass_through_asks_nobody :
  let r := admit_demo TlsDisable PassThrough (script [] [] never) in
  story r = [Lent 0; Told (synthetic_startup_ready true [(lit "server_version", lit "16.0")] (7, 11)); Returned 0] /\
  count_cmd (fun c => match c with ReadClient => true | _ => false end) (snd r) = 0%nat.
Proof. vm_compute. split; reflexivity. Qed.

(** Without configured pools every database and every user share one. *)
Lemma default_selector_ignores_route p policy route route' :
  selector_resolve (selector_default p policy) route = selector_resolve (selector_default p policy) route'.
Proof. reflexivity. Qed.

Section SilentServer.
Context (l : LoginConfig) (env : Env) (b : Backend).
Context (closed : forall h, env h (ReadBackend b) = Eof).

Lemma bootstrap_frames_incomplete fuel buffer a m s h :
  parse_backend_frame buffer = Ok (None, buffer) ->
  run env (bootstrap_frames l (S fuel) b buffer a m) s h = (Some (Ok (false, buffer, a, m)), s, h).
Proof. intros Hp. cbn [bootstrap_frames]. rewrite Hp. reflexivity. Qed.

(** A server that has closed the connection before the login was complete:
    the proxy goes on reading the end of the stream and never returns,
    however long it is given. *)
Lemma bootstrap_spins_on_closed_stream fuel buffer a m s h :
  parse_backend_frame buffer = Ok (None, buffer) ->
  fst (fst (run env (bootstrap_loop l fuel b buffer a m) s h)) = None.
Proof.
  intros Hp. revert s h. induction fuel as [|fuel IH]; intros s h; [reflexivity|].
  cbn [bootstrap_loop]. rewrite run_bind. unfold act. cbn [run]. rewrite closed. unfold and_then at 1.
  rewrite run_bind. cbn [run lift_result]. unfold and_then. rewrite run_bind.
  rewrite bootstrap_frames_incomplete by done. apply IH.
Qed.

Lemma set_backend_read_id s : set_backend_read s (backend_read s) = s.
Proof. by destruct s. Qed.

Lemma relay_frames_incomplete fuel mode a m sent_key s h :
  parse_backend_frame (backend_read s) = Ok (None, backend_read s) ->
  run env (relay_frames l (S fuel) b mode a m sent_key) s h = (Some (Ok (false, a, m, sent_key)), s, h).
Proof. intros Hp. cbn. rewrite Hp. cbn. by rewrite set_backend_read_id. Qed.

Lemma relay_spins_on_closed_stream fuel mode a m sent_key s h :
  parse_backend_frame (backend_read s) = Ok (None, backend_read s) ->
  len (backend_read s) < startup_max_backend_bytes mode ->
  fst (fst (run env (relay_loop l fuel b mode a m sent_key) s h)) = None.
Proof.
  intros Hp Hlen. revert h. induction fuel as [|fuel IH]; intros h; cbn [relay_loop].
  - rewrite run_bind. unfold get. cbn [run]. rewrite (proj2 (Z.leb_gt _ _)) by done. reflexivity.
  - rewrite run_bind. unfold get. cbn [run]. rewrite (proj2 (Z.leb_gt _ _)) by done.
    rewrite run_bind. unfold act. cbn [run]. rewrite closed. unfold and_then at 1. rewrite run_bind.
    cbn [run lift_result]. rewrite run_bind. unfold put. cbn [run]. rewrite set_backend_read_id.
    rewrite (proj2 (Z.ltb_ge _ _)) by lia. unfold and_then. rewrite run_bind, relay_frames_incomplete by done. apply IH.
Qed.
End SilentServer.

(** So a client with a wrong password, whose server answers with an error
    and closes, is told the error and then holds its connection for ever. *)
Lemma refused_login_never_ends :
  let r := admit_demo TlsDisable PassThrough
             {| sc_packets := [app_packet]; sc_started := false;
                sc_reads := [Chunk (build_error_response (lit "28P01") (lit "password authentication failed"))];
                sc_idle := []; sc_late := never; sc_deny := allow |} in
  fst (fst r) = None /\
  take 4 (story r) =
    [Lent 0; Sent 0 app_packet;
     Answered 0 (build_error_response (lit "28P01") (lit "password authentication failed"));
     Told (build_error_response (lit "28P01") (lit "password authentication failed"))] /\
  drop 4 (story r) = replicate 29 (Silent 0).
Proof. vm_compute. split_and!; reflexivity. Qed.
