(* ===== verification/Drain.v ===== *)
(** * Drain: refusing new clients and waiting for the others

    Models [DrainController] and [DrainClientGuard] of
    [pg-kinetic-proxy/src/ops/drain.rs] and [PauseController] of
    [ops/pause.rs] under concurrency: any number of tasks enter and leave,
    begin or finish the drain, wait for its start or its completion, pause,
    resume and wait, every atomic operation and every lock being one step.
    Steps are sequentially consistent: the reorderings that the Acquire and
    Release orderings of the code would leave to the hardware between
    different atomics are not modelled.
    A [Notified] future completes when [notify_waiters] has been called since
    the future was made, so a [Notify] is the number of those calls and a
    future is the number at its creation. An [Instant] is a number of
    nanoseconds that only grows; [active_clients] stays below the number of
    tasks and is not wrapped. *)

From S2P Require Import Prelude Tasks.

Module Drain.
Inductive DrainState := Accepting | Draining | Drained.
#[global] Instance DrainState_eq_dec : EqDecision DrainState.
Proof. solve_decision. Defined.

Inductive DrainOutcome := Completed | TimedOut.

(** [state_to_u8], [state_from_u8]: how the atomic holds the state. *)
Definition state_to_u8 (s : DrainState) : Z :=
  match s with Accepting => 0 | Draining => 1 | Drained => 2 end.
Definition state_from_u8 (n : Z) : DrainState :=
  if n =? 0 then Accepting else if n =? 1 then Draining else Drained.

Record DrainController := {
  state_cell : Z;
  active_clients : Z;
  drain_started_at : option Z;
  drain_deadline : option Z;
  notified_calls : Z;
  clock : Z;
}.

(** [DrainController::new], at some time. *)
Definition drain_new (now : Z) : DrainController :=
  {| state_cell := state_to_u8 Accepting; active_clients := 0; drain_started_at := None;
     drain_deadline := None; notified_calls := 0; clock := now |}.

Definition state (c : DrainController) : DrainState := state_from_u8 (state_cell c).
Definition is_accepting (c : DrainController) : bool := bool_decide (state c = Accepting).
Definition is_draining (c : DrainController) : bool := bool_decide (state c = Draining).

Definition set_state (c : DrainController) (s : DrainState) : DrainController :=
  {| state_cell := state_to_u8 s; active_clients := active_clients c;
     drain_started_at := drain_started_at c; drain_deadline := drain_deadline c;
     notified_calls := notified_calls c; clock := clock c |}.
Definition add_active (c : DrainController) (d : Z) : DrainController :=
  {| state_cell := state_cell c; active_clients := active_clients c + d;
     drain_started_at := drain_started_at c; drain_deadline := drain_deadline c;
     notified_calls := notified_calls c; clock := clock c |}.
Definition set_started (c : DrainController) (t : Z) : DrainController :=
  {| state_cell := state_cell c; active_clients := active_clients c;
     drain_started_at := Some t; drain_deadline := drain_deadline c;
     notified_calls := notified_calls c; clock := clock c |}.
Definition set_deadline (c : DrainController) (t : Z) : DrainController :=
  {| state_cell := state_cell c; active_clients := active_clients c;
     drain_started_at := drain_started_at c; drain_deadline := Some t;
     notified_calls := notified_calls c; clock := clock c |}.
Definition notify_waiters (c : DrainController) : DrainController :=
  {| state_cell := state_cell c; active_clients := active_clients c;
     drain_started_at := drain_started_at c; drain_deadline := drain_deadline c;
     notified_calls := notified_calls c + 1; clock := clock c |}.
Definition tick (c : DrainController) (d : Z) : DrainController :=
  {| state_cell := state_cell c; active_clients := active_clients c;
     drain_started_at := drain_started_at c; drain_deadline := drain_deadline c;
     notified_calls := notified_calls c; clock := clock c + Z.max 0 d |}.

(** The largest [Instant]: its seconds are an [i64]. *)
Definition INSTANT_MAX : Z := 2 ^ 63 * 1000000000 - 1.

(** Where a task is. [Enter*] are [try_enter_client], [Guarded] owns a
    [DrainClientGuard] and [Leave*] are in its [Drop]; [Begin*] are
    [begin_drain], [Finish*] are [finish_drain], [Start*] are
    [wait_for_drain_start], [Wait*] are [wait_for_completion]. *)
Inductive Phase :=
| Enter
| EnterAdd
| EnterCheck
| EnterUndo
| Refused
| Guarded
| LeaveCheck (remaining : Z)
| LeaveNotify
| Left
| Begin (timeout : Z)
| BeginClock (timeout : Z)
| BeginStarted (started_at deadline : Z)
| BeginDeadline (deadline : Z)
| BeginNotify
| Begun (result : bool)
| Finish
| FinishNotify
| Finished
| StartTest
| StartListen
| StartAsleep (seen : Z)
| Started
| WaitDeadline
| WaitTest (deadline : Z)
| WaitListen (deadline : Z)
| WaitAsleep (deadline seen : Z)
| WaitDone (o : DrainOutcome)
| Panicked.

Definition drain_step (c : DrainController) (p : Phase) : list (DrainController * Phase) :=
  match p with
  | Enter => [(c, if is_accepting c then EnterAdd else Refused)]
  | EnterAdd => [(add_active c 1, EnterCheck)]
  | EnterCheck => [(c, if is_accepting c then Guarded else EnterUndo)]
  | EnterUndo => [(add_active c (-1), Refused)]
  | Guarded => [(add_active c (-1), LeaveCheck (sat_sub (active_clients c) 1))]
  | LeaveCheck remaining =>
      [(c, if (remaining =? 0) && is_draining c then LeaveNotify else Left)]
  | LeaveNotify => [(notify_waiters c, Left)]
  | Begin timeout =>
      if bool_decide (state_cell c = state_to_u8 Accepting)
      then [(set_state c Draining, BeginClock timeout)] else [(c, Begun false)]
  | BeginClock timeout =>
      let started_at := clock c in
      [(c, if started_at + timeout <=? INSTANT_MAX
           then BeginStarted started_at (started_at + timeout) else Panicked)]
  | BeginStarted started_at deadline => [(set_started c started_at, BeginDeadline deadline)]
  | BeginDeadline deadline => [(set_deadline c deadline, BeginNotify)]
  | BeginNotify => [(notify_waiters c, Begun true)]
  | Finish => [(set_state c Drained, FinishNotify)]
  | FinishNotify => [(notify_waiters c, Finished)]
  | StartTest => [(c, if is_accepting c then StartListen else Started)]
  | StartListen => [(c, StartAsleep (notified_calls c))]
  | StartAsleep seen => if seen <? notified_calls c then [(c, StartTest)] else []
  | WaitDeadline =>
      [(c, match drain_deadline c with Some d => WaitTest d | None => Panicked end)]
  | WaitTest d => [(c, if active_clients c =? 0 then WaitDone Completed else WaitListen d)]
  | WaitListen d => [(c, WaitAsleep d (notified_calls c))]
  | WaitAsleep d seen =>
      (if seen <? notified_calls c then [(c, WaitTest d)] else [])
      ++ (if d <=? clock c then [(c, WaitDone TimedOut)] else [])
  | Refused | Left | Begun _ | Finished | Started | WaitDone _ | Panicked => []
  end.

(** Waiting futures hold nothing and can be dropped while they sleep. *)
Definition drain_drop (c : DrainController) (p : Phase) : option (DrainController * Phase) :=
  match p with
  | StartAsleep _ | WaitAsleep _ _ => Some (c, Left)
  | _ => None
  end.

Definition drain_start (p : Phase) : bool :=
  match p with Enter | Begin _ | Finish | StartTest | WaitDeadline => true | _ => false end.

#[global] Instance drain_tasks : TaskSystem DrainController Phase Z := {
  task_step := drain_step;
  task_drop := drain_drop;
  task_start := drain_start;
  env_step d c := tick c d;
}.

(** ** Facts *)

Section DrainFacts.
(** A unit of [active_clients]; a guard. *)
Definition unit_of (p : Phase) : Z :=
  match p with EnterCheck | EnterUndo | Guarded => 1 | _ => 0 end.
Definition guard_of (p : Phase) : Z := match p with Guarded => 1 | _ => 0 end.
Definition guards (ts : list Phase) : Z := total guard_of ts.

(** What a phase says about the shared state, whatever the others do. *)
Definition phase_ok (c : DrainController) (ts : list Phase) (p : Phase) : Prop :=
  match p with
  | BeginClock _ | BeginStarted _ _ | BeginDeadline _ | BeginNotify | Begun true
  | FinishNotify | Finished | Started | LeaveNotify => state c <> Accepting
  | WaitTest _ | WaitListen _ | WaitAsleep _ _ => state c <> Accepting
  | WaitDone Completed => state c <> Accepting /\ guards ts = 0
  | WaitDone TimedOut => state c <> Accepting
  | _ => True
  end.

Definition drain_inv (c : DrainController) (ts : list Phase) : Prop :=
  active_clients c = total unit_of ts
  /\ (is_Some (drain_deadline c) -> state c <> Accepting)
  /\ Forall (phase_ok c ts) ts.

Lemma state_set c s : state (set_state c s) = s.
Proof. by destruct s. Qed.
Lemma is_accepting_spec c : is_accepting c = true <-> state c = Accepting.
Proof. unfold is_accepting. by rewrite bool_decide_eq_true. Qed.
Lemma cas_accepting c : state_cell c = state_to_u8 Accepting <-> state c = Accepting.
Proof.
  unfold state, state_from_u8. cbn. destruct (Z.eqb_spec (state_cell c) 0); [done|].
  split; [done|]. by destruct (state_cell c =? 1).
Qed.

Lemma guards_le_units ts : guards ts <= total unit_of ts.
Proof. apply total_le. by intros []. Qed.
Lemma units_nonneg ts : 0 <= total unit_of ts.
Proof. apply total_nonneg. by intros []. Qed.
Lemma guards_nonneg ts : 0 <= guards ts.
Proof. apply total_nonneg. by intros []. Qed.

(** A phase keeps its claim when the drain does not return to accepting and
    no guard appears. *)
Lemma phase_ok_mono c c' ts ts' p :
  (state c <> Accepting -> state c' <> Accepting /\ guards ts' <= guards ts) ->
  phase_ok c ts p -> phase_ok c' ts' p.
Proof.
  intros Hm. pose proof (guards_nonneg ts'). destruct p as [| | | | | | | | | | | | | |[]| | | | | | | | | | |d s|[]|];
    cbn; try done; try (by intros ?; apply Hm).
  intros [Hs Hg]. apply Hm in Hs as [? ?]. split; [done|lia].
Qed.

Lemma phases_ok_insert c c' ts i p p' :
  ts !! i = Some p ->
  (state c <> Accepting -> state c' <> Accepting /\ guard_of p' <= guard_of p) ->
  Forall (phase_ok c ts) ts -> phase_ok c' (<[i := p']> ts) p' ->
  Forall (phase_ok c' (<[i := p']> ts)) (<[i := p']> ts).
Proof.
  intros Hi Hm Hts Hp. apply Forall_insert; [|done]. eapply Forall_impl; [exact Hts|].
  intros q. apply phase_ok_mono. intros Hs. apply Hm in Hs as [? ?]. split; [done|].
  unfold guards. rewrite (total_insert _ _ _ p) by done. lia.
Qed.

(** The phases an action may leave its task in. *)
Ltac cases_of_step :=
  outcomes;
  repeat match goal with
         | |- context [if ?b then _ else _] => destruct b eqn:?
         | |- context [match drain_deadline ?c with _ => _ end] => destruct (drain_deadline c) eqn:?
         end.

Lemma drain_inv_moves c ts i p c' p' :
  drain_inv c ts -> ts !! i = Some p -> (c', p') ∈ drain_step c p -> drain_inv c' (<[i := p']> ts).
Proof.
  intros (Ha & Hd & Hts) Hi Hst.
  pose proof (proj1 (Forall_lookup _ _) Hts _ _ Hi) as Hp.
  assert (Hnot : is_accepting c = false -> state c <> Accepting)
    by (intros Hf Hs; apply is_accepting_spec in Hs; congruence).
  assert (Hno : forall q, guard_of q = 0 -> total unit_of ts = 0 -> guards (<[i := q]> ts) = 0).
  { intros q Hq H0. pose proof (guards_le_units ts). pose proof (guards_nonneg (<[i:=q]> ts)) as Hn.
    unfold guards in *. rewrite (total_insert _ _ _ p) in Hn by done. rewrite (total_insert _ _ _ p) by done.
    assert (0 <= guard_of p) by (by destruct p). lia. }
  unfold drain_inv. rewrite (total_insert _ _ _ p) by done.
  destruct p; cbn in Hst; cases_of_step;
    (split; [cbn; try lia|]);
    (split; [first [exact Hd | by intros _; apply Hp | intros _; rewrite state_set; done]|]);
    (eapply phases_ok_insert; [exact Hi| |exact Hts|]); cbn; rewrite ?state_set;
    try (intros Hs; split; [try exact Hs|cbn; try lia]);
    auto using is_accepting_spec.
  - by apply is_accepting_spec in Heqb.
  - apply andb_prop in Heqb as [_ Hdr]. unfold is_draining in Hdr. apply bool_decide_eq_true in Hdr. congruence.
  - split; [done|]. apply Hno; [done|]. apply Z.eqb_eq in Heqb. lia.
Qed.

Lemma drain_inv_runs allowed now s : Runs allowed (drain_new now) s -> drain_inv (shared s) (tasks s).
Proof.
  apply runs_invariant.
  - repeat split; [by intros []|constructor].
  - intros *. apply drain_inv_moves.
  - intros c ts i p c' p' _ (Ha & Hd & Hts) Hi Hp. unfold drain_inv.
    rewrite (total_insert _ _ _ p) by done.
    destruct p; try done; injection Hp as <- <-; (split; [cbn; lia|]); (split; [done|]);
      by eapply phases_ok_insert.
  - intros c ts p (Ha & Hd & Hts) Hp. unfold drain_inv. rewrite total_snoc.
    assert (unit_of p = 0 /\ guard_of p = 0 /\ phase_ok c (ts ++ [p]) p) as (Hu & Hg & Hok)
      by (destruct p; done).
    split; [lia|]. split; [done|]. apply Forall_app. split; [|by constructor].
    eapply Forall_impl; [exact Hts|]. intros q. apply phase_ok_mono. intros Hs. split; [done|].
    unfold guards. rewrite total_snoc. lia.
  - intros c ts d _ (Ha & Hd & Hts). split; [done|]. split; [done|]. done.
Qed.

(** What happens next creates no guard once the drain has begun. *)
Lemma no_guard_after_begin ev s t :
  sys_step ev s t -> state (shared s) <> Accepting ->
  state (shared t) <> Accepting /\ guards (tasks t) <= guards (tasks s).
Proof.
  intros Hst Hs. unfold guards.
  destruct Hst as [c ts i p c' p' Hi Hp|c ts i p c' p' Hi Hp|c ts p Hp|c ts d]; cbn in *.
  - rewrite (total_insert _ _ _ p) by done.
    assert (is_accepting c = false) as Hf
      by (destruct (is_accepting c) eqn:E; [by apply is_accepting_spec in E|done]).
    destruct p; cbn in Hp; outcomes; rewrite ?Hf in *; rewrite ?state_set; split; try done; cbn; try lia;
      repeat case_match; cbn; lia.
  - rewrite (total_insert _ _ _ p) by done. destruct p; try done; injection Hp as <- <-; (split; [done|cbn; lia]).
  - rewrite total_snoc. split; [done|]. destruct p; cbn; try done; lia.
  - split; [done|lia].
Qed.

(** C9. In every interleaving of the atomic operations, taken as sequentially
    consistent, [active_clients] counts exactly the clients
    with a guard and those inside [try_enter_client]; once the drain has
    begun no step admits a client or ends the drain; and when
    [wait_for_completion] has returned [Completed], no client holds a guard. *)
Theorem drain_sound now s :
  Runs (fun _ => True) (drain_new now) s ->
  guards (tasks s) <= active_clients (shared s)
  /\ active_clients (shared s) = total unit_of (tasks s)
  /\ (WaitDone Completed ∈ tasks s -> state (shared s) <> Accepting /\ guards (tasks s) = 0)
  /\ (forall ev t, sys_step ev s t -> state (shared s) <> Accepting ->
        state (shared t) <> Accepting /\ guards (tasks t) <= guards (tasks s)).
Proof.
  intros Hr. pose proof (drain_inv_runs _ _ _ Hr) as (Ha & Hd & Hts).
  pose proof (guards_le_units (tasks s)). split; [lia|]. split; [done|]. split.
  - intros Hin. by apply (proj1 (Forall_forall _ _) Hts _ Hin).
  - intros ev t. apply no_guard_after_begin.
Qed.

(** One client, a drain of 60 units and its completion. *)
Definition orderly : list (choice Phase Z) :=
  [Start Enter; Go 0 0; Go 0 0; Go 0 0;
   Start (Begin 60); Go 1 0; Go 1 0; Go 1 0; Go 1 0; Go 1 0;
   Start WaitDeadline; Go 2 0; Go 2 0; Go 2 0;
   Go 0 0; Go 0 0; Go 0 0; Go 2 0; Go 2 0].

Lemma drain_sound_witness :
  exists s, Runs (fun _ => True) (drain_new 0) s /\ WaitDone Completed ∈ tasks s
            /\ guards (tasks s) = 0.
Proof.
  destruct (perform_all (Sys (drain_new 0) []) orderly) as [s|] eqn:E; [|by vm_compute in E].
  assert (Runs (fun _ => True) (drain_new 0) s) as Hr
    by (eapply schedule; [|exact E]; by apply Forall_forall).
  assert (WaitDone Completed ∈ tasks s) as Hin.
  { vm_compute in E. injection E as <-. cbn. set_solver. }
  exists s. split; [done|]. split; [done|]. by apply (drain_sound 0 s Hr).
Defined.

(** The last client leaves between the test of [wait_for_completion] and the
    creation of its [notified()] future: nobody is left and the drain still
    sleeps, with nothing but its deadline to wake it. *)
Definition lost_completion : list (choice Phase Z) :=
  [Start Enter; Go 0 0; Go 0 0; Go 0 0;
   Start (Begin 60); Go 1 0; Go 1 0; Go 1 0; Go 1 0; Go 1 0;
   Start WaitDeadline; Go 2 0; Go 2 0;
   Go 0 0; Go 0 0; Go 0 0; Go 2 0].

Lemma completion_wakeup_lost :
  exists c, perform_all (Sys (drain_new 0) []) lost_completion
            = Some (Sys c [Left; Begun true; WaitAsleep 60 2])
            /\ active_clients c = 0 /\ drain_step c (WaitAsleep 60 2) = [].
Proof. eexists. split; [vm_compute; reflexivity|]. done. Qed.

(** A client that is refused late takes its unit back without a
    notification; the client that left meanwhile saw one remaining. *)
Definition late_refusal : list (choice Phase Z) :=
  [Start Enter; Go 0 0; Go 0 0; Go 0 0; Start Enter; Go 1 0;
   Start (Begin 60); Go 2 0; Go 2 0; Go 2 0; Go 2 0; Go 2 0;
   Start WaitDeadline; Go 3 0; Go 3 0; Go 3 0;
   Go 1 0; Go 0 0; Go 0 0; Go 1 0; Go 1 0].

Lemma late_refusal_wakes_nobody :
  exists c, perform_all (Sys (drain_new 0) []) late_refusal
            = Some (Sys c [Left; Refused; Begun true; WaitAsleep 60 1])
            /\ active_clients c = 0 /\ drain_step c (WaitAsleep 60 1) = [].
Proof. eexists. split; [vm_compute; reflexivity|]. done. Qed.

(** [wait_for_drain_start] returns at the state change; the deadline is
    stored later, and a [wait_for_completion] in between panics. *)
Lemma completion_before_deadline_panics :
  exists c, perform_all (Sys (drain_new 0) [])
              [Start (Begin 60); Go 0 0; Start StartTest; Go 1 0; Start WaitDeadline; Go 2 0]
            = Some (Sys c [BeginClock 60; Started; Panicked]).
Proof. eexists. vm_compute. reflexivity. Qed.
End DrainFacts.
End Drain.

Module Pause.
Record PauseController := { paused : bool; resumed_calls : Z }.

Definition pause_new : PauseController := {| paused := false; resumed_calls := 0 |}.
Definition set_paused (c : PauseController) (b : bool) : PauseController :=
  {| paused := b; resumed_calls := resumed_calls c |}.
Definition notify_resumed (c : PauseController) : PauseController :=
  {| paused := paused c; resumed_calls := resumed_calls c + 1 |}.

(** [PauseStore] is [pause], [Resume*] are [resume], [Wait*] are
    [wait_if_paused]. *)
Inductive Phase :=
| PauseStore
| ResumeStore
| ResumeNotify
| Returned
| WaitTest
| WaitListen
| WaitRecheck (seen : Z)
| WaitAsleep (seen : Z)
| Released
| Dropped.

Definition pause_step (c : PauseController) (p : Phase) : list (PauseController * Phase) :=
  match p with
  | PauseStore => [(set_paused c true, Returned)]
  | ResumeStore => [(set_paused c false, ResumeNotify)]
  | ResumeNotify => [(notify_resumed c, Returned)]
  | WaitTest => [(c, if paused c then WaitListen else Released)]
  | WaitListen => [(c, WaitRecheck (resumed_calls c))]
  | WaitRecheck seen => [(c, if paused c then WaitAsleep seen else Released)]
  | WaitAsleep seen => if seen <? resumed_calls c then [(c, WaitTest)] else []
  | Returned | Released | Dropped => []
  end.

#[global] Instance pause_tasks : TaskSystem PauseController Phase unit := {
  task_step := pause_step;
  task_drop c p := match p with WaitAsleep _ => Some (c, Dropped) | _ => None end;
  task_start p := match p with PauseStore | ResumeStore | WaitTest => true | _ => false end;
  env_step _ c := c;
}.

Section PauseFacts.
(** A sleeper that nobody has woken is paused, or a [resume] is about to
    wake it. *)
Definition sleeper_ok (c : PauseController) (ts : list Phase) (p : Phase) : Prop :=
  match p with
  | WaitAsleep seen =>
      seen <= resumed_calls c
      /\ (seen = resumed_calls c -> paused c = true \/ ResumeNotify ∈ ts)
  | WaitRecheck seen =>
      seen <= resumed_calls c
  | _ => True
  end.

Definition pause_inv (c : PauseController) (ts : list Phase) : Prop := Forall (sleeper_ok c ts) ts.

Lemma elem_of_insert_other {A} (x y z : A) (i : nat) (l : list A) :
  l !! i = Some y -> x ∈ l -> x <> y -> x ∈ <[i := z]> l.
Proof.
  intros Hi Hx Hne. apply list_elem_of_lookup in Hx as [j Hj].
  assert (i <> j) by (intros ->; congruence).
  apply list_elem_of_lookup. exists j. by rewrite list_lookup_insert_ne.
Qed.

Lemma pause_inv_moves c ts i p c' p' :
  pause_inv c ts -> ts !! i = Some p -> (c', p') ∈ pause_step c p -> pause_inv c' (<[i := p']> ts).
Proof.
  intros Hts Hi Hst. pose proof (proj1 (Forall_lookup _ _) Hts _ _ Hi) as Hp.
  assert (ResumeNotify ∈ ts -> p <> ResumeNotify -> ResumeNotify ∈ <[i := p']> ts) as Hkeep
    by (intros ? ?; by eapply elem_of_insert_other).
  assert (p' ∈ <[i := p']> ts) as Hnew
    by (eapply list_elem_of_lookup_2, list_lookup_insert_eq, lookup_lt_Some; eassumption).
  assert (Hcalls : resumed_calls c <= resumed_calls c')
    by (destruct p; cbn in Hst; outcomes; cbn; lia).
  apply Forall_insert.
  - eapply Forall_impl; [exact Hts|]. intros [] Hq; cbn in *; try done; try lia.
    destruct Hq as [Hle Hq]. split; [lia|]. intros Heq.
    destruct p; cbn in Hst; outcomes; cbn in *; try (destruct Hq; [done|by left|right; by apply Hkeep]);
      auto; lia.
  - destruct p; cbn in Hst; outcomes; cbn in *; try done; repeat case_match; cbn; try done; try lia.
    split; [lia|]. by left.
Qed.

Lemma pause_inv_runs s : Runs (fun _ => True) pause_new s -> pause_inv (shared s) (tasks s).
Proof.
  apply runs_invariant.
  - constructor.
  - intros *. apply pause_inv_moves.
  - intros c ts i p c' p' _ Hts Hi Hp. destruct p; try done. injection Hp as <- <-.
    apply Forall_insert; [|done]. eapply Forall_impl; [exact Hts|]. intros [] Hq; try done. cbn in *.
    destruct Hq as [Hle Hq]. split; [done|]. intros Heq. destruct (Hq Heq); [by left|right].
    by eapply elem_of_insert_other.
  - intros c ts p Hts Hp. apply Forall_app. split.
    + eapply Forall_impl; [exact Hts|]. intros [] Hq; try done. cbn in *.
      destruct Hq as [Hle Hq]. split; [done|]. intros Heq. destruct (Hq Heq); [by left|right; set_solver].
    + constructor; [|done]. by destruct p.
  - done.
Qed.

Definition waits (p : Phase) : bool :=
  match p with WaitTest | WaitListen | WaitRecheck _ | WaitAsleep _ => true | _ => false end.

(** C30. No wake-up is lost: when the proxy is not paused and no [resume] is
    between its two steps, every task in [wait_if_paused] is released by at
    most two of its own steps, whatever happened before. *)
Theorem resume_releases_waiters s i p :
  Runs (fun _ => True) pause_new s ->
  paused (shared s) = false -> ResumeNotify ∉ tasks s ->
  tasks s !! i = Some p -> waits p = true ->
  exists k t, (k <= 2)%nat /\ perform_all s (replicate k (Go i 0)) = Some t /\ tasks t !! i = Some Released.
Proof.
  intros Hr Hpaused Hno Hi Hw. pose proof (pause_inv_runs _ Hr) as Hinv.
  pose proof (proj1 (Forall_lookup _ _) Hinv _ _ Hi) as Hp.
  destruct s as [c ts]. cbn in *. pose proof (lookup_lt_Some _ _ _ Hi) as Hlt.
  destruct p as [| | | | | |seen|seen| |]; try done.
  - exists 1%nat. eexists. split; [lia|]. cbn. rewrite Hi. cbn. rewrite Hpaused. split; [done|].
    cbn. by rewrite list_lookup_insert_eq.
  - exists 2%nat. eexists. split; [lia|]. cbn. rewrite Hi. cbn.
    rewrite list_lookup_insert_eq by done. cbn. rewrite Hpaused. split; [done|].
    cbn. by rewrite list_lookup_insert_eq by (by rewrite length_insert).
  - exists 1%nat. eexists. split; [lia|]. cbn. rewrite Hi. cbn. rewrite Hpaused. split; [done|].
    cbn. by rewrite list_lookup_insert_eq.
  - destruct Hp as [Hle Hq]. assert (seen < resumed_calls c) as Hlt'.
    { destruct (decide (seen = resumed_calls c)) as [He|]; [|lia]. destruct (Hq He); congruence. }
    exists 2%nat. eexists. split; [lia|]. cbn. rewrite Hi. cbn.
    rewrite (proj2 (Z.ltb_lt _ _) Hlt'). cbn. rewrite list_lookup_insert_eq by done. cbn.
    rewrite Hpaused. split; [done|]. cbn. by rewrite list_lookup_insert_eq by (by rewrite length_insert).
Qed.

(** A task waits, the proxy is resumed while it is about to sleep. *)
Definition resumed_in_time : list (choice Phase unit) :=
  [Start PauseStore; Go 0 0; Start WaitTest; Go 1 0; Go 1 0; Go 1 0; Start ResumeStore; Go 2 0; Go 2 0].

Lemma resume_releases_waiters_witness :
  exists s, Runs (fun _ => True) pause_new s /\ tasks s !! 1%nat = Some (WaitAsleep 0)
    /\ exists k t, (k <= 2)%nat /\ perform_all s (replicate k (Go 1%nat 0)) = Some t
                  /\ tasks t !! 1%nat = Some Released.
Proof.
  set (s := Sys {| paused := false; resumed_calls := 1 |} [Returned; WaitAsleep 0; Returned]).
  assert (Runs (fun _ => True) pause_new s) as Hr.
  { eapply (schedule _ _ resumed_in_time); [by apply Forall_forall|]. vm_compute. reflexivity. }
  exists s. split; [exact Hr|]. split; [done|].
  apply (resume_releases_waiters s 1%nat (WaitAsleep 0) Hr); try done. cbn. set_solver.
Defined.
End PauseFacts.
End Pause.
