(* ===== verification/Timestamp.v ===== *)
(** * Timestamps: reading the replay time of a replica

    Models the parsers of [pg-kinetic-proxy/src/observe/health.rs] for what
    [pg_last_xact_replay_timestamp()] returns: milliseconds since the epoch
    or PostgreSQL's text form. A [SystemTime] is a number of nanoseconds
    since the epoch. Unchecked [i64] arithmetic wraps. *)

From S2P Require Import Prelude Text Protocol Auth ShardExtract.

(** [str::parse::<i32>]. *)
Definition parse_i32 (s : str) : option Z :=
  v ← parse_i64 s; if (- 2 ^ 31 <=? v) && (v <? 2 ^ 31) then Some v else None.

(** [rposition] over the bytes; the characters looked for are ASCII. *)
Definition rposition (p : Z -> bool) (s : str) : option nat :=
  n ← position p (reverse s); Some (length s - S n)%nat.

Definition days_from_civil (year month day : Z) : result error Z :=
  _ ← ensure ((1 <=? month) && (month <=? 12)) "timestamp month out of range";
  _ ← ensure ((1 <=? day) && (day <=? 31)) "timestamp day out of range";
  let year := year - (if month <=? 2 then 1 else 0) in
  let era := year / 400 in
  let year_of_era := year - era * 400 in
  let adjusted_month := month + (if 2 <? month then -3 else 9) in
  let day_of_year := (153 * adjusted_month + 2) / 5 + day - 1 in
  let day_of_era := year_of_era * 365 + year_of_era / 4 - year_of_era / 100 + day_of_year in
  Ok (era * 146097 + day_of_era - 719468).

(** The loop over the digits of a fraction, which stops after nine. *)
Fixpoint fraction_loop (digits : nat) (nanosecond : Z) (bs : bytes) : result error (nat * Z) :=
  match bs with
  | [] => Ok (digits, nanosecond)
  | byte :: bs =>
      if (digits =? 9)%nat then Ok (digits, nanosecond)
      else if is_ascii_digit byte then fraction_loop (S digits) (nanosecond * 10 + (byte - 48)) bs
      else fail "timestamp fraction is invalid"
  end.

Definition parse_second_part (value : str) : result error (Z * Z) :=
  match split_once 46 value with
  | Some (seconds, fraction) =>
      second ← foreign_or (parse_i64 seconds) "timestamp second is invalid";
      '(digits, nanosecond) ← fraction_loop 0 0 (encode_utf8 fraction);
      Ok (second, nanosecond * 10 ^ (9 - Z.of_nat digits))
  | None =>
      second ← foreign_or (parse_i64 value) "timestamp second is invalid";
      Ok (second, 0)
  end.

Definition parse_offset_seconds (offset : str) : result error Z :=
  match offset with
  | [] => fail "offset is empty"
  | c :: offset =>
      sign ← (if c =? 43 then Ok 1 else if c =? 45 then Ok (-1) else fail "offset has invalid sign");
      let cleaned := replace_char 58 [] offset in
      _ ← ensure (negb (str_len cleaned =? 0)) "offset is missing digits";
      '(hours, minutes) ←
        (if str_len cleaned =? 2 then
           hours ← foreign_or (parse_i64 cleaned) "offset hours are invalid"; Ok (hours, 0)
         else if str_len cleaned =? 4 then
           match split_at_byte 2 cleaned with
           | None => Panic
           | Some (h, m) =>
               hours ← foreign_or (parse_i64 h) "offset hours are invalid";
               minutes ← foreign_or (parse_i64 m) "offset minutes are invalid";
               Ok (hours, minutes)
           end
         else fail "offset must be HH, HHMM, or HH:MM");
      Ok (sign * (hours * 3600 + minutes * 60))
  end.

(** [str::strip_suffix] of a character. *)
Definition strip_suffix (c : Z) (s : str) : option str :=
  match reverse s with
  | x :: r => if x =? c then Some (reverse r) else None
  | [] => None
  end.

Definition parse_timestamp_offset (value : str) : result error (str * Z) :=
  match strip_suffix 90 value with
  | Some stripped => Ok (stripped, 0)
  | None =>
      sign_index ← some_or (rposition (fun c => (c =? 43) || (c =? 45)) value)
                     "timestamp is missing a timezone offset";
      offset_seconds ← parse_offset_seconds (drop sign_index value);
      Ok (take sign_index value, offset_seconds)
  end.

Definition checked_i64 (z : Z) : option Z :=
  if (- 2 ^ 63 <=? z) && (z <? 2 ^ 63) then Some z else None.

(** The two forms of [UNIX_EPOCH] plus or minus nanoseconds cast to [u64]. *)
Definition from_total_nanos (total_nanos : Z) : Z :=
  if 0 <=? total_nanos then wrap_u 64 total_nanos else - wrap_u 64 (- total_nanos).

Definition parse_postgres_timestamp (value : str) : result error Z :=
  '(date_part, time_part) ← some_or (split_once 32 value) "timestamp is missing a separator";
  let date_parts := split_char 45 date_part in
  year ← some_or (date_parts !! 0%nat) "timestamp is missing a year";
  year ← foreign_or (parse_i32 year) "timestamp year is invalid";
  month ← some_or (date_parts !! 1%nat) "timestamp is missing a month";
  month ← foreign_or (parse_u32 month) "timestamp month is invalid";
  day ← some_or (date_parts !! 2%nat) "timestamp is missing a day";
  day ← foreign_or (parse_u32 day) "timestamp day is invalid";
  _ ← ensure (bool_decide (date_parts !! 3%nat = None)) "timestamp has extra date parts";
  '(time_part, offset_seconds) ← parse_timestamp_offset time_part;
  let time_parts := split_char 58 time_part in
  hour ← some_or (time_parts !! 0%nat) "timestamp is missing an hour";
  hour ← foreign_or (parse_i64 hour) "timestamp hour is invalid";
  minute ← some_or (time_parts !! 1%nat) "timestamp is missing a minute";
  minute ← foreign_or (parse_i64 minute) "timestamp minute is invalid";
  second_part ← some_or (time_parts !! 2%nat) "timestamp is missing seconds";
  _ ← ensure (bool_decide (time_parts !! 3%nat = None)) "timestamp has extra time parts";
  '(second, nanosecond) ← parse_second_part second_part;
  days ← context "timestamp date is invalid" (days_from_civil year month day);
  seconds ← some_or (current ← checked_i64 (days * 86400);
                     checked_i64 (current + wrap_i 64 (hour * 3600 + minute * 60 + second)))
              "timestamp seconds overflow";
  let seconds := wrap_i 64 (seconds - offset_seconds) in
  Ok (from_total_nanos (seconds * 1000000000 + nanosecond)).

Definition parse_replay_timestamp (value : str) : result error Z :=
  let value := trim value in
  match parse_u64 value with
  | Some milliseconds => Ok (milliseconds * 1000000)
  | None => parse_postgres_timestamp value
  end.

(** ** The calendar *)

(** The Gregorian calendar, day by day. *)
Definition leap (y : Z) : bool := (y mod 4 =? 0) && (negb (y mod 100 =? 0) || (y mod 400 =? 0)).
Definition month_days (y m : Z) : Z :=
  if m =? 2 then (if leap y then 29 else 28)
  else if (m =? 4) || (m =? 6) || (m =? 9) || (m =? 11) then 30 else 31.

Record date := { year_of : Z; month_of : Z; day_of : Z }.
Definition valid_date (d : date) : Prop :=
  1 <= month_of d <= 12 /\ 1 <= day_of d <= month_days (year_of d) (month_of d).

Definition next_day (d : date) : date :=
  if day_of d <? month_days (year_of d) (month_of d)
  then {| year_of := year_of d; month_of := month_of d; day_of := day_of d + 1 |}
  else if month_of d <? 12 then {| year_of := year_of d; month_of := month_of d + 1; day_of := 1 |}
  else {| year_of := year_of d + 1; month_of := 1; day_of := 1 |}.

Definition epoch : date := {| year_of := 1970; month_of := 1; day_of := 1 |}.
Definition nth_day (n : nat) : date := Nat.iter n next_day epoch.

Section Calendar.
Lemma month_days_range y m : 28 <= month_days y m <= 31.
Proof. unfold month_days. repeat case_match; lia. Qed.

Lemma next_day_valid d : valid_date d -> valid_date (next_day d).
Proof.
  intros [Hm Hd]. unfold valid_date, next_day.
  destruct (Z.ltb_spec (day_of d) (month_days (year_of d) (month_of d))); cbn; [lia|].
  pose proof (month_days_range (year_of d) (month_of d + 1)).
  pose proof (month_days_range (year_of d + 1) 1).
  destruct (Z.ltb_spec (month_of d) 12); cbn; lia.
Qed.

Lemma nth_day_valid n : valid_date (nth_day n).
Proof. induction n; [by vm_compute|]. by apply next_day_valid. Qed.

(** The day count the code computes, without its range tests: years start
    in March. *)
Definition year_start (y : Z) : Z :=
  let era := y / 400 in
  let yoe := y - era * 400 in
  era * 146097 + (yoe * 365 + yoe / 4 - yoe / 100) - 719468.
Definition month_start (m : Z) : Z := (153 * (m + (if 2 <? m then -3 else 9)) + 2) / 5.
Definition early (m : Z) : Z := if m <=? 2 then 1 else 0.
Definition civil (y m d : Z) : Z := year_start (y - early m) + month_start m + d - 1.

Lemma days_from_civil_eq y m d :
  1 <= m <= 12 -> 1 <= d <= 31 -> days_from_civil y m d = Ok (civil y m d).
Proof.
  intros Hm Hd. unfold days_from_civil, ensure.
  rewrite (proj2 (Z.leb_le 1 m)), (proj2 (Z.leb_le m 12)), (proj2 (Z.leb_le 1 d)),
    (proj2 (Z.leb_le d 31)) by lia. cbn [andb mbind result_bind].
  f_equal. unfold civil, year_start, month_start, early. lia.
Qed.

Lemma year_start_next y : year_start y = year_start (y - 1) + (if leap y then 366 else 365).
Proof.
  unfold year_start, leap.
  destruct (Z.eqb_spec (y mod 4) 0), (Z.eqb_spec (y mod 100) 0), (Z.eqb_spec (y mod 400) 0); cbn;
    Z.div_mod_to_equations; lia.
Qed.

(** The first of a month follows the last day of the month before. *)
Lemma civil_next_month y m :
  1 <= m < 12 -> civil y (m + 1) 1 = civil y m (month_days y m) + 1.
Proof.
  intros Hm. unfold civil.
  assert (m = 2 \/ early (m + 1) = early m /\ month_start (m + 1) = month_start m + month_days y m)
    as [->|[-> ->]]; [|pose proof (year_start_next y)|lia].
  - assert (m = 1 \/ m = 2 \/ m = 3 \/ m = 4 \/ m = 5 \/ m = 6 \/ m = 7 \/ m = 8 \/ m = 9
            \/ m = 10 \/ m = 11) as Hc by lia.
    repeat destruct Hc as [->|Hc]; subst; first [left; reflexivity | right; split; reflexivity].
  - change (early (2 + 1)) with 0. change (early 2) with 1. change (month_start (2 + 1)) with 0.
    change (month_start 2) with 337. unfold month_days. cbn [Z.eqb Pos.eqb].
    replace (y - 0) with y by lia. destruct (leap y); lia.
Qed.

Lemma civil_next_year y : civil (y + 1) 1 1 = civil y 12 31 + 1.
Proof.
  unfold civil. change (early 1) with 1. change (early 12) with 0.
  change (month_start 1) with 306. change (month_start 12) with 275.
  replace (y + 1 - 1) with (y - 0) by lia. lia.
Qed.

Lemma civil_next d :
  valid_date d ->
  civil (year_of (next_day d)) (month_of (next_day d)) (day_of (next_day d))
  = civil (year_of d) (month_of d) (day_of d) + 1.
Proof.
  intros [Hm Hd]. unfold next_day.
  destruct (Z.ltb_spec (day_of d) (month_days (year_of d) (month_of d))); cbn; [unfold civil; lia|].
  replace (day_of d) with (month_days (year_of d) (month_of d)) by lia.
  destruct (Z.ltb_spec (month_of d) 12); cbn; [apply civil_next_month; lia|].
  replace (month_of d) with 12 by lia. rewrite civil_next_year.
  by change (month_days (year_of d) 12) with 31.
Qed.
End Calendar.

(** The day number of a date is its distance from 1970-01-01 in the
    Gregorian calendar: the [n]-th day after the epoch has number [n]. *)
Theorem days_from_civil_counts n :
  days_from_civil (year_of (nth_day n)) (month_of (nth_day n)) (day_of (nth_day n)) = Ok (Z.of_nat n).
Proof.
  pose proof (nth_day_valid n) as [Hm Hd]. pose proof (month_days_range (year_of (nth_day n)) (month_of (nth_day n))).
  rewrite days_from_civil_eq by lia. f_equal. clear. induction n as [|n IH]; [by vm_compute|].
  change (nth_day (S n)) with (next_day (nth_day n)). rewrite civil_next by apply nth_day_valid. lia.
Qed.

(** ** PostgreSQL's text form *)

(** [n] in exactly [w] digits. *)
Fixpoint pad (w : nat) (n : Z) : str :=
  match w with
  | O => []
  | S w => pad w (n / 10) ++ [48 + n mod 10]
  end.

Definition digit (c : Z) : Prop := 48 <= c <= 57.

(** The text of a time stamp: the date, the time with the digits of its
    fraction, and the hours of its zone. *)
Definition timestamp_text (d : date) (h mi s : Z) (fraction : str) (sign : Z) (zone : Z) : str :=
  (pad 4 (year_of d) ++ 45 :: pad 2 (month_of d) ++ 45 :: pad 2 (day_of d))
  ++ 32 :: (pad 2 h ++ 58 :: pad 2 mi ++ 58 :: pad 2 s ++ (match fraction with [] => [] | _ => 46 :: fraction end))
  ++ sign :: pad 2 zone.

Definition nanos_of (fraction : str) : Z := dec_value fraction * 10 ^ (9 - len fraction).

Section TextForm.
Lemma pad_spec w n :
  0 <= n < 10 ^ Z.of_nat w -> dec_value (pad w n) = n /\ Forall digit (pad w n) /\ length (pad w n) = w.
Proof.
  revert n. induction w as [|w IH]; intros n Hn.
  - change (10 ^ Z.of_nat 0) with 1 in Hn. split; [cbn; lia|done].
  - rewrite Nat2Z.inj_succ, Z.pow_succ_r in Hn by lia. cbn [pad].
    pose proof (Z.mod_pos_bound n 10 ltac:(lia)). pose proof (Z.div_mod n 10 ltac:(lia)).
    destruct (IH (n / 10)) as (Hv & Hd & Hl).
    { split; [apply Z.div_pos; lia|]. apply Z.div_lt_upper_bound; lia. }
    unfold dec_value in *. rewrite fold_left_app, Hv. cbn [fold_left]. split; [lia|].
    split; [|rewrite length_app, Hl; cbn; lia].
    apply Forall_app. split; [done|]. repeat constructor; unfold digit; lia.
Qed.

Lemma digits_forallb s : Forall digit s -> forallb is_ascii_digit s = true.
Proof.
  intros H. apply forallb_forall. intros c Hc. apply digit_spec. rewrite Forall_forall in H.
  by apply H, list_elem_of_In.
Qed.

Lemma digits_free c s : Forall digit s -> c < 48 \/ 57 < c -> free_of c s.
Proof. intros H Hc. eapply Forall_impl; [exact H|]. unfold digit. cbn. lia. Qed.

(** A number without a sign. *)
Lemma no_sign s : Forall digit s ->
  (match s with 45 :: r => (true, r) | 43 :: r => (false, r) | _ => (false, s) end) = (false, s)
  /\ (match s with 43 :: r => r | _ => s end) = s.
Proof.
  intros H. destruct H as [|c r Hc _]; [done|]. unfold digit in Hc.
  destruct c as [|p|p]; try lia. do 6 (destruct p as [p|p|]; try lia; try done).
Qed.

Lemma parse_i64_digits s :
  Forall digit s -> s <> [] -> dec_value s < 2 ^ 63 -> 0 <= dec_value s -> parse_i64 s = Some (dec_value s).
Proof.
  intros H Hne Hlt Hge. unfold parse_i64. rewrite (proj1 (no_sign s H)).
  destruct s as [|c r]; [done|]. rewrite digits_forallb by done.
  rewrite (proj2 (Z.leb_le _ _)), (proj2 (Z.ltb_lt _ _)) by lia. cbn [andb]. f_equal. lia.
Qed.

Lemma parse_u32_digits s :
  Forall digit s -> s <> [] -> dec_value s < 2 ^ 32 -> parse_u32 s = Some (dec_value s).
Proof.
  intros H Hne Hlt. unfold parse_u32, parse_unsigned. rewrite (proj2 (no_sign s H)).
  destruct s as [|c r]; [done|]. rewrite digits_forallb by done.
  by rewrite (proj2 (Z.ltb_lt _ _)) by lia.
Qed.

Lemma pad_i64 w n : (0 < w <= 18)%nat -> 0 <= n < 10 ^ Z.of_nat w -> parse_i64 (pad w n) = Some n.
Proof.
  intros Hw Hn. destruct (pad_spec w n Hn) as (Hv & Hd & Hl).
  assert (10 ^ Z.of_nat w <= 10 ^ 18) by (apply Z.pow_le_mono_r; lia).
  rewrite parse_i64_digits; rewrite ?Hv; try done; try lia.
  intros E. rewrite E in Hl. cbn in Hl. lia.
Qed.

Lemma pad_u32 w n : (0 < w <= 9)%nat -> 0 <= n < 10 ^ Z.of_nat w -> parse_u32 (pad w n) = Some n.
Proof.
  intros Hw Hn. destruct (pad_spec w n Hn) as (Hv & Hd & Hl).
  assert (10 ^ Z.of_nat w <= 10 ^ 9) by (apply Z.pow_le_mono_r; lia).
  rewrite parse_u32_digits; rewrite ?Hv; try done; try lia.
  intros E. rewrite E in Hl. cbn in Hl. lia.
Qed.

Lemma pad_i32 w n : (0 < w <= 9)%nat -> 0 <= n < 10 ^ Z.of_nat w -> parse_i32 (pad w n) = Some n.
Proof.
  intros Hw Hn. unfold parse_i32. rewrite pad_i64 by lia. cbn.
  assert (10 ^ Z.of_nat w <= 10 ^ 9) by (apply Z.pow_le_mono_r; lia).
  rewrite (proj2 (Z.leb_le _ _)), (proj2 (Z.ltb_lt _ _)) by lia. done.
Qed.

Lemma digits_ascii s : Forall digit s -> Forall (fun c => 0 <= c < 128) s.
Proof. intros H. eapply Forall_impl; [exact H|]. unfold digit. lia. Qed.

Lemma encode_ascii s : Forall (fun c => 0 <= c < 128) s -> encode_utf8 s = s.
Proof.
  induction 1 as [|c s Hc _ IH]; [done|]. unfold encode_utf8 in *. cbn. rewrite IH.
  unfold encode_char. by rewrite (proj2 (Z.ltb_lt c 128)) by lia.
Qed.

Lemma fraction_digits s n v :
  Forall digit s -> (n + length s <= 9)%nat ->
  fraction_loop n v s = Ok ((n + length s)%nat, fold_left (fun v c => v * 10 + (c - 48)) s v).
Proof.
  intros H. revert n v. induction H as [|c s Hc Hs IH]; intros n v Hn; cbn [fraction_loop].
  - cbn. by rewrite Nat.add_0_r.
  - cbn [length] in *. rewrite (proj2 (Nat.eqb_neq n 9)) by lia.
    rewrite (proj2 (digit_spec c)) by done. rewrite IH by lia. f_equal. f_equal. lia.
Qed.

Lemma second_part s fraction :
  0 <= s < 100 -> Forall digit fraction -> (length fraction <= 9)%nat ->
  parse_second_part (pad 2 s ++ (match fraction with [] => [] | _ => 46 :: fraction end))
  = Ok (s, nanos_of fraction).
Proof.
  intros Hs Hf Hl. destruct (pad_spec 2 s Hs) as (_ & Hd & _).
  assert (free_of 46 (pad 2 s)) as Hfree by (apply digits_free; [done|lia]).
  unfold parse_second_part. destruct fraction as [|c r].
  - rewrite app_nil_r, split_once_None by done. rewrite pad_i64 by (cbn; lia). done.
  - rewrite split_once_app by done. rewrite pad_i64 by (cbn; lia). cbn [foreign_or ok_or mbind result_bind].
    rewrite encode_ascii by (by apply digits_ascii). rewrite fraction_digits by (done || lia).
    cbn [mbind result_bind]. done.
Qed.

Lemma rposition_app p a c r :
  p c = true -> Forall (fun x => p x = false) r -> rposition p (a ++ c :: r) = Some (length a).
Proof.
  intros Hc Hr. unfold rposition. rewrite reverse_app, reverse_cons, <- app_assoc. cbn [app].
  rewrite position_app_found.
  - cbn. f_equal. rewrite length_app, length_reverse. cbn. lia.
  - by apply Forall_reverse.
  - done.
Qed.

Lemma offset_hours sign zone :
  sign = 43 \/ sign = 45 -> 0 <= zone < 100 ->
  parse_offset_seconds (sign :: pad 2 zone) = Ok ((if sign =? 43 then 1 else -1) * (zone * 3600)).
Proof.
  intros Hsign Hz. destruct (pad_spec 2 zone Hz) as (_ & Hd & Hl).
  assert (replace_char 58 [] (pad 2 zone) = pad 2 zone) as Hclean.
  { generalize (digits_free 58 _ Hd ltac:(lia)). generalize (pad 2 zone). clear.
    induction 1 as [|c s Hc _ IH]; [done|]. unfold replace_char in *. cbn.
    rewrite (proj2 (Z.eqb_neq c 58)) by done. cbn. f_equal. exact IH. }
  assert (str_len (pad 2 zone) = 2) as Hlen
    by (unfold str_len; rewrite encode_ascii by (by apply digits_ascii); unfold len; lia).
  unfold parse_offset_seconds. rewrite Hclean, Hlen. rewrite pad_i64 by (cbn; lia).
  destruct Hsign as [-> | ->]; cbn -[Z.mul]; f_equal; lia.
Qed.

Lemma timestamp_offset time sign zone :
  sign = 43 \/ sign = 45 -> 0 <= zone < 100 ->
  parse_timestamp_offset (time ++ sign :: pad 2 zone)
  = Ok (time, (if sign =? 43 then 1 else -1) * (zone * 3600)).
Proof.
  intros Hsign Hz. destruct (pad_spec 2 zone Hz) as (_ & Hd & Hl).
  unfold parse_timestamp_offset.
  assert (strip_suffix 90 (time ++ sign :: pad 2 zone) = None) as ->.
  { unfold strip_suffix. cbn [pad]. rewrite reverse_app, reverse_cons, reverse_app. cbn.
    pose proof (Z.mod_pos_bound zone 10 ltac:(lia)).
    rewrite (proj2 (Z.eqb_neq _ _)) by lia. done. }
  rewrite rposition_app.
  - cbn [some_or ok_or mbind result_bind]. rewrite take_app_length, drop_app_length.
    by rewrite offset_hours.
  - by destruct Hsign as [-> | ->].
  - eapply Forall_impl; [exact Hd|]. unfold digit. intros c Hc. apply orb_false_iff.
    split; apply Z.eqb_neq; lia.
Qed.

Lemma digit_no_ws c : digit c -> is_whitespace c = false.
Proof.
  unfold digit, is_whitespace, in_range. intros H.
  repeat (apply orb_false_iff; split); try apply andb_false_iff; lia.
Qed.

Lemma snoc_of_text (A B P : str) sep sign z :
  (A ++ sep :: B ++ sign :: P) ++ [z] = A ++ sep :: B ++ sign :: (P ++ [z]).
Proof. rewrite <- app_assoc. cbn [app]. by rewrite <- app_assoc. Qed.

Lemma text_trimmed d h mi s fraction sign zone :
  0 <= year_of d < 10000 -> trimmed (timestamp_text d h mi s fraction sign zone).
Proof.
  intros Hy. unfold timestamp_text. split; intros c.
  - cbn [pad app head]. intros [= <-]. apply digit_no_ws. unfold digit.
    pose proof (Z.mod_pos_bound (year_of d / 10 / 10 / 10) 10 ltac:(lia)). lia.
  - match goal with |- last (?A ++ 32 :: ?B ++ sign :: _) = _ -> _ =>
      assert (A ++ 32 :: B ++ sign :: pad 2 zone
              = (A ++ 32 :: B ++ sign :: pad 1 (zone / 10)) ++ [48 + zone mod 10]) as ->
    end.
    { by rewrite snoc_of_text. }
    rewrite last_snoc. intros [= <-]. apply digit_no_ws. unfold digit.
    pose proof (Z.mod_pos_bound zone 10 ltac:(lia)). lia.
Qed.

Lemma text_not_number d h mi s fraction sign zone :
  0 <= year_of d < 10000 -> parse_u64 (timestamp_text d h mi s fraction sign zone) = None.
Proof.
  intros Hy. destruct (pad_spec 4 (year_of d) Hy) as (_ & Hd & Hl).
  unfold timestamp_text. rewrite <- app_assoc. cbn [app].
  generalize ((pad 2 (month_of d) ++ 45 :: pad 2 (day_of d)) ++
     32 :: (pad 2 h ++ 58 :: pad 2 mi ++ 58 :: pad 2 s ++
        match fraction with [] => [] | _ :: _ => 46 :: fraction end) ++ sign :: pad 2 zone) as rest.
  intros rest. unfold parse_u64, parse_unsigned.
  assert (forallb is_ascii_digit (pad 4 (year_of d) ++ 45 :: rest) = false) as Hf
    by (rewrite forallb_app; cbn; by rewrite andb_false_r).
  replace (match pad 4 (year_of d) ++ 45 :: rest with 43 :: r => r | _ => pad 4 (year_of d) ++ 45 :: rest end)
    with (pad 4 (year_of d) ++ 45 :: rest).
  - destruct (pad 4 (year_of d) ++ 45 :: rest) as [|x l]; [done|]. by rewrite Hf.
  - revert Hd Hl. generalize (pad 4 (year_of d)). intros [|c r] Hd Hl; [done|]. cbn [app].
    symmetry. apply Forall_cons in Hd as [Hc _]. unfold digit in Hc.
    destruct c as [|p|p]; try lia. do 6 (destruct p as [p|p|]; try lia; try done).
Qed.

Lemma seconds_free s fraction :
  0 <= s < 60 -> Forall digit fraction ->
  free_of 58 (pad 2 s ++ match fraction with [] => [] | _ => 46 :: fraction end).
Proof.
  intros Hs Hf. destruct (pad_spec 2 s) as (_ & Ds & _); [cbn; lia|].
  apply Forall_app. split; [by apply digits_free; [|lia]|].
  destruct fraction as [|c r]; [done|]. constructor; [done|]. by apply digits_free; [|lia].
Qed.

Lemma dec_value_nonneg s : Forall digit s -> 0 <= dec_value s.
Proof.
  unfold dec_value. intros H. assert (0 <= 0) as Hv by lia. revert Hv. generalize 0 at 2 4.
  induction H as [|c s Hc _ IH]; intros v Hv; [done|]. cbn. apply IH. unfold digit in Hc. lia.
Qed.

Lemma nanos_nonneg fraction : Forall digit fraction -> 0 <= nanos_of fraction.
Proof.
  intros H. apply dec_value_nonneg in H. unfold nanos_of. apply Z.mul_nonneg_nonneg; [done|].
  apply Z.pow_nonneg. lia.
Qed.

(** The arithmetic at the end does not overflow. *)
Lemma timestamp_instant days time off nanos :
  0 <= days -> 0 <= time < 86400 -> - 86400 < off < 86400 -> 0 <= nanos ->
  0 <= (days * 86400 + time - off) * 1000000000 + nanos < 2 ^ 64 ->
  (seconds ← some_or (current ← checked_i64 (days * 86400);
                      checked_i64 (current + wrap_i 64 time)) "timestamp seconds overflow";
   Ok (from_total_nanos (wrap_i 64 (seconds - off) * 1000000000 + nanos)))
  = (Ok ((days * 86400 + time - off) * 1000000000 + nanos) : result error Z).
Proof.
  intros Hd Ht Ho Hn Hfit. unfold checked_i64.
  rewrite (wrap_i_id 64 time) by (unfold i_range; lia).
  rewrite (proj2 (Z.leb_le _ (days * 86400))), (proj2 (Z.ltb_lt (days * 86400) _)) by lia.
  cbn [andb mbind option_bind].
  rewrite (proj2 (Z.leb_le _ (days * 86400 + time))), (proj2 (Z.ltb_lt (days * 86400 + time) _)) by lia.
  cbn [andb some_or ok_or mbind result_bind]. rewrite wrap_i_id by (unfold i_range; lia).
  unfold from_total_nanos. rewrite (proj2 (Z.leb_le _ _)) by lia.
  unfold wrap_u. by rewrite Z.mod_small by lia.
Qed.
End TextForm.

(** PostgreSQL's text form reads back as the instant it names, for
    every day from the epoch on, every time of day, every fraction of at most
    nine digits and every zone of whole hours, as far as a [u64] counts
    nanoseconds. *)
Theorem replay_timestamp_roundtrip n h mi s fraction sign zone :
  year_of (nth_day n) < 10000 ->
  0 <= h < 24 -> 0 <= mi < 60 -> 0 <= s < 60 -> Forall digit fraction -> (length fraction <= 9)%nat ->
  sign = 43 \/ sign = 45 -> 0 <= zone < 24 ->
  let seconds := Z.of_nat n * 86400 + h * 3600 + mi * 60 + s - (if sign =? 43 then 1 else -1) * (zone * 3600) in
  0 <= seconds * 1000000000 + nanos_of fraction < 2 ^ 64 ->
  parse_replay_timestamp (timestamp_text (nth_day n) h mi s fraction sign zone)
  = Ok (seconds * 1000000000 + nanos_of fraction).
Proof.
  intros Hy Hh Hmi Hs Hf Hl Hsign Hz seconds Hfit.
  pose proof (nth_day_valid n) as [Hmo Hd].
  pose proof (month_days_range (year_of (nth_day n)) (month_of (nth_day n))).
  pose proof (days_from_civil_counts n) as Hdays.
  assert (0 <= year_of (nth_day n)) as Hy0.
  { clear. induction n as [|n IH]; [done|]. change (nth_day (S n)) with (next_day (nth_day n)).
    unfold next_day. repeat case_match; cbn; lia. }
  unfold parse_replay_timestamp. rewrite trim_trimmed by (by apply text_trimmed).
  rewrite text_not_number by done. unfold parse_postgres_timestamp, timestamp_text.
  destruct (nth_day n) as [y mo d] eqn:En. cbn [year_of month_of day_of] in *.
  destruct (pad_spec 4 y) as (_ & Dy & _); [cbn; lia|]. destruct (pad_spec 2 mo) as (_ & Dmo & _); [cbn; lia|].
  destruct (pad_spec 2 d) as (_ & Dd & _); [cbn; lia|]. destruct (pad_spec 2 h) as (_ & Dh & _); [cbn; lia|].
  destruct (pad_spec 2 mi) as (_ & Dmi & _); [cbn; lia|]. destruct (pad_spec 2 s) as (_ & Ds & _); [cbn; lia|].
  assert (forall c w, Forall digit w -> c = 45 \/ c = 58 \/ c = 32 -> free_of c w) as Hfree
    by (intros; apply digits_free; [done|lia]).
  rewrite split_once_app.
  2:{ apply Forall_app; split; [by apply Hfree; auto|]. constructor; [done|].
      apply Forall_app; split; [by apply Hfree; auto|]. constructor; [done|]. by apply Hfree; auto. }
  cbn [some_or ok_or mbind result_bind].
  rewrite !split_char_app by (apply Hfree; auto). rewrite split_char_free by (apply Hfree; auto).
  cbn [lookup list_lookup some_or ok_or mbind result_bind].
  rewrite pad_i32, !pad_u32 by (cbn; lia). cbn [foreign_or ok_or mbind result_bind ensure bool_decide].
  rewrite timestamp_offset by (done || lia). cbn [mbind result_bind].
  change (ensure (bool_decide (None = None)) "timestamp has extra date parts") with (@Ok error unit tt).
  cbn [mbind result_bind]. rewrite !split_char_app by (apply Hfree; auto).
  rewrite split_char_free by (by apply seconds_free).
  cbn [lookup list_lookup some_or ok_or mbind result_bind]. rewrite !pad_i64 by (cbn; lia).
  cbn [foreign_or ok_or mbind result_bind].
  change (ensure (bool_decide (None = None)) "timestamp has extra time parts") with (@Ok error unit tt).
  cbn [mbind result_bind]. rewrite second_part by (done || lia). cbn [mbind result_bind].
  rewrite Hdays. cbn [context map_err mbind result_bind].
  pose proof (nanos_nonneg fraction Hf). 
  replace seconds with (Z.of_nat n * 86400 + (h * 3600 + mi * 60 + s)
                        - (if sign =? 43 then 1 else -1) * (zone * 3600)) in * by (unfold seconds; lia).
  apply timestamp_instant; try lia. destruct (sign =? 43); lia.
Qed.

(** 1970-03-01 12:34:56.5 in the zone +02. *)
Lemma replay_timestamp_roundtrip_witness :
  parse_replay_timestamp (lit "1970-03-01 12:34:56.5+02") = Ok (5135696 * 1000000000 + 500000000).
Proof.
  assert (nth_day 59 = {| year_of := 1970; month_of := 3; day_of := 1 |}) as E
    by (vm_compute; reflexivity).
  pose proof (replay_timestamp_roundtrip 59 12 34 56 [53] 43 2) as H. rewrite E in H.
  apply H; [cbn; lia|lia|lia|lia| |cbn; lia|by left|lia|vm_compute; split; congruence].
  repeat constructor; unfold digit; lia.
Defined.

(** Boundary inputs: an invalid day of a month is accepted, and an offset of
    four bytes whose second byte ends no character panics. *)
Lemma timestamp_accepts_february_31 :
  parse_replay_timestamp (lit "1970-02-31 00:00:00+00") = parse_replay_timestamp (lit "1970-03-03 00:00:00+00").
Proof. vm_compute. reflexivity. Qed.

Lemma timestamp_offset_panics : parse_replay_timestamp (lit "1970-01-01 00:00:00+" ++ [48; 233; 48]) = Panic.
Proof. vm_compute. reflexivity. Qed.
