(* ===== verification/Health.v ===== *)
(** * Health: probing endpoints

    Models the endpoint probes of [pg-kinetic-proxy/src/observe/health.rs]
    over the types of [pg-kinetic-core/src/cluster/ha.rs]: the queries a
    probe sends, how it reads their answers, what it concludes about role and
    lag, and the snapshot it publishes. The connection is an
    [Auth.ClientStream] (the chunks its reads return); the clock is an
    argument; [run_probe] cut off by its timeout is the outcome [None]. *)

From S2P Require Import Prelude Text Protocol Frame Startup BackendWire Secrets RoutingTypes Lsn Auth AuthQuery Timestamp Checkout.

Inductive EndpointHealth := Healthy | Degraded | Unhealthy | Unavailable.
Inductive EndpointRoleState := RolePrimary | RoleReplica | RoleWarning | RoleUnknown.
Inductive ReplicaLagState := LagUnknown | LagFresh | LagLagging.

#[global] Instance EndpointHealth_eq_dec : EqDecision EndpointHealth.
Proof. solve_decision. Defined.
Record SplitBrainWarning := { expected_role : BackendRole; observed_role : BackendRole }.
Record HealthProbeOutcome := {
  health_state : EndpointHealth;
  recovered : bool;
  consecutive_failures : Z;
}.
Record RoleProbeOutcome := { role_state : EndpointRoleState; warning : option SplitBrainWarning }.

Definition endpoint_is_healthy (h : EndpointHealth) : bool := bool_decide (h = Healthy).
Definition endpoint_is_available (h : EndpointHealth) : bool := negb (bool_decide (h = Unavailable)).

Definition UNAVAILABLE_FAILURE_THRESHOLD : Z := 3.
Definition DEFAULT_MAX_REPLICA_LAG_MS : Z := 1000.

Record EndpointHealthSnapshot := {
  snap_id : Z;
  snap_role : BackendRole;
  health : HealthProbeOutcome;
  role : RoleProbeOutcome;
  snap_replay_lsn : option PgLsn;
  replay_timestamp : option Z;
  lag_duration : option Z;
  lag_state : ReplicaLagState;
  last_successful_probe_at : option Z;
  last_error : option error;
}.

(** [EndpointHealthSnapshot::new]. *)
Definition snapshot_new (endpoint_id : Z) (expected : BackendRole) : EndpointHealthSnapshot := {|
  snap_id := endpoint_id; snap_role := expected;
  health := {| health_state := Unhealthy; recovered := false; consecutive_failures := 0 |};
  role := {| role_state := RoleUnknown; warning := None |};
  snap_replay_lsn := None; replay_timestamp := None; lag_duration := None; lag_state := LagUnknown;
  last_successful_probe_at := None; last_error := None |}.

Record ProbeObservation := {
  obs_role : BackendRole;
  obs_lsn : option PgLsn;
  obs_timestamp : option Z;
  obs_lag : option Z;
  obs_lag_state : ReplicaLagState;
  obs_at : Z;
}.

Definition observation_primary (observed : BackendRole) (now : Z) : ProbeObservation := {|
  obs_role := observed; obs_lsn := None; obs_timestamp := None; obs_lag := None;
  obs_lag_state := LagUnknown; obs_at := now |}.

Definition role_outcome (expected observed : BackendRole) : RoleProbeOutcome :=
  if bool_decide (expected = observed) then
    {| role_state := match observed with
                     | Primary => RolePrimary
                     | Replica => RoleReplica
                     | UnknownRole => RoleUnknown
                     end;
       warning := None |}
  else {| role_state := RoleWarning;
          warning := Some {| expected_role := expected; observed_role := observed |} |}.

Definition parse_replay_lsn (value : str) : result error PgLsn :=
  map_err (fun _ => EContext (lit "parse replay lsn") EForeign) (lsn_from_str (trim value)).

(** ** Reading an answer *)

(** [parse_probe_row]: its loop over the columns; the code reads by moving
    the front of the payload. *)
Fixpoint probe_columns (columns : nat) (payload : bytes) (values : list (option str))
    : result error (option (list (option str))) :=
  match columns with
  | O => Ok (Some values)
  | S columns =>
      match payload with
      | a :: b :: c :: d :: payload =>
          let length := i32_from_be_bytes a b c d in
          if length <? 0 then probe_columns columns payload (values ++ [None])
          else if len payload <? length then Ok None
          else
            value ← foreign_or (from_utf8 (take (Z.to_nat length) payload)) "probe row is not utf8";
            probe_columns columns (drop (Z.to_nat length) payload) (values ++ [Some value])
      | _ => Ok None
      end
  end.

Definition parse_probe_row (payload : bytes) : result error (option (list (option str))) :=
  match payload with
  | a :: b :: payload =>
      let columns := i16_from_be_bytes a b in
      if columns <=? 0 then Ok None else probe_columns (Z.to_nat columns) payload []
  | _ => Ok None
  end.

Abbreviation row := (option (list (option str))).

(** What one frame does to the row read so far: [inl] ends the answer. *)
Definition probe_frame (value : row) (f : BackendFrame) : result error (row + row) :=
  if (btag f =? backend_byte DataRow) && bool_decide (value = None)
  then inr <$> parse_probe_row (bpayload f)
  else if btag f =? backend_byte ErrorResponse then fail "endpoint returned error during probe"
  else if btag f =? backend_byte ReadyForQuery then Ok (inl value)
  else Ok (inr value).

Fixpoint probe_frames (fuel : nat) (buffer : bytes) (value : row) : result error (row + row * bytes) :=
  match fuel with
  | O => Panic
  | S fuel =>
      match parse_backend_frame buffer with
      | Err e => Err (EWire e)
      | Panic => Panic
      | Ok (None, buffer) => Ok (inr (value, buffer))
      | Ok (Some f, buffer) =>
          next ← probe_frame value f;
          match next with
          | inl value => Ok (inl value)
          | inr value => probe_frames fuel buffer value
          end
      end
  end.

(** The read loop. The buffer is the query's own: what is left of it when
    the answer ends is dropped. *)
Fixpoint probe_loop (sql : str) (rs : list (option bytes)) (buffer : bytes) (value : row)
    : result error row * list (option bytes) :=
  match rs with
  | [] => (fail "endpoint disconnected during probe", [])
  | None :: rs => (Err (EContext (lit "read probe response for " ++ sql) EIo), rs)
  | Some chunk :: rs =>
      if len chunk =? 0 then (fail "endpoint disconnected during probe", rs)
      else
        let buffer := buffer ++ chunk in
        match probe_frames (S (length buffer)) buffer value with
        | Err e => (Err e, rs)
        | Panic => (Panic, rs)
        | Ok (inl value) => (Ok value, rs)
        | Ok (inr (value, buffer)) => probe_loop sql rs buffer value
        end
  end.

(** [simple_query_packet] has the layout of [encode_query_message]. *)
Definition simple_query_packet (sql : str) : bytes :=
  frontend_byte Query :: put_i32 (wrap_i 32 (str_len sql + 5)) ++ encode_utf8 sql ++ [0].

Definition execute_probe_query (sql : str) : Session row := fun c =>
  match write_all (simple_query_packet sql) c with
  | (Ok _, c) => let '(r, rs) := probe_loop sql (reads c) [] None in (r, with_reads c rs)
  | (Err e, c) => (Err (EContext (lit "write probe query " ++ sql) e), c)
  | (Panic, c) => (Panic, c)
  end.

(** ** The probe *)

Definition SELECT_ONE : str := lit "SELECT 1".
Definition SELECT_ROLE : str := lit "SELECT pg_is_in_recovery()".
Definition SELECT_LAG : str := lit "SELECT pg_last_wal_replay_lsn(), pg_last_xact_replay_timestamp()".

(** The value of a column of a row, when there is one and it is not null. *)
Definition column (n : nat) (r : row) : option str :=
  values ← r; value ← values !! n; value.

Definition observed_of (r : row) : result error BackendRole :=
  match column 0 r with
  | Some v =>
      if str_eqb v (lit "t") || str_eqb v (lit "true") || str_eqb v (lit "1") then Ok Replica
      else if str_eqb v (lit "f") || str_eqb v (lit "false") || str_eqb v (lit "0") then Ok Primary
      else fail "unexpected pg_is_in_recovery() result"
  | None => fail "pg_is_in_recovery() returned no rows"
  end.

(** [Option::map] of a fallible function and [transpose]. *)
Definition traverse {A B} (f : A -> result error B) (o : option A) : result error (option B) :=
  match o with
  | Some a => Some <$> f a
  | None => Ok None
  end.

(** What the probe concludes from the answer to [SELECT_LAG]. *)
Definition observe_lag (max_replica_lag_ms probe_time : Z) (lag_row : row) : result error ProbeObservation :=
  replay_lsn ← traverse parse_replay_lsn (column 0 lag_row);
  timestamp ← traverse parse_replay_timestamp (column 1 lag_row);
  let lag := t ← timestamp; if t <=? probe_time then Some (probe_time - t) else None in
  Ok {| obs_role := Replica; obs_lsn := replay_lsn; obs_timestamp := timestamp; obs_lag := lag;
        obs_lag_state := match lag with
                         | Some d => if max_replica_lag_ms <? d / 1000000 then LagLagging else LagFresh
                         | None => LagUnknown
                         end;
        obs_at := probe_time |}.

Section Probe.
Context (probe_user probe_database : str) (max_replica_lag_ms now : Z).

(** [run_probe] on the connection it was given. *)
Definition run_probe : Session ProbeObservation :=
  _ ← with_context "write probe startup packet" (write_all (startup_packet probe_user probe_database));
  _ ← execute_probe_query SELECT_ONE;
  r ← execute_probe_query SELECT_ROLE;
  observed ← lift (observed_of r);
  match observed with
  | Replica =>
      lag_row ← execute_probe_query SELECT_LAG;
      lift (observe_lag max_replica_lag_ms now lag_row)
  | _ => mret (observation_primary observed now)
  end.

(** With the connect: [None] is a connection that could not be made. *)
Definition probe_outcome (connected : option ClientStream) : result error ProbeObservation :=
  match connected with
  | Some c => fst (run_probe c)
  | None => Err (EContext (lit "connect endpoint") EIo)
  end.
End Probe.

(** A failed probe; [mild] is the state below the threshold. *)
Definition after_failure (previous : EndpointHealthSnapshot) (mild : EndpointHealth) (e : error)
    : EndpointHealthSnapshot :=
  let failure_count := Z.min (2 ^ 32 - 1) (consecutive_failures (health previous) + 1) in
  {| snap_id := snap_id previous; snap_role := snap_role previous;
     health := {| health_state := if UNAVAILABLE_FAILURE_THRESHOLD <=? failure_count then Unavailable else mild;
                  recovered := false; consecutive_failures := failure_count |};
     role := {| role_state := RoleUnknown; warning := None |};
     snap_replay_lsn := None; replay_timestamp := None; lag_duration := None; lag_state := LagUnknown;
     last_successful_probe_at := last_successful_probe_at previous;
     last_error := Some e |}.

(** [probe_once]: the outcome of the probe within its timeout ([None]: it
    took longer); a panic of the probe ends its task, and nothing is
    published. *)
Definition probe_once (previous : EndpointHealthSnapshot) (outcome : option (result error ProbeObservation))
    : option EndpointHealthSnapshot :=
  match outcome with
  | Some (Ok o) => Some {|
      snap_id := snap_id previous; snap_role := snap_role previous;
      health := {| health_state := Healthy;
                   recovered := negb (endpoint_is_healthy (health_state (health previous)));
                   consecutive_failures := 0 |};
      role := role_outcome (snap_role previous) (obs_role o);
      snap_replay_lsn := obs_lsn o; replay_timestamp := obs_timestamp o; lag_duration := obs_lag o;
      lag_state := obs_lag_state o; last_successful_probe_at := Some (obs_at o); last_error := None |}
  | Some (Err e) => Some (after_failure previous Unhealthy e)
  | Some Panic => None
  | None => Some (after_failure previous Degraded (EMsg (lit "probe timed out")))
  end.

(** [backoff_delay], in nanoseconds; the multiplier is at most 16 and the
    product saturates at the largest [Duration]. *)
Definition DURATION_MAX : Z := 2 ^ 64 * 1000000000 - 1.
Definition backoff_delay (probe_interval : Z) (s : EndpointHealthSnapshot) : Z :=
  if endpoint_is_healthy (health_state (health s)) then probe_interval
  else
    let exponent := Z.min (Z.max 0 (consecutive_failures (health s) - 1)) 4 in
    Z.min DURATION_MAX (probe_interval * Z.shiftl 1 exponent).

(** What [publish] gives the routes, as [Checkout] reads it. *)
Definition published (s : EndpointHealthSnapshot) : ReplicaHealthSnapshot := {|
  endpoint_id := snap_id s;
  hs_replay_lsn := snap_replay_lsn s;
  lag_duration_ms := (fun d => d / 1000000) <$> lag_duration s;
  split_brain_warning := bool_decide (is_Some (warning (role s))) |}.

(** ** Facts *)

Section AnswerFacts.
Definition encode_frame (f : BackendFrame) : bytes := encode_backend_message_raw (btag f) (bpayload f).
Definition ready_frame : BackendFrame := {| btag := backend_byte ReadyForQuery; bpayload := [73] |}.

(** A complete answer: some frames, then ReadyForQuery. *)
Definition answer (fs : list BackendFrame) : bytes := (fs ++ [ready_frame]) ≫= encode_frame.

(** Frames that do not end an answer. *)
Definition benign (f : BackendFrame) : Prop :=
  btag f <> backend_byte ErrorResponse /\ btag f <> backend_byte ReadyForQuery /\ fits_frame (bpayload f).

(** The row of an answer: its first DataRow that has one. *)
Fixpoint row_of (value : row) (fs : list BackendFrame) : result error row :=
  match fs with
  | [] => Ok value
  | f :: fs =>
      if (btag f =? backend_byte DataRow) && bool_decide (value = None)
      then value ← parse_probe_row (bpayload f); row_of value fs
      else row_of value fs
  end.

Lemma frames_read fuel fs value r :
  Forall benign fs -> (length (answer fs) < fuel)%nat -> row_of value fs = Ok r ->
  probe_frames fuel (answer fs) value = Ok (inl r).
Proof.
  intros Hfs. revert fuel value. induction Hfs as [|f fs (He & Hr & Hfit) _ IH]; intros fuel value Hf Hrow;
    (destruct fuel as [|fuel]; [lia|]); cbn [probe_frames].
  - unfold answer, encode_frame. cbn [app mbind list_bind]. rewrite parse_backend_frame_spec by done.
    injection Hrow as ->. unfold probe_frame. cbn. done.
  - assert (answer (f :: fs) = encode_frame f ++ answer fs) as E by done. rewrite E in *.
    unfold encode_frame at 1. rewrite parse_backend_frame_spec by done.
    rewrite length_app in Hf. assert (0 < length (encode_frame f))%nat by (cbn; lia).
    cbn [row_of] in Hrow. unfold probe_frame. cbn [btag bpayload].
    destruct (_ && _).
    + destruct (parse_probe_row (bpayload f)) as [v|e|]; try done. cbn in *. apply IH; [lia|done].
    + rewrite (proj2 (Z.eqb_neq _ _) He), (proj2 (Z.eqb_neq _ _) Hr). cbn. apply IH; [lia|done].
Qed.

Lemma query_answered sql fs r rs ws n :
  Forall benign fs -> row_of None fs = Ok r ->
  execute_probe_query sql {| reads := Some (answer fs) :: rs; writes := ws; writes_left := S n |}
  = (Ok r, {| reads := rs; writes := ws ++ [simple_query_packet sql]; writes_left := n |}).
Proof.
  intros Hfs Hrow. unfold execute_probe_query, write_all. cbn [writes_left reads writes with_reads].
  cbn [probe_loop]. rewrite (proj2 (Z.eqb_neq (len (answer fs)) 0)).
  - cbn [app]. by rewrite (frames_read (S (length (answer fs))) fs None r Hfs (Nat.lt_succ_diag_r _) Hrow).
  - unfold answer. rewrite bind_app, len_app. pose proof (len_nonneg (fs ≫= encode_frame)).
    change (len ([ready_frame] ≫= encode_frame)) with 6. lia.
Qed.
End AnswerFacts.

(** What a probe concludes when the server's messages arrive answer by
    answer: the first answer is not looked at, the second decides the role
    and the third gives position and lag. *)
Theorem probe_reads_answers user database max now f0 f1 f2 r0 r1 r2 rs n :
  Forall benign f0 -> Forall benign f1 -> Forall benign f2 ->
  row_of None f0 = Ok r0 -> row_of None f1 = Ok r1 -> row_of None f2 = Ok r2 ->
  fst (run_probe user database max now
         {| reads := Some (answer f0) :: Some (answer f1) :: Some (answer f2) :: rs;
            writes := []; writes_left := 4 + n |})
  = match observed_of r1 with
    | Ok Replica => observe_lag max now r2
    | Ok r => Ok (observation_primary r now)
    | Err e => Err e
    | Panic => Panic
    end.
Proof.
  intros H0 H1 H2 E0 E1 E2. unfold run_probe. cbn [Nat.add].
  unfold mbind at 1, session_bind at 1, with_context, write_all. cbn [writes_left reads writes context map_err].
  unfold mbind at 1, session_bind at 1. rewrite (query_answered _ _ _ _ _ _ H0 E0).
  unfold mbind at 1, session_bind at 1. rewrite (query_answered _ _ _ _ _ _ H1 E1).
  unfold mbind at 1, session_bind at 1, lift.
  destruct (observed_of r1) as [[]|e|]; try done.
  unfold mbind, session_bind. rewrite (query_answered _ _ _ _ _ _ H2 E2). done.
Qed.

(** ** A PostgreSQL server *)

Definition data_row (v : str) : BackendFrame :=
  {| btag := backend_byte DataRow; bpayload := put_i16 1 ++ put_i32 (str_len v) ++ encode_utf8 v |}.
Definition complete (t : str) : BackendFrame :=
  {| btag := backend_byte CommandComplete; bpayload := encode_utf8 t ++ [0] |}.
(** The answer to a startup packet: AuthenticationOk and a key. *)
Definition startup_answer : list BackendFrame :=
  [{| btag := backend_byte Authentication; bpayload := [0; 0; 0; 0] |};
   {| btag := backend_byte BackendKeyData; bpayload := [0; 0; 0; 1; 0; 0; 0; 2] |}].
(** The answer to a query with one row. *)
Definition query_answer (v : str) : list BackendFrame := [data_row v; complete (lit "SELECT 1")].

Ltac benign_frames :=
  repeat constructor; try (unfold fits_frame; vm_compute; congruence); try (vm_compute; congruence).

(** A server that answers the startup packet and then every query, as
    PostgreSQL does, is never found healthy: the answer to the startup packet
    is taken for that of the first query, that of [SELECT 1] for the role,
    and the role for the replay position. *)
Theorem probe_rejects_postgres user database max now in_recovery rs n :
  fst (run_probe user database max now
         {| reads := Some (answer startup_answer) :: Some (answer (query_answer (lit "1")))
                     :: Some (answer (query_answer (lit (if in_recovery : bool then "t" else "f")))) :: rs;
            writes := []; writes_left := 4 + n |})
  = Err (EContext (lit "parse replay lsn") EForeign).
Proof.
  rewrite (probe_reads_answers user database max now _ _ _ None (Some [Some (lit "1")])
             (Some [Some (lit (if in_recovery then "t" else "f"))])).
  - destruct in_recovery; vm_compute; reflexivity.
  - benign_frames.
  - benign_frames.
  - destruct in_recovery; benign_frames.
  - vm_compute. reflexivity.
  - vm_compute. reflexivity.
  - destruct in_recovery; vm_compute; reflexivity.
Qed.

(** A server that sends nothing before the first query is read as meant. *)
Lemma probe_reads_answers_witness :
  fst (run_probe (lit "u") (lit "d") 1000 5000000000
         {| reads := [Some (answer []); Some (answer (query_answer (lit "t")));
                      Some (answer (query_answer (lit "0/16")))];
            writes := []; writes_left := 4 + 0 |})
  = Ok {| obs_role := Replica; obs_lsn := Some 22; obs_timestamp := None; obs_lag := None;
          obs_lag_state := LagUnknown; obs_at := 5000000000 |}.
Proof.
  rewrite (probe_reads_answers (lit "u") (lit "d") 1000 5000000000 [] (query_answer (lit "t"))
             (query_answer (lit "0/16")) None (Some [Some (lit "t")]) (Some [Some (lit "0/16")]) [] 0);
    [vm_compute; reflexivity|benign_frames|benign_frames|benign_frames
    |vm_compute; reflexivity|vm_compute; reflexivity|vm_compute; reflexivity].
Defined.

(** ** The published state *)

Section StateFacts.
Definition outcome : Type := option (result error ProbeObservation).
Definition failed (o : outcome) : bool := match o with Some (Ok _) => false | _ => true end.

(** The snapshot after a sequence of probes, the latest last. *)
Fixpoint probe_all (s : EndpointHealthSnapshot) (os : list outcome) : option EndpointHealthSnapshot :=
  match os with
  | [] => Some s
  | o :: os => s ← probe_once s o; probe_all s os
  end.

(** How many of the latest probes failed in a row. *)
Fixpoint failures_in_a_row (before : Z) (os : list outcome) : Z :=
  match os with
  | [] => before
  | o :: os => failures_in_a_row (if failed o then before + 1 else 0) os
  end.

Definition state_ok (k : Z) (s : EndpointHealthSnapshot) : Prop :=
  consecutive_failures (health s) = Z.min (2 ^ 32 - 1) k
  /\ (0 < k -> (3 <= k <-> health_state (health s) = Unavailable)
       /\ health_state (health s) <> Healthy /\ role_state (role s) = RoleUnknown
       /\ hs_replay_lsn (published s) = None /\ lag_duration_ms (published s) = None
       /\ split_brain_warning (published s) = false).

Lemma probe_once_ok k s o s' :
  0 <= k -> state_ok k s -> probe_once s o = Some s' -> state_ok (if failed o then k + 1 else 0) s'.
Proof.
  intros Hk [Hc _] Ho. unfold state_ok.
  assert (forall mild e, mild = Degraded \/ mild = Unhealthy -> state_ok (k + 1) (after_failure s mild e)) as Hfail.
  { intros mild e Hm. unfold state_ok, after_failure, published, UNAVAILABLE_FAILURE_THRESHOLD. cbn. rewrite Hc.
    split; [lia|]. intros _. destruct (Z.leb_spec 3 (Z.min (2 ^ 32 - 1) (Z.min (2 ^ 32 - 1) k + 1)));
      repeat split; try done; try lia; destruct Hm as [-> | ->]; try done; lia. }
  destruct o as [[o|e|]|]; cbn in Ho; [|injection Ho as <-; apply Hfail; auto|done|injection Ho as <-; apply Hfail; auto].
  injection Ho as <-. cbn. split; [done|lia].
Qed.

Lemma probe_all_ok k s os s' :
  0 <= k -> state_ok k s -> probe_all s os = Some s' -> state_ok (failures_in_a_row k os) s'.
Proof.
  revert k s. induction os as [|o os IH]; intros k s Hk Hs; cbn; [by intros [= <-]|].
  destruct (probe_once s o) as [s1|] eqn:E; [|done]. cbn. apply IH; [destruct (failed o); lia|].
  by eapply probe_once_ok.
Qed.

Lemma backoff_of_failures interval k s :
  0 <= interval <= DURATION_MAX / 16 -> 0 < k -> state_ok k s ->
  backoff_delay interval s = interval * 2 ^ Z.min (k - 1) 4.
Proof.
  intros Hi Hk [Hc Hs]. destruct (Hs Hk) as (_ & Hh & _). unfold backoff_delay, endpoint_is_healthy.
  rewrite bool_decide_eq_false_2 by done. rewrite Hc, Z.shiftl_1_l.
  replace (Z.min (Z.max 0 (Z.min (2 ^ 32 - 1) k - 1)) 4) with (Z.min (k - 1) 4) by lia.
  assert (2 ^ Z.min (k - 1) 4 <= 2 ^ 4) by (apply Z.pow_le_mono_r; lia).
  apply Z.min_r. etransitivity; [apply Z.mul_le_mono_nonneg; [lia|apply Hi|apply Z.pow_nonneg; lia|eassumption]|].
  change (2 ^ 4) with 16. rewrite Z.mul_comm. apply Z.mul_div_le. lia.
Qed.
End StateFacts.

(** After any sequence of probes of which the last [k > 0] failed, the
    endpoint is unavailable exactly when [k >= 3], it is never healthy, its
    role is unknown, the routes are given neither a position nor a lag nor a
    warning, and the next probe waits for the interval times two to the
    power [min (k - 1) 4]. *)
Theorem failed_probes_withdraw id expected os s interval :
  probe_all (snapshot_new id expected) os = Some s ->
  0 <= interval <= DURATION_MAX / 16 ->
  let k := failures_in_a_row 0 os in
  0 < k ->
  (3 <= k <-> health_state (health s) = Unavailable)
  /\ health_state (health s) <> Healthy /\ role_state (role s) = RoleUnknown
  /\ hs_replay_lsn (published s) = None /\ lag_duration_ms (published s) = None
  /\ split_brain_warning (published s) = false
  /\ backoff_delay interval s = interval * 2 ^ Z.min (k - 1) 4.
Proof.
  intros Hp Hi k Hk. assert (state_ok k s) as Hs.
  { eapply probe_all_ok; [| |exact Hp]; [lia|]. split; [done|lia]. }
  pose proof (backoff_of_failures interval k s Hi Hk Hs) as ->. destruct Hs as [_ Hs].
  destruct (Hs Hk) as (? & ? & ? & ? & ? & ?). repeat split; by try apply H.
Qed.

Definition replica_seen : outcome :=
  Some (Ok {| obs_role := Primary; obs_lsn := Some 22; obs_timestamp := None; obs_lag := None;
              obs_lag_state := LagUnknown; obs_at := 7 |}).

Lemma failed_probes_withdraw_witness :
  exists s, probe_all (snapshot_new 1 Replica) [replica_seen; None; None; None] = Some s
            /\ health_state (health s) = Unavailable /\ backoff_delay 10 s = 10 * 2 ^ 2.
Proof.
  eexists. split; [reflexivity|].
  pose proof (failed_probes_withdraw 1 Replica [replica_seen; None; None; None] _ 10 eq_refl) as H.
  destruct H as (Hu & _ & _ & _ & _ & _ & Hb); [vm_compute; split; congruence|vm_compute; reflexivity|].
  split; [apply Hu; vm_compute; congruence|exact Hb].
Defined.

(** A replica that answered as a primary is warned about until a probe fails;
    then the warning is gone and the routes may use it again. *)
Lemma failed_probe_forgets_warning :
  exists s1 s2, probe_all (snapshot_new 1 Replica) [replica_seen] = Some s1
    /\ split_brain_warning (published s1) = true
    /\ probe_all (snapshot_new 1 Replica) [replica_seen; None] = Some s2
    /\ split_brain_warning (published s2) = false.
Proof. do 2 eexists. repeat split. Qed.
