(* ===== verification/Lifecycle.v ===== *)
(** * Lifecycle: from start to stop

    Models [pg-kinetic-core/src/cluster/runtime.rs] (the states of the
    runtime and their transitions), [pg-kinetic-proxy/src/ops/lifecycle.rs]
    ([ReadinessGate], [LifecycleController], [DrainToken],
    [KubernetesLifecycle], [ShutdownCoordinator]) and the accept loop
    [run_shard] of [proxy.rs]. The lifecycle state is behind a mutex: every
    [update] is one locked section that recomputes the readiness. The
    operations are functions on the controller; the Section [Interleaving]
    runs their locked sections in any order, with the drain controller
    changing in between. Metrics are left out. *)

From S2P Require Import Prelude Text Tasks Drain.

Inductive RuntimeLifecycleState := Starting | Ready | Draining | Stopping | Stopped.
Inductive ReadinessState := RReady | RNotReady | RDraining.
Inductive ShutdownReason := Signal | AdminRequest | PreStopHook | StartupFailure | RuntimeFailure.

#[global] Instance RuntimeLifecycleState_eq_dec : EqDecision RuntimeLifecycleState.
Proof. solve_decision. Defined.
#[global] Instance ReadinessState_eq_dec : EqDecision ReadinessState.
Proof. solve_decision. Defined.
#[global] Instance ShutdownReason_eq_dec : EqDecision ShutdownReason.
Proof. solve_decision. Defined.

Definition can_transition_to (s next : RuntimeLifecycleState) : bool :=
  match s, next with
  | Starting, (Ready | Stopping) => true
  | Ready, (Draining | Stopping) => true
  | Draining, Stopping => true
  | Stopping, Stopped => true
  | _, _ => false
  end.

(** [LifecycleTransition::new]; [to] of the result is [next]. *)
Definition transition_new (s next : RuntimeLifecycleState)
    : result (RuntimeLifecycleState * RuntimeLifecycleState) (RuntimeLifecycleState * RuntimeLifecycleState) :=
  if can_transition_to s next then Ok (s, next) else Err (s, next).

(** ** The state and its readiness *)

Record LifecycleState := {
  lifecycle : RuntimeLifecycleState;
  readiness : ReadinessState;
  listeners_initialized : bool;
  backend_pools_initialized : bool;
  active_sessions : Z;
  shutdown_reason : option ShutdownReason;
  transition_count : Z;
  force_close_requested : bool;
}.

#[global] Instance LifecycleState_eq_dec : EqDecision LifecycleState.
Proof. solve_decision. Defined.

Record ReadinessGate := {
  readiness_fail_during_drain : bool;
  startup_backend_checks_enabled : bool;
}.

Definition startup_ready (g : ReadinessGate) (listeners pools : bool) : bool :=
  listeners && (negb (startup_backend_checks_enabled g) || pools).

Definition evaluate (g : ReadinessGate) (l : RuntimeLifecycleState) (listeners pools : bool) : ReadinessState :=
  match l with
  | Ready => if startup_ready g listeners pools then RReady else RNotReady
  | Draining => if negb (readiness_fail_during_drain g) then RDraining else RNotReady
  | Starting | Stopping | Stopped => RNotReady
  end.

(** [LifecycleInner]. *)
Record Controller := {
  inner : LifecycleState;
  gate : ReadinessGate;
  drain : Drain.DrainController;
  drain_grace : Z;
  shutdown_grace : Z;
  updates : LifecycleState;
  force_close : bool;
}.

Definition set_inner (c : Controller) (s : LifecycleState) : Controller :=
  {| inner := s; gate := gate c; drain := drain c; drain_grace := drain_grace c;
     shutdown_grace := shutdown_grace c; updates := updates c; force_close := force_close c |}.
Definition set_gate (c : Controller) (g : ReadinessGate) : Controller :=
  {| inner := inner c; gate := g; drain := drain c; drain_grace := drain_grace c;
     shutdown_grace := shutdown_grace c; updates := updates c; force_close := force_close c |}.
Definition set_drain (c : Controller) (d : Drain.DrainController) : Controller :=
  {| inner := inner c; gate := gate c; drain := d; drain_grace := drain_grace c;
     shutdown_grace := shutdown_grace c; updates := updates c; force_close := force_close c |}.
Definition set_graces (c : Controller) (dg sg : Z) : Controller :=
  {| inner := inner c; gate := gate c; drain := drain c; drain_grace := dg;
     shutdown_grace := sg; updates := updates c; force_close := force_close c |}.
Definition set_force_close (c : Controller) : Controller :=
  {| inner := inner c; gate := gate c; drain := drain c; drain_grace := drain_grace c;
     shutdown_grace := shutdown_grace c; updates := updates c; force_close := true |}.
(** [publish]. *)
Definition publish (c : Controller) (s : LifecycleState) : Controller :=
  {| inner := inner c; gate := gate c; drain := drain c; drain_grace := drain_grace c;
     shutdown_grace := shutdown_grace c; updates := s; force_close := force_close c |}.

(** What the closures given to [update] do to the state. *)
Definition with_lifecycle (s : LifecycleState) (l : RuntimeLifecycleState) : LifecycleState :=
  {| lifecycle := l; readiness := readiness s; listeners_initialized := listeners_initialized s;
     backend_pools_initialized := backend_pools_initialized s; active_sessions := active_sessions s;
     shutdown_reason := shutdown_reason s; transition_count := sat_add (transition_count s) 1;
     force_close_requested := force_close_requested s |}.
Definition with_reason (s : LifecycleState) (r : ShutdownReason) : LifecycleState :=
  {| lifecycle := lifecycle s; readiness := readiness s; listeners_initialized := listeners_initialized s;
     backend_pools_initialized := backend_pools_initialized s; active_sessions := active_sessions s;
     shutdown_reason := match shutdown_reason s with None => Some r | r' => r' end;
     transition_count := transition_count s; force_close_requested := force_close_requested s |}.

Inductive Update :=
| SetListeners
| SetPools
| Refresh
| DrainBegun (r : ShutdownReason)
| MarkReady (startup_ready : bool)
| MarkStopping
| ForceClose
| MarkStopped.

(** The two [expect]s on [LifecycleTransition::new] hold by evaluation. *)
Definition apply_update (u : Update) (s : LifecycleState) : LifecycleState :=
  match u with
  | SetListeners =>
      {| lifecycle := lifecycle s; readiness := readiness s; listeners_initialized := true;
         backend_pools_initialized := backend_pools_initialized s; active_sessions := active_sessions s;
         shutdown_reason := shutdown_reason s; transition_count := transition_count s;
         force_close_requested := force_close_requested s |}
  | SetPools =>
      {| lifecycle := lifecycle s; readiness := readiness s;
         listeners_initialized := listeners_initialized s;
         backend_pools_initialized := true; active_sessions := active_sessions s;
         shutdown_reason := shutdown_reason s; transition_count := transition_count s;
         force_close_requested := force_close_requested s |}
  | Refresh => s
  | DrainBegun r =>
      with_reason (if bool_decide (lifecycle s = Ready) then with_lifecycle s Draining else s) r
  | MarkReady startup_ready =>
      if bool_decide (lifecycle s = Starting) && startup_ready then
        match transition_new Starting Ready with
        | Ok (_, to) => with_lifecycle s to
        | _ => s
        end
      else s
  | MarkStopping =>
      match lifecycle s with
      | Starting | Ready | Draining => with_lifecycle s Stopping
      | _ => s
      end
  | ForceClose =>
      {| lifecycle := lifecycle s; readiness := readiness s;
         listeners_initialized := listeners_initialized s;
         backend_pools_initialized := backend_pools_initialized s; active_sessions := active_sessions s;
         shutdown_reason := shutdown_reason s; transition_count := transition_count s;
         force_close_requested := true |}
  | MarkStopped =>
      if bool_decide (lifecycle s = Stopping) then
        match transition_new Stopping Stopped with
        | Ok (_, to) => with_lifecycle s to
        | _ => s
        end
      else s
  end.

(** The locked section of [update]. *)
Definition locked (u : Update) (c : Controller) : Controller :=
  let s := apply_update u (inner c) in
  set_inner c
    {| lifecycle := lifecycle s;
       readiness := evaluate (gate c) (lifecycle s) (listeners_initialized s) (backend_pools_initialized s);
       listeners_initialized := listeners_initialized s;
       backend_pools_initialized := backend_pools_initialized s;
       active_sessions := Drain.active_clients (drain c);
       shutdown_reason := shutdown_reason s; transition_count := transition_count s;
       force_close_requested := force_close_requested s |}.

(** [LifecycleController::state]. *)
Definition observe (c : Controller) : LifecycleState :=
  {| lifecycle := lifecycle (inner c); readiness := readiness (inner c);
     listeners_initialized := listeners_initialized (inner c);
     backend_pools_initialized := backend_pools_initialized (inner c);
     active_sessions := Drain.active_clients (drain c);
     shutdown_reason := shutdown_reason (inner c); transition_count := transition_count (inner c);
     force_close_requested := force_close_requested (inner c) |}.

(** [update], undisturbed. *)
Definition update (u : Update) (c : Controller) : Controller * bool :=
  let previous := observe c in
  let c := locked u c in
  let current := observe c in
  if bool_decide (current = previous) then (c, false) else (publish c current, true).

(** [LifecycleController::new]. *)
Definition initial_state : LifecycleState :=
  {| lifecycle := Starting; readiness := RNotReady; listeners_initialized := false;
     backend_pools_initialized := false; active_sessions := 0; shutdown_reason := None;
     transition_count := 0; force_close_requested := false |}.
Definition controller_new (d : Drain.DrainController) (drain_grace shutdown_grace : Z) (fail_during_drain : bool)
    : Controller :=
  let c := {| inner := initial_state;
              gate := {| readiness_fail_during_drain := fail_during_drain; startup_backend_checks_enabled := true |};
              drain := d; drain_grace := drain_grace; shutdown_grace := shutdown_grace;
              updates := initial_state; force_close := false |} in
  publish c (observe c).

(** ** Operations *)

Definition maybe_mark_ready (c : Controller) : Controller :=
  let s := observe c in
  fst (update (MarkReady (startup_ready (gate c) (listeners_initialized s) (backend_pools_initialized s))) c).

Definition mark_listeners_initialized (c : Controller) : Controller :=
  maybe_mark_ready (fst (update SetListeners c)).
Definition mark_backend_pools_initialized (c : Controller) : Controller :=
  maybe_mark_ready (fst (update SetPools c)).

Definition fail_during_drain (c : Controller) (b : bool) : Controller :=
  set_gate c {| readiness_fail_during_drain := b;
                startup_backend_checks_enabled := startup_backend_checks_enabled (gate c) |}.
Definition startup_checks (c : Controller) (b : bool) : Controller :=
  set_gate c {| readiness_fail_during_drain := readiness_fail_during_drain (gate c);
                startup_backend_checks_enabled := b |}.

Definition configure (c : Controller) (dg sg : Z) (fail : bool) : Controller :=
  fst (update Refresh (fail_during_drain (set_graces c dg sg) fail)).
Definition configure_startup_backend_checks (c : Controller) (enabled : bool) : Controller :=
  maybe_mark_ready (startup_checks c enabled).

(** An operation of the drain controller that nobody disturbs. *)
Fixpoint alone (steps : nat) (d : Drain.DrainController) (p : Drain.Phase) : Drain.DrainController * Drain.Phase :=
  match steps with
  | O => (d, p)
  | S steps =>
      match Drain.drain_step d p with
      | [] => (d, p)
      | (d, p) :: _ => alone steps d p
      end
  end.

Definition begin_drain (c : Controller) (r : ShutdownReason) : result unit (Controller * bool) :=
  match alone 5 (drain c) (Drain.Begin (drain_grace c)) with
  | (d, Drain.Begun began) =>
      let '(c, transitioned) := update (DrainBegun r) (set_drain c d) in
      Ok (c, began || transitioned)
  | _ => Panic
  end.

Definition mark_stopping (c : Controller) : Controller := fst (update MarkStopping c).
Definition request_force_close (c : Controller) : Controller := set_force_close (fst (update ForceClose c)).
Definition mark_stopped (c : Controller) : Controller :=
  fst (update MarkStopped (set_drain c (fst (alone 2 (drain c) Drain.Finish)))).

(** [DrainToken]: the guard of a session, and its drop. *)
Definition token_is_accepting (c : Controller) : bool :=
  Drain.is_accepting (drain c) && bool_decide (lifecycle (observe c) = Ready).
Definition try_enter (c : Controller) : Controller * bool :=
  if negb (token_is_accepting c) then (c, false)
  else
    match alone 4 (drain c) Drain.Enter with
    | (d, Drain.Refused) => (set_drain c d, false)
    | _ =>
        let c := set_drain c (fst (alone 3 (drain c) Drain.Enter)) in
        (publish c (observe c), true)
    end.
Definition drop_guard (c : Controller) : Controller :=
  let c := set_drain c (fst (alone 3 (drain c) Drain.Guarded)) in publish c (observe c).

(** [ShutdownCoordinator::coordinate]: how [wait_for_completion] ended, and
    the drain controller after the shutdown grace. *)
Record ShutdownOutcome := { drain_outcome : Drain.DrainOutcome; forced_sessions : Z }.
Definition coordinate (c : Controller) (o : Drain.DrainOutcome) (after : Drain.DrainController)
    : Controller * ShutdownOutcome :=
  let c := mark_stopping c in
  match o with
  | Drain.Completed => (c, {| drain_outcome := o; forced_sessions := 0 |})
  | Drain.TimedOut =>
      let c := set_drain c after in
      let active := Drain.active_clients after in
      (if 0 <? active then request_force_close c else c,
       {| drain_outcome := o; forced_sessions := active |})
  end.

(** ** Probes *)

Inductive ProbeStatus := ProbeHealthy | ProbeUnhealthy.
Definition status_code (p : ProbeStatus) : Z := match p with ProbeHealthy => 200 | ProbeUnhealthy => 503 end.
Definition probe_when (b : bool) : ProbeStatus := if b then ProbeHealthy else ProbeUnhealthy.

Definition readiness_probe (c : Controller) : ProbeStatus :=
  probe_when (match readiness (observe c) with RReady | RDraining => true | RNotReady => false end).
Definition liveness_probe (c : Controller) : ProbeStatus :=
  probe_when (negb (bool_decide (lifecycle (observe c) = Stopped))).
Definition startup_probe (c : Controller) : ProbeStatus :=
  probe_when (match lifecycle (observe c) with Ready | Draining => true | _ => false end).

Inductive PreStopDrainOutcome := PreStopDisabled | EndpointMismatch | DrainStarted | AlreadyDraining.
Definition handle_pre_stop (enabled : bool) (configured : str) (c : Controller) (endpoint : str)
    : result unit (Controller * PreStopDrainOutcome) :=
  if negb enabled then Ok (c, PreStopDisabled)
  else if negb (str_eqb endpoint configured) then Ok (c, EndpointMismatch)
  else
    '(c, started) ← begin_drain c PreStopHook;
    Ok (c, if started : bool then DrainStarted else AlreadyDraining).

(** ** Interleaving *)

(** The operations as sequences of atomic steps. *)
Inductive Phase :=
| PListeners
| PPools
| PReadyRead
| PReadyGate (listeners pools : bool)
| PReadyWrite (ready : bool)
| PGraces (dg sg : Z) (fail : bool)
| PGate (fail : bool)
| PRefresh
| PChecks (enabled : bool)
| PDrain (r : ShutdownReason)
| PDrainBegun (r : ShutdownReason)
| PStopping
| PForce
| PForceSend
| PFinish
| PStopped
| PDone.

Definition lifecycle_step (c : Controller) (p : Phase) : list (Controller * Phase) :=
  match p with
  | PListeners => [(locked SetListeners c, PReadyRead)]
  | PPools => [(locked SetPools c, PReadyRead)]
  | PReadyRead =>
      [(c, PReadyGate (listeners_initialized (observe c)) (backend_pools_initialized (observe c)))]
  | PReadyGate listeners pools => [(c, PReadyWrite (startup_ready (gate c) listeners pools))]
  | PReadyWrite ready => [(locked (MarkReady ready) c, PDone)]
  | PGraces dg sg fail => [(set_graces c dg sg, PGate fail)]
  | PGate fail => [(fail_during_drain c fail, PRefresh)]
  | PRefresh => [(locked Refresh c, PDone)]
  | PChecks enabled => [(startup_checks c enabled, PReadyRead)]
  | PDrain r => [(c, PDrainBegun r)]
  | PDrainBegun r => [(locked (DrainBegun r) c, PDone)]
  | PStopping => [(locked MarkStopping c, PDone)]
  | PForce => [(locked ForceClose c, PForceSend)]
  | PForceSend => [(set_force_close c, PDone)]
  | PFinish => [(c, PStopped)]
  | PStopped => [(locked MarkStopped c, PDone)]
  | PDone => []
  end.

(** The steps on the drain controller, the operations' own included, are
    changes of the environment: any at any time. *)
#[global] Instance lifecycle_tasks : TaskSystem Controller Phase Drain.DrainController := {
  task_step := lifecycle_step;
  task_drop _ _ := None;
  task_start p := match p with
                  | PListeners | PPools | PGraces _ _ _ | PChecks _ | PDrain _ | PStopping | PForce | PFinish => true
                  | _ => false
                  end;
  env_step d c := set_drain c d;
}.

Section Interleaving.
(** The number of transitions that lead to a state. *)
Definition count_ok (l : RuntimeLifecycleState) (n : Z) : Prop :=
  match l with
  | Starting => n = 0
  | Ready => n = 1
  | Draining => n = 2
  | Stopping => 1 <= n <= 3
  | Stopped => 2 <= n <= 4
  end.

Definition state_good (s : LifecycleState) : Prop :=
  count_ok (lifecycle s) (transition_count s)
  /\ (lifecycle s = Ready \/ lifecycle s = Draining -> listeners_initialized s = true)
  /\ (readiness s = RReady -> lifecycle s = Ready)
  /\ (readiness s = RDraining -> lifecycle s = Draining).

(** A change of the state: none, or one transition, counted. *)
Definition moved (s s' : LifecycleState) : Prop :=
  lifecycle s' = lifecycle s /\ transition_count s' = transition_count s
  \/ can_transition_to (lifecycle s) (lifecycle s') = true /\ transition_count s' = transition_count s + 1.

Definition phase_good (s : LifecycleState) (p : Phase) : Prop :=
  match p with
  | PReadyGate true _ | PReadyWrite true => listeners_initialized s = true
  | _ => True
  end.

Definition lifecycle_inv (c : Controller) (ts : list Phase) : Prop :=
  state_good (inner c) /\ Forall (phase_good (inner c)) ts.

Lemma sat_add_small n : 0 <= n <= 3 -> sat_add n 1 = n + 1.
Proof. unfold sat_add, U64_MAX. lia. Qed.

Lemma evaluate_ready g l a b : evaluate g l a b = RReady -> l = Ready.
Proof. destruct l; cbn; try done; by case_match. Qed.
Lemma evaluate_draining g l a b : evaluate g l a b = RDraining -> l = Draining.
Proof. destruct l; cbn; try done; by case_match. Qed.

(** What an update may do; [MarkReady] is told that the listeners are there. *)
Lemma apply_update_good u s :
  count_ok (lifecycle s) (transition_count s) ->
  (lifecycle s = Ready \/ lifecycle s = Draining -> listeners_initialized s = true) ->
  (u = MarkReady true -> listeners_initialized s = true) ->
  let s' := apply_update u s in
  count_ok (lifecycle s') (transition_count s')
  /\ (lifecycle s' = Ready \/ lifecycle s' = Draining -> listeners_initialized s' = true)
  /\ moved s s'
  /\ (listeners_initialized s = true -> listeners_initialized s' = true)
  /\ (forall r, shutdown_reason s = Some r -> shutdown_reason s' = Some r).
Proof.
  unfold moved. destruct s as [l rd li po ac re tc fo]. cbn. intros Hc Hl Hu.
  assert (0 <= tc <= 3 \/ l = Stopped) as Htc
    by (destruct l; cbn in Hc; first [left; lia | by right]).
  destruct u; cbn; destruct l; cbn in *;
    repeat (case_bool_decide || case_match); cbn; try done;
    rewrite ?sat_add_small by (destruct Htc; [lia|done]);
    (split; [try done; lia|]); (split; [by naive_solver|]); (split; [by auto|]);
    (split; [done|]); try done; by intros r0 ->.
Qed.

Lemma locked_good u c :
  state_good (inner c) ->
  (u = MarkReady true -> listeners_initialized (inner c) = true) ->
  state_good (inner (locked u c))
  /\ moved (inner c) (inner (locked u c))
  /\ (listeners_initialized (inner c) = true -> listeners_initialized (inner (locked u c)) = true)
  /\ (forall r, shutdown_reason (inner c) = Some r -> shutdown_reason (inner (locked u c)) = Some r).
Proof.
  intros (Hc & Hl & _ & _) Hu.
  destruct (apply_update_good u (inner c) Hc Hl Hu) as (Hc' & Hl' & Hs' & Hli & Hre).
  split; [|done]. split; [done|]. split; [done|]. cbn. split; intros He.
  - by eapply evaluate_ready.
  - by eapply evaluate_draining.
Qed.

(** One step of an operation. *)
Lemma lifecycle_step_good c ts p c' p' :
  lifecycle_inv c ts -> p ∈ ts -> (c', p') ∈ lifecycle_step c p ->
  state_good (inner c') /\ phase_good (inner c') p'
  /\ moved (inner c) (inner c')
  /\ (listeners_initialized (inner c) = true -> listeners_initialized (inner c') = true)
  /\ (forall r, shutdown_reason (inner c) = Some r -> shutdown_reason (inner c') = Some r).
Proof.
  intros [Hg Hts] Hp Hst. pose proof (proj1 (Forall_forall _ _) Hts _ Hp) as Hph.
  destruct p; cbn in Hst; outcomes;
    try (match goal with |- context [locked ?u c] => pose proof (locked_good u c Hg) as Hu end;
         destruct Hu as (? & ? & ? & ?); [by first [done | intros [= ->]]|done]);
    repeat split; try apply Hg; try (by left); auto; cbn.
  - by destruct (listeners_initialized (inner c)).
  - unfold startup_ready. by destruct listeners; [destruct (negb _ || pools)|].
Qed.

Lemma phases_mono s s' ts :
  (listeners_initialized s = true -> listeners_initialized s' = true) ->
  Forall (phase_good s) ts -> Forall (phase_good s') ts.
Proof.
  intros Hm Hts. eapply Forall_impl; [exact Hts|]. intros [] Hp; try done; cbn in *;
    repeat case_match; auto.
Qed.

Lemma lifecycle_inv_runs allowed d dg sg fail s :
  Runs allowed (controller_new d dg sg fail) s -> lifecycle_inv (shared s) (tasks s).
Proof.
  apply runs_invariant.
  - split; [|constructor]. repeat split; try done. by intros [|].
  - intros c ts i p c' p' Hinv Hi Hst.
    destruct (lifecycle_step_good c ts p c' p' Hinv) as (Hg & Hp & _ & Hli & _);
      [by eapply list_elem_of_lookup_2|done|].
    split; [done|]. apply Forall_insert; [|done]. eapply phases_mono; [exact Hli|apply Hinv].
  - done.
  - intros c ts p [Hg Hts] Hp. split; [done|]. apply Forall_app. split; [done|].
    constructor; [by destruct p|done].
  - intros c ts e _ [Hg Hts]. done.
Qed.
End Interleaving.

(** C25. However the operations of the controller interleave, its state moves
    only along [can_transition_to], and each move, and nothing else, adds one
    to [transition_count]; it is ready or draining only with listeners, reports ready only in the state
    [Ready] and draining only in [Draining], and keeps the first reason it
    was given to shut down. *)
Theorem lifecycle_sound d dg sg fail s ev t :
  Runs (fun _ => True) (controller_new d dg sg fail) s -> sys_step ev s t ->
  state_good (inner (shared s))
  /\ moved (inner (shared s)) (inner (shared t))
  /\ (forall r, shutdown_reason (inner (shared s)) = Some r -> shutdown_reason (inner (shared t)) = Some r).
Proof.
  intros Hr Hst. pose proof (lifecycle_inv_runs _ _ _ _ _ _ Hr) as Hinv. split; [apply Hinv|].
  destruct Hst as [c ts i p c' p' Hi Hp|c ts i p c' p' Hi Hp|c ts p Hp|c ts e]; cbn in *; try (split; [by left|done]).
  destruct (lifecycle_step_good c ts p c' p' Hinv) as (_ & _ & ? & _ & ?);
    [by eapply list_elem_of_lookup_2|done|done].
Qed.

Definition fresh : Controller := controller_new (Drain.drain_new 0) 60 5 true.

Lemma lifecycle_sound_witness :
  exists s t, Runs (fun _ => True) fresh s
    /\ sys_step Moves s t /\ lifecycle (inner (shared s)) = Starting /\ lifecycle (inner (shared t)) = Ready
    /\ state_good (inner (shared s)).
Proof.
  destruct (perform_all (Sys fresh []) [Start PPools; Go 0 0; Start PListeners; Go 1 0; Go 1 0; Go 1 0])
    as [s|] eqn:Es; [|by vm_compute in Es].
  assert (Runs (fun _ => True) fresh s) as Hr
    by (eapply schedule; [|exact Es]; by apply Forall_forall).
  destruct (perform s (Go 1 0)) as [t|] eqn:Et;
    [|vm_compute in Es; injection Es as <-; by vm_compute in Et].
  pose proof (perform_step _ _ _ Et) as Hst. exists s, t. split; [done|]. split; [done|].
  pose proof (lifecycle_sound (Drain.drain_new 0) 60 5 true s Moves t Hr Hst) as (Hg & _).
  vm_compute in Es. injection Es as <-. vm_compute in Et. injection Et as <-. done.
Defined.

(** A drain that begins while the proxy is starting leaves the state
    [Starting]; when the start completes the proxy reports ready and refuses
    every client. *)
Lemma ready_after_drain_began :
  exists c, begin_drain fresh Signal = Ok (c, true) /\ lifecycle (inner c) = Starting
    /\ let c' := mark_listeners_initialized (mark_backend_pools_initialized c) in
       readiness (inner c') = RReady /\ readiness_probe c' = ProbeHealthy /\ try_enter c' = (c', false).
Proof. eexists. split; [vm_compute; reflexivity|]. by vm_compute. Qed.

(** A whole life: start, one session, a drain that times out, stop. *)
Lemma lifecycle_scenario :
  let c := mark_listeners_initialized (mark_backend_pools_initialized fresh) in
  let '(c, entered) := try_enter c in
  exists c1 b, begin_drain c Signal = Ok (c1, b) /\ entered = true /\ b = true
    /\ lifecycle (inner c1) = Draining /\ readiness_probe c1 = ProbeUnhealthy
    /\ let '(c2, o) := coordinate c1 Drain.TimedOut (drain c1) in
       forced_sessions o = 1 /\ force_close c2 = true
       /\ lifecycle (inner (mark_stopped (drop_guard c2))) = Stopped
       /\ transition_count (inner (mark_stopped (drop_guard c2))) = 4.
Proof. cbv zeta. do 2 eexists. split; [vm_compute; reflexivity|]. by vm_compute. Qed.

(** ** The accept loop of a shard *)

Record Shard := {
  draining : bool;
  client_tasks : Z;
  accepted_connections : Z;
  ctl : Controller;
}.

(** What the [select!] of [run_shard] can see next. [Accept] carries whether
    the socket options could be set and whether writing to and shutting down
    a client that is refused succeeds; the wait for a client slot is over
    when the event is handled. *)
Inductive ShardEvent :=
| DrainStart
| TaskJoined
| AcceptError
| Accept (options_ok refusal_ok : bool)
| CompletionChanged (o : option ShutdownOutcome)
| CompletionClosed.

(** A shard goes on, returns or fails; the client tasks that are left when it
    ends are aborted with its [JoinSet]. *)
Inductive ShardStep :=
| Continue (s : Shard)
| Exit (error : bool) (aborted : Z).

Definition with_tasks (s : Shard) (d a : Z) (c : Controller) (dr : bool) : Shard :=
  {| draining := dr; client_tasks := client_tasks s + d; accepted_connections := sat_add (accepted_connections s) a;
     ctl := c |}.

Definition shard_step (s : Shard) (e : ShardEvent) : result unit ShardStep :=
  let fails := Ok (Exit true (client_tasks s)) in
  if draining s then
    match e with
    | CompletionChanged None => Ok (Continue s)
    | CompletionChanged (Some _) => Ok (Exit false (client_tasks s))
    | CompletionClosed | AcceptError => fails
    | TaskJoined => Ok (Continue (with_tasks s (-1) 0 (ctl s) true))
    | Accept options_ok refusal_ok =>
        if options_ok && refusal_ok then Ok (Continue (with_tasks s 0 1 (ctl s) true)) else fails
    | DrainStart => Ok (Continue s)
    end
  else
    match e with
    | DrainStart =>
        '(c, _) ← begin_drain (ctl s) AdminRequest;
        Ok (Continue (with_tasks s 0 0 c true))
    | TaskJoined => Ok (Continue (with_tasks s (-1) 0 (ctl s) false))
    | AcceptError => fails
    | Accept options_ok refusal_ok =>
        if negb options_ok then fails
        else
          let '(c, entered) := try_enter (ctl s) in
          if entered : bool then Ok (Continue (with_tasks s 1 1 c false))
          else if refusal_ok then Ok (Continue (with_tasks s 0 1 c false)) else fails
    | CompletionChanged _ | CompletionClosed => Ok (Continue s)
    end.

(** A client that is refused during a drain and has closed its connection
    makes the write fail; the shard ends with an error and every session it
    still serves is aborted. *)
Theorem failed_refusal_aborts_sessions s options_ok :
  draining s = true -> shard_step s (Accept options_ok false) = Ok (Exit true (client_tasks s)).
Proof. intros H. unfold shard_step. rewrite H. by rewrite andb_false_r. Qed.

(** New clients get a task only before the drain and with a guard. *)
Lemma shard_spawns s e s' :
  shard_step s e = Ok (Continue s') -> client_tasks s < client_tasks s' ->
  draining s = false /\ token_is_accepting (ctl s) = true /\ snd (try_enter (ctl s)) = true.
Proof.
  unfold shard_step. destruct (draining s) eqn:Ed.
  - destruct e as [| | |[] []|[]|]; intros [= <-]; cbn; try lia.
  - destruct e as [| | |[] r|o|]; cbn.
    + destruct (begin_drain _ _) as [[c b]|e|]; try done. intros [= <-]. cbn. lia.
    + intros [= <-]. cbn. lia.
    + done.
    + destruct (try_enter (ctl s)) as [c []] eqn:Et.
      * intros _ _. split; [done|]. split; [|done]. unfold try_enter in Et.
        by destruct (token_is_accepting (ctl s)).
      * destruct r; [|done]. intros [= <-]. cbn. lia.
    + done.
    + intros [= <-]. lia.
    + intros [= <-]. lia.
Qed.
