(* ===== verification/F64.v ===== *)
(** * F64: double-precision numbers

    [f64] as the standard library's computable model of IEEE 754 binary64
    ([SpecFloat] at precision 53 and exponent bound 1024), with the
    operations the proxy uses. NaN is one value, which no observed result
    distinguishes further. *)

From Stdlib Require Export Floats.SpecFloat.
From S2P Require Import Prelude.

Definition f64 : Type := spec_float.
#[global] Instance f64_eq_dec : EqDecision spec_float.
Proof. solve_decision. Defined.
Definition PREC : Z := 53.
Definition EMAX : Z := 1024.

(** [n as f64]: to nearest, ties to even. *)
Definition f64_of_Z (n : Z) : f64 := binary_normalize PREC EMAX n 0 false.
Definition f64_add : f64 -> f64 -> f64 := SFadd PREC EMAX.
Definition f64_sub : f64 -> f64 -> f64 := SFsub PREC EMAX.
Definition f64_mul : f64 -> f64 -> f64 := SFmul PREC EMAX.
Definition f64_div : f64 -> f64 -> f64 := SFdiv PREC EMAX.

(** Comparisons: false when an operand is NaN. *)
Definition f64_le : f64 -> f64 -> bool := SFleb.
Definition f64_lt : f64 -> f64 -> bool := SFltb.
Definition f64_ge (a b : f64) : bool := f64_le b a.

(** [==]: no NaN equals anything, and the zeros are equal. *)
Definition f64_eqb : f64 -> f64 -> bool := SFeqb.

Definition is_finite (x : f64) : bool :=
  match x with
  | S754_zero _ | S754_finite _ _ _ => true
  | S754_infinity _ | S754_nan => false
  end.

Definition f64_zero : f64 := S754_zero false.
Definition f64_one : f64 := f64_of_Z 1.

(** [f64::max] and [f64::min] ignore a NaN. *)
Definition f64_max (a b : f64) : f64 :=
  match a, b with
  | S754_nan, _ => b
  | _, S754_nan => a
  | _, _ => if f64_lt a b then b else a
  end.
Definition f64_min (a b : f64) : f64 :=
  match a, b with
  | S754_nan, _ => b
  | _, S754_nan => a
  | _, _ => if f64_lt b a then b else a
  end.
(** [f64::clamp] with ordered bounds. *)
Definition f64_clamp (x lo hi : f64) : f64 :=
  if f64_lt x lo then lo else if f64_lt hi x then hi else x.

(** [f64::floor] and [f64::ceil]: the integer below or above a number with
    an exponent below zero; larger numbers are integers. *)
Definition f64_floor (x : f64) : f64 :=
  match x with
  | S754_finite s m e =>
      if 0 <=? e then x
      else
        let v := (if s then Z.neg m else Z.pos m) / 2 ^ (- e) in
        if v =? 0 then S754_zero s else f64_of_Z v
  | _ => x
  end.
Definition f64_ceil (x : f64) : f64 :=
  match x with
  | S754_finite s m e =>
      if 0 <=? e then x
      else
        let v := - ((- (if s then Z.neg m else Z.pos m)) / 2 ^ (- e)) in
        if v =? 0 then S754_zero s else f64_of_Z v
  | _ => x
  end.

(** ** The order *)

Section OrderFacts.
(** Numbers are compared by sign, exponent and mantissa. *)
Definition rank (x : f64) : Z * Z * Z :=
  match x with
  | S754_infinity true => (-2, 0, 0)
  | S754_finite true m e => (-1, - e, - Z.pos m)
  | S754_zero _ | S754_nan => (0, 0, 0)
  | S754_finite false m e => (1, e, Z.pos m)
  | S754_infinity false => (2, 0, 0)
  end.
Definition rank_le (x y : Z * Z * Z) : Prop :=
  let '(a, b, c) := x in
  let '(a', b', c') := y in
  a < a' \/ a = a' /\ (b < b' \/ b = b' /\ c <= c').

Lemma f64_le_rank x y :
  f64_le x y = true <-> x <> S754_nan /\ y <> S754_nan /\ rank_le (rank x) (rank y).
Proof.
  unfold f64_le, SFleb, SFcompare, rank, rank_le.
  destruct x as [sx|sx| |sx mx ex], y as [sy|sy| |sy my ey];
    try (by split; [done|intros (? & ? & ?)]);
    destruct sx; try destruct sy; try (split; [intros _; repeat split; (done || lia)|done]);
    try (split; [done|intros (_ & _ & ?); lia]).
  all: destruct (Z.compare_spec ex ey); cbn; rewrite ?Pos.compare_cont_spec;
    try (split; [intros _; repeat split; (done || lia)|done]);
    try (split; [done|intros (_ & _ & ?); lia]).
  all: change (Pos.compare_cont Eq mx my) with (mx ?= my)%positive;
    destruct (Pos.compare_spec mx my); cbn; subst;
    try (split; [intros _; repeat split; (done || lia)|done]);
    try (split; [done|intros (_ & _ & ?); lia]).
Qed.
Lemma rank_le_trans x y z : rank_le x y -> rank_le y z -> rank_le x z.
Proof. destruct x as [[] ?], y as [[] ?], z as [[] ?]. unfold rank_le. lia. Qed.
Lemma rank_le_total x y : rank_le x y \/ rank_le y x.
Proof. destruct x as [[] ?], y as [[] ?]. unfold rank_le. lia. Qed.

Lemma f64_le_refl x : x <> S754_nan -> f64_le x x = true.
Proof. intros Hx. apply f64_le_rank. destruct (rank_le_total (rank x) (rank x)); auto. Qed.
Lemma f64_le_trans x y z : f64_le x y = true -> f64_le y z = true -> f64_le x z = true.
Proof. rewrite !f64_le_rank. intros (? & ? & ?) (? & ? & ?). eauto using rank_le_trans. Qed.
Lemma f64_lt_le x y : x <> S754_nan -> y <> S754_nan -> f64_lt x y = negb (f64_le y x).
Proof.
  intros Hx Hy. unfold f64_lt, f64_le, SFltb, SFleb, SFcompare.
  destruct x as [sx|[]| |sx mx ex], y as [sy|[]| |sy my ey]; try done; try (by destruct sx); try (by destruct sy).
  destruct sx, sy; try done; rewrite (Z.compare_antisym ey ex); destruct (Z.compare_spec ey ex) as [->|?|?]; cbn; try done.
  all: change (Pos.compare_cont Eq mx my) with (mx ?= my)%positive;
    change (Pos.compare_cont Eq my mx) with (my ?= mx)%positive;
    rewrite (Pos.compare_antisym my mx); by destruct (my ?= mx)%positive.
Qed.

(** Maximum and minimum of numbers that are none of them NaN. *)
Lemma f64_max_ge a b : b <> S754_nan -> f64_le b (f64_max a b) = true.
Proof.
  intros Hb. destruct (decide (a = S754_nan)) as [->|Ha]; [by apply f64_le_refl|].
  assert (f64_max a b = if f64_lt a b then b else a) as -> by (by destruct a, b).
  destruct (f64_lt a b) eqn:E; [by apply f64_le_refl|].
  rewrite f64_lt_le in E by done. by destruct (f64_le b a).
Qed.
Lemma f64_max_cases a b : f64_max a b = a \/ f64_max a b = b.
Proof. destruct a, b; cbn [f64_max]; try (by auto); destruct (f64_lt _ _); auto. Qed.
Lemma f64_min_le a b : b <> S754_nan -> f64_le (f64_min a b) b = true.
Proof.
  intros Hb. destruct (decide (a = S754_nan)) as [->|Ha]; [by apply f64_le_refl|].
  assert (f64_min a b = if f64_lt b a then b else a) as -> by (by destruct a, b).
  destruct (f64_lt b a) eqn:E; [by apply f64_le_refl|].
  rewrite f64_lt_le in E by done. by destruct (f64_le a b).
Qed.

Lemma f64_eqb_cases x y : f64_eqb x y = true -> x <> S754_nan /\ (x = y \/ exists a b, x = S754_zero a /\ y = S754_zero b).
Proof.
  unfold f64_eqb, SFeqb, SFcompare.
  destruct x as [sx|[]| |sx mx ex], y as [sy|[]| |sy my ey]; try done; try (by destruct sx); try (by destruct sy);
    try (by eauto 10).
  destruct sx, sy; try done; destruct (Z.compare_spec ex ey) as [->|?|?]; cbn; try done;
    change (Pos.compare_cont Eq mx my) with (mx ?= my)%positive;
    destruct (Pos.compare_spec mx my) as [->|?|?]; cbn; by auto.
Qed.
Lemma f64_eqb_trans x y z : f64_eqb x y = true -> f64_eqb y z = true -> f64_eqb x z = true.
Proof.
  intros [Hx [->|(a & b & -> & ->)]]%f64_eqb_cases; [done|].
  intros [_ [<-|(? & c & [= ->] & ->)]]%f64_eqb_cases; done.
Qed.
Lemma f64_eqb_refl x : x <> S754_nan -> f64_eqb x x = true.
Proof.
  unfold f64_eqb, SFeqb, SFcompare. destruct x as [|[]| |[] m e]; try done; intros _;
    rewrite Z.compare_refl; cbn; change (Pos.compare_cont Eq m m) with (m ?= m)%positive; by rewrite Pos.compare_refl.
Qed.
End OrderFacts.

Lemma f64_ge_nan_l x : f64_ge S754_nan x = false.
Proof. by destruct x. Qed.
Lemma f64_le_finite a b : f64_le a b = true -> a <> S754_nan /\ b <> S754_nan.
Proof. by destruct a, b. Qed.

Example f64_quarter : f64_div f64_one (f64_of_Z 4) = S754_finite false 4503599627370496 (-54).
Proof. reflexivity. Qed.
Example f64_floor_quarter : f64_floor (f64_div f64_one (f64_of_Z 4)) = f64_zero.
Proof. reflexivity. Qed.
Example f64_ceil_five_halves : f64_ceil (f64_div (f64_of_Z 5) (f64_of_Z 2)) = f64_of_Z 3.
Proof. reflexivity. Qed.
