(* ===== verification/Mirror.v ===== *)
(** * Mirror: copies of requests for a second server

    Models [pg-kinetic-core/src/traffic/mirror.rs] and
    [pg-kinetic-proxy/src/ops/mirror.rs]: the safety classifier, the sampler
    ([splitmix64] and its comparison of doubles), the dispatcher with its
    semaphore, and the conversation with the mirror. Dispatches and the tasks
    they spawn run concurrently as a [TaskSystem]; the connection of a mirror
    task is an [Auth.ClientStream]. Telemetry fields that nothing reads are
    left out of the observations. *)

From S2P Require Import Prelude Text Protocol Frame BackendWire Route RoutingTypes Sql Session ReadRouting Secrets Auth AuthQuery Tasks F64.

Inductive MirrorMode := MirrorOff | MirrorReadOnly | MirrorExplicit.
#[global] Instance MirrorMode_eq_dec : EqDecision MirrorMode.
Proof. solve_decision. Defined.
Definition mode_is_enabled (m : MirrorMode) : bool := negb (bool_decide (m = MirrorOff)).

Record MirrorTarget := { mirror_address : SocketAddr; isolated : bool }.

Inductive MirrorSafetyGate :=
| GateDisabled | TargetConfigured | TargetIsolated | Writes | Transactions | CopyGate
| ListenNotifyGate | TempTableGate | SessionMutationGate | Sampling.
Inductive MirrorReason :=
| ReasonDisabled | Eligible | TargetMissing | TargetSharedWithProduction | WritesDisabled
| TransactionsDisabled | CopyDisabled | ListenNotifyDisabled | TempTableDisabled
| SessionMutationDisabled | SampledOut | UnsupportedMode.
Inductive MirrorOutcome := Skipped | Mirrored | MirrorRejected.
#[global] Instance MirrorOutcome_eq_dec : EqDecision MirrorOutcome.
Proof. solve_decision. Defined.

Record MirrorDecision := {
  decision_mode : MirrorMode;
  safety_gate : MirrorSafetyGate;
  decision_reason : MirrorReason;
  decision_outcome : MirrorOutcome;
}.
Definition mirrored (m : MirrorMode) (g : MirrorSafetyGate) : MirrorDecision :=
  {| decision_mode := m; safety_gate := g; decision_reason := Eligible; decision_outcome := Mirrored |}.
Definition skipped (m : MirrorMode) (g : MirrorSafetyGate) (r : MirrorReason) : MirrorDecision :=
  {| decision_mode := m; safety_gate := g; decision_reason := r; decision_outcome := Skipped |}.
Definition rejected (m : MirrorMode) (g : MirrorSafetyGate) (r : MirrorReason) : MirrorDecision :=
  {| decision_mode := m; safety_gate := g; decision_reason := r; decision_outcome := MirrorRejected |}.

(** [MirrorSample]. *)
Definition sample_new (rate : f64) : f64 :=
  if is_finite rate then f64_clamp rate f64_zero f64_one else f64_zero.
Definition should_sample (rate sample : f64) : bool :=
  is_finite sample && f64_ge sample f64_zero && f64_le sample rate.

Record MirrorSafetyConfig := {
  mirror_writes_enabled : bool;
  mirror_transactions_enabled : bool;
  mirror_copy_enabled : bool;
  mirror_listen_notify_enabled : bool;
  mirror_temp_table_enabled : bool;
  mirror_session_mutation_enabled : bool;
  mirror_require_isolated_target : bool;
}.
Definition safety_default : MirrorSafetyConfig := {|
  mirror_writes_enabled := false; mirror_transactions_enabled := false; mirror_copy_enabled := false;
  mirror_listen_notify_enabled := false; mirror_temp_table_enabled := false;
  mirror_session_mutation_enabled := false; mirror_require_isolated_target := true |}.

Record MirrorTask := {
  task_session_id : Z;
  task_query_id : Z;
  task_route_key : RouteKey;
  task_route_target : RoutingTarget;
  task_command : SqlCommand;
  task_startup_packet : bytes;
  replay_frames : list FrontendFrame;
  task_frames : list FrontendFrame;
  session_pin_reason : option Virtual.PinReason;
}.

Definition supported_frame (f : FrontendFrame) : bool :=
  (tag f =? frontend_byte Query) || (tag f =? frontend_byte Parse) || (tag f =? frontend_byte Bind)
  || (tag f =? frontend_byte Describe) || (tag f =? frontend_byte Execute)
  || (tag f =? frontend_byte Close) || (tag f =? frontend_byte Sync).
Definition has_supported_protocol_state (t : MirrorTask) : bool := forallb supported_frame (task_frames t).

Record MirrorDispatchConfig := {
  production_target : SocketAddr;
  target : option MirrorTarget;
  mode : MirrorMode;
  sample_rate : f64;
  safety : MirrorSafetyConfig;
  max_in_flight : Z;
}.

(** [MirrorDispatchConfig::disabled]. *)
Definition dispatch_disabled (production : SocketAddr) : MirrorDispatchConfig := {|
  production_target := production; target := None; mode := MirrorOff; sample_rate := f64_zero;
  safety := safety_default; max_in_flight := 0 |}.

(** ** The classifier *)

(** The gate and the reason of a pin. *)
Definition pin_gate (r : Virtual.PinReason) : MirrorSafetyGate * MirrorReason :=
  match r with
  | Virtual.OpenTransaction | Virtual.FailedTransaction => (Transactions, TransactionsDisabled)
  | Virtual.CopyPin => (CopyGate, CopyDisabled)
  | Virtual.ListenNotify => (ListenNotifyGate, ListenNotifyDisabled)
  | Virtual.TempTable => (TempTableGate, TempTableDisabled)
  | Virtual.SessionStatePin | Virtual.AdvisoryLockPin => (SessionMutationGate, SessionMutationDisabled)
  | Virtual.UnknownProtocolState => (GateDisabled, UnsupportedMode)
  end.

Definition gate_enabled (s : MirrorSafetyConfig) (g : MirrorSafetyGate) : bool :=
  match g with
  | Writes => mirror_writes_enabled s
  | Transactions => mirror_transactions_enabled s
  | CopyGate => mirror_copy_enabled s
  | ListenNotifyGate => mirror_listen_notify_enabled s
  | TempTableGate => mirror_temp_table_enabled s
  | SessionMutationGate => mirror_session_mutation_enabled s
  | GateDisabled | TargetConfigured | TargetIsolated | Sampling => false
  end.

(** The gate of a command, [None] for a plain query. *)
Definition command_gate (c : SqlCommand) : option (MirrorSafetyGate * MirrorReason) :=
  match c with
  | CmdQuery => None
  | CmdBegin _ | CmdCommit | CmdRollback | CmdSetTransaction _ => Some (Transactions, TransactionsDisabled)
  | CmdSet _ _ _ | CmdReset _ | CmdDiscardAll | CmdDiscardTemp | CmdDiscardPlans | CmdCreateTemp
  | CmdAdvisoryLock | CmdAdvisoryUnlock => Some (SessionMutationGate, SessionMutationDisabled)
  | CmdCopy => Some (CopyGate, CopyDisabled)
  | CmdListen | CmdUnlisten => Some (ListenNotifyGate, ListenNotifyDisabled)
  end.

Definition is_write_class (c : RouteClass.QueryClass) : bool :=
  match c with RouteClass.Write | RouteClass.Maintenance => true | _ => false end.

(** A gate that the mode or the configuration keeps closed. *)
Definition closed (c : MirrorDispatchConfig) (g : MirrorSafetyGate) : bool :=
  bool_decide (mode c = MirrorReadOnly) || negb (gate_enabled (safety c) g).

Definition classify (c : MirrorDispatchConfig) (t : MirrorTask) : MirrorDecision :=
  let m := mode c in
  if negb (mode_is_enabled m) then skipped m GateDisabled ReasonDisabled
  else
    match target c with
    | None => rejected m TargetConfigured TargetMissing
    | Some tg =>
        if mirror_require_isolated_target (safety c) && negb (isolated tg)
           && bool_decide (mirror_address tg = production_target c)
        then rejected m TargetIsolated TargetSharedWithProduction
        else
          match task_route_target t with
          | ToReject TPolicyDenied => rejected m GateDisabled ReasonDisabled
          | ToWait _ | ToReject _ => skipped m GateDisabled UnsupportedMode
          | _ =>
              if negb (has_supported_protocol_state t) then skipped m GateDisabled UnsupportedMode
              else if is_write_class (rk_query_class (task_route_key t)) && closed c Writes
              then skipped m Writes WritesDisabled
              else
                let after_command :=
                  match session_pin_reason t with
                  | Some r =>
                      let '(g, reason) := pin_gate r in
                      if closed c g then skipped m g reason else mirrored m Sampling
                  | None => mirrored m Sampling
                  end in
                match command_gate (task_command t) with
                | Some (g, reason) => if closed c g then skipped m g reason else after_command
                | None => after_command
                end
          end
    end.

(** ** The sampler *)

Definition DEFAULT_MIRROR_SEED : Z := 9103849545872662253.

Definition rotate_left (x k : Z) : Z := wrap_u 64 (Z.lor (Z.shiftl x k) (Z.shiftr x (64 - k))).

Definition splitmix64 (value : Z) : Z :=
  let value := wrap_u 64 (value + 11400714819323198485) in
  let r := wrap_u 64 (Z.lxor value (Z.shiftr value 30) * 13787848793156543929) in
  let r := wrap_u 64 (Z.lxor r (Z.shiftr r 27) * 10723151780598845931) in
  Z.lxor r (Z.shiftr r 31).

Definition sample_mantissa (seed session_id query_id : Z) : Z :=
  Z.shiftr (splitmix64 (Z.lxor (Z.lxor seed (rotate_left session_id 17)) (rotate_left query_id 41))) 11.

Definition sample_value (seed session_id query_id : Z) : f64 :=
  f64_div (f64_of_Z (sample_mantissa seed session_id query_id)) (f64_of_Z (2 ^ 53 - 1)).

Definition should_mirror (rate : f64) (session_id query_id : Z) : bool :=
  should_sample (sample_new rate) (sample_value DEFAULT_MIRROR_SEED session_id query_id).

(** ** The conversation with the mirror *)

Definition DEFAULT_MIRROR_BUFFER_BYTES : Z := 65536.

Definition auth_request_code (payload : bytes) : result error Z :=
  match payload with
  | a :: b :: c :: d :: _ => Ok (i32_from_be_bytes a b c d)
  | _ => fail "authentication request missing code"
  end.
Definition auth_request_expects_client_response (payload : bytes) : result error bool :=
  code ← auth_request_code payload;
  Ok ((code =? 3) || ((5 <=? code) && (code <=? 11))).

(** One frame: [true] ends the wait. *)
Definition mirror_frame (f : BackendFrame) : result error bool :=
  if btag f =? backend_byte Authentication then
    code ← auth_request_code (bpayload f);
    expects ← auth_request_expects_client_response (bpayload f);
    if negb (code =? 0) && expects then fail "backend requires client authentication" else Ok false
  else if btag f =? backend_byte ErrorResponse then fail "backend returned error"
  else Ok (btag f =? backend_byte ReadyForQuery).

Fixpoint mirror_frames (fuel : nat) (buffer : bytes) : result error (option bytes) :=
  match fuel with
  | O => Panic
  | S fuel =>
      match parse_backend_frame buffer with
      | Err e => Err (EWire e)
      | Panic => Panic
      | Ok (None, buffer) => Ok (Some buffer)
      | Ok (Some f, buffer) =>
          ready ← mirror_frame f;
          if ready : bool then Ok None else mirror_frames fuel buffer
      end
  end.

Fixpoint drain_until_ready (rs : list (option bytes)) (buffer : bytes) : result error unit * list (option bytes) :=
  if DEFAULT_MIRROR_BUFFER_BYTES <=? len buffer then (fail "buffer limit exceeded", rs)
  else
    match rs with
    | [] => (fail "backend disconnected", [])
    | None :: rs => (Err (EContext (lit "read") EIo), rs)
    | Some chunk :: rs =>
        if len chunk =? 0 then (fail "backend disconnected", rs)
        else
          let buffer := buffer ++ chunk in
          if DEFAULT_MIRROR_BUFFER_BYTES <? len buffer then (fail "buffer limit exceeded", rs)
          else
            match mirror_frames (S (length buffer)) buffer with
            | Err e => (Err e, rs)
            | Panic => (Panic, rs)
            | Ok None => (Ok tt, rs)
            | Ok (Some buffer) => drain_until_ready rs buffer
            end
    end.
Definition drain_backend_until_ready : Session unit := fun c =>
  let '(r, rs) := drain_until_ready (reads c) [] in (r, with_reads c rs).

Fixpoint write_frames (what : string) (fs : list FrontendFrame) : Session unit :=
  match fs with
  | [] => mret tt
  | f :: fs => _ ← with_context what (write_all (encode_frontend_frame f)); write_frames what fs
  end.

(** [run_default_mirror_task], after the connection was made. *)
Definition run_default_mirror_task (c : MirrorDispatchConfig) (t : MirrorTask) : Session unit :=
  match target c with
  | None => lift (fail "mirror target is unavailable")
  | Some _ =>
      _ ← with_context "write mirror startup" (write_all (task_startup_packet t));
      _ ← drain_backend_until_ready;
      _ ← write_frames "write mirror replay frame" (replay_frames t);
      _ ← write_frames "write mirror query frame" (task_frames t);
      drain_backend_until_ready
  end.

(** ** The dispatcher *)

Inductive MirrorTaskStatus :=
| Completed | TimedOut | TaskError
| DroppedFor (r : MirrorReason) | SkippedFor (r : MirrorReason) | RejectedFor (r : MirrorReason).

Record MirrorObservation := { observed_decision : MirrorDecision; observed_status : MirrorTaskStatus }.

(** The semaphore's free permits and the recorder. *)
Record Dispatcher := {
  config : MirrorDispatchConfig;
  permits : Z;
  observations : list MirrorObservation;
}.
Definition dispatcher_new (c : MirrorDispatchConfig) : Dispatcher :=
  {| config := c; permits := max_in_flight c; observations := [] |}.
Definition record_observation (d : Dispatcher) (o : MirrorObservation) : Dispatcher :=
  {| config := config d; permits := permits d; observations := observations d ++ [o] |}.
Definition add_permits (d : Dispatcher) (n : Z) : Dispatcher :=
  {| config := config d; permits := permits d + n; observations := observations d |}.
(** [MirrorDispatcher::in_flight]. *)
Definition in_flight (d : Dispatcher) : Z := sat_sub (max_in_flight (config d)) (permits d).

(** [Dispatch] to [Acquire] are [dispatch], [Running] is the spawned task
    with its permit, [Observed] the task before it drops the permit. *)
Inductive Phase :=
| Dispatch (t : MirrorTask)
| Sample (t : MirrorTask) (d : MirrorDecision)
| Acquire (t : MirrorTask) (d : MirrorDecision)
| Running (t : MirrorTask) (d : MirrorDecision)
| Observed (t : MirrorTask) (d : MirrorDecision)
| Returned (d : MirrorDecision).

Definition status_of (d : MirrorDecision) : MirrorTaskStatus :=
  match decision_outcome d with
  | Mirrored => Completed
  | Skipped => SkippedFor (decision_reason d)
  | MirrorRejected => RejectedFor (decision_reason d)
  end.

Definition sampled_out (m : MirrorMode) : MirrorDecision := skipped m Sampling SampledOut.
Definition drop_task (g : Dispatcher) (m : MirrorMode) : Dispatcher * Phase :=
  (record_observation g {| observed_decision := sampled_out m; observed_status := DroppedFor SampledOut |},
   Returned (sampled_out m)).

Definition dispatch_step (g : Dispatcher) (p : Phase) : list (Dispatcher * Phase) :=
  match p with
  | Dispatch t =>
      let d := classify (config g) t in
      if bool_decide (decision_outcome d = Mirrored) then [(g, Sample t d)]
      else [(record_observation g {| observed_decision := d; observed_status := status_of d |}, Returned d)]
  | Sample t d =>
      if should_mirror (sample_rate (config g)) (task_session_id t) (task_query_id t)
      then [(g, Acquire t d)] else [drop_task g (mode (config g))]
  | Acquire t d =>
      if 0 <? permits g then [(add_permits g (-1), Running t d)] else [drop_task g (mode (config g))]
  | Running t d =>
      (fun s => (record_observation g {| observed_decision := d; observed_status := s |}, Observed t d))
        <$> [Completed; TaskError; TimedOut]
  | Observed t d => [(add_permits g 1, Returned d)]
  | Returned _ => []
  end.

#[global] Instance mirror_tasks : TaskSystem Dispatcher Phase unit := {
  task_step := dispatch_step;
  task_drop _ _ := None;
  task_start p := match p with Dispatch _ => true | _ => false end;
  env_step _ g := g;
}.

Section MirrorFacts.
(** What a task must be for a copy of it to be sent. *)
Definition may_mirror (c : MirrorDispatchConfig) (t : MirrorTask) : Prop :=
  mode c <> MirrorOff
  /\ (exists tg, target c = Some tg
        /\ (mirror_require_isolated_target (safety c) = true -> isolated tg = false ->
              mirror_address tg <> production_target c))
  /\ (exists r, task_route_target t = ToPrimary r \/ exists k, task_route_target t = ToReplica k r)
  /\ Forall (fun f => supported_frame f = true) (task_frames t)
  /\ (is_write_class (rk_query_class (task_route_key t)) = true ->
        mode c = MirrorExplicit /\ mirror_writes_enabled (safety c) = true)
  /\ (forall g r, command_gate (task_command t) = Some (g, r) ->
        mode c = MirrorExplicit /\ gate_enabled (safety c) g = true)
  /\ (forall r, session_pin_reason t = Some r ->
        mode c = MirrorExplicit /\ gate_enabled (safety c) (fst (pin_gate r)) = true).

Lemma closed_false c g :
  mode c <> MirrorOff -> closed c g = false -> mode c = MirrorExplicit /\ gate_enabled (safety c) g = true.
Proof.
  intros Hm Hc. unfold closed in Hc. apply orb_false_iff in Hc as [Hr Hg].
  apply bool_decide_eq_false in Hr. apply negb_false_iff in Hg. by destruct (mode c).
Qed.

Lemma classify_safe c t : decision_outcome (classify c t) = Mirrored -> may_mirror c t.
Proof.
  unfold classify, mode_is_enabled.
  destruct (negb (negb (bool_decide (mode c = MirrorOff)))) eqn:Hm; [done|].
  rewrite negb_involutive in Hm. apply bool_decide_eq_false in Hm.
  destruct (target c) as [tg|] eqn:Ht; [|done].
  destruct (_ && _ && _) eqn:Hiso; [done|].
  destruct (task_route_target t) as [r|k r|r|r] eqn:Hr; [| |done|by destruct r].
  all: destruct (has_supported_protocol_state t) eqn:Hs; [|done]; cbn [negb];
    destruct (is_write_class _ && _) eqn:Hw; [done|]; intros Ho;
    (split; [done|]);
    (split; [exists tg; split; [done|]; intros H1 H2 H3; rewrite H1, H2 in Hiso; cbn in Hiso;
             by apply bool_decide_eq_false in Hiso|]);
    (split; [eauto|]);
    (split; [apply Forall_forall; intros f Hf; unfold has_supported_protocol_state in Hs;
             rewrite forallb_forall in Hs; by apply Hs, list_elem_of_In|]);
    (split; [intros Hc; rewrite Hc in Hw; cbn in Hw; by apply (closed_false c Writes)|]);
    destruct (command_gate (task_command t)) as [[g reason]|] eqn:Hg;
    [destruct (closed c g) eqn:Hcl; [done|]|];
    (split; [intros g' r' Hgr; try done; injection Hgr as <- <-; by apply closed_false|]);
    intros pr Hpr; rewrite Hpr in Ho; destruct (pin_gate pr) as [pg preason] eqn:Hpg;
    destruct (closed c pg) eqn:Hcp; try done; by apply closed_false.
Qed.

Lemma read_only_is_plain c t :
  mode c = MirrorReadOnly -> may_mirror c t ->
  task_command t = CmdQuery /\ session_pin_reason t = None
  /\ is_write_class (rk_query_class (task_route_key t)) = false.
Proof.
  intros Hm (_ & _ & _ & _ & Hw & Hc & Hp). split; [|split].
  - destruct (task_command t); cbn in Hc; try done; (destruct (Hc _ _ eq_refl); congruence).
  - destruct (session_pin_reason t); [destruct (Hp _ eq_refl); congruence|done].
  - destruct (is_write_class _); [destruct (Hw eq_refl); congruence|done].
Qed.

Definition holds (p : Phase) : Z := match p with Running _ _ | Observed _ _ => 1 | _ => 0 end.
Definition observed (p : Phase) : Z := match p with Observed _ _ | Returned _ => 1 | _ => 0 end.
Definition phase_safe (c : MirrorDispatchConfig) (p : Phase) : Prop :=
  match p with
  | Sample t d | Acquire t d | Running t d | Observed t d => may_mirror c t
  | _ => True
  end.

Definition mirror_inv (c : MirrorDispatchConfig) (g : Dispatcher) (ts : list Phase) : Prop :=
  config g = c /\ 0 <= permits g /\ permits g + total holds ts = max_in_flight c
  /\ len (observations g) = total observed ts /\ Forall (phase_safe c) ts.

Lemma mirror_inv_moves c g ts i p g' p' :
  mirror_inv c g ts -> ts !! i = Some p -> (g', p') ∈ dispatch_step g p -> mirror_inv c g' (<[i := p']> ts).
Proof.
  intros (Hc & H0 & Hp & Ho & Hs) Hi Hst. pose proof (proj1 (Forall_lookup _ _) Hs _ _ Hi) as Hsp.
  unfold mirror_inv. rewrite !(total_insert _ _ _ p) by done.
  assert (forall o, len (observations g ++ [o]) = len (observations g) + 1) as Hlen
    by (intros o; rewrite len_app; done).
  destruct p; cbn in Hst; outcomes; try (unfold drop_task in Hst; injection Hst as -> ->); cbn [config permits observations
      record_observation add_permits holds observed] in *; rewrite ?Hlen;
    repeat split; try done; try lia; try (cbn; lia); apply Forall_insert; try done.
  - apply classify_safe. by apply bool_decide_eq_true in Heqb.
Qed.

Lemma mirror_inv_runs c s :
  0 <= max_in_flight c -> Runs (fun _ => True) (dispatcher_new c) s -> mirror_inv c (shared s) (tasks s).
Proof.
  intros Hm. apply runs_invariant.
  - repeat split; try done; cbn; lia.
  - intros *. apply mirror_inv_moves.
  - done.
  - intros g ts p (Hc & H0 & Hp & Ho & Hs) Ht. destruct p; try done. unfold mirror_inv.
    rewrite !total_snoc. cbn. repeat split; try done; try lia. apply Forall_app. split; [done|]. by constructor.
  - done.
Qed.
End MirrorFacts.

(** C28. At any time at most [max_in_flight] copies are being sent; every copy
    is of a request that mode, target, route, frames, class, command and pin
    allow; the dispatcher's own count is right; and every dispatch that is
    over has left exactly one observation. *)
Theorem mirroring_bounded c s :
  0 <= max_in_flight c -> Runs (fun _ => True) (dispatcher_new c) s ->
  total holds (tasks s) <= max_in_flight c
  /\ in_flight (shared s) = total holds (tasks s)
  /\ (forall t d, Running t d ∈ tasks s -> may_mirror c t)
  /\ len (observations (shared s)) = total observed (tasks s).
Proof.
  intros Hm Hr. destruct (mirror_inv_runs c s Hm Hr) as (Hc & H0 & Hp & Ho & Hs).
  pose proof (total_nonneg holds (tasks s) ltac:(by intros [])).
  split; [lia|]. split; [unfold in_flight, sat_sub; rewrite Hc; lia|]. split; [|done].
  intros t d Hin. by apply (proj1 (Forall_forall _ _) Hs _ Hin).
Qed.

(** ** Scenarios *)

Definition insert_task : MirrorTask := {|
  task_session_id := 1; task_query_id := 1;
  task_route_key := route_key_new (lit "db") (lit "u") None None RouteClass.Default;
  task_route_target := ToPrimary TWriteQuery; task_command := CmdQuery; task_startup_packet := [];
  replay_frames := [];
  task_frames := [{| tag := frontend_byte Query; payload := encode_utf8 (lit "INSERT INTO t VALUES (1)") ++ [0] |}];
  session_pin_reason := None |}.

Definition read_only_mirror : MirrorDispatchConfig := {|
  production_target := V4 1 5432; target := Some {| mirror_address := V4 2 5432; isolated := true |};
  mode := MirrorReadOnly; sample_rate := f64_one; safety := safety_default; max_in_flight := 1 |}.

(** Sessions build their route keys with the class [Default], which the gate
    for writes does not look at: a mirror in mode read_only, with writes
    disabled, is sent an INSERT. *)
Lemma read_only_mirrors_writes :
  classify read_only_mirror insert_task = mirrored MirrorReadOnly Sampling
  /\ should_mirror (sample_rate read_only_mirror) 1 1 = true.
Proof. by vm_compute. Qed.

Lemma mirroring_bounded_witness :
  exists s, Runs (fun _ => True) (dispatcher_new read_only_mirror) s
    /\ tasks s !! 0%nat = Some (Running insert_task (mirrored MirrorReadOnly Sampling))
    /\ tasks s !! 1%nat = Some (Returned (sampled_out MirrorReadOnly))
    /\ in_flight (shared s) = 1 /\ total holds (tasks s) <= 1.
Proof.
  destruct (perform_all (Sys (dispatcher_new read_only_mirror) [])
              [Start (Dispatch insert_task); Go 0 0; Go 0 0; Go 0 0;
               Start (Dispatch insert_task); Go 1 0; Go 1 0; Go 1 0]) as [s|] eqn:E; [|by vm_compute in E].
  assert (Runs (fun _ => True) (dispatcher_new read_only_mirror) s) as Hr
    by (eapply schedule; [|exact E]; by apply Forall_forall).
  exists s. split; [done|].
  pose proof (mirroring_bounded read_only_mirror s ltac:(vm_compute; congruence) Hr) as (Hle & _ & _ & _).
  vm_compute in E. injection E as <-. repeat (split; [reflexivity|]). exact Hle.
Defined.

(** Where the two ends of the sampler's range are. *)
Lemma sampler_ends :
  should_sample f64_one (f64_div (f64_of_Z (2 ^ 53 - 1)) (f64_of_Z (2 ^ 53 - 1))) = true
  /\ should_sample f64_zero (f64_div (f64_of_Z 0) (f64_of_Z (2 ^ 53 - 1))) = true
  /\ should_sample f64_zero (f64_div (f64_of_Z 1) (f64_of_Z (2 ^ 53 - 1))) = false
  /\ sample_new S754_nan = f64_zero /\ sample_new (S754_infinity false) = f64_zero.
Proof. by vm_compute. Qed.
