(* ===== verification/Pressure.v ===== *)
(** * Pressure: limits of the machine and of routes

    Models [pg-kinetic-proxy/src/net/limits.rs] (reading control-group limits
    and pressure-stall numbers) and [net/pressure.rs] ([pressure_step] and
    [PressureController::tick]), with [PressureConfig] of [config.rs]. The
    contents of the files are arguments, [None] for one that cannot be read;
    the clock and the snapshot for the console are left out. *)

From S2P Require Import Prelude Text F64.

(** ** Reading numbers *)

(** [str::parse::<f64>]: an optional sign, then a name of infinity or NaN or
    digits with an optional point and exponent; the value is the nearest
    double, which [SFdiv] of integers of any size gives. *)
Definition f64_of_ratio (negative : bool) (m d : Z) : f64 :=
  match m, d with
  | Z.pos m, Z.pos d => SFdiv PREC EMAX (S754_finite negative m 0) (S754_finite false d 0)
  | _, _ => S754_zero negative
  end.

Fixpoint take_digits (s : str) : str * str :=
  match s with
  | c :: r => if is_ascii_digit c then let '(ds, r) := take_digits r in (c :: ds, r) else ([], s)
  | [] => ([], [])
  end.

Definition parse_exponent (s : str) : option Z :=
  match s with
  | [] => Some 0
  | c :: r =>
      if (c =? 101) || (c =? 69) then
        let '(negative, r) := match r with
                              | 45 :: r => (true, r)
                              | 43 :: r => (false, r)
                              | _ => (false, r)
                              end in
        match take_digits r with
        | (_ :: _ as ds, []) => Some (if negative : bool then - dec_value ds else dec_value ds)
        | _ => None
        end
      else None
  end.

Definition parse_f64 (s : str) : option f64 :=
  let '(negative, r) := match s with
                        | 45 :: r => (true, r)
                        | 43 :: r => (false, r)
                        | _ => (false, s)
                        end in
  if eq_ignore_ascii_case r (lit "nan") then Some S754_nan
  else if eq_ignore_ascii_case r (lit "inf") || eq_ignore_ascii_case r (lit "infinity")
  then Some (S754_infinity negative)
  else
    let '(whole, r) := take_digits r in
    let '(fraction, r) := match r with 46 :: r => take_digits r | _ => ([], r) end in
    match whole ++ fraction with
    | [] => None
    | digits =>
        e ← parse_exponent r;
        let e := e - len fraction in
        Some (f64_of_ratio negative (dec_value digits * 10 ^ Z.max 0 e) (10 ^ Z.max 0 (- e)))
    end.

(** ** Limits *)

Record ResourceLimits := { cpu_quota : option f64; mem_limit_bytes : option Z }.
Record Pressure := { cpu_some_avg10 : f64; mem_some_avg10 : f64 }.

Definition parse_cpu_max (contents : str) : option f64 :=
  match split_whitespace contents with
  | quota :: period :: _ =>
      if str_eqb quota (lit "max") then None
      else
        quota ← parse_u64 quota;
        period ← parse_u64 period;
        if (quota =? 0) || (period =? 0) then None
        else Some (f64_div (f64_of_Z quota) (f64_of_Z period))
  | _ => None
  end.

Definition parse_memory_max (contents : str) : option Z :=
  match split_whitespace contents with
  | value :: _ =>
      if str_eqb value (lit "max") then None
      else v ← parse_u64 value; if 0 <? v then Some v else None
  | [] => None
  end.

Definition detect_cgroup_limits (cpu_max memory_max : option str) : ResourceLimits :=
  {| cpu_quota := cpu_max ≫= parse_cpu_max; mem_limit_bytes := memory_max ≫= parse_memory_max |}.

Definition parse_pressure_some_avg10 (contents : str) : option f64 :=
  some_line ← List.find (starts_with (lit "some ")) (lines contents);
  field ← head (omap (strip_prefix (lit "avg10=")) (split_whitespace some_line));
  avg10 ← parse_f64 field;
  if is_finite avg10 then Some avg10 else None.

Definition read_pressure (cpu memory : option str) : option Pressure :=
  c ← cpu ≫= parse_pressure_some_avg10;
  m ← memory ≫= parse_pressure_some_avg10;
  Some {| cpu_some_avg10 := c; mem_some_avg10 := m |}.

(** ** The step *)

Record PressureConfig := {
  enabled : bool;
  cpu_high_pct : f64;
  mem_high_pct : f64;
  min_in_flight_floor : Z;
  window_ms : Z;
}.

Definition validate_pressure_threshold (v : f64) : bool :=
  is_finite v && f64_le f64_zero v && f64_le v (f64_of_Z 100).
Definition pressure_config_valid (c : PressureConfig) : bool :=
  validate_pressure_threshold (cpu_high_pct c) && validate_pressure_threshold (mem_high_pct c)
  && negb (min_in_flight_floor c =? 0) && negb (window_ms c =? 0).

Inductive PressureAction := Hold | Reduce | Restore.
#[global] Instance PressureAction_eq_dec : EqDecision PressureAction.
Proof. solve_decision. Defined.

Record PressureDecision := {
  action : PressureAction;
  route_in_flight_limit : Z;
  pressured : bool;
}.

Definition is_pressured (c : PressureConfig) (p : option Pressure) : bool :=
  match p with
  | Some p => f64_ge (cpu_some_avg10 p) (cpu_high_pct c) || f64_ge (mem_some_avg10 p) (mem_high_pct c)
  | None => false
  end.

Definition floor_of (c : PressureConfig) (configured_limit : Z) : Z :=
  Z.min (Z.max (min_in_flight_floor c) 1) configured_limit.

Definition pressure_step (current_limit configured_limit : Z) (p : option Pressure) (c : PressureConfig)
    : PressureDecision :=
  let configured_limit := Z.max configured_limit 1 in
  let current_limit := Z.min (Z.max current_limit 1) configured_limit in
  if negb (enabled c) then
    {| action := if current_limit <? configured_limit then Restore else Hold;
       route_in_flight_limit := configured_limit; pressured := false |}
  else
    let floor := floor_of c configured_limit in
    if is_pressured c p then
      let reduction := Z.max (current_limit / 4) 1 in
      let next := Z.max (sat_sub current_limit reduction) floor in
      {| action := if next <? current_limit then Reduce else Hold;
         route_in_flight_limit := next; pressured := true |}
    else if current_limit <? configured_limit then
      let restore := Z.max (configured_limit / 10) 1 in
      {| action := Restore;
         route_in_flight_limit := Z.min (sat_add current_limit restore) configured_limit;
         pressured := false |}
    else {| action := Hold; route_in_flight_limit := configured_limit; pressured := false |}.

(** [tick]: the new shared limit and whether cached buffers are trimmed. *)
Definition tick (limit configured : Z) (p : option Pressure) (c : PressureConfig) : Z * bool :=
  let d := pressure_step limit (Z.max configured 1) p c in
  (route_in_flight_limit d,
   bool_decide (action d = Reduce)
   && match p with Some p => f64_ge (mem_some_avg10 p) (mem_high_pct c) | None => false end).

(** The limit after a sequence of readings. *)
Fixpoint ticks (limit configured : Z) (c : PressureConfig) (ps : list (option Pressure)) : Z :=
  match ps with
  | [] => limit
  | p :: ps => ticks (fst (tick limit configured p c)) configured c ps
  end.

Section PressureFacts.
Context (c : PressureConfig) (configured : Z).
Hypothesis Hconf : 1 <= configured <= U64_MAX.

Lemma tick_range limit p : 1 <= fst (tick limit configured p c) <= configured.
Proof.
  unfold tick, pressure_step, floor_of, sat_sub, sat_add. cbn [fst].
  rewrite !(Z.max_l configured 1) by lia. repeat case_match; cbn; lia.
Qed.

Lemma tick_pressured limit p :
  enabled c = true -> is_pressured c p = true -> floor_of c configured <= limit <= configured ->
  let next := fst (tick limit configured p c) in
  floor_of c configured <= next <= limit /\ (floor_of c configured < limit -> next < limit).
Proof.
  intros He Hp Hl. unfold tick, pressure_step. cbn [fst]. rewrite !(Z.max_l configured 1) by lia.
  rewrite He, Hp. cbn. assert (1 <= floor_of c configured) by (unfold floor_of; lia).
  rewrite (Z.max_l limit 1), (Z.min_l limit configured) by lia. unfold sat_sub.
  pose proof (Z.div_pos limit 4 ltac:(lia) ltac:(lia)). lia.
Qed.

Lemma tick_calm limit p :
  enabled c = true -> is_pressured c p = false -> 1 <= limit <= configured ->
  let next := fst (tick limit configured p c) in
  limit <= next <= configured /\ (limit < configured -> limit < next).
Proof.
  intros He Hp Hl. unfold tick, pressure_step. cbn [fst]. rewrite !(Z.max_l configured 1) by lia.
  rewrite He, Hp. cbn. rewrite (Z.max_l limit 1), (Z.min_l limit configured) by lia. unfold sat_add.
  destruct (Z.ltb_spec limit configured); cbn; lia.
Qed.

Lemma ticks_down ps limit :
  enabled c = true -> Forall (fun p => is_pressured c p = true) ps ->
  floor_of c configured <= limit <= configured ->
  floor_of c configured <= ticks limit configured c ps <= Z.max (floor_of c configured) (limit - len ps).
Proof.
  intros He Hps. revert limit. induction Hps as [|p ps Hp _ IH]; intros limit Hl; cbn [ticks].
  - unfold len. cbn. lia.
  - destruct (tick_pressured limit p He Hp Hl) as [Hr Hd]. specialize (IH (fst (tick limit configured p c)) ltac:(lia)).
    pose proof (len_nonneg ps). rewrite len_cons. destruct (decide (floor_of c configured < limit)) as [Hlt|]; [specialize (Hd Hlt)|]; lia.
Qed.

Lemma ticks_up ps limit :
  enabled c = true -> Forall (fun p => is_pressured c p = false) ps -> 1 <= limit <= configured ->
  Z.min configured (limit + len ps) <= ticks limit configured c ps <= configured.
Proof.
  intros He Hps. revert limit. induction Hps as [|p ps Hp _ IH]; intros limit Hl; cbn [ticks].
  - unfold len. cbn. lia.
  - destruct (tick_calm limit p He Hp Hl) as [Hr Hd]. specialize (IH (fst (tick limit configured p c)) ltac:(lia)).
    pose proof (len_nonneg ps). rewrite len_cons. destruct (decide (limit < configured)) as [Hlt|]; [specialize (Hd Hlt)|]; lia.
Qed.
End PressureFacts.

(** Every tick leaves a limit between 1 and the configured one; under
    lasting pressure the limit falls strictly until it stands on the floor,
    and without pressure it climbs strictly back to the configured limit;
    neither takes more ticks than the limit has units. *)
Theorem pressure_converges c configured limit ps :
  1 <= configured <= U64_MAX -> enabled c = true ->
  (forall p, 1 <= fst (tick limit configured p c) <= configured)
  /\ (Forall (fun p => is_pressured c p = true) ps -> floor_of c configured <= limit <= configured ->
      limit <= len ps -> ticks limit configured c ps = floor_of c configured)
  /\ (Forall (fun p => is_pressured c p = false) ps -> 1 <= limit <= configured ->
      configured <= len ps -> ticks limit configured c ps = configured).
Proof.
  intros Hconf He. split; [intros p; by apply tick_range|]. split; intros Hps Hl Hn.
  - pose proof (ticks_down c configured Hconf ps limit He Hps Hl).
    assert (1 <= floor_of c configured) by (unfold floor_of; lia). lia.
  - pose proof (ticks_up c configured Hconf ps limit He Hps Hl). lia.
Qed.

Definition psi (s : string) : option Pressure := read_pressure (Some (lit s)) (Some (lit "some avg10=0.00")).
Definition pressure_defaults : PressureConfig := {|
  enabled := true; cpu_high_pct := f64_of_Z 20; mem_high_pct := f64_of_Z 10; min_in_flight_floor := 4;
  window_ms := 5000 |}.

Lemma pressure_converges_witness :
  ticks 16 32 pressure_defaults (replicate 16 (psi "some avg10=25.5 avg60=1.00")) = 4
  /\ ticks 12 32 pressure_defaults (replicate 32 (psi "some avg10=3.25")) = 32.
Proof.
  destruct (pressure_converges pressure_defaults 32 16 (replicate 16 (psi "some avg10=25.5 avg60=1.00"))
              ltac:(vm_compute; split; congruence) eq_refl) as (_ & Hdown & _).
  destruct (pressure_converges pressure_defaults 32 12 (replicate 32 (psi "some avg10=3.25"))
              ltac:(vm_compute; split; congruence) eq_refl) as (_ & _ & Hup).
  split.
  - rewrite Hdown; [reflexivity| |vm_compute; split; congruence|vm_compute; congruence].
    apply Forall_replicate. vm_compute. reflexivity.
  - apply Hup; [|vm_compute; split; congruence|vm_compute; congruence].
    apply Forall_replicate. vm_compute. reflexivity.
Defined.

Example reads_limits :
  detect_cgroup_limits (Some (lit "150000 100000")) (Some (lit "536870912"))
  = {| cpu_quota := Some (f64_div (f64_of_Z 3) (f64_of_Z 2)); mem_limit_bytes := Some 536870912 |}.
Proof. vm_compute. reflexivity. Qed.
Example reads_no_limits :
  detect_cgroup_limits (Some (lit "max 100000")) (Some (lit "0"))
  = {| cpu_quota := None; mem_limit_bytes := None |}.
Proof. vm_compute. reflexivity. Qed.
Example reads_decimal : parse_f64 (lit "12.34") = Some (S754_finite false 6946802425218990 (-49)).
Proof. vm_compute. reflexivity. Qed.
