(* ===== verification/Buffers.v ===== *)
(** * Buffers: reuse of session buffers

    Models [pg-kinetic-proxy/src/net/buffers.rs]: the buffers of a session,
    appending frames, trimming, and the pool that caches the buffers of
    finished sessions, shared by all of them. Every section under a lock is
    one step; [recycle] and [trim_cached] hold both locks, [acquire] takes
    them one after the other. How much memory a library gives for a request
    ([BytesMut], [Vec]) is a parameter with its documented bounds; the
    statistics counters are left out. *)

From S2P Require Import Prelude Text Protocol Frame BackendWire Tasks.

(** A [BytesMut] with its capacity, and the capacity last counted. *)
Record Buf := { content : bytes; capacity : Z; known_capacity : Z }.

Record SessionBufferSet := {
  client_read : Buf;
  backend_read : Buf;
  backend_write : Buf;
  client_write : Buf;
  backend_frames : list (bytes * bytes);
  frames_capacity : Z;
}.

Record BufferReusePolicy := {
  initial_capacity : Z;
  max_cached_sessions : Z;
  max_cached_bytes : Z;
}.

(** [ProxyBufferPool::new]: at least one byte at first, and what may be kept
    is never below it. *)
Definition reuse_policy_new (p : BufferReusePolicy) : BufferReusePolicy :=
  {| initial_capacity := Z.max (initial_capacity p) 1; max_cached_sessions := max_cached_sessions p;
     max_cached_bytes := max_cached_bytes p |}.
Definition max_retained_new (p : BufferReusePolicy) (max_retained_capacity : Z) : Z :=
  Z.max max_retained_capacity (Z.max (initial_capacity p) 1).

(** Memory as the libraries give it: the capacity of a new [BytesMut], of one
    that had to grow to hold some bytes, of a [Vec] after [shrink_to 64], and
    the size of a slot of [backend_frames]. *)
Class Allocator := {
  with_capacity : Z -> Z;
  grow : Z -> Z -> Z;
  shrink_to_64 : Z -> Z;
  slot_size : Z;
}.
Class AllocatorLaws (A : Allocator) := {
  with_capacity_enough n : 0 <= n -> n <= with_capacity n;
  grow_enough c n : 0 <= c -> 0 <= n -> Z.max c n <= grow c n;
  shrink_bounds c : 64 <= c -> 64 <= shrink_to_64 c <= c;
  slot_size_nonneg : 0 <= slot_size;
}.

Definition empty_buf : Buf := {| content := []; capacity := 0; known_capacity := 0 |}.
(** [SessionBufferSet::new]. *)
Definition set_new : SessionBufferSet :=
  {| client_read := empty_buf; backend_read := empty_buf; backend_write := empty_buf;
     client_write := empty_buf; backend_frames := []; frames_capacity := 0 |}.

Definition clear (b : Buf) : Buf :=
  {| content := []; capacity := capacity b; known_capacity := known_capacity b |}.

(** [observe_capacity], without its counters. *)
Definition observe_capacity (b : Buf) : Buf :=
  {| content := content b; capacity := capacity b;
     known_capacity := if known_capacity b <? capacity b then capacity b else known_capacity b |}.

Section Pool.
Context `{Allocator} (policy : BufferReusePolicy) (max_retained_capacity : Z).

(** [append_frame]. *)
Definition append_frame (b : Buf) (tag : Z) (payload : bytes) : Buf :=
  let content := content b ++ tag :: put_i32 (wrap_i 32 (len payload + 4)) ++ payload in
  {| content := content;
     capacity := if len content <=? capacity b then capacity b else grow (capacity b) (len content);
     known_capacity := known_capacity b |}.

Definition append_frontend_frame (s : SessionBufferSet) (tag : Z) (payload : bytes) : SessionBufferSet :=
  {| client_read := client_read s; backend_read := backend_read s;
     backend_write := observe_capacity (append_frame (backend_write s) tag payload);
     client_write := client_write s; backend_frames := backend_frames s; frames_capacity := frames_capacity s |}.
Definition append_backend_frame (s : SessionBufferSet) (tag : Z) (payload : bytes) : SessionBufferSet :=
  {| client_read := client_read s; backend_read := backend_read s; backend_write := backend_write s;
     client_write := observe_capacity (append_frame (client_write s) tag payload);
     backend_frames := backend_frames s; frames_capacity := frames_capacity s |}.

Definition trim_buffer (b : Buf) : Buf :=
  if bool_decide (content b = []) && (max_retained_capacity <? capacity b)
  then {| content := []; capacity := with_capacity (initial_capacity policy);
          known_capacity := initial_capacity policy |}
  else b.

Definition trim_empty_buffers (s : SessionBufferSet) : SessionBufferSet :=
  {| client_read := trim_buffer (client_read s); backend_read := trim_buffer (backend_read s);
     backend_write := trim_buffer (backend_write s); client_write := trim_buffer (client_write s);
     backend_frames := backend_frames s; frames_capacity := frames_capacity s |}.

Definition clear_backend_write (s : SessionBufferSet) : SessionBufferSet :=
  {| client_read := client_read s; backend_read := backend_read s;
     backend_write := trim_buffer (clear (backend_write s));
     client_write := client_write s; backend_frames := backend_frames s; frames_capacity := frames_capacity s |}.
Definition clear_client_write (s : SessionBufferSet) : SessionBufferSet :=
  {| client_read := client_read s; backend_read := backend_read s; backend_write := backend_write s;
     client_write := trim_buffer (clear (client_write s));
     backend_frames := backend_frames s; frames_capacity := frames_capacity s |}.

(** [take_backend_frames], [restore_backend_frames], [clear_backend_frames]. *)
Definition shrunk (c : Z) : Z := if 1024 <? c then shrink_to_64 c else c.
Definition with_frames (s : SessionBufferSet) (fs : list (bytes * bytes)) (c : Z) : SessionBufferSet :=
  {| client_read := client_read s; backend_read := backend_read s; backend_write := backend_write s;
     client_write := client_write s; backend_frames := fs; frames_capacity := c |}.
Definition take_backend_frames (s : SessionBufferSet) : SessionBufferSet * (list (bytes * bytes) * Z) :=
  (with_frames s [] 0, ([], shrunk (frames_capacity s))).
Definition restore_backend_frames (s : SessionBufferSet) (v : list (bytes * bytes) * Z) : SessionBufferSet :=
  with_frames s (fst v) (snd v).
Definition clear_backend_frames (s : SessionBufferSet) : SessionBufferSet :=
  with_frames s [] (shrunk (frames_capacity s)).

(** [prepare_for_reuse]. *)
Definition prepare_for_reuse (s : SessionBufferSet) : SessionBufferSet :=
  trim_empty_buffers
    {| client_read := clear (client_read s); backend_read := clear (backend_read s);
       backend_write := clear (backend_write s); client_write := clear (client_write s);
       backend_frames := []; frames_capacity := shrunk (frames_capacity s) |}.

Definition retained_capacity (s : SessionBufferSet) : Z :=
  capacity (client_read s) + capacity (backend_read s) + capacity (backend_write s)
  + capacity (client_write s) + frames_capacity s * slot_size.

(** ** The pool *)

Record ProxyBufferPool := { available : list SessionBufferSet; cached_session_bytes : Z }.
Definition pool_new : ProxyBufferPool := {| available := []; cached_session_bytes := 0 |}.

Fixpoint retained (l : list SessionBufferSet) : Z :=
  match l with
  | [] => 0
  | s :: l => retained_capacity s + retained l
  end.

(** [available.pop()]: the last one. *)
Definition pop (p : ProxyBufferPool) : option (SessionBufferSet * ProxyBufferPool) :=
  match reverse (available p) with
  | [] => None
  | s :: r => Some (s, {| available := reverse r; cached_session_bytes := cached_session_bytes p |})
  end.

Definition recycle (p : ProxyBufferPool) (s : SessionBufferSet) : ProxyBufferPool :=
  let s := prepare_for_reuse s in
  if (len (available p) <? max_cached_sessions policy)
     && (sat_add (cached_session_bytes p) (retained_capacity s) <=? max_cached_bytes policy)
  then {| available := available p ++ [s];
          cached_session_bytes := cached_session_bytes p + retained_capacity s |}
  else p.

Definition trim_cached (p : ProxyBufferPool) : ProxyBufferPool :=
  let l := trim_empty_buffers <$> available p in
  {| available := l; cached_session_bytes := retained l |}.

Definition subtract (p : ProxyBufferPool) (n : Z) : ProxyBufferPool :=
  {| available := available p; cached_session_bytes := sat_sub (cached_session_bytes p) n |}.

(** [Acquire] and [Adjust] are [acquire]; [Leased] has the buffers; [Return]
    is the drop of a lease, with the buffers as the session leaves them. *)
Inductive Phase :=
| Acquire
| Adjust (s : SessionBufferSet)
| Leased (s : SessionBufferSet)
| Return (s : SessionBufferSet)
| Gone.

Definition buffer_step (p : ProxyBufferPool) (ph : Phase) : list (ProxyBufferPool * Phase) :=
  match ph with
  | Acquire =>
      match pop p with
      | Some (s, p) => [(p, Adjust s)]
      | None => [(p, Leased set_new)]
      end
  | Adjust s => [(subtract p (retained_capacity s), Leased s)]
  | Return s => [(recycle p s, Gone)]
  | Leased _ | Gone => []
  end.
End Pool.

Section PoolFacts.
Context `{A : Allocator} {L : AllocatorLaws A} (policy : BufferReusePolicy) (max_retained : Z).
Hypothesis Hinitial : 0 <= initial_capacity policy.

(** A set as Rust can have it. *)
Definition wf_buf (b : Buf) : bool := len (content b) <=? capacity b.
Definition wf_set (s : SessionBufferSet) : bool :=
  wf_buf (client_read s) && wf_buf (backend_read s) && wf_buf (backend_write s) && wf_buf (client_write s)
  && (len (backend_frames s) <=? frames_capacity s).

#[local] Instance buffer_tasks : TaskSystem ProxyBufferPool Phase unit := {
  task_step := buffer_step policy max_retained;
  task_drop _ _ := None;
  task_start p := match p with Acquire => true | Return s => wf_set s | _ => false end;
  env_step _ p := trim_cached policy max_retained p;
}.

Definition small (c : Z) : Prop := 0 <= c <= Z.max max_retained (with_capacity (initial_capacity policy)).
Definition clean_buf (b : Buf) : Prop := content b = [] /\ small (capacity b).
(** Nothing of another session, and no oversized buffer. *)
Definition clean (s : SessionBufferSet) : Prop :=
  clean_buf (client_read s) /\ clean_buf (backend_read s) /\ clean_buf (backend_write s)
  /\ clean_buf (client_write s) /\ backend_frames s = [] /\ 0 <= frames_capacity s.

Lemma trim_clear b : wf_buf b = true -> clean_buf (trim_buffer policy max_retained (clear b)).
Proof.
  intros Hw. apply Z.leb_le in Hw. pose proof (len_nonneg (content b)).
  pose proof (with_capacity_enough (initial_capacity policy) Hinitial).
  unfold trim_buffer, clean_buf, small. cbn.
  destruct (Z.ltb_spec max_retained (capacity b)); cbn; split; try done; lia.
Qed.

Lemma trim_clean b : clean_buf b -> clean_buf (trim_buffer policy max_retained b).
Proof.
  intros [Hc Hs]. pose proof (with_capacity_enough (initial_capacity policy) Hinitial).
  unfold trim_buffer, clean_buf, small in *. rewrite bool_decide_eq_true_2 by done. cbn.
  destruct (Z.ltb_spec max_retained (capacity b)); cbn; split; try done; lia.
Qed.

Lemma shrunk_nonneg c : 0 <= c -> 0 <= shrunk c.
Proof. intros Hc. unfold shrunk. destruct (Z.ltb_spec 1024 c); [|lia]. pose proof (shrink_bounds c). lia. Qed.

Lemma prepare_clean s : wf_set s = true -> clean (prepare_for_reuse policy max_retained s).
Proof.
  unfold wf_set. rewrite !andb_true_iff. intros [[[[H1 H2] H3] H4] H5]. apply Z.leb_le in H5.
  pose proof (len_nonneg (backend_frames s)).
  repeat split; try (by apply trim_clear); try (by apply trim_clear in H1 as []); apply shrunk_nonneg; lia.
Qed.

Lemma trim_set_clean s : clean s -> clean (trim_empty_buffers policy max_retained s).
Proof. intros (? & ? & ? & ? & ? & ?). repeat split; try (by apply trim_clean); done. Qed.

Lemma clean_retained s : clean s -> 0 <= retained_capacity s.
Proof.
  intros ([_ ?] & [_ ?] & [_ ?] & [_ ?] & _ & ?). unfold small in *. unfold retained_capacity.
  pose proof slot_size_nonneg. nia.
Qed.

Definition pending (p : Phase) : Z := match p with Adjust s => retained_capacity s | _ => 0 end.
Definition phase_clean (p : Phase) : Prop :=
  match p with
  | Adjust s | Leased s => clean s
  | Return s => wf_set s = true
  | _ => True
  end.

(** Without and with the books. *)
Definition pool_clean (p : ProxyBufferPool) (ts : list Phase) : Prop :=
  Forall clean (available p) /\ len (available p) <= Z.max 0 (max_cached_sessions policy)
  /\ Forall phase_clean ts.
Definition pool_books (p : ProxyBufferPool) (ts : list Phase) : Prop :=
  pool_clean p ts
  /\ cached_session_bytes p = retained (available p) + total pending ts
  /\ cached_session_bytes p <= max_cached_bytes policy.

Lemma retained_app l k : retained (l ++ k) = retained l + retained k.
Proof. induction l as [|s l IH]; cbn; lia. Qed.

Lemma pop_spec p s p' :
  pop p = Some (s, p') ->
  available p = available p' ++ [s] /\ cached_session_bytes p' = cached_session_bytes p.
Proof.
  unfold pop. destruct (reverse (available p)) as [|x r] eqn:E; [done|]. intros [= <- <-]. cbn.
  split; [|done]. apply (f_equal reverse) in E. by rewrite reverse_involutive, reverse_cons in E.
Qed.

Lemma set_new_clean : clean set_new.
Proof.
  pose proof (with_capacity_enough (initial_capacity policy) Hinitial).
  repeat split; cbn; unfold small; lia.
Qed.

Lemma pool_clean_moves p ts i ph p' ph' :
  pool_clean p ts -> ts !! i = Some ph -> (p', ph') ∈ buffer_step policy max_retained p ph ->
  pool_clean p' (<[i := ph']> ts).
Proof.
  intros (Ha & Hn & Hts) Hi Hst. pose proof (proj1 (Forall_lookup _ _) Hts _ _ Hi) as Hph.
  destruct ph; cbn in Hst.
  - destruct (pop p) as [[s q]|] eqn:Ep; outcomes.
    + apply pop_spec in Ep as [Ea _]. rewrite Ea in Ha, Hn. apply Forall_app in Ha as [Ha Hs].
      rewrite len_app in Hn. split; [done|]. split; [unfold len in *; cbn in *; lia|].
      apply Forall_insert; [done|]. by inversion Hs.
    + split; [done|]. split; [done|]. apply Forall_insert; [done|]. apply set_new_clean.
  - outcomes. split; [done|]. split; [done|]. by apply Forall_insert.
  - outcomes.
  - outcomes. unfold recycle. destruct (_ && _) eqn:Hfit.
    + apply andb_prop in Hfit as [Hc _]. apply Z.ltb_lt in Hc. split; [|split].
      * apply Forall_app. split; [done|]. constructor; [by apply prepare_clean|done].
      * cbn. rewrite len_app. unfold len in *. cbn. lia.
      * by apply Forall_insert.
    + split; [done|]. split; [done|]. by apply Forall_insert.
  - outcomes.
Qed.

Lemma total_lookup_on {P} (w : P -> Z) ts i p (good : P -> Prop) :
  (forall q, good q -> 0 <= w q) -> Forall good ts -> ts !! i = Some p -> w p <= total w ts.
Proof.
  intros Hw Hts. revert i. induction Hts as [|q ts Hq Hts IH]; intros [|i] Hi; try done; cbn in *.
  - injection Hi as ->. assert (0 <= total w ts); [|lia].
    clear -Hw Hts. induction Hts as [|x l Hx _ IH]; cbn; [lia|]. specialize (Hw x Hx). lia.
  - specialize (IH i Hi). specialize (Hw q Hq). lia.
Qed.

Lemma pool_books_moves p ts i ph p' ph' :
  max_cached_bytes policy < U64_MAX ->
  pool_books p ts -> ts !! i = Some ph -> (p', ph') ∈ buffer_step policy max_retained p ph ->
  pool_books p' (<[i := ph']> ts).
Proof.
  intros Hmax (Hcl & Hb & Hle) Hi Hst. split; [by eapply pool_clean_moves|].
  destruct Hcl as (Ha & Hn & Hts). pose proof (proj1 (Forall_lookup _ _) Hts _ _ Hi) as Hph.
  rewrite (total_insert _ _ _ ph) by done.
  destruct ph as [|s|s|s|]; cbn in Hst.
  - destruct (pop p) as [[s q]|] eqn:Ep; outcomes; [|cbn; lia].
    apply pop_spec in Ep as [Ea Ec]. rewrite Ea, retained_app in Hb. cbn in *. lia.
  - outcomes. cbn. unfold sat_sub. pose proof (clean_retained s Hph).
    assert (0 <= retained (available p)) as Hr.
    { clear -Ha L Hinitial. induction Ha as [|x l Hx _ IH]; cbn; [lia|]. pose proof (clean_retained x Hx). lia. }
    assert (retained_capacity s <= total pending ts) as Ht.
    { apply (total_lookup_on pending ts i (Adjust s) phase_clean); [|done|done].
      intros [] Hq; cbn in *; try lia. by apply clean_retained. }
    lia.
  - outcomes.
  - outcomes. unfold recycle. destruct (_ && _) eqn:Hfit; cbn; [|lia].
    apply andb_prop in Hfit as [_ Hf]. apply Z.leb_le in Hf. unfold sat_add in Hf.
    rewrite retained_app. cbn. lia.
  - outcomes.
Qed.

Lemma pool_clean_runs s :
  Runs (fun _ => True) pool_new s -> pool_clean (shared s) (tasks s).
Proof.
  apply runs_invariant.
  - split; [constructor|]. split; [unfold len; cbn; lia|constructor].
  - intros *. apply pool_clean_moves.
  - done.
  - intros p ts ph (Ha & Hn & Hts) Hs. split; [done|]. split; [done|]. apply Forall_app.
    split; [done|]. constructor; [by destruct ph|done].
  - intros p ts [] _ (Ha & Hn & Hts). split; [|split; [|done]]; cbn.
    + apply Forall_fmap. eapply Forall_impl; [exact Ha|]. intros x. apply trim_set_clean.
    + unfold len in *. by rewrite length_fmap.
Qed.

Definition untrimmed (ev : event unit) : Prop := match ev with Environment _ => False | _ => True end.

Lemma pool_books_runs s :
  0 <= max_cached_bytes policy < U64_MAX ->
  Runs untrimmed pool_new s -> pool_books (shared s) (tasks s).
Proof.
  intros Hmax. apply runs_invariant.
  - split; [|cbn; lia]. split; [constructor|]. split; [unfold len; cbn; lia|constructor].
  - intros *. apply pool_books_moves. lia.
  - done.
  - intros p ts ph ((Ha & Hn & Hts) & Hb & Hle) Hs. split; [|rewrite total_snoc; destruct ph; try done; cbn; lia].
    split; [done|]. split; [done|]. apply Forall_app. split; [done|]. constructor; [by destruct ph|done].
  - intros p ts e [].
Qed.
End PoolFacts.

(** C29. Sessions never see one another's bytes: whatever a session leaves in
    its buffers, and however acquiring, returning and trimming interleave, a
    session is lent empty buffers that are not oversized, and at most
    [max_cached_sessions] sets are cached. As long as no trim runs, the cached
    sets together keep at most [max_cached_bytes]. *)
Theorem buffer_reuse_safe `{A : Allocator} {L : AllocatorLaws A} policy max_retained s :
  0 <= initial_capacity policy -> 0 <= max_cached_bytes policy < U64_MAX ->
  Runs (H := buffer_tasks policy max_retained) (fun _ => True) pool_new s ->
  (forall b, Leased b ∈ tasks s -> clean policy max_retained b)
  /\ len (available (shared s)) <= Z.max 0 (max_cached_sessions policy)
  /\ (Runs (H := buffer_tasks policy max_retained) untrimmed pool_new s ->
      retained (available (shared s)) <= max_cached_bytes policy).
Proof.
  intros Hi Hmax Hr. destruct (pool_clean_runs policy max_retained Hi s Hr) as (Ha & Hn & Hts).
  split; [|split; [done|]].
  - intros b Hb. apply (proj1 (Forall_forall _ _) Hts _ Hb).
  - intros Hu. destruct (pool_books_runs policy max_retained Hi s Hmax Hu) as ((_ & _ & Hp) & Hb & Hle).
    assert (0 <= total pending (tasks s)); [|lia].
    clear -Hp L Hi. induction Hp as [|x l Hx _ IH]; cbn; [lia|].
    destruct x as [|x|x|x|]; cbn in *; try lia. pose proof (clean_retained policy max_retained x Hx). lia.
Qed.

(** An allocator that gives what is asked for. *)
Definition exact : Allocator := {|
  with_capacity n := n; grow := Z.max; shrink_to_64 _ := 64; slot_size := 40 |}.
#[local] Instance exact_laws : AllocatorLaws exact.
Proof. split; cbn; lia. Qed.

Definition small_policy : BufferReusePolicy :=
  {| initial_capacity := 16; max_cached_sessions := 2; max_cached_bytes := 100 |}.
Definition used (n : Z) : SessionBufferSet :=
  with_frames (append_frontend_frame (H := exact) set_new 81 (replicate (Z.to_nat n) 1)) [] 0.

#[local] Existing Instance exact.
#[local] Instance small_tasks : TaskSystem ProxyBufferPool Phase unit := buffer_tasks small_policy 64.

Lemma buffer_reuse_safe_witness :
  exists s b, Runs (fun _ => True) pool_new s /\ Leased b ∈ tasks s /\ clean small_policy 64 b
    /\ retained_capacity b = 35 /\ retained (available (shared s)) <= 100.
Proof.
  set (cs := [Start (Return (used 30)); Go 0 0; Start Acquire; Go 1 0; Go 1 0] : list (choice Phase unit)).
  destruct (perform_all (Sys pool_new []) cs) as [s|] eqn:E; [|by vm_compute in E].
  assert (Runs untrimmed pool_new s) as Hu
    by (eapply schedule; [|exact E]; subst cs; repeat constructor).
  assert (Runs (fun _ => True) pool_new s) as Hr by (by eapply runs_weaken; [|exact Hu]).
  destruct (buffer_reuse_safe small_policy 64 s ltac:(cbn; lia) ltac:(vm_compute; split; congruence) Hr)
    as (Hc & _ & Hb).
  assert (exists b, Leased b ∈ tasks s /\ retained_capacity b = 35) as (b & Hin & H35).
  { vm_compute in E. injection E as <-. eexists. cbn. split; [right; left|reflexivity]. }
  exists s, b. split; [done|]. split; [done|]. split; [by apply Hc|]. split; [done|]. by apply Hb.
Defined.

(** A trim between the two steps of an [acquire] counts the remaining sets,
    and the [acquire] then subtracts its own once more: the pool keeps more
    bytes than its limit. *)
Lemma trim_undercounts :
  exists s, perform_all (Sys pool_new [])
      [Start (Return (used 45)); Go 0 0; Start (Return (used 45)); Go 1 0;
       Start Acquire; Go 2 0; Outside tt; Go 2 0; Start (Return (used 55)); Go 3 0] = Some s
    /\ retained (available (shared s)) = 110 /\ cached_session_bytes (shared s) = 60.
Proof. eexists. split; [vm_compute; reflexivity|]. by vm_compute. Qed.
