(* ===== verification/QueryStats.v ===== *)
(** * QueryStats: the busiest queries

    Models [pg-kinetic-proxy/src/query_stats.rs]. The statistics are eight
    shards of at most 64 fingerprints, each behind a mutex, so [record] is
    one step on its shard. The hash of a fingerprint and the order in which a
    [HashMap] is iterated are not specified by the language and are
    parameters, with what is documented about them. *)

From S2P Require Import Prelude Text Order F64.

Definition SHARD_COUNT : Z := 8.
Definition SHARD_CAPACITY : Z := 64.
Definition TOP_QUERY_LIMIT : nat := 32.
Definition SAMPLE_LIMIT : nat := 256.

Record QueryStat := {
  sample : str;
  count : Z;
  errors : Z;
  rows : Z;
  total_latency_ms : f64;
}.
Record QueryStatView := { fingerprint : str; stat : QueryStat }.

Abbreviation Shard := (gmap str QueryStat).

(** [DefaultHasher] and the iteration order of a map. *)
Class Hashing := { hash : str -> Z; iter : Shard -> list (str * QueryStat) }.
Class HashingLaws (H : Hashing) := {
  hash_range s : u_range 64 (hash s);
  iter_perm m : iter m ≡ₚ map_to_list m;
}.

(** [truncate]: the first 256 characters. *)
Definition truncate (value : str) : str := take SAMPLE_LIMIT value.

(** [Duration::as_secs_f64] times a thousand; a latency is in nanoseconds. *)
Definition latency_ms (latency : Z) : f64 :=
  f64_mul (f64_add (f64_of_Z (latency / 1000000000))
                   (f64_div (f64_of_Z (latency mod 1000000000)) (f64_of_Z 1000000000)))
          (f64_of_Z 1000).

Definition stat_new (text : str) : QueryStat :=
  {| sample := truncate text; count := 0; errors := 0; rows := 0; total_latency_ms := f64_zero |}.
Definition stat_add (s : QueryStat) (latency more_rows : Z) (error : bool) : QueryStat :=
  {| sample := sample s; count := sat_add (count s) 1;
     errors := sat_add (errors s) (if error then 1 else 0); rows := sat_add (rows s) more_rows;
     total_latency_ms := f64_add (total_latency_ms s) (latency_ms latency) |}.

(** [Iterator::min_by_key]: the first of the least elements. *)
Fixpoint min_by_count (best : str * QueryStat) (l : list (str * QueryStat)) : str * QueryStat :=
  match l with
  | [] => best
  | x :: l => min_by_count (if count (snd x) <? count (snd best) then x else best) l
  end.

Section Stats.
Context `{Hashing}.

Definition shard_index (value : str) : nat := Z.to_nat (hash value mod SHARD_COUNT).

(** [QueryStats::record] on its shard. *)
Definition record_in_shard (m : Shard) (fp text : str) (latency more_rows : Z) (error : bool) : Shard :=
  let s := stat_add (default (stat_new text) (m !! fp)) latency more_rows error in
  let m := <[fp := s]> m in
  if SHARD_CAPACITY <? Z.of_nat (size m) then
    match iter m with
    | x :: l => delete (fst (min_by_count x l)) m
    | [] => m
    end
  else m.

Definition record (shards : list Shard) (fp text : str) (latency more_rows : Z) (error : bool) : list Shard :=
  let i := shard_index fp in
  match shards !! i with
  | Some m => <[i := record_in_shard m fp text latency more_rows error]> shards
  | None => shards
  end.

Definition stats_new : list Shard := replicate 8 ∅.

(** [top]: by count downwards, then by fingerprint. *)
Definition view_le (a b : QueryStatView) : bool :=
  if count (stat b) <? count (stat a) then true
  else if count (stat a) <? count (stat b) then false
  else str_le (fingerprint a) (fingerprint b).
Definition views (shards : list Shard) : list QueryStatView :=
  shards ≫= fun m => (fun kv => {| fingerprint := fst kv; stat := snd kv |}) <$> iter m.
Definition top (shards : list Shard) : list QueryStatView :=
  take TOP_QUERY_LIMIT (sort_by view_le (views shards)).

(** [{:02}] of a shard index. *)
Definition metric_bucket (shards : list Shard) (fp : str) : str :=
  if existsb (fun v => str_eqb (fingerprint v) fp) (top shards)
  then lit "query_" ++ (let n := Z.of_nat (shard_index fp) mod 32 in
                        if n <? 10 then 48 :: fmt_u64 n else fmt_u64 n)
  else lit "other".
End Stats.

Section StatsFacts.
Context {H : Hashing} {HL : HashingLaws H}.

Lemma min_in best l : min_by_count best l ∈ best :: l.
Proof.
  revert best. induction l as [|x l IH]; intros best; cbn; [left|].
  destruct (count (snd x) <? count (snd best)).
  - specialize (IH x). set_solver.
  - specialize (IH best). set_solver.
Qed.

Lemma min_least best l y : y ∈ best :: l -> count (snd (min_by_count best l)) <= count (snd y).
Proof.
  revert best y. induction l as [|x l IH]; intros best y Hy; cbn.
  - apply list_elem_of_singleton in Hy as ->. lia.
  - destruct (Z.ltb_spec (count (snd x)) (count (snd best))) as [Hlt|Hge].
    + apply elem_of_cons in Hy as [->|Hy]; [|by apply IH]. specialize (IH x x ltac:(left)). lia.
    + apply elem_of_cons in Hy as [->|Hy]; [by apply IH; left|].
      apply elem_of_cons in Hy as [->|Hy]; [|by apply IH; right].
      specialize (IH best best ltac:(left)). lia.
Qed.

(** What a full shard does: it loses an entry with a least count. *)
Lemma record_shrinks m fp text latency more error :
  let m' := record_in_shard m fp text latency more error in
  let grown := <[fp := stat_add (default (stat_new text) (m !! fp)) latency more error]> m in
  m' = grown /\ (Z.of_nat (size grown) <= SHARD_CAPACITY)
  \/ exists k s, grown !! k = Some s /\ m' = delete k grown
       /\ SHARD_CAPACITY < Z.of_nat (size grown)
       /\ forall k' s', grown !! k' = Some s' -> count s <= count s'.
Proof.
  cbv zeta. unfold record_in_shard. set (grown := <[fp := _]> m).
  destruct (Z.ltb_spec SHARD_CAPACITY (Z.of_nat (size grown))) as [Hlt|]; [|by left].
  right. pose proof (iter_perm grown) as Hp. destruct (iter grown) as [|x l].
  { apply Permutation_nil in Hp. apply map_to_list_empty_iff, map_size_empty_iff in Hp. rewrite Hp in Hlt.
    by unfold SHARD_CAPACITY in Hlt. }
  assert (forall y, y ∈ x :: l -> grown !! fst y = Some (snd y)) as Hl.
  { intros [k s] Hy. rewrite Hp in Hy. by apply elem_of_map_to_list in Hy. }
  exists (fst (min_by_count x l)), (snd (min_by_count x l)).
  split; [apply Hl, min_in|]. split; [done|]. split; [done|].
  intros k' s' Hk. apply (min_least x l (k', s')). rewrite Hp. by apply elem_of_map_to_list.
Qed.

Definition shard_ok (m : Shard) : Prop :=
  Z.of_nat (size m) <= SHARD_CAPACITY
  /\ map_Forall (fun _ s => 1 <= count s <= U64_MAX /\ (length (sample s) <= SAMPLE_LIMIT)%nat) m.

Lemma size_insert_le (m : Shard) k s : Z.of_nat (size (<[k := s]> m)) <= Z.of_nat (size m) + 1.
Proof. rewrite map_size_insert. case_match; cbn; lia. Qed.

Lemma record_shard_ok m fp text latency more error :
  shard_ok m -> shard_ok (record_in_shard m fp text latency more error).
Proof.
  intros [Hs Hm].
  assert (map_Forall (fun _ s => 1 <= count s <= U64_MAX /\ (length (sample s) <= SAMPLE_LIMIT)%nat)
            (<[fp := stat_add (default (stat_new text) (m !! fp)) latency more error]> m)) as Hg.
  { apply map_Forall_insert_2; [|done]. cbn. unfold sat_add.
    destruct (m !! fp) as [s|] eqn:E; cbn.
    - destruct (Hm fp s E) as [Hc Hl]. unfold U64_MAX in *. split; [lia|done].
    - unfold truncate. rewrite length_take. split; [vm_compute; split; congruence|apply Nat.le_min_l]. }
  pose proof (record_shrinks m fp text latency more error) as Hr. cbv zeta in Hr.
  destruct Hr as [[-> Hle]|(k & s & Hk & -> & _ & _)]; [done|].
  split; [|by apply map_Forall_delete].
  rewrite map_size_delete_Some by eauto.
  pose proof (size_insert_le m fp (stat_add (default (stat_new text) (m !! fp)) latency more error)). lia.
Qed.

Lemma record_ok shards fp text latency more error :
  length shards = 8%nat -> Forall shard_ok shards ->
  length (record shards fp text latency more error) = 8%nat
  /\ Forall shard_ok (record shards fp text latency more error).
Proof.
  intros Hl Hs. unfold record. destruct (shards !! _) as [m|] eqn:E; [|done].
  rewrite length_insert. split; [done|]. apply Forall_insert; [done|].
  apply record_shard_ok. by apply (proj1 (Forall_lookup _ _) Hs _ _ E).
Qed.

Lemma view_le_total a b : view_le a b = false -> view_le b a = true.
Proof.
  unfold view_le. destruct (Z.ltb_spec (count (stat b)) (count (stat a))); [done|].
  destruct (Z.ltb_spec (count (stat a)) (count (stat b))); [done|]. apply lex_le_total.
Qed.

Lemma view_le_trans a b c : view_le a b = true -> view_le b c = true -> view_le a c = true.
Proof.
  unfold view_le, str_le.
  destruct (Z.ltb_spec (count (stat b)) (count (stat a))), (Z.ltb_spec (count (stat a)) (count (stat b))),
    (Z.ltb_spec (count (stat c)) (count (stat b))), (Z.ltb_spec (count (stat b)) (count (stat c))),
    (Z.ltb_spec (count (stat c)) (count (stat a))), (Z.ltb_spec (count (stat a)) (count (stat c)));
    try lia; try done. apply lex_le_trans.
Qed.
End StatsFacts.

Record Observation := { o_fp : str; o_text : str; o_latency : Z; o_rows : Z; o_error : bool }.
Definition record_all `{Hashing} (os : list Observation) : list Shard :=
  foldl (fun st o => record st (o_fp o) (o_text o) (o_latency o) (o_rows o) (o_error o)) stats_new os.

Lemma record_all_ok {H : Hashing} {HL : HashingLaws H} os :
  length (record_all os) = 8%nat /\ Forall shard_ok (record_all os).
Proof.
  unfold record_all.
  assert (length stats_new = 8%nat /\ Forall shard_ok stats_new) as Hi.
  { split; [done|]. apply Forall_replicate. split; [by vm_compute|apply map_Forall_empty]. }
  revert Hi. generalize stats_new. induction os as [|o os IH]; intros st [Hl Hs]; [done|].
  cbn [foldl]. apply IH. by apply record_ok.
Qed.

Lemma sorted_app {A} (R : A -> A -> Prop) l k :
  StronglySorted R (l ++ k) -> StronglySorted R l /\ forall x y, x ∈ l -> y ∈ k -> R x y.
Proof.
  induction l as [|x l IH]; cbn; intros Hs.
  - split; [constructor|]. by intros x y ?%elem_of_nil.
  - apply StronglySorted_inv in Hs as [Hs Hx]. destruct (IH Hs) as [Hl Hc].
    apply Forall_app in Hx as [Hxl Hxk]. split; [by constructor|].
    intros a b Ha Hb. apply elem_of_cons in Ha as [->|Ha]; [|by apply Hc].
    by rewrite Forall_forall in Hxk; apply Hxk.
Qed.

(** However many different queries run, the statistics hold at most 64
    fingerprints in each of eight shards, with counts of at least one and
    samples of at most 256 characters; [top] lists at most 32 of them, in
    order, and what it leaves out comes after everything it lists. *)
Theorem query_stats_bounded {H : Hashing} {HL : HashingLaws H} os :
  let st := record_all os in
  length st = 8%nat /\ Forall shard_ok st
  /\ (length (top st) <= 32)%nat /\ ordered view_le (top st)
  /\ exists rest, top st ++ rest ≡ₚ views st
       /\ forall v w, v ∈ top st -> w ∈ rest -> view_le v w = true.
Proof.
  intros st. destruct (record_all_ok os) as [Hl Hs]. fold st in Hl, Hs.
  pose proof (sort_by_ordered view_le view_le_total view_le_trans (views st)) as Ho.
  split; [done|]. split; [done|]. unfold top, TOP_QUERY_LIMIT.
  rewrite <- (take_drop 32 (sort_by view_le (views st))) in Ho.
  apply sorted_app in Ho as [Ho Hcross].
  split; [rewrite length_take; lia|]. split; [done|].
  exists (drop 32 (sort_by view_le (views st))). split; [rewrite take_drop; apply sort_by_perm|].
  intros v w Hv Hw. by apply Hcross.
Qed.

(** Once a shard holds 64 fingerprints seen at least twice, a fingerprint it
    does not hold is forgotten each time it is recorded, however often. *)
Theorem new_queries_are_forgotten {H : Hashing} {HL : HashingLaws H} (m : Shard) fp text latency more error :
  Z.of_nat (size m) = SHARD_CAPACITY -> map_Forall (fun _ s => 2 <= count s) m -> m !! fp = None ->
  record_in_shard m fp text latency more error = m.
Proof.
  intros Hsize Hm Hfp. pose proof (record_shrinks m fp text latency more error) as Hr. cbv zeta in Hr.
  rewrite Hfp in Hr. cbn [default] in Hr.
  set (s1 := stat_add (stat_new text) latency more error) in *.
  assert (count s1 = 1) as Hone by (cbn; unfold sat_add, U64_MAX; lia).
  assert (Z.of_nat (size (<[fp := s1]> m)) = SHARD_CAPACITY + 1) as Hsz
    by (rewrite map_size_insert_None by done; lia).
  destruct Hr as [[_ Hle]|(k & s & Hk & -> & _ & Hleast)]; [unfold SHARD_CAPACITY in *; lia|].
  destruct (decide (k = fp)) as [->|Hne]; [by rewrite delete_insert_id|].
  rewrite lookup_insert_ne in Hk by done. specialize (Hm k s Hk). cbn in Hm.
  specialize (Hleast fp s1 (lookup_insert_eq _ _ _)). lia.
Qed.

(** Hashing by length, iteration in the order of the map. *)
Definition by_length : Hashing := {| hash s := len s mod 2 ^ 64; iter m := map_to_list m |}.
#[local] Instance by_length_laws : HashingLaws by_length.
Proof. split; [intros s; cbn; unfold u_range; apply Z.mod_pos_bound; lia|done]. Qed.

Lemma query_stats_example :
  let st := record_all (H := by_length)
    [{| o_fp := lit "a"; o_text := lit "A"; o_latency := 1500000; o_rows := 1; o_error := false |};
     {| o_fp := lit "bb"; o_text := lit "B"; o_latency := 1; o_rows := 2; o_error := true |};
     {| o_fp := lit "bb"; o_text := lit "B"; o_latency := 1; o_rows := 2; o_error := true |}] in
  (fun v => (fingerprint v, count (stat v), errors (stat v), rows (stat v))) <$> top (H := by_length) st
  = [(lit "bb", 2, 2, 4); (lit "a", 1, 0, 1)]
  /\ metric_bucket (H := by_length) st (lit "bb") = lit "query_02"
  /\ metric_bucket (H := by_length) st (lit "c") = lit "other".
Proof. by vm_compute. Qed.

Lemma query_stats_bounded_witness :
  (length (top (H := by_length) (record_all (H := by_length)
     [{| o_fp := lit "a"; o_text := lit "A"; o_latency := 1; o_rows := 1; o_error := false |}])) <= 32)%nat.
Proof. apply (query_stats_bounded (H := by_length)). Defined.
