(* ===== verification/SharedSession.v ===== *)
(** * The client session of the io_uring engine

    Models the variant of the client session that
    [pg-kinetic-proxy/src/proxy/client_session.rs] runs on the io_uring
    engine ([handle_client_session] and its helpers), [forward_runtime_cycle]
    of [proxy/forwarding.rs] and [proxy_connection] of [engine/io_uring.rs],
    which reads the first packet and starts the session. The variables are
    those of [Effects.Sess]: [client_read] is [client_buffer],
    [backend_read] is [backend_buffer], [pinned_backend] is
    [previous_backend_id]; [startup_proxied] is threaded through the loop.
    Statistics, audit sinks and snapshots are left out; of an audit record
    the fingerprint is kept, since taking it can panic. *)

From S2P Require Import Prelude Text Protocol Startup Frame BackendWire Secrets Auth Cycle Lsn RoutingTypes Route Policy.
From S2P Require Import Sharding ShardExtract Sql SqlClassify Fingerprint Session ReadRouting Prepare Pool Pools RequestPlan.
From S2P Require Import Guardrails Checkout Effects Login Forwarding Recovery ClientSession Admission Backpressure.

(** ** Forwarding a cycle *)

(** Where the answer goes: to the client, through the session's buffer, or
    nowhere, through a buffer of its own. *)
Inductive Sink := ToClient | Discarded (buffer : bytes).

Definition sink_load (k : Sink) : prog bytes :=
  match k with ToClient => s ← get; Ret (backend_read s) | Discarded bs => Ret bs end.
Definition sink_store (k : Sink) (bs : bytes) : prog Sink :=
  match k with
  | ToClient => _ ← modify (fun s => set_backend_read s bs); Ret ToClient
  | Discarded _ => Ret (Discarded bs)
  end.
Definition sink_write (k : Sink) (bs : bytes) : prog bool :=
  match k with ToClient => act (WriteClient bs) | Discarded _ => Ret true end.

(** [BackendForwardOutcome]. *)
Inductive BackendForwardOutcome := RtReady (status : ReadyStatus) | RtFlushed.

Definition flushed (d : BackendResponseDrain) : bool := negb (expects_ready d) && Cycle.flush_cycle_complete d.

(** One read of the server: an outcome, or another read. *)
Definition runtime_chunk (k : Sink) (max : Z) (d : BackendResponseDrain) (buffer : bytes)
    : fallible (BackendForwardOutcome + (Sink * BackendResponseDrain)) :=
  match lift_wire (drain_backend_response_bytes buffer d max) with
  | Err e => Ret (Err e)
  | Panic => Ret Panic
  | Ok (e, d, rest) =>
      k ← sink_store k rest;
      match e with
      | DrainedLimitExceeded => Ret (bail "backend response exceeded configured buffer limit")
      | DrainedNeedMoreBytes => Ret (Ok (inr (k, d)))
      | DrainedBytes bs ready =>
          sent ← (if bool_decide (bs = []) then Ret true else sink_write k bs);
          Ret (if negb sent then Err (Other EIo)
               else Ok (match ready with
                        | Some status => inl (RtReady status)
                        | None => if flushed d then inl RtFlushed else inr (k, d)
                        end))
      end
  end.

Fixpoint runtime_loop (fuel : nat) (b : Backend) (k : Sink) (max : Z) (d : BackendResponseDrain)
    : fallible BackendForwardOutcome :=
  match fuel with
  | O => Hang
  | S fuel =>
      e ← act (ReadBackend b);
      buffer ← sink_load k;
      match e with
      | ReadError | Eof | Chunk [] =>
          Ret (Err (BackendFailure FailRead (response_started d || negb (bool_decide (buffer = [])))))
      | Chunk ((_ :: _) as bs) =>
          k ← sink_store k (buffer ++ bs);
          next ←? runtime_chunk k max d (buffer ++ bs);
          match next with
          | inl outcome => Ret (Ok outcome)
          | inr (k, d) => runtime_loop fuel b k max d
          end
      end
  end.

Definition forward_runtime_cycle (b : Backend) (k : Sink) (cycle : bytes) (shape : FrontendCycleShape)
    (injected : nat) (max : Z) : fallible BackendForwardOutcome :=
  written ← act (WriteBackend b cycle);
  if negb written then Ret (Err (BackendFailure FailWrite false))
  else
    let d := for_cycle shape injected in
    if flushed d then Ret (Ok RtFlushed)
    else reads ← act Patience; runtime_loop reads b k max d.

(** ** Decisions *)

Definition should_reuse_held_backend (v : Virtual.VirtualSession) (held : option Z) : bool :=
  bool_decide (is_Some (Virtual.pin_reason v)) && bool_decide (is_Some held).
Definition should_replay_shared_session (v : Virtual.VirtualSession) (previous : option Z) (id : Z) : bool :=
  Virtual.has_replayable_settings v && negb (bool_decide (previous = Some id)).
Definition should_probe_read_after_write (committed protected : bool) (status : ReadyStatus) : bool :=
  committed && protected && bool_decide (status = RS_Idle).
Definition apply_read_after_write_probe_result (v : Virtual.VirtualSession) (lsn : option PgLsn)
    : Virtual.VirtualSession :=
  match lsn with
  | Some l => Virtual.set_read_after_write_required v l
  | None => Virtual.set_read_after_write_unknown v
  end.

(** ** What a client is told *)

Definition write_shared_error_response (sqlstate message : str) : fallible unit :=
  error_response_and_ready_with_state sqlstate message RS_Idle.
Definition write_shared_query_timeout_response : fallible unit :=
  write_shared_error_response (sqlstate_as_str QueryCanceled) (lit "query timed out").
Definition write_shared_idle_timeout_response (kind : IdleTimeoutKind) : fallible unit :=
  match kind with
  | IdleClient => write_shared_error_response (sqlstate_as_str OperatorIntervention) (lit "idle client timed out")
  | IdleTransaction => error_response_only (sqlstate_as_str OperatorIntervention) (lit "idle transaction timed out")
  end.

(** Whether the session goes on after a failed checkout. *)
Definition handle_shared_pool_checkout_error (e : PoolError) (overload_error_code : str) : fallible bool :=
  let told (m : string) := _ ←? write_shared_error_response overload_error_code (lit m); Ret (Ok true) in
  match e with
  | BackpressureFailure QueueFull => told "backend checkout queue is full"
  | BackpressureFailure Timeout => told "backend checkout timed out"
  | BackpressureFailure Closed => Ret (Ok false)
  | CircuitOpen => told "backend circuit breaker is open"
  | ConnectFailure => Ret (Err (Other EForeign))
  end.

Definition cleanup_held_shared_backend : prog unit :=
  s ← get;
  match held_backend s with
  | None => Ret tt
  | Some b => _ ← put (set_held s None); release_backend_with_cancel_unbind b
  end.
Definition cleanup_and {A} (r : result failure A) : fallible A := _ ← cleanup_held_shared_backend; Ret r.

(** A step whose failure discards the connection; a panic drops it. *)
Definition or_discard {A} (b : Backend) (p : fallible A) : fallible A :=
  r ← p;
  match r with
  | Ok a => Ret (Ok a)
  | Err e => _ ← discard_backend_with_cancel_unbind b; Ret (Err e)
  | Panic => _ ← act (DropLease b); Ret Panic
  end.

(** [probe_shared_read_after_write_requirement] reads like the probe of
    Recovery.v. *)
Definition probe_shared_read_after_write_requirement (b : Backend) (max : Z) : fallible PgLsn :=
  probe_read_after_write_requirement b max.

(** A login into buffers of its own. *)
Definition with_own_buffers {A} (p : fallible A) : fallible A :=
  s ← get;
  r ← p;
  _ ← modify (fun s' => set_client_read (set_backend_read s' (backend_read s)) (client_read s));
  Ret r.

Definition replay_bytes (replay : list FrontendFrame) : bytes := encode_frontend replay.

Inductive SharedOutcome := SharedContinue | SharedFinish.

Section WithConfig.
Context `{HC : Crypto} (adm : AdmissionConfig) (cfg : SessionConfig) (audit : bool).

Abbreviation max_backend := (max_backend_buffer_bytes cfg).

(** ** Sending the cycle, once or twice *)

Definition runtime_attempt (b : Backend) (planned : PlannedFrontendCycle) (shape : FrontendCycleShape)
    : prog (option (result failure BackendForwardOutcome)) :=
  timeout [] (forward_runtime_cycle b ToClient (pc_backend_bytes planned) shape
                (pc_injected_parse_completes planned) max_backend).

(** Whether the failure of the first attempt allows another; [None] is a
    panic. *)
Definition may_retry_shared (frames : list FrontendFrame) (plans : list RequestPlan) (v : Virtual.VirtualSession)
    (r : option (result failure BackendForwardOutcome)) : option bool :=
  match r with
  | Some (Err (BackendFailure kind started)) =>
      plain ← safe_request_to_replay frames plans v false;
      safe ← (if (plain : bool) then Some true
              else if failover_enabled cfg
              then safe_request_to_replay frames plans v (failover_replay_session_state cfg)
              else Some false);
      Some (bool_decide (retry_disposition kind started safe = RetryBeforeResponse))
  | _ => Some false
  end.

(** A connection for the second attempt. *)
Definition shared_replacement (route : RouteKey) (target : RoutingTarget) (replay : list FrontendFrame)
    : fallible Backend :=
  r ← act (Checkout route target AllowConnect);
  match r with
  | Err _ => Ret (bail "backend failover checkout failed")
  | Panic => Ret Panic
  | Ok b =>
      owning b
        (_ ←? bootstrap_backend (cfg_login cfg) b;
         if bool_decide (replay = []) then Ret (Ok b)
         else
           outcome ←? forward_runtime_cycle b (Discarded []) (replay_bytes replay) (from_frames replay) 0 max_backend;
           Ret (match outcome with
                | RtReady RS_Idle => Ok b
                | _ => bail "unexpected failover replay status"
                end))
  end.

(** The connection and the result of the last attempt, or the outcome when
    there is no second connection. *)
Abbreviation attempted := (SharedOutcome + Backend * option (result failure BackendForwardOutcome))%type.

Definition shared_failover_error (message : string) : fallible attempted :=
  _ ←? write_shared_error_response (lit "57P01") (lit message); Ret (Ok (inl SharedContinue)).

Definition retry_shared (b : Backend) (route : RouteKey) (target : RoutingTarget)
    (planned : PlannedFrontendCycle) (shape : FrontendCycleShape) : fallible attempted :=
  _ ← act (MarkFailed b);
  _ ← discard_backend_with_cancel_unbind b;
  passed ← act QueryDeadlinePassed;
  if (passed : bool) then shared_failover_error "backend connection lost; failover reconnect timed out"
  else
    s ← get;
    let replay := if failover_replay_session_state cfg then replay_frames (session s) else [] in
    r ← timeout [] (shared_replacement route target replay);
    match r with
    | Some (Ok b) =>
        _ ← act (BindCancel b);
        _ ← modify (fun s => set_pinned s (Some (lease_backend_id b)));
        result ← runtime_attempt b planned shape;
        Ret (Ok (inr (b, result)))
    | Some Panic => Ret Panic
    | _ => shared_failover_error "backend connection lost; failover unavailable"
    end.

Definition send_shared (b : Backend) (route : RouteKey) (target : RoutingTarget)
    (frames : list FrontendFrame) (plans : list RequestPlan)
    (planned : PlannedFrontendCycle) (shape : FrontendCycleShape) : fallible attempted :=
  result ← runtime_attempt b planned shape;
  s ← get;
  match may_retry_shared frames plans (session s) result with
  | None => _ ← act (DropLease b); Ret Panic
  | Some false => Ret (Ok (inr (b, result)))
  | Some true => retry_shared b route target planned shape
  end.

(** ** After the answer *)

(** The fingerprints of the audit records. *)
Definition audit_panics (plans : list RequestPlan) : bool :=
  audit && existsb (fun p => bool_decide (fingerprint_sql (rp_sql p) = None)) plans.

Definition finish_shared (b : Backend) (status : ReadyStatus) (committed : bool) (plans : list RequestPlan)
    : fallible SharedOutcome :=
  _ ←? owning b
         (if should_probe_read_after_write committed (read_after_write_protection_enabled cfg) status then
            r ← probe_shared_read_after_write_requirement b max_backend;
            match r with
            | Panic => Ret Panic
            | r => _ ← modify (fun s => set_session s (apply_read_after_write_probe_result (session s) (result_ok r)));
                   Ret (Ok tt)
            end
          else Ret (Ok tt));
  s ← get;
  _ ← (if bool_decide (is_Some (Virtual.pin_reason (session s))) then put (set_held s (Some b))
       else release_backend_with_cancel_unbind b);
  Ret (if audit_panics plans then Panic else Ok SharedContinue).

Definition handle_runtime_result (b : Backend) (r : option (result failure BackendForwardOutcome))
    (committed : bool) (plans : list RequestPlan) : fallible SharedOutcome :=
  match r with
  | Some (Ok (RtReady status)) => finish_shared b status committed plans
  | Some (Ok RtFlushed) => _ ← modify (fun s => set_held s (Some b)); Ret (Ok SharedContinue)
  | Some (Err e) => _ ← discard_backend_with_cancel_unbind b; Ret (Err e)
  | Some Panic => _ ← act (DropLease b); Ret Panic
  | None =>
      _ ← modify (fun s => set_session s (Virtual.mark_unknown_protocol_state (session s)));
      _ ← discard_backend_with_cancel_unbind b;
      _ ←? write_shared_query_timeout_response; Ret (Ok SharedContinue)
  end.

(** ** One cycle *)

Definition shared_target (s : Sess) (plans : list RequestPlan) : fallible RoutingTarget :=
  if bool_decide (cfg_mode cfg = ModeOff) then Ret (Ok (ToPrimary TOff))
  else t ← act (SelectTarget (cycle_selection cfg s plans));
       Ret (match t with Some t => Ok t | None => Panic end).

(** The held connection where the session is pinned, or one lent for the
    cycle; the outcome when there is none. *)
Definition shared_backend (route : RouteKey) (target : RoutingTarget) : fallible (SharedOutcome + Backend) :=
  s ← get;
  match should_reuse_held_backend (session s) (lease_backend_id <$> held_backend s), held_backend s with
  | true, Some b => _ ← put (set_held s None); Ret (Ok (inr b))
  | _, _ =>
      _ ← cleanup_held_shared_backend;
      r ← act (Checkout route target AllowConnect);
      match r with
      | Ok b => Ret (Ok (inr b))
      | Panic => Ret Panic
      | Err e =>
          go_on ←? handle_shared_pool_checkout_error e (overload_error_code cfg);
          Ret (Ok (inl (if (go_on : bool) then SharedContinue else SharedFinish)))
      end
  end.

(** The login of the connection: the proxy's own, or the client's when the
    session's own startup found no connection. *)
Definition shared_login (b : Backend) (key : Z * Z) (startup_proxied : bool) : fallible unit :=
  or_discard b
    (_ ←? (if startup_proxied then bootstrap_backend (cfg_login cfg) b
           else with_own_buffers (proxy_startup (cfg_login cfg) b (startup_mode adm cfg key)));
     Ret (Ok tt)).

Definition shared_replay (b : Backend) : fallible unit :=
  s ← get;
  _ ←? (if should_replay_shared_session (session s) (pinned_backend s) (lease_backend_id b) then
          let replay := replay_frames (session s) in
          or_discard b (_ ←? forward_runtime_cycle b (Discarded []) (replay_bytes replay) (from_frames replay) 0
                               max_backend;
                        Ret (Ok tt))
        else Ret (Ok tt));
  _ ← modify (fun s => set_pinned s (Some (lease_backend_id b))); Ret (Ok tt).

Definition run_shared_cycle (b : Backend) (route : RouteKey) (target : RoutingTarget)
    (frames : list FrontendFrame) (shape : FrontendCycleShape) (plans : list RequestPlan) (committed : bool)
    : fallible SharedOutcome :=
  _ ← act (BindCancel b);
  _ ←? shared_replay b;
  _ ← modify (fun s => set_progress s progress_default);
  planned ←? or_discard b (plan_frontend_cycle (lease_backend_id b) frames
                             (rp_command <$> List.filter updates_session_state plans));
  sent ←? send_shared b route target frames plans planned shape;
  match sent with
  | inl outcome => Ret (Ok outcome)
  | inr (b, result) => handle_runtime_result b result committed plans
  end.

(** A cycle: the outcome and [startup_proxied] after it. *)
Definition handle_shared_cycle (key : Z * Z) (startup_proxied : bool) (frames : list FrontendFrame)
    (shape : FrontendCycleShape) : fallible (SharedOutcome * bool) :=
  _ ← modify (fun s => set_wait s false);
  s ← get;
  let full := negb (bool_decide (cfg_mode cfg = ModeOff)) in
  match lift_wire (request_plans_for_frames (prepared s) frames full (plan_cache s)) with
  | Err e => cleanup_and (Err e)
  | Panic => Ret Panic
  | Ok (cache, plans) =>
      _ ← put (set_plan_cache s cache);
      denied ←? guardrails_deny plans;
      if (denied : bool) then
        _ ←? write_shared_error_response (sqlstate_as_str InsufficientPrivilege)
               (lit "query rejected by configured safety policy");
        Ret (Ok (SharedContinue, startup_proxied))
      else
        s ← get;
        match update_transaction_state_from_request_plans (session s) plans full with
        | None => Ret Panic
        | Some (v, committed) =>
            let s := set_session s v in
            _ ← put s;
            target ←? shared_target s plans;
            match target with
            | ToWait _ | ToReject _ => cleanup_and (bail "monoio cycle routing produced unsupported target")
            | _ =>
                acquired ←? shared_backend (session_route s) target;
                match acquired with
                | inl outcome => Ret (Ok (outcome, startup_proxied))
                | inr b =>
                    _ ←? shared_login b key startup_proxied;
                    outcome ←? run_shared_cycle b (session_route s) target frames shape plans committed;
                    Ret (Ok (outcome, true))
                end
            end
        end
  end.

(** ** The session loop *)

Definition shared_idle_kind (s : Sess) : IdleTimeoutKind :=
  if bool_decide (is_Some (Virtual.pin_reason (session s))) then IdleTransaction else IdleClient.

(** A read of the client while its cycle is incomplete: [true] when the
    session is over. *)
Definition shared_read (kind : IdleTimeoutKind) : fallible bool :=
  s ← get;
  e ← (if wait_for_client_activity s then e ← act ReadClient; Ret (Some e) else act ReadClientInTime);
  match e with
  | Some (Eof | Chunk []) => cleanup_and (Ok true)
  | Some (Chunk ((_ :: _) as bs)) => _ ← put (set_client_read s (client_read s ++ bs)); Ret (Ok false)
  | Some ReadError => cleanup_and (Err (Other EIo))
  | None =>
      _ ← match kind, held_backend s with
          | IdleTransaction, Some b => _ ← put (set_held s None); discard_backend_with_cancel_unbind b
          | IdleTransaction, None => Ret tt
          | IdleClient, _ => cleanup_held_shared_backend
          end;
      _ ← modify (fun s => set_client_read s []);
      _ ←? write_shared_idle_timeout_response kind;
      match kind with
      | IdleTransaction => Ret (Ok true)
      | IdleClient => _ ← modify (fun s => set_wait s true); Ret (Ok false)
      end
  end.

Fixpoint shared_loop (fuel : nat) (key : Z * Z) (startup_proxied : bool) : fallible unit :=
  match fuel with
  | O => Hang
  | S fuel =>
      s ← get;
      let kind := shared_idle_kind s in
      match lift_wire (take_frontend_cycle_bytes (client_read s) (max_client_buffer_bytes cfg)) with
      | Err e => cleanup_and (Err e)
      | Panic => Ret Panic
      | Ok (read, rest) =>
          _ ← put (set_client_read s rest);
          match read with
          | CycleComplete bs shape =>
              match lift_wire (parse_frontend_cycle_frames bs) with
              | Err e => cleanup_and (Err e)
              | Panic => Ret Panic
              | Ok [] => shared_loop fuel key startup_proxied
              | Ok frames =>
                  handled ←? handle_shared_cycle key startup_proxied frames shape;
                  match handled with
                  | (SharedFinish, _) => Ret (Ok tt)
                  | (SharedContinue, startup_proxied) => shared_loop fuel key startup_proxied
                  end
              end
          | CycleTerminate _ => cleanup_and (Ok tt)
          | Cycle.BufferLimitExceeded => cleanup_and (bail "client request exceeded configured buffer limit")
          | NeedMoreBytes =>
              over ←? shared_read kind;
              if (over : bool) then Ret (Ok tt) else shared_loop fuel key startup_proxied
          end
      end
  end.

(** ** The startup of the session *)

(** The first connection: [startup_proxied], or [None] when the session is
    over. *)
Definition shared_startup (key : Z * Z) (route : RouteKey) : fallible (option bool) :=
  r ← act (Checkout route (ToPrimary TOff) AllowConnect);
  match r with
  | Panic => Ret Panic
  | Ok b =>
      r ← with_own_buffers (proxy_startup (cfg_login cfg) b (startup_mode adm cfg key));
      match r with
      | Ok _ =>
          _ ← act (BindCancel b);
          _ ← modify (fun s => set_pinned s (Some (lease_backend_id b)));
          _ ← release_backend_with_cancel_unbind b;
          Ret (Ok (Some true))
      | Err e => _ ← act (Discard b); Ret (Err e)
      | Panic => _ ← act (DropLease b); Ret Panic
      end
  | Err e =>
      go_on ←? handle_shared_pool_checkout_error e (overload_error_code cfg);
      Ret (Ok (if (go_on : bool) then Some (negb (bool_decide (adm_auth_mode adm = PassThrough))) else None))
  end.

(** [handle_client_session] once the cancel key is issued. *)
Definition shared_session (key : Z * Z) (user : str) (route : RouteKey) : fallible unit :=
  ok ←? authenticate adm user;
  if negb ok then Ret (Ok tt)
  else
    started ←? shared_startup key route;
    match started with
    | None => Ret (Ok tt)
    | Some startup_proxied => iterations ← act Patience; shared_loop iterations key startup_proxied
    end.

Definition handle_client_session (user : str) (route : RouteKey) : fallible unit :=
  issued ← act IssueClientKey;
  match issued with
  | Err e => Ret (Err (Other e))
  | Panic => Ret Panic
  | Ok key =>
      r ← shared_session key user route;
      s ← get;
      _ ← match held_backend s with
          | Some b => _ ← put (set_held s None); act (DropLease b)
          | None => Ret tt
          end;
      _ ← act RemoveCancelSession;
      Ret r
  end.
End WithConfig.

(** The variables of a session that [proxy_connection] starts are new: what
    followed the startup packet is gone. *)
Definition shared_start (session_id : Z) (plan : StartupBackendPlan) : Sess :=
  {| session := Virtual.fresh; prepared := catalog_new session_id; plan_cache := cache_new SQL_PLAN_CACHE_CAPACITY;
     pinned_backend := None; held_backend := None; route_application_name := plan_application_name plan;
     session_route := plan_route plan; client_read := []; backend_read := [];
     progress := progress_default; wait_for_client_activity := false |}.

Inductive StartupOrCancel := PacketRead (packet : bytes) | CancelRead (key : Z * Z) | Finished.

Definition handle_startup_or_cancel (adm : AdmissionConfig) (cfg : SessionConfig) (has_config : bool)
    : fallible StartupOrCancel :=
  awaits ← act Patience;
  first ←? read_startup_packet adm cfg awaits has_config false;
  match first with
  | FirstPacketRead packet => Ret (Ok (PacketRead packet))
  | FirstCancel process_id secret_key => Ret (Ok (CancelRead (process_id, secret_key)))
  | FirstClosed => Ret (Ok Finished)
  | FirstTimedOut =>
      _ ←? error_response_and_ready_with_state (sqlstate_as_str OperatorIntervention)
             (lit "startup timed out") RS_Idle;
      Ret (Ok Finished)
  | FirstLimitExceeded => Ret (Err (Effects.BufferLimitExceeded ClientBudget))
  end.

(** A cancel request that cannot be forwarded ends this connection with an
    error that is only logged: [ForwardCancel] stands for both outcomes. *)
Definition proxy_connection `{Crypto} (adm : AdmissionConfig) (cfg : SessionConfig) (audit : bool)
    (session_id : Z) : fallible unit :=
  match adm_tls_config adm with
  | Err e => Ret (Err (Other e))
  | Panic => Ret Panic
  | Ok has_config =>
      first ←? handle_startup_or_cancel adm cfg has_config;
      match first with
      | Finished => Ret (Ok tt)
      | CancelRead key => _ ← act (ForwardCancel key); Ret (Ok tt)
      | PacketRead packet =>
          match startup_backend_plan (adm_selector adm) packet (adm_client_addr adm)
                  (username <$> adm_credentials adm) with
          | Err (UnknownRoute _ _) => Ret (bail "resolve startup backend")
          | Err (InvalidPlan e) => Ret (Err (Other e))
          | Panic => Ret Panic
          | Ok plan =>
              match adm_users adm with
              | Err e => Ret (Err (Other e))
              | Panic => Ret Panic
              | Ok _ =>
                  _ ← put (shared_start session_id plan);
                  handle_client_session adm (session_config adm cfg plan) audit (plan_user plan) (plan_route plan)
              end
          end
      end
  end.
