(* ===== verification/SharedFacts.v ===== *)
(** * Custody, replay and defects of the io_uring session

    The rules of Custody.v hold of [proxy_connection] too, and a cycle is
    sent twice under the conditions of Replay.v. What does not carry over
    from the other engine is the cleaning of a connection before it is given
    back; the runs at the end show what that does. *)

From S2P Require Import Prelude Text Protocol Startup Frame BackendWire Secrets Auth Cycle Lsn RoutingTypes Route Policy.
From S2P Require Import Sharding ShardExtract Sql SqlClassify Fingerprint Session ReadRouting Prepare Pool Pools RequestPlan.
From S2P Require Import Guardrails Checkout Effects Login Forwarding Recovery ClientSession Admission Custody Replay.
From S2P Require Import Gatekeeping Release Backpressure SharedSession Scenarios.

Section Users.
Context `{HC : Crypto} (b : Backend).

Lemma user_bind {A B} (p : prog A) (f : A -> prog B) :
  user b p -> (forall a, user b (f a)) -> user b (p ≫= f).
Proof. intros Hp Hf hd s Hs. apply confined_bind; [done|by apply Hp|]. intros a s' Hs'. by apply Hf. Qed.

Lemma sink_store_user k bs : user b (sink_store k bs).
Proof. destruct k; user_tac. Qed.
Lemma sink_write_user k bs : user b (sink_write k bs).
Proof. destruct k; user_tac. Qed.

Lemma runtime_chunk_user k max d buffer : user b (runtime_chunk k max d buffer).
Proof.
  unfold runtime_chunk. destruct (lift_wire _) as [[[e d'] rest]| |]; try (user_tac; fail).
  apply user_bind; [apply sink_store_user|]. intros k'. destruct e; try (user_tac; fail).
  apply user_bind; [destruct (bool_decide _); [user_tac|apply sink_write_user]|]. intros sent. user_tac.
Qed.

Lemma runtime_loop_user fuel k max d : user b (runtime_loop fuel b k max d).
Proof.
  revert k d. induction fuel as [|fuel IH]; intros k d; cbn [runtime_loop]; [user_tac|].
  apply user_bind; [user_tac|]. intros e. apply user_bind; [destruct k; user_tac|]. intros buffer.
  destruct e as [[|x bs]| |]; try (user_tac; fail). apply user_bind; [apply sink_store_user|]. intros k'.
  apply user_and_then; [apply runtime_chunk_user|]. intros [outcome|[k'' d']]; [user_tac|apply IH].
Qed.

Lemma forward_runtime_cycle_user k cycle shape injected max :
  user b (forward_runtime_cycle b k cycle shape injected max).
Proof.
  unfold forward_runtime_cycle. apply user_bind; [user_tac|]. intros []; cbn [negb]; [|user_tac]. cbv zeta.
  destruct (flushed _); [user_tac|]. apply user_bind; [user_tac|]. intros reads. apply runtime_loop_user.
Qed.

Lemma with_own_buffers_user {A} (p : fallible A) : user b p -> user b (with_own_buffers p).
Proof. intros Hp. unfold with_own_buffers. user_tac. by apply Hp. Qed.

Lemma runtime_attempt_user cfg planned shape : user b (runtime_attempt cfg b planned shape).
Proof. apply user_timeout, forward_runtime_cycle_user. Qed.
End Users.

(** ** Custody *)

Section Cycle.
Context `{HC : Crypto} (adm : AdmissionConfig) (cfg : SessionConfig) (audit : bool).

Lemma cleanup_vacant s h :
  at_rest s h -> wp cleanup_held_shared_backend (fun r s' h' => r = Some tt /\ vacant s' h') s h.
Proof.
  intros (bound & Hh & Hb). unfold cleanup_held_shared_backend. apply wp_get.
  destruct (held_backend s) as [b|] eqn:E; [|rewrite Hb in Hh by done; by repeat split].
  intros x []. split; [done|]. split; [done|]. rewrite !ledger_snoc, Hh. cbn. unfold require. by rewrite bool_decide_true.
Qed.

Lemma vacant_at_rest s h : vacant s h -> at_rest s h.
Proof. intros [Hs Hh]. exists false. by rewrite Hs. Qed.

Lemma cleanup_kept {A} (r : result failure A) s h : at_rest s h -> wp (cleanup_and r) kept s h.
Proof.
  intros Hr. apply wp_bind. eapply wp_mono; [by apply cleanup_vacant|]. intros _ s' h' [-> Hv].
  apply vacant_at_rest in Hv. destruct r; [exact Hv|by apply at_rest_closing..].
Qed.

(** A step that leaves the connection lent, or the session without it. *)
Definition lent_ok {A} (b : Backend) (bound : bool) (r : option (result failure A)) (s : Sess) (h : list event) : Prop :=
  match r with
  | Some (Ok _) => working b bound s h
  | Some _ => closing s h
  | None => ledger_of h <> None
  end.

Lemma or_discard_lent {A} b bound (p : fallible A) s h :
  user b p -> working b bound s h -> wp (or_discard b p) (lent_ok b bound) s h.
Proof.
  intros Hp [Hs Hh]. apply wp_bind. eapply wp_mono; [by apply user_wp|].
  intros r s' h' [Hs' Hh']. assert (working b bound s' h') as Hw by (split; [by rewrite Hs'|done]).
  destruct r as [[a|e|]|]; [done| | |by cbn; rewrite Hh'].
  - intros x y. eapply at_rest_closing, working_discard, working_unbind, Hw.
  - intros x. eapply working_drop, Hw.
Qed.

Lemma wp_lent {A B} b bound (p : fallible A) (f : A -> fallible B) s h :
  wp p (lent_ok b bound) s h -> (forall a s h, working b bound s h -> wp (f a) kept s h) -> wp (and_then p f) kept s h.
Proof. intros Hp Hf. apply wp_and_then. eapply wp_mono; [exact Hp|]. intros [[a|e|]|] s' h' H; auto. Qed.

Lemma lent_and_then {A B} b bound (p : fallible A) (f : A -> fallible B) s h :
  wp p (lent_ok b bound) s h -> (forall a s h, working b bound s h -> wp (f a) (lent_ok b bound) s h) ->
  wp (and_then p f) (lent_ok b bound) s h.
Proof. intros Hp Hf. apply wp_and_then. eapply wp_mono; [exact Hp|]. intros [[a|e|]|] s' h' H; auto. Qed.

Lemma told_kept {A} code message (q : fallible A) s h :
  at_rest s h -> (forall h, at_rest s h -> wp q kept s h) ->
  wp (_ ←? write_shared_error_response code message; q) kept s h.
Proof. unfold write_shared_error_response. exact (error_response_kept code message RS_Idle q s h). Qed.

Lemma checkout_error_kept e code s h : at_rest s h -> wp (handle_shared_pool_checkout_error e code) kept s h.
Proof.
  intros Hr.
  assert (forall m, wp (_ ←? write_shared_error_response code m; Ret (Ok true)) kept s h) as Ht.
  { intros m. apply told_kept; [done|]. intros h' Hr'. exact Hr'. }
  destruct e as [|[]|]; [apply Ht..|exact Hr|by apply at_rest_closing].
Qed.

(** *** Sending *)

Definition sent_ok (r : option (result failure (SharedOutcome + Backend * option (result failure BackendForwardOutcome))))
    (s : Sess) (h : list event) : Prop :=
  match r with
  | Some (Ok (inr (b, _))) => exists bound, working b bound s h
  | Some (Ok (inl _)) => at_rest s h
  | Some _ => closing s h
  | None => ledger_of h <> None
  end.

Lemma failover_error_sent message s h : at_rest s h -> wp (shared_failover_error message) sent_ok s h.
Proof.
  intros Hr x. apply (at_rest_use _ x) in Hr; [|done]. destruct x; [done|]. by apply at_rest_closing.
Qed.

Lemma shared_replacement_borrows route target replay s h :
  held_backend s = None -> ledger_of h = Some (None, false) ->
  wp (shared_replacement cfg route target replay) (fun r s h => borrowed r s (ledger_of h)) s h.
Proof.
  intros Hs Hh. apply wp_act. intros [b|e|]; [|by cbn; rewrite ledger_snoc, Hh..].
  pose proof (ledger_checkout_ok route target AllowConnect b h Hh) as Hb. cbn beta iota.
  apply wp_owning, wp_and_then. eapply wp_mono; [by apply (user_wp b), Hb; apply bootstrap_backend_user|].
  intros r s1 h1 [Hs1 Hh1]. rewrite Hs in Hs1.
  destruct r as [[m|e|]|]; [| | |by rewrite Hh1]; [|intros ?; split; auto using ledger_drop..].
  case_bool_decide; [done|]. apply wp_and_then.
  eapply wp_mono; [by apply (user_wp b), Hh1; apply forward_runtime_cycle_user|].
  intros r s2 h2 [Hs2 Hh2]. rewrite Hs1 in Hs2.
  destruct r as [[[[]|]|e|]|]; [done|intros ?; split; auto using ledger_drop..|by rewrite Hh2].
Qed.

Lemma timed_shared_replacement route target replay s h :
  held_backend s = None -> ledger_of h = Some (None, false) ->
  wp (timeout [] (shared_replacement cfg route target replay))
     (fun r s h => match r with
                   | Some (Some (Ok b)) => working b false s h
                   | Some _ => at_rest s h
                   | None => ledger_of h <> None
                   end) s h.
Proof.
  intros Hs Hh. apply (wp_timeout _ _ borrowed None false s h h); try done.
  - unfold shared_replacement, owning. confine; try done; rewrite Hs in *.
    + eapply confined_mono; [| |by eapply (bootstrap_backend_user _ _ None)]; [by intros []|done].
    + eapply confined_mono; [| |by eapply (forward_runtime_cycle_user _ _ _ _ _ _ None)]; [by intros []|done].
  - intros [[]|]; naive_solver.
  - by apply shared_replacement_borrows.
  - intros [b|e|] s' h'; cbn; [done|intros [E1 E2]..]; exists false; by rewrite E1, E2.
  - intros s' h' E1 E2. exists false. by rewrite E1, E2, Hs.
Qed.

Lemma retry_shared_sent b bound route target planned shape s h :
  working b bound s h -> wp (retry_shared cfg b route target planned shape) sent_ok s h.
Proof.
  intros Hw x y z. assert (at_rest s (((h ++ [Ev (MarkFailed b) x]) ++ [Ev UnbindCancel y]) ++ [Ev (Discard b) z])) as Hr.
  { eapply working_discard, working_unbind, working_use, Hw. done. }
  apply wp_act. intros passed. apply (at_rest_use QueryDeadlinePassed passed) in Hr; [|done].
  set (h2 := _ ++ [Ev QueryDeadlinePassed passed]) in *. clearbody h2.
  destruct passed; [by apply failover_error_sent|].
  destruct Hw as [Hs _]. destruct Hr as (bound1 & Hh2 & Hb). rewrite Hs in Hh2, Hb. rewrite Hb in Hh2 by done.
  apply wp_get, wp_bind. eapply wp_mono; [by apply timed_shared_replacement|].
  intros [[[b'|e|]|]|] s3 h3 H3; try (by apply failover_error_sent); [|by apply at_rest_closing|done].
  apply wp_act. intros w. apply (working_bind _ _ w) in H3. destruct H3 as [Hs3 Hh3]. apply wp_modify, wp_bind.
  eapply wp_mono; [by apply (user_wp b' _ _ _ true); [apply runtime_attempt_user|]|].
  intros [r|] s4 h4 [Hs4 Hh4]; [|by cbn; rewrite Hh4]. exists true. split; [by rewrite Hs4|done].
Qed.

Lemma send_shared_sent b bound route target frames plans planned shape s h :
  working b bound s h -> wp (send_shared cfg b route target frames plans planned shape) sent_ok s h.
Proof.
  intros [Hs Hh]. apply wp_bind. eapply wp_mono; [by apply (user_wp b _ _ _ bound); [apply runtime_attempt_user|]|].
  intros [r|] s1 h1 [Hs1 Hh1]; [|by cbn; rewrite Hh1].
  assert (working b bound s1 h1) as Hw by (split; [by rewrite Hs1|done]).
  apply wp_get. destruct (may_retry_shared cfg frames plans (session s1) r) as [[]|].
  - by apply (retry_shared_sent b bound).
  - by exists bound.
  - intros x. by apply (working_drop b bound).
Qed.

(** *** After the answer *)

Lemma hold_or_release_kept {A} b bound (q : fallible A) s h :
  working b bound s h -> (forall s h, at_rest s h -> wp q kept s h) ->
  wp (_ ← (if bool_decide (is_Some (Virtual.pin_reason (session s))) then put (set_held s (Some b))
           else release_backend_with_cancel_unbind b); q) kept s h.
Proof.
  intros Hw Hq. case_bool_decide.
  - apply wp_put, Hq. by eapply working_hold.
  - apply (wp_release b bound); [done|]. intros h' Hr. by apply Hq.
Qed.

Lemma finish_shared_kept b bound status committed plans s h :
  working b bound s h -> wp (finish_shared cfg audit b status committed plans) kept s h.
Proof.
  intros Hw. unfold finish_shared. apply (wp_working_owning b bound); [|done|].
  { destruct (should_probe_read_after_write _ _ _); [|user_tac].
    apply user_bind; [apply probe_user|]. intros [l|e|]; user_tac. }
  intros [] s1 h1 Hw1. apply wp_get. apply (hold_or_release_kept b bound); [done|]. intros s2 h2 Hr.
  destruct (audit_panics audit plans); [by apply at_rest_closing|done].
Qed.

Lemma handle_runtime_result_kept b bound r committed plans s h :
  working b bound s h -> wp (handle_runtime_result cfg audit b r committed plans) kept s h.
Proof.
  intros Hw. destruct r as [[[status|]|e|]|]; cbn [handle_runtime_result].
  - by apply (finish_shared_kept b bound).
  - by apply (working_hold b bound).
  - apply (wp_discard b bound); [done|]. intros h' Hr. by apply at_rest_closing.
  - intros x. by apply (working_drop b bound).
  - apply wp_modify. apply (wp_discard b bound); [done|]. intros h' Hr. by apply told_kept.
Qed.

(** *** A cycle *)

Lemma shared_replay_lent b bound s h : working b bound s h -> wp (shared_replay cfg b) (lent_ok b bound) s h.
Proof.
  intros Hw. unfold shared_replay. apply wp_get, lent_and_then; [|by intros [] s' h' Hw'].
  destruct (should_replay_shared_session _ _ _); [|done]. cbv zeta. apply or_discard_lent; [|done].
  apply user_and_then; [apply forward_runtime_cycle_user|]. intros ?. user_tac.
Qed.

Lemma run_shared_cycle_kept b bound route target frames shape plans committed s h :
  working b bound s h -> wp (run_shared_cycle cfg audit b route target frames shape plans committed) kept s h.
Proof.
  intros Hw. apply wp_act. intros x. apply (working_bind _ _ x) in Hw.
  apply (wp_lent b true); [by apply shared_replay_lent|]. intros [] s1 h1 Hw1. apply wp_modify.
  apply (wp_lent b true); [by apply or_discard_lent; [apply plan_frames_user|]|].
  intros planned s2 h2 Hw2. apply wp_and_then. eapply wp_mono; [by apply (send_shared_sent b true)|].
  intros [[[outcome|[b' r]]|e|]|] s3 h3 H3; try exact H3.
  destruct H3 as [bound3 H3]. by apply (handle_runtime_result_kept b' bound3).
Qed.

Lemma shared_login_lent b bound key startup_proxied s h :
  working b bound s h -> wp (shared_login adm cfg b key startup_proxied) (lent_ok b bound) s h.
Proof.
  intros Hw. apply or_discard_lent; [|done]. apply user_and_then; [|intros ?; user_tac].
  destruct startup_proxied; [apply bootstrap_backend_user|apply with_own_buffers_user, proxy_startup_user].
Qed.

Definition shared_acquired (r : option (result failure (SharedOutcome + Backend))) (s : Sess) (h : list event) : Prop :=
  match r with
  | Some (Ok (inr b)) => exists bound, working b bound s h
  | Some (Ok (inl _)) => at_rest s h
  | Some _ => closing s h
  | None => ledger_of h <> None
  end.

Lemma shared_backend_acquires route target s h :
  at_rest s h -> wp (shared_backend cfg route target) shared_acquired s h.
Proof.
  intros Hr. unfold shared_backend. apply wp_get.
  assert (wp (_ ← cleanup_held_shared_backend;
              r ← act (Checkout route target AllowConnect);
              match r with
              | Ok b => Ret (Ok (inr b))
              | Panic => Ret Panic
              | Err e =>
                  go_on ←? handle_shared_pool_checkout_error e (overload_error_code cfg);
                  Ret (Ok (inl (if (go_on : bool) then SharedContinue else SharedFinish)))
              end) shared_acquired s h) as Hout.
  { apply wp_bind. eapply wp_mono; [by apply cleanup_vacant|]. intros _ s' h' [-> [Hs Hh]]. apply wp_act.
    intros [b|e|]; [exists false; split; [done|by rewrite ledger_snoc, Hh]| |exists false; by rewrite ledger_snoc, Hh, Hs].
    apply wp_and_then. eapply wp_mono; [apply checkout_error_kept; exists false; by rewrite ledger_snoc, Hh, Hs|].
    by intros [[go_on|e'|]|] s2 h2 H2. }
  destruct (should_reuse_held_backend _ _); [|exact Hout]. destruct (held_backend s) as [b|] eqn:E; [|exact Hout].
  destruct Hr as (bound & Hh & _). rewrite E in Hh. by exists bound.
Qed.

Lemma shared_target_kept s plans h :
  at_rest s h -> wp (shared_target cfg s plans) (fun r s' h' => s' = s /\ kept r s' h') s h.
Proof.
  intros Hr. unfold shared_target. case_bool_decide; [done|]. intros x. apply (at_rest_use (SelectTarget _) x) in Hr; [|done].
  destruct x; [done|]. by split; [|apply at_rest_closing].
Qed.

Lemma handle_shared_cycle_kept key startup_proxied frames shape s h :
  at_rest s h -> wp (handle_shared_cycle adm cfg audit key startup_proxied frames shape) kept s h.
Proof.
  intros Hr. unfold handle_shared_cycle. apply wp_modify, wp_get.
  destruct (lift_wire _) as [[cache plans]|e|]; [|by apply cleanup_kept|by apply at_rest_closing].
  apply wp_put, wp_and_then. eapply wp_mono; [by apply guardrails_deny_kept|].
  intros [[denied|e|]|] s1 h1 [-> H1]; try exact H1.
  destruct denied; [apply told_kept; [done|]; intros h' Hr'; exact Hr'|].
  apply wp_get. destruct (update_transaction_state_from_request_plans _ _ _) as [[v committed]|]; [|by apply at_rest_closing].
  apply wp_put, wp_and_then. eapply wp_mono; [by apply shared_target_kept|].
  intros [[target|e|]|] s2 h2 [-> H2]; try exact H2.
  assert (forall route, wp (acquired ←? shared_backend cfg route target;
      match acquired with
      | inl outcome => Ret (Ok (outcome, startup_proxied))
      | inr b =>
          _ ←? shared_login adm cfg b key startup_proxied;
          outcome ←? run_shared_cycle cfg audit b route target frames shape plans committed;
          Ret (Ok (outcome, true))
      end) kept (set_session (set_plan_cache (set_wait s false) cache) v) h2) as Hgo.
  { intros route. apply wp_and_then. eapply wp_mono; [by apply shared_backend_acquires|].
    intros [[[outcome|b]|e|]|] s3 h3 H3; try exact H3. destruct H3 as [bound H3].
    apply (wp_lent b bound); [by apply shared_login_lent|]. intros [] s4 h4 H4.
    apply wp_kept; [by apply (run_shared_cycle_kept b bound)|]. by intros outcome s5 h5 H5. }
  destruct target; [apply Hgo..|by apply cleanup_kept|by apply cleanup_kept].
Qed.

(** *** The loop *)

Lemma shared_read_kept kind s h : at_rest s h -> wp (shared_read kind) kept s h.
Proof.
  intros Hr. unfold shared_read. apply wp_get, wp_bind.
  assert (forall e h, at_rest s h -> wp (match e with
    | Some (Eof | Chunk []) => cleanup_and (Ok true)
    | Some (Chunk ((_ :: _) as bs)) => _ ← put (set_client_read s (client_read s ++ bs)); Ret (Ok false)
    | Some ReadError => cleanup_and (Err (Other EIo))
    | None =>
        _ ← match kind, held_backend s with
            | IdleTransaction, Some b => _ ← put (set_held s None); discard_backend_with_cancel_unbind b
            | IdleTransaction, None => Ret tt
            | IdleClient, _ => cleanup_held_shared_backend
            end;
        _ ← modify (fun s => set_client_read s []);
        _ ←? write_shared_idle_timeout_response kind;
        match kind with
        | IdleTransaction => Ret (Ok true)
        | IdleClient => _ ← modify (fun s => set_wait s true); Ret (Ok false)
        end
    end) kept s h) as Hall.
  { intros e h' Hr'. destruct e as [[[|x bs]| |]|]; [by apply cleanup_kept|exact Hr'|by apply cleanup_kept..|].
    apply wp_bind. eapply wp_mono with (Q := fun r s' h' => r = Some tt /\ at_rest s' h').
    - destruct kind; [eapply wp_mono; [by apply cleanup_vacant|]; intros r s' h2 [-> Hv]; by split; [|apply vacant_at_rest]|].
      destruct (held_backend s) as [b|] eqn:E; [|done]. destruct Hr' as (bound & Hh & _). rewrite E in Hh.
      apply wp_put. intros x []. split; [done|]. eapply working_discard, working_unbind. by split.
    - intros r s' h2 [-> Hr2]. apply wp_modify. destruct kind; [by apply told_kept|].
      apply wp_act. intros x. apply (at_rest_use _ x) in Hr2; [|done]. destruct x; [done|]. by apply at_rest_closing. }
  destruct (wait_for_client_activity s).
  - intros e. apply (Hall (Some e)). by apply at_rest_use.
  - intros e. apply Hall. by apply at_rest_use.
Qed.

Lemma shared_loop_kept fuel key startup_proxied s h :
  at_rest s h -> wp (shared_loop adm cfg audit fuel key startup_proxied) kept s h.
Proof.
  revert startup_proxied s h. induction fuel as [|fuel IH]; intros startup_proxied s h Hr; cbn [shared_loop].
  { destruct Hr as (bound & Hh & _). cbn. by rewrite Hh. }
  apply wp_get. destruct (lift_wire _) as [[read rest]|e|]; [|by apply cleanup_kept|by apply at_rest_closing].
  apply wp_put. assert (at_rest (set_client_read s rest) h) as Hr' by exact Hr.
  destruct read as [bs shape|bs| |]; [|by apply cleanup_kept..|].
  - destruct (lift_wire _) as [frames|e|]; [|by apply cleanup_kept|by apply at_rest_closing].
    destruct frames as [|f frames]; [by apply IH|].
    apply wp_kept; [by apply handle_shared_cycle_kept|]. intros [[] proxied] s1 h1 H1; [by apply IH|done].
  - apply wp_kept; [by apply shared_read_kept|]. intros [] s1 h1 H1; [done|by apply IH].
Qed.

Lemma shared_startup_kept key route s h : vacant s h -> wp (shared_startup adm cfg key route) kept s h.
Proof.
  intros [Hs Hh]. apply wp_act. intros [b|e|].
  - pose proof (ledger_checkout_ok route (ToPrimary TOff) AllowConnect b h Hh) as Hb. apply wp_bind. eapply wp_mono.
    { apply (user_wp b), Hb. apply with_own_buffers_user, proxy_startup_user. }
    intros r s1 h1 [Hs1 Hh1]. rewrite Hs in Hs1.
    destruct r as [[m|e|]|]; [intros x y z; eapply working_release, working_unbind, working_bind; by split
                             |intros x; by eapply at_rest_closing, working_discard|intros x; by eapply working_drop
                             |by cbn; rewrite Hh1].
  - apply wp_kept; [apply checkout_error_kept; exists false; by rewrite ledger_snoc, Hh, Hs|]. by intros go_on s' h' H'.
  - exists false. by rewrite ledger_snoc, Hh, Hs.
Qed.

Lemma shared_session_kept key user route s h : vacant s h -> wp (shared_session adm cfg audit key user route) kept s h.
Proof.
  intros Hv. apply wp_and_then. eapply wp_mono.
  { apply bystander_turned; [|exact Hv]. unfold authenticate. user_tac. }
  intros [[ok|e|]|] s1 h1 H1; [|by apply at_rest_closing, vacant_at_rest..|done].
  destruct ok; cbn [negb]; [|by apply vacant_at_rest]. apply wp_kept; [by apply shared_startup_kept|].
  intros [proxied|] s2 h2 H2; [|done]. apply wp_act. intros n. by apply shared_loop_kept, at_rest_use.
Qed.

Lemma handle_client_session_ended user route s h :
  vacant s h -> wp (handle_client_session adm cfg audit user route) ended s h.
Proof.
  intros [Hs Hh]. apply wp_act. intros issued.
  assert (vacant s (h ++ [Ev IssueClientKey issued])) as Hv by (split; [done|by apply uses_none_ledger]).
  destruct issued as [key|e|]; [|split; [by rewrite (proj2 Hv)|by split; [apply Hv|]]..].
  apply wp_bind. eapply wp_mono; [by apply shared_session_kept|]. intros [r|] s' h' Hk; [|by split; [|intros []]]. apply wp_get.
  assert (closing s' h') as [bound Hh'] by (destruct r; [by apply at_rest_closing|done..]).
  destruct (held_backend s') as [b|] eqn:E.
  - intros x y. cbn -[ledger_of]. unfold ended. rewrite !ledger_snoc, Hh'. cbn. unfold require. by rewrite bool_decide_true.
  - intros y. cbn -[ledger_of]. unfold ended. by rewrite !ledger_snoc, Hh'.
Qed.
End Cycle.

Lemma handle_startup_or_cancel_bystander adm cfg has_config : bystander (handle_startup_or_cancel adm cfg has_config).
Proof.
  unfold handle_startup_or_cancel. user_tac;
    first [by apply read_startup_packet_bystander|by apply error_response_bystander].
Qed.

(** C7. Custody on the io_uring engine. Whatever the network, the pools and
    other tasks do, a session of the io_uring engine too uses only the
    connection it was lent, never borrows a second one before giving back
    the first, points its cancel key only at the connection it was lent and
    never gives a connection back while the key points at it; when it ends,
    by an error or a panic too, it has given back or dropped every
    connection it borrowed and its cancel key points nowhere. *)
Theorem shared_session_custody `{Crypto} adm cfg audit session_id env s :
  held_backend s = None ->
  let '(r, s', h) := run env (proxy_connection adm cfg audit session_id) s [] in
  ledger_of h <> None /\ (is_Some r -> ledger_of h = Some (None, false) /\ held_backend s' = None).
Proof.
  intros Hs. apply (wp_sound _ ended).
  assert (forall A (r : A) s h, vacant s h -> ended (Some r) s h) as Hend
    by (intros A r s' h' [Hs' Hh']; split; [by rewrite Hh'|done]).
  unfold proxy_connection. destruct (adm_tls_config adm) as [has_config|e|]; [|by apply Hend..].
  apply wp_and_then. eapply wp_mono.
  { apply bystander_turned; [apply handle_startup_or_cancel_bystander|by split]. }
  intros [[first|e|]|] s1 h1 H1; [|by apply Hend..|by split; [|intros []]].
  destruct first as [packet|key|]; [| |by apply Hend].
  - destruct (startup_backend_plan _ _ _ _) as [plan|[]|]; [|by apply Hend..].
    destruct (adm_users adm); [|by apply Hend..]. apply wp_put.
    apply handle_client_session_ended. by split; [|apply H1].
  - intros x. apply Hend. split; [apply H1|]. by apply uses_none_ledger, H1.
Qed.

(** ** Replay *)

Section Spoken.
Lemma drain_loop_started fuel d buffer fwd ready d' rest fwd' ready' :
  drain_loop fuel d buffer fwd ready = Some (Ok (d', rest, fwd', ready')) ->
  response_started d' = false -> response_started d = false /\ fwd' = fwd.
Proof.
  revert d buffer fwd ready. induction fuel as [|fuel IH]; intros d buffer fwd ready; cbn [drain_loop]; [done|].
  destruct (parse_backend_frame buffer) as [[[f|] rest0]| |]; try done; [|naive_solver].
  unfold drain_frame. destruct (_ && _); intros Hl Hs; eapply IH in Hl as [Hs' ?]; done.
Qed.

Lemma drain_bytes_started buffer d max e d' rest :
  drain_backend_response_bytes buffer d max = Ok (e, d', rest) -> response_started d' = false ->
  response_started d = false /\ match e with DrainedBytes bs _ => bs = [] | _ => True end.
Proof.
  unfold drain_backend_response_bytes, drain_with_limit. destruct (max <? len buffer); [naive_solver|].
  destruct (drain_loop _ d buffer [] None) as [[[[[d0 rest0] fwd] ready]| |]|] eqn:E; try done.
  cbn. intros [= <- <- <-] Hs. eapply drain_loop_started in E as [Hd ->]; [|done]. split; [done|].
  by destruct (_ && _).
Qed.

Definition still (d : BackendResponseDrain) (h : list event) : Prop := response_started d = false -> spoken h = false.

Lemma still_snoc d h e : is_client_write e = false -> still d h -> still d (h ++ [e]).
Proof. intros He Hq Hs. rewrite spoken_snoc, He, orb_false_r. auto. Qed.

Definition honest {A} (r : option (result failure A)) (s : Sess) (h : list event) : Prop :=
  match r with Some (Err (BackendFailure _ false)) => spoken h = false | _ => True end.

Lemma runtime_chunk_honest k max d buffer s h :
  still d h ->
  wp (runtime_chunk k max d buffer)
     (fun r s h => match r with Some (Ok (inr (_, d))) => still d h | Some (Err (BackendFailure _ _)) => False | _ => True end)
     s h.
Proof.
  intros Hq. unfold runtime_chunk.
  destruct (drain_backend_response_bytes buffer d max) as [[[e d'] rest]|e|] eqn:E; [|done..]. cbn [lift_wire map_err].
  pose proof (drain_bytes_started _ _ _ _ _ _ E) as Hd.
  assert (still d' h) as Hq' by (intros Hs; by apply Hq, Hd).
  apply wp_bind. eapply wp_mono with (Q := fun r _ h' => h' = h /\ is_Some r); [by destruct k; cbn; eauto|].
  intros _ s' h' [-> [k' ->]]. destruct e as [bs ready| |]; [|done..].
  apply wp_bind. case_bool_decide as Hb.
  - cbn. destruct ready; [done|]. by destruct (flushed d').
  - eapply wp_mono with (Q := fun r _ h' => response_started d' = true \/ bs = []); [|].
    { destruct (response_started d') eqn:Hs; [|by destruct (Hd eq_refl)]. destruct k'; cbn; eauto. }
    intros [sent|] s2 h2 H2; [|done]. destruct H2 as [H2|]; [|done]. destruct sent; [|done]. cbn. destruct ready; [done|].
    destruct (flushed d'); [done|]. intros Hs. by rewrite H2 in Hs.
Qed.

Lemma runtime_loop_honest fuel b k max d s h : still d h -> wp (runtime_loop fuel b k max d) honest s h.
Proof.
  revert k d s h. induction fuel as [|fuel IH]; intros k d s h Hq; cbn [runtime_loop]; [done|].
  apply wp_act. intros e. apply (still_snoc _ _ (Ev (ReadBackend b) e)) in Hq; [|done].
  set (h1 := h ++ _) in *. clearbody h1. apply wp_bind.
  eapply wp_mono with (Q := fun r s' h' => s' = s /\ h' = h1 /\ is_Some r); [by destruct k; cbn; eauto|].
  intros _ s' h' (-> & -> & [buffer ->]).
  assert (wp (Ret (Err (BackendFailure FailRead (response_started d || negb (bool_decide (buffer = []))))) )
            (honest (A := BackendForwardOutcome)) s h1) as Hf.
  { cbn. destruct (response_started d) eqn:Hs; [done|]. case_bool_decide; [by apply Hq|done]. }
  destruct e as [[|x bs]| |]; [exact Hf| |exact Hf..].
  apply wp_bind. eapply wp_mono with (Q := fun r _ h' => h' = h1 /\ is_Some r); [by destruct k; cbn; eauto|].
  intros _ s2 h2 [-> [k' ->]]. apply wp_and_then. eapply wp_mono; [by apply runtime_chunk_honest|].
  intros [[[outcome|[k2 d2]]|e|]|] s3 h3 H3; try done; [by apply IH|]. by destruct e as [? []| |].
Qed.

Lemma runtime_attempt_honest cfg b planned shape s h :
  spoken h = false ->
  wp (runtime_attempt cfg b planned shape)
     (fun r _ h => forall kind, r = Some (Some (Err (BackendFailure kind false))) -> spoken h = false) s h.
Proof.
  intros Hh. eapply wp_mono.
  - apply (wp_timeout_view spoken (fun t e => t || is_client_write e) _
             (fun r s t => match r with Some (Err (BackendFailure _ false)) => t = false | _ => True end) [] _ h h);
      [apply spoken_snoc|by intros [] ?| |done].
    apply wp_act. intros []; cbn [negb]; [|cbn; by rewrite spoken_snoc, Hh]. cbv zeta.
    destruct (flushed _); [done|]. apply wp_act. intros reads. apply runtime_loop_honest.
    intros _. by rewrite !spoken_snoc, Hh.
  - intros r s' h' Hr kind ->. exact Hr.
Qed.
End Spoken.

Section Heard.
(** The server has sent a byte. *)
Definition is_server_bytes (e : event) : bool :=
  match e with
  | Ev c x =>
      match c return answer c -> bool with
      | ReadBackend _ => fun x => match x with Chunk (_ :: _) => true | _ => false end
      | _ => fun _ => false
      end x
  end.
Definition heard (h : list event) : bool := existsb is_server_bytes h.

Lemma heard_snoc h e : heard (h ++ [e]) = heard h || is_server_bytes e.
Proof. unfold heard. by rewrite existsb_app, orb_comm; cbn; rewrite orb_false_r, orb_comm. Qed.

(** With no injected Parse, a drain that has not started took nothing. *)
Lemma drain_loop_keeps fuel d buffer fwd ready d' rest fwd' ready' :
  drain_loop fuel d buffer fwd ready = Some (Ok (d', rest, fwd', ready')) ->
  injected_parse_completes d = 0%nat ->
  injected_parse_completes d' = 0%nat /\ (response_started d' = false -> rest = buffer).
Proof.
  revert d buffer fwd ready. induction fuel as [|fuel IH]; intros d buffer fwd ready Hl Hi; cbn [drain_loop] in Hl; [done|].
  destruct (parse_backend_frame buffer) as [[[f|] rest0]| |] eqn:E; try done.
  - unfold drain_frame in Hl. rewrite Hi in Hl. cbn [Nat.ltb Nat.leb andb] in Hl.
    pose proof (drain_loop_started _ _ _ _ _ _ _ _ _ Hl) as Hs.
    apply IH in Hl as [H1 _]; [|done]. split; [done|]. by intros [? _]%Hs.
  - injection Hl as <- <- <- <-. split; [done|]. intros _. by apply parse_backend_frame_None.
Qed.

Lemma drain_bytes_keeps buffer d max e d' rest :
  drain_backend_response_bytes buffer d max = Ok (e, d', rest) -> injected_parse_completes d = 0%nat ->
  injected_parse_completes d' = 0%nat /\ (response_started d' = false -> rest = buffer).
Proof.
  unfold drain_backend_response_bytes, drain_with_limit. destruct (max <? len buffer); [naive_solver|].
  destruct (drain_loop _ d buffer [] None) as [[[[[d0 rest0] fwd] ready]| |]|] eqn:E; try done.
  cbn. intros [= <- <- <-]. by eapply drain_loop_keeps.
Qed.

(** What the sink's buffer holds. *)
Definition sink_bytes (k : Sink) (s : Sess) : bytes := match k with ToClient => backend_read s | Discarded bs => bs end.

(** As long as the answer has not started and the buffer is empty, the server
    has sent nothing. *)
Definition unheard (k : Sink) (d : BackendResponseDrain) (s : Sess) (h : list event) : Prop :=
  injected_parse_completes d = 0%nat /\ (response_started d = false -> sink_bytes k s = [] -> heard h = false).

Definition deaf {A} (r : option (result failure A)) (s : Sess) (h : list event) : Prop :=
  match r with Some (Err (BackendFailure _ false)) => heard h = false | _ => True end.

Lemma runtime_chunk_unheard k max d buffer s h :
  injected_parse_completes d = 0%nat -> buffer <> [] ->
  wp (runtime_chunk k max d buffer)
     (fun r s h => match r with
                   | Some (Ok (inr (k, d))) => unheard k d s h
                   | Some (Err (BackendFailure _ _)) => False
                   | _ => True
                   end) s h.
Proof.
  intros Hi Hne. unfold runtime_chunk.
  destruct (drain_backend_response_bytes buffer d max) as [[[e d'] rest]|e|] eqn:E; [|done..]. cbn [lift_wire map_err].
  destruct (drain_bytes_keeps _ _ _ _ _ _ E Hi) as [Hi' Hk].
  apply wp_bind. eapply wp_mono with (Q := fun r s' _ => exists k', r = Some k' /\ sink_bytes k' s' = rest);
    [by destruct k; cbn; eauto|].
  intros _ s' h' (k' & -> & Hheld).
  assert (forall h, unheard k' d' s' h) as Hu by (intros h0; split; [done|]; intros Hs; by rewrite Hheld, Hk in * ).
  destruct e as [bs ready| |]; [|done|apply Hu].
  apply wp_bind. eapply wp_mono with (Q := fun r s2 _ => s2 = s' /\ is_Some r);
    [case_bool_decide; [by cbn; eauto|by destruct k'; cbn; eauto]|].
  intros _ s2 h2 [-> [sent ->]]. destruct sent; [|done]. cbn. destruct ready; [done|]. by destruct (flushed d').
Qed.

Lemma runtime_loop_deaf fuel b k max d s h : unheard k d s h -> wp (runtime_loop fuel b k max d) deaf s h.
Proof.
  revert k d s h. induction fuel as [|fuel IH]; intros k d s h [Hi Hq]; cbn [runtime_loop]; [done|].
  apply wp_act. intros e. apply wp_bind.
  eapply wp_mono with (Q := fun r s' h' => s' = s /\ h' = h ++ [Ev (ReadBackend b) e] /\ r = Some (sink_bytes k s));
    [by destruct k; cbn; eauto|].
  intros _ s' h' (-> & -> & ->).
  assert (is_server_bytes (Ev (ReadBackend b) e) = false ->
    wp (Ret (Err (BackendFailure FailRead (response_started d || negb (bool_decide (sink_bytes k s = []))))))
       (deaf (A := BackendForwardOutcome)) s (h ++ [Ev (ReadBackend b) e])) as Hf.
  { intros He. cbn [wp deaf]. destruct (response_started d) eqn:Hs; [done|]. case_bool_decide; [|done]. cbn [orb negb].
    rewrite heard_snoc, He, orb_false_r. auto. }
  destruct e as [[|x bs]| |]; [by apply Hf| |by apply Hf..].
  apply wp_bind. eapply wp_mono with (Q := fun r _ _ => is_Some r); [by destruct k; cbn; eauto|].
  intros _ s2 h2 [k' ->]. apply wp_and_then.
  eapply wp_mono; [apply runtime_chunk_unheard; [done|by destruct (sink_bytes k s)]|].
  intros [[[outcome|[k2 d2]]|e|]|] s3 h3 H3; try done; [by apply IH|]. by destruct e as [? []| |].
Qed.

Lemma runtime_attempt_deaf cfg b planned shape s h :
  heard h = false -> pc_injected_parse_completes planned = 0%nat ->
  wp (runtime_attempt cfg b planned shape)
     (fun r _ h => forall kind, r = Some (Some (Err (BackendFailure kind false))) -> heard h = false) s h.
Proof.
  intros Hh Hi. eapply wp_mono.
  - apply (wp_timeout_view heard (fun t e => t || is_server_bytes e) _
             (fun r s t => match r with Some (Err (BackendFailure _ false)) => t = false | _ => True end) [] _ h h);
      [apply heard_snoc|by intros [] ?| |done].
    apply wp_act. intros []; cbn [negb]; [|cbn; by rewrite heard_snoc, Hh]. cbv zeta.
    destruct (flushed _); [done|]. apply wp_act. intros reads. apply runtime_loop_deaf. split; [done|].
    intros _ _. by rewrite !heard_snoc, Hh.
  - intros r s' h' Hr kind ->. exact Hr.
Qed.
End Heard.

Section Borrowing.
Context `{HC : Crypto} (cfg : SessionConfig).

Lemma shared_failover_error_borrows message s : borrows 0 (shared_failover_error message) s.
Proof. apply (confined_borrows (fun _ => True)). unfold shared_failover_error, write_shared_error_response. lend_tac. Qed.

Lemma shared_replacement_borrows1 route target replay s : borrows 1 (shared_replacement cfg route target replay) s.
Proof.
  split; [lia|]. intros [b|e|]; try done. apply (confined_borrows (fun _ => True)).
  change (prog_bind _ _ ?f (Ret ?a)) with (f a). unfold owning.
  lend_tac; (eapply user_lends_nothing; first [apply bootstrap_backend_user|apply forward_runtime_cycle_user]).
Qed.

Lemma retry_shared_borrows b route target planned shape s : borrows 1 (retry_shared cfg b route target planned shape) s.
Proof.
  apply borrows_act; [done|]. intros _. intros ? ?. apply borrows_act; [done|].
  intros []; [by eapply borrows_mono, shared_failover_error_borrows; lia|].
  apply borrows_get. cbv zeta. apply (borrows_bind 1 0 (timeout [] _)); [apply borrows_timeout, shared_replacement_borrows1|].
  intros [[b'|e|]|] s'; [|apply shared_failover_error_borrows|done|apply shared_failover_error_borrows].
  apply borrows_act; [done|]. intros _. cbn -[borrows runtime_attempt].
  apply (borrows_bind 0 0 (runtime_attempt _ _ _ _)); [|done].
  eapply (confined_borrows (fun _ => True)), user_lends_nothing, runtime_attempt_user.
Qed.
End Borrowing.

Lemma may_retry_shared_true cfg frames plans s r :
  may_retry_shared cfg frames plans (session s) r = Some true ->
  r = Some (Err (BackendFailure FailRead false)) /\ Forall (fun f => tag f = frontend_byte Query) frames /\
  Virtual.pin_reason (session s) = None /\
  (Virtual.has_replayable_settings (session s) = true ->
   failover_enabled cfg = true /\ failover_replay_session_state cfg = true) /\
  exists p a, plans = [p] /\ plan_analysis p = Some a /\ routes_to_replica (an_query_class a) = true.
Proof.
  destruct r as [[outcome|e|]|]; try done. intros Hm.
  destruct (may_retry_true cfg frames plans s (Some (Err e))) as ([= ->] & Hrest); [by destruct e|done].
Qed.

(** C8. When the io_uring engine sends a query a second time: at most one
    further connection is borrowed in a cycle; when one is, the first attempt
    ended because its server could not be read any more, nothing had been
    written to the client and, when no Parse of the proxy's own was in the
    cycle, the server had sent no byte at all, not even a part of a frame;
    nothing pinned the session, session settings were set only if the
    configuration replays them, and the cycle was a single simple Query
    message whose text is made of statements that are reads by their words
    ([SqlClassify.replica_read]) or transaction control, one of them a read.
    The text may hold several statements, which
    docs/transparent-failover.md says are not replayed (see
    [Scenarios.several_statements_are_replayed]; the decision is shared).
    The last conjunct takes the plans from [request_plans_for_frames] with a
    cache that holds what it was given. *)
Theorem shared_replay_only_before_response `{Crypto} cfg env b route target frames plans planned shape s :
  let '(first, s1, h1) := run env (runtime_attempt cfg b planned shape) s [] in
  let '(r, s2, h2) := run env (send_shared cfg b route target frames plans planned shape) s [] in
  (checkouts h2 <= 1)%nat /\
  ((0 < checkouts h2)%nat ->
   first = Some (Some (Err (BackendFailure FailRead false))) /\ spoken h1 = false /\
   (pc_injected_parse_completes planned = 0%nat -> heard h1 = false) /\
   Forall (fun f => tag f = frontend_byte Query) frames /\
   Virtual.pin_reason (session s1) = None /\
   (Virtual.has_replayable_settings (session s1) = true ->
    failover_enabled cfg = true /\ failover_replay_session_state cfg = true) /\
   (exists p a, plans = [p] /\ plan_analysis p = Some a /\ routes_to_replica (an_query_class a) = true) /\
   (forall prepared analyze c c', cache_ok c ->
     request_plans_for_frames prepared frames analyze c = Ok (c', plans) ->
     exists f q, frames = [f] /\ parse_simple_query f = Ok (Some q) /\ reads_only q)).
Proof.
  unfold send_shared. rewrite run_bind.
  pose proof (wp_sound _ _ _ _ env (runtime_attempt_honest cfg b planned shape s [] eq_refl)) as Hsp.
  assert (pc_injected_parse_completes planned = 0%nat -> _) as Hdeaf
    by exact (fun Hi => wp_sound _ _ _ _ env (runtime_attempt_deaf cfg b planned shape s [] eq_refl Hi)).
  assert (checkouts (snd (run env (runtime_attempt cfg b planned shape) s [])) <= 0)%nat as Hc1.
  { apply (run_borrows env 0). eapply (confined_borrows (fun _ => True)), user_lends_nothing, runtime_attempt_user. }
  destruct (run env (runtime_attempt _ _ _ _) s []) as [[[first|] s1] h1]; cbn [snd] in Hc1; [|lia].
  change (get ≫= ?f) with (Get f). cbn [run].
  destruct (may_retry_shared cfg frames plans (session s1) first) as [[]|] eqn:Hm.
  - apply may_retry_shared_true in Hm as (-> & Hm).
    pose proof (run_borrows env 1 _ s1 h1 (retry_shared_borrows cfg b route target planned shape s1)) as Hc2.
    destruct (run _ _ s1 h1) as [[r s2] h2]. cbn [snd] in Hc2. split; [lia|]. intros _.
    destruct Hm as (Hq & Hp & Hs & p & a & -> & Ha & Hr).
    split_and!; eauto. intros. by eapply single_read_plan.
  - cbn [run]. lia.
  - cbn [run act mbind prog_bind bind]. rewrite checkouts_snoc. cbn [is_checkout]. lia.
Qed.

(** ** Runs *)

#[local] Existing Instance toy.

Definition shared_script (reads : list ReadEvent) (packets : list bytes) : Script :=
  {| sc_packets := packets; sc_started := true; sc_reads := reads; sc_idle := []; sc_late := never; sc_deny := allow |}.
Definition shared_program : fallible unit :=
  proxy_connection (demo_admission TlsDisable AuthScramSha256) (demo_config ModeOff RecoverMode) false 1.
Definition shared_demo (env : Effects.Env) := run env shared_program demo_session [].
Definition greeting : note :=
  Told (synthetic_startup_ready false [(lit "server_version", lit "16.0")] (7, 11)).

(** A client that logs in and asks one query. *)
Lemma shared_session_custody_witness :
  let env := scripted (shared_script [Chunk (completes "SELECT 1" RS_Idle)] [app_packet; query "select 1"]) in
  held_backend demo_session = None /\
  story (shared_demo env) =
    [Lent 0; greeting; Returned 0;
     Lent 1; Sent 1 (query "select 1"); Answered 1 (completes "SELECT 1" RS_Idle);
     Told (completes "SELECT 1" RS_Idle); Returned 1] /\
  let '(r, s', h) := shared_demo env in
  ledger_of h <> None /\ (is_Some r -> ledger_of h = Some (None, false) /\ held_backend s' = None).
Proof.
  cbv zeta. split; [reflexivity|]. split; [vm_compute; reflexivity|].
  unfold shared_demo, shared_program. apply shared_session_custody. reflexivity.
Defined.

(** A read whose server died is asked of another connection. *)
Lemma shared_dead_server_read_is_replayed :
  story (shared_demo (scripted (shared_script [Eof; Chunk (completes "SELECT 1" RS_Idle)] [app_packet; query "select 1"]))) =
    [Lent 0; greeting; Returned 0; Lent 1; Sent 1 (query "select 1"); Silent 1; Dropped 1;
     Lent 2; Sent 2 (query "select 1"); Answered 2 (completes "SELECT 1" RS_Idle);
     Told (completes "SELECT 1" RS_Idle); Returned 2].
Proof. vm_compute. reflexivity. Qed.

(** A client that goes away in the middle of a transaction: its connection
    is given back as it is. *)
Lemma shared_transaction_is_given_away :
  story (shared_demo (scripted (shared_script [begun] [app_packet; query "begin"]))) =
    [Lent 0; greeting; Returned 0; Lent 1; Sent 1 (query "begin"); Answered 1 (completes "BEGIN" RS_InTransaction);
     Told (completes "BEGIN" RS_InTransaction); Returned 1].
Proof. vm_compute. reflexivity. Qed.

(** Session settings stay on the connection for its next user. *)
Lemma shared_settings_are_given_away :
  story (shared_demo (scripted (shared_script [Chunk (completes "SET" RS_Idle)] [app_packet; query "set search_path = app"]))) =
    [Lent 0; greeting; Returned 0; Lent 1; Sent 1 (query "set search_path = app"); Answered 1 (completes "SET" RS_Idle);
     Told (completes "SET" RS_Idle); Returned 1].
Proof. vm_compute. reflexivity. Qed.

(** A cycle that ends with Flush: the connection is given back before the
    Sync, and the Bind goes to a connection that never saw the Parse. *)
Definition message (t : FrontendTag) (p : bytes) : FrontendFrame := {| tag := frontend_byte t; payload := p |}.
Definition parse_flush : bytes :=
  encode_frontend [message Parse ([0] ++ encode_utf8 (lit "select 1") ++ [0; 0; 0]); message Flush []].
Definition bind_sync : bytes :=
  encode_frontend [message Bind [0; 0; 0; 0; 0; 0; 0; 0]; message Execute [0; 0; 0; 0; 0]; message Sync []].
Definition parsed : bytes := encode_backend_message_raw (backend_byte ParseComplete) [].

Lemma shared_flush_changes_connection :
  story (shared_demo (scripted (shared_script [Chunk parsed; Chunk (completes "SELECT 1" RS_Idle)]
                                  [app_packet; parse_flush; bind_sync]))) =
    [Lent 0; greeting; Returned 0; Lent 1; Sent 1 parse_flush; Answered 1 parsed; Told parsed; Returned 1;
     Lent 2; Sent 2 bind_sync; Answered 2 (completes "SELECT 1" RS_Idle); Told (completes "SELECT 1" RS_Idle); Returned 2].
Proof. vm_compute. reflexivity. Qed.

(** A query in the same segment as the startup packet is never answered. *)
Lemma shared_early_query_is_lost :
  story (shared_demo (scripted (shared_script [Chunk (completes "SELECT 1" RS_Idle)] [app_packet ++ query "select 1"]))) =
    [Lent 0; greeting; Returned 0].
Proof. vm_compute. reflexivity. Qed.

(** The pool's second connection is new: the startup packet is sent again
    before the second statement of its transaction. *)
Definition new_connections (sc : Script) : Effects.Env :=
  fun h c =>
    match c return answer c with
    | Checkout _ _ _ =>
        let n := count_cmd is_checkout h in
        Ok {| lease_backend_id := Z.of_nat n; requires_startup := negb (Nat.eqb n 0) |}
    | c => scripted sc h c
    end.
Definition logged_in : bytes := encode_backend_message_raw (backend_byte Authentication) [0; 0; 0; 0] ++ ready_for_query RS_Idle.

Lemma shared_startup_is_repeated :
  story (shared_demo (new_connections (shared_script [Chunk logged_in; begun] [app_packet; query "begin"; query "select 1"]))) =
    [Lent 0; greeting; Returned 0;
     Lent 1; Sent 1 app_packet; Answered 1 logged_in; Sent 1 (query "begin"); Answered 1 (completes "BEGIN" RS_InTransaction);
     Told (completes "BEGIN" RS_InTransaction); Sent 1 app_packet]
    ++ replicate 30 (Silent 1).
Proof. vm_compute. reflexivity. Qed.
