(* ===== verification/Config.v ===== *)
(** * Config: the settings of the proxy

    Models the records, defaults, checks and comparisons of
    [pg-kinetic-proxy/src/config.rs] that make up [Config]. A path is its
    text and a [Duration] a number of milliseconds. Two configurations are
    compared as the derived [PartialEq] does: a NaN differs from itself.
    Reading the command line, the environment and TOML is library code. *)

From S2P Require Import Prelude Text RoutingTypes Route Secrets Auth Pool Guardrails Recovery F64 Pressure Admission.

(** ** Connections and routes *)

Inductive BackendTlsMode := BackendTlsDisable | BackendTlsPrefer | BackendTlsRequire | BackendTlsVerifyCa | BackendTlsVerifyFull.
Inductive RoutePriority := PriorityCritical | PriorityNormal | PrioritySheddable.

Record ConnectionConfig := { listen_addr : SocketAddr; backend_addr : SocketAddr }.

Record PoolConfig := {
  pool_database : str;
  pool_user : str;
  pool_backend_addr : SocketAddr;
  pool_max_backends : option Z;
}.

Record BackendEndpointConfig := {
  endpoint_address : SocketAddr;
  endpoint_connect_timeout_ms : Z;
  endpoint_tls_mode : BackendTlsMode;
}.
Record ReplicaConfig := {
  replica_address : SocketAddr;
  replica_connect_timeout_ms : Z;
  replica_tls_mode : BackendTlsMode;
  replica_weight : Z;
}.
Record ReadRoutingConfig := { routing_mode : ReadRoutingMode; routing_fallback_policy : FallbackPolicy }.
Record FreshnessConfig := {
  freshness_policy : FreshnessPolicy;
  freshness_max_replica_lag_ms : Z;
  read_after_write_timeout_ms : Z;
}.
Record HaConfig := { replica_health_interval_ms : Z; replica_health_timeout_ms : Z }.
Record RouteConfig := {
  route_primary : BackendEndpointConfig;
  route_weight : Z;
  route_max_in_flight : option Z;
  route_priority : RoutePriority;
  route_replicas : list ReplicaConfig;
  route_read_routing : ReadRoutingConfig;
  route_freshness : FreshnessConfig;
  route_ha : HaConfig;
}.

(** ** The runtime *)

Record LifecycleConfig := {
  startup_grace_ms : Z;
  shutdown_grace_ms : Z;
  readiness_fail_during_drain : bool;
  pre_stop_drain_enabled : bool;
  pre_stop_drain_endpoint : str;
  startup_backend_checks_enabled : bool;
  termination_grace_period_seconds : Z;
}.
Inductive RuntimeEngine := TokioDefault | TokioCurrentThread | ThreadPerCore | IoUring.
Record RuntimeEngineConfig := {
  runtime_engine : RuntimeEngine;
  experimental_runtime_enabled : bool;
  runtime_shards : option Z;
}.

Inductive AdaptiveMode := ModeRecommend | ModeApply.
Inductive TunableKnob := PoolSize | BackpressureThresholds | MirrorSampling | TimeoutKnob.
Record AdaptiveApplyConfig := {
  adaptive_apply_enabled : bool;
  adaptive_apply_allowlist : list TunableKnob;
}.
Record AdaptiveGuardrailConfig := { adaptive_max_change_percent : Z }.
Record AdaptiveConfig := {
  adaptive_mode : AdaptiveMode;
  adaptive_window_ms : Z;
  adaptive_min_confidence : f64;
  adaptive_apply : AdaptiveApplyConfig;
  adaptive_guardrail : AdaptiveGuardrailConfig;
}.
Record ProductionConfig := {
  control_plane_enabled : bool;
  mirroring_enabled : bool;
  adaptive_enabled : bool;
  adaptive : AdaptiveConfig;
  pressure : PressureConfig;
}.
Record RuntimeConfig := {
  lifecycle : LifecycleConfig;
  node_id : str;
  engine : RuntimeEngineConfig;
  production : ProductionConfig;
}.

(** ** Limits and operations *)

Record CapacityConfig := { max_clients : Z; max_backends : Z; max_checkout_waiters : Z }.
Record PerformanceConfig := {
  checkout_timeout_ms : Z;
  performance_pool_mode : PoolMode;
  performance_recovery_mode : RecoveryMode;
  recovery_timeout_ms : Z;
  backend_reset_query : str;
}.
Record QosConfig := {
  qos_max_route_in_flight : Z;
  qos_max_route_waiters : Z;
  query_timeout_ms : Z;
  idle_client_timeout_ms : Z;
  idle_transaction_timeout_ms : Z;
  qos_max_client_buffer_bytes : Z;
  qos_max_backend_buffer_bytes : Z;
  qos_overload_error_code : str;
}.
Record AdminConfig := {
  admin_addr : option SocketAddr;
  admin_require_tls : bool;
  admin_allowed_user : option str;
  admin_query_timeout_ms : Z;
  admin_max_clients : Z;
}.
Inductive LogFormat := LogText | LogJson.
Record ObservabilityConfig := {
  metrics_addr : option SocketAddr;
  log_level : str;
  log_format : LogFormat;
  debug_trace_sampling_rate : f64;
  phase_timing_sample_rate : f64;
  otel_enabled : bool;
  otel_endpoint : option str;
  otel_service_name : str;
}.
Record AuditConfig := {
  audit_enabled : bool;
  audit_sink : option str;
  audit_sample_rate : f64;
  audit_include_reads : bool;
}.
Record ResilienceConfig := {
  resilience_failover_enabled : bool;
  failover_max_reconnect_ms : Z;
  resilience_replay_session_state : bool;
  breaker_failure_threshold : Z;
  breaker_cooldown_ms : Z;
  hedging_enabled : bool;
  hedge_delay_ms : Z;
}.
Record TlsConfig := {
  client_tls_mode : ClientTlsMode;
  client_cert_path : option str;
  client_key_path : option str;
  client_ca_path : option str;
  backend_tls_mode : BackendTlsMode;
  backend_ca_path : option str;
  backend_server_name : option str;
}.
Record ReloadConfig := {
  config_file : option str;
  config_reload_interval_ms : Z;
  reload_enabled : bool;
}.
Record DrainConfig := { drain_timeout_ms : Z; reject_new_clients_during_drain : bool }.
Record HealthConfig := {
  health_addr : option SocketAddr;
  readiness_backend_check_interval_ms : Z;
  readiness_timeout_ms : Z;
}.
Record SocketConfig := {
  tcp_nodelay : bool;
  tcp_keepalive : bool;
  tcp_keepalive_idle_ms : option Z;
  tcp_keepalive_interval_ms : option Z;
  tcp_keepalive_retries : option Z;
  tcp_user_timeout_ms : option Z;
  tcp_send_buffer_bytes : option Z;
  tcp_recv_buffer_bytes : option Z;
  strict_socket_option_mode : bool;
}.

Record Config := {
  connection : ConnectionConfig;
  routes : list RouteConfig;
  pools : list PoolConfig;
  runtime : RuntimeConfig;
  capacity : CapacityConfig;
  pool_lifecycle : PoolLifecycleConfig;
  performance : PerformanceConfig;
  guardrails : GuardrailsConfig;
  qos : QosConfig;
  admin : AdminConfig;
  observability : ObservabilityConfig;
  audit : AuditConfig;
  resilience : ResilienceConfig;
  tls : TlsConfig;
  auth : AuthConfig;
  reload : ReloadConfig;
  drain : DrainConfig;
  health : HealthConfig;
  socket : SocketConfig;
}.

#[global] Instance BackendTlsMode_eq_dec : EqDecision BackendTlsMode.
Proof. solve_decision. Defined.
#[global] Instance RoutePriority_eq_dec : EqDecision RoutePriority.
Proof. solve_decision. Defined.
#[global] Instance ConnectionConfig_eq_dec : EqDecision ConnectionConfig.
Proof. solve_decision. Defined.
#[global] Instance PoolConfig_eq_dec : EqDecision PoolConfig.
Proof. solve_decision. Defined.
#[global] Instance BackendEndpointConfig_eq_dec : EqDecision BackendEndpointConfig.
Proof. solve_decision. Defined.
#[global] Instance ReplicaConfig_eq_dec : EqDecision ReplicaConfig.
Proof. solve_decision. Defined.
#[global] Instance ReadRoutingConfig_eq_dec : EqDecision ReadRoutingConfig.
Proof. solve_decision. Defined.
#[global] Instance FreshnessConfig_eq_dec : EqDecision FreshnessConfig.
Proof. solve_decision. Defined.
#[global] Instance HaConfig_eq_dec : EqDecision HaConfig.
Proof. solve_decision. Defined.
#[global] Instance RouteConfig_eq_dec : EqDecision RouteConfig.
Proof. solve_decision. Defined.
#[global] Instance LifecycleConfig_eq_dec : EqDecision LifecycleConfig.
Proof. solve_decision. Defined.
#[global] Instance RuntimeEngine_eq_dec : EqDecision RuntimeEngine.
Proof. solve_decision. Defined.
#[global] Instance RuntimeEngineConfig_eq_dec : EqDecision RuntimeEngineConfig.
Proof. solve_decision. Defined.
#[global] Instance AdaptiveMode_eq_dec : EqDecision AdaptiveMode.
Proof. solve_decision. Defined.
#[global] Instance TunableKnob_eq_dec : EqDecision TunableKnob.
Proof. solve_decision. Defined.
#[global] Instance AdaptiveApplyConfig_eq_dec : EqDecision AdaptiveApplyConfig.
Proof. solve_decision. Defined.
#[global] Instance AdaptiveGuardrailConfig_eq_dec : EqDecision AdaptiveGuardrailConfig.
Proof. solve_decision. Defined.
#[global] Instance CapacityConfig_eq_dec : EqDecision CapacityConfig.
Proof. solve_decision. Defined.
#[global] Instance PoolLifecycleConfig_eq_dec : EqDecision PoolLifecycleConfig.
Proof. solve_decision. Defined.
#[global] Instance RecoveryMode_eq_dec : EqDecision RecoveryMode.
Proof. solve_decision. Defined.
#[global] Instance PerformanceConfig_eq_dec : EqDecision PerformanceConfig.
Proof. solve_decision. Defined.
#[global] Instance GuardrailsConfig_eq_dec : EqDecision GuardrailsConfig.
Proof. solve_decision. Defined.
#[global] Instance QosConfig_eq_dec : EqDecision QosConfig.
Proof. solve_decision. Defined.
#[global] Instance AdminConfig_eq_dec : EqDecision AdminConfig.
Proof. solve_decision. Defined.
#[global] Instance LogFormat_eq_dec : EqDecision LogFormat.
Proof. solve_decision. Defined.
#[global] Instance ResilienceConfig_eq_dec : EqDecision ResilienceConfig.
Proof. solve_decision. Defined.
#[global] Instance TlsConfig_eq_dec : EqDecision TlsConfig.
Proof. solve_decision. Defined.
#[global] Instance AuthFailureMessageMode_eq_dec : EqDecision AuthFailureMessageMode.
Proof. solve_decision. Defined.
#[global] Instance AuthConfig_eq_dec : EqDecision AuthConfig.
Proof. solve_decision. Defined.
#[global] Instance ReloadConfig_eq_dec : EqDecision ReloadConfig.
Proof. solve_decision. Defined.
#[global] Instance DrainConfig_eq_dec : EqDecision DrainConfig.
Proof. solve_decision. Defined.
#[global] Instance HealthConfig_eq_dec : EqDecision HealthConfig.
Proof. solve_decision. Defined.
#[global] Instance SocketConfig_eq_dec : EqDecision SocketConfig.
Proof. solve_decision. Defined.

(** ** Defaults *)

Definition localhost (port : Z) : SocketAddr := V4 (127 * 2 ^ 24 + 1) port.

Definition endpoint_default : BackendEndpointConfig :=
  {| endpoint_address := localhost 5432; endpoint_connect_timeout_ms := 1000; endpoint_tls_mode := BackendTlsDisable |}.
Definition replica_default : ReplicaConfig :=
  {| replica_address := localhost 5432; replica_connect_timeout_ms := 1000; replica_tls_mode := BackendTlsDisable;
     replica_weight := 1 |}.
Definition read_routing_default : ReadRoutingConfig :=
  {| routing_mode := ModeOff; routing_fallback_policy := FallbackToPrimary |}.
Definition freshness_default : FreshnessConfig :=
  {| freshness_policy := SessionWriteLsn; freshness_max_replica_lag_ms := 1000; read_after_write_timeout_ms := 500 |}.
Definition ha_default : HaConfig := {| replica_health_interval_ms := 1000; replica_health_timeout_ms := 500 |}.
Definition from_backend_addr (address : SocketAddr) : RouteConfig := {|
  route_primary := {| endpoint_address := address;
                      endpoint_connect_timeout_ms := endpoint_connect_timeout_ms endpoint_default;
                      endpoint_tls_mode := endpoint_tls_mode endpoint_default |};
  route_weight := 1; route_max_in_flight := None; route_priority := PriorityNormal; route_replicas := [];
  route_read_routing := read_routing_default; route_freshness := freshness_default; route_ha := ha_default |}.

Definition lifecycle_default : LifecycleConfig :=
  {| startup_grace_ms := 30000; shutdown_grace_ms := 30000; readiness_fail_during_drain := true;
     pre_stop_drain_enabled := true; pre_stop_drain_endpoint := lit "/drain";
     startup_backend_checks_enabled := true; termination_grace_period_seconds := 65 |}.
Definition engine_default : RuntimeEngineConfig :=
  {| runtime_engine := ThreadPerCore; experimental_runtime_enabled := false; runtime_shards := None |}.
(** 0.8 is four fifths to the nearest number. *)
Definition adaptive_default : AdaptiveConfig :=
  {| adaptive_mode := ModeRecommend; adaptive_window_ms := 60000;
     adaptive_min_confidence := f64_div (f64_of_Z 4) (f64_of_Z 5);
     adaptive_apply := {| adaptive_apply_enabled := false; adaptive_apply_allowlist := [] |};
     adaptive_guardrail := {| adaptive_max_change_percent := 10 |} |}.
Definition pressure_default : PressureConfig :=
  {| enabled := false; cpu_high_pct := f64_of_Z 20; mem_high_pct := f64_of_Z 10; min_in_flight_floor := 1;
     window_ms := 5000 |}.
Definition capacity_default : CapacityConfig :=
  {| max_clients := 10000; max_backends := 100; max_checkout_waiters := 1000 |}.
Definition pool_lifecycle_default : PoolLifecycleConfig :=
  {| max_size := 100; min_idle := 0; idle_timeout := 1800000; max_lifetime := 0 |}.
Definition performance_default : PerformanceConfig :=
  {| checkout_timeout_ms := 1000; performance_pool_mode := TransactionMode; performance_recovery_mode := RecoverMode;
     recovery_timeout_ms := 5000; backend_reset_query := lit "DISCARD ALL" |}.
Definition guardrails_default : GuardrailsConfig :=
  {| guard_mode := GuardOff; block_unqualified_dml := false; block_ddl := false; allowlist_file := None |}.
Definition qos_default : QosConfig :=
  {| qos_max_route_in_flight := 100; qos_max_route_waiters := 1000; query_timeout_ms := 30000;
     idle_client_timeout_ms := 300000; idle_transaction_timeout_ms := 60000;
     qos_max_client_buffer_bytes := 1048576; qos_max_backend_buffer_bytes := 4194304;
     qos_overload_error_code := lit "53300" |}.
Definition admin_default : AdminConfig :=
  {| admin_addr := None; admin_require_tls := false; admin_allowed_user := None; admin_query_timeout_ms := 1000;
     admin_max_clients := 8 |}.
Definition observability_default : ObservabilityConfig :=
  {| metrics_addr := None; log_level := lit "info"; log_format := LogText; debug_trace_sampling_rate := f64_zero;
     phase_timing_sample_rate := f64_zero; otel_enabled := false; otel_endpoint := None;
     otel_service_name := lit "pg-kinetic" |}.
Definition audit_default : AuditConfig :=
  {| audit_enabled := false; audit_sink := None; audit_sample_rate := f64_one; audit_include_reads := false |}.
Definition resilience_default : ResilienceConfig :=
  {| resilience_failover_enabled := false; failover_max_reconnect_ms := 1000; resilience_replay_session_state := true;
     breaker_failure_threshold := 5; breaker_cooldown_ms := 5000; hedging_enabled := false; hedge_delay_ms := 25 |}.
Definition tls_default : TlsConfig :=
  {| client_tls_mode := TlsDisable; client_cert_path := None; client_key_path := None; client_ca_path := None;
     backend_tls_mode := BackendTlsDisable; backend_ca_path := None; backend_server_name := None |}.
Definition auth_default : AuthConfig :=
  {| auth_mode := PassThrough; auth_users_file := None; backend_user := None; backend_password_env_var_name := None;
     auth_query_enabled := false; auth_query := lit "SELECT usename, passwd FROM pg_shadow WHERE usename = $1";
     auth_query_cache_ttl_ms := 60000; auth_failure_message_mode := Generic |}.
Definition reload_default : ReloadConfig :=
  {| config_file := None; config_reload_interval_ms := 5000; reload_enabled := false |}.
Definition drain_default : DrainConfig := {| drain_timeout_ms := 30000; reject_new_clients_during_drain := false |}.
Definition health_default : HealthConfig :=
  {| health_addr := None; readiness_backend_check_interval_ms := 1000; readiness_timeout_ms := 5000 |}.
Definition socket_default : SocketConfig :=
  {| tcp_nodelay := true; tcp_keepalive := false; tcp_keepalive_idle_ms := None; tcp_keepalive_interval_ms := None;
     tcp_keepalive_retries := None; tcp_user_timeout_ms := None; tcp_send_buffer_bytes := None;
     tcp_recv_buffer_bytes := None; strict_socket_option_mode := false |}.

(** [Config::default], given the node's generated identity. *)
Definition config_default (node : str) : Config := {|
  connection := {| listen_addr := localhost 6543; backend_addr := localhost 5432 |};
  routes := []; pools := [];
  runtime := {| lifecycle := lifecycle_default; node_id := node; engine := engine_default;
                production := {| control_plane_enabled := false; mirroring_enabled := false;
                                 adaptive_enabled := false; adaptive := adaptive_default;
                                 pressure := pressure_default |} |};
  capacity := capacity_default; pool_lifecycle := pool_lifecycle_default; performance := performance_default;
  guardrails := guardrails_default; qos := qos_default; admin := admin_default;
  observability := observability_default; audit := audit_default; resilience := resilience_default;
  tls := tls_default; auth := auth_default; reload := reload_default; drain := drain_default;
  health := health_default; socket := socket_default |}.

(** ** Checks *)

Definition config_error {A} (s : string) : result str A := Err (lit s).

Definition capacity_validate (c : CapacityConfig) : result str unit :=
  if max_backends c =? 0 then config_error "capacity.max_backends must be greater than zero" else Ok tt.

Definition pressure_threshold_check (name : string) (v : f64) : result str unit :=
  if validate_pressure_threshold v then Ok tt else Err (lit name ++ lit " must be between 0.0 and 100.0").
Definition pressure_validate (c : PressureConfig) : result str unit :=
  _ ← pressure_threshold_check "pressure_cpu_high_pct" (cpu_high_pct c);
  _ ← pressure_threshold_check "pressure_mem_high_pct" (mem_high_pct c);
  if min_in_flight_floor c =? 0 then config_error "pressure_min_in_flight_floor must be greater than zero"
  else if window_ms c =? 0 then config_error "pressure_window_ms must be greater than zero"
  else Ok tt.

(** [RuntimeEngine::is_experimental]: every engine is stable. *)
Definition is_experimental (e : RuntimeEngine) : bool := false.
Definition engine_as_str (e : RuntimeEngine) : str :=
  match e with
  | TokioDefault => lit "tokio_default"
  | TokioCurrentThread => lit "tokio_current_thread"
  | ThreadPerCore => lit "thread_per_core"
  | IoUring => lit "io_uring"
  end.
Definition engine_validate (c : RuntimeEngineConfig) : result str unit :=
  if is_experimental (runtime_engine c) && negb (experimental_runtime_enabled c)
  then Err (lit "runtime engine '" ++ engine_as_str (runtime_engine c)
            ++ lit "' requires experimental_runtime_enabled = true")
  else if bool_decide (runtime_shards c = Some 0) then config_error "runtime_shards must be greater than zero"
  else Ok tt.

Definition pool_lifecycle_validate (c : PoolLifecycleConfig) : result str unit :=
  if max_size c =? 0 then config_error "pool_max_size must be greater than zero"
  else if max_size c <? min_idle c then config_error "pool_min_idle cannot exceed pool_max_size"
  else Ok tt.

Definition is_apply (m : AdaptiveMode) : bool := match m with ModeApply => true | ModeRecommend => false end.
Definition guardrail_validate (c : AdaptiveGuardrailConfig) : result str unit :=
  if (adaptive_max_change_percent c =? 0) || (100 <? adaptive_max_change_percent c)
  then config_error "adaptive_max_change_percent must be between 1 and 100" else Ok tt.
Fixpoint has_duplicate (ks : list TunableKnob) : bool :=
  match ks with [] => false | k :: ks => bool_decide (k ∈ ks) || has_duplicate ks end.
Definition apply_validate (c : AdaptiveApplyConfig) : result str unit :=
  if has_duplicate (adaptive_apply_allowlist c)
  then config_error "adaptive_apply_allowlist cannot contain duplicate knobs" else Ok tt.
(** [(0.0..=1.0).contains]. *)
Definition in_unit (x : f64) : bool := f64_le f64_zero x && f64_le x f64_one.
Definition adaptive_validate (c : AdaptiveConfig) : result str unit :=
  if negb (is_finite (adaptive_min_confidence c)) || negb (in_unit (adaptive_min_confidence c))
  then config_error "adaptive_min_confidence must be between 0.0 and 1.0"
  else if adaptive_window_ms c =? 0 then config_error "adaptive_window_ms must be greater than zero"
  else
    _ ← guardrail_validate (adaptive_guardrail c);
    _ ← apply_validate (adaptive_apply c);
    if is_apply (adaptive_mode c) then
      if negb (adaptive_apply_enabled (adaptive_apply c))
      then config_error "adaptive mode 'apply' requires adaptive_apply_enabled = true"
      else if bool_decide (adaptive_apply_allowlist (adaptive_apply c) = [])
      then config_error "adaptive mode 'apply' requires an explicit allowlist of tunable knobs"
      else Ok tt
    else Ok tt.

(** [validate_pool_configs]: [seen] are the identities before this pool. *)
Fixpoint validate_pools (seen : list (str * str)) (ps : list PoolConfig) : result str unit :=
  match ps with
  | [] => Ok tt
  | p :: ps =>
      if bool_decide (pool_max_backends p = Some 0)
      then Err (lit "pool max_backends must be greater than zero for database/user "
                ++ pool_database p ++ lit "/" ++ pool_user p)
      else if bool_decide ((pool_database p, pool_user p) ∈ seen)
      then Err (lit "duplicate pool for database/user " ++ pool_database p ++ lit "/" ++ pool_user p)
      else validate_pools ((pool_database p, pool_user p) :: seen) ps
  end.

Definition effective_routes (c : Config) : list RouteConfig :=
  if bool_decide (routes c = []) then [from_backend_addr (backend_addr (connection c))] else routes c.

Fixpoint validate_routes (rs : list RouteConfig) : result str unit :=
  match rs with
  | [] => Ok tt
  | r :: rs =>
      if route_weight r =? 0 then config_error "route weight must be greater than zero"
      else if bool_decide (route_max_in_flight r = Some 0)
      then config_error "route max_in_flight must be greater than zero"
      else validate_routes rs
  end.

(** [Config::validate]. *)
Definition config_validate (c : Config) : result str unit :=
  _ ← capacity_validate (capacity c);
  _ ← auth_config_validate (auth c);
  _ ← pressure_validate (pressure (production (runtime c)));
  if breaker_failure_threshold (resilience c) =? 0
  then config_error "resilience breaker failure threshold must be greater than zero"
  else if resilience_failover_enabled (resilience c) && (failover_max_reconnect_ms (resilience c) =? 0)
  then config_error "resilience failover max reconnect must be greater than zero when enabled"
  else
    _ ← validate_routes (effective_routes c);
    validate_pools [] (pools c).

(** [try_parse_from_args], after the command line is parsed. *)
Definition parsed_config_check (c : Config) : result str Config :=
  _ ← capacity_validate (capacity c);
  _ ← engine_validate (engine (runtime c));
  _ ← pressure_validate (pressure (production (runtime c)));
  Ok c.

(** ** Rates *)

Definition clamped_rate (x : f64) : f64 := if is_finite x then f64_clamp x f64_zero f64_one else f64_zero.
Definition audit_rate (c : AuditConfig) : f64 := clamped_rate (audit_sample_rate c).
Definition trace_sampling_ratio (c : ObservabilityConfig) : f64 := clamped_rate (debug_trace_sampling_rate c).
Definition phase_timing_rate (c : ObservabilityConfig) : f64 := clamped_rate (phase_timing_sample_rate c).

(** ** Comparing configurations *)

Definition same {A} `{EqDecision A} (a b : A) : bool := bool_decide (a = b).

Definition adaptive_eqb (a b : AdaptiveConfig) : bool :=
  same (adaptive_mode a) (adaptive_mode b) && same (adaptive_window_ms a) (adaptive_window_ms b)
  && f64_eqb (adaptive_min_confidence a) (adaptive_min_confidence b)
  && same (adaptive_apply a) (adaptive_apply b) && same (adaptive_guardrail a) (adaptive_guardrail b).
Definition pressure_eqb (a b : PressureConfig) : bool :=
  same (enabled a) (enabled b) && f64_eqb (cpu_high_pct a) (cpu_high_pct b)
  && f64_eqb (mem_high_pct a) (mem_high_pct b)
  && same (min_in_flight_floor a) (min_in_flight_floor b) && same (window_ms a) (window_ms b).
Definition production_eqb (a b : ProductionConfig) : bool :=
  same (control_plane_enabled a) (control_plane_enabled b) && same (mirroring_enabled a) (mirroring_enabled b)
  && same (adaptive_enabled a) (adaptive_enabled b) && adaptive_eqb (adaptive a) (adaptive b)
  && pressure_eqb (pressure a) (pressure b).
Definition runtime_eqb (a b : RuntimeConfig) : bool :=
  same (lifecycle a) (lifecycle b) && same (node_id a) (node_id b) && same (engine a) (engine b)
  && production_eqb (production a) (production b).
Definition observability_eqb (a b : ObservabilityConfig) : bool :=
  same (metrics_addr a) (metrics_addr b) && same (log_level a) (log_level b) && same (log_format a) (log_format b)
  && f64_eqb (debug_trace_sampling_rate a) (debug_trace_sampling_rate b)
  && f64_eqb (phase_timing_sample_rate a) (phase_timing_sample_rate b)
  && same (otel_enabled a) (otel_enabled b) && same (otel_endpoint a) (otel_endpoint b)
  && same (otel_service_name a) (otel_service_name b).
Definition audit_eqb (a b : AuditConfig) : bool :=
  same (audit_enabled a) (audit_enabled b) && same (audit_sink a) (audit_sink b)
  && f64_eqb (audit_sample_rate a) (audit_sample_rate b) && same (audit_include_reads a) (audit_include_reads b).

Definition config_eqb (a b : Config) : bool :=
  same (connection a) (connection b) && same (routes a) (routes b) && same (pools a) (pools b)
  && runtime_eqb (runtime a) (runtime b) && same (capacity a) (capacity b)
  && same (pool_lifecycle a) (pool_lifecycle b) && same (performance a) (performance b)
  && same (guardrails a) (guardrails b) && same (qos a) (qos b) && same (admin a) (admin b)
  && observability_eqb (observability a) (observability b) && audit_eqb (audit a) (audit b)
  && same (resilience a) (resilience b) && same (tls a) (tls b) && same (auth a) (auth b)
  && same (reload a) (reload b) && same (drain a) (drain b) && same (health a) (health b)
  && same (socket a) (socket b).

(** Whether [b] may replace [a] in a running proxy. *)
Definition is_reload_compatible_with (a b : Config) : bool :=
  same (connection a) (connection b)
  && same (routes a) (routes b)
  && same (pools a) (pools b)
  && same (capacity a) (capacity b)
  && same (pool_lifecycle a) (pool_lifecycle b)
  && same (performance a) (performance b)
  && same (guardrails a) (guardrails b)
  && same (resilience a) (resilience b)
  && same (qos_max_route_in_flight (qos a)) (qos_max_route_in_flight (qos b))
  && same (qos_max_route_waiters (qos a)) (qos_max_route_waiters (qos b))
  && same (idle_client_timeout_ms (qos a)) (idle_client_timeout_ms (qos b))
  && same (idle_transaction_timeout_ms (qos a)) (idle_transaction_timeout_ms (qos b))
  && same (qos_max_client_buffer_bytes (qos a)) (qos_max_client_buffer_bytes (qos b))
  && same (qos_max_backend_buffer_bytes (qos a)) (qos_max_backend_buffer_bytes (qos b))
  && same (qos_overload_error_code (qos a)) (qos_overload_error_code (qos b))
  && same (admin a) (admin b)
  && observability_eqb (observability a) (observability b)
  && same (client_tls_mode (tls a)) (client_tls_mode (tls b))
  && same (client_cert_path (tls a)) (client_cert_path (tls b))
  && same (client_key_path (tls a)) (client_key_path (tls b))
  && same (client_ca_path (tls a)) (client_ca_path (tls b))
  && same (backend_tls_mode (tls a)) (backend_tls_mode (tls b))
  && same (backend_ca_path (tls a)) (backend_ca_path (tls b))
  && same (backend_server_name (tls a)) (backend_server_name (tls b))
  && same (auth_mode (auth a)) (auth_mode (auth b))
  && same (auth_query_enabled (auth a)) (auth_query_enabled (auth b))
  && same (auth_query (auth a)) (auth_query (auth b))
  && same (auth_query_cache_ttl_ms (auth a)) (auth_query_cache_ttl_ms (auth b))
  && same (auth_failure_message_mode (auth a)) (auth_failure_message_mode (auth b))
  && same (reload a) (reload b)
  && same (drain a) (drain b)
  && same (health a) (health b)
  && runtime_eqb (runtime a) (runtime b).

(** ** Names of modes *)

Definition parse_recovery_mode (value : str) : result str RecoveryMode :=
  if bool_decide (value = lit "recover") then Ok RecoverMode
  else if bool_decide (value = lit "rollback_only") then Ok RollbackOnly
  else if bool_decide (value = lit "drop") then Ok DropMode
  else Err (lit "invalid recovery mode '" ++ value ++ lit "'").
Definition serialize_recovery_mode (m : RecoveryMode) : str :=
  match m with RecoverMode => lit "recover" | RollbackOnly => lit "rollback_only" | DropMode => lit "drop" end.
Definition parse_read_routing_mode (value : str) : result str ReadRoutingMode :=
  if bool_decide (value = lit "off") then Ok ModeOff
  else if bool_decide (value = lit "prefer_replica") then Ok PreferReplica
  else if bool_decide (value = lit "require_replica") then Ok RequireReplica
  else if bool_decide (value = lit "primary_only") then Ok PrimaryOnly
  else Err (lit "invalid read routing mode '" ++ value ++ lit "'").
Definition parse_fallback_policy (value : str) : result str FallbackPolicy :=
  if bool_decide (value = lit "primary") then Ok FallbackToPrimary
  else if bool_decide (value = lit "reject") then Ok FallbackRejects
  else if bool_decide (value = lit "wait") then Ok FallbackWaits
  else Err (lit "invalid fallback policy '" ++ value ++ lit "'").
Definition parse_freshness_policy (value : str) : result str FreshnessPolicy :=
  if bool_decide (value = lit "none") then Ok FreshNone
  else if bool_decide (value = lit "session_write_lsn") then Ok SessionWriteLsn
  else if bool_decide (value = lit "max_replica_lag") then Ok MaxReplicaLag
  else if bool_decide (value = lit "session_write_lsn_and_max_lag") then Ok SessionWriteLsnAndMaxLag
  else Err (lit "invalid freshness policy '" ++ value ++ lit "'").
Definition parse_runtime_engine (value : str) : result str RuntimeEngine :=
  if bool_decide (value = lit "tokio_default") then Ok TokioDefault
  else if bool_decide (value = lit "tokio_current_thread") then Ok TokioCurrentThread
  else if bool_decide (value = lit "thread_per_core") then Ok ThreadPerCore
  else if bool_decide (value = lit "io_uring") then Ok IoUring
  else Err (lit "unsupported runtime engine '" ++ value
            ++ lit "', expected one of: tokio_default, tokio_current_thread, thread_per_core, io_uring").
