(* ===== verification/Assembly.v ===== *)
(** * Assembly: the pools a configuration makes

    Models the part of [pg-kinetic-proxy/src/proxy.rs] that turns a
    [Config] into pools: [build_route_pools], [build_route_pools_for_pool],
    [control_route_config], [build_route_pool_selector] and the number of
    shards. A pool is its place in the list of the pools made so far; its
    reference, its waiting hint and the cursor of its selector are handles
    of that number. The snapshot store is left out. *)

From S2P Require Import Prelude Text RoutingTypes Route Secrets Auth Resilience ReadRouting Pool Pools Guardrails Recovery.
From S2P Require Import F64 Pressure Checkout Admission Config.

(** What [BackendPool] is made with. *)
Record PoolSpec := {
  spec_addr : SocketAddr;
  spec_tls : TlsConfig;
  spec_socket : SocketConfig;
  spec_lifecycle : PoolLifecycleConfig;
  spec_max_waiters : Z;
  spec_route_max_in_flight : Z;
  spec_route_max_waiters : Z;
  spec_checkout_timeout_ms : Z;
  spec_reset_query : str;
  spec_notifies_others : bool;
  spec_breaker : BreakerConfig;
}.

(** [new_with_socket_lifecycle_global_limit_notify_and_route_limit] asserts
    that the lifecycle is valid; [configure_resilience]. *)
Definition new_pool (arena : list PoolSpec) (spec : PoolSpec) : result unit (list PoolSpec * Z) :=
  match pool_lifecycle_validate (spec_lifecycle spec) with
  | Ok _ => Ok (arena ++ [spec], len arena)
  | _ => Panic
  end.

Definition breaker_config (c : ResilienceConfig) : BreakerConfig :=
  {| failure_threshold := breaker_failure_threshold c; cooldown := breaker_cooldown_ms c |}.

Definition bounded_lifecycle (l : PoolLifecycleConfig) (limit : Z) : PoolLifecycleConfig :=
  {| max_size := Z.min (max_size l) limit; min_idle := min_idle l; idle_timeout := idle_timeout l;
     max_lifetime := max_lifetime l |}.

Definition pool_spec (c : Config) (addr : SocketAddr) (notifies_others : bool) : PoolSpec := {|
  spec_addr := addr; spec_tls := tls c; spec_socket := socket c;
  spec_lifecycle := bounded_lifecycle (pool_lifecycle c) (max_backends (capacity c));
  spec_max_waiters := max_checkout_waiters (capacity c);
  spec_route_max_in_flight := qos_max_route_in_flight (qos c);
  spec_route_max_waiters := qos_max_route_waiters (qos c);
  spec_checkout_timeout_ms := checkout_timeout_ms (performance c);
  spec_reset_query := backend_reset_query (performance c);
  spec_notifies_others := notifies_others;
  spec_breaker := breaker_config (resilience c) |}.

(** The replicas, numbered from 1. *)
Fixpoint build_replicas (c : Config) (notifies_others : bool) (index : Z) (rs : list ReplicaConfig)
    (arena : list PoolSpec) : result unit (list PoolSpec * list BackendPoolRef) :=
  match rs with
  | [] => Ok (arena, [])
  | r :: rs =>
      '(arena, p) ← new_pool arena (pool_spec c (replica_address r) notifies_others);
      '(arena, refs) ← build_replicas c notifies_others (index + 1) rs arena;
      Ok (arena, replica_ref (index + 1) (replica_weight r) p p :: refs)
  end.

Definition build_route_pools (c : Config) (r : RouteConfig) (notifies_others : bool) (arena : list PoolSpec)
    : result unit (list PoolSpec * RoutePools) :=
  '(arena, p) ← new_pool arena (pool_spec c (endpoint_address (route_primary r)) notifies_others);
  '(arena, replicas) ← build_replicas c notifies_others 0 (route_replicas r) arena;
  pools ← route_pools_new (primary_ref p p) replicas {| strategy := LeastWaiting; cursor := p |};
  Ok (arena, pools).

Definition control_route_config (c : Config) (default_route : RouteConfig) : RouteConfig :=
  match pools c with [] => default_route | p :: _ => from_backend_addr (pool_backend_addr p) end.

Definition with_pool_lifecycle (c : Config) (l : PoolLifecycleConfig) : Config := {|
  connection := connection c; routes := routes c; pools := pools c; runtime := runtime c; capacity := capacity c;
  pool_lifecycle := l; performance := performance c; guardrails := guardrails c; qos := qos c; admin := admin c;
  observability := observability c; audit := audit c; resilience := resilience c; tls := tls c; auth := auth c;
  reload := reload c; drain := drain c; health := health c; socket := socket c |}.

Definition build_route_pools_for_pool (c : Config) (p : PoolConfig) (arena : list PoolSpec)
    : result unit (list PoolSpec * RoutePools) :=
  let scoped :=
    match pool_max_backends p with
    | Some n => with_pool_lifecycle c (bounded_lifecycle (pool_lifecycle c) n)
    | None => c
    end in
  build_route_pools scoped (from_backend_addr (pool_backend_addr p)) true arena.

Definition planner_of (r : RouteConfig) : ReadRoutingPlanner := {|
  read_routing_mode := routing_mode (route_read_routing r);
  pl_fallback_policy := routing_fallback_policy (route_read_routing r);
  pl_freshness_policy := freshness_policy (route_freshness r);
  max_replica_lag_ms := freshness_max_replica_lag_ms (route_freshness r) |}.

Definition pool_route (p : PoolConfig) : RouteKey :=
  route_key_new (pool_database p) (pool_user p) None None RouteClass.Default.

(** The loop over [config.pools]: the registry, the policies and the control
    pools. *)
Fixpoint register_pools (c : Config) (ps : list PoolConfig) (arena : list PoolSpec) (reg : RoutePoolRegistry)
    (policies : list (PoolKey * RoutePolicy)) (control : option RoutePools)
    : result unit (list PoolSpec * RoutePoolRegistry * list (PoolKey * RoutePolicy) * option RoutePools) :=
  match ps with
  | [] => Ok (arena, reg, policies, control)
  | p :: ps =>
      '(arena, pools) ← build_route_pools_for_pool c p arena;
      register_pools c ps arena (registry_insert reg (pool_route p) pools)
        (assoc_insert pool_key_eqb (selection_key (pool_route p))
           (from_route_config (planner_of (from_backend_addr (pool_backend_addr p)))) policies)
        (match control with None => Some pools | Some _ => control end)
  end.

Definition build_route_pool_selector (c : Config) (default_route : RouteConfig)
    : result unit (list PoolSpec * RoutePoolSelector * RoutePools) :=
  match pools c with
  | [] =>
      '(arena, default_pools) ← build_route_pools c default_route false [];
      Ok (arena, selector_default default_pools (from_route_config (planner_of default_route)), default_pools)
  | ps =>
      '(arena, reg, policies, control) ← register_pools c ps [] [] [] None;
      match control with
      | Some control => Ok (arena, selector_configured reg policies, control)
      | None => Panic
      end
  end.

(** The first effective route. *)
Definition default_route_config (c : Config) : option RouteConfig := head (effective_routes c).

(** [cgroup_shard_cap]: a cast to [usize] of a number of at least one. *)
Definition f64_to_Z (x : f64) : Z :=
  match x with
  | S754_finite false m e => Z.shiftl (Z.pos m) e
  | S754_infinity false => USIZE_MAX
  | _ => 0
  end.
Definition cgroup_shard_cap (cpu_quota : option f64) (host_parallelism : Z) : Z :=
  let host := Z.max host_parallelism 1 in
  match cpu_quota with
  | Some q => if is_finite q && f64_lt f64_zero q
              then Z.min host (Z.min USIZE_MAX (f64_to_Z (f64_max (f64_ceil q) f64_one)))
              else host
  | None => host
  end.
Definition resolve_runtime_shard_count (c : Config) (cpu_quota : option f64) (host_parallelism : Z) : result str Z :=
  let n := match runtime_shards (engine (runtime c)) with
           | Some n => n
           | None => cgroup_shard_cap cpu_quota host_parallelism
           end in
  if n =? 0 then config_error "runtime_shards must be greater than zero" else Ok n.

(** ** What a configuration promises *)

(** The pool lifecycle of the default route, or of a configured pool. *)
Definition pool_bounds_of (c : Config) (p : option PoolConfig) : PoolLifecycleConfig :=
  let l := match p ≫= pool_max_backends with
           | Some n => bounded_lifecycle (pool_lifecycle c) n
           | None => pool_lifecycle c
           end in
  bounded_lifecycle l (max_backends (capacity c)).

Definition lifecycle_fits (l : PoolLifecycleConfig) : bool := negb (max_size l =? 0) && (min_idle l <=? max_size l).
Definition pools_fit (c : Config) : bool :=
  match pools c with
  | [] => lifecycle_fits (pool_bounds_of c None)
  | ps => forallb (fun p => lifecycle_fits (pool_bounds_of c (Some p))) ps
  end.

(** The server a client of [database] and [user] is served by and the number
    of connections to it; nothing when the client is to be refused. *)
Definition names (database user : str) (p : PoolConfig) : bool :=
  same (pool_database p) database && same (pool_user p) user.
Definition served_by (c : Config) (r : RouteConfig) (database user : str) : option (SocketAddr * Z) :=
  match pools c with
  | [] => Some (endpoint_address (route_primary r), max_size (pool_bounds_of c None))
  | ps => p ← List.find (names database user) ps;
          Some (pool_backend_addr p, max_size (pool_bounds_of c (Some p)))
  end.

Definition reached (arena : list PoolSpec) (p : RoutePools) : option (SocketAddr * Z) :=
  s ← arena !! Z.to_nat (ref_pool (rp_primary p)); Some (spec_addr s, max_size (spec_lifecycle s)).

Section Facts.
Implicit Types (c : Config) (arena : list PoolSpec).

Lemma lifecycle_fits_validate l : lifecycle_fits l = bool_decide (pool_lifecycle_validate l = Ok tt).
Proof.
  unfold lifecycle_fits, pool_lifecycle_validate. destruct (max_size l =? 0); [done|].
  destruct (Z.leb_spec (min_idle l) (max_size l)), (Z.ltb_spec (max_size l) (min_idle l)); done || lia.
Qed.

Lemma new_pool_eq arena spec :
  new_pool arena spec = if lifecycle_fits (spec_lifecycle spec) then Ok (arena ++ [spec], len arena) else Panic.
Proof.
  unfold new_pool. rewrite lifecycle_fits_validate.
  unfold pool_lifecycle_validate. 
  by destruct (max_size (spec_lifecycle spec) =? 0), (max_size (spec_lifecycle spec) <? min_idle (spec_lifecycle spec)).
Qed.

Lemma build_replicas_eq c n index rs arena :
  lifecycle_fits (bounded_lifecycle (pool_lifecycle c) (max_backends (capacity c))) = true ->
  exists refs, build_replicas c n index rs arena
               = Ok (arena ++ ((fun r => pool_spec c (replica_address r) n) <$> rs), refs)
    /\ Forall (fun r => ref_role r = Replica) refs.
Proof.
  intros Hl. revert index arena. induction rs as [|r rs IH]; intros index arena; cbn [build_replicas].
  - exists []. by rewrite fmap_nil, app_nil_r.
  - rewrite new_pool_eq. cbn [spec_lifecycle pool_spec]. rewrite Hl. cbn [mbind result_bind].
    destruct (IH (index + 1) (arena ++ [pool_spec c (replica_address r) n])) as (refs & -> & Hr).
    cbn [mbind result_bind]. eexists. rewrite <- app_assoc. split; [done|]. by constructor.
Qed.

Lemma build_route_pools_eq c r n arena :
  if lifecycle_fits (bounded_lifecycle (pool_lifecycle c) (max_backends (capacity c))) then
    exists more p, build_route_pools c r n arena
                   = Ok (arena ++ pool_spec c (endpoint_address (route_primary r)) n :: more, p)
                   /\ ref_pool (rp_primary p) = len arena
  else build_route_pools c r n arena = Panic.
Proof.
  unfold build_route_pools. rewrite new_pool_eq. cbn [spec_lifecycle pool_spec].
  destruct (lifecycle_fits _) eqn:Hl; [|done]. cbn [mbind result_bind].
  edestruct build_replicas_eq as (refs & -> & Hr); [done|]. cbn [mbind result_bind]. unfold route_pools_new.
  rewrite bool_decide_true by done.
  replace (forallb _ refs) with true.
  2:{ symmetry. apply forallb_forall. intros x Hx%list_elem_of_In. eapply Forall_forall in Hr; [|done].
      by apply bool_decide_eq_true. }
  cbn. eexists _, _. rewrite <- app_assoc. split; [done|]. done.
Qed.

Lemma reached_app arena more p x : reached arena p = Some x -> reached (arena ++ more) p = Some x.
Proof.
  unfold reached. destruct (arena !! _) eqn:E; [|done]. by rewrite (lookup_app_l_Some _ _ _ _ E).
Qed.

Lemma reached_new arena spec more p :
  ref_pool (rp_primary p) = len arena ->
  reached (arena ++ spec :: more) p = Some (spec_addr spec, max_size (spec_lifecycle spec)).
Proof. intros Hp. unfold reached. rewrite Hp. unfold len. rewrite Nat2Z.id, lookup_app_r, Nat.sub_diag by done. done. Qed.

Lemma assoc_insert_eq {V} k k' (v : V) l :
  assoc pool_key_eqb k (assoc_insert pool_key_eqb k' v l)
  = if bool_decide (k = k') then Some v else assoc pool_key_eqb k l.
Proof.
  apply (assoc_insert_spec pool_key_eqb k' v l k).
  - intros a b. unfold pool_key_eqb. by apply bool_decide_ext; split.
  - intros a b c'. unfold pool_key_eqb. by intros ->%bool_decide_eq_true.
Qed.

(** *** The pools of the configuration *)

Lemma scoped_lifecycle c p :
  let scoped := match pool_max_backends p with
                | Some n => with_pool_lifecycle c (bounded_lifecycle (pool_lifecycle c) n)
                | None => c
                end in
  bounded_lifecycle (pool_lifecycle scoped) (max_backends (capacity scoped)) = pool_bounds_of c (Some p).
Proof. unfold pool_bounds_of. cbn. by destruct (pool_max_backends p). Qed.

Lemma build_pool_eq c p arena :
  if lifecycle_fits (pool_bounds_of c (Some p)) then
    exists spec more ps, build_route_pools_for_pool c p arena = Ok (arena ++ spec :: more, ps)
      /\ ref_pool (rp_primary ps) = len arena /\ spec_addr spec = pool_backend_addr p
      /\ spec_lifecycle spec = pool_bounds_of c (Some p)
  else build_route_pools_for_pool c p arena = Panic.
Proof.
  unfold build_route_pools_for_pool. cbv zeta.
  pose proof (build_route_pools_eq
    (match pool_max_backends p with
     | Some n => with_pool_lifecycle c (bounded_lifecycle (pool_lifecycle c) n) | None => c end)
    (from_backend_addr (pool_backend_addr p)) true arena) as Hb.
  pose proof (scoped_lifecycle c p) as Hs. cbv zeta in Hs. rewrite Hs in Hb.
  destruct (lifecycle_fits _); [|done]. destruct Hb as (more & ps & -> & Hp).
  eexists _, more, ps. split; [done|]. split; [done|]. split; [done|]. cbn [spec_lifecycle pool_spec]. done.
Qed.

Definition key_of (database user : str) : PoolKey :=
  {| pk_database := database; pk_user := user; pk_application_name := None |}.
Lemma key_of_names database user p :
  bool_decide (key_of database user = selection_key (pool_route p)) = names database user p.
Proof.
  unfold names, same, selection_key, key_of. cbn. destruct (decide (pool_database p = database)) as [<-|H1].
  - rewrite (bool_decide_true (pool_database p = _)) by done. cbn. apply bool_decide_ext. split; [by intros [=]|by intros ->].
  - rewrite (bool_decide_false (pool_database p = _)) by done. cbn. apply bool_decide_false. by intros [=].
Qed.

(** What the registration leaves behind, for pools with distinct names. *)
Lemma register_pools_eq c ps arena reg policies control :
  NoDup ((fun p => (pool_database p, pool_user p)) <$> ps) ->
  if forallb (fun p => lifecycle_fits (pool_bounds_of c (Some p))) ps then
    exists more reg' policies' control', register_pools c ps arena reg policies control
                                  = Ok (arena ++ more, reg', policies', control')
      /\ (is_Some control' <-> is_Some control \/ ps <> [])
      /\ forall database user,
           match List.find (names database user) ps with
           | Some p => (exists pools, assoc pool_key_eqb (key_of database user) reg' = Some pools
                          /\ reached (arena ++ more) pools
                             = Some (pool_backend_addr p, max_size (pool_bounds_of c (Some p))))
                       /\ is_Some (assoc pool_key_eqb (key_of database user) policies')
           | None => assoc pool_key_eqb (key_of database user) reg' = assoc pool_key_eqb (key_of database user) reg
                     /\ assoc pool_key_eqb (key_of database user) policies'
                        = assoc pool_key_eqb (key_of database user) policies
           end
  else register_pools c ps arena reg policies control = Panic.
Proof.
  revert arena reg policies control. induction ps as [|p ps IH]; intros arena reg policies control Hnd; cbn [forallb].
  - exists [], reg, policies, control. rewrite app_nil_r. naive_solver.
  - pose proof (build_pool_eq c p arena) as Hb. cbn [register_pools].
    destruct (lifecycle_fits (pool_bounds_of c (Some p))) eqn:Hf; [|by rewrite Hb].
    destruct Hb as (spec & more & pools & -> & Hp & Ha & Hl). cbn [mbind result_bind andb].
    apply NoDup_cons in Hnd as [Hnew Hnd].
    pose proof (IH (arena ++ spec :: more) (registry_insert reg (pool_route p) pools)
                 (assoc_insert pool_key_eqb (selection_key (pool_route p))
                   (from_route_config (planner_of (from_backend_addr (pool_backend_addr p)))) policies)
                 (match control with None => Some pools | Some _ => control end) Hnd) as Hrest.
    destruct (forallb _ ps); [|done].
    destruct Hrest as (more' & reg' & policies' & control' & -> & Hc & Hfind).
    exists (spec :: more ++ more'), reg', policies', control'. rewrite <- app_assoc. split; [done|]. split.
    + rewrite Hc. destruct control; naive_solver.
    + intros database user. specialize (Hfind database user). cbn [List.find].
      unfold registry_insert in Hfind. rewrite !assoc_insert_eq, key_of_names in Hfind.
      destruct (names database user p) eqn:Hn.
      * assert (List.find (names database user) ps = None) as Hnone.
        { destruct (List.find (names database user) ps) as [q|] eqn:Hq; [|done]. exfalso.
          apply List.find_some in Hq as [Hq%list_elem_of_In Hnq]. apply Hnew. apply list_elem_of_fmap. exists q. split; [|done].
          unfold names, same in *. rewrite andb_true_iff, !bool_decide_eq_true in Hn, Hnq. destruct Hn, Hnq. congruence. }
        rewrite Hnone in Hfind. destruct Hfind as [-> ->]. split; [|by eexists]. exists pools. split; [done|].
        change (arena ++ spec :: more ++ more') with (arena ++ (spec :: more) ++ more').
        rewrite app_assoc. apply reached_app. rewrite reached_new by done. by rewrite Ha, Hl.
      * by rewrite <- app_assoc in Hfind.
Qed.

Lemma validate_pools_NoDup seen ps :
  validate_pools seen ps = Ok tt ->
  NoDup ((fun p => (pool_database p, pool_user p)) <$> ps)
  /\ forall p, p ∈ ps -> (pool_database p, pool_user p) ∉ seen /\ pool_max_backends p <> Some 0.
Proof.
  revert seen. induction ps as [|p ps IH]; intros seen; cbn [validate_pools].
  - intros _. split; [constructor|]. set_solver.
  - case_bool_decide; [done|]. case_bool_decide; [done|]. intros [Hnd Hp]%IH. split.
    + constructor; [|done]. intros (q & Hq & Hin)%list_elem_of_fmap. apply Hp in Hin as [Hin _]. rewrite Hq in Hin. set_solver.
    + intros q [->|Hq]%elem_of_cons; [done|]. apply Hp in Hq. set_solver.
Qed.

Lemma config_validate_pools c : config_validate c = Ok tt -> validate_pools [] (pools c) = Ok tt.
Proof.
  unfold config_validate. intros ([] & _ & H)%bind_Ok_inv. apply bind_Ok_inv in H as ([] & _ & H).
  apply bind_Ok_inv in H as ([] & _ & H). destruct (_ =? _); [done|]. destruct (_ && _); [done|].
  by apply bind_Ok_inv in H as ([] & _ & H).
Qed.
End Facts.

Lemma assembly_full c r :
  config_validate c = Ok tt ->
  if pools_fit c then
    exists arena sel control, build_route_pool_selector c r = Ok (arena, sel, control)
      /\ forall database user application_name addr,
         let key := route_key database user application_name addr in
         reached arena <$> selector_resolve sel key = Some <$> served_by c r database user
         /\ (is_Some (selector_policy sel key) <-> is_Some (served_by c r database user))
         /\ forall packet backend_user,
              startup_route_key packet = Ok (database, user, application_name) ->
              served_by c r database user = None ->
              startup_backend_plan sel packet addr backend_user = Err (UnknownRoute database user)
  else build_route_pool_selector c r = Panic.
Proof.
  intros Hv. apply config_validate_pools, validate_pools_NoDup in Hv as [Hnd _].
  unfold pools_fit, build_route_pool_selector, served_by. destruct (pools c) as [|p ps] eqn:Hps.
  - pose proof (build_route_pools_eq c r false []) as Hb. change (pool_bounds_of c None)
      with (bounded_lifecycle (pool_lifecycle c) (max_backends (capacity c))).
    destruct (lifecycle_fits _); [|by rewrite Hb]. destruct Hb as (more & pools & -> & Hp). cbn [mbind result_bind].
    eexists _, _, _. split; [done|]. intros database user app addr. split; [|split; [|done]].
    + change (Some (reached ([] ++ pool_spec c (endpoint_address (route_primary r)) false :: more) pools)
              = Some (Some (endpoint_address (route_primary r), max_size (bounded_lifecycle (pool_lifecycle c) (max_backends (capacity c)))))).
      by rewrite reached_new.
    + cbn. split; eauto.
  - pose proof (register_pools_eq c (p :: ps) [] [] [] None Hnd) as Hb.
    destruct (forallb _ _); [|by rewrite Hb].
    destruct Hb as (more & reg & policies & control & -> & [_ Hc] & Hfind). cbn [mbind result_bind].
    destruct Hc as [control' ->]; [by right|]. eexists _, _, _. split; [done|].
    intros database user app addr. set (key := route_key database user app addr). specialize (Hfind database user).
    assert (selector_resolve (selector_configured reg policies) key = assoc pool_key_eqb (key_of database user) reg) as Hr.
    { unfold selector_resolve, registry_route_pools. change (selection_key key) with (key_of database user).
      cbn [Admission.registry Admission.default_pools selector_configured]. by destruct (assoc _ _ reg). }
    assert (selector_policy (selector_configured reg policies) key = assoc pool_key_eqb (key_of database user) policies) as Hq.
    { unfold selector_policy. change (selection_key key) with (key_of database user).
      cbn [Admission.policies Admission.default_policy selector_configured]. by destruct (assoc _ _ policies). }
    destruct (List.find (names database user) (p :: ps)) as [q|].
    + destruct Hfind as ((pools & Ha & Hre) & Hpol). rewrite app_nil_l in Hre. rewrite Hr, Hq, Ha, app_nil_l. cbn. rewrite Hre. split; [done|].
      split; [|done]. split; eauto.
    + destruct Hfind as [Ha Hpol]. rewrite Hr, Hq, Ha, Hpol. split; [done|]. split; [by cbn; split; intros []|].
      intros packet backend_user Hpk _. unfold startup_backend_plan. rewrite Hpk. cbn [map_err mbind result_bind].
      fold key. by rewrite Hr, Ha.
Qed.

Lemma assembly_exact_plain c r :
  config_validate c = Ok tt ->
  if pools_fit c then
    exists arena sel control, build_route_pool_selector c r = Ok (arena, sel, control)
      /\ forall database user application_name addr,
         reached arena <$> selector_resolve sel (route_key database user application_name addr)
         = Some <$> served_by c r database user
  else build_route_pool_selector c r = Panic.
Proof.
  intros Hv%(assembly_full _ r). destruct (pools_fit c); [|done]. destruct Hv as (arena & sel & control & Hb & Hs).
  exists arena, sel, control. split; [done|]. intros. by apply Hs.
Qed.

(** C11. From the configuration to the servers. A validated configuration
    makes its pools exactly when every pool's minimum of idle connections
    fits its bound (the process panics otherwise); then a client is served
    by the server of the pool configured for its database and user, within
    that pool's own bound and the process's, or, without configured pools,
    by the primary of the first route; a client no pool is configured for is
    refused with its names, and every route that has pools has a policy. *)
Theorem assembly_exact c r :
  config_validate c = Ok tt ->
  if pools_fit c then
    exists arena sel control, build_route_pool_selector c r = Ok (arena, sel, control)
      /\ forall database user application_name addr,
         let key := route_key database user application_name addr in
         reached arena <$> selector_resolve sel key = Some <$> served_by c r database user
         /\ (is_Some (selector_policy sel key) <-> is_Some (served_by c r database user))
         /\ forall packet backend_user,
              startup_route_key packet = Ok (database, user, application_name) ->
              served_by c r database user = None ->
              startup_backend_plan sel packet addr backend_user = Err (UnknownRoute database user)
  else build_route_pool_selector c r = Panic.
Proof. apply assembly_full. Qed.

(** *** Concrete configurations *)

Definition two_pools (min_idle_connections : Z) : Config := {|
  connection := connection (config_default (lit "n")); routes := [];
  pools := [ {| pool_database := lit "shop"; pool_user := lit "ann"; pool_backend_addr := localhost 5001;
                pool_max_backends := Some 5 |};
             {| pool_database := lit "shop"; pool_user := lit "bob"; pool_backend_addr := localhost 5002;
                pool_max_backends := None |} ];
  runtime := runtime (config_default (lit "n")); capacity := capacity_default;
  pool_lifecycle := {| max_size := 40; min_idle := min_idle_connections; idle_timeout := 1800000; max_lifetime := 0 |};
  performance := performance_default; guardrails := guardrails_default; qos := qos_default; admin := admin_default;
  observability := observability_default; audit := audit_default; resilience := resilience_default;
  tls := tls_default; auth := auth_default; reload := reload_default; drain := drain_default;
  health := health_default; socket := socket_default |}.

Lemma assembly_exact_witness :
  served_by (two_pools 2) (from_backend_addr (localhost 5432)) (lit "shop") (lit "ann") = Some (localhost 5001, 5)
  /\ served_by (two_pools 2) (from_backend_addr (localhost 5432)) (lit "shop") (lit "eve") = None
  /\ exists arena sel control,
       build_route_pool_selector (two_pools 2) (from_backend_addr (localhost 5432)) = Ok (arena, sel, control)
       /\ reached arena <$> selector_resolve sel (route_key (lit "shop") (lit "ann") None (localhost 9))
          = Some (Some (localhost 5001, 5)).
Proof.
  split; [by vm_compute|]. split; [by vm_compute|].
  pose proof (assembly_exact (two_pools 2) (from_backend_addr (localhost 5432)) ltac:(by vm_compute)) as H.
  replace (pools_fit (two_pools 2)) with true in H by (by vm_compute).
  destruct H as (arena & sel & control & Hb & Hs). exists arena, sel, control. split; [exact Hb|].
  destruct (Hs (lit "shop") (lit "ann") None (localhost 9)) as [Hr _]. rewrite Hr. by vm_compute.
Defined.

(** A configuration that passes every check and makes the process panic:
    ten idle connections are to be kept in a pool of five. *)
Example valid_configuration_panics :
  config_validate (two_pools 10) = Ok tt /\ pool_lifecycle_validate (pool_lifecycle (two_pools 10)) = Ok tt
  /\ build_route_pool_selector (two_pools 10) (from_backend_addr (localhost 5432)) = Panic.
Proof. by vm_compute. Qed.

(** The server of a route is reached with the process's TLS settings,
    whatever the route says. *)
Example route_tls_mode_is_ignored (mode : BackendTlsMode) :
  build_route_pools (config_default (lit "n"))
    {| route_primary := {| endpoint_address := localhost 5001; endpoint_connect_timeout_ms := 1; endpoint_tls_mode := mode |};
       route_weight := 1; route_max_in_flight := None; route_priority := PriorityNormal; route_replicas := [];
       route_read_routing := read_routing_default; route_freshness := freshness_default; route_ha := ha_default |}
    false []
  = Ok ([pool_spec (config_default (lit "n")) (localhost 5001) false],
        {| rp_primary := primary_ref 0 0; rp_replicas := []; rp_selector := {| strategy := LeastWaiting; cursor := 0 |} |})
  /\ backend_tls_mode (spec_tls (pool_spec (config_default (lit "n")) (localhost 5001) false)) = BackendTlsDisable.
Proof. by vm_compute. Qed.
