(* ===== verification/Reload.v ===== *)
(** * Reload: the configuration file, its merge and its reload

    Models [pg-kinetic-proxy/src/ops/reload.rs] and the start of
    [initialize_runtime_state] of [proxy.rs]. The conversions between a
    [Config] and a TOML value are derived code: parameters, of which nothing
    is assumed. A table is a list of keys and values; two tables are equal
    when they hold equal values under the same keys. Paths, the TLS library
    and the process environment are read through an [Environment], which is
    another one at every reload. *)

From S2P Require Import Prelude Text RoutingTypes Route Secrets Auth Resilience ReadRouting Pool Pools Guardrails Recovery.
From S2P Require Import F64 Pressure Checkout Admission Config Assembly.

(** ** TOML values *)

Inductive Value :=
| VString (s : str)
| VInteger (n : Z)
| VFloat (x : f64)
| VBoolean (b : bool)
| VDatetime (s : str)
| VArray (vs : list Value)
| VTable (t : list (str * Value)).

Abbreviation Table := (list (str * Value)).

Definition table_get (k : str) (t : Table) : option Value := assoc str_eqb k t.
(** [insert] and assignment through [get_mut]. *)
Fixpoint table_set (k : str) (v : Value) (t : Table) : Table :=
  match t with
  | [] => [(k, v)]
  | (k', v') :: t => if str_eqb k k' then (k', v) :: t else (k', v') :: table_set k v t
  end.

(** The derived [PartialEq]. *)
Fixpoint value_eqb (a b : Value) {struct a} : bool :=
  match a, b with
  | VString s, VString s' => str_eqb s s'
  | VInteger n, VInteger n' => n =? n'
  | VFloat x, VFloat x' => f64_eqb x x'
  | VBoolean x, VBoolean x' => Bool.eqb x x'
  | VDatetime s, VDatetime s' => str_eqb s s'
  | VArray vs, VArray vs' =>
      (fix arrays (vs vs' : list Value) {struct vs} : bool :=
         match vs, vs' with
         | [], [] => true
         | v :: vs, v' :: vs' => value_eqb v v' && arrays vs vs'
         | _, _ => false
         end) vs vs'
  | VTable t, VTable t' =>
      (length t =? length t')%nat
      && (fix entries (t : Table) : bool :=
            match t with
            | [] => true
            | (k, v) :: t =>
                match table_get k t' with Some v' => value_eqb v v' | None => false end && entries t
            end) t
  | _, _ => false
  end.

(** ** The merge *)

Definition is_default_value (base : Value) (default : option Value) : bool :=
  match default with Some d => value_eqb base d | None => false end.

(** [apply_base_overrides]: [target] after the call. The two branches for
    tables differ in where the defaults of the entries are looked up. *)
Fixpoint apply_base_overrides (base target : Value) (default : option Value) {struct base} : Value :=
  if is_default_value base default then target
  else
    match target, base with
    | VTable target_table, VTable base_table =>
        let default_child k := match default with Some (VTable d) => table_get k d | _ => None end in
        VTable
          ((fix entries (base_table target_table : Table) {struct base_table} : Table :=
              match base_table with
              | [] => target_table
              | (k, base_child) :: base_table =>
                  entries base_table
                    (match table_get k target_table with
                     | Some target_child =>
                         table_set k (apply_base_overrides base_child target_child (default_child k)) target_table
                     | None =>
                         if is_default_value base_child (default_child k) then target_table
                         else table_set k base_child target_table
                     end)
              end) base_table target_table)
    | _, _ => base
    end.

(** ** Loading *)

(** What the process can read at one moment. *)
Record Environment := {
  file_config : str -> result error Config;
  users_file : str -> option str;
  tls_assets : TlsConfig -> result error unit;
  allowlist_view : FileView;
  process_env : Env;
}.

Inductive ReloadDecision := ReloadApplied | ReloadRejected | ReloadUnchanged.

(** What a successful reload retires the idle connections of. *)
Inductive Retired := RetiredRegistry | RetiredPools | RetiredNothing.

Section WithToml.
Context `{HC : Crypto} (to_value : Config -> result error Value) (of_value : Value -> result error Config) (default_config : Config).

Definition merge_file_config (base file : Config) : result error Config :=
  merged ← to_value file;
  base_value ← to_value base;
  default_value ← to_value default_config;
  of_value (apply_base_overrides base_value merged (Some default_value)).

Definition load_effective_config (e : Environment) (base : Config) : result error Config :=
  match config_file (reload base) with
  | None => Ok base
  | Some path => file ← file_config e path; merge_file_config base file
  end.

Definition load_client_tls_server_config (e : Environment) (c : Config) : result error (option unit) :=
  match client_tls_mode (tls c) with
  | TlsDisable => Ok None
  | _ => _ ← tls_assets e (tls c); Ok (Some tt)
  end.

Definition load_auth_users (e : Environment) (c : Config) : result error (option UserStore) :=
  match auth_users_file (auth c) with
  | None => Ok None
  | Some path => store ← load_user_store (Some (users_file e path)); Ok (Some store)
  end.

Definition validate_runtime_assets (e : Environment) (c : Config) : result error unit :=
  _ ← load_client_tls_server_config e c;
  _ ← load_auth_users e c;
  _ ← load_backend_credential_provider (auth c);
  Ok tt.

(** ** The running proxy *)

(** [active_config] and the [BackendCredentialCache]. *)
Record Running := { active : Config; cached : option BackendCredentials }.

(** [reload_once_with_pools_and_credentials] with its registry and pools.
    The credentials are read whether or not they are used. *)
Definition reload_once_with_pools_and_credentials (e : Environment) (base : Config) (registry_is_empty : bool)
    (s : Running) : result error (ReloadDecision * Retired) * Running :=
  match load_effective_config e base with
  | Err x => (Err x, s)
  | Panic => (Panic, s)
  | Ok next =>
      match load_backend_credentials (process_env e) (auth next) with
      | Err x => (Err x, s)
      | Panic => (Panic, s)
      | Ok next_credentials =>
          if config_eqb next (active s) then (Ok (ReloadUnchanged, RetiredNothing), s)
          else if negb (is_reload_compatible_with (active s) next) then (Ok (ReloadRejected, RetiredNothing), s)
          else
            match validate_runtime_assets e next with
            | Err x => (Err x, s)
            | Panic => (Panic, s)
            | Ok _ =>
                (Ok (ReloadApplied, if registry_is_empty then RetiredPools else RetiredRegistry),
                 {| active := next; cached := next_credentials |})
            end
      end
  end.

(** [initialize_runtime_state]: the configuration, its assets, the
    credentials and the pools. *)
Definition initialize_runtime_state (e : Environment) (base : Config)
    : result error (Running * list PoolSpec * RoutePoolSelector) :=
  effective ← load_effective_config e base;
  _ ← map_err EMsg (config_validate effective);
  _ ← validate_runtime_assets e effective;
  _ ← map_err (fun _ => EForeign) (registry_new (guardrails effective) (allowlist_view e));
  credentials ← load_backend_credentials (process_env e) (auth effective);
  route ← some_or (default_route_config effective) "missing effective route config";
  '(arena, sel, _) ← map_err (fun _ => EForeign) (build_route_pool_selector effective route);
  Ok ({| active := effective; cached := credentials |}, arena, sel).

(** [spawn_reload_loop]: every tick is one reload, whose errors are logged;
    a tick every zero milliseconds is a panic. *)
Fixpoint reload_loop (base : Config) (registry_is_empty : bool) (ticks : list Environment) (s : Running) : Running :=
  match ticks with
  | [] => s
  | e :: ticks =>
      reload_loop base registry_is_empty ticks
        (snd (reload_once_with_pools_and_credentials e base registry_is_empty s))
  end.
Definition spawn_reload_loop (base : Config) (reload_config : ReloadConfig) (registry_is_empty : bool)
    (ticks : list Environment) (s : Running) : result unit Running :=
  match config_file (reload base) with
  | None => Ok s
  | Some _ => if config_reload_interval_ms reload_config =? 0 then Panic
              else Ok (reload_loop base registry_is_empty ticks s)
  end.
End WithToml.

(** ** The merge, path by path *)

Fixpoint value_at (v : Value) (path : list str) : option Value :=
  match path with
  | [] => Some v
  | k :: path => match v with VTable t => table_get k t ≫= fun v => value_at v path | _ => None end
  end.

Definition is_leaf (v : Value) : bool := match v with VTable _ => false | _ => true end.

(** Keys are distinct. *)
Fixpoint distinct_keys (t : Table) : bool :=
  match t with [] => true | (k, _) :: t => negb (existsb (fun p => str_eqb k (fst p)) t) && distinct_keys t end.
Fixpoint well_formed (v : Value) : bool :=
  match v with
  | VTable t => distinct_keys t && forallb (fun p => well_formed (snd p)) t
  | _ => true
  end.

(** [other] has a table wherever [base] has one, and no table where [base]
    has something else; an entry that is no table may be missing in it. *)
Fixpoint same_tables (base other : Value) {struct base} : bool :=
  match base, other with
  | VTable b, VTable o =>
      forallb (fun p => match table_get (fst p) o with Some v => same_tables (snd p) v | None => is_leaf (snd p) end) b
  | VTable _, _ | _, VTable _ => false
  | _, _ => true
  end.

(** Whether the base's value at a path is its default. *)
Definition default_at (v : Value) (default : option Value) (path : list str) : bool :=
  match default ≫= fun d => value_at d path with Some d => value_eqb v d | None => false end.

Section Merge.
Lemma str_eqb_refl k : str_eqb k k = true.
Proof. unfold str_eqb. by apply bool_decide_eq_true. Qed.

Lemma table_get_set k v t k' : table_get k' (table_set k v t) = if str_eqb k' k then Some v else table_get k' t.
Proof.
  unfold table_get. induction t as [|[k0 v0] t IH]; cbn; [done|]. unfold str_eqb in *.
  destruct (decide (k = k0)) as [<-|E].
  - rewrite (bool_decide_true (k = k)) by done. cbn. by case_bool_decide.
  - rewrite (bool_decide_false (k = k0)) by done. cbn. rewrite IH. repeat case_bool_decide; congruence.
Qed.

Lemma table_get_fresh k t : existsb (fun p => str_eqb k (fst p)) t = false -> table_get k t = None.
Proof.
  unfold table_get. induction t as [|[k0 v0] t IH]; cbn; [done|]. by intros [-> ?]%orb_false_iff; apply IH.
Qed.

Lemma table_get_In k t v : table_get k t = Some v -> In (k, v) t.
Proof.
  unfold table_get. induction t as [|[k0 v0] t IH]; cbn; [done|].
  unfold str_eqb. case_bool_decide; [intros [= ->]; subst; by left|]. intros. right. by apply IH.
Qed.

(** One level of the merge. *)
Definition merged_entry (default : option Value) (t : Table) (k : str) (b : Value) : option Value :=
  let d := match default with Some (VTable d) => table_get k d | _ => None end in
  match table_get k t with
  | Some c => Some (apply_base_overrides b c d)
  | None => if is_default_value b d then None else Some b
  end.

Lemma merge_tables b t default :
  distinct_keys b = true -> is_default_value (VTable b) default = false ->
  exists m, apply_base_overrides (VTable b) (VTable t) default = VTable m
    /\ forall k, table_get k m = match table_get k b with
                                | Some v => merged_entry default t k v
                                | None => table_get k t
                                end.
Proof.
  intros Hd Hn. cbn [apply_base_overrides]. rewrite Hn. eexists. split; [done|].
  clear Hn. revert t Hd. induction b as [|[k0 v0] b IH]; intros t Hd k; [done|].
  cbn [distinct_keys] in Hd. apply andb_true_iff in Hd as [Hf Hd]. apply negb_true_iff in Hf.
  rewrite IH by done.
  assert (table_get k ((k0, v0) :: b) = if str_eqb k k0 then Some v0 else table_get k b) as -> by done.
  unfold merged_entry. destruct (str_eqb k k0) eqn:Hk.
  - unfold str_eqb in Hk. apply bool_decide_eq_true in Hk as ->. rewrite (table_get_fresh _ _ Hf).
    destruct (table_get k0 t) eqn:Ht; [by rewrite table_get_set, str_eqb_refl|].
    destruct (is_default_value _ _); [done|]. by rewrite table_get_set, str_eqb_refl.
  - destruct (table_get k0 t); [|destruct (is_default_value v0 _)]; rewrite ?table_get_set, ?Hk; done.
Qed.

Lemma value_eqb_entry t t' k v :
  value_eqb (VTable t) (VTable t') = true -> In (k, v) t ->
  exists v', table_get k t' = Some v' /\ value_eqb v v' = true.
Proof.
  cbn [value_eqb]. intros [_ He]%andb_true_iff. revert He.
  induction t as [|[k0 v0] t IH]; cbn; [done|]. intros [He Hr]%andb_true_iff [[= -> ->]|Hin]; [|by apply IH].
  destruct (table_get k t'); [eauto|done].
Qed.

Lemma value_eqb_at a d path v :
  value_eqb a d = true -> value_at a path = Some v -> exists w, value_at d path = Some w /\ value_eqb v w = true.
Proof.
  revert a d. induction path as [|k path IH]; intros a d He; cbn [value_at].
  - intros [= ->]. eauto.
  - destruct a as [| | | | | |t]; try done. destruct (table_get k t) as [c|] eqn:Hc; [|done]. cbn. intros Hv.
    destruct d as [| | | | | |t']; try done. destruct (value_eqb_entry _ _ _ _ He (table_get_In _ _ _ Hc)) as (c' & Hc' & He').
    rewrite Hc'. cbn. by eapply IH.
Qed.

Definition tables_match (base : Value) (default : option Value) : Prop :=
  match default with Some d => same_tables base d = true | None => True end.
Definition override (base target : Value) (default : option Value) (path : list str) : Prop :=
  match value_at base path with
  | Some v => is_leaf v = true ->
              value_at (apply_base_overrides base target default) path
              = if default_at v default path then value_at target path else Some v
  | None => value_at (apply_base_overrides base target default) path = value_at target path
  end.

Lemma override_default base target default path :
  is_default_value base default = true -> override base target default path.
Proof.
  intros Hd. assert (apply_base_overrides base target default = target) as Ha
    by (destruct base; cbn [apply_base_overrides]; by rewrite Hd).
  unfold override, default_at. rewrite Ha. destruct (value_at base path) as [v|] eqn:Hv; [|done]. intros _.
  destruct default as [d|]; [|done]. cbn in Hd |- *.
  destruct (value_eqb_at _ _ _ _ Hd Hv) as (w & -> & Hw). cbn. by rewrite Hw.
Qed.

Lemma override_leaf base target default path :
  is_leaf base = true -> same_tables base target = true -> override base target default path.
Proof.
  intros Hl Ht. destruct (is_default_value base default) eqn:Hd; [by apply override_default|].
  assert (apply_base_overrides base target default = base) as Ha.
  { destruct base; try done; cbn [apply_base_overrides]; rewrite Hd; by destruct target. }
  assert (is_leaf target = true) as Hlt by (by destruct base, target).
  unfold override, default_at. rewrite Ha. destruct path as [|k path].
  - cbn. intros _. destruct default as [d|]; [|done]. cbn in *. by rewrite Hd.
  - destruct base, target; done.
Qed.

Lemma default_at_child v b default k path :
  tables_match (VTable b) default ->
  default_at v default (k :: path)
  = default_at v (match default with Some (VTable d) => table_get k d | _ => None end) path.
Proof. unfold default_at. destruct default as [[]|]; done. Qed.

Lemma tables_match_child b default k c :
  tables_match (VTable b) default -> table_get k b = Some c ->
  tables_match c (match default with Some (VTable d) => table_get k d | _ => None end).
Proof.
  intros Hm Hc. destruct default as [[| | | | | |d]|]; try done. cbn in Hm. rewrite forallb_forall in Hm.
  specialize (Hm _ (table_get_In _ _ _ Hc)). cbn in Hm. by destruct (table_get k d).
Qed.

Lemma overrides_hold base target default path :
  well_formed base = true -> same_tables base target = true -> tables_match base default ->
  override base target default path.
Proof.
  revert base target default. induction path as [|k path IH]; intros base target default Hw Ht Hm;
    (destruct (is_leaf base) eqn:Hl; [by apply override_leaf|]);
    (destruct (is_default_value base default) eqn:Hd; [by apply override_default|]);
    destruct base as [| | | | | |b]; try done.
  destruct target as [| | | | | |t]; try done. cbn [well_formed] in Hw. apply andb_true_iff in Hw as [Hk Hw].
  rewrite forallb_forall in Hw. cbn [same_tables] in Ht. rewrite forallb_forall in Ht.
  destruct (merge_tables b t default Hk Hd) as (m & Hmt & Hget). unfold override. rewrite Hmt. cbn [value_at].
  rewrite Hget. destruct (table_get k b) as [c|] eqn:Hc; [|done]. cbn [mbind option_bind].
  pose proof (table_get_In _ _ _ Hc) as Hin. specialize (Ht _ Hin). specialize (Hw _ Hin). cbn in Ht, Hw.
  unfold merged_entry. pose proof (tables_match_child _ _ _ _ Hm Hc) as Hmc.
  destruct (table_get k t) as [tc|] eqn:Htc; cbn [mbind option_bind].
  - specialize (IH c tc _ Hw Ht Hmc). unfold override in IH. destruct (value_at c path); [|done].
    intros Hlv. by rewrite (default_at_child _ b), IH.
  - destruct path as [|k' path].
    2:{ assert (value_at c (k' :: path) = None) as Hn by (by destruct c). rewrite Hn.
        destruct (is_default_value c _); cbn [mbind option_bind]; [done|]. by rewrite Hn. }
    cbn [value_at]. intros _. rewrite (default_at_child _ b) by done.
    destruct (match default with Some (VTable d) => table_get k d | _ => None end) as [d|] eqn:Hdc;
      unfold default_at; cbn; [|done]. by destruct (value_eqb c d).
Qed.
End Merge.

(** The command line and the file. When base, file and defaults have
    their tables at the same places, as the forms of one type have, the
    merged configuration has at every path the value of the command line
    where that differs from the default, the file's value (or none, as the
    file has) where it does not, and the file's where the command line says
    nothing. *)
Theorem overrides_exact base target default path :
  well_formed base = true -> same_tables base target = true -> same_tables base default = true ->
  let merged := apply_base_overrides base target (Some default) in
  match value_at base path with
  | Some v => is_leaf v = true ->
              value_at merged path = if default_at v (Some default) path then value_at target path else Some v
  | None => value_at merged path = value_at target path
  end.
Proof. intros Hw Ht Hd. by apply (overrides_hold base target (Some default) path). Qed.

(** A server address from the file, a timeout from the command line. *)
Definition sample_form (addr : string) (timeout : Z) : Value :=
  VTable [(lit "connection", VTable [(lit "backend_addr", VString (lit addr))]);
          (lit "qos", VTable [(lit "query_timeout_ms", VInteger timeout)])].

Lemma overrides_exact_witness :
  let merged := apply_base_overrides (sample_form "localhost" 5) (sample_form "db" 7) (Some (sample_form "localhost" 30)) in
  value_at merged [lit "connection"; lit "backend_addr"] = Some (VString (lit "db"))
  /\ value_at merged [lit "qos"; lit "query_timeout_ms"] = Some (VInteger 5).
Proof.
  pose proof (overrides_exact (sample_form "localhost" 5) (sample_form "db" 7) (sample_form "localhost" 30)
                [lit "connection"; lit "backend_addr"] eq_refl eq_refl eq_refl) as H1.
  pose proof (overrides_exact (sample_form "localhost" 5) (sample_form "db" 7) (sample_form "localhost" 30)
                [lit "qos"; lit "query_timeout_ms"] eq_refl eq_refl eq_refl) as H2.
  vm_compute in H1, H2 |- *. split; [exact (H1 eq_refl)|exact (H2 eq_refl)].
Defined.

(** ** What a reload can change *)

(** [b] is [a] but for what a reload may change: the query timeout, the audit
    and socket sections, the users file and the name and password variable of
    the service credentials. The two sections that hold rates are the same as
    [PartialEq] compares them. *)
Definition changes_only_reloadable (a b : Config) : Prop :=
  b = {| connection := connection a; routes := routes a; pools := pools a; runtime := runtime b; capacity := capacity a;
         pool_lifecycle := pool_lifecycle a; performance := performance a; guardrails := guardrails a;
         qos := {| qos_max_route_in_flight := qos_max_route_in_flight (qos a);
                   qos_max_route_waiters := qos_max_route_waiters (qos a);
                   query_timeout_ms := query_timeout_ms (qos b);
                   idle_client_timeout_ms := idle_client_timeout_ms (qos a);
                   idle_transaction_timeout_ms := idle_transaction_timeout_ms (qos a);
                   qos_max_client_buffer_bytes := qos_max_client_buffer_bytes (qos a);
                   qos_max_backend_buffer_bytes := qos_max_backend_buffer_bytes (qos a);
                   qos_overload_error_code := qos_overload_error_code (qos a) |};
         admin := admin a; observability := observability b; audit := audit b; resilience := resilience a; tls := tls a;
         auth := {| auth_mode := auth_mode (auth a); auth_users_file := auth_users_file (auth b);
                    backend_user := backend_user (auth b);
                    backend_password_env_var_name := backend_password_env_var_name (auth b);
                    auth_query_enabled := auth_query_enabled (auth a); auth_query := auth_query (auth a);
                    auth_query_cache_ttl_ms := auth_query_cache_ttl_ms (auth a);
                    auth_failure_message_mode := auth_failure_message_mode (auth a) |};
         reload := reload a; drain := drain a; health := health a; socket := socket b |}
  /\ (b = a \/ observability_eqb (observability a) (observability b) = true /\ runtime_eqb (runtime a) (runtime b) = true).

(** The cached credentials are those of the active configuration, as some
    environment had them. *)
Definition coherent (s : Running) : Prop :=
  exists env, load_backend_credentials env (auth (active s)) = Ok (cached s).

Section ReloadFacts.
Lemma same_true {A} `{EqDecision A} (a b : A) : same a b = true <-> a = b.
Proof. apply bool_decide_eq_true. Qed.
Lemma same_trans {A} `{EqDecision A} (a b c : A) : same a b = true -> same b c = true -> same a c = true.
Proof. rewrite !same_true. congruence. Qed.

Lemma andb_trans x1 x2 y1 y2 z1 z2 :
  (x1 = true -> y1 = true -> z1 = true) -> (x2 = true -> y2 = true -> z2 = true) ->
  x1 && x2 = true -> y1 && y2 = true -> z1 && z2 = true.
Proof. destruct x1, x2; cbn; try done. destruct y1, y2; cbn; try done. naive_solver. Qed.
Ltac split_tests := repeat apply andb_trans; try apply same_trans; try apply f64_eqb_trans.

Lemma observability_eqb_trans a b c : observability_eqb a b = true -> observability_eqb b c = true -> observability_eqb a c = true.
Proof. unfold observability_eqb. split_tests. Qed.
Lemma runtime_eqb_trans a b c : runtime_eqb a b = true -> runtime_eqb b c = true -> runtime_eqb a c = true.
Proof. unfold runtime_eqb. split_tests. Qed.

Lemma only_reloadable_refl a : changes_only_reloadable a a.
Proof. split; [|by left]. by destruct a as [????????[] ????? [] ????]. Qed.

Lemma compatible_kept a b : is_reload_compatible_with a b = true -> changes_only_reloadable a b.
Proof.
  unfold is_reload_compatible_with, changes_only_reloadable.
  rewrite !andb_true_iff, !same_true. intros H. destruct_and!.
  split; [|right; split; assumption].
  destruct a as [????????[] ????[] [] ????], b as [????????[] ????[] [] ????]; cbn in *. congruence.
Qed.

#[local] Opaque is_reload_compatible_with config_eqb observability_eqb runtime_eqb.

Lemma kept_trans a b c :
  changes_only_reloadable a b -> changes_only_reloadable b c -> changes_only_reloadable a c.
Proof.
  intros [H1 Hr1] [H2 Hr2]. split.
  - clear Hr1 Hr2. rewrite H1 in H2. exact H2.
  - destruct Hr1 as [->|[Ho1 Hr1]], Hr2 as [->|[Ho2 Hr2]]; [by left|by right|by right|].
    right. split; [exact (observability_eqb_trans _ _ _ Ho1 Ho2)|exact (runtime_eqb_trans _ _ _ Hr1 Hr2)].
Qed.

Lemma coherent_credentials s :
  coherent s ->
  match cached s with
  | Some c => auth_mode (auth (active s)) <> PassThrough /\ backend_user (auth (active s)) = Some (username c)
  | None => backend_user (auth (active s)) = None
  end.
Proof.
  intros [env H]. unfold load_backend_credentials in H. apply bind_Ok_inv in H as (p & Hp & H).
  unfold load_backend_credential_provider in Hp.
  destruct (backend_user (auth (active s))) as [u|], (backend_password_env_var_name _) as [n|]; try done.
  - case_bool_decide as Hm; [done|]. injection Hp as <-. apply bind_Ok_inv in H as (c & Hc & [= <-]).
    split; [done|]. unfold provider_credentials in Hc. destruct (env _) as [[pw|]|]; try done.
    cbn in Hc. case_bool_decide; [done|]. cbn in Hc. by injection Hc as <-.
  - injection Hp as <-. by injection H as <-.
Qed.
End ReloadFacts.

Section ReloadTheorem.
Context `{HC : Crypto} (to_value : Config -> result error Value) (of_value : Value -> result error Config)
  (default_config : Config).
Abbreviation reload_once := (reload_once_with_pools_and_credentials to_value of_value default_config).

Lemma reload_once_step e base registry_is_empty s :
  let '(r, s') := reload_once e base registry_is_empty s in
  (s' = s /\ (forall t, r <> Ok (ReloadApplied, t)))
  \/ (exists t, r = Ok (ReloadApplied, t)) /\ is_reload_compatible_with (active s) (active s') = true /\ coherent s'
     /\ load_effective_config to_value of_value default_config e base = Ok (active s').
Proof.
  unfold reload_once_with_pools_and_credentials.
  destruct (load_effective_config _ _ _ _ _) as [next| |] eqn:Hl; [|by left|by left].
  destruct (load_backend_credentials _ _) as [cred| |] eqn:Hc; [|by left|by left].
  destruct (config_eqb next (active s)); [by left|].
  destruct (is_reload_compatible_with (active s) next) eqn:Hr; cbn [negb]; [|by left].
  destruct (validate_runtime_assets e next) as [[]| |]; [|by left|by left].
  right. split; [by eexists|]. split; [done|]. split; [by exists (process_env e)|done].
Qed.

Lemma reload_loop_kept base registry_is_empty ticks s :
  coherent s ->
  let s' := reload_loop to_value of_value default_config base registry_is_empty ticks s in
  changes_only_reloadable (active s) (active s') /\ coherent s'.
Proof.
  revert s. induction ticks as [|e ticks IH]; intros s Hs; cbn [reload_loop].
  - split; [apply only_reloadable_refl|done].
  - pose proof (reload_once_step e base registry_is_empty s) as Hstep.
    destruct (reload_once e base registry_is_empty s) as [r s1]. cbn [snd].
    destruct Hstep as [[-> _]|(_ & Hk & Hc & _)]; [by apply IH|].
    destruct (IH s1 Hc) as [Hk' Hc']. split; [|done]. eapply kept_trans; [by apply compatible_kept|done].
Qed.

Lemma initialize_coherent e base s arena sel :
  initialize_runtime_state to_value of_value default_config e base = Ok (s, arena, sel) ->
  coherent s /\ config_validate (active s) = Ok tt
  /\ exists route control, default_route_config (active s) = Some route
     /\ build_route_pool_selector (active s) route = Ok (arena, sel, control).
Proof.
  unfold initialize_runtime_state. intros (c & _ & H)%bind_Ok_inv. apply bind_Ok_inv in H as ([] & Hv & H).
  apply bind_Ok_inv in H as ([] & _ & H). apply bind_Ok_inv in H as (reg & _ & H).
  apply bind_Ok_inv in H as (cred & Hc & H). apply bind_Ok_inv in H as (route & Hr & H).
  apply bind_Ok_inv in H as ([[arena' sel'] control] & Hb & [= <- <- <-]).
  split; [by exists (process_env e)|]. cbn [active]. split; [by destruct (config_validate c) as [[]| |]|].
  exists route, control. split.
  - unfold some_or in Hr. by destruct (default_route_config c); [injection Hr as ->|].
  - destruct (build_route_pool_selector c route) as [x|[]|]; cbn in Hb; congruence.
Qed.

(** C10. What reloads can change. Over any history of reloads of a proxy that
    started, whatever the files, the environment and the TLS material were at
    each, the active configuration is the one it started with but for the
    query timeout, the audit and socket sections, the users file and the name
    and password variable of the service credentials (the sections that hold
    rates are the same up to the equality of floats); the service credentials
    are those the active configuration names and there are none when logins
    pass through; and the pools made at the start serve every client from the
    server, and with the bound, that the active configuration asks for. The
    documentation marks the first three of the changing settings as settings
    that need a restart: see [reload_applies_restart_settings]. *)
Theorem reload_safe e base s arena sel registry_is_empty ticks :
  initialize_runtime_state to_value of_value default_config e base = Ok (s, arena, sel) ->
  let s' := reload_loop to_value of_value default_config base registry_is_empty ticks s in
  changes_only_reloadable (active s) (active s')
  /\ match cached s' with
     | Some c => auth_mode (auth (active s')) <> PassThrough /\ backend_user (auth (active s')) = Some (username c)
     | None => backend_user (auth (active s')) = None
     end
  /\ exists route, default_route_config (active s') = Some route
     /\ forall database user application_name addr,
          reached arena <$> selector_resolve sel (route_key database user application_name addr)
          = Some <$> served_by (active s') route database user.
Proof.
  intros (Hc & Hv & route & control & Hr & Hb)%initialize_coherent s'.
  destruct (reload_loop_kept base registry_is_empty ticks s Hc) as [Hk Hc']. fold s' in Hk, Hc'.
  split; [done|]. split; [by apply coherent_credentials|]. exists route.
  pose proof (assembly_exact_plain (active s) route Hv) as Ha.
  destruct (pools_fit (active s)); [|congruence].
  destruct Ha as (arena' & sel' & control' & Hb' & Hs). rewrite Hb in Hb'. injection Hb' as <- <- <-.
  destruct Hk as [-> _]. split.
  - unfold default_route_config, effective_routes in *. done.
  - intros database user app addr. rewrite Hs. unfold served_by, pool_bounds_of. done.
Qed.
End ReloadTheorem.

(** ** Runs *)

Module Demo.
(** Configurations that differ in their query timeout, in the credentials
    and in a rate; their TOML form is the timeout. *)
Definition demo_auth (credentials : bool) : AuthConfig := {|
  auth_mode := AuthScramSha256; auth_users_file := None;
  backend_user := if credentials then Some (lit "svc") else None;
  backend_password_env_var_name := if credentials then Some (lit "PW") else None;
  auth_query_enabled := true; auth_query := lit "SELECT $1"; auth_query_cache_ttl_ms := 1;
  auth_failure_message_mode := Generic |}.
Definition demo (n : Z) : Config :=
  let d := config_default (lit "n") in {|
  connection := connection d; routes := []; pools := pools (two_pools 2); runtime := runtime d;
  capacity := capacity d; pool_lifecycle := pool_lifecycle d; performance := performance d; guardrails := guardrails d;
  qos := {| qos_max_route_in_flight := 100; qos_max_route_waiters := 1000; query_timeout_ms := n;
            idle_client_timeout_ms := 300000; idle_transaction_timeout_ms := 60000;
            qos_max_client_buffer_bytes := 1048576; qos_max_backend_buffer_bytes := 4194304;
            qos_overload_error_code := lit "53300" |};
  admin := admin d; observability := observability d;
  audit := {| audit_enabled := false; audit_sink := None;
              audit_sample_rate := if n =? 3 then S754_nan else f64_one; audit_include_reads := false |};
  resilience := resilience d; tls := tls d; auth := demo_auth (negb (n =? 2));
  reload := {| config_file := Some (lit "f"); config_reload_interval_ms := 5000; reload_enabled := true |};
  drain := drain d; health := health d; socket := socket d |}.
Definition demo_to_value (c : Config) : result error Value :=
  Ok (VTable [(lit "n", VInteger (query_timeout_ms (qos c)))]).
Definition demo_of_value (v : Value) : result error Config :=
  match value_at v [lit "n"] with Some (VInteger n) => Ok (demo n) | _ => Err EForeign end.
(** The file says [n], the environment has the password. *)
Definition demo_environment (n : Z) : Environment := {|
  file_config := fun _ => Ok (demo n); users_file := fun _ => None; tls_assets := fun _ => Ok tt;
  allowlist_view := {| view_len := None; view_content := None; view_mtime := None; view_current_mtime := None |};
  process_env := fun _ => Some (Some (lit "secret")) |}.

Definition started : option (Running * list PoolSpec * RoutePoolSelector) :=
  match initialize_runtime_state (HC := toy) demo_to_value demo_of_value (demo 0) (demo_environment 1) (demo 0) with
  | Ok x => Some x
  | _ => None
  end.
Definition after (ticks : list Z) : option Running :=
  '(s, _, _) ← started;
  Some (reload_loop (HC := toy) demo_to_value demo_of_value (demo 0) (demo 0) false (demo_environment <$> ticks) s).
End Demo.
Import Demo.

(** The file changes the query timeout and, with it, the audit section; the
    reload applies both, although docs/configuration.md marks qos.query_timeout_ms,
    audit.* and socket.* as settings that need a restart. *)
Example reload_applies_restart_settings :
  (fun s => (query_timeout_ms (qos (active s)), audit_sample_rate (audit (active s)))) <$> after [1; 3]
  = Some (3, S754_nan).
Proof. by vm_compute. Qed.

Lemma reload_safe_witness :
  match started with
  | Some (s, arena, sel) =>
      let s' := reload_loop (HC := toy) demo_to_value demo_of_value (demo 0) (demo 0) false [demo_environment 7] s in
      changes_only_reloadable (active s) (active s') /\ is_Some (cached s')
  | None => False
  end.
Proof.
  destruct started as [[[s arena] sel]|] eqn:Hs; [|by vm_compute in Hs].
  assert (initialize_runtime_state (HC := toy) demo_to_value demo_of_value (demo 0) (demo_environment 1) (demo 0)
          = Ok (s, arena, sel)) as Hi.
  { unfold started in Hs. destruct (initialize_runtime_state _ _ _ _ _) as [x| |]; [by injection Hs as ->|done|done]. }
  pose proof (reload_safe (HC := toy) demo_to_value demo_of_value (demo 0) (demo_environment 1) (demo 0) s arena sel
                false [demo_environment 7] Hi) as (Hk & Hc & _).
  split; [exact Hk|]. destruct (cached _) eqn:E; [by eexists|]. exfalso. revert Hc E.
  unfold started in Hs. vm_compute in Hs. injection Hs as <- _ _. by vm_compute.
Defined.

(** A reload does not validate: with the credentials taken out of the file,
    a configuration that [config_validate] refuses becomes the active one,
    and the lookups of [auth_query] have no credentials any more. *)
Example reload_applies_invalid_configuration :
  (fun s => (result_ok (config_validate (active s)), cached s)) <$> after [2] = Some (None, None).
Proof. by vm_compute. Qed.

(** A rate that is not a number differs from itself: every tick applies the
    same configuration again and retires the idle connections. *)
Example nan_is_reloaded_forever :
  (fun s => fst (reload_once_with_pools_and_credentials (HC := toy) demo_to_value demo_of_value (demo 0)
                   (demo_environment 3) (demo 0) false s)) <$> after [3; 3; 3]
  = Some (Ok (ReloadApplied, RetiredRegistry)).
Proof. by vm_compute. Qed.

(** A reload interval of zero passes every check and panics. *)
Example zero_interval_panics ticks s :
  spawn_reload_loop (HC := toy) demo_to_value demo_of_value (demo 0) (demo 0)
    {| config_file := Some (lit "f"); config_reload_interval_ms := 0; reload_enabled := true |} false ticks s = Panic.
Proof. done. Qed.
