(* ===== verification/Adaptive.v ===== *)
(** * Adaptive: recommendations for limits, and what becomes of them

    Models [pg-kinetic-core/src/cluster/adaptive.rs], the adaptive part of
    [config.rs] and [pg-kinetic-proxy/src/ops/adaptive.rs]: the signals, the
    recommendations made of them, the guardrails, the simulated change and
    the controller with its bounded history. The pool, limit and mirror
    figures it reads are arguments; the snapshot store it reports to keeps
    the same kind of bounded list. Labels are left out. *)

From S2P Require Import Prelude Text RoutingTypes Route Secrets Auth Pool Guardrails Recovery F64 Pressure Admission Config Mirror.

(** ** Recommendations *)

Inductive AdaptiveSignal :=
| PoolSizePressure | BackpressureThresholdPressure | MirrorSamplingPressure | TimeoutPressure.
Inductive AdaptiveAction := ActRecommend | ActApply | ActReject.
Inductive AdaptiveOutcome := OutcomeRecommended | OutcomeApplied | OutcomeRejected | OutcomeSkipped.
Inductive AdaptiveGuardrail := ConfidenceFloor | Allowlist | MaxChangePercent | UnboundedChange.
Inductive TuningBound := Percent (n : Z) | Unbounded.

#[global] Instance AdaptiveOutcome_eq_dec : EqDecision AdaptiveOutcome.
Proof. solve_decision. Defined.

Definition max_change_percent (b : TuningBound) : option Z := match b with Percent n => Some n | Unbounded => None end.

Inductive AdaptiveRecommendationError := NonFiniteConfidence | ConfidenceOutOfRange | EmptyReason | EmptyWindow.

Record AdaptiveRecommendation := {
  rec_signal : AdaptiveSignal;
  rec_action : AdaptiveAction;
  rec_knob : TunableKnob;
  rec_confidence : f64;
  rec_reason : str;
  rec_window_ms : Z;
  rec_safety_bound : TuningBound;
}.

(** [AdaptiveRecommendation::new]. *)
Definition recommendation_new (signal : AdaptiveSignal) (action : AdaptiveAction) (knob : TunableKnob)
    (confidence : f64) (reason : str) (window_ms : Z) (safety_bound : TuningBound)
    : result AdaptiveRecommendationError AdaptiveRecommendation :=
  if negb (is_finite confidence) then Err NonFiniteConfidence
  else if negb (in_unit confidence) then Err ConfidenceOutOfRange
  else if window_ms =? 0 then Err EmptyWindow
  else if bool_decide (trim reason = []) then Err EmptyReason
  else Ok {| rec_signal := signal; rec_action := action; rec_knob := knob; rec_confidence := confidence;
             rec_reason := reason; rec_window_ms := window_ms; rec_safety_bound := safety_bound |}.

(** ** Guardrails *)

Record AdaptiveApplyError := { guardrail : AdaptiveGuardrail; message : str }.

Definition knob_as_str (k : TunableKnob) : str :=
  match k with
  | PoolSize => lit "pool_size"
  | BackpressureThresholds => lit "backpressure_thresholds"
  | MirrorSampling => lit "mirror_sampling"
  | TimeoutKnob => lit "timeout"
  end.

(** [{:.3}]: the nearest multiple of a thousandth, ties to even; a binary64
    has at most 309 digits before its point. *)
Definition thousandths (m e : Z) : Z :=
  if 0 <=? e then m * 2 ^ e * 1000
  else
    let n := m * 1000 in
    let d := 2 ^ (- e) in
    let q := n / d in
    let r := n mod d in
    if (2 * r <? d) || ((2 * r =? d) && Z.even q) then q else q + 1.
Definition pad3 (n : Z) : str := [48 + n / 100; 48 + n / 10 mod 10; 48 + n mod 10].
Definition fmt_fixed3 (x : f64) : str :=
  match x with
  | S754_nan => lit "NaN"
  | S754_infinity s => (if s then lit "-" else []) ++ lit "inf"
  | S754_zero s => (if s then lit "-" else []) ++ lit "0.000"
  | S754_finite s m e =>
      let t := thousandths (Z.pos m) e in
      (if s then lit "-" else []) ++ dec_digits 320 (t / 1000) ++ lit "." ++ pad3 (t mod 1000)
  end.

Definition allows (c : AdaptiveApplyConfig) (k : TunableKnob) : bool :=
  bool_decide (k ∈ adaptive_apply_allowlist c).

Definition apply_evaluate (c : AdaptiveApplyConfig) (r : AdaptiveRecommendation) (g : AdaptiveGuardrailConfig)
    : result AdaptiveApplyError AdaptiveOutcome :=
  if negb (adaptive_apply_enabled c) then Ok OutcomeSkipped
  else if negb (allows c (rec_knob r)) then
    Err {| guardrail := Allowlist;
           message := lit "adaptive knob '" ++ knob_as_str (rec_knob r) ++ lit "' is not on the apply allowlist" |}
  else
    match rec_safety_bound r with
    | Unbounded => Err {| guardrail := UnboundedChange; message := lit "adaptive apply rejected an unbounded change" |}
    | Percent n =>
        if adaptive_max_change_percent g <? n then
          Err {| guardrail := MaxChangePercent;
                 message := lit "adaptive change percent " ++ fmt_u64 n ++ lit " exceeds the configured limit "
                            ++ fmt_u64 (adaptive_max_change_percent g) |}
        else Ok OutcomeApplied
    end.

(** [AdaptiveConfig::evaluate]. *)
Definition adaptive_evaluate (c : AdaptiveConfig) (r : AdaptiveRecommendation)
    : result AdaptiveApplyError AdaptiveOutcome :=
  if f64_lt (rec_confidence r) (adaptive_min_confidence c) then
    Err {| guardrail := ConfidenceFloor;
           message := lit "adaptive recommendation confidence " ++ fmt_fixed3 (rec_confidence r)
                      ++ lit " is below the minimum " ++ fmt_fixed3 (adaptive_min_confidence c) |}
  else if is_apply (adaptive_mode c) then apply_evaluate (adaptive_apply c) r (adaptive_guardrail c)
  else Ok OutcomeRecommended.

(** ** Signals *)

Definition DEFAULT_HISTORY_CAPACITY : nat := 64.
Definition HIGH_POOL_WAIT_THRESHOLD : Z := 8.
Definition HIGH_OVERLOAD_THRESHOLD : Z := 3.
Definition MIRROR_DROP_THRESHOLD : Z := 1.

Record AdaptiveTuningSnapshot := {
  pool_size : Z;
  backpressure_thresholds : Z;
  mirror_sample_rate : f64;
  tuning_checkout_timeout_ms : Z;
}.
Definition tuning_from_config (c : Config) : AdaptiveTuningSnapshot :=
  {| pool_size := max_backends (capacity c); backpressure_thresholds := qos_max_route_waiters (qos c);
     mirror_sample_rate := f64_div f64_one (f64_of_Z 4);
     tuning_checkout_timeout_ms := checkout_timeout_ms (performance c) |}.

(** What the collector reads: the snapshots of the pool, the limits and the
    routes. *)
Record PoolFigures := { waiting_clients : Z; active_backends : Z; configured_backends : Z }.
Record LimitFigures := {
  limit_max_backends : Z;
  limit_max_checkout_waiters : Z;
  limit_max_route_waiters : Z;
  limit_checkout_timeout_ms : Z;
}.
Record BackpressureSnapshot := { bp_waiting : Z; bp_rejected : Z; bp_timed_out : Z; bp_canceled : Z }.

Record AdaptiveSignalSnapshot := {
  pool_waiting_clients : Z;
  pool_active_backends : Z;
  pool_configured_backends : Z;
  signal_limits : LimitFigures;
  backpressure_waiting : Z;
  backpressure_rejected : Z;
  backpressure_timed_out : Z;
  backpressure_canceled : Z;
  mirror_observations : Z;
  mirror_completed : Z;
  mirror_timed_out : Z;
  mirror_dropped : Z;
  mirror_skipped : Z;
  mirror_rejected : Z;
  mirror_errors : Z;
}.

(** Sums of [u64]s wrap in a release build. *)
Definition overload_events (s : AdaptiveSignalSnapshot) : Z :=
  wrap_u 64 (backpressure_rejected s + backpressure_timed_out s + backpressure_canceled s).

Definition aggregate_backpressure (l : list BackpressureSnapshot) : Z * Z * Z * Z :=
  fold_left
    (fun '(waiting, rejected, timed_out, canceled) s =>
       (wrap_u 64 (waiting + bp_waiting s), wrap_u 64 (rejected + bp_rejected s),
        wrap_u 64 (timed_out + bp_timed_out s), wrap_u 64 (canceled + bp_canceled s)))
    l (0, 0, 0, 0).

Definition count_status (p : MirrorTaskStatus -> bool) (l : list MirrorObservation) : Z :=
  len (List.filter (fun o => p (observed_status o)) l).

(** [AdaptiveSignalCollector::collect]. *)
Definition collect (pool : PoolFigures) (limits : LimitFigures) (routes : list BackpressureSnapshot) (mirror : list MirrorObservation)
    : AdaptiveSignalSnapshot :=
  let '(waiting, rejected, timed_out, canceled) := aggregate_backpressure routes in {|
  pool_waiting_clients := waiting_clients pool; pool_active_backends := active_backends pool;
  pool_configured_backends := configured_backends pool; signal_limits := limits;
  backpressure_waiting := waiting; backpressure_rejected := rejected; backpressure_timed_out := timed_out;
  backpressure_canceled := canceled; mirror_observations := len mirror;
  mirror_completed := count_status (fun s => match s with Completed => true | _ => false end) mirror;
  mirror_timed_out := count_status (fun s => match s with TimedOut => true | _ => false end) mirror;
  mirror_dropped := count_status (fun s => match s with DroppedFor _ => true | _ => false end) mirror;
  mirror_skipped := count_status (fun s => match s with SkippedFor _ => true | _ => false end) mirror;
  mirror_rejected := count_status (fun s => match s with RejectedFor _ => true | _ => false end) mirror;
  mirror_errors := count_status (fun s => match s with TaskError => true | _ => false end) mirror |}.

(** ** Recommending *)

(** 0.05 and 0.99 to the nearest number. *)
Definition recommendation_confidence (min_confidence : f64) : f64 :=
  f64_max (f64_min (f64_add min_confidence (f64_div f64_one (f64_of_Z 20))) (f64_div (f64_of_Z 99) (f64_of_Z 100)))
          min_confidence.

Definition recommend (s : AdaptiveSignalSnapshot) (t : AdaptiveTuningSnapshot) (c : AdaptiveConfig)
    : result AdaptiveRecommendationError (list AdaptiveRecommendation) :=
  let build signal knob reason :=
    recommendation_new signal ActRecommend knob (recommendation_confidence (adaptive_min_confidence c)) reason
      (adaptive_window_ms c) (Percent (adaptive_max_change_percent (adaptive_guardrail c))) in
  let when (b : bool) r := if b then x ← r; Ok [x] else Ok [] in
  pool ← when (HIGH_POOL_WAIT_THRESHOLD <=? pool_waiting_clients s)
    (build PoolSizePressure PoolSize
       (fmt_u64 (pool_waiting_clients s)
        ++ lit " checkout waiters are elevated; review pool sizing and backpressure thresholds"));
  overload ← when (HIGH_OVERLOAD_THRESHOLD <=? overload_events s)
    (build BackpressureThresholdPressure BackpressureThresholds
       (fmt_u64 (overload_events s)
        ++ lit " overload events were recorded; tighten backpressure or review capacity"));
  mirror ← when ((MIRROR_DROP_THRESHOLD <=? mirror_dropped s) && f64_lt f64_zero (mirror_sample_rate t))
    (build MirrorSamplingPressure MirrorSampling
       (fmt_u64 (mirror_dropped s) ++ lit " mirror drops were observed at a "
        ++ fmt_fixed3 (mirror_sample_rate t) ++ lit " sample rate; lower the mirror sample rate"));
  Ok (pool ++ overload ++ mirror).

(** ** Applying *)

Definition current_value (k : TunableKnob) (t : AdaptiveTuningSnapshot) : f64 :=
  match k with
  | PoolSize => f64_of_Z (pool_size t)
  | BackpressureThresholds => f64_of_Z (backpressure_thresholds t)
  | MirrorSampling => mirror_sample_rate t
  | TimeoutKnob => f64_of_Z (tuning_checkout_timeout_ms t)
  end.

Definition adjusted_value (before : f64) (k : TunableKnob) (change_percent : Z) : f64 :=
  let change := f64_div (f64_of_Z change_percent) (f64_of_Z 100) in
  match k with
  | PoolSize => f64_max (f64_ceil (f64_mul before (f64_add f64_one change))) (f64_add before f64_one)
  | BackpressureThresholds | TimeoutKnob =>
      f64_max (f64_floor (f64_mul before (f64_sub f64_one change))) f64_one
  | MirrorSampling => f64_clamp (f64_floor (f64_mul before (f64_sub f64_one change))) f64_zero f64_one
  end.

Record AdaptiveOutcomeSnapshot := {
  out_signal : AdaptiveSignal;
  out_knob : TunableKnob;
  out_outcome : AdaptiveOutcome;
  out_reason : str;
  before_value : option f64;
  after_value : option f64;
  change_percent : option Z;
  disabled_by_reload : bool;
}.

(** [AdaptiveApplyEngine::apply]. *)
Definition apply_recommendation (c : Config) (r : AdaptiveRecommendation) (t : AdaptiveTuningSnapshot)
    : AdaptiveOutcomeSnapshot :=
  let a := adaptive (production (runtime c)) in
  let disabled := negb (is_apply (adaptive_mode a)) || negb (adaptive_apply_enabled (adaptive_apply a)) in
  let bound := max_change_percent (rec_safety_bound r) in
  let outcome o reason before after disabled :=
    {| out_signal := rec_signal r; out_knob := rec_knob r; out_outcome := o; out_reason := reason;
       before_value := before; after_value := after; change_percent := bound; disabled_by_reload := disabled |} in
  match adaptive_evaluate a r with
  | Ok OutcomeRecommended => outcome OutcomeRecommended (rec_reason r) None None disabled
  | Ok OutcomeApplied =>
      let percent := default (adaptive_max_change_percent (adaptive_guardrail a)) bound in
      let before := current_value (rec_knob r) t in
      outcome OutcomeApplied (rec_reason r) (Some before) (Some (adjusted_value before (rec_knob r) percent)) false
  | Ok OutcomeSkipped => outcome OutcomeSkipped (rec_reason r) None None disabled
  | Ok OutcomeRejected => outcome OutcomeRejected (rec_reason r) None None false
  | Err e => outcome OutcomeRejected (message e) None None false
  | Panic => outcome OutcomeRejected [] None None false
  end.

(** ** The controller *)

(** [push_recommendation] and [push_outcome]. *)
Definition push_bounded {A} (capacity : nat) (l : list A) (x : A) : list A :=
  (if (length l =? capacity)%nat then tail l else l) ++ [x].

Record AdaptiveHistory := {
  history_capacity : nat;
  recommendations : list AdaptiveRecommendation;
  outcomes : list AdaptiveOutcomeSnapshot;
}.
Definition history_new (capacity : nat) : AdaptiveHistory :=
  {| history_capacity := Nat.max capacity 1; recommendations := []; outcomes := [] |}.
Definition record_recommendation (h : AdaptiveHistory) (r : AdaptiveRecommendation) : AdaptiveHistory :=
  {| history_capacity := history_capacity h;
     recommendations := push_bounded (history_capacity h) (recommendations h) r; outcomes := outcomes h |}.
Definition record_outcome (h : AdaptiveHistory) (o : AdaptiveOutcomeSnapshot) : AdaptiveHistory :=
  {| history_capacity := history_capacity h; recommendations := recommendations h;
     outcomes := push_bounded (history_capacity h) (outcomes h) o |}.

(** [AdaptiveController::tick]: the recommendations and the history after
    it. The configuration is read, never written. *)
Definition adaptive_tick (c : Config) (s : AdaptiveSignalSnapshot) (h : AdaptiveHistory)
    : result AdaptiveRecommendationError (list AdaptiveRecommendation) * AdaptiveHistory :=
  if negb (adaptive_enabled (production (runtime c))) then (Ok [], h)
  else
    let t := tuning_from_config c in
    match recommend s t (adaptive (production (runtime c))) with
    | Ok rs => (Ok rs, fold_left (fun h r => record_outcome (record_recommendation h r) (apply_recommendation c r t)) rs h)
    | Err e => (Err e, h)
    | Panic => (Panic, h)
    end.

(** A run of the controller: what its ticks return, and the history. *)
Fixpoint adaptive_ticks (c : Config) (signals : list AdaptiveSignalSnapshot) (h : AdaptiveHistory)
    : list (result AdaptiveRecommendationError (list AdaptiveRecommendation)) * AdaptiveHistory :=
  match signals with
  | [] => ([], h)
  | s :: signals =>
      let '(r, h) := adaptive_tick c s h in
      let '(rs, h) := adaptive_ticks c signals h in (r :: rs, h)
  end.

(** ** Facts *)

Definition lastn {A} (n : nat) (l : list A) : list A := drop (length l - n) l.

Section Facts.
Lemma trim_start_snoc s c : is_whitespace c = false -> exists s', trim_start (s ++ [c]) = s' ++ [c].
Proof.
  intros Hc. unfold trim_start. induction s as [|x s IH]; cbn.
  - rewrite Hc. by exists [].
  - destruct (is_whitespace x); [done|]. by exists (x :: s).
Qed.
Lemma trim_snoc s c : is_whitespace c = false -> trim (s ++ [c]) <> [].
Proof.
  intros Hc. unfold trim. destruct (trim_start_snoc s c Hc) as [s' ->].
  rewrite trim_end_trimmed; [by destruct s'|]. intros c'. rewrite last_snoc. by intros [= <-].
Qed.

(** A text that ends in this literal has something to say. *)
Lemma reason_kept pre (t : str) :
  match last t with Some c => is_whitespace c = false | None => False end -> trim (pre ++ t) <> [].
Proof.
  destruct t as [|c t] using rev_ind; [done|]. rewrite last_snoc, app_assoc. apply trim_snoc.
Qed.

Lemma recommendation_confidence_ok m :
  is_finite m = true -> in_unit m = true ->
  is_finite (recommendation_confidence m) = true /\ in_unit (recommendation_confidence m) = true
  /\ f64_lt (recommendation_confidence m) m = false.
Proof.
  intros Hf Hu. unfold in_unit in *. apply andb_true_iff in Hu as [H0 H1].
  assert (m <> S754_nan) as Hn by (by intros ->).
  unfold recommendation_confidence. set (x := f64_min _ _).
  assert (f64_le x (f64_div (f64_of_Z 99) (f64_of_Z 100)) = true) as Hx by (apply f64_min_le; by vm_compute).
  clearbody x. pose proof (f64_max_ge x m Hn) as Hge.
  assert (f64_le (f64_max x m) f64_one = true) as Hle.
  { destruct (f64_max_cases x m) as [->| ->]; [|exact H1]. eapply f64_le_trans; [exact Hx|]. by vm_compute. }
  pose proof (f64_le_trans _ _ _ H0 Hge) as H0'. destruct (f64_le_finite _ _ Hle) as [Hnan _].
  rewrite f64_lt_le, Hge, H0', Hle by assumption. clear Hge. split; [|split; reflexivity].
  revert Hle H0'. generalize (f64_max x m). intros [|[]| |] Hle H0'; try reflexivity; vm_compute in Hle, H0'; discriminate.
Qed.

Lemma lastn_push {A} (n : nat) (l : list A) x :
  (0 < n)%nat -> push_bounded n (lastn n l) x = lastn n (l ++ [x]).
Proof.
  intros Hn. unfold push_bounded, lastn. rewrite length_drop, length_app. cbn [length].
  destruct (Nat.eqb_spec (length l - (length l - n)) n) as [He|He].
  - rewrite drop_app_le by lia. f_equal.
    assert (forall k : list A, tail k = drop 1 k) as -> by (by intros []).
    rewrite drop_drop. f_equal. lia.
  - replace (length l - n)%nat with 0%nat by lia. by replace (length l + 1 - n)%nat with 0%nat by lia.
Qed.

(** What a snapshot calls for: eight waiting clients, three overload events, a
    dropped mirror task. *)
Definition pressures (s : AdaptiveSignalSnapshot) : list (AdaptiveSignal * TunableKnob) :=
  (if 8 <=? pool_waiting_clients s then [(PoolSizePressure, PoolSize)] else [])
  ++ (if 3 <=? overload_events s then [(BackpressureThresholdPressure, BackpressureThresholds)] else [])
  ++ (if 1 <=? mirror_dropped s then [(MirrorSamplingPressure, MirrorSampling)] else []).

(** A recommendation as the settings ask for: its confidence from the floor to
    one, its change within the bound. *)
Definition within (c : AdaptiveConfig) (r : AdaptiveRecommendation) : Prop :=
  f64_lt (rec_confidence r) (adaptive_min_confidence c) = false /\ in_unit (rec_confidence r) = true
  /\ rec_safety_bound r = Percent (adaptive_max_change_percent (adaptive_guardrail c))
  /\ rec_window_ms r = adaptive_window_ms c.

Lemma recommend_total s t c :
  adaptive_validate c = Ok tt -> f64_lt f64_zero (mirror_sample_rate t) = true ->
  exists rs, recommend s t c = Ok rs /\ (fun r => (rec_signal r, rec_knob r)) <$> rs = pressures s
    /\ Forall (within c) rs.
Proof.
  unfold adaptive_validate. destruct (negb (is_finite _) || negb (in_unit _)) eqn:Hu; [done|].
  apply orb_false_iff in Hu as [Hf%negb_false_iff Hu%negb_false_iff].
  destruct (adaptive_window_ms c =? 0) eqn:Hw; [done|]. intros _ Hrate.
  destruct (recommendation_confidence_ok _ Hf Hu) as (Hf' & Hu' & Hlt).
  assert (forall signal knob pre (t : str),
    match last t with Some c => is_whitespace c = false | None => False end ->
    exists r, recommendation_new signal ActRecommend knob (recommendation_confidence (adaptive_min_confidence c)) (pre ++ t)
                (adaptive_window_ms c) (Percent (adaptive_max_change_percent (adaptive_guardrail c))) = Ok r
      /\ (rec_signal r, rec_knob r) = (signal, knob) /\ within c r) as Hbuild.
  { intros signal knob pre tl Ht. unfold recommendation_new. rewrite Hf', Hu', Hw.
    rewrite bool_decide_false by (by apply reason_kept). cbn [negb]. eexists. split; [reflexivity|].
    split; [reflexivity|]. by split_and!. }
  unfold recommend, pressures, HIGH_POOL_WAIT_THRESHOLD, HIGH_OVERLOAD_THRESHOLD, MIRROR_DROP_THRESHOLD.
  rewrite Hrate, andb_true_r. clear Hrate.
  destruct (Hbuild PoolSizePressure PoolSize (fmt_u64 (pool_waiting_clients s))
    (lit " checkout waiters are elevated; review pool sizing and backpressure thresholds") eq_refl) as (r1 & E1 & S1 & H1).
  destruct (Hbuild BackpressureThresholdPressure BackpressureThresholds (fmt_u64 (overload_events s))
    (lit " overload events were recorded; tighten backpressure or review capacity") eq_refl) as (r2 & E2 & S2 & H2).
  destruct (Hbuild MirrorSamplingPressure MirrorSampling
    (fmt_u64 (mirror_dropped s) ++ lit " mirror drops were observed at a " ++ fmt_fixed3 (mirror_sample_rate t))
    (lit " sample rate; lower the mirror sample rate") eq_refl) as (r3 & E3 & S3 & H3).
  rewrite <- !app_assoc in E3. rewrite E1, E2, E3. cbn [mbind result_bind]. clear Hbuild E1 E2 E3 Hlt.
  destruct (8 <=? _), (3 <=? _), (1 <=? _);
    cbn [mbind result_bind app]; eexists; (split; [reflexivity|]); (split; [by rewrite ?fmap_cons, ?S1, ?S2, ?S3|]); auto 10.
Qed.
End Facts.

Section History.
Context (c : Config).
Abbreviation settings := (adaptive (production (runtime c))).
Abbreviation outcome_of := (fun r => apply_recommendation c r (tuning_from_config c)).

(** The last entries of everything recorded so far. *)
Definition keeps (h : AdaptiveHistory) (all : list AdaptiveRecommendation) : Prop :=
  history_capacity h = DEFAULT_HISTORY_CAPACITY /\ recommendations h = lastn DEFAULT_HISTORY_CAPACITY all
  /\ outcomes h = lastn DEFAULT_HISTORY_CAPACITY (outcome_of <$> all).

Lemma record_keeps h all r :
  keeps h all -> keeps (record_outcome (record_recommendation h r) (outcome_of r)) (all ++ [r]).
Proof.
  intros (Hc & Hr & Ho). split; [done|]. cbn [record_outcome record_recommendation history_capacity recommendations outcomes].
  rewrite Hc, Hr, Ho, fmap_app. unfold DEFAULT_HISTORY_CAPACITY. split; apply lastn_push; lia.
Qed.

Lemma records_keep h all rs :
  keeps h all ->
  keeps (fold_left (fun h r => record_outcome (record_recommendation h r) (outcome_of r)) rs h) (all ++ rs).
Proof.
  revert h all. induction rs as [|r rs IH]; intros h all Hk; cbn [fold_left]; [by rewrite app_nil_r|].
  rewrite cons_middle, app_assoc. by apply IH, record_keeps.
Qed.

Lemma outcome_exact r :
  adaptive_validate settings = Ok tt ->
  f64_lt (rec_confidence r) (adaptive_min_confidence settings) = false ->
  rec_safety_bound r = Percent (adaptive_max_change_percent (adaptive_guardrail settings)) ->
  out_outcome (outcome_of r)
  = match adaptive_mode settings with
    | ModeRecommend => OutcomeRecommended
    | ModeApply => if bool_decide (rec_knob r ∈ adaptive_apply_allowlist (adaptive_apply settings))
                   then OutcomeApplied else OutcomeRejected
    end.
Proof.
  intros Hv Hc Hb. unfold apply_recommendation, adaptive_evaluate. rewrite Hc.
  destruct (adaptive_mode settings) eqn:Hm; cbn [is_apply]; [done|].
  assert (adaptive_apply_enabled (adaptive_apply settings) = true) as He.
  { unfold adaptive_validate in Hv. destruct (negb _ || _); [done|]. destruct (_ =? 0); [done|].
    apply bind_Ok_inv in Hv as ([] & _ & Hv). apply bind_Ok_inv in Hv as ([] & _ & Hv). rewrite Hm in Hv. cbn in Hv.
    by destruct (adaptive_apply_enabled _). }
  unfold apply_evaluate. rewrite He, Hb. cbn [negb]. unfold allows.
  destruct (bool_decide _); cbn [negb]; [|done]. by rewrite Z.ltb_irrefl.
Qed.

Lemma tick_records s h all :
  adaptive_validate settings = Ok tt -> keeps h all ->
  exists rs, fst (adaptive_tick c s h) = Ok rs /\ keeps (snd (adaptive_tick c s h)) (all ++ rs)
    /\ (fun r => (rec_signal r, rec_knob r)) <$> rs = (if adaptive_enabled (production (runtime c)) then pressures s else [])
    /\ Forall (within settings) rs.
Proof.
  intros Hv Hk. unfold adaptive_tick. destruct (adaptive_enabled _); cbn [negb].
  - destruct (recommend_total s (tuning_from_config c) settings Hv) as (rs & -> & Hp & Hf); [by vm_compute|].
    exists rs. cbn [fst snd]. auto using records_keep.
  - exists []. rewrite app_nil_r. by cbn.
Qed.

Lemma ticks_record signals h all :
  adaptive_validate settings = Ok tt -> keeps h all ->
  exists rss, fst (adaptive_ticks c signals h) = Ok <$> rss
    /\ keeps (snd (adaptive_ticks c signals h)) (all ++ mjoin rss)
    /\ Forall2 (fun s rs => (fun r => (rec_signal r, rec_knob r)) <$> rs
                            = (if adaptive_enabled (production (runtime c)) then pressures s else [])) signals rss
    /\ Forall (within settings) (mjoin rss).
Proof.
  intros Hv. revert h all. induction signals as [|s ss IH]; intros h all Hk; cbn [adaptive_ticks].
  - exists []. cbn. rewrite app_nil_r. by split_and!.
  - destruct (tick_records s h all Hv Hk) as (rs & Ht & Hk' & Hp & Hf).
    destruct (adaptive_tick c s h) as [r h1]. cbn [fst snd] in *. subst r.
    destruct (IH h1 _ Hk') as (rss & Hr & Hk2 & Hp2 & Hf2).
    destruct (adaptive_ticks c ss h1) as [results h2]. cbn [fst snd] in *. exists (rs :: rss).
    cbn [mjoin list_join]. rewrite app_assoc. split_and!; [by rewrite Hr|done|by constructor|by apply Forall_app].
Qed.
End History.

(** C26. Adaptive operation within its settings. With validated settings
    every tick succeeds, and each returns exactly the recommendations its
    snapshot calls for (none when adaptive operation is off): one for the
    pool size from eight waiting clients on, one for the backpressure
    thresholds from three overload events on, one for mirror sampling when a
    mirror task was dropped, in this order. All have a confidence of at least
    the configured floor and at most one, the configured window and the
    configured bound on the change. The history is the last 64 of what all
    ticks returned, in order, each with its outcome: applied (which only
    records the change) exactly when the mode is apply and the knob is on the
    allowlist, rejected when the knob is not, recommended in the other mode.
    The bound is one on the percentage of the recommendation; the recorded
    value can move further ([applied_change_exceeds_its_bound]). *)
Theorem adaptive_sound (c : Config) (signals : list AdaptiveSignalSnapshot) :
  adaptive_validate (adaptive (production (runtime c))) = Ok tt ->
  let '(results, h) := adaptive_ticks c signals (history_new DEFAULT_HISTORY_CAPACITY) in
  let a := adaptive (production (runtime c)) in
  exists rss, results = Ok <$> rss
    /\ Forall2 (fun s rs => (fun r => (rec_signal r, rec_knob r)) <$> rs
                            = (if adaptive_enabled (production (runtime c)) then pressures s else [])) signals rss
    /\ Forall (within a) (mjoin rss)
    /\ recommendations h = lastn DEFAULT_HISTORY_CAPACITY (mjoin rss)
    /\ outcomes h = lastn DEFAULT_HISTORY_CAPACITY
                      ((fun r => apply_recommendation c r (tuning_from_config c)) <$> mjoin rss)
    /\ Forall (fun r =>
         out_outcome (apply_recommendation c r (tuning_from_config c))
         = match adaptive_mode a with
           | ModeRecommend => OutcomeRecommended
           | ModeApply => if bool_decide (rec_knob r ∈ adaptive_apply_allowlist (adaptive_apply a))
                          then OutcomeApplied else OutcomeRejected
           end) (mjoin rss).
Proof.
  intros Hv.
  destruct (ticks_record c signals (history_new DEFAULT_HISTORY_CAPACITY) [] Hv) as (rss & Hr & (_ & Hl & Ho) & Hp & Hf); [done|].
  destruct (adaptive_ticks _ _ _) as [results h]. cbn [fst snd] in *. cbv zeta. exists rss. split_and!; try done.
  eapply Forall_impl; [exact Hf|]. intros r (? & ? & ? & ?). by apply outcome_exact.
Qed.

(** *** Concrete settings *)

Definition adaptive_config (a : AdaptiveConfig) : Config :=
  let d := config_default (lit "n") in {|
  connection := connection d; routes := []; pools := [];
  runtime := {| lifecycle := lifecycle_default; node_id := lit "n"; engine := engine_default;
                production := {| control_plane_enabled := false; mirroring_enabled := false; adaptive_enabled := true;
                                 adaptive := a; pressure := pressure_default |} |};
  capacity := {| max_clients := 10; max_backends := 5; max_checkout_waiters := 10 |};
  pool_lifecycle := pool_lifecycle d; performance := performance d; guardrails := guardrails d; qos := qos d;
  admin := admin d; observability := observability d; audit := audit d; resilience := resilience d; tls := tls d;
  auth := auth d; reload := reload d; drain := drain d; health := health d; socket := socket d |}.
Definition apply_settings (window : Z) : AdaptiveConfig := {|
  adaptive_mode := ModeApply; adaptive_window_ms := window; adaptive_min_confidence := f64_one;
  adaptive_apply := {| adaptive_apply_enabled := true; adaptive_apply_allowlist := [PoolSize; MirrorSampling] |};
  adaptive_guardrail := {| adaptive_max_change_percent := 10 |} |}.
Definition busy : AdaptiveSignalSnapshot :=
  collect {| waiting_clients := 9; active_backends := 5; configured_backends := 5 |}
    {| limit_max_backends := 5; limit_max_checkout_waiters := 10; limit_max_route_waiters := 1000; limit_checkout_timeout_ms := 1000 |}
    [{| bp_waiting := 1; bp_rejected := 2; bp_timed_out := 1; bp_canceled := 0 |}]
    [{| observed_decision := mirrored MirrorReadOnly Sampling; observed_status := DroppedFor SampledOut |}].

Lemma adaptive_sound_witness :
  let '(results, h) := adaptive_ticks (adaptive_config (apply_settings 1)) [busy; busy] (history_new DEFAULT_HISTORY_CAPACITY) in
  exists rss, results = Ok <$> rss /\ recommendations h = lastn DEFAULT_HISTORY_CAPACITY (mjoin rss)
    /\ length (mjoin rss) = 6%nat.
Proof.
  pose proof (adaptive_sound (adaptive_config (apply_settings 1)) [busy; busy] ltac:(by vm_compute)) as H.
  destruct (adaptive_ticks _ _ _) as [results h]. destruct H as (rss & Hr & Hp & _ & Hl & _).
  exists rss. split_and!; [exact Hr|exact Hl|].
  assert (forall rs, (fun r => (rec_signal r, rec_knob r)) <$> rs = pressures busy -> length rs = 3%nat) as H3.
  { intros rs Hrs. apply (f_equal length) in Hrs. rewrite length_fmap in Hrs. rewrite Hrs. by vm_compute. }
  inversion Hp as [|? rs1 ? l1 H1 Hp1]; subst. inversion Hp1 as [|? rs2 ? l2 H2 Hp2]; subst. inversion Hp2; subst.
  cbn [mjoin list_join]. rewrite !length_app, (H3 rs1 H1), (H3 rs2 H2). reflexivity.
Defined.

(** What is recorded as applied: five connections become six, a change of
    twenty percent under a bound of ten; a mirrored quarter becomes none. *)
Example applied_change_exceeds_its_bound :
  (fun o => (out_outcome o, change_percent o, before_value o, after_value o))
    <$> outcomes (snd (adaptive_tick (adaptive_config (apply_settings 1)) busy (history_new 64)))
  = [(OutcomeApplied, Some 10, Some (f64_of_Z 5), Some (f64_of_Z 6));
     (OutcomeRejected, Some 10, None, None);
     (OutcomeApplied, Some 10, Some (f64_div f64_one (f64_of_Z 4)), Some f64_zero)].
Proof. by vm_compute. Qed.

(** The adaptive settings are not among what [config_validate] checks: a
    window of zero is accepted, and the controller fails at every tick that
    has something to say. *)
Example zero_window_is_accepted :
  config_validate (adaptive_config (apply_settings 0)) = Ok tt
  /\ fst (adaptive_tick (adaptive_config (apply_settings 0)) busy (history_new 64)) = Err EmptyWindow.
Proof. by vm_compute. Qed.
