(* ===== verification/Observability.v ===== *)
(** * Observability: labels and the catalog of metrics

    Models [pg-kinetic-core/src/observability.rs]: phases, trace events,
    metric names, outcomes and labels, the catalog of metrics and the label
    policy, and the interface of types that have a label. The literals of a
    label are ASCII, so they are kept as [string]s; [lit] makes the text. *)

From S2P Require Import Prelude Text.

#[local] Open Scope string_scope.

(** ** Types with labels

    [as_str] of an enum. A metric or a table tells the values of a type
    apart by their labels, so labels have to be distinct. *)
Class Labelled (A : Type) := as_str : A -> string.
#[global] Hint Mode Labelled ! : typeclass_instances.
Class DistinctLabels (A : Type) `{Labelled A} := labels_inj :: Inj (=) (=) (as_str : A -> string).

Ltac distinct_labels := intros [] []; vm_compute; congruence.

(** A type with many values is distinct when the labels of its list are. *)
Lemma labels_inj_enum {A} `{Labelled A} (all : list A) :
  (forall x, x ∈ all) -> NoDup (as_str <$> all) -> Inj (=) (=) (as_str : A -> string).
Proof.
  intros Hall Hd x y Hxy.
  destruct (list_elem_of_lookup_1 _ _ (Hall x)) as [i Hi], (list_elem_of_lookup_1 _ _ (Hall y)) as [j Hj].
  assert (i = j) as ->; [|congruence].
  eapply NoDup_lookup; [exact Hd|rewrite list_lookup_fmap, Hi; done|rewrite list_lookup_fmap, Hj; cbn; by rewrite Hxy].
Qed.

(** ** Names *)

Inductive ProtocolPhase :=
| PhaseStartup | PhaseAuth | PhaseTlsHandshake | PhaseBackendCheckout | PhaseParse | PhaseBind | PhaseExecute
| PhaseRows | PhaseDrain | PhaseReset | PhaseCancel | PhaseClose.
#[global] Instance ProtocolPhase_eq_dec : EqDecision ProtocolPhase.
Proof. solve_decision. Defined.
Definition phase_as_str (x : ProtocolPhase) : string :=
  match x with
  | PhaseStartup => "startup"
  | PhaseAuth => "auth"
  | PhaseTlsHandshake => "tls_handshake"
  | PhaseBackendCheckout => "backend_checkout"
  | PhaseParse => "parse"
  | PhaseBind => "bind"
  | PhaseExecute => "execute"
  | PhaseRows => "rows"
  | PhaseDrain => "drain"
  | PhaseReset => "reset"
  | PhaseCancel => "cancel"
  | PhaseClose => "close"
  end.
#[global] Instance ProtocolPhase_labelled : Labelled ProtocolPhase := phase_as_str.
#[global] Instance ProtocolPhase_distinct : DistinctLabels ProtocolPhase.
Proof. distinct_labels. Qed.

Inductive TraceEvent :=
| TraceClientAccepted | TraceStartupComplete | TraceBackendCheckedOut | TraceBackendReleased
| TraceBackendDiscarded | TraceQueryStarted | TraceQueryFinished | TraceRecoveryStarted
| TraceRecoveryFinished | TraceOverloadRejected.
#[global] Instance TraceEvent_eq_dec : EqDecision TraceEvent.
Proof. solve_decision. Defined.
Definition trace_event_as_str (x : TraceEvent) : string :=
  match x with
  | TraceClientAccepted => "client_accepted"
  | TraceStartupComplete => "startup_complete"
  | TraceBackendCheckedOut => "backend_checked_out"
  | TraceBackendReleased => "backend_released"
  | TraceBackendDiscarded => "backend_discarded"
  | TraceQueryStarted => "query_started"
  | TraceQueryFinished => "query_finished"
  | TraceRecoveryStarted => "recovery_started"
  | TraceRecoveryFinished => "recovery_finished"
  | TraceOverloadRejected => "overload_rejected"
  end.
#[global] Instance TraceEvent_labelled : Labelled TraceEvent := trace_event_as_str.
#[global] Instance TraceEvent_distinct : DistinctLabels TraceEvent.
Proof. distinct_labels. Qed.

Inductive MetricName :=
| MBackpressureEvents | MPoolCheckoutWaitMs | MClientConnectionsTotal | MRuntimeLifecycleState
| MRuntimeReadinessState | MRuntimeShutdownTotal | MNodeHeartbeatAgeMs | MPreparedEventsTotal
| MBackendPinTotal | MBackendCleanupTotal | MBackendRecoveryTotal | MBackendSqlstateTotal
| MReadAfterWriteTotal | MReadAfterWriteWaitMs | MReadAfterWriteRejectionsTotal | MRouteDecisionsTotal
| MRouteFallbacksTotal | MShardRouteDecisionsTotal | MShardMultiShardRejectionsTotal
| MShardPrimaryFallbacksTotal | MRouteMapReloadTotal | MPolicyDecisionsTotal | MPolicyEvalDurationMs
| MPolicyDeniesTotal | MPolicyDryRunTotal | MPolicyReloadTotal | MPolicyActive | MPolicyAuditEventsTotal
| MPolicyWasmEvalTotal | MPolicyWasmEvalDurationMs | MRouteMapGeneration | MMirrorDecisionsTotal
| MMirrorInFlight | MMirrorDurationMs | MMirrorDroppedTotal | MAdaptiveRecommendationsTotal
| MAdaptiveApplyTotal | MPressureCpu | MPressureMem | MBenchmarkRunsTotal | MPreflightFindingsTotal
| MShardLifecycleState | MShardActiveTransactions | MShardPreparedStatements | MReplicaHealth | MReplicaLagMs
| MReplicaReplayLsn | MSplitBrainWarningsTotal | MRouteCheckoutWaitMs | MRouteInFlight | MRouteWaiting
| MTimeoutTotal | MBufferLimitTotal | MProtocolPhaseDuration | MBenchmarkLatencyMs | MBenchmarkThroughputQps
| MBenchmarkErrorsTotal | MPerformanceBudgetStatus | MProcessCpuSeconds | MProcessResidentMemoryBytes
| MCpuPerQuery | MMemoryPerClientBytes | MProtocolBufferCopiesTotal | MPoolCheckoutLockWaitMs
| MPreparedCacheHitsTotal | MPreparedCacheMissesTotal | MObservabilityHotPathAllocationsTotal | MIdleClients
| MBreakerState | MBreakerFastRejectionsTotal | MHedgeDecisionsTotal | MFailoverSurvivedTotal
| MFailoverFailedTotal.
#[global] Instance MetricName_eq_dec : EqDecision MetricName.
Proof. solve_decision. Defined.
Definition metric_name_as_str (x : MetricName) : string :=
  match x with
  | MBackpressureEvents => "pg_kinetic_backpressure_events_total"
  | MPoolCheckoutWaitMs => "pg_kinetic_pool_checkout_wait_ms"
  | MClientConnectionsTotal => "pg_kinetic_client_connections_total"
  | MRuntimeLifecycleState => "pg_kinetic_runtime_lifecycle_state"
  | MRuntimeReadinessState => "pg_kinetic_runtime_readiness_state"
  | MRuntimeShutdownTotal => "pg_kinetic_runtime_shutdown_total"
  | MNodeHeartbeatAgeMs => "pg_kinetic_node_heartbeat_age_ms"
  | MPreparedEventsTotal => "pg_kinetic_prepared_events_total"
  | MBackendPinTotal => "pg_kinetic_backend_pin_total"
  | MBackendCleanupTotal => "pg_kinetic_backend_cleanup_total"
  | MBackendRecoveryTotal => "pg_kinetic_backend_recovery_total"
  | MBackendSqlstateTotal => "pg_kinetic_backend_sqlstate_total"
  | MReadAfterWriteTotal => "pg_kinetic_read_after_write_total"
  | MReadAfterWriteWaitMs => "pg_kinetic_read_after_write_wait_ms"
  | MReadAfterWriteRejectionsTotal => "pg_kinetic_read_after_write_rejections_total"
  | MRouteDecisionsTotal => "pg_kinetic_route_decisions_total"
  | MRouteFallbacksTotal => "pg_kinetic_route_fallbacks_total"
  | MShardRouteDecisionsTotal => "pg_kinetic_shard_route_decisions_total"
  | MShardMultiShardRejectionsTotal => "pg_kinetic_shard_multi_shard_rejections_total"
  | MShardPrimaryFallbacksTotal => "pg_kinetic_shard_primary_fallbacks_total"
  | MRouteMapReloadTotal => "pg_kinetic_route_map_reload_total"
  | MPolicyDecisionsTotal => "pg_kinetic_policy_decisions_total"
  | MPolicyEvalDurationMs => "pg_kinetic_policy_eval_duration_ms"
  | MPolicyDeniesTotal => "pg_kinetic_policy_denies_total"
  | MPolicyDryRunTotal => "pg_kinetic_policy_dry_run_total"
  | MPolicyReloadTotal => "pg_kinetic_policy_reload_total"
  | MPolicyActive => "pg_kinetic_policy_active"
  | MPolicyAuditEventsTotal => "pg_kinetic_policy_audit_events_total"
  | MPolicyWasmEvalTotal => "pg_kinetic_policy_wasm_eval_total"
  | MPolicyWasmEvalDurationMs => "pg_kinetic_policy_wasm_eval_duration_ms"
  | MRouteMapGeneration => "pg_kinetic_route_map_generation"
  | MMirrorDecisionsTotal => "pg_kinetic_mirror_decisions_total"
  | MMirrorInFlight => "pg_kinetic_mirror_in_flight"
  | MMirrorDurationMs => "pg_kinetic_mirror_duration_ms"
  | MMirrorDroppedTotal => "pg_kinetic_mirror_dropped_total"
  | MAdaptiveRecommendationsTotal => "pg_kinetic_adaptive_recommendations_total"
  | MAdaptiveApplyTotal => "pg_kinetic_adaptive_apply_total"
  | MPressureCpu => "pg_kinetic_pressure_cpu"
  | MPressureMem => "pg_kinetic_pressure_mem"
  | MBenchmarkRunsTotal => "pg_kinetic_benchmark_runs_total"
  | MPreflightFindingsTotal => "pg_kinetic_preflight_findings_total"
  | MShardLifecycleState => "pg_kinetic_shard_lifecycle_state"
  | MShardActiveTransactions => "pg_kinetic_shard_active_transactions"
  | MShardPreparedStatements => "pg_kinetic_shard_prepared_statements"
  | MReplicaHealth => "pg_kinetic_replica_health"
  | MReplicaLagMs => "pg_kinetic_replica_lag_ms"
  | MReplicaReplayLsn => "pg_kinetic_replica_replay_lsn"
  | MSplitBrainWarningsTotal => "pg_kinetic_split_brain_warnings_total"
  | MRouteCheckoutWaitMs => "pg_kinetic_route_checkout_wait_ms"
  | MRouteInFlight => "pg_kinetic_route_in_flight"
  | MRouteWaiting => "pg_kinetic_route_waiting"
  | MTimeoutTotal => "pg_kinetic_timeout_total"
  | MBufferLimitTotal => "pg_kinetic_buffer_limit_total"
  | MProtocolPhaseDuration => "pg_kinetic_protocol_phase_duration_ms"
  | MBenchmarkLatencyMs => "pg_kinetic_benchmark_latency_ms"
  | MBenchmarkThroughputQps => "pg_kinetic_benchmark_throughput_qps"
  | MBenchmarkErrorsTotal => "pg_kinetic_benchmark_errors_total"
  | MPerformanceBudgetStatus => "pg_kinetic_performance_budget_status"
  | MProcessCpuSeconds => "pg_kinetic_process_cpu_seconds"
  | MProcessResidentMemoryBytes => "pg_kinetic_process_resident_memory_bytes"
  | MCpuPerQuery => "pg_kinetic_cpu_per_query"
  | MMemoryPerClientBytes => "pg_kinetic_memory_per_client_bytes"
  | MProtocolBufferCopiesTotal => "pg_kinetic_protocol_buffer_copies_total"
  | MPoolCheckoutLockWaitMs => "pg_kinetic_pool_checkout_lock_wait_ms"
  | MPreparedCacheHitsTotal => "pg_kinetic_prepared_cache_hits_total"
  | MPreparedCacheMissesTotal => "pg_kinetic_prepared_cache_misses_total"
  | MObservabilityHotPathAllocationsTotal => "pg_kinetic_observability_hot_path_allocations_total"
  | MIdleClients => "pg_kinetic_idle_clients"
  | MBreakerState => "pg_kinetic_breaker_state"
  | MBreakerFastRejectionsTotal => "pg_kinetic_breaker_fast_rejections_total"
  | MHedgeDecisionsTotal => "pg_kinetic_hedge_decisions_total"
  | MFailoverSurvivedTotal => "pg_kinetic_failover_survived_total"
  | MFailoverFailedTotal => "pg_kinetic_failover_failed_total"
  end.
#[global] Instance MetricName_labelled : Labelled MetricName := metric_name_as_str.
Definition all_metric_names : list MetricName :=
  [MBackpressureEvents; MPoolCheckoutWaitMs; MClientConnectionsTotal; MRuntimeLifecycleState;
   MRuntimeReadinessState; MRuntimeShutdownTotal; MNodeHeartbeatAgeMs; MPreparedEventsTotal; MBackendPinTotal;
   MBackendCleanupTotal; MBackendRecoveryTotal; MBackendSqlstateTotal; MReadAfterWriteTotal; MReadAfterWriteWaitMs;
   MReadAfterWriteRejectionsTotal; MRouteDecisionsTotal; MRouteFallbacksTotal; MShardRouteDecisionsTotal;
   MShardMultiShardRejectionsTotal; MShardPrimaryFallbacksTotal; MRouteMapReloadTotal; MPolicyDecisionsTotal;
   MPolicyEvalDurationMs; MPolicyDeniesTotal; MPolicyDryRunTotal; MPolicyReloadTotal; MPolicyActive;
   MPolicyAuditEventsTotal; MPolicyWasmEvalTotal; MPolicyWasmEvalDurationMs; MRouteMapGeneration;
   MMirrorDecisionsTotal; MMirrorInFlight; MMirrorDurationMs; MMirrorDroppedTotal; MAdaptiveRecommendationsTotal;
   MAdaptiveApplyTotal; MPressureCpu; MPressureMem; MBenchmarkRunsTotal; MPreflightFindingsTotal;
   MShardLifecycleState; MShardActiveTransactions; MShardPreparedStatements; MReplicaHealth; MReplicaLagMs;
   MReplicaReplayLsn; MSplitBrainWarningsTotal; MRouteCheckoutWaitMs; MRouteInFlight; MRouteWaiting; MTimeoutTotal;
   MBufferLimitTotal; MProtocolPhaseDuration; MBenchmarkLatencyMs; MBenchmarkThroughputQps; MBenchmarkErrorsTotal;
   MPerformanceBudgetStatus; MProcessCpuSeconds; MProcessResidentMemoryBytes; MCpuPerQuery; MMemoryPerClientBytes;
   MProtocolBufferCopiesTotal; MPoolCheckoutLockWaitMs; MPreparedCacheHitsTotal; MPreparedCacheMissesTotal;
   MObservabilityHotPathAllocationsTotal; MIdleClients; MBreakerState; MBreakerFastRejectionsTotal;
   MHedgeDecisionsTotal; MFailoverSurvivedTotal; MFailoverFailedTotal].
#[global] Instance MetricName_distinct : DistinctLabels MetricName.
Proof.
  apply (labels_inj_enum all_metric_names); [|apply (bool_decide_unpack _); by vm_compute].
  intros x; apply (bool_decide_unpack _); destruct x; by vm_compute.
Qed.

Inductive MetricOutcome :=
| MetricOk | MetricError | MetricTimeout | MetricRejected | MetricCanceled | MetricDiscarded.
#[global] Instance MetricOutcome_eq_dec : EqDecision MetricOutcome.
Proof. solve_decision. Defined.
Definition metric_outcome_as_str (x : MetricOutcome) : string :=
  match x with
  | MetricOk => "ok"
  | MetricError => "error"
  | MetricTimeout => "timeout"
  | MetricRejected => "rejected"
  | MetricCanceled => "canceled"
  | MetricDiscarded => "discarded"
  end.
#[global] Instance MetricOutcome_labelled : Labelled MetricOutcome := metric_outcome_as_str.
#[global] Instance MetricOutcome_distinct : DistinctLabels MetricOutcome.
Proof. distinct_labels. Qed.

Inductive MetricKind :=
| Counter | Gauge | Histogram.
#[global] Instance MetricKind_eq_dec : EqDecision MetricKind.
Proof. solve_decision. Defined.
Definition metric_kind_as_str (x : MetricKind) : string :=
  match x with
  | Counter => "counter"
  | Gauge => "gauge"
  | Histogram => "histogram"
  end.
#[global] Instance MetricKind_labelled : Labelled MetricKind := metric_kind_as_str.
#[global] Instance MetricKind_distinct : DistinctLabels MetricKind.
Proof. distinct_labels. Qed.

Inductive MetricLabel :=
| LAction | LBackend | LEvent | LEndpoint | LEngine | LNode | LCheck | LSeverity | LHook | LKind | LLagState
| LFallbackPolicy | LHealth | LMode | LOption | LOutcome | LPhase | LStage | LReason | LQueryClass | LRoute
| LPriority | LSource | LShard | LStrategy | LPolicy | LLifecycleState | LErrorCode | LScope | LSocket
| LSqlstate | LState | LStatus | LTargetRole | LTrigger | LTarget | LScenario | LWorkload | LDriver | LMetric
| LFeature.
#[global] Instance MetricLabel_eq_dec : EqDecision MetricLabel.
Proof. solve_decision. Defined.
Definition metric_label_as_str (x : MetricLabel) : string :=
  match x with
  | LAction => "action"
  | LBackend => "backend"
  | LEvent => "event"
  | LEndpoint => "endpoint"
  | LEngine => "engine"
  | LNode => "node"
  | LCheck => "check"
  | LSeverity => "severity"
  | LHook => "hook"
  | LKind => "kind"
  | LLagState => "lag_state"
  | LFallbackPolicy => "fallback_policy"
  | LHealth => "health"
  | LMode => "mode"
  | LOption => "option"
  | LOutcome => "outcome"
  | LPhase => "phase"
  | LStage => "stage"
  | LReason => "reason"
  | LQueryClass => "query_class"
  | LRoute => "route"
  | LPriority => "priority"
  | LSource => "source"
  | LShard => "shard"
  | LStrategy => "strategy"
  | LPolicy => "policy"
  | LLifecycleState => "lifecycle_state"
  | LErrorCode => "error_code"
  | LScope => "scope"
  | LSocket => "socket"
  | LSqlstate => "sqlstate"
  | LState => "state"
  | LStatus => "status"
  | LTargetRole => "target_role"
  | LTrigger => "trigger"
  | LTarget => "target"
  | LScenario => "scenario"
  | LWorkload => "workload"
  | LDriver => "driver"
  | LMetric => "metric"
  | LFeature => "feature"
  end.
#[global] Instance MetricLabel_labelled : Labelled MetricLabel := metric_label_as_str.
Definition all_metric_labels : list MetricLabel :=
  [LAction; LBackend; LEvent; LEndpoint; LEngine; LNode; LCheck; LSeverity; LHook; LKind; LLagState;
   LFallbackPolicy; LHealth; LMode; LOption; LOutcome; LPhase; LStage; LReason; LQueryClass; LRoute; LPriority;
   LSource; LShard; LStrategy; LPolicy; LLifecycleState; LErrorCode; LScope; LSocket; LSqlstate; LState; LStatus;
   LTargetRole; LTrigger; LTarget; LScenario; LWorkload; LDriver; LMetric; LFeature].
#[global] Instance MetricLabel_distinct : DistinctLabels MetricLabel.
Proof.
  apply (labels_inj_enum all_metric_labels); [|apply (bool_decide_unpack _); by vm_compute].
  intros x; apply (bool_decide_unpack _); destruct x; by vm_compute.
Qed.

Record MetricDescriptor := {
  descriptor_name : string;
  descriptor_kind : MetricKind;
  descriptor_unit : string;
  descriptor_description : string;
  descriptor_labels : list MetricLabel;
  cardinality_note : string;
}.
Definition descriptor_new (name : string) (kind : MetricKind) (unit description : string) (labels : list MetricLabel)
    (note : string) : MetricDescriptor :=
  {| descriptor_name := name; descriptor_kind := kind; descriptor_unit := unit; descriptor_description := description;
     descriptor_labels := labels; cardinality_note := note |}.

Definition NO_LABELS : list MetricLabel := [].
Definition EVENT_LABELS : list MetricLabel := [LEvent].
Definition REASON_LABELS : list MetricLabel := [LReason].
Definition ACTION_LABELS : list MetricLabel := [LAction].
Definition OUTCOME_LABELS : list MetricLabel := [LOutcome].
Definition BREAKER_LABELS : list MetricLabel := [LBackend; LState].
Definition HEDGE_LABELS : list MetricLabel := [LOutcome; LReason].
Definition ROUTE_DECISION_LABELS : list MetricLabel := [LRoute; LTargetRole; LQueryClass].
Definition ROUTE_FALLBACK_LABELS : list MetricLabel := [LRoute; LReason; LFallbackPolicy].
Definition SHARD_ROUTE_DECISION_LABELS : list MetricLabel := [LRoute; LShard; LStrategy; LReason; LOutcome].
Definition SHARD_MULTI_SHARD_REJECTION_LABELS : list MetricLabel := [LRoute; LShard; LPolicy; LReason; LOutcome].
Definition SHARD_PRIMARY_FALLBACK_LABELS : list MetricLabel := [LRoute; LShard; LPolicy; LOutcome].
Definition ROUTE_MAP_RELOAD_LABELS : list MetricLabel := [LOutcome; LErrorCode].
Definition POLICY_DECISION_LABELS : list MetricLabel := [LPolicy; LMode; LHook; LAction; LOutcome].
Definition POLICY_EVAL_DURATION_LABELS : list MetricLabel := [LPolicy; LMode; LHook; LOutcome].
Definition POLICY_DENY_LABELS : list MetricLabel := [LPolicy; LReason].
Definition POLICY_DRY_RUN_LABELS : list MetricLabel := [LPolicy; LMode; LHook; LAction].
Definition POLICY_RELOAD_LABELS : list MetricLabel := [LSource; LMode; LOutcome; LErrorCode].
Definition POLICY_ACTIVE_LABELS : list MetricLabel := [LSource; LMode].
Definition POLICY_AUDIT_EVENT_LABELS : list MetricLabel := [LPolicy; LMode; LHook; LAction; LOutcome; LReason].
Definition POLICY_WASM_EVAL_LABELS : list MetricLabel := [LSource; LMode; LHook; LOutcome; LErrorCode].
Definition POLICY_WASM_EVAL_DURATION_LABELS : list MetricLabel := [LSource; LMode; LHook; LOutcome].
Definition SHARD_LIFECYCLE_LABELS : list MetricLabel := [LShard; LLifecycleState].
Definition SHARD_COUNT_LABELS : list MetricLabel := [LShard].
Definition ROUTE_OUTCOME_LABELS : list MetricLabel := [LRoute; LOutcome].
Definition ROUTE_SCOPE_LABELS : list MetricLabel := [LRoute; LScope].
Definition ROUTE_PRIORITY_LABELS : list MetricLabel := [LRoute; LPriority].
Definition TRIGGER_ACTION_OUTCOME_LABELS : list MetricLabel := [LTrigger; LAction; LOutcome].
Definition KIND_LABELS : list MetricLabel := [LKind].
Definition PHASE_OUTCOME_LABELS : list MetricLabel := [LPhase; LOutcome].
Definition SCOPE_MODE_LABELS : list MetricLabel := [LScope; LMode].
Definition SCOPE_MODE_REASON_LABELS : list MetricLabel := [LScope; LMode; LReason].
Definition MODE_LABELS : list MetricLabel := [LMode].
Definition MODE_REASON_LABELS : list MetricLabel := [LMode; LReason].
Definition STAGE_OUTCOME_LABELS : list MetricLabel := [LStage; LOutcome].
Definition ENDPOINT_HEALTH_LABELS : list MetricLabel := [LEndpoint; LHealth].
Definition ENDPOINT_LAG_LABELS : list MetricLabel := [LEndpoint; LLagState].
Definition ENDPOINT_TARGET_ROLE_LABELS : list MetricLabel := [LEndpoint; LTargetRole].
Definition ENDPOINT_TARGET_ROLE_REASON_LABELS : list MetricLabel := [LEndpoint; LTargetRole; LReason].
Definition STATE_LABELS : list MetricLabel := [LState].
Definition KIND_STATUS_LABELS : list MetricLabel := [LKind; LStatus].
Definition SOCKET_OPTION_OUTCOME_LABELS : list MetricLabel := [LSocket; LOption; LOutcome].
Definition SQLSTATE_LABELS : list MetricLabel := [LSqlstate].
Definition BENCHMARK_LATENCY_LABELS : list MetricLabel := [LScenario; LTarget; LWorkload; LDriver; LMetric].
Definition BENCHMARK_WORKLOAD_LABELS : list MetricLabel := [LScenario; LTarget; LWorkload; LDriver].
Definition BENCHMARK_ERROR_LABELS : list MetricLabel := [LScenario; LTarget; LWorkload; LDriver; LOutcome].
Definition METRIC_OUTCOME_LABELS : list MetricLabel := [LMetric; LOutcome].
Definition FEATURE_LABELS : list MetricLabel := [LFeature].

Definition METRIC_CATALOG_1 : list MetricDescriptor := [
  descriptor_new "pg_kinetic_client_connections_total" Counter "1"
    "Total accepted client connections"
    NO_LABELS "Single counter without labels.";
  descriptor_new "pg_kinetic_runtime_lifecycle_state" Gauge "1"
    "Runtime lifecycle state series"
    STATE_LABELS "State values stay aligned with runtime lifecycle states.";
  descriptor_new "pg_kinetic_runtime_readiness_state" Gauge "1"
    "Runtime readiness state series"
    STATE_LABELS "State values stay aligned with runtime readiness states.";
  descriptor_new "pg_kinetic_runtime_shutdown_total" Counter "1"
    "Runtime shutdown counts by reason"
    [LReason] "Reason stays bounded to shutdown causes.";
  descriptor_new "pg_kinetic_node_heartbeat_age_ms" Gauge "ms"
    "Node heartbeat age in milliseconds"
    [LNode] "Node labels remain low cardinality and node ids are stable.";
  descriptor_new "pg_kinetic_prepared_events_total" Counter "1"
    "Prepared statement virtualization events"
    EVENT_LABELS "Event values stay within the prepared statement lifecycle.";
  descriptor_new "pg_kinetic_pool_checkout_wait_ms" Histogram "ms"
    "Backend checkout timing in milliseconds by stage and outcome"
    STAGE_OUTCOME_LABELS "Stage is bounded to request, route-gate registry lock lookup, or checkout; outcome splits successful, timeout, canceled, and error waits.";
  descriptor_new "pg_kinetic_backend_pin_total" Counter "1"
    "Backend pin decisions by reason"
    REASON_LABELS "Reason values stay aligned with pinning causes.";
  descriptor_new "pg_kinetic_backend_cleanup_total" Counter "1"
    "Backend cleanup decisions by action"
    ACTION_LABELS "Action values stay aligned with cleanup outcomes.";
  descriptor_new "pg_kinetic_backend_recovery_total" Counter "1"
    "Backend recovery attempts by trigger, action, and outcome"
    TRIGGER_ACTION_OUTCOME_LABELS "Trigger, action, and outcome all come from bounded enums.";
  descriptor_new "pg_kinetic_backend_sqlstate_total" Counter "1"
    "Backend ErrorResponse counts by SQLSTATE"
    SQLSTATE_LABELS "SQLSTATE is a normalized error code, not SQL text.";
  descriptor_new "pg_kinetic_read_after_write_total" Counter "1"
    "Read-after-write freshness outcomes"
    OUTCOME_LABELS "Outcome values stay aligned with freshness states.";
  descriptor_new "pg_kinetic_read_after_write_wait_ms" Histogram "ms"
    "Read-after-write wait time in milliseconds by route and outcome"
    ROUTE_OUTCOME_LABELS "Route labels omit raw client addresses and outcome values stay bounded.";
  descriptor_new "pg_kinetic_read_after_write_rejections_total" Counter "1"
    "Read-after-write rejections by route and outcome"
    ROUTE_OUTCOME_LABELS "Route labels omit raw client addresses and outcome values stay bounded.";
  descriptor_new "pg_kinetic_route_decisions_total" Counter "1"
    "Routing decisions by route, target role, and query class"
    ROUTE_DECISION_LABELS "Route, target role, and query class stay aligned with routing enums.";
  descriptor_new "pg_kinetic_route_fallbacks_total" Counter "1"
    "Routing fallbacks by route, reason, and fallback policy"
    ROUTE_FALLBACK_LABELS "Fallback reasons and policies stay aligned with routing enums.";
  descriptor_new "pg_kinetic_shard_route_decisions_total" Counter "1"
    "Shard routing decisions by route, bucketed shard, strategy, reason, and outcome"
    SHARD_ROUTE_DECISION_LABELS "Shard labels are bucketed to stay low cardinality and strategy / reason stay bounded."].
Definition METRIC_CATALOG_2 : list MetricDescriptor := [
  descriptor_new "pg_kinetic_shard_multi_shard_rejections_total" Counter "1"
    "Shard multi-shard rejections by route, bucketed shard, policy, reason, and outcome"
    SHARD_MULTI_SHARD_REJECTION_LABELS "Shard labels are bucketed and policy / reason / outcome stay bounded.";
  descriptor_new "pg_kinetic_shard_primary_fallbacks_total" Counter "1"
    "Shard primary fallbacks by route, bucketed shard, policy, and outcome"
    SHARD_PRIMARY_FALLBACK_LABELS "Shard labels are bucketed and policy / outcome stay bounded.";
  descriptor_new "pg_kinetic_route_map_reload_total" Counter "1"
    "Route map reload outcomes by outcome and error code"
    ROUTE_MAP_RELOAD_LABELS "Outcome and error code stay aligned with reload results.";
  descriptor_new "pg_kinetic_policy_decisions_total" Counter "1"
    "Policy decisions by policy, mode, hook, action, and outcome"
    POLICY_DECISION_LABELS "Policy ids are admin-defined and mode / hook / action / outcome stay bounded.";
  descriptor_new "pg_kinetic_policy_eval_duration_ms" Histogram "ms"
    "Policy evaluation duration in milliseconds by policy, mode, hook, and outcome"
    POLICY_EVAL_DURATION_LABELS "Policy ids are admin-defined and mode / hook / outcome stay bounded.";
  descriptor_new "pg_kinetic_policy_denies_total" Counter "1"
    "Policy denies by policy and reason code"
    POLICY_DENY_LABELS "Policy ids are admin-defined and deny reasons stay bounded.";
  descriptor_new "pg_kinetic_policy_dry_run_total" Counter "1"
    "Policy dry-run would-have actions by policy, mode, hook, and action"
    POLICY_DRY_RUN_LABELS "Policy ids are admin-defined and dry-run labels stay bounded.";
  descriptor_new "pg_kinetic_policy_reload_total" Counter "1"
    "Policy reload outcomes by source, mode, outcome, and error code"
    POLICY_RELOAD_LABELS "Source, mode, outcome, and error code all stay bounded.";
  descriptor_new "pg_kinetic_policy_active" Gauge "1"
    "Active policy series by source and mode"
    POLICY_ACTIVE_LABELS "Source and mode stay bounded.";
  descriptor_new "pg_kinetic_policy_audit_events_total" Counter "1"
    "Policy audit events by policy, mode, hook, action, outcome, and reason"
    POLICY_AUDIT_EVENT_LABELS "Policy ids are admin-defined and audit labels stay bounded.";
  descriptor_new "pg_kinetic_policy_wasm_eval_total" Counter "1"
    "WASM policy evaluations by source, mode, hook, outcome, and error code"
    POLICY_WASM_EVAL_LABELS "Source, mode, hook, outcome, and error code stay bounded.";
  descriptor_new "pg_kinetic_policy_wasm_eval_duration_ms" Histogram "ms"
    "WASM policy evaluation duration in milliseconds by source, mode, hook, and outcome"
    POLICY_WASM_EVAL_DURATION_LABELS "Source, mode, hook, and outcome stay bounded.";
  descriptor_new "pg_kinetic_route_map_generation" Gauge "1"
    "Current route map generation"
    NO_LABELS "Single gauge without labels.";
  descriptor_new "pg_kinetic_mirror_decisions_total" Counter "1"
    "Mirror decisions by mode, target, and outcome"
    [LMode; LTarget; LOutcome] "Mode, target, and outcome stay bounded to mirror decisions.";
  descriptor_new "pg_kinetic_mirror_in_flight" Gauge "1"
    "Current mirror in-flight count by mode and target"
    [LMode; LTarget] "Mode and target stay bounded to mirror state.";
  descriptor_new "pg_kinetic_mirror_duration_ms" Histogram "ms"
    "Mirror task duration in milliseconds"
    [LMode; LTarget; LOutcome] "Mode, target, and outcome stay bounded to mirror outcomes.";
  descriptor_new "pg_kinetic_mirror_dropped_total" Counter "1"
    "Dropped mirror tasks by mode and reason"
    [LMode; LReason] "Mode and reason stay bounded to mirror drops."].
Definition METRIC_CATALOG_3 : list MetricDescriptor := [
  descriptor_new "pg_kinetic_adaptive_recommendations_total" Counter "1"
    "Adaptive recommendations by mode, target, and outcome"
    [LMode; LTarget; LOutcome] "Mode, target, and outcome stay bounded to adaptive recommendations.";
  descriptor_new "pg_kinetic_adaptive_apply_total" Counter "1"
    "Adaptive apply outcomes by mode, target, and outcome"
    [LMode; LTarget; LOutcome] "Mode, target, and outcome stay bounded to adaptive apply outcomes.";
  descriptor_new "pg_kinetic_pressure_cpu" Gauge "pct"
    "Linux PSI CPU some avg10 percentage"
    NO_LABELS "Single gauge without labels.";
  descriptor_new "pg_kinetic_pressure_mem" Gauge "pct"
    "Linux PSI memory some avg10 percentage"
    NO_LABELS "Single gauge without labels.";
  descriptor_new "pg_kinetic_benchmark_runs_total" Counter "1"
    "Benchmark runs by engine, target, and outcome"
    [LEngine; LTarget; LOutcome] "Engine, target, and outcome stay bounded to benchmark runs.";
  descriptor_new "pg_kinetic_preflight_findings_total" Counter "1"
    "Preflight findings by check and severity"
    [LCheck; LSeverity] "Check and severity stay bounded to preflight findings.";
  descriptor_new "pg_kinetic_shard_lifecycle_state" Gauge "1"
    "Shard lifecycle state series by bucketed shard and lifecycle state"
    SHARD_LIFECYCLE_LABELS "Shard labels are bucketed and lifecycle_state stays bounded.";
  descriptor_new "pg_kinetic_shard_active_transactions" Gauge "1"
    "Active transactions by bucketed shard"
    SHARD_COUNT_LABELS "Shard labels are bucketed to avoid tenant identifiers.";
  descriptor_new "pg_kinetic_shard_prepared_statements" Gauge "1"
    "Prepared statements by bucketed shard"
    SHARD_COUNT_LABELS "Shard labels are bucketed to avoid tenant identifiers.";
  descriptor_new "pg_kinetic_replica_health" Gauge "1"
    "Replica health series by endpoint and health state"
    ENDPOINT_HEALTH_LABELS "Endpoint identifiers are stable numeric ids and health states are bounded enums.";
  descriptor_new "pg_kinetic_replica_lag_ms" Gauge "ms"
    "Replica lag in milliseconds by endpoint and lag state"
    ENDPOINT_LAG_LABELS "Endpoint identifiers are stable numeric ids and lag states are bounded enums.";
  descriptor_new "pg_kinetic_replica_replay_lsn" Gauge "lsn"
    "Replica replay LSN by endpoint and target role"
    ENDPOINT_TARGET_ROLE_LABELS "Endpoint identifiers are stable numeric ids and target roles are bounded enums.";
  descriptor_new "pg_kinetic_split_brain_warnings_total" Counter "1"
    "Split-brain warnings by endpoint, target role, and reason"
    ENDPOINT_TARGET_ROLE_REASON_LABELS "Endpoint identifiers are stable numeric ids and role mismatch reasons stay bounded.";
  descriptor_new "pg_kinetic_backpressure_events_total" Counter "1"
    "Backpressure outcomes by route"
    ROUTE_OUTCOME_LABELS "Route labels omit raw client addresses and stay derived from route identity only.";
  descriptor_new "pg_kinetic_route_checkout_wait_ms" Histogram "ms"
    "Route checkout wait time in milliseconds"
    ROUTE_OUTCOME_LABELS "Route labels omit raw client addresses and stay derived from route identity only.";
  descriptor_new "pg_kinetic_route_in_flight" Gauge "1"
    "Route in-flight checkout count"
    ROUTE_SCOPE_LABELS "Route labels omit raw client addresses and stay derived from route identity only.";
  descriptor_new "pg_kinetic_route_waiting" Gauge "1"
    "Route waiting checkout count"
    ROUTE_SCOPE_LABELS "Route labels omit raw client addresses and stay derived from route identity only."].
Definition METRIC_CATALOG_4 : list MetricDescriptor := [
  descriptor_new "pg_kinetic_route_shed_total" Counter "1"
    "Route shedding decisions by route and priority"
    ROUTE_PRIORITY_LABELS "Route identity and the three priority values are bounded policy labels.";
  descriptor_new "pg_kinetic_timeout_total" Counter "1"
    "Timeouts by kind"
    KIND_LABELS "Kind values stay aligned with timeout causes.";
  descriptor_new "pg_kinetic_buffer_limit_total" Counter "1"
    "Buffer limit breaches by kind"
    KIND_LABELS "Kind values stay aligned with buffer limit causes.";
  descriptor_new "pg_kinetic_tls_handshakes_total" Counter "1"
    "Successful PostgreSQL TLS handshakes by scope and mode"
    SCOPE_MODE_LABELS "Scope and mode both come from bounded enums.";
  descriptor_new "pg_kinetic_tls_failures_total" Counter "1"
    "Failed PostgreSQL TLS handshakes by scope, mode, and reason"
    SCOPE_MODE_REASON_LABELS "Scope, mode, and reason all come from bounded enums.";
  descriptor_new "pg_kinetic_auth_attempts_total" Counter "1"
    "Authentication attempts by auth mode"
    MODE_LABELS "Mode values stay aligned with configured authentication modes.";
  descriptor_new "pg_kinetic_auth_failures_total" Counter "1"
    "Authentication failures by auth mode and reason"
    MODE_REASON_LABELS "Mode and reason both come from bounded enums.";
  descriptor_new "pg_kinetic_config_reload_total" Counter "1"
    "Config reload decisions by outcome"
    OUTCOME_LABELS "Outcome values stay aligned with reload decisions.";
  descriptor_new "pg_kinetic_drain_state" Gauge "1"
    "Current drain state series (1.0 for the active state, 0.0 otherwise)"
    STATE_LABELS "State values stay aligned with drain lifecycle states.";
  descriptor_new "pg_kinetic_health_status" Gauge "1"
    "Current health state by kind and status series (1.0 for the active state, 0.0 otherwise)"
    KIND_STATUS_LABELS "Kind and status both come from bounded enums.";
  descriptor_new "pg_kinetic_socket_option_total" Counter "1"
    "Socket option outcomes by socket kind, option, and result"
    SOCKET_OPTION_OUTCOME_LABELS "Socket, option, and outcome all come from bounded enums.";
  descriptor_new "pg_kinetic_protocol_phase_duration_ms" Histogram "ms"
    "Protocol phase duration in milliseconds"
    PHASE_OUTCOME_LABELS "Phase and outcome are both bounded by protocol enums.";
  descriptor_new "pg_kinetic_benchmark_latency_ms" Histogram "ms"
    "Benchmark latency samples by bounded scenario matrix dimensions and percentile."
    BENCHMARK_LATENCY_LABELS "Scenario, target, workload, driver, and metric values come from validated benchmark configuration enums.";
  descriptor_new "pg_kinetic_benchmark_throughput_qps" Histogram "qps"
    "Benchmark throughput samples by bounded scenario matrix dimensions."
    BENCHMARK_WORKLOAD_LABELS "Scenario, target, workload, and driver values come from validated benchmark configuration enums.";
  descriptor_new "pg_kinetic_benchmark_errors_total" Counter "1"
    "Benchmark runs reporting a nonzero error rate."
    BENCHMARK_ERROR_LABELS "Scenario, target, workload, driver, and outcome values come from validated benchmark configuration enums.";
  descriptor_new "pg_kinetic_performance_budget_status" Gauge "1"
    "Performance budget status series (1.0 for the latest outcome)."
    METRIC_OUTCOME_LABELS "Metric and outcome values come from bounded performance enums.";
  descriptor_new "pg_kinetic_process_cpu_seconds" Gauge "s"
    "Latest redacted process CPU time sample."
    NO_LABELS "Single gauge without labels."].
Definition METRIC_CATALOG_5 : list MetricDescriptor := [
  descriptor_new "pg_kinetic_process_resident_memory_bytes" Gauge "By"
    "Latest redacted process resident memory sample."
    NO_LABELS "Single gauge without labels.";
  descriptor_new "pg_kinetic_cpu_per_query" Gauge "s"
    "Latest derived CPU time per completed query."
    NO_LABELS "Single gauge without labels.";
  descriptor_new "pg_kinetic_memory_per_client_bytes" Gauge "By"
    "Latest derived resident memory per client."
    NO_LABELS "Single gauge without labels.";
  descriptor_new "pg_kinetic_protocol_buffer_copies_total" Gauge "1"
    "Current protocol buffer copy total by fixed feature path."
    FEATURE_LABELS "Feature values are fixed implementation paths, never request content.";
  descriptor_new "pg_kinetic_pool_checkout_lock_wait_ms" Histogram "ms"
    "Pool checkout registry lock wait time."
    OUTCOME_LABELS "Outcome is bounded to checkout completion states.";
  descriptor_new "pg_kinetic_prepared_cache_hits_total" Gauge "1"
    "Current prepared statement cache hit total."
    NO_LABELS "Single gauge without labels.";
  descriptor_new "pg_kinetic_prepared_cache_misses_total" Gauge "1"
    "Current prepared statement cache miss total."
    NO_LABELS "Single gauge without labels.";
  descriptor_new "pg_kinetic_observability_hot_path_allocations_total" Gauge "1"
    "Current observability hot-path allocation total by fixed feature path."
    FEATURE_LABELS "Feature values are fixed implementation paths, never request content.";
  descriptor_new "pg_kinetic_idle_clients" Gauge "1"
    "Current idle client count."
    NO_LABELS "Single gauge without labels.";
  descriptor_new "pg_kinetic_breaker_state" Gauge "1"
    "Current per-backend circuit-breaker state."
    BREAKER_LABELS "Backend labels are configured role/index values and state is bounded.";
  descriptor_new "pg_kinetic_breaker_fast_rejections_total" Counter "1"
    "Fast rejections caused by an open backend circuit breaker."
    NO_LABELS "Single counter without labels.";
  descriptor_new "pg_kinetic_hedge_decisions_total" Counter "1"
    "Bounded read-hedge eligibility decisions."
    HEDGE_LABELS "Outcome and reason values are fixed implementation categories.";
  descriptor_new "pg_kinetic_failover_survived_total" Counter "1"
    "Replay-safe client requests that survived backend loss."
    NO_LABELS "Single counter without labels.";
  descriptor_new "pg_kinetic_failover_failed_total" Counter "1"
    "Client failover attempts that could not safely complete."
    NO_LABELS "Single counter without labels."].
Definition METRIC_CATALOG : list MetricDescriptor :=
  METRIC_CATALOG_1 ++ METRIC_CATALOG_2 ++ METRIC_CATALOG_3 ++ METRIC_CATALOG_4 ++ METRIC_CATALOG_5.
Definition metric_catalog : list MetricDescriptor := METRIC_CATALOG.

Definition label_policy : list string :=
  ["action"; "backend"; "phase"; "outcome"; "endpoint"; "route"; "shard"; "scope"; "socket"; "sqlstate"; "status";
   "stage"; "strategy"; "policy"; "hook"; "kind"; "option"; "source"; "mode"; "target"; "engine"; "node"; "check";
   "severity"; "target_role"; "query_class"; "reason"; "fallback_policy"; "lifecycle_state"; "error_code";
   "health"; "lag_state"; "trigger"; "view"; "state"; "event"; "scenario"; "workload"; "driver"; "metric";
   "feature"; "priority"].
Definition label_policy_allows (label : string) : bool := bool_decide (label ∈ label_policy).
