(* ===== verification/Labels.v ===== *)
(** * Labels: the names that metrics and tables give to values

    The [as_str] and [metric_label] methods of the enums of both crates, as
    instances of [Labelled]; in each of them different values have different
    labels. The names of the [Inductive] types that several files declare
    are qualified with their file. *)

From S2P Require Import Prelude Text Observability Lsn RoutingTypes Route Secrets Auth Policy Sharding Resilience.
From S2P Require Import Session ReadRouting Pool Guardrails Recovery F64 Pressure Checkout Admission Config Adaptive Mirror.
From S2P Require Import ShardRouting PolicyRuntime Drain Lifecycle Health Effects.

#[local] Open Scope string_scope.

Definition client_tls_mode_as_str (x : Admission.ClientTlsMode) : string :=
  match x with
  | Admission.TlsDisable => "disable"
  | Admission.TlsAllow => "allow"
  | Admission.TlsRequire => "require"
  | Admission.TlsVerifyClient => "verify_client"
  end.
#[global] Instance client_tls_mode_labelled : Labelled Admission.ClientTlsMode := client_tls_mode_as_str.
#[global] Instance client_tls_mode_distinct : DistinctLabels Admission.ClientTlsMode.
Proof. distinct_labels. Qed.

Definition backend_tls_mode_as_str (x : Config.BackendTlsMode) : string :=
  match x with
  | Config.BackendTlsDisable => "disable"
  | Config.BackendTlsPrefer => "prefer"
  | Config.BackendTlsRequire => "require"
  | Config.BackendTlsVerifyCa => "verify_ca"
  | Config.BackendTlsVerifyFull => "verify_full"
  end.
#[global] Instance backend_tls_mode_labelled : Labelled Config.BackendTlsMode := backend_tls_mode_as_str.
#[global] Instance backend_tls_mode_distinct : DistinctLabels Config.BackendTlsMode.
Proof. distinct_labels. Qed.

Definition auth_mode_as_str (x : Auth.AuthMode) : string :=
  match x with
  | Auth.PassThrough => "pass_through"
  | Auth.AuthTrust => "trust"
  | Auth.AuthScramSha256 => "scram_sha_256"
  | Auth.AuthMd5 => "md5"
  end.
#[global] Instance auth_mode_labelled : Labelled Auth.AuthMode := auth_mode_as_str.
#[global] Instance auth_mode_distinct : DistinctLabels Auth.AuthMode.
Proof. distinct_labels. Qed.

Definition auth_failure_message_mode_as_str (x : Auth.AuthFailureMessageMode) : string :=
  match x with
  | Auth.Generic => "generic"
  | Auth.Detailed => "detailed"
  end.
#[global] Instance auth_failure_message_mode_labelled : Labelled Auth.AuthFailureMessageMode := auth_failure_message_mode_as_str.
#[global] Instance auth_failure_message_mode_distinct : DistinctLabels Auth.AuthFailureMessageMode.
Proof. distinct_labels. Qed.

Definition drain_state_as_str (x : Drain.Drain.DrainState) : string :=
  match x with
  | Drain.Drain.Accepting => "accepting"
  | Drain.Drain.Draining => "draining"
  | Drain.Drain.Drained => "drained"
  end.
#[global] Instance drain_state_labelled : Labelled Drain.Drain.DrainState := drain_state_as_str.
#[global] Instance drain_state_distinct : DistinctLabels Drain.Drain.DrainState.
Proof. distinct_labels. Qed.

Definition pin_reason_metric_label (x : Session.Virtual.PinReason) : string :=
  match x with
  | Session.Virtual.OpenTransaction => "open_transaction"
  | Session.Virtual.FailedTransaction => "failed_transaction"
  | Session.Virtual.SessionStatePin => "session_state"
  | Session.Virtual.TempTable => "temp_table"
  | Session.Virtual.AdvisoryLockPin => "advisory_lock"
  | Session.Virtual.CopyPin => "copy"
  | Session.Virtual.ListenNotify => "listen_notify"
  | Session.Virtual.UnknownProtocolState => "unknown_protocol_state"
  end.
#[global] Instance pin_reason_labelled : Labelled Session.Virtual.PinReason := pin_reason_metric_label.
#[global] Instance pin_reason_distinct : DistinctLabels Session.Virtual.PinReason.
Proof. distinct_labels. Qed.

Definition backend_role_as_str (x : RoutingTypes.BackendRole) : string :=
  match x with
  | RoutingTypes.Primary => "primary"
  | RoutingTypes.Replica => "replica"
  | RoutingTypes.UnknownRole => "unknown"
  end.
#[global] Instance backend_role_labelled : Labelled RoutingTypes.BackendRole := backend_role_as_str.
#[global] Instance backend_role_distinct : DistinctLabels RoutingTypes.BackendRole.
Proof. distinct_labels. Qed.

Definition read_routing_mode_as_str (x : RoutingTypes.ReadRoutingMode) : string :=
  match x with
  | RoutingTypes.ModeOff => "off"
  | RoutingTypes.PreferReplica => "prefer_replica"
  | RoutingTypes.RequireReplica => "require_replica"
  | RoutingTypes.PrimaryOnly => "primary_only"
  end.
#[global] Instance read_routing_mode_labelled : Labelled RoutingTypes.ReadRoutingMode := read_routing_mode_as_str.
#[global] Instance read_routing_mode_distinct : DistinctLabels RoutingTypes.ReadRoutingMode.
Proof. distinct_labels. Qed.

Definition routing_query_class_as_str (x : RoutingTypes.QueryClass) : string :=
  match x with
  | RoutingTypes.Write => "write"
  | RoutingTypes.ReadOnlyClass => "read_only"
  | RoutingTypes.ReadCandidate => "read_candidate"
  | RoutingTypes.TransactionControl => "transaction_control"
  | RoutingTypes.SessionMutation => "session_mutation"
  | RoutingTypes.CopyClass => "copy"
  | RoutingTypes.UnknownClass => "unknown"
  end.
#[global] Instance routing_query_class_labelled : Labelled RoutingTypes.QueryClass := routing_query_class_as_str.
#[global] Instance routing_query_class_distinct : DistinctLabels RoutingTypes.QueryClass.
Proof. distinct_labels. Qed.

Definition routing_hint_as_str (x : RoutingTypes.RoutingHint) : string :=
  match x with
  | RoutingTypes.HintPrimary => "primary"
  | RoutingTypes.HintReplica => "replica"
  | RoutingTypes.HintStaleOk => "stale_ok"
  | RoutingTypes.HintStrictFresh => "strict_fresh"
  | RoutingTypes.HintNone => "none"
  end.
#[global] Instance routing_hint_labelled : Labelled RoutingTypes.RoutingHint := routing_hint_as_str.
#[global] Instance routing_hint_distinct : DistinctLabels RoutingTypes.RoutingHint.
Proof. distinct_labels. Qed.

Definition fallback_policy_as_str (x : RoutingTypes.FallbackPolicy) : string :=
  match x with
  | RoutingTypes.FallbackToPrimary => "primary"
  | RoutingTypes.FallbackRejects => "reject"
  | RoutingTypes.FallbackWaits => "wait"
  end.
#[global] Instance fallback_policy_labelled : Labelled RoutingTypes.FallbackPolicy := fallback_policy_as_str.
#[global] Instance fallback_policy_distinct : DistinctLabels RoutingTypes.FallbackPolicy.
Proof. distinct_labels. Qed.

Definition freshness_policy_as_str (x : RoutingTypes.FreshnessPolicy) : string :=
  match x with
  | RoutingTypes.FreshNone => "none"
  | RoutingTypes.SessionWriteLsn => "session_write_lsn"
  | RoutingTypes.MaxReplicaLag => "max_replica_lag"
  | RoutingTypes.SessionWriteLsnAndMaxLag => "session_write_lsn_and_max_lag"
  end.
#[global] Instance freshness_policy_labelled : Labelled RoutingTypes.FreshnessPolicy := freshness_policy_as_str.
#[global] Instance freshness_policy_distinct : DistinctLabels RoutingTypes.FreshnessPolicy.
Proof. distinct_labels. Qed.

Definition core_routing_reason_as_str (x : RoutingTypes.RoutingReason) : string :=
  match x with
  | RoutingTypes.ROff => "off"
  | RoutingTypes.RPrimaryOnlyMode => "primary_only_mode"
  | RoutingTypes.RPreferReplicaMode => "prefer_replica_mode"
  | RoutingTypes.RRequireReplicaMode => "require_replica_mode"
  | RoutingTypes.RWriteQuery => "write_query"
  | RoutingTypes.RReadOnlyQuery => "read_only_query"
  | RoutingTypes.RReadCandidateQuery => "read_candidate_query"
  | RoutingTypes.RTransactionControl => "transaction_control"
  | RoutingTypes.RSessionMutation => "session_mutation"
  | RoutingTypes.RCopy => "copy"
  | RoutingTypes.RUnknownQuery => "unknown_query"
  | RoutingTypes.RFreshnessRequired => "freshness_required"
  | RoutingTypes.RReplicaStale => "replica_stale"
  | RoutingTypes.RReplicaUnavailable => "replica_unavailable"
  | RoutingTypes.RFallbackPrimary => "fallback_primary"
  | RoutingTypes.RFallbackReject => "fallback_reject"
  | RoutingTypes.RFallbackWait => "fallback_wait"
  end.
#[global] Instance core_routing_reason_labelled : Labelled RoutingTypes.RoutingReason := core_routing_reason_as_str.
#[global] Instance core_routing_reason_distinct : DistinctLabels RoutingTypes.RoutingReason.
Proof. distinct_labels. Qed.

Definition routing_reason_as_str (x : ReadRouting.TargetReason) : string :=
  match x with
  | ReadRouting.TOff => "off"
  | ReadRouting.TPrimaryOnlyMode => "primary_only_mode"
  | ReadRouting.TRequireReplicaMode => "require_replica_mode"
  | ReadRouting.TInTransaction => "in_transaction"
  | ReadRouting.TFailedTransaction => "failed_transaction"
  | ReadRouting.TWriteQuery => "write_query"
  | ReadRouting.TUnknownQuery => "unknown_query"
  | ReadRouting.TTransactionControl => "transaction_control"
  | ReadRouting.TSessionMutation => "session_mutation"
  | ReadRouting.TCopyQuery => "copy_query"
  | ReadRouting.TReadCandidateQuery => "read_candidate_query"
  | ReadRouting.TReadOnlyQuery => "read_only_query"
  | ReadRouting.TPrimaryHint => "primary_hint"
  | ReadRouting.TReplicaHint => "replica_hint"
  | ReadRouting.TStaleOkHint => "stale_ok_hint"
  | ReadRouting.TStrictFreshHint => "strict_fresh_hint"
  | ReadRouting.TFreshnessRequired => "freshness_required"
  | ReadRouting.TReplicaStale => "replica_stale"
  | ReadRouting.TReplicaUnavailable => "replica_unavailable"
  | ReadRouting.TFallbackPrimary => "fallback_primary"
  | ReadRouting.TFallbackReject => "fallback_reject"
  | ReadRouting.TFallbackWait => "fallback_wait"
  | ReadRouting.TPolicyDenied => "policy_denied"
  | ReadRouting.TPolicyRequirePrimary => "policy_require_primary"
  | ReadRouting.TPolicyRequireReplica => "policy_require_replica"
  | ReadRouting.TPolicyRouteOverride => "policy_route_override"
  | ReadRouting.TPolicyShardOverride => "policy_shard_override"
  end.
#[global] Instance routing_reason_labelled : Labelled ReadRouting.TargetReason := routing_reason_as_str.
#[global] Instance routing_reason_distinct : DistinctLabels ReadRouting.TargetReason.
Proof. distinct_labels. Qed.

Definition mirror_mode_as_str (x : Mirror.MirrorMode) : string :=
  match x with
  | Mirror.MirrorOff => "off"
  | Mirror.MirrorReadOnly => "read_only"
  | Mirror.MirrorExplicit => "explicit"
  end.
#[global] Instance mirror_mode_labelled : Labelled Mirror.MirrorMode := mirror_mode_as_str.
#[global] Instance mirror_mode_distinct : DistinctLabels Mirror.MirrorMode.
Proof. distinct_labels. Qed.

Definition mirror_safety_gate_as_str (x : Mirror.MirrorSafetyGate) : string :=
  match x with
  | Mirror.GateDisabled => "disabled"
  | Mirror.TargetConfigured => "target_configured"
  | Mirror.TargetIsolated => "target_isolated"
  | Mirror.Writes => "writes"
  | Mirror.Transactions => "transactions"
  | Mirror.CopyGate => "copy"
  | Mirror.ListenNotifyGate => "listen_notify"
  | Mirror.TempTableGate => "temp_table"
  | Mirror.SessionMutationGate => "session_mutation"
  | Mirror.Sampling => "sampling"
  end.
#[global] Instance mirror_safety_gate_labelled : Labelled Mirror.MirrorSafetyGate := mirror_safety_gate_as_str.
#[global] Instance mirror_safety_gate_distinct : DistinctLabels Mirror.MirrorSafetyGate.
Proof. distinct_labels. Qed.

Definition mirror_reason_as_str (x : Mirror.MirrorReason) : string :=
  match x with
  | Mirror.ReasonDisabled => "disabled"
  | Mirror.Eligible => "eligible"
  | Mirror.TargetMissing => "target_missing"
  | Mirror.TargetSharedWithProduction => "target_shared_with_production"
  | Mirror.WritesDisabled => "writes_disabled"
  | Mirror.TransactionsDisabled => "transactions_disabled"
  | Mirror.CopyDisabled => "copy_disabled"
  | Mirror.ListenNotifyDisabled => "listen_notify_disabled"
  | Mirror.TempTableDisabled => "temp_table_disabled"
  | Mirror.SessionMutationDisabled => "session_mutation_disabled"
  | Mirror.SampledOut => "sampled_out"
  | Mirror.UnsupportedMode => "unsupported_mode"
  end.
#[global] Instance mirror_reason_labelled : Labelled Mirror.MirrorReason := mirror_reason_as_str.
#[global] Instance mirror_reason_distinct : DistinctLabels Mirror.MirrorReason.
Proof. distinct_labels. Qed.

Definition mirror_outcome_as_str (x : Mirror.MirrorOutcome) : string :=
  match x with
  | Mirror.Skipped => "skipped"
  | Mirror.Mirrored => "mirrored"
  | Mirror.MirrorRejected => "rejected"
  end.
#[global] Instance mirror_outcome_labelled : Labelled Mirror.MirrorOutcome := mirror_outcome_as_str.
#[global] Instance mirror_outcome_distinct : DistinctLabels Mirror.MirrorOutcome.
Proof. distinct_labels. Qed.

Definition shard_key_type_as_str (x : Sharding.ShardKeyType) : string :=
  match x with
  | Sharding.TextKey => "text"
  | Sharding.IntegerKey => "integer"
  | Sharding.BytesKey => "bytes"
  end.
#[global] Instance shard_key_type_labelled : Labelled Sharding.ShardKeyType := shard_key_type_as_str.
#[global] Instance shard_key_type_distinct : DistinctLabels Sharding.ShardKeyType.
Proof. distinct_labels. Qed.

Definition shard_strategy_as_str (x : Sharding.ShardStrategy) : string :=
  match x with
  | Sharding.StrategyHash => "hash"
  | Sharding.StrategyRange => "range"
  | Sharding.StrategyList => "list"
  end.
#[global] Instance shard_strategy_labelled : Labelled Sharding.ShardStrategy := shard_strategy_as_str.
#[global] Instance shard_strategy_distinct : DistinctLabels Sharding.ShardStrategy.
Proof. distinct_labels. Qed.

Definition shard_route_reason_as_str (x : Sharding.ShardRouteReason) : string :=
  match x with
  | Sharding.AdminOverride => "admin_override"
  | Sharding.HashMatch => "hash_match"
  | Sharding.RangeMatch => "range_match"
  | Sharding.ListMatch => "list_match"
  | Sharding.MultiShardRejected => "multi_shard_rejected"
  | Sharding.ValidationFailed => "validation_failed"
  | Sharding.NoMatch => "no_match"
  end.
#[global] Instance shard_route_reason_labelled : Labelled Sharding.ShardRouteReason := shard_route_reason_as_str.
#[global] Instance shard_route_reason_distinct : DistinctLabels Sharding.ShardRouteReason.
Proof. distinct_labels. Qed.

Definition multi_shard_policy_as_str (x : Sharding.MultiShardPolicy) : string :=
  match x with
  | Sharding.Reject => "reject"
  | Sharding.FirstMatch => "first_match"
  | Sharding.FanOut => "fan_out"
  end.
#[global] Instance multi_shard_policy_labelled : Labelled Sharding.MultiShardPolicy := multi_shard_policy_as_str.
#[global] Instance multi_shard_policy_distinct : DistinctLabels Sharding.MultiShardPolicy.
Proof. distinct_labels. Qed.

Definition shard_lifecycle_state_as_str (x : Sharding.ShardLifecycleState) : string :=
  match x with
  | Sharding.Active => "active"
  | Sharding.Draining => "draining"
  | Sharding.Readonly => "readonly"
  | Sharding.Disabled => "disabled"
  end.
#[global] Instance shard_lifecycle_state_labelled : Labelled Sharding.ShardLifecycleState := shard_lifecycle_state_as_str.
#[global] Instance shard_lifecycle_state_distinct : DistinctLabels Sharding.ShardLifecycleState.
Proof. distinct_labels. Qed.

Definition shard_migration_state_as_str (x : Sharding.ShardMigrationState) : string :=
  match x with
  | Sharding.Idle => "idle"
  | Sharding.Assessing => "assessing"
  | Sharding.Ready => "ready"
  | Sharding.Blocked => "blocked"
  end.
#[global] Instance shard_migration_state_labelled : Labelled Sharding.ShardMigrationState := shard_migration_state_as_str.
#[global] Instance shard_migration_state_distinct : DistinctLabels Sharding.ShardMigrationState.
Proof. distinct_labels. Qed.

Definition route_map_validation_error_code_as_str (x : Sharding.RouteMapValidationErrorCode) : string :=
  match x with
  | Sharding.UnknownShardTarget => "unknown_shard_target"
  | Sharding.MissingShardRule => "missing_shard_rule"
  | Sharding.MissingShardKeyColumn => "missing_shard_key_column"
  | Sharding.InvalidHashWeight => "invalid_hash_weight"
  | Sharding.InvalidRangeBoundaries => "invalid_range_boundaries"
  | Sharding.DuplicateListValue => "duplicate_list_value"
  | Sharding.ConflictingDefaultRoutes => "conflicting_default_routes"
  end.
#[global] Instance route_map_validation_error_code_labelled : Labelled Sharding.RouteMapValidationErrorCode := route_map_validation_error_code_as_str.
#[global] Instance route_map_validation_error_code_distinct : DistinctLabels Sharding.RouteMapValidationErrorCode.
Proof. distinct_labels. Qed.

Definition policy_validation_error_code_as_str (x : Policy.PolicyValidationErrorCode) : string :=
  match x with
  | Policy.EmptyPolicyId => "empty_policy_id"
  | Policy.InvalidPolicyVersion => "invalid_policy_version"
  | Policy.EmptyTargetId => "empty_target_id"
  end.
#[global] Instance policy_validation_error_code_labelled : Labelled Policy.PolicyValidationErrorCode := policy_validation_error_code_as_str.
#[global] Instance policy_validation_error_code_distinct : DistinctLabels Policy.PolicyValidationErrorCode.
Proof. distinct_labels. Qed.

Definition policy_mode_as_str (x : Policy.PolicyMode) : string :=
  match x with
  | Policy.PolicyDisabled => "disabled"
  | Policy.PolicyEnforce => "enforce"
  | Policy.PolicyDryRun => "dry_run"
  end.
#[global] Instance policy_mode_labelled : Labelled Policy.PolicyMode := policy_mode_as_str.
#[global] Instance policy_mode_distinct : DistinctLabels Policy.PolicyMode.
Proof. distinct_labels. Qed.

Definition policy_plugin_error_code_as_str (x : Policy.PolicyPluginErrorCode) : string :=
  match x with
  | Policy.UnknownAbiVersion => "unknown_abi_version"
  | Policy.InputTooLarge => "input_too_large"
  | Policy.OutputTooLarge => "output_too_large"
  | Policy.EvaluationTimeout => "evaluation_timeout"
  | Policy.FilesystemAccessDenied => "filesystem_access_denied"
  | Policy.NetworkAccessDenied => "network_access_denied"
  | Policy.SecretAccessDenied => "secret_access_denied"
  | Policy.UnsupportedAction => "unsupported_action"
  | Policy.OutputValidationFailed => "output_validation_failed"
  end.
#[global] Instance policy_plugin_error_code_labelled : Labelled Policy.PolicyPluginErrorCode := policy_plugin_error_code_as_str.
#[global] Instance policy_plugin_error_code_distinct : DistinctLabels Policy.PolicyPluginErrorCode.
Proof. distinct_labels. Qed.

Definition policy_hook_point_as_str (x : Policy.PolicyHookPoint) : string :=
  match x with
  | Policy.BeforeRouting => "before_routing"
  | Policy.AfterRouting => "after_routing"
  | Policy.BeforeCheckout => "before_checkout"
  end.
#[global] Instance policy_hook_point_labelled : Labelled Policy.PolicyHookPoint := policy_hook_point_as_str.
#[global] Instance policy_hook_point_distinct : DistinctLabels Policy.PolicyHookPoint.
Proof. distinct_labels. Qed.

Definition policy_decision_reason_as_str (x : Policy.PolicyDecisionReason) : string :=
  match x with
  | Policy.PolicyDenied => "policy_denied"
  | Policy.ValidationFailedReason => "validation_failed"
  | Policy.TargetIdInvalid => "target_id_invalid"
  | Policy.ContextRedacted => "context_redacted"
  end.
#[global] Instance policy_decision_reason_labelled : Labelled Policy.PolicyDecisionReason := policy_decision_reason_as_str.
#[global] Instance policy_decision_reason_distinct : DistinctLabels Policy.PolicyDecisionReason.
Proof. distinct_labels. Qed.

Definition policy_effect_as_str (x : Policy.PolicyEffect) : string :=
  match x with
  | Policy.EffectNoChange => "no_change"
  | Policy.EffectDeny => "deny"
  | Policy.EffectRequirePrimary => "require_primary"
  | Policy.EffectRequireReplica => "require_replica"
  | Policy.EffectRouteOverride => "route_override"
  | Policy.EffectShardOverride => "shard_override"
  end.
#[global] Instance policy_effect_labelled : Labelled Policy.PolicyEffect := policy_effect_as_str.
#[global] Instance policy_effect_distinct : DistinctLabels Policy.PolicyEffect.
Proof. distinct_labels. Qed.

Definition policy_outcome_as_str (x : Policy.PolicyOutcome) : string :=
  match x with
  | Policy.OutcomeApplied => "applied"
  | Policy.OutcomeDryRun => "dry_run"
  | Policy.OutcomeRejected => "rejected"
  | Policy.OutcomeSkipped => "skipped"
  | Policy.OutcomeRedacted => "redacted"
  end.
#[global] Instance policy_outcome_labelled : Labelled Policy.PolicyOutcome := policy_outcome_as_str.
#[global] Instance policy_outcome_distinct : DistinctLabels Policy.PolicyOutcome.
Proof. distinct_labels. Qed.

Definition policy_audit_kind_as_str (x : Policy.PolicyAuditKind) : string :=
  match x with
  | Policy.AuditDecision => "decision"
  | Policy.AuditValidation => "validation"
  | Policy.AuditRedaction => "redaction"
  | Policy.AuditError => "error"
  end.
#[global] Instance policy_audit_kind_labelled : Labelled Policy.PolicyAuditKind := policy_audit_kind_as_str.
#[global] Instance policy_audit_kind_distinct : DistinctLabels Policy.PolicyAuditKind.
Proof. distinct_labels. Qed.

Definition adaptive_mode_as_str (x : Config.AdaptiveMode) : string :=
  match x with
  | Config.ModeRecommend => "recommend"
  | Config.ModeApply => "apply"
  end.
#[global] Instance adaptive_mode_labelled : Labelled Config.AdaptiveMode := adaptive_mode_as_str.
#[global] Instance adaptive_mode_distinct : DistinctLabels Config.AdaptiveMode.
Proof. distinct_labels. Qed.

Definition adaptive_signal_as_str (x : Adaptive.AdaptiveSignal) : string :=
  match x with
  | Adaptive.PoolSizePressure => "pool_size_pressure"
  | Adaptive.BackpressureThresholdPressure => "backpressure_threshold_pressure"
  | Adaptive.MirrorSamplingPressure => "mirror_sampling_pressure"
  | Adaptive.TimeoutPressure => "timeout_pressure"
  end.
#[global] Instance adaptive_signal_labelled : Labelled Adaptive.AdaptiveSignal := adaptive_signal_as_str.
#[global] Instance adaptive_signal_distinct : DistinctLabels Adaptive.AdaptiveSignal.
Proof. distinct_labels. Qed.

Definition adaptive_action_as_str (x : Adaptive.AdaptiveAction) : string :=
  match x with
  | Adaptive.ActRecommend => "recommend"
  | Adaptive.ActApply => "apply"
  | Adaptive.ActReject => "reject"
  end.
#[global] Instance adaptive_action_labelled : Labelled Adaptive.AdaptiveAction := adaptive_action_as_str.
#[global] Instance adaptive_action_distinct : DistinctLabels Adaptive.AdaptiveAction.
Proof. distinct_labels. Qed.

Definition adaptive_outcome_as_str (x : Adaptive.AdaptiveOutcome) : string :=
  match x with
  | Adaptive.OutcomeRecommended => "recommended"
  | Adaptive.OutcomeApplied => "applied"
  | Adaptive.OutcomeRejected => "rejected"
  | Adaptive.OutcomeSkipped => "skipped"
  end.
#[global] Instance adaptive_outcome_labelled : Labelled Adaptive.AdaptiveOutcome := adaptive_outcome_as_str.
#[global] Instance adaptive_outcome_distinct : DistinctLabels Adaptive.AdaptiveOutcome.
Proof. distinct_labels. Qed.

Definition adaptive_guardrail_as_str (x : Adaptive.AdaptiveGuardrail) : string :=
  match x with
  | Adaptive.ConfidenceFloor => "confidence_floor"
  | Adaptive.Allowlist => "allowlist"
  | Adaptive.MaxChangePercent => "max_change_percent"
  | Adaptive.UnboundedChange => "unbounded_change"
  end.
#[global] Instance adaptive_guardrail_labelled : Labelled Adaptive.AdaptiveGuardrail := adaptive_guardrail_as_str.
#[global] Instance adaptive_guardrail_distinct : DistinctLabels Adaptive.AdaptiveGuardrail.
Proof. distinct_labels. Qed.

Definition runtime_lifecycle_state_as_str (x : Lifecycle.RuntimeLifecycleState) : string :=
  match x with
  | Lifecycle.Starting => "starting"
  | Lifecycle.Ready => "ready"
  | Lifecycle.Draining => "draining"
  | Lifecycle.Stopping => "stopping"
  | Lifecycle.Stopped => "stopped"
  end.
#[global] Instance runtime_lifecycle_state_labelled : Labelled Lifecycle.RuntimeLifecycleState := runtime_lifecycle_state_as_str.
#[global] Instance runtime_lifecycle_state_distinct : DistinctLabels Lifecycle.RuntimeLifecycleState.
Proof. distinct_labels. Qed.

Definition readiness_state_as_str (x : Lifecycle.ReadinessState) : string :=
  match x with
  | Lifecycle.RReady => "ready"
  | Lifecycle.RNotReady => "not_ready"
  | Lifecycle.RDraining => "draining"
  end.
#[global] Instance readiness_state_labelled : Labelled Lifecycle.ReadinessState := readiness_state_as_str.
#[global] Instance readiness_state_distinct : DistinctLabels Lifecycle.ReadinessState.
Proof. distinct_labels. Qed.

Definition shutdown_reason_as_str (x : Lifecycle.ShutdownReason) : string :=
  match x with
  | Lifecycle.Signal => "signal"
  | Lifecycle.AdminRequest => "admin_request"
  | Lifecycle.PreStopHook => "pre_stop_hook"
  | Lifecycle.StartupFailure => "startup_failure"
  | Lifecycle.RuntimeFailure => "runtime_failure"
  end.
#[global] Instance shutdown_reason_labelled : Labelled Lifecycle.ShutdownReason := shutdown_reason_as_str.
#[global] Instance shutdown_reason_distinct : DistinctLabels Lifecycle.ShutdownReason.
Proof. distinct_labels. Qed.

Definition endpoint_health_as_str (x : Health.EndpointHealth) : string :=
  match x with
  | Health.Healthy => "healthy"
  | Health.Degraded => "degraded"
  | Health.Unhealthy => "unhealthy"
  | Health.Unavailable => "unavailable"
  end.
#[global] Instance endpoint_health_labelled : Labelled Health.EndpointHealth := endpoint_health_as_str.
#[global] Instance endpoint_health_distinct : DistinctLabels Health.EndpointHealth.
Proof. distinct_labels. Qed.

Definition endpoint_role_state_as_str (x : Health.EndpointRoleState) : string :=
  match x with
  | Health.RolePrimary => "primary"
  | Health.RoleReplica => "replica"
  | Health.RoleWarning => "warning"
  | Health.RoleUnknown => "unknown"
  end.
#[global] Instance endpoint_role_state_labelled : Labelled Health.EndpointRoleState := endpoint_role_state_as_str.
#[global] Instance endpoint_role_state_distinct : DistinctLabels Health.EndpointRoleState.
Proof. distinct_labels. Qed.

Definition replica_lag_state_as_str (x : Health.ReplicaLagState) : string :=
  match x with
  | Health.LagUnknown => "unknown"
  | Health.LagFresh => "fresh"
  | Health.LagLagging => "lagging"
  end.
#[global] Instance replica_lag_state_labelled : Labelled Health.ReplicaLagState := replica_lag_state_as_str.
#[global] Instance replica_lag_state_distinct : DistinctLabels Health.ReplicaLagState.
Proof. distinct_labels. Qed.

Definition cleanup_action_metric_label (x : Recovery.CleanupAction) : string :=
  match x with
  | Recovery.Reuse => "reuse"
  | Recovery.ResetThenReuse => "reset_then_reuse"
  | Recovery.KeepPinned => "keep_pinned"
  | Recovery.RollbackThenReuse => "rollback_then_reuse"
  | Recovery.RollbackThenKeepPinned => "rollback_then_keep_pinned"
  | Recovery.DiscardBackend => "discard"
  end.
#[global] Instance cleanup_action_labelled : Labelled Recovery.CleanupAction := cleanup_action_metric_label.
#[global] Instance cleanup_action_distinct : DistinctLabels Recovery.CleanupAction.
Proof. distinct_labels. Qed.

Definition recovery_trigger_metric_label (x : Recovery.RecoveryTrigger) : string :=
  match x with
  | Recovery.TriggerFailedTransaction => "failed_transaction"
  | Recovery.AbandonedTransaction => "abandoned_transaction"
  | Recovery.AbandonedResponse => "abandoned_response"
  | Recovery.TriggerUnknownProtocolState => "unknown_protocol_state"
  end.
#[global] Instance recovery_trigger_labelled : Labelled Recovery.RecoveryTrigger := recovery_trigger_metric_label.
#[global] Instance recovery_trigger_distinct : DistinctLabels Recovery.RecoveryTrigger.
Proof. distinct_labels. Qed.

Definition recovery_action_metric_label (x : Recovery.RecoveryAction) : string :=
  match x with
  | Recovery.NoAction => "none"
  | Recovery.RollbackAction => "rollback"
  | Recovery.DrainAndSync => "drain_and_sync"
  | Recovery.RollbackAndDrain => "rollback_and_drain"
  | Recovery.DiscardAction => "discard"
  end.
#[global] Instance recovery_action_labelled : Labelled Recovery.RecoveryAction := recovery_action_metric_label.
#[global] Instance recovery_action_distinct : DistinctLabels Recovery.RecoveryAction.
Proof. distinct_labels. Qed.

Definition route_map_reload_error_code_as_str (x : ShardRouting.RouteMapReloadErrorCode) : string :=
  match x with
  | ShardRouting.EmptyRouteMapSet => "empty_route_map_set"
  | ShardRouting.ConflictingRouteScopes => "conflicting_route_scopes"
  | ShardRouting.ActiveTransactionsRequireMigrationOverride => "active_transactions_require_migration_override"
  end.
#[global] Instance route_map_reload_error_code_labelled : Labelled ShardRouting.RouteMapReloadErrorCode := route_map_reload_error_code_as_str.
#[global] Instance route_map_reload_error_code_distinct : DistinctLabels ShardRouting.RouteMapReloadErrorCode.
Proof. distinct_labels. Qed.

Definition policy_reload_error_code_as_str (x : PolicyRuntime.PolicyReloadErrorCode) : string :=
  match x with
  | PolicyRuntime.InvalidPolicyConfiguration => "invalid_policy_configuration"
  | PolicyRuntime.RouteReferenceMissing => "route_reference_missing"
  | PolicyRuntime.ShardReferenceMissing => "shard_reference_missing"
  end.
#[global] Instance policy_reload_error_code_labelled : Labelled PolicyRuntime.PolicyReloadErrorCode := policy_reload_error_code_as_str.
#[global] Instance policy_reload_error_code_distinct : DistinctLabels PolicyRuntime.PolicyReloadErrorCode.
Proof. distinct_labels. Qed.

Definition breaker_state_as_str (x : Resilience.BreakerState) : string :=
  match x with
  | Resilience.BClosed => "closed"
  | Resilience.BOpen => "open"
  | Resilience.BHalfOpen => "half_open"
  end.
#[global] Instance breaker_state_labelled : Labelled Resilience.BreakerState := breaker_state_as_str.
#[global] Instance breaker_state_distinct : DistinctLabels Resilience.BreakerState.
Proof. distinct_labels. Qed.

Definition guardrail_mode_as_str (x : Guardrails.GuardrailMode) : string :=
  match x with
  | Guardrails.GuardOff => "off"
  | Guardrails.GuardObserve => "observe"
  | Guardrails.GuardEnforce => "enforce"
  end.
#[global] Instance guardrail_mode_labelled : Labelled Guardrails.GuardrailMode := guardrail_mode_as_str.
#[global] Instance guardrail_mode_distinct : DistinctLabels Guardrails.GuardrailMode.
Proof. distinct_labels. Qed.

Definition guardrail_rule_as_str (x : Guardrails.GuardrailRule) : string :=
  match x with
  | Guardrails.UnqualifiedDml => "unqualified_dml"
  | Guardrails.Ddl => "ddl"
  | Guardrails.UnknownFingerprint => "unknown_fingerprint"
  end.
#[global] Instance guardrail_rule_labelled : Labelled Guardrails.GuardrailRule := guardrail_rule_as_str.
#[global] Instance guardrail_rule_distinct : DistinctLabels Guardrails.GuardrailRule.
Proof. distinct_labels. Qed.

Definition buffer_budget_kind_as_str (x : Effects.BufferBudgetKind) : string :=
  match x with
  | Effects.ClientBudget => "client"
  | Effects.BackendBudget => "backend"
  end.
#[global] Instance buffer_budget_kind_labelled : Labelled Effects.BufferBudgetKind := buffer_budget_kind_as_str.
#[global] Instance buffer_budget_kind_distinct : DistinctLabels Effects.BufferBudgetKind.
Proof. distinct_labels. Qed.

