(* ===== verification/Performance.v ===== *)
(** * Performance: budgets, process metrics and their text

    Models [pg-kinetic-core/src/observability/performance.rs] and the parsing
    of [observability/process.rs]: the metrics, the budgets and their
    verdicts, samples of the process and what is derived of two of them. The
    files of [/proc] are arguments; the JSON form of a sample is left out. *)

From S2P Require Import Prelude Text F64 Observability.

(** ** Metrics and budgets *)

Inductive PerformanceMetric :=
| LatencyP50 | LatencyP95 | LatencyP99 | LatencyP999 | Throughput | CpuPerQuery | MemoryPerClient | ErrorRate
| CheckoutLatency | PreparedCacheHitRate.
#[global] Instance PerformanceMetric_eq_dec : EqDecision PerformanceMetric.
Proof. solve_decision. Defined.
Definition performance_metric_as_str (m : PerformanceMetric) : string :=
  match m with
  | LatencyP50 => "latency_p50"
  | LatencyP95 => "latency_p95"
  | LatencyP99 => "latency_p99"
  | LatencyP999 => "latency_p999"
  | Throughput => "throughput"
  | CpuPerQuery => "cpu_per_query"
  | MemoryPerClient => "memory_per_client"
  | ErrorRate => "error_rate"
  | CheckoutLatency => "checkout_latency"
  | PreparedCacheHitRate => "prepared_cache_hit_rate"
  end.
#[global] Instance PerformanceMetric_labelled : Labelled PerformanceMetric := performance_metric_as_str.
#[global] Instance PerformanceMetric_distinct : DistinctLabels PerformanceMetric.
Proof. distinct_labels. Qed.

Definition higher_is_better (m : PerformanceMetric) : bool :=
  match m with Throughput | PreparedCacheHitRate => true | _ => false end.
Definition regression_delta (m : PerformanceMetric) (observed baseline : f64) : f64 :=
  if higher_is_better m then f64_sub baseline observed else f64_sub observed baseline.

Inductive BenchmarkTargetLabel := LabelDirectPostgres | LabelPgBouncer | LabelPgDog | LabelPgKinetic.
#[global] Instance BenchmarkTargetLabel_eq_dec : EqDecision BenchmarkTargetLabel.
Proof. solve_decision. Defined.
Definition benchmark_target_label_as_str (t : BenchmarkTargetLabel) : string :=
  match t with
  | LabelDirectPostgres => "direct_postgresql"
  | LabelPgBouncer => "pgbouncer"
  | LabelPgDog => "pgdog"
  | LabelPgKinetic => "pg_kinetic"
  end.
#[global] Instance BenchmarkTargetLabel_labelled : Labelled BenchmarkTargetLabel := benchmark_target_label_as_str.
#[global] Instance BenchmarkTargetLabel_distinct : DistinctLabels BenchmarkTargetLabel.
Proof. distinct_labels. Qed.

Inductive PerformanceRegressionThreshold := Percentage (value : f64) | Absolute (value : f64).
Definition threshold_as_str (t : PerformanceRegressionThreshold) : string :=
  match t with Percentage _ => "percentage" | Absolute _ => "absolute" end.
Definition threshold_value (t : PerformanceRegressionThreshold) : f64 :=
  match t with Percentage v | Absolute v => v end.
Definition allowed_delta (t : PerformanceRegressionThreshold) (baseline : f64) : option f64 :=
  if negb (is_finite baseline) || f64_lt baseline f64_zero || negb (is_finite (threshold_value t))
     || f64_lt (threshold_value t) f64_zero then None
  else Some (match t with
             | Percentage v => f64_div (f64_mul baseline v) (f64_of_Z 100)
             | Absolute v => v
             end).

Inductive PerformanceBudgetOutcome := BudgetPassed | BudgetWarning | BudgetFailed.
#[global] Instance PerformanceBudgetOutcome_eq_dec : EqDecision PerformanceBudgetOutcome.
Proof. solve_decision. Defined.
Definition budget_outcome_as_str (o : PerformanceBudgetOutcome) : string :=
  match o with BudgetPassed => "passed" | BudgetWarning => "warning" | BudgetFailed => "failed" end.
#[global] Instance PerformanceBudgetOutcome_labelled : Labelled PerformanceBudgetOutcome := budget_outcome_as_str.
#[global] Instance PerformanceBudgetOutcome_distinct : DistinctLabels PerformanceBudgetOutcome.
Proof. distinct_labels. Qed.

Inductive PerformanceScoreOutcome := ScorePassed | ScoreWarning | ScoreFailed | MissingBaseline.
Definition score_outcome_as_str (o : PerformanceScoreOutcome) : string :=
  match o with
  | ScorePassed => "pass" | ScoreWarning => "warn" | ScoreFailed => "fail" | MissingBaseline => "missing-baseline"
  end.
#[global] Instance PerformanceScoreOutcome_labelled : Labelled PerformanceScoreOutcome := score_outcome_as_str.
#[global] Instance PerformanceScoreOutcome_distinct : DistinctLabels PerformanceScoreOutcome.
Proof. distinct_labels. Qed.

Record PerformanceBudget := {
  budget_metric : PerformanceMetric;
  warning_threshold : PerformanceRegressionThreshold;
  failure_threshold : PerformanceRegressionThreshold;
}.

Record PerformanceRegressionResult := {
  regression_scenario : str;
  regression_target : BenchmarkTargetLabel;
  regression_metric : PerformanceMetric;
  observed_value : f64;
  baseline_value : option f64;
  regression_outcome : PerformanceBudgetOutcome;
}.

(** A number that budgets are judged on. *)
Definition measured (x : f64) : bool := is_finite x && f64_ge x f64_zero.

Definition budget_verdict (b : PerformanceBudget) (observed : f64) (baseline : option f64) : option PerformanceBudgetOutcome :=
  base ← baseline;
  if measured base && measured observed then
    warning_delta ← allowed_delta (warning_threshold b) base;
    failure_delta ← allowed_delta (failure_threshold b) base;
    let delta := regression_delta (budget_metric b) observed base in
    Some (if f64_lt failure_delta delta then BudgetFailed
          else if f64_lt warning_delta delta then BudgetWarning else BudgetPassed)
  else None.
Definition budget_evaluate (b : PerformanceBudget) (scenario : str) (target : BenchmarkTargetLabel) (observed : f64)
    (baseline : option f64) : PerformanceRegressionResult :=
  {| regression_scenario := scenario; regression_target := target; regression_metric := budget_metric b;
     observed_value := observed; baseline_value := baseline;
     regression_outcome := default BudgetWarning (budget_verdict b observed baseline) |}.

Definition budget_for (budgets : list PerformanceBudget) (m : PerformanceMetric) : option PerformanceBudget :=
  List.find (fun b => bool_decide (budget_metric b = m)) budgets.
Definition budget_set_evaluate (budgets : list PerformanceBudget) (scenario : str) (target : BenchmarkTargetLabel)
    (m : PerformanceMetric) (observed : f64) (baseline : option f64) : PerformanceRegressionResult :=
  match budget_for budgets m with
  | Some b => budget_evaluate b scenario target observed baseline
  | None =>
      {| regression_scenario := scenario; regression_target := target; regression_metric := m;
         observed_value := observed; baseline_value := baseline; regression_outcome := BudgetWarning |}
  end.

(** ** Profiles and samples of the process *)

Inductive ProfileKind := ProfileCpu | ProfileMemory | ProfileAllocations | ProfileFlamegraph.
Definition profile_kind_as_str (k : ProfileKind) : string :=
  match k with
  | ProfileCpu => "cpu" | ProfileMemory => "memory" | ProfileAllocations => "allocations"
  | ProfileFlamegraph => "flamegraph"
  end.
Inductive ProfileCaptureStatus := NotRequested | Captured | ProfileUnavailable | ProfileFailed.
Definition profile_capture_status_as_str (s : ProfileCaptureStatus) : string :=
  match s with
  | NotRequested => "not_requested" | Captured => "captured" | ProfileUnavailable => "unavailable"
  | ProfileFailed => "failed"
  end.
#[global] Instance ProfileCaptureStatus_labelled : Labelled ProfileCaptureStatus := profile_capture_status_as_str.
#[global] Instance ProfileCaptureStatus_distinct : DistinctLabels ProfileCaptureStatus.
Proof. distinct_labels. Qed.

Inductive ProcessMetricKind := CpuTime | ResidentMemory | OpenFileDescriptors.
#[global] Instance ProcessMetricKind_eq_dec : EqDecision ProcessMetricKind.
Proof. solve_decision. Defined.
Definition process_metric_kind_as_str (k : ProcessMetricKind) : string :=
  match k with
  | CpuTime => "cpu_time" | ResidentMemory => "resident_memory" | OpenFileDescriptors => "open_file_descriptors"
  end.

Inductive ProcessMetricValue := MetricUnknown | MetricInteger (n : Z) | MetricFloat (x : f64).
Definition value_as_f64 (v : ProcessMetricValue) : option f64 :=
  match v with
  | MetricInteger n => Some (f64_of_Z n)
  | MetricFloat x => if is_finite x then Some x else None
  | MetricUnknown => None
  end.
Definition value_is_unknown (v : ProcessMetricValue) : bool := match v with MetricUnknown => true | _ => false end.

Record ProcessMetricSample := {
  sampled_at_ms : Z;
  sample_process_id : option Z;
  sample_command_line : option str;
  sample_metrics : list (ProcessMetricKind * ProcessMetricValue);
}.
Definition sample_new (at_ms : Z) (metrics : list (ProcessMetricKind * ProcessMetricValue)) : ProcessMetricSample :=
  {| sampled_at_ms := at_ms; sample_process_id := None; sample_command_line := None; sample_metrics := metrics |}.
(** [now] is the milliseconds since the epoch, [None] before it. *)
Definition sample_now (now : option Z) (metrics : list (ProcessMetricKind * ProcessMetricValue)) : ProcessMetricSample :=
  sample_new (match now with Some ms => Z.min ms (2 ^ 64 - 1) | None => 0 end) metrics.
Definition sample_metric (s : ProcessMetricSample) (k : ProcessMetricKind) : ProcessMetricValue :=
  match List.find (fun kv => bool_decide (kv.1 = k)) (sample_metrics s) with
  | Some (_, v) => v
  | None => MetricUnknown
  end.
Definition sample_redacted (s : ProcessMetricSample) : ProcessMetricSample :=
  {| sampled_at_ms := sampled_at_ms s; sample_process_id := None; sample_command_line := None;
     sample_metrics := sample_metrics s |}.

Inductive ProcessMetricCollectionStatus := CollectionComplete | CollectionPartial | CollectionUnavailable | CollectionFailed.
Definition collection_status_as_str (s : ProcessMetricCollectionStatus) : string :=
  match s with
  | CollectionComplete => "complete" | CollectionPartial => "partial" | CollectionUnavailable => "unavailable"
  | CollectionFailed => "failed"
  end.
#[global] Instance ProcessMetricCollectionStatus_labelled : Labelled ProcessMetricCollectionStatus :=
  collection_status_as_str.
#[global] Instance ProcessMetricCollectionStatus_distinct : DistinctLabels ProcessMetricCollectionStatus.
Proof. distinct_labels. Qed.

(** ** Derived metrics *)

Definition sample_delta (before after : ProcessMetricSample) (k : ProcessMetricKind) : option f64 :=
  a ← value_as_f64 (sample_metric after k);
  b ← value_as_f64 (sample_metric before k);
  let d := f64_sub a b in
  if measured d then Some d else None.
Definition divide (value : f64) (divisor : Z) : option f64 :=
  if 0 <? divisor then
    let q := f64_div value (f64_of_Z divisor) in
    if is_finite q then Some q else None
  else None.
Definition cpu_per_query (before after : ProcessMetricSample) (completed_queries : Z) : PerformanceMetric * option f64 :=
  (CpuPerQuery, v ← sample_delta before after CpuTime; divide v completed_queries).
Definition memory_per_client (before after : ProcessMetricSample) (clients : Z) : PerformanceMetric * option f64 :=
  (MemoryPerClient, v ← sample_delta before after ResidentMemory; divide v clients).

(** ** Collecting from [/proc] *)

Definition rsplit_once (pat s : str) : option (str * str) :=
  n ← find_str (reverse pat) (reverse s);
  let k := (length s - n)%nat in
  Some (take (k - length pat) s, drop k s).

Definition checked_u64 (n : Z) : option Z := if n <? 2 ^ 64 then Some n else None.
Definition proc_stat_cpu_ticks (contents : str) : option Z :=
  '(_, rest) ← rsplit_once (lit ") ") contents;
  let fields := split_whitespace rest in
  utime ← fields !! 11%nat ≫= parse_u64;
  stime ← fields !! 12%nat ≫= parse_u64;
  checked_u64 (utime + stime).
Definition cpu_time_seconds (clock_ticks per_second : Z) : option f64 :=
  if 0 <? per_second then Some (f64_div (f64_of_Z clock_ticks) (f64_of_Z per_second)) else None.
Definition resident_memory_bytes (kibibytes : Z) : option Z := checked_u64 (kibibytes * 1024).

(** A file that could not be read is [None]. *)
Definition collect_cpu_time (stat : option str) (per_second : Z) : ProcessMetricValue :=
  match (contents ← stat; ticks ← proc_stat_cpu_ticks contents; cpu_time_seconds ticks per_second) with
  | Some x => MetricFloat x
  | None => MetricUnknown
  end.
Fixpoint vm_rss (lines : list str) : option Z :=
  match lines with
  | [] => None
  | line :: lines =>
      match (value ← strip_prefix (lit "VmRSS:") line; word ← head (split_whitespace value); parse_u64 word) with
      | Some n => Some n
      | None => vm_rss lines
      end
  end.
Definition collect_resident_memory (status : option str) : ProcessMetricValue :=
  match (contents ← status; n ← vm_rss (lines contents); resident_memory_bytes n) with
  | Some n => MetricInteger n
  | None => MetricUnknown
  end.
Definition collect_open_file_descriptors (entries : option Z) : ProcessMetricValue :=
  match entries with Some n => MetricInteger n | None => MetricUnknown end.

Definition collect_process_metrics (now : option Z) (stat status : option str) (entries : option Z) (per_second : Z)
    : ProcessMetricCollectionStatus * ProcessMetricSample :=
  let metrics := [(CpuTime, collect_cpu_time stat per_second); (ResidentMemory, collect_resident_memory status);
                  (OpenFileDescriptors, collect_open_file_descriptors entries)] in
  let unknown := length (List.filter (fun kv => value_is_unknown kv.2) metrics) in
  (if (unknown =? 0)%nat then CollectionComplete
   else if (unknown =? length metrics)%nat then CollectionUnavailable else CollectionPartial,
   sample_redacted (sample_now now metrics)).

(** ** Facts *)

(** A verdict other than a warning rests on numbers: a baseline and an
    observation that are finite and not negative. *)
Lemma verdict_needs_numbers b scenario target observed baseline :
  regression_outcome (budget_evaluate b scenario target observed baseline) <> BudgetWarning ->
  measured observed = true /\ exists base, baseline = Some base /\ measured base = true.
Proof.
  unfold budget_evaluate, budget_verdict. cbn [regression_outcome]. destruct baseline as [base|]; [|done]. cbn [mbind option_bind].
  destruct (measured base) eqn:Hb, (measured observed) eqn:Ho; cbn [andb default]; try done. by eauto.
Qed.

(** Derived metrics are finite numbers. *)
Lemma divide_finite value divisor q : divide value divisor = Some q -> is_finite q = true.
Proof. unfold divide. destruct (0 <? divisor); [|done]. cbv zeta. destruct (is_finite _) eqn:H; [|done]. by intros [= <-]. Qed.

Section CpuTicks.
Lemma find_space_paren s t :
  free_of 41 s -> find_str [32; 41] (s ++ 32 :: 41 :: t) = Some (length s).
Proof.
  induction s as [|c s IH]; intros Hs; cbn [app length].
  - done.
  - inversion Hs as [|? ? Hc Hs']; subst. cbn [find_str]. rewrite IH by done.
    replace (starts_with [32; 41] (c :: s ++ 32 :: 41 :: t)) with false; [done|]. symmetry.
    apply bool_decide_eq_false. intros [r Hr]. cbn [strip_prefix] in Hr. destruct (32 =? c); [|done].
    destruct s as [|d s]; cbn [strip_prefix app] in Hr; [done|]. inversion Hs' as [|? ? Hd _]; subst.
    by rewrite (proj2 (Z.eqb_neq 41 d)) in Hr by congruence.
Qed.

Lemma rsplit_once_paren a rest : free_of 41 rest -> rsplit_once [41; 32] (a ++ 41 :: 32 :: rest) = Some (a, rest).
Proof.
  intros Hr. unfold rsplit_once.
  replace (reverse (a ++ 41 :: 32 :: rest)) with (reverse rest ++ 32 :: 41 :: reverse a).
  - change (reverse [41; 32]) with [32; 41]. rewrite find_space_paren; cbn [mbind option_bind].
    + f_equal. rewrite length_app, length_reverse. cbn [length]. f_equal.
      * rewrite take_app_le by lia. apply take_ge. lia.
      * replace (length a + S (S (length rest)) - length rest)%nat with (length (a ++ [41; 32])) by (rewrite length_app; cbn; lia).
        change (a ++ 41 :: 32 :: rest) with (a ++ [41; 32] ++ rest). rewrite app_assoc. apply drop_app_length.
    + unfold free_of in *. by apply Forall_reverse.
  - rewrite reverse_app, !reverse_cons, <- !app_assoc. done.
Qed.
Lemma split_whitespace_join ws :
  Forall (fun w => no_ws w /\ w <> []) ws -> split_whitespace (join [32] ws) = ws.
Proof.
  induction 1 as [|w ws [Hw Hne] _ IH]; [done|]. destruct ws as [|v ws]; [by apply split_whitespace_last|].
  change (join [32] (w :: v :: ws)) with (w ++ 32 :: join [32] (v :: ws)). by rewrite split_whitespace_word, IH.
Qed.

Lemma join_free c sep ws : free_of c sep -> Forall (free_of c) ws -> free_of c (join sep ws).
Proof.
  intros Hs. induction 1 as [|w ws Hw Hws IH]; [constructor|]. destruct ws as [|v ws]; [done|].
  change (join sep (w :: v :: ws)) with (w ++ sep ++ join sep (v :: ws)). unfold free_of in *.
  rewrite !Forall_app. auto.
Qed.

(** The processor time of a process is read right whatever its command is
    called, parentheses and spaces included. *)
Lemma proc_stat_cpu_ticks_exact prefix fields utime stime :
  Forall (fun w => no_ws w /\ w <> [] /\ free_of 41 w) fields ->
  fields !! 11%nat = Some (fmt_u64 utime) -> fields !! 12%nat = Some (fmt_u64 stime) ->
  0 <= utime -> 0 <= stime -> utime + stime < 2 ^ 64 ->
  proc_stat_cpu_ticks (prefix ++ lit ") " ++ join [32] fields) = Some (utime + stime).
Proof.
  intros Hf Hu Hs ? ? ?. unfold proc_stat_cpu_ticks. change (lit ") ") with [41; 32].
  change (prefix ++ [41; 32] ++ join [32] fields) with (prefix ++ 41 :: 32 :: join [32] fields).
  rewrite rsplit_once_paren; cbn [mbind option_bind].
  - rewrite split_whitespace_join by (eapply Forall_impl; [exact Hf|naive_solver]). rewrite Hu, Hs. cbn [mbind option_bind].
    unfold parse_u64. rewrite !parse_unsigned_fmt by lia. cbn [mbind option_bind]. unfold checked_u64.
    by rewrite (proj2 (Z.ltb_lt _ _)) by lia.
  - apply join_free; [by repeat constructor|]. eapply Forall_impl; [exact Hf|naive_solver].
Qed.
End CpuTicks.
