(* ===== verification/Benchmark.v ===== *)
(** * Benchmark: scenarios, results and what they show

    Models [pg-kinetic-core/src/lab/benchmark.rs]: the names of targets,
    drivers and workloads, the checks of scenarios and results, and the
    redaction of connection strings. Accessors of private fields are the
    projections; [Debug] prints the redacted connection string. *)

From S2P Require Import Prelude Text F64 Observability Performance.

Definition CONFIGURED_BENCHMARK_SCENARIO_LABEL : string := "configured".
Definition REDACTED_BENCHMARK_DETAIL_LABEL : string := "redacted".

(** ** Names *)

Inductive BenchmarkComparison := DirectPostgreSQL | PgBouncer | PgDog | PgKinetic.
#[global] Instance BenchmarkComparison_eq_dec : EqDecision BenchmarkComparison.
Proof. solve_decision. Defined.
Definition comparison_as_str (c : BenchmarkComparison) : string :=
  match c with
  | DirectPostgreSQL => "direct_postgresql" | PgBouncer => "pgbouncer" | PgDog => "pgdog" | PgKinetic => "pg_kinetic"
  end.
#[global] Instance BenchmarkComparison_labelled : Labelled BenchmarkComparison := comparison_as_str.
#[global] Instance BenchmarkComparison_distinct : DistinctLabels BenchmarkComparison.
Proof. distinct_labels. Qed.
Definition comparison_from_str (value : str) : result str BenchmarkComparison :=
  if bool_decide (value = lit "direct_postgresql") || bool_decide (value = lit "postgresql") then Ok DirectPostgreSQL
  else if bool_decide (value = lit "pgbouncer") then Ok PgBouncer
  else if bool_decide (value = lit "pgdog") then Ok PgDog
  else if bool_decide (value = lit "pg_kinetic") || bool_decide (value = lit "pg-kinetic") then Ok PgKinetic
  else Err (lit "unknown benchmark comparison '" ++ value ++ lit "'").

Inductive BenchmarkDriver := PgBench | Psql | TokioPostgres | PgX | NodePg | Psycopg.
Definition driver_as_str (d : BenchmarkDriver) : string :=
  match d with
  | PgBench => "pgbench" | Psql => "psql" | TokioPostgres => "tokio_postgres" | PgX => "pgx" | NodePg => "node_pg"
  | Psycopg => "psycopg"
  end.
#[global] Instance BenchmarkDriver_labelled : Labelled BenchmarkDriver := driver_as_str.
#[global] Instance BenchmarkDriver_distinct : DistinctLabels BenchmarkDriver.
Proof. distinct_labels. Qed.
Definition driver_from_str (value : str) : result str BenchmarkDriver :=
  if bool_decide (value = lit "pgbench") then Ok PgBench
  else if bool_decide (value = lit "psql") then Ok Psql
  else if bool_decide (value = lit "tokio_postgres") then Ok TokioPostgres
  else if bool_decide (value = lit "pgx") then Ok PgX
  else if bool_decide (value = lit "node_pg") then Ok NodePg
  else if bool_decide (value = lit "psycopg") then Ok Psycopg
  else Err (lit "unknown benchmark driver '" ++ value ++ lit "'").

Inductive BenchmarkWorkloadKind :=
| WorkloadSimpleQuery | WorkloadExtendedQuery | WorkloadPreparedStatementReuse | WorkloadTransactionPool
| WorkloadIdleClients | WorkloadRoutingShardingPolicy.
Definition workload_as_str (w : BenchmarkWorkloadKind) : string :=
  match w with
  | WorkloadSimpleQuery => "simple_query"
  | WorkloadExtendedQuery => "extended_query"
  | WorkloadPreparedStatementReuse => "prepared_statement_reuse"
  | WorkloadTransactionPool => "transaction_pool"
  | WorkloadIdleClients => "idle_clients"
  | WorkloadRoutingShardingPolicy => "routing_sharding_policy"
  end.
#[global] Instance BenchmarkWorkloadKind_labelled : Labelled BenchmarkWorkloadKind := workload_as_str.
#[global] Instance BenchmarkWorkloadKind_distinct : DistinctLabels BenchmarkWorkloadKind.
Proof. distinct_labels. Qed.
Definition workload_from_str (value : str) : result str BenchmarkWorkloadKind :=
  if bool_decide (value = lit "simple_query") then Ok WorkloadSimpleQuery
  else if bool_decide (value = lit "extended_query") then Ok WorkloadExtendedQuery
  else if bool_decide (value = lit "prepared_statement_reuse") then Ok WorkloadPreparedStatementReuse
  else if bool_decide (value = lit "transaction_pool") then Ok WorkloadTransactionPool
  else if bool_decide (value = lit "idle_clients") then Ok WorkloadIdleClients
  else if bool_decide (value = lit "routing_sharding_policy") then Ok WorkloadRoutingShardingPolicy
  else Err (lit "unknown benchmark workload '" ++ value ++ lit "'").

(** ** Errors *)

Inductive BenchmarkValidationError :=
| InvalidScenarioDocument (message : str)
| EmptyScenarioName
| EmptyTargetLabel
| EmptyTargetDsn
| EmptyTargets
| MissingTargetMatrix
| MissingRequiredTarget (comparison : str)
| InvalidConnectionProfile (field : string)
| EmptyExpectedMetrics
| DuplicateTargetLabel (label : str)
| InvalidDuration (field : string)
| WarmupExceedsDuration
| InvalidMetric (field : string)
| EmptyMetricLabel (field : string)
| InvalidErrorRate
| UnsupportedComparisonLabel (label : str)
| UnsupportedDriverLabel (label : str)
| UnsupportedWorkloadLabel (label : str).

Definition blank (s : str) : bool := bool_decide (trim s = []).
Definition check {E} (ok : bool) (e : E) : result E unit := if ok then Ok tt else Err e.

(** ** Targets *)

Record BenchmarkTarget := { target_label : str; target_comparison : BenchmarkComparison; dsn : str }.

Definition target_validate (t : BenchmarkTarget) : result BenchmarkValidationError unit :=
  _ ← check (negb (blank (target_label t))) EmptyTargetLabel;
  check (negb (blank (dsn t))) EmptyTargetDsn.
Definition target_new (label : str) (comparison : BenchmarkComparison) (d : str)
    : result BenchmarkValidationError BenchmarkTarget :=
  if blank label then Err EmptyTargetLabel
  else if blank d then Err EmptyTargetDsn
  else Ok {| target_label := label; target_comparison := comparison; dsn := d |}.
Definition target_metric_label (t : BenchmarkTarget) : string := comparison_as_str (target_comparison t).

(** The targets of a scenario have labels of their own. *)
Fixpoint matrix_check (labels : list str) (ts : list BenchmarkTarget) : result BenchmarkValidationError unit :=
  match ts with
  | [] => Ok tt
  | t :: ts =>
      _ ← target_validate t;
      _ ← check (negb (bool_decide (target_label t ∈ labels))) (DuplicateTargetLabel (target_label t));
      matrix_check (target_label t :: labels) ts
  end.
Definition matrix_validate (ts : list BenchmarkTarget) : result BenchmarkValidationError unit :=
  _ ← check (negb (bool_decide (ts = []))) EmptyTargets; matrix_check [] ts.
Definition matrix_new (ts : list BenchmarkTarget) : result BenchmarkValidationError (list BenchmarkTarget) :=
  _ ← matrix_validate ts; Ok ts.

(** ** Scenarios *)

Record BenchmarkConnectionProfile := { concurrency : Z; connection_count : Z }.
Definition connection_profile_new (c n : Z) : result BenchmarkValidationError BenchmarkConnectionProfile :=
  if c =? 0 then Err (InvalidConnectionProfile "concurrency")
  else if n =? 0 then Err (InvalidConnectionProfile "connection_count")
  else Ok {| concurrency := c; connection_count := n |}.
Definition connection_profile_default : BenchmarkConnectionProfile := {| concurrency := 16; connection_count := 16 |}.

Record BenchmarkFeatureToggleSet := { feature_read_routing : bool; feature_sharding : bool; feature_policy_overhead : bool }.
Definition features_default : BenchmarkFeatureToggleSet :=
  {| feature_read_routing := false; feature_sharding := false; feature_policy_overhead := false |}.

Record BenchmarkExpectedMetricSet := {
  expects_latency : bool;
  expects_throughput : bool;
  expects_cpu : bool;
  expects_memory : bool;
  expects_error_rate : bool;
}.
Definition any_enabled (m : BenchmarkExpectedMetricSet) : bool :=
  expects_latency m || expects_throughput m || expects_cpu m || expects_memory m || expects_error_rate m.
Definition expected_metrics_new (m : BenchmarkExpectedMetricSet) : result BenchmarkValidationError BenchmarkExpectedMetricSet :=
  if any_enabled m then Ok m else Err EmptyExpectedMetrics.
Definition expected_metrics_default : BenchmarkExpectedMetricSet :=
  {| expects_latency := true; expects_throughput := true; expects_cpu := true; expects_memory := true;
     expects_error_rate := true |}.

Record BenchmarkScenario := {
  scenario_name : str;
  scenario_driver : BenchmarkDriver;
  workload : BenchmarkWorkloadKind;
  scenario_duration_ms : Z;
  warmup_ms : Z;
  scenario_targets : list BenchmarkTarget;
  connections : BenchmarkConnectionProfile;
  features : BenchmarkFeatureToggleSet;
  expected_metrics : BenchmarkExpectedMetricSet;
}.
Definition scenario_metric_label (_ : BenchmarkScenario) : string := CONFIGURED_BENCHMARK_SCENARIO_LABEL.

Definition scenario_validate (s : BenchmarkScenario) : result BenchmarkValidationError unit :=
  _ ← check (negb (blank (scenario_name s))) EmptyScenarioName;
  _ ← check (negb (scenario_duration_ms s =? 0)) (InvalidDuration "duration_ms");
  _ ← check (warmup_ms s <=? scenario_duration_ms s) WarmupExceedsDuration;
  _ ← matrix_validate (scenario_targets s);
  check (any_enabled (expected_metrics s)) EmptyExpectedMetrics.
Definition scenario_new_with_configuration (s : BenchmarkScenario) : result BenchmarkValidationError BenchmarkScenario :=
  if blank (scenario_name s) then Err EmptyScenarioName
  else if scenario_duration_ms s =? 0 then Err (InvalidDuration "duration_ms")
  else _ ← scenario_validate s; Ok s.
Definition scenario_new (name : str) (driver : BenchmarkDriver) (duration warmup : Z) (ts : list BenchmarkTarget)
    : result BenchmarkValidationError BenchmarkScenario :=
  ts ← matrix_new ts;
  scenario_new_with_configuration
    {| scenario_name := name; scenario_driver := driver; workload := WorkloadSimpleQuery; scenario_duration_ms := duration;
       warmup_ms := warmup; scenario_targets := ts; connections := connection_profile_default;
       features := features_default; expected_metrics := expected_metrics_default |}.

(** ** Results *)

Record BenchmarkMetric := {
  p50_ms : f64;
  p95_ms : f64;
  p99_ms : f64;
  p999_ms : f64;
  throughput_qps : f64;
  metric_cpu_per_query : f64;
  cpu_label : str;
  memory_per_client_bytes : f64;
  memory_label : str;
  error_rate : f64;
}.

Definition validate_metric_value (field : string) (value : f64) : result BenchmarkValidationError unit :=
  if negb (is_finite value) || f64_lt value f64_zero then Err (InvalidMetric field) else Ok tt.
Definition metric_validate (m : BenchmarkMetric) : result BenchmarkValidationError unit :=
  _ ← validate_metric_value "p50_ms" (p50_ms m);
  _ ← validate_metric_value "p95_ms" (p95_ms m);
  _ ← validate_metric_value "p99_ms" (p99_ms m);
  _ ← validate_metric_value "p999_ms" (p999_ms m);
  _ ← validate_metric_value "throughput_qps" (throughput_qps m);
  _ ← validate_metric_value "cpu_per_query" (metric_cpu_per_query m);
  _ ← validate_metric_value "memory_per_client_bytes" (memory_per_client_bytes m);
  if f64_lt (p95_ms m) (p50_ms m) || f64_lt (p99_ms m) (p95_ms m) || f64_lt (p999_ms m) (p99_ms m)
  then Err (InvalidMetric "latency_order")
  else if blank (cpu_label m) then Err (EmptyMetricLabel "cpu_label")
  else if blank (memory_label m) then Err (EmptyMetricLabel "memory_label")
  else if negb (is_finite (error_rate m)) || negb (f64_le f64_zero (error_rate m) && f64_le (error_rate m) f64_one)
  then Err InvalidErrorRate
  else Ok tt.
Definition metric_new (p50 p95 p99 throughput : f64) (cpu memory : str) (errors : f64)
    : result BenchmarkValidationError BenchmarkMetric :=
  let m := {| p50_ms := p50; p95_ms := p95; p99_ms := p99; p999_ms := p99; throughput_qps := throughput;
              metric_cpu_per_query := f64_zero; cpu_label := cpu; memory_per_client_bytes := f64_zero;
              memory_label := memory; error_rate := errors |} in
  _ ← metric_validate m; Ok m.
Definition with_extended_metrics (m : BenchmarkMetric) (p999 cpu memory : f64)
    : result BenchmarkValidationError BenchmarkMetric :=
  let m := {| p50_ms := p50_ms m; p95_ms := p95_ms m; p99_ms := p99_ms m; p999_ms := p999;
              throughput_qps := throughput_qps m; metric_cpu_per_query := cpu; cpu_label := cpu_label m;
              memory_per_client_bytes := memory; memory_label := memory_label m; error_rate := error_rate m |} in
  _ ← metric_validate m; Ok m.

Record BenchmarkResult := {
  result_scenario : str;
  result_target : BenchmarkTarget;
  result_driver : BenchmarkDriver;
  result_duration_ms : Z;
  result_metrics : BenchmarkMetric;
}.
Definition result_new (r : BenchmarkResult) : result BenchmarkValidationError BenchmarkResult :=
  if blank (result_scenario r) then Err EmptyScenarioName
  else if result_duration_ms r =? 0 then Err (InvalidDuration "duration_ms")
  else _ ← target_validate (result_target r); _ ← metric_validate (result_metrics r); Ok r.

(** ** Redaction *)

Definition redact_parameter (parameter : str) : str :=
  match split_once 61 parameter with
  | Some (key, _) => if eq_ignore_ascii_case key (lit "password") then key ++ lit "=<redacted>" else parameter
  | None => parameter
  end.
Definition redact_query_credentials (value : str) : str :=
  match split_once 63 value with
  | None => value
  | Some (before, after) =>
      let '(query, fragment) :=
        match split_once 35 after with
        | Some (query, fragment) => (query, 35 :: fragment)
        | None => (after, [])
        end in
      before ++ 63 :: join [38] (redact_parameter <$> split_char 38 query) ++ fragment
  end.
Definition redact_connection_string (value : str) : str :=
  redact_query_credentials
    match find_str (lit "://") value with
    | Some n =>
        let authority_start := (n + 3)%nat in
        match split_once 64 (drop authority_start value) with
        | Some (_, rest) => take authority_start value ++ lit "<redacted>@" ++ rest
        | None => value
        end
    | None => value
    end.
Definition redacted_dsn (t : BenchmarkTarget) : str := redact_connection_string (dsn t).

(** ** What redaction hides *)

Record Url := { url_scheme : str; userinfo : str; url_host : str; parameters : list (str * str) }.
Definition print_parameter (p : str * str) : str := p.1 ++ 61 :: p.2.
Definition print_url (u : Url) : str :=
  url_scheme u ++ lit "://" ++ userinfo u ++ 64 :: url_host u ++ 63 :: join [38] (print_parameter <$> parameters u).
Definition is_password (key : str) : bool := eq_ignore_ascii_case key (lit "password").

(** The parts hold none of the characters that separate them. *)
Definition url_wf (u : Url) : Prop :=
  free_of 58 (url_scheme u) /\ free_of 63 (url_scheme u) /\ free_of 64 (userinfo u) /\ free_of 63 (url_host u)
  /\ parameters u <> []
  /\ Forall (fun p => free_of 61 p.1 /\ free_of 38 p.1 /\ free_of 35 p.1 /\ free_of 38 p.2 /\ free_of 35 p.2) (parameters u).

Section Redaction.
Lemma find_scheme s r : free_of 58 s -> find_str (lit "://") (s ++ lit "://" ++ r) = Some (length s).
Proof.
  induction 1 as [|c s Hc _ IH]; [done|]. cbn [app length find_str]. rewrite IH.
  replace (starts_with (lit "://") (c :: s ++ lit "://" ++ r)) with false; [done|]. symmetry.
  apply bool_decide_eq_false. change (lit "://") with [58; 47; 47]. cbn [strip_prefix].
  rewrite (proj2 (Z.eqb_neq 58 c)) by congruence. by intros [? ?].
Qed.

Lemma split_join c ws : ws <> [] -> Forall (free_of c) ws -> split_char c (join [c] ws) = ws.
Proof.
  intros Hne. induction 1 as [|w ws Hw Hws IH]; [done|]. destruct ws as [|v ws]; [by apply split_char_free|].
  change (join [c] (w :: v :: ws)) with (w ++ c :: join [c] (v :: ws)). by rewrite split_char_app, IH.
Qed.

Lemma redact_print_parameter p :
  free_of 61 p.1 -> redact_parameter (print_parameter p) = p.1 ++ 61 :: (if is_password p.1 then lit "<redacted>" else p.2).
Proof.
  intros Hp. unfold redact_parameter, print_parameter. rewrite split_once_app by done.
  fold (is_password p.1). destruct (is_password p.1); [|done]. done.
Qed.

Lemma redact_printed u :
  url_wf u ->
  redact_connection_string (print_url u)
  = url_scheme u ++ lit "://<redacted>@" ++ url_host u ++ 63
    :: join [38] ((fun p => p.1 ++ 61 :: (if is_password p.1 then lit "<redacted>" else p.2)) <$> parameters u).
Proof.
  intros (Hs & Hs' & Hi & Hh & Hne & Hp). unfold redact_connection_string, print_url. rewrite find_scheme by done.
  cbv zeta.
  set (rest := userinfo u ++ 64 :: url_host u ++ 63 :: join [38] (print_parameter <$> parameters u)).
  replace (length (url_scheme u) + 3)%nat with (length (url_scheme u ++ lit "://")) by (rewrite length_app; done).
  rewrite !(app_assoc (url_scheme u) (lit "://")), drop_app_length, take_app_length. unfold rest. rewrite split_once_app by done.
  unfold redact_query_credentials.
  replace ((url_scheme u ++ lit "://") ++ lit "<redacted>@" ++ url_host u ++ 63 :: join [38] (print_parameter <$> parameters u))
    with ((url_scheme u ++ lit "://<redacted>@" ++ url_host u) ++ 63 :: join [38] (print_parameter <$> parameters u))
    by (change (lit "://<redacted>@") with (lit "://" ++ lit "<redacted>@"); by rewrite <- !app_assoc).
  rewrite split_once_app.
  - rewrite split_once_None.
    + rewrite split_join, app_nil_r, <- !app_assoc; [|by destruct (parameters u)|].
      * do 3 f_equal. cbn [app]. do 2 f_equal. rewrite <- list_fmap_compose. apply list_fmap_ext. intros i p Hi'.
        apply redact_print_parameter. rewrite Forall_lookup in Hp. by destruct (Hp i p Hi').
      * apply Forall_fmap. eapply Forall_impl; [exact Hp|]. intros [k v] (? & ? & ? & ? & ?). cbn.
        unfold print_parameter, free_of in *. cbn. apply Forall_app. split; [done|]. constructor; [lia|done].
    + apply join_free; [by repeat constructor|]. apply Forall_fmap. eapply Forall_impl; [exact Hp|].
      intros [k v] (? & ? & ? & ? & ?). unfold print_parameter, free_of in *. cbn. apply Forall_app. split; [done|].
      constructor; [lia|done].
  - unfold free_of in *. rewrite !Forall_app. split; [done|]. split; [|done]. by free_lit.
Qed.
End Redaction.

(** What a connection string shows. Two URLs that differ only in the
    user and password before the first at sign and in the values of
    [password] parameters, in any case, are redacted to the same text: the
    redacted text says nothing about either. *)
Theorem redaction_hides_credentials u v :
  url_wf u -> url_wf v ->
  url_scheme u = url_scheme v -> url_host u = url_host v ->
  Forall2 (fun p q => p.1 = q.1 /\ (is_password p.1 = false -> p.2 = q.2)) (parameters u) (parameters v) ->
  redact_connection_string (print_url u) = redact_connection_string (print_url v).
Proof.
  intros Hu Hv Hs Hh Hp. rewrite !redact_printed, Hs, Hh by done. do 4 f_equal.
  assert (forall ps qs : list (str * str),
    Forall2 (fun p q => p.1 = q.1 /\ (is_password p.1 = false -> p.2 = q.2)) ps qs ->
    (fun p : str * str => p.1 ++ 61 :: (if is_password p.1 then lit "<redacted>" else p.2)) <$> ps
    = (fun p : str * str => p.1 ++ 61 :: (if is_password p.1 then lit "<redacted>" else p.2)) <$> qs) as Heq.
  { intros ps qs. induction 1 as [|[k a] [k' b] ps qs [Hk Hab] _ IH]; [done|]. cbn in *. subst k'. rewrite IH.
    destruct (is_password k); [done|]. by rewrite Hab. }
  by rewrite (Heq _ _ Hp).
Qed.

Lemma redaction_hides_credentials_witness :
  let url info secret := {| url_scheme := lit "postgres"; userinfo := lit info; url_host := lit "db:5432/app";
                            parameters := [(lit "PASSWORD", lit secret); (lit "sslmode", lit "require")] |} in
  redact_connection_string (print_url (url "alice:one"%string "x"%string))
  = redact_connection_string (print_url (url "bob:two"%string "yy"%string)).
Proof.
  intros url. apply (redaction_hides_credentials (url "alice:one"%string "x"%string) (url "bob:two"%string "yy"%string));
    [..|done|done|repeat constructor; done];
    (split_and!; [free_lit..|done|unfold free_of; refine (bool_decide_unpack _ _); vm_compute; exact I]).
Defined.

(** A password with an at sign keeps its end, and the keyword form of a
    connection string keeps everything. *)
Example at_sign_shows_the_password :
  redact_connection_string (lit "postgres://app:se@cret@db/app") = lit "postgres://<redacted>@cret@db/app".
Proof. by vm_compute. Qed.
Example keyword_form_is_not_redacted :
  redact_connection_string (lit "host=db user=app password=secret") = lit "host=db user=app password=secret".
Proof. by vm_compute. Qed.

(** ** Accepted scenarios and results *)

Lemma check_Ok {E} ok (e : E) : check ok e = Ok tt <-> ok = true.
Proof. unfold check. by destruct ok. Qed.

Lemma matrix_check_Ok labels ts :
  matrix_check labels ts = Ok tt <->
  Forall (fun t => blank (target_label t) = false /\ blank (dsn t) = false /\ target_label t ∉ labels) ts
  /\ NoDup (target_label <$> ts).
Proof.
  revert labels. induction ts as [|t ts IH]; intros labels; cbn [matrix_check]; [split; [split; constructor|done]|].
  rewrite fmap_cons, NoDup_cons, Forall_cons. unfold target_validate, check.
  destruct (blank (target_label t)), (blank (dsn t)); cbn [negb mbind result_bind]; try naive_solver.
  case_bool_decide as Hin; cbn [negb mbind result_bind]; [naive_solver|]. rewrite IH.
  assert (Forall (fun t' => blank (target_label t') = false /\ blank (dsn t') = false /\ target_label t' ∉ target_label t :: labels) ts
          <-> Forall (fun t' => blank (target_label t') = false /\ blank (dsn t') = false /\ target_label t' ∉ labels) ts
              /\ target_label t ∉ target_label <$> ts) as ->; [|naive_solver].
  rewrite !Forall_forall, list_elem_of_fmap. setoid_rewrite not_elem_of_cons. naive_solver.
Qed.

(** A scenario is accepted exactly when it has a name, a duration that is
    not zero and not below its warm-up, at least one target, each of them
    with a connection string and a label of its own, and a metric to
    expect. *)
Lemma scenario_validate_exact s :
  scenario_validate s = Ok tt <->
  blank (scenario_name s) = false /\ scenario_duration_ms s <> 0 /\ warmup_ms s <= scenario_duration_ms s
  /\ scenario_targets s <> [] /\ NoDup (target_label <$> scenario_targets s)
  /\ Forall (fun t => blank (target_label t) = false /\ blank (dsn t) = false) (scenario_targets s)
  /\ any_enabled (expected_metrics s) = true.
Proof.
  unfold scenario_validate, matrix_validate, check.
  destruct (blank (scenario_name s)); cbn [negb mbind result_bind]; [naive_solver|].
  destruct (Z.eqb_spec (scenario_duration_ms s) 0); cbn [negb mbind result_bind]; [naive_solver|].
  destruct (Z.leb_spec (warmup_ms s) (scenario_duration_ms s)); cbn [mbind result_bind]; [|split; [done|lia]].
  case_bool_decide; cbn [negb mbind result_bind]; [naive_solver|].
  pose proof (matrix_check_Ok [] (scenario_targets s)) as Hm.
  assert (Forall (fun t => blank (target_label t) = false /\ blank (dsn t) = false /\ target_label t ∉ []) (scenario_targets s)
          <-> Forall (fun t => blank (target_label t) = false /\ blank (dsn t) = false) (scenario_targets s)) as Hf.
  { rewrite !Forall_forall. pose proof (not_elem_of_nil (A := str)). naive_solver. }
  rewrite Hf in Hm. destruct (matrix_check [] (scenario_targets s)) as [[]| |]; cbn [mbind result_bind].
  - destruct (any_enabled _); naive_solver.
  - split; [done|]. intros (_ & _ & _ & _ & H1 & H2 & _). by destruct (proj2 Hm).
  - split; [done|]. intros (_ & _ & _ & _ & H1 & H2 & _). by destruct (proj2 Hm).
Qed.
