(* ===== verification/Control.v ===== *)
(** * Control: heartbeats and the view of the cluster

    Models [pg-kinetic-core/src/cluster/control.rs] and
    [pg-kinetic-proxy/src/ops/control.rs]: what a node says of itself, the
    publisher and the observer of heartbeats, the store of the cluster view
    and the sink of control events, under concurrency: a critical section of
    the store or the sink and an atomic increment are one step each. Time is
    an argument, the age of a heartbeat. *)

From S2P Require Import Prelude Text Tasks Observability Drain Lifecycle.

(** ** Nodes *)

Abbreviation NodeId := str.
Definition generation_next (g : Z) : Z := wrap_u 64 (g + 1).

Inductive PeerHealth := PeerHealthy | PeerOverloaded | PeerUnknown.
#[global] Instance PeerHealth_eq_dec : EqDecision PeerHealth.
Proof. solve_decision. Defined.
Definition peer_health_as_str (h : PeerHealth) : string :=
  match h with PeerHealthy => "healthy" | PeerOverloaded => "overloaded" | PeerUnknown => "unknown" end.
#[global] Instance PeerHealth_labelled : Labelled PeerHealth := peer_health_as_str.
#[global] Instance PeerHealth_distinct : DistinctLabels PeerHealth.
Proof. distinct_labels. Qed.

Record NodeLifecycleSummary := {
  node_lifecycle : RuntimeLifecycleState;
  node_readiness : ReadinessState;
  route_map_generation : Z;
  policy_generation : Z;
  overloaded : bool;
}.

Record NodeStatus := {
  node_id : NodeId;
  status_lifecycle : NodeLifecycleSummary;
  status_health : PeerHealth;
  metadata : str;
  metadata_redacted : bool;
}.
Definition status_new (id : NodeId) (l : NodeLifecycleSummary) (h : PeerHealth) (m : str) : NodeStatus :=
  {| node_id := id; status_lifecycle := l; status_health := h; metadata := m; metadata_redacted := false |}.
Definition status_redacted (id : NodeId) (l : NodeLifecycleSummary) (h : PeerHealth) : NodeStatus :=
  {| node_id := id; status_lifecycle := l; status_health := h; metadata := lit "<redacted>"; metadata_redacted := true |}.
Definition redact (s : NodeStatus) : NodeStatus :=
  {| node_id := node_id s; status_lifecycle := status_lifecycle s; status_health := status_health s;
     metadata := lit "<redacted>"; metadata_redacted := true |}.
Definition with_health (s : NodeStatus) (h : PeerHealth) : NodeStatus :=
  {| node_id := node_id s; status_lifecycle := status_lifecycle s; status_health := h; metadata := metadata s;
     metadata_redacted := metadata_redacted s |}.

Record NodeHeartbeat := { heartbeat_status : NodeStatus; heartbeat_generation : Z }.

(** ** Events *)

Inductive ControlEventKind :=
| HeartbeatPublished | PeerHeartbeatObserved | PeerMarkedUnknown | ClusterViewUpdated | DrainRequested.
#[global] Instance ControlEventKind_eq_dec : EqDecision ControlEventKind.
Proof. solve_decision. Defined.
Definition control_event_kind_as_str (k : ControlEventKind) : string :=
  match k with
  | HeartbeatPublished => "heartbeat_published"
  | PeerHeartbeatObserved => "peer_heartbeat_observed"
  | PeerMarkedUnknown => "peer_marked_unknown"
  | ClusterViewUpdated => "cluster_view_updated"
  | DrainRequested => "drain_requested"
  end.
#[global] Instance ControlEventKind_labelled : Labelled ControlEventKind := control_event_kind_as_str.
#[global] Instance ControlEventKind_distinct : DistinctLabels ControlEventKind.
Proof. distinct_labels. Qed.

Record ControlEvent := {
  event_node_id : NodeId;
  event_generation : Z;
  event_kind : ControlEventKind;
  consensus_required : bool;
}.
Definition control_event_new (id : NodeId) (g : Z) (k : ControlEventKind) : ControlEvent :=
  {| event_node_id := id; event_generation := g; event_kind := k; consensus_required := false |}.
Definition drain_requested (id : NodeId) (g : Z) : ControlEvent := control_event_new id g DrainRequested.

(** ** Peers and the view *)

Record PeerState := { peer_status : NodeStatus; peer_heartbeat_generation : Z; peer_unknown : bool }.
Definition peer_new (s : NodeStatus) (g : Z) : PeerState :=
  {| peer_status := s; peer_heartbeat_generation := g; peer_unknown := false |}.
Definition from_heartbeat (hb : NodeHeartbeat) (stale : bool) : PeerState :=
  let health := if stale then PeerUnknown else status_health (heartbeat_status hb) in
  {| peer_status := with_health (redact (heartbeat_status hb)) health;
     peer_heartbeat_generation := heartbeat_generation hb; peer_unknown := stale |}.
Definition peer_state_unknown (s : NodeStatus) (g : Z) : PeerState :=
  {| peer_status := with_health (redact s) PeerUnknown; peer_heartbeat_generation := g; peer_unknown := true |}.
Definition is_unknown (p : PeerState) : bool :=
  peer_unknown p || bool_decide (status_health (peer_status p) = PeerUnknown).
Definition peer_id (p : PeerState) : NodeId := node_id (peer_status p).

Record ClusterView := {
  view_generation : Z;
  view_local : NodeStatus;
  view_peers : gmap NodeId PeerState;
  authoritative : bool;
}.
(** [collect] into a map: a later entry replaces an earlier one. *)
Definition by_id (ps : list PeerState) : gmap NodeId PeerState := list_to_map (reverse ((fun p => (peer_id p, p)) <$> ps)).
Definition with_generation (local : NodeStatus) (peers : gmap NodeId PeerState) (g : Z) : ClusterView :=
  {| view_generation := g; view_local := local; view_peers := peers; authoritative := false |}.
Definition view_new (local : NodeStatus) : ClusterView := with_generation local ∅ 0.
Definition view_with_peers (local : NodeStatus) (ps : list PeerState) : ClusterView := with_generation local (by_id ps) 0.
Definition view_requires_consensus (_ : ClusterView) : bool := false.

(** ** The store *)

Record ClusterViewStore := { store_generation : Z; view : ClusterView }.
Definition store_new (local : NodeStatus) : ClusterViewStore := {| store_generation := 0; view := view_new local |}.
Definition store_with_peers (local : NodeStatus) (ps : list PeerState) : ClusterViewStore :=
  {| store_generation := 0; view := view_with_peers local ps |}.
Definition renew (s : ClusterViewStore) (local : NodeStatus) (peers : gmap NodeId PeerState) : ClusterViewStore :=
  let g := generation_next (store_generation s) in {| store_generation := g; view := with_generation local peers g |}.

Definition set_local (s : ClusterViewStore) (local : NodeStatus) : ClusterViewStore :=
  renew s local (by_id (map_to_list (view_peers (view s))).*2).
Definition observe_peer (s : ClusterViewStore) (p : PeerState) : ClusterViewStore :=
  renew s (view_local (view s)) (<[peer_id p := p]> (view_peers (view s))).
Definition mark_peer_unknown (s : ClusterViewStore) (id : NodeId) (g : Z) : ClusterViewStore * bool :=
  match view_peers (view s) !! id with
  | None => (s, false)
  | Some existing =>
      (renew s (view_local (view s)) (<[id := peer_state_unknown (peer_status existing) g]> (view_peers (view s))), true)
  end.

(** ** The registry, the publisher and the observer *)

Record NodeRegistry := { local_node_id : NodeId; static_peers : gmap NodeId PeerState }.
Definition registry_new (id : NodeId) : NodeRegistry := {| local_node_id := id; static_peers := ∅ |}.
Definition with_static_peers (id : NodeId) (ps : list PeerState) : NodeRegistry :=
  {| local_node_id := id; static_peers := by_id ps |}.
Definition cluster_view (r : NodeRegistry) (local : NodeStatus) : ClusterView :=
  view_with_peers local (map_to_list (static_peers r)).*2.

(** What the tasks share. *)
Record ControlPlane := {
  registry : NodeRegistry;
  view_store : ClusterViewStore;
  events : list ControlEvent;        (* [LocalControlEventSink] *)
  published : Z;                     (* the publisher's [generation] *)
}.
Definition set_store (c : ControlPlane) (s : ClusterViewStore) : ControlPlane :=
  {| registry := registry c; view_store := s; events := events c; published := published c |}.
Definition set_events (c : ControlPlane) (es : list ControlEvent) : ControlPlane :=
  {| registry := registry c; view_store := view_store c; events := es; published := published c |}.
Definition sink_publish (c : ControlPlane) (e : ControlEvent) : ControlPlane := set_events c (events c ++ [e]).

(** [HeartbeatPublisher::publish]: the atomic increment gives the number. *)
Definition publish_number (c : ControlPlane) (l : NodeLifecycleSummary) (h : PeerHealth) : ControlPlane * NodeHeartbeat :=
  ({| registry := registry c; view_store := view_store c; events := events c; published := generation_next (published c) |},
   {| heartbeat_status := status_redacted (local_node_id (registry c)) l h; heartbeat_generation := generation_next (published c) |}).
Definition published_event (hb : NodeHeartbeat) : ControlEvent :=
  control_event_new (node_id (heartbeat_status hb)) (heartbeat_generation hb) HeartbeatPublished.

(** [HeartbeatObserver::observe]. *)
Definition observed_peer (stale_after : Z) (hb : NodeHeartbeat) (age : Z) : PeerState :=
  if stale_after <=? age then peer_state_unknown (heartbeat_status hb) (heartbeat_generation hb)
  else from_heartbeat hb false.
Definition observed_event (stale_after : Z) (hb : NodeHeartbeat) (age : Z) : ControlEvent :=
  control_event_new (node_id (heartbeat_status hb)) (heartbeat_generation hb)
    (if stale_after <=? age then PeerMarkedUnknown else PeerHeartbeatObserved).

Inductive ControlPhase :=
| PublishStart (l : NodeLifecycleSummary) (h : PeerHealth)
| PublishNumbered (hb : NodeHeartbeat)
| PublishDone (hb : NodeHeartbeat)
| ObserveStart (hb : NodeHeartbeat) (age : Z)
| ObserveStored (hb : NodeHeartbeat) (age : Z)
| ObserveDone (hb : NodeHeartbeat) (age : Z) (p : PeerState)
| MarkStart (id : NodeId) (g : Z)
| MarkStored (id : NodeId) (g : Z)
| MarkDone (id : NodeId) (g : Z) (marked : bool)
| SetLocalStart (s : NodeStatus)
| SetLocalDone
| DrainSink
| SinkDrained (es : list ControlEvent).

Section WithStaleness.
Context (stale_after : Z).

Definition control_step (c : ControlPlane) (p : ControlPhase) : list (ControlPlane * ControlPhase) :=
  match p with
  | PublishStart l h => let '(c', hb) := publish_number c l h in [(c', PublishNumbered hb)]
  | PublishNumbered hb => [(sink_publish c (published_event hb), PublishDone hb)]
  | ObserveStart hb age =>
      [(set_store c (observe_peer (view_store c) (observed_peer stale_after hb age)), ObserveStored hb age)]
  | ObserveStored hb age =>
      [(sink_publish c (observed_event stale_after hb age), ObserveDone hb age (observed_peer stale_after hb age))]
  | MarkStart id g =>
      let '(s, marked) := mark_peer_unknown (view_store c) id g in
      [(set_store c s, if marked then MarkStored id g else MarkDone id g false)]
  | MarkStored id g => [(sink_publish c (control_event_new id g PeerMarkedUnknown), MarkDone id g true)]
  | SetLocalStart s => [(set_store c (set_local (view_store c) s), SetLocalDone)]
  | DrainSink => [(set_events c [], SinkDrained (events c))]
  | PublishDone _ | ObserveDone _ _ _ | MarkDone _ _ _ | SetLocalDone | SinkDrained _ => []
  end.
#[global] Instance control_tasks : TaskSystem ControlPlane ControlPhase Empty_set := {
  task_step := control_step;
  task_drop := fun _ _ => None;
  task_start := fun p => match p with
    | PublishStart _ _ | ObserveStart _ _ | MarkStart _ _ | SetLocalStart _ | DrainSink => true
    | _ => false
    end;
  env_step := fun e c => c;
}.
End WithStaleness.

Definition control_new (id : NodeId) (local : NodeStatus) : ControlPlane :=
  {| registry := registry_new id; view_store := store_new local; events := []; published := 0 |}.

(** ** Every interleaving *)

Definition changed (p : ControlPhase) : Z :=
  match p with ObserveStored _ _ | ObserveDone _ _ _ | MarkStored _ _ | MarkDone _ _ true | SetLocalDone => 1 | _ => 0 end.
Definition number_of (p : ControlPhase) : option Z :=
  match p with PublishNumbered hb | PublishDone hb => Some (heartbeat_generation hb) | _ => None end.
Definition numbered (p : ControlPhase) : Z := match number_of p with Some _ => 1 | None => 0 end.

(** What a task has done: a heartbeat it has observed, with its age; a peer
    it has marked; a heartbeat it has published. *)
Definition observation (p : ControlPhase) : option (NodeHeartbeat * Z) :=
  match p with ObserveStored hb age | ObserveDone hb age _ => Some (hb, age) | _ => None end.
Definition marking (p : ControlPhase) : option (NodeId * Z) :=
  match p with MarkStored id g | MarkDone id g true => Some (id, g) | _ => None end.
Definition publication (p : ControlPhase) : option NodeHeartbeat :=
  match p with PublishNumbered hb | PublishDone hb => Some hb | _ => None end.

(** A heartbeat of the node with this generation was observed: younger than
    the limit, or as old as that or older. *)
Definition seen_fresh (stale_after : Z) (ts : list ControlPhase) (id : NodeId) (g : Z) (hb : NodeHeartbeat) : Prop :=
  exists age, (hb, age) ∈ omap observation ts /\ age < stale_after
              /\ node_id (heartbeat_status hb) = id /\ heartbeat_generation hb = g.
Definition seen_stale (stale_after : Z) (ts : list ControlPhase) (id : NodeId) (g : Z) : Prop :=
  exists hb age, (hb, age) ∈ omap observation ts /\ stale_after <= age
                 /\ node_id (heartbeat_status hb) = id /\ heartbeat_generation hb = g.

(** What a view may say of a peer: unknown if a heartbeat of it came stale or
    it was marked; otherwise what a fresh heartbeat said. *)
Definition reported (stale_after : Z) (ts : list ControlPhase) (p : PeerState) : Prop :=
  let id := peer_id p in
  let g := peer_heartbeat_generation p in
  if peer_unknown p
  then status_health (peer_status p) = PeerUnknown /\ (seen_stale stale_after ts id g \/ (id, g) ∈ omap marking ts)
  else exists hb, seen_fresh stale_after ts id g hb
                  /\ status_health (peer_status p) = status_health (heartbeat_status hb)
                  /\ status_lifecycle (peer_status p) = status_lifecycle (heartbeat_status hb).
Definition peer_good (stale_after : Z) (ts : list ControlPhase) (id : NodeId) (p : PeerState) : Prop :=
  peer_id p = id /\ metadata (peer_status p) = lit "<redacted>" /\ metadata_redacted (peer_status p) = true
  /\ reported stale_after ts p.

(** What an event may say. *)
Definition event_good (stale_after : Z) (ts : list ControlPhase) (e : ControlEvent) : Prop :=
  let id := event_node_id e in
  let g := event_generation e in
  consensus_required e = false
  /\ match event_kind e with
     | HeartbeatPublished => exists hb, hb ∈ omap publication ts /\ node_id (heartbeat_status hb) = id /\ heartbeat_generation hb = g
     | PeerHeartbeatObserved => exists hb, seen_fresh stale_after ts id g hb
     | PeerMarkedUnknown => seen_stale stale_after ts id g \/ (id, g) ∈ omap marking ts
     | ClusterViewUpdated | DrainRequested => False
     end.

(** What a call has answered. *)
Definition answer_good (stale_after : Z) (ts : list ControlPhase) (p : ControlPhase) : Prop :=
  match p with
  | ObserveDone hb age r =>
      peer_good stale_after ts (node_id (heartbeat_status hb)) r /\ (peer_unknown r = true <-> stale_after <= age)
      /\ peer_heartbeat_generation r = heartbeat_generation hb
  | SinkDrained es => Forall (event_good stale_after ts) es
  | _ => True
  end.

Record control_inv (stale_after : Z) (c : ControlPlane) (ts : list ControlPhase) : Prop := {
  inv_peers : map_Forall (peer_good stale_after ts) (view_peers (view (view_store c)));
  inv_generation : view_generation (view (view_store c)) = store_generation (view_store c)
                   /\ store_generation (view_store c) = wrap_u 64 (total changed ts);
  inv_authority : authoritative (view (view_store c)) = false;
  inv_events : Forall (event_good stale_after ts) (events c);
  inv_answers : Forall (answer_good stale_after ts) ts;
  inv_numbers : total numbered ts < 2 ^ 64 ->
                published c = total numbered ts
                /\ NoDup (omap number_of ts) /\ Forall (fun g => 1 <= g <= published c) (omap number_of ts);
}.

(** ** What tasks have done stays done *)

Definition keeps (ts ts' : list ControlPhase) : Prop :=
  omap observation ts ⊆ omap observation ts' /\ omap marking ts ⊆ omap marking ts'
  /\ omap publication ts ⊆ omap publication ts'.

Lemma omap_insert_keep {A B} (f : A -> option B) (l : list A) (i : nat) x y :
  l !! i = Some x -> (f x = None \/ f y = f x) -> omap f l ⊆ omap f (<[i := y]> l).
Proof.
  intros Hi Hf b. rewrite !list_elem_of_omap. intros (z & Hz & Hb).
  apply list_elem_of_lookup_1 in Hz as [j Hj]. destruct (decide (i = j)) as [<-|Hne].
  - simplify_eq. exists y. split; [|destruct Hf; congruence].
    apply (list_elem_of_lookup_2 _ i), list_lookup_insert_eq. by eapply lookup_lt_Some.
  - exists z. split; [|done]. apply (list_elem_of_lookup_2 _ j). by rewrite list_lookup_insert_ne.
Qed.
Lemma omap_insert_has {A B} (f : A -> option B) (l : list A) (i : nat) x y b :
  l !! i = Some x -> f y = Some b -> b ∈ omap f (<[i := y]> l).
Proof.
  intros Hi Hf. apply list_elem_of_omap. exists y. split; [|done].
  apply (list_elem_of_lookup_2 _ i), list_lookup_insert_eq. by eapply lookup_lt_Some.
Qed.

Section ControlFacts.
Context (stale_after : Z).

Lemma step_keeps c ts i p c' p' :
  ts !! i = Some p -> (c', p') ∈ control_step stale_after c p -> keeps ts (<[i := p']> ts).
Proof.
  intros Hi Hst.
  assert ((observation p = None \/ observation p' = observation p) /\ (marking p = None \/ marking p' = marking p)
          /\ (publication p = None \/ publication p' = publication p)) as (? & ? & ?).
  { destruct p; cbn in Hst |- *; try (by apply not_elem_of_nil in Hst); try (by auto);
      try (apply list_elem_of_singleton in Hst; injection Hst as -> ->; by auto). }
  split_and!; by eapply omap_insert_keep.
Qed.
Lemma snoc_keeps ts p : keeps ts (ts ++ [p]).
Proof. unfold keeps. rewrite !omap_app. split_and!; intros x Hx; apply elem_of_app; by left. Qed.

Lemma seen_fresh_keeps ts ts' id g hb : keeps ts ts' -> seen_fresh stale_after ts id g hb -> seen_fresh stale_after ts' id g hb.
Proof. intros (Ho & _) (age & H & ?). exists age. split; [by apply Ho|done]. Qed.
Lemma seen_stale_keeps ts ts' id g : keeps ts ts' -> seen_stale stale_after ts id g -> seen_stale stale_after ts' id g.
Proof. intros (Ho & _) (hb & age & H & ?). exists hb, age. split; [by apply Ho|done]. Qed.
Lemma marked_keeps ts ts' (m : NodeId * Z) : keeps ts ts' -> m ∈ omap marking ts -> m ∈ omap marking ts'.
Proof. intros (_ & Hm & _). apply Hm. Qed.

Create HintDb control.
#[local] Hint Resolve seen_fresh_keeps seen_stale_keeps marked_keeps : control.

Lemma peer_good_keeps ts ts' id p : keeps ts ts' -> peer_good stale_after ts id p -> peer_good stale_after ts' id p.
Proof.
  intros Hk (? & ? & ? & Hr). split_and!; try done. revert Hr. unfold reported. destruct (peer_unknown p).
  - intros (? & [?|?]); split; eauto with control.
  - intros (hb & ? & ?). eauto with control.
Qed.
Lemma event_good_keeps ts ts' e : keeps ts ts' -> event_good stale_after ts e -> event_good stale_after ts' e.
Proof.
  intros Hk [Hc He]. split; [done|]. destruct (event_kind e); try done.
  - destruct He as (hb & ? & ?). exists hb. split; [by apply Hk|done].
  - destruct He as [hb ?]. eauto with control.
  - destruct He; eauto with control.
Qed.
Lemma events_good_keeps ts ts' es :
  keeps ts ts' -> Forall (event_good stale_after ts) es -> Forall (event_good stale_after ts') es.
Proof. intros Hk He. eapply Forall_impl; [exact He|]. intros e. by apply event_good_keeps. Qed.
Lemma answer_good_keeps ts ts' p : keeps ts ts' -> answer_good stale_after ts p -> answer_good stale_after ts' p.
Proof.
  intros Hk. destruct p; cbn; try done; [intros [??]; split; [by eapply peer_good_keeps|done]|].
  by apply events_good_keeps.
Qed.
Lemma peers_good_keeps (ts ts' : list ControlPhase) (m : gmap NodeId PeerState) :
  keeps ts ts' -> map_Forall (peer_good stale_after ts) m -> map_Forall (peer_good stale_after ts') m.
Proof. intros Hk Hm. eapply map_Forall_impl; [exact Hm|]. intros id q. by apply peer_good_keeps. Qed.

(** ** The invariant *)

Lemma by_id_same (m : gmap NodeId PeerState) :
  (forall id p, m !! id = Some p -> peer_id p = id) -> by_id (map_to_list m).*2 = m.
Proof.
  intros Hm. unfold by_id.
  assert ((fun p => (peer_id p, p)) <$> (map_to_list m).*2 = map_to_list m) as ->.
  { rewrite <- list_fmap_compose. rewrite <- (list_fmap_id (map_to_list m)) at 2. apply list_fmap_ext.
    intros i [id p] Hi. cbn. f_equal. apply Hm, elem_of_map_to_list. by eapply list_elem_of_lookup_2. }
  rewrite <- (list_to_map_to_list m) at 2. symmetry. apply list_to_map_proper; [apply NoDup_fst_map_to_list|].
  symmetry. apply reverse_Permutation.
Qed.

Lemma wrap_next n : generation_next (wrap_u 64 n) = wrap_u 64 (n + 1).
Proof. unfold generation_next, wrap_u. by rewrite Zplus_mod_idemp_l. Qed.

Lemma observed_good ts hb age :
  (hb, age) ∈ omap observation ts ->
  peer_good stale_after ts (node_id (heartbeat_status hb)) (observed_peer stale_after hb age).
Proof.
  intros Hin. unfold peer_good, reported, observed_peer.
  destruct (Z.leb_spec stale_after age); cbn; split_and!; try done.
  - left. by exists hb, age.
  - exists hb. split; [by exists age|done].
Qed.
Lemma observed_event_good ts hb age :
  (hb, age) ∈ omap observation ts -> event_good stale_after ts (observed_event stale_after hb age).
Proof.
  intros Hin. unfold event_good, observed_event. destruct (Z.leb_spec stale_after age); cbn; (split; [done|]).
  - left. by exists hb, age.
  - exists hb. by exists age.
Qed.
Lemma observed_unknown hb age : peer_unknown (observed_peer stale_after hb age) = true <-> stale_after <= age.
Proof. unfold observed_peer. destruct (Z.leb_spec stale_after age); cbn; [done|]. split; [done|lia]. Qed.
Lemma observed_generation hb age : peer_heartbeat_generation (observed_peer stale_after hb age) = heartbeat_generation hb.
Proof. unfold observed_peer. by destruct (stale_after <=? age). Qed.
Lemma observed_id hb age : peer_id (observed_peer stale_after hb age) = node_id (heartbeat_status hb).
Proof. unfold observed_peer. by destruct (stale_after <=? age). Qed.

Lemma omap_insert_same {A B} (f : A -> option B) (l : list A) (i : nat) x y :
  l !! i = Some x -> f x = f y -> omap f (<[i := y]> l) = omap f l.
Proof.
  revert i. induction l as [|z l IH]; intros [|i] Hi Hf; try done; cbn in *.
  - injection Hi as ->. by rewrite Hf.
  - by rewrite IH.
Qed.
Lemma omap_insert_new {A B} (f : A -> option B) (l : list A) (i : nat) x y b :
  l !! i = Some x -> f x = None -> f y = Some b -> omap f (<[i := y]> l) ≡ₚ b :: omap f l.
Proof.
  revert i. induction l as [|z l IH]; intros [|i] Hi Hx Hy; try done; cbn in *.
  - injection Hi as ->. by rewrite Hx, Hy.
  - destruct (f z); [|by apply IH]. rewrite IH by done. apply perm_swap.
Qed.

(** A step that leaves the view alone. *)
Lemma inv_same_view c ts i p c' p' :
  control_inv stale_after c ts -> ts !! i = Some p -> keeps ts (<[i := p']> ts) ->
  view_store c' = view_store c -> changed p' = changed p ->
  Forall (event_good stale_after (<[i := p']> ts)) (events c') -> answer_good stale_after (<[i := p']> ts) p' ->
  published c' = published c -> number_of p' = number_of p ->
  control_inv stale_after c' (<[i := p']> ts).
Proof.
  intros [Hp Hg Ha He Hr Hn] Hi Hk Hv Hc He' Hr' Hpub Hnum.
  assert (total numbered (<[i := p']> ts) = total numbered ts) as Ht.
  { rewrite (total_insert _ _ _ _ _ Hi). unfold numbered. rewrite Hnum. lia. }
  split; rewrite ?Hv; try done.
  - by eapply peers_good_keeps.
  - rewrite (total_insert _ _ _ _ _ Hi), Hc. destruct Hg as [H1 H2]. split; [done|]. rewrite H2. f_equal. lia.
  - apply Forall_insert; [|done]. eapply Forall_impl; [exact Hr|]. intros q. by apply answer_good_keeps.
  - rewrite Ht, Hpub, (omap_insert_same _ _ _ _ _ Hi) by done. exact Hn.
Qed.

(** A step that renews the view. *)
Lemma inv_renewed c ts i p p' local peers :
  control_inv stale_after c ts -> ts !! i = Some p -> keeps ts (<[i := p']> ts) ->
  changed p = 0 -> changed p' = 1 -> number_of p = None -> number_of p' = None ->
  answer_good stale_after (<[i := p']> ts) p' ->
  map_Forall (peer_good stale_after (<[i := p']> ts)) peers ->
  control_inv stale_after (set_store c (renew (view_store c) local peers)) (<[i := p']> ts).
Proof.
  intros [Hp Hg Ha He Hr Hn] Hi Hk Hc Hc' Hn1 Hn2 Hr' Hpeers.
  assert (total numbered (<[i := p']> ts) = total numbered ts) as Ht.
  { rewrite (total_insert _ _ _ _ _ Hi). unfold numbered. rewrite Hn1, Hn2. lia. }
  split; cbn; try done.
  - split; [done|]. destruct Hg as [_ ->]. rewrite wrap_next, (total_insert _ _ _ _ _ Hi), Hc, Hc'. f_equal. lia.
  - by eapply events_good_keeps.
  - apply Forall_insert; [|done]. eapply Forall_impl; [exact Hr|]. intros q. by apply answer_good_keeps.
  - rewrite Ht, (omap_insert_same _ _ _ _ _ Hi) by congruence. exact Hn.
Qed.

Lemma inv_published c ts i l h :
  control_inv stale_after c ts -> ts !! i = Some (PublishStart l h) ->
  keeps ts (<[i := PublishNumbered (publish_number c l h).2]> ts) ->
  control_inv stale_after (publish_number c l h).1 (<[i := PublishNumbered (publish_number c l h).2]> ts).
Proof.
  intros Hinv Hi Hk. pose proof Hinv as [Hp Hg Ha He Hr Hn]. split; cbn.
  - by eapply peers_good_keeps.
  - rewrite (total_insert _ _ _ _ _ Hi). cbn. destruct Hg as [H1 H2]. split; [done|]. rewrite H2. f_equal. lia.
  - done.
  - by eapply events_good_keeps.
  - apply Forall_insert; [|done]. eapply Forall_impl; [exact Hr|]. intros q. by apply answer_good_keeps.
  - rewrite (total_insert _ _ _ _ _ Hi). cbn [numbered number_of]. intros Ht.
    destruct Hn as (Hpub & Hnd & Hrange); [lia|].
    assert (0 <= total numbered ts) by (apply total_nonneg; intros []; cbn; lia).
    assert (generation_next (published c) = published c + 1) as Hnext.
    { unfold generation_next, wrap_u. rewrite Z.mod_small; lia. }
    rewrite Hnext. split; [lia|].
    rewrite (omap_insert_new number_of ts i _ _ (published c + 1) Hi); [|done..].
    rewrite Forall_forall in Hrange. split.
    + apply NoDup_cons. split; [|done]. intros Hin. specialize (Hrange _ Hin). lia.
    + apply Forall_cons. split; [lia|]. apply Forall_forall. intros g Hin. specialize (Hrange _ Hin). lia.
Qed.

(** A step that gives the sink an event. *)
Lemma inv_sent c ts i p p' e :
  control_inv stale_after c ts -> ts !! i = Some p -> keeps ts (<[i := p']> ts) ->
  changed p' = changed p -> number_of p' = number_of p ->
  event_good stale_after (<[i := p']> ts) e -> answer_good stale_after (<[i := p']> ts) p' ->
  control_inv stale_after (sink_publish c e) (<[i := p']> ts).
Proof.
  intros Hinv Hi Hk Hc Hn He Hr. eapply inv_same_view; try done. cbn. apply Forall_app.
  split; [|by constructor]. eapply events_good_keeps; [done|apply (inv_events _ _ _ Hinv)].
Qed.

Lemma inv_marked c ts i id g c' p' :
  control_inv stale_after c ts -> ts !! i = Some (MarkStart id g) -> keeps ts (<[i := p']> ts) ->
  (c', p') ∈ control_step stale_after c (MarkStart id g) -> control_inv stale_after c' (<[i := p']> ts).
Proof.
  intros Hinv Hi Hk Hst. cbn in Hst. unfold mark_peer_unknown in Hst.
  destruct (view_peers (view (view_store c)) !! id) as [q|] eqn:Hq; apply list_elem_of_singleton in Hst as [= -> ->].
  - eapply inv_renewed; try done.
    apply map_Forall_insert_2; [|eapply peers_good_keeps; [done|apply (inv_peers _ _ _ Hinv)]].
    destruct (inv_peers _ _ _ Hinv id q Hq) as (Hid & _). split_and!; try done. split; [done|].
    right. cbn. change (node_id (peer_status q)) with (peer_id q). rewrite Hid. by eapply omap_insert_has.
  - eapply inv_same_view; try done.
    eapply events_good_keeps; [done|apply (inv_events _ _ _ Hinv)].
Qed.

Lemma control_inv_step c ts i p c' p' :
  control_inv stale_after c ts -> ts !! i = Some p -> (c', p') ∈ control_step stale_after c p ->
  control_inv stale_after c' (<[i := p']> ts).
Proof.
  intros Hinv Hi Hst. pose proof (step_keeps _ _ _ _ _ _ Hi Hst) as Hk.
  pose proof (peers_good_keeps _ _ _ Hk (inv_peers _ _ _ Hinv)) as Hpeers.
  pose proof (events_good_keeps _ _ _ Hk (inv_events _ _ _ Hinv)) as Hevents.
  destruct p; try (by eapply inv_marked); cbn in Hst; try (by apply not_elem_of_nil in Hst);
    apply list_elem_of_singleton in Hst; injection Hst as -> ->.
  - by apply inv_published.
  - eapply inv_sent; try done. split; [done|]. exists hb. split; [|done]. by eapply omap_insert_has.
  - eapply inv_renewed; try done. apply map_Forall_insert_2; [|done]. rewrite observed_id.
    apply observed_good. by eapply omap_insert_has.
  - eapply inv_sent; try done; [apply observed_event_good; by eapply omap_insert_has|].
    split; [apply observed_good; by eapply omap_insert_has|]. split; [apply observed_unknown|apply observed_generation].
  - eapply inv_sent; try done. split; [done|]. right. by eapply omap_insert_has.
  - unfold set_local. rewrite by_id_same; [by eapply inv_renewed|].
    intros id q Hq. by destruct (inv_peers _ _ _ Hinv id q Hq).
  - by eapply inv_same_view.
Qed.

Lemma control_inv_start c ts p :
  control_inv stale_after c ts -> task_start (TaskSystem := control_tasks stale_after) p = true ->
  control_inv stale_after c (ts ++ [p]).
Proof.
  intros [Hp Hg Ha He Hr Hn] Hs. pose proof (snoc_keeps ts p) as Hk. split.
  - by eapply peers_good_keeps.
  - rewrite total_snoc. destruct p; try done; cbn [changed]; by rewrite Z.add_0_r.
  - done.
  - by eapply events_good_keeps.
  - apply Forall_app. split; [eapply Forall_impl; [exact Hr|]; intros q; by apply answer_good_keeps|].
    constructor; [by destruct p|done].
  - rewrite total_snoc, omap_app. destruct p; try done; cbn [numbered number_of omap list_omap]; by rewrite Z.add_0_r, app_nil_r.
Qed.
End ControlFacts.

(** C27. The view of the cluster. However publishers, observers and readers
    interleave, the view carries the generation of its store, which counts
    the changes modulo 2^64, and claims no authority; a peer is under its own
    name, with its metadata redacted; it is flagged unknown only if a
    heartbeat of it, of that generation, was observed at the age
    [stale_after] or beyond, or if it was marked with that generation, and
    otherwise a heartbeat of it, of that generation, was observed at a lower
    age, and the health and lifecycle shown are those it carried. An observer
    is answered unknown exactly when the heartbeat it brought was that old.
    An event, in the sink or drained from it, reports a heartbeat that was
    published, or observed below that age, or a peer that was observed at or
    beyond it or marked, and asks for no consensus. Published heartbeats
    carry different numbers, from one to their count, below 2^64 of them. *)
Theorem cluster_view_sound stale_after id local s :
  Runs (H := control_tasks stale_after) (fun _ => True) (control_new id local) s ->
  control_inv stale_after (shared s) (tasks s).
Proof.
  apply (runs_invariant (H := control_tasks stale_after)).
  - split; cbn; [by intros ? ? ?%lookup_empty_Some|done..|]. intros _. split; [done|]. split; constructor.
  - intros c ts i p c' p' Hinv Hi Hst. by eapply control_inv_step.
  - done.
  - intros c ts p. apply control_inv_start.
  - done.
Qed.

Section Run.
Definition ready_summary : NodeLifecycleSummary :=
  {| node_lifecycle := Ready; node_readiness := RReady; route_map_generation := 1; policy_generation := 1;
     overloaded := false |}.
Definition beat (g : Z) : NodeHeartbeat :=
  {| heartbeat_status := status_new (lit "b") ready_summary PeerHealthy (lit "secret"); heartbeat_generation := g |}.
Definition observed_run : list (choice ControlPhase Empty_set) :=
  [Start (PublishStart ready_summary PeerHealthy); Go 0 0; Start (ObserveStart (beat 2) 0); Go 1 0;
   Start (ObserveStart (beat 1) 0); Go 2 0; Go 0 0; Go 1 0].
Definition observed_state : option (System ControlPlane ControlPhase) :=
  perform_all (H := control_tasks 10) (Sys (control_new (lit "a") (status_new (lit "a") ready_summary PeerHealthy [])) [])
    observed_run.
End Run.

Lemma cluster_view_sound_witness :
  match observed_state with
  | Some s => control_inv 10 (shared s) (tasks s) /\ length (tasks s) = 3%nat
  | None => False
  end.
Proof.
  destruct observed_state as [s|] eqn:Hs; [|by vm_compute in Hs]. split; [|by vm_compute in Hs; injection Hs as <-].
  apply (cluster_view_sound 10 (lit "a") (status_new (lit "a") ready_summary PeerHealthy [])).
  eapply (runs_perform_all (H := control_tasks 10)); [apply reach_init; reflexivity| |exact Hs]. by repeat constructor.
Defined.

(** The generation of a heartbeat is not compared: one that is observed late
    replaces a newer one. *)
Example older_heartbeat_replaces_newer :
  (fun s => peer_heartbeat_generation <$> view_peers (view (view_store (shared s))) !! lit "b") <$> observed_state
  = Some (Some 1).
Proof. by vm_compute. Qed.
