(* ===== verification/Address.v ===== *)
(** * Address: the text of a socket address

    Models what the proxy uses of the standard library's [Display] for
    [SocketAddr]: dotted quads, and the text of IPv6 addresses with the
    longest run of zero groups left out. *)

From S2P Require Import Prelude Text Route.

Definition octet (ip : Z) (i : Z) : Z := Z.shiftr ip (24 - 8 * i) mod 256.
Definition fmt_ipv4 (ip : Z) : str := join (lit ".") ((fun i => fmt_u64 (octet ip i)) <$> [0; 1; 2; 3]).

Definition segment (ip : Z) (i : Z) : Z := Z.shiftr ip (112 - 16 * i) mod 65536.
Definition segments (ip : Z) : list Z := segment ip <$> [0; 1; 2; 3; 4; 5; 6; 7].

(** [{:x}] of a group. *)
Definition hex_lower (d : Z) : Z := if d <? 10 then 48 + d else 87 + d.
Fixpoint hex_digits (fuel : nat) (n : Z) : str :=
  match fuel with
  | O => []
  | S fuel => if n <? 16 then [hex_lower n] else hex_digits fuel (n / 16) ++ [hex_lower (n mod 16)]
  end.
Definition fmt_segments (l : list Z) : str := join (lit ":") (hex_digits 4 <$> l).

(** The first longest run of zero groups: its start and length. *)
Fixpoint longest_zeros (i : nat) (current longest : nat * nat) (l : list Z) : nat * nat :=
  match l with
  | [] => longest
  | g :: l =>
      if g =? 0 then
        let current := ((if (current.2 =? 0)%nat then i else current.1), S current.2) in
        longest_zeros (S i) current (if (longest.2 <? current.2)%nat then current else longest) l
      else longest_zeros (S i) (O, O) longest l
  end.
Definition fmt_ipv6 (ip : Z) : str :=
  if Z.shiftr ip 32 =? 65535 then lit "::ffff:" ++ fmt_ipv4 (ip mod 2 ^ 32)
  else
    let l := segments ip in
    let '(start, n) := longest_zeros 0 (O, O) (O, O) l in
    if (1 <? n)%nat then fmt_segments (take start l) ++ lit "::" ++ fmt_segments (drop (start + n) l)
    else fmt_segments l.

(** [Display for SocketAddr]. *)
Definition fmt_addr (a : SocketAddr) : str :=
  match a with
  | V4 ip port => fmt_ipv4 ip ++ lit ":" ++ fmt_u64 port
  | V6 ip port _ scope =>
      lit "[" ++ fmt_ipv6 ip ++ (if scope =? 0 then [] else lit "%" ++ fmt_u64 scope) ++ lit "]:" ++ fmt_u64 port
  end.

Example loopback_text : fmt_addr (V4 (127 * 2 ^ 24 + 1) 6432) = lit "127.0.0.1:6432".
Proof. vm_compute. reflexivity. Qed.
Example ipv6_texts :
  fmt_addr (V6 1 80 0 0) = lit "[::1]:80" /\ fmt_addr (V6 0 0 0 0) = lit "[::]:0"
  /\ fmt_addr (V6 (0x20010db8 * 2 ^ 96 + 1) 5432 0 3) = lit "[2001:db8::1%3]:5432"
  /\ fmt_addr (V6 (0xffff7f000001) 1 0 0) = lit "[::ffff:127.0.0.1]:1"
  /\ fmt_addr (V6 (2 ^ 112 + 2 ^ 48) 1 0 0) = lit "[1::1:0:0:0]:1".
Proof. vm_compute. by split_and!. Qed.
