(* ===== verification/SnapshotTypes.v ===== *)
(** * SnapshotTypes: what the proxy reports about itself

    Models the records of [pg-kinetic-proxy/src/observe/snapshot.rs] and of
    [PreparedStatementSnapshot] in [pg-kinetic-core/src/protocol/prepare.rs],
    with their constructors. A [Duration] and a [SystemTime] are numbers of
    nanoseconds. *)

From S2P Require Import Prelude Text Order Lsn RoutingTypes Route Auth Policy Sharding Session ReadRouting Recovery F64 Admission.
From S2P Require Import Adaptive Mirror ShardRouting PolicyRuntime Lifecycle Health Observability Performance Benchmark Control.
From S2P Require Import Config.

Definition POLICY_AUDIT_RING_CAPACITY : nat := 128.
Definition POLICY_DECISION_RING_CAPACITY : nat := 128.
Definition ADAPTIVE_RECOMMENDATION_RING_CAPACITY : nat := 64.
Definition ADAPTIVE_OUTCOME_RING_CAPACITY : nat := 64.
Definition BENCHMARK_RUN_RING_CAPACITY : nat := 16.

(** [Duration::from_millis]. *)
Definition from_millis (ms : Z) : Z := ms * 1000000.

(** ** Clients, pools and servers *)

Record ClientSnapshot := {
  cs_client_id : Z;
  cs_user : option str;
  cs_database : option str;
  cs_application_name : option str;
  cs_route_key : option RouteKey;
  cs_state : str;
  cs_connected_duration : Z;
}.
Definition client_snapshot_new (id : Z) : ClientSnapshot :=
  {| cs_client_id := id; cs_user := None; cs_database := None; cs_application_name := None; cs_route_key := None;
     cs_state := lit "connected"; cs_connected_duration := 0 |}.

Record PoolSnapshot := {
  pool_configured_backends : Z;
  pool_active_backends : Z;
  pool_idle_backends : Z;
  pool_waiting_clients : Z;
}.
Definition pool_snapshot_new (configured active : Z) : PoolSnapshot :=
  {| pool_configured_backends := configured; pool_active_backends := active;
     pool_idle_backends := Z.max 0 (configured - active); pool_waiting_clients := 0 |}.
Definition pool_snapshot_default : PoolSnapshot := pool_snapshot_new 0 0.

Record PoolLifecycleSnapshot := {
  pls_max_size : Z;
  pls_min_idle : Z;
  pls_idle_timeout : Z;
  pls_max_lifetime : Z;
  pls_active_backends : Z;
  pls_idle_backends : Z;
}.
Definition pool_lifecycle_snapshot_default : PoolLifecycleSnapshot :=
  {| pls_max_size := 0; pls_min_idle := 0; pls_idle_timeout := 0; pls_max_lifetime := 0; pls_active_backends := 0;
     pls_idle_backends := 0 |}.

Record ServerSnapshot := {
  ss_backend_id : Z;
  ss_route_key : option RouteKey;
  ss_state : str;
  ss_age : Z;
  ss_in_transaction : bool;
}.
Definition server_snapshot_new (id : Z) (state : str) (age : Z) : ServerSnapshot :=
  {| ss_backend_id := id; ss_route_key := None; ss_state := state; ss_age := age; ss_in_transaction := false |}.

(** The whole record; [Checkout.ReplicaHealthSnapshot] is the part of it that
    routing reads. *)
Record ReplicaReport := {
  rh_endpoint_id : Z;
  rh_endpoint_addr : SocketAddr;
  rh_expected_role : BackendRole;
  rh_health : HealthProbeOutcome;
  rh_role : RoleProbeOutcome;
  rh_replay_lsn : option PgLsn;
  rh_replay_timestamp : option Z;
  rh_lag_duration : option Z;
  rh_lag_state : ReplicaLagState;
  rh_last_successful_probe_at : option Z;
  rh_last_error : option str;
}.
Definition replica_report_new (id : Z) (addr : SocketAddr) (expected : BackendRole) : ReplicaReport :=
  {| rh_endpoint_id := id; rh_endpoint_addr := addr; rh_expected_role := expected;
     rh_health := {| health_state := Unhealthy; recovered := false; consecutive_failures := 0 |};
     rh_role := {| role_state := RoleUnknown; warning := None |}; rh_replay_lsn := None; rh_replay_timestamp := None;
     rh_lag_duration := None; rh_lag_state := LagUnknown; rh_last_successful_probe_at := None; rh_last_error := None |}.

(** ** Sessions *)

Record PreparedStatementSnapshot := {
  pst_session_id : Z;
  pst_client_statement_name : str;
  pst_backend_statement_name : str;
  pst_materialized_backend_count : Z;
  pst_invalidation_count : Z;
}.
Record PreparedSnapshot := {
  prep_statement_count : Z;
  prep_materialization_count : Z;
  prep_statements : list PreparedStatementSnapshot;
}.
Definition prepared_snapshot_new (statements materializations : Z) : PreparedSnapshot :=
  {| prep_statement_count := statements; prep_materialization_count := materializations; prep_statements := [] |}.
Definition with_statements (p : PreparedSnapshot) (l : list PreparedStatementSnapshot) : PreparedSnapshot :=
  {| prep_statement_count := prep_statement_count p; prep_materialization_count := prep_materialization_count p;
     prep_statements := l |}.

(** [protocol::session::PinReason]. *)
Abbreviation SessionPinReason := Events.PinReason.
Record PinningSnapshot := {
  pin_client_id : Z;
  pin_backend_id : option Z;
  pin_route_key : option RouteKey;
  pin_why : SessionPinReason;
  pin_duration : Z;
}.

Record RecoverySnapshot := {
  rec_trigger : RecoveryTrigger;
  rec_action : RecoveryAction;
  rec_outcome : MetricOutcome;
  rec_count : Z;
  rec_last_error : option str;
}.
#[global] Instance RecoveryTrigger_eq_dec : EqDecision RecoveryTrigger.
Proof. solve_decision. Defined.
#[global] Instance RecoveryAction_eq_dec : EqDecision RecoveryAction.
Proof. solve_decision. Defined.
Definition recovery_snapshot_new (t : RecoveryTrigger) (a : RecoveryAction) (o : MetricOutcome) : RecoverySnapshot :=
  {| rec_trigger := t; rec_action := a; rec_outcome := o; rec_count := 0; rec_last_error := None |}.

Record BackpressureReport := {
  bpr_route_key : RouteKey;
  bpr_waiting : Z;
  bpr_in_flight : Z;
  bpr_rejected : Z;
  bpr_timed_out : Z;
  bpr_canceled : Z;
}.
Definition backpressure_report_new (k : RouteKey) : BackpressureReport :=
  {| bpr_route_key := k; bpr_waiting := 0; bpr_in_flight := 0; bpr_rejected := 0; bpr_timed_out := 0; bpr_canceled := 0 |}.

Record PressureReport := {
  prs_enabled : bool;
  prs_cpu_some_avg10 : option f64;
  prs_mem_some_avg10 : option f64;
  prs_cpu_high_pct : f64;
  prs_mem_high_pct : f64;
  prs_pressured : bool;
  prs_route_in_flight_limit : Z;
  prs_configured_route_in_flight : Z;
}.

(** ** The runtime and the cluster *)

Inductive NodeSummaryRole := LocalNode | PeerNode.
#[global] Instance NodeSummaryRole_eq_dec : EqDecision NodeSummaryRole.
Proof. solve_decision. Defined.
Definition node_summary_role_as_str (r : NodeSummaryRole) : string :=
  match r with LocalNode => "local" | PeerNode => "peer" end.
#[global] Instance NodeSummaryRole_labelled : Labelled NodeSummaryRole := node_summary_role_as_str.
#[global] Instance NodeSummaryRole_distinct : DistinctLabels NodeSummaryRole.
Proof. distinct_labels. Qed.

Record RuntimeSnapshot := {
  rs_node_id : NodeId;
  rs_lifecycle_state : RuntimeLifecycleState;
  rs_readiness_state : ReadinessState;
  rs_runtime_engine : RuntimeEngine;
  rs_uptime : Z;
  rs_shutdown_reason : option ShutdownReason;
}.
Definition runtime_snapshot_new (id : NodeId) (l : RuntimeLifecycleState) (r : ReadinessState) (e : RuntimeEngine) (uptime : Z)
    : RuntimeSnapshot :=
  {| rs_node_id := id; rs_lifecycle_state := l; rs_readiness_state := r; rs_runtime_engine := e; rs_uptime := uptime;
     rs_shutdown_reason := None |}.

Record RuntimeShardSnapshot := {
  sh_shard_id : Z;
  sh_core_id : option Z;
  sh_lifecycle_state : RuntimeLifecycleState;
  sh_accepted_connections : Z;
  sh_active_clients : Z;
}.

Record NodeSummarySnapshot := {
  ns_role : NodeSummaryRole;
  ns_node_id : NodeId;
  ns_lifecycle_state : RuntimeLifecycleState;
  ns_readiness_state : ReadinessState;
  ns_health : PeerHealth;
  ns_route_map_generation : Z;
  ns_policy_generation : Z;
  ns_heartbeat_age : Z;
  ns_overloaded : bool;
}.

Record MirrorSummarySnapshot := {
  ms_mode : MirrorMode;
  ms_sample_rate : f64;
  ms_in_flight : Z;
  ms_dropped_total : Z;
  ms_timed_out_total : Z;
  ms_mirrored_total : Z;
  ms_skipped_total : Z;
  ms_rejected_total : Z;
  ms_last_duration : option Z;
}.
Definition mirror_summary_new (mode : MirrorMode) (rate : f64) : MirrorSummarySnapshot :=
  {| ms_mode := mode; ms_sample_rate := rate; ms_in_flight := 0; ms_dropped_total := 0; ms_timed_out_total := 0;
     ms_mirrored_total := 0; ms_skipped_total := 0; ms_rejected_total := 0; ms_last_duration := None |}.

(** ** Benchmarks and performance *)

Record BenchmarkRunSnapshot := { run_scenario : BenchmarkScenario; run_results : list BenchmarkResult }.

Record PerformanceSnapshot := {
  pf_budgets : list PerformanceBudget;
  pf_regressions : list PerformanceRegressionResult;
  pf_profile_status : ProfileCaptureStatus;
  pf_process_status : ProcessMetricCollectionStatus;
  pf_process_sample : option ProcessMetricSample;
  pf_cpu_per_query : option f64;
  pf_memory_per_client_bytes : option f64;
  pf_protocol_buffer_copies : Z;
  pf_pool_checkout_lock_wait_ms : option f64;
  pf_prepared_cache_hits : Z;
  pf_prepared_cache_misses : Z;
  pf_observability_hot_path_allocations : Z;
  pf_idle_clients : Z;
}.
Definition performance_snapshot_default : PerformanceSnapshot :=
  {| pf_budgets := []; pf_regressions := []; pf_profile_status := NotRequested; pf_process_status := CollectionUnavailable;
     pf_process_sample := None; pf_cpu_per_query := None; pf_memory_per_client_bytes := None; pf_protocol_buffer_copies := 0;
     pf_pool_checkout_lock_wait_ms := None; pf_prepared_cache_hits := 0; pf_prepared_cache_misses := 0;
     pf_observability_hot_path_allocations := 0; pf_idle_clients := 0 |}.

Definition latest_regression_for (p : PerformanceSnapshot) (m : PerformanceMetric) : option PerformanceRegressionResult :=
  find (fun r => bool_decide (regression_metric r = m)) (reverse (pf_regressions p)).

Definition outcome_rank (o : PerformanceBudgetOutcome) : Z :=
  match o with BudgetPassed => 0 | BudgetWarning => 1 | BudgetFailed => 2 end.
(** [max_by_key]: the last of the greatest. *)
Definition worst (best : option PerformanceBudgetOutcome) (o : PerformanceBudgetOutcome) : option PerformanceBudgetOutcome :=
  match best with
  | Some b => Some (if outcome_rank o <? outcome_rank b then b else o)
  | None => Some o
  end.
Definition comparison_outcome (p : PerformanceSnapshot) (scenario : str) (target : BenchmarkComparison)
    : option PerformanceBudgetOutcome :=
  foldl worst None
    (regression_outcome <$> List.filter (fun r =>
        bool_decide (regression_scenario r = scenario)
        && bool_decide (benchmark_target_label_as_str (regression_target r) = comparison_as_str target)) (pf_regressions p)).

(** ** Adaptive operation *)

Record AdaptiveRecommendationSnapshot := {
  ar_signal : AdaptiveSignal;
  ar_action : AdaptiveAction;
  ar_knob : TunableKnob;
  ar_confidence : f64;
  ar_reason : str;
  ar_window : Z;
  ar_safety_bound : TuningBound;
}.
Definition from_recommendation (r : AdaptiveRecommendation) : AdaptiveRecommendationSnapshot :=
  {| ar_signal := rec_signal r; ar_action := Adaptive.rec_action r; ar_knob := rec_knob r; ar_confidence := rec_confidence r;
     ar_reason := rec_reason r; ar_window := from_millis (rec_window_ms r); ar_safety_bound := rec_safety_bound r |}.

(** ** Routes, policies and shards *)

Record RouteSnapshot := { rt_route_key : RouteKey; rt_client_count : Z; rt_backend_count : Z }.
Definition route_snapshot_new (k : RouteKey) : RouteSnapshot :=
  {| rt_route_key := k; rt_client_count := 0; rt_backend_count := 0 |}.

Record RoutePolicySnapshot := {
  rp_route_key : RouteKey;
  rp_primary_count : Z;
  rp_replica_count : Z;
  rp_read_routing_mode : ReadRoutingMode;
  rp_fallback_policy : FallbackPolicy;
  rp_freshness_policy : FreshnessPolicy;
  rp_read_after_write_timeout_ms : Z;
}.
Definition route_policy_snapshot_new (k : RouteKey) : RoutePolicySnapshot :=
  {| rp_route_key := k; rp_primary_count := 0; rp_replica_count := 0; rp_read_routing_mode := ModeOff;
     rp_fallback_policy := FallbackToPrimary; rp_freshness_policy := SessionWriteLsn; rp_read_after_write_timeout_ms := 0 |}.

Record RouteCheckoutSnapshot := {
  rc_route_key : RouteKey;
  rc_decision : RoutingTarget;
  rc_freshness_outcome : option FreshnessStatus;
  rc_required_session_write_lsn : option PgLsn;
}.
#[global] Instance TargetReason_eq_dec : EqDecision TargetReason.
Proof. solve_decision. Defined.
#[global] Instance RoutingTarget_eq_dec : EqDecision RoutingTarget.
Proof. solve_decision. Defined.
(** The derived equality: route keys without their labels. *)
Definition route_checkout_eqb (a b : RouteCheckoutSnapshot) : bool :=
  route_key_eqb (rc_route_key a) (rc_route_key b) && bool_decide (rc_decision a = rc_decision b)
  && bool_decide (rc_freshness_outcome a = rc_freshness_outcome b)
  && bool_decide (rc_required_session_write_lsn a = rc_required_session_write_lsn b).

Record RouteMapReloadSnapshot := {
  rm_route_map_generation_id : Z;
  rm_success : bool;
  rm_error_code : option RouteMapReloadErrorCode;
  rm_draining_shard_ids : list ShardId;
}.
(** [From<&RouteMapReloadResult>]. *)
Definition route_map_reload_snapshot (r : RouteMapReloadResult) : RouteMapReloadSnapshot :=
  {| rm_route_map_generation_id := route_map_generation_id r; rm_success := reload_success r; rm_error_code := error_code r;
     rm_draining_shard_ids := sort_by str_le (reload_draining r) |}.

Record PolicyReloadSnapshot := {
  prl_policy_generation_id : Z;
  prl_success : bool;
  prl_error_code : option PolicyReloadErrorCode;
  prl_error : option str;
}.
(** [From<&PolicyReloadResult>]. *)
Definition policy_reload_snapshot (r : PolicyReloadResult) : PolicyReloadSnapshot :=
  {| prl_policy_generation_id := pr_policy_generation_id r; prl_success := pr_success r; prl_error_code := pr_error_code r;
     prl_error := pr_error r |}.

Record PolicyStatusSnapshot := {
  pstat_policy_id : str;
  pstat_policy_version : Z;
  pstat_policy_mode : PolicyMode;
  pstat_source : str;
  pstat_enabled : bool;
}.
Definition policy_status_snapshot_new (id : str) (version : Z) (mode : PolicyMode) (source : str) : PolicyStatusSnapshot :=
  {| pstat_policy_id := id; pstat_policy_version := version; pstat_policy_mode := mode; pstat_source := source;
     pstat_enabled := match mode with PolicyDisabled => false | _ => true end |}.

Record ShardLifecycleSnapshot := {
  sl_shard_id : ShardId;
  sl_lifecycle_state : ShardLifecycleState;
  sl_drain_policy : ShardDrainPolicy;
}.

(** ** Settings and limits *)

Record SettingsSnapshot := {
  st_listen_addr : SocketAddr;
  st_backend_addr : SocketAddr;
  st_client_tls_mode : ClientTlsMode;
  st_backend_tls_mode : BackendTlsMode;
  st_auth_mode : AuthMode;
  st_auth_failure_message_mode : AuthFailureMessageMode;
  st_backend_user : option str;
  st_backend_reset_query : str;
  st_recovery_mode : RecoveryMode;
  st_reload_enabled : bool;
  st_config_reload_interval : Z;
  st_drain_timeout : Z;
  st_reject_new_clients_during_drain : bool;
  st_health_addr : option SocketAddr;
  st_readiness_backend_check_interval : Z;
  st_readiness_timeout : Z;
  st_metrics_addr : option SocketAddr;
  st_tcp_nodelay : bool;
  st_tcp_keepalive : bool;
  st_tcp_keepalive_idle : option Z;
  st_tcp_keepalive_interval : option Z;
  st_tcp_keepalive_retries : option Z;
  st_tcp_user_timeout : option Z;
  st_tcp_send_buffer_bytes : option Z;
  st_tcp_recv_buffer_bytes : option Z;
  st_strict_socket_option_mode : bool;
}.
Definition settings_default : SettingsSnapshot := {|
  st_listen_addr := V4 0 0; st_backend_addr := V4 0 0; st_client_tls_mode := TlsDisable; st_backend_tls_mode := BackendTlsDisable;
  st_auth_mode := PassThrough; st_auth_failure_message_mode := Generic; st_backend_user := None; st_backend_reset_query := [];
  st_recovery_mode := RecoverMode; st_reload_enabled := false; st_config_reload_interval := 0; st_drain_timeout := 0;
  st_reject_new_clients_during_drain := false; st_health_addr := None; st_readiness_backend_check_interval := 0;
  st_readiness_timeout := 0; st_metrics_addr := None; st_tcp_nodelay := false; st_tcp_keepalive := false;
  st_tcp_keepalive_idle := None; st_tcp_keepalive_interval := None; st_tcp_keepalive_retries := None;
  st_tcp_user_timeout := None; st_tcp_send_buffer_bytes := None; st_tcp_recv_buffer_bytes := None;
  st_strict_socket_option_mode := false |}.
Definition settings_from_config (c : Config) : SettingsSnapshot := {|
  st_listen_addr := listen_addr (connection c); st_backend_addr := backend_addr (connection c);
  st_client_tls_mode := client_tls_mode (tls c); st_backend_tls_mode := backend_tls_mode (tls c);
  st_auth_mode := auth_mode (auth c); st_auth_failure_message_mode := auth_failure_message_mode (auth c);
  st_backend_user := backend_user (auth c); st_backend_reset_query := backend_reset_query (performance c);
  st_recovery_mode := performance_recovery_mode (performance c); st_reload_enabled := reload_enabled (reload c);
  st_config_reload_interval := from_millis (config_reload_interval_ms (reload c));
  st_drain_timeout := from_millis (drain_timeout_ms (drain c));
  st_reject_new_clients_during_drain := reject_new_clients_during_drain (drain c);
  st_health_addr := health_addr (health c);
  st_readiness_backend_check_interval := from_millis (readiness_backend_check_interval_ms (health c));
  st_readiness_timeout := from_millis (readiness_timeout_ms (health c));
  st_metrics_addr := metrics_addr (observability c);
  st_tcp_nodelay := tcp_nodelay (socket c); st_tcp_keepalive := tcp_keepalive (socket c);
  st_tcp_keepalive_idle := from_millis <$> tcp_keepalive_idle_ms (socket c);
  st_tcp_keepalive_interval := from_millis <$> tcp_keepalive_interval_ms (socket c);
  st_tcp_keepalive_retries := tcp_keepalive_retries (socket c);
  st_tcp_user_timeout := from_millis <$> tcp_user_timeout_ms (socket c);
  st_tcp_send_buffer_bytes := tcp_send_buffer_bytes (socket c); st_tcp_recv_buffer_bytes := tcp_recv_buffer_bytes (socket c);
  st_strict_socket_option_mode := strict_socket_option_mode (socket c) |}.

Record LimitsSnapshot := {
  ls_max_clients : Z;
  ls_max_backends : Z;
  ls_max_checkout_waiters : Z;
  ls_max_route_in_flight : Z;
  ls_max_route_waiters : Z;
  ls_checkout_timeout : Z;
  ls_query_timeout : Z;
  ls_idle_client_timeout : Z;
  ls_idle_transaction_timeout : Z;
  ls_max_client_buffer_bytes : Z;
  ls_max_backend_buffer_bytes : Z;
  ls_recovery_timeout : Z;
  ls_drain_timeout : Z;
  ls_readiness_backend_check_interval : Z;
  ls_readiness_timeout : Z;
  ls_config_reload_interval : Z;
  ls_overload_error_code : str;
}.
Definition limits_default : LimitsSnapshot := {|
  ls_max_clients := 0; ls_max_backends := 0; ls_max_checkout_waiters := 0; ls_max_route_in_flight := 0; ls_max_route_waiters := 0;
  ls_checkout_timeout := 0; ls_query_timeout := 0; ls_idle_client_timeout := 0; ls_idle_transaction_timeout := 0;
  ls_max_client_buffer_bytes := 0; ls_max_backend_buffer_bytes := 0; ls_recovery_timeout := 0; ls_drain_timeout := 0;
  ls_readiness_backend_check_interval := 0; ls_readiness_timeout := 0; ls_config_reload_interval := 0;
  ls_overload_error_code := [] |}.
Definition limits_from_config (c : Config) : LimitsSnapshot := {|
  ls_max_clients := max_clients (capacity c); ls_max_backends := max_backends (capacity c);
  ls_max_checkout_waiters := max_checkout_waiters (capacity c);
  ls_max_route_in_flight := qos_max_route_in_flight (qos c); ls_max_route_waiters := qos_max_route_waiters (qos c);
  ls_checkout_timeout := from_millis (checkout_timeout_ms (performance c));
  ls_query_timeout := from_millis (query_timeout_ms (qos c));
  ls_idle_client_timeout := from_millis (idle_client_timeout_ms (qos c));
  ls_idle_transaction_timeout := from_millis (idle_transaction_timeout_ms (qos c));
  ls_max_client_buffer_bytes := qos_max_client_buffer_bytes (qos c);
  ls_max_backend_buffer_bytes := qos_max_backend_buffer_bytes (qos c);
  ls_recovery_timeout := from_millis (recovery_timeout_ms (performance c));
  ls_drain_timeout := from_millis (drain_timeout_ms (drain c));
  ls_readiness_backend_check_interval := from_millis (readiness_backend_check_interval_ms (health c));
  ls_readiness_timeout := from_millis (readiness_timeout_ms (health c));
  ls_config_reload_interval := from_millis (config_reload_interval_ms (reload c));
  ls_overload_error_code := qos_overload_error_code (qos c) |}.
