(* ===== verification/Metrics.v ===== *)
(** * Metrics: what the proxy counts

    Models [pg-kinetic-proxy/src/observe/metrics.rs]. A recorder is a function
    to the samples it gives the metrics library: a name, labels and the
    operation. The library keeps one series for a name and its labels;
    [registry] is that, for counters and gauges. Installing the exporter is
    library code. *)

From stdpp Require Import strings.
From S2P Require Import Prelude Text Lsn RoutingTypes Route Auth Policy Sharding Session ReadRouting Guardrails Recovery F64.
From S2P Require Import Admission Config Adaptive Mirror ShardRouting Drain Lifecycle Health QueryStats Protocol.
From S2P Require Import Observability Labels Performance Benchmark Control SnapshotTypes.

(** ** Samples *)

Inductive MetricOp := Increment (n : Z) | SetTo (x : f64) | Observe (x : f64).
Record Sample := { s_name : string; s_labels : list (string * str); s_op : MetricOp }.
Definition s_kind (s : Sample) : MetricKind :=
  match s_op s with Increment _ => Counter | SetTo _ => Gauge | Observe _ => Histogram end.

Definition counter (name : string) (labels : list (string * str)) (n : Z) : Sample :=
  {| s_name := name; s_labels := labels; s_op := Increment n |}.
Definition gauge (name : string) (labels : list (string * str)) (x : f64) : Sample :=
  {| s_name := name; s_labels := labels; s_op := SetTo x |}.
Definition histogram (name : string) (labels : list (string * str)) (x : f64) : Sample :=
  {| s_name := name; s_labels := labels; s_op := Observe x |}.

Definition text {A} `{Labelled A} (x : A) : str := lit (as_str x).
Definition one_if (b : bool) : f64 := if b then f64_one else f64_zero.
(** One gauge for each state, 1 for the current one. *)
Definition one_hot {A} `{EqDecision A, Labelled A} (name : string) (labels : list (string * str)) (key : string)
    (candidates : list A) (state : A) : list Sample :=
  (fun c => gauge name (labels ++ [(key, text c)]) (one_if (bool_decide (c = state)))) <$> candidates.

(** ** Names and labels *)

(** [constants::MetricName]. *)
Inductive ConstMetric :=
| BackpressureEvents | PoolCheckoutWaitMs | ClientConnectionsTotal | PreparedEventsTotal | BackendPinTotal
| BackendCleanupTotal | BackendRecoveryTotal | BackendSqlstateTotal | ReadAfterWriteTotal | RouteCheckoutWaitMs
| RouteInFlight | RouteWaiting | RouteShedTotal | TimeoutTotal | BufferLimitTotal.
Definition const_metric_as_str (m : ConstMetric) : string :=
  match m with
  | BackpressureEvents => "pg_kinetic_backpressure_events_total"
  | PoolCheckoutWaitMs => "pg_kinetic_pool_checkout_wait_ms"
  | ClientConnectionsTotal => "pg_kinetic_client_connections_total"
  | PreparedEventsTotal => "pg_kinetic_prepared_events_total"
  | BackendPinTotal => "pg_kinetic_backend_pin_total"
  | BackendCleanupTotal => "pg_kinetic_backend_cleanup_total"
  | BackendRecoveryTotal => "pg_kinetic_backend_recovery_total"
  | BackendSqlstateTotal => "pg_kinetic_backend_sqlstate_total"
  | ReadAfterWriteTotal => "pg_kinetic_read_after_write_total"
  | RouteCheckoutWaitMs => "pg_kinetic_route_checkout_wait_ms"
  | RouteInFlight => "pg_kinetic_route_in_flight"
  | RouteWaiting => "pg_kinetic_route_waiting"
  | RouteShedTotal => "pg_kinetic_route_shed_total"
  | TimeoutTotal => "pg_kinetic_timeout_total"
  | BufferLimitTotal => "pg_kinetic_buffer_limit_total"
  end.

Inductive PreparedEvent := EventParse | EventBind | EventMaterialize | EventClose | EventInvalidate.
Definition prepared_event_as_str (e : PreparedEvent) : string :=
  match e with
  | EventParse => "parse" | EventBind => "bind" | EventMaterialize => "materialize" | EventClose => "close"
  | EventInvalidate => "invalidate"
  end.

Inductive OperationalMetricName :=
| TlsHandshakesTotal | TlsFailuresTotal | AuthAttemptsTotal | AuthFailuresTotal | ConfigReloadTotal | DrainStateMetric
| HealthStatusMetric | SocketOptionTotal.
Definition operational_metric_as_str (m : OperationalMetricName) : string :=
  match m with
  | TlsHandshakesTotal => "pg_kinetic_tls_handshakes_total"
  | TlsFailuresTotal => "pg_kinetic_tls_failures_total"
  | AuthAttemptsTotal => "pg_kinetic_auth_attempts_total"
  | AuthFailuresTotal => "pg_kinetic_auth_failures_total"
  | ConfigReloadTotal => "pg_kinetic_config_reload_total"
  | DrainStateMetric => "pg_kinetic_drain_state"
  | HealthStatusMetric => "pg_kinetic_health_status"
  | SocketOptionTotal => "pg_kinetic_socket_option_total"
  end.

Inductive HealthStatus := StatusReady | StatusNotReady | StatusLive | StatusDegraded.
#[global] Instance HealthStatus_eq_dec : EqDecision HealthStatus.
Proof. solve_decision. Defined.
Definition health_status_as_str (s : HealthStatus) : string :=
  match s with
  | StatusReady => "ready" | StatusNotReady => "not_ready" | StatusLive => "live" | StatusDegraded => "degraded"
  end.
#[global] Instance HealthStatus_labelled : Labelled HealthStatus := health_status_as_str.
#[global] Instance HealthStatus_distinct : DistinctLabels HealthStatus.
Proof. distinct_labels. Qed.

Inductive TlsScope := TlsClient | TlsBackend.
Definition tls_scope_metric_label (s : TlsScope) : string :=
  match s with TlsClient => "client" | TlsBackend => "backend" end.
Inductive TlsFailureReason := TlsDenied | TlsHandshakeError | TlsVerificationFailed | TlsIoError.
Definition tls_failure_reason_metric_label (r : TlsFailureReason) : string :=
  match r with
  | TlsDenied => "denied" | TlsHandshakeError => "handshake_error" | TlsVerificationFailed => "verification_failed"
  | TlsIoError => "io_error"
  end.
Inductive AuthFailureReason := UnknownUser | PasswordRequired | InvalidPassword | AuthProtocolError | AuthIoError.
Definition auth_failure_reason_metric_label (r : AuthFailureReason) : string :=
  match r with
  | UnknownUser => "unknown_user" | PasswordRequired => "password_required" | InvalidPassword => "invalid_password"
  | AuthProtocolError => "protocol_error" | AuthIoError => "io_error"
  end.
Inductive ReloadOutcome := ReloadApplied | ReloadRejected | ReloadUnchanged | ReloadError.
Definition reload_outcome_metric_label (o : ReloadOutcome) : string :=
  match o with
  | ReloadApplied => "applied" | ReloadRejected => "rejected" | ReloadUnchanged => "unchanged" | ReloadError => "error"
  end.
Inductive HealthKind := HealthProcess | HealthReady | HealthBackend.
Definition health_kind_metric_label (k : HealthKind) : string :=
  match k with HealthProcess => "process" | HealthReady => "ready" | HealthBackend => "backend" end.
Inductive SocketKind := SocketClient | SocketBackend.
Definition socket_kind_metric_label (k : SocketKind) : string :=
  match k with SocketClient => "client" | SocketBackend => "backend" end.
Inductive SocketOption := TcpNodelay | TcpKeepalive | TcpUserTimeout | TcpSendBufferBytes | TcpRecvBufferBytes.
Definition socket_option_metric_label (o : SocketOption) : string :=
  match o with
  | TcpNodelay => "tcp_nodelay" | TcpKeepalive => "tcp_keepalive" | TcpUserTimeout => "tcp_user_timeout"
  | TcpSendBufferBytes => "tcp_send_buffer_bytes" | TcpRecvBufferBytes => "tcp_recv_buffer_bytes"
  end.
Inductive SocketOptionOutcome := OptionApplied | OptionUnsupported | OptionFailed.
Definition socket_option_outcome_metric_label (o : SocketOptionOutcome) : string :=
  match o with OptionApplied => "applied" | OptionUnsupported => "unsupported" | OptionFailed => "failed" end.

(** FNV-1a over the bytes of a shard's name, in eight buckets. *)
Definition fnv_step (hash byte : Z) : Z := wrap_u 64 (Z.lxor hash byte * 0x100000001b3).
Definition shard_bucket (value : str) : Z := foldl fnv_step 0xcbf29ce484222325 (encode_utf8 value) mod 8.
Definition shard_bucket_label (shard : option str) : str :=
  match shard with Some s => lit "bucket_" ++ fmt_u64 (shard_bucket s) | None => lit "unassigned" end.
Definition route_map_reload_error_code_label (e : option RouteMapReloadErrorCode) : string :=
  match e with Some e => route_map_reload_error_code_as_str e | None => "none" end.
Definition freshness_outcome_label (s : FreshnessStatus) : string :=
  match s with
  | FSatisfied => "satisfied" | FWaiting => "waiting" | FStale => "stale" | FUnknown => "unknown" | FUnavailable => "unavailable"
  end.
Definition endpoint_label (id : Z) : str := fmt_u64 id.
Definition target_role_label (r : option BackendRole) : string :=
  match r with Some r => backend_role_as_str r | None => "unknown" end.
Definition fallback_policy_from_reason (r : TargetReason) : option FallbackPolicy :=
  match r with
  | TFallbackPrimary => Some FallbackToPrimary
  | TFallbackReject => Some FallbackRejects
  | TFallbackWait => Some FallbackWaits
  | _ => None
  end.

(** [Duration::as_secs_f64() * 1_000.0]. *)
Definition as_ms (d : Z) : f64 := latency_ms d.
Definition count (n : Z) : f64 := f64_of_Z n.

(** ** Pools and failures *)

Definition record_pool_checkout (wait_ms : f64) (stage outcome : string) : list Sample :=
  histogram (const_metric_as_str PoolCheckoutWaitMs) [("stage", lit stage); ("outcome", lit outcome)] wait_ms
  :: if String.eqb stage "route_gate_registry"
     then [histogram (metric_name_as_str MPoolCheckoutLockWaitMs) [("outcome", lit outcome)] wait_ms] else [].
Definition record_breaker_state (backend state : str) : list Sample :=
  [gauge (metric_name_as_str MBreakerState) [("backend", backend); ("state", state)] f64_one].
Definition record_breaker_fast_rejection : list Sample := [counter (metric_name_as_str MBreakerFastRejectionsTotal) [] 1].
Definition record_hedge_decision (outcome reason : string) : list Sample :=
  [counter (metric_name_as_str MHedgeDecisionsTotal) [("outcome", lit outcome); ("reason", lit reason)] 1].
Definition record_failover_survived : list Sample := [counter (metric_name_as_str MFailoverSurvivedTotal) [] 1].
Definition record_failover_failed : list Sample := [counter (metric_name_as_str MFailoverFailedTotal) [] 1].
Definition record_pool_connections (active idle : Z) : list Sample :=
  (fun sv => gauge "pg_kinetic_pool_connections" [("state", lit sv.1)] (count sv.2)) <$> [("active"%string, active); ("idle"%string, idle)].
Definition record_pool_eviction (reason : string) : list Sample :=
  [counter "pg_kinetic_pool_evictions_total" [("reason", lit reason)] 1].
Definition record_pool_checkout_lock_wait (wait_ms : f64) : list Sample :=
  [histogram (metric_name_as_str MPoolCheckoutLockWaitMs) [("outcome", lit "ok")] wait_ms].

(** ** The runtime *)

Definition lifecycle_states : list RuntimeLifecycleState := [Starting; Lifecycle.Ready; Lifecycle.Draining; Stopping; Stopped].
Definition readiness_states : list ReadinessState := [RReady; RNotReady; RDraining].
Definition record_runtime_lifecycle_state (s : RuntimeLifecycleState) : list Sample :=
  one_hot (metric_name_as_str MRuntimeLifecycleState) [] "state" lifecycle_states s.
Definition record_runtime_readiness_state (s : ReadinessState) : list Sample :=
  one_hot (metric_name_as_str MRuntimeReadinessState) [] "state" readiness_states s.
Definition record_runtime_shutdown (r : ShutdownReason) : list Sample :=
  [counter (metric_name_as_str MRuntimeShutdownTotal) [("reason", text r)] 1].
Definition record_runtime_snapshot (s : RuntimeSnapshot) : list Sample :=
  record_runtime_lifecycle_state (rs_lifecycle_state s) ++ record_runtime_readiness_state (rs_readiness_state s)
  ++ match rs_shutdown_reason s with Some r => record_runtime_shutdown r | None => [] end.
Definition record_node_heartbeat_age (node : str) (age : Z) : list Sample :=
  [gauge (metric_name_as_str MNodeHeartbeatAgeMs) [("node", node)] (as_ms age)].

(** ** Mirroring, adaptation, pressure *)

Definition mirror_decision (s : MirrorSummarySnapshot) (outcome : string) (total : Z) : list Sample :=
  if 0 <? total
  then [counter (metric_name_as_str MMirrorDecisionsTotal)
          [("mode", text (ms_mode s)); ("target", lit "mirror"); ("outcome", lit outcome)] total]
  else [].
Definition mirror_last_outcome (s : MirrorSummarySnapshot) : string :=
  if 0 <? ms_mirrored_total s then "mirrored" else if 0 <? ms_skipped_total s then "skipped"
  else if 0 <? ms_rejected_total s then "rejected" else "timeout".
Definition record_mirror_snapshot (s : MirrorSummarySnapshot) : list Sample :=
  gauge (metric_name_as_str MMirrorInFlight) [("mode", text (ms_mode s)); ("target", lit "mirror")] (count (ms_in_flight s))
  :: (if 0 <? ms_dropped_total s
      then [counter (metric_name_as_str MMirrorDroppedTotal) [("mode", text (ms_mode s)); ("reason", lit "sampled_out")]
              (ms_dropped_total s)]
      else [])
  ++ mirror_decision s "timeout" (ms_timed_out_total s)
  ++ mirror_decision s "mirrored" (ms_mirrored_total s)
  ++ mirror_decision s "skipped" (ms_skipped_total s)
  ++ mirror_decision s "rejected" (ms_rejected_total s)
  ++ match ms_last_duration s with
     | Some d => [histogram (metric_name_as_str MMirrorDurationMs)
                    [("mode", text (ms_mode s)); ("target", lit "mirror"); ("outcome", lit (mirror_last_outcome s))] (as_ms d)]
     | None => []
     end.
Definition record_adaptive_recommendation (s : AdaptiveRecommendationSnapshot) : list Sample :=
  [counter (metric_name_as_str MAdaptiveRecommendationsTotal)
     [("mode", lit "recommend"); ("target", knob_as_str (ar_knob s)); ("outcome", text (ar_action s))] 1].
Definition record_adaptive_outcome (s : AdaptiveOutcomeSnapshot) : list Sample :=
  [counter (metric_name_as_str MAdaptiveApplyTotal)
     [("mode", lit "apply"); ("target", knob_as_str (out_knob s)); ("outcome", text (out_outcome s))] 1].
Definition record_pressure_snapshot (s : PressureReport) : list Sample :=
  match prs_cpu_some_avg10 s with Some x => [gauge (metric_name_as_str MPressureCpu) [] x] | None => [] end
  ++ match prs_mem_some_avg10 s with Some x => [gauge (metric_name_as_str MPressureMem) [] x] | None => [] end.

(** ** Benchmarks and performance *)

Definition benchmark_samples (scenario : BenchmarkScenario) (r : BenchmarkResult) : list Sample :=
  let target := lit (target_metric_label (result_target r)) in
  let workload := text (workload scenario) in
  let driver := text (result_driver r) in
  let where_ := [("scenario", lit (scenario_metric_label scenario)); ("target", target); ("workload", workload); ("driver", driver)] in
  let ms := result_metrics r in
  counter (metric_name_as_str MBenchmarkRunsTotal) [("engine", driver); ("target", target); ("outcome", lit "ok")] 1
  :: ((fun mv => histogram (metric_name_as_str MBenchmarkLatencyMs) (where_ ++ [("metric", lit mv.1)]) mv.2)
        <$> [("p50"%string, p50_ms ms); ("p95"%string, p95_ms ms); ("p99"%string, p99_ms ms)])
  ++ [histogram (metric_name_as_str MBenchmarkThroughputQps) where_ (throughput_qps ms)]
  ++ if f64_lt f64_zero (error_rate ms)
     then [counter (metric_name_as_str MBenchmarkErrorsTotal) (where_ ++ [("outcome", lit "nonzero_error_rate")]) 1] else [].
Definition record_benchmark_run (s : BenchmarkRunSnapshot) : list Sample := run_results s ≫= benchmark_samples (run_scenario s).

Definition record_prepared_cache_totals (hits misses : Z) : list Sample :=
  [gauge (metric_name_as_str MPreparedCacheHitsTotal) [] (count hits);
   gauge (metric_name_as_str MPreparedCacheMissesTotal) [] (count misses)].
Definition budget_outcomes : list PerformanceBudgetOutcome := [BudgetPassed; BudgetWarning; BudgetFailed].
Definition optional_gauge (name : string) (x : option f64) : list Sample :=
  match x with Some x => [gauge name [] x] | None => [] end.
Definition record_performance_snapshot (s : PerformanceSnapshot) : list Sample :=
  (pf_regressions s ≫= fun r =>
     one_hot (metric_name_as_str MPerformanceBudgetStatus) [("metric", text (regression_metric r))] "outcome" budget_outcomes
       (regression_outcome r))
  ++ match pf_process_sample s with
     | Some sample =>
         optional_gauge (metric_name_as_str MProcessCpuSeconds) (value_as_f64 (sample_metric sample CpuTime))
         ++ optional_gauge (metric_name_as_str MProcessResidentMemoryBytes) (value_as_f64 (sample_metric sample ResidentMemory))
     | None => []
     end
  ++ optional_gauge (metric_name_as_str MCpuPerQuery) (pf_cpu_per_query s)
  ++ optional_gauge (metric_name_as_str MMemoryPerClientBytes) (pf_memory_per_client_bytes s)
  ++ [gauge (metric_name_as_str MProtocolBufferCopiesTotal) [("feature", lit "protocol")] (count (pf_protocol_buffer_copies s))]
  ++ record_prepared_cache_totals (pf_prepared_cache_hits s) (pf_prepared_cache_misses s)
  ++ [gauge (metric_name_as_str MObservabilityHotPathAllocationsTotal) [("feature", lit "metrics")]
        (count (pf_observability_hot_path_allocations s));
      gauge (metric_name_as_str MIdleClients) [] (count (pf_idle_clients s))].

(** ** Phases *)

Definition protocol_phase_index (p : ProtocolPhase) : nat :=
  match p with
  | PhaseStartup => 0 | PhaseAuth => 1 | PhaseTlsHandshake => 2 | PhaseBackendCheckout => 3 | PhaseParse => 4 | PhaseBind => 5
  | PhaseExecute => 6 | PhaseRows => 7 | PhaseDrain => 8 | PhaseReset => 9 | PhaseCancel => 10 | PhaseClose => 11
  end.
Definition metric_outcome_index (o : MetricOutcome) : nat :=
  match o with
  | MetricOk => 0 | MetricError => 1 | MetricTimeout => 2 | MetricRejected => 3 | MetricCanceled => 4 | MetricDiscarded => 5
  end.
Definition PROTOCOL_PHASE_COUNT : nat := 12.
Definition METRIC_OUTCOME_COUNT : nat := 6.

(** The table of histograms, made when they are first used: a cell holds the
    labels its histogram was made with. *)
Abbreviation PhaseTable := (list (list (option (list (string * str))))).
Definition protocol_phase_histograms : PhaseTable := replicate PROTOCOL_PHASE_COUNT (replicate METRIC_OUTCOME_COUNT None).
Definition protocol_phase_histogram (t : PhaseTable) (p : ProtocolPhase) (o : MetricOutcome)
    : result unit (PhaseTable * list (string * str)) :=
  match t !! protocol_phase_index p with
  | Some row =>
      match row !! metric_outcome_index o with
      | Some (Some labels) => Ok (t, labels)
      | Some None =>
          let labels := [("phase"%string, text p); ("outcome"%string, text o)] in
          Ok (<[protocol_phase_index p := <[metric_outcome_index o := Some labels]> row]> t, labels)
      | None => Panic
      end
  | None => Panic
  end.
Definition record_protocol_phase_duration (t : PhaseTable) (p : ProtocolPhase) (o : MetricOutcome) (d : Z)
    : result unit (PhaseTable * list Sample) :=
  '(t, labels) ← protocol_phase_histogram t p o;
  Ok (t, [histogram (metric_name_as_str MProtocolPhaseDuration) labels (as_ms d)]).
(** [sampled] is the answer of the session's sampler. *)
Definition record_protocol_phase_duration_sampled (t : PhaseTable) (p : ProtocolPhase) (o : MetricOutcome) (d : Z) (sampled : bool)
    : result unit (PhaseTable * list Sample) :=
  if sampled then record_protocol_phase_duration t p o d else Ok (t, []).

(** ** Routes and replicas *)

Definition target_reason (t : RoutingTarget) : TargetReason :=
  match t with ToPrimary r | ToReplica _ r | ToWait r | ToReject r => r end.
Definition increment_read_after_write_rejection (route : RouteKey) (o : FreshnessStatus) : list Sample :=
  [counter (metric_name_as_str MReadAfterWriteRejectionsTotal)
     [("route", rk_metric_label route); ("outcome", lit (freshness_outcome_label o))] 1].
Definition record_route_checkout_snapshot (s : RouteCheckoutSnapshot) : list Sample :=
  let route := rk_metric_label (rc_route_key s) in
  let reason := target_reason (rc_decision s) in
  counter (metric_name_as_str MRouteDecisionsTotal)
    [("route", route); ("target_role", lit (target_role_label (target_backend_role (rc_decision s))));
     ("query_class", RouteClass.label (rk_query_class (rc_route_key s)))] 1
  :: match fallback_policy_from_reason reason with
     | Some policy => [counter (metric_name_as_str MRouteFallbacksTotal)
                         [("route", route); ("reason", text reason); ("fallback_policy", text policy)] 1]
     | None => []
     end
  ++ match rc_decision s, rc_freshness_outcome s with
     | ToReject _, Some o => increment_read_after_write_rejection (rc_route_key s) o
     | _, _ => []
     end.
Definition endpoint_healths : list EndpointHealth := [Healthy; Degraded; Unhealthy; Unavailable].
Definition lag_states : list ReplicaLagState := [LagUnknown; LagFresh; LagLagging].
#[global] Instance ReplicaLagState_eq_dec : EqDecision ReplicaLagState.
Proof. solve_decision. Defined.
Definition record_replica_health_snapshot (s : ReplicaReport) : list Sample :=
  let endpoint := endpoint_label (rh_endpoint_id s) in
  let lag_ms := from_option as_ms f64_zero (rh_lag_duration s) in
  one_hot (metric_name_as_str MReplicaHealth) [("endpoint", endpoint)] "health" endpoint_healths (health_state (rh_health s))
  ++ ((fun c => gauge (metric_name_as_str MReplicaLagMs) [("endpoint", endpoint); ("lag_state", text c)]
                  (if bool_decide (c = rh_lag_state s) then lag_ms else f64_zero)) <$> lag_states)
  ++ [gauge (metric_name_as_str MReplicaReplayLsn) [("endpoint", endpoint); ("target_role", text (rh_expected_role s))]
        (from_option count f64_zero (rh_replay_lsn s))].
Definition record_split_brain_warning (id : Z) (expected : BackendRole) : list Sample :=
  [counter (metric_name_as_str MSplitBrainWarningsTotal)
     [("endpoint", endpoint_label id); ("target_role", text expected); ("reason", lit "role_mismatch")] 1].
Definition record_read_after_write_wait (route : RouteKey) (wait_ms : f64) (o : FreshnessStatus) : list Sample :=
  [histogram (metric_name_as_str MReadAfterWriteWaitMs)
     [("route", rk_metric_label route); ("outcome", lit (freshness_outcome_label o))] wait_ms].
Definition record_read_after_write (o : FreshnessStatus) : list Sample :=
  [counter (const_metric_as_str ReadAfterWriteTotal) [("outcome", lit (freshness_outcome_label o))] 1].

(** ** Shards *)

Definition record_shard_route_decision (route : RouteKey) (shard : option str) (strategy : ShardStrategy) (reason : ShardRouteReason)
    (outcome : string) : list Sample :=
  [counter (metric_name_as_str MShardRouteDecisionsTotal)
     [("route", rk_metric_label route); ("shard", shard_bucket_label shard); ("strategy", text strategy); ("reason", text reason);
      ("outcome", lit outcome)] 1].
Definition record_shard_multi_shard_rejection (route : RouteKey) (shard : option str) (policy : MultiShardPolicy)
    (reason : ShardRouteReason) (outcome : string) : list Sample :=
  [counter (metric_name_as_str MShardMultiShardRejectionsTotal)
     [("route", rk_metric_label route); ("shard", shard_bucket_label shard); ("policy", text policy); ("reason", text reason);
      ("outcome", lit outcome)] 1].
Definition record_shard_primary_fallback (route : RouteKey) (shard : option str) (policy : MultiShardPolicy) (outcome : string)
    : list Sample :=
  [counter (metric_name_as_str MShardPrimaryFallbacksTotal)
     [("route", rk_metric_label route); ("shard", shard_bucket_label shard); ("policy", text policy); ("outcome", lit outcome)] 1].
Definition success_label (ok : bool) : str := if ok then lit "success" else lit "failure".
Definition record_route_map_reload_snapshot (s : RouteMapReloadSnapshot) : list Sample :=
  [counter (metric_name_as_str MRouteMapReloadTotal)
     [("outcome", success_label (rm_success s)); ("error_code", lit (route_map_reload_error_code_label (rm_error_code s)))] 1;
   gauge (metric_name_as_str MRouteMapGeneration) [] (count (rm_route_map_generation_id s))].
Definition shard_lifecycle_states : list ShardLifecycleState :=
  [Active; Sharding.Draining; Readonly; Disabled].
#[global] Instance ShardLifecycleState_eq_dec : EqDecision ShardLifecycleState.
Proof. solve_decision. Defined.
Definition record_shard_lifecycle_snapshot (s : ShardLifecycleSnapshot) : list Sample :=
  one_hot (metric_name_as_str MShardLifecycleState) [("shard", shard_bucket_label (Some (sl_shard_id s)))] "lifecycle_state"
    shard_lifecycle_states (sl_lifecycle_state s).
Definition record_shard_migration_safety_snapshot (p : ShardRebalancePlan) : list Sample :=
  match safety_report p with
  | None => []
  | Some report =>
      source_shard_ids p ≫= fun id =>
        let shard := shard_bucket_label (Some id) in
        [gauge (metric_name_as_str MShardActiveTransactions) [("shard", shard)] (count (len (open_transaction_ids report)));
         gauge (metric_name_as_str MShardPreparedStatements) [("shard", shard)] (count (len (prepared_statements report)))]
  end.

(** ** Sessions *)

Definition increment_client_connections : list Sample := [counter (const_metric_as_str ClientConnectionsTotal) [] 1].
Definition increment_prepared_event (e : PreparedEvent) : list Sample :=
  [counter (const_metric_as_str PreparedEventsTotal) [("event", lit (prepared_event_as_str e))] 1].
Definition increment_pin (r : Virtual.PinReason) : list Sample :=
  [counter (const_metric_as_str BackendPinTotal) [("reason", text r)] 1].
Definition increment_cleanup (a : CleanupAction) : list Sample :=
  [counter (const_metric_as_str BackendCleanupTotal) [("action", text a)] 1].
Definition increment_recovery (t : RecoveryTrigger) (a : RecoveryAction) (outcome : string) : list Sample :=
  [counter (const_metric_as_str BackendRecoveryTotal) [("trigger", text t); ("action", text a); ("outcome", lit outcome)] 1].
Definition increment_sqlstate (s : SqlState) : list Sample :=
  [counter (const_metric_as_str BackendSqlstateTotal) [("sqlstate", sqlstate_as_str s)] 1].
Definition increment_backpressure_event (route : RouteKey) (outcome : string) : list Sample :=
  [counter (const_metric_as_str BackpressureEvents) [("route", rk_metric_label route); ("outcome", lit outcome)] 1].
Definition increment_route_shed (route : RouteKey) (priority : string) : list Sample :=
  [counter (const_metric_as_str RouteShedTotal) [("route", rk_metric_label route); ("priority", lit priority)] 1].
Definition record_route_wait (route : RouteKey) (wait_ms : f64) (outcome : string) : list Sample :=
  [histogram (const_metric_as_str RouteCheckoutWaitMs) [("route", rk_metric_label route); ("outcome", lit outcome)] wait_ms].
Definition record_route_in_flight (route : RouteKey) (n : Z) : list Sample :=
  [gauge (const_metric_as_str RouteInFlight) [("route", rk_metric_label route); ("scope", lit "route")] (count n)].
Definition record_route_waiting (route : RouteKey) (n : Z) : list Sample :=
  [gauge (const_metric_as_str RouteWaiting) [("route", rk_metric_label route); ("scope", lit "route")] (count n)].
Definition increment_timeout (kind : string) : list Sample := [counter (const_metric_as_str TimeoutTotal) [("kind", lit kind)] 1].
Definition increment_buffer_limit (kind : string) : list Sample :=
  [counter (const_metric_as_str BufferLimitTotal) [("kind", lit kind)] 1].

Definition record_query_stat `{Hashing} (shards : list Shard) (fp : str) (latency rows : Z) (error : bool) : list Sample :=
  let bucket := metric_bucket shards fp in
  [counter "pg_kinetic_query_count_total" [("query", bucket)] 1;
   histogram "pg_kinetic_query_latency_ms" [("query", bucket)] (as_ms latency);
   counter "pg_kinetic_query_rows_total" [("query", bucket)] rows]
  ++ if error then [counter "pg_kinetic_query_errors_total" [("query", bucket)] 1] else [].
Definition record_audit_record : list Sample := [counter "pg_kinetic_audit_records_total" [] 1].
Definition record_audit_drop : list Sample := [counter "pg_kinetic_audit_dropped_total" [] 1].
Definition record_guardrail_denial (r : GuardrailRule) : list Sample :=
  [counter "pg_kinetic_guardrail_denials_total" [("rule", text r)] 1].

(** ** The handles of a route *)

(** A handle is made with the name and the labels of its series; histograms
    are recorded to and gauges are set. *)
Record HistogramHandle := { histogram_name : string; histogram_labels : list (string * str) }.
Record GaugeHandle := { gauge_name : string; gauge_labels : list (string * str) }.
Definition handle_record (h : HistogramHandle) (x : f64) : Sample := histogram (histogram_name h) (histogram_labels h) x.
Definition handle_set (h : GaugeHandle) (x : f64) : Sample := gauge (gauge_name h) (gauge_labels h) x.

Record RouteMetricHandles := {
  handle_checkout_wait_ok : HistogramHandle;
  handle_route_wait_ok : HistogramHandle;
  handle_in_flight : GaugeHandle;
  handle_waiting : GaugeHandle;
}.
Definition route_metric_handles_resolve (route : RouteKey) : RouteMetricHandles :=
  let route_label := rk_metric_label route in
  {| handle_checkout_wait_ok :=
       {| histogram_name := const_metric_as_str PoolCheckoutWaitMs;
          histogram_labels := [("stage"%string, lit "checkout"); ("outcome"%string, lit "ok")] |};
     handle_route_wait_ok :=
       {| histogram_name := const_metric_as_str RouteCheckoutWaitMs;
          histogram_labels := [("route"%string, route_label); ("outcome"%string, lit "ok")] |};
     handle_in_flight :=
       {| gauge_name := const_metric_as_str RouteInFlight;
          gauge_labels := [("route"%string, route_label); ("scope"%string, lit "route")] |};
     handle_waiting :=
       {| gauge_name := const_metric_as_str RouteWaiting;
          gauge_labels := [("route"%string, route_label); ("scope"%string, lit "route")] |} |}.
(** A checkout that passed both gates, in [pool.rs]. *)
Definition checkout_admitted_samples (route : RouteKey) (wait_ms : f64) (in_flight waiting : Z) : list Sample :=
  let h := route_metric_handles_resolve route in
  [handle_record (handle_route_wait_ok h) wait_ms; handle_set (handle_in_flight h) (count in_flight);
   handle_set (handle_waiting h) (count waiting)].

(** ** Operations *)

Definition tls_mode_label (m : ClientTlsMode + BackendTlsMode) : str := match m with inl m => text m | inr m => text m end.
Definition record_tls_handshake (s : TlsScope) (m : ClientTlsMode + BackendTlsMode) : list Sample :=
  [counter (operational_metric_as_str TlsHandshakesTotal) [("scope", lit (tls_scope_metric_label s)); ("mode", tls_mode_label m)] 1].
Definition record_tls_failure (s : TlsScope) (m : ClientTlsMode + BackendTlsMode) (r : TlsFailureReason) : list Sample :=
  [counter (operational_metric_as_str TlsFailuresTotal)
     [("scope", lit (tls_scope_metric_label s)); ("mode", tls_mode_label m); ("reason", lit (tls_failure_reason_metric_label r))] 1].
Definition record_auth_attempt (m : AuthMode) : list Sample :=
  [counter (operational_metric_as_str AuthAttemptsTotal) [("mode", text m)] 1].
Definition record_auth_failure (m : AuthMode) (r : AuthFailureReason) : list Sample :=
  [counter (operational_metric_as_str AuthFailuresTotal) [("mode", text m); ("reason", lit (auth_failure_reason_metric_label r))] 1].
Definition record_config_reload (o : ReloadOutcome) : list Sample :=
  [counter (operational_metric_as_str ConfigReloadTotal) [("outcome", lit (reload_outcome_metric_label o))] 1].
Definition drain_states : list Drain.DrainState := [Drain.Accepting; Drain.Draining; Drain.Drained].
Definition record_drain_state (s : Drain.DrainState) : list Sample :=
  one_hot (operational_metric_as_str DrainStateMetric) [] "state" drain_states s.
Definition health_statuses : list HealthStatus := [StatusReady; StatusNotReady; StatusLive; StatusDegraded].
Definition record_health_status (k : HealthKind) (s : HealthStatus) : list Sample :=
  one_hot (operational_metric_as_str HealthStatusMetric) [("kind", lit (health_kind_metric_label k))] "status" health_statuses s.
Definition record_socket_option (k : SocketKind) (o : SocketOption) (outcome : SocketOptionOutcome) : list Sample :=
  [counter (operational_metric_as_str SocketOptionTotal)
     [("socket", lit (socket_kind_metric_label k)); ("option", lit (socket_option_metric_label o));
      ("outcome", lit (socket_option_outcome_metric_label outcome))] 1].
Definition record_preflight_finding (check severity : str) : list Sample :=
  [counter (metric_name_as_str MPreflightFindingsTotal) [("check", check); ("severity", severity)] 1].

(** ** Policies *)

Definition policy_action_as_str (a : PolicyAction) : string :=
  match a with
  | ActAllow => "allow" | ActDeny _ _ => "deny" | ActRequirePrimary => "require_primary"
  | ActRequireReplica => "require_replica" | ActRouteOverride _ => "route_override" | ActShardOverride _ => "shard_override"
  end.
Definition record_policy_decision (mode : PolicyMode) (e : PolicyAuditEvent) : list Sample :=
  let d := ev_decision e in
  let policy := pd_policy_id d in
  [counter (metric_name_as_str MPolicyDecisionsTotal)
     [("policy", policy); ("mode", text mode); ("hook", text (pd_hook_point d)); ("action", lit (policy_action_as_str (pd_action d)));
      ("outcome", text (pd_outcome d))] 1;
   histogram (metric_name_as_str MPolicyEvalDurationMs)
     [("policy", policy); ("mode", text mode); ("hook", text (pd_hook_point d)); ("outcome", text (pd_outcome d))]
     (as_ms (pd_latency d))]
  ++ match pd_outcome d with
     | Policy.OutcomeDryRun =>
         [counter (metric_name_as_str MPolicyDryRunTotal)
            [("policy", policy); ("mode", text mode); ("hook", text (pd_hook_point d));
             ("action", lit (policy_action_as_str (pd_action d)))] 1]
     | _ => []
     end
  ++ match pd_action d with
     | ActDeny reason _ => [counter (metric_name_as_str MPolicyDeniesTotal) [("policy", policy); ("reason", text reason)] 1]
     | _ => []
     end.
Definition record_policy_audit_event (mode : PolicyMode) (e : PolicyAuditEvent) : list Sample :=
  let d := ev_decision e in
  counter (metric_name_as_str MPolicyAuditEventsTotal)
    [("policy", pd_policy_id d); ("mode", text mode); ("hook", text (pd_hook_point d));
     ("action", lit (policy_action_as_str (pd_action d))); ("outcome", text (pd_outcome d));
     ("reason", default (lit "none") (ev_reason e))] 1
  :: match ev_kind e with AuditDecision => record_policy_decision mode e | _ => [] end.
Definition record_policy_active (source : string) (mode : PolicyMode) : list Sample :=
  [gauge (metric_name_as_str MPolicyActive) [("source", lit source); ("mode", text mode)] f64_one].
Definition record_policy_reload (source : string) (mode : PolicyMode) (success : bool) (code : option string) : list Sample :=
  counter (metric_name_as_str MPolicyReloadTotal)
    [("source", lit source); ("mode", text mode); ("outcome", success_label success);
     ("error_code", lit (default "none"%string code))] 1
  :: if success then record_policy_active source mode else [].
Definition record_policy_wasm_eval (source : string) (mode : PolicyMode) (hook : PolicyHookPoint) (o : PolicyOutcome)
    (code : option string) (d : Z) : list Sample :=
  [counter (metric_name_as_str MPolicyWasmEvalTotal)
     [("source", lit source); ("mode", text mode); ("hook", text hook); ("outcome", text o);
      ("error_code", lit (default "none"%string code))] 1;
   histogram (metric_name_as_str MPolicyWasmEvalDurationMs)
     [("source", lit source); ("mode", text mode); ("hook", text hook); ("outcome", text o)] (as_ms d)].

(** ** Series that other modules record themselves *)

(** [ops/lifecycle.rs], under names of its own. *)
Definition LIFECYCLE_STATE_METRIC : string := "pg_kinetic_runtime_lifecycle_state".
Definition READINESS_STATE_METRIC : string := "pg_kinetic_runtime_readiness_state".
Definition SHUTDOWN_TOTAL_METRIC : string := "pg_kinetic_runtime_shutdown_total".
Definition record_lifecycle_metrics (s : RuntimeLifecycleState) (r : ReadinessState) : list Sample :=
  one_hot LIFECYCLE_STATE_METRIC [] "state" lifecycle_states s ++ one_hot READINESS_STATE_METRIC [] "state" readiness_states r.
Definition begin_drain_metric (r : ShutdownReason) : list Sample := [counter SHUTDOWN_TOTAL_METRIC [("reason", text r)] 1].
(** [ops/reload.rs] and [ops/admin.rs]. *)
Definition reload_metric (o : ReloadOutcome) : list Sample :=
  [counter "pg_kinetic_config_reload_total"
     [("outcome", lit match o with
                      | ReloadApplied => "applied" | ReloadRejected => "rejected" | ReloadUnchanged => "unchanged"
                      | ReloadError => "error"
                      end)] 1].
(** [net/socket.rs]. *)
Definition socket_option_metric (socket option : string) (o : SocketOptionOutcome) : list Sample :=
  [counter "pg_kinetic_socket_option_total"
     [("socket", lit socket); ("option", lit option);
      ("outcome", lit match o with OptionApplied => "applied" | OptionUnsupported => "unsupported" | OptionFailed => "failed" end)] 1].
(** [handle_query_timeout], [handle_idle_timeout] and their counterparts of
    the io_uring session. *)
Definition query_timeout_metric : list Sample := [counter (const_metric_as_str TimeoutTotal) [("kind", lit "query")] 1].
Definition idle_timeout_metric (in_transaction : bool) : list Sample :=
  [counter (const_metric_as_str TimeoutTotal) [("kind", lit (if in_transaction then "idle_transaction" else "idle_client"))] 1].
(** [proxy/buffer_limit.rs]. *)
Definition record_buffer_limit (kind : string) : list Sample :=
  [counter (const_metric_as_str BufferLimitTotal) [("kind", lit kind)] 1].

(** ** Every recorder *)

Inductive Recording :=
| RPoolCheckout (wait_ms : f64) (stage outcome : string)
| RBreakerState (backend state : str)
| RBreakerFastRejection
| RHedgeDecision (outcome reason : string)
| RFailoverSurvived
| RFailoverFailed
| RPoolConnections (active idle : Z)
| RPoolEviction (reason : string)
| RPoolCheckoutLockWait (wait_ms : f64)
| RRuntimeSnapshot (s : RuntimeSnapshot)
| RNodeHeartbeatAge (node : str) (age : Z)
| RMirrorSnapshot (s : MirrorSummarySnapshot)
| RAdaptiveRecommendation (s : AdaptiveRecommendationSnapshot)
| RAdaptiveOutcome (s : AdaptiveOutcomeSnapshot)
| RPressureSnapshot (s : PressureReport)
| RBenchmarkRun (s : BenchmarkRunSnapshot)
| RPerformanceSnapshot (s : PerformanceSnapshot)
| RPreparedCacheTotals (hits misses : Z)
| RPreflightFinding (check severity : str)
| RRouteCheckoutSnapshot (s : RouteCheckoutSnapshot)
| RReplicaHealthSnapshot (s : ReplicaReport)
| RSplitBrainWarning (id : Z) (expected : BackendRole)
| RReadAfterWriteWait (route : RouteKey) (wait_ms : f64) (o : FreshnessStatus)
| RReadAfterWrite (o : FreshnessStatus)
| RShardRouteDecision (route : RouteKey) (shard : option str) (st : ShardStrategy) (r : ShardRouteReason) (outcome : string)
| RShardMultiShardRejection (route : RouteKey) (shard : option str) (p : MultiShardPolicy) (r : ShardRouteReason) (outcome : string)
| RShardPrimaryFallback (route : RouteKey) (shard : option str) (p : MultiShardPolicy) (outcome : string)
| RRouteMapReloadSnapshot (s : RouteMapReloadSnapshot)
| RShardLifecycleSnapshot (s : ShardLifecycleSnapshot)
| RShardMigrationSafety (p : ShardRebalancePlan)
| RClientConnection
| RPreparedEvent (e : PreparedEvent)
| RPin (r : Virtual.PinReason)
| RCleanup (a : CleanupAction)
| RRecovery (t : RecoveryTrigger) (a : RecoveryAction) (outcome : string)
| RSqlstate (s : SqlState)
| RBackpressureEvent (route : RouteKey) (outcome : string)
| RRouteShed (route : RouteKey) (priority : string)
| RRouteWait (route : RouteKey) (wait_ms : f64) (outcome : string)
| RRouteInFlight (route : RouteKey) (n : Z)
| RRouteWaiting (route : RouteKey) (n : Z)
| RTimeout (kind : string)
| RBufferLimit (kind : string)
| RQueryStat (shards : list Shard) (fp : str) (latency rows : Z) (error : bool)
| RAuditRecord
| RAuditDrop
| RGuardrailDenial (r : GuardrailRule)
| RTlsHandshake (s : TlsScope) (m : ClientTlsMode + BackendTlsMode)
| RTlsFailure (s : TlsScope) (m : ClientTlsMode + BackendTlsMode) (r : TlsFailureReason)
| RAuthAttempt (m : AuthMode)
| RAuthFailure (m : AuthMode) (r : AuthFailureReason)
| RConfigReload (o : ReloadOutcome)
| RPolicyAuditEvent (mode : PolicyMode) (e : PolicyAuditEvent)
| RPolicyReload (source : string) (mode : PolicyMode) (success : bool) (code : option string)
| RPolicyWasmEval (source : string) (mode : PolicyMode) (hook : PolicyHookPoint) (o : PolicyOutcome) (code : option string) (d : Z)
| RDrainState (s : Drain.DrainState)
| RHealthStatus (k : HealthKind) (s : HealthStatus)
| RSocketOption (k : SocketKind) (o : SocketOption) (outcome : SocketOptionOutcome)
| RProtocolPhase (p : ProtocolPhase) (o : MetricOutcome) (d : Z)
| RProtocolPhaseSampled (p : ProtocolPhase) (o : MetricOutcome) (d : Z) (sampled : bool)
| RHandleCheckoutWait (route : RouteKey) (wait_ms : f64)
| RCheckoutAdmitted (route : RouteKey) (wait_ms : f64) (in_flight waiting : Z)
| RLifecycleMetrics (s : RuntimeLifecycleState) (r : ReadinessState)
| RDrainBegun (r : ShutdownReason)
| RReloadMetric (o : ReloadOutcome)
| RSocketMetric (socket option : string) (o : SocketOptionOutcome)
| RQueryTimeout
| RIdleTimeout (in_transaction : bool)
| RBufferLimitRecorded (kind : string).

(** One call: the table of phase histograms is the only state. *)
Definition samples `{Hashing} (t : PhaseTable) (r : Recording) : result unit (PhaseTable * list Sample) :=
  match r with
  | RPoolCheckout w s o => Ok (t, record_pool_checkout w s o)
  | RBreakerState b s => Ok (t, record_breaker_state b s)
  | RBreakerFastRejection => Ok (t, record_breaker_fast_rejection)
  | RHedgeDecision o r => Ok (t, record_hedge_decision o r)
  | RFailoverSurvived => Ok (t, record_failover_survived)
  | RFailoverFailed => Ok (t, record_failover_failed)
  | RPoolConnections a i => Ok (t, record_pool_connections a i)
  | RPoolEviction r => Ok (t, record_pool_eviction r)
  | RPoolCheckoutLockWait w => Ok (t, record_pool_checkout_lock_wait w)
  | RRuntimeSnapshot s => Ok (t, record_runtime_snapshot s)
  | RNodeHeartbeatAge n a => Ok (t, record_node_heartbeat_age n a)
  | RMirrorSnapshot s => Ok (t, record_mirror_snapshot s)
  | RAdaptiveRecommendation s => Ok (t, record_adaptive_recommendation s)
  | RAdaptiveOutcome s => Ok (t, record_adaptive_outcome s)
  | RPressureSnapshot s => Ok (t, record_pressure_snapshot s)
  | RBenchmarkRun s => Ok (t, record_benchmark_run s)
  | RPerformanceSnapshot s => Ok (t, record_performance_snapshot s)
  | RPreparedCacheTotals h m => Ok (t, record_prepared_cache_totals h m)
  | RPreflightFinding c s => Ok (t, record_preflight_finding c s)
  | RRouteCheckoutSnapshot s => Ok (t, record_route_checkout_snapshot s)
  | RReplicaHealthSnapshot s => Ok (t, record_replica_health_snapshot s)
  | RSplitBrainWarning i e => Ok (t, record_split_brain_warning i e)
  | RReadAfterWriteWait r w o => Ok (t, record_read_after_write_wait r w o)
  | RReadAfterWrite o => Ok (t, record_read_after_write o)
  | RShardRouteDecision r s st y o => Ok (t, record_shard_route_decision r s st y o)
  | RShardMultiShardRejection r s p y o => Ok (t, record_shard_multi_shard_rejection r s p y o)
  | RShardPrimaryFallback r s p o => Ok (t, record_shard_primary_fallback r s p o)
  | RRouteMapReloadSnapshot s => Ok (t, record_route_map_reload_snapshot s)
  | RShardLifecycleSnapshot s => Ok (t, record_shard_lifecycle_snapshot s)
  | RShardMigrationSafety p => Ok (t, record_shard_migration_safety_snapshot p)
  | RClientConnection => Ok (t, increment_client_connections)
  | RPreparedEvent e => Ok (t, increment_prepared_event e)
  | RPin r => Ok (t, increment_pin r)
  | RCleanup a => Ok (t, increment_cleanup a)
  | RRecovery u a o => Ok (t, increment_recovery u a o)
  | RSqlstate s => Ok (t, increment_sqlstate s)
  | RBackpressureEvent r o => Ok (t, increment_backpressure_event r o)
  | RRouteShed r p => Ok (t, increment_route_shed r p)
  | RRouteWait r w o => Ok (t, record_route_wait r w o)
  | RRouteInFlight r n => Ok (t, record_route_in_flight r n)
  | RRouteWaiting r n => Ok (t, record_route_waiting r n)
  | RTimeout k => Ok (t, increment_timeout k)
  | RBufferLimit k => Ok (t, increment_buffer_limit k)
  | RQueryStat s f l n e => Ok (t, record_query_stat s f l n e)
  | RAuditRecord => Ok (t, record_audit_record)
  | RAuditDrop => Ok (t, record_audit_drop)
  | RGuardrailDenial r => Ok (t, record_guardrail_denial r)
  | RTlsHandshake s m => Ok (t, record_tls_handshake s m)
  | RTlsFailure s m r => Ok (t, record_tls_failure s m r)
  | RAuthAttempt m => Ok (t, record_auth_attempt m)
  | RAuthFailure m r => Ok (t, record_auth_failure m r)
  | RConfigReload o => Ok (t, record_config_reload o)
  | RPolicyAuditEvent m e => Ok (t, record_policy_audit_event m e)
  | RPolicyReload s m ok c => Ok (t, record_policy_reload s m ok c)
  | RPolicyWasmEval s m h o c d => Ok (t, record_policy_wasm_eval s m h o c d)
  | RDrainState s => Ok (t, record_drain_state s)
  | RHealthStatus k s => Ok (t, record_health_status k s)
  | RSocketOption k o u => Ok (t, record_socket_option k o u)
  | RProtocolPhase p o d => record_protocol_phase_duration t p o d
  | RProtocolPhaseSampled p o d b => record_protocol_phase_duration_sampled t p o d b
  | RHandleCheckoutWait r w => Ok (t, [handle_record (handle_checkout_wait_ok (route_metric_handles_resolve r)) w])
  | RCheckoutAdmitted r w n k => Ok (t, checkout_admitted_samples r w n k)
  | RLifecycleMetrics s r => Ok (t, record_lifecycle_metrics s r)
  | RDrainBegun r => Ok (t, begin_drain_metric r)
  | RReloadMetric o => Ok (t, reload_metric o)
  | RSocketMetric s o u => Ok (t, socket_option_metric s o u)
  | RQueryTimeout => Ok (t, query_timeout_metric)
  | RIdleTimeout b => Ok (t, idle_timeout_metric b)
  | RBufferLimitRecorded k => Ok (t, record_buffer_limit k)
  end.
(** Calls one after the other. *)
Fixpoint record_all `{Hashing} (t : PhaseTable) (rs : list Recording) : result unit (PhaseTable * list Sample) :=
  match rs with
  | [] => Ok (t, [])
  | r :: rs => '(t, ss) ← samples t r; '(t, more) ← record_all t rs; Ok (t, ss ++ more)
  end.

(** ** The catalog *)

(** A sample is one the catalog announces: its name, its kind and exactly its
    labels. *)
Definition catalogued (s : Sample) : Prop :=
  exists d, d ∈ metric_catalog /\ descriptor_name d = s_name s /\ descriptor_kind d = s_kind s
            /\ (s_labels s).*1 ≡ₚ metric_label_as_str <$> descriptor_labels d
            /\ Forall (fun l => label_policy_allows l = true) (s_labels s).*1.
(** The series the proxy counts without announcing them there. *)
Definition uncatalogued : list (string * MetricKind * list string) :=
  [("pg_kinetic_pool_connections", Gauge, ["state"]); ("pg_kinetic_pool_evictions_total", Counter, ["reason"]);
   ("pg_kinetic_query_count_total", Counter, ["query"]); ("pg_kinetic_query_latency_ms", Histogram, ["query"]);
   ("pg_kinetic_query_rows_total", Counter, ["query"]); ("pg_kinetic_query_errors_total", Counter, ["query"]);
   ("pg_kinetic_audit_records_total", Counter, []); ("pg_kinetic_audit_dropped_total", Counter, []);
   ("pg_kinetic_guardrail_denials_total", Counter, ["rule"])]%string.
Definition announced (s : Sample) : Prop := catalogued s \/ (s_name s, s_kind s, (s_labels s).*1) ∈ uncatalogued.

Definition descriptor_of (name : string) (kind : MetricKind) (keys : list string) : option MetricDescriptor :=
  find (fun d => bool_decide (descriptor_name d = name) && bool_decide (descriptor_kind d = kind)
                 && bool_decide (keys ≡ₚ metric_label_as_str <$> descriptor_labels d)) metric_catalog.
Definition known (name : string) (kind : MetricKind) (keys : list string) : bool :=
  (match descriptor_of name kind keys with Some _ => forallb label_policy_allows keys | None => false end)
  || bool_decide ((name, kind, keys) ∈ uncatalogued).

Lemma known_announced s : known (s_name s) (s_kind s) (s_labels s).*1 = true -> announced s.
Proof.
  unfold known, announced. rewrite orb_true_iff, bool_decide_eq_true. intros [H|H]; [left|by right].
  destruct (descriptor_of _ _ _) as [d|] eqn:Hd; [|done]. unfold descriptor_of in Hd. apply find_some in Hd as [Hin Hd].
  rewrite !andb_true_iff, !bool_decide_eq_true in Hd. destruct Hd as [[Hn Hk] Hl].
  exists d. apply list_elem_of_In in Hin. repeat split; try done. apply Forall_forall. intros l Hin'. rewrite forallb_forall in H.
  apply H. by apply list_elem_of_In.
Qed.
Lemma one_hot_announced {A} `{EqDecision A, Labelled A} name labels key (cs : list A) s :
  known name Gauge (labels.*1 ++ [key]) = true -> Forall announced (one_hot name labels key cs s).
Proof.
  intros Hk. apply Forall_fmap, Forall_forall. intros c _. apply known_announced. cbn. by rewrite fmap_app.
Qed.

Create HintDb metrics.
#[export] Hint Unfold record_pool_checkout record_breaker_state record_breaker_fast_rejection record_hedge_decision
  record_failover_survived record_failover_failed record_pool_connections record_pool_eviction
  record_pool_checkout_lock_wait record_runtime_lifecycle_state record_runtime_readiness_state
  record_runtime_shutdown record_runtime_snapshot record_node_heartbeat_age mirror_decision record_mirror_snapshot
  record_adaptive_recommendation record_adaptive_outcome record_pressure_snapshot benchmark_samples
  record_benchmark_run record_prepared_cache_totals optional_gauge record_performance_snapshot
  increment_read_after_write_rejection record_route_checkout_snapshot record_replica_health_snapshot
  record_split_brain_warning record_read_after_write_wait record_read_after_write record_shard_route_decision
  record_shard_multi_shard_rejection record_shard_primary_fallback record_route_map_reload_snapshot
  record_shard_lifecycle_snapshot record_shard_migration_safety_snapshot increment_client_connections
  increment_prepared_event increment_pin increment_cleanup increment_recovery increment_sqlstate
  increment_backpressure_event increment_route_shed record_route_wait record_route_in_flight record_route_waiting
  increment_timeout increment_buffer_limit record_query_stat record_audit_record record_audit_drop
  record_guardrail_denial record_tls_handshake record_tls_failure record_auth_attempt record_auth_failure
  record_config_reload record_drain_state record_health_status record_socket_option record_preflight_finding
  record_policy_decision record_policy_audit_event record_policy_active record_policy_reload
  record_policy_wasm_eval checkout_admitted_samples handle_record handle_set route_metric_handles_resolve
  record_lifecycle_metrics begin_drain_metric reload_metric socket_option_metric query_timeout_metric
  idle_timeout_metric record_buffer_limit : metrics.

Lemma bind_announced {A} (f : A -> list Sample) l : (forall x, Forall announced (f x)) -> Forall announced (l ≫= f).
Proof. intros Hf. apply Forall_bind, Forall_forall. intros x _. apply Hf. Qed.

(** Samples given one by one, options, one-hot groups and loops. *)
Ltac announce :=
  repeat match goal with
  | |- Forall announced (_ ++ _) => apply Forall_app; split
  | |- Forall announced (one_hot _ _ _ _ _) => apply one_hot_announced; vm_compute; reflexivity
  | |- Forall announced (_ ≫= _) => apply bind_announced; intros ?; autounfold with metrics; cbv zeta
  | |- Forall announced (_ <$> _) => apply Forall_fmap, Forall_forall; intros ? _; cbn [compose]
  | |- Forall announced (_ :: _) => apply Forall_cons; split
  | |- Forall announced [] => constructor
  | |- Forall announced (match ?x with _ => _ end) => destruct x
  | |- announced _ => apply known_announced; vm_compute; reflexivity
  | |- _ => progress cbn [app fmap list_fmap]
  end.

(** ** The table of phase histograms *)

(** A cell that is made has the labels of its phase and outcome. *)
Definition phase_table_ok (t : PhaseTable) : Prop :=
  forall p o, exists row cell, t !! protocol_phase_index p = Some row /\ row !! metric_outcome_index o = Some cell
    /\ (cell = None \/ cell = Some [("phase"%string, text p); ("outcome"%string, text o)]).

Lemma phase_index_inj p q : protocol_phase_index p = protocol_phase_index q -> p = q.
Proof. by destruct p, q. Qed.
Lemma outcome_index_inj o u : metric_outcome_index o = metric_outcome_index u -> o = u.
Proof. by destruct o, u. Qed.
Lemma phase_table_new : phase_table_ok protocol_phase_histograms.
Proof.
  intros p o. exists (replicate METRIC_OUTCOME_COUNT None), None.
  split_and!; [by destruct p|by destruct o|by left].
Qed.

(** Timing a phase never indexes the table out of bounds, and the sample has
    the labels of that phase and outcome whichever phases were timed before. *)
Lemma phase_duration_exact t p o d :
  phase_table_ok t ->
  exists t', record_protocol_phase_duration t p o d
             = Ok (t', [histogram (metric_name_as_str MProtocolPhaseDuration) [("phase"%string, text p); ("outcome"%string, text o)] (as_ms d)])
             /\ phase_table_ok t'.
Proof.
  intros Ht. destruct (Ht p o) as (row & cell & Hr & Hc & Hcell).
  unfold record_protocol_phase_duration, protocol_phase_histogram. rewrite Hr, Hc. destruct Hcell as [->| ->]; [|by eauto].
  eexists. split; [done|]. intros q u. destruct (Ht q u) as (row' & cell' & Hr' & Hc' & Hcell').
  destruct (decide (q = p)) as [->|Hq].
  - simplify_eq. rewrite list_lookup_insert_eq by (by eapply lookup_lt_Some). destruct (decide (u = o)) as [->|Hu].
    + do 2 eexists. split; [done|]. rewrite list_lookup_insert_eq by (by eapply lookup_lt_Some). eauto.
    + do 2 eexists. split; [done|]. rewrite list_lookup_insert_ne by (intros E; by apply outcome_index_inj in E). eauto.
  - rewrite list_lookup_insert_ne by (intros E; by apply phase_index_inj in E). eauto 6.
Qed.

(** Whatever was recorded before, a call does not panic, and each of its
    samples is announced. *)
Lemma call_announced `{Hashing} t r :
  phase_table_ok t -> exists t' ss, samples t r = Ok (t', ss) /\ phase_table_ok t' /\ Forall announced ss.
Proof.
  intros Ht. assert (forall p o d, exists t' ss, record_protocol_phase_duration t p o d = Ok (t', ss)
                       /\ phase_table_ok t' /\ Forall announced ss) as Hphase.
  { intros p o d. destruct (phase_duration_exact t p o d Ht) as (t' & -> & Ht'). do 2 eexists. split_and!; [done|done|]. announce. }
  destruct r; cbn [samples]; try (exists t; eexists; split_and!; [reflexivity|exact Ht|autounfold with metrics; cbv zeta; announce]).
  - apply Hphase.
  - unfold record_protocol_phase_duration_sampled. destruct sampled; [apply Hphase|]. exists t, []. by split_and!.
Qed.

(** C36. Whatever the proxy records, in whatever order and with whatever
    values, no call panics (the table of phase histograms is never indexed
    out of bounds) and each sample is one that the metric catalog announces:
    the series has the catalogued name, the catalogued kind, exactly the
    catalogued labels, and only labels that the label policy allows; the
    exceptions are the nine series of [uncatalogued] (pool connections and
    evictions, query statistics, audit records and guardrail denials), each
    of one fixed kind and label. A call is any recorder of the metrics
    module, a use of a route's handles, or one of the series that the
    lifecycle, the reload, the sockets, the timeouts and the buffer limits
    record themselves. *)
Theorem metrics_follow_catalog `{Hashing} (rs : list Recording) :
  exists t ss, record_all protocol_phase_histograms rs = Ok (t, ss) /\ Forall announced ss.
Proof.
  assert (forall t, phase_table_ok t -> exists t' ss, record_all t rs = Ok (t', ss) /\ Forall announced ss) as Hall.
  { induction rs as [|r rs IH]; intros t Ht; cbn; [by eauto|].
    destruct (call_announced t r Ht) as (t1 & ss & -> & Ht1 & Hss). cbn.
    destruct (IH t1 Ht1) as (t2 & more & -> & Hmore). cbn. do 2 eexists. split; [done|]. by apply Forall_app. }
  apply Hall, phase_table_new.
Qed.

(** ** The registry *)

(** A series is a name with its labels. *)
Abbreviation Series := (string * list (string * str))%type.
Record Registry := { counters : gmap Series Z; gauges : gmap Series f64 }.
Definition take_sample (g : Registry) (s : Sample) : Registry :=
  match s_op s with
  | Increment n =>
      {| counters := <[(s_name s, s_labels s) := default 0 (counters g !! (s_name s, s_labels s)) + n]> (counters g); gauges := gauges g |}
  | SetTo x => {| counters := counters g; gauges := <[(s_name s, s_labels s) := x]> (gauges g) |}
  | Observe _ => g
  end.
Definition take_samples : Registry -> list Sample -> Registry := foldl take_sample.

Lemma lit_inj (a b : string) : lit a = lit b -> a = b.
Proof.
  revert b. induction a as [|x a IH]; intros [|y b]; cbn; try done. intros [= Hc Hs]. f_equal; [|by apply IH].
  rewrite <- (Ascii.ascii_nat_embedding x), <- (Ascii.ascii_nat_embedding y). f_equal. lia.
Qed.
Lemma text_inj {A} `{DistinctLabels A} (x y : A) : text x = text y -> x = y.
Proof. intros Ht. apply (labels_inj x y). by apply lit_inj. Qed.

Lemma one_hot_untouched {A} `{EqDecision A, Labelled A} g name labels key (cs : list A) s k :
  (forall c, c ∈ cs -> k <> (name, labels ++ [(key, text c)])) ->
  gauges (take_samples g (one_hot name labels key cs s)) !! k = gauges g !! k.
Proof.
  revert g. induction cs as [|c cs IH]; intros g Hk; [done|]. cbn [one_hot fmap list_fmap take_samples foldl].
  etrans; [apply IH; intros c' Hc'; apply Hk; by right|]. cbn. rewrite lookup_insert_ne; [done|].
  intros <-. by apply (Hk c); [left|].
Qed.

(** Recording a state leaves exactly one of its gauges at one, whatever was
    recorded before. *)
Lemma one_hot_exact {A} `{EqDecision A, DistinctLabels A} g name labels key (cs : list A) s c :
  NoDup cs -> c ∈ cs ->
  gauges (take_samples g (one_hot name labels key cs s)) !! (name, labels ++ [(key, text c)]) = Some (one_if (bool_decide (c = s))).
Proof.
  revert g. induction cs as [|c' cs IH]; intros g Hnd Hc; [by apply not_elem_of_nil in Hc|].
  apply NoDup_cons in Hnd as [Hn Hnd]. apply elem_of_cons in Hc as [->|Hc].
  - etrans; [apply (one_hot_untouched (take_sample g _))|]; [|cbn; by rewrite lookup_insert_eq].
    intros d Hd [= Heq]. apply Hn. apply app_inv_head in Heq. injection Heq as Heq. by rewrite (text_inj c' d).
  - by apply (IH (take_sample g _)).
Qed.

(** Here for the lifecycle of the process and the drain. *)
Corollary lifecycle_gauge_exact g s c :
  gauges (take_samples g (record_runtime_lifecycle_state s)) !! (metric_name_as_str MRuntimeLifecycleState, [("state"%string, text c)])
  = Some (one_if (bool_decide (c = s))).
Proof. apply (one_hot_exact g _ [] "state"); [by apply (bool_decide_unpack _); vm_compute|destruct c; set_solver]. Qed.
Corollary drain_gauge_exact g s c :
  gauges (take_samples g (record_drain_state s)) !! (operational_metric_as_str DrainStateMetric, [("state"%string, text c)])
  = Some (one_if (bool_decide (c = s))).
Proof. apply (one_hot_exact g _ [] "state"); [by apply (bool_decide_unpack _); vm_compute|destruct c; set_solver]. Qed.

(** Nothing clears the gauge of the state that a breaker leaves. *)
Example open_breaker_still_reads_closed b :
  let g := take_samples {| counters := ∅; gauges := ∅ |}
             (record_breaker_state b (lit "closed") ++ record_breaker_state b (lit "open")) in
  gauges g !! (metric_name_as_str MBreakerState, [("backend"%string, b); ("state"%string, lit "closed")]) = Some f64_one
  /\ gauges g !! (metric_name_as_str MBreakerState, [("backend"%string, b); ("state"%string, lit "open")]) = Some f64_one.
Proof.
  cbn. split; [|by rewrite lookup_insert_eq]. rewrite lookup_insert_ne by (intros [=]). by rewrite lookup_insert_eq.
Qed.

(** The totals of the mirror are added to its counters each time they are
    reported: two reports of one mirrored query count two. *)
Example mirror_totals_are_added_again :
  let s := {| ms_mode := MirrorReadOnly; ms_sample_rate := f64_one; ms_in_flight := 0; ms_dropped_total := 0; ms_timed_out_total := 0;
              ms_mirrored_total := 1; ms_skipped_total := 0; ms_rejected_total := 0; ms_last_duration := None |} in
  counters (take_samples {| counters := ∅; gauges := ∅ |} (record_mirror_snapshot s ++ record_mirror_snapshot s))
    !! (metric_name_as_str MMirrorDecisionsTotal,
        [("mode"%string, lit "read_only"); ("target"%string, lit "mirror"); ("outcome"%string, lit "mirrored")]) = Some 2.
Proof. vm_compute. reflexivity. Qed.
