(* ===== verification/Snapshot.v ===== *)
(** * Snapshot: the store behind the admin console

    Models [SnapshotStore] and its handles in
    [pg-kinetic-proxy/src/observe/snapshot.rs], the updates of
    [proxy/session_snapshot.rs] and [PreparedCatalog::snapshot]. An
    operation holds the lock of the store for its whole change, so it is one
    step, but for a route's checkout, which is compared under one lock and
    stored under another: the second section is an operation of its own too,
    for a call that others come between. What an operation records is given
    with the new state. A [BTreeMap] is a
    [gmap] listed by key. A [HashMap] by route key is a list of its values,
    at most one for a key; the order in which it is iterated is a parameter.
    Query statistics, guardrails and the audit dispatcher, which the store
    only hands out, are in their own files. *)

From S2P Require Import Prelude Text Order Lsn RoutingTypes Route Address Policy Sharding Session ReadRouting Recovery F64 Mirror.
From S2P Require Import Prepare ShardRouting PolicyRuntime Lifecycle Health Observability Labels Performance Benchmark Control Adaptive.
From S2P Require Import SnapshotTypes Metrics QueryStats.

(** The order in which a map is iterated. *)
Class MapOrder := { order : forall {A : Type}, list A -> list A }.
Class MapOrderLaws (O : MapOrder) := order_perm : forall {A} (l : list A), order l ≡ₚ l.

Definition sharding_default : ShardingConfig :=
  {| cfg_sharding_enabled := false; cfg_multi_shard_policy := Reject; cfg_route_maps := [] |}.

Record SnapshotStoreInner := {
  i_clients : gmap Z ClientSnapshot;
  i_pool : PoolSnapshot;
  i_pool_lifecycle : PoolLifecycleSnapshot;
  i_servers : gmap Z ServerSnapshot;
  i_replica_health : gmap Z ReplicaReport;
  i_prepared : PreparedSnapshot;
  i_pinning : gmap Z PinningSnapshot;
  i_recoveries : list RecoverySnapshot;
  i_backpressure : list BackpressureReport;
  i_pressure : option PressureReport;
  i_runtime : option RuntimeSnapshot;
  i_runtime_shards : gmap Z RuntimeShardSnapshot;
  i_nodes : list NodeSummarySnapshot;
  i_mirror : option MirrorSummarySnapshot;
  i_benchmark_runs : list BenchmarkRunSnapshot;
  i_performance : PerformanceSnapshot;
  i_routes : list RouteSnapshot;
  i_route_policies : list RoutePolicySnapshot;
  i_route_checkouts : list RouteCheckoutSnapshot;
  i_route_map_reloads : list RouteMapReloadSnapshot;
  i_policy_reloads : list PolicyReloadSnapshot;
  i_policy_status : option PolicyStatusSnapshot;
  i_policy_decisions : list PolicyAuditEvent;
  i_policy_audit_events : list PolicyAuditEvent;
  i_adaptive_recommendations : list AdaptiveRecommendationSnapshot;
  i_adaptive_outcomes : list AdaptiveOutcomeSnapshot;
  i_sharding : ShardingConfig;
  i_shard_lifecycles : gmap ShardId ShardLifecycleSnapshot;
  i_shard_migration_safety : list ShardRebalancePlan;
  i_settings : SettingsSnapshot;
  i_limits : LimitsSnapshot;
}.
Definition inner_default : SnapshotStoreInner := {|
  i_clients := ∅;
  i_pool := pool_snapshot_default;
  i_pool_lifecycle := pool_lifecycle_snapshot_default;
  i_servers := ∅;
  i_replica_health := ∅;
  i_prepared := prepared_snapshot_new 0 0;
  i_pinning := ∅;
  i_recoveries := [];
  i_backpressure := [];
  i_pressure := None;
  i_runtime := None;
  i_runtime_shards := ∅;
  i_nodes := [];
  i_mirror := None;
  i_benchmark_runs := [];
  i_performance := performance_snapshot_default;
  i_routes := [];
  i_route_policies := [];
  i_route_checkouts := [];
  i_route_map_reloads := [];
  i_policy_reloads := [];
  i_policy_status := None;
  i_policy_decisions := [];
  i_policy_audit_events := [];
  i_adaptive_recommendations := [];
  i_adaptive_outcomes := [];
  i_sharding := sharding_default;
  i_shard_lifecycles := ∅;
  i_shard_migration_safety := [];
  i_settings := settings_default;
  i_limits := limits_default |}.

Definition put_clients (s : SnapshotStoreInner) (v : gmap Z ClientSnapshot) : SnapshotStoreInner :=
  let '(Build_SnapshotStoreInner _ x1 x2 x3 x4 x5 x6 x7 x8 x9 x10 x11 x12 x13 x14 x15 x16 x17 x18 x19 x20 x21 x22 x23
    x24 x25 x26 x27 x28 x29 x30) := s in
  Build_SnapshotStoreInner v x1 x2 x3 x4 x5 x6 x7 x8 x9 x10 x11 x12 x13 x14 x15 x16 x17 x18 x19 x20 x21 x22 x23 x24
    x25 x26 x27 x28 x29 x30.
Definition put_pool (s : SnapshotStoreInner) (v : PoolSnapshot) : SnapshotStoreInner :=
  let '(Build_SnapshotStoreInner x0 _ x2 x3 x4 x5 x6 x7 x8 x9 x10 x11 x12 x13 x14 x15 x16 x17 x18 x19 x20 x21 x22 x23
    x24 x25 x26 x27 x28 x29 x30) := s in
  Build_SnapshotStoreInner x0 v x2 x3 x4 x5 x6 x7 x8 x9 x10 x11 x12 x13 x14 x15 x16 x17 x18 x19 x20 x21 x22 x23 x24
    x25 x26 x27 x28 x29 x30.
Definition put_pool_lifecycle (s : SnapshotStoreInner) (v : PoolLifecycleSnapshot) : SnapshotStoreInner :=
  let '(Build_SnapshotStoreInner x0 x1 _ x3 x4 x5 x6 x7 x8 x9 x10 x11 x12 x13 x14 x15 x16 x17 x18 x19 x20 x21 x22 x23
    x24 x25 x26 x27 x28 x29 x30) := s in
  Build_SnapshotStoreInner x0 x1 v x3 x4 x5 x6 x7 x8 x9 x10 x11 x12 x13 x14 x15 x16 x17 x18 x19 x20 x21 x22 x23 x24
    x25 x26 x27 x28 x29 x30.
Definition put_servers (s : SnapshotStoreInner) (v : gmap Z ServerSnapshot) : SnapshotStoreInner :=
  let '(Build_SnapshotStoreInner x0 x1 x2 _ x4 x5 x6 x7 x8 x9 x10 x11 x12 x13 x14 x15 x16 x17 x18 x19 x20 x21 x22 x23
    x24 x25 x26 x27 x28 x29 x30) := s in
  Build_SnapshotStoreInner x0 x1 x2 v x4 x5 x6 x7 x8 x9 x10 x11 x12 x13 x14 x15 x16 x17 x18 x19 x20 x21 x22 x23 x24
    x25 x26 x27 x28 x29 x30.
Definition put_replica_health (s : SnapshotStoreInner) (v : gmap Z ReplicaReport) : SnapshotStoreInner :=
  let '(Build_SnapshotStoreInner x0 x1 x2 x3 _ x5 x6 x7 x8 x9 x10 x11 x12 x13 x14 x15 x16 x17 x18 x19 x20 x21 x22 x23
    x24 x25 x26 x27 x28 x29 x30) := s in
  Build_SnapshotStoreInner x0 x1 x2 x3 v x5 x6 x7 x8 x9 x10 x11 x12 x13 x14 x15 x16 x17 x18 x19 x20 x21 x22 x23 x24
    x25 x26 x27 x28 x29 x30.
Definition put_prepared (s : SnapshotStoreInner) (v : PreparedSnapshot) : SnapshotStoreInner :=
  let '(Build_SnapshotStoreInner x0 x1 x2 x3 x4 _ x6 x7 x8 x9 x10 x11 x12 x13 x14 x15 x16 x17 x18 x19 x20 x21 x22 x23
    x24 x25 x26 x27 x28 x29 x30) := s in
  Build_SnapshotStoreInner x0 x1 x2 x3 x4 v x6 x7 x8 x9 x10 x11 x12 x13 x14 x15 x16 x17 x18 x19 x20 x21 x22 x23 x24
    x25 x26 x27 x28 x29 x30.
Definition put_pinning (s : SnapshotStoreInner) (v : gmap Z PinningSnapshot) : SnapshotStoreInner :=
  let '(Build_SnapshotStoreInner x0 x1 x2 x3 x4 x5 _ x7 x8 x9 x10 x11 x12 x13 x14 x15 x16 x17 x18 x19 x20 x21 x22 x23
    x24 x25 x26 x27 x28 x29 x30) := s in
  Build_SnapshotStoreInner x0 x1 x2 x3 x4 x5 v x7 x8 x9 x10 x11 x12 x13 x14 x15 x16 x17 x18 x19 x20 x21 x22 x23 x24
    x25 x26 x27 x28 x29 x30.
Definition put_recoveries (s : SnapshotStoreInner) (v : list RecoverySnapshot) : SnapshotStoreInner :=
  let '(Build_SnapshotStoreInner x0 x1 x2 x3 x4 x5 x6 _ x8 x9 x10 x11 x12 x13 x14 x15 x16 x17 x18 x19 x20 x21 x22 x23
    x24 x25 x26 x27 x28 x29 x30) := s in
  Build_SnapshotStoreInner x0 x1 x2 x3 x4 x5 x6 v x8 x9 x10 x11 x12 x13 x14 x15 x16 x17 x18 x19 x20 x21 x22 x23 x24
    x25 x26 x27 x28 x29 x30.
Definition put_backpressure (s : SnapshotStoreInner) (v : list BackpressureReport) : SnapshotStoreInner :=
  let '(Build_SnapshotStoreInner x0 x1 x2 x3 x4 x5 x6 x7 _ x9 x10 x11 x12 x13 x14 x15 x16 x17 x18 x19 x20 x21 x22 x23
    x24 x25 x26 x27 x28 x29 x30) := s in
  Build_SnapshotStoreInner x0 x1 x2 x3 x4 x5 x6 x7 v x9 x10 x11 x12 x13 x14 x15 x16 x17 x18 x19 x20 x21 x22 x23 x24
    x25 x26 x27 x28 x29 x30.
Definition put_pressure (s : SnapshotStoreInner) (v : option PressureReport) : SnapshotStoreInner :=
  let '(Build_SnapshotStoreInner x0 x1 x2 x3 x4 x5 x6 x7 x8 _ x10 x11 x12 x13 x14 x15 x16 x17 x18 x19 x20 x21 x22 x23
    x24 x25 x26 x27 x28 x29 x30) := s in
  Build_SnapshotStoreInner x0 x1 x2 x3 x4 x5 x6 x7 x8 v x10 x11 x12 x13 x14 x15 x16 x17 x18 x19 x20 x21 x22 x23 x24
    x25 x26 x27 x28 x29 x30.
Definition put_runtime (s : SnapshotStoreInner) (v : option RuntimeSnapshot) : SnapshotStoreInner :=
  let '(Build_SnapshotStoreInner x0 x1 x2 x3 x4 x5 x6 x7 x8 x9 _ x11 x12 x13 x14 x15 x16 x17 x18 x19 x20 x21 x22 x23
    x24 x25 x26 x27 x28 x29 x30) := s in
  Build_SnapshotStoreInner x0 x1 x2 x3 x4 x5 x6 x7 x8 x9 v x11 x12 x13 x14 x15 x16 x17 x18 x19 x20 x21 x22 x23 x24 x25
    x26 x27 x28 x29 x30.
Definition put_runtime_shards (s : SnapshotStoreInner) (v : gmap Z RuntimeShardSnapshot) : SnapshotStoreInner :=
  let '(Build_SnapshotStoreInner x0 x1 x2 x3 x4 x5 x6 x7 x8 x9 x10 _ x12 x13 x14 x15 x16 x17 x18 x19 x20 x21 x22 x23
    x24 x25 x26 x27 x28 x29 x30) := s in
  Build_SnapshotStoreInner x0 x1 x2 x3 x4 x5 x6 x7 x8 x9 x10 v x12 x13 x14 x15 x16 x17 x18 x19 x20 x21 x22 x23 x24 x25
    x26 x27 x28 x29 x30.
Definition put_nodes (s : SnapshotStoreInner) (v : list NodeSummarySnapshot) : SnapshotStoreInner :=
  let '(Build_SnapshotStoreInner x0 x1 x2 x3 x4 x5 x6 x7 x8 x9 x10 x11 _ x13 x14 x15 x16 x17 x18 x19 x20 x21 x22 x23
    x24 x25 x26 x27 x28 x29 x30) := s in
  Build_SnapshotStoreInner x0 x1 x2 x3 x4 x5 x6 x7 x8 x9 x10 x11 v x13 x14 x15 x16 x17 x18 x19 x20 x21 x22 x23 x24 x25
    x26 x27 x28 x29 x30.
Definition put_mirror (s : SnapshotStoreInner) (v : option MirrorSummarySnapshot) : SnapshotStoreInner :=
  let '(Build_SnapshotStoreInner x0 x1 x2 x3 x4 x5 x6 x7 x8 x9 x10 x11 x12 _ x14 x15 x16 x17 x18 x19 x20 x21 x22 x23
    x24 x25 x26 x27 x28 x29 x30) := s in
  Build_SnapshotStoreInner x0 x1 x2 x3 x4 x5 x6 x7 x8 x9 x10 x11 x12 v x14 x15 x16 x17 x18 x19 x20 x21 x22 x23 x24 x25
    x26 x27 x28 x29 x30.
Definition put_benchmark_runs (s : SnapshotStoreInner) (v : list BenchmarkRunSnapshot) : SnapshotStoreInner :=
  let '(Build_SnapshotStoreInner x0 x1 x2 x3 x4 x5 x6 x7 x8 x9 x10 x11 x12 x13 _ x15 x16 x17 x18 x19 x20 x21 x22 x23
    x24 x25 x26 x27 x28 x29 x30) := s in
  Build_SnapshotStoreInner x0 x1 x2 x3 x4 x5 x6 x7 x8 x9 x10 x11 x12 x13 v x15 x16 x17 x18 x19 x20 x21 x22 x23 x24 x25
    x26 x27 x28 x29 x30.
Definition put_performance (s : SnapshotStoreInner) (v : PerformanceSnapshot) : SnapshotStoreInner :=
  let '(Build_SnapshotStoreInner x0 x1 x2 x3 x4 x5 x6 x7 x8 x9 x10 x11 x12 x13 x14 _ x16 x17 x18 x19 x20 x21 x22 x23
    x24 x25 x26 x27 x28 x29 x30) := s in
  Build_SnapshotStoreInner x0 x1 x2 x3 x4 x5 x6 x7 x8 x9 x10 x11 x12 x13 x14 v x16 x17 x18 x19 x20 x21 x22 x23 x24 x25
    x26 x27 x28 x29 x30.
Definition put_routes (s : SnapshotStoreInner) (v : list RouteSnapshot) : SnapshotStoreInner :=
  let '(Build_SnapshotStoreInner x0 x1 x2 x3 x4 x5 x6 x7 x8 x9 x10 x11 x12 x13 x14 x15 _ x17 x18 x19 x20 x21 x22 x23
    x24 x25 x26 x27 x28 x29 x30) := s in
  Build_SnapshotStoreInner x0 x1 x2 x3 x4 x5 x6 x7 x8 x9 x10 x11 x12 x13 x14 x15 v x17 x18 x19 x20 x21 x22 x23 x24 x25
    x26 x27 x28 x29 x30.
Definition put_route_policies (s : SnapshotStoreInner) (v : list RoutePolicySnapshot) : SnapshotStoreInner :=
  let '(Build_SnapshotStoreInner x0 x1 x2 x3 x4 x5 x6 x7 x8 x9 x10 x11 x12 x13 x14 x15 x16 _ x18 x19 x20 x21 x22 x23
    x24 x25 x26 x27 x28 x29 x30) := s in
  Build_SnapshotStoreInner x0 x1 x2 x3 x4 x5 x6 x7 x8 x9 x10 x11 x12 x13 x14 x15 x16 v x18 x19 x20 x21 x22 x23 x24 x25
    x26 x27 x28 x29 x30.
Definition put_route_checkouts (s : SnapshotStoreInner) (v : list RouteCheckoutSnapshot) : SnapshotStoreInner :=
  let '(Build_SnapshotStoreInner x0 x1 x2 x3 x4 x5 x6 x7 x8 x9 x10 x11 x12 x13 x14 x15 x16 x17 _ x19 x20 x21 x22 x23
    x24 x25 x26 x27 x28 x29 x30) := s in
  Build_SnapshotStoreInner x0 x1 x2 x3 x4 x5 x6 x7 x8 x9 x10 x11 x12 x13 x14 x15 x16 x17 v x19 x20 x21 x22 x23 x24 x25
    x26 x27 x28 x29 x30.
Definition put_route_map_reloads (s : SnapshotStoreInner) (v : list RouteMapReloadSnapshot) : SnapshotStoreInner :=
  let '(Build_SnapshotStoreInner x0 x1 x2 x3 x4 x5 x6 x7 x8 x9 x10 x11 x12 x13 x14 x15 x16 x17 x18 _ x20 x21 x22 x23
    x24 x25 x26 x27 x28 x29 x30) := s in
  Build_SnapshotStoreInner x0 x1 x2 x3 x4 x5 x6 x7 x8 x9 x10 x11 x12 x13 x14 x15 x16 x17 x18 v x20 x21 x22 x23 x24 x25
    x26 x27 x28 x29 x30.
Definition put_policy_reloads (s : SnapshotStoreInner) (v : list PolicyReloadSnapshot) : SnapshotStoreInner :=
  let '(Build_SnapshotStoreInner x0 x1 x2 x3 x4 x5 x6 x7 x8 x9 x10 x11 x12 x13 x14 x15 x16 x17 x18 x19 _ x21 x22 x23
    x24 x25 x26 x27 x28 x29 x30) := s in
  Build_SnapshotStoreInner x0 x1 x2 x3 x4 x5 x6 x7 x8 x9 x10 x11 x12 x13 x14 x15 x16 x17 x18 x19 v x21 x22 x23 x24 x25
    x26 x27 x28 x29 x30.
Definition put_policy_status (s : SnapshotStoreInner) (v : option PolicyStatusSnapshot) : SnapshotStoreInner :=
  let '(Build_SnapshotStoreInner x0 x1 x2 x3 x4 x5 x6 x7 x8 x9 x10 x11 x12 x13 x14 x15 x16 x17 x18 x19 x20 _ x22 x23
    x24 x25 x26 x27 x28 x29 x30) := s in
  Build_SnapshotStoreInner x0 x1 x2 x3 x4 x5 x6 x7 x8 x9 x10 x11 x12 x13 x14 x15 x16 x17 x18 x19 x20 v x22 x23 x24 x25
    x26 x27 x28 x29 x30.
Definition put_policy_decisions (s : SnapshotStoreInner) (v : list PolicyAuditEvent) : SnapshotStoreInner :=
  let '(Build_SnapshotStoreInner x0 x1 x2 x3 x4 x5 x6 x7 x8 x9 x10 x11 x12 x13 x14 x15 x16 x17 x18 x19 x20 x21 _ x23
    x24 x25 x26 x27 x28 x29 x30) := s in
  Build_SnapshotStoreInner x0 x1 x2 x3 x4 x5 x6 x7 x8 x9 x10 x11 x12 x13 x14 x15 x16 x17 x18 x19 x20 x21 v x23 x24 x25
    x26 x27 x28 x29 x30.
Definition put_policy_audit_events (s : SnapshotStoreInner) (v : list PolicyAuditEvent) : SnapshotStoreInner :=
  let '(Build_SnapshotStoreInner x0 x1 x2 x3 x4 x5 x6 x7 x8 x9 x10 x11 x12 x13 x14 x15 x16 x17 x18 x19 x20 x21 x22 _
    x24 x25 x26 x27 x28 x29 x30) := s in
  Build_SnapshotStoreInner x0 x1 x2 x3 x4 x5 x6 x7 x8 x9 x10 x11 x12 x13 x14 x15 x16 x17 x18 x19 x20 x21 x22 v x24 x25
    x26 x27 x28 x29 x30.
Definition put_adaptive_recommendations (s : SnapshotStoreInner) (v : list AdaptiveRecommendationSnapshot) : SnapshotStoreInner :=
  let '(Build_SnapshotStoreInner x0 x1 x2 x3 x4 x5 x6 x7 x8 x9 x10 x11 x12 x13 x14 x15 x16 x17 x18 x19 x20 x21 x22 x23
    _ x25 x26 x27 x28 x29 x30) := s in
  Build_SnapshotStoreInner x0 x1 x2 x3 x4 x5 x6 x7 x8 x9 x10 x11 x12 x13 x14 x15 x16 x17 x18 x19 x20 x21 x22 x23 v x25
    x26 x27 x28 x29 x30.
Definition put_adaptive_outcomes (s : SnapshotStoreInner) (v : list AdaptiveOutcomeSnapshot) : SnapshotStoreInner :=
  let '(Build_SnapshotStoreInner x0 x1 x2 x3 x4 x5 x6 x7 x8 x9 x10 x11 x12 x13 x14 x15 x16 x17 x18 x19 x20 x21 x22 x23
    x24 _ x26 x27 x28 x29 x30) := s in
  Build_SnapshotStoreInner x0 x1 x2 x3 x4 x5 x6 x7 x8 x9 x10 x11 x12 x13 x14 x15 x16 x17 x18 x19 x20 x21 x22 x23 x24 v
    x26 x27 x28 x29 x30.
Definition put_sharding (s : SnapshotStoreInner) (v : ShardingConfig) : SnapshotStoreInner :=
  let '(Build_SnapshotStoreInner x0 x1 x2 x3 x4 x5 x6 x7 x8 x9 x10 x11 x12 x13 x14 x15 x16 x17 x18 x19 x20 x21 x22 x23
    x24 x25 _ x27 x28 x29 x30) := s in
  Build_SnapshotStoreInner x0 x1 x2 x3 x4 x5 x6 x7 x8 x9 x10 x11 x12 x13 x14 x15 x16 x17 x18 x19 x20 x21 x22 x23 x24
    x25 v x27 x28 x29 x30.
Definition put_shard_lifecycles (s : SnapshotStoreInner) (v : gmap ShardId ShardLifecycleSnapshot) : SnapshotStoreInner :=
  let '(Build_SnapshotStoreInner x0 x1 x2 x3 x4 x5 x6 x7 x8 x9 x10 x11 x12 x13 x14 x15 x16 x17 x18 x19 x20 x21 x22 x23
    x24 x25 x26 _ x28 x29 x30) := s in
  Build_SnapshotStoreInner x0 x1 x2 x3 x4 x5 x6 x7 x8 x9 x10 x11 x12 x13 x14 x15 x16 x17 x18 x19 x20 x21 x22 x23 x24
    x25 x26 v x28 x29 x30.
Definition put_shard_migration_safety (s : SnapshotStoreInner) (v : list ShardRebalancePlan) : SnapshotStoreInner :=
  let '(Build_SnapshotStoreInner x0 x1 x2 x3 x4 x5 x6 x7 x8 x9 x10 x11 x12 x13 x14 x15 x16 x17 x18 x19 x20 x21 x22 x23
    x24 x25 x26 x27 _ x29 x30) := s in
  Build_SnapshotStoreInner x0 x1 x2 x3 x4 x5 x6 x7 x8 x9 x10 x11 x12 x13 x14 x15 x16 x17 x18 x19 x20 x21 x22 x23 x24
    x25 x26 x27 v x29 x30.
Definition put_settings (s : SnapshotStoreInner) (v : SettingsSnapshot) : SnapshotStoreInner :=
  let '(Build_SnapshotStoreInner x0 x1 x2 x3 x4 x5 x6 x7 x8 x9 x10 x11 x12 x13 x14 x15 x16 x17 x18 x19 x20 x21 x22 x23
    x24 x25 x26 x27 x28 _ x30) := s in
  Build_SnapshotStoreInner x0 x1 x2 x3 x4 x5 x6 x7 x8 x9 x10 x11 x12 x13 x14 x15 x16 x17 x18 x19 x20 x21 x22 x23 x24
    x25 x26 x27 x28 v x30.
Definition put_limits (s : SnapshotStoreInner) (v : LimitsSnapshot) : SnapshotStoreInner :=
  let '(Build_SnapshotStoreInner x0 x1 x2 x3 x4 x5 x6 x7 x8 x9 x10 x11 x12 x13 x14 x15 x16 x17 x18 x19 x20 x21 x22 x23
    x24 x25 x26 x27 x28 x29 _) := s in
  Build_SnapshotStoreInner x0 x1 x2 x3 x4 x5 x6 x7 x8 x9 x10 x11 x12 x13 x14 x15 x16 x17 x18 x19 x20 x21 x22 x23 x24
    x25 x26 x27 x28 x29 v.

(** ** Maps by route key and rings *)

(** Values that know their route. *)
Class RouteSnapshotView (A : Type) := route_of : A -> RouteKey.
#[global] Instance backpressure_route : RouteSnapshotView BackpressureReport := bpr_route_key.
#[global] Instance route_route : RouteSnapshotView RouteSnapshot := rt_route_key.
#[global] Instance route_policy_route : RouteSnapshotView RoutePolicySnapshot := rp_route_key.
#[global] Instance route_checkout_route : RouteSnapshotView RouteCheckoutSnapshot := rc_route_key.

Section RouteMaps.
Context {A : Type} `{RouteSnapshotView A}.
Definition route_get (k : RouteKey) (l : list A) : option A := find (fun v => route_key_eqb (route_of v) k) l.
Fixpoint route_insert (v : A) (l : list A) : list A :=
  match l with
  | [] => [v]
  | w :: l => if route_key_eqb (route_of w) (route_of v) then v :: l else w :: route_insert v l
  end.
(** [entry(k).or_insert_with(..)], changed in place. *)
Definition route_entry (k : RouteKey) (new : A) (f : A -> A) (l : list A) : list A :=
  route_insert (f (default new (route_get k l))) l.
End RouteMaps.

(** A full ring drops its oldest entry. *)
Definition ring_push {A} (capacity : nat) (x : A) (l : list A) : list A :=
  (if (length l =? capacity)%nat then drop 1 l else l) ++ [x].

Definition compare_option (a b : option str) : comparison :=
  match a, b with
  | None, None => Eq | None, Some _ => Lt | Some _, None => Gt | Some a, Some b => str_cmp a b
  end.
Definition and_then (a b : comparison) : comparison := match a with Eq => b | c => c end.
Definition at_most (c : comparison) : bool := match c with Gt => false | _ => true end.
(** The order of the tuples of [route_sort_key]. *)
Definition route_cmp (a b : RouteKey) : comparison :=
  and_then (str_cmp (rk_database a) (rk_database b))
  (and_then (str_cmp (rk_user a) (rk_user b))
  (and_then (compare_option (rk_application_name a) (rk_application_name b))
  (and_then (str_cmp (from_option fmt_addr [] (rk_client_addr a)) (from_option fmt_addr [] (rk_client_addr b)))
            (str_cmp (RouteClass.label (rk_query_class a)) (RouteClass.label (rk_query_class b)))))).
Definition sort_by_route_key {A} `{RouteSnapshotView A} (l : list A) : list A :=
  sort_by (fun a b => at_most (route_cmp (route_of a) (route_of b))) l.

(** The values of a [BTreeMap], by key. *)
Definition values_by_key {A} (m : gmap Z A) : list A :=
  (sort_by (fun a b => a.1 <=? b.1) (map_to_list m)).*2.
Definition sort_by_key {A} (key : A -> Z) (l : list A) : list A := sort_by (fun a b => key a <=? key b) l.

(** ** Clients, pools and servers *)

Definition register_client (s : SnapshotStoreInner) (c : ClientSnapshot) : SnapshotStoreInner :=
  put_clients s (<[cs_client_id c := c]> (i_clients s)).
Definition remove_client (s : SnapshotStoreInner) (id : Z) : SnapshotStoreInner * option ClientSnapshot :=
  (put_clients s (delete id (i_clients s)), i_clients s !! id).
Definition client_snapshots (s : SnapshotStoreInner) : list ClientSnapshot := sort_by_key cs_client_id (values_by_key (i_clients s)).
(** [ClientSnapshotHandle::register]. *)
Definition handle_register (s : SnapshotStoreInner) (id : Z) : SnapshotStoreInner := register_client s (client_snapshot_new id).
Definition set_server_snapshot (s : SnapshotStoreInner) (v : ServerSnapshot) : SnapshotStoreInner :=
  put_servers s (<[ss_backend_id v := v]> (i_servers s)).
Definition remove_server_snapshot (s : SnapshotStoreInner) (id : Z) : SnapshotStoreInner * option ServerSnapshot :=
  (put_servers s (delete id (i_servers s)), i_servers s !! id).
Definition server_snapshots (s : SnapshotStoreInner) : list ServerSnapshot := sort_by_key ss_backend_id (values_by_key (i_servers s)).
Definition set_replica_health_snapshot (s : SnapshotStoreInner) (v : ReplicaReport) : list Sample * SnapshotStoreInner :=
  (record_replica_health_snapshot v, put_replica_health s (<[rh_endpoint_id v := v]> (i_replica_health s))).
Definition remove_replica_health_snapshot (s : SnapshotStoreInner) (id : Z) : SnapshotStoreInner * option ReplicaReport :=
  (put_replica_health s (delete id (i_replica_health s)), i_replica_health s !! id).
Definition replica_health_snapshots (s : SnapshotStoreInner) : list ReplicaReport :=
  sort_by_key rh_endpoint_id (values_by_key (i_replica_health s)).

(** [session_snapshot::update_client_snapshot]. *)
Definition update_client_snapshot (s : SnapshotStoreInner) (id : Z) (database user : str) (application_name : option str)
    (k : RouteKey) (state : string) (connected : Z) : SnapshotStoreInner :=
  register_client s {| cs_client_id := id; cs_user := Some user; cs_database := Some database;
                       cs_application_name := application_name; cs_route_key := Some k; cs_state := lit state;
                       cs_connected_duration := connected |}.

(** ** Pins *)

Definition set_pinning_snapshot (s : SnapshotStoreInner) (v : PinningSnapshot) : SnapshotStoreInner :=
  put_pinning s (<[pin_client_id v := v]> (i_pinning s)).
Definition remove_pinning_snapshot (s : SnapshotStoreInner) (id : Z) : SnapshotStoreInner * option PinningSnapshot :=
  (put_pinning s (delete id (i_pinning s)), i_pinning s !! id).
Definition pinning_snapshots (s : SnapshotStoreInner) : list PinningSnapshot := sort_by_key pin_client_id (values_by_key (i_pinning s)).
Definition snapshot_pin_reason (r : Virtual.PinReason) : Events.PinReason :=
  match r with
  | Virtual.OpenTransaction => Events.OpenTransaction
  | Virtual.FailedTransaction => Events.FailedTransaction
  | Virtual.SessionStatePin | Virtual.TempTable | Virtual.AdvisoryLockPin => Events.SessionStatePin
  | Virtual.CopyPin => Events.CopyPin
  | Virtual.ListenNotify => Events.ListenNotify
  | Virtual.UnknownProtocolState => Events.UnknownProtocolState
  end.
Definition record_pinning_snapshot (s : SnapshotStoreInner) (client backend : Z) (r : Virtual.PinReason) (k : RouteKey) (d : Z)
    : SnapshotStoreInner :=
  set_pinning_snapshot s {| pin_client_id := client; pin_backend_id := Some backend; pin_route_key := Some k;
                            pin_why := snapshot_pin_reason r; pin_duration := d |}.

(** ** Prepared statements *)

Definition set_statements (s : SnapshotStoreInner) (l : list PreparedStatementSnapshot) : SnapshotStoreInner :=
  put_prepared s (with_statements (i_prepared s) l).
Definition bump_prepared (s : SnapshotStoreInner) (statements materializations : Z) : SnapshotStoreInner :=
  put_prepared s {| prep_statement_count := wrap_u 64 (prep_statement_count (i_prepared s) + statements);
                    prep_materialization_count := wrap_u 64 (prep_materialization_count (i_prepared s) + materializations);
                    prep_statements := prep_statements (i_prepared s) |}.
Definition increment_statement_count (s : SnapshotStoreInner) : SnapshotStoreInner := bump_prepared s 1 0.
Definition increment_materialization_count (s : SnapshotStoreInner) : SnapshotStoreInner := bump_prepared s 0 1.

Definition put_cache_totals (p : PerformanceSnapshot) (hits misses : Z) : PerformanceSnapshot :=
  {| pf_budgets := pf_budgets p; pf_regressions := pf_regressions p; pf_profile_status := pf_profile_status p;
     pf_process_status := pf_process_status p; pf_process_sample := pf_process_sample p; pf_cpu_per_query := pf_cpu_per_query p;
     pf_memory_per_client_bytes := pf_memory_per_client_bytes p; pf_protocol_buffer_copies := pf_protocol_buffer_copies p;
     pf_pool_checkout_lock_wait_ms := pf_pool_checkout_lock_wait_ms p; pf_prepared_cache_hits := hits;
     pf_prepared_cache_misses := misses; pf_observability_hot_path_allocations := pf_observability_hot_path_allocations p;
     pf_idle_clients := pf_idle_clients p |}.
Definition cache_event (s : SnapshotStoreInner) (hit : bool) : list Sample * SnapshotStoreInner :=
  let p := i_performance s in
  let hits := if hit then wrap_u 64 (pf_prepared_cache_hits p + 1) else pf_prepared_cache_hits p in
  let misses := if hit then pf_prepared_cache_misses p else wrap_u 64 (pf_prepared_cache_misses p + 1) in
  (record_prepared_cache_totals hits misses, put_performance s (put_cache_totals p hits misses)).
Definition increment_cache_hit (s : SnapshotStoreInner) : list Sample * SnapshotStoreInner := cache_event s true.
Definition increment_cache_miss (s : SnapshotStoreInner) : list Sample * SnapshotStoreInner := cache_event s false.

(** [PreparedCatalog::materialized_backend_count] and [snapshot]. *)
Definition materialized_backend_count (c : PreparedCatalog) (st : PreparedStatement) : Z :=
  if cache_key st =? 0 then 0
  else len (List.filter (fun ss => bool_decide (ss !! cache_key st = Some (summary_shard_id (shard_summary st))))
              (map_to_list (materialized c)).*2).
Definition statement_snapshot (c : PreparedCatalog) (st : PreparedStatement) : PreparedStatementSnapshot :=
  {| pst_session_id := session_id c; pst_client_statement_name := client_name st; pst_backend_statement_name := backend_name st;
     pst_materialized_backend_count := materialized_backend_count c st;
     pst_invalidation_count := default 0 (invalidation_counts c !! cache_key st) |}.
Definition statement_le (a b : PreparedStatementSnapshot) : bool :=
  at_most (and_then (str_cmp (pst_client_statement_name a) (pst_client_statement_name b))
                    (str_cmp (pst_backend_statement_name a) (pst_backend_statement_name b))).
Definition catalog_snapshot `{MapOrder} (c : PreparedCatalog) : list PreparedStatementSnapshot :=
  sort_by statement_le (statement_snapshot c <$> order (map_to_list (Prepare.statements c)).*2).

(** ** Recoveries *)

Definition same_recovery (t : RecoveryTrigger) (a : RecoveryAction) (o : MetricOutcome) (r : RecoverySnapshot) : bool :=
  bool_decide (rec_trigger r = t) && bool_decide (SnapshotTypes.rec_action r = a) && bool_decide (rec_outcome r = o).
Definition recovery_again (r : RecoverySnapshot) : RecoverySnapshot :=
  {| rec_trigger := rec_trigger r; SnapshotTypes.rec_action := SnapshotTypes.rec_action r; rec_outcome := rec_outcome r;
     rec_count := wrap_u 64 (rec_count r + 1); rec_last_error := rec_last_error r |}.
Definition recovery_failed (e : str) (r : RecoverySnapshot) : RecoverySnapshot :=
  {| rec_trigger := rec_trigger r; SnapshotTypes.rec_action := SnapshotTypes.rec_action r; rec_outcome := rec_outcome r;
     rec_count := rec_count r; rec_last_error := Some e |}.
(** [iter_mut().find(..)], the rest of the list, and what is put at its end. *)
Fixpoint update_first {A} (p : A -> bool) (f : A -> A) (new : list A) (l : list A) : list A :=
  match l with
  | [] => new
  | x :: l => if p x then f x :: l else x :: update_first p f new l
  end.
Definition record_recovery (s : SnapshotStoreInner) (t : RecoveryTrigger) (a : RecoveryAction) (o : MetricOutcome)
    : SnapshotStoreInner :=
  put_recoveries s (update_first (same_recovery t a o) recovery_again [recovery_again (recovery_snapshot_new t a o)] (i_recoveries s)).
Definition set_recovery_last_error (s : SnapshotStoreInner) (t : RecoveryTrigger) (a : RecoveryAction) (o : MetricOutcome) (e : str)
    : SnapshotStoreInner :=
  put_recoveries s (update_first (same_recovery t a o) (recovery_failed e) [] (i_recoveries s)).
Definition recovery_le (a b : RecoverySnapshot) : bool :=
  at_most (and_then (str_cmp (text (rec_trigger a)) (text (rec_trigger b)))
          (and_then (str_cmp (text (SnapshotTypes.rec_action a)) (text (SnapshotTypes.rec_action b)))
                    (str_cmp (text (rec_outcome a)) (text (rec_outcome b))))).
Definition recovery_snapshots (s : SnapshotStoreInner) : list RecoverySnapshot := sort_by recovery_le (i_recoveries s).

(** ** Backpressure *)

Definition set_backpressure_snapshot (s : SnapshotStoreInner) (v : BackpressureReport) : SnapshotStoreInner :=
  put_backpressure s (route_insert v (i_backpressure s)).
Definition backpressure_update (s : SnapshotStoreInner) (k : RouteKey) (f : BackpressureReport -> BackpressureReport)
    : SnapshotStoreInner :=
  put_backpressure s (route_entry k (backpressure_report_new k) f (i_backpressure s)).
Definition set_backpressure_route (s : SnapshotStoreInner) (k : RouteKey) (waiting in_flight : Z) : SnapshotStoreInner :=
  backpressure_update s k (fun b =>
    {| bpr_route_key := bpr_route_key b; bpr_waiting := waiting; bpr_in_flight := in_flight; bpr_rejected := bpr_rejected b;
       bpr_timed_out := bpr_timed_out b; bpr_canceled := bpr_canceled b |}).
Definition bump_backpressure (rejected timed_out canceled : Z) (b : BackpressureReport) : BackpressureReport :=
  {| bpr_route_key := bpr_route_key b; bpr_waiting := bpr_waiting b; bpr_in_flight := bpr_in_flight b;
     bpr_rejected := wrap_u 64 (bpr_rejected b + rejected); bpr_timed_out := wrap_u 64 (bpr_timed_out b + timed_out);
     bpr_canceled := wrap_u 64 (bpr_canceled b + canceled) |}.
Definition increment_backpressure_rejected (s : SnapshotStoreInner) (k : RouteKey) : SnapshotStoreInner :=
  backpressure_update s k (bump_backpressure 1 0 0).
Definition increment_backpressure_timed_out (s : SnapshotStoreInner) (k : RouteKey) : SnapshotStoreInner :=
  backpressure_update s k (bump_backpressure 0 1 0).
Definition increment_backpressure_canceled (s : SnapshotStoreInner) (k : RouteKey) : SnapshotStoreInner :=
  backpressure_update s k (bump_backpressure 0 0 1).

(** ** The runtime *)

Definition set_runtime_snapshot (s : SnapshotStoreInner) (v : RuntimeSnapshot) : list Sample * SnapshotStoreInner :=
  (record_runtime_snapshot v, put_runtime s (Some v)).
Definition set_runtime_shard_snapshot (s : SnapshotStoreInner) (v : RuntimeShardSnapshot) : SnapshotStoreInner :=
  put_runtime_shards s (<[sh_shard_id v := v]> (i_runtime_shards s)).
Definition runtime_shard_snapshots (s : SnapshotStoreInner) : list RuntimeShardSnapshot := values_by_key (i_runtime_shards s).
Definition same_node (v w : NodeSummarySnapshot) : bool :=
  bool_decide (ns_role w = ns_role v) && bool_decide (ns_node_id w = ns_node_id v).
Definition set_node_snapshot (s : SnapshotStoreInner) (v : NodeSummarySnapshot) : list Sample * SnapshotStoreInner :=
  (record_node_heartbeat_age (ns_node_id v) (ns_heartbeat_age v),
   put_nodes s (update_first (same_node v) (fun _ => v) [v] (i_nodes s))).
Definition node_le (a b : NodeSummarySnapshot) : bool :=
  at_most (and_then (str_cmp (text (ns_role a)) (text (ns_role b))) (str_cmp (ns_node_id a) (ns_node_id b))).
Definition node_snapshots (s : SnapshotStoreInner) : list NodeSummarySnapshot := sort_by node_le (i_nodes s).
Definition set_mirror_snapshot (s : SnapshotStoreInner) (v : MirrorSummarySnapshot) : list Sample * SnapshotStoreInner :=
  (record_mirror_snapshot v, put_mirror s (Some v)).
Definition set_pressure_snapshot (s : SnapshotStoreInner) (v : PressureReport) : list Sample * SnapshotStoreInner :=
  (record_pressure_snapshot v, put_pressure s (Some v)).

(** ** Benchmarks, performance and adaptation *)

Definition record_benchmark_run_snapshot (s : SnapshotStoreInner) (v : BenchmarkRunSnapshot) : list Sample * SnapshotStoreInner :=
  (record_benchmark_run v, put_benchmark_runs s (ring_push BENCHMARK_RUN_RING_CAPACITY v (i_benchmark_runs s))).
Definition set_performance_snapshot (s : SnapshotStoreInner) (v : PerformanceSnapshot) : list Sample * SnapshotStoreInner :=
  (record_performance_snapshot v, put_performance s v).
Definition put_process (p : PerformanceSnapshot) (st : ProcessMetricCollectionStatus) (x : ProcessMetricSample) : PerformanceSnapshot :=
  {| pf_budgets := pf_budgets p; pf_regressions := pf_regressions p; pf_profile_status := pf_profile_status p;
     pf_process_status := st; pf_process_sample := Some x; pf_cpu_per_query := pf_cpu_per_query p;
     pf_memory_per_client_bytes := pf_memory_per_client_bytes p; pf_protocol_buffer_copies := pf_protocol_buffer_copies p;
     pf_pool_checkout_lock_wait_ms := pf_pool_checkout_lock_wait_ms p; pf_prepared_cache_hits := pf_prepared_cache_hits p;
     pf_prepared_cache_misses := pf_prepared_cache_misses p;
     pf_observability_hot_path_allocations := pf_observability_hot_path_allocations p; pf_idle_clients := pf_idle_clients p |}.
(** What [collect_process_metrics] returned is an argument. *)
Definition refresh_performance_snapshot (s : SnapshotStoreInner) (c : ProcessMetricCollectionStatus * ProcessMetricSample)
    : list Sample * SnapshotStoreInner :=
  let p := match pf_process_sample (i_performance s) with None => put_process (i_performance s) c.1 c.2 | Some _ => i_performance s end in
  (record_performance_snapshot p, put_performance s p).
Definition record_pool_checkout_lock_wait_ms (s : SnapshotStoreInner) (wait_ms : f64) : SnapshotStoreInner :=
  let p := i_performance s in
  put_performance s
    {| pf_budgets := pf_budgets p; pf_regressions := pf_regressions p; pf_profile_status := pf_profile_status p;
       pf_process_status := pf_process_status p; pf_process_sample := pf_process_sample p; pf_cpu_per_query := pf_cpu_per_query p;
       pf_memory_per_client_bytes := pf_memory_per_client_bytes p; pf_protocol_buffer_copies := pf_protocol_buffer_copies p;
       pf_pool_checkout_lock_wait_ms := Some wait_ms; pf_prepared_cache_hits := pf_prepared_cache_hits p;
       pf_prepared_cache_misses := pf_prepared_cache_misses p;
       pf_observability_hot_path_allocations := pf_observability_hot_path_allocations p; pf_idle_clients := pf_idle_clients p |}.
Definition record_adaptive_recommendation_snapshot (s : SnapshotStoreInner) (v : AdaptiveRecommendationSnapshot)
    : list Sample * SnapshotStoreInner :=
  (record_adaptive_recommendation v,
   put_adaptive_recommendations s (ring_push ADAPTIVE_RECOMMENDATION_RING_CAPACITY v (i_adaptive_recommendations s))).
Definition record_adaptive_outcome_snapshot (s : SnapshotStoreInner) (v : AdaptiveOutcomeSnapshot) : list Sample * SnapshotStoreInner :=
  (record_adaptive_outcome v, put_adaptive_outcomes s (ring_push ADAPTIVE_OUTCOME_RING_CAPACITY v (i_adaptive_outcomes s))).

(** ** Routes *)

Definition set_route_snapshot (s : SnapshotStoreInner) (v : RouteSnapshot) : SnapshotStoreInner :=
  put_routes s (route_insert v (i_routes s)).
Definition set_route_policy_snapshot (s : SnapshotStoreInner) (v : RoutePolicySnapshot) : SnapshotStoreInner :=
  put_route_policies s (route_insert v (i_route_policies s)).
(** A checkout like the last one is counted but not stored again: a section
    that reads and one that writes. *)
Definition route_checkout_is_stored (s : SnapshotStoreInner) (v : RouteCheckoutSnapshot) : bool :=
  match route_get (rc_route_key v) (i_route_checkouts s) with Some w => route_checkout_eqb w v | None => false end.
Definition insert_route_checkout (s : SnapshotStoreInner) (v : RouteCheckoutSnapshot) : SnapshotStoreInner :=
  put_route_checkouts s (route_insert v (i_route_checkouts s)).
Definition set_route_checkout_snapshot (s : SnapshotStoreInner) (v : RouteCheckoutSnapshot) : list Sample * SnapshotStoreInner :=
  (record_route_checkout_snapshot v, if route_checkout_is_stored s v then s else insert_route_checkout s v).

Section Views.
Context `{MapOrder}.
Definition backpressure_snapshots (s : SnapshotStoreInner) : list BackpressureReport := sort_by_route_key (order (i_backpressure s)).
Definition route_snapshots (s : SnapshotStoreInner) : list RouteSnapshot := sort_by_route_key (order (i_routes s)).
Definition route_policy_snapshots (s : SnapshotStoreInner) : list RoutePolicySnapshot := sort_by_route_key (order (i_route_policies s)).
Definition route_checkout_snapshots (s : SnapshotStoreInner) : list RouteCheckoutSnapshot :=
  sort_by_route_key (order (i_route_checkouts s)).
Definition shard_lifecycle_snapshots (s : SnapshotStoreInner) : list ShardLifecycleSnapshot :=
  sort_by (fun a b => str_le (sl_shard_id a) (sl_shard_id b)) (order (map_to_list (i_shard_lifecycles s)).*2).
End Views.

(** ** Policies and shards *)

Definition set_route_map_reload_snapshot (s : SnapshotStoreInner) (v : RouteMapReloadSnapshot) : list Sample * SnapshotStoreInner :=
  (record_route_map_reload_snapshot v, put_route_map_reloads s (i_route_map_reloads s ++ [v])).
Definition set_policy_reload_snapshot (s : SnapshotStoreInner) (v : PolicyReloadSnapshot) : SnapshotStoreInner :=
  put_policy_reloads s (i_policy_reloads s ++ [v]).
Definition record_policy_event (s : SnapshotStoreInner) (e : PolicyAuditEvent) : SnapshotStoreInner :=
  let s := put_policy_audit_events s (ring_push POLICY_AUDIT_RING_CAPACITY e (i_policy_audit_events s)) in
  match ev_kind e with
  | AuditDecision => put_policy_decisions s (ring_push POLICY_DECISION_RING_CAPACITY e (i_policy_decisions s))
  | _ => s
  end.
Definition set_shard_lifecycle_snapshot (s : SnapshotStoreInner) (v : ShardLifecycleSnapshot) : list Sample * SnapshotStoreInner :=
  (record_shard_lifecycle_snapshot v, put_shard_lifecycles s (<[sl_shard_id v := v]> (i_shard_lifecycles s))).
Definition set_shard_migration_safety_snapshot (s : SnapshotStoreInner) (p : ShardRebalancePlan) : list Sample * SnapshotStoreInner :=
  (record_shard_migration_safety_snapshot p, put_shard_migration_safety s (i_shard_migration_safety s ++ [p])).

(** ** Every change *)

Inductive StoreOp :=
| OpRegisterClient (c : ClientSnapshot)
| OpRemoveClient (id : Z)
| OpSetPool (v : PoolSnapshot)
| OpSetPoolLifecycle (v : PoolLifecycleSnapshot)
| OpSetServer (v : ServerSnapshot)
| OpRemoveServer (id : Z)
| OpSetReplicaHealth (v : ReplicaReport)
| OpRemoveReplicaHealth (id : Z)
| OpSetPrepared (v : PreparedSnapshot)
| OpStatement
| OpMaterialization
| OpCacheHit
| OpCacheMiss
| OpSetStatements (l : list PreparedStatementSnapshot)
| OpSetPinning (v : PinningSnapshot)
| OpRemovePinning (id : Z)
| OpRecovery (t : RecoveryTrigger) (a : RecoveryAction) (o : MetricOutcome)
| OpRecoveryError (t : RecoveryTrigger) (a : RecoveryAction) (o : MetricOutcome) (e : str)
| OpSetBackpressure (v : BackpressureReport)
| OpBackpressureRoute (k : RouteKey) (waiting in_flight : Z)
| OpBackpressureRejected (k : RouteKey)
| OpBackpressureTimedOut (k : RouteKey)
| OpBackpressureCanceled (k : RouteKey)
| OpSetPressure (v : PressureReport)
| OpSetRuntime (v : RuntimeSnapshot)
| OpSetRuntimeShard (v : RuntimeShardSnapshot)
| OpSetNode (v : NodeSummarySnapshot)
| OpSetMirror (v : MirrorSummarySnapshot)
| OpBenchmarkRun (v : BenchmarkRunSnapshot)
| OpSetPerformance (v : PerformanceSnapshot)
| OpRefreshPerformance (c : ProcessMetricCollectionStatus * ProcessMetricSample)
| OpLockWait (wait_ms : f64)
| OpAdaptiveRecommendation (v : AdaptiveRecommendationSnapshot)
| OpAdaptiveOutcome (v : AdaptiveOutcomeSnapshot)
| OpSetRoute (v : RouteSnapshot)
| OpSetRoutePolicy (v : RoutePolicySnapshot)
| OpSetRouteCheckout (v : RouteCheckoutSnapshot)
| OpInsertRouteCheckout (v : RouteCheckoutSnapshot)
| OpRouteMapReload (v : RouteMapReloadSnapshot)
| OpPolicyReload (v : PolicyReloadSnapshot)
| OpSetPolicyStatus (v : PolicyStatusSnapshot)
| OpPolicyEvent (e : PolicyAuditEvent)
| OpSetSharding (v : ShardingConfig)
| OpSetShardLifecycle (v : ShardLifecycleSnapshot)
| OpMigrationSafety (p : ShardRebalancePlan)
| OpSetSettings (v : SettingsSnapshot)
| OpSetLimits (v : LimitsSnapshot).

Definition apply_op (s : SnapshotStoreInner) (op : StoreOp) : list Sample * SnapshotStoreInner :=
  match op with
  | OpRegisterClient c => ([], register_client s c)
  | OpRemoveClient id => ([], (remove_client s id).1)
  | OpSetPool v => ([], put_pool s v)
  | OpSetPoolLifecycle v => ([], put_pool_lifecycle s v)
  | OpSetServer v => ([], set_server_snapshot s v)
  | OpRemoveServer id => ([], (remove_server_snapshot s id).1)
  | OpSetReplicaHealth v => set_replica_health_snapshot s v
  | OpRemoveReplicaHealth id => ([], (remove_replica_health_snapshot s id).1)
  | OpSetPrepared v => ([], put_prepared s v)
  | OpStatement => ([], increment_statement_count s)
  | OpMaterialization => ([], increment_materialization_count s)
  | OpCacheHit => increment_cache_hit s
  | OpCacheMiss => increment_cache_miss s
  | OpSetStatements l => ([], set_statements s l)
  | OpSetPinning v => ([], set_pinning_snapshot s v)
  | OpRemovePinning id => ([], (remove_pinning_snapshot s id).1)
  | OpRecovery t a o => ([], record_recovery s t a o)
  | OpRecoveryError t a o e => ([], set_recovery_last_error s t a o e)
  | OpSetBackpressure v => ([], set_backpressure_snapshot s v)
  | OpBackpressureRoute k w i => ([], set_backpressure_route s k w i)
  | OpBackpressureRejected k => ([], increment_backpressure_rejected s k)
  | OpBackpressureTimedOut k => ([], increment_backpressure_timed_out s k)
  | OpBackpressureCanceled k => ([], increment_backpressure_canceled s k)
  | OpSetPressure v => set_pressure_snapshot s v
  | OpSetRuntime v => set_runtime_snapshot s v
  | OpSetRuntimeShard v => ([], set_runtime_shard_snapshot s v)
  | OpSetNode v => set_node_snapshot s v
  | OpSetMirror v => set_mirror_snapshot s v
  | OpBenchmarkRun v => record_benchmark_run_snapshot s v
  | OpSetPerformance v => set_performance_snapshot s v
  | OpRefreshPerformance c => refresh_performance_snapshot s c
  | OpLockWait w => ([], record_pool_checkout_lock_wait_ms s w)
  | OpAdaptiveRecommendation v => record_adaptive_recommendation_snapshot s v
  | OpAdaptiveOutcome v => record_adaptive_outcome_snapshot s v
  | OpSetRoute v => ([], set_route_snapshot s v)
  | OpSetRoutePolicy v => ([], set_route_policy_snapshot s v)
  | OpSetRouteCheckout v => set_route_checkout_snapshot s v
  | OpInsertRouteCheckout v => ([], insert_route_checkout s v)
  | OpRouteMapReload v => set_route_map_reload_snapshot s v
  | OpPolicyReload v => ([], set_policy_reload_snapshot s v)
  | OpSetPolicyStatus v => ([], put_policy_status s (Some v))
  | OpPolicyEvent e => ([], record_policy_event s e)
  | OpSetSharding v => ([], put_sharding s v)
  | OpSetShardLifecycle v => set_shard_lifecycle_snapshot s v
  | OpMigrationSafety p => set_shard_migration_safety_snapshot s p
  | OpSetSettings v => ([], put_settings s v)
  | OpSetLimits v => ([], put_limits s v)
  end.
Definition run_ops : SnapshotStoreInner -> list StoreOp -> SnapshotStoreInner := foldl (fun s op => (apply_op s op).2).

(** ** What the store promises *)

(** The last [n] of what happened. *)
Definition last_n {A} (n : nat) (l : list A) : list A := drop (length l - n) l.

Definition policy_event (op : StoreOp) : option PolicyAuditEvent := match op with OpPolicyEvent e => Some e | _ => None end.
Definition policy_decision_event (op : StoreOp) : option PolicyAuditEvent :=
  match op with OpPolicyEvent e => match ev_kind e with AuditDecision => Some e | _ => None end | _ => None end.
Definition recommendation_op (op : StoreOp) : option AdaptiveRecommendationSnapshot :=
  match op with OpAdaptiveRecommendation v => Some v | _ => None end.
Definition outcome_op (op : StoreOp) : option AdaptiveOutcomeSnapshot := match op with OpAdaptiveOutcome v => Some v | _ => None end.
Definition benchmark_op (op : StoreOp) : option BenchmarkRunSnapshot := match op with OpBenchmarkRun v => Some v | _ => None end.
Definition recovery_op (t : RecoveryTrigger) (a : RecoveryAction) (o : MetricOutcome) (op : StoreOp) : bool :=
  match op with OpRecovery t' a' o' => bool_decide (t' = t) && bool_decide (a' = a) && bool_decide (o' = o) | _ => false end.

Definition reported_recoveries (t : RecoveryTrigger) (a : RecoveryAction) (o : MetricOutcome) (l : list RecoverySnapshot) : Z :=
  from_option rec_count 0 (find (same_recovery t a o) l).

(** At most one value for a route. *)
Fixpoint one_per_route {A} `{RouteSnapshotView A} (l : list A) : Prop :=
  match l with [] => True | v :: l => Forall (fun w => ~ route_of v ≡ route_of w) l /\ one_per_route l end.

Lemma ring_push_last {A} n (x : A) l : (0 < n)%nat -> ring_push n x (last_n n l) = last_n n (l ++ [x]).
Proof.
  intros Hn. unfold ring_push, last_n. rewrite length_drop, length_app. cbn [length].
  destruct (decide (n <= length l)%nat).
  - rewrite (proj2 (Nat.eqb_eq _ _)) by lia. rewrite drop_drop, drop_app_le by lia. do 2 f_equal. lia.
  - rewrite (proj2 (Nat.eqb_neq _ _)) by lia. rewrite drop_app_le by lia. do 2 f_equal. lia.
Qed.

Lemma omap_snoc {A B} (f : A -> option B) l x :
  omap f (l ++ [x]) = omap f l ++ match f x with Some y => [y] | None => [] end.
Proof. rewrite omap_app. cbn. by destruct (f x). Qed.

Section RouteMapFacts.
Context {A : Type} `{RouteSnapshotView A}.
Lemma route_insert_elem v w l : w ∈ route_insert v l -> w = v \/ w ∈ l.
Proof.
  induction l as [|u l IH]; cbn; [set_solver|]. case_match; [set_solver|].
  rewrite !elem_of_cons. intros [->|Hw]; [by auto|]. destruct (IH Hw); auto.
Qed.
Lemma route_insert_unique v l : one_per_route l -> one_per_route (route_insert v l).
Proof.
  induction l as [|u l IH]; cbn; [by split; [constructor|]|]. intros [Hu Hl].
  destruct (route_key_eqb (route_of u) (route_of v)) eqn:E.
  - split; [|done]. eapply Forall_impl; [exact Hu|]. intros w Hw Hvw. apply Hw. by etrans; [exact E|].
  - split; [|by apply IH]. apply Forall_forall. intros w Hw. apply route_insert_elem in Hw as [->|Hw].
    + unfold equiv, route_key_equiv. by rewrite E.
    + by eapply Forall_forall in Hu.
Qed.
Lemma route_get_insert k v l :
  route_get k (route_insert v l) = if route_key_eqb (route_of v) k then Some v else route_get k l.
Proof.
  unfold route_get. induction l as [|u l IH]; cbn; [done|].
  destruct (route_key_eqb (route_of u) (route_of v)) eqn:E; cbn.
  - destruct (route_key_eqb (route_of v) k) eqn:Ev; [done|]. destruct (route_key_eqb (route_of u) k) eqn:Eu; [|done].
    assert (route_of v ≡ k) as Hk; [|unfold equiv, route_key_equiv in Hk; congruence].
    by etrans; [symmetry; exact E|].
  - rewrite IH. destruct (route_key_eqb (route_of u) k) eqn:Eu; [|done]. destruct (route_key_eqb (route_of v) k) eqn:Ev; [|done].
    assert (route_of u ≡ route_of v) as Hk; [|unfold equiv, route_key_equiv in Hk; congruence].
    by etrans; [exact Eu|symmetry].
Qed.
End RouteMapFacts.

Lemma same_recovery_self t a o r : same_recovery t a o r = true <-> rec_trigger r = t /\ SnapshotTypes.rec_action r = a /\ rec_outcome r = o.
Proof. unfold same_recovery. rewrite !andb_true_iff, !bool_decide_eq_true. tauto. Qed.

Lemma recovery_again_counts t a o t' a' o' l :
  reported_recoveries t a o (update_first (same_recovery t' a' o') recovery_again [recovery_again (recovery_snapshot_new t' a' o')] l)
  = if bool_decide (t' = t) && bool_decide (a' = a) && bool_decide (o' = o)
    then wrap_u 64 (reported_recoveries t a o l + 1) else reported_recoveries t a o l.
Proof.
  unfold reported_recoveries. induction l as [|x l IH]; cbn [update_first find].
  - unfold same_recovery. cbn. by destruct (_ && _ && _).
  - destruct (same_recovery t' a' o' x) eqn:Hp; cbn [find].
    + apply same_recovery_self in Hp as (<- & <- & <-). change (same_recovery t a o (recovery_again x)) with (same_recovery t a o x).
      unfold same_recovery at 1 3 5. by destruct (_ && _ && _).
    + destruct (same_recovery t a o x) eqn:Hq; [|exact IH]. cbn [from_option].
      destruct (_ && _ && _) eqn:E; [|done]. rewrite !andb_true_iff, !bool_decide_eq_true in E. destruct E as [[-> ->] ->]. congruence.
Qed.
Lemma recovery_failed_counts t a o t' a' o' e l :
  reported_recoveries t a o (update_first (same_recovery t' a' o') (recovery_failed e) [] l) = reported_recoveries t a o l.
Proof.
  unfold reported_recoveries. induction l as [|x l IH]; cbn [update_first find]; [done|].
  destruct (same_recovery t' a' o' x); cbn [find]; [|by destruct (same_recovery t a o x)].
  change (same_recovery t a o (recovery_failed e x)) with (same_recovery t a o x). by destruct (same_recovery t a o x).
Qed.

(** What the last report about a client was, if it is still there. *)
Definition report_of (id : Z) (acc : option ClientSnapshot) (op : StoreOp) : option ClientSnapshot :=
  match op with
  | OpRegisterClient c => if cs_client_id c =? id then Some c else acc
  | OpRemoveClient id' => if id' =? id then None else acc
  | _ => acc
  end.
Definition last_report (id : Z) (ops : list StoreOp) : option ClientSnapshot := foldl (report_of id) None ops.

Record store_inv (ops : list StoreOp) (s : SnapshotStoreInner) : Prop := {
  inv_audit : i_policy_audit_events s = last_n POLICY_AUDIT_RING_CAPACITY (omap policy_event ops);
  inv_decisions : i_policy_decisions s = last_n POLICY_DECISION_RING_CAPACITY (omap policy_decision_event ops);
  inv_recommendations : i_adaptive_recommendations s = last_n ADAPTIVE_RECOMMENDATION_RING_CAPACITY (omap recommendation_op ops);
  inv_outcomes : i_adaptive_outcomes s = last_n ADAPTIVE_OUTCOME_RING_CAPACITY (omap outcome_op ops);
  inv_benchmarks : i_benchmark_runs s = last_n BENCHMARK_RUN_RING_CAPACITY (omap benchmark_op ops);
  inv_recoveries : forall t a o,
    reported_recoveries t a o (i_recoveries s) = wrap_u 64 (len (List.filter (recovery_op t a o) ops));
  inv_clients : forall id, i_clients s !! id = last_report id ops;
  inv_backpressure : one_per_route (i_backpressure s);
  inv_routes : one_per_route (i_routes s);
  inv_policies : one_per_route (i_route_policies s);
  inv_checkouts : one_per_route (i_route_checkouts s);
}.

Lemma store_inv_new : store_inv [] inner_default.
Proof. by split. Qed.

Lemma recovery_filter_snoc t a o ops op :
  len (List.filter (recovery_op t a o) (ops ++ [op])) = len (List.filter (recovery_op t a o) ops) + (if recovery_op t a o op then 1 else 0).
Proof. rewrite List.filter_app. cbn. unfold len. rewrite length_app. destruct (recovery_op t a o op); cbn; lia. Qed.

(** A field of the store that is the ring of some of the changes. *)
Definition ring_of {A} (capacity : nat) (field : SnapshotStoreInner -> list A) (ev : StoreOp -> option A) : Prop :=
  forall s op, field (apply_op s op).2 = match ev op with Some x => ring_push capacity x (field s) | None => field s end.
Lemma ring_step {A} n (field : SnapshotStoreInner -> list A) ev ops s op :
  ring_of n field ev -> (0 < n)%nat -> field s = last_n n (omap ev ops) ->
  field (apply_op s op).2 = last_n n (omap ev (ops ++ [op])).
Proof.
  intros Hr Hn Hs. rewrite Hr, omap_snoc, Hs. destruct (ev op); [by apply ring_push_last|by rewrite app_nil_r].
Qed.
Ltac solve_ring :=
  intros [] op; destruct op; try reflexivity; cbn; unfold record_policy_event; cbn; by repeat case_match.
Lemma audit_ring : ring_of POLICY_AUDIT_RING_CAPACITY i_policy_audit_events policy_event.
Proof. solve_ring. Qed.
Lemma decision_ring : ring_of POLICY_DECISION_RING_CAPACITY i_policy_decisions policy_decision_event.
Proof. solve_ring. Qed.
Lemma recommendation_ring : ring_of ADAPTIVE_RECOMMENDATION_RING_CAPACITY i_adaptive_recommendations recommendation_op.
Proof. solve_ring. Qed.
Lemma outcome_ring : ring_of ADAPTIVE_OUTCOME_RING_CAPACITY i_adaptive_outcomes outcome_op.
Proof. solve_ring. Qed.
Lemma benchmark_ring : ring_of BENCHMARK_RUN_RING_CAPACITY i_benchmark_runs benchmark_op.
Proof. solve_ring. Qed.

Lemma recoveries_put s l : i_recoveries (put_recoveries s l) = l.
Proof. by destruct s. Qed.

Lemma recoveries_step ops s op t a o :
  reported_recoveries t a o (i_recoveries s) = wrap_u 64 (len (List.filter (recovery_op t a o) ops)) ->
  reported_recoveries t a o (i_recoveries (apply_op s op).2) = wrap_u 64 (len (List.filter (recovery_op t a o) (ops ++ [op]))).
Proof.
  intros I. rewrite recovery_filter_snoc.
  destruct op; cbn [apply_op snd recovery_op]; rewrite ?Z.add_0_r; try (destruct s; exact I).
  - unfold record_recovery. rewrite recoveries_put, recovery_again_counts, I.
    destruct (_ && _ && _); [apply wrap_next|by rewrite Z.add_0_r].
  - unfold set_recovery_last_error. by rewrite recoveries_put, recovery_failed_counts.
  - cbn. by repeat case_match; destruct s.
  - unfold record_policy_event. by destruct s; case_match.
Qed.
Lemma clients_step ops s op id :
  i_clients s !! id = last_report id ops -> i_clients (apply_op s op).2 !! id = last_report id (ops ++ [op]).
Proof.
  intros I. unfold last_report. rewrite foldl_app. cbn [foldl]. fold (last_report id ops). rewrite <- I. destruct s.
  destruct op; try reflexivity; cbn.
  - rewrite lookup_insert. repeat case_decide; repeat case_match; try done; lia.
  - rewrite lookup_delete. repeat case_decide; repeat case_match; try done; lia.
  - unfold set_route_checkout_snapshot. cbn. by repeat case_match.
  - unfold record_policy_event. cbn. by case_match.
Qed.
Lemma store_inv_step ops s op : store_inv ops s -> store_inv (ops ++ [op]) (apply_op s op).2.
Proof.
  intros []. split;
    [by apply (ring_step _ _ _ _ _ _ audit_ring); [apply Nat.ltb_lt|] | by apply (ring_step _ _ _ _ _ _ decision_ring); [apply Nat.ltb_lt|]
    |by apply (ring_step _ _ _ _ _ _ recommendation_ring); [apply Nat.ltb_lt|] | by apply (ring_step _ _ _ _ _ _ outcome_ring); [apply Nat.ltb_lt|]
    |by apply (ring_step _ _ _ _ _ _ benchmark_ring); [apply Nat.ltb_lt|] | intros; by apply recoveries_step
    |intros; by apply clients_step | | | | ];
    destruct s, op; cbn in *; try assumption; unfold record_policy_event; cbn; repeat case_match; try assumption;
    by apply route_insert_unique.
Qed.
Lemma store_inv_run ops : store_inv ops (run_ops inner_default ops).
Proof.
  induction ops as [|op ops IH] using rev_ind; [apply store_inv_new|].
  unfold run_ops. rewrite foldl_app. by apply store_inv_step.
Qed.

(** *** The views *)

(** A comparison that orders: turning it around, its strict part and what it
    does not tell apart. *)
Class Orders {A} (cmp : A -> A -> comparison) : Prop := {
  cmp_antisym a b : cmp b a = CompOpp (cmp a b);
  cmp_lt_trans a b c : cmp a b = Lt -> cmp b c = Lt -> cmp a c = Lt;
  cmp_eq_l a b c : cmp a b = Eq -> cmp a c = cmp b c;
}.
#[global] Instance str_cmp_orders : Orders str_cmp.
Proof.
  split; unfold str_cmp; intros.
  - apply lex_compare_antisym.
  - by eapply lex_compare_lt_trans.
  - match goal with E : _ = Eq |- _ => apply lex_compare_eq in E; by rewrite E end.
Qed.
#[global] Instance compare_option_orders : Orders compare_option.
Proof.
  split; intros [a|] [b|]; try done; try (intros [c|]); cbn; try done.
  - apply cmp_antisym.
  - apply cmp_lt_trans.
  - apply cmp_eq_l.
Qed.
Lemma by_orders {A B} (f : A -> B) cmp : Orders cmp -> Orders (fun a b => cmp (f a) (f b)).
Proof. intros O. split; intros; [apply cmp_antisym|by eapply cmp_lt_trans|by apply cmp_eq_l]. Qed.
Lemma and_then_orders {A} (c d : A -> A -> comparison) : Orders c -> Orders d -> Orders (fun a b => and_then (c a b) (d a b)).
Proof.
  intros Hc Hd. split; intros x y.
  - rewrite (cmp_antisym x y), (cmp_antisym (cmp := d) x y). by destruct (c x y).
  - intros z. destruct (c x y) eqn:Exy, (c y z) eqn:Eyz; cbn; try done.
    + rewrite (cmp_eq_l _ _ z Exy), Eyz. cbn. by apply cmp_lt_trans.
    + by rewrite (cmp_eq_l _ _ z Exy), Eyz.
    + intros _ _. enough (c x z = Lt) as -> by done. rewrite (cmp_antisym (cmp := c) z x).
      assert (c z x = c y x) as ->; [|by rewrite (cmp_antisym x y), Exy].
      apply cmp_eq_l. by rewrite (cmp_antisym y z), Eyz.
    + by rewrite (cmp_lt_trans _ _ _ Exy Eyz).
  - intros z. destruct (c x y) eqn:Exy; cbn; try done. intros Ed. by rewrite (cmp_eq_l _ _ z Exy), (cmp_eq_l _ _ z Ed).
Qed.
Lemma at_most_total {A} (cmp : A -> A -> comparison) `{Orders A cmp} x y : at_most (cmp x y) = false -> at_most (cmp y x) = true.
Proof. rewrite (cmp_antisym x y). by destruct (cmp x y). Qed.
Lemma at_most_trans {A} (cmp : A -> A -> comparison) `{Orders A cmp} x y z :
  at_most (cmp x y) = true -> at_most (cmp y z) = true -> at_most (cmp x z) = true.
Proof.
  destruct (cmp x y) eqn:Exy, (cmp y z) eqn:Eyz; try done; intros _ _.
  1,2: by rewrite (cmp_eq_l _ _ z Exy), Eyz.
  - assert (cmp z x = cmp y x) as E by (apply cmp_eq_l; by rewrite (cmp_antisym y z), Eyz).
    by rewrite (cmp_antisym z x), E, (cmp_antisym x y), Exy.
  - by rewrite (cmp_lt_trans _ _ _ Exy Eyz).
Qed.
#[global] Instance route_cmp_orders : Orders route_cmp.
Proof.
  unfold route_cmp. repeat apply and_then_orders; first
    [apply (by_orders rk_database str_cmp)|apply (by_orders rk_user str_cmp)|apply (by_orders rk_application_name compare_option)
    |apply (by_orders (fun k => from_option fmt_addr [] (rk_client_addr k)) str_cmp)
    |apply (by_orders (fun k => RouteClass.label (rk_query_class k)) str_cmp)]; apply _.
Qed.

Definition route_le {A} `{RouteSnapshotView A} (a b : A) : bool := at_most (route_cmp (route_of a) (route_of b)).
(** A view by route: every stored value once, in the order of the keys. *)
Lemma route_view `{MapOrderLaws} {A} `{RouteSnapshotView A} (l : list A) :
  sort_by_route_key (order l) ≡ₚ l /\ ordered route_le (sort_by_route_key (order l)).
Proof.
  split.
  - unfold sort_by_route_key. by rewrite sort_by_perm, order_perm.
  - apply sort_by_ordered; unfold route_le; intros *; [apply at_most_total|apply at_most_trans]; apply _.
Qed.

Lemma sort_by_key_ordered {A} (key : A -> Z) l : ordered (fun a b => key a <=? key b) (sort_by_key key l).
Proof. apply sort_by_ordered; intros *; rewrite ?Z.leb_gt, ?Z.leb_le; lia. Qed.
Lemma values_by_key_elem {A} (m : gmap Z A) v : v ∈ values_by_key m <-> exists k, m !! k = Some v.
Proof.
  unfold values_by_key. rewrite list_elem_of_fmap. setoid_rewrite sort_by_perm. split.
  - intros ([k w] & -> & Hin). exists k. by apply elem_of_map_to_list.
  - intros [k Hk]. exists (k, v). split; [done|]. by apply elem_of_map_to_list.
Qed.
Lemma last_report_id id ops c : last_report id ops = Some c -> cs_client_id c = id.
Proof.
  unfold last_report. induction ops as [|op ops IH] using rev_ind; [done|]. rewrite foldl_app. cbn [foldl].
  destruct op; cbn; try exact IH; case_match; try exact IH; try done. intros [= <-]. lia.
Qed.

Lemma values_by_key_NoDup {A} (key : A -> Z) (m : gmap Z A) :
  (forall k v, m !! k = Some v -> key v = k) -> NoDup (key <$> values_by_key m).
Proof.
  intros Hm. unfold values_by_key. set (l := sort_by _ (map_to_list m)).
  assert (l ≡ₚ map_to_list m) as Hl by apply sort_by_perm.
  assert (key <$> l.*2 = l.*1) as ->.
  { rewrite <- list_fmap_compose. apply list_fmap_ext. intros i [k v] Hi. cbn. apply Hm, elem_of_map_to_list.
    rewrite <- Hl. by eapply list_elem_of_lookup_2. }
  rewrite Hl. apply NoDup_fst_map_to_list.
Qed.

(** C34. Whatever the proxy reports to the store, in whatever order, the admin
    console reads back what happened: the policy audit and decision views hold
    the latest 128 events and the latest 128 decisions in order, the adaptive
    views the latest 64, the benchmark view the latest 16; each kind of
    recovery is counted as often as it was reported (modulo 2^64); the client
    view lists, by increasing id and no id twice, exactly the clients that
    were reported and not removed since, each with its last report; and the views by route list
    every stored route once, in the order of the keys, whatever the order in
    which the hash maps are iterated. *)
Theorem snapshot_store_exact `{MapOrderLaws} ops :
  let s := run_ops inner_default ops in
  i_policy_audit_events s = last_n 128 (omap policy_event ops)
  /\ i_policy_decisions s = last_n 128 (omap policy_decision_event ops)
  /\ i_adaptive_recommendations s = last_n 64 (omap recommendation_op ops)
  /\ i_adaptive_outcomes s = last_n 64 (omap outcome_op ops)
  /\ i_benchmark_runs s = last_n 16 (omap benchmark_op ops)
  /\ (forall t a o, reported_recoveries t a o (i_recoveries s) = wrap_u 64 (len (List.filter (recovery_op t a o) ops)))
  /\ (forall c, c ∈ client_snapshots s <-> last_report (cs_client_id c) ops = Some c)
  /\ ordered (fun a b => cs_client_id a <=? cs_client_id b) (client_snapshots s)
  /\ NoDup (cs_client_id <$> client_snapshots s)
  /\ one_per_route (i_backpressure s) /\ one_per_route (i_routes s)
  /\ one_per_route (i_route_policies s) /\ one_per_route (i_route_checkouts s)
  /\ (backpressure_snapshots s ≡ₚ i_backpressure s /\ ordered route_le (backpressure_snapshots s))
  /\ (route_snapshots s ≡ₚ i_routes s /\ ordered route_le (route_snapshots s))
  /\ (route_policy_snapshots s ≡ₚ i_route_policies s /\ ordered route_le (route_policy_snapshots s))
  /\ (route_checkout_snapshots s ≡ₚ i_route_checkouts s /\ ordered route_le (route_checkout_snapshots s)).
Proof.
  cbv zeta. destruct (store_inv_run ops) as [? ? ? ? ? ? Hc ? ? ? ?]. split_and!; try done; try apply route_view.
  - intros c. unfold client_snapshots, sort_by_key. rewrite sort_by_perm, values_by_key_elem. setoid_rewrite Hc. split.
    + intros [k Hk]. by rewrite (last_report_id _ _ _ Hk).
    + by eauto.
  - apply sort_by_key_ordered.
  - unfold client_snapshots, sort_by_key. rewrite sort_by_perm. apply values_by_key_NoDup. intros k c. rewrite Hc.
    apply last_report_id.
Qed.

(** With the maps iterated backwards, two policy events and two clients of
    which one left. *)
#[local] Instance backwards : MapOrder := {| order := fun A l => reverse l |}.
#[local] Instance backwards_laws : MapOrderLaws backwards.
Proof. intros A l. apply reverse_Permutation. Qed.
Definition some_ops : list StoreOp :=
  [OpRegisterClient (client_snapshot_new 7); OpRegisterClient (client_snapshot_new 3); OpRemoveClient 7;
   OpRecovery AbandonedResponse DrainAndSync MetricOk; OpRecovery AbandonedResponse DrainAndSync MetricOk].
Lemma snapshot_store_exact_witness :
  let s := run_ops inner_default some_ops in
  reported_recoveries AbandonedResponse DrainAndSync MetricOk (i_recoveries s) = 2 /\ client_snapshot_new 3 ∈ client_snapshots s
  /\ client_snapshots s = [client_snapshot_new 3].
Proof.
  destruct (snapshot_store_exact some_ops) as (_ & _ & _ & _ & _ & Hr & Hc & _). split_and!.
  - exact (Hr AbandonedResponse DrainAndSync MetricOk).
  - apply Hc. vm_compute. reflexivity.
  - vm_compute. reflexivity.
Defined.

(** Nothing removes a route: the checkouts of clients that left stay, one for
    each address they came from. *)
Definition client_route (port : Z) : RouteKey := route_key_new (lit "app") (lit "web") None (Some (V4 1 port)) RouteClass.Default.
Definition visit (port : Z) : list StoreOp :=
  [OpRegisterClient (client_snapshot_new port);
   OpSetRouteCheckout {| rc_route_key := client_route port; rc_decision := ToPrimary TPrimaryOnlyMode; rc_freshness_outcome := None;
                         rc_required_session_write_lsn := None |};
   OpRemoveClient port].
Example checkouts_outlive_their_clients :
  let s := run_ops inner_default ([1; 2; 3; 4; 5] ≫= visit) in
  client_snapshots s = [] /\ length (i_route_checkouts s) = 5%nat.
Proof. vm_compute. by split. Qed.

(** The sample of the process is taken once: a later one is not stored. *)
Example process_sample_is_never_renewed :
  let at_ t := (CollectionComplete, sample_new t []) in
  let s := run_ops inner_default [OpRefreshPerformance (at_ 1); OpRefreshPerformance (at_ 2)] in
  pf_process_sample (i_performance s) = Some (sample_new 1 []).
Proof. vm_compute. reflexivity. Qed.

(** The statements of one session replace those of every other. *)
Example statements_of_the_last_session_only s l m : prep_statements (i_prepared (run_ops s [OpSetStatements l; OpSetStatements m])) = m.
Proof. by destruct s. Qed.
