(* ===== verification/AdminTables.v ===== *)
(** * AdminTables: the commands and the tables of the admin console

    Models [pg-kinetic-core/src/admin.rs] and the rendering of
    [pg-kinetic-proxy/src/ops/admin.rs]: the commands, the columns and rows
    of every view and the response on the wire. What the pools tell about
    themselves, the clock and the sample of the process are arguments. *)

From S2P Require Import Prelude Text Order Protocol BackendWire Lsn RoutingTypes Route Address Auth Policy Sharding Session ReadRouting.
From S2P Require Import Resilience Guardrails Recovery F64 Pressure Admission Mirror ShardRouting PolicyRuntime Lifecycle Health.
From S2P Require Import Observability Labels Performance Benchmark Control QueryStats Adaptive SnapshotTypes Metrics Snapshot Config.

(** ** Commands *)

Inductive AdminView :=
| ViewClients | ViewPools | ViewServers | ViewRuntime | ViewRuntimeShards | ViewNodes | ViewMirroring | ViewAdaptive
| ViewPressure | ViewBenchmarks | ViewPerformance | ViewPrepared | ViewPinning | ViewRecovery | ViewBackpressure
| ViewFairness | ViewPolicies | ViewPolicyDecisions | ViewPolicyAudit | ViewRoutes | ViewRouteMaps | ViewShards
| ViewMigrations | ViewSettings | ViewLimits | ViewGuardrails | ViewResilience | ViewTopQueries.
#[global] Instance AdminView_eq_dec : EqDecision AdminView.
Proof. solve_decision. Defined.
Definition admin_view_as_str (v : AdminView) : string :=
  match v with
  | ViewClients => "clients" | ViewPools => "pools" | ViewServers => "servers" | ViewRuntime => "runtime"
  | ViewRuntimeShards => "runtime shards" | ViewNodes => "nodes" | ViewMirroring => "mirroring"
  | ViewAdaptive => "adaptive" | ViewPressure => "pressure" | ViewBenchmarks => "benchmarks"
  | ViewPerformance => "performance" | ViewPrepared => "prepared" | ViewPinning => "pinning"
  | ViewRecovery => "recovery" | ViewBackpressure => "backpressure" | ViewFairness => "fairness"
  | ViewPolicies => "policies" | ViewPolicyDecisions => "policy decisions" | ViewPolicyAudit => "policy audit"
  | ViewRoutes => "routes" | ViewRouteMaps => "route maps" | ViewShards => "shards" | ViewMigrations => "migrations"
  | ViewSettings => "settings" | ViewLimits => "limits" | ViewGuardrails => "guardrails"
  | ViewResilience => "resilience" | ViewTopQueries => "top queries"
  end.
#[global] Instance AdminView_labelled : Labelled AdminView := admin_view_as_str.
#[global] Instance AdminView_distinct : DistinctLabels AdminView.
Proof. distinct_labels. Qed.

Inductive AdminCommand := Show (v : AdminView) | CmdPause | CmdResume | CmdReload | Unknown (sql : str).
#[global] Instance AdminCommand_eq_dec : EqDecision AdminCommand.
Proof. solve_decision. Defined.

Definition normalize_admin_sql (sql : str) : str :=
  let trimmed := trim sql in
  to_ascii_lowercase (trim (if bool_decide (last trimmed = Some 59) then take (length trimmed - 1) trimmed else trimmed)).

(** The arms of the match, in their order. *)
Definition command_words : list (list str * AdminCommand) :=
  [([lit "show"; lit "clients"], Show ViewClients); ([lit "show"; lit "pools"], Show ViewPools);
   ([lit "show"; lit "servers"], Show ViewServers); ([lit "show"; lit "runtime"], Show ViewRuntime);
   ([lit "show"; lit "runtime"; lit "shards"], Show ViewRuntimeShards); ([lit "show"; lit "nodes"], Show ViewNodes);
   ([lit "show"; lit "mirroring"], Show ViewMirroring); ([lit "show"; lit "adaptive"], Show ViewAdaptive);
   ([lit "show"; lit "pressure"], Show ViewPressure); ([lit "show"; lit "benchmarks"], Show ViewBenchmarks);
   ([lit "show"; lit "performance"], Show ViewPerformance); ([lit "show"; lit "prepared"], Show ViewPrepared);
   ([lit "show"; lit "pinning"], Show ViewPinning); ([lit "show"; lit "recovery"], Show ViewRecovery);
   ([lit "show"; lit "backpressure"], Show ViewBackpressure); ([lit "show"; lit "fairness"], Show ViewFairness);
   ([lit "show"; lit "policies"], Show ViewPolicies); ([lit "show"; lit "policy"; lit "decisions"], Show ViewPolicyDecisions);
   ([lit "show"; lit "policy"; lit "audit"], Show ViewPolicyAudit); ([lit "show"; lit "routes"], Show ViewRoutes);
   ([lit "show"; lit "route"; lit "maps"], Show ViewRouteMaps); ([lit "show"; lit "shards"], Show ViewShards);
   ([lit "show"; lit "migrations"], Show ViewMigrations); ([lit "show"; lit "settings"], Show ViewSettings);
   ([lit "show"; lit "limits"], Show ViewLimits); ([lit "show"; lit "guardrails"], Show ViewGuardrails);
   ([lit "show"; lit "resilience"], Show ViewResilience); ([lit "show"; lit "top"; lit "queries"], Show ViewTopQueries);
   ([lit "pause"], CmdPause); ([lit "resume"], CmdResume); ([lit "reload"], CmdReload)].
Definition parse_admin_command (sql : str) : AdminCommand :=
  let normalized := normalize_admin_sql sql in
  match find (fun wc => bool_decide (wc.1 = split_whitespace normalized)) command_words with
  | Some (_, c) => c
  | None => Unknown normalized
  end.
Definition command_view (c : AdminCommand) : option AdminView := match c with Show v => Some v | _ => None end.

(** ** Tables *)

Inductive AdminColumnType := ColText | ColInt8 | ColFloat8 | ColBool | ColTimestamp.
Definition column_type_as_str (t : AdminColumnType) : string :=
  match t with
  | ColText => "text" | ColInt8 => "int8" | ColFloat8 => "float8" | ColBool => "bool" | ColTimestamp => "timestamp"
  end.
Record AdminColumn := { col_name : string; col_type : AdminColumnType }.
Record AdminTable := { table_view : AdminView; table_columns : list AdminColumn; table_rows : list (list str) }.

Definition admin_table (v : AdminView) (specs : list (string * AdminColumnType)) (rows : list (list str)) : AdminTable :=
  {| table_view := v; table_columns := (fun nt => {| col_name := nt.1; col_type := nt.2 |}) <$> specs; table_rows := rows |}.
Definition admin_wire_type (t : AdminColumnType) : AdminWireType :=
  match t with
  | ColText => WText | ColInt8 => WInt8 | ColFloat8 => WFloat8 | ColBool => WBool | ColTimestamp => WTimestamp
  end.
Definition admin_table_response (t : AdminTable) : result WireError bytes :=
  build_admin_table_response
    ((fun c => {| column_name := lit (col_name c); wire_type := admin_wire_type (col_type c) |}) <$> table_columns t) (table_rows t).

(** ** Cells *)

Definition none_text : str := lit "<none>".
Definition fmt_bool (b : bool) : str := if b then lit "true" else lit "false".
(** [u128::to_string]. *)
Definition fmt_u128 (n : Z) : str := dec_digits 39 n.
Definition optional_text (v : option str) : str := default none_text v.
Definition optional_u64 (v : option Z) : str := from_option fmt_u64 none_text v.
Definition optional_u32 (v : option Z) : str := from_option fmt_u64 none_text v.
Definition optional_usize (v : option Z) : str := from_option fmt_u64 none_text v.
Definition route_key_value (k : RouteKey) : str := rk_metric_label k.
Definition optional_route_key (k : option RouteKey) : str := from_option route_key_value none_text k.
Definition duration_millis (d : Z) : str := fmt_u128 (d / 1000000).
Definition optional_duration (d : option Z) : str := from_option duration_millis none_text d.
Definition optional_pglsn (l : option PgLsn) : str := from_option lsn_display none_text l.
Definition optional_socket_addr (a : option SocketAddr) : str := from_option fmt_addr none_text a.
(** A probe in the future has age zero. *)
Definition optional_probe_age (now : Z) (t : option Z) : str :=
  from_option (fun t => if now <? t then lit "0" else duration_millis (now - t)) none_text t.
Definition benchmark_metric_value (x : f64) : str := fmt_fixed3 x.
Definition optional_metric_value (x : option f64) : str := from_option benchmark_metric_value (benchmark_metric_value f64_zero) x.
Definition optional_float (x : option f64) : str := from_option benchmark_metric_value [] x.
Definition process_metric_value (s : option ProcessMetricSample) (k : ProcessMetricKind) : str :=
  optional_metric_value (s ≫= fun s => value_as_f64 (sample_metric s k)).
Definition performance_threshold_label (t : PerformanceRegressionThreshold) : str :=
  lit (threshold_as_str t) ++ lit ":" ++ fmt_fixed3 (threshold_value t).
Definition pin_reason_label (r : Events.PinReason) : string :=
  match r with
  | Events.OpenTransaction => "open_transaction" | Events.FailedTransaction => "failed_transaction"
  | Events.SessionStatePin => "session_state" | Events.CopyPin => "copy" | Events.ListenNotify => "listen_notify"
  | Events.ExtendedQueryCycle => "extended_query_cycle" | Events.UnknownProtocolState => "unknown_protocol_state"
  end.
Definition recovery_mode_label (m : RecoveryMode) : string :=
  match m with RecoverMode => "recover" | RollbackOnly => "rollback_only" | DropMode => "drop" end.
Definition recovery_trigger_label (t : RecoveryTrigger) : string :=
  match t with
  | TriggerFailedTransaction => "failed_transaction" | AbandonedTransaction => "abandoned_transaction"
  | AbandonedResponse => "abandoned_response" | TriggerUnknownProtocolState => "unknown_protocol_state"
  end.
Definition recovery_action_label (a : RecoveryAction) : string :=
  match a with
  | NoAction => "none" | RollbackAction => "rollback" | DrainAndSync => "drain_and_sync"
  | RollbackAndDrain => "rollback_and_drain" | DiscardAction => "discard"
  end.
Definition policy_reload_outcome_label (r : option PolicyReloadSnapshot) : str :=
  match r with Some r => success_label (prl_success r) | None => none_text end.
Definition latest_route_map_generation (l : list RouteMapReloadSnapshot) : Z := from_option rm_route_map_generation_id 0 (last l).
Definition route_map_scope_label (s : ShardScopeConfig) : str :=
  match s with
  | DatabaseUser database user => database ++ lit "/" ++ user
  | ApplicationName name => name
  | SchemaTable schema table => schema ++ lit "." ++ table
  | TenantKey key => key
  end.
Definition shard_strategy_label (s : ShardStrategy) : string :=
  match s with StrategyHash => "hash" | StrategyRange => "range" | StrategyList => "list" end.
Definition multi_shard_policy_label (p : MultiShardPolicy) : string :=
  match p with Reject => "reject" | FirstMatch => "first_match" | FanOut => "fan_out" end.
Definition join_shard_ids (ids : list ShardId) : str := match ids with [] => none_text | _ => join (lit ",") ids end.
Definition shard_health_summary (s : ShardLifecycleState) (primaries replicas : Z) : string :=
  match s with
  | Active => if primaries + replicas =? 0 then "unassigned" else "healthy"
  | Sharding.Draining => "draining"
  | Readonly => "readonly"
  | Disabled => "disabled"
  end.
Definition mirror_decisions_total (s : MirrorSummarySnapshot) : Z :=
  wrap_u 64 (ms_dropped_total s + ms_timed_out_total s + ms_mirrored_total s + ms_skipped_total s + ms_rejected_total s).
Definition recommendation_summary (s : option AdaptiveRecommendationSnapshot) : str :=
  match s with
  | None => none_text
  | Some s => text (ar_signal s) ++ lit ":" ++ knob_as_str (ar_knob s) ++ lit ":" ++ fmt_fixed3 (ar_confidence s)
  end.
Definition apply_status_summary (s : option AdaptiveOutcomeSnapshot) : str :=
  match s with
  | None => none_text
  | Some s => text (out_outcome s) ++ if disabled_by_reload s then lit ":disabled" else []
  end.
Definition adaptive_guardrails_label (mode : string) (a : AdaptiveApplyConfig) (g : AdaptiveGuardrailConfig) : str :=
  let allowlist := match adaptive_apply_allowlist a with [] => none_text | l => join (lit ",") (knob_as_str <$> l) end in
  lit "mode=" ++ lit mode ++ lit ";apply=" ++ fmt_bool (adaptive_apply_enabled a) ++ lit ";allowlist=" ++ allowlist
  ++ lit ";max_change=" ++ fmt_u64 (adaptive_max_change_percent g) ++ lit "%".
Definition benchmark_matrix_targets (s : BenchmarkScenario) : str :=
  join (lit ",") ((fun t => lit (comparison_as_str (target_comparison t))) <$> scenario_targets s).
Definition route_priority_label (p : RoutePriority) : string :=
  match p with PriorityCritical => "critical" | PriorityNormal => "normal" | PrioritySheddable => "sheddable" end.

(** ** The views *)

Definition resilience_table (breakers : list (str * BreakerState * Z)) (c : Config) : AdminTable :=
  let r := resilience c in
  admin_table ViewResilience
    [("backend", ColText); ("state", ColText); ("consecutive_failures", ColInt8); ("failure_threshold", ColInt8);
     ("cooldown_ms", ColInt8); ("hedging_enabled", ColBool); ("hedge_delay_ms", ColInt8); ("failover_enabled", ColBool);
     ("failover_max_reconnect_ms", ColInt8); ("failover_replay_session_state", ColBool)]%string
    ((fun '(backend, state, failures) =>
        [backend; text state; fmt_u64 failures; fmt_u64 (breaker_failure_threshold r); fmt_u64 (breaker_cooldown_ms r);
         fmt_bool (hedging_enabled r); fmt_u64 (hedge_delay_ms r); fmt_bool (resilience_failover_enabled r);
         fmt_u64 (failover_max_reconnect_ms r); fmt_bool (resilience_replay_session_state r)]) <$> breakers).

Definition guardrails_table (g : option GuardrailRegistry) (c : Config) : AdminTable :=
  let '(allowlist_len, observation_len) :=
    match g with Some g => (Z.of_nat (size (allowlist g)), Z.of_nat (size (Guardrails.observations g))) | None => (0, 0) end in
  admin_table ViewGuardrails
    [("mode", ColText); ("block_unqualified_dml", ColBool); ("block_ddl", ColBool); ("allowlist_entries", ColInt8);
     ("observed_fingerprints", ColInt8)]%string
    [[text (guard_mode (guardrails c)); fmt_bool (block_unqualified_dml (guardrails c)); fmt_bool (block_ddl (guardrails c));
      fmt_u64 allowlist_len; fmt_u64 observation_len]].

Definition top_queries_table (stats : list QueryStatView) : AdminTable :=
  admin_table ViewTopQueries
    [("fingerprint", ColText); ("sample", ColText); ("count", ColInt8); ("errors", ColInt8); ("rows", ColInt8);
     ("total_latency_ms", ColFloat8)]%string
    ((fun v => [fingerprint v; sample (stat v); fmt_u64 (QueryStats.count (stat v)); fmt_u64 (errors (stat v)); fmt_u64 (rows (stat v));
                fmt_fixed3 (total_latency_ms (stat v))]) <$> stats).

(** Collected into a map: the last checkout of a route. *)
Definition checkout_of (checkouts : list RouteCheckoutSnapshot) (k : option RouteKey) : option RouteCheckoutSnapshot :=
  k ≫= fun k => route_get k (reverse checkouts).
Definition clients_table (clients : list ClientSnapshot) (checkouts : list RouteCheckoutSnapshot) : AdminTable :=
  admin_table ViewClients
    [("client_id", ColInt8); ("user", ColText); ("database", ColText); ("application_name", ColText); ("route_key", ColText);
     ("state", ColText); ("connected_duration_ms", ColInt8); ("current_target_role", ColText);
     ("required_session_write_lsn", ColText)]%string
    ((fun c =>
        let checkout := checkout_of checkouts (cs_route_key c) in
        [fmt_u64 (cs_client_id c); optional_text (cs_user c); optional_text (cs_database c); optional_text (cs_application_name c);
         optional_route_key (cs_route_key c); cs_state c; duration_millis (cs_connected_duration c);
         optional_text (text <$> (checkout ≫= fun c => target_backend_role (rc_decision c)));
         optional_pglsn (checkout ≫= rc_required_session_write_lsn)]) <$> clients).

Definition pool_row (label : str) (p : PoolSnapshot) (performance : PerformanceSnapshot) : list str :=
  [label; fmt_u64 (pool_configured_backends p); fmt_u64 (pool_active_backends p); fmt_u64 (pool_idle_backends p);
   fmt_u64 (pool_waiting_clients p); optional_metric_value (pf_pool_checkout_lock_wait_ms performance)].
Definition pools_table (p : PoolSnapshot) (configured : list (PoolKey * PoolSnapshot)) (performance : PerformanceSnapshot) : AdminTable :=
  admin_table ViewPools
    [("route_key", ColText); ("max_backends", ColInt8); ("active_backends", ColInt8); ("idle_backends", ColInt8);
     ("waiting_clients", ColInt8); ("checkout_lock_wait_ms", ColFloat8)]%string
    (match configured with
     | [] => [pool_row (lit "global") p performance]
     | _ => (fun kp => pool_row (pool_metric_label kp.1) kp.2 performance) <$> configured
     end).

Definition health_of (reports : list ReplicaReport) (id : Z) : option ReplicaReport :=
  find (fun r => rh_endpoint_id r =? id) (reverse reports).
Definition servers_table (now : Z) (servers : list ServerSnapshot) (reports : list ReplicaReport) : AdminTable :=
  admin_table ViewServers
    [("backend_id", ColInt8); ("route_key", ColText); ("state", ColText); ("last_checkout_age_ms", ColInt8);
     ("in_transaction", ColBool); ("endpoint_role", ColText); ("detected_role", ColText); ("health", ColText); ("lag_ms", ColText);
     ("replay_lsn", ColText); ("last_probe_age_ms", ColText)]%string
    ((fun s =>
        let health := health_of reports (ss_backend_id s) in
        [fmt_u64 (ss_backend_id s); optional_route_key (ss_route_key s); ss_state s; duration_millis (ss_age s);
         fmt_bool (ss_in_transaction s); optional_text ((fun r => text (rh_expected_role r)) <$> health);
         optional_text ((fun r => text (role_state (rh_role r))) <$> health);
         optional_text ((fun r => text (health_state (rh_health r))) <$> health);
         optional_duration (health ≫= rh_lag_duration); optional_pglsn (health ≫= rh_replay_lsn);
         optional_probe_age now (health ≫= rh_last_successful_probe_at)]) <$> servers).

Definition runtime_table (r : option RuntimeSnapshot) (c : Config) : AdminTable :=
  let r := default (runtime_snapshot_new (Config.node_id (runtime c)) Starting RNotReady (runtime_engine (engine (runtime c))) 0) r in
  admin_table ViewRuntime
    [("node_id", ColText); ("lifecycle_state", ColText); ("readiness_state", ColText); ("runtime_engine", ColText);
     ("uptime_ms", ColInt8)]%string
    [[rs_node_id r; text (rs_lifecycle_state r); text (rs_readiness_state r); engine_as_str (rs_runtime_engine r);
      duration_millis (rs_uptime r)]].

Definition runtime_shards_table (shards : list RuntimeShardSnapshot) : AdminTable :=
  admin_table ViewRuntimeShards
    [("shard_id", ColInt8); ("core_id", ColText); ("lifecycle_state", ColText); ("accepted_connections", ColInt8);
     ("active_clients", ColInt8)]%string
    ((fun s => [fmt_u64 (sh_shard_id s); from_option fmt_u64 [] (sh_core_id s); text (sh_lifecycle_state s);
                fmt_u64 (sh_accepted_connections s); fmt_u64 (sh_active_clients s)]) <$> shards).

Definition node_row (n : NodeSummarySnapshot) : list str :=
  [text (ns_role n); ns_node_id n; text (ns_lifecycle_state n); text (ns_readiness_state n); text (ns_health n);
   fmt_u64 (ns_route_map_generation n); fmt_u64 (ns_policy_generation n); duration_millis (ns_heartbeat_age n);
   fmt_bool (ns_overloaded n)].
Definition nodes_table (nodes : list NodeSummarySnapshot) (r : option RuntimeSnapshot) : AdminTable :=
  admin_table ViewNodes
    [("role", ColText); ("node_id", ColText); ("lifecycle_state", ColText); ("readiness_state", ColText); ("health", ColText);
     ("route_map_generation_id", ColInt8); ("policy_generation_id", ColInt8); ("heartbeat_age_ms", ColInt8);
     ("overloaded", ColBool)]%string
    (match nodes with
     | [] =>
         match r with
         | Some r => [[text LocalNode; rs_node_id r; text (rs_lifecycle_state r); text (rs_readiness_state r); lit "healthy"; lit "0";
                       lit "0"; duration_millis (rs_uptime r); lit "false"]]
         | None => []
         end
     | _ => node_row <$> nodes
     end).

Definition mirroring_table (s : option MirrorSummarySnapshot) : AdminTable :=
  let s := default (mirror_summary_new MirrorOff f64_zero) s in
  admin_table ViewMirroring
    [("mode", ColText); ("sample_rate", ColFloat8); ("in_flight", ColInt8); ("dropped", ColInt8); ("timeout_total", ColInt8);
     ("decisions_total", ColInt8); ("mirrored_total", ColInt8); ("skipped_total", ColInt8); ("rejected_total", ColInt8)]%string
    [[text (ms_mode s); fmt_fixed3 (ms_sample_rate s); fmt_u64 (ms_in_flight s); fmt_u64 (ms_dropped_total s);
      fmt_u64 (ms_timed_out_total s); fmt_u64 (mirror_decisions_total s); fmt_u64 (ms_mirrored_total s);
      fmt_u64 (ms_skipped_total s); fmt_u64 (ms_rejected_total s)]].

Definition adaptive_table (mode : string) (a : AdaptiveApplyConfig) (g : AdaptiveGuardrailConfig)
    (recommendations : list AdaptiveRecommendationSnapshot) (outcomes : list AdaptiveOutcomeSnapshot) : AdminTable :=
  let guardrails := adaptive_guardrails_label mode a g in
  let recommendation_rows := take 5 (reverse recommendations) in
  let outcome_rows := take 5 (reverse outcomes) in
  let max_rows := Nat.max (Nat.max (length recommendation_rows) (length outcome_rows)) 1 in
  admin_table ViewAdaptive
    [("mode", ColText); ("latest_recommendation", ColText); ("apply_status", ColText); ("guardrails", ColText)]%string
    ((fun i => [lit mode; recommendation_summary (recommendation_rows !! i); apply_status_summary (outcome_rows !! i); guardrails])
       <$> seq 0 max_rows).

Definition benchmark_row (performance : PerformanceSnapshot) (s : BenchmarkScenario) (r : BenchmarkResult) : list str :=
  let ms := result_metrics r in
  [lit (scenario_metric_label s); lit (target_metric_label (result_target r));
   lit (comparison_as_str (target_comparison (result_target r))); text (result_driver r); fmt_u64 (result_duration_ms r);
   benchmark_metric_value (p50_ms ms); benchmark_metric_value (p95_ms ms); benchmark_metric_value (p99_ms ms);
   benchmark_metric_value (throughput_qps ms); benchmark_metric_value (error_rate ms);
   lit REDACTED_BENCHMARK_DETAIL_LABEL; lit REDACTED_BENCHMARK_DETAIL_LABEL; text (workload s); benchmark_matrix_targets s;
   from_option text (lit "unknown") (comparison_outcome performance (scenario_name s) (target_comparison (result_target r)))].
Definition benchmarks_table (runs : list BenchmarkRunSnapshot) (performance : PerformanceSnapshot) : AdminTable :=
  admin_table ViewBenchmarks
    [("scenario", ColText); ("target", ColText); ("comparison", ColText); ("driver", ColText); ("duration_ms", ColInt8);
     ("p50_ms", ColFloat8); ("p95_ms", ColFloat8); ("p99_ms", ColFloat8); ("throughput_qps", ColFloat8); ("error_rate", ColFloat8);
     ("cpu_label", ColText); ("memory_label", ColText); ("workload", ColText); ("matrix_targets", ColText);
     ("comparison_outcome", ColText)]%string
    (take 8 (reverse runs) ≫= fun run => benchmark_row performance (run_scenario run) <$> run_results run).

Definition performance_row (p : PerformanceSnapshot) (budget : option PerformanceBudget) : list str :=
  let regression := budget ≫= fun b => latest_regression_for p (budget_metric b) in
  [from_option (fun b => text (budget_metric b)) (lit "none") budget;
   from_option (fun b => performance_threshold_label (warning_threshold b)) (lit "none") budget;
   from_option (fun b => performance_threshold_label (Performance.failure_threshold b)) (lit "none") budget;
   optional_metric_value (observed_value <$> regression); optional_metric_value (regression ≫= baseline_value);
   from_option (fun r => text (regression_outcome r)) (lit "unknown") regression;
   text (pf_profile_status p); text (pf_process_status p);
   process_metric_value (pf_process_sample p) CpuTime; process_metric_value (pf_process_sample p) ResidentMemory;
   optional_metric_value (pf_cpu_per_query p); optional_metric_value (pf_memory_per_client_bytes p);
   fmt_u64 (pf_protocol_buffer_copies p); optional_metric_value (pf_pool_checkout_lock_wait_ms p);
   fmt_u64 (pf_prepared_cache_hits p); fmt_u64 (pf_prepared_cache_misses p);
   fmt_u64 (pf_observability_hot_path_allocations p); fmt_u64 (pf_idle_clients p)].
Definition performance_table (p : PerformanceSnapshot) : AdminTable :=
  admin_table ViewPerformance
    [("metric", ColText); ("warning_threshold", ColText); ("failure_threshold", ColText); ("observed_value", ColFloat8);
     ("baseline_value", ColFloat8); ("regression_outcome", ColText); ("profile_status", ColText); ("process_status", ColText);
     ("process_cpu_seconds", ColFloat8); ("process_resident_memory_bytes", ColFloat8); ("cpu_per_query", ColFloat8);
     ("memory_per_client_bytes", ColFloat8); ("protocol_buffer_copies", ColInt8); ("pool_checkout_lock_wait_ms", ColFloat8);
     ("prepared_cache_hits", ColInt8); ("prepared_cache_misses", ColInt8); ("observability_hot_path_allocations", ColInt8);
     ("idle_clients", ColInt8)]%string
    (match pf_budgets p with [] => [performance_row p None] | l => (fun b => performance_row p (Some b)) <$> l end).

Definition prepared_table (prepared : PreparedSnapshot) (performance : PerformanceSnapshot) : AdminTable :=
  admin_table ViewPrepared
    [("session_id", ColInt8); ("client_statement_name", ColText); ("backend_statement_name", ColText);
     ("materialized_backend_count", ColInt8); ("invalidation_count", ColInt8); ("prepared_cache_hits", ColInt8);
     ("prepared_cache_misses", ColInt8)]%string
    ((fun s => [fmt_u64 (pst_session_id s); pst_client_statement_name s; pst_backend_statement_name s;
                fmt_u64 (pst_materialized_backend_count s); fmt_u64 (pst_invalidation_count s);
                fmt_u64 (pf_prepared_cache_hits performance); fmt_u64 (pf_prepared_cache_misses performance)])
       <$> prep_statements prepared).

Definition pinning_table (pins : list PinningSnapshot) : AdminTable :=
  admin_table ViewPinning
    [("client_id", ColInt8); ("backend_id", ColInt8); ("route_key", ColText); ("reason", ColText); ("duration_ms", ColInt8)]%string
    ((fun p => [fmt_u64 (pin_client_id p); optional_u64 (pin_backend_id p); optional_route_key (pin_route_key p);
                lit (pin_reason_label (pin_why p)); duration_millis (pin_duration p)]) <$> pins).

Definition recovery_table (recoveries : list RecoverySnapshot) : AdminTable :=
  admin_table ViewRecovery
    [("trigger", ColText); ("action", ColText); ("outcome", ColText); ("count", ColInt8); ("last_error", ColText)]%string
    ((fun r => [lit (recovery_trigger_label (rec_trigger r)); lit (recovery_action_label (SnapshotTypes.rec_action r));
                text (rec_outcome r); fmt_u64 (rec_count r); optional_text (rec_last_error r)]) <$> recoveries).

Definition backpressure_table (l : list BackpressureReport) : AdminTable :=
  admin_table ViewBackpressure
    [("route_key", ColText); ("waiting", ColInt8); ("in_flight", ColInt8); ("rejected", ColInt8); ("timed_out", ColInt8);
     ("canceled", ColInt8)]%string
    ((fun b => [optional_route_key (Some (bpr_route_key b)); fmt_u64 (bpr_waiting b); fmt_u64 (bpr_in_flight b);
                fmt_u64 (bpr_rejected b); fmt_u64 (bpr_timed_out b); fmt_u64 (bpr_canceled b)]) <$> l).

Definition fairness_table (c : Config) : AdminTable :=
  admin_table ViewFairness
    [("route", ColInt8); ("weight", ColInt8); ("max_in_flight", ColInt8); ("priority", ColText)]%string
    (imap (fun i r => [fmt_u64 (Z.of_nat i); fmt_u64 (route_weight r); from_option fmt_u64 (lit "unbounded") (route_max_in_flight r);
                       lit (route_priority_label (route_priority r))]) (effective_routes c)).

Definition pressure_table (s : option PressureReport) (c : Config) : AdminTable :=
  let p := pressure (production (runtime c)) in
  let s := default {| prs_enabled := enabled p; prs_cpu_some_avg10 := None; prs_mem_some_avg10 := None;
                      prs_cpu_high_pct := cpu_high_pct p; prs_mem_high_pct := mem_high_pct p; prs_pressured := false;
                      prs_route_in_flight_limit := qos_max_route_in_flight (qos c);
                      prs_configured_route_in_flight := qos_max_route_in_flight (qos c) |} s in
  admin_table ViewPressure
    [("enabled", ColBool); ("cpu_some_avg10", ColFloat8); ("mem_some_avg10", ColFloat8); ("cpu_high_pct", ColFloat8);
     ("mem_high_pct", ColFloat8); ("pressured", ColBool); ("route_in_flight_limit", ColInt8);
     ("configured_route_in_flight", ColInt8)]%string
    [[fmt_bool (prs_enabled s); optional_float (prs_cpu_some_avg10 s); optional_float (prs_mem_some_avg10 s);
      fmt_fixed3 (prs_cpu_high_pct s); fmt_fixed3 (prs_mem_high_pct s); fmt_bool (prs_pressured s);
      fmt_u64 (prs_route_in_flight_limit s); fmt_u64 (prs_configured_route_in_flight s)]].

Definition policies_table (status : option PolicyStatusSnapshot) (reloads : list PolicyReloadSnapshot) : AdminTable :=
  admin_table ViewPolicies
    [("policy_id", ColText); ("policy_version", ColInt8); ("policy_mode", ColText); ("source", ColText); ("enabled", ColBool);
     ("last_reload_outcome", ColText); ("error_code", ColText)]%string
    (match status with
     | Some s => [[pstat_policy_id s; fmt_u64 (pstat_policy_version s); text (pstat_policy_mode s); pstat_source s;
                   fmt_bool (pstat_enabled s); policy_reload_outcome_label (last reloads);
                   optional_text (text <$> (last reloads ≫= prl_error_code))]]
     | None => []
     end).

Definition policy_audit_table (events : list PolicyAuditEvent) (include_kind : bool) : AdminTable :=
  admin_table (if include_kind then ViewPolicyAudit else ViewPolicyDecisions)
    ((if include_kind then [("kind"%string, ColText)] else [])
     ++ [("policy_id", ColText); ("policy_version", ColInt8); ("hook_point", ColText); ("action", ColText); ("outcome", ColText);
         ("reason", ColText); ("route", ColText); ("shard", ColText); ("target_role", ColText); ("context", ColText)]%string)
    ((fun e =>
        let d := ev_decision e in
        (if include_kind then [text (ev_kind e)] else [])
        ++ [pd_policy_id d; fmt_u64 (pd_policy_version d); text (pd_hook_point d); lit (policy_action_as_str (pd_action d));
            text (pd_outcome d); optional_text (ev_reason e); optional_text (ev_route e); optional_text (ev_shard e);
            optional_text (ev_target_role e); render_context (ev_context e)]) <$> events).

Definition routes_table (generation : Z) (sharding_enabled : bool) (routes : list RouteSnapshot) (policies : list RoutePolicySnapshot)
    : AdminTable :=
  admin_table ViewRoutes
    [("database", ColText); ("user", ColText); ("application_name", ColText); ("query_class", ColText); ("client_count", ColInt8);
     ("backend_count", ColInt8); ("primary_count", ColInt8); ("replica_count", ColInt8); ("read_routing_mode", ColText);
     ("fallback_policy", ColText); ("freshness_policy", ColText); ("read_after_write_timeout_ms", ColInt8);
     ("route_map_generation_id", ColInt8); ("sharding_enabled", ColBool)]%string
    ((fun r =>
        let k := rt_route_key r in
        let p := default (route_policy_snapshot_new k) (route_get k (reverse policies)) in
        [rk_database k; rk_user k; optional_text (rk_application_name k); RouteClass.label (rk_query_class k);
         fmt_u64 (rt_client_count r); fmt_u64 (rt_backend_count r); fmt_u64 (rp_primary_count p); fmt_u64 (rp_replica_count p);
         text (rp_read_routing_mode p); text (rp_fallback_policy p); text (rp_freshness_policy p);
         fmt_u64 (rp_read_after_write_timeout_ms p); fmt_u64 generation; fmt_bool sharding_enabled]) <$> routes).

Definition route_maps_table (s : ShardingConfig) : AdminTable :=
  admin_table ViewRouteMaps
    [("scope", ColText); ("strategy", ColText); ("priority", ColText); ("multi_shard_policy", ColText)]%string
    ((fun m => [route_map_scope_label (cfg_scope m); lit (shard_strategy_label (cfg_strategy m));
                from_option fmt_u64 none_text (cfg_priority m); lit (multi_shard_policy_label (cfg_multi_shard_policy s))])
       <$> cfg_route_maps s).

Record ShardSummary := {
  sum_route_key : option str;
  primary_backend_count : Z;
  replica_backend_count : Z;
  sum_lifecycle_state : option ShardLifecycleState;
}.
Definition shard_summary_default : ShardSummary :=
  {| sum_route_key := None; primary_backend_count := 0; replica_backend_count := 0; sum_lifecycle_state := None |}.
Definition add_target (route_key : str) (shards : gmap str ShardSummary) (t : ShardTargetConfig) : gmap str ShardSummary :=
  let '(id, primary) := match t with PrimaryTarget id => (id, 1) | ReplicasTarget id => (id, 0) end in
  let s := default shard_summary_default (shards !! id) in
  <[id := {| sum_route_key := Some (default route_key (sum_route_key s));
             primary_backend_count := primary_backend_count s + primary;
             replica_backend_count := replica_backend_count s + (1 - primary);
             sum_lifecycle_state := sum_lifecycle_state s |}]> shards.
Definition add_lifecycle (shards : gmap str ShardSummary) (l : ShardLifecycleSnapshot) : gmap str ShardSummary :=
  let s := default shard_summary_default (shards !! sl_shard_id l) in
  <[sl_shard_id l := {| sum_route_key := sum_route_key s; primary_backend_count := primary_backend_count s;
                        replica_backend_count := replica_backend_count s;
                        sum_lifecycle_state := Some (sl_lifecycle_state l) |}]> shards.
Definition shard_summaries (s : ShardingConfig) (lifecycles : list ShardLifecycleSnapshot) : gmap str ShardSummary :=
  foldl add_lifecycle
    (foldl (fun shards m => foldl (add_target (route_map_scope_label (cfg_scope m))) shards (cfg_targets m)) ∅ (cfg_route_maps s))
    lifecycles.
Definition shards_table (s : ShardingConfig) (lifecycles : list ShardLifecycleSnapshot) : AdminTable :=
  admin_table ViewShards
    [("shard_id", ColText); ("route_key", ColText); ("lifecycle_state", ColText); ("primary_backend_count", ColInt8);
     ("replica_backend_count", ColInt8); ("health_summary", ColText)]%string
    ((fun '(id, sum) =>
        let state := default Active (sum_lifecycle_state sum) in
        [id; optional_text (sum_route_key sum); text state; fmt_u64 (primary_backend_count sum);
         fmt_u64 (replica_backend_count sum);
         lit (shard_health_summary state (primary_backend_count sum) (replica_backend_count sum))])
       <$> sort_by (fun a b => str_le a.1 b.1) (map_to_list (shard_summaries s lifecycles))).

Definition migrations_table (plans : list ShardRebalancePlan) : AdminTable :=
  admin_table ViewMigrations
    [("migration_state", ColText); ("migration_override_explicit", ColBool); ("source_shard_ids", ColText);
     ("target_shard_ids", ColText); ("active_client_count", ColInt8); ("prepared_statement_count", ColInt8);
     ("open_transaction_count", ColInt8); ("last_required_lsn", ColText)]%string
    ((fun p =>
        let r := safety_report p in
        [text (migration_state p); fmt_bool (migration_override_explicit p); join_shard_ids (source_shard_ids p);
         join_shard_ids (target_shard_ids p); fmt_u64 (from_option (fun r => len (active_client_ids r)) 0 r);
         fmt_u64 (from_option (fun r => len (prepared_statements r)) 0 r);
         fmt_u64 (from_option (fun r => len (open_transaction_ids r)) 0 r); optional_pglsn (r ≫= last_required_lsn)]) <$> plans).

Definition settings_table (s : SettingsSnapshot) : AdminTable :=
  admin_table ViewSettings
    [("listen_addr", ColText); ("backend_addr", ColText); ("client_tls_mode", ColText); ("backend_tls_mode", ColText);
     ("auth_mode", ColText); ("auth_failure_message_mode", ColText); ("backend_user", ColText); ("backend_reset_query", ColText);
     ("recovery_mode", ColText); ("reload_enabled", ColBool); ("config_reload_interval_ms", ColInt8); ("drain_timeout_ms", ColInt8);
     ("reject_new_clients_during_drain", ColBool); ("health_addr", ColText); ("readiness_backend_check_interval_ms", ColInt8);
     ("readiness_timeout_ms", ColInt8); ("metrics_addr", ColText); ("tcp_nodelay", ColBool); ("tcp_keepalive", ColBool);
     ("tcp_keepalive_idle_ms", ColInt8); ("tcp_keepalive_interval_ms", ColInt8); ("tcp_keepalive_retries", ColInt8);
     ("tcp_user_timeout_ms", ColInt8); ("tcp_send_buffer_bytes", ColInt8); ("tcp_recv_buffer_bytes", ColInt8);
     ("strict_socket_option_mode", ColBool)]%string
    [[fmt_addr (st_listen_addr s); fmt_addr (st_backend_addr s); text (st_client_tls_mode s); text (st_backend_tls_mode s);
      text (st_auth_mode s); text (st_auth_failure_message_mode s); optional_text (st_backend_user s); st_backend_reset_query s;
      lit (recovery_mode_label (st_recovery_mode s)); fmt_bool (st_reload_enabled s); duration_millis (st_config_reload_interval s);
      duration_millis (st_drain_timeout s); fmt_bool (st_reject_new_clients_during_drain s); optional_socket_addr (st_health_addr s);
      duration_millis (st_readiness_backend_check_interval s); duration_millis (st_readiness_timeout s);
      optional_socket_addr (st_metrics_addr s); fmt_bool (st_tcp_nodelay s); fmt_bool (st_tcp_keepalive s);
      optional_duration (st_tcp_keepalive_idle s); optional_duration (st_tcp_keepalive_interval s);
      optional_u32 (st_tcp_keepalive_retries s); optional_duration (st_tcp_user_timeout s);
      optional_usize (st_tcp_send_buffer_bytes s); optional_usize (st_tcp_recv_buffer_bytes s);
      fmt_bool (st_strict_socket_option_mode s)]].

Definition limits_table (l : LimitsSnapshot) (c : Config) : AdminTable :=
  admin_table ViewLimits
    [("max_clients", ColInt8); ("max_backends", ColInt8); ("max_checkout_waiters", ColInt8); ("max_route_in_flight", ColInt8);
     ("max_route_waiters", ColInt8); ("checkout_timeout_ms", ColInt8); ("query_timeout_ms", ColInt8);
     ("idle_client_timeout_ms", ColInt8); ("idle_transaction_timeout_ms", ColInt8); ("max_client_buffer_bytes", ColInt8);
     ("max_backend_buffer_bytes", ColInt8); ("recovery_timeout_ms", ColInt8); ("drain_timeout_ms", ColInt8);
     ("readiness_backend_check_interval_ms", ColInt8); ("readiness_timeout_ms", ColInt8); ("config_reload_interval_ms", ColInt8);
     ("admin_query_timeout_ms", ColInt8); ("admin_max_clients", ColInt8); ("overload_error_code", ColText)]%string
    [[fmt_u64 (ls_max_clients l); fmt_u64 (ls_max_backends l); fmt_u64 (ls_max_checkout_waiters l);
      fmt_u64 (ls_max_route_in_flight l); fmt_u64 (ls_max_route_waiters l); duration_millis (ls_checkout_timeout l);
      duration_millis (ls_query_timeout l); duration_millis (ls_idle_client_timeout l);
      duration_millis (ls_idle_transaction_timeout l); fmt_u64 (ls_max_client_buffer_bytes l);
      fmt_u64 (ls_max_backend_buffer_bytes l); duration_millis (ls_recovery_timeout l); duration_millis (ls_drain_timeout l);
      duration_millis (ls_readiness_backend_check_interval l); duration_millis (ls_readiness_timeout l);
      duration_millis (ls_config_reload_interval l); fmt_u64 (admin_query_timeout_ms (admin c));
      fmt_u64 (admin_max_clients (admin c)); ls_overload_error_code l]].

(** ** Rendering *)

(** What a view reads besides the configuration: the store, the pools of the
    registry and their breakers in the order of the map, guardrails and query
    statistics; the clock and the process as the calls find them. *)
Record ConsoleState := {
  console_store : SnapshotStoreInner;
  console_pools : list (PoolKey * PoolSnapshot);
  console_breakers : list (PoolKey * list (str * BreakerState * Z));
  console_guardrails : option GuardrailRegistry;
  console_stats : list Shard;
}.
Record Clock := { clock_now : Z; clock_process : ProcessMetricCollectionStatus * ProcessMetricSample }.

(** [RoutePoolRegistry::snapshots] and [resilience_snapshots]. *)
Definition registry_snapshots (l : list (PoolKey * PoolSnapshot)) : list (PoolKey * PoolSnapshot) :=
  sort_by (fun a b => str_le (pool_metric_label a.1) (pool_metric_label b.1)) l.
Definition resilience_snapshots (l : list (PoolKey * list (str * BreakerState * Z))) : list (str * BreakerState * Z) :=
  sort_by (fun a b => str_le a.1.1 b.1.1)
    (l ≫= fun kb => (fun b => (pool_metric_label kb.1 ++ lit "/" ++ b.1.1, b.1.2, b.2)) <$> kb.2).

Section Render.
Context `{MapOrder, Hashing}.

Definition view_table (k : ConsoleState) (c : Config) (now : Z) (v : AdminView) : AdminTable :=
  let s := console_store k in
  match v with
  | ViewClients => clients_table (client_snapshots s) (route_checkout_snapshots s)
  | ViewPools => pools_table (i_pool s) (registry_snapshots (console_pools k)) (i_performance s)
  | ViewServers => servers_table now (server_snapshots s) (replica_health_snapshots s)
  | ViewRuntime => runtime_table (i_runtime s) c
  | ViewRuntimeShards => runtime_shards_table (runtime_shard_snapshots s)
  | ViewNodes => nodes_table (node_snapshots s) (i_runtime s)
  | ViewMirroring => mirroring_table (i_mirror s)
  | ViewAdaptive =>
      let a := adaptive (production (runtime c)) in
      adaptive_table (adaptive_mode_as_str (adaptive_mode a)) (adaptive_apply a) (adaptive_guardrail a)
        (i_adaptive_recommendations s) (i_adaptive_outcomes s)
  | ViewPressure => pressure_table (i_pressure s) c
  | ViewBenchmarks => benchmarks_table (i_benchmark_runs s) (i_performance s)
  | ViewPerformance => performance_table (i_performance s)
  | ViewPrepared => prepared_table (i_prepared s) (i_performance s)
  | ViewPinning => pinning_table (pinning_snapshots s)
  | ViewRecovery => recovery_table (recovery_snapshots s)
  | ViewBackpressure => backpressure_table (backpressure_snapshots s)
  | ViewFairness => fairness_table c
  | ViewPolicies => policies_table (i_policy_status s) (i_policy_reloads s)
  | ViewPolicyDecisions => policy_audit_table (i_policy_decisions s) false
  | ViewPolicyAudit => policy_audit_table (i_policy_audit_events s) true
  | ViewRoutes =>
      routes_table (latest_route_map_generation (i_route_map_reloads s)) (cfg_sharding_enabled (i_sharding s)) (route_snapshots s)
        (route_policy_snapshots s)
  | ViewRouteMaps => route_maps_table (i_sharding s)
  | ViewShards => shards_table (i_sharding s) (shard_lifecycle_snapshots s)
  | ViewMigrations => migrations_table (i_shard_migration_safety s)
  | ViewSettings => settings_table (i_settings s)
  | ViewLimits => limits_table (i_limits s) c
  | ViewGuardrails => guardrails_table (console_guardrails k) c
  | ViewResilience => resilience_table (resilience_snapshots (console_breakers k)) c
  | ViewTopQueries => top_queries_table (top (console_stats k))
  end.

Definition put_store (k : ConsoleState) (s : SnapshotStoreInner) : ConsoleState :=
  {| console_store := s; console_pools := console_pools k; console_breakers := console_breakers k;
     console_guardrails := console_guardrails k; console_stats := console_stats k |}.
(** The performance view refreshes the snapshot first. *)
Definition render_admin_view (k : ConsoleState) (c : Config) (t : Clock) (v : AdminView)
    : list Sample * ConsoleState * result WireError bytes :=
  let '(samples, k) :=
    match v with
    | ViewPerformance => let '(ss, s) := refresh_performance_snapshot (console_store k) (clock_process t) in (ss, put_store k s)
    | _ => ([], k)
    end in
  (samples, k, admin_table_response (view_table k c (clock_now t) v)).
End Render.

(** ** Types of cells *)

Definition decimal (c : str) : Prop := c <> [] /\ Forall (fun x => 48 <= x <= 57) c.
(** A sign, digits, a point and three digits. *)
Definition fixed_point (c : str) : Prop :=
  exists sign whole frac, c = sign ++ whole ++ lit "." ++ frac /\ (sign = [] \/ sign = lit "-")
                          /\ decimal whole /\ decimal frac /\ length frac = 3%nat.
(** What a client may expect of a cell of a column: an integer is written
    in at most 39 digits, those of a [u128], so it may be out of the range
    of its type; a float may be no number or infinite. *)
Definition typed (t : AdminColumnType) (c : str) : Prop :=
  match t with
  | ColText => True
  | ColInt8 => decimal c /\ (length c <= 39)%nat
  | ColFloat8 => fixed_point c \/ c ∈ [lit "NaN"; lit "inf"; lit "-inf"]
  | ColBool => c = lit "true" \/ c = lit "false"
  | ColTimestamp => False
  end.
(** The cells that are not of the type of their column. *)
Definition misfits : list (AdminView * string * str) :=
  [(ViewPinning, "backend_id", none_text); (ViewFairness, "max_in_flight", lit "unbounded");
   (ViewPressure, "cpu_some_avg10", []); (ViewPressure, "mem_some_avg10", []);
   (ViewSettings, "tcp_keepalive_idle_ms", none_text); (ViewSettings, "tcp_keepalive_interval_ms", none_text);
   (ViewSettings, "tcp_keepalive_retries", none_text); (ViewSettings, "tcp_user_timeout_ms", none_text);
   (ViewSettings, "tcp_send_buffer_bytes", none_text); (ViewSettings, "tcp_recv_buffer_bytes", none_text)]%string.
Definition cell_ok (v : AdminView) (col : AdminColumn) (c : str) : Prop :=
  typed (col_type col) c \/ (v, col_name col, c) ∈ misfits.
Definition table_ok (t : AdminTable) : Prop :=
  NoDup (col_name <$> table_columns t) /\ Forall (Forall2 (cell_ok (table_view t)) (table_columns t)) (table_rows t).

Lemma dec_digits_decimal fuel n : (0 < fuel)%nat -> decimal (dec_digits fuel n).
Proof.
  intros Hf. split; [by apply dec_digits_nonempty|]. clear Hf. revert n. induction fuel as [|fuel IH]; intros n; [constructor|].
  cbn [dec_digits]. apply Forall_app. split.
  - destruct (n <? 10); [constructor|apply IH].
  - repeat constructor; pose proof (Z.mod_pos_bound n 10); lia.
Qed.

Lemma dec_digits_length fuel n : (length (dec_digits fuel n) <= fuel)%nat.
Proof.
  revert n. induction fuel as [|fuel IH]; intros n; [done|]. cbn [dec_digits]. rewrite length_app. cbn.
  destruct (n <? 10); cbn; [lia|]. specialize (IH (n / 10)). lia.
Qed.
Lemma pad3_decimal n : 0 <= n < 1000 -> decimal (pad3 n).
Proof.
  intros Hn. split; [done|]. pose proof (Z.mod_pos_bound (n / 10) 10). pose proof (Z.mod_pos_bound n 10).
  pose proof (Z.div_pos n 100). assert (n / 100 < 10) by (apply Z.div_lt_upper_bound; lia).
  repeat constructor; lia.
Qed.
Lemma fmt_fixed3_typed x : typed ColFloat8 (fmt_fixed3 x).
Proof.
  destruct x as [s|s| |s m e]; cbn.
  - left. exists (if s then lit "-" else []), (lit "0"), (lit "000").
    split_and!; [by destruct s|destruct s; [by right|by left]|..|done];
      apply (bool_decide_unpack _); vm_compute; exact I.
  - right. destruct s; set_solver.
  - right. set_solver.
  - left. exists (if s then lit "-" else []), (dec_digits 320 (thousandths (Z.pos m) e / 1000)), (pad3 (thousandths (Z.pos m) e mod 1000)).
    split_and!; [done|destruct s; [by right|by left]|apply dec_digits_decimal; lia|apply pad3_decimal, Z.mod_pos_bound; lia|done].
Qed.

Section Cells.
Context (v : AdminView).
Lemma cell_text name c : cell_ok v {| col_name := name; col_type := ColText |} c.
Proof. by left. Qed.
Lemma cell_u64 name n : cell_ok v {| col_name := name; col_type := ColInt8 |} (fmt_u64 n).
Proof. left. split; [apply dec_digits_decimal; lia|]. etrans; [apply dec_digits_length|lia]. Qed.
Lemma cell_duration name n : cell_ok v {| col_name := name; col_type := ColInt8 |} (duration_millis n).
Proof. left. split; [apply dec_digits_decimal; lia|apply dec_digits_length]. Qed.
Lemma cell_zero name : cell_ok v {| col_name := name; col_type := ColInt8 |} (lit "0").
Proof. left. split; [|cbn; lia]. split; [done|]. apply Forall_singleton. vm_compute. split; discriminate. Qed.
Lemma cell_bool name b : cell_ok v {| col_name := name; col_type := ColBool |} (fmt_bool b).
Proof. left. destruct b; [by left|by right]. Qed.
Lemma cell_float name x : cell_ok v {| col_name := name; col_type := ColFloat8 |} (fmt_fixed3 x).
Proof. left. apply fmt_fixed3_typed. Qed.
Lemma cell_metric name x : cell_ok v {| col_name := name; col_type := ColFloat8 |} (optional_metric_value x).
Proof. left. destruct x; apply fmt_fixed3_typed. Qed.
Lemma cell_misfit col (A : Type) (f : A -> str) d x :
  (forall y, cell_ok v col (f y)) -> (v, col_name col, d) ∈ misfits -> cell_ok v col (from_option f d x).
Proof. intros Hf Hd. destruct x; [apply Hf|by right]. Qed.
End Cells.

Create HintDb cells.
#[export] Hint Resolve cell_text cell_u64 cell_duration cell_zero cell_bool cell_float cell_metric : cells.
#[export] Hint Extern 2 (cell_ok _ _ (process_metric_value _ _)) => apply cell_metric : cells.
#[export] Hint Extern 2 (cell_ok _ _ (benchmark_metric_value _)) => apply cell_float : cells.
#[export] Hint Extern 2 (cell_ok _ _ (lit "false")) => apply (cell_bool _ _ false) : cells.

(** A row, cell by cell; a cell that may be a misfit is one of the list. *)
Ltac misfit :=
  first [apply (cell_misfit _ _ _ _ _ _ (fun y => cell_u64 _ _ y)) | apply (cell_misfit _ _ _ _ _ _ (fun y => cell_duration _ _ y))
        |apply (cell_misfit _ _ _ _ _ _ (fun y => cell_float _ _ y))]; apply (bool_decide_unpack _); vm_compute; exact I.
Ltac typed_row := repeat first [apply Forall2_nil | apply Forall2_cons; split]; first [solve [auto 2 with cells] | misfit].
(** A table: its names differ, and each way to make a row gives a typed one. *)
Ltac typed_table :=
  split; [apply (bool_decide_unpack _); vm_compute; exact I|];
  cbn [table_rows admin_table table_columns table_view];
  repeat lazymatch goal with
  | |- Forall _ (match ?x with _ => _ end) => destruct x
  | |- Forall _ (_ <$> _) => apply Forall_fmap, Forall_forall; intros ? _; cbv [compose]
  | |- Forall _ (imap _ _) => apply Forall_forall; intros ? (? & ? & -> & _)%elem_of_lookup_imap_1
  | |- Forall _ (_ ≫= _) => apply Forall_bind, Forall_forall; intros ? _; cbv [compose]
  | |- Forall _ (_ :: _) => apply Forall_cons; split
  | |- Forall _ [] => constructor
  | |- Forall2 _ _ (match ?x with _ => _ end) => destruct x
  end; try typed_row.

Ltac head t := lazymatch t with ?f _ => head f | _ => t end.
Lemma view_tables_ok `{MapOrder, Hashing} k c now v : table_view (view_table k c now v) = v /\ table_ok (view_table k c now v).
Proof.
  destruct v; cbn [view_table];
    lazymatch goal with |- _ /\ table_ok ?t => let h := head t in unfold h end; cbv zeta;
    try (lazymatch goal with |- context [console_guardrails k] => destruct (console_guardrails k) end);
    (split; [done|]); typed_table.
Qed.

(** C35. Every view of the admin console, in every state, is a table whose
    column names differ, whose rows are as wide as its columns and whose cells
    are written as their column wants: at most 39 decimal digits in integer
    columns, which need not fit in an int8; a sign, digits, a point and three
    digits in float columns, or one of NaN, inf and -inf; true or false in
    boolean ones. The exceptions are the ten cells of [misfits], which hold a
    word or nothing where a value is missing: seven hold <none>, one holds
    unbounded, and the two averages of the pressure view are empty. Rendering therefore never meets the assertion on the width of
    a row, and only the performance view changes the store. *)
Theorem admin_views_typed `{MapOrder, Hashing} k c t v :
  let '(samples, k', response) := render_admin_view k c t v in
  let table := view_table k' c (clock_now t) v in
  table_view table = v /\ table_ok table /\ (exists bs, response = Ok bs)
  /\ (v <> ViewPerformance -> k' = k /\ samples = []).
Proof.
  unfold render_admin_view.
  set (sk := match v with ViewPerformance => _ | _ => _ end).
  assert (Hk : v <> ViewPerformance -> sk = ([], k)) by (intros Hv; by destruct v).
  destruct sk as [samples k'] eqn:E. clearbody sk.
  destruct (view_tables_ok k' c (clock_now t) v) as [Hv Ht]. split_and!; [done..| |].
  - unfold admin_table_response, build_admin_table_response.
    destruct Ht as [_ Ht]. induction Ht as [|row rows Hr _ [bs IH]]; cbn [build_data_row]; [by eexists|].
    rewrite (proj2 (Z.eqb_eq _ _)) by (unfold len; rewrite length_fmap; f_equal; symmetry; by eapply Forall2_length).
    destruct (build_data_row _ rows); try done. by eexists.
  - intros Hne. specialize (Hk Hne). by simplify_eq.
Qed.

(** Values that an int8 and a number do not hold: a limit beyond 2^63, and an
    average that is no number; one that is not known is empty. *)
Example pressure_cells_out_of_type c :
  table_rows (pressure_table (Some {| prs_enabled := true; prs_cpu_some_avg10 := Some S754_nan; prs_mem_some_avg10 := None;
                                      prs_cpu_high_pct := f64_one; prs_mem_high_pct := f64_one; prs_pressured := false;
                                      prs_route_in_flight_limit := 2 ^ 64 - 1; prs_configured_route_in_flight := 0 |}) c)
  = [[lit "true"; lit "NaN"; []; lit "1.000"; lit "1.000"; lit "false"; lit "18446744073709551615"; lit "0"]].
Proof. unfold pressure_table. cbn [table_rows admin_table default]. vm_compute. reflexivity. Qed.

(** Only the words of a command give it. *)
Lemma parse_show sql v :
  parse_admin_command sql = Show v <-> ([lit "show"] ++ split_whitespace (lit (admin_view_as_str v)))
                                       = split_whitespace (normalize_admin_sql sql).
Proof.
  unfold parse_admin_command. split.
  - destruct (find _ command_words) as [[ws c]|] eqn:E; [|done]. intros ->. apply find_some in E as [Hin Hw].
    apply bool_decide_eq_true in Hw. cbn [fst] in Hw. rewrite <- Hw. clear Hw.
    unfold command_words in Hin. repeat (destruct Hin as [Hin|Hin]; [inversion Hin; subst; vm_compute; reflexivity|]). done.
  - intros <-. by destruct v.
Qed.
Example show_top_queries : parse_admin_command (lit "  Show   TOP queries ; ") = Show ViewTopQueries.
Proof. vm_compute. reflexivity. Qed.
