(* ===== verification/AdminSession.v ===== *)
(** * AdminSession: the sessions of administrators

    Models [ops/admin.rs] from an accepted socket to its end: the check at
    start, [handle_connection], [handle_session], [read_request] and
    [reload_now]. The first packet is read by the client's
    [read_startup_packet] (Admission.v), the views are rendered by
    AdminTables.v, reloads are Reload.v's, pauses Drain.v's. A session is a
    program over the client's socket and the shared state of the proxy; other
    tasks may change that state between any two of its commands. Accepting
    sockets and spawning tasks is I/O. *)

From S2P Require Import Prelude Text Protocol Startup Frame BackendWire Secrets Auth Cycle Route Checkout.
From S2P Require Import Effects Login Forwarding ClientSession Admission Custody Gatekeeping Drain Config Reload.
From S2P Require Import QueryStats Performance SnapshotTypes Metrics Snapshot AdminTables Scenarios ReadRouting Lsn RoutingTypes Recovery.

Definition ADMIN_AUTH_SQLSTATE : str := lit "28000".
Definition ADMIN_UNSUPPORTED_SQLSTATE : str := lit "0A000".
Definition RELOAD_SQLSTATE : str := lit "55000".

Inductive AdminRequest :=
| RequestQuery (frame : FrontendFrame)
| RequestTerminate
| RequestUnsupported
| RequestBufferLimitExceeded
| RequestTimedOut.

(** ** Programs *)

(** What a session asks of the world: the guard of the drain controller and a
    slot, its client, the active configuration, and the four commands. *)
Inductive console_cmd :=
| ApplySocketOptions
| TryEnterClient
| AcquireSlot
| ReleaseGuards
| ShutdownClient
| OnClient (c : cmd)
| ReadActiveConfig
| RenderView (c : Config) (v : AdminView)
| DoPause
| DoResume
| DoReload.
Definition console_answer (c : console_cmd) : Type :=
  match c with
  | ApplySocketOptions | TryEnterClient | ShutdownClient => bool
  | AcquireSlot | ReleaseGuards | DoPause | DoResume => unit
  | OnClient c => answer c
  | ReadActiveConfig => Config
  | RenderView _ _ => result WireError bytes
  | DoReload => result error ReloadDecision
  end.

Inductive console (A : Type) : Type :=
| Done (a : A)
| Do (c : console_cmd) (k : console_answer c -> console A)
| Stuck.
Arguments Done {A} a.
Arguments Do {A} c k.
Arguments Stuck {A}.
Fixpoint console_bind {A B} (p : console A) (f : A -> console B) : console B :=
  match p with
  | Done a => f a
  | Do c k => Do c (fun x => console_bind (k x) f)
  | Stuck => Stuck
  end.
Definition ask (c : console_cmd) : console (console_answer c) := Do c Done.
(** A program of the client's socket, from its variables [s]; [tls] is
    [client.is_tls()]. *)
Definition tls_started (c : cmd) : answer c -> bool :=
  match c with StartTls _ => fun r => match r with Ok _ => true | _ => false end | _ => fun _ => false end.
Fixpoint on_client {A} (p : prog A) (s : Sess) (tls : bool) : console (A * bool) :=
  match p with
  | Ret a => Done (a, tls)
  | Get k => on_client (k s) s tls
  | Put s k => on_client k s tls
  | Act c k => Do (OnClient c) (fun x => on_client (k x) s (tls || tls_started c x))
  | Hang => Stuck
  end.

#[global] Instance console_ret : MRet console := @Done.
#[global] Instance console_mbind : MBind console := fun A B f p => console_bind p f.
Abbreviation attempt A := (console (result failure A)).
Definition attempt_then {A B} (p : attempt A) (f : A -> attempt B) : attempt B :=
  r ← p; match r with Ok a => f a | Err e => Done (Err e) | Panic => Done Panic end.
Notation "x ←! p ; q" := (attempt_then p (fun x => q))
  (at level 100, p at next level, q at level 200, right associativity).

(** ** The shared state *)

Record Shared := { sh_running : Running; sh_pause : Pause.PauseController; sh_console : ConsoleState }.

Section Reload.
Context `{HC : Crypto} (to_value : Config -> result error Value) (of_value : Value -> result error Config) (default_config : Config).

(** [AdminState::reload_now]. *)
Definition reload_now (e : Environment) (base : Config) (registry_is_empty : bool) (r : Running) (s : SnapshotStoreInner)
    : result error (ReloadDecision * Retired) * list Sample * Running * SnapshotStoreInner :=
  let '(decision, r) := reload_once_with_pools_and_credentials to_value of_value default_config e base registry_is_empty r in
  match decision with
  | Ok (d, retired) =>
      let label := match d with Reload.ReloadApplied => "applied" | Reload.ReloadRejected => "rejected" | Reload.ReloadUnchanged => "unchanged" end in
      let samples := [counter "pg_kinetic_config_reload_total" [("outcome", lit label)] 1] in
      let s := match d with
               | Reload.ReloadApplied => put_limits (put_settings s (settings_from_config (active r))) (limits_from_config (active r))
               | _ => s
               end in
      (Ok (d, retired), samples, r, s)
  | Err x => (Err x, [], r, s)
  | Panic => (Panic, [], r, s)
  end.
End Reload.

(** [spawn]: a required TLS needs a TLS configuration. *)
Definition spawn_check (e : Environment) (c : Config) : result error (option unit) :=
  tls_config ← load_client_tls_server_config e c;
  if admin_require_tls (admin c) && negb (bool_decide (is_Some tls_config))
  then fail "admin TLS is required but client TLS is disabled"
  else Ok tls_config.

(** ** A session *)

Section Session.
Context (describe : error -> str) (admin : AdminConfig) (adm : AdmissionConfig) (cfg : SessionConfig) (has_config : bool).

Definition write_admin (bs : bytes) : attempt unit :=
  ok ← ask (OnClient (WriteClient bs)); Done (if (ok : bool) then Ok tt else Err (Other EIo)).
Definition error_response_and_ready (sqlstate message : str) : attempt unit :=
  _ ←! write_admin (build_error_response sqlstate message); write_admin (ready_for_query RS_Idle).

Definition startup_user (packet : bytes) : result error str :=
  startup ← context "parse admin startup packet" (map_err EWire (parse_startup_packet packet));
  match startup with
  | Startup _ _ parameters => some_or (startup_parameter parameters (lit "user")) "admin startup packet missing user"
  | _ => fail "unexpected startup packet kind"
  end.
Definition startup_ok_response : bytes :=
  backend_byte Authentication :: put_i32 8 ++ put_i32 0 ++ ready_for_query RS_Idle.
Definition reject_admin_user (allowed : str) : attempt unit :=
  error_response_and_ready ADMIN_AUTH_SQLSTATE (lit "admin access restricted to user " ++ allowed).
Definition reject_during_drain : attempt unit :=
  _ ←! error_response_and_ready (sqlstate_as_str OperatorIntervention) (lit "proxy is draining");
  ok ← ask ShutdownClient; Done (if (ok : bool) then Ok tt else Err (Other EIo)).

Definition classify_request (frame : FrontendFrame) : AdminRequest :=
  if tag frame =? frontend_byte Query then RequestQuery frame
  else if tag frame =? frontend_byte Terminate then RequestTerminate
  else RequestUnsupported.

Fixpoint read_request (fuel : nat) (buffer : bytes) : attempt (AdminRequest * bytes) :=
  match fuel with
  | O => Stuck
  | S fuel =>
      match parse_frontend_frame buffer with
      | Err e => Done (Err (Other (EWire e)))
      | Panic => Done Panic
      | Ok (Some frame, rest) => Done (Ok (classify_request frame, rest))
      | Ok (None, rest) =>
          if max_client_buffer_bytes cfg <=? len rest then Done (Ok (RequestBufferLimitExceeded, rest))
          else
            e ← ask (OnClient ReadClientInTime);
            match e with
            | Some (Eof | Chunk []) => Done (Ok (RequestTerminate, rest))
            | Some (Chunk ((_ :: _) as bs)) =>
                if max_client_buffer_bytes cfg <? len (rest ++ bs) then Done (Ok (RequestBufferLimitExceeded, rest ++ bs))
                else read_request fuel (rest ++ bs)
            | Some ReadError => Done (Err (Other EIo))
            | None => Done (Ok (RequestTimedOut, rest))
            end
      end
  end.

Definition only_simple_queries : attempt unit :=
  error_response_and_ready ADMIN_UNSUPPORTED_SQLSTATE (lit "admin endpoint only supports simple query protocol").
Definition reload_rejected (why : str) : attempt unit :=
  error_response_and_ready RELOAD_SQLSTATE (lit "reload rejected: " ++ why).

Definition run_command (command : AdminCommand) : attempt unit :=
  match command with
  | Show v =>
      config ← ask ReadActiveConfig;
      response ← ask (RenderView config v);
      match response with Ok bs => write_admin bs | Err _ | Panic => Done Panic end
  | CmdPause => _ ← ask DoPause; write_admin (build_command_response (lit "PAUSE"))
  | CmdResume => _ ← ask DoResume; write_admin (build_command_response (lit "RESUME"))
  | CmdReload =>
      decision ← ask DoReload;
      match decision with
      | Ok (Reload.ReloadApplied | Reload.ReloadUnchanged) => write_admin (build_command_response (lit "RELOAD"))
      | Ok Reload.ReloadRejected => reload_rejected (lit "incompatible config change")
      | Err e => reload_rejected (describe e)
      | Panic => Done Panic
      end
  | Unknown sql => error_response_and_ready ADMIN_UNSUPPORTED_SQLSTATE (lit "unsupported admin command: " ++ sql)
  end.
Definition run_query (frame : FrontendFrame) : attempt unit :=
  match parse_simple_query frame with
  | Err e => Done (Err (Other (EWire e)))
  | Panic => Done Panic
  | Ok None => only_simple_queries
  | Ok (Some sql) => run_command (parse_admin_command sql)
  end.

(** The loop of [handle_session]: whether it goes on after a request. *)
Definition serve_request (request : AdminRequest) : attempt bool :=
  match request with
  | RequestQuery frame => _ ←! run_query frame; Done (Ok true)
  | RequestTerminate | RequestBufferLimitExceeded => Done (Ok false)
  | RequestUnsupported => _ ←! only_simple_queries; Done (Ok true)
  | RequestTimedOut =>
      _ ←! error_response_and_ready (sqlstate_as_str QueryCanceled) (lit "admin query timed out"); Done (Ok false)
  end.
Fixpoint serve (fuel : nat) (buffer : bytes) : attempt unit :=
  match fuel with
  | O => Stuck
  | S fuel =>
      awaits ← ask (OnClient Patience);
      request ←! read_request awaits buffer;
      goes_on ←! serve_request (fst request);
      if (goes_on : bool) then serve fuel (snd request) else Done (Ok tt)
  end.

(** From the startup packet on; [encrypted] is [client.is_tls()]. The bytes
    that came with the packet are not in the new buffer. *)
Definition refused_for (user : str) : option str :=
  allowed ← admin_allowed_user admin; if bool_decide (user = allowed) then None else Some allowed.
Definition serve_user (encrypted : bool) (packet : bytes) : attempt unit :=
  match startup_user packet with
  | Err e => Done (Err (Other e))
  | Panic => Done Panic
  | Ok user =>
      match refused_for user with
      | Some allowed => reject_admin_user allowed
      | None =>
          if admin_require_tls admin && negb encrypted
          then error_response_and_ready ADMIN_AUTH_SQLSTATE (lit "admin endpoint requires TLS")
          else _ ←! write_admin startup_ok_response; requests ← ask (OnClient Patience); serve requests []
      end
  end.

(** [s] are the variables of a new connection. *)
Definition handle_session (s : Sess) : attempt unit :=
  awaits ← ask (OnClient Patience);
  '(first, encrypted) ← on_client (read_startup_packet adm cfg awaits has_config false) s false;
  match first with
  | Ok (FirstPacketRead packet) => serve_user encrypted packet
  | Ok (FirstClosed | FirstCancel _ _ | FirstLimitExceeded) => Done (Ok tt)
  | Ok FirstTimedOut => error_response_and_ready (sqlstate_as_str QueryCanceled) (lit "admin startup timed out")
  | Err e => Done (Err e)
  | Panic => Done Panic
  end.

Definition handle_connection (s : Sess) : attempt unit :=
  applied ← ask ApplySocketOptions;
  if negb applied then Done (Err (Other EIo))
  else
    entered ← ask TryEnterClient;
    if negb entered then reject_during_drain
    else
      _ ← ask AcquireSlot;
      r ← handle_session s;
      _ ← ask ReleaseGuards;
      Done r.
End Session.

(** ** Execution *)

Inductive console_event := At (c : console_cmd) (x : console_answer c).

(** The rest of the world: what sockets deliver and gates answer, the files
    and the time at each moment, and what other tasks do to the shared state
    before each command. *)
Record World := {
  world_client : list console_event -> forall c, answer c;
  world_gate : list console_event -> bool;
  world_files : list console_event -> Environment;
  world_clock : list console_event -> Clock;
  world_others : list console_event -> Shared -> Shared;
}.

Section Run.
Context `{HC : Crypto, HM : MapOrder, HH : Hashing}.
Context (to_value : Config -> result error Value) (of_value : Value -> result error Config) (default_config base : Config)
        (registry_is_empty : bool) (w : World).

Definition with_console (sh : Shared) (k : ConsoleState) : Shared :=
  {| sh_running := sh_running sh; sh_pause := sh_pause sh; sh_console := k |}.
Definition with_pause (sh : Shared) (p : Pause.PauseController) : Shared :=
  {| sh_running := sh_running sh; sh_pause := p; sh_console := sh_console sh |}.

(** What a command does to the shared state, and its answer. *)
Definition perform (h : list console_event) (sh : Shared) (c : console_cmd) : Shared * console_answer c :=
  match c with
  | ApplySocketOptions => (sh, world_gate w h)
  | TryEnterClient => (sh, world_gate w h)
  | ShutdownClient => (sh, world_gate w h)
  | AcquireSlot => (sh, tt)
  | ReleaseGuards => (sh, tt)
  | OnClient c => (sh, world_client w h c)
  | ReadActiveConfig => (sh, active (sh_running sh))
  | RenderView config v =>
      let '(_, k, response) := render_admin_view (sh_console sh) config (world_clock w h) v in (with_console sh k, response)
  | DoPause => (with_pause sh (Pause.set_paused (sh_pause sh) true), tt)
  | DoResume => (with_pause sh (Pause.notify_resumed (Pause.set_paused (sh_pause sh) false)), tt)
  | DoReload =>
      let '(decision, _, r, s) :=
        reload_now to_value of_value default_config (world_files w h) base registry_is_empty (sh_running sh)
          (console_store (sh_console sh)) in
      ({| sh_running := r; sh_pause := sh_pause sh; sh_console := put_store (sh_console sh) s |}, fst <$> decision)
  end.

Fixpoint run_console {A} (p : console A) (sh : Shared) (h : list console_event)
    : option A * Shared * list console_event :=
  match p with
  | Done a => (Some a, sh, h)
  | Stuck => (None, sh, h)
  | Do c k => let '(sh, x) := perform h (world_others w h sh) c in run_console (k x) sh (h ++ [At c x])
  end.
End Run.

(** ** What a history says *)

(** The events of the client's socket. *)
Definition client_part (h : list console_event) : list event :=
  omap (fun e => match e with At (OnClient c) x => Some (Ev c x) | _ => None end) h.
(** The administrator's commands that took effect. *)
Definition event_command (e : console_event) : option AdminCommand :=
  match e with
  | At (RenderView _ v) _ => Some (Show v)
  | At DoPause _ => Some CmdPause
  | At DoResume _ => Some CmdResume
  | At DoReload _ => Some CmdReload
  | _ => None
  end.
Definition effects (h : list console_event) : list AdminCommand := omap event_command h.
(** The bytes the client sent after it was let in. *)
Definition request_step (r : option bytes) (e : console_event) : option bytes :=
  match e with
  | At (OnClient (WriteClient bs)) true =>
      match r with None => if bool_decide (bs = startup_ok_response) then Some [] else None | Some _ => r end
  | At (OnClient ReadClientInTime) (Some (Chunk bs)) => (fun got => got ++ bs) <$> r
  | _ => r
  end.
Definition requests (h : list console_event) : option bytes := fold_left request_step h None.

(** The command a frame asks for. *)
Definition command_of (f : FrontendFrame) : option AdminCommand :=
  if tag f =? frontend_byte Query then
    match parse_simple_query f with
    | Ok (Some sql) => match parse_admin_command sql with Unknown _ => None | c => Some c end
    | _ => None
    end
  else None.

(** [framed got fs rest]: the bytes [got] begin with the frames [fs], and
    [rest] is what follows them. *)
Inductive framed (got : bytes) : list FrontendFrame -> bytes -> Prop :=
| framed_none : framed got [] got
| framed_next fs b f rest : framed got fs b -> parse_frontend_frame b = Ok (Some f, rest) -> framed got (fs ++ [f]) rest.

Section Facts.
Context (admin : AdminConfig) (adm : AdmissionConfig) (cfg : SessionConfig).

(** The drain controller let the connection in. *)
Definition entered (h : list console_event) : bool :=
  existsb (fun e => match e with At TryEnterClient true => true | _ => false end) h.
(** Somebody who may give commands. *)
Definition admitted (h : list console_event) : Prop :=
  exists packet user before after,
    entered h = true
    /\ received (tls_view (client_part h)) = before ++ packet ++ after
    /\ startup_user packet = Ok user
    /\ (forall allowed, admin_allowed_user admin = Some allowed -> user = allowed)
    /\ (admin_require_tls admin = true -> encrypted (tls_view (client_part h)) = true)
    /\ tls_satisfied adm (tls_view (client_part h)).
(** What remains when a session ends: nothing that was asked before. *)
Definition finished (fs : list FrontendFrame) (b : bytes) : Prop :=
  (exists f, last fs = Some f /\ classify_request f = RequestTerminate)
  \/ parse_frontend_frame b = Ok (None, b) \/ max_client_buffer_bytes cfg <= len b.

(** The commands done and those pending are those of the frames taken. *)
Definition serving (pending : list AdminCommand) (h : list console_event) (b : bytes) : Prop :=
  admitted h /\ exists got fs, requests h = Some got /\ framed got fs b /\ effects h ++ pending = omap command_of fs.
Definition served (h : list console_event) : Prop :=
  exists got fs b, requests h = Some got /\ framed got fs b /\ effects h = omap command_of fs /\ finished fs b.
Definition justified (h : list console_event) (e : console_event) : Prop :=
  forall c, event_command e = Some c ->
    admitted h /\ exists got fs b, requests h = Some got /\ framed got fs b /\ effects h ++ [c] = omap command_of fs.

(** A program logic: [J] at every event, [Q] at the end. *)
Fixpoint cwp {A} (J : list console_event -> console_event -> Prop) (p : console A)
    (Q : option A -> list console_event -> Prop) (h : list console_event) : Prop :=
  match p with
  | Done a => Q (Some a) h
  | Stuck => Q None h
  | Do c k => forall x, J h (At c x) /\ cwp J (k x) Q (h ++ [At c x])
  end.

Lemma cwp_mono {A} J (p : console A) (Q R : option A -> list console_event -> Prop) h :
  cwp J p Q h -> (forall r h, Q r h -> R r h) -> cwp J p R h.
Proof. intros Hp HQR. revert h Hp. induction p as [a|c k IH|]; cbn; [by auto| |by auto]. intros h Hp x. destruct (Hp x). by eauto. Qed.
Lemma cwp_bind {A B} J (p : console A) (f : A -> console B) Q h :
  cwp J p (fun r h => match r with Some a => cwp J (f a) Q h | None => Q None h end) h -> cwp J (p ≫= f) Q h.
Proof. revert h. induction p as [a|c k IH|]; cbn; [done| |done]. intros h Hp x. destruct (Hp x). split; [done|]. by apply IH. Qed.
Lemma cwp_ask {A} J c (f : console_answer c -> console A) Q h :
  (forall x, J h (At c x) /\ cwp J (f x) Q (h ++ [At c x])) -> cwp J (ask c ≫= f) Q h.
Proof. done. Qed.
Lemma cwp_attempt {A B} J (p : attempt A) (f : A -> attempt B) Q h :
  cwp J p (fun r h => match r with
                      | Some (Ok a) => cwp J (f a) Q h
                      | Some (Err e) => Q (Some (Err e)) h
                      | Some Panic => Q (Some Panic) h
                      | None => Q None h end) h ->
  cwp J (attempt_then p f) Q h.
Proof. intros Hp. apply cwp_bind. eapply cwp_mono; [exact Hp|]. by intros [[]|]. Qed.

Lemma run_sound `{HC : Crypto, HM : MapOrder, HH : Hashing} {A} tv ov dc base re w J (p : console A) Q sh h :
  cwp J p Q h ->
  let '(r, _, h') := run_console tv ov dc base re w p sh h in
  Q r h' /\ exists t, h' = h ++ t /\ forall t1 e t2, t = t1 ++ e :: t2 -> J (h ++ t1) e.
Proof.
  revert sh h. induction p as [a|c k IH|]; intros sh h Hp; cbn [run_console].
  - split; [done|]. exists []. split; [by rewrite app_nil_r|]. by intros [] ? ?.
  - destruct (perform _ _ _ _ _ _ _ _ _) as [sh' x]. destruct (Hp x) as [HJ Hk].
    specialize (IH x sh' _ Hk). destruct (run_console _ _ _ _ _ _ _ _ _) as [[r ?] h'].
    destruct IH as (HQ & t & -> & Ht). split; [done|]. exists (At c x :: t). split; [by rewrite <- app_assoc|].
    intros [|e0 t1] e t2; cbn [app]; intros [= He Ht2]; [subst e; by rewrite app_nil_r|]. subst e0.
    rewrite cons_middle, (app_assoc h). by eapply Ht.
  - split; [done|]. exists []. split; [by rewrite app_nil_r|]. by intros [] ? ?.
Qed.

(** *** Histories *)

Lemma client_part_snoc h e :
  client_part (h ++ [e]) = client_part h ++ match e with At (OnClient c) x => [Ev c x] | _ => [] end.
Proof. unfold client_part. rewrite omap_app. by destruct e as [[] ?]. Qed.
Lemma requests_snoc h e : requests (h ++ [e]) = request_step (requests h) e.
Proof. unfold requests. by rewrite fold_left_app. Qed.
Lemma effects_snoc h e : effects (h ++ [e]) = effects h ++ option_list (event_command e).
Proof. unfold effects. rewrite omap_app. cbn. by destruct (event_command e). Qed.

(** Events that leave what was said alone. *)
Definition quiet (e : console_event) : Prop :=
  match e with At (OnClient (StartTls _)) _ | At (OnClient ReadClientInTime) (Some (Chunk _)) => False | _ => True end.
Lemma quiet_view h e : quiet e -> tls_view (client_part (h ++ [e])) = tls_view (client_part h).
Proof.
  intros He. rewrite client_part_snoc. destruct e as [c x]. destruct c; try by rewrite app_nil_r.
  rewrite tls_view_snoc. destruct c; try done. by destruct x as [[]|].
Qed.
Lemma quiet_requests h e got : quiet e -> requests h = Some got -> requests (h ++ [e]) = Some got.
Proof.
  intros He Hr. rewrite requests_snoc, Hr. destruct e as [c x]. destruct c; try done.
  destruct c; try done; [by destruct x|by destruct x as [[]|]].
Qed.

Lemma admitted_quiet h e : quiet e -> admitted h -> admitted (h ++ [e]).
Proof.
  intros He (packet & user & before & after & Hin & Hr). exists packet, user, before, after. rewrite quiet_view by done.
  split; [unfold entered in *; by rewrite existsb_app, Hin|exact Hr].
Qed.
Lemma serving_quiet pending h b e : quiet e -> event_command e = None -> serving pending h b -> serving pending (h ++ [e]) b.
Proof.
  intros He Hc (Ha & got & fs & Hr & Hf & Hp). split; [by apply admitted_quiet|]. exists got, fs.
  rewrite effects_snoc, Hc. cbn. rewrite app_nil_r. split_and!; [by apply quiet_requests|done..].
Qed.
Lemma served_quiet h e : quiet e -> event_command e = None -> served h -> served (h ++ [e]).
Proof.
  intros He Hc (got & fs & b & Hr & Hf & Hp). exists got, fs, b. rewrite effects_snoc, Hc. cbn. rewrite app_nil_r.
  split; [by apply quiet_requests|done].
Qed.
Lemma serving_effect h b e c : event_command e = Some c -> serving [c] h b -> justified h e /\ serving [] (h ++ [e]) b.
Proof.
  intros Hc (Ha & got & fs & Hr & Hf & Hp). assert (quiet e) as He by (destruct e as [[] ?]; try done; by destruct c0).
  split.
  - intros c'. rewrite Hc. intros [= <-]. by eauto 8.
  - split; [by apply admitted_quiet|]. exists got, fs. rewrite effects_snoc, Hc. cbn. rewrite app_nil_r.
    split_and!; [by apply quiet_requests|done..].
Qed.

Lemma parse_frame_app b x f rest :
  parse_frontend_frame b = Ok (Some f, rest) -> parse_frontend_frame (b ++ x) = Ok (Some f, rest ++ x).
Proof.
  unfold parse_frontend_frame. destruct b as [|t0 [|b1 [|b2 [|b3 [|b4 b]]]]]; try done. cbn [app].
  set (n := i32_from_be_bytes b1 b2 b3 b4). case_match; [done|]. case_match; [done|]. intros [= <- <-].
  rewrite !Z.ltb_ge in *. unfold FRAME_LENGTH_PREFIX_LEN, FRAME_HEADER_LEN in *.
  rewrite (proj2 (Z.ltb_ge _ _)) by (rewrite !len_cons, ?len_app in *; pose proof (len_nonneg x); lia).
  assert (Z.to_nat (n - 4) <= length b)%nat by (rewrite !len_cons in *; unfold len in *; lia).
  by rewrite take_app_le, drop_app_le by lia.
Qed.
Lemma framed_app got fs b x : framed got fs b -> framed (got ++ x) fs (b ++ x).
Proof. induction 1; econstructor; [done|]. by apply parse_frame_app. Qed.
Lemma serving_read h b bs :
  serving [] h b -> serving [] (h ++ [At (OnClient ReadClientInTime) (Some (Chunk bs))]) (b ++ bs).
Proof.
  intros ((packet & user & before & after & Hin & Hrec & Hadm) & got & fs & Hr & Hf & Hp). split.
  - exists packet, user, before, (after ++ bs). rewrite client_part_snoc, tls_view_snoc. cbn [tls_step received encrypted certified].
    rewrite Hrec, <- !app_assoc. split; [unfold entered in *; by rewrite existsb_app, Hin|]. done.
  - exists (got ++ bs), fs. rewrite requests_snoc, Hr, effects_snoc. cbn. rewrite !app_nil_r in *.
    split_and!; [done|by apply framed_app|done].
Qed.

(** *** The loop *)

Context (describe : error -> str).
Abbreviation J := justified.

(** A write, and the answers made of writes. *)
Lemma cwp_write bs Q h :
  (forall ok : bool, Q (Some (if ok then Ok tt else Err (Other EIo))) (h ++ [At (OnClient (WriteClient bs)) ok])) ->
  cwp J (write_admin bs) Q h.
Proof. intros HQ ok. split; [done|]. apply HQ. Qed.
(** [I] survives the events of an answer. *)
Definition steady (I : list console_event -> Prop) : Prop :=
  forall h e, quiet e -> event_command e = None -> I h -> I (h ++ [e]).
Lemma cwp_write_steady I bs h : steady I -> I h -> cwp J (write_admin bs) (fun _ h => I h) h.
Proof. intros HI Hh. apply cwp_write. intros ok. by apply HI. Qed.
Lemma cwp_error_steady I state message h : steady I -> I h -> cwp J (error_response_and_ready state message) (fun _ h => I h) h.
Proof.
  intros HI Hh. apply cwp_attempt. eapply cwp_mono; [by apply cwp_write_steady|].
  intros [[[]|e|]|] h' Hh'; try done. by apply cwp_write_steady.
Qed.
Lemma serving_steady pending b : steady (fun h => serving pending h b).
Proof. intros h e. apply serving_quiet. Qed.
Lemma served_steady : steady served.
Proof. intros h e. apply served_quiet. Qed.

Lemma run_command_ok c h b :
  serving (match c with Unknown _ => [] | c => [c] end) h b ->
  cwp J (run_command describe c) (fun _ h => serving [] h b) h.
Proof.
  pose proof (serving_steady [] b) as HI. intros Hs. destruct c; cbn [run_command].
  - intros config. split; [done|]. apply (serving_quiet _ _ _ (At ReadActiveConfig config)) in Hs; [|done..].
    intros response. destruct (serving_effect _ _ (At (RenderView config v) response) _ eq_refl Hs) as [HJ Hs']. split; [exact HJ|].
    destruct response; [apply cwp_write_steady; assumption|exact Hs'..].
  - intros x. destruct (serving_effect _ _ (At DoPause x) _ eq_refl Hs) as [HJ Hs']. split; [exact HJ|]. apply cwp_write_steady; assumption.
  - intros x. destruct (serving_effect _ _ (At DoResume x) _ eq_refl Hs) as [HJ Hs']. split; [exact HJ|]. apply cwp_write_steady; assumption.
  - intros x. destruct (serving_effect _ _ (At DoReload x) _ eq_refl Hs) as [HJ Hs']. split; [exact HJ|].
    destruct x as [[]|e|]; try exact Hs'; unfold reload_rejected;
      solve [apply cwp_write_steady; assumption|apply cwp_error_steady; assumption].
  - apply cwp_error_steady; assumption.
Qed.

Lemma run_query_ok f h b :
  tag f =? frontend_byte Query = true -> serving (option_list (command_of f)) h b ->
  cwp J (run_query describe f) (fun r h => r = Some (Ok tt) -> serving [] h b) h.
Proof.
  unfold command_of, run_query. intros ->. destruct (parse_simple_query f) as [[sql|]|e|]; intros Hs; try done.
  - eapply cwp_mono; [apply (run_command_ok _ _ b)|intros r h' Hr _; exact Hr].
    destruct (parse_admin_command sql); exact Hs.
  - eapply cwp_mono; [apply (cwp_error_steady _ _ _ _ (serving_steady [] b)); exact Hs|intros r h' Hr _; exact Hr].
Qed.

Definition after_request (request : AdminRequest) (h : list console_event) (b : bytes) : Prop :=
  match request with
  | RequestQuery f => tag f =? frontend_byte Query = true /\ serving (option_list (command_of f)) h b
  | RequestUnsupported => serving [] h b
  | _ => served h
  end.
Lemma serving_frame h b f rest :
  serving [] h b -> parse_frontend_frame b = Ok (Some f, rest) -> after_request (classify_request f) h rest.
Proof.
  intros (Ha & got & fs & Hr & Hf & Hp) Hpf. assert (framed got (fs ++ [f]) rest) as Hf' by by econstructor.
  rewrite app_nil_r in Hp. unfold classify_request, after_request.
  assert (effects h ++ option_list (command_of f) = omap command_of (fs ++ [f])) as He.
  { rewrite omap_app, Hp. cbn. by destruct (command_of f). }
  unfold command_of in He. destruct (tag f =? frontend_byte Query) eqn:Eq.
  - split; [done|]. split; [done|]. exists got, (fs ++ [f]). unfold command_of at 1. by rewrite Eq.
  - cbn in He. rewrite app_nil_r in He. destruct (tag f =? frontend_byte Terminate) eqn:Et.
    + exists got, (fs ++ [f]), rest. split_and!; try done. left. exists f. rewrite last_snoc. unfold classify_request. by rewrite Eq, Et.
    + split; [done|]. exists got, (fs ++ [f]). by rewrite app_nil_r.
Qed.
Lemma serving_served h b :
  serving [] h b -> parse_frontend_frame b = Ok (None, b) \/ max_client_buffer_bytes cfg <= len b -> served h.
Proof.
  intros (Ha & got & fs & Hr & Hf & Hp) Hfin. exists got, fs, b. rewrite app_nil_r in Hp. split_and!; try done. by right.
Qed.
Lemma parse_none b rest : parse_frontend_frame b = Ok (None, rest) -> rest = b.
Proof. unfold parse_frontend_frame. repeat case_match; naive_solver. Qed.

Lemma read_request_ok fuel h b :
  serving [] h b ->
  cwp J (read_request cfg fuel b) (fun r h => forall q b, r = Some (Ok (q, b)) -> after_request q h b) h.
Proof.
  revert h b. induction fuel as [|fuel IH]; intros h b Hs; cbn [read_request]; [done|].
  destruct (parse_frontend_frame b) as [[[f|] rest]|e|] eqn:Hp; try done.
  - intros q b' [= <- <-]. by eapply serving_frame.
  - pose proof (parse_none _ _ Hp) as ->. destruct (_ <=? _) eqn:Hm.
    { intros q b' [= <- <-]. eapply serving_served; [done|]. right. lia. }
    apply cwp_ask. intros e. split; [done|].
    pose proof (fun e' => served_quiet h e') as Hq. pose proof (serving_served _ _ Hs (or_introl Hp)) as Hd.
    destruct e as [[[|x bs]| |]|].
    + intros q b' [= <- <-]. apply (serving_read _ _ []) in Hs. rewrite app_nil_r in Hs. by eapply serving_served; [|left].
    + set (bs' := x :: bs) in *. apply (serving_read _ _ bs') in Hs. cbn beta iota.
      destruct (max_client_buffer_bytes cfg <? len (b ++ bs')) eqn:Hl; [|apply IH; exact Hs].
      intros q b' [= <- <-]. eapply serving_served; [done|]. right. lia.
    + intros q b' [= <- <-]. by apply Hq.
    + done.
    + intros q b' [= <- <-]. by apply Hq.
Qed.

Definition goes_on_ok (b : bytes) (r : option (result failure bool)) (h : list console_event) : Prop :=
  (r = Some (Ok true) -> serving [] h b) /\ (r = Some (Ok false) -> served h).
Lemma serve_request_ok q h b :
  after_request q h b -> cwp J (serve_request describe q) (goes_on_ok b) h.
Proof.
  destruct q as [f| | | |]; cbn [serve_request after_request]; intros Hs.
  - destruct Hs as [Ht Hs]. apply cwp_attempt. eapply cwp_mono; [by apply run_query_ok|].
    intros [[[]|e|]|] h' Hr; split; try done. intros _. by apply Hr.
  - by split.
  - apply cwp_attempt. eapply cwp_mono; [by apply (cwp_error_steady _ _ _ _ (serving_steady [] b))|].
    intros [[[]|e|]|] h' Hr; by split.
  - by split.
  - apply cwp_attempt. eapply cwp_mono; [by apply (cwp_error_steady _ _ _ _ served_steady)|].
    intros [[[]|e|]|] h' Hr; by split.
Qed.
Lemma serve_ok fuel h b :
  serving [] h b -> cwp J (serve describe cfg fuel b) (fun r h => r = Some (Ok tt) -> served h) h.
Proof.
  revert h b. induction fuel as [|fuel IH]; intros h b Hs; cbn [serve]; [done|].
  intros awaits. split; [done|]. apply (serving_quiet _ _ _ (At (OnClient Patience) awaits)) in Hs; [|done..].
  apply cwp_attempt. eapply cwp_mono; [by apply read_request_ok|]. intros [[[q b']|e|]|] h' Hr; try done.
  apply cwp_attempt. eapply cwp_mono; [by apply serve_request_ok, Hr|].
  intros [[[]|e|]|] h'' [Hon Hoff]; try done; [by apply IH, Hon|]. intros _. by apply Hoff.
Qed.
End Facts.

Section Admission.
Context (describe : error -> str) (admin : AdminConfig) (adm : AdmissionConfig) (cfg : SessionConfig) (has_config : bool).
Abbreviation J := (justified admin adm).

(** Nobody has been let in yet. *)
Definition waiting (h : list console_event) : Prop := requests h = None /\ effects h = [].
Definition no_welcome (c : cmd) : Prop := match c with WriteClient bs => bs <> startup_ok_response | _ => True end.
Lemma waiting_snoc h e :
  event_command e = None -> (forall c x, e = At (OnClient c) x -> no_welcome c) -> waiting h -> waiting (h ++ [e]).
Proof.
  intros Hc Hw [Hr He]. unfold waiting. rewrite requests_snoc, effects_snoc, Hr, He, Hc. split; [|done].
  destruct e as [c x]. destruct c; try done. specialize (Hw _ _ eq_refl). destruct c; try done.
  - cbn in Hw |- *. destruct x; [|done]. by rewrite bool_decide_eq_false_2.
  - by destruct x as [[]|].
Qed.

Lemma on_client_ok {A} (p : prog A) s tls Q h :
  wp p Q s (client_part h) -> confined no_welcome (fun _ => True) p s ->
  tls = encrypted (tls_view (client_part h)) -> waiting h ->
  cwp J (on_client p s tls) (fun r h' =>
    (exists s', Q (fst <$> r) s' (client_part h')) /\ (forall a t, r = Some (a, t) -> t = encrypted (tls_view (client_part h')))
    /\ waiting h' /\ h `prefix_of` h') h.
Proof.
  revert s tls h. induction p as [a|k IH|s0 p IH|c k IH|]; intros s tls h Hwp Hc Ht Hw; cbn [on_client].
  - split_and!; [by eexists| |done|done]. intros ? ? [= <- <-]. done.
  - by apply IH.
  - destruct Hc as [_ Hc]. by apply IH.
  - destruct Hc as [Hn Hc]. intros x. split; [done|].
    assert (waiting (h ++ [At (OnClient c) x])) as Hw' by (apply waiting_snoc; try done; intros ? ? [= ->]; done).
    eapply cwp_mono; [apply IH|].
    + rewrite client_part_snoc. apply Hwp.
    + apply Hc.
    + rewrite client_part_snoc, tls_view_snoc, Ht. destruct c; cbn; rewrite ?orb_false_r; try done; [by destruct x as [[]|]|].
      destruct x; cbn; by rewrite ?orb_true_r, ?orb_false_r.
    + done.
    + intros r h' (H1 & H2 & H3 & H4). split_and!; try done. etrans; [|exact H4]. by apply prefix_app_r.
  - split_and!; [by eexists|done..].
Qed.

Lemma accept_encryption_no_welcome s : confined no_welcome (fun _ => True) (accept_encryption adm has_config) s.
Proof.
  unfold accept_encryption, write_client. destruct (adm_tls_mode adm); (split; [by vm_compute|]); try done.
  all: intros []; [|done]; destruct has_config; [|done]; split; [done|]; intros [[]|e|]; try done.
  all: cbn; by repeat split.
Qed.
Lemma first_packet_no_welcome fuel tls s : confined no_welcome (fun _ => True) (read_startup_packet adm cfg fuel has_config tls) s.
Proof.
  revert tls s. induction fuel as [|fuel IH]; intros tls s; cbn [read_startup_packet]; [done|].
  apply confined_get. destruct (take_startup_packet_bytes _ _) as [[read rest]|e|]; try done.
  apply confined_put; [done|]. destruct read as [packet|bs pid key|[]| |]; try done.
  - apply confined_and_then; [done|apply accept_encryption_no_welcome|by auto].
  - split; [by vm_compute|]. intros []; [apply IH|done].
  - case_match; [done|]. apply confined_act; [done|]. intros [[[|x bs]| |]|]; try done.
    apply confined_modify; [done|]. case_match; [done|]. apply IH.
Qed.

(** The answers to those who are not let in. *)
Lemma error_no_welcome state message : no_welcome (WriteClient (build_error_response state message)).
Proof. intros H. by apply (f_equal head) in H. Qed.
Lemma ready_no_welcome : no_welcome (WriteClient (ready_for_query RS_Idle)).
Proof. intros H. by apply (f_equal head) in H. Qed.
Lemma waiting_write bs (ok : bool) h :
  no_welcome (WriteClient bs) -> waiting h -> waiting (h ++ [At (OnClient (WriteClient bs)) ok]).
Proof. intros Hn. apply waiting_snoc; [done|]. intros c x Heq. assert (c = WriteClient bs) as -> by congruence. exact Hn. Qed.
Lemma cwp_refuse state message h : waiting h -> cwp J (error_response_and_ready state message) (fun _ => waiting) h.
Proof.
  intros Hw. apply cwp_attempt. intros ok. split; [done|]. apply (waiting_write (build_error_response state message) ok) in Hw; [|apply (error_no_welcome state message)].
  destruct ok; [|exact Hw]. intros ok. split; [done|]. apply (waiting_write (ready_for_query RS_Idle) ok) in Hw; [|apply ready_no_welcome].
  destruct ok; exact Hw.
Qed.

Definition answered (h : list console_event) : Prop := waiting h \/ served cfg h.
Lemma serve_user_ok encrypted0 packet rest h :
  entered h = true -> (packet ++ rest) `suffix_of` received (tls_view (client_part h)) ->
  tls_satisfied adm (tls_view (client_part h)) -> encrypted0 = encrypted (tls_view (client_part h)) -> waiting h ->
  cwp J (serve_user describe admin cfg encrypted0 packet) (fun r h => r = Some (Ok tt) -> answered h) h.
Proof.
  intros Hin [before Hrec] Htls Henc Hw. unfold serve_user.
  destruct (startup_user packet) as [user|e|] eqn:Hu; [|done..]. destruct (refused_for admin user) as [allowed|] eqn:Hal.
  { unfold reject_admin_user. eapply cwp_mono; [apply cwp_refuse; exact Hw|]. intros r h' Hh _. left. exact Hh. }
  destruct (admin_require_tls admin && negb encrypted0) eqn:Hreq.
  { eapply cwp_mono; [apply cwp_refuse; exact Hw|]. intros r h' Hh _. left. exact Hh. }
  intros ok. split; [done|]. destruct ok; [|done]. intros n. split; [done|]. eapply cwp_mono.
  - apply serve_ok. apply serving_quiet; [done..|]. split.
    + apply admitted_quiet; [done|]. exists packet, user, before, rest. split_and!; try done.
      * intros allowed Hs. unfold refused_for in Hal. rewrite Hs in Hal. cbn in Hal. case_bool_decide; by congruence.
      * intros Hr. rewrite Hr in Hreq. rewrite <- Henc. by destruct encrypted0.
    + destruct Hw as [Hr He]. exists [], []. rewrite requests_snoc, effects_snoc, Hr, He. cbn [request_step].
      rewrite bool_decide_eq_true_2 by done. split_and!; [done|constructor|done].
  - intros r h' Hs Hr. right. by apply Hs.
Qed.

Lemma handle_session_ok s h :
  client_read s = [] -> tls_view (client_part h) = tls_view [] -> entered h = true -> waiting h ->
  cwp J (handle_session describe admin adm cfg has_config s) (fun r h => r = Some (Ok tt) -> answered h) h.
Proof.
  intros Hb Hv Hin Hw. apply cwp_ask. intros awaits. split; [done|].
  set (h1 := h ++ [At (OnClient Patience) awaits]).
  assert (waiting h1) as Hw1 by (apply waiting_snoc; [done| |done]; intros ? ? [= <-]; done).
  assert (tls_view (client_part h1) = tls_view []) as Hv1 by (unfold h1; by rewrite quiet_view).
  apply cwp_bind. eapply cwp_mono.
  - apply on_client_ok; [apply read_startup_packet_admits|apply first_packet_no_welcome| |exact Hw1].
    + unfold fresh_bytes. rewrite Hv1, Hb. split_and!; [done..|apply suffix_nil].
    + by rewrite Hv1.
  - intros [[first t]|] h' ([s' Hq] & Ht & Hw' & Hpre); [|done].
    assert (entered h' = true) as Hin'.
    { destruct Hpre as [k ->]. unfold h1, entered in *. by rewrite !existsb_app, Hin. }
    destruct first as [[packet| | | |]|e|]; try (intros _; by left); try done.
    + destruct (Hq packet eq_refl) as [Hsuf Hsat]. eapply serve_user_ok; try done. by eapply Ht.
    + eapply cwp_mono; [apply cwp_refuse; exact Hw'|]. intros r h'' Hh _. left. exact Hh.
Qed.

Lemma refuse_outside state message h :
  waiting h -> entered h = false ->
  cwp J (error_response_and_ready state message) (fun _ h => waiting h /\ entered h = false) h.
Proof.
  intros Hw He. apply cwp_attempt. intros ok. split; [done|]. apply (waiting_write (build_error_response state message) ok) in Hw;
    [|apply (error_no_welcome state message)].
  assert (forall e, (match e with At TryEnterClient _ => False | _ => True end) -> forall h, entered h = false -> entered (h ++ [e]) = false)
    as Hn by (intros [c x] Hc h0 Hh; unfold entered in *; rewrite existsb_app, Hh; by destruct c).
  destruct ok; [|split; [exact Hw|by apply Hn]]. intros ok. split; [done|].
  apply (waiting_write (ready_for_query RS_Idle) ok) in Hw; [|apply ready_no_welcome].
  destruct ok; (split; [exact Hw|by apply Hn, Hn]).
Qed.
Lemma reject_during_drain_ok h :
  waiting h -> entered h = false -> cwp J reject_during_drain (fun _ h => waiting h /\ entered h = false) h.
Proof.
  intros Hw He. apply cwp_attempt. eapply cwp_mono; [by apply refuse_outside|].
  intros [[[]|e|]|] h' Hh; try exact Hh. destruct Hh as [Hw' He']. intros ok. split; [done|].
  assert (waiting (h' ++ [At ShutdownClient ok]) /\ entered (h' ++ [At ShutdownClient ok]) = false) as Hr.
  { split; [by apply waiting_snoc|]. unfold entered in *. by rewrite existsb_app, He'. }
  destruct ok; exact Hr.
Qed.
Definition released (h : list console_event) : Prop := entered h = true -> last h = Some (At ReleaseGuards tt).
Lemma handle_connection_ok s :
  client_read s = [] ->
  cwp J (handle_connection describe admin adm cfg has_config s)
    (fun r h => (r = Some (Ok tt) -> answered h) /\ (forall a, r = Some a -> released h)) [].
Proof.
  intros Hb. apply cwp_ask. intros applied. split; [done|]. destruct applied; cbn [negb].
  2:{ by split. }
  apply cwp_ask. intros entered0. split; [done|]. destruct entered0; cbn [negb].
  - apply cwp_ask. intros x. split; [done|]. apply cwp_bind. eapply cwp_mono; [by apply handle_session_ok|].
    intros [r|] h Hr; [|by split]. apply cwp_ask. intros y. split; [done|]. destruct y. split.
    + intros [= ->]. destruct (Hr eq_refl) as [Hw|Hs]; [left|right]; [by apply waiting_snoc|by apply served_quiet].
    + intros a _ _. by rewrite last_snoc.
  - eapply cwp_mono; [by apply reject_during_drain_ok|]. intros r h [Hw He]. split; [by left|].
    intros a _ Hin. unfold released. by rewrite He in Hin.
Qed.
End Admission.

(** C33. Whatever clients send, whenever sockets fail and whatever other
    tasks do meanwhile, a command of the admin console takes effect only for
    a connection that the drain controller let in, whose startup packet (of
    the bytes received since the TLS handshake, if there was one) names the
    allowed user where one is configured, over TLS where the console or the
    client mode requires it; and the commands that take effect are, in
    their order, those of the frames the client sent after it was let in. A
    session that ends without an error has done all of them up to a
    Terminate, a frame that is not complete or the limit of the buffer, and
    every session that was let in gives its guards back at its end. *)
Theorem admin_session_guarded `{HC : Crypto, HM : MapOrder, HH : Hashing} to_value of_value default_config base
    registry_is_empty w describe admin adm cfg has_config s sh :
  client_read s = [] ->
  let '(r, _, h) := run_console to_value of_value default_config base registry_is_empty w
                      (handle_connection describe admin adm cfg has_config s) sh [] in
  (forall h1 e h2 c, h = h1 ++ e :: h2 -> event_command e = Some c ->
     admitted admin adm h1
     /\ exists got fs b, requests h1 = Some got /\ framed got fs b /\ effects h1 ++ [c] = omap command_of fs)
  /\ (forall got, r = Some (Ok tt) -> requests h = Some got ->
     exists fs b, framed got fs b /\ effects h = omap command_of fs /\ finished cfg fs b)
  /\ (forall a, r = Some a -> entered h = true -> last h = Some (At ReleaseGuards tt)).
Proof.
  intros Hb. pose proof (handle_connection_ok describe admin adm cfg has_config s Hb) as Hc.
  apply (run_sound to_value of_value default_config base registry_is_empty w _ _ _ sh) in Hc.
  destruct (run_console _ _ _ _ _ _ _ _ _) as [[r ?] h]. destruct Hc as ([Hans Hrel] & t & -> & Hj). cbn [app] in *.
  split_and!; [|intros got Hr Hreq|exact Hrel].
  - intros h1 e h2 c -> He. exact (Hj h1 e h2 eq_refl c He).
  - destruct (Hans Hr) as [[Hw _]|(got' & fs & b & Hg & Hf)]; [congruence|]. simplify_eq. by exists fs, b.
Qed.

(** ** Runs *)

Module AdminDemo.
Import Demo.
#[local] Existing Instance toy.
#[local] Instance demo_order : MapOrder := {| order := fun A l => l |}.
#[local] Existing Instance by_length.

Definition console : ConsoleState :=
  {| console_store := inner_default; console_pools := []; console_breakers := []; console_guardrails := None; console_stats := [] |}.
Definition shared : Shared :=
  {| sh_running := {| active := demo 1; cached := None |}; sh_pause := Pause.pause_new; sh_console := console |}.
Definition world (chunks : list bytes) : World := {|
  world_client := fun h => scripted {| sc_packets := chunks; sc_started := true; sc_reads := []; sc_idle := [];
                                       sc_late := never; sc_deny := allow |} (client_part h);
  world_gate := fun _ => true;
  world_files := fun _ => demo_environment 7;
  world_clock := fun _ => {| clock_now := 0; clock_process := (CollectionComplete, sample_new 0 []) |};
  world_others := fun _ sh => sh |}.
(** Only [allowed] may give commands; the client sends these chunks. *)
Definition restricted (allowed : string) : AdminConfig :=
  {| admin_addr := None; admin_require_tls := false; admin_allowed_user := Some (lit allowed); admin_query_timeout_ms := 5000;
     admin_max_clients := 4 |}.
Definition visit (allowed : string) (chunks : list bytes) :=
  run_console demo_to_value demo_of_value (demo 0) (demo 0) false (world chunks)
    (handle_connection (fun _ => []) (restricted allowed) (demo_admission TlsAllow PassThrough) (demo_config ModeOff RecoverMode)
       true demo_session) shared [].
Definition told (h : list console_event) : list bytes :=
  omap (fun e => match e with Ev (WriteClient bs) true => Some bs | _ => None end) (client_part h).
End AdminDemo.
Import AdminDemo.

(** The user the console allows pauses the proxy, looks at a view and
    reloads. *)
Definition three_commands : list bytes := [app_packet; query "PAUSE" ++ query "show pools;"; query "Reload"].
Lemma admin_session_guarded_witness :
  let '(r, sh, h) := AdminDemo.visit "app" three_commands in
  r = Some (Ok tt) /\ effects h = [CmdPause; Show ViewPools; CmdReload]
  /\ Pause.paused (sh_pause sh) = true /\ query_timeout_ms (qos (active (sh_running sh))) = 7
  /\ (exists fs b, framed (query "PAUSE" ++ query "show pools;" ++ query "Reload") fs b /\ effects h = omap command_of fs).
Proof.
  pose proof (admin_session_guarded (HC := toy) (HM := AdminDemo.demo_order) (HH := by_length) Demo.demo_to_value
                Demo.demo_of_value (Demo.demo 0) (Demo.demo 0) false (AdminDemo.world three_commands) (fun _ => [])
                (restricted "app") (demo_admission TlsAllow PassThrough) (demo_config ModeOff RecoverMode) true demo_session
                shared eq_refl) as H.
  unfold AdminDemo.visit. destruct (run_console _ _ _ _ _ _ _ _ _) as [[r sh] h] eqn:E.
  destruct H as (_ & Hall & _). vm_compute in E. injection E as <- <- <-. split_and!; [by vm_compute..|].
  edestruct Hall as (fs & b & Hf & He & _); [done|by vm_compute|]. by exists fs, b.
Defined.

(** Whoever is refused is told which name to give; no password is asked. *)
Example refusal_names_the_administrator :
  let '(_, _, h) := AdminDemo.visit "root" [app_packet; query "PAUSE"] in
  effects h = []
  /\ told h = [build_error_response (lit "28000") (lit "admin access restricted to user root"); ready_for_query RS_Idle].
Proof. vm_compute. by split. Qed.

(** A command sent together with the startup packet is lost: the session
    welcomes the client and waits. *)
Example pipelined_command_is_lost :
  let '(r, sh, h) := AdminDemo.visit "app" [app_packet ++ query "PAUSE"] in
  r = Some (Ok tt) /\ effects h = [] /\ told h = [startup_ok_response] /\ Pause.paused (sh_pause sh) = false.
Proof. vm_compute. by split_and!. Qed.

(** The reload loop does not tell the store: after it has applied a file,
    the limits the console shows are the old ones, and a RELOAD finds nothing
    to change and leaves them. *)
Example console_shows_old_limits :
  let e := Demo.demo_environment 7 in
  let started := {| active := Demo.demo 1; cached := None |} in
  let store := put_limits inner_default (limits_from_config (active started)) in
  let looped := reload_loop (HC := toy) Demo.demo_to_value Demo.demo_of_value (Demo.demo 0) (Demo.demo 0) false [e] started in
  let '(decision, _, r, store') :=
    reload_now (HC := toy) Demo.demo_to_value Demo.demo_of_value (Demo.demo 0) e (Demo.demo 0) false looped store in
  query_timeout_ms (qos (active r)) = 7 /\ fst <$> decision = Ok Reload.ReloadUnchanged
  /\ ls_query_timeout (i_limits store') = from_millis 1.
Proof. vm_compute. by split_and!. Qed.
