(* ===== verification/Telemetry.v ===== *)
(** * Telemetry: phase timers, debug samples and the statement audit

    Models [observe/telemetry.rs] (the recorders of phase durations, the
    sampler and the samples) and [audit.rs] (the records, their sampling, and
    the bounded queue with its worker). Spans and exporters are library code;
    the hash of a text is the parameter [hash] of QueryStats.v. Records are
    written as JSON lines by a library: here, as records. *)

From S2P Require Import Prelude Text Order RoutingTypes Route Address SqlClassify Session Recovery F64 Mirror Config Assembly.
From S2P Require Import Observability Labels QueryStats SnapshotTypes Metrics AdminTables.

(** ** Samplers *)

Definition U64_MAX : Z := 2 ^ 64 - 1.
(** [as u64] of a double: towards zero, within the range. *)
Definition f64_to_u64 (x : f64) : Z := Z.min U64_MAX (f64_to_Z x).

Record DebugSampler := { sampling_ratio : f64; sampling_threshold : Z }.
Definition debug_sampler_new (ratio : f64) : DebugSampler :=
  let ratio := if is_finite ratio then f64_clamp ratio f64_zero f64_one else f64_zero in
  {| sampling_ratio := ratio; sampling_threshold := f64_to_u64 (f64_mul ratio (f64_of_Z U64_MAX)) |}.
Definition debug_should_sample (s : DebugSampler) (session : Z) : bool :=
  if f64_le (sampling_ratio s) f64_zero then false
  else if f64_ge (sampling_ratio s) f64_one then true
  else splitmix64 session <? sampling_threshold s.

(** ** Phase timers *)

(** The recorders: a session without timing, all of a session, or the
    sessions of a sample. *)
Inductive PhaseTimingRecorder := Disabled | Buffered | SampledRecorder (sampled : bool).
Definition sampled_phase_timing_recorder (enabled : bool) (rate : f64) (session : Z) : PhaseTimingRecorder :=
  if negb enabled || f64_le rate f64_zero then Disabled
  else if f64_ge rate f64_one then Buffered
  else SampledRecorder (debug_should_sample (debug_sampler_new rate) session).
Definition recorder_is_enabled (r : PhaseTimingRecorder) : bool :=
  match r with Disabled => false | Buffered => true | SampledRecorder b => b end.

(** [BufferedPhaseTimingRecorder]: the queue of the worker thread. *)
Definition PHASE_TIMING_BUFFER_CAPACITY : nat := Z.to_nat 65536.
Record ProtocolPhaseTiming := { timing_phase : ProtocolPhase; timing_outcome : MetricOutcome; timing_duration : Z }.
Definition record_duration (r : PhaseTimingRecorder) (t : ProtocolPhaseTiming) (queue : list ProtocolPhaseTiming)
    : list ProtocolPhaseTiming :=
  if recorder_is_enabled r && (length queue <? PHASE_TIMING_BUFFER_CAPACITY)%nat then queue ++ [t] else queue.

Record PhaseTimer := { timer_phase : ProtocolPhase; timer_started : option Z; timer_recorder : PhaseTimingRecorder }.
Definition timer_start (p : ProtocolPhase) (r : PhaseTimingRecorder) (now : Z) : PhaseTimer :=
  {| timer_phase := p; timer_started := if recorder_is_enabled r then Some now else None; timer_recorder := r |}.
Definition timer_elapsed (t : PhaseTimer) (now : Z) : Z := from_option (fun started => now - started) 0 (timer_started t).
Definition timer_finish (t : PhaseTimer) (o : MetricOutcome) (now : Z) (queue : list ProtocolPhaseTiming)
    : Z * list ProtocolPhaseTiming :=
  match timer_started t with
  | Some started =>
      let d := now - started in
      (d, record_duration (timer_recorder t) {| timing_phase := timer_phase t; timing_outcome := o; timing_duration := d |} queue)
  | None => (0, queue)
  end.

(** ** Debug samples *)

Inductive DebugEvent :=
| ClientAccepted | StartupComplete | DebugBackendCheckout | QueryComplete | Pinning | DebugRecovery | OverloadRejected | ClientClose.
Definition debug_event_as_str (e : DebugEvent) : string :=
  match e with
  | ClientAccepted => "client_accepted" | StartupComplete => "startup_complete" | DebugBackendCheckout => "backend_checkout"
  | QueryComplete => "query_complete" | Pinning => "pinning" | DebugRecovery => "recovery"
  | OverloadRejected => "overload_rejected" | ClientClose => "client_close"
  end.
#[global] Instance DebugEvent_labelled : Labelled DebugEvent := debug_event_as_str.
#[global] Instance DebugEvent_distinct : DistinctLabels DebugEvent.
Proof. distinct_labels. Qed.

(** The details are a [BTreeMap]: by key. *)
Record DebugSample := {
  debug_event : DebugEvent;
  debug_session_id : Z;
  debug_route_key : option RouteKey;
  debug_phase : option ProtocolPhase;
  debug_outcome : option MetricOutcome;
  debug_pin_reason : option Virtual.PinReason;
  debug_recovery_action : option RecoveryAction;
  debug_details : list (string * str);
}.
Definition redact_debug_value (value : str) : str := match value with [] => [] | _ => lit "<redacted>" end.

Definition client_accepted (session : Z) (addr : SocketAddr) (tls_mode : string) (certificates : bool) : DebugSample :=
  {| debug_event := ClientAccepted; debug_session_id := session; debug_route_key := None; debug_phase := Some PhaseStartup;
     debug_outcome := Some MetricOk; debug_pin_reason := None; debug_recovery_action := None;
     debug_details := [("client_addr", fmt_addr addr); ("client_tls_mode", lit tls_mode);
                       ("has_peer_certificates", fmt_bool certificates)]%string |}.
Definition startup_complete (session : Z) (route : RouteKey) (auth_mode tls_mode : string) (o : MetricOutcome) : DebugSample :=
  {| debug_event := StartupComplete; debug_session_id := session; debug_route_key := Some route;
     debug_phase := Some PhaseStartup; debug_outcome := Some o; debug_pin_reason := None; debug_recovery_action := None;
     debug_details := [("auth_mode", lit auth_mode); ("client_tls_mode", lit tls_mode)]%string |}.
Definition backend_checkout (session : Z) (route : RouteKey) (mode : string) (o : MetricOutcome) (wait : Z) : DebugSample :=
  {| debug_event := DebugBackendCheckout; debug_session_id := session; debug_route_key := Some route;
     debug_phase := Some PhaseBackendCheckout; debug_outcome := Some o; debug_pin_reason := None; debug_recovery_action := None;
     debug_details := [("checkout_mode", lit mode); ("wait_ms", duration_millis wait)]%string |}.
Definition query_complete (session : Z) (route : RouteKey) (o : MetricOutcome) (rows : Z) (ready : string) (sql : option str)
    (binds : list str) : DebugSample :=
  {| debug_event := QueryComplete; debug_session_id := session; debug_route_key := Some route; debug_phase := Some PhaseRows;
     debug_outcome := Some o; debug_pin_reason := None; debug_recovery_action := None;
     debug_details :=
       (match binds with
        | [] => []
        | _ => [("bind_value_count", fmt_u64 (len binds)); ("bind_values", redact_debug_value (lit "bind_values"))]%string
        end)
       ++ [("ready_status", lit ready); ("rows", fmt_u64 rows)]%string
       ++ from_option (fun sql => [("sql"%string, redact_debug_value sql)]) [] sql |}.
Definition pinning (session : Z) (route : RouteKey) (r : Virtual.PinReason) (backend d : Z) : DebugSample :=
  {| debug_event := Pinning; debug_session_id := session; debug_route_key := Some route; debug_phase := Some PhaseClose;
     debug_outcome := Some MetricOk; debug_pin_reason := Some r; debug_recovery_action := None;
     debug_details := [("backend_id", fmt_u64 backend); ("duration_ms", duration_millis d)]%string |}.
Definition recovery_sample (session : Z) (route : RouteKey) (t : RecoveryTrigger) (a : RecoveryAction) (o : MetricOutcome)
    : DebugSample :=
  {| debug_event := DebugRecovery; debug_session_id := session; debug_route_key := Some route; debug_phase := Some PhaseCancel;
     debug_outcome := Some o; debug_pin_reason := None; debug_recovery_action := Some a;
     debug_details := [("action", text a); ("trigger", text t)]%string |}.
Definition overload_rejected (session : Z) (route : RouteKey) (reason : string) : DebugSample :=
  {| debug_event := OverloadRejected; debug_session_id := session; debug_route_key := Some route;
     debug_phase := Some PhaseBackendCheckout; debug_outcome := Some MetricRejected; debug_pin_reason := None;
     debug_recovery_action := None; debug_details := [("reason", lit reason)]%string |}.
Definition client_close (session : Z) (addr : SocketAddr) (d : Z) : DebugSample :=
  {| debug_event := ClientClose; debug_session_id := session; debug_route_key := None; debug_phase := Some PhaseClose;
     debug_outcome := Some MetricCanceled; debug_pin_reason := None; debug_recovery_action := None;
     debug_details := [("client_addr", fmt_addr addr); ("duration_ms", duration_millis d)]%string |}.

(** [emit_debug_sample_with]: what is logged, where debugging is. *)
Definition emit_debug_sample_with (s : DebugSampler) (debugging : bool) (session : Z) (sample : DebugSample) : option DebugSample :=
  if debug_should_sample s session && debugging then Some sample else None.

(** ** The statement audit *)

Definition CHANNEL_CAPACITY : nat := 256.
Record AuditRecord := {
  audit_route : str;
  audit_identity : str;
  audit_fingerprint : str;
  audit_template : str;
  audit_query_class : str;
  audit_outcome : str;
  audit_latency_ms : Z;
  audit_rows : Z;
}.

Section Records.
Context `{Hashing}.
Definition opaque_id (value : str) : str := lit "h" ++ (hex_lower <$> reverse ((fun i => Z.shiftr (hash value) (4 * Z.of_nat i) mod 16) <$> seq 0 16)).
Definition audit_sample (value : str) (rate : f64) : bool :=
  if f64_ge rate f64_one then true
  else if f64_le rate f64_zero || negb (is_finite rate) then false
  else f64_lt (f64_div (f64_of_Z (hash value)) (f64_of_Z U64_MAX)) rate.
(** What [record_query] offers to the dispatcher. *)
Definition audit_record (c : AuditConfig) (route : RouteKey) (a : SqlAnalysis) (fingerprint outcome : str) (latency rows : Z)
    : option AuditRecord :=
  if negb (audit_include_reads c) && routes_to_replica (an_query_class a) then None
  else if negb (audit_sample fingerprint (audit_rate c)) then None
  else Some {|
    audit_route := opaque_id (rk_metric_label route);
    audit_identity := opaque_id (rk_database route ++ lit "/" ++ rk_user route ++ lit "/"
                                 ++ default (lit "<none>") (rk_application_name route));
    audit_fingerprint := fingerprint; audit_template := fingerprint; audit_query_class := text (an_query_class a);
    audit_outcome := outcome; audit_latency_ms := Z.min (latency / 1000000) U64_MAX; audit_rows := rows |}.
End Records.

(** The queue, the worker and what reached the sink. *)
Inductive Worker := WorkerStarting | WorkerIdle | WorkerHolds (r : AuditRecord) | WorkerGone.
Record AuditDispatcher := { au_queue : list AuditRecord; au_dropped : Z; au_worker : Worker; au_sink : list AuditRecord }.
Definition audit_new : AuditDispatcher := {| au_queue := []; au_dropped := 0; au_worker := WorkerStarting; au_sink := [] |}.
(** [from_config], where the thread starts. *)
Definition audit_from_config (c : AuditConfig) : option AuditDispatcher := if audit_enabled c then Some audit_new else None.

(** [AuditDispatcher::record]: [try_send]. *)
Definition audit_offer (d : AuditDispatcher) (r : AuditRecord) : list Sample * AuditDispatcher * bool :=
  if bool_decide (length (au_queue d) < CHANNEL_CAPACITY)%nat && match au_worker d with WorkerGone => false | _ => true end
  then ([], {| au_queue := au_queue d ++ [r]; au_dropped := au_dropped d; au_worker := au_worker d; au_sink := au_sink d |}, true)
  else (record_audit_drop, {| au_queue := au_queue d; au_dropped := wrap_u 64 (au_dropped d + 1); au_worker := au_worker d;
                              au_sink := au_sink d |}, false).
Definition record_query `{Hashing} (d : AuditDispatcher) (c : AuditConfig) (route : RouteKey) (a : SqlAnalysis)
    (fingerprint outcome : str) (latency rows : Z) : list Sample * AuditDispatcher :=
  match audit_record c route a fingerprint outcome latency rows with
  | None => ([], d)
  | Some r => let '(samples, d, sent) := audit_offer d r in (samples ++ (if sent then record_audit_record else []), d)
  end.

(** What happens: a session offers a record; the worker opens its sink, takes
    a record, writes it. A worker that fails is gone with what it held and
    what was queued. *)
Inductive AuditEvent := Offered (r : AuditRecord) | Opened (ok : bool) | Taken | Wrote (ok : bool).
Definition worker_gone (d : AuditDispatcher) : AuditDispatcher :=
  {| au_queue := []; au_dropped := au_dropped d; au_worker := WorkerGone; au_sink := au_sink d |}.
Definition with_worker (d : AuditDispatcher) (queue : list AuditRecord) (w : Worker) (sink : list AuditRecord) : AuditDispatcher :=
  {| au_queue := queue; au_dropped := au_dropped d; au_worker := w; au_sink := sink |}.
Definition audit_step (d : AuditDispatcher) (e : AuditEvent) : AuditDispatcher :=
  match e, au_worker d, au_queue d with
  | Offered r, _, _ => snd (fst (audit_offer d r))
  | Opened true, WorkerStarting, q => with_worker d q WorkerIdle (au_sink d)
  | Opened false, WorkerStarting, _ => worker_gone d
  | Taken, WorkerIdle, r :: q => with_worker d q (WorkerHolds r) (au_sink d)
  | Wrote true, WorkerHolds r, q => with_worker d q WorkerIdle (au_sink d ++ [r])
  | Wrote false, WorkerHolds _, _ => worker_gone d
  | _, _, _ => d
  end.
(** With the records the dispatcher accepted and how many it refused. *)
Definition audit_account (s : AuditDispatcher * list AuditRecord * Z) (e : AuditEvent) : AuditDispatcher * list AuditRecord * Z :=
  let '(d, accepted, refused) := s in
  match e with
  | Offered r => let '(_, d', sent) := audit_offer d r in
                 if (sent : bool) then (d', accepted ++ [r], refused) else (d', accepted, refused + 1)
  | _ => (audit_step d e, accepted, refused)
  end.
Definition audit_run (evs : list AuditEvent) : AuditDispatcher * list AuditRecord * Z := foldl audit_account (audit_new, [], 0) evs.

(** ** Theorems *)

(** What a debug sample of a query says of its text: whether there was one,
    and how many values were bound. *)
Lemma query_samples_confidential session route o rows ready sql1 sql2 (binds1 binds2 : list str) :
  option_map (fun s => bool_decide (s = [])) sql1 = option_map (fun s => bool_decide (s = [])) sql2 ->
  length binds1 = length binds2 ->
  query_complete session route o rows ready sql1 binds1 = query_complete session route o rows ready sql2 binds2.
Proof.
  intros Hs Hb. unfold query_complete. f_equal. f_equal.
  - destruct binds1 as [|b1 binds1], binds2 as [|b2 binds2]; try done. unfold len. by rewrite Hb.
  - f_equal. destruct sql1 as [s1|], sql2 as [s2|]; try done. cbn in *. injection Hs as Hs. by destruct s1, s2.
Qed.

(** A timer that records says how long its phase took; one that does not
    leaves no trace. *)
Lemma timer_exact p r o t0 t1 queue :
  (length queue < PHASE_TIMING_BUFFER_CAPACITY)%nat ->
  timer_finish (timer_start p r t0) o t1 queue =
  if recorder_is_enabled r
  then (t1 - t0, queue ++ [{| timing_phase := p; timing_outcome := o; timing_duration := t1 - t0 |}])
  else (0, queue).
Proof.
  intros Hq. unfold timer_finish, timer_start, record_duration. cbn [timer_started timer_recorder timer_phase].
  destruct (recorder_is_enabled r); [|done]. apply Nat.ltb_lt in Hq. cbn [andb]. by rewrite Hq.
Qed.

Lemma sampler_none rate session : f64_le rate f64_zero = true -> debug_should_sample (debug_sampler_new rate) session = false.
Proof.
  intros Hz. destruct (f64_le_finite _ _ Hz) as [Hn _]. unfold debug_should_sample, debug_sampler_new. cbn [sampling_ratio].
  destruct (is_finite rate); [|done]. unfold f64_clamp. destruct (f64_lt rate f64_zero); [done|].
  rewrite (f64_lt_le f64_one rate) by done. rewrite (f64_le_trans rate f64_zero f64_one Hz) by done. cbn [negb]. by rewrite Hz.
Qed.
Lemma sampler_all rate session :
  is_finite rate = true -> f64_ge rate f64_one = true -> debug_should_sample (debug_sampler_new rate) session = true.
Proof.
  unfold f64_ge. intros Hf Ho. destruct (f64_le_finite _ _ Ho) as [_ Hn]. unfold debug_should_sample, debug_sampler_new, f64_ge.
  rewrite Hf. cbn [sampling_ratio]. unfold f64_clamp.
  rewrite (f64_lt_le rate f64_zero), (f64_le_trans f64_zero f64_one rate) by done. cbn [negb].
  destruct (f64_lt f64_one rate); [done|]. rewrite Ho. destruct (f64_le rate f64_zero) eqn:Hz; [|done].
  pose proof (f64_le_trans _ _ _ Ho Hz). done.
Qed.
(** A session is timed or not for good: none at a rate of 0, all at a rate of
    1, those of the sample in between. *)
Lemma sampled_recorder_exact enabled rate session :
  is_finite rate = true ->
  recorder_is_enabled (sampled_phase_timing_recorder enabled rate session)
  = enabled && debug_should_sample (debug_sampler_new rate) session.
Proof.
  intros Hf. unfold sampled_phase_timing_recorder. destruct enabled; cbn [negb orb andb recorder_is_enabled]; [|done].
  destruct (f64_le rate f64_zero) eqn:Hz; [by rewrite sampler_none|].
  destruct (f64_ge rate f64_one) eqn:Ho; [by rewrite sampler_all|done].
Qed.

(** The statement audit loses nothing silently while its worker lives:
    the records accepted are, in order, those written, the one being written
    and those queued; of a worker that failed, those written are the first
    ones accepted. The queue never holds more than 256 records, every record
    is accepted or counted as dropped, and offering one never waits. *)
Theorem audit_accounting evs :
  let '(d, accepted, refused) := audit_run evs in
  (length (au_queue d) <= CHANNEL_CAPACITY)%nat
  /\ au_dropped d = wrap_u 64 refused
  /\ len accepted + refused = len (List.filter (fun e => match e with Offered _ => true | _ => false end) evs)
  /\ match au_worker d with
     | WorkerStarting => au_sink d = [] /\ accepted = au_queue d
     | WorkerIdle => accepted = au_sink d ++ au_queue d
     | WorkerHolds r => accepted = au_sink d ++ r :: au_queue d
     | WorkerGone => au_queue d = [] /\ au_sink d `prefix_of` accepted
     end.
Proof.
  unfold audit_run. induction evs as [|e evs IH] using rev_ind.
  { cbn. split_and!; [apply Nat.le_0_l|done..]. }
  rewrite foldl_app. cbn [foldl]. destruct (foldl _ _ _) as [[d accepted] refused]. destruct IH as (Hq & Hd & Hn & Hw).
  rewrite List.filter_app, len_app, <- Hn. destruct e as [r|ok| |ok]; cbn [audit_account].
  - unfold audit_offer. destruct (bool_decide _ && _) eqn:Hok; cbn [au_queue au_dropped au_worker au_sink List.filter].
    + apply andb_true_iff in Hok as [Hlt Hlive]. apply bool_decide_eq_true in Hlt.
      rewrite length_app, !len_app. cbn [length]. unfold len. split_and!; [lia|done|cbn; lia|].
      destruct (au_worker d); [destruct Hw as [? ->]; done|by rewrite Hw, app_assoc| |done]. by rewrite Hw, <- app_assoc.
    + rewrite Hd. unfold len. split_and!; [done| |cbn; lia|done]. unfold wrap_u. by rewrite Zplus_mod_idemp_l.
  - cbn [List.filter]. rewrite len_nil, Z.add_0_r. unfold audit_step. destruct (au_worker d) eqn:Hworker, ok; cbn; rewrite ?Hworker; try done.
    + by destruct Hw as [-> ->].
    + destruct Hw as [-> ->]. split_and!; [apply Nat.le_0_l|done|done|done|apply prefix_nil].
  - cbn [List.filter]. rewrite len_nil, Z.add_0_r. unfold audit_step. destruct (au_worker d) eqn:Hworker; cbn; rewrite ?Hworker; try done.
    destruct (au_queue d) as [|r q] eqn:Hqueue; cbn; rewrite ?Hworker, ?Hqueue; split_and!; try done. cbn in Hq. lia.
  - cbn [List.filter]. rewrite len_nil, Z.add_0_r. unfold audit_step. destruct (au_worker d) eqn:Hworker, ok; cbn; rewrite ?Hworker; try done.
    + split_and!; [done..|]. by rewrite Hw, <- app_assoc.
    + split_and!; [apply Nat.le_0_l|done|done|done|]. rewrite Hw. by eexists.
Qed.

(** An id is the letter h and sixteen hexadecimal digits: it shows a hash of
    the names, not the names. *)
Lemma opaque_id_form `{Hashing} value :
  length (opaque_id value) = 17%nat /\ Forall (fun c => 48 <= c <= 57 \/ 97 <= c <= 104) (opaque_id value).
Proof.
  unfold opaque_id. split; [by rewrite length_app, length_fmap, length_reverse, length_fmap|].
  apply Forall_app. split; [apply Forall_singleton; right; by split|].
  apply Forall_fmap, Forall_reverse, Forall_fmap, Forall_forall. intros i _. cbn. unfold hex_lower.
  pose proof (Z.mod_pos_bound (Z.shiftr (hash value) (4 * Z.of_nat i)) 16). case_match; lia.
Qed.

(** Records that were accepted and not written when the sink fails are gone;
    no counter says so. *)
Definition any_record (rows : Z) : AuditRecord :=
  {| audit_route := []; audit_identity := []; audit_fingerprint := []; audit_template := []; audit_query_class := [];
     audit_outcome := []; audit_latency_ms := 0; audit_rows := rows |}.
Example queued_records_are_lost :
  let '(d, accepted, refused) :=
    audit_run [Opened true; Offered (any_record 1); Offered (any_record 2); Taken; Wrote false; Offered (any_record 3)] in
  accepted = [any_record 1; any_record 2] /\ au_sink d = [] /\ au_dropped d = 1.
Proof. vm_compute. by split_and!. Qed.
