(* ===== verification/Preflight.v ===== *)
(** * Preflight: checking a configuration before it runs

    Models [ops/preflight.rs], the selection of an engine in
    [engine/runtime_engine.rs] and the checks of [MirrorConfig] in
    [config.rs]. Files, TOML and the TLS library are parameters: the
    [Environment] of Reload.v and the documents of the file. *)

From S2P Require Import Prelude Text Secrets Auth Route Mirror ShardRouting PolicyRuntime Admission Config Reload Metrics AdminTables.

(** ** Engines *)

(** [cfg!(target_os = "linux")] and [cfg!(feature = "io-uring")]. *)
Record Build := { target_linux : bool; target_os : str; io_uring_feature : bool }.
Definition platform_supported (b : Build) (e : RuntimeEngine) : bool := match e with IoUring => target_linux b | _ => true end.
Definition feature_supported (b : Build) (e : RuntimeEngine) : bool := match e with IoUring => io_uring_feature b | _ => true end.
Inductive RuntimeEngineSelectionError := UnsupportedPlatform | MissingFeature | ExperimentalDisabled.
Definition capabilities_validate (b : Build) (e : RuntimeEngine) (experiment : bool) : result RuntimeEngineSelectionError unit :=
  if negb (platform_supported b e) then Err UnsupportedPlatform
  else if negb (feature_supported b e) then Err MissingFeature
  else if is_experimental e && negb experiment then Err ExperimentalDisabled
  else Ok tt.
Definition engine_available (b : Build) (e : RuntimeEngine) (experiment : bool) : bool :=
  platform_supported b e && feature_supported b e && (negb (is_experimental e) || experiment).
Definition selection_error_text (b : Build) (e : RuntimeEngine) (x : RuntimeEngineSelectionError) : str :=
  lit "runtime engine '" ++ engine_as_str e ++
  match x with
  | UnsupportedPlatform => lit "' is unsupported on " ++ target_os b
  | MissingFeature => lit "' requires a cargo feature that is not enabled"
  | ExperimentalDisabled => lit "' requires experimental_runtime_enabled = true"
  end.

(** ** Mirrors *)

(** The fields of [MirrorConfig] its check reads. *)
Record MirrorConfig := {
  mirroring_enabled : bool;
  mirror_mode : MirrorMode;
  mirror_target_address : option SocketAddr;
  mirror_target_isolated : bool;
  mirror_require_isolated_target : bool;
}.
Definition mirror_is_enabled (c : MirrorConfig) : bool := mirroring_enabled c && mode_is_enabled (mirror_mode c).
Definition target_validate_against (c : MirrorConfig) (production : SocketAddr) : result str unit :=
  match mirror_target_address c with
  | Some address =>
      if mirror_require_isolated_target c && negb (mirror_target_isolated c) && bool_decide (address = production)
      then config_error "mirror target must be marked isolated when it matches the production target" else Ok tt
  | None => Ok tt
  end.
Definition mirror_validate (c : MirrorConfig) (production : SocketAddr) : result str unit :=
  if mirror_is_enabled c && negb (bool_decide (is_Some (mirror_target_address c)))
  then config_error "mirror target must be explicitly configured"
  else target_validate_against c production.

(** ** Reports *)

Inductive PreflightCheck :=
| CheckConfigLoad | CheckRuntimeEngine | CheckTlsFiles | CheckAuthUsers | CheckRouteMaps | CheckPolicies | CheckMirrorIsolation
| CheckLifecycleGuardrails | CheckAdaptiveGuardrails.
Definition preflight_check_as_str (c : PreflightCheck) : string :=
  match c with
  | CheckConfigLoad => "config_load" | CheckRuntimeEngine => "runtime_engine" | CheckTlsFiles => "tls_files"
  | CheckAuthUsers => "auth_users" | CheckRouteMaps => "route_maps" | CheckPolicies => "policies"
  | CheckMirrorIsolation => "mirror_isolation" | CheckLifecycleGuardrails => "lifecycle_guardrails"
  | CheckAdaptiveGuardrails => "adaptive_guardrails"
  end.
Inductive PreflightSeverity := SeverityWarning | SeverityError.
#[global] Instance PreflightSeverity_eq_dec : EqDecision PreflightSeverity.
Proof. solve_decision. Defined.
Definition preflight_severity_as_str (s : PreflightSeverity) : string :=
  match s with SeverityWarning => "warning" | SeverityError => "error" end.
Record PreflightFinding := { finding_check : PreflightCheck; finding_severity : PreflightSeverity; finding_message : str }.
Record PreflightReport := { report_config_path : str; report_findings : list PreflightFinding }.

Definition warning (c : PreflightCheck) (m : string) : list PreflightFinding :=
  [{| finding_check := c; finding_severity := SeverityWarning; finding_message := lit m |}].
Definition problem (c : PreflightCheck) (m : str) : list PreflightFinding :=
  [{| finding_check := c; finding_severity := SeverityError; finding_message := m |}].
Definition problem_if (b : bool) (c : PreflightCheck) (m : string) : list PreflightFinding := if b then problem c (lit m) else [].
Definition of_severity (s : PreflightSeverity) (r : PreflightReport) : list PreflightFinding :=
  List.filter (fun f => bool_decide (finding_severity f = s)) (report_findings r).
Definition report_warnings : PreflightReport -> list PreflightFinding := of_severity SeverityWarning.
Definition report_errors : PreflightReport -> list PreflightFinding := of_severity SeverityError.
Definition has_errors (r : PreflightReport) : bool :=
  existsb (fun f => bool_decide (finding_severity f = SeverityError)) (report_findings r).

(** ** Checks *)

(** What the runner reads: the file, its documents, the paths it names, the
    policy modules, and whether the TLS library can load the backend's side. [describe] is the
    text of an error. *)
Record Documents := {
  doc_contents : result str str;
  doc_config : str -> result str Config;
  doc_sharding : str -> result str (option ShardingConfig);
  doc_policy : str -> result str (option PolicyConfig);
  doc_mirror : str -> result str (option MirrorConfig);
  doc_unreadable : str -> option str;
  doc_wasm : str -> option str;
  doc_backend_client : TlsConfig -> result error unit;
  doc_backend_settings : TlsConfig -> result error unit;
}.

Section Runner.
Context `{HC : Crypto} (b : Build) (d : Documents) (e : Environment) (describe : error -> str).

Definition failed {A} (c : PreflightCheck) (r : result error A) : list PreflightFinding :=
  match r with Ok _ => [] | Err x => problem c (describe x) | Panic => [] end.
Definition refused {A} (c : PreflightCheck) (r : result str A) : list PreflightFinding :=
  match r with Ok _ => [] | Err x => problem c x | Panic => [] end.
Definition unreadable (what : string) (c : PreflightCheck) (path : str) : list PreflightFinding :=
  match doc_unreadable d path with
  | None => []
  | Some x => problem c (lit "read " ++ lit what ++ lit " " ++ path ++ lit ": " ++ x)
  end.
Definition unreadable_option (what : string) (c : PreflightCheck) (path : option str) : list PreflightFinding :=
  from_option (unreadable what c) [] path.

Definition validate_runtime_engine (c : Config) : list PreflightFinding :=
  let eng := engine (runtime c) in
  match capabilities_validate b (runtime_engine eng) (experimental_runtime_enabled eng) with
  | Ok _ => [] | Err x => problem CheckRuntimeEngine (selection_error_text b (runtime_engine eng) x) | Panic => []
  end.
Definition validate_tls (t : TlsConfig) : list PreflightFinding :=
  unreadable_option "client TLS certificate" CheckTlsFiles (client_cert_path t)
  ++ unreadable_option "client TLS private key" CheckTlsFiles (client_key_path t)
  ++ unreadable_option "client TLS CA" CheckTlsFiles (client_ca_path t)
  ++ (if bool_decide (is_Some (client_cert_path t)) || bool_decide (is_Some (client_key_path t))
         || bool_decide (is_Some (client_ca_path t)) || negb (bool_decide (client_tls_mode t = TlsDisable))
      then failed CheckTlsFiles (tls_assets e t) else [])
  ++ unreadable_option "backend TLS CA" CheckTlsFiles (backend_ca_path t)
  ++ (if bool_decide (is_Some (backend_ca_path t)) && bool_decide (backend_tls_mode t = BackendTlsDisable)
      then failed CheckTlsFiles (doc_backend_client d t) else [])
  ++ (if negb (bool_decide (backend_tls_mode t = BackendTlsDisable)) then failed CheckTlsFiles (doc_backend_settings d t) else [])
  ++ (if bool_decide (client_tls_mode t = TlsDisable) then warning CheckTlsFiles "client TLS is disabled" else [])
  ++ (if bool_decide (backend_tls_mode t = BackendTlsDisable) then warning CheckTlsFiles "backend TLS is disabled" else []).
Definition validate_auth (c : Config) : list PreflightFinding :=
  from_option (fun path => failed CheckAuthUsers (load_user_store (Some (users_file e path)))) [] (auth_users_file (auth c))
  ++ failed CheckAuthUsers (load_backend_credentials (process_env e) (auth c))
  ++ (if bool_decide (auth_mode (auth c) = PassThrough) then warning CheckAuthUsers "authentication mode is pass_through" else []).
Definition validate_route_maps (contents : str) : list PreflightFinding :=
  match doc_sharding d contents with
  | Ok (Some s) =>
      problem_if (cfg_sharding_enabled s && bool_decide (length (cfg_route_maps s) = 0%nat)) CheckRouteMaps
        "sharding is enabled but no route maps are configured"
  | Ok None => []
  | Err x => problem CheckRouteMaps x
  | Panic => []
  end.
Definition validate_policies (contents : str) : list PreflightFinding :=
  match doc_policy d contents with
  | Ok (Some p) =>
      refused CheckPolicies (validate_internal (doc_wasm d) p) ++ (cfg_policy_files p ≫= unreadable "policy file" CheckPolicies)
  | Ok None => []
  | Err x => problem CheckPolicies x
  | Panic => []
  end.
Definition validate_mirror (contents : str) (production : SocketAddr) : list PreflightFinding :=
  match doc_mirror d contents with
  | Ok (Some m) =>
      refused CheckMirrorIsolation (mirror_validate m production)
      ++ (if negb (mirror_is_enabled m) then warning CheckMirrorIsolation "mirroring is disabled" else [])
  | Ok None => []
  | Err x => problem CheckMirrorIsolation x
  | Panic => []
  end.
Definition validate_lifecycle (c : Config) : list PreflightFinding :=
  let l := lifecycle (runtime c) in
  let termination_grace_ms := Z.min (2 ^ 64 - 1) (termination_grace_period_seconds l * 1000) in
  problem_if (startup_grace_ms l =? 0) CheckLifecycleGuardrails "startup grace must be greater than zero"
  ++ problem_if (shutdown_grace_ms l =? 0) CheckLifecycleGuardrails "shutdown grace must be greater than zero"
  ++ problem_if (termination_grace_period_seconds l =? 0) CheckLifecycleGuardrails
       "termination grace period must be greater than zero"
  ++ problem_if (termination_grace_ms <? shutdown_grace_ms l) CheckLifecycleGuardrails
       "shutdown grace must not exceed the termination grace period"
  ++ problem_if (pre_stop_drain_enabled l && bool_decide (trim (pre_stop_drain_endpoint l) = [])) CheckLifecycleGuardrails
       "pre-stop drain endpoint must not be empty when pre-stop drain is enabled".
Definition validate_adaptive (c : Config) : list PreflightFinding :=
  refused CheckAdaptiveGuardrails (adaptive_validate (adaptive (production (runtime c)))).

Definition preflight_run (path : str) : PreflightReport :=
  {| report_config_path := path;
     report_findings :=
       match doc_contents d with
       | Err x => problem CheckConfigLoad (lit "read " ++ path ++ lit ": " ++ x)
       | Panic => []
       | Ok contents =>
           match doc_config d contents with
           | Err x => problem CheckConfigLoad (lit "parse " ++ path ++ lit ": " ++ x)
           | Panic => []
           | Ok c =>
               validate_runtime_engine c ++ validate_tls (tls c) ++ validate_auth c ++ validate_route_maps contents
               ++ validate_policies contents ++ validate_mirror contents (backend_addr (connection c))
               ++ validate_lifecycle c ++ validate_adaptive c
           end
       end |}.
End Runner.

(** ** JSON *)

Definition is_control (c : Z) : bool := ((0 <=? c) && (c <=? 31)) || ((127 <=? c) && (c <=? 159)).
Definition json_escape (c : Z) : str :=
  if c =? 34 then [92; 34] else if c =? 92 then [92; 92] else if c =? 8 then lit "\b" else if c =? 12 then lit "\f"
  else if c =? 10 then lit "\n" else if c =? 13 then lit "\r" else if c =? 9 then lit "\t"
  else if is_control c then lit "\u" ++ (Address.hex_lower <$> [c / 4096 mod 16; c / 256 mod 16; c / 16 mod 16; c mod 16])
  else [c].
Definition json_string (value : str) : str := [34] ++ (value ≫= json_escape) ++ [34].
Definition render_finding (f : PreflightFinding) : str :=
  lit "{" ++ json_string (lit "check") ++ lit ":" ++ json_string (lit (preflight_check_as_str (finding_check f)))
  ++ lit "," ++ json_string (lit "severity") ++ lit ":" ++ json_string (lit (preflight_severity_as_str (finding_severity f)))
  ++ lit "," ++ json_string (lit "message") ++ lit ":" ++ json_string (finding_message f) ++ lit "}".
Definition render_json (r : PreflightReport) : str :=
  lit "{" ++ json_string (lit "ok") ++ lit ":" ++ fmt_bool (negb (has_errors r))
  ++ lit "," ++ json_string (lit "config") ++ lit ":" ++ json_string (report_config_path r)
  ++ lit "," ++ json_string (lit "warning_count") ++ lit ":" ++ fmt_u64 (len (report_warnings r))
  ++ lit "," ++ json_string (lit "error_count") ++ lit ":" ++ fmt_u64 (len (report_errors r))
  ++ lit "," ++ json_string (lit "warnings") ++ lit ":[" ++ join (lit ",") (render_finding <$> report_warnings r)
  ++ lit "]," ++ json_string (lit "errors") ++ lit ":[" ++ join (lit ",") (render_finding <$> report_errors r) ++ lit "]}".

(** ** Theorems *)

(** A reader of JSON strings: the value and what follows it. *)
Definition hex_code (c : Z) : option Z :=
  if (48 <=? c) && (c <=? 57) then Some (c - 48) else if (97 <=? c) && (c <=? 102) then Some (c - 87)
  else if (65 <=? c) && (c <=? 70) then Some (c - 55) else None.
Definition short_escape (c : Z) : option Z :=
  if c =? 34 then Some 34 else if c =? 92 then Some 92 else if c =? 47 then Some 47 else if c =? 98 then Some 8
  else if c =? 102 then Some 12 else if c =? 110 then Some 10 else if c =? 114 then Some 13 else if c =? 116 then Some 9 else None.
Fixpoint json_chars (s : str) : option (str * str) :=
  match s with
  | [] => None
  | c :: s =>
      if c =? 34 then Some ([], s)
      else if c =? 92 then
        match s with
        | 117 :: h1 :: h2 :: h3 :: h4 :: s =>
            a ← hex_code h1; b ← hex_code h2; c ← hex_code h3; d ← hex_code h4;
            '(v, rest) ← json_chars s; Some (4096 * a + 256 * b + 16 * c + d :: v, rest)
        | x :: s => y ← short_escape x; '(v, rest) ← json_chars s; Some (y :: v, rest)
        | [] => None
        end
      else if (0 <=? c) && (c <=? 31) then None
      else '(v, rest) ← json_chars s; Some (c :: v, rest)
  end.
Definition json_read (s : str) : option (str * str) := match s with 34 :: s => json_chars s | _ => None end.

Lemma hex_code_lower n : 0 <= n < 16 -> hex_code (Address.hex_lower n) = Some n.
Proof.
  intros Hn. unfold hex_code, Address.hex_lower.
  destruct (n <? 10) eqn:H.
  - replace ((48 <=? 48 + n) && (48 + n <=? 57)) with true by lia. f_equal. lia.
  - replace ((48 <=? 87 + n) && (87 + n <=? 57)) with false by lia.
    replace ((97 <=? 87 + n) && (87 + n <=? 102)) with true by lia. f_equal. lia.
Qed.
Lemma json_chars_escape c s v rest : json_chars s = Some (v, rest) -> json_chars (json_escape c ++ s) = Some (c :: v, rest).
Proof.
  intros Hs. unfold json_escape.
  repeat match goal with |- context [if ?x =? ?y then _ else _] =>
    destruct (Z.eqb_spec x y) as [->|?]; [cbn; by rewrite Hs|] end.
  destruct (is_control c) eqn:Hc.
  - unfold is_control in Hc. assert (0 <= c < 160) as Hr by lia.
    cbn [fmap list_fmap]. change (lit "\u") with [92; 117]. cbn [app].
    set (h1 := c / 4096 mod 16). set (h2 := c / 256 mod 16). set (h3 := c / 16 mod 16). set (h4 := c mod 16).
    change (json_chars (92 :: 117 :: Address.hex_lower h1 :: Address.hex_lower h2 :: Address.hex_lower h3 :: Address.hex_lower h4 :: s))
      with (a ← hex_code (Address.hex_lower h1); b ← hex_code (Address.hex_lower h2); c ← hex_code (Address.hex_lower h3);
            d ← hex_code (Address.hex_lower h4);
            '(v, rest) ← json_chars s; Some (4096 * a + 256 * b + 16 * c + d :: v, rest)).
    rewrite !hex_code_lower by (apply Z.mod_pos_bound; lia). rewrite Hs. cbn [mbind option_bind]. do 3 f_equal.
    unfold h1, h2, h3, h4. rewrite (Z.mod_small (c / 4096)), (Z.mod_small (c / 256)), (Z.mod_small (c / 16))
      by (split; [apply Z.div_pos; lia|apply Z.div_lt_upper_bound; lia]).
    rewrite (Z.div_small c 4096), (Z.div_small c 256) by lia. pose proof (Z.div_mod c 16). lia.
  - cbn [app]. cbn [json_chars]. rewrite (proj2 (Z.eqb_neq c 34)), (proj2 (Z.eqb_neq c 92)) by done.
    unfold is_control in Hc. replace ((0 <=? c) && (c <=? 31)) with false by lia. by rewrite Hs.
Qed.

(** What the report prints is read back: whatever a message, a path or a
    check's name holds, its JSON form is one string that ends where it ends. *)
Lemma json_string_roundtrip s rest : json_read (json_string s ++ rest) = Some (s, rest).
Proof.
  unfold json_string. cbn [app json_read]. rewrite <- app_assoc. induction s as [|c s IH]; [done|].
  change ((c :: s) ≫= json_escape) with (json_escape c ++ (s ≫= json_escape)). rewrite <- app_assoc. by apply json_chars_escape.
Qed.

(** *** Reports without errors *)

Definition clean (l : list PreflightFinding) : Prop := existsb (fun f => bool_decide (finding_severity f = SeverityError)) l = false.
Lemma clean_app l k : clean (l ++ k) <-> clean l /\ clean k.
Proof. unfold clean. by rewrite existsb_app, orb_false_iff. Qed.
Lemma clean_problem_if x c m : clean (problem_if x c m) <-> x = false.
Proof. by destruct x. Qed.
Lemma clean_failed {A} describe c (r : result error A) : clean (failed describe c r) <-> forall x, r <> Err x.
Proof. destruct r; split; try done. intros H. by destruct (H e). Qed.
Lemma clean_refused {A} c (r : result str A) : clean (refused c r) <-> forall x, r <> Err x.
Proof. destruct r; split; try done. intros H. by destruct (H e). Qed.

Section Sound.
Context `{HC : Crypto} (b : Build) (d : Documents) (e : Environment) (describe : error -> str).

Lemma validate_tls_clean t : clean (validate_tls d e describe t) -> client_tls_mode t <> TlsDisable -> forall x, tls_assets e t <> Err x.
Proof.
  unfold validate_tls. rewrite !clean_app. intros (_ & _ & _ & H & _) Hm. rewrite (bool_decide_eq_false_2 _ Hm), orb_true_r in H.
  rewrite clean_failed in H. exact H.
Qed.

(** A preflight report without errors means that the start of the proxy
    will not fail on what the file names: the engine is available in this
    build, the TLS assets load, the users file is read, the credentials of
    the backend are there; and the grace periods and the adaptive limits are
    in their bounds. *)
Theorem preflight_sound path contents c :
  doc_contents d = Ok contents -> doc_config d contents = Ok c -> has_errors (preflight_run b d e describe path) = false ->
  engine_available b (runtime_engine (engine (runtime c))) (experimental_runtime_enabled (engine (runtime c))) = true
  /\ (forall x, validate_runtime_assets e c <> Err x)
  /\ (forall x, load_backend_credentials (process_env e) (auth c) <> Err x)
  /\ (forall x, adaptive_validate (adaptive (production (runtime c))) <> Err x)
  /\ (let l := lifecycle (runtime c) in
      startup_grace_ms l <> 0 /\ shutdown_grace_ms l <> 0 /\ termination_grace_period_seconds l <> 0
      /\ shutdown_grace_ms l <= termination_grace_period_seconds l * 1000).
Proof.
  intros Hd Hc. unfold has_errors, preflight_run. cbn [report_findings]. rewrite Hd, Hc. fold (clean (
    validate_runtime_engine b c ++ validate_tls d e describe (tls c) ++ validate_auth e describe c ++ validate_route_maps d contents
    ++ validate_policies d contents ++ validate_mirror d contents (backend_addr (connection c)) ++ validate_lifecycle c
    ++ validate_adaptive c)).
  rewrite !clean_app. intros (Heng & Htls & Hauth & _ & _ & _ & Hlife & Hadapt).
  unfold validate_auth in Hauth. rewrite !clean_app in Hauth. destruct Hauth as (Husers & Hcred & _).
  unfold validate_adaptive in Hadapt. rewrite clean_refused in Hadapt. rewrite clean_failed in Hcred. split; [|split; [intros x|split; [done|split; [done|]]]].
  - unfold validate_runtime_engine, capabilities_validate, engine_available in *.
    by destruct (platform_supported _ _), (feature_supported _ _), (is_experimental _), (experimental_runtime_enabled _).
  - unfold validate_runtime_assets, load_client_tls_server_config, load_auth_users.
    assert (forall y, (match client_tls_mode (tls c) with TlsDisable => Ok None | _ => _ ← tls_assets e (tls c); Ok (Some tt) end)
                      <> Err y) as H1.
    { intros y. pose proof (validate_tls_clean _ Htls) as Ht. destruct (client_tls_mode (tls c)); [done|..];
        specialize (Ht ltac:(done)); destruct (tls_assets e (tls c)); try done; cbn; intros [= ->]; by eapply Ht. }
    destruct (match client_tls_mode _ with TlsDisable => _ | _ => _ end) as [|y|]; [|by destruct (H1 y)|done]. cbn [mbind result_bind].
    unfold load_backend_credentials in Hcred.
    destruct (auth_users_file (auth c)) as [f|]; cbn [from_option] in Husers; cbn [mbind result_bind].
    + rewrite clean_failed in Husers. destruct (load_user_store (Some (users_file e f))) as [|y|]; [cbn|by destruct (Husers y)|done].
      destruct (load_backend_credential_provider (auth c)) as [|y|]; try done. by destruct (Hcred y).
    + destruct (load_backend_credential_provider (auth c)) as [|y|]; try done. by destruct (Hcred y).
  - unfold validate_lifecycle in Hlife. cbv zeta in Hlife. rewrite !clean_app, !clean_problem_if in Hlife. cbv zeta. lia.
Qed.
End Sound.

(** *** Runs *)

(** A file that is the configuration [c]. *)
Definition file_of (c : Config) : Documents := {|
  doc_contents := Ok []; doc_config := fun _ => Ok c; doc_sharding := fun _ => Ok None; doc_policy := fun _ => Ok None;
  doc_mirror := fun _ => Ok None; doc_unreadable := fun _ => None; doc_wasm := fun _ => None; doc_backend_client := fun _ => Ok tt;
  doc_backend_settings := fun _ => Ok tt |}.
Definition linux_build : Build := {| target_linux := true; target_os := lit "linux"; io_uring_feature := false |}.

Lemma preflight_sound_witness :
  has_errors (preflight_run (HC := toy) linux_build (file_of (Demo.demo 1)) (Demo.demo_environment 1) (fun _ => []) []) = false
  /\ forall x, validate_runtime_assets (HC := toy) (Demo.demo_environment 1) (Demo.demo 1) <> Err x.
Proof.
  split; [by vm_compute|].
  exact (proj1 (proj2 (preflight_sound (HC := toy) linux_build (file_of (Demo.demo 1)) (Demo.demo_environment 1) (fun _ => []) []
                         [] (Demo.demo 1) eq_refl eq_refl ltac:(by vm_compute)))).
Defined.

(** The checks of the configuration itself are not among those of the
    preflight: it passes a file that the start refuses. *)
Example preflight_passes_what_the_start_refuses :
  has_errors (preflight_run (HC := toy) linux_build (file_of (Demo.demo 2)) (Demo.demo_environment 2) (fun _ => []) []) = false
  /\ result_ok (config_validate (Demo.demo 2)) = None.
Proof. by vm_compute. Qed.
